(* ===== verification/_CoqProject ===== *)
-Q . S2P
Prelude.v
BitField.v
Result.v
StdSet.v
MemoryRegion.v
HandleTable.v
LinkedList.v
CoreTiming.v
VMManager.v
ResourceLimit.v
Process.v
ProcessSpecs.v
ProcessMemory.v
ProcessRequests.v
ProcessMachine.v
ProcessLifetime.v
ProcessModel.v
Ipc.v
HleIpc.v
HleIpcValues.v
HleIpcRequests.v
HleIpcReplies.v
HleIpcModel.v
IpcTranslate.v
IpcCommands.v
IpcBuffers.v
IpcModel.v
Cro.v
CroMemory.v
CroLists.v
CroTables.v
CroSymbols.v
CroRelocations.v
CroRebase.v
CroUnrebase.v
CroModel.v
LdrRo.v
ArmSupp.v
ArmDecode.v
Thumb.v
Color.v
Kernel.v
Skeleton.v
Sync.v
Reschedule.v
KernelCalls.v
SyncSpecs.v
KernelModel.v
PicaFloat.v
ShaderBytecode.v
Shader.v
ShaderUpload.v
ShaderFlow.v
ShaderSafe.v
ShaderModel.v
Geometry.v
Draw.v
DrawModel.v
Command.v
CommandModel.v
ArmState.v
ArmOperands.v
ArmTrans.v
ArmExec.v
ArmMedia.v
ArmLdSt.v
ArmLoop.v
ArmTyped.v
ArmSafe.v
ArmLabels.v
ArmRun.v
ArmCore.v
ArmSpecs.v
ArmShift.v
ArmArith.v
ArmStack.v
ArmModes.v
ArmDecoded.v
ArmModel.v
