(* ===== verification/Prelude.v ===== *)
(** * hle-hw: verification library (root file)

    hle-hw is a high-level emulator of the Nintendo 3DS in C++.  This development models
    parts of its core (src/core), of its GPU (src/video_core) and of its utilities
    (src/common) as executable definitions, and proves what makes them correct.

    ** How the program is put together

    Guest code runs on an ARM interpreter, which decodes ARM words, translates Thumb
    instructions to ARM ones, and runs translated blocks of instructions.  Its system
    calls reach the HLE kernel: threads and waitable objects (mutexes, semaphores,
    events, timers) named by handles; processes with a virtual address space whose memory
    comes from FCRAM regions, within the limits of a resource limit object; commands that
    are translated from one process to another, or to a service of the emulator; results
    as packed error codes.  Timeouts and hardware events are kept by an event scheduler
    that counts CPU cycles.  The GPU runs command lists that write its registers, reads
    pixels in many formats, and its shader units run vertex and geometry programs
    uploaded by the guest.  Among the services, ldr:ro loads modules into a process at run
    time: it relocates them, links their symbols and keeps them in lists.

    ** The parts and their files

    - [Prelude]: machine words, words as bytes, tactics, the hint database [hle].
    - [BitField]: common/bit_field.h.  Storage widths, masks and integral promotions.
    - [Result]: core/hle/result.h, kernel/errors.h.  Also the monad [op] of the kernel
      operations: a state, and a value, an error code or a failed assertion.
    - [StdSet]: [std::set] with a user comparator, as used by [MemoryRegion].
    - [MemoryRegion]: kernel/memory.cpp, the allocator of FCRAM.
    - [HandleTable]: kernel/handle_table.cpp.
    - [LinkedList], [CoreTiming]: core/core_timing.cpp on an explicit heap of nodes.
    - [VMManager]: kernel/vm_manager.cpp, the areas of an address space and the page
      table kept in step with them.
    - [ResourceLimit]: kernel/resource_limit.cpp.  [Process]: the memory of a process
      (kernel/process.cpp, memory.cpp, svcControlMemory in svc.cpp) on [VMManager],
      [MemoryRegion] and [ResourceLimit], against the interface [MemorySystem].
      [ProcessSpecs] states who owns what memory, [ProcessMemory] the four requests,
      [ProcessRequests] the other requests and what each leaves behind, [ProcessMachine]
      histories of the requests of several processes, [ProcessLifetime] the regions, the
      capabilities, thread local storage and the end of a process, [ProcessModel] an
      instance of the interface and runs.
    - [Ipc]: headers and descriptors of commands (core/hle/ipc.h), and commands as lists
      of parameters.  [HleIpc]: a request as a service has it (kernel/hle_ipc.cpp,
      ipc_helpers.h); [HleIpcValues] pushing and popping, [HleIpcRequests] what a service
      receives, [HleIpcReplies] what the guest gets back, [HleIpcModel] a guest and a
      service.  [IpcTranslate]: commands from process to process (kernel/ipc.cpp) on
      [HandleTable] and [VMManager]; [IpcCommands] parameter by parameter, [IpcBuffers]
      the life of a mapped buffer, [IpcModel] two processes.
    - [Cro]: modules (service/ldr_ro/cro_helper.cpp), with words read and written through
      the interface [WordMemory]; [LdrRo] the requests of the service (ldr_ro.cpp) on
      [Process].  [CroMemory] has the laws of the interface and memory as bytes at
      addresses, [CroTables] entries of tables, [CroLists] the lists of modules,
      [CroSymbols] exported names, [CroRelocations] batches of relocations, [CroRebase] and
      [CroUnrebase] how loading changes a module and unloading changes it back, [CroModel]
      a module in memory.
    - [Kernel]: threads, waitable objects, scheduling and the waiting system calls
      (kernel/thread.cpp, wait_object.cpp, mutex.cpp, semaphore.cpp, event.cpp,
      timer.cpp, svc.cpp), against the interfaces [ReadyQueueLaws] and [TimingService].
      [Skeleton] holds the pure effect of the operations and the invariants, [Sync] the
      correspondence of the two and waking up, [Reschedule] the scheduler,
      [KernelCalls] one lemma per call and the reachable states, [SyncSpecs] what
      signalling does, [KernelModel] instances of the interfaces and the runs that the
      theorems are applied to.
    - [ArmSupp], [ArmDecode], [Thumb]: skyeye_common/armsupp.cpp,
      dyncom/arm_dyncom_dec.cpp, dyncom/arm_dyncom_thumb.cpp.
    - The ARM interpreter (core/arm/dyncom): [ArmState] is the processor state
      (skyeye_common/armstate.cpp) on the interface [MemoryInterface]; [ArmTrans] the
      translators of instructions (arm_dyncom_trans.cpp); [ArmOperands], [ArmExec],
      [ArmMedia], [ArmLdSt] the labels of the main loop and [ArmLoop] the loop itself
      (arm_dyncom_interpreter.cpp).  [ArmTyped], [ArmSafe], [ArmLabels] are a small
      program logic and its rule for every label, [ArmRun] and [ArmCore] blocks and whole
      runs, [ArmSpecs], [ArmShift], [ArmArith], [ArmStack], [ArmModes], [ArmDecoded] what
      instructions compute, [ArmModel] an instance of the interfaces.
    - [Color]: common/color.h.
    - [PicaFloat]: video_core/pica_types.h, pica/packed_attribute.h, on the binary32
      of the Standard Library's [SpecFloat].
    - [ShaderBytecode], [Shader]: the shader instructions (nihstro/shader_bytecode.h),
      shader units, setups (pica/shader_unit.cpp, shader_setup.cpp) and their
      interpreter (shader/shader_interpreter.cpp).  [ShaderUpload], [ShaderFlow] and
      [ShaderSafe] hold its theorems, [ShaderModel] an assembler and the runs.
    - [Geometry]: what is behind the vertex shader: the geometry pipeline with its three
      backends, output vertices and primitive assembly (pica/geometry_pipeline.cpp,
      output_vertex.cpp, primitive_assembly.cpp).  [Draw]: what is before it and around
      it: the vertex loader, indexed draws with their vertex cache and immediate mode
      (pica/vertex_loader.cpp, pica_core.cpp).  The loop of a draw takes the shader and
      the geometry pipeline as operations, its theorem is proved against them.
      [DrawModel]: a draw call from bytes in memory to triangles.  [Command]: register
      writes and command lists (pica_core.cpp) on [Draw]; [CommandModel] runs of them.
    State is a record, or an explicit heap where the code has pointers; an operation
    threads it and returns a value, an error or a failed assertion ([ASSERT] and
    [DEBUG_ASSERT] abort, see common/assert.h).  Unsigned integers are [Z] with the wrap of their type
    written where the code can wrap.  An access outside an array, which C++ leaves
    undefined, fails like an assertion, so that a proof that nothing fails is also a proof
    that arrays are not left.

    ** What the theorems show

    - Memory: every reachable FCRAM region is a set of disjoint, merged free intervals;
      allocations return free memory, first or last fit, freeing restores the region,
      and refusals change nothing.  Requests on an address space refine an abstract map
      from addresses to attributes, the areas tile it, and the page table agrees with
      it after any history of requests.  Over any history of the memory requests of several
      processes, interleaved as they like, the address spaces, the allocator and the resource
      limits agree on who owns what; no request trips an assertion under stated conditions,
      and the end of a process returns everything.  (Blocks of shared memory are not requests of
      this model.)  Freeing what was allocated restores the host pointers, but the permissions
      only outside of neighbours that the allocation merged with.
    - Kernel: in every state that calls can reach, waiting lists, wait objects, ready
      queue and mutex owners agree, and no allowed call trips an assertion; a locked
      mutex has one owner; waking up terminates and takes the most urgent waiter that
      can go on; rescheduling runs the most urgent thread; what a semaphore release and
      an event signal do.  Handles refine a partial map; closed handles stay invalid.
    - Commands: translating a command word by word is translating it parameter by
      parameter, errors included; handles are copied or moved as their descriptors say;
      a mapped buffer is in the address space of the receiver between guard pages until
      the reply takes it out again; a service pops what was sent and the guest gets what
      was pushed.
    - Modules: the links in the headers are the two lists of registered modules after any
      history; a name is found exactly when it is exported; a batch of relocations patches
      its words and no other byte; unrebasing a static module undoes its rebasing.
    - Events: the scheduler refines a sorted queue of pending events; advancing runs
      what is due, what repeating callbacks schedule meanwhile included; idling is bounded by the next event.
    - CPU: arithmetic helpers against integer arithmetic; the decoder returns the first
      matching table entry; a Thumb halfword is translated to what the
      architecture says it means, but for listed deviations; every integer instruction other
      than a system call keeps the processor well formed, and only [RFE] among them leaves
      user mode; the main loop ends within its budget, followed up to the first system call or
      floating point instruction; shifter
      operands are the shifts of the architecture; a block is the translation of its
      memory; pushing and popping registers; exclusive accesses.
    - GPU: pixel formats round trip; command lists write the registers they encode, jumps
      from list to list included; a
      shader with nested scopes computes the direct semantics of its structure; no
      shader makes the interpreter leave its arrays.  The vertex cache is transparent; a
      group of vertices for the geometry shader is one write and one run; runs of
      vertices give the triangles of their topology.
    - Defects of the code are stated as theorems where they could be: they are listed
      as findings beside this development.

    ** Fuel and bounds

    [wakeup_loop] has fuel one more than the number of waiters: each round removes one.
    [pop_loop] has fuel one more than the number of queued threads.  Traversals of
    linked lists have one more than the size of the heap ([list_fuel]).  [Advance] and
    [Idle] take their fuel as an argument: [Advance_runs_due] says that some fuel, and any
    more, is enough.  [ProcessCmdList] has one unit per round: as many as there are commands
    are enough for lists that jump to each other finitely often, and a list that jumps to itself
    has no end ([self_jump_never_ends]).
    [Shader.run] has a fuel argument: the theorem on structured shaders gives a fuel that
    is enough, as any program with jumps may run forever.  [info_table] and the decoder
    tables are walked structurally.  A block of ARM instructions ends with its page, so
    its translation has one unit per halfword of a page ([page_fuel]); the main loop has
    [loop_fuel], two units for each of its rounds, and the theorem on termination says that
    this is enough.  The loops over a command have one more unit than its words: each round
    consumes at least a descriptor.  The loops of modules that follow data of the guest
    take their fuel as an argument, and without enough of it fail: the theorems say how
    much is enough (the height of the tree, the entries of the batch, the modules of the
    list), and [find_leaf_hangs] that for a tree with a cycle there is none.

    ** Parameters

    Code that is not in the repository is a parameter: the memory system (memory.cpp is
    missing, and memory.h is not the one that the kernel includes), which each client takes
    as the interface it needs ([MemorySystem] for processes, [GuestMemory] and [IpcArea]
    for commands, [WordMemory] for modules, [MemoryInterface] for the processor; the classes ending in [Laws] state
    what the clients rely on, and every one has an instance); [BitField::FormatValue] and
    [ExtractValue] used by result.h; the ready queue as thread.cpp uses it
    ([ThreadQueueList] in common/thread_queue_list.h has another interface); the cycle
    conversion; the hash of shader programs; [std::exp2] and [std::log2]; physical memory
    as [GetPhysicalPointer] gives it; the page table of the running process and the bounds of the process image, for
    modules; the contents of local arrays that the code does not
    initialise.  The sizes of translated instructions in bytes are those of the compiler.  The
    processor calls the kernel and the floating point unit, whose code is under src/ and not
    modelled with it, through interfaces of which nothing is assumed: the theorems are about
    the instructions that do not use them.

    ** Choices

    Positions in the buffer of translated instructions count instructions, where the code
    counts bytes; the buffer is that of one core.  A
    buffer made with [std::make_shared] is placed by a counter ([heap]), with a gap behind it: its
    address is not used otherwise.  The operations leave out some effects that their theorems
    do not mention: [UpdatePageTable] does not tell the plugin loader of the change,
    [SwitchContext] does not assert that the process of a thread still exists,
    [PopNextReadyThread] does not skip threads of core 1 over their time limit,
    [WriteInternalReg] does not call the debugger.  [ReleaseThreadMutexes] goes through the
    mutexes of a thread in the order of a finite set, where the code has that of their addresses.
    The ready queue ([ReadyQueueLaws]) may be pushed to at any priority; the code prepares
    the levels first.  Outgoing handles of a parameter pack are added from left to right.
    Objects with reference counts are values: what destructors do is modelled where an
    operation relies on it.  What a request of ldr:ro pushes is its outcome; its arguments are
    given to it.

    ** Not modelled

    The other services, file systems, frontends, audio, network and the debuggers are input and
    output on state outside the emulator.  The floating point unit of the processor
    (skyeye_common/vfp) is the emulation of the Linux kernel, and core/arm/interpreter is
    the SkyEye interpreter, which the build keeps beside the one in use: both are
    third-party code.  Renderers for a host API, shader generators and the texture cache
    build text and objects for graphics drivers.  Ports and sessions are reference-counted
    objects whose destructors drive the protocol.  Of the modelled parts,
    serialization, logging, profiling and the hooks of debuggers are left out everywhere. *)
From Stdlib Require Export ZArith Lia Bool.
From stdpp Require Export relations sorting.
From stdpp Require Export base numbers list sets tactics.
(* stdpp's list names take precedence over the Standard Library's. *)
Export list_basics.list list_relations.list list_monad.list list_misc.list list_tactics.list.

Local Open Scope Z_scope.

(** ** Machine words

    A [w]-bit unsigned integer is a [Z] in [[0, 2^w)]; a computation that C++
    performs modulo [2^w] is written with the wrap of its type.  Signed types
    are the [Z] in [[-2^(w-1), 2^(w-1))]. *)
Definition u8 (x : Z) : Z := x mod 256.
Definition u16 (x : Z) : Z := x mod 65536.
Definition u32 (x : Z) : Z := x mod 4294967296.
Definition u64 (x : Z) : Z := x mod 18446744073709551616.
Definition s8 (x : Z) : Z := (x + 128) mod 256 - 128.
Definition s16 (x : Z) : Z := (x + 32768) mod 65536 - 32768.
Definition s32 (x : Z) : Z := (x + 2147483648) mod 4294967296 - 2147483648.
Definition s64 (x : Z) : Z :=
  (x + 9223372036854775808) mod 18446744073709551616 - 9223372036854775808.

Definition is_u8 (x : Z) : Prop := 0 <= x < 256.
Definition is_u16 (x : Z) : Prop := 0 <= x < 65536.
Definition is_u32 (x : Z) : Prop := 0 <= x < 4294967296.
Definition is_u64 (x : Z) : Prop := 0 <= x < 18446744073709551616.
Definition is_s32 (x : Z) : Prop := -2147483648 <= x < 2147483648.
Definition is_s64 (x : Z) : Prop := -9223372036854775808 <= x < 9223372036854775808.

(** ** Tactics *)

(** Linear arithmetic with quotients and remainders. *)
Ltac zlia := Z.div_mod_to_equations; lia.

Ltac unfold_words :=
  unfold u8, u16, u32, u64, s8, s16, s32, s64,
    is_u8, is_u16, is_u32, is_u64, is_s32, is_s64 in *.

(** Arithmetic on words: every wrap is unfolded. *)
Ltac word_lia := unfold_words; zlia.

(** Case analysis on the boolean comparisons of the goal and the context. *)
Ltac zbool :=
  repeat match goal with
  | H : (_ <? _) = true |- _ => apply Z.ltb_lt in H
  | H : (_ <? _) = false |- _ => apply Z.ltb_ge in H
  | H : (_ <=? _) = true |- _ => apply Z.leb_le in H
  | H : (_ <=? _) = false |- _ => apply Z.leb_gt in H
  | H : (_ =? _) = true |- _ => apply Z.eqb_eq in H
  | H : (_ =? _) = false |- _ => apply Z.eqb_neq in H
  | H : negb _ = true |- _ => apply negb_true_iff in H
  | H : negb _ = false |- _ => apply negb_false_iff in H
  | H : _ && _ = true |- _ => apply andb_true_iff in H; destruct H
  | H : _ || _ = false |- _ => apply orb_false_iff in H; destruct H
  end.

Ltac zcase :=
  match goal with
  | |- context [?a <? ?b] => destruct (Z.ltb_spec a b)
  | |- context [?a <=? ?b] => destruct (Z.leb_spec a b)
  | |- context [?a =? ?b] => destruct (Z.eqb_spec a b)
  end.

(** Comparisons whose result follows from the context. *)
Ltac zdecide :=
  repeat match goal with
  | |- context [?a <? ?b] =>
      first [rewrite (proj2 (Z.ltb_lt a b)) by lia | rewrite (proj2 (Z.ltb_ge a b)) by lia]
  | |- context [?a <=? ?b] =>
      first [rewrite (proj2 (Z.leb_le a b)) by lia | rewrite (proj2 (Z.leb_gt a b)) by lia]
  | |- context [?a =? ?b] =>
      first [rewrite (proj2 (Z.eqb_eq a b)) by lia | rewrite (proj2 (Z.eqb_neq a b)) by lia]
  end.

(** Membership in an explicit list. *)
Ltac mem_list := rewrite ?elem_of_app, ?elem_of_cons; intuition auto.

Create HintDb hle discriminated.
Create HintDb words discriminated.

Lemma u32_small x : is_u32 x -> u32 x = x.
Proof. intros. word_lia. Qed.

Lemma u32_range x : is_u32 (u32 x).
Proof. word_lia. Qed.

Lemma u16_small x : is_u16 x -> u16 x = x.
Proof. intros. word_lia. Qed.

Lemma u16_range x : is_u16 (u16 x).
Proof. word_lia. Qed.

Lemma u8_small x : is_u8 x -> u8 x = x.
Proof. intros. word_lia. Qed.

Lemma u8_range x : is_u8 (u8 x).
Proof. word_lia. Qed.

Lemma u64_small x : is_u64 x -> u64 x = x.
Proof. intros. word_lia. Qed.

Lemma u64_range x : is_u64 (u64 x).
Proof. word_lia. Qed.

Lemma s32_small x : is_s32 x -> s32 x = x.
Proof. intros. word_lia. Qed.

Lemma s32_range x : is_s32 (s32 x).
Proof. word_lia. Qed.

#[export] Hint Resolve u8_range u16_range u32_range u64_range s32_range : hle.
#[export] Hint Rewrite u8_small u16_small u32_small u64_small s32_small
  using (unfold_words; lia) : words.

(** ** Neighbours in a list *)

(** Every two neighbours are related. *)
Fixpoint chain {A} (R : A -> A -> Prop) (l : list A) : Prop :=
  match l with
  | x :: (y :: _) as r => R x y /\ chain R r
  | _ => True
  end.

Lemma chain_app {A} (R : A -> A -> Prop) p q :
  chain R (p ++ q) <->
  chain R p /\ chain R q /\ (forall x y, last p = Some x -> head q = Some y -> R x y).
Proof.
  assert (H2 : forall x y l, chain R (x :: y :: l) <-> R x y /\ chain R (y :: l)) by done.
  induction p as [|x [|y p] IH].
  - split; [|tauto]. intros H. split; [done|]. split; [done|]. intros x y [=].
  - simpl app. destruct q as [|z q].
    + split; [|tauto]. intros _. split; [done|]. split; [done|]. intros ??? [=].
    + rewrite H2. split.
      * intros [H3 H4]. split; [done|]. split; [done|]. by intros v w [= ->] [= ->].
      * intros (_ & H3 & H4). split; [|done]. by apply H4.
  - simpl app in *. rewrite !H2, IH. change (last (x :: y :: p)) with (last (y :: p)). tauto.
Qed.


(** Words without a common bit. *)
Lemma lor_add x y k : 0 <= k -> 0 <= y < 2 ^ k -> x mod 2 ^ k = 0 -> Z.lor x y = x + y.
Proof.
  intros Hk Hy Hx. rewrite <-Z.add_lor_land. replace (Z.land x y) with 0; [lia|].
  symmetry. apply Z.bits_inj'. intros i Hi. rewrite Z.land_spec, Z.bits_0.
  destruct (Z.lt_ge_cases i k).
  - rewrite <-(Z.mod_pow2_bits_low x k), Hx, Z.bits_0 by lia. done.
  - rewrite <-(Z.mod_small y (2 ^ k)), Z.mod_pow2_bits_high by lia. by rewrite andb_false_r.
Qed.

(** ** Little-endian words *)

(** The number in little-endian bytes. *)
Fixpoint le_value (bytes : list Z) : Z :=
  match bytes with [] => 0 | b :: bytes => b + 256 * le_value bytes end.

(** The bytes of a word, and the words of a run of bytes. *)
Definition le32 (v : Z) : list Z :=
  [v mod 256; v / 2 ^ 8 mod 256; v / 2 ^ 16 mod 256; v / 2 ^ 24 mod 256].

Definition words_bytes (ws : list Z) : list Z := ws ≫= le32.

Fixpoint bytes_words (n : nat) (bytes : list Z) : list Z :=
  match n with
  | O => []
  | S n => le_value (take 4 bytes) :: bytes_words n (drop 4 bytes)
  end.

Lemma le_value_le32 v : is_u32 v -> le_value (le32 v) = v.
Proof. intros Hv. unfold le32. cbn [le_value]. unfold is_u32 in Hv. zlia. Qed.

Lemma length_words_bytes ws : length (words_bytes ws) = (4 * length ws)%nat.
Proof.
  induction ws as [|v ws IH]; [done|]. unfold words_bytes in *. cbn [mbind list_bind].
  rewrite length_app. cbn [mbind] in IH. rewrite IH. simpl. lia.
Qed.

Lemma words_bytes_cons v ws : words_bytes (v :: ws) = le32 v ++ words_bytes ws.
Proof. done. Qed.

Lemma words_bytes_app ws ws' : words_bytes (ws ++ ws') = words_bytes ws ++ words_bytes ws'.
Proof. apply bind_app. Qed.

Lemma length_bytes_words n bytes : length (bytes_words n bytes) = n.
Proof. revert bytes. induction n as [|n IH]; intros bytes; simpl; by rewrite ?IH. Qed.

Lemma bytes_words_bytes ws rest :
  Forall is_u32 ws -> bytes_words (length ws) (words_bytes ws ++ rest) = ws.
Proof.
  induction 1 as [|v ws Hv _ IH]; [done|]. rewrite words_bytes_cons, <-app_assoc. cbn [length bytes_words].
  change 4%nat with (length (le32 v)). by rewrite take_app_length, drop_app_length, le_value_le32, IH.
Qed.
