(* ===== verification/BitField.v ===== *)
(** * BitField: packed fields of a machine word (common/bit_field.h)

    [BitField<position, bits, T>] shares its storage, of type [T], with the other
    fields of the union.  The integral promotions of C++ matter here: an 8- or
    16-bit [StorageTypeU] is promoted to [int] before it is complemented and
    shifted, a 32- or 64-bit one is not. *)
From S2P Require Import Prelude.

Local Open Scope Z_scope.

(** The conversion to the [w]-bit signed type. *)
Definition swrap (w x : Z) : Z := (x + 2 ^ (w - 1)) mod 2 ^ w - 2 ^ (w - 1).

(** The conversion to [T], signed or not, of [w] bits. *)
Definition conv (w : Z) (sg : bool) (x : Z) : Z := if sg then swrap w x else x mod 2 ^ w.

(** [((~(StorageTypeU)0) >> (8 * sizeof(T)-bits)) << position], returned as a
    [StorageType]: [~] is computed on [int] when [StorageTypeU] is narrower. *)
Definition GetMask (w : Z) (sg : bool) (position bits : Z) : Z :=
  let ones := if w <? 32 then -1 else 2 ^ w - 1 in
  conv w sg (Z.shiftl (Z.shiftr ones (w - bits)) position).

(** [operator=(T val)] *)
Definition assign (w : Z) (sg : bool) (position bits storage val : Z) : Z :=
  let mask := GetMask w sg position bits in
  conv w sg (Z.lor (Z.land storage (Z.lnot mask)) (Z.land (Z.shiftl val position) mask)).

(** [operator T()] *)
Definition extract (w : Z) (sg : bool) (position bits storage : Z) : Z :=
  let mask := GetMask w sg position bits in
  if sg then
    let shift := w - bits in
    conv w sg (Z.shiftr (swrap (Z.max w 32) (Z.shiftl (Z.land storage mask) (shift - position)))
                 shift)
  else conv w sg (Z.shiftr (Z.land storage mask) position).

(** The [static_assert]s. *)
Definition field_ok (w position bits : Z) : Prop :=
  0 < bits /\ 0 <= position /\ bits + position <= w.

(** ** Bits of conversions *)

Lemma swrap_mod w x : 0 < w -> swrap w x mod 2 ^ w = x mod 2 ^ w.
Proof.
  intros Hw. unfold swrap. rewrite Zminus_mod_idemp_l. f_equal. lia.
Qed.

Lemma swrap_range w x : 0 < w -> - 2 ^ (w - 1) <= swrap w x < 2 ^ (w - 1).
Proof.
  intros Hw. unfold swrap.
  assert (E : 2 ^ w = 2 * 2 ^ (w - 1)) by (rewrite <-Z.pow_succ_r by lia; f_equal; lia).
  pose proof (Z.mod_pos_bound (x + 2 ^ (w - 1)) (2 ^ w)).
  assert (0 < 2 ^ (w - 1)) by (apply Z.pow_pos_nonneg; lia). lia.
Qed.

Lemma swrap_unique w x y :
  0 < w -> - 2 ^ (w - 1) <= x < 2 ^ (w - 1) -> x mod 2 ^ w = y mod 2 ^ w -> x = swrap w y.
Proof.
  intros Hw Hx E. unfold swrap.
  assert (E2 : 2 ^ w = 2 * 2 ^ (w - 1)) by (rewrite <-Z.pow_succ_r by lia; f_equal; lia).
  rewrite <-Z.add_mod_idemp_l, <-E, Z.add_mod_idemp_l by lia.
  rewrite Z.mod_small by lia. lia.
Qed.

Lemma testbit_conv w sg x n : 0 <= n < w -> Z.testbit (conv w sg x) n = Z.testbit x n.
Proof.
  intros Hn. unfold conv. destruct sg.
  - rewrite <-(Z.mod_pow2_bits_low (swrap w x) w n), swrap_mod by lia.
    by rewrite Z.mod_pow2_bits_low by lia.
  - by rewrite Z.mod_pow2_bits_low by lia.
Qed.

Lemma testbit_swrap w x n : 0 <= n < w -> Z.testbit (swrap w x) n = Z.testbit x n.
Proof. apply (testbit_conv w true). Qed.

Lemma mod_pow2_ext w x y :
  0 <= w -> (forall n, 0 <= n < w -> Z.testbit x n = Z.testbit y n) ->
  x mod 2 ^ w = y mod 2 ^ w.
Proof.
  intros Hw H. apply Z.bits_inj'. intros n Hn. destruct (Z.lt_ge_cases n w).
  - rewrite !Z.mod_pow2_bits_low by lia. by apply H.
  - by rewrite !Z.mod_pow2_bits_high by lia.
Qed.

Lemma testbit_GetMask w sg position bits n :
  32 <= w -> field_ok w position bits -> 0 <= n < w ->
  Z.testbit (GetMask w sg position bits) n = (position <=? n) && (n <? position + bits).
Proof.
  intros Hw (H1 & H2 & H3) Hn. unfold GetMask.
  rewrite (proj2 (Z.ltb_ge w 32)), testbit_conv by lia.
  rewrite Z.shiftl_spec by lia. replace (2 ^ w - 1) with (Z.ones w) by (rewrite Z.ones_equiv; lia).
  destruct (Z.leb_spec position n); simpl; [|by rewrite Z.testbit_neg_r by lia].
  rewrite Z.shiftr_spec by lia.
  destruct (Z.ltb_spec n (position + bits)).
  - apply Z.ones_spec_low. lia.
  - apply Z.ones_spec_high. lia.
Qed.

(** On 8- and 16-bit storage the mask has every bit from [position] up. *)
Lemma testbit_GetMask_narrow w sg position bits n :
  w < 32 -> field_ok w position bits -> 0 <= n < w ->
  Z.testbit (GetMask w sg position bits) n = (position <=? n).
Proof.
  intros Hw (H1 & H2 & H3) Hn. unfold GetMask.
  rewrite (proj2 (Z.ltb_lt w 32)), testbit_conv, Z.shiftl_spec by lia.
  destruct (Z.leb_spec position n); [|by rewrite Z.testbit_neg_r by lia].
  rewrite Z.shiftr_spec by lia. by rewrite Z.bits_m1 by lia.
Qed.

Lemma testbit_assign w sg position bits s v n :
  field_ok w position bits -> 0 <= n < w ->
  Z.testbit (assign w sg position bits s v) n =
  if Z.testbit (GetMask w sg position bits) n then Z.testbit v (n - position)
  else Z.testbit s n.
Proof.
  intros (H1 & H2 & H3) Hn. unfold assign.
  rewrite testbit_conv, Z.lor_spec, !Z.land_spec, Z.lnot_spec, Z.shiftl_spec by lia.
  destruct (Z.testbit (GetMask w sg position bits) n); simpl;
    rewrite ?andb_false_r, ?andb_true_r, ?orb_false_r; done.
Qed.

(** What a field reads: its bits, sign-extended for a signed [T]. *)
Definition field_value (sg : bool) (position bits storage : Z) : Z :=
  conv bits sg (Z.shiftr storage position).

Lemma extract_wide w sg position bits s :
  32 <= w -> field_ok w position bits ->
  extract w sg position bits s = field_value sg position bits s.
Proof.
  intros Hw Hf. pose proof Hf as (H1 & H2 & H3). unfold extract, field_value. destruct sg.
  - change (conv w true) with (swrap w). change (conv bits true) with (swrap bits).
    apply swrap_unique; [done| |].
    + set (y := swrap (Z.max w 32) _). pose proof (swrap_range (Z.max w 32)
        (Z.shiftl (Z.land s (GetMask w true position bits)) (w - bits - position)) ltac:(lia)) as Hy.
      change (swrap _ _) with y in Hy. rewrite (Z.max_l w 32) in Hy by lia.
      assert (Hr : - 2 ^ (bits - 1) <= Z.shiftr y (w - bits) < 2 ^ (bits - 1)).
      { rewrite Z.shiftr_div_pow2 by lia.
        assert (E : 2 ^ (w - 1) = 2 ^ (bits - 1) * 2 ^ (w - bits))
          by (rewrite <-Z.pow_add_r by lia; f_equal; lia).
        assert (0 < 2 ^ (w - bits)) by (apply Z.pow_pos_nonneg; lia).
        split; [apply Z.div_le_lower_bound; lia|apply Z.div_lt_upper_bound; lia]. }
      rewrite <-(swrap_unique w (Z.shiftr y (w - bits)) (Z.shiftr y (w - bits))); [done|lia| |done].
      assert (2 ^ (bits - 1) <= 2 ^ (w - 1)) by (apply Z.pow_le_mono_r; lia). lia.
    + apply mod_pow2_ext; [lia|]. intros n Hn.
      rewrite testbit_swrap by lia. rewrite Z.shiftr_spec by lia.
      rewrite testbit_swrap by lia.
      rewrite Z.shiftl_spec, Z.land_spec, testbit_GetMask by lia || done.
      rewrite Z.shiftr_spec by lia. replace (n + (w - bits) - (w - bits - position)) with (n + position) by lia.
      rewrite (proj2 (Z.leb_le _ _)), (proj2 (Z.ltb_lt _ _)) by lia. by rewrite andb_true_r.
  - change (conv w false) with (fun x => x mod 2 ^ w).
    change (conv bits false) with (fun x => x mod 2 ^ bits). cbv beta.
    rewrite <-(Z.mod_small (Z.shiftr s position mod 2 ^ bits) (2 ^ w)).
    + apply mod_pow2_ext; [lia|]. intros n Hn. rewrite !Z.shiftr_spec, Z.land_spec by lia.
      destruct (Z.lt_ge_cases n bits).
      * rewrite Z.mod_pow2_bits_low, Z.shiftr_spec, testbit_GetMask by lia || done.
        rewrite (proj2 (Z.leb_le _ _)), (proj2 (Z.ltb_lt _ _)) by lia. by rewrite andb_true_r.
      * rewrite Z.mod_pow2_bits_high by lia. destruct (Z.lt_ge_cases (n + position) w).
        -- rewrite testbit_GetMask by lia || done.
           rewrite (proj2 (Z.ltb_ge _ _)) by lia. by rewrite !andb_false_r.
        -- assert (Z.testbit (GetMask w false position bits) (n + position) = false) as ->.
           { unfold GetMask, conv. by rewrite Z.mod_pow2_bits_high by lia. }
           by rewrite andb_false_r.
    + assert (2 ^ bits <= 2 ^ w) by (apply Z.pow_le_mono_r; lia).
      pose proof (Z.mod_pos_bound (Z.shiftr s position) (2 ^ bits) ltac:(lia)). lia.
Qed.

Lemma conv_ext w sg x y :
  0 < w -> (forall n, 0 <= n < w -> Z.testbit x n = Z.testbit y n) -> conv w sg x = conv w sg y.
Proof.
  intros Hw H. apply mod_pow2_ext in H; [|lia]. destruct sg; [|exact H].
  apply swrap_unique; [done|by apply swrap_range|]. by etransitivity; [apply swrap_mod|].
Qed.

Lemma extract_assign_same w sg position bits s v :
  32 <= w -> field_ok w position bits ->
  extract w sg position bits (assign w sg position bits s v) = conv bits sg v.
Proof.
  intros Hw Hf. rewrite extract_wide by done. unfold field_value.
  pose proof Hf as (H1 & H2 & H3). apply conv_ext; [done|]. intros n Hn.
  rewrite Z.shiftr_spec, testbit_assign, testbit_GetMask by lia || done.
  rewrite (proj2 (Z.leb_le _ _)), (proj2 (Z.ltb_lt _ _)) by lia. simpl. f_equal. lia.
Qed.

Lemma extract_assign_other w sg position bits s v p' b' sg' :
  32 <= w -> field_ok w position bits -> field_ok w p' b' ->
  p' + b' <= position \/ position + bits <= p' ->
  extract w sg' p' b' (assign w sg position bits s v) = extract w sg' p' b' s.
Proof.
  intros Hw Hf Hf' Hd. rewrite !extract_wide by done. unfold field_value.
  pose proof Hf as (H1 & H2 & H3). pose proof Hf' as (H1' & H2' & H3').
  apply conv_ext; [done|]. intros n Hn.
  rewrite !Z.shiftr_spec, testbit_assign, testbit_GetMask by lia || done.
  destruct (Z.leb_spec position (n + p')), (Z.ltb_spec (n + p') (position + bits));
    simpl; lia || done.
Qed.

(** on 32- and 64-bit storage, reading a field that was just assigned gives
    the assigned value truncated to the field's width (sign-extended for a signed
    type), and every other field of the union keeps its value. *)
Theorem extract_assign w sg position bits s v p' b' sg' :
  32 <= w -> field_ok w position bits -> field_ok w p' b' ->
  p' + b' <= position \/ position + bits <= p' ->
  extract w sg position bits (assign w sg position bits s v) = conv bits sg v /\
  extract w sg' p' b' (assign w sg position bits s v) = extract w sg' p' b' s.
Proof. split; [by apply extract_assign_same | by apply extract_assign_other]. Qed.

Lemma extract_assign_witness :
  extract 32 true 4 6 (assign 32 true 4 6 305419896 (-3)) = -3 /\
  extract 32 false 16 8 (assign 32 true 4 6 305419896 (-3)) = extract 32 false 16 8 305419896.
Proof.
  apply (extract_assign 32 true 4 6 305419896 (-3) 16 8 false); unfold field_ok; lia.
Defined.

(** on 8- and 16-bit storage the width of a field is ignored: because
    [~(StorageTypeU)0] is computed on [int], reading a field returns everything
    from its position up, and assigning it overwrites every field above it. *)
Theorem narrow_field_unbounded w position bits s v :
  0 < w < 32 -> field_ok w position bits -> 0 <= s < 2 ^ w ->
  extract w false position bits s = Z.shiftr s position /\
  Z.shiftr (assign w false position bits s v) position = v mod 2 ^ (w - position).
Proof.
  intros Hw Hf Hs. pose proof Hf as (H1 & H2 & H3).
  assert (Hhi : forall n, w <= n -> Z.testbit s n = false).
  { intros n Hn. rewrite <-(Z.mod_small s (2 ^ w)) by done. apply Z.mod_pow2_bits_high. lia. }
  split; apply Z.bits_inj'; intros n Hn.
  - unfold extract. cbv iota. change (conv w false) with (fun x => x mod 2 ^ w). cbv beta.
    rewrite Z.shiftr_spec by lia. destruct (Z.lt_ge_cases n w).
    + rewrite Z.mod_pow2_bits_low, Z.shiftr_spec, Z.land_spec by lia.
      destruct (Z.lt_ge_cases (n + position) w).
      * rewrite testbit_GetMask_narrow by lia || done.
        rewrite (proj2 (Z.leb_le _ _)) by lia. by rewrite andb_true_r.
      * by rewrite Hhi by lia.
    + rewrite Z.mod_pow2_bits_high by lia. by rewrite Hhi by lia.
  - rewrite Z.shiftr_spec by lia. destruct (Z.lt_ge_cases (n + position) w).
    + rewrite testbit_assign, testbit_GetMask_narrow by lia || done.
      rewrite (proj2 (Z.leb_le _ _)), Z.mod_pow2_bits_low by lia. f_equal. lia.
    + unfold assign, conv. by rewrite !Z.mod_pow2_bits_high by lia.
Qed.

(** The [region_lock] field of a Mii header: two bits at position 2. *)
Lemma narrow_field_unbounded_witness :
  extract 8 false 2 2 216 = 54 /\ Z.shiftr (assign 8 false 2 2 216 1) 2 = 1.
Proof.
  apply (narrow_field_unbounded 8 2 2 216 1); unfold field_ok; lia.
Defined.
