(* ===== verification/Result.v ===== *)
(** * Result: CTR-OS result codes (core/hle/result.h, core/hle/kernel/errors.h)

    The enumerations, the [Result] union as the record of the fields its
    constructor takes, the kernel's error constants, and the effects of the
    kernel's operations: a value, an error [Result] or a failing assertion. *)
From S2P Require Import Prelude BitField.

Local Open Scope Z_scope.

Module ErrorDescription.
Inductive ErrorDescription :=
    | Success | InvalidSection | TooLarge | NotAuthorized | AlreadyDone | InvalidSize
    | InvalidEnumValue | InvalidCombination | NoData | Busy | MisalignedAddress
    | MisalignedSize | OutOfMemory | NotImplemented | InvalidAddress | InvalidPointer
    | InvalidHandle | NotInitialized | AlreadyInitialized | NotFound | CancelRequested
    | AlreadyExists | OutOfRange | Timeout | InvalidResultValue.

Definition ErrorDescription_value (x : ErrorDescription) : Z :=
  match x with
    | Success => 0 | InvalidSection => 1000 | TooLarge => 1001 | NotAuthorized => 1002
    | AlreadyDone => 1003 | InvalidSize => 1004 | InvalidEnumValue => 1005
    | InvalidCombination => 1006 | NoData => 1007 | Busy => 1008
    | MisalignedAddress => 1009 | MisalignedSize => 1010 | OutOfMemory => 1011
    | NotImplemented => 1012 | InvalidAddress => 1013 | InvalidPointer => 1014
    | InvalidHandle => 1015 | NotInitialized => 1016 | AlreadyInitialized => 1017
    | NotFound => 1018 | CancelRequested => 1019 | AlreadyExists => 1020
    | OutOfRange => 1021 | Timeout => 1022 | InvalidResultValue => 1023
  end.
End ErrorDescription.

Module ErrorModule.
Inductive ErrorModule :=
    | Common | Kernel | Util | FileServer | LoaderServer | TCB | OS | DBG | DMNT | PDN | GX
    | I2C | GPIO | DD | CODEC | SPI | PXI | FS | DI | HID | CAM | PI | PM | PM_LOW | FSI
    | SRV | NDM | NWM | SOC | LDR | ACC | RomFS | AM | HIO | Updater | MIC | FND | MP
    | MPWL | AC | HTTP | DSP | SND | DLP | HIO_LOW | CSND | SSL | AM_LOW | NEX | Friends
    | RDT | Applet | NIM | PTM | MIDI | MC | SWC | FatFS | NGC | CARD | CARDNOR | SDMC
    | BOSS | DBM | Config | PS | CEC | IR | UDS | PL | CUP | Gyroscope | MCU | NS | News
    | RO | GD | CardSPI | EC | WebBrowser | Test | ENC | PIA | ACT | VCTL | OLV | NEIA
    | NPNS | AVD | L2B | MVD | NFC | UART | SPM | QTM | NFP | Application | InvalidResult.

Definition ErrorModule_value (x : ErrorModule) : Z :=
  match x with
    | Common => 0 | Kernel => 1 | Util => 2 | FileServer => 3 | LoaderServer => 4
    | TCB => 5 | OS => 6 | DBG => 7 | DMNT => 8 | PDN => 9 | GX => 10 | I2C => 11
    | GPIO => 12 | DD => 13 | CODEC => 14 | SPI => 15 | PXI => 16 | FS => 17 | DI => 18
    | HID => 19 | CAM => 20 | PI => 21 | PM => 22 | PM_LOW => 23 | FSI => 24 | SRV => 25
    | NDM => 26 | NWM => 27 | SOC => 28 | LDR => 29 | ACC => 30 | RomFS => 31 | AM => 32
    | HIO => 33 | Updater => 34 | MIC => 35 | FND => 36 | MP => 37 | MPWL => 38 | AC => 39
    | HTTP => 40 | DSP => 41 | SND => 42 | DLP => 43 | HIO_LOW => 44 | CSND => 45
    | SSL => 46 | AM_LOW => 47 | NEX => 48 | Friends => 49 | RDT => 50 | Applet => 51
    | NIM => 52 | PTM => 53 | MIDI => 54 | MC => 55 | SWC => 56 | FatFS => 57 | NGC => 58
    | CARD => 59 | CARDNOR => 60 | SDMC => 61 | BOSS => 62 | DBM => 63 | Config => 64
    | PS => 65 | CEC => 66 | IR => 67 | UDS => 68 | PL => 69 | CUP => 70 | Gyroscope => 71
    | MCU => 72 | NS => 73 | News => 74 | RO => 75 | GD => 76 | CardSPI => 77 | EC => 78
    | WebBrowser => 79 | Test => 80 | ENC => 81 | PIA => 82 | ACT => 83 | VCTL => 84
    | OLV => 85 | NEIA => 86 | NPNS => 87 | AVD => 90 | L2B => 91 | MVD => 92 | NFC => 93
    | UART => 94 | SPM => 95 | QTM => 96 | NFP => 97 | Application => 254
    | InvalidResult => 255
  end.
End ErrorModule.

Module ErrorSummary.
Inductive ErrorSummary :=
    | Success | NothingHappened | WouldBlock | OutOfResource | NotFound | InvalidState
    | NotSupported | InvalidArgument | WrongArgument | Canceled | StatusChanged | Internal
    | InvalidResult.

Definition ErrorSummary_value (x : ErrorSummary) : Z :=
  match x with
    | Success => 0 | NothingHappened => 1 | WouldBlock => 2 | OutOfResource => 3
    | NotFound => 4 | InvalidState => 5 | NotSupported => 6 | InvalidArgument => 7
    | WrongArgument => 8 | Canceled => 9 | StatusChanged => 10 | Internal => 11
    | InvalidResult => 63
  end.
End ErrorSummary.

Module ErrorLevel.
Inductive ErrorLevel :=
    | Success | Info | Status | Temporary | Permanent | Usage | Reinitialize | Reset
    | Fatal.

Definition ErrorLevel_value (x : ErrorLevel) : Z :=
  match x with
    | Success => 0 | Info => 1 | Status => 25 | Temporary => 26 | Permanent => 27
    | Usage => 28 | Reinitialize => 29 | Reset => 30 | Fatal => 31
  end.
End ErrorLevel.

Module ErrCodes.
Inductive ErrCodes :=
    | OutOfSharedMems | OutOfThreads | OutOfMutexes | OutOfSemaphores | OutOfEvents
    | OutOfTimers | OutOfHandles | SessionClosedByRemote | PortNameTooLong
    | WrongLockingThread | NoPendingSessions | WrongPermission | InvalidBufferDescriptor
    | OutOfAddressArbiters | MaxConnectionsReached | CommandTooLarge.

Definition ErrCodes_value (x : ErrCodes) : Z :=
  match x with
    | OutOfSharedMems => 11 | OutOfThreads => 12 | OutOfMutexes => 13
    | OutOfSemaphores => 14 | OutOfEvents => 15 | OutOfTimers => 16 | OutOfHandles => 19
    | SessionClosedByRemote => 26 | PortNameTooLong => 30 | WrongLockingThread => 31
    | NoPendingSessions => 35 | WrongPermission => 46 | InvalidBufferDescriptor => 48
    | OutOfAddressArbiters => 51 | MaxConnectionsReached => 52 | CommandTooLarge => 54
  end.
End ErrCodes.

(** [Result]: the four fields.  The description is a number, because a module may
    use codes of its own. *)
Record Result := Result_of {
  description : Z;
  module_ : ErrorModule.ErrorModule;
  summary : ErrorSummary.ErrorSummary;
  level : ErrorLevel.ErrorLevel
}.

(** The constructor from a well-known description. *)
Definition Result_known (d : ErrorDescription.ErrorDescription) := 
  Result_of (ErrorDescription.ErrorDescription_value d).

Definition UnimplementedFunction (module : ErrorModule.ErrorModule) : Result :=
  Result_known ErrorDescription.NotImplemented module ErrorSummary.NotSupported
    ErrorLevel.Permanent.

(** The raw code 0. *)
Definition ResultSuccess : Result :=
  Result_of 0 ErrorModule.Common ErrorSummary.Success ErrorLevel.Success.

(** ** core/hle/kernel/errors.h *)

Definition ResultOutOfHandles : Result :=
  Result_of (ErrCodes.ErrCodes_value ErrCodes.OutOfHandles) ErrorModule.Kernel ErrorSummary.OutOfResource ErrorLevel.Permanent.

Definition ResultSessionClosed : Result :=
  Result_of (ErrCodes.ErrCodes_value ErrCodes.SessionClosedByRemote) ErrorModule.OS ErrorSummary.Canceled ErrorLevel.Status.

Definition ResultPortNameTooLong : Result :=
  Result_of (ErrCodes.ErrCodes_value ErrCodes.PortNameTooLong) ErrorModule.OS ErrorSummary.InvalidArgument ErrorLevel.Usage.

Definition ResultWrongPermission : Result :=
  Result_of (ErrCodes.ErrCodes_value ErrCodes.WrongPermission) ErrorModule.OS ErrorSummary.WrongArgument ErrorLevel.Permanent.

Definition ResultInvalidBufferDescriptor : Result :=
  Result_of (ErrCodes.ErrCodes_value ErrCodes.InvalidBufferDescriptor) ErrorModule.OS ErrorSummary.WrongArgument ErrorLevel.Permanent.

Definition ResultMaxConnectionsReached : Result :=
  Result_of (ErrCodes.ErrCodes_value ErrCodes.MaxConnectionsReached) ErrorModule.OS ErrorSummary.WouldBlock ErrorLevel.Temporary.

Definition ResultNotAuthorized : Result :=
  Result_of (ErrorDescription.ErrorDescription_value ErrorDescription.NotAuthorized) ErrorModule.OS ErrorSummary.WrongArgument ErrorLevel.Permanent.

Definition ResultInvalidEnumValue : Result :=
  Result_of (ErrorDescription.ErrorDescription_value ErrorDescription.InvalidEnumValue) ErrorModule.Kernel ErrorSummary.InvalidArgument ErrorLevel.Permanent.

Definition ResultInvalidEnumValueFnd : Result :=
  Result_of (ErrorDescription.ErrorDescription_value ErrorDescription.InvalidEnumValue) ErrorModule.FND ErrorSummary.InvalidArgument ErrorLevel.Permanent.

Definition ResultInvalidCombination : Result :=
  Result_of (ErrorDescription.ErrorDescription_value ErrorDescription.InvalidCombination) ErrorModule.OS ErrorSummary.InvalidArgument ErrorLevel.Usage.

Definition ResultInvalidCombinationKernel : Result :=
  Result_of (ErrorDescription.ErrorDescription_value ErrorDescription.InvalidCombination) ErrorModule.Kernel ErrorSummary.WrongArgument ErrorLevel.Permanent.

Definition ResultMisalignedAddress : Result :=
  Result_of (ErrorDescription.ErrorDescription_value ErrorDescription.MisalignedAddress) ErrorModule.OS ErrorSummary.InvalidArgument ErrorLevel.Usage.

Definition ResultMisalignedSize : Result :=
  Result_of (ErrorDescription.ErrorDescription_value ErrorDescription.MisalignedSize) ErrorModule.OS ErrorSummary.InvalidArgument ErrorLevel.Usage.

Definition ResultOutOfMemory : Result :=
  Result_of (ErrorDescription.ErrorDescription_value ErrorDescription.OutOfMemory) ErrorModule.Kernel ErrorSummary.OutOfResource ErrorLevel.Permanent.

Definition ResultOutOfHeapMemory : Result :=
  Result_of (ErrorDescription.ErrorDescription_value ErrorDescription.OutOfMemory) ErrorModule.OS ErrorSummary.OutOfResource ErrorLevel.Status.

Definition ResultNotImplemented : Result :=
  Result_of (ErrorDescription.ErrorDescription_value ErrorDescription.NotImplemented) ErrorModule.OS ErrorSummary.InvalidArgument ErrorLevel.Usage.

Definition ResultInvalidAddress : Result :=
  Result_of (ErrorDescription.ErrorDescription_value ErrorDescription.InvalidAddress) ErrorModule.OS ErrorSummary.InvalidArgument ErrorLevel.Usage.

Definition ResultInvalidAddressState : Result :=
  Result_of (ErrorDescription.ErrorDescription_value ErrorDescription.InvalidAddress) ErrorModule.OS ErrorSummary.InvalidState ErrorLevel.Usage.

Definition ResultInvalidPointer : Result :=
  Result_of (ErrorDescription.ErrorDescription_value ErrorDescription.InvalidPointer) ErrorModule.Kernel ErrorSummary.InvalidArgument ErrorLevel.Permanent.

Definition ResultInvalidHandle : Result :=
  Result_of (ErrorDescription.ErrorDescription_value ErrorDescription.InvalidHandle) ErrorModule.Kernel ErrorSummary.InvalidArgument ErrorLevel.Permanent.

Definition ResultInvalidHandleOs : Result :=
  Result_of (ErrorDescription.ErrorDescription_value ErrorDescription.InvalidHandle) ErrorModule.OS ErrorSummary.WrongArgument ErrorLevel.Permanent.

Definition ResultNotFound : Result :=
  Result_of (ErrorDescription.ErrorDescription_value ErrorDescription.NotFound) ErrorModule.Kernel ErrorSummary.NotFound ErrorLevel.Permanent.

Definition ResultOutOfRange : Result :=
  Result_of (ErrorDescription.ErrorDescription_value ErrorDescription.OutOfRange) ErrorModule.OS ErrorSummary.InvalidArgument ErrorLevel.Usage.

Definition ResultOutOfRangeKernel : Result :=
  Result_of (ErrorDescription.ErrorDescription_value ErrorDescription.OutOfRange) ErrorModule.Kernel ErrorSummary.InvalidArgument ErrorLevel.Permanent.

Definition ResultTimeout : Result :=
  Result_of (ErrorDescription.ErrorDescription_value ErrorDescription.Timeout) ErrorModule.OS ErrorSummary.StatusChanged ErrorLevel.Info.

Definition ResultNoPendingSessions : Result :=
  Result_of (ErrCodes.ErrCodes_value ErrCodes.NoPendingSessions) ErrorModule.OS ErrorSummary.WouldBlock ErrorLevel.Permanent.

(** The constants with the code the comment of errors.h gives for them. *)
Definition documented : list (Result * Z) :=
  [
   (ResultOutOfHandles, 0xD8600413); (ResultSessionClosed, 0xC920181A);
   (ResultPortNameTooLong, 0xE0E0181E); (ResultMaxConnectionsReached, 0xD0401834);
   (ResultNotAuthorized, 0xD9001BEA); (ResultInvalidEnumValue, 0xD8E007ED);
   (ResultInvalidEnumValueFnd, 0xD8E093ED); (ResultInvalidCombination, 0xE0E01BEE);
   (ResultInvalidCombinationKernel, 0xD90007EE); (ResultMisalignedAddress, 0xE0E01BF1);
   (ResultMisalignedSize, 0xE0E01BF2); (ResultOutOfMemory, 0xD86007F3);
   (ResultOutOfHeapMemory, 0xC860180A); (ResultNotImplemented, 0xE0E01BF4);
   (ResultInvalidAddress, 0xE0E01BF5); (ResultInvalidAddressState, 0xE0A01BF5);
   (ResultInvalidPointer, 0xD8E007F6); (ResultInvalidHandle, 0xD8E007F7);
   (ResultInvalidHandleOs, 0xD9001BF7); (ResultNotFound, 0xD88007FA);
   (ResultOutOfRange, 0xE0E01BFD); (ResultOutOfRangeKernel, 0xD8E007FD);
   (ResultNoPendingSessions, 0xD8401823)
  ].

Definition kernel_errors : list Result :=
  [
   ResultOutOfHandles; ResultSessionClosed; ResultPortNameTooLong; ResultWrongPermission;
   ResultInvalidBufferDescriptor; ResultMaxConnectionsReached; ResultNotAuthorized;
   ResultInvalidEnumValue; ResultInvalidEnumValueFnd; ResultInvalidCombination;
   ResultInvalidCombinationKernel; ResultMisalignedAddress; ResultMisalignedSize;
   ResultOutOfMemory; ResultOutOfHeapMemory; ResultNotImplemented; ResultInvalidAddress;
   ResultInvalidAddressState; ResultInvalidPointer; ResultInvalidHandle;
   ResultInvalidHandleOs; ResultNotFound; ResultOutOfRange; ResultOutOfRangeKernel;
   ResultTimeout; ResultNoPendingSessions
  ].

(** ** The encoding

    [BitField::FormatValue] and [BitField::ExtractValue], which [Result] calls,
    are not among the members of common/bit_field.h: the encoding is stated for
    any functions that place a value in, and read it from, the field's bits. *)
Section Raw.
Variable FormatValue : Z -> Z -> Z -> Z.
Variable ExtractValue : Z -> Z -> Z -> Z.

Definition raw (r : Result) : Z :=
  Z.lor (Z.lor (Z.lor (FormatValue 0 10 (description r))
    (FormatValue 10 8 (ErrorModule.ErrorModule_value (module_ r))))
    (FormatValue 21 6 (ErrorSummary.ErrorSummary_value (summary r))))
    (FormatValue 27 5 (ErrorLevel.ErrorLevel_value (level r))).

Definition IsSuccess (raw : Z) : bool := ExtractValue 31 1 raw =? 0.
Definition IsError (raw : Z) : bool := ExtractValue 31 1 raw =? 1.

Hypothesis FormatValue_field : forall position bits v,
  FormatValue position bits v = assign 32 false position bits 0 v.
Hypothesis ExtractValue_field : forall position bits s,
  ExtractValue position bits s = extract 32 false position bits s.

Lemma testbit_Format p b v n :
  field_ok 32 p b -> 0 <= n < 32 ->
  Z.testbit (FormatValue p b v) n = (p <=? n) && (n <? p + b) && Z.testbit v (n - p).
Proof.
  intros Hf Hn. rewrite FormatValue_field, testbit_assign, testbit_GetMask by lia || done.
  destruct ((p <=? n) && (n <? p + b)); [done|]. by rewrite Z.testbit_0_l.
Qed.

(** A field of [raw] is what its own [FormatValue] contributes. *)
Lemma testbit_raw r n : 0 <= n < 32 ->
  Z.testbit (raw r) n =
    ((n <? 10) && Z.testbit (description r) n) ||
    ((10 <=? n) && (n <? 18) && Z.testbit (ErrorModule.ErrorModule_value (module_ r)) (n - 10)) ||
    ((21 <=? n) && (n <? 27) && Z.testbit (ErrorSummary.ErrorSummary_value (summary r)) (n - 21)) ||
    ((27 <=? n) && (n <? 32) && Z.testbit (ErrorLevel.ErrorLevel_value (level r)) (n - 27)).
Proof.
  intros Hn. unfold raw. rewrite !Z.lor_spec, !testbit_Format by (unfold field_ok; lia).
  rewrite (proj2 (Z.leb_le 0 n)) by lia. by rewrite Z.sub_0_r.
Qed.

Lemma Extract_value p b s : field_ok 32 p b ->
  ExtractValue p b s = Z.shiftr s p mod 2 ^ b.
Proof. intros Hf. rewrite ExtractValue_field. by apply (extract_wide 32 false). Qed.

(** the four fields that a [Result] is made of are read back from its raw
    code, and [IsError] holds exactly when the level has its top bit set. *)
Theorem Result_fields r : 0 <= description r < 1024 ->
  ExtractValue 0 10 (raw r) = description r /\
  ExtractValue 10 8 (raw r) = ErrorModule.ErrorModule_value (module_ r) /\
  ExtractValue 21 6 (raw r) = ErrorSummary.ErrorSummary_value (summary r) /\
  ExtractValue 27 5 (raw r) = ErrorLevel.ErrorLevel_value (level r) /\
  IsError (raw r) = (16 <=? ErrorLevel.ErrorLevel_value (level r)) /\
  IsSuccess (raw r) = negb (IsError (raw r)).
Proof.
  intros Hd.
  assert (Hm : 0 <= ErrorModule.ErrorModule_value (module_ r) < 2 ^ 8)
    by (destruct (module_ r); simpl; lia).
  assert (Hs : 0 <= ErrorSummary.ErrorSummary_value (summary r) < 2 ^ 6)
    by (destruct (summary r); simpl; lia).
  assert (Hl : 0 <= ErrorLevel.ErrorLevel_value (level r) < 2 ^ 5)
    by (destruct (level r); simpl; lia).
  assert (Hfield : forall p b v, field_ok 32 p b -> 0 <= v < 2 ^ b ->
    (forall n, 0 <= n < b -> Z.testbit (raw r) (n + p) = Z.testbit v n) ->
    ExtractValue p b (raw r) = v).
  { intros p b v Hf Hv H. pose proof Hf as (? & ? & ?). rewrite Extract_value by done.
    rewrite <-(Z.mod_small v (2 ^ b)) by done. apply mod_pow2_ext; [lia|]. intros n Hn.
    rewrite Z.shiftr_spec by lia. by apply H. }
  assert (Hbits : forall n, 0 <= n < 32 -> forall p b, 0 <= n - p < b ->
    (p <=? n) && (n <? p + b) = true).
  { intros n Hn p b H. rewrite (proj2 (Z.leb_le _ _)), (proj2 (Z.ltb_lt _ _)) by lia. done. }
  assert (H31 : ExtractValue 31 1 (raw r) = ErrorLevel.ErrorLevel_value (level r) / 16).
  { apply Hfield; [unfold field_ok; lia|split; [apply Z.div_pos|apply Z.div_lt_upper_bound]; lia|].
    intros n Hn. replace n with 0 by lia. rewrite testbit_raw by lia.
    by destruct (level r). }
  split_and!.
  1-4: apply Hfield; [unfold field_ok; lia|done|]; intros n Hn; rewrite testbit_raw by lia;
    zdecide; simpl; rewrite ?orb_false_r; f_equal; lia.
  - unfold IsError. rewrite H31. by destruct (level r).
  - unfold IsError, IsSuccess. rewrite H31. by destruct (level r).
Qed.

(** every constant of errors.h has the code its comment gives, except
    [ResultOutOfHeapMemory], which is 0xC8601BF3 where the comment says
    0xC860180A; and every constant except [ResultTimeout] is an error, so that
    [R_TRY] propagates it. *)
Theorem kernel_error_codes :
  Forall (fun '(r, code) => raw r = code \/ r = ResultOutOfHeapMemory) documented /\
  raw ResultOutOfHeapMemory = 0xC8601BF3 /\
  Forall (fun r => IsError (raw r) = true \/ r = ResultTimeout) kernel_errors /\
  IsError (raw ResultTimeout) = false.
Proof.
  assert (Hraw : forall r, raw r =
    Z.lor (Z.lor (Z.lor (assign 32 false 0 10 0 (description r))
      (assign 32 false 10 8 0 (ErrorModule.ErrorModule_value (module_ r))))
      (assign 32 false 21 6 0 (ErrorSummary.ErrorSummary_value (summary r))))
      (assign 32 false 27 5 0 (ErrorLevel.ErrorLevel_value (level r)))).
  { intros r. unfold raw. by rewrite !FormatValue_field. }
  unfold IsError. split_and!.
  - unfold documented. repeat (match goal with |- Forall _ (_ :: _) => constructor end);
      [..|constructor]; rewrite Hraw; first [left; vm_compute; reflexivity|right; reflexivity].
  - rewrite Hraw. vm_compute. reflexivity.
  - unfold kernel_errors. repeat (match goal with |- Forall _ (_ :: _) => constructor end);
      [..|constructor]; rewrite Hraw, ExtractValue_field;
      first [left; vm_compute; reflexivity|right; reflexivity].
  - rewrite Hraw, ExtractValue_field. vm_compute. reflexivity.
Qed.
End Raw.

Lemma Result_fields_witness :
  let FormatValue p b v := assign 32 false p b 0 v in
  let ExtractValue p b s := extract 32 false p b s in
  ExtractValue 10 8 (raw FormatValue ResultInvalidHandle) = 1 /\
  IsError ExtractValue (raw FormatValue ResultInvalidHandle) = true.
Proof.
  intros FormatValue ExtractValue.
  destruct (Result_fields FormatValue ExtractValue (fun _ _ _ => eq_refl) (fun _ _ _ => eq_refl)
              ResultInvalidHandle) as (_ & Hm & _ & _ & He & _); [vm_compute; intuition congruence|].
  split; [exact Hm|exact He].
Defined.

Lemma kernel_error_codes_witness :
  raw (fun p b v => assign 32 false p b 0 v) ResultOutOfHeapMemory = 0xC8601BF3.
Proof.
  apply (kernel_error_codes (fun p b v => assign 32 false p b 0 v)
           (fun p b s => extract 32 false p b s) (fun _ _ _ => eq_refl) (fun _ _ _ => eq_refl)).
Defined.

(** ** Effects

    [outcome S A] is what a member function of an object with state [S] does: it
    returns a value ([Done]), returns an error [Result] ([Failed]), in both cases
    with the state it leaves behind, or it runs into a failing [ASSERT], which
    calls [std::abort] ([Aborted]). *)
Inductive outcome (S A : Type) : Type :=
  | Done (s : S) (a : A)
  | Failed (s : S) (rc : Result)
  | Aborted.
Arguments Done {S A} s a.
Arguments Failed {S A} s rc.
Arguments Aborted {S A}.

Definition op (S A : Type) : Type := S -> outcome S A.

Section Op.
Context {S : Type}.

Definition ret {A} (a : A) : op S A := fun s => Done s a.

Definition fail {A} (rc : Result) : op S A := fun s => Failed s rc.

Definition bind {A B} (m : op S A) (k : A -> op S B) : op S B := fun s =>
  match m s with
  | Done s' a => k a s'
  | Failed s' rc => Failed s' rc
  | Aborted => Aborted
  end.

Definition get : op S S := fun s => Done s s.

Definition put (s' : S) : op S unit := fun _ => Done s' tt.

(** [ASSERT(b)] of common/assert.h. *)
Definition assert_ (b : bool) : op S unit := fun s =>
  if b then Done s tt else Aborted.
End Op.

(** [R_UNLESS(b, rc)] *)
Definition R_UNLESS {S} (b : bool) (rc : Result) : op S unit := fun s =>
  if b then Done s tt else Failed s rc.

Declare Scope hle_scope.
Delimit Scope hle_scope with hle.
Notation "x <- m ;; k" := (bind m (fun x => k))
  (at level 100, m at next level, k at level 200, right associativity) : hle_scope.
Notation "'let*' pat := m 'in' k" := (bind m (fun x => match x with pat => k end))
  (at level 10, pat pattern, m at level 100, k at level 200) : hle_scope.
Notation "m ;; k" := (bind m (fun _ => k))
  (at level 100, k at level 200, right associativity) : hle_scope.


(** ** Running a sequence of operations *)

Lemma bind_Done {S A B} (m : op S A) (k : A -> op S B) s s' a :
  m s = Done s' a -> bind m k s = k a s'.
Proof. intros E. unfold bind. by rewrite E. Qed.

Lemma bind_Failed {S A B} (m : op S A) (k : A -> op S B) s s' rc :
  m s = Failed s' rc -> bind m k s = Failed s' rc.
Proof. intros E. unfold bind. by rewrite E. Qed.

(** Two steps of a sequence taken together. *)
Lemma bind_assoc {S A B C} (m : op S A) (n : A -> op S B) (k : B -> op S C) s :
  bind m (fun a => bind (n a) k) s = bind (bind m n) k s.
Proof. unfold bind. by destruct (m s). Qed.

Lemma bind_get {S B} (k : S -> op S B) s : bind get k s = k s s.
Proof. done. Qed.

Lemma bind_seq3 {S A B C D} (a : op S A) (b : op S B) (c : op S C) (k : op S D) s s' x :
  (a ;; b ;; c)%hle s = Done s' x -> (a ;; b ;; c ;; k)%hle s = k s'.
Proof.
  unfold bind. destruct (a s) as [s1 v1| |]; try done.
  destruct (b s1) as [s2 v2| |]; try done. by intros ->.
Qed.
