(* ===== verification/StdSet.v ===== *)
(** * StdSet: [std::set] with a user comparator

    The kernel sources keep their interval sets in a [std::set] and walk it with
    iterators.  A set is the list of its elements in iteration order; an
    iterator is a split of that list into the elements before it and the
    elements from it on (the empty suffix is [end()]). *)
From S2P Require Import Prelude.

Section StdSet.
Context {A : Type} (lt : A -> A -> bool).

(** The longest prefix satisfying [f], and the rest. *)
Fixpoint span (f : A -> bool) (l : list A) : list A * list A :=
  match l with
  | [] => ([], [])
  | y :: r => if f y then let (p, q) := span f r in (y :: p, q) else ([], l)
  end.

(** [s.lower_bound(x)]: the first element not less than [x]. *)
Definition set_lower_bound (x : A) (l : list A) : list A * list A :=
  span (fun y => lt y x) l.

(** [s.upper_bound(x)]: the first element greater than [x]. *)
Definition set_upper_bound (x : A) (l : list A) : list A * list A :=
  span (fun y => negb (lt x y)) l.

(** [s.insert(x)], a no-op when an equivalent element is present. *)
Fixpoint set_insert (x : A) (l : list A) : list A :=
  match l with
  | [] => [x]
  | y :: r =>
      if lt y x then y :: set_insert x r
      else if lt x y then x :: l
      else l
  end.

(** [--it] on the iterator [(pre, suf)], when [it != begin()]. *)
Definition iter_prev (it : list A * list A) : option (list A * A * list A) :=
  match rev (fst it) with
  | [] => None
  | y :: r => Some (rev r, y, snd it)
  end.
End StdSet.

Lemma span_app {A} (f : A -> bool) l p q : span f l = (p, q) -> l = p ++ q.
Proof.
  revert p q. induction l as [|y r IH]; simpl; intros p q H.
  - by inversion H.
  - destruct (f y).
    + destruct (span f r) as [p' q'] eqn:E. inversion H; subst.
      simpl. f_equal. by apply IH.
    + by inversion H.
Qed.

Lemma span_prefix {A} (f : A -> bool) l p q :
  span f l = (p, q) -> Forall (fun y => f y = true) p.
Proof.
  revert p q. induction l as [|y r IH]; simpl; intros p q H.
  - inversion H; subst. constructor.
  - destruct (f y) eqn:Ey.
    + destruct (span f r) as [p' q'] eqn:E. inversion H; subst.
      constructor; [done|]. by eapply IH.
    + inversion H; subst. constructor.
Qed.

Lemma span_suffix {A} (f : A -> bool) l p y q :
  span f l = (p, y :: q) -> f y = false.
Proof.
  revert p. induction l as [|z r IH]; simpl; intros p H.
  - by inversion H.
  - destruct (f z) eqn:Ez.
    + destruct (span f r) as [p' q'] eqn:E. inversion H; subst. by eapply IH.
    + by inversion H; subst.
Qed.

Lemma iter_prev_None {A} (pre suf : list A) :
  iter_prev (pre, suf) = None -> pre = [].
Proof.
  unfold iter_prev; simpl. destruct (rev pre) eqn:E; [|done]. intros _.
  rewrite <-(rev_involutive pre), E. done.
Qed.

Lemma iter_prev_Some {A} (pre suf pre' suf' : list A) y :
  iter_prev (pre, suf) = Some (pre', y, suf') -> pre = pre' ++ [y] /\ suf' = suf.
Proof.
  unfold iter_prev; simpl. destruct (rev pre) eqn:E; [done|].
  intros H; inversion H; subst.
  rewrite <-(rev_involutive pre), E. done.
Qed.

(** ** Insertion into a sorted set *)
Lemma set_insert_between {A} (lt : A -> A -> bool) x p q :
  Forall (fun y => lt y x = true) p ->
  Forall (fun y => lt y x = false /\ lt x y = true) q ->
  set_insert lt x (p ++ q) = p ++ x :: q.
Proof.
  intros Hp Hq. induction Hp as [|y p Hy Hp IH]; simpl.
  - destruct Hq as [|y q [H1 H2] Hq]; simpl; [done|]. by rewrite H1, H2.
  - by rewrite Hy, IH.
Qed.

Lemma set_insert_all {A} (lt : A -> A -> bool) (R : A -> A -> Prop) xs p q :
  (forall x y, R x y -> lt x y = true /\ lt y x = false) ->
  StronglySorted R (p ++ xs ++ q) ->
  fold_left (fun s i => set_insert lt i s) xs (p ++ q) = p ++ xs ++ q.
Proof.
  intros HR. revert p. induction xs as [|x xs IH]; intros p Hs; simpl; [done|].
  rewrite set_insert_between.
  - replace (p ++ x :: q) with ((p ++ [x]) ++ q) by by rewrite <-app_assoc.
    rewrite IH.
    + by rewrite <-app_assoc.
    + by rewrite <-app_assoc.
  - apply list.Forall_forall. intros y Hy.
    apply StronglySorted_app in Hs as (Hs & _ & _).
    apply HR, Hs; [done|]. apply elem_of_app; left. apply elem_of_cons; by left.
  - apply list.Forall_forall. intros y Hy.
    apply StronglySorted_app in Hs as (_ & _ & Hs). simpl in Hs.
    apply StronglySorted_inv in Hs as [_ Hs].
    rewrite list.Forall_forall in Hs.
    destruct (HR x y) as [H1 H2]; [|done].
    apply Hs, elem_of_app. by right.
Qed.
