(* ===== verification/MemoryRegion.v ===== *)
(** * MemoryRegion: the FCRAM allocator (core/hle/kernel/memory.cpp, memory.h)

    [MemoryRegionInfo] keeps the free part of one FCRAM region as an ordered set
    of half-open intervals of 32-bit offsets. *)
From S2P Require Import Prelude StdSet Result.

Local Open Scope Z_scope.

(** ** Data *)

Record Interval := mkInterval { lower : Z; upper : Z }.

Definition IntervalLess (lhs rhs : Interval) : bool :=
  if negb (lower lhs =? lower rhs) then lower lhs <? lower rhs
  else upper lhs <? upper rhs.

Definition IntervalSet := list Interval.

Record MemoryRegionInfo := mkRegion {
  region_base : Z;
  region_size : Z;
  region_used : Z;
  free_blocks : IntervalSet;
  is_locked : bool
}.

Definition with_free (f : IntervalSet) (used : Z) (r : MemoryRegionInfo) : MemoryRegionInfo :=
  mkRegion (region_base r) (region_size r) used f (is_locked r).

(** ** Interval sets *)

Definition IntervalSize (interval : Interval) : Z := u32 (upper interval - lower interval).

Definition Contains (intervals : IntervalSet) (needle : Interval) : bool :=
  match iter_prev (set_upper_bound IntervalLess needle intervals) with
  | None => false
  | Some (_, it, _) => (lower it <=? lower needle) && (upper needle <=? upper it)
  end.

Definition Intersects (a b : Interval) : bool :=
  (lower a <? upper b) && (lower b <? upper a).

Definition IntersectsAny (intervals : IntervalSet) (needle : Interval) : bool :=
  let it := set_lower_bound IntervalLess needle intervals in
  let here := match snd it with
              | [] => false
              | cur :: _ => Intersects cur needle
              end in
  if here then true
  else match iter_prev it with
       | None => false
       | Some (_, prev, _) => Intersects prev needle
       end.

(** The [while] loop of [InsertMerge]: it absorbs the blocks that touch the
    interval and stops at the first one beyond it. *)
Fixpoint InsertMerge_loop (interval : Interval) (suf : IntervalSet) : Interval * IntervalSet :=
  match suf with
  | [] => (interval, [])
  | it :: rest =>
      if lower it <=? upper interval then
        InsertMerge_loop
          (mkInterval (Z.min (lower interval) (lower it)) (Z.max (upper interval) (upper it)))
          rest
      else (interval, suf)
  end.

Definition InsertMerge (intervals : IntervalSet) (interval : Interval) : IntervalSet :=
  let '(pre, suf) := set_lower_bound IntervalLess interval intervals in
  let '(pre, interval) :=
    match iter_prev (pre, suf) with
    | None => (pre, interval)
    | Some (pre', prev, _) =>
        if lower interval <=? upper prev then
          (pre', mkInterval (Z.min (lower interval) (lower prev))
                            (Z.max (upper interval) (upper prev)))
        else (pre, interval)
    end in
  let '(interval, suf) := InsertMerge_loop interval suf in
  set_insert IntervalLess interval (pre ++ suf).

(** The loop of [SubtractInterval]: the blocks kept after the iterator, and the
    pieces to add back. *)
Fixpoint SubtractInterval_loop (needle : Interval) (suf : IntervalSet) (to_add : list Interval)
    : IntervalSet * list Interval :=
  match suf with
  | [] => ([], to_add)
  | it :: rest =>
      if upper needle <=? lower it then (suf, to_add)
      else if negb (Intersects it needle) then
        let '(kept, added) := SubtractInterval_loop needle rest to_add in
        (it :: kept, added)
      else
        let to_add :=
          if lower it <? lower needle
          then to_add ++ [mkInterval (lower it) (lower needle)] else to_add in
        if upper needle <? upper it
        then (rest, to_add ++ [mkInterval (upper needle) (upper it)])
        else SubtractInterval_loop needle rest to_add
  end.

Definition SubtractInterval (intervals : IntervalSet) (needle : Interval) : IntervalSet :=
  let '(pre, suf) := set_lower_bound IntervalLess needle intervals in
  let '(pre, suf) :=
    match iter_prev (pre, suf) with
    | None => (pre, suf)
    | Some (pre', it, _) => (pre', it :: suf)
    end in
  let '(kept, to_add) := SubtractInterval_loop needle suf [] in
  fold_left (fun s i => set_insert IntervalLess i s) to_add (pre ++ kept).

Definition SubtractIntervals (intervals to_subtract : IntervalSet) : IntervalSet :=
  fold_left SubtractInterval to_subtract intervals.

(** ** The allocator *)

Definition Reset (base size : Z) : op MemoryRegionInfo unit := fun r =>
  (assert_ (negb (is_locked r)) ;;
   put (mkRegion base size 0
          (set_insert IntervalLess (mkInterval base (u32 (base + size))) [])
          (is_locked r)))%hle r.

(** The allocation loop of [HeapAllocate], from the highest block down: the
    blocks taken and the size still missing. *)
Fixpoint HeapAllocate_loop (blocks : list Interval) (rest : Z) (result : IntervalSet)
    : IntervalSet * Z :=
  match blocks with
  | [] => (result, rest)
  | it :: more =>
      if rest <=? IntervalSize it then
        (set_insert IntervalLess (mkInterval (u32 (upper it - rest)) (upper it)) result, 0)
      else
        HeapAllocate_loop more (u32 (rest - IntervalSize it))
          (set_insert IntervalLess it result)
  end.

Definition HeapAllocate (size : Z) : op MemoryRegionInfo IntervalSet :=
  (r <- get ;;
   assert_ (negb (is_locked r)) ;;
   let '(result, rest) := HeapAllocate_loop (rev (free_blocks r)) size [] in
   if negb (rest =? 0) then ret []
   else
     put (with_free (SubtractIntervals (free_blocks r) result)
            (u32 (region_used r + size)) r) ;;
     ret result)%hle.

(** [LinearAllocate(offset, size)]: a range chosen by the caller. *)
Definition LinearAllocateAt (offset size : Z) : op MemoryRegionInfo bool :=
  (r <- get ;;
   assert_ (negb (is_locked r)) ;;
   let interval := mkInterval offset (u32 (offset + size)) in
   if negb (Contains (free_blocks r) interval) then ret false
   else
     put (with_free (SubtractInterval (free_blocks r) interval)
            (u32 (region_used r + size)) r) ;;
     ret true)%hle.

(** [LinearAllocate(size)]: first fit. *)
Definition LinearAllocate (size : Z) : op MemoryRegionInfo (option Z) :=
  (r <- get ;;
   assert_ (negb (is_locked r)) ;;
   match find (fun interval => size <=? IntervalSize interval) (free_blocks r) with
   | None => ret None
   | Some interval =>
       let allocated := mkInterval (lower interval) (u32 (lower interval + size)) in
       put (with_free (SubtractInterval (free_blocks r) allocated)
              (u32 (region_used r + size)) r) ;;
       ret (Some (lower allocated))
   end)%hle.

(** [RLinearAllocate(size)]: last fit, at the top of the block. *)
Definition RLinearAllocate (size : Z) : op MemoryRegionInfo (option Z) :=
  (r <- get ;;
   assert_ (negb (is_locked r)) ;;
   match find (fun interval => size <=? IntervalSize interval) (rev (free_blocks r)) with
   | None => ret None
   | Some interval =>
       let allocated := mkInterval (u32 (upper interval - size)) (upper interval) in
       put (with_free (SubtractInterval (free_blocks r) allocated)
              (u32 (region_used r + size)) r) ;;
       ret (Some (lower allocated))
   end)%hle.

Definition Free (offset size : Z) : op MemoryRegionInfo unit :=
  (r <- get ;;
   if is_locked r then ret tt
   else
     let interval := mkInterval offset (u32 (offset + size)) in
     assert_ (negb (IntersectsAny (free_blocks r) interval)) ;;
     put (with_free (InsertMerge (free_blocks r) interval)
            (u32 (region_used r - size)) r))%hle.

Definition Unlock : op MemoryRegionInfo unit :=
  (r <- get ;;
   put (mkRegion (region_base r) (region_size r) (region_used r) (free_blocks r) false))%hle.

(** The loop that returns every block an object holds to its region
    (the destructor of [SharedMemory]). *)
Fixpoint FreeBlocks (blocks : list Interval) : op MemoryRegionInfo unit :=
  match blocks with
  | [] => ret tt
  | interval :: rest =>
      (Free (lower interval) (IntervalSize interval) ;; FreeBlocks rest)%hle
  end.

(** One call on a region by the kernel.  [Process] checks the ranges it passes
    for overflow, and frees only what lies in the region. *)
Inductive region_step : MemoryRegionInfo -> MemoryRegionInfo -> Prop :=
  | step_Reset base size r r' :
      0 <= base -> 0 < size -> base + size < 4294967296 ->
      Reset base size r = Done r' tt -> region_step r r'
  | step_HeapAllocate size r r' res :
      0 < size < 4294967296 ->
      HeapAllocate size r = Done r' res -> region_step r r'
  | step_LinearAllocateAt offset size r r' b :
      0 <= offset -> 0 < size -> offset + size < 4294967296 ->
      LinearAllocateAt offset size r = Done r' b -> region_step r r'
  | step_LinearAllocate size r r' o :
      0 < size < 4294967296 ->
      LinearAllocate size r = Done r' o -> region_step r r'
  | step_RLinearAllocate size r r' o :
      0 < size < 4294967296 ->
      RLinearAllocate size r = Done r' o -> region_step r r'
  | step_Free offset size r r' :
      region_base r <= offset -> 0 < size ->
      offset + size <= region_base r + region_size r ->
      Free offset size r = Done r' tt -> region_step r r'
  | step_Unlock r r' : Unlock r = Done r' tt -> region_step r r'.

(** ** Canonical interval sets

    The blocks are non-empty, lie in [[lo, hi)] and are separated by at least
    one allocated offset, so that a set of free offsets has one representation. *)

Definition before (i j : Interval) : Prop := upper i < lower j.

Definition block_ok (lo hi : Z) (i : Interval) : Prop :=
  lo <= lower i /\ lower i < upper i /\ upper i <= hi.

Definition canonical (lo hi : Z) (l : IntervalSet) : Prop :=
  StronglySorted before l /\ Forall (block_ok lo hi) l.

Definition inside (i : Interval) (p : Z) : Prop := lower i <= p < upper i.

(** The offsets an interval set stands for. *)
Definition covers (l : IntervalSet) (p : Z) : Prop := exists i, i ∈ l /\ inside i p.

Definition total (l : IntervalSet) : Z :=
  fold_right (fun i n => (upper i - lower i) + n) 0 l.

(** What is left of a block when [needle] is taken out. *)
Definition pieces (needle i : Interval) : list Interval :=
  if Intersects i needle then
    (if lower i <? lower needle then [mkInterval (lower i) (lower needle)] else []) ++
    (if upper needle <? upper i then [mkInterval (upper needle) (upper i)] else [])
  else [i].

Lemma Intersects_spec a b :
  Intersects a b = true <-> lower a < upper b /\ lower b < upper a.
Proof. unfold Intersects. rewrite andb_true_iff, !Z.ltb_lt. done. Qed.

Lemma Intersects_false a b :
  Intersects a b = false <-> upper b <= lower a \/ upper a <= lower b.
Proof. unfold Intersects. rewrite andb_false_iff, !Z.ltb_ge. done. Qed.

Lemma IntervalLess_true i j :
  IntervalLess i j = true <->
  lower i < lower j \/ (lower i = lower j /\ upper i < upper j).
Proof.
  unfold IntervalLess. destruct (Z.eqb_spec (lower i) (lower j)); simpl;
    rewrite Z.ltb_lt; lia.
Qed.

Lemma IntervalLess_false i j :
  IntervalLess i j = false <->
  lower j < lower i \/ (lower i = lower j /\ upper j <= upper i).
Proof.
  unfold IntervalLess. destruct (Z.eqb_spec (lower i) (lower j)); simpl;
    rewrite Z.ltb_ge; lia.
Qed.

Lemma canonical_app lo hi p q :
  canonical lo hi (p ++ q) <->
  (forall i j, i ∈ p -> j ∈ q -> before i j) /\ canonical lo hi p /\ canonical lo hi q.
Proof.
  unfold canonical. rewrite StronglySorted_app, Forall_app. tauto.
Qed.

Lemma canonical_cons lo hi i q :
  canonical lo hi (i :: q) <->
  block_ok lo hi i /\ (forall j, j ∈ q -> before i j) /\ canonical lo hi q.
Proof.
  unfold canonical. rewrite StronglySorted_cons, Forall_cons_iff, (list.Forall_forall (before i)).
  tauto.
Qed.

Lemma canonical_block lo hi l i : canonical lo hi l -> i ∈ l -> block_ok lo hi i.
Proof. intros [_ H] Hi. rewrite list.Forall_forall in H. by apply H. Qed.

Lemma canonical_nil lo hi : canonical lo hi [].
Proof. split; constructor. Qed.

(** Sorting order of disjoint blocks. *)
Lemma before_less lo hi i j :
  block_ok lo hi i -> block_ok lo hi j -> before i j ->
  IntervalLess i j = true /\ IntervalLess j i = false.
Proof.
  unfold block_ok, before. rewrite IntervalLess_true, IntervalLess_false. lia.
Qed.

Lemma covers_app l1 l2 p : covers (l1 ++ l2) p <-> covers l1 p \/ covers l2 p.
Proof. unfold covers. setoid_rewrite elem_of_app. firstorder. Qed.

Lemma covers_cons i l p : covers (i :: l) p <-> inside i p \/ covers l p.
Proof.
  unfold covers. setoid_rewrite elem_of_cons. split.
  - intros (j & [->|Hj] & Hp); [by left|right; by exists j].
  - intros [Hp|(j & Hj & Hp)]; [exists i|exists j]; auto.
Qed.

Lemma covers_nil p : ~ covers [] p.
Proof. intros (i & Hi & _). by apply elem_of_nil in Hi. Qed.

Lemma total_app l1 l2 : total (l1 ++ l2) = total l1 + total l2.
Proof. induction l1 as [|i l1 IH]; simpl; [done|]. fold (total (l1 ++ l2)). lia. Qed.

Lemma total_nonneg lo hi l : canonical lo hi l -> 0 <= total l.
Proof.
  induction l as [|i l IH]; simpl; [done|].
  intros ([? [??]] & _ & Hl)%canonical_cons. specialize (IH Hl). lia.
Qed.

(** The canonical form is unique: two canonical sets of the same offsets are
    the same list of blocks. *)
Lemma canonical_unique lo hi l1 l2 :
  canonical lo hi l1 -> canonical lo hi l2 ->
  (forall p, covers l1 p <-> covers l2 p) -> l1 = l2.
Proof.
  revert l2. induction l1 as [|i r1 IH]; intros [|j r2] H1 H2 Hc.
  - done.
  - exfalso. apply canonical_cons in H2 as ([? [??]] & _).
    apply (covers_nil (lower j)), Hc, covers_cons. left. unfold inside. lia.
  - exfalso. apply canonical_cons in H1 as ([? [??]] & _).
    apply (covers_nil (lower i)), Hc, covers_cons. left. unfold inside. lia.
  - apply canonical_cons in H1 as ([Hi1 [Hi2 Hi3]] & Hb1 & Hr1).
    apply canonical_cons in H2 as ([Hj1 [Hj2 Hj3]] & Hb2 & Hr2).
    assert (T1 : forall p, covers r1 p -> upper i < p).
    { intros p (k & Hk & Hp). specialize (Hb1 k Hk). unfold before, inside in *. lia. }
    assert (T2 : forall p, covers r2 p -> upper j < p).
    { intros p (k & Hk & Hp). specialize (Hb2 k Hk). unfold before, inside in *. lia. }
    assert (E : forall p, (inside i p \/ covers r1 p) <-> (inside j p \/ covers r2 p)).
    { intros p. by rewrite <-!covers_cons. }
    assert (lower i = lower j) as El.
    { destruct (proj1 (E (lower i))) as [?|?%T2]; [left; unfold inside; lia| |];
      destruct (proj2 (E (lower j))) as [?|?%T1];
        try (left; unfold inside; lia); unfold inside in *; lia. }
    assert (upper i = upper j) as Eu.
    { destruct (Z.lt_trichotomy (upper i) (upper j)) as [H|[H|H]]; [|done|]; exfalso.
      - destruct (proj2 (E (upper i))) as [?|?%T1]; [left| |]; unfold inside in *; lia.
      - destruct (proj1 (E (upper j))) as [?|?%T2]; [left| |]; unfold inside in *; lia. }
    assert (i = j) as -> by (destruct i, j; simpl in *; congruence).
    f_equal. apply IH; [done|done|]. intros p. split; intros Hp.
    + destruct (proj1 (E p)) as [?|?]; [by right| |done].
      apply T1 in Hp. unfold inside in *. lia.
    + destruct (proj2 (E p)) as [?|?]; [by right| |done].
      apply T2 in Hp. unfold inside in *. lia.
Qed.

(** ** Taking an interval out *)

(** A canonical set splits around a non-empty interval: blocks before it,
    blocks that intersect it, blocks after it. *)
Lemma canonical_split lo hi l n :
  canonical lo hi l -> lower n < upper n ->
  exists a b c, l = a ++ b ++ c /\
    Forall (fun i => upper i <= lower n) a /\
    Forall (fun i => Intersects i n = true) b /\
    Forall (fun i => upper n <= lower i) c.
Proof.
  intros Hl Hn. induction l as [|i l IH].
  - exists [], [], []. repeat split; constructor.
  - apply canonical_cons in Hl as ([Hi1 [Hi2 Hi3]] & Hb & Hl).
    destruct (IH Hl) as (a & b & c & -> & Ha & Hib & Hc).
    destruct (Z.le_gt_cases (upper i) (lower n)) as [H|H].
    + exists (i :: a), b, c. repeat split; auto.
    + assert (a = []) as ->.
      { destruct a as [|j a]; [done|]. exfalso.
        apply Forall_cons_iff in Ha as [Ha _].
        specialize (Hb j). unfold before in Hb.
        assert (block_ok lo hi j) as [? [??]] by (eapply canonical_block; [done|]; mem_list).
        specialize (Hb ltac:(mem_list)). lia. }
      destruct (Z.le_gt_cases (upper n) (lower i)) as [H'|H'].
      * assert (b = []) as ->.
        { destruct b as [|j b]; [done|]. exfalso.
          apply Forall_cons_iff in Hib as [Hj _]. apply Intersects_spec in Hj.
          specialize (Hb j ltac:(mem_list)). unfold before in Hb. lia. }
        exists [], [], (i :: c). repeat split; auto.
      * exists [], (i :: b), c. repeat split; auto.
        constructor; [|done]. apply Intersects_spec. lia.
Qed.

Lemma pieces_disjoint n i : Intersects i n = false -> pieces n i = [i].
Proof. unfold pieces. by intros ->. Qed.

Lemma flat_map_pieces_disjoint n l :
  Forall (fun i => Intersects i n = false) l -> flat_map (pieces n) l = l.
Proof.
  induction 1 as [|i l Hi Hl IH]; simpl; [done|].
  by rewrite pieces_disjoint, IH.
Qed.

Lemma pieces_ok lo hi n i :
  block_ok lo hi i -> lower n < upper n ->
  canonical lo hi (pieces n i) /\
  (forall j, j ∈ pieces n i -> lower i <= lower j /\ upper j <= upper i).
Proof.
  intros [H1 [H2 H3]] Hn. unfold pieces.
  destruct (Intersects i n) eqn:E; simpl.
  - apply Intersects_spec in E as [E1 E2].
    destruct (Z.ltb_spec (lower i) (lower n)), (Z.ltb_spec (upper n) (upper i)); simpl;
      (split; [unfold canonical|];
       [split; repeat constructor; simpl; unfold block_ok, before; simpl; lia|];
       intros j Hj; repeat (apply elem_of_cons in Hj as [->|Hj]; [simpl; lia|]);
       by apply elem_of_nil in Hj).
  - split.
    + split; repeat constructor; unfold block_ok; lia.
    + intros j Hj. apply elem_of_cons in Hj as [->|Hj]; [lia|by apply elem_of_nil in Hj].
Qed.

Lemma pieces_inside n i p :
  lower n < upper n ->
  covers (pieces n i) p <-> inside i p /\ ~ inside n p.
Proof.
  intros Hn. unfold pieces. destruct (Intersects i n) eqn:E.
  - apply Intersects_spec in E. rewrite covers_app.
    destruct (Z.ltb_spec (lower i) (lower n)), (Z.ltb_spec (upper n) (upper i));
      rewrite ?covers_cons; unfold inside; simpl;
      (split; [intros [[?|[]%covers_nil]|[?|[]%covers_nil]]|]) ||
      (split; [intros [[?|[]%covers_nil]|[]%covers_nil]|]) ||
      (split; [intros [[]%covers_nil|[?|[]%covers_nil]]|]) ||
      (split; [intros [[]%covers_nil|[]%covers_nil]|]);
      try lia.
  - apply Intersects_false in E. rewrite covers_cons. unfold inside.
    split; [intros [?|[]%covers_nil]; lia|intros [? _]; by left].
Qed.

Lemma flat_map_pieces_canonical lo hi n l :
  canonical lo hi l -> lower n < upper n -> canonical lo hi (flat_map (pieces n) l).
Proof.
  intros Hl Hn. induction l as [|i l IH]; simpl; [done|].
  apply canonical_cons in Hl as (Hi & Hb & Hl).
  destruct (pieces_ok lo hi n i Hi Hn) as [Hp Hq].
  apply canonical_app. split; [|split; [done|by apply IH]].
  intros j k Hj Hk. apply list_elem_of_In, in_flat_map in Hk as (i' & Hi' & Hk).
  apply list_elem_of_In in Hi', Hk.
  specialize (Hq j Hj). specialize (Hb i' Hi').
  destruct (pieces_ok lo hi n i') as [_ Hq']; [eauto using canonical_block|done|].
  specialize (Hq' k Hk). unfold before in *. lia.
Qed.

Lemma flat_map_pieces_covers n l p :
  lower n < upper n ->
  covers (flat_map (pieces n) l) p <-> covers l p /\ ~ inside n p.
Proof.
  intros Hn. induction l as [|i l IH]; simpl.
  - split; [by intros ?%covers_nil|by intros [?%covers_nil _]].
  - rewrite covers_app, covers_cons, IH, pieces_inside by done. tauto.
Qed.

(** The loop of [SubtractInterval] on the intersecting blocks. *)
Lemma SubtractInterval_loop_hit lo hi n b c acc :
  canonical lo hi (b ++ c) ->
  Forall (fun i => Intersects i n = true) b ->
  Forall (fun i => upper n <= lower i) c ->
  SubtractInterval_loop n (b ++ c) acc = (c, acc ++ flat_map (pieces n) b).
Proof.
  intros Hl Hb Hc. revert acc Hl. induction Hb as [|i b Hi Hb IH]; intros acc Hl; simpl.
  - rewrite app_nil_r. destruct Hc as [|j c Hj Hc]; simpl; [done|].
    by rewrite (proj2 (Z.leb_le _ _) Hj).
  - pose proof (proj1 (Intersects_spec _ _) Hi) as [Hi1 Hi2].
    destruct (Z.leb_spec (upper n) (lower i)); [lia|].
    unfold pieces at 1. rewrite Hi. simpl.
    apply canonical_cons in Hl as (_ & Hbef & Hl).
    destruct (Z.ltb_spec (upper n) (upper i)).
    + assert (b = []) as ->.
      { destruct b as [|j b]; [done|]. exfalso.
        apply Forall_cons_iff in Hb as [Hj _]. apply Intersects_spec in Hj as [Hj1 Hj2].
        specialize (Hbef j ltac:(mem_list)). unfold before in Hbef. lia. }
      simpl. rewrite ?app_nil_r. destruct (lower i <? lower n); simpl;
        rewrite ?app_nil_r, <-?app_assoc; done.
    + rewrite IH by done. destruct (lower i <? lower n); simpl;
        by rewrite ?app_nil_r, <-?app_assoc.
Qed.

Lemma SubtractInterval_loop_miss lo hi n a r acc :
  canonical lo hi (a ++ r) -> lower n < upper n ->
  Forall (fun i => upper i <= lower n) a ->
  SubtractInterval_loop n (a ++ r) acc =
  (let '(kept, added) := SubtractInterval_loop n r acc in (a ++ kept, added)).
Proof.
  intros Hl Hn Ha. induction Ha as [|i a Hi Ha IH]; simpl.
  - by destruct (SubtractInterval_loop n r acc).
  - apply canonical_cons in Hl as ([? [??]] & _ & Hl).
    destruct (Z.leb_spec (upper n) (lower i)); [lia|].
    assert (Intersects i n = false) as -> by (apply Intersects_false; lia).
    simpl. rewrite IH by done. by destruct (SubtractInterval_loop n r acc).
Qed.

(** [lower_bound] puts before the iterator only blocks that lie before the
    needle, except possibly the last of them. *)
Lemma lower_bound_before lo hi l n pre y suf :
  canonical lo hi l ->
  set_lower_bound IntervalLess n l = (pre ++ [y], suf) ->
  Forall (fun i => upper i < lower n) pre.
Proof.
  intros Hl E. pose proof (span_app _ _ _ _ E) as ->.
  apply span_prefix, Forall_app in E as [_ E]. apply Forall_cons_iff in E as [E _].
  apply IntervalLess_true in E.
  apply list.Forall_forall. intros i Hi.
  rewrite <-app_assoc in Hl. apply canonical_app in Hl as (Hb & _ & _).
  specialize (Hb i y Hi ltac:(mem_list)). unfold before in Hb. lia.
Qed.

(** [SubtractInterval] takes exactly the needle out of every block. *)
Lemma SubtractInterval_flat_map lo hi l n :
  canonical lo hi l -> lower n < upper n ->
  SubtractInterval l n = flat_map (pieces n) l.
Proof.
  intros Hl Hn. unfold SubtractInterval.
  destruct (set_lower_bound IntervalLess n l) as [pre suf] eqn:E.
  pose proof (span_app _ _ _ _ E) as El.
  assert (exists p0 s0, (match iter_prev (pre, suf) with
           | None => (pre, suf)
           | Some (pre', it, _) => (pre', it :: suf)
           end) = (p0, s0) /\ l = p0 ++ s0 /\
           Forall (fun i => upper i <= lower n) p0) as (p0 & s0 & -> & -> & Hp0).
  { destruct (iter_prev (pre, suf)) as [[[p' y] s']|] eqn:Ei.
    - apply iter_prev_Some in Ei as [-> ->]. exists p', (y :: suf).
      split; [done|]. rewrite <-app_assoc in El. split; [done|].
      pose proof (lower_bound_before _ _ _ _ _ _ _ Hl E) as HF.
      eapply List.Forall_impl; [|exact HF]. simpl. lia.
    - apply iter_prev_None in Ei as ->. exists [], suf. repeat split; auto. }
  clear E El.
  assert (canonical lo hi s0) as Hs0 by (apply canonical_app in Hl; tauto).
  destruct (canonical_split _ _ _ n Hs0 Hn) as (a & b & c & -> & Ha & Hb & Hc).
  rewrite (SubtractInterval_loop_miss lo hi) by done.
  rewrite (SubtractInterval_loop_hit lo hi n b c) by
    (try done; apply canonical_app in Hs0; tauto).
  simpl. rewrite !app_assoc.
  assert (Hdis : Forall (fun i => Intersects i n = false) (p0 ++ a)).
  { apply Forall_app; split; (eapply List.Forall_impl; [|eassumption]); simpl; intros i Hi;
      apply Intersects_false; lia. }
  assert (Hdis' : Forall (fun i => Intersects i n = false) c).
  { eapply List.Forall_impl; [|exact Hc]. simpl; intros i Hi; apply Intersects_false; lia. }
  assert (Hall : canonical lo hi (flat_map (pieces n) (p0 ++ a ++ b ++ c)))
    by (by apply flat_map_pieces_canonical).
  rewrite !flat_map_app, (flat_map_pieces_disjoint n c) in Hall |- * by done.
  apply Forall_app in Hdis as [Hd1 Hd2].
  rewrite (flat_map_pieces_disjoint n p0), (flat_map_pieces_disjoint n a) in Hall |- * by done.
  rewrite <-!app_assoc, (app_assoc p0 a c), (app_assoc p0 a).
  apply (set_insert_all _ (fun i j => block_ok lo hi i /\ block_ok lo hi j /\ before i j)).
  - intros x y (Hx & Hy & Hxy). by eapply before_less.
  - rewrite <-app_assoc. destruct Hall as [HS HF]. revert HS HF.
    generalize (p0 ++ a ++ flat_map (pieces n) b ++ c). intros k HS HF.
    induction HS as [|x k HS IH Hx]; constructor.
    + apply IH. by apply Forall_cons_iff in HF as [_ ?].
    + apply Forall_cons_iff in HF as [? HF]. rewrite list.Forall_forall in Hx, HF |- *.
      intros y Hy. auto.
Qed.

Lemma SubtractInterval_canonical lo hi l n :
  canonical lo hi l -> lower n < upper n -> canonical lo hi (SubtractInterval l n).
Proof.
  intros Hl Hn. erewrite SubtractInterval_flat_map by done.
  by apply flat_map_pieces_canonical.
Qed.

Lemma SubtractInterval_covers lo hi l n p :
  canonical lo hi l -> lower n < upper n ->
  covers (SubtractInterval l n) p <-> covers l p /\ ~ inside n p.
Proof.
  intros Hl Hn. erewrite SubtractInterval_flat_map by done.
  by apply flat_map_pieces_covers.
Qed.

Lemma Intersects_sym a b : Intersects a b = Intersects b a.
Proof. unfold Intersects. by rewrite andb_comm. Qed.

Lemma before_disjoint lo hi i j :
  block_ok lo hi i -> block_ok lo hi j -> before i j -> Intersects i j = false.
Proof. unfold block_ok, before. intros. apply Intersects_false. lia. Qed.

(** Taking a part [n] of the block [b] out leaves the other blocks alone. *)
Lemma SubtractInterval_contained lo hi l b r n :
  canonical lo hi (l ++ b :: r) ->
  lower b <= lower n -> lower n < upper n -> upper n <= upper b ->
  SubtractInterval (l ++ b :: r) n =
    l ++ ((if lower b <? lower n then [mkInterval (lower b) (lower n)] else []) ++
          (if upper n <? upper b then [mkInterval (upper n) (upper b)] else [])) ++ r.
Proof.
  intros Hl H1 H2 H3. erewrite SubtractInterval_flat_map by done.
  rewrite flat_map_app. simpl. apply canonical_app in Hl as (Hb1 & Hl & Hr).
  apply canonical_cons in Hr as ([? [??]] & Hb2 & Hr).
  rewrite !flat_map_pieces_disjoint.
  - unfold pieces. by rewrite (proj2 (Intersects_spec b n)) by lia.
  - apply list.Forall_forall. intros j Hj. specialize (Hb2 j Hj). unfold before in Hb2.
    apply Intersects_false. lia.
  - apply list.Forall_forall. intros j Hj. specialize (Hb1 j b Hj ltac:(mem_list)).
    unfold before in Hb1. apply Intersects_false. lia.
Qed.

Lemma SubtractIntervals_tail lo hi l r :
  canonical lo hi (l ++ r) -> SubtractIntervals (l ++ r) r = l.
Proof.
  unfold SubtractIntervals. induction r as [|b r IH] in l |- *; simpl; intros Hl.
  - by rewrite app_nil_r.
  - assert (block_ok lo hi b) as [? [??]].
    { eapply canonical_block; [done|]. mem_list. }
    rewrite (SubtractInterval_contained lo hi) by (done || lia).
    rewrite !(proj2 (Z.ltb_ge _ _)) by lia. simpl. apply IH.
    apply canonical_app in Hl as (Hb & Hl & Hr).
    apply canonical_cons in Hr as (_ & _ & Hr).
    apply canonical_app. split; [|done]. intros i j Hi Hj. apply Hb; [done|]. mem_list.
Qed.

(** ** Adding an interval *)

Lemma InsertMerge_loop_spec lo hi n suf :
  canonical lo hi suf -> block_ok lo hi n ->
  (forall i, i ∈ suf -> lower n <= upper i) ->
  let '(m, rest) := InsertMerge_loop n suf in
  block_ok lo hi m /\ lower m <= lower n /\ upper n <= upper m /\
  (forall k, (forall i, i ∈ suf -> before k i) -> upper k < lower n -> upper k < lower m) /\
  canonical lo hi (m :: rest) /\
  (forall p, covers (m :: rest) p <-> covers (n :: suf) p).
Proof.
  revert n. induction suf as [|i suf IH]; intros n Hs Hn Hlow; simpl.
  - split_and!; try done; try lia.
    apply canonical_cons. split_and!; [done| |apply canonical_nil].
    intros j Hj. by apply elem_of_nil in Hj.
  - pose proof Hs as Hs0. apply canonical_cons in Hs as ([Hi1 [Hi2 Hi3]] & Hb & Hs).
    destruct (Z.leb_spec (lower i) (upper n)).
    + pose proof (Hlow i ltac:(mem_list)).
      specialize (IH (mkInterval (Z.min (lower n) (lower i)) (Z.max (upper n) (upper i)))).
      destruct (InsertMerge_loop _ suf) as [m rest]. simpl in IH.
      destruct IH as (Hm & Hm1 & Hm2 & Hm3 & Hc & Hcov); try done.
      * unfold block_ok in *; simpl; lia.
      * intros j Hj. specialize (Hb j Hj). unfold before in Hb.
        assert (block_ok lo hi j) as [? [??]] by eauto using canonical_block. lia.
      * split_and!; try done; try lia.
        -- intros k Hk Hkn. apply Hm3; [intros; apply Hk; mem_list|].
           specialize (Hk i ltac:(mem_list)). unfold before in Hk. lia.
        -- intros p. rewrite Hcov, !covers_cons. unfold inside, block_ok in *; simpl.
           intuition lia.
    + split_and!; try done; try lia.
      apply canonical_cons. split_and!; [done| |done].
      intros j Hj. apply elem_of_cons in Hj as [->|Hj]; unfold before; [lia|].
      specialize (Hb j Hj). unfold before in Hb. lia.
Qed.

Lemma InsertMerge_spec lo hi l n :
  canonical lo hi l -> block_ok lo hi n ->
  canonical lo hi (InsertMerge l n) /\
  (forall p, covers (InsertMerge l n) p <-> covers l p \/ inside n p).
Proof.
  intros Hl Hn. unfold InsertMerge.
  destruct (set_lower_bound IntervalLess n l) as [pre suf] eqn:E.
  pose proof (span_app _ _ _ _ E) as El.
  assert (Hsuf : forall i, i ∈ suf -> lower n <= lower i).
  { destruct suf as [|y suf]; intros i Hi; [by apply elem_of_nil in Hi|].
    apply span_suffix, IntervalLess_false in E.
    rewrite El in Hl. apply canonical_app in Hl as (_ & _ & Hl).
    apply canonical_cons in Hl as ([? [??]] & Hb & _).
    apply elem_of_cons in Hi as [->|Hi]; [lia|].
    specialize (Hb i Hi). unfold before in Hb. lia. }
  assert (exists p0 m0, (match iter_prev (pre, suf) with
     | None => (pre, n)
     | Some (pre', prev, _) =>
         if lower n <=? upper prev then
           (pre', mkInterval (Z.min (lower n) (lower prev)) (Z.max (upper n) (upper prev)))
         else (pre, n)
     end) = (p0, m0) /\ block_ok lo hi m0 /\ lower m0 <= lower n /\
     (forall i, i ∈ p0 -> upper i < lower m0) /\
     canonical lo hi (p0 ++ suf) /\
     (forall p, covers (p0 ++ m0 :: suf) p <-> covers l p \/ inside n p))
    as (p0 & m0 & -> & Hm0 & Hlow & Hp0 & Hc0 & Hcov).
  { destruct (iter_prev (pre, suf)) as [[[p' y] s']|] eqn:Ei.
    - apply iter_prev_Some in Ei as [-> ->].
      pose proof (lower_bound_before _ _ _ _ _ _ _ Hl E) as HF.
      pose proof (span_prefix _ _ _ _ E) as Hy. apply Forall_app in Hy as [_ Hy].
      apply Forall_cons_iff in Hy as [Hy _]. apply IntervalLess_true in Hy.
      rewrite El, <-app_assoc in Hl. simpl in Hl.
      pose proof Hl as Hl0. apply canonical_app in Hl0 as (Hb & Hp' & Hys).
      apply canonical_cons in Hys as (Hyok & Hys & Hsok).
      rewrite list.Forall_forall in HF.
      destruct (Z.leb_spec (lower n) (upper y)).
      + exists p', (mkInterval (Z.min (lower n) (lower y)) (Z.max (upper n) (upper y))).
        unfold block_ok in *. simpl. split_and!; try done; try lia.
        * intros i Hi. specialize (HF i Hi). specialize (Hb i y Hi ltac:(mem_list)).
          unfold before in Hb. lia.
        * apply canonical_app. split; [|done]. intros; apply Hb; [done|]. mem_list.
        * intros p. rewrite El, <-app_assoc, !covers_app. simpl. rewrite !covers_cons.
          assert (inside (mkInterval (Z.min (lower n) (lower y))
                            (Z.max (upper n) (upper y))) p <->
                  inside y p \/ inside n p) as -> by (unfold inside; simpl; lia).
          pose proof (covers_nil p). tauto.
      + exists (p' ++ [y]), n. split_and!; try done; try lia.
        * intros i Hi. apply elem_of_app in Hi as [Hi|Hi]; [by apply HF|].
          apply elem_of_cons in Hi as [->|Hi]; [lia|by apply elem_of_nil in Hi].
        * by rewrite <-app_assoc.
        * intros p. rewrite El, !covers_app, !covers_cons. tauto.
    - apply iter_prev_None in Ei as ->. exists [], n. simpl in *. subst.
      split_and!; try done; try lia.
      + intros i Hi; by apply elem_of_nil in Hi.
      + intros p. rewrite covers_cons. tauto. }
  pose proof Hc0 as Hc1. apply canonical_app in Hc1 as (Hb & Hp0c & Hsufc).
  pose proof (InsertMerge_loop_spec lo hi m0 suf Hsufc Hm0) as HL.
  destruct (InsertMerge_loop m0 suf) as [m rest].
  destruct HL as (Hmok & Hm1 & Hm2 & Hm3 & Hmr & Hmc).
  { intros i Hi. specialize (Hsuf i Hi).
    assert (block_ok lo hi i) as [? [??]] by eauto using canonical_block. lia. }
  assert (Hfin : canonical lo hi (p0 ++ m :: rest)).
  { apply canonical_app. split; [|done]. intros k j Hk Hj.
    assert (upper k < lower m) by (apply Hm3; [intros; by apply Hb|by apply Hp0]).
    apply elem_of_cons in Hj as [->|Hj]; [done|].
    apply canonical_cons in Hmr as ([? [??]] & Hmr & _). specialize (Hmr j Hj).
    unfold before in *. lia. }
  rewrite set_insert_between.
  - split; [done|]. intros p. rewrite covers_app, Hmc, <-covers_app. apply Hcov.
  - apply list.Forall_forall. intros k Hk.
    apply canonical_app in Hfin as (Hfb & _ & _).
    eapply before_less; [by eauto using canonical_block|done|]. apply Hfb; mem_list.
  - apply list.Forall_forall. intros k Hk.
    apply canonical_cons in Hmr as (_ & Hmb & Hrest).
    destruct (before_less lo hi m k); eauto using canonical_block.
Qed.

Lemma block_inside i : lower i < upper i -> inside i (lower i).
Proof. unfold inside. lia. Qed.

(** [IntersectsAny] sees every intersecting block. *)
Lemma IntersectsAny_spec lo hi l n :
  canonical lo hi l -> lower n < upper n ->
  IntersectsAny l n = true <-> exists i, i ∈ l /\ Intersects i n = true.
Proof.
  intros Hl Hn. unfold IntersectsAny.
  destruct (set_lower_bound IntervalLess n l) as [pre suf] eqn:E.
  pose proof (span_app _ _ _ _ E) as ->. simpl.
  assert (Hs : forall i, i ∈ suf -> Intersects i n = true ->
               exists h r, suf = h :: r /\ Intersects h n = true).
  { intros i Hi Hin. destruct suf as [|h r]; [by apply elem_of_nil in Hi|].
    exists h, r. split; [done|].
    apply elem_of_cons in Hi as [<-|Hi]; [done|].
    apply span_suffix, IntervalLess_false in E.
    apply canonical_app in Hl as (_ & _ & Hl).
    apply canonical_cons in Hl as ([? [??]] & Hb & _). specialize (Hb i Hi).
    unfold before in Hb. apply Intersects_spec in Hin. apply Intersects_spec. lia. }
  split.
  - destruct suf as [|h r].
    + destruct (iter_prev (pre, [])) as [[[p' y] s']|] eqn:Ei; [|done].
      apply iter_prev_Some in Ei as [-> _]. intros H. exists y. split; [mem_list|done].
    + destruct (Intersects h n) eqn:Eh; [intros _; exists h; split; [mem_list|done]|].
      destruct (iter_prev (pre, h :: r)) as [[[p' y] s']|] eqn:Ei; [|done].
      apply iter_prev_Some in Ei as [-> _]. intros H. exists y. split; [mem_list|done].
  - intros (i & Hi & Hin). apply elem_of_app in Hi as [Hi|Hi].
    + destruct (iter_prev (pre, suf)) as [[[p' y] s']|] eqn:Ei.
      * apply iter_prev_Some in Ei as [-> ->].
        assert (Intersects y n = true) as ->.
        { apply elem_of_app in Hi as [Hi|Hi].
          - exfalso. pose proof (lower_bound_before _ _ _ _ _ _ _ Hl E) as HF.
            rewrite list.Forall_forall in HF. specialize (HF i Hi). simpl in HF.
            apply Intersects_spec in Hin. lia.
          - apply elem_of_cons in Hi as [<-|Hi]; [done|by apply elem_of_nil in Hi]. }
        by destruct (match suf with [] => false | cur :: _ => Intersects cur n end).
      * apply iter_prev_None in Ei as ->. by apply elem_of_nil in Hi.
    + destruct (Hs i Hi Hin) as (h & r & -> & ->). done.
Qed.

(** What [Contains] answers: the needle lies in a block, and either starts
    strictly after the block's start or is the whole block. *)
Lemma Contains_spec lo hi l n :
  canonical lo hi l -> lower n < upper n ->
  Contains l n = true <->
  exists b, b ∈ l /\ lower b <= lower n /\ upper n <= upper b /\
            (lower b < lower n \/ upper n = upper b).
Proof.
  intros Hl Hn. unfold Contains.
  destruct (set_upper_bound IntervalLess n l) as [pre suf] eqn:E.
  pose proof (span_app _ _ _ _ E) as ->.
  pose proof (span_prefix _ _ _ _ E) as Hpre.
  assert (Hs : forall b, b ∈ suf ->
               lower n < lower b \/ (lower n = lower b /\ upper n < upper b)).
  { destruct suf as [|h r]; intros b Hb; [by apply elem_of_nil in Hb|].
    apply span_suffix, negb_false_iff, IntervalLess_true in E.
    apply elem_of_cons in Hb as [->|Hb]; [done|].
    apply canonical_app in Hl as (_ & _ & Hl).
    apply canonical_cons in Hl as ([? [??]] & Hbef & _). specialize (Hbef b Hb).
    unfold before in Hbef. lia. }
  split.
  - destruct (iter_prev (pre, suf)) as [[[p' y] s']|] eqn:Ei; [|done].
    apply iter_prev_Some in Ei as [-> ->].
    rewrite andb_true_iff, !Z.leb_le. intros [H1 H2].
    apply Forall_app in Hpre as [_ Hy]. apply Forall_cons_iff in Hy as [Hy _].
    apply negb_true_iff, IntervalLess_false in Hy.
    exists y. split; [mem_list|]. lia.
  - intros (b & Hb & H1 & H2 & H3).
    apply elem_of_app in Hb as [Hb|Hb]; [|specialize (Hs b Hb); lia].
    destruct (iter_prev (pre, suf)) as [[[p' y] s']|] eqn:Ei.
    + apply iter_prev_Some in Ei as [-> ->].
      assert (b = y) as ->.
      { apply elem_of_app in Hb as [Hb|Hb].
        - exfalso. apply Forall_app in Hpre as [_ Hy]. apply Forall_cons_iff in Hy as [Hy _].
          apply negb_true_iff, IntervalLess_false in Hy.
          rewrite <-app_assoc in Hl. apply canonical_app in Hl as (Hbef & _ & _).
          specialize (Hbef b y Hb ltac:(mem_list)). unfold before in Hbef. lia.
        - apply elem_of_cons in Hb as [->|Hb]; [done|by apply elem_of_nil in Hb]. }
      rewrite andb_true_iff, !Z.leb_le. lia.
    + apply iter_prev_None in Ei as ->. by apply elem_of_nil in Hb.
Qed.

Lemma IntervalSize_block lo hi i :
  block_ok lo hi i -> 0 <= lo -> hi < 4294967296 ->
  IntervalSize i = upper i - lower i.
Proof. intros [? [??]] ??. unfold IntervalSize. word_lia. Qed.

(** [HeapAllocate]'s loop takes whole blocks from the top, then the top of one
    block; it reports what is missing when the blocks run out. *)
Lemma HeapAllocate_loop_spec lo hi blocks rest acc :
  0 <= lo -> hi < 4294967296 -> 0 <= rest < 4294967296 ->
  canonical lo hi (rev blocks ++ acc) ->
  (rest <= total (rev blocks) /\ blocks <> [] /\
   exists l b r k, rev blocks = l ++ b :: r /\
     HeapAllocate_loop blocks rest acc = (mkInterval (upper b - k) (upper b) :: r ++ acc, 0) /\
     0 <= k <= upper b - lower b /\ k + total r = rest /\ (0 < rest -> 0 < k)) \/
  ((total (rev blocks) < rest \/ blocks = []) /\
   snd (HeapAllocate_loop blocks rest acc) = rest - total (rev blocks)).
Proof.
  intros Hlo Hhi. revert rest acc. induction blocks as [|i blocks IH]; intros rest acc Hr Hc.
  - right. simpl. split; [by right|lia].
  - simpl in Hc |- *. rewrite <-app_assoc in Hc. simpl in Hc.
    pose proof Hc as Hc0. apply canonical_app in Hc0 as (Hb & Hl & Hia).
    apply canonical_cons in Hia as (Hi & Hia & Hacc).
    rewrite (IntervalSize_block lo hi) by done. pose proof Hi as [Hi1 [Hi2 Hi3]].
    rewrite total_app. simpl. pose proof (total_nonneg lo hi _ Hl).
    assert (Hins : forall x, lower i <= lower x -> lower x <= upper x -> upper x = upper i ->
                   set_insert IntervalLess x acc = x :: acc).
    { intros x Hx1 Hx2 Hx3. apply (set_insert_between _ x [] acc); [constructor|].
      apply list.Forall_forall. intros j Hj. specialize (Hia j Hj). unfold before in Hia.
      rewrite IntervalLess_true, IntervalLess_false. lia. }
    destruct (Z.leb_spec rest (upper i - lower i)).
    + left. split_and!; [lia|done|]. exists (rev blocks), i, [], rest. simpl.
      rewrite (u32_small (upper i - rest)) by word_lia.
      rewrite Hins by (simpl; lia). split_and!; try done; lia.
    + rewrite (u32_small (rest - _)) by word_lia. rewrite Hins by lia.
      destruct (IH (rest - (upper i - lower i)) (i :: acc)) as
        [(H1 & Hne & l & b & r & k & El & -> & Hk & Ht & Hp)|[H1 ->]]; [lia|done| |].
      * rewrite El in H1 |- *. left. split_and!; [lia|done|]. exists l, b, (r ++ [i]), k.
        rewrite <-!app_assoc. simpl. rewrite total_app. simpl. split_and!; try done; lia.
      * right. split; [|lia]. left. destruct H1 as [H1| ->]; simpl; lia.
Qed.

(** ** The region invariant *)

Record region_wf (r : MemoryRegionInfo) : Prop := {
  wf_base : 0 <= region_base r;
  wf_size : 0 <= region_size r;
  wf_end : region_base r + region_size r < 4294967296;
  wf_free : canonical (region_base r) (region_base r + region_size r) (free_blocks r);
  wf_used : region_used r + total (free_blocks r) = region_size r
}.

Lemma total_le lo hi l : lo <= hi -> canonical lo hi l -> total l <= hi - lo.
Proof.
  revert lo. induction l as [|i l IH]; intros lo Hle Hl; simpl; [lia|].
  apply canonical_cons in Hl as ([Hi1 [Hi2 Hi3]] & Hb & Hl).
  assert (canonical (upper i) hi l) as Hl'.
  { destruct Hl as [HS HF]. split; [done|]. apply list.Forall_forall. intros j Hj.
    rewrite list.Forall_forall in HF. destruct (HF j Hj) as [? [??]].
    specialize (Hb j Hj). unfold before in Hb. unfold block_ok. lia. }
  specialize (IH (upper i) ltac:(lia) Hl'). lia.
Qed.

Lemma wf_used_bounds r : region_wf r -> 0 <= region_used r <= region_size r.
Proof.
  intros []. pose proof (total_nonneg _ _ _ wf_free0).
  pose proof (fun Hle => total_le _ _ _ Hle wf_free0). lia.
Qed.

(** The common part of the three allocators: take [n] out of a free block. *)
Lemma region_take r l b rr n :
  region_wf r -> free_blocks r = l ++ b :: rr ->
  lower b <= lower n -> lower n < upper n -> upper n <= upper b ->
  region_wf (with_free (SubtractInterval (free_blocks r) n)
               (u32 (region_used r + (upper n - lower n))) r) /\
  u32 (region_used r + (upper n - lower n)) = region_used r + (upper n - lower n) /\
  (forall p, covers (SubtractInterval (free_blocks r) n) p <->
             covers (free_blocks r) p /\ ~ inside n p) /\
  (forall p, inside n p -> covers (free_blocks r) p).
Proof.
  intros Hwf El H1 H2 H3. pose proof (wf_used_bounds r Hwf) as Hu.
  destruct Hwf as [Hb0 Hs0 He0 Hf0 Hu0].
  assert (block_ok (region_base r) (region_base r + region_size r) b) as [? [??]].
  { eapply canonical_block; [exact Hf0|]. rewrite El. mem_list. }
  pose proof (SubtractInterval_canonical _ _ _ n Hf0 H2) as Hcan.
  assert (Ht : total (SubtractInterval (free_blocks r) n) =
               total (free_blocks r) - (upper n - lower n)).
  { rewrite El in *. rewrite (SubtractInterval_contained _ _ _ _ _ _ Hf0 H1 H2 H3).
    rewrite !total_app. simpl.
    destruct (Z.ltb_spec (lower b) (lower n)), (Z.ltb_spec (upper n) (upper b)); simpl; lia. }
  pose proof (total_nonneg _ _ _ Hcan).
  assert (Hu32 : u32 (region_used r + (upper n - lower n)) =
                 region_used r + (upper n - lower n)) by (apply u32_small; word_lia).
  split_and!.
  - constructor; simpl; try done. rewrite Ht, Hu32. lia.
  - done.
  - intros p. by eapply SubtractInterval_covers.
  - intros p Hp. exists b. split; [rewrite El; mem_list|]. unfold inside in *. lia.
Qed.

Lemma elem_of_split_list {A} (x : A) l : x ∈ l -> exists p q, l = p ++ x :: q.
Proof. intros H. apply list_elem_of_In, in_split in H as (p & q & ->). eauto. Qed.

(** A range of free offsets lies in one block. *)
Lemma covers_range lo hi l a b :
  canonical lo hi l -> a < b -> (forall p, a <= p < b -> covers l p) ->
  exists i, i ∈ l /\ lower i <= a /\ b <= upper i.
Proof.
  intros Hl Hab Hc. destruct (Hc a) as (i & Hi & Hp); [lia|].
  exists i. split; [done|]. unfold inside in Hp. split; [lia|].
  destruct (Z.le_gt_cases b (upper i)) as [|Hlt]; [done|exfalso].
  destruct (Hc (upper i)) as (j & Hj & Hp'); [lia|]. unfold inside in Hp'.
  apply elem_of_split_list in Hi as (p & q & ->).
  apply canonical_app in Hl as (Hb & _ & Hl).
  apply canonical_cons in Hl as (_ & Hb2 & _).
  apply elem_of_app in Hj as [Hj|Hj].
  - specialize (Hb j i Hj ltac:(mem_list)). unfold before in Hb. lia.
  - apply elem_of_cons in Hj as [->|Hj]; [lia|].
    specialize (Hb2 j Hj). unfold before in Hb2. lia.
Qed.

(** Two blocks that share an offset are the same block. *)
Lemma canonical_same_block lo hi l i j p :
  canonical lo hi l -> i ∈ l -> j ∈ l -> inside i p -> inside j p -> i = j.
Proof.
  intros Hl Hi Hj Hp Hq. apply elem_of_split_list in Hi as (a & b & ->).
  apply canonical_app in Hl as (H1 & _ & Hl). apply canonical_cons in Hl as (_ & H2 & _).
  unfold inside in *. apply elem_of_app in Hj as [Hj|Hj].
  - specialize (H1 j i Hj ltac:(mem_list)). unfold before in H1. lia.
  - apply elem_of_cons in Hj as [->|Hj]; [done|].
    specialize (H2 j Hj). unfold before in H2. lia.
Qed.

Lemma find_split {A} (f : A -> bool) l x :
  find f l = Some x ->
  exists p q, l = p ++ x :: q /\ f x = true /\ Forall (fun y => f y = false) p.
Proof.
  induction l as [|y l IH]; simpl; [done|]. destruct (f y) eqn:E.
  - intros H; inversion H; subst. exists [], l. repeat split; [done|constructor].
  - intros H. destruct (IH H) as (p & q & -> & Hx & Hp).
    exists (y :: p), q. repeat split; [done|by constructor].
Qed.

Lemma find_None_all {A} (f : A -> bool) l :
  find f l = None -> Forall (fun y => f y = false) l.
Proof.
  induction l as [|y l IH]; simpl; [constructor|]. destruct (f y) eqn:E; [done|].
  intros H. constructor; auto.
Qed.

(** The sizes the allocators compare are the block lengths. *)
Lemma region_block r i :
  region_wf r -> i ∈ free_blocks r ->
  block_ok (region_base r) (region_base r + region_size r) i /\
  IntervalSize i = upper i - lower i.
Proof.
  intros [] Hi. assert (block_ok (region_base r) (region_base r + region_size r) i)
    by eauto using canonical_block.
  split; [done|]. by eapply IntervalSize_block.
Qed.

Lemma region_fit r i size :
  region_wf r -> i ∈ free_blocks r ->
  (size <=? IntervalSize i) = (size <=? upper i - lower i).
Proof. intros Hwf Hi. by destruct (region_block r i Hwf Hi) as [_ ->]. Qed.

Ltac region_run Hlk :=
  unfold bind, get, put, assert_, ret; cbv beta; rewrite ?Hlk; simpl negb; cbv iota.

(** What taking [size] offsets at [a] does to the free set. *)
Definition taken (r r' : MemoryRegionInfo) (a size : Z) : Prop :=
  (forall p, covers (free_blocks r) p <-> covers (free_blocks r') p \/ a <= p < a + size) /\
  (forall p, a <= p < a + size -> ~ covers (free_blocks r') p) /\
  region_used r' = region_used r + size.

Lemma region_take_run r b a size :
  region_wf r -> b ∈ free_blocks r -> 0 < size ->
  lower b <= a -> a + size <= upper b ->
  let r' := with_free (SubtractInterval (free_blocks r) (mkInterval a (a + size)))
              (u32 (region_used r + size)) r in
  region_wf r' /\ taken r r' a size.
Proof.
  intros Hwf Hb Hsz H1 H2. apply elem_of_split_list in Hb as (p & q & El).
  destruct (region_take r p b q (mkInterval a (a + size)) Hwf El)
    as (Hwf' & Hu & Hcov & Hin); simpl in *; try lia.
  replace (a + size - a) with size in * by lia.
  split; [done|]. unfold taken. simpl. unfold inside in Hcov, Hin; simpl in Hcov, Hin.
  split_and!; [|intros x Hx; rewrite Hcov; tauto|done].
  intros x. rewrite Hcov. split; [|intros [[]|]; auto].
  intros Hx. destruct (decide (a <= x < a + size)); tauto.
Qed.

(** No room for [size] consecutive free offsets at [q]. *)
Definition no_room (r : MemoryRegionInfo) (size q : Z) : Prop :=
  ~ forall p, q <= p < q + size -> covers (free_blocks r) p.

Lemma no_room_small r size q :
  region_wf r -> 0 < size ->
  (forall i, i ∈ free_blocks r -> (size <=? upper i - lower i) = true ->
             ~ (lower i <= q /\ q + size <= upper i)) ->
  no_room r size q.
Proof.
  intros Hwf Hsz Hi Hq.
  destruct (covers_range _ _ _ q (q + size) (wf_free r Hwf)) as (i & Hin & H1 & H2);
    [lia|done|]. apply (Hi i Hin); [apply Z.leb_le; lia|done].
Qed.

(** First fit: the block found is the lowest one that is long enough. *)
Lemma LinearAllocate_run r size :
  region_wf r -> is_locked r = false -> 0 < size < 4294967296 ->
  exists r' o, LinearAllocate size r = Done r' o /\ region_wf r' /\
  match o with
  | Some a => taken r r' a size /\ (forall q, q < a -> no_room r size q)
  | None => r' = r /\ (forall q, no_room r size q)
  end.
Proof.
  intros Hwf Hlk Hsz. unfold LinearAllocate. region_run Hlk.
  destruct (find _ (free_blocks r)) as [b|] eqn:E.
  - apply find_split in E as (p & q & El & Hb & Hp).
    assert (Hbin : b ∈ free_blocks r) by (rewrite El; mem_list).
    rewrite (region_fit r) in Hb by done. apply Z.leb_le in Hb.
    destruct (region_block r b Hwf Hbin) as [[? [??]] _]. pose proof (wf_end r Hwf).
    pose proof (wf_base r Hwf).
    rewrite (u32_small (lower b + size)) by word_lia.
    destruct (region_take_run r b (lower b) size Hwf Hbin) as [Hwf' Ht]; try lia.
    eexists _, (Some (lower b)). split_and!; try done.
    intros x Hx. apply no_room_small; [done|lia|]. intros i Hi Hfit [H4 H5].
    pose proof (wf_free r Hwf) as Hf. rewrite El in Hf, Hi.
    apply elem_of_app in Hi as [Hi|Hi].
    + rewrite list.Forall_forall in Hp. specialize (Hp i Hi).
      rewrite (region_fit r) in Hp; [congruence|done|]. rewrite El. mem_list.
    + apply elem_of_cons in Hi as [->|Hi]; [lia|].
      apply canonical_app in Hf as (_ & _ & Hf).
      apply canonical_cons in Hf as (_ & Hbb & _). specialize (Hbb i Hi).
      unfold before in Hbb. lia.
  - exists r, None. split_and!; try done. intros q. apply no_room_small; [done|lia|].
    intros i Hi Hfit. apply find_None_all in E. rewrite list.Forall_forall in E.
    specialize (E i Hi). rewrite (region_fit r) in E by done. congruence.
Qed.

(** Last fit: the block found is the highest one that is long enough. *)
Lemma RLinearAllocate_run r size :
  region_wf r -> is_locked r = false -> 0 < size < 4294967296 ->
  exists r' o, RLinearAllocate size r = Done r' o /\ region_wf r' /\
  match o with
  | Some a => taken r r' a size /\ (forall q, a < q -> no_room r size q)
  | None => r' = r /\ (forall q, no_room r size q)
  end.
Proof.
  intros Hwf Hlk Hsz. unfold RLinearAllocate. region_run Hlk.
  destruct (find _ (rev (free_blocks r))) as [b|] eqn:E.
  - apply find_split in E as (p & q & El & Hb & Hp).
    apply (f_equal (@rev Interval)) in El. rewrite rev_involutive, rev_app_distr in El.
    simpl in El. rewrite <-app_assoc in El. simpl in El.
    assert (Hbin : b ∈ free_blocks r) by (rewrite El; mem_list).
    rewrite (region_fit r) in Hb by done. apply Z.leb_le in Hb.
    destruct (region_block r b Hwf Hbin) as [[? [??]] _]. pose proof (wf_end r Hwf).
    pose proof (wf_base r Hwf).
    rewrite (u32_small (upper b - size)) by word_lia.
    destruct (region_take_run r b (upper b - size) size Hwf Hbin) as [Hwf' Ht]; try lia.
    replace (upper b - size + size) with (upper b) in Hwf', Ht by lia.
    eexists _, (Some (upper b - size)). split_and!; try done.
    intros x Hx. apply no_room_small; [done|lia|]. intros i Hi Hfit [H4 H5].
    pose proof (wf_free r Hwf) as Hf. rewrite El in Hf, Hi.
    apply elem_of_app in Hi as [Hi|Hi].
    + apply canonical_app in Hf as (Hbb & _ & _). specialize (Hbb i b Hi ltac:(mem_list)).
      unfold before in Hbb. lia.
    + apply elem_of_cons in Hi as [->|Hi]; [lia|].
      rewrite list.Forall_forall in Hp.
      assert (Hi' : i ∈ p) by (by apply list_elem_of_In, in_rev, list_elem_of_In).
      specialize (Hp i Hi'). rewrite (region_fit r) in Hp; [congruence|done|]. rewrite El. mem_list.
  - exists r, None. split_and!; try done. intros q. apply no_room_small; [done|lia|].
    intros i Hi Hfit. apply find_None_all in E. rewrite list.Forall_forall in E.
    assert (Hi' : i ∈ rev (free_blocks r)) by (by apply list_elem_of_In, in_rev;
      rewrite rev_involutive; apply list_elem_of_In).
    specialize (E i Hi'). simpl in E. rewrite (region_fit r) in E by done. congruence.
Qed.

(** Adding [n] offsets to the free set adds [n] to the total. *)
Lemma total_disjoint lo hi l l' n :
  canonical lo hi l -> canonical lo hi l' -> lower n < upper n ->
  (forall p, covers l' p <-> covers l p \/ inside n p) ->
  (forall p, inside n p -> ~ covers l p) ->
  total l' = total l + (upper n - lower n).
Proof.
  intros Hl Hl' Hn Hcov Hdis.
  destruct (covers_range lo hi l' (lower n) (upper n) Hl' Hn) as (b & Hb & H1 & H2).
  { intros p Hp. apply Hcov. right. done. }
  assert (Heq : SubtractInterval l' n = l).
  { apply (canonical_unique lo hi); [by apply SubtractInterval_canonical|done|].
    intros p. rewrite (SubtractInterval_covers lo hi) by done. rewrite Hcov.
    split; [tauto|]. intros Hp. split; [by left|]. intros Hi. by apply (Hdis p). }
  apply elem_of_split_list in Hb as (p & q & ->).
  rewrite (SubtractInterval_contained _ _ _ _ _ _ Hl' H1 Hn H2) in Heq. rewrite <-Heq.
  rewrite !total_app. simpl.
  destruct (Z.ltb_spec (lower b) (lower n)), (Z.ltb_spec (upper n) (upper b)); simpl; lia.
Qed.

Lemma Free_run r offset size :
  region_wf r -> is_locked r = false ->
  region_base r <= offset -> 0 < size -> offset + size <= region_base r + region_size r ->
  (forall p, offset <= p < offset + size -> ~ covers (free_blocks r) p) ->
  exists r', Free offset size r = Done r' tt /\ region_wf r' /\ is_locked r' = false /\
    region_base r' = region_base r /\ region_size r' = region_size r /\
    region_used r' = region_used r - size /\
    (forall p, covers (free_blocks r') p <->
               covers (free_blocks r) p \/ offset <= p < offset + size).
Proof.
  intros Hwf Hlk H1 H2 H3 Hdis. unfold Free. region_run Hlk.
  pose proof Hwf as [Hb0 Hs0 He0 Hf0 Hu0].
  rewrite (u32_small (offset + size)) by word_lia.
  set (n := mkInterval offset (offset + size)).
  assert (Hno : IntersectsAny (free_blocks r) n = false).
  { apply not_true_iff_false. intros Hi.
    apply (IntersectsAny_spec _ _ _ _ Hf0) in Hi as (i & Hi & Hin); [|simpl; lia].
    apply Intersects_spec in Hin. simpl in Hin. destruct (region_block r i Hwf Hi) as [[? [??]] _].
    apply (Hdis (Z.max (lower i) offset)); [lia|].
    exists i. split; [done|]. unfold inside. lia. }
  rewrite Hno. simpl negb. cbv iota.
  assert (Hok : block_ok (region_base r) (region_base r + region_size r) n)
    by (unfold block_ok; simpl; lia).
  destruct (InsertMerge_spec _ _ _ n Hf0 Hok) as [Hcan Hcov].
  pose proof (total_disjoint _ _ _ _ n Hf0 Hcan ltac:(simpl; lia) Hcov Hdis) as Ht.
  simpl in Ht. pose proof (total_nonneg _ _ _ Hf0).
  pose proof (fun Hle => total_le _ _ _ Hle Hcan) as Hle.
  assert (Hu : u32 (region_used r - size) = region_used r - size) by (apply u32_small; word_lia).
  eexists. split; [done|]. split_and!; try done. constructor; simpl; try done.
  rewrite Hu, Ht. lia.
Qed.

(** Every allocated range is refused a second [Free]. *)
Lemma Free_abort r offset size :
  region_wf r -> is_locked r = false ->
  region_base r <= offset -> 0 < size -> offset + size <= region_base r + region_size r ->
  (exists p, offset <= p < offset + size /\ covers (free_blocks r) p) ->
  Free offset size r = Aborted.
Proof.
  intros Hwf Hlk H1 H2 H3 (p & Hp & i & Hi & Hin). unfold Free. region_run Hlk.
  pose proof Hwf as [Hb0 Hs0 He0 Hf0 Hu0].
  rewrite (u32_small (offset + size)) by word_lia.
  assert (IntersectsAny (free_blocks r) (mkInterval offset (offset + size)) = true) as ->.
  { apply (IntersectsAny_spec _ _ _ _ Hf0); [simpl; lia|]. exists i. split; [done|].
    apply Intersects_spec. unfold inside in Hin. simpl. lia. }
  done.
Qed.

(** Taking the top [k] offsets of a block and every block above it. *)
Lemma heap_kept lo hi l b rr k :
  canonical lo hi (l ++ b :: rr) -> 0 < k <= upper b - lower b ->
  SubtractIntervals (l ++ b :: rr) (mkInterval (upper b - k) (upper b) :: rr) =
  l ++ (if lower b <? upper b - k then [mkInterval (lower b) (upper b - k)] else []).
Proof.
  intros Hl Hk. set (n := mkInterval (upper b - k) (upper b)).
  pose proof (canonical_block _ _ _ b Hl ltac:(mem_list)) as [? [??]].
  pose proof (SubtractInterval_canonical _ _ _ n Hl ltac:(simpl; lia)) as Hc.
  unfold SubtractIntervals. simpl.
  rewrite (SubtractInterval_contained _ _ _ _ _ n Hl) in Hc |- * by (simpl; lia).
  simpl (upper n) in *. rewrite (proj2 (Z.ltb_ge (upper b) (upper b))) in Hc |- * by lia.
  rewrite app_nil_r in Hc |- *. rewrite app_assoc in Hc |- *.
  by apply (SubtractIntervals_tail lo hi).
Qed.

Lemma heap_take lo hi l b rr k :
  canonical lo hi (l ++ b :: rr) -> 0 < k <= upper b - lower b ->
  let n := mkInterval (upper b - k) (upper b) in
  let kept := l ++ (if lower b <? upper b - k then [mkInterval (lower b) (upper b - k)] else []) in
  canonical lo hi (n :: rr) /\ canonical lo hi kept /\
  total kept = total (l ++ b :: rr) - (k + total rr) /\
  (forall p, covers (l ++ b :: rr) p <-> covers kept p \/ covers (n :: rr) p) /\
  (forall p q, covers kept p -> covers (n :: rr) q -> p < q).
Proof.
  intros Hl Hk n kept. pose proof Hl as (Hl1 & Hlc & Hbr)%canonical_app.
  apply canonical_cons in Hbr as ([? [??]] & Hb2 & Hrc). split_and!.
  - apply canonical_cons. split_and!; [|done|done]. split; simpl; lia.
  - apply canonical_app. split_and!; [|done|].
    + intros i j Hi Hj. destruct (lower b <? upper b - k); [|by apply elem_of_nil in Hj].
      apply list_elem_of_singleton in Hj as ->.
      specialize (Hl1 i b Hi ltac:(mem_list)). done.
    + destruct (Z.ltb_spec (lower b) (upper b - k)); [|apply canonical_nil].
      split; repeat constructor; simpl in *; lia.
  - unfold kept. rewrite !total_app. simpl.
    destruct (Z.ltb_spec (lower b) (upper b - k)); simpl; lia.
  - intros p. unfold kept. rewrite !covers_app, !covers_cons. unfold n.
    destruct (Z.ltb_spec (lower b) (upper b - k)); rewrite ?covers_cons;
      unfold inside; simpl; pose proof (covers_nil p); intuition lia.
  - intros p q (i & Hi & Hpi) (j & Hj & Hqj). unfold inside in *.
    assert (upper b - k <= lower j).
    { apply elem_of_cons in Hj as [->|Hj]; [simpl; lia|]. specialize (Hb2 j Hj).
      unfold before in Hb2. lia. }
    apply elem_of_app in Hi as [Hi|Hi].
    + specialize (Hl1 i b Hi ltac:(mem_list)). unfold before in Hl1. lia.
    + destruct (lower b <? upper b - k); [|by apply elem_of_nil in Hi].
      apply list_elem_of_singleton in Hi as ->. simpl in *. lia.
Qed.

Lemma HeapAllocate_run r size :
  region_wf r -> is_locked r = false -> 0 < size < 4294967296 ->
  (total (free_blocks r) < size /\ HeapAllocate size r = Done r []) \/
  (size <= total (free_blocks r) /\ exists r' res,
     HeapAllocate size r = Done r' res /\ region_wf r' /\
     r' = with_free (free_blocks r') (region_used r + size) r /\
     canonical (region_base r) (region_base r + region_size r) res /\ total res = size /\
     (forall p, covers (free_blocks r) p <-> covers (free_blocks r') p \/ covers res p) /\
     (forall p q, covers (free_blocks r') p -> covers res q -> p < q)).
Proof.
  intros Hwf Hlk Hsz. pose proof Hwf as [Hb0 Hs0 He0 Hf0 Hu0].
  destruct (HeapAllocate_loop_spec (region_base r) (region_base r + region_size r)
              (rev (free_blocks r)) size []) as
    [(Hle & Hne & l & b & rr & k & El & Erun & Hk & Ht & Hp)|[Hlt Erun]];
    try (done || lia).
  { by rewrite rev_involutive, app_nil_r. }
  - rewrite rev_involutive in *. right. split; [done|]. rewrite app_nil_r in Erun.
    specialize (Hp ltac:(lia)). pose proof Hf0 as Hf1. rewrite El in Hf1.
    destruct (heap_take _ _ _ _ _ k Hf1 ltac:(lia)) as (Hres & Hkept & Htot & Hcov & Hord).
    pose proof (total_nonneg _ _ _ Hkept). pose proof (wf_used_bounds r Hwf).
    assert (Hu : u32 (region_used r + size) = region_used r + size).
    { apply u32_small. rewrite El in *. word_lia. }
    eexists _, _. split.
    { unfold HeapAllocate. region_run Hlk. rewrite Erun. simpl negb. cbv iota.
      rewrite El, (heap_kept _ _ _ _ _ _ Hf1), Hu by lia. done. }
    rewrite El in *. split_and!; try done; [constructor; simpl in *; try done; lia|].
    simpl. lia.
  - left. rewrite rev_involutive in *.
    assert (total (free_blocks r) < size).
    { destruct Hlt as [?|Hnil]; [done|]. apply (f_equal (@rev Interval)) in Hnil.
      rewrite rev_involutive in Hnil. simpl in Hnil. rewrite Hnil. simpl. lia. }
    split; [done|]. unfold HeapAllocate. region_run Hlk.
    destruct (HeapAllocate_loop _ size []) as [res rest]. simpl in Erun. subst rest.
    destruct (Z.eqb_spec (size - total (free_blocks r)) 0); [lia|]. done.
Qed.

(** The fixed-address allocation succeeds exactly when the range lies in a free
    block that it does not share its first offset with, or that it fills. *)
Lemma LinearAllocateAt_run r offset size :
  region_wf r -> is_locked r = false ->
  0 <= offset -> 0 < size -> offset + size < 4294967296 ->
  exists r' b, LinearAllocateAt offset size r = Done r' b /\ region_wf r' /\
    (b = true <-> exists i, i ∈ free_blocks r /\ lower i <= offset /\
       offset + size <= upper i /\ (lower i < offset \/ offset + size = upper i)) /\
    if b then taken r r' offset size else r' = r.
Proof.
  intros Hwf Hlk H1 H2 H3. unfold LinearAllocateAt. region_run Hlk.
  rewrite (u32_small (offset + size)) by word_lia.
  pose proof (Contains_spec _ _ _ (mkInterval offset (offset + size)) (wf_free r Hwf)
                ltac:(simpl; lia)) as Hc. simpl in Hc.
  destruct (Contains _ _) eqn:E; simpl negb; cbv iota.
  - pose proof (proj1 Hc eq_refl) as (i & Hi & Hi1 & Hi2 & _).
    destruct (region_take_run r i offset size Hwf Hi H2 Hi1 Hi2) as [Hwf' Ht].
    eexists _, true. done.
  - exists r, false. done.
Qed.

Lemma Reset_wf r base size :
  is_locked r = false -> 0 <= base -> 0 < size -> base + size < 4294967296 ->
  exists r', Reset base size r = Done r' tt /\ region_wf r' /\ is_locked r' = false.
Proof.
  intros Hlk H1 H2 H3. unfold Reset. region_run Hlk. eexists. split; [done|].
  split; [|done]. constructor; simpl; rewrite ?u32_small by word_lia; try lia.
  split; [repeat constructor|]. repeat constructor; simpl; lia.
Qed.

Lemma FreeBlocks_run res r :
  region_wf r -> is_locked r = false ->
  canonical (region_base r) (region_base r + region_size r) res ->
  (forall p, covers res p -> ~ covers (free_blocks r) p) ->
  exists r', FreeBlocks res r = Done r' tt /\ region_wf r' /\
    r' = with_free (free_blocks r') (region_used r - total res) r /\
    (forall p, covers (free_blocks r') p <-> covers (free_blocks r) p \/ covers res p).
Proof.
  revert r. induction res as [|i res IH]; intros r Hwf Hlk Hc Hdis; simpl.
  - exists r. split_and!; try done.
    + destruct r; simpl. unfold with_free. simpl. f_equal. lia.
    + intros p. pose proof (covers_nil p). tauto.
  - apply canonical_cons in Hc as (Hi & Hb & Hc). pose proof Hi as [? [??]].
    pose proof (wf_base r Hwf). pose proof (wf_end r Hwf).
    rewrite (IntervalSize_block (region_base r) (region_base r + region_size r)) by done.
    destruct (Free_run r (lower i) (upper i - lower i) Hwf Hlk)
      as (r1 & E & Hwf1 & Hlk1 & Hb1 & Hs1 & Hu1 & Hcov1); try lia.
    { intros p Hp. apply Hdis, covers_cons. left. unfold inside. lia. }
    unfold bind. rewrite E.
    destruct (IH r1 Hwf1 Hlk1) as (r2 & E2 & Hwf2 & Er2 & Hcov2).
    { by rewrite Hb1, Hs1. }
    { intros p Hp. rewrite Hcov1. intros [Hf|Hf]; [apply (Hdis p); [|done]; apply covers_cons; auto|].
      destruct Hp as (j & Hj & Hjp). specialize (Hb j Hj). unfold before, inside in *. lia. }
    exists r2. split_and!; try done.
    + rewrite Er2. unfold with_free. rewrite Hb1, Hs1, Hlk1, Hlk, Hu1. simpl. f_equal. lia.
    + intros p. rewrite Hcov2, Hcov1, covers_cons. unfold inside.
      replace (lower i + (upper i - lower i)) with (upper i) by lia. tauto.
Qed.

Lemma region_step_wf r r' : region_step r r' -> region_wf r -> region_wf r'.
Proof.
  assert (Hu : forall {A} (f : op MemoryRegionInfo A) r r' a,
    (is_locked r = true -> f r = Aborted) -> f r = Done r' a -> is_locked r = false).
  { intros A f s s' a Hl E. destruct (is_locked s); [|done]. by rewrite Hl in E. }
  destruct 1 as [base size r r' H1 H2 H3 E|size r r' res H1 E|offset size r r' b H1 H2 H3 E
    |size r r' o H1 E|size r r' o H1 E|offset size r r' H1 H2 H3 E|r r' E]; intros Hwf.
  - apply Hu in E as Hlk; [|intros Hl; unfold Reset; region_run Hl; done].
    destruct (Reset_wf r base size Hlk H1 H2 H3) as (r1 & E1 & Hwf1 & _). congruence.
  - apply Hu in E as Hlk; [|intros Hl; unfold HeapAllocate; region_run Hl; done].
    destruct (HeapAllocate_run r size Hwf Hlk H1) as [[_ E1]|(_ & r1 & rs & E1 & Hwf1 & _)];
      congruence.
  - apply Hu in E as Hlk; [|intros Hl; unfold LinearAllocateAt; region_run Hl; done].
    destruct (LinearAllocateAt_run r offset size Hwf Hlk H1 H2 H3) as (r1 & b1 & E1 & Hwf1 & _).
    congruence.
  - apply Hu in E as Hlk; [|intros Hl; unfold LinearAllocate; region_run Hl; done].
    destruct (LinearAllocate_run r size Hwf Hlk H1) as (r1 & o1 & E1 & Hwf1 & _). congruence.
  - apply Hu in E as Hlk; [|intros Hl; unfold RLinearAllocate; region_run Hl; done].
    destruct (RLinearAllocate_run r size Hwf Hlk H1) as (r1 & o1 & E1 & Hwf1 & _). congruence.
  - destruct (is_locked r) eqn:Hlk.
    { revert E. unfold Free. region_run Hlk. congruence. }
    assert (Hdis : forall p, offset <= p < offset + size -> ~ covers (free_blocks r) p).
    { intros p Hp Hc. rewrite (Free_abort r offset size) in E; try done. by exists p. }
    destruct (Free_run r offset size Hwf Hlk H1 H2 H3 Hdis) as (r1 & E1 & Hwf1 & _). congruence.
  - inversion E; subst. destruct Hwf; constructor; done.
Qed.

(** ** Properties *)

(** C10: every sequence of calls on a region keeps its free set canonical (sorted,
    non-empty, non-adjacent blocks inside the region), and keeps
    [used + free = region_size]: no offset is lost or handed out twice. *)
Theorem region_reachable_wf r r' :
  rtc region_step r r' -> region_wf r -> region_wf r'.
Proof. induction 1; eauto using region_step_wf. Qed.

Lemma region_reachable_wf_witness :
  region_wf (mkRegion 65536 131072 12288 [mkInterval 69632 188416] false).
Proof.
  apply (region_reachable_wf (mkRegion 0 0 0 [] false)).
  - eapply rtc_l; [eapply (step_Reset 65536 131072); [lia|lia|lia|vm_compute; reflexivity]|].
    eapply rtc_l; [eapply (step_HeapAllocate 8192); [lia|vm_compute; reflexivity]|].
    eapply rtc_l; [eapply (step_LinearAllocate 8192); [lia|vm_compute; reflexivity]|].
    eapply rtc_l; [eapply (step_Free 69632 4096); simpl; [lia|lia|lia|vm_compute; reflexivity]|].
    apply rtc_refl.
  - constructor; simpl; try lia. split; constructor.
Defined.

(** C21: allocating heap memory and then freeing every returned block restores the
    region exactly, the representation of the free set included. *)
Theorem HeapAllocate_Free_restores r size r' res :
  region_wf r -> is_locked r = false -> 0 < size < 4294967296 ->
  HeapAllocate size r = Done r' res -> FreeBlocks res r' = Done r tt.
Proof.
  intros Hwf Hlk Hsz E.
  destruct (HeapAllocate_run r size Hwf Hlk Hsz)
    as [[_ E1]|(_ & r1 & rs & E1 & Hwf1 & Er1 & Hc & Ht & Hcov & Hord)].
  { rewrite E in E1. injection E1 as -> ->. done. }
  rewrite E in E1. injection E1 as <- <-.
  destruct (FreeBlocks_run res r') as (r2 & E2 & Hwf2 & Er2 & Hcov2); try done.
  - by rewrite Er1.
  - by rewrite Er1.
  - intros p Hp Hf. specialize (Hord p p Hf Hp). lia.
  - rewrite E2. f_equal. pose proof (wf_free _ Hwf2) as Hc2. rewrite Er2, Er1 in Hc2. simpl in Hc2.
    rewrite Er2, Er1. unfold with_free. simpl. destruct r as [b s u f lk]; simpl in *. f_equal; [lia|].
    eapply canonical_unique; [exact Hc2|exact (wf_free _ Hwf)|].
    intros p. simpl. rewrite Hcov2, Hcov. done.
Qed.

Lemma HeapAllocate_Free_restores_witness :
  FreeBlocks [mkInterval 10000 12288; mkInterval 20480 24576]
    (mkRegion 4096 28672 26864 [mkInterval 8192 10000] false) =
  Done (mkRegion 4096 28672 20480 [mkInterval 8192 12288; mkInterval 20480 24576] false) tt.
Proof.
  apply (HeapAllocate_Free_restores _ 6384).
  - constructor; simpl; try lia. split; repeat constructor; simpl; unfold before; simpl; lia.
  - reflexivity.
  - lia.
  - reflexivity.
Defined.

(** [HeapAllocate] on an unlocked region either takes exactly [size] offsets,
    the highest free ones, or changes nothing and returns the empty set, and it
    does the latter only when fewer than [size] offsets are free. *)
Theorem HeapAllocate_correct r size :
  region_wf r -> is_locked r = false -> 0 < size < 4294967296 ->
  (total (free_blocks r) < size /\ HeapAllocate size r = Done r []) \/
  (size <= total (free_blocks r) /\ exists r' res,
     HeapAllocate size r = Done r' res /\ total res = size /\
     region_used r' = region_used r + size /\
     (forall p, covers (free_blocks r) p <-> covers (free_blocks r') p \/ covers res p) /\
     (forall p q, covers (free_blocks r') p -> covers res q -> p < q)).
Proof.
  intros Hwf Hlk Hsz.
  destruct (HeapAllocate_run r size Hwf Hlk Hsz)
    as [|(Hle & r1 & rs & E1 & Hwf1 & Er1 & Hc & Ht & Hcov & Hord)]; [by left|right].
  split; [done|]. exists r1, rs. split_and!; try done. by rewrite Er1.
Qed.

Lemma HeapAllocate_correct_witness : exists r' res,
  HeapAllocate 6384 (mkRegion 4096 28672 20480 [mkInterval 8192 12288; mkInterval 20480 24576] false)
    = Done r' res /\ total res = 6384.
Proof.
  destruct (HeapAllocate_correct
    (mkRegion 4096 28672 20480 [mkInterval 8192 12288; mkInterval 20480 24576] false) 6384)
    as [[H _]|(_ & r' & res & E & Ht & _)].
  - constructor; simpl; try lia. split; repeat constructor; simpl; unfold before; simpl; lia.
  - reflexivity.
  - lia.
  - exfalso. simpl in H. lia.
  - exists r', res. split; [exact E|exact Ht].
Defined.

(** [LinearAllocate] is first fit and [RLinearAllocate] is last fit: each takes
    [size] consecutive free offsets at the lowest, respectively highest, address
    where they exist, and fails without effect only when no address has them. *)
Theorem LinearAllocate_first_last_fit r size :
  region_wf r -> is_locked r = false -> 0 < size < 4294967296 ->
  (exists r' o, LinearAllocate size r = Done r' o /\
     match o with
     | Some a => taken r r' a size /\ (forall q, q < a -> no_room r size q)
     | None => r' = r /\ (forall q, no_room r size q)
     end) /\
  (exists r' o, RLinearAllocate size r = Done r' o /\
     match o with
     | Some a => taken r r' a size /\ (forall q, a < q -> no_room r size q)
     | None => r' = r /\ (forall q, no_room r size q)
     end).
Proof.
  intros Hwf Hlk Hsz. split.
  - destruct (LinearAllocate_run r size Hwf Hlk Hsz) as (r' & o & E & _ & H). eauto.
  - destruct (RLinearAllocate_run r size Hwf Hlk Hsz) as (r' & o & E & _ & H). eauto.
Qed.

Lemma LinearAllocate_first_last_fit_witness : exists r' o,
  LinearAllocate 2048 (mkRegion 4096 28672 20480 [mkInterval 8192 12288; mkInterval 20480 24576] false)
    = Done r' o /\ o = Some 8192.
Proof.
  destruct (LinearAllocate_first_last_fit
    (mkRegion 4096 28672 20480 [mkInterval 8192 12288; mkInterval 20480 24576] false) 2048)
    as [(r' & o & E & _) _].
  - constructor; simpl; try lia. split; repeat constructor; simpl; unfold before; simpl; lia.
  - reflexivity.
  - lia.
  - exists r', o. split; [exact E|]. revert E. vm_compute. congruence.
Defined.

(** C40: a fixed-address allocation of a range that is entirely free is refused
    exactly when the range starts where its free block starts and does not fill
    it, because [Contains] only looks at the block before [upper_bound(needle)]. *)
Theorem LinearAllocateAt_refuses r offset size :
  region_wf r -> is_locked r = false ->
  0 <= offset -> 0 < size -> offset + size < 4294967296 ->
  (forall p, offset <= p < offset + size -> covers (free_blocks r) p) ->
  (exists i, i ∈ free_blocks r /\ lower i = offset /\ offset + size < upper i) <->
  LinearAllocateAt offset size r = Done r false.
Proof.
  intros Hwf Hlk H1 H2 H3 Hfree.
  destruct (LinearAllocateAt_run r offset size Hwf Hlk H1 H2 H3) as (r' & b & E & _ & Hb & Hr).
  destruct (covers_range _ _ _ offset (offset + size) (wf_free r Hwf) ltac:(lia) Hfree)
    as (i & Hi & Hi1 & Hi2).
  rewrite E. split.
  - intros (j & Hj & Hj1 & Hj2). destruct b; [|by rewrite Hr]. exfalso.
    destruct (proj1 Hb eq_refl) as (k & Hk & Hk1 & Hk2 & Hk3).
    assert (k = j); [|subst; lia].
    eapply (canonical_same_block _ _ _ _ _ offset (wf_free r Hwf));
      try done; unfold inside; lia.
  - intros Ef. injection Ef as -> ->. exists i. split; [done|].
    assert (~ (lower i < offset \/ offset + size = upper i)); [|lia].
    intros Hc. discriminate (proj2 Hb). eauto.
Qed.

Lemma LinearAllocateAt_refuses_witness :
  LinearAllocateAt 8192 2048 (mkRegion 4096 28672 24576 [mkInterval 8192 12288] false) =
  Done (mkRegion 4096 28672 24576 [mkInterval 8192 12288] false) false.
Proof.
  apply LinearAllocateAt_refuses; try (simpl; lia).
  - constructor; simpl; try lia. split; repeat constructor; simpl; unfold before; simpl; lia.
  - intros p Hp. exists (mkInterval 8192 12288). split; [left|unfold inside; simpl; lia].
  - exists (mkInterval 8192 12288). simpl. split_and!; [left|reflexivity|lia].
Defined.
