(* ===== verification/HandleTable.v ===== *)
(** * HandleTable: references to kernel objects (core/hle/kernel/handle_table.cpp, handle_table.h)

    A handle is a slot and a generation.  The unused slots form a linked list
    through [generations]. *)
From S2P Require Import Prelude Result.

Local Open Scope Z_scope.

Definition MAX_COUNT : Z := 4096.
Definition CurrentThread : Z := 0xFFFF8000.
Definition CurrentProcess : Z := 0xFFFF8001.

(** [Handle] is a u32; both functions return a u16. *)
Definition GetSlot (handle : Z) : Z := u16 (Z.shiftr handle 15).
Definition GetGeneration (handle : Z) : Z := u16 (Z.land handle 0x7FFF).

Section HandleTable.
(** The kernel objects; [None] is a null [shared_ptr]. *)
Context {Object : Type}.

Record HandleTable := mkHandleTable {
  objects : list (option Object);
  generations : list Z;
  next_generation : Z;
  next_free_slot : Z
}.

Definition object_at (t : HandleTable) (slot : Z) : option Object :=
  default None (objects t !! Z.to_nat slot).

Definition generation_at (t : HandleTable) (slot : Z) : Z :=
  default 0 (generations t !! Z.to_nat slot).

(** The loop [for (u16 i = 0; i < MAX_COUNT; ++i)]. *)
Definition Clear (t : HandleTable) : HandleTable :=
  {| objects := replicate (Z.to_nat MAX_COUNT) None;
     generations := (fun i => Z.of_nat i + 1) <$> seq 0 (Z.to_nat MAX_COUNT);
     next_generation := next_generation t;
     next_free_slot := 0 |}.

(** The constructor. *)
Definition HandleTable_init : HandleTable := Clear (mkHandleTable [] [] 1 0).

Definition Create (obj : option Object) : op HandleTable Z :=
  (t <- get ;;
   assert_ (bool_decide (is_Some obj)) ;;
   let slot := next_free_slot t in
   R_UNLESS (slot <? MAX_COUNT) ResultOutOfHandles ;;
   let next_free := generation_at t slot in
   let generation := next_generation t in
   let next_gen := u16 (next_generation t + 1) in
   let next_gen := if Z.shiftl 1 15 <=? next_gen then 1 else next_gen in
   put {| objects := <[Z.to_nat slot := obj]> (objects t);
          generations := <[Z.to_nat slot := generation]> (generations t);
          next_generation := next_gen;
          next_free_slot := next_free |} ;;
   ret (Z.lor generation (Z.shiftl slot 15)))%hle.

Definition IsValid (t : HandleTable) (handle : Z) : bool :=
  let slot := GetSlot handle in
  let generation := GetGeneration handle in
  (slot <? MAX_COUNT) && bool_decide (is_Some (object_at t slot)) &&
  (generation_at t slot =? generation).

(** [GetGeneric]; the current thread and process belong to the kernel. *)
Definition GetGeneric (current_thread current_process : option Object)
    (t : HandleTable) (handle : Z) : option Object :=
  if handle =? CurrentThread then current_thread
  else if handle =? CurrentProcess then current_process
  else if negb (IsValid t handle) then None
  else object_at t (GetSlot handle).

Definition Duplicate (current_thread current_process : option Object) (handle : Z)
    : op HandleTable Z :=
  (t <- get ;;
   let object := GetGeneric current_thread current_process t handle in
   R_UNLESS (bool_decide (is_Some object)) ResultInvalidHandle ;;
   Create object)%hle.

Definition Close (handle : Z) : op HandleTable unit :=
  (t <- get ;;
   R_UNLESS (IsValid t handle) ResultInvalidHandle ;;
   let slot := GetSlot handle in
   put {| objects := <[Z.to_nat slot := None]> (objects t);
          generations := <[Z.to_nat slot := next_free_slot t]> (generations t);
          next_generation := next_generation t;
          next_free_slot := slot |})%hle.

(** ** Invariant *)

(** The free list: a chain through [generations] that ends at [MAX_COUNT]. *)
Inductive chain (g : list Z) : Z -> list Z -> Prop :=
  | chain_nil : chain g MAX_COUNT []
  | chain_cons s l : 0 <= s < MAX_COUNT ->
      chain g (default 0 (g !! Z.to_nat s)) l -> chain g s (s :: l).

Record ht_wf (t : HandleTable) (free : list Z) : Prop := {
  wf_objects : length (objects t) = Z.to_nat MAX_COUNT;
  wf_generations : length (generations t) = Z.to_nat MAX_COUNT;
  wf_next : 1 <= next_generation t < 32768;
  wf_chain : chain (generations t) (next_free_slot t) free;
  wf_NoDup : NoDup free;
  wf_free : forall s, 0 <= s < MAX_COUNT -> (s ∈ free <-> object_at t s = None);
  wf_used : forall s, 0 <= s < MAX_COUNT -> is_Some (object_at t s) ->
    1 <= generation_at t s < 32768
}.

Lemma chain_range g s l x : chain g s l -> x ∈ l -> 0 <= x < MAX_COUNT.
Proof.
  induction 1 as [|s l Hs Hc IH]; intros Hx; [by apply elem_of_nil in Hx|].
  apply elem_of_cons in Hx as [->|Hx]; auto.
Qed.

(** Writing outside the list leaves the chain as it is. *)
Lemma chain_insert g s l x v :
  chain g s l -> 0 <= x -> x ∉ l -> chain (<[Z.to_nat x := v]> g) s l.
Proof.
  induction 1 as [|s l Hs Hc IH]; intros Hx Hn; [constructor|].
  apply not_elem_of_cons in Hn as [Hne Hn]. constructor; [done|].
  rewrite list_lookup_insert_ne by lia. auto.
Qed.

Lemma object_at_insert t s s' o g n f :
  length (objects t) = Z.to_nat MAX_COUNT -> 0 <= s < MAX_COUNT -> 0 <= s' ->
  object_at (mkHandleTable (<[Z.to_nat s := o]> (objects t)) g n f) s' =
  if s' =? s then o else object_at t s'.
Proof.
  intros Hl Hs Hs'. unfold object_at; simpl. destruct (Z.eqb_spec s' s) as [->|Hne].
  - rewrite list_lookup_insert_eq by (unfold MAX_COUNT in *; lia). done.
  - by rewrite list_lookup_insert_ne by lia.
Qed.

Lemma generation_at_insert t s s' v o n f :
  length (generations t) = Z.to_nat MAX_COUNT -> 0 <= s < MAX_COUNT -> 0 <= s' ->
  generation_at (mkHandleTable o (<[Z.to_nat s := v]> (generations t)) n f) s' =
  if s' =? s then v else generation_at t s'.
Proof.
  intros Hl Hs Hs'. unfold generation_at; simpl. destruct (Z.eqb_spec s' s) as [->|Hne].
  - rewrite list_lookup_insert_eq by (unfold MAX_COUNT in *; lia). done.
  - by rewrite list_lookup_insert_ne by lia.
Qed.

(** ** Handles *)

Lemma slot_range h : 0 <= h -> 0 <= GetSlot h < 65536.
Proof. intros. unfold GetSlot. word_lia. Qed.

Lemma GetSlot_div h : 0 <= h < 2147483648 -> GetSlot h = h / 32768.
Proof.
  intros H. unfold GetSlot. rewrite Z.shiftr_div_pow2 by lia. change (2 ^ 15) with 32768. word_lia.
Qed.

Lemma GetGeneration_mod h : GetGeneration h = h mod 32768.
Proof.
  unfold GetGeneration. change 0x7FFF with (Z.ones 15). rewrite Z.land_ones by lia.
  change (2 ^ 15) with 32768. word_lia.
Qed.

Lemma handle_encode g s :
  0 <= g < 32768 -> 0 <= s -> Z.lor g (Z.shiftl s 15) = s * 32768 + g.
Proof.
  intros Hg Hs. rewrite Z.shiftl_mul_pow2 by lia. change (2 ^ 15) with 32768.
  rewrite <-Z.lxor_lor, <-Z.add_nocarry_lxor; [lia| |].
  all: apply Z.bits_inj'; intros n Hn; rewrite Z.land_spec, Z.bits_0;
    destruct (Z.lt_ge_cases n 15);
    [change 32768 with (2 ^ 15); by rewrite Z.mul_pow2_bits_low, andb_false_r by lia|].
  all: rewrite <-(Z.mod_small g (2 ^ 15)) by lia; by rewrite Z.mod_pow2_bits_high by lia.
Qed.

Lemma handle_decode g s h :
  0 <= g < 32768 -> 0 <= s < MAX_COUNT -> h = s * 32768 + g ->
  GetSlot h = s /\ GetGeneration h = g.
Proof.
  unfold MAX_COUNT. intros Hg Hs ->. rewrite GetSlot_div, GetGeneration_mod by lia. zlia.
Qed.

(** The abstract table: the object each handle refers to. *)
Definition resolve (t : HandleTable) (h : Z) : option Object :=
  if IsValid t h then object_at t (GetSlot h) else None.

Lemma resolve_Some t h o :
  resolve t h = Some o <->
  GetSlot h < MAX_COUNT /\ object_at t (GetSlot h) = Some o /\
  generation_at t (GetSlot h) = GetGeneration h.
Proof.
  unfold resolve, IsValid. destruct (Z.ltb_spec (GetSlot h) MAX_COUNT); simpl; [|split; [done|lia]].
  destruct (object_at t (GetSlot h)) as [o'|]; simpl; [|split; [done|]; by intros (_ & ? & _)].
  destruct (Z.eqb_spec (generation_at t (GetSlot h)) (GetGeneration h)); [|split; [done|]; tauto].
  split; [intros [= ->]; auto|by intros (_ & ? & _)].
Qed.

Lemma resolve_None t h : resolve t h = None <-> IsValid t h = false.
Proof.
  unfold resolve, IsValid. destruct (GetSlot h <? MAX_COUNT); simpl; [|done].
  destruct (object_at t (GetSlot h)); simpl; [|done].
  by destruct (generation_at t (GetSlot h) =? GetGeneration h).
Qed.

(** ** Operations on well-formed tables *)

(** The generation counter after a handle was created. *)
Definition next_gen (g : Z) : Z := g mod 32767 + 1.

Lemma chain_seq (g : list Z) k n :
  (k + n = Z.to_nat MAX_COUNT)%nat ->
  (forall i, (k <= i < k + n)%nat -> g !! i = Some (Z.of_nat i + 1)) ->
  chain g (Z.of_nat k) (Z.of_nat <$> seq k n).
Proof.
  revert k. induction n as [|n IH]; intros k Hk Hg; simpl.
  - replace (Z.of_nat k) with MAX_COUNT by (unfold MAX_COUNT in *; lia). constructor.
  - constructor; [unfold MAX_COUNT in *; lia|].
    rewrite Nat2Z.id, Hg by lia. simpl. replace (Z.of_nat k + 1) with (Z.of_nat (S k)) by lia.
    apply IH; [lia|]. intros i Hi. apply Hg. lia.
Qed.

Lemma Clear_wf t :
  1 <= next_generation t < 32768 -> ht_wf (Clear t) (Z.of_nat <$> seq 0 (Z.to_nat MAX_COUNT)).
Proof.
  intros Hn. set (n := Z.to_nat MAX_COUNT).
  assert (Ho : forall s, object_at (Clear t) s = None).
  { intros s. unfold object_at, Clear. cbn [objects].
    destruct (replicate _ _ !! _) as [o|] eqn:E; [|done].
    by apply lookup_replicate in E as [-> _]. }
  constructor.
  - unfold Clear. cbn [objects]. by rewrite length_replicate.
  - unfold Clear. cbn [generations]. by rewrite length_fmap, length_seq.
  - done.
  - unfold Clear. cbn [generations next_free_slot]. apply (chain_seq _ 0); [done|].
    intros i Hi. rewrite list_lookup_fmap, lookup_seq_lt by (fold n; lia). done.
  - apply NoDup_fmap_2; [intros ???; lia|]. apply NoDup_seq.
  - intros s Hs. rewrite Ho. split; [done|]. intros _. apply list_elem_of_fmap.
    exists (Z.to_nat s). split; [lia|]. apply elem_of_seq. unfold n, MAX_COUNT in *. lia.
  - intros s Hs [o Hso]. by rewrite Ho in Hso.
Qed.

Lemma Clear_resolve t h : 0 <= h -> resolve (Clear t) h = None.
Proof.
  intros Hh. apply resolve_None. unfold IsValid. destruct (Z.ltb_spec (GetSlot h) MAX_COUNT); [|done].
  rewrite bool_decide_eq_false_2; [done|]. intros [o Ho]. revert Ho.
  unfold object_at, Clear. cbn [objects].
  destruct (replicate _ _ !! _) as [o'|] eqn:E; [|done].
  by apply lookup_replicate in E as [-> _].
Qed.

Lemma Create_run t s fl o :
  ht_wf t (s :: fl) ->
  exists t', Create (Some o) t = Done t' (s * 32768 + next_generation t) /\ ht_wf t' fl /\
    next_generation t' = next_gen (next_generation t) /\ 0 <= s < MAX_COUNT /\
    (forall h, 0 <= h -> resolve t' h =
      if GetSlot h =? s then if GetGeneration h =? next_generation t then Some o else None
      else resolve t h).
Proof.
  intros [Hlo Hlg Hn Hc Hnd Hfr Hus]. inversion Hc as [|s' l Hs Hc' Es]; subst.
  set (v := next_generation t) in *. set (s := next_free_slot t) in *.
  apply list.NoDup_cons in Hnd as [Hsn Hnd].
  unfold Create, bind, get, assert_, R_UNLESS, put, ret. rewrite bool_decide_eq_true_2 by eauto.
  cbn [next_free_slot]. fold s. rewrite (proj2 (Z.ltb_lt s MAX_COUNT)) by lia. fold v.
  rewrite handle_encode by lia.
  assert (Eg : (if Z.shiftl 1 15 <=? u16 (v + 1) then 1 else u16 (v + 1)) = next_gen v).
  { change (Z.shiftl 1 15) with 32768. unfold next_gen. rewrite u16_small by word_lia.
    zcase; zlia. }
  rewrite Eg. eexists. split; [done|]. split_and!; [|done|lia|lia|].
  - constructor; cbn [objects generations next_generation next_free_slot].
    + by rewrite length_insert.
    + by rewrite length_insert.
    + unfold next_gen. zlia.
    + apply chain_insert; [done|lia|done].
    + done.
    + intros x Hx. rewrite object_at_insert by (done || lia). specialize (Hfr x Hx).
      rewrite elem_of_cons in Hfr. destruct (Z.eqb_spec x s) as [->|]; [by split|].
      tauto.
    + intros x Hx. rewrite object_at_insert, generation_at_insert by (done || lia).
      destruct (Z.eqb_spec x s) as [->|]; [lia|]. by apply Hus.
  - intros h Hh. pose proof (slot_range h Hh). unfold resolve, IsValid.
    rewrite object_at_insert, generation_at_insert by (done || lia).
    destruct (Z.eqb_spec (GetSlot h) s) as [->|]; [|done].
    rewrite (proj2 (Z.ltb_lt _ _)) by lia. rewrite bool_decide_eq_true_2 by eauto. simpl.
    rewrite Z.eqb_sym. done.
Qed.

Lemma Create_full t o : ht_wf t [] -> Create (Some o) t = Failed t ResultOutOfHandles.
Proof.
  intros [_ _ _ Hc _ _ _]. inversion Hc as [Es|]; subst.
  unfold Create, bind, get, assert_, R_UNLESS. rewrite bool_decide_eq_true_2 by eauto.
  by rewrite <-Es.
Qed.

Lemma Close_run t fl h o :
  ht_wf t fl -> 0 <= h -> resolve t h = Some o ->
  exists t', Close h t = Done t' tt /\ ht_wf t' (GetSlot h :: fl) /\
    next_generation t' = next_generation t /\
    (forall h', 0 <= h' -> resolve t' h' =
      if GetSlot h' =? GetSlot h then None else resolve t h').
Proof.
  intros [Hlo Hlg Hn Hc Hnd Hfr Hus] Hh Hr. pose proof (slot_range h Hh) as Hs.
  assert (Hv : IsValid t h = true).
  { apply not_false_iff_true. intros Hv. apply resolve_None in Hv. congruence. }
  apply resolve_Some in Hr as (Hmax & Ho & Hg).
  assert (Hnf : GetSlot h ∉ fl) by (rewrite Hfr by lia; congruence).
  unfold Close, bind, get, R_UNLESS, put. rewrite Hv. eexists. split; [done|].
  split_and!; [|done|].
  - constructor; cbn [objects generations next_generation next_free_slot].
    + by rewrite length_insert.
    + by rewrite length_insert.
    + done.
    + constructor; [lia|].
      rewrite list_lookup_insert_eq by (unfold MAX_COUNT in *; lia).
      apply chain_insert; [done|lia|done].
    + by apply list.NoDup_cons.
    + intros x Hx. rewrite object_at_insert, elem_of_cons, Hfr by (done || lia).
      destruct (Z.eqb_spec x (GetSlot h)) as [->|]; [tauto|]. split; [|auto].
      by intros [?|?].
    + intros x Hx. rewrite object_at_insert, generation_at_insert by (done || lia).
      destruct (Z.eqb_spec x (GetSlot h)) as [->|]; [by intros []|]. by apply Hus.
  - intros h' Hh'. pose proof (slot_range h' Hh'). unfold resolve, IsValid.
    rewrite object_at_insert, generation_at_insert by (done || lia).
    destruct (Z.eqb_spec (GetSlot h') (GetSlot h)) as [->|]; [|done].
    rewrite bool_decide_eq_false_2 by (by intros []). by rewrite andb_false_r.
Qed.

Lemma Close_invalid t h : resolve t h = None -> Close h t = Failed t ResultInvalidHandle.
Proof.
  intros Hr. apply resolve_None in Hr. unfold Close, bind, get, R_UNLESS. by rewrite Hr.
Qed.

(** The handles [Create] makes. *)
Definition is_handle (h : Z) : Prop := 0 <= h < MAX_COUNT * 32768.

Lemma handle_inj h h' :
  is_handle h -> is_handle h' -> GetSlot h = GetSlot h' ->
  GetGeneration h = GetGeneration h' -> h = h'.
Proof.
  unfold is_handle, MAX_COUNT. intros H H'. rewrite !GetSlot_div, !GetGeneration_mod by lia. zlia.
Qed.

(** What an operation that only changes the meaning of [h] does to the others. *)
Definition same_except (h : Z) (t t' : HandleTable) : Prop :=
  forall h', is_handle h' -> h' <> h -> resolve t' h' = resolve t h'.

Lemma Create_resolve t s fl o t' h :
  ht_wf t (s :: fl) -> Create (Some o) t = Done t' h ->
  is_handle h /\ resolve t h = None /\ resolve t' h = Some o /\ same_except h t t'.
Proof.
  intros Hwf E. destruct (Create_run t s fl o Hwf) as (t1 & E1 & Hwf' & _ & Hs & Hr).
  rewrite E in E1. injection E1 as <- Eh. pose proof (wf_next _ _ Hwf) as Hn.
  destruct (handle_decode (next_generation t) s h) as [Es Eg]; try lia.
  assert (Hh : is_handle h) by (unfold is_handle, MAX_COUNT in *; lia).
  assert (Hnone : forall h', GetSlot h' = s -> resolve t h' = None).
  { intros h' Es'. apply resolve_None. unfold IsValid. rewrite Es'.
    rewrite (proj1 (wf_free _ _ Hwf s Hs)); [|by left].
    rewrite bool_decide_eq_false_2 by (by intros []). by rewrite andb_false_r. }
  split_and!; [done|by apply Hnone| |].
  - rewrite Hr by (unfold is_handle in Hh; lia). by rewrite Es, Eg, !Z.eqb_refl.
  - intros h' Hh' Hne. rewrite Hr by (unfold is_handle in Hh'; lia).
    destruct (Z.eqb_spec (GetSlot h') s) as [Es'|]; [|done].
    rewrite Hnone by done. destruct (Z.eqb_spec (GetGeneration h') (next_generation t)); [|done].
    destruct Hne. apply handle_inj; congruence.
Qed.

Lemma Close_resolve t fl h o t' :
  ht_wf t fl -> is_handle h -> resolve t h = Some o -> Close h t = Done t' tt ->
  resolve t' h = None /\ same_except h t t'.
Proof.
  intros Hwf Hh Hr E. pose proof Hh as Hh0. unfold is_handle in Hh0.
  destruct (Close_run t fl h o Hwf ltac:(lia) Hr) as (t1 & E1 & _ & _ & Hr').
  rewrite E in E1. injection E1 as <-. split.
  - rewrite Hr' by lia. by rewrite Z.eqb_refl.
  - intros h' Hh' Hne. rewrite Hr' by (unfold is_handle in Hh'; lia).
    destruct (Z.eqb_spec (GetSlot h') (GetSlot h)) as [Es|]; [|done].
    symmetry. destruct (resolve t h') as [o'|] eqn:Hr2; [|done].
    apply resolve_Some in Hr as (_ & _ & Eg). apply resolve_Some in Hr2 as (_ & _ & Eg').
    rewrite Es in Eg'. destruct Hne. apply handle_inj; congruence.
Qed.

(** ** Sequences of operations *)

(** [ht_steps n t t']: operations that lead from [t] to [t'] and create [n]
    handles.  Operations that fail leave the table as it is. *)
Inductive ht_steps : Z -> HandleTable -> HandleTable -> Prop :=
  | ht_refl t : ht_steps 0 t t
  | ht_Create n o t1 t2 t3 h :
      ht_steps n t1 t2 -> Create (Some o) t2 = Done t3 h -> ht_steps (n + 1) t1 t3
  | ht_Duplicate n cur_t cur_p h0 t1 t2 t3 h :
      ht_steps n t1 t2 -> Duplicate cur_t cur_p h0 t2 = Done t3 h -> ht_steps (n + 1) t1 t3
  | ht_Close n h t1 t2 t3 :
      ht_steps n t1 t2 -> 0 <= h -> Close h t2 = Done t3 tt -> ht_steps n t1 t3
  | ht_Clear n t1 t2 : ht_steps n t1 t2 -> ht_steps n t1 (Clear t2).

Lemma Duplicate_Create cur_t cur_p h0 t t' h :
  Duplicate cur_t cur_p h0 t = Done t' h ->
  exists o, GetGeneric cur_t cur_p t h0 = Some o /\ Create (Some o) t = Done t' h.
Proof.
  unfold Duplicate. unfold bind at 1, get at 1. unfold bind at 1, R_UNLESS at 1.
  destruct (GetGeneric cur_t cur_p t h0) as [o|]; cbn; [|done]. eauto.
Qed.

Lemma Create_Done_free t free o t' h :
  ht_wf t free -> Create (Some o) t = Done t' h -> exists s fl, free = s :: fl.
Proof. intros Hwf E. destruct free; [|eauto]. by rewrite Create_full in E. Qed.

(** The generation of [h] is not handed out again during the next [32766 - d]
    creations, [d] being the creations since [h] was made. *)
Definition stale (t : HandleTable) (h d : Z) : Prop :=
  resolve t h = None /\ 1 <= GetGeneration h < 32768 /\
  next_generation t = (GetGeneration h + d) mod 32767 + 1.

Lemma Create_stale t free o t' h' h d :
  ht_wf t free -> Create (Some o) t = Done t' h' -> 0 <= h ->
  stale t h d -> 0 <= d < 32766 -> exists fl, ht_wf t' fl /\ stale t' h (d + 1).
Proof.
  intros Hwf E Hh (Hr & Hg & Hn) Hd.
  destruct (Create_Done_free t free o t' h' Hwf E) as (s & fl & ->).
  destruct (Create_run t s fl o Hwf) as (t1 & E1 & Hwf' & Hn' & Hs & Hr').
  rewrite E in E1. injection E1 as <- _. exists fl. split; [done|]. split_and!.
  - rewrite Hr' by done. destruct (GetSlot h =? s); [|done].
    rewrite (proj2 (Z.eqb_neq (GetGeneration h) (next_generation t))); [done|].
    rewrite Hn. zlia.
  - lia.
  - lia.
  - rewrite Hn'. unfold next_gen. rewrite Hn. zlia.
Qed.

Lemma ht_steps_stale n t1 t2 free h d :
  ht_steps n t1 t2 -> 0 <= h -> ht_wf t1 free -> stale t1 h d ->
  0 <= n /\ (0 <= d -> d + n <= 32766 -> exists fl, ht_wf t2 fl /\ stale t2 h (d + n)).
Proof.
  intros H Hh Hwf Hst. induction H as [t|n o t1 t2 t3 h' H IH E|n ct cp h0 t1 t2 t3 h' H IH E
    |n h' t1 t2 t3 H IH Hh' E|n t1 t2 H IH].
  - split; [lia|]. intros. exists free. by rewrite Z.add_0_r.
  - destruct (IH Hwf Hst) as [Hn IH']. split; [lia|]. intros Hd Hle.
    destruct IH' as (fl & Hwf' & Hst'); [lia..|].
    replace (d + (n + 1)) with (d + n + 1) by lia. eapply Create_stale; eauto. lia.
  - destruct (IH Hwf Hst) as [Hn IH']. split; [lia|]. intros Hd Hle.
    destruct IH' as (fl & Hwf' & Hst'); [lia..|]. apply Duplicate_Create in E as (o & _ & E).
    replace (d + (n + 1)) with (d + n + 1) by lia. eapply Create_stale; eauto. lia.
  - destruct (IH Hwf Hst) as [Hn IH']. split; [lia|]. intros Hd Hle.
    destruct IH' as (fl & Hwf' & Hr & Hg & Hng); [lia..|].
    destruct (resolve t2 h') as [o|] eqn:Hr'.
    + destruct (Close_run t2 fl h' o Hwf' Hh' Hr') as (t4 & E4 & Hwf4 & Hn4 & Hr4).
      rewrite E in E4. injection E4 as <-. eexists. split; [done|]. split_and!; try lia.
      * rewrite Hr4 by done. by destruct (GetSlot h =? GetSlot h').
    + by rewrite Close_invalid in E.
  - destruct (IH Hwf Hst) as [Hn IH']. split; [lia|]. intros Hd Hle.
    destruct IH' as (fl & Hwf' & Hr & Hg & Hng); [lia..|]. eexists.
    split; [apply Clear_wf, (wf_next _ _ Hwf')|]. split_and!; try (done || lia).
    by apply Clear_resolve.
Qed.

Lemma ht_steps_wf n t1 t2 free : ht_steps n t1 t2 -> ht_wf t1 free -> exists fl, ht_wf t2 fl.
Proof.
  intros H Hwf. induction H as [t|n o t1 t2 t3 h' H IH E|n ct cp h0 t1 t2 t3 h' H IH E
    |n h' t1 t2 t3 H IH Hh' E|n t1 t2 H IH]; eauto;
    destruct (IH Hwf) as (fl & Hwf').
  - destruct (Create_Done_free _ _ _ _ _ Hwf' E) as (s & fl' & ->).
    destruct (Create_run t2 s fl' o Hwf') as (t4 & E4 & Hwf4 & _).
    exists fl'. congruence.
  - apply Duplicate_Create in E as (o & _ & E).
    destruct (Create_Done_free _ _ _ _ _ Hwf' E) as (s & fl' & ->).
    destruct (Create_run t2 s fl' o Hwf') as (t4 & E4 & Hwf4 & _).
    exists fl'. congruence.
  - destruct (resolve t2 h') as [o|] eqn:Hr'; [|by rewrite Close_invalid in E].
    destruct (Close_run t2 fl h' o Hwf' Hh' Hr') as (t4 & E4 & Hwf4 & _).
    eexists. rewrite E in E4. injection E4 as <-. done.
  - eexists. apply Clear_wf, (wf_next _ _ Hwf').
Qed.

(** The generation counter counts the creations. *)
Lemma ht_steps_generation n t1 t2 free :
  ht_steps n t1 t2 -> ht_wf t1 free ->
  0 <= n /\ next_generation t2 = (next_generation t1 - 1 + n) mod 32767 + 1.
Proof.
  assert (Hstep : forall n t1 t2 t3 o h, ht_steps n t1 t2 -> ht_wf t1 free ->
    Create (Some o) t2 = Done t3 h ->
    0 <= n /\ next_generation t2 = (next_generation t1 - 1 + n) mod 32767 + 1 ->
    0 <= n + 1 /\ next_generation t3 = (next_generation t1 - 1 + (n + 1)) mod 32767 + 1).
  { intros m t1' t2' t3 o h H Hwf E [Hm Hg]. destruct (ht_steps_wf _ _ _ _ H Hwf) as (fl & Hwf').
    destruct (Create_Done_free _ _ _ _ _ Hwf' E) as (s & fl' & ->).
    destruct (Create_run t2' s fl' o Hwf') as (t4 & E4 & _ & Hg4 & _).
    rewrite E in E4. injection E4 as <- _. rewrite Hg4. unfold next_gen. rewrite Hg.
    split; [lia|]. zlia. }
  intros H Hwf. induction H as [t|n o t1 t2 t3 h' H IH E|n ct cp h0 t1 t2 t3 h' H IH E
    |n h' t1 t2 t3 H IH Hh' E|n t1 t2 H IH].
  - pose proof (wf_next _ _ Hwf). split; [lia|]. zlia.
  - eauto.
  - apply Duplicate_Create in E as (o & _ & E). eauto.
  - destruct (IH Hwf) as [Hn Hg]. split; [done|].
    revert E. unfold Close, bind, get, R_UNLESS, put. destruct (IsValid t2 h'); [|done].
    intros [= <-]. done.
  - destruct (IH Hwf) as [Hn Hg]. split; [done|]. done.
Qed.

Lemma HandleTable_init_wf :
  ht_wf HandleTable_init (Z.of_nat <$> seq 0 (Z.to_nat MAX_COUNT)).
Proof. apply Clear_wf. simpl. lia. Qed.

(** C11: a table reached from the constructor implements a map from handles to
    objects.  [Create] makes a handle that was unused mean the object and no
    other handle change meaning, and fails, with [ResultOutOfHandles] and no
    effect, exactly when all 4096 slots hold an object; [Close] makes a valid
    handle unused and rejects every other one; [Duplicate] is [Create] on the
    object of a valid handle. *)
Theorem HandleTable_refines n t :
  ht_steps n HandleTable_init t ->
  (forall o,
    (exists t' h, Create (Some o) t = Done t' h /\ is_handle h /\
       resolve t h = None /\ resolve t' h = Some o /\ same_except h t t') \/
    (Create (Some o) t = Failed t ResultOutOfHandles /\
       forall s, 0 <= s < MAX_COUNT -> object_at t s <> None)) /\
  (forall h, is_handle h ->
    match resolve t h with
    | Some _ => exists t', Close h t = Done t' tt /\ resolve t' h = None /\ same_except h t t'
    | None => Close h t = Failed t ResultInvalidHandle
    end) /\
  (forall ct cp h, is_handle h ->
    Duplicate ct cp h t =
    match resolve t h with
    | Some o => Create (Some o) t
    | None => Failed t ResultInvalidHandle
    end).
Proof.
  intros Hsteps. destruct (ht_steps_wf _ _ _ _ Hsteps HandleTable_init_wf) as (fl & Hwf).
  split_and!.
  - intros o. destruct fl as [|s fl].
    + right. split; [by apply Create_full|]. intros s Hs E.
      apply (wf_free _ _ Hwf s Hs) in E. by apply elem_of_nil in E.
    + left. destruct (Create_run t s fl o Hwf) as (t' & E & _).
      eexists _, _. split; [exact E|]. eapply Create_resolve; eauto.
  - intros h Hh. destruct (resolve t h) as [o|] eqn:Hr; [|by apply Close_invalid].
    destruct (Close_run t fl h o Hwf ltac:(unfold is_handle in Hh; lia) Hr) as (t' & E & _).
    exists t'. split; [done|]. eapply Close_resolve; eauto.
  - intros ct cp h Hh. unfold Duplicate. unfold bind, get, R_UNLESS.
    assert (Hg : GetGeneric ct cp t h = resolve t h).
    { unfold GetGeneric, resolve. unfold is_handle, MAX_COUNT in Hh.
      rewrite (proj2 (Z.eqb_neq _ _)), (proj2 (Z.eqb_neq _ _))
        by (unfold CurrentThread, CurrentProcess; lia).
      by destruct (IsValid t h). }
    rewrite Hg. by destruct (resolve t h).
Qed.

(** a handle that was closed stays invalid, so that a stale copy cannot reach
    another object, as long as at most 32766 handles are created after it,
    whatever is opened, duplicated, closed or cleared meanwhile. *)
Theorem closed_handle_stays_invalid n t o t0 h k1 t1 k2 t2 :
  ht_steps n HandleTable_init t -> Create (Some o) t = Done t0 h ->
  ht_steps k1 t0 t1 -> resolve t1 h = None ->
  ht_steps k2 t1 t2 -> k1 + k2 <= 32766 -> IsValid t2 h = false.
Proof.
  intros Hn E H1 Hr H2 Hle.
  destruct (ht_steps_wf _ _ _ _ Hn HandleTable_init_wf) as (fl & Hwf).
  destruct (Create_Done_free _ _ _ _ _ Hwf E) as (s & fl' & ->).
  destruct (Create_resolve _ _ _ _ _ _ Hwf E) as (Hh & _).
  destruct (Create_run t s fl' o Hwf) as (t4 & E4 & Hwf4 & Hg4 & Hs & _).
  rewrite E in E4. injection E4 as <- Eh.
  destruct (ht_steps_wf _ _ _ _ H1 Hwf4) as (fl1 & Hwf1).
  destruct (ht_steps_generation _ _ _ _ H1 Hwf4) as [Hk Hg1].
  pose proof (wf_next _ _ Hwf).
  destruct (handle_decode (next_generation t) s h) as [_ Eg]; try lia.
  destruct (ht_steps_stale k2 t1 t2 fl1 h k1 H2) as [? Hst]; try done.
  { unfold is_handle in Hh; lia. }
  { split_and!; [done|lia|lia|]. rewrite Hg1, Hg4, Eg. unfold next_gen. zlia. }
  destruct Hst as (fl2 & _ & Hr2 & _); [lia..|]. by apply resolve_None.
Qed.

(** the slot is read from bits 30:15 of a handle, because [GetSlot] returns a
    u16: setting bit 31 of a handle gives a second handle that is valid, resolves
    and closes like the first. *)
Theorem handle_bit31_ignored t h :
  0 <= h < 2147483648 ->
  IsValid t (h + 2147483648) = IsValid t h /\
  resolve t (h + 2147483648) = resolve t h /\
  Close (h + 2147483648) t = Close h t.
Proof.
  intros Hh.
  assert (Es : GetSlot (h + 2147483648) = GetSlot h).
  { unfold GetSlot. rewrite !Z.shiftr_div_pow2 by lia. change (2 ^ 15) with 32768.
    unfold u16. zlia. }
  assert (Eg : GetGeneration (h + 2147483648) = GetGeneration h).
  { rewrite !GetGeneration_mod. zlia. }
  assert (Ev : IsValid t (h + 2147483648) = IsValid t h).
  { unfold IsValid. by rewrite Es, Eg. }
  split_and!; [done| |].
  - unfold resolve. by rewrite Ev, Es.
  - unfold Close. unfold bind, get. by rewrite Ev, Es.
Qed.
End HandleTable.
Arguments HandleTable : clear implicits.

Lemma HandleTable_refines_witness :
  Close 1 (HandleTable_init (Object := nat)) = Failed HandleTable_init ResultInvalidHandle.
Proof.
  destruct (HandleTable_refines (Object := nat) 0 HandleTable_init (ht_refl _)) as (_ & Hc & _).
  specialize (Hc 1 ltac:(unfold is_handle, MAX_COUNT; lia)).
  assert (Hr : resolve (HandleTable_init (Object := nat)) 1 = None) by (vm_compute; reflexivity).
  rewrite Hr in Hc. exact Hc.
Defined.

Lemma closed_handle_stays_invalid_witness :
  let t0 := match Create (Some 7%nat) HandleTable_init with Done t _ => t | _ => HandleTable_init end in
  let t1 := match Close 1 t0 with Done t _ => t | _ => HandleTable_init end in
  let t2 := match Create (Some 8%nat) t1 with Done t _ => t | _ => HandleTable_init end in
  IsValid t2 1 = false /\ IsValid t2 2 = true.
Proof.
  intros t0 t1 t2. split; [|vm_compute; reflexivity].
  apply (closed_handle_stays_invalid 0 HandleTable_init 7%nat t0 1 0 t1 (0 + 1) t2).
  - apply ht_refl.
  - vm_compute. reflexivity.
  - eapply (ht_Close 0 1 t0 t0 t1); [apply ht_refl|lia|vm_compute; reflexivity].
  - vm_compute. reflexivity.
  - eapply (ht_Create 0 8%nat t1 t1 t2 2); [apply ht_refl|vm_compute; reflexivity].
  - lia.
Defined.

Lemma handle_bit31_ignored_witness :
  let t0 := match Create (Some 7%nat) HandleTable_init with Done t _ => t | _ => HandleTable_init end in
  resolve t0 (1 + 2147483648) = Some 7%nat.
Proof.
  intros t0. rewrite (proj1 (proj2 (handle_bit31_ignored t0 1 ltac:(lia)))).
  vm_compute. reflexivity.
Defined.
