(* ===== verification/LinkedList.v ===== *)
(** * LinkedList: null-terminated lists in an explicit heap (common/chunk_file.h)

    [LinkedListItem<T>] is a [T] with a [next] pointer.  A segment predicate
    relates the pointers of a heap to the list of nodes they chain. *)
From stdpp Require Import gmap.
From S2P Require Import Prelude.

Definition loc := positive.

Record LinkedListItem (T : Type) := mkItem { base : T; next : option loc }.
Arguments mkItem {T} base next.
Arguments base {T} _.
Arguments next {T} _.

Section LinkedList.
Context {T : Type}.

#[local] Abbreviation heap := (gmap loc (LinkedListItem T)).
#[local] Abbreviation node := (loc * T)%type.

(** From pointer [p] the nodes of [l] are chained up to pointer [q]. *)
Fixpoint lseg (h : heap) (p : option loc) (l : list node) (q : option loc) : Prop :=
  match l with
  | [] => p = q
  | (x, b) :: r =>
      p = Some x /\ exists n, h !! x = Some (mkItem b n) /\ lseg h n r q
  end.

Definition locs (l : list node) : list loc := l.*1.

(** The pointer to the last node. *)
Definition last_loc (l : list node) : option loc := fst <$> last l.

Lemma locs_app l1 l2 : locs (l1 ++ l2) = locs l1 ++ locs l2.
Proof. apply fmap_app. Qed.

Lemma lseg_app h p l1 l2 q :
  lseg h p (l1 ++ l2) q <-> exists m, lseg h p l1 m /\ lseg h m l2 q.
Proof.
  revert p. induction l1 as [|[x b] l1 IH]; intros p; simpl.
  - split; [eauto|]. by intros (m & -> & H).
  - split.
    + intros (-> & n & Hx & H). apply IH in H as (m & H1 & H2). eauto 10.
    + intros (m & (-> & n & Hx & H1) & H2). split; [done|]. exists n. split; [done|].
      apply IH. eauto.
Qed.

Lemma lseg_frame h p l q x e :
  x ∉ locs l -> lseg h p l q -> lseg (<[x := e]> h) p l q.
Proof.
  revert p. induction l as [|[y b] l IH]; intros p Hn; simpl; [done|].
  apply not_elem_of_cons in Hn as [Hne Hn]. intros (-> & n & Hy & H).
  split; [done|]. exists n. rewrite lookup_insert_ne by done. auto.
Qed.

Lemma lseg_frame_delete h p l q x :
  x ∉ locs l -> lseg h p l q -> lseg (delete x h) p l q.
Proof.
  revert p. induction l as [|[y b] l IH]; intros p Hn; simpl; [done|].
  apply not_elem_of_cons in Hn as [Hne Hn]. intros (-> & n & Hy & H).
  split; [done|]. exists n. rewrite lookup_delete_ne by done. auto.
Qed.

(** Redirecting the pointer of the last node. *)
Lemma lseg_set_last h p l y b q q' :
  NoDup (locs (l ++ [(y, b)])) -> lseg h p (l ++ [(y, b)]) q ->
  lseg (<[y := mkItem b q']> h) p (l ++ [(y, b)]) q'.
Proof.
  rewrite locs_app. intros Hnd%NoDup_app H. destruct Hnd as (_ & Hd & _).
  apply lseg_app in H as (m & H1 & H2). simpl in H2. destruct H2 as (-> & n & Hy & ->).
  apply lseg_app. exists (Some y). split.
  - apply lseg_frame; [|done]. intros Hin. apply (Hd y Hin). simpl. left.
  - simpl. split; [done|]. exists q'. by rewrite lookup_insert_eq.
Qed.

Lemma lseg_dom h p l q x : lseg h p l q -> x ∈ locs l -> is_Some (h !! x).
Proof.
  revert p. induction l as [|[y b] l IH]; intros p; simpl; [by intros _ ?%elem_of_nil|].
  intros (_ & n & Hy & H) [->|Hx]%elem_of_cons; [by eexists|]. eauto.
Qed.

(** A chain without repetitions is no longer than the heap. *)
Lemma lseg_length h p l q : NoDup (locs l) -> lseg h p l q -> (length l <= size h)%nat.
Proof.
  intros Hnd H. replace (length l) with (length (locs l)) by apply length_fmap.
  rewrite <-(size_list_to_set (C := gset loc) (locs l)) by done.
  rewrite <-(size_dom (D := gset loc) h). apply subseteq_size.
  intros x Hx. apply elem_of_list_to_set in Hx. apply elem_of_dom. by eapply lseg_dom.
Qed.

Lemma lseg_nil h p l : lseg h p l None -> p = None -> l = [].
Proof. destruct l as [|[x b] l]; [done|]. simpl. intros (-> & _) [=]. Qed.

Lemma lseg_Some h p l x : lseg h (Some x) l p -> p <> Some x ->
  exists b r, l = (x, b) :: r.
Proof.
  destruct l as [|[y b] l]; simpl; [by intros <-|]. intros ([= ->] & _) _. eauto.
Qed.

Lemma last_loc_app l y b : last_loc (l ++ [(y, b)]) = Some y.
Proof. unfold last_loc. by rewrite last_app. Qed.

Lemma last_loc_cons (l : list node) n : l <> [] -> last_loc (n :: l) = last_loc l.
Proof. unfold last_loc. destruct l; [done|]. done. Qed.

Lemma last_loc_prefix (l1 l2 : list node) : l2 <> [] -> last_loc (l1 ++ l2) = last_loc l2.
Proof.
  intros Hl. induction l1 as [|n l1 IH]; simpl; [done|].
  rewrite last_loc_cons; [done|]. by destruct l1.
Qed.

Lemma last_loc_elem (l : list node) x : last_loc l = Some x -> x ∈ locs l.
Proof.
  unfold last_loc. destruct (last l) as [n|] eqn:E; [|done]. intros [= <-].
  apply last_Some in E as [l' ->]. rewrite locs_app. apply elem_of_app. right. left.
Qed.
End LinkedList.
