(* ===== verification/CoreTiming.v ===== *)
(** * CoreTiming: the event scheduler (core/core_timing.cpp, core_timing.h)

    The scheduler keeps its pending events, the events scheduled by other threads
    and two pools of free nodes in linked lists of heap-allocated nodes.  The heap
    is explicit: every operation reads and writes [next] pointers as the code
    does.  [Aborted] stands for an invalid memory access and for a traversal that
    does not end; no operation on a well-formed state does either. *)
From stdpp Require Import gmap strings.
From S2P Require Import Prelude Result LinkedList.

Local Open Scope Z_scope.

Record BaseEvent := mkBase { time : Z; userdata : Z; type : Z }.
Abbreviation Event := (LinkedListItem BaseEvent).

(** An [Event] as [new] leaves it: the fields that matter are
    assigned before they are read. *)
Definition new_event : Event := mkItem (mkBase 0 0 0) None.

Section CoreTiming.
(** The callbacks belong to the other parts of the emulator. *)
Context {Callback : Type}.

Record EventType := mkEventType { callback : Callback; name : string }.

Record CoreTiming := mkCT {
  heap : gmap loc Event;
  first : option loc;
  tsFirst : option loc;
  tsLast : option loc;
  eventPool : option loc;
  eventTsPool : option loc;
  allocatedTsEvents : Z;
  hasTsEvents : bool;
  globalTimer : Z;
  idledCycles : Z;
  event_types : list EventType
}.

(** The two queues and the two pools: [ts] selects the thread-safe ones. *)
Definition head (ts : bool) (s : CoreTiming) : option loc :=
  if ts then tsFirst s else first s.
Definition pool (ts : bool) (s : CoreTiming) : option loc :=
  if ts then eventTsPool s else eventPool s.

Definition set_heap (h : gmap loc Event) (s : CoreTiming) : CoreTiming :=
  mkCT h (first s) (tsFirst s) (tsLast s) (eventPool s) (eventTsPool s)
    (allocatedTsEvents s) (hasTsEvents s) (globalTimer s) (idledCycles s) (event_types s).
Definition set_head (ts : bool) (p : option loc) (s : CoreTiming) : CoreTiming :=
  mkCT (heap s) (if ts then first s else p) (if ts then p else tsFirst s) (tsLast s)
    (eventPool s) (eventTsPool s)
    (allocatedTsEvents s) (hasTsEvents s) (globalTimer s) (idledCycles s) (event_types s).
Definition set_tsLast (p : option loc) (s : CoreTiming) : CoreTiming :=
  mkCT (heap s) (first s) (tsFirst s) p (eventPool s) (eventTsPool s)
    (allocatedTsEvents s) (hasTsEvents s) (globalTimer s) (idledCycles s) (event_types s).
Definition set_pool (ts : bool) (p : option loc) (s : CoreTiming) : CoreTiming :=
  mkCT (heap s) (first s) (tsFirst s) (tsLast s)
    (if ts then eventPool s else p) (if ts then p else eventTsPool s)
    (allocatedTsEvents s) (hasTsEvents s) (globalTimer s) (idledCycles s) (event_types s).
Definition set_counters (n : Z) (b : bool) (s : CoreTiming) : CoreTiming :=
  mkCT (heap s) (first s) (tsFirst s) (tsLast s) (eventPool s) (eventTsPool s)
    n b (globalTimer s) (idledCycles s) (event_types s).
Definition set_timer (t i : Z) (s : CoreTiming) : CoreTiming :=
  mkCT (heap s) (first s) (tsFirst s) (tsLast s) (eventPool s) (eventTsPool s)
    (allocatedTsEvents s) (hasTsEvents s) t i (event_types s).
Definition set_types (l : list EventType) (s : CoreTiming) : CoreTiming :=
  mkCT (heap s) (first s) (tsFirst s) (tsLast s) (eventPool s) (eventTsPool s)
    (allocatedTsEvents s) (hasTsEvents s) (globalTimer s) (idledCycles s) l.

Definition modify (f : CoreTiming -> CoreTiming) : op CoreTiming unit := fun s => Done (f s) tt.

(** [*p] and [*p = e] *)
Definition load (p : loc) : op CoreTiming Event := fun s =>
  match heap s !! p with
  | Some e => Done s e
  | None => Aborted
  end.
Definition store (p : loc) (e : Event) : op CoreTiming unit := fun s =>
  match heap s !! p with
  | Some _ => Done (set_heap (<[p := e]> (heap s)) s) tt
  | None => Aborted
  end.
Definition set_next (p : loc) (q : option loc) : op CoreTiming unit :=
  (e <- load p ;; store p (mkItem (base e) q))%hle.
Definition new_loc : op CoreTiming loc := fun s =>
  let p := fresh (dom (heap s)) in
  Done (set_heap (<[p := new_event]> (heap s)) s) p.
Definition delete_loc (p : loc) : op CoreTiming unit := fun s =>
  match heap s !! p with
  | Some _ => Done (set_heap (base.delete p (heap s)) s) tt
  | None => Aborted
  end.

(** A traversal visits each node at most once. *)
Definition list_fuel (s : CoreTiming) : nat := S (size (heap s)).

(** ** Pools *)

(** The common part of [GetNewEvent] and [GetNewTsEvent]. *)
Definition pop_pool (ts : bool) : op CoreTiming loc :=
  (s <- get ;;
   match pool ts s with
   | None => new_loc
   | Some ev => e <- load ev ;; modify (set_pool ts (next e)) ;; ret ev
   end)%hle.

Definition GetNewEvent : op CoreTiming loc := pop_pool false.

Definition GetNewTsEvent : op CoreTiming loc :=
  (s <- get ;;
   modify (set_counters (s32 (allocatedTsEvents s + 1)) (hasTsEvents s)) ;;
   pop_pool true)%hle.

Definition FreeEvent (ev : loc) : op CoreTiming unit :=
  (s <- get ;;
   set_next ev (eventPool s) ;;
   modify (set_pool false (Some ev)))%hle.

Definition FreeTsEvent (ev : loc) : op CoreTiming unit :=
  (s <- get ;;
   set_next ev (eventTsPool s) ;;
   modify (set_pool true (Some ev)) ;;
   modify (set_counters (s32 (allocatedTsEvents s - 1)) (hasTsEvents s)))%hle.

Definition Free (ts : bool) (ev : loc) : op CoreTiming unit :=
  if ts then FreeTsEvent ev else FreeEvent ev.

(** ** Event types *)

Definition RegisterEvent (nm : string) (cb : Callback) : op CoreTiming Z :=
  (s <- get ;;
   let types := event_types s ++ [mkEventType cb nm] in
   modify (set_types types) ;;
   ret (Z.of_nat (length types) - 1))%hle.

Definition RestoreRegisterEvent (AntiCrashCallback : Callback) (event_type : Z) (nm : string) (cb : Callback)
    : op CoreTiming unit :=
  (s <- get ;;
   let n := Z.of_nat (length (event_types s)) in
   let types :=
     if n <=? event_type
     then event_types s ++
          replicate (Z.to_nat (event_type + 1 - n))
            (mkEventType AntiCrashCallback "INVALID EVENT")
     else event_types s in
   assert_ (0 <=? event_type) ;;
   modify (set_types (<[Z.to_nat event_type := mkEventType cb nm]> types)))%hle.

(** [PanicAlert] only shows a message. *)
Definition UnregisterAllEvents : op CoreTiming unit := modify (set_types []).

Definition Init : op CoreTiming unit :=
  (s <- get ;;
   modify (set_timer 0 0) ;;
   modify (set_counters (allocatedTsEvents s) false))%hle.

Definition GetTicks (s : CoreTiming) : Z := u64 (globalTimer s).
Definition GetIdleTicks (s : CoreTiming) : Z := u64 (idledCycles s).

(** ** Scheduling *)

Definition ScheduleEvent_Threadsafe (cyclesIntoFuture event_type user : Z)
    : op CoreTiming unit :=
  (ne <- GetNewTsEvent ;;
   s <- get ;;
   store ne (mkItem (mkBase (s64 (GetTicks s + cyclesIntoFuture)) user event_type) None) ;;
   modify (fun s => match tsFirst s with
                    | None => set_head true (Some ne) s
                    | Some _ => s
                    end) ;;
   match tsLast s with
   | None => ret tt
   | Some last => set_next last (Some ne)
   end ;;
   modify (set_tsLast (Some ne)) ;;
   s <- get ;;
   modify (set_counters (allocatedTsEvents s) true))%hle.

(** The other branch of the source is under [if (false)]. *)
Definition ScheduleEvent_Threadsafe_Immediate (event_type user : Z) : op CoreTiming unit :=
  ScheduleEvent_Threadsafe 0 event_type user.

(** [*pNext = q] where [pNext] is [&first] or [&prev->next]. *)
Definition relink (ts : bool) (prev : option loc) (q : option loc) : op CoreTiming unit :=
  match prev with
  | None => modify (set_head ts q)
  | Some p => set_next p q
  end.

Fixpoint AddEventToQueue_loop (fuel : nat) (ne : loc) (prev next_ : option loc)
    : op CoreTiming unit :=
  match fuel with
  | O => fun _ => Aborted
  | S fuel =>
      (here <- match next_ with
               | None => ret (true, None)
               | Some nx =>
                   e <- load ne ;; x <- load nx ;;
                   ret (time (base e) <? time (base x), next x)
               end ;;
       if fst here then
         set_next ne next_ ;;
         relink false prev (Some ne)
       else AddEventToQueue_loop fuel ne next_ (snd here))%hle
  end.

Definition AddEventToQueue (ne : loc) : op CoreTiming unit :=
  (s <- get ;; AddEventToQueue_loop (list_fuel s) ne None (first s))%hle.

Definition ScheduleEvent (cyclesIntoFuture event_type user : Z) : op CoreTiming unit :=
  (ne <- GetNewEvent ;;
   s <- get ;;
   e <- load ne ;;
   store ne (mkItem (mkBase (s64 (GetTicks s + cyclesIntoFuture)) user event_type) (next e)) ;;
   AddEventToQueue ne)%hle.

(** ** Removal *)

Fixpoint ClearPendingEvents_loop (fuel : nat) : op CoreTiming unit :=
  match fuel with
  | O => fun _ => Aborted
  | S fuel =>
      (s <- get ;;
       match first s with
       | None => ret tt
       | Some f =>
           e <- load f ;;
           FreeEvent f ;;
           modify (set_head false (next e)) ;;
           ClearPendingEvents_loop fuel
       end)%hle
  end.

Definition ClearPendingEvents : op CoreTiming unit :=
  (s <- get ;; ClearPendingEvents_loop (list_fuel s))%hle.

(** The first loop of the four removal functions: it frees matching events at
    the head of the queue.  [result] is the cycles left of the last one. *)
Fixpoint remove_head_loop (ts : bool) (matches : BaseEvent -> bool) (fuel : nat) (result : Z)
    : op CoreTiming Z :=
  match fuel with
  | O => fun _ => Aborted
  | S fuel =>
      (s <- get ;;
       match head ts s with
       | None => ret result
       | Some f =>
           e <- load f ;;
           if matches (base e) then
             Free ts f ;;
             modify (set_head ts (next e)) ;;
             remove_head_loop ts matches fuel (s64 (time (base e) - globalTimer s))
           else ret result
       end)%hle
  end.

(** The second loop: matching events after the head are unlinked. *)
Fixpoint remove_rest_loop (ts : bool) (matches : BaseEvent -> bool) (fuel : nat)
    (prev : loc) (ptr : option loc) (result : Z) : op CoreTiming Z :=
  match fuel with
  | O => fun _ => Aborted
  | S fuel =>
      match ptr with
      | None => ret result
      | Some p =>
          (s <- get ;;
           e <- load p ;;
           if matches (base e) then
             set_next prev (next e) ;;
             (if ts && bool_decide (Some p = tsLast s)
              then modify (set_tsLast (Some prev)) else ret tt) ;;
             Free ts p ;;
             pe <- load prev ;;
             remove_rest_loop ts matches fuel prev (next pe)
               (s64 (time (base e) - globalTimer s))
           else remove_rest_loop ts matches fuel p (next e) result)%hle
      end
  end.

Definition remove_matching (ts : bool) (matches : BaseEvent -> bool) : op CoreTiming Z :=
  (s <- get ;;
   match head ts s with
   | None => ret 0
   | Some _ =>
       result <- remove_head_loop ts matches (list_fuel s) 0 ;;
       s <- get ;;
       match head ts s with
       | None => (if ts then modify (set_tsLast None) else ret tt) ;; ret result
       | Some prev =>
           e <- load prev ;;
           remove_rest_loop ts matches (list_fuel s) prev (next e) result
       end
   end)%hle.

Definition is_event (event_type user : Z) (e : BaseEvent) : bool :=
  (type e =? event_type) && (userdata e =? user).

Definition UnscheduleEvent (event_type user : Z) : op CoreTiming Z :=
  remove_matching false (is_event event_type user).
Definition UnscheduleThreadsafeEvent (event_type user : Z) : op CoreTiming Z :=
  remove_matching true (is_event event_type user).
Definition RemoveEvent (event_type : Z) : op CoreTiming unit :=
  (remove_matching false (fun e => type e =? event_type) ;; ret tt)%hle.
Definition RemoveThreadsafeEvent (event_type : Z) : op CoreTiming unit :=
  (remove_matching true (fun e => type e =? event_type) ;; ret tt)%hle.
Definition RemoveAllEvents (event_type : Z) : op CoreTiming unit :=
  (RemoveThreadsafeEvent event_type ;; RemoveEvent event_type)%hle.

Fixpoint IsScheduled_loop (event_type : Z) (fuel : nat) (e : option loc) : op CoreTiming bool :=
  match fuel with
  | O => fun _ => Aborted
  | S fuel =>
      match e with
      | None => ret false
      | Some p =>
          (ev <- load p ;;
           if type (base ev) =? event_type then ret true
           else IsScheduled_loop event_type fuel (next ev))%hle
      end
  end.

Definition IsScheduled (event_type : Z) : op CoreTiming bool :=
  (s <- get ;; IsScheduled_loop event_type (list_fuel s) (first s))%hle.

(** ** Moving events between the queues *)

Fixpoint MoveEvents_loop (fuel : nat) : op CoreTiming unit :=
  match fuel with
  | O => fun _ => Aborted
  | S fuel =>
      (s <- get ;;
       match tsFirst s with
       | None => ret tt
       | Some f =>
           e <- load f ;;
           AddEventToQueue f ;;
           modify (set_head true (next e)) ;;
           MoveEvents_loop fuel
       end)%hle
  end.

Fixpoint MovePool_loop (fuel : nat) : op CoreTiming unit :=
  match fuel with
  | O => fun _ => Aborted
  | S fuel =>
      (s <- get ;;
       match eventPool s with
       | Some ev =>
           if 0 <? allocatedTsEvents s then
             e <- load ev ;;
             modify (set_pool false (next e)) ;;
             store ev (mkItem (base e) (eventTsPool s)) ;;
             modify (set_pool true (Some ev)) ;;
             modify (set_counters (s32 (allocatedTsEvents s - 1)) (hasTsEvents s)) ;;
             MovePool_loop fuel
           else ret tt
       | None => ret tt
       end)%hle
  end.

Definition MoveEvents : op CoreTiming unit :=
  (s <- get ;;
   modify (set_counters (allocatedTsEvents s) false) ;;
   MoveEvents_loop (list_fuel s) ;;
   modify (set_tsLast None) ;;
   s <- get ;;
   MovePool_loop (list_fuel s))%hle.

(** [while (pool) { ev = pool; pool = ev->next; delete ev; }] *)
Fixpoint DeletePool_loop (ts : bool) (fuel : nat) : op CoreTiming unit :=
  match fuel with
  | O => fun _ => Aborted
  | S fuel =>
      (s <- get ;;
       match pool ts s with
       | None => ret tt
       | Some ev =>
           e <- load ev ;;
           modify (set_pool ts (next e)) ;;
           delete_loc ev ;;
           DeletePool_loop ts fuel
       end)%hle
  end.

Definition Shutdown : op CoreTiming unit :=
  (MoveEvents ;;
   ClearPendingEvents ;;
   UnregisterAllEvents ;;
   s <- get ;;
   DeletePool_loop false (list_fuel s) ;;
   DeletePool_loop true (list_fuel s))%hle.

(** ** Running events

    [call cb u late] runs a callback; it may use the scheduler, and changes the
    rest of the emulator, [World]. *)
Section Execution.
Context {World : Type}.

Definition lift {A} (m : op CoreTiming A) : op (World * CoreTiming) A := fun '(w, s) =>
  match m s with
  | Done s' a => Done (w, s') a
  | Failed s' rc => Failed (w, s') rc
  | Aborted => Aborted
  end.

Variable call : Callback -> Z -> Z -> op (World * CoreTiming) unit.
Variable advanceCallback : option (Z -> op (World * CoreTiming) unit).

Definition callback_of (event_type : Z) (s : CoreTiming) : option Callback :=
  if 0 <=? event_type
  then callback <$> event_types s !! Z.to_nat event_type else None.

Fixpoint ProcessFifoWaitEvents (fuel : nat) : op (World * CoreTiming) unit :=
  match fuel with
  | O => fun _ => Aborted
  | S fuel =>
      (s <- lift get ;;
       match first s with
       | None => ret tt
       | Some evt =>
           e <- lift (load evt) ;;
           if time (base e) <=? globalTimer s then
             lift (modify (set_head false (next e))) ;;
             match callback_of (type (base e)) s with
             | None => fun _ => Aborted
             | Some cb => call cb (userdata (base e)) (s32 (globalTimer s - time (base e)))
             end ;;
             lift (FreeEvent evt) ;;
             ProcessFifoWaitEvents fuel
           else ret tt
       end)%hle
  end.

Definition Advance (fuel : nat) : op (World * CoreTiming) unit :=
  (s <- lift get ;;
   lift (modify (set_timer (s64 (globalTimer s + 1)) (idledCycles s))) ;;
   (if hasTsEvents s then lift MoveEvents else ret tt) ;;
   ProcessFifoWaitEvents fuel ;;
   match advanceCallback with
   | None => ret tt
   | Some cb => cb 1
   end)%hle.

(** The cycles that [Idle] advances by. *)
Definition Idle_cycles (maxIdle : Z) (next_time : option Z) (now : Z) : Z :=
  let cyclesDown := if 0 <? maxIdle then maxIdle else 1 in
  match next_time with
  | Some t =>
      let cyclesNextEvent := s64 (t - now) in
      if 0 <? cyclesDown then
        if cyclesNextEvent <=? 0 then 0
        else if cyclesNextEvent <? cyclesDown then s32 cyclesNextEvent
        else cyclesDown
      else cyclesDown
  | None => cyclesDown
  end.

Definition Idle (fuel : nat) (maxIdle : Z) : op (World * CoreTiming) unit :=
  (s <- lift get ;;
   next_time <- match first s with
                | None => ret None
                | Some f => e <- lift (load f) ;; ret (Some (time (base e)))
                end ;;
   let cyclesDown := Idle_cycles maxIdle next_time (globalTimer s) in
   (if 0 <? cyclesDown then
      lift (modify (set_timer (s64 (globalTimer s + cyclesDown))
                      (s64 (idledCycles s + cyclesDown))))
    else ret tt) ;;
   (if hasTsEvents s then lift MoveEvents else ret tt) ;;
   ProcessFifoWaitEvents fuel)%hle.
End Execution.

(** ** Representation

    [rep s Q P own]: in state [s] the queues are [Q false] (pending) and
    [Q true] (thread-safe), the pools are [P false] and [P true], the nodes of
    [own] are allocated and in none of them, and no node is in two places. *)

#[local] Abbreviation node := (loc * BaseEvent)%type.

Definition upd (ts : bool) (l : list node) (Q : bool -> list node) : bool -> list node :=
  fun b => if Bool.eqb b ts then l else Q b.

Definition all_locs (Q P : bool -> list node) (own : list loc) : list loc :=
  locs (Q false) ++ locs (Q true) ++ locs (P false) ++ locs (P true) ++ own.

Record rep (s : CoreTiming) (Q P : bool -> list node) (own : list loc) : Prop := {
  rep_queue : forall ts, lseg (heap s) (head ts s) (Q ts) None;
  rep_pool : forall ts, lseg (heap s) (pool ts s) (P ts) None;
  rep_nodup : NoDup (all_locs Q P own);
  rep_own : forall x, x ∈ own -> is_Some (heap s !! x)
}.

(** The part of the state that the list operations leave alone. *)
Definition rest (s : CoreTiming) : option loc * bool * Z * Z * list EventType :=
  (tsLast s, hasTsEvents s, globalTimer s, idledCycles s, event_types s).

(** Locations moved from one place to another. *)
Ltac nodup H :=
  match type of H with
  | NoDup ?l => match goal with |- NoDup ?l' =>
      let E := fresh in assert (E : l' ≡ₚ l); [|rewrite E; exact H] end
  end.
Ltac perm := unfold all_locs, upd, locs; simpl Bool.eqb; cbv iota;
  rewrite ?fmap_app, ?fmap_cons; simpl fst; solve_Permutation.

Lemma rep_disjoint s Q P own x ts :
  rep s Q P own -> x ∈ own -> (x ∉ locs (Q ts)) /\ (x ∉ locs (P ts)).
Proof.
  intros [_ _ Hnd _] Hx. unfold all_locs in Hnd.
  rewrite !NoDup_app in Hnd. destruct Hnd as (_ & H1 & _ & H2 & _ & H3 & _ & H4 & _).
  split; destruct ts; intros Hin;
    [apply (H2 x Hin)|apply (H1 x Hin)|apply (H4 x Hin)|apply (H3 x Hin)]; mem_list.
Qed.

Lemma rep_NoDup_queue s Q P own ts : rep s Q P own -> NoDup (locs (Q ts)).
Proof.
  intros [_ _ Hnd _]. unfold all_locs in Hnd. rewrite !NoDup_app in Hnd.
  destruct ts; tauto.
Qed.

Lemma rep_NoDup_pool s Q P own ts : rep s Q P own -> NoDup (locs (P ts)).
Proof.
  intros [_ _ Hnd _]. unfold all_locs in Hnd. rewrite !NoDup_app in Hnd.
  destruct ts; tauto.
Qed.

(** A node of a queue is in no other list. *)
Lemma rep_queue_disjoint s Q P own x ts :
  rep s Q P own -> x ∈ locs (Q ts) ->
  (x ∉ locs (Q (negb ts))) /\ (forall b, x ∉ locs (P b)) /\ (x ∉ own).
Proof.
  intros [_ _ Hnd _] Hx. unfold all_locs in Hnd. rewrite !NoDup_app in Hnd.
  destruct Hnd as (_ & H1 & _ & H2 & _).
  assert (H : forall y, y ∈ locs (P true) \/ y ∈ locs (P false) \/ y ∈ own -> x <> y).
  { intros y Hy ->. destruct ts.
    - apply (H2 y Hx). mem_list.
    - apply (H1 y Hx). mem_list. }
  split_and!.
  - destruct ts; simpl; intros Hy.
    + apply (H1 x Hy). mem_list.
    + apply (H1 x Hx). mem_list.
  - intros [] Hy; eapply H; eauto.
  - intros Hy. eapply H; eauto.
Qed.

Lemma own_lookup s Q P own x : rep s Q P own -> x ∈ own -> exists e, heap s !! x = Some e.
Proof. intros H Hx. by apply (rep_own _ _ _ _ H) in Hx. Qed.

(** Writing an owned node. *)
Lemma store_own s Q P own x e :
  rep s Q P own -> x ∈ own ->
  exists s', store x e s = Done s' tt /\ rep s' Q P own /\ s' = set_heap (<[x := e]> (heap s)) s.
Proof.
  intros H Hx. destruct (own_lookup _ _ _ _ _ H Hx) as (e0 & E0).
  unfold store. rewrite E0. eexists. split_and!; try done.
  destruct H as [Hq Hp Hn Ho] eqn:EH. clear EH. split.
  - intros ts. apply lseg_frame; [by apply (rep_disjoint s Q P own x ts)|apply Hq].
  - intros ts. apply lseg_frame; [by apply (rep_disjoint s Q P own x ts)|apply Hp].
  - done.
  - intros y Hy. simpl. destruct (decide (x = y)) as [->|].
    + by rewrite lookup_insert_eq.
    + rewrite lookup_insert_ne by done. auto.
Qed.

Lemma bind_load {B} x e (k : Event -> op CoreTiming B) s :
  heap s !! x = Some e -> bind (load x) k s = k e s.
Proof. intros E. unfold bind, load. by rewrite E. Qed.

Lemma set_next_eq x q s e :
  heap s !! x = Some e ->
  set_next x q s = Done (set_heap (<[x := mkItem (base e) q]> (heap s)) s) tt.
Proof. intros E. unfold set_next, bind, load, store. rewrite E. by rewrite E. Qed.

Lemma set_next_own s Q P own x q e :
  rep s Q P own -> x ∈ own -> heap s !! x = Some e ->
  exists s', set_next x q s = Done s' tt /\ rep s' Q P own /\
    s' = set_heap (<[x := mkItem (base e) q]> (heap s)) s.
Proof.
  intros H Hx E. unfold set_next, bind, load. rewrite E. by apply store_own.
Qed.

(** The queue that starts with an owned node. *)
Lemma pop_head s Q P own ts x b r :
  rep s Q P own -> Q ts = (x, b) :: r ->
  head ts s = Some x /\
  exists n, heap s !! x = Some (mkItem b n) /\
    rep (set_head ts n s) (upd ts r Q) P (x :: own).
Proof.
  intros [Hq Hp Hn Ho] E. pose proof (Hq ts) as Ht. rewrite E in Ht.
  destruct Ht as (Eh & n & Ex & Hr). split; [done|]. exists n. split; [done|]. split.
  - intros b'. simpl. unfold upd. pose proof (Hq b'). destruct b', ts; simpl in *; done.
  - intros b'. destruct b', ts; apply (Hp _) || apply (Hp true) || apply (Hp false).
  - nodup Hn. destruct ts; unfold all_locs, upd; simpl Bool.eqb; cbv iota; rewrite E; perm.
  - intros y [->|Hy]%elem_of_cons; [|by apply Ho]. simpl. eauto.
Qed.

Lemma push_pool s Q P own ts x b :
  rep s Q P (x :: own) -> heap s !! x = Some (mkItem b (pool ts s)) ->
  rep (set_pool ts (Some x) s) Q (upd ts ((x, b) :: P ts) P) own.
Proof.
  intros [Hq Hp Hn Ho] Ex. split.
  - intros b'. pose proof (Hq b'). destruct b', ts; done.
  - intros b'. pose proof (Hp true). pose proof (Hp false). simpl. unfold upd.
    destruct b', ts; simpl in *; eauto.
  - nodup Hn. destruct ts; perm.
  - intros y Hy. simpl. apply Ho. mem_list.
Qed.

Lemma pop_pool_node s Q P own ts x b r :
  rep s Q P own -> P ts = (x, b) :: r ->
  pool ts s = Some x /\
  exists n, heap s !! x = Some (mkItem b n) /\
    rep (set_pool ts n s) Q (upd ts r P) (x :: own).
Proof.
  intros [Hq Hp Hn Ho] E. pose proof (Hp ts) as Ht. rewrite E in Ht.
  destruct Ht as (Eh & n & Ex & Hr). split; [done|]. exists n. split; [done|]. split.
  - intros b'. pose proof (Hq b'). destruct b', ts; done.
  - intros b'. simpl. unfold upd. pose proof (Hp b'). destruct b', ts; simpl in *; done.
  - nodup Hn. destruct ts; unfold all_locs, upd; simpl Bool.eqb; cbv iota; rewrite E; perm.
  - intros y [->|Hy]%elem_of_cons; [|by apply Ho]. simpl. eauto.
Qed.

Lemma pop_pool_spec s Q P own ts :
  rep s Q P own -> exists s' x P', pop_pool ts s = Done s' x /\ rep s' Q P' (x :: own) /\
    rest s' = rest s.
Proof.
  intros H. unfold pop_pool, bind, get.
  destruct (P ts) as [|[x b] r] eqn:E.
  - pose proof (rep_pool _ _ _ _ H ts) as Hp. rewrite E in Hp. simpl in Hp. rewrite Hp.
    unfold new_loc. eexists _, _, P. split; [done|]. split; [|done].
    destruct H as [Hq Hpl Hn Ho]. pose proof (is_fresh (dom (heap s))) as Hfr.
    set (x := fresh (dom (heap s))) in *.
    assert (Hx : heap s !! x = None) by by apply not_elem_of_dom.
    assert (Hin : forall p l, lseg (heap s) p l None -> x ∉ locs l).
    { intros p l Hl Hx'. eapply lseg_dom in Hx' as [e He]; [|done]. congruence. }
    split; simpl.
    + intros ts'. pose proof (Hq ts'). destruct ts'; apply lseg_frame; eauto.
    + intros ts'. pose proof (Hpl ts'). destruct ts'; apply lseg_frame; eauto.
    + assert (E2 : all_locs Q P (x :: own) ≡ₚ x :: all_locs Q P own) by perm.
      rewrite E2. apply NoDup_cons. split; [|done]. unfold all_locs.
      rewrite !elem_of_app. intros [Hi|[Hi|[Hi|[Hi|Hi]]]];
        try (by eapply Hin; [|exact Hi]; eauto).
      apply Ho in Hi as [e He]. congruence.
    + intros y [->|Hy]%elem_of_cons; [by rewrite lookup_insert_eq|].
      rewrite lookup_insert_ne; [by apply Ho|]. intros <-. apply Ho in Hy as [e He]. congruence.
  - destruct (pop_pool_node s Q P own ts x b r H E) as (Ep & n & Ex & Hr).
    rewrite Ep. unfold load. rewrite Ex. eexists _, x, _. split; [done|]. split; [exact Hr|].
    by destruct ts.
Qed.

Lemma Free_spec s Q P own ts x :
  rep s Q P (x :: own) ->
  exists s' P', Free ts x s = Done s' tt /\ rep s' Q P' own /\ rest s' = rest s.
Proof.
  intros H. destruct (own_lookup _ _ _ _ x H ltac:(mem_list)) as (e & Ex).
  destruct (set_next_own s Q P (x :: own) x (pool ts s) e H ltac:(mem_list) Ex)
    as (s1 & E1 & H1 & Es1).
  assert (H2 := push_pool s1 Q P own ts x (base e) H1).
  exists (let s2 := set_pool ts (Some x) s1 in
          if ts then set_counters (s32 (allocatedTsEvents s - 1)) (hasTsEvents s) s2 else s2).
  eexists. split; [|split].
  - destruct ts; unfold Free, FreeTsEvent, FreeEvent, bind, get;
      [change (eventTsPool s) with (pool true s)|change (eventPool s) with (pool false s)];
      rewrite E1; done.
  - assert (Hrep : rep (set_pool ts (Some x) s1) Q (upd ts ((x, base e) :: P ts) P) own).
    { apply H2. subst s1. simpl. rewrite lookup_insert_eq. by destruct ts. }
    destruct ts; [|exact Hrep]. destruct Hrep. by split.
  - subst s1. by destruct ts.
Qed.

(** [relink] redirects the pointer at the end of [L1], the queue's prefix. *)
Lemma relink_spec ts s (L1 : list node) m q :
  lseg (heap s) (head ts s) L1 m -> NoDup (locs L1) ->
  exists s', relink ts (last_loc L1) q s = Done s' tt /\
    lseg (heap s') (head ts s') L1 q /\ rest s' = rest s /\
    head (negb ts) s' = head (negb ts) s /\ (forall b, pool b s' = pool b s) /\
    (forall x, x ∉ locs L1 -> heap s' !! x = heap s !! x) /\
    (forall x, is_Some (heap s !! x) -> is_Some (heap s' !! x)).
Proof.
  intros Hl Hnd. destruct L1 as [|[y b] L1 _] using rev_ind.
  - simpl in Hl. exists (set_head ts q s). simpl.
    split_and!; try done; first [by destruct ts|intros []; by destruct ts].
  - rewrite last_loc_app. unfold relink.
    assert (exists n, heap s !! y = Some (mkItem b n)) as (n & Ey).
    { apply lseg_app in Hl as (m' & _ & H2). destruct H2 as (_ & n & Ey & _). eauto. }
    rewrite (set_next_eq y q s _ Ey). eexists. split; [done|]. simpl.
    split_and!; try done.
    + destruct ts; eapply lseg_set_last; eauto.
    + intros x Hx. apply lookup_insert_ne. intros ->. apply Hx. rewrite locs_app.
      apply elem_of_app. right. left.
    + intros x Hx. destruct (decide (y = x)) as [->|]; [by rewrite lookup_insert_eq|].
      by rewrite lookup_insert_ne.
Qed.

(** Replacing the tail after a prefix of a queue. *)
Lemma rep_relink s Q P own ts L1 L2 L2' q own' :
  rep s Q P own -> Q ts = L1 ++ L2 ->
  lseg (heap s) q L2' None -> (forall x, x ∈ locs L2' -> x ∉ locs L1) ->
  all_locs (upd ts (L1 ++ L2') Q) P own' ≡ₚ all_locs Q P own ->
  (forall x, x ∈ own' -> x ∈ own \/ x ∈ locs L2) ->
  exists s', relink ts (last_loc L1) q s = Done s' tt /\
    rep s' (upd ts (L1 ++ L2') Q) P own' /\ rest s' = rest s.
Proof.
  intros H E Hq2 Hd Hperm Ho'. pose proof (rep_NoDup_queue _ _ _ _ ts H) as Hnd.
  rewrite E, locs_app in Hnd. apply NoDup_app in Hnd as (Hnd & _ & _).
  pose proof (rep_queue _ _ _ _ H ts) as Hts. rewrite E in Hts.
  apply lseg_app in Hts as (m & Hl1 & Hl2).
  destruct (relink_spec ts s L1 m q Hl1 Hnd) as (s' & E' & Hl1' & Hr & Hh & Hp & Hfr & Hdom).
  exists s'. split; [done|]. split; [|done].
  assert (Hframe : forall p l, (forall x, x ∈ locs l -> x ∉ locs L1) ->
            lseg (heap s) p l None -> lseg (heap s') p l None).
  { intros p l. revert p. induction l as [|[x b] l IH]; intros p Hl; simpl; [done|].
    intros (-> & n & Ex & Hs). split; [done|]. exists n. split.
    - rewrite Hfr; [done|]. apply Hl. simpl. mem_list.
    - apply IH; [|done]. intros y Hy. apply Hl. simpl. mem_list. }
  assert (Hin : forall x, x ∈ locs L1 -> x ∈ locs (Q ts)).
  { intros x Hx. rewrite E, locs_app. mem_list. }
  split.
  - intros b. unfold upd. destruct (Bool.eqb_spec b ts) as [->|Hne].
    + apply lseg_app. exists q. split; [done|]. by apply Hframe.
    + assert (b = negb ts) as -> by (destruct b, ts; simpl; congruence). rewrite Hh.
      apply Hframe; [|apply (rep_queue _ _ _ _ H)]. intros x Hx Hx1.
      destruct (rep_queue_disjoint _ _ _ _ x ts H (Hin x Hx1)) as (Hn & _). by apply Hn.
  - intros b. rewrite Hp. apply Hframe; [|apply (rep_pool _ _ _ _ H)]. intros x Hx Hx1.
    destruct (rep_queue_disjoint _ _ _ _ x ts H (Hin x Hx1)) as (_ & Hn & _). by apply (Hn b).
  - rewrite Hperm. apply (rep_nodup _ _ _ _ H).
  - intros x Hx. apply Hdom. destruct (Ho' x Hx) as [Ho|Ho]; [by apply (rep_own _ _ _ _ H)|].
    by eapply lseg_dom.
Qed.

(** ** Insertion *)

(** Insertion after every event that is not later. *)
Fixpoint insert_event (n : node) (l : list node) : list node :=
  match l with
  | [] => [n]
  | y :: r => if time (n.2) <? time (y.2) then n :: l else y :: insert_event n r
  end.

Lemma insert_locs n l : locs (insert_event n l) ≡ₚ n.1 :: locs l.
Proof.
  induction l as [|y r IH]; simpl; [done|]. destruct (_ <? _); simpl; [done|].
  rewrite IH. apply Permutation_swap.
Qed.

Lemma rep_list s Q P own ts : rep s Q P own -> (length (Q ts) < list_fuel s)%nat.
Proof.
  intros H. pose proof (lseg_length _ _ _ _ (rep_NoDup_queue _ _ _ _ ts H) (rep_queue _ _ _ _ H ts)).
  unfold list_fuel. lia.
Qed.

Lemma upd_same ts (Q : bool -> list node) b : upd ts (Q ts) Q b = Q b.
Proof. unfold upd. by destruct (Bool.eqb_spec b ts) as [->|]. Qed.

(** The node is linked between [L1] and [L2]. *)
Lemma link_spec s Q P own x e L1 L2 nx :
  rep s Q P (x :: own) -> heap s !! x = Some e -> Q false = L1 ++ L2 ->
  lseg (heap s) nx L2 None ->
  exists s', (set_next x nx ;; relink false (last_loc L1) (Some x))%hle s = Done s' tt /\
    rep s' (upd false (L1 ++ (x, base e) :: L2) Q) P own /\ rest s' = rest s.
Proof.
  intros H Ex E Hnx.
  destruct (set_next_own s Q P (x :: own) x nx e H ltac:(mem_list) Ex) as (s1 & E1 & H1 & Es1).
  destruct (rep_disjoint _ _ _ _ x false H ltac:(mem_list)) as [Hx _].
  rewrite E, locs_app, not_elem_of_app in Hx. destruct Hx as [Hx1 Hx2].
  destruct (rep_relink s1 Q P (x :: own) false L1 L2 ((x, base e) :: L2) (Some x) own H1 E)
    as (s2 & E2 & H2 & Hr2).
  - simpl. split; [done|]. exists nx. subst s1. simpl. rewrite lookup_insert_eq.
    split; [done|]. by apply lseg_frame.
  - intros y Hy Hy1. simpl in Hy. apply elem_of_cons in Hy as [->|Hy]; [done|].
    pose proof (rep_NoDup_queue _ _ _ _ false H) as Hnd.
    rewrite E, locs_app in Hnd. apply NoDup_app in Hnd as (_ & Hd & _). by apply (Hd y).
  - unfold all_locs, upd. simpl Bool.eqb. cbv iota. rewrite E. perm.
  - intros y Hy. left. mem_list.
  - exists s2. unfold bind. rewrite E1. split_and!; [done|done|]. rewrite Hr2. by subst s1.
Qed.

Lemma AddEventToQueue_loop_spec fuel s Q P own x e L1 L2 nx :
  rep s Q P (x :: own) -> heap s !! x = Some e -> Q false = L1 ++ L2 ->
  lseg (heap s) nx L2 None -> (length L2 < fuel)%nat ->
  exists s', AddEventToQueue_loop fuel x (last_loc L1) nx s = Done s' tt /\
    rep s' (upd false (L1 ++ insert_event (x, base e) L2) Q) P own /\ rest s' = rest s.
Proof.
  intros H Ex. revert L1 nx fuel. induction L2 as [|[y b] L2 IH]; intros L1 nx fuel E Hnx Hf;
    (destruct fuel as [|fuel]; [simpl in Hf; lia|]); simpl AddEventToQueue_loop.
  - simpl in Hnx. subst nx. apply (link_spec s Q P own x e L1 [] None); done.
  - destruct Hnx as (-> & n & Ey & Hnx).
    unfold bind at 1 2 3, load at 1 2. rewrite Ex, Ey. simpl. destruct (_ <? _) eqn:Hlt; simpl.
    + apply (link_spec s Q P own x e L1 ((y, b) :: L2) (Some y)); try done. simpl. eauto.
    + destruct (IH (L1 ++ [(y, b)]) n fuel) as (s' & E' & H' & Hr');
        [by rewrite <-app_assoc|done|simpl in Hf; lia|].
      rewrite last_loc_app in E'. exists s'. split; [done|]. split; [|done].
      by rewrite <-app_assoc in H'.
Qed.

Lemma AddEventToQueue_spec s Q P own x e :
  rep s Q P (x :: own) -> heap s !! x = Some e ->
  exists s', AddEventToQueue x s = Done s' tt /\
    rep s' (upd false (insert_event (x, base e) (Q false)) Q) P own /\ rest s' = rest s.
Proof.
  intros H Ex. unfold AddEventToQueue, bind at 1, get.
  apply (AddEventToQueue_loop_spec _ s Q P own x e [] (Q false) (first s)); try done.
  - apply (rep_queue _ _ _ _ H false).
  - by eapply (rep_list _ _ _ _ false).
Qed.

(** [Free] and a redirection of the queue's head commute. *)
Lemma Free_set_head ts x ts' q s :
  (Free ts x ;; modify (set_head ts' q))%hle s = (modify (set_head ts' q) ;; Free ts x)%hle s.
Proof.
  destruct ts, ts'; unfold Free, FreeTsEvent, FreeEvent, set_next, bind, get, modify, load, store;
    simpl; destruct (heap s !! x) eqn:E; simpl; rewrite ?E; simpl; rewrite ?E; done.
Qed.

(** ** Removal *)

Definition keep (matches : BaseEvent -> bool) (l : list node) : list node :=
  filter (fun n => matches (n.2) = false) l.

(** The result of a removal: the cycles left of the last event removed. *)
Definition cycles_left (matches : BaseEvent -> bool) (now : Z) (l : list node) (result : Z) : Z :=
  fold_left (fun r n => if matches (n.2) then s64 (time (n.2) - now) else r) l result.

Lemma cycles_left_app matches now l1 l2 r :
  cycles_left matches now (l1 ++ l2) r = cycles_left matches now l2 (cycles_left matches now l1 r).
Proof. apply fold_left_app. Qed.

Lemma upd_upd ts (l l' : list node) Q b : upd ts l (upd ts l' Q) b = upd ts l Q b.
Proof. unfold upd. by destruct (Bool.eqb b ts). Qed.

(** [rep] only looks at the values of the four lists. *)
Lemma rep_ext s Q Q' P P' own :
  (forall b, Q b = Q' b) -> (forall b, P b = P' b) -> rep s Q P own -> rep s Q' P' own.
Proof.
  intros HQ HP [Hq Hp Hn Ho]. split; [| | |done].
  - intros b. rewrite <-HQ. apply Hq.
  - intros b. rewrite <-HP. apply Hp.
  - unfold all_locs in *. by rewrite <-!HQ, <-!HP.
Qed.

(** Taking the head of a queue to its pool, as the loops do. *)
Lemma free_head s Q P own ts x b r :
  rep s Q P own -> Q ts = (x, b) :: r ->
  head ts s = Some x /\ exists n s' P', heap s !! x = Some (mkItem b n) /\
    (Free ts x ;; modify (set_head ts n))%hle s = Done s' tt /\
    rep s' (upd ts r Q) P' own /\ rest s' = rest s.
Proof.
  intros H E. destruct (pop_head s Q P own ts x b r H E) as (Eh & n & Ex & H1).
  split; [done|]. destruct (Free_spec _ _ _ own ts x H1) as (s' & P' & E' & H' & Hr').
  exists n, s', P'. rewrite Free_set_head. unfold bind, modify. rewrite E'.
  by split_and!.
Qed.

Definition no_match (matches : BaseEvent -> bool) (l : list node) : Prop :=
  match l with
  | [] => True
  | n :: _ => matches (n.2) = false
  end.

Lemma remove_head_loop_spec ts matches fuel s Q P own result :
  rep s Q P own -> (length (Q ts) < fuel)%nat ->
  exists s' P' L1 L2, Q ts = L1 ++ L2 /\ keep matches L1 = [] /\ no_match matches L2 /\
    remove_head_loop ts matches fuel result s =
      Done s' (cycles_left matches (globalTimer s) L1 result) /\
    rep s' (upd ts L2 Q) P' own /\ rest s' = rest s.
Proof.
  remember (Q ts) as l eqn:E. revert fuel s Q P result E.
  induction l as [|[x b] r IH]; intros fuel s Q P result E H Hf;
    (destruct fuel as [|fuel]; [simpl in Hf; lia|]); simpl remove_head_loop;
    rewrite bind_get; symmetry in E.
  - pose proof (rep_queue _ _ _ _ H ts) as Hq. rewrite E in Hq. simpl in Hq. rewrite Hq.
    exists s, P, [], []. split_and!; try done.
    eapply rep_ext; [|done|exact H]. intros b. unfold upd. by destruct (Bool.eqb_spec b ts) as [->|].
  - destruct (free_head s Q P own ts x b r H E) as (Eh & n & s1 & P1 & Ex & E1 & H1 & Hr1).
    rewrite Eh. erewrite bind_load by exact Ex. cbn [base next]. destruct (matches b) eqn:Hm.
    + rewrite bind_assoc. erewrite bind_Done by exact E1.
      assert (Et : globalTimer s1 = globalTimer s) by (unfold rest in Hr1; congruence).
      destruct (IH fuel s1 (upd ts r Q) P1 (s64 (time b - globalTimer s)))
        as (s2 & P2 & L1 & L2 & El & Hk & Hn & E2 & H2 & Hr2).
      { unfold upd. by rewrite eqb_reflx. }
      { done. }
      { simpl in Hf. lia. }
      exists s2, P2, ((x, b) :: L1), L2. split_and!; try done.
      * simpl. by rewrite El.
      * unfold keep. rewrite filter_cons_False; [done|]. simpl. congruence.
      * rewrite E2, Et. simpl. by rewrite Hm.
      * eapply rep_ext; [|done|exact H2]. intros b'. apply upd_upd.
      * congruence.
    + exists s, P, [], ((x, b) :: r). split_and!; try done.
      eapply rep_ext; [|done|exact H]. intros b'. unfold upd.
      by destruct (Bool.eqb_spec b' ts) as [->|].
Qed.

(** [tsLast] is the last node of the thread-safe queue. *)
Definition tail_ok (s : CoreTiming) (Q : bool -> list node) : Prop :=
  tsLast s = last_loc (Q true).

Definition clock (s : CoreTiming) : bool * Z * Z * list EventType :=
  (hasTsEvents s, globalTimer s, idledCycles s, event_types s).

Lemma rest_inv s s' : rest s' = rest s -> tsLast s' = tsLast s /\ clock s' = clock s.
Proof. unfold rest, clock. intros E. split; congruence. Qed.

Lemma rep_set_tsLast s Q P own p : rep s Q P own -> rep (set_tsLast p s) Q P own.
Proof. by intros []; split. Qed.

(** Unlinking a node of a queue, [tsLast] included. *)
Lemma unlink_spec s Q P own ts L1 y c p b r n :
  rep s Q P own -> tail_ok s Q -> Q ts = L1 ++ (y, c) :: (p, b) :: r ->
  heap s !! p = Some (mkItem b n) -> lseg (heap s) n r None ->
  exists s' P',
    (set_next y n ;;
     (if ts && bool_decide (Some p = tsLast s)
      then modify (set_tsLast (Some y)) else ret tt) ;;
     Free ts p)%hle s = Done s' tt /\
    rep s' (upd ts (L1 ++ (y, c) :: r) Q) P' own /\
    tail_ok s' (upd ts (L1 ++ (y, c) :: r) Q) /\ clock s' = clock s.
Proof.
  intros H Ht E Ep Hn. set (K := L1 ++ [(y, c)]).
  assert (EK : forall l, L1 ++ (y, c) :: l = K ++ l) by (intros; unfold K; by rewrite <-app_assoc).
  rewrite EK in E |- *. pose proof (rep_NoDup_queue _ _ _ _ ts H) as Hnd. rewrite E in Hnd.
  assert (Hd : forall x, x ∈ p :: locs r -> x ∉ locs K).
  { rewrite locs_app in Hnd. apply NoDup_app in Hnd as (_ & Hd & _). intros x Hx Hk.
    by apply (Hd x). }
  destruct (rep_relink s Q P own ts K ((p, b) :: r) r n (p :: own) H E Hn) as (s1 & E1 & H1 & Hr1).
  { intros x Hx. apply Hd. mem_list. }
  { destruct ts; unfold all_locs, upd; simpl Bool.eqb; cbv iota; rewrite E; perm. }
  { intros x Hx. simpl. apply elem_of_cons in Hx as [->|Hx]; [right; left|by left]. }
  unfold K at 1 in E1. rewrite last_loc_app in E1. simpl in E1.
  destruct (rest_inv _ _ Hr1) as [El1 Ec1].
  set (upd_last := ts && bool_decide (Some p = tsLast s)).
  destruct (Free_spec (if upd_last then set_tsLast (Some y) s1 else s1)
              (upd ts (K ++ r) Q) P own ts p) as (s2 & P2 & E2 & H2 & Hr2).
  { destruct upd_last; [by apply rep_set_tsLast|done]. }
  destruct (rest_inv _ _ Hr2) as [El2 Ec2].
  exists s2, P2. split_and!; [|done| |].
  - erewrite bind_Done by exact E1. destruct upd_last; exact E2.
  - unfold tail_ok. rewrite El2. unfold upd_last, upd.
    destruct ts; simpl; [|by rewrite El1]. unfold tail_ok in Ht. rewrite E in Ht.
    case_bool_decide as Hp.
    + rewrite Ht, last_loc_prefix in Hp by done. destruct r as [|m r].
      * rewrite app_nil_r. unfold K. by rewrite last_loc_app.
      * rewrite last_loc_cons in Hp by done. symmetry in Hp. apply last_loc_elem in Hp.
        exfalso. rewrite locs_app in Hnd. apply NoDup_app in Hnd as (_ & _ & Hnd).
        simpl in Hnd. apply NoDup_cons in Hnd as [Hnd _]. done.
    + simpl. rewrite El1, Ht. destruct r as [|m r].
      * destruct Hp. rewrite Ht. unfold K. by rewrite last_loc_app.
      * rewrite !last_loc_prefix by done. by apply last_loc_cons.
  - rewrite Ec2. destruct upd_last; done.
Qed.

Lemma keep_cons_true matches n l : matches (n.2) = true -> keep matches (n :: l) = keep matches l.
Proof. intros E. unfold keep. rewrite filter_cons_False; [done|congruence]. Qed.

Lemma keep_cons_false matches n l :
  matches (n.2) = false -> keep matches (n :: l) = n :: keep matches l.
Proof. intros E. unfold keep. by rewrite filter_cons_True. Qed.

(** The node at the end of a prefix, and the rest of the queue from it. *)
Lemma queue_at s Q P own ts L1 y c L2 :
  rep s Q P own -> Q ts = L1 ++ (y, c) :: L2 ->
  exists n, heap s !! y = Some (mkItem c n) /\ lseg (heap s) n L2 None.
Proof.
  intros H E. pose proof (rep_queue _ _ _ _ H ts) as Hq. rewrite E in Hq.
  apply lseg_app in Hq as (m & _ & Hq). destruct Hq as (_ & n & Ey & Hn). eauto.
Qed.

Lemma remove_rest_loop_spec ts matches L2 fuel s Q P own L1 y c ptr result :
  rep s Q P own -> tail_ok s Q -> Q ts = L1 ++ (y, c) :: L2 ->
  lseg (heap s) ptr L2 None -> (length L2 < fuel)%nat ->
  exists s' P', remove_rest_loop ts matches fuel y ptr result s =
      Done s' (cycles_left matches (globalTimer s) L2 result) /\
    rep s' (upd ts (L1 ++ (y, c) :: keep matches L2) Q) P' own /\
    tail_ok s' (upd ts (L1 ++ (y, c) :: keep matches L2) Q) /\ clock s' = clock s.
Proof.
  revert fuel s Q P L1 y c ptr result. induction L2 as [|[p b] r IH];
    intros fuel s Q P L1 y c ptr result H Ht E Hp Hf;
    (destruct fuel as [|fuel]; [simpl in Hf; lia|]); simpl remove_rest_loop.
  - simpl in Hp. subst ptr. exists s, P. split_and!; try done.
    + eapply rep_ext; [|done|exact H]. intros b'. unfold upd.
      destruct (Bool.eqb_spec b' ts) as [->|]; [exact E|done].
    + unfold tail_ok, upd in *. destruct ts; simpl Bool.eqb; cbv iota; [|done].
      rewrite Ht. f_equal. exact E.
  - destruct Hp as (-> & n & Ep & Hn). rewrite bind_get. erewrite bind_load by exact Ep.
    cbn [base next]. destruct (matches b) eqn:Hm.
    + destruct (unlink_spec s Q P own ts L1 y c p b r n H Ht E Ep Hn)
        as (s1 & P1 & E1 & H1 & Ht1 & Ec1).
      assert (Eq1 : upd ts (L1 ++ (y, c) :: r) Q ts = L1 ++ (y, c) :: r).
      { unfold upd. by rewrite eqb_reflx. }
      destruct (queue_at s1 _ P1 own ts L1 y c r H1 Eq1) as (n1 & Ey & Hn1).
      destruct (IH fuel s1 _ P1 L1 y c n1 (s64 (time b - globalTimer s)) H1 Ht1 Eq1 Hn1)
        as (s2 & P2 & E2 & H2 & Ht2 & Ec2); [simpl in Hf; lia|].
      exists s2, P2. rewrite keep_cons_true by done. split_and!.
      * erewrite bind_seq3 by exact E1. erewrite bind_load by exact Ey. cbn [next]. rewrite E2.
        unfold clock in Ec1. injection Ec1 as _ Eg _ _. rewrite Eg. simpl. by rewrite Hm.
      * eapply rep_ext; [|done|exact H2]. intros b'. apply upd_upd.
      * unfold tail_ok in *. by rewrite upd_upd in Ht2.
      * congruence.
    + rewrite keep_cons_false by done.
      destruct (IH fuel s Q P (L1 ++ [(y, c)]) p b n result) as (s' & P' & E' & H' & Ht' & Ec');
        try done.
      { by rewrite <-app_assoc. }
      { simpl in Hf. lia. }
      rewrite <-app_assoc in H', Ht'. exists s', P'. split_and!; try done.
      rewrite E'. simpl. by rewrite Hm.
Qed.

Lemma keep_app matches l1 l2 : keep matches (l1 ++ l2) = keep matches l1 ++ keep matches l2.
Proof. apply filter_app. Qed.

Lemma upd_eq ts l (Q : bool -> list node) : upd ts l Q ts = l.
Proof. unfold upd. by rewrite eqb_reflx. Qed.

Lemma rep_upd_self s Q P own ts l : rep s Q P own -> Q ts = l -> rep s (upd ts l Q) P own.
Proof. intros H <-. eapply rep_ext; [|done|exact H]. intros b. by rewrite upd_same. Qed.

Lemma remove_matching_spec ts matches s Q P own :
  rep s Q P own -> tail_ok s Q ->
  exists s' P', remove_matching ts matches s =
      Done s' (cycles_left matches (globalTimer s) (Q ts) 0) /\
    rep s' (upd ts (keep matches (Q ts)) Q) P' own /\
    tail_ok s' (upd ts (keep matches (Q ts)) Q) /\ clock s' = clock s.
Proof.
  intros H Ht. unfold remove_matching. rewrite bind_get.
  pose proof (rep_queue _ _ _ _ H ts) as Hq. destruct (head ts s) as [hd|] eqn:Eh.
  2:{ assert (Q ts = []) as E0 by by eapply lseg_nil.
      rewrite E0. exists s, P. split_and!; try done; [by apply rep_upd_self|].
      unfold tail_ok, upd in *. rewrite Ht. destruct ts; [by rewrite E0|done]. }
  destruct (remove_head_loop_spec ts matches (list_fuel s) s Q P own 0 H
              (rep_list s Q P own ts H))
    as (s1 & P1 & L1 & L2 & El & Hk & Hn & E1 & H1 & Hr1).
  destruct (rest_inv _ _ Hr1) as [Et1 Ec1].
  erewrite bind_Done by exact E1. rewrite bind_get, El, keep_app, Hk. simpl app.
  rewrite cycles_left_app.
  pose proof (rep_queue _ _ _ _ H1 ts) as Hq1. rewrite upd_eq in Hq1.
  destruct L2 as [|[y c] L2].
  - simpl in Hq1. rewrite Hq1. rewrite app_nil_r in El.
    exists (if ts then set_tsLast None s1 else s1), P1. split_and!.
    + by destruct ts.
    + destruct ts; [by apply rep_set_tsLast|done].
    + unfold tail_ok, upd in *. destruct ts; simpl; [done|]. by rewrite Et1.
    + by destruct ts.
  - destruct Hq1 as (Hy & n & Ey & Hn1). rewrite Hy. erewrite bind_load by exact Ey. cbn [next].
    assert (Ht1 : tail_ok s1 (upd ts ((y, c) :: L2) Q)).
    { unfold tail_ok, upd in *. rewrite Et1, Ht. destruct ts; simpl Bool.eqb; cbv iota; [|done].
      rewrite El. by apply last_loc_prefix. }
    pose proof (rep_list s1 _ _ _ ts H1) as Hf. rewrite upd_eq in Hf. simpl in Hf.
    destruct (remove_rest_loop_spec ts matches L2 (list_fuel s1) s1 _ P1 own [] y c n
                (cycles_left matches (globalTimer s) L1 0) H1 Ht1)
      as (s2 & P2 & E2 & H2 & Ht2 & Ec2); [by rewrite upd_eq|done|lia|].
    exists s2, P2. rewrite E2. simpl in Hn. rewrite keep_cons_false by done. split_and!.
    + f_equal. unfold clock in Ec1. injection Ec1 as _ Eg _ _. rewrite Eg. simpl.
      by rewrite Hn.
    + eapply rep_ext; [|done|exact H2]. intros b'. apply upd_upd.
    + unfold tail_ok in *. by rewrite upd_upd in Ht2.
    + congruence.
Qed.

(** ** The states between calls *)

(** The two queues as the lists of their events. *)
Record sched (s : CoreTiming) (q tq : list BaseEvent) (own : list loc) : Prop := {
  sched_rep : exists Q P, rep s Q P own /\ (Q false).*2 = q /\ (Q true).*2 = tq /\ tail_ok s Q
}.

Fixpoint insert_sorted (e : BaseEvent) (l : list BaseEvent) : list BaseEvent :=
  match l with
  | [] => [e]
  | y :: r => if time e <? time y then e :: l else y :: insert_sorted e r
  end.

Lemma insert_event_snd n (l : list node) : (insert_event n l).*2 = insert_sorted (n.2) (l.*2).
Proof.
  induction l as [|y r IH]; [done|]. cbn [insert_event insert_sorted fmap list_fmap].
  destruct (_ <? _); [done|]. rewrite fmap_cons. by rewrite IH.
Qed.

Definition keep_events (matches : BaseEvent -> bool) (l : list BaseEvent) : list BaseEvent :=
  filter (fun e => matches e = false) l.

Lemma keep_snd matches (l : list node) : (keep matches l).*2 = keep_events matches (l.*2).
Proof.
  induction l as [|y r IH]; [done|]. destruct (matches (y.2)) eqn:E.
  - rewrite keep_cons_true, fmap_cons by done. unfold keep_events.
    rewrite filter_cons_False by congruence. exact IH.
  - rewrite keep_cons_false, !fmap_cons by done. unfold keep_events.
    rewrite filter_cons_True by done. f_equal. exact IH.
Qed.

Definition last_cycles (matches : BaseEvent -> bool) (now : Z) (l : list BaseEvent) : Z :=
  match last (filter (fun e => matches e = true) l) with
  | Some e => s64 (time e - now)
  | None => 0
  end.

Lemma cycles_left_last matches now l :
  cycles_left matches now l 0 = last_cycles matches now (l.*2).
Proof.
  induction l as [|n l IH] using rev_ind; [done|].
  rewrite cycles_left_app. simpl.
  unfold last_cycles. rewrite fmap_app, filter_app. simpl fmap.
  destruct (matches (n.2)) eqn:E.
  - rewrite filter_cons_True, filter_nil, last_app by done. done.
  - rewrite filter_cons_False, filter_nil, app_nil_r by congruence. apply IH.
Qed.

Lemma remove_matching_sched ts matches s q tq own :
  sched s q tq own ->
  exists s', remove_matching ts matches s =
      Done s' (last_cycles matches (globalTimer s) (if ts then tq else q)) /\
    sched s' (if ts then q else keep_events matches q)
      (if ts then keep_events matches tq else tq) own /\ clock s' = clock s.
Proof.
  intros [(Q & P & H & <- & <- & Ht)].
  destruct (remove_matching_spec ts matches s Q P own H Ht) as (s' & P' & E & H' & Ht' & Hc).
  exists s'. rewrite E, cycles_left_last. split_and!; [by destruct ts| |done].
  constructor. exists (upd ts (keep matches (Q ts)) Q), P'. split_and!; try done;
    unfold upd; destruct ts; simpl; by rewrite ?keep_snd.
Qed.

(** ** Scheduling *)

Lemma sched_intro s Q P own :
  rep s Q P own -> tail_ok s Q -> sched s (Q false).*2 (Q true).*2 own.
Proof. intros H Ht. constructor. by exists Q, P. Qed.

Lemma rep_counters s Q P own n b : rep s Q P own -> rep (set_counters n b s) Q P own.
Proof. by intros []; split. Qed.

Lemma rep_timer s Q P own t i : rep s Q P own -> rep (set_timer t i s) Q P own.
Proof. by intros []; split. Qed.

Lemma sched_timer s q tq own t i : sched s q tq own -> sched (set_timer t i s) q tq own.
Proof.
  intros [(Q & P & H & Eq & Et & Ht)]. constructor. exists Q, P.
  split_and!; try done. by apply rep_timer.
Qed.

Definition new_base (s : CoreTiming) (cycles event_type user : Z) : BaseEvent :=
  mkBase (s64 (GetTicks s + cycles)) user event_type.

Lemma clock_timer s s' : clock s' = clock s -> globalTimer s' = globalTimer s.
Proof. unfold clock. congruence. Qed.

Lemma ScheduleEvent_sched s q tq own cycles ty user :
  sched s q tq own ->
  exists s', ScheduleEvent cycles ty user s = Done s' tt /\
    sched s' (insert_sorted (new_base s cycles ty user) q) tq own /\ clock s' = clock s.
Proof.
  intros [(Q & P & H & <- & <- & Ht)]. unfold ScheduleEvent, GetNewEvent.
  destruct (pop_pool_spec s Q P own false H) as (s1 & x & P1 & E1 & H1 & Hr1).
  destruct (rest_inv _ _ Hr1) as [Et1 Ec1].
  erewrite bind_Done by exact E1. rewrite bind_get.
  destruct (own_lookup _ _ _ _ x H1 ltac:(mem_list)) as (e & Ex).
  erewrite bind_load by exact Ex.
  destruct (store_own s1 Q P1 (x :: own) x
      (mkItem (mkBase (s64 (GetTicks s1 + cycles)) user ty) (next e)) H1 ltac:(mem_list))
    as (s2 & E2 & H2 & Es2).
  erewrite bind_Done by exact E2.
  destruct (AddEventToQueue_spec s2 Q P1 own x
      (mkItem (mkBase (s64 (GetTicks s1 + cycles)) user ty) (next e)) H2)
    as (s3 & E3 & H3 & Hr3); [subst s2; simpl; by rewrite lookup_insert_eq|].
  destruct (rest_inv _ _ Hr3) as [Et3 Ec3].
  exists s3. split_and!; [done| |].
  - pose proof (sched_intro _ _ _ _ H3) as Hs. unfold upd in Hs at 2 3. simpl in Hs.
    rewrite insert_event_snd in Hs. simpl in Hs. unfold new_base, GetTicks in *.
    rewrite (clock_timer _ _ Ec1) in Hs. apply Hs. unfold tail_ok in *.
    unfold upd. simpl. rewrite Et3, <-Ht, <-Et1. by subst s2.
  - rewrite Ec3, <-Ec1. by subst s2.
Qed.

Lemma ScheduleEvent_Threadsafe_sched s q tq own cycles ty user :
  sched s q tq own ->
  exists s', ScheduleEvent_Threadsafe cycles ty user s = Done s' tt /\
    sched s' q (tq ++ [new_base s cycles ty user]) own /\ hasTsEvents s' = true /\
    (globalTimer s', idledCycles s', event_types s') =
    (globalTimer s, idledCycles s, event_types s).
Proof.
  intros [(Q & P & H & <- & <- & Ht)]. unfold ScheduleEvent_Threadsafe, GetNewTsEvent.
  destruct (pop_pool_spec _ Q P own true
      (rep_counters s Q P own (s32 (allocatedTsEvents s + 1)) (hasTsEvents s) H))
    as (s1 & x & P1 & E1 & H1 & Hr1).
  destruct (rest_inv _ _ Hr1) as [Et1 Ec1]. simpl in Et1.
  erewrite bind_Done; [|rewrite bind_get; exact E1]. rewrite bind_get.
  set (b := mkBase (s64 (GetTicks s1 + cycles)) user ty).
  destruct (store_own s1 Q P1 (x :: own) x (mkItem b None) H1 ltac:(mem_list))
    as (s2 & E2 & H2 & Es2).
  erewrite bind_Done by exact E2.
  assert (Hx2 : heap s2 !! x = Some (mkItem b None)) by (subst s2; apply lookup_insert_eq).
  assert (Hx : x ∉ locs (Q true)) by (by apply (rep_disjoint s2 Q P1 (x :: own) x true H2); left).
  destruct (rep_relink s2 Q P1 (x :: own) true (Q true) [] [(x, b)] (Some x) own H2)
    as (s3 & E3 & H3 & Hr3).
  { by rewrite app_nil_r. }
  { simpl. eauto. }
  { intros y Hy. simpl in Hy. by apply list_elem_of_singleton in Hy as ->. }
  { unfold all_locs, upd. simpl Bool.eqb. cbv iota. perm. }
  { intros y Hy. left. mem_list. }
  destruct (rest_inv _ _ Hr3) as [Et3 Ec3].
  assert (Elast : tsLast s1 = last_loc (Q true)) by by rewrite Et1.
  assert (Hlink : (modify (fun s => match tsFirst s with
                                    | None => set_head true (Some x) s
                                    | Some _ => s end) ;;
                   match tsLast s1 with
                   | None => ret tt
                   | Some last => set_next last (Some x)
                   end)%hle s2 = Done s3 tt).
  { rewrite Elast. pose proof (rep_queue _ _ _ _ H2 true) as Hq. simpl in Hq.
    unfold bind, modify. destruct (Q true) as [|n r] eqn:EQ.
    - simpl in Hq. rewrite Hq. exact E3.
    - destruct n as [y c]. destruct Hq as (Hq & _). rewrite Hq.
      destruct (last_loc ((y, c) :: r)) eqn:El; [exact E3|].
      unfold last_loc in El. by rewrite last_cons in El; destruct (last r). }
  rewrite bind_assoc. erewrite bind_Done by exact Hlink.
  eexists. split; [done|]. simpl.
  assert (Ec : clock s3 = clock s) by (rewrite Ec3; subst s2; exact Ec1).
  split_and!; [|done|unfold clock in Ec; congruence].
  pose proof (sched_intro (set_counters (allocatedTsEvents s3) true (set_tsLast (Some x) s3))
    _ _ _ (rep_counters _ _ _ _ _ _ (rep_set_tsLast _ _ _ _ (Some x) H3))) as Hs.
  unfold upd in Hs at 2 3. simpl in Hs. rewrite fmap_app in Hs. simpl in Hs.
  unfold new_base, GetTicks in *. unfold b in Hs.
  assert (Eg : globalTimer s1 = globalTimer s) by exact (clock_timer _ _ Ec1).
  rewrite Eg in Hs. apply Hs. unfold tail_ok, upd. simpl. by rewrite last_loc_app.
Qed.

(** ** Moving and clearing *)

(** Operations that neither read nor write [tsFirst]. *)
Definition outcome_map {A} (f : CoreTiming -> CoreTiming) (o : outcome CoreTiming A)
    : outcome CoreTiming A :=
  match o with
  | Done s a => Done (f s) a
  | Failed s rc => Failed (f s) rc
  | Aborted => Aborted
  end.

Definition blind {A} (m : op CoreTiming A) : Prop :=
  forall q s, m (set_head true q s) = outcome_map (set_head true q) (m s).

Lemma blind_bind {A B} (m : op CoreTiming A) (k : A -> op CoreTiming B) :
  blind m -> (forall a, blind (k a)) -> blind (bind m k).
Proof.
  intros Hm Hk q s. unfold bind. rewrite (Hm q s). destruct (m s) as [s' a| |]; simpl; try done.
  apply Hk.
Qed.

Lemma blind_ret {A} (a : A) : blind (ret a).
Proof. by intros q s. Qed.

Lemma blind_load x : blind (load x).
Proof. intros q s. unfold load. simpl. by destruct (heap s !! x). Qed.

Lemma blind_set_next x p : blind (set_next x p).
Proof.
  apply blind_bind; [apply blind_load|]. intros e q s. unfold store. simpl.
  by destruct (heap s !! x).
Qed.

Lemma blind_AddEventToQueue_loop fuel x prev nx : blind (AddEventToQueue_loop fuel x prev nx).
Proof.
  revert prev nx. induction fuel as [|fuel IH]; intros prev nx; [by intros q s|].
  simpl. apply blind_bind.
  - destruct nx; [|apply blind_ret].
    repeat (apply blind_bind; [apply blind_load|]; intros ?). apply blind_ret.
  - intros [[] nx']; simpl; [|apply IH].
    apply blind_bind; [apply blind_set_next|]. intros _.
    destruct prev; [apply blind_set_next|]. intros q s. by destruct s.
Qed.

Lemma AddEventToQueue_set_head x q s s' :
  AddEventToQueue x (set_head true q s) = Done s' tt ->
  (AddEventToQueue x ;; modify (set_head true q))%hle s = Done s' tt.
Proof.
  unfold AddEventToQueue at 1. rewrite bind_get.
  change (list_fuel (set_head true q s)) with (list_fuel s).
  change (first (set_head true q s)) with (first s).
  rewrite (blind_AddEventToQueue_loop _ _ _ _ q s).
  unfold bind, AddEventToQueue, get, modify, bind.
  destruct (AddEventToQueue_loop _ _ _ _ s) as [s0 []| |]; simpl; congruence.
Qed.

Lemma MoveEvents_loop_spec fuel s Q P own :
  rep s Q P own -> (length (Q true) < fuel)%nat ->
  exists s' P', MoveEvents_loop fuel s = Done s' tt /\
    rep s' (upd true [] (upd false (foldl (fun l n => insert_event n l) (Q false) (Q true)) Q)) P' own /\
    rest s' = rest s.
Proof.
  remember (Q true) as l eqn:E. symmetry in E. revert fuel s Q P E.
  induction l as [|[x b] r IH]; intros fuel s Q P E H Hf;
    (destruct fuel as [|fuel]; [simpl in Hf; lia|]); simpl MoveEvents_loop; rewrite bind_get.
  - pose proof (rep_queue _ _ _ _ H true) as Hq. rewrite E in Hq. simpl in Hq. rewrite Hq.
    exists s, P. split_and!; try done. eapply rep_ext; [|done|exact H].
    intros []; unfold upd; simpl; done.
  - destruct (pop_head s Q P own true x b r H E) as (Eh & n & Ex & H1). simpl in Eh. rewrite Eh.
    erewrite bind_load by exact Ex. cbn [next].
    destruct (AddEventToQueue_spec _ _ P own x (mkItem b n) H1) as (s1 & E1 & H2 & Hr1); [done|].
    cbn [base] in H2.
    apply AddEventToQueue_set_head in E1. rewrite bind_assoc. erewrite bind_Done by exact E1.
    destruct (fun HQ => IH fuel s1 _ P HQ H2) as (s2 & P2 & E2 & H3 & Hr2);
      [done|simpl in Hf; lia|].
    exists s2, P2. split_and!; [done| |by rewrite Hr2, Hr1].
    eapply rep_ext; [|done|exact H3]. intros []; unfold upd; simpl; done.
Qed.

Lemma MovePool_loop_spec fuel s Q P own :
  rep s Q P own -> (length (P false) < fuel)%nat ->
  exists s' P', MovePool_loop fuel s = Done s' tt /\ rep s' Q P' own /\ rest s' = rest s.
Proof.
  remember (P false) as l eqn:E. symmetry in E. revert fuel s P E.
  induction l as [|[x b] r IH]; intros fuel s P E H Hf;
    (destruct fuel as [|fuel]; [simpl in Hf; lia|]); simpl MovePool_loop; rewrite bind_get.
  - pose proof (rep_pool _ _ _ _ H false) as Hp. rewrite E in Hp. simpl in Hp. rewrite Hp.
    exists s, P. by split_and!.
  - destruct (pop_pool_node s Q P own false x b r H E) as (Ep & n & Ex & H1). simpl in Ep.
    rewrite Ep. destruct (0 <? allocatedTsEvents s); [|exists s, P; by split_and!].
    erewrite bind_load by exact Ex. cbn [base next].
    erewrite bind_Done by (unfold modify; reflexivity).
    destruct (store_own _ Q _ (x :: own) x (mkItem b (eventTsPool s)) H1 ltac:(mem_list))
      as (s2 & E2 & H2 & Es2).
    erewrite bind_Done by exact E2.
    erewrite bind_Done by (unfold modify; reflexivity).
    erewrite bind_Done by (unfold modify; reflexivity).
    assert (Hx2 : heap s2 !! x = Some (mkItem b (pool true s2)))
      by (subst s2; apply lookup_insert_eq).
    pose proof (push_pool s2 Q _ own true x b H2 Hx2) as H3.
    destruct (fun HP => IH fuel _ _ HP
        (rep_counters _ _ _ _ (s32 (allocatedTsEvents s - 1)) (hasTsEvents s) H3))
      as (s4 & P4 & E4 & H4 & Hr4); [done|simpl in Hf; lia|].
    exists s4, P4. split_and!; [done|done|]. rewrite Hr4. by subst s2.
Qed.

Lemma rep_pool_list s Q P own ts : rep s Q P own -> (length (P ts) < list_fuel s)%nat.
Proof.
  intros H. pose proof (lseg_length _ _ _ _ (rep_NoDup_pool _ _ _ _ ts H) (rep_pool _ _ _ _ H ts)).
  unfold list_fuel. lia.
Qed.

Lemma foldl_insert_snd (l1 l2 : list node) :
  (foldl (fun l n => insert_event n l) l1 l2).*2 =
  foldl (fun l e => insert_sorted e l) l1.*2 l2.*2.
Proof.
  revert l1. induction l2 as [|n l2 IH]; intros l1; [done|]. simpl.
  rewrite <-insert_event_snd. apply IH.
Qed.

Lemma MoveEvents_sched s q tq own :
  sched s q tq own ->
  exists s', MoveEvents s = Done s' tt /\
    sched s' (foldl (fun l e => insert_sorted e l) q tq) [] own /\
    clock s' = (false, globalTimer s, idledCycles s, event_types s).
Proof.
  intros [(Q & P & H & <- & <- & Ht)]. unfold MoveEvents. rewrite bind_get.
  erewrite bind_Done by (unfold modify; reflexivity).
  destruct (MoveEvents_loop_spec (list_fuel s) _ Q P own
      (rep_counters s Q P own (allocatedTsEvents s) false H)) as (s1 & P1 & E1 & H1 & Hr1).
  { by eapply rep_list. }
  destruct (rest_inv _ _ Hr1) as [_ Ec1].
  erewrite bind_Done by exact E1. erewrite bind_Done by (unfold modify; reflexivity).
  rewrite bind_get.
  destruct (MovePool_loop_spec (list_fuel (set_tsLast None s1)) _ _ _ _
              (rep_set_tsLast _ _ _ _ None H1)) as (s2 & P2 & E2 & H2 & Hr2).
  { apply (rep_pool_list _ _ _ _ false H1). }
  destruct (rest_inv _ _ Hr2) as [Et2 Ec2].
  exists s2. split_and!; [done| |].
  - constructor. eexists _, P2. split_and!; [exact H2|apply foldl_insert_snd|done|].
    unfold tail_ok, upd. simpl. by rewrite Et2.
  - rewrite Ec2. exact Ec1.
Qed.

Lemma ClearPendingEvents_loop_spec fuel s Q P own :
  rep s Q P own -> (length (Q false) < fuel)%nat ->
  exists s' P', ClearPendingEvents_loop fuel s = Done s' tt /\
    rep s' (upd false [] Q) P' own /\ rest s' = rest s.
Proof.
  remember (Q false) as l eqn:E. symmetry in E. revert fuel s Q P E.
  induction l as [|[x b] r IH]; intros fuel s Q P E H Hf;
    (destruct fuel as [|fuel]; [simpl in Hf; lia|]); simpl ClearPendingEvents_loop;
    rewrite bind_get.
  - pose proof (rep_queue _ _ _ _ H false) as Hq. rewrite E in Hq. simpl in Hq. rewrite Hq.
    exists s, P. split_and!; try done. by apply rep_upd_self.
  - destruct (free_head s Q P own false x b r H E) as (Eh & n & s1 & P1 & Ex & E1 & H1 & Hr1).
    simpl in Eh. rewrite Eh. erewrite bind_load by exact Ex. cbn [next].
    rewrite bind_assoc. erewrite bind_Done by exact E1.
    destruct (fun HQ => IH fuel s1 _ P1 HQ H1) as (s2 & P2 & E2 & H2 & Hr2);
      [done|simpl in Hf; lia|].
    exists s2, P2. split_and!; [done| |congruence].
    eapply rep_ext; [|done|exact H2]. intros b'. apply upd_upd.
Qed.

Lemma ClearPendingEvents_sched s q tq own :
  sched s q tq own ->
  exists s', ClearPendingEvents s = Done s' tt /\ sched s' [] tq own /\ clock s' = clock s.
Proof.
  intros [(Q & P & H & <- & <- & Ht)]. unfold ClearPendingEvents. rewrite bind_get.
  destruct (ClearPendingEvents_loop_spec (list_fuel s) s Q P own H) as (s1 & P1 & E1 & H1 & Hr1).
  { by eapply rep_list. }
  destruct (rest_inv _ _ Hr1) as [Et1 Ec1]. exists s1. split_and!; [done| |done].
  constructor. exists (upd false [] Q), P1. split_and!; try done.
  unfold tail_ok, upd in *. simpl. congruence.
Qed.

Lemma IsScheduled_loop_spec ty fuel s p l :
  lseg (heap s) p l None -> (length l < fuel)%nat ->
  IsScheduled_loop ty fuel p s = Done s (existsb (fun e => type e =? ty) l.*2).
Proof.
  revert fuel p. induction l as [|[x b] l IH]; intros fuel p Hp Hf;
    (destruct fuel as [|fuel]; [simpl in Hf; lia|]); simpl in *.
  - by subst p.
  - destruct Hp as (-> & n & Ex & Hn). erewrite bind_load by exact Ex. cbn [base next].
    destruct (type b =? ty); [done|]. simpl. apply IH; [done|lia].
Qed.

Lemma IsScheduled_sched s q tq own ty :
  sched s q tq own -> IsScheduled ty s = Done s (existsb (fun e => type e =? ty) q).
Proof.
  intros [(Q & P & H & <- & <- & Ht)]. unfold IsScheduled. rewrite bind_get.
  apply IsScheduled_loop_spec; [apply (rep_queue _ _ _ _ H false)|by eapply rep_list].
Qed.

(** ** Order *)

Definition sorted (l : list BaseEvent) : Prop :=
  StronglySorted (fun a b => time a <= time b) l.

Lemma insert_sorted_elem e l x : x ∈ insert_sorted e l <-> x = e \/ x ∈ l.
Proof.
  induction l as [|y l IH]; simpl; [mem_list|]. destruct (_ <? _).
  - by rewrite !elem_of_cons.
  - rewrite !elem_of_cons, IH. tauto.
Qed.

Lemma insert_sorted_sorted e l : sorted l -> sorted (insert_sorted e l).
Proof.
  unfold sorted. induction l as [|y l IH]; simpl; intros Hs; [repeat constructor|].
  apply StronglySorted_inv in Hs as [Hs Hy]. rewrite Forall_forall in Hy.
  destruct (Z.ltb_spec (time e) (time y)); constructor.
  - constructor; [done|]. by apply Forall_forall.
  - apply Forall_forall. intros x [->|Hx]%elem_of_cons; [lia|]. specialize (Hy x Hx). lia.
  - auto.
  - apply Forall_forall. intros x [->|Hx]%insert_sorted_elem; [lia|]. auto.
Qed.

Lemma foldl_insert_sorted l q : sorted q -> sorted (foldl (fun l e => insert_sorted e l) q l).
Proof. revert q. induction l; simpl; auto using insert_sorted_sorted. Qed.

Definition due (now : Z) (l : list BaseEvent) : list BaseEvent :=
  filter (fun e => time e <= now) l.

Lemma due_insert now e l : now < time e -> due now (insert_sorted e l) = due now l.
Proof.
  intros He. unfold due. induction l as [|y l IH]; simpl.
  - rewrite filter_cons_False by lia. done.
  - destruct (_ <? _); [by rewrite filter_cons_False by lia|].
    destruct (decide (time y <= now)).
    + rewrite !filter_cons_True by done. by f_equal.
    + by rewrite !filter_cons_False by done.
Qed.

Lemma due_foldl now new l :
  Forall (fun e => now < time e) new ->
  due now (foldl (fun l e => insert_sorted e l) l new) = due now l.
Proof.
  intros Hn. revert l. induction Hn as [|e new He Hn IH]; intros l; [done|]. simpl.
  by rewrite IH, due_insert.
Qed.

Lemma due_nil now l : sorted l -> due now l = [] -> Forall (fun e => now < time e) l.
Proof.
  unfold due. intros Hs Hd. apply Forall_forall. intros x Hx.
  destruct (Z.lt_ge_cases now (time x)); [done|].
  assert (Hin : x ∈ filter (fun e => time e <= now) l) by by apply list_elem_of_filter.
  rewrite Hd in Hin. by apply elem_of_nil in Hin.
Qed.

(** The number of a list's due events only depends on the clock. *)
Lemma due_head now e l : sorted (e :: l) -> now < time e -> due now (e :: l) = [].
Proof.
  intros Hs He. apply StronglySorted_inv in Hs as [_ Hs]. unfold due.
  rewrite filter_cons_False by lia. rewrite Forall_forall in Hs.
  destruct (filter _ l) as [|x r] eqn:E; [done|].
  assert (Hx : x ∈ filter (fun e => time e <= now) l) by (rewrite E; left).
  apply list_elem_of_filter in Hx as [Hx Hin]. specialize (Hs x Hin). lia.
Qed.

(** ** Running events *)

Lemma lift_Done {World A} (m : op CoreTiming A) (w : World) s s' a :
  m s = Done s' a -> lift m (w, s) = Done (w, s') a.
Proof. intros E. unfold lift. by rewrite E. Qed.

Lemma sched_first_nil s tq own : sched s [] tq own -> first s = None.
Proof.
  intros [(Q & P & H & E & _)]. apply fmap_nil_inv in E.
  pose proof (rep_queue _ _ _ _ H false) as Hq. by rewrite E in Hq.
Qed.

Lemma pop_event s e r tq own :
  sched s (e :: r) tq own ->
  exists x n, first s = Some x /\ heap s !! x = Some (mkItem e n) /\
    sched (set_head false n s) r tq (x :: own).
Proof.
  intros [(Q & P & H & Eq & Et & Ht)]. destruct (Q false) as [|[x b] l] eqn:E; [done|].
  injection Eq as -> <-. destruct (pop_head s Q P own false x e l H E) as (Eh & n & Ex & H1).
  exists x, n. split_and!; [done|done|]. constructor. exists (upd false l Q), P.
  by split_and!.
Qed.

Lemma Free_sched s q tq own x :
  sched s q tq (x :: own) ->
  exists s', FreeEvent x s = Done s' tt /\ sched s' q tq own /\ clock s' = clock s.
Proof.
  intros [(Q & P & H & Eq & Et & Ht)].
  destruct (Free_spec s Q P own false x H) as (s' & P' & E & H' & Hr).
  destruct (rest_inv _ _ Hr) as [El Ec]. exists s'. split_and!; [done| |done].
  constructor. exists Q, P'. split_and!; try done. unfold tail_ok in *. congruence.
Qed.

Section Run.
Context {World : Type}.
Variable call : Callback -> Z -> Z -> op (World * CoreTiming) unit.
Variable advanceCallback : option (Z -> op (World * CoreTiming) unit).
(** The clock while the events run, and the number of event types. *)
Variable now : Z.
Variable types : nat.

(** What the callbacks are assumed to do.  They return; [effect cb user late w q] is what
    one does to the rest of the emulator and to the pending events: it may schedule
    events later than the due time of its own, [now - late] (such as the next one of a
    regular series, [ScheduleEvent(period - cyclesLate)]), may remove pending events, and
    may schedule others through the thread-safe queue; the clock and the event
    types stay. *)
Variable effect : Callback -> Z -> Z -> World -> list BaseEvent -> World * list BaseEvent.

Definition valid_type (e : BaseEvent) : Prop := 0 <= type e < Z.of_nat types.

Hypothesis call_effect : forall cb user late w s q tq own,
  sched s q tq own -> sorted q -> globalTimer s = now -> is_s32 late ->
  exists s' tq', call cb user late (w, s) = Done (fst (effect cb user late w q), s') tt /\
    sched s' (snd (effect cb user late w q)) tq' own /\
    globalTimer s' = now /\ event_types s' = event_types s.

Hypothesis effect_later : forall cb user late w q, sorted q -> is_s32 late ->
  sorted (snd (effect cb user late w q)) /\
  exists new, snd (effect cb user late w q) ⊆+ new ++ q /\
    Forall (fun e => now - late < time e /\ valid_type e) new.

(** *** The abstract scheduler *)

(** While the first pending event is due, it is removed and its callback runs, with the
    cycles that it is late: the events that run, in this order, and what is left. *)
Inductive drained (s : CoreTiming) : World * list BaseEvent -> list BaseEvent -> World * list BaseEvent -> Prop :=
  | drained_done w q : due now q = [] -> drained s (w, q) [] (w, q)
  | drained_run w e q cb ran final :
      time e <= now -> callback_of (type e) s = Some cb ->
      drained s (effect cb (userdata e) (s32 (now - time e)) w q) ran final ->
      drained s (w, e :: q) (e :: ran) final.

(** No callback schedules an event before its own. *)
Lemma run_later e cb w q : sorted (e :: q) -> time e <= now ->
  let q1 := snd (effect cb (userdata e) (s32 (now - time e)) w q) in
  sorted q1 /\ exists new, q1 ⊆+ new ++ q /\ Forall (fun x => time e < time x /\ valid_type x) new.
Proof.
  intros [Hs _]%StronglySorted_inv Hd q1.
  destruct (effect_later cb (userdata e) (s32 (now - time e)) w q Hs) as (H1 & new & Hsub & Hnew).
  { apply s32_range. }
  split; [done|]. exists new. split; [done|]. eapply Forall_impl; [exact Hnew|]. intros x [Hx Hv].
  split; [|done]. assert (s32 (now - time e) <= now - time e) by word_lia. lia.
Qed.

Lemma drained_above s a ran final b : drained s a ran final ->
  sorted (snd a) -> Forall (fun x => b <= time x) (snd a) -> Forall (fun x => b <= time x) ran.
Proof.
  intros H. revert b. induction H as [w q Hd|w e q cb ran final Hd Hcb H IH]; intros b Hs Hb; [constructor|].
  simpl in Hs, Hb. apply Forall_cons in Hb as [He Hq]. constructor; [done|].
  destruct (run_later e cb w q Hs Hd) as (Hs1 & new & Hsub & Hnew). apply IH; [exact Hs1|].
  rewrite list.Forall_forall in Hq, Hnew |- *. intros x Hx.
  apply (elem_of_submseteq _ _ _ Hx) in Hsub. apply elem_of_app in Hsub as [Hn|Hn]; [|auto].
  destruct (Hnew x Hn). lia.
Qed.

Lemma drained_due s w e q ran final : drained s (w, e :: q) ran final -> time e <= now ->
  exists cb ran', drained s (effect cb (userdata e) (s32 (now - time e)) w q) ran' final.
Proof.
  intros H Hd. inversion H as [? ? Hn|? ? ? cb ran' ? _ _ Hnext]; subst; [|eauto].
  unfold due in Hn. by rewrite filter_cons_True in Hn.
Qed.

Lemma drained_end s w q ran final : drained s (w, q) ran final -> due now q = [] -> final = (w, q).
Proof.
  intros H Hn. inversion H as [|? e r cb ran' ? Hd _ _]; subst; [done|].
  unfold due in Hn. by rewrite filter_cons_True in Hn.
Qed.

(** The events run in the order of their times. *)
Lemma drained_sorted s a ran final : drained s a ran final -> sorted (snd a) -> sorted ran.
Proof.
  induction 1 as [w q Hd|w e q cb ran final Hd Hcb H IH]; intros Hs; [constructor|].
  simpl in Hs. destruct (run_later e cb w q Hs Hd) as (Hs1 & new & Hsub & Hnew).
  constructor; [by apply IH|]. apply (drained_above s _ ran final _ H Hs1).
  apply StronglySorted_inv in Hs as [_ Hq]. rewrite list.Forall_forall in Hq, Hnew |- *. intros x Hx.
  apply (elem_of_submseteq _ _ _ Hx) in Hsub. apply elem_of_app in Hsub as [Hn|Hn]; [|auto].
  destruct (Hnew x Hn). lia.
Qed.

Lemma drained_types s s' a ran final : event_types s = event_types s' ->
  drained s a ran final -> drained s' a ran final.
Proof.
  intros E. induction 1 as [w q Hd|w e q cb ran final Hd Hcb H IH]; [by constructor|].
  apply (drained_run _ w e q cb); [done| |exact IH]. unfold callback_of. by rewrite <- E.
Qed.

Lemma valid_merged q tq : Forall valid_type q -> Forall valid_type tq ->
  Forall valid_type (foldl (fun l e => insert_sorted e l) q tq).
Proof.
  intros Hq Ht. revert q Hq. induction Ht as [|e tq He Ht IH]; intros q Hq; [done|]. simpl. apply IH.
  rewrite list.Forall_forall in Hq |- *. intros x [->|Hx]%insert_sorted_elem; auto.
Qed.

(** *** The loop *)

(** One round, when the first event is due. *)
Lemma Process_round w s e q tq own :
  sched s (e :: q) tq own -> sorted (e :: q) -> globalTimer s = now -> length (event_types s) = types ->
  Forall valid_type (e :: q) -> time e <= now ->
  exists cb s1 tq1, callback_of (type e) s = Some cb /\
    let r := effect cb (userdata e) (s32 (now - time e)) w q in
    (forall fuel, ProcessFifoWaitEvents call (S fuel) (w, s) = ProcessFifoWaitEvents call fuel (fst r, s1)) /\
    sched s1 (snd r) tq1 own /\ globalTimer s1 = now /\ event_types s1 = event_types s /\
    Forall valid_type (snd r).
Proof.
  intros Hsch Hs Hg Hty Hv Hd.
  destruct (pop_event _ _ _ _ _ Hsch) as (x & n & Ef & Ex & H1).
  apply Forall_cons in Hv as [He Hq].
  assert (Hcb : exists cb, callback_of (type e) s = Some cb).
  { unfold callback_of, valid_type in *. rewrite (proj2 (Z.leb_le _ _)) by lia.
    destruct (lookup_lt_is_Some_2 (event_types s) (Z.to_nat (type e))) as [ty ->]; [lia|]. by eexists. }
  destruct Hcb as [cb Hcb].
  pose proof Hs as [Hs' _]%StronglySorted_inv.
  destruct (call_effect cb (userdata e) (s32 (now - time e)) w _ _ _ _ H1 Hs' Hg (s32_range _))
    as (s1 & tq1 & E1 & H2 & Hg1 & Ht1). simpl in Hg1, Ht1.
  destruct (Free_sched _ _ _ _ _ H2) as (s2 & E2 & H3 & Ec). injection Ec as _ Eg2 _ Et2.
  exists cb, s2, tq1. split; [done|]. cbv zeta. split_and!; [|done|congruence|congruence|].
  - intros fuel. simpl ProcessFifoWaitEvents at 1. erewrite bind_Done by (simpl; reflexivity). rewrite Ef.
    erewrite bind_Done by (apply lift_Done; unfold load; rewrite Ex; reflexivity).
    cbn [base next]. rewrite Hg, (proj2 (Z.leb_le _ _) Hd).
    erewrite bind_Done by (apply lift_Done; unfold modify; reflexivity). rewrite Hcb.
    erewrite bind_Done by exact E1.
    by erewrite bind_Done by (apply lift_Done; exact E2).
  - destruct (run_later e cb w q Hs Hd) as (_ & new & Hsub & Hnew).
    rewrite list.Forall_forall in Hq, Hnew |- *. intros y Hy.
    apply (elem_of_submseteq _ _ _ Hy) in Hsub. apply elem_of_app in Hsub as [Hn|Hn]; [|auto].
    by apply Hnew.
Qed.

(** The loop ends when no event is due. *)
Lemma Process_end w s q tq own fuel :
  sched s q tq own -> sorted q -> globalTimer s = now ->
  match q with [] => True | e :: _ => now < time e end ->
  ProcessFifoWaitEvents call (S fuel) (w, s) = Done (w, s) tt /\ due now q = [].
Proof.
  intros Hsch Hs Hg Hq. simpl ProcessFifoWaitEvents. erewrite bind_Done by (simpl; reflexivity).
  destruct q as [|e q]; [by rewrite (sched_first_nil _ _ _ Hsch)|].
  destruct (pop_event _ _ _ _ _ Hsch) as (x & n & Ef & Ex & _). rewrite Ef.
  erewrite bind_Done by (apply lift_Done; unfold load; rewrite Ex; reflexivity).
  cbn [base next]. rewrite Hg, (proj2 (Z.leb_gt _ _) Hq). split; [done|by apply due_head].
Qed.

(** The events that are late by exactly [d] cycles. *)
Definition late_by (d : nat) (q : list BaseEvent) : list BaseEvent :=
  filter (fun e => time e = now - Z.of_nat d) q.

Lemma filter_submseteq (P : BaseEvent -> Prop) `{forall x, Decision (P x)} l k :
  l ⊆+ k -> filter P l ⊆+ filter P k.
Proof.
  induction 1 as [|x l k H1 IH|x y l|x l k H1 IH|l k m H1 IH1 H2 IH2]; [done|..].
  - rewrite !filter_cons. case_decide; [by apply submseteq_skip|done].
  - rewrite !filter_cons. repeat case_decide; try done. apply submseteq_swap.
  - rewrite filter_cons. case_decide; [by apply submseteq_cons|done].
  - by etrans.
Qed.

(** A round leaves fewer of the latest events, and none that is later still. *)
Lemma round_decreases d e q new q1 :
  time e = now - Z.of_nat d -> q1 ⊆+ new ++ q -> Forall (fun x => time e < time x /\ valid_type x) new ->
  (length (late_by d q1) < length (late_by d (e :: q)))%nat.
Proof.
  intros He Hsub Hnew. unfold late_by at 2. rewrite filter_cons_True by done. simpl.
  apply Nat.lt_succ_r. apply (filter_submseteq (fun e => time e = now - Z.of_nat d)), submseteq_length in Hsub.
  rewrite filter_app, length_app in Hsub.
  assert (En : filter (fun e => time e = now - Z.of_nat d) new = []).
  { clear Hsub. induction Hnew as [|x new [Hx _] Hn IH]; [done|]. rewrite filter_cons_False by lia. done. }
  rewrite En in Hsub. exact Hsub.
Qed.

Lemma Process_drains d : forall c w s q tq own,
  sched s q tq own -> sorted q -> globalTimer s = now -> length (event_types s) = types ->
  Forall valid_type q -> Forall (fun e => now - Z.of_nat d <= time e) q -> (length (late_by d q) <= c)%nat ->
  exists N ran w' s' q' tq',
    (forall fuel, (N <= fuel)%nat -> ProcessFifoWaitEvents call fuel (w, s) = Done (w', s') tt) /\
    drained s (w, q) ran (w', q') /\ sched s' q' tq' own /\ sorted q' /\ due now q' = [] /\
    globalTimer s' = now.
Proof.
  induction d as [d IHd] using lt_wf_ind. induction c as [c IHc] using lt_wf_ind.
  intros w s q tq own Hsch Hs Hg Hty Hv Hd Hc.
  assert (Hend : match q with [] => True | e :: _ => now < time e end \/
                 exists e r, q = e :: r /\ time e <= now).
  { destruct q as [|e r]; [by left|]. destruct (Z.lt_ge_cases now (time e)); [by left|eauto]. }
  destruct Hend as [Hend|(e & r & -> & Hdue)].
  { exists 1%nat, [], w, s, q, tq. destruct (Process_end w s q tq own 0 Hsch Hs Hg Hend) as [_ Hnil].
    split_and!; try done; [|by constructor]. intros [|fuel] Hf; [lia|]. by eapply Process_end. }
  apply Forall_cons in Hd as [He Hr]. destruct (Z.eq_dec (time e) (now - Z.of_nat d)) as [Heq|Hne].
  - destruct (Process_round w s e r tq own Hsch Hs Hg Hty Hv Hdue)
      as (cb & s1 & tq1 & Hcb & Hstep & Hsch1 & Hg1 & Ht1 & Hv1).
    destruct (run_later e cb w r Hs Hdue) as (Hs1 & new & Hsub & Hnew).
    pose proof (round_decreases d e r new _ Heq Hsub Hnew) as Hlt.
    set (x := effect _ _ _ _ _) in *.
    destruct (IHc (length (late_by d (snd x))) ltac:(lia) (fst x) s1 (snd x) tq1 own)
      as (N & ran & w' & s' & q' & tq' & Hrun & Hdr & H'); try done.
    { by rewrite Ht1. }
    { rewrite list.Forall_forall in Hr, Hnew |- *. intros y Hy.
      apply (elem_of_submseteq _ _ _ Hy) in Hsub. apply elem_of_app in Hsub as [Hn|Hn]; [|auto].
      destruct (Hnew y Hn). lia. }
    exists (S N), (e :: ran), w', s', q', tq'. split_and!; try apply H'.
    + intros [|fuel] Hf; [lia|]. rewrite Hstep. apply Hrun. lia.
    + eapply drained_run; [done|exact Hcb|]. fold x. rewrite (surjective_pairing x).
      by apply (drained_types s1).
  - destruct d as [|d]; [lia|].
    apply (IHd d ltac:(lia) (length (late_by d (e :: r))) w s (e :: r) tq own); try done.
    constructor; [lia|]. apply StronglySorted_inv in Hs as [_ Hs].
    rewrite list.Forall_forall in Hs |- *. intros y Hy. specialize (Hs y Hy). lia.
Qed.

Lemma latest q : exists d : nat, Forall (fun e => now - Z.of_nat d <= time e) q.
Proof.
  induction q as [|e q [d IH]]; [exists 0%nat; constructor|].
  exists (Nat.max d (Z.to_nat (now - time e))). constructor; [lia|].
  eapply Forall_impl; [exact IH|]. intros x Hx. simpl in Hx. lia.
Qed.

(** C35: [Advance] moves the clock on by one cycle, merges the events that other
    threads scheduled into the queue, and then does what the abstract scheduler
    does ([drained]): the first event that is due is removed and runs with the cycles it is
    late, again and again, those that callbacks schedule meanwhile included, in
    order of time, until no due event is left; and it ends.  The callbacks are assumed
    to return, and to schedule only events later than the due time of their own, as
    one that repeats with a positive period does ([call_effect], [effect_later]). *)
Theorem Advance_runs_due w s q tq :
  advanceCallback = None -> sched s q tq [] -> sorted q ->
  (tq <> [] -> hasTsEvents s = true) -> length (event_types s) = types ->
  Forall valid_type q -> Forall valid_type tq -> now = s64 (globalTimer s + 1) ->
  let pending := foldl (fun l e => insert_sorted e l) q tq in
  exists N ran w' s' q' tq',
    (forall fuel, (N <= fuel)%nat -> Advance call advanceCallback fuel (w, s) = Done (w', s') tt) /\
    drained s (w, pending) ran (w', q') /\ sorted ran /\
    sched s' q' tq' [] /\ sorted q' /\ due now q' = [] /\ globalTimer s' = now.
Proof.
  intros Hadv H Hs Hflag Hty Hvq Hvt Hnow pending.
  apply (sched_timer _ _ _ _ now (idledCycles s)) in H as H1.
  assert (Hmid : exists s2,
    (if hasTsEvents s then lift MoveEvents else ret tt) (w, set_timer now (idledCycles s) s) =
      Done (w, s2) tt /\
    sched s2 pending [] [] /\ globalTimer s2 = now /\ event_types s2 = event_types s).
  { destruct (hasTsEvents s) eqn:Eh.
    - destruct (MoveEvents_sched _ _ _ _ H1) as (s2 & E2 & H2 & Ec2).
      exists s2. unfold clock in Ec2. injection Ec2 as _ Eg _ Ety.
      split; [by apply lift_Done|]. split_and!; done.
    - assert (Htq : tq = []).
      { destruct tq as [|e0 l0]; [reflexivity|]. assert (false = true) by by apply Hflag. done. }
      unfold pending. subst tq. by exists (set_timer now (idledCycles s) s). }
  destruct Hmid as (s2 & E2 & H2 & Eg2 & Et2).
  assert (Hp : sorted pending) by by apply foldl_insert_sorted.
  destruct (latest pending) as [d Hd].
  destruct (Process_drains d (length (late_by d pending)) w s2 pending [] [] H2 Hp Eg2)
    as (N & ran & w' & s' & q' & tq' & Hrun & Hdr & H'); try done.
  { by rewrite Et2. }
  { by apply valid_merged. }
  apply (drained_types s2 s) in Hdr; [|done].
  exists N, ran, w', s', q', tq'. split_and!; try apply H'; [|done|by apply (drained_sorted _ _ _ _ Hdr)].
  intros fuel Hf. unfold Advance. erewrite bind_Done by (simpl; reflexivity).
  erewrite bind_Done by (apply lift_Done; unfold modify; reflexivity). rewrite <- Hnow.
  erewrite bind_Done by exact E2. erewrite bind_Done by (by apply Hrun). by rewrite Hadv.
Qed.
End Run.

(** ** The initial state *)

Definition ct_init (types : list EventType) : CoreTiming :=
  mkCT ∅ None None None None None 0 false 0 0 types.

Lemma sched_init types : sched (ct_init types) [] [] [].
Proof.
  constructor. exists (fun _ => []), (fun _ => []). split_and!; try done. split.
  - by intros [].
  - by intros [].
  - constructor.
  - intros x Hx. by apply elem_of_nil in Hx.
Qed.

(** ** Reachable states *)

Definition ct_wf (s : CoreTiming) : Prop :=
  exists q tq, sched s q tq [] /\ sorted q /\ (tq <> [] -> hasTsEvents s = true).

(** One call of the scheduler's interface, or a change of the clock. *)
Inductive ct_step : CoreTiming -> CoreTiming -> Prop :=
  | step_Schedule c ty u s s' : ScheduleEvent c ty u s = Done s' tt -> ct_step s s'
  | step_ScheduleTs c ty u s s' : ScheduleEvent_Threadsafe c ty u s = Done s' tt -> ct_step s s'
  | step_Unschedule ty u s s' r : UnscheduleEvent ty u s = Done s' r -> ct_step s s'
  | step_UnscheduleTs ty u s s' r : UnscheduleThreadsafeEvent ty u s = Done s' r -> ct_step s s'
  | step_Remove ty s s' : RemoveAllEvents ty s = Done s' tt -> ct_step s s'
  | step_Move s s' : MoveEvents s = Done s' tt -> ct_step s s'
  | step_Clear s s' : ClearPendingEvents s = Done s' tt -> ct_step s s'
  | step_Register nm cb s s' r : RegisterEvent nm cb s = Done s' r -> ct_step s s'
  | step_timer t i s : ct_step s (set_timer t i s).

Lemma keep_events_sorted m q : sorted q -> sorted (keep_events m q).
Proof.
  unfold sorted, keep_events. induction 1 as [|e l Hs IH Hf]; [constructor|].
  destruct (decide (m e = false)).
  - rewrite filter_cons_True by done. constructor; [done|].
    rewrite Forall_forall in Hf |- *. intros x [_ Hx]%list_elem_of_filter. auto.
  - by rewrite filter_cons_False.
Qed.

Lemma keep_events_nil m (q : list BaseEvent) : keep_events m q <> [] -> q <> [].
Proof. by intros H ->. Qed.

Lemma remove_step ts m s s' r :
  ct_wf s -> remove_matching ts m s = Done s' r -> ct_wf s'.
Proof.
  intros (q & tq & H & Hs & Hfl) E.
  destruct (remove_matching_sched ts m s q tq [] H) as (s1 & E1 & H1 & Ec).
  rewrite E in E1. injection E1 as <- _. unfold clock in Ec. injection Ec as Eh _ _ _.
  eexists _, _. split; [exact H1|]. rewrite Eh.
  destruct ts; split; eauto using keep_events_sorted, keep_events_nil.
Qed.

Lemma ct_step_wf s s' : ct_step s s' -> ct_wf s -> ct_wf s'.
Proof.
  intros Hstep Hwf. pose proof Hwf as (q & tq & H & Hs & Hfl). destruct Hstep as
    [c ty u s s' E|c ty u s s' E|ty u s s' r E|ty u s s' r E|ty s s' E|s s' E|s s' E
    |nm cb s s' r E|t i s].
  - destruct (ScheduleEvent_sched _ _ _ _ c ty u H) as (s1 & E1 & H1 & Ec).
    rewrite E in E1. injection E1 as <-. unfold clock in Ec. injection Ec as Eh _ _ _.
    eexists _, _. split; [exact H1|]. rewrite Eh. auto using insert_sorted_sorted.
  - destruct (ScheduleEvent_Threadsafe_sched _ _ _ _ c ty u H) as (s1 & E1 & H1 & Eh & _).
    rewrite E in E1. injection E1 as <-. eexists _, _. split; [exact H1|]. auto.
  - eapply remove_step; eauto.
  - eapply remove_step; eauto.
  - unfold RemoveAllEvents, RemoveThreadsafeEvent, RemoveEvent, bind, ret in E.
    destruct (remove_matching true _ s) as [s1 r1| |] eqn:E1; [|done|done].
    apply remove_step in E1; [|done].
    destruct (remove_matching false _ s1) as [s2 r2| |] eqn:E2; [|done|done].
    injection E as <-. exact (remove_step _ _ _ _ _ E1 E2).
  - destruct (MoveEvents_sched _ _ _ _ H) as (s1 & E1 & H1 & _).
    rewrite E in E1. injection E1 as <-. eexists _, _. split; [exact H1|].
    split; [by apply foldl_insert_sorted|done].
  - destruct (ClearPendingEvents_sched _ _ _ _ H) as (s1 & E1 & H1 & Ec).
    rewrite E in E1. injection E1 as <-. unfold clock in Ec. injection Ec as Eh _ _ _.
    eexists _, _. split; [exact H1|]. rewrite Eh. split; [constructor|done].
  - injection E as <- _. exists q, tq. split_and!; try done. destruct H as [(Q & P & H & ?)].
    constructor. exists Q, P. split; [|done]. by destruct H; split.
  - exists q, tq. split_and!; try done. by apply sched_timer.
Qed.

(** in every reachable state of the scheduler the queues and pools are disjoint,
    null-terminated lists, [tsLast] is the last node of the thread-safe queue, the
    queue is sorted by time, and the flag that lets [Advance] skip [MoveEvents] is
    set whenever a thread-safe event waits. *)
Theorem ct_reachable_wf s s' : rtc ct_step s s' -> ct_wf s -> ct_wf s'.
Proof. induction 1; eauto using ct_step_wf. Qed.

Lemma insert_sorted_split e l :
  sorted l ->
  insert_sorted e l =
    filter (fun x => time x <= time e) l ++ e :: filter (fun x => time e < time x) l.
Proof.
  unfold sorted. induction 1 as [|y l Hs IH Hy]; [done|]. simpl insert_sorted.
  destruct (Z.ltb_spec (time e) (time y)).
  - rewrite (filter_cons_False (fun x => time x <= time e)) by lia.
    rewrite (filter_cons_True (fun x => time e < time x)) by lia.
    assert (E1 : filter (fun x => time x <= time e) l = []).
    { destruct (filter _ l) as [|z r] eqn:E; [done|].
      assert (Hz : z ∈ filter (fun x => time x <= time e) l) by (rewrite E; left).
      apply list_elem_of_filter in Hz as [Hz1 Hz2]. rewrite Forall_forall in Hy.
      specialize (Hy z Hz2). lia. }
    rewrite E1. simpl. f_equal. f_equal. clear IH Hs E1. symmetry.
    rewrite Forall_forall in Hy. induction l as [|z l IHl]; [done|].
    rewrite filter_cons_True; [|specialize (Hy z ltac:(left)); lia].
    f_equal. apply IHl. intros x Hx. apply Hy. by right.
  - rewrite (filter_cons_True (fun x => time x <= time e)) by lia.
    rewrite (filter_cons_False (fun x => time e < time x)) by lia. simpl. by rewrite IH.
Qed.

(** C12: on well-formed pointer structures no operation fails or loops, and each
    does to the two queues what its name says: [ScheduleEvent] puts the event
    after every event that is not later; [ScheduleEvent_Threadsafe] appends it;
    the removal functions keep exactly the other events, in order, and return the
    cycles left of the last one removed; [MoveEvents] empties the thread-safe
    queue into the main one. *)
Theorem scheduler_refines s q tq :
  sched s q tq [] -> sorted q ->
  (forall c ty u, let e := new_base s c ty u in
     exists s', ScheduleEvent c ty u s = Done s' tt /\
     sched s' (filter (fun x => time x <= time e) q ++ e :: filter (fun x => time e < time x) q)
       tq []) /\
  (forall c ty u, exists s', ScheduleEvent_Threadsafe c ty u s = Done s' tt /\
     sched s' q (tq ++ [new_base s c ty u]) []) /\
  (forall ty u, exists s',
     UnscheduleEvent ty u s = Done s' (last_cycles (is_event ty u) (globalTimer s) q) /\
     sched s' (keep_events (is_event ty u) q) tq []) /\
  (forall ty u, exists s',
     UnscheduleThreadsafeEvent ty u s = Done s' (last_cycles (is_event ty u) (globalTimer s) tq) /\
     sched s' q (keep_events (is_event ty u) tq) []) /\
  (forall ty, exists s', RemoveAllEvents ty s = Done s' tt /\
     sched s' (keep_events (fun e => type e =? ty) q) (keep_events (fun e => type e =? ty) tq) []) /\
  (exists s', MoveEvents s = Done s' tt /\
     sched s' (foldl (fun l e => insert_sorted e l) q tq) [] []) /\
  (exists s', ClearPendingEvents s = Done s' tt /\ sched s' [] tq []) /\
  (forall ty, IsScheduled ty s = Done s (existsb (fun e => type e =? ty) q)).
Proof.
  intros H Hs. split_and!.
  - intros c ty u e. destruct (ScheduleEvent_sched _ _ _ _ c ty u H) as (s' & E & H' & _).
    exists s'. split; [done|]. by rewrite insert_sorted_split in H'.
  - intros c ty u. destruct (ScheduleEvent_Threadsafe_sched _ _ _ _ c ty u H) as (s' & E & H' & _).
    eauto.
  - intros ty u. destruct (remove_matching_sched false (is_event ty u) _ _ _ _ H) as (s' & E & H' & _).
    eauto.
  - intros ty u. destruct (remove_matching_sched true (is_event ty u) _ _ _ _ H) as (s' & E & H' & _).
    eauto.
  - intros ty. destruct (remove_matching_sched true (fun e => type e =? ty) _ _ _ _ H)
      as (s1 & E1 & H1 & _).
    destruct (remove_matching_sched false (fun e => type e =? ty) _ _ _ _ H1)
      as (s2 & E2 & H2 & _).
    exists s2. split; [|done]. unfold RemoveAllEvents, RemoveThreadsafeEvent, RemoveEvent.
    unfold bind. rewrite E1. simpl. by rewrite E2.
  - destruct (MoveEvents_sched _ _ _ _ H) as (s' & E & H' & _). eauto.
  - destruct (ClearPendingEvents_sched _ _ _ _ H) as (s' & E & H' & _). eauto.
  - intros ty. by eapply IsScheduled_sched.
Qed.

(** [Idle] never passes the next event, but it does not reach it either unless
    it is given a large enough [maxIdle]: with the default argument 0, or a
    negative one, it advances the clock by a single cycle however far the next
    event is. *)
Theorem Idle_cycles_bounds maxIdle t now :
  is_s32 maxIdle -> is_s64 (t - now) ->
  let n := Idle_cycles maxIdle (Some t) now in
  0 <= n /\ (0 < n -> now + n <= t) /\ (n = 0 <-> t <= now) /\
  (maxIdle <= 0 -> now < t -> n = 1) /\
  (now < t -> n = t - now <-> t - now <= Z.max 1 maxIdle).
Proof.
  intros Hm Ht. unfold Idle_cycles. cbv zeta.
  assert (E : s64 (t - now) = t - now) by word_lia. rewrite E.
  assert (Hs : t - now < 2147483648 -> 0 <= t - now -> s32 (t - now) = t - now) by word_lia.
  unfold is_s32 in Hm. set (m := if 0 <? maxIdle then maxIdle else 1).
  assert (Hmx : m = Z.max 1 maxIdle) by (unfold m; zcase; lia). clearbody m.
  rewrite (proj2 (Z.ltb_lt 0 m)) by lia.
  destruct (Z.leb_spec (t - now) 0); [split_and!; lia|].
  destruct (Z.ltb_spec (t - now) m); [rewrite Hs by lia|]; split_and!; lia.
Qed.
End CoreTiming.
Arguments CoreTiming : clear implicits.
Arguments EventType : clear implicits.

Lemma ct_reachable_wf_witness : exists s,
  rtc ct_step (ct_init (Callback := nat) []) s /\ ct_wf s /\ ScheduleEvent 5 0 42 (ct_init []) = Done s tt.
Proof.
  destruct (ScheduleEvent_sched (Callback := nat) _ _ _ _ 5 0 42 (sched_init [])) as (s & E & _).
  exists s. assert (Hs : rtc ct_step (ct_init (Callback := nat) []) s)
    by (apply rtc_once, (step_Schedule 5 0 42), E).
  split_and!; [exact Hs| |exact E]. apply (ct_reachable_wf _ _ Hs).
  exists [], []. split_and!; [apply sched_init|constructor|intros H; destruct (H eq_refl)].
Defined.

Lemma scheduler_refines_witness : exists s',
  ScheduleEvent 5 0 42 (ct_init (Callback := nat) []) = Done s' tt /\
  sched s' [mkBase 5 42 0] [] [].
Proof.
  destruct (scheduler_refines (Callback := nat) (ct_init []) [] [] (sched_init []))
    as (H & _); [constructor|].
  destruct (H 5 0 42) as (s' & E & Hs). exists s'. split; [exact E|exact Hs].
Defined.

(** A callback that keeps a record of its lateness and schedules its event again, two
    cycles after it was due. *)
Definition every_two (cb : nat) (user late : Z) : op (list Z * CoreTiming nat) unit :=
  fun '(w, s) => lift (ScheduleEvent (2 - late) 0 user) (w ++ [late], s).

Definition every_two_effect (cb : nat) (user late : Z) (w : list Z) (q : list BaseEvent)
    : list Z * list BaseEvent :=
  (w ++ [late], insert_sorted (mkBase (s64 (u64 1 + (2 - late))) user 0) q).

Lemma every_two_call cb user late w (s : CoreTiming nat) q tq own :
  sched s q tq own -> globalTimer s = 1 ->
  exists s' tq', every_two cb user late (w, s) = Done (fst (every_two_effect cb user late w q), s') tt /\
    sched s' (snd (every_two_effect cb user late w q)) tq' own /\
    globalTimer s' = 1 /\ event_types s' = event_types s.
Proof.
  intros H Hg. destruct (ScheduleEvent_sched s q tq own (2 - late) 0 user H) as (s' & E & H' & Ec).
  exists s', tq. unfold clock in Ec. injection Ec as _ Eg _ Et.
  unfold new_base, GetTicks in H'. rewrite Hg in H', Eg.
  split_and!; [|exact H'|done|done]. unfold every_two, lift. by rewrite E.
Qed.

Lemma every_two_later cb user late w q : sorted q -> is_s32 late ->
  sorted (snd (every_two_effect cb user late w q)) /\
  exists new, snd (every_two_effect cb user late w q) ⊆+ new ++ q /\
    Forall (fun e => 1 - late < time e /\ valid_type 1 e) new.
Proof.
  intros Hs Hl. split; [by apply insert_sorted_sorted|].
  exists [mkBase (s64 (u64 1 + (2 - late))) user 0]. split.
  - simpl. apply Permutation_submseteq. generalize (mkBase (s64 (u64 1 + (2 - late))) user 0). intros e.
    induction q as [|x q IH]; simpl; [done|]. destruct (time e <? time x); [done|].
    apply StronglySorted_inv in Hs as [Hs _]. rewrite (IH Hs). apply Permutation_swap.
  - constructor; [|constructor]. unfold valid_type, is_s32 in *. simpl. split; [|lia].
    change (u64 1) with 1. assert (s64 (1 + (2 - late)) = 1 + (2 - late)) as -> by word_lia. lia.
Qed.

Lemma every_two_round (s : CoreTiming nat) t w ran final : -100 < t <= 1 ->
  drained 1 every_two_effect s (w, [mkBase t 42 0]) ran final ->
  exists ran', drained 1 every_two_effect s (w ++ [1 - t], [mkBase (t + 2) 42 0]) ran' final.
Proof.
  intros Ht H. destruct (drained_due _ _ _ _ _ _ _ _ H (proj2 Ht)) as (cb & ran' & H').
  exists ran'. unfold every_two_effect in H'. cbn [insert_sorted userdata time] in H'.
  assert (Ef : s32 (1 - t) = 1 - t) by word_lia.
  assert (Et : s64 (u64 1 + (2 - (1 - t))) = t + 2) by word_lia.
  by rewrite Ef, Et in H'.
Qed.

(** An event that is six cycles late when the clock is at 1: it runs four times, until
    it is not due any more. *)
Lemma Advance_runs_due_witness : exists s1 N s',
  ScheduleEvent (-5) 0 42 (ct_init [mkEventType 7%nat "tick"]) = Done s1 tt /\
  forall fuel, (N <= fuel)%nat -> Advance every_two None fuel ([], s1) = Done ([6; 4; 2; 0], s') tt.
Proof.
  destruct (ScheduleEvent_sched _ _ _ _ (-5) 0 42 (sched_init [mkEventType 7%nat "tick"]))
    as (s1 & E1 & H1 & Ec).
  unfold clock in Ec. injection Ec as Eh Eg _ Et.
  destruct (Advance_runs_due every_two None 1 1 every_two_effect) with (w := @nil Z)
    (s := s1) (q := [mkBase (-5) 42 0]) (tq := @nil BaseEvent)
    as (N & ran & w' & s' & q' & tq' & Hrun & Hdr & _).
  - intros cb user late w s q tq own H _ Hg _. exact (every_two_call cb user late w s q tq own H Hg).
  - exact every_two_later.
  - reflexivity.
  - exact H1.
  - repeat constructor.
  - intros H. destruct (H eq_refl).
  - rewrite Et. reflexivity.
  - constructor; [split; vm_compute; congruence|constructor].
  - constructor.
  - rewrite Eg. reflexivity.
  - exists s1, N, s'. split; [exact E1|].
    destruct (every_two_round s1 (-5) [] _ _ ltac:(lia) Hdr) as [r1 D1].
    destruct (every_two_round s1 (-3) [6] _ _ ltac:(lia) D1) as [r2 D2].
    destruct (every_two_round s1 (-1) [6; 4] _ _ ltac:(lia) D2) as [r3 D3].
    destruct (every_two_round s1 1 [6; 4; 2] _ _ ltac:(lia) D3) as [r4 D4].
    pose proof (drained_end _ _ _ _ _ _ _ D4 eq_refl) as Hend. injection Hend as -> _. exact Hrun.
Defined.

Lemma Idle_cycles_bounds_witness :
  Idle_cycles 0 (Some 1000000) 10 = 1.
Proof.
  apply (proj1 (proj2 (proj2 (proj2 (Idle_cycles_bounds 0 1000000 10 ltac:(word_lia) ltac:(word_lia)))))); lia.
Defined.
