(* ===== verification/VMManager.v ===== *)
(** * VMManager: a process's virtual address space (core/hle/kernel/vm_manager.cpp, vm_manager.h)

    The [std::map] of areas is the list of its values in key order; an iterator
    is a split of the list into the areas before it and the areas from it on, as
    in [StdSet].  The page table, its mapping functions and the page mask belong
    to the memory system, which is not part of the repository in the form used
    here: they are parameters. *)
From S2P Require Import Prelude Result StdSet.

Local Open Scope Z_scope.

(** ** common/memory_ref.h *)

(** A host allocation: its address and size. *)
Record BackingMem := mkMem { mem_ptr : Z; mem_size : Z }.

Record MemoryRef := mkRef { backing_mem : option BackingMem; offset : Z }.

Definition null_ref : MemoryRef := mkRef None 0.

(** The cached [cptr] and [csize]; the null pointer is 0. *)
Definition GetPtr (m : MemoryRef) : Z :=
  match backing_mem m with
  | Some b => mem_ptr b + offset m
  | None => 0
  end.

Definition GetSize (m : MemoryRef) : Z :=
  match backing_mem m with
  | Some b => mem_size b - offset m
  | None => 0
  end.

(** [operator+=] and [operator+]; both assert that the result is inside. *)
Definition ref_add {S} (m : MemoryRef) (offset_by : Z) : op S MemoryRef :=
  (assert_ (offset_by <? GetSize m) ;;
   ret (mkRef (backing_mem m) (offset m + offset_by)))%hle.

(** ** Data *)

Inductive VMAType := VMA_Free | BackingMemory.

Inductive VMAPermission :=
  | None_ | Read | Write | Execute | ReadWrite | ReadExecute | WriteExecute | ReadWriteExecute.

Definition VMAPermission_value (p : VMAPermission) : Z :=
  match p with
  | None_ => 0
  | Read => 1
  | Write => 2
  | Execute => 4
  | ReadWrite => 3
  | ReadExecute => 5
  | WriteExecute => 6
  | ReadWriteExecute => 7
  end.

Inductive MemoryState :=
  | MS_Free | Reserved | IO | Static | Code | Private | Shared | Continuous | Aliased | Alias
  | AliasCode | Locked.

#[export] Instance VMAType_eq_dec : EqDecision VMAType.
Proof. solve_decision. Defined.
#[export] Instance VMAPermission_eq_dec : EqDecision VMAPermission.
Proof. solve_decision. Defined.
#[export] Instance MemoryState_eq_dec : EqDecision MemoryState.
Proof. solve_decision. Defined.

Record VirtualMemoryArea := mkVMA {
  base : Z;
  size : Z;
  vtype : VMAType;
  permissions : VMAPermission;
  meminfo_state : MemoryState;
  backing_memory : MemoryRef
}.

Definition MAX_ADDRESS : Z := 0x40000000.

Definition vma_end (v : VirtualMemoryArea) : Z := base v + size v.

Definition with_size (n : Z) (v : VirtualMemoryArea) : VirtualMemoryArea :=
  mkVMA (base v) n (vtype v) (permissions v) (meminfo_state v) (backing_memory v).

Definition VMAIter : Type := list VirtualMemoryArea * list VirtualMemoryArea.

(** [CanBeMergedWith], after its assertion. *)
Definition mergeable (v next : VirtualMemoryArea) : bool :=
  if negb (bool_decide (permissions v = permissions next)) ||
     negb (bool_decide (meminfo_state v = meminfo_state next)) ||
     negb (bool_decide (vtype v = vtype next)) then false
  else if bool_decide (vtype v = BackingMemory) &&
          negb (GetPtr (backing_memory v) + size v =? GetPtr (backing_memory next)) then false
  else true.

Definition CanBeMergedWith {S} (v next : VirtualMemoryArea) : op S bool :=
  (assert_ (u32 (base v + size v) =? base next) ;; ret (mergeable v next))%hle.

(** No two neighbours could have been merged. *)
Abbreviation normal := (chain (fun v w => mergeable v w = false)).

(** No two neighbours are free. *)
Abbreviation joined := (chain (fun v w => vtype v = VMA_Free -> vtype w <> VMA_Free)).

Section VMManager.
Context {PageTable : Type} (empty_table : PageTable).
Variable MapMemoryRegion : PageTable -> Z -> Z -> MemoryRef -> PageTable.
Variable UnmapRegion : PageTable -> Z -> Z -> PageTable.
Variable CITRA_PAGE_MASK : Z.

Record VMManager := mkVMM {
  vma_map : list VirtualMemoryArea;
  page_table : PageTable;
  is_locked : bool
}.

Definition set_map (l : list VirtualMemoryArea) : op VMManager unit := fun s =>
  Done (mkVMM l (page_table s) (is_locked s)) tt.

Definition UpdatePageTableForVMA (v : VirtualMemoryArea) : op VMManager unit := fun s =>
  Done (mkVMM (vma_map s)
          match vtype v with
          | VMA_Free => UnmapRegion (page_table s) (base v) (size v)
          | BackingMemory => MapMemoryRegion (page_table s) (base v) (size v) (backing_memory v)
          end (is_locked s)) tt.

Definition assert_unlocked : op VMManager unit :=
  (s <- get ;; assert_ (negb (is_locked s)))%hle.

Definition initial_vma : VirtualMemoryArea :=
  mkVMA 0 MAX_ADDRESS VMA_Free None_ MS_Free null_ref.

Definition Reset : op VMManager unit :=
  (assert_unlocked ;;
   (fun s => Done (mkVMM [initial_vma] empty_table (is_locked s)) tt) ;;
   UpdatePageTableForVMA initial_vma)%hle.

(** [end()] is the split with an empty right part; [std::prev(begin())] is an
    invalid access. *)
Definition FindVMA (target : Z) : op VMManager VMAIter :=
  (s <- get ;;
   if MAX_ADDRESS <=? target then ret (vma_map s, [])
   else
     match iter_prev (span (fun v => base v <=? target) (vma_map s)) with
     | None => fun _ => Aborted
     | Some (pre, v, suf) => ret (pre, v :: suf)
     end)%hle.

(** [*it] *)
Definition deref (it : VMAIter) : op VMManager VirtualMemoryArea :=
  match snd it with
  | [] => fun _ => Aborted
  | v :: _ => ret v
  end.

(** [SplitVMA]: the left part keeps the iterator, the right part is returned. *)
Definition SplitVMA (it : VMAIter) (offset_in_vma : Z) : op VMManager VMAIter :=
  (old_vma <- deref it ;;
   assert_ (offset_in_vma <? size old_vma) ;;
   assert_ (0 <? offset_in_vma) ;;
   backing <- match vtype old_vma with
              | VMA_Free => ret (backing_memory old_vma)
              | BackingMemory => ref_add (backing_memory old_vma) offset_in_vma
              end ;;
   let new_vma := mkVMA (u32 (base old_vma + offset_in_vma)) (u32 (size old_vma - offset_in_vma))
                    (vtype old_vma) (permissions old_vma) (meminfo_state old_vma) backing in
   let old_vma := with_size offset_in_vma old_vma in
   ok <- CanBeMergedWith old_vma new_vma ;;
   assert_ ok ;;
   set_map (fst it ++ old_vma :: new_vma :: tl (snd it)) ;;
   ret (fst it ++ [old_vma], new_vma :: tl (snd it)))%hle.

Definition MergeAdjacent (it : VMAIter) : op VMManager VMAIter :=
  (v <- deref it ;;
   let* (v, suf) := match tl (snd it) with
                | [] => ret (v, [])
                | next_vma :: suf =>
                    b <- CanBeMergedWith v next_vma ;;
                    ret (if b then (with_size (u32 (size v + size next_vma)) v, suf)
                         else (v, next_vma :: suf))
                end in
   let* (pre, v) := match iter_prev (fst it, v :: suf) with
                | None => ret (fst it, v)
                | Some (pre, prev_vma, _) =>
                    b <- CanBeMergedWith prev_vma v ;;
                    ret (if b then (pre, with_size (u32 (size prev_vma + size v)) prev_vma)
                         else (fst it, v))
                end in
   set_map (pre ++ v :: suf) ;;
   ret (pre, v :: suf))%hle.

Definition CarveVMA (base_ size_ : Z) : op VMManager VMAIter :=
  (assert_ (Z.land size_ CITRA_PAGE_MASK =? 0) ;;
   assert_ (Z.land base_ CITRA_PAGE_MASK =? 0) ;;
   vma_handle <- FindVMA base_ ;;
   match snd vma_handle with
   | [] => fail ResultInvalidAddress
   | v :: _ =>
       R_UNLESS (bool_decide (vtype v = VMA_Free)) ResultInvalidAddressState ;;
       let start_in_vma := u32 (base_ - base v) in
       let end_in_vma := u32 (start_in_vma + size_) in
       R_UNLESS (end_in_vma <=? size v) ResultInvalidAddressState ;;
       vma_handle <-
         (if negb (end_in_vma =? size v) then
            let* (pre, suf) := SplitVMA vma_handle end_in_vma in
            match iter_prev (pre, suf) with
            | None => fun _ => Aborted
            | Some (pre, v, suf) => ret (pre, v :: suf)
            end
          else ret vma_handle) ;;
       if negb (start_in_vma =? 0) then SplitVMA vma_handle start_in_vma else ret vma_handle
   end)%hle.

(** The areas from an iterator up to [lower_bound(target_end)]. *)
Definition until (target_end : Z) (it : VMAIter) : list VirtualMemoryArea :=
  fst (span (fun v => base v <? target_end) (snd it)).

Definition CarveVMARange (target size_ : Z) : op VMManager VMAIter :=
  (assert_ (Z.land size_ CITRA_PAGE_MASK =? 0) ;;
   assert_ (Z.land target CITRA_PAGE_MASK =? 0) ;;
   let target_end := u32 (target + size_) in
   assert_ (target <=? target_end) ;;
   assert_ (target_end <=? MAX_ADDRESS) ;;
   assert_ (0 <? size_) ;;
   begin_vma <- FindVMA target ;;
   R_UNLESS (negb (existsb (fun v => bool_decide (vtype v = VMA_Free)) (until target_end begin_vma)))
     ResultInvalidAddressState ;;
   v <- deref begin_vma ;;
   begin_vma <- (if negb (target =? base v)
                 then SplitVMA begin_vma (u32 (target - base v)) else ret begin_vma) ;;
   end_vma <- FindVMA target_end ;;
   match snd end_vma with
   | [] => ret begin_vma
   | e :: _ =>
       if negb (target_end =? base e) then
         SplitVMA end_vma (u32 (target_end - base e)) ;;
         (* the iterator [begin_vma] stays valid: it is found again by its key *)
         FindVMA target
       else ret begin_vma
   end)%hle.

(** [vma->second = v] *)
Definition assign_vma (it : VMAIter) (v : VirtualMemoryArea) : op VMManager VMAIter :=
  (set_map (fst it ++ v :: tl (snd it)) ;; ret (fst it, v :: tl (snd it)))%hle.

Definition MapBackingMemory (target : Z) (memory : MemoryRef) (size_ : Z) (state : MemoryState)
    : op VMManager VMAIter :=
  (assert_unlocked ;;
   assert_ (negb (GetPtr memory =? 0)) ;;
   vma_handle <- CarveVMA target size_ ;;
   final_vma <- deref vma_handle ;;
   assert_ (size final_vma =? size_) ;;
   let final_vma := mkVMA (base final_vma) (size final_vma) BackingMemory ReadWrite state memory in
   vma_handle <- assign_vma vma_handle final_vma ;;
   UpdatePageTableForVMA final_vma ;;
   MergeAdjacent vma_handle)%hle.

(** The area found is dereferenced before it is compared with [end()]. *)
Definition MapBackingMemoryToBase (base_ region_size : Z) (memory : MemoryRef) (size_ : Z)
    (state : MemoryState) : op VMManager Z :=
  (assert_unlocked ;;
   s <- get ;;
   let fits v := bool_decide (vtype v = VMA_Free) &&
                 ((base_ <? u32 (base v + size v)) && (u32 (base_ + size_) <=? u32 (base v + size v))) in
   v <- match find fits (vma_map s) with
        | None => fun _ => Aborted
        | Some v => ret v
        end ;;
   let target := Z.max base_ (base v) in
   R_UNLESS (u32 (target + size_) <=? u32 (base_ + region_size)) ResultOutOfMemory ;;
   MapBackingMemory target memory size_ state ;;
   ret target)%hle.

Definition Unmap (vma_handle : VMAIter) : op VMManager VMAIter :=
  (assert_unlocked ;;
   v <- deref vma_handle ;;
   let v := mkVMA (base v) (size v) VMA_Free None_ MS_Free null_ref in
   vma_handle <- assign_vma vma_handle v ;;
   UpdatePageTableForVMA v ;;
   MergeAdjacent vma_handle)%hle.

Definition Reprotect (vma_handle : VMAIter) (new_perms : VMAPermission) : op VMManager VMAIter :=
  (assert_unlocked ;;
   v <- deref vma_handle ;;
   let v := mkVMA (base v) (size v) (vtype v) new_perms (meminfo_state v) (backing_memory v) in
   vma_handle <- assign_vma vma_handle v ;;
   UpdatePageTableForVMA v ;;
   MergeAdjacent vma_handle)%hle.

(** The body of the loop of [ChangeMemoryState]. *)
Definition change_state (new_state : MemoryState) (new_perms : VMAPermission) (vma_handle : VMAIter)
    : op VMManager VMAIter :=
  (v <- deref vma_handle ;;
   let v := mkVMA (base v) (size v) (vtype v) new_perms new_state (backing_memory v) in
   vma_handle <- assign_vma vma_handle v ;;
   UpdatePageTableForVMA v ;;
   MergeAdjacent vma_handle)%hle.

(** [std::next] *)
Definition iter_next (it : VMAIter) : op VMManager VMAIter :=
  match snd it with
  | [] => fun _ => Aborted
  | v :: suf => ret (fst it ++ [v], suf)
  end.

(** [while (vma != end && vma->second.base < target_end) vma = next(body(vma));] *)
Fixpoint range_loop (body : VMAIter -> op VMManager VMAIter) (target_end : Z) (fuel : nat)
    (vma : VMAIter) : op VMManager unit :=
  match fuel with
  | O => fun _ => Aborted
  | S fuel =>
      match snd vma with
      | [] => ret tt
      | v :: _ =>
          if base v <? target_end then
            (vma <- body vma ;;
             vma <- iter_next vma ;;
             range_loop body target_end fuel vma)%hle
          else ret tt
      end
  end.

Definition run_range (body : VMAIter -> op VMManager VMAIter) (target_end : Z) (vma : VMAIter)
    : op VMManager unit :=
  range_loop body target_end (S (length (snd vma))) vma.

Definition UnmapRange (target size_ : Z) : op VMManager unit :=
  (assert_unlocked ;;
   vma <- CarveVMARange target size_ ;;
   let target_end := u32 (target + size_) in
   run_range Unmap target_end vma ;;
   it <- FindVMA target ;;
   v <- deref it ;;
   assert_ (size_ <=? size v))%hle.

Definition ReprotectRange (target size_ : Z) (new_perms : VMAPermission) : op VMManager unit :=
  (assert_unlocked ;;
   vma <- CarveVMARange target size_ ;;
   let target_end := u32 (target + size_) in
   run_range (fun it => Reprotect it new_perms) target_end vma)%hle.

(** The check that [ChangeMemoryState] makes of every area of the range. *)
Definition state_ok (expected_state : MemoryState) (expected_perms : VMAPermission)
    (v : VirtualMemoryArea) : bool :=
  let perms := VMAPermission_value expected_perms in
  bool_decide (meminfo_state v = expected_state) &&
  (Z.land (VMAPermission_value (permissions v)) perms =? perms).

Definition ChangeMemoryState (target size_ : Z) (expected_state : MemoryState)
    (expected_perms : VMAPermission) (new_state : MemoryState) (new_perms : VMAPermission)
    : op VMManager unit :=
  (s <- get ;;
   if is_locked s then ret tt
   else
     let target_end := u32 (target + size_) in
     begin_vma <- FindVMA target ;;
     R_UNLESS (negb (bool_decide (snd begin_vma = []))) ResultInvalidAddress ;;
     R_UNLESS (forallb (state_ok expected_state expected_perms) (until target_end begin_vma))
       ResultInvalidAddressState ;;
     vma <- CarveVMARange target size_ ;;
     run_range (change_state new_state new_perms) target_end vma)%hle.

Definition Unlock : op VMManager unit := fun s => Done (mkVMM (vma_map s) (page_table s) false) tt.

Fixpoint GetBackingBlocks_loop (fuel : nat) (interval_target end_ : Z)
    (backing_blocks : list (MemoryRef * Z)) : op VMManager (list (MemoryRef * Z)) :=
  match fuel with
  | O => fun _ => Aborted
  | S fuel =>
      if interval_target =? end_ then ret backing_blocks
      else
        (it <- FindVMA interval_target ;;
         v <- deref it ;;
         R_UNLESS (bool_decide (vtype v = BackingMemory)) ResultInvalidAddressState ;;
         let interval_end := Z.min end_ (u32 (base v + size v)) in
         let interval_size := u32 (interval_end - interval_target) in
         backing <- ref_add (backing_memory v) (u32 (interval_target - base v)) ;;
         GetBackingBlocks_loop fuel (u32 (interval_target + interval_size)) end_
           (backing_blocks ++ [(backing, interval_size)]))%hle
  end.

Definition GetBackingBlocksForRange (address size_ : Z) : op VMManager (list (MemoryRef * Z)) :=
  (s <- get ;;
   GetBackingBlocks_loop (S (length (vma_map s))) address (u32 (address + size_)) [])%hle.

(** ** The address map that a list of areas stands for *)

(** The areas cover [[lo, hi)] without gaps or overlaps. *)
Fixpoint tiles (lo hi : Z) (l : list VirtualMemoryArea) : Prop :=
  match l with
  | [] => lo = hi
  | v :: r => base v = lo /\ 0 < size v /\ tiles (vma_end v) hi r
  end.

Definition inside (v : VirtualMemoryArea) (a : Z) : bool := (base v <=? a) && (a <? vma_end v).

(** The attributes of an address: type, permissions, state and host pointer. *)
Definition attributes : Type := VMAType * VMAPermission * MemoryState * Z.

Definition view (v : VirtualMemoryArea) (a : Z) : attributes :=
  (vtype v, permissions v, meminfo_state v,
   match vtype v with
   | VMA_Free => 0
   | BackingMemory => GetPtr (backing_memory v) + (a - base v)
   end).

Definition attr (l : list VirtualMemoryArea) (a : Z) : option attributes :=
  (fun v => view v a) <$> find (fun v => inside v a) l.

Lemma tiles_le lo hi l : tiles lo hi l -> lo <= hi.
Proof.
  revert lo. induction l as [|v l IH]; intros lo; simpl; [lia|].
  intros (<- & Hs & H%IH). unfold vma_end in H. lia.
Qed.

Lemma tiles_app lo hi l1 l2 :
  tiles lo hi (l1 ++ l2) <-> exists m, tiles lo m l1 /\ tiles m hi l2.
Proof.
  revert lo. induction l1 as [|v l1 IH]; intros lo; simpl.
  - split; [eauto|]. by intros (m & -> & H).
  - split.
    + intros (H1 & H2 & H). apply IH in H as (m & H3 & H4). eauto 10.
    + intros (m & (H1 & H2 & H3) & H4). split_and!; try done. apply IH. eauto.
Qed.

Lemma tiles_bound lo hi l v : tiles lo hi l -> v ∈ l -> lo <= base v /\ 0 < size v /\ vma_end v <= hi.
Proof.
  intros Ht Hv. apply list_elem_of_split in Hv as (p & q & ->).
  apply tiles_app in Ht as (m & H1 & H2). destruct H2 as (<- & Hs & H2).
  apply tiles_le in H1, H2. lia.
Qed.

Lemma attr_outside lo hi l a : tiles lo hi l -> ~ (lo <= a < hi) -> attr l a = None.
Proof.
  revert lo. induction l as [|v l IH]; intros lo; [done|]. intros (<- & Hs & Ht) Ha.
  unfold attr. simpl. unfold inside at 1. pose proof (tiles_le _ _ _ Ht). unfold vma_end in *.
  destruct (Z.leb_spec (base v) a), (Z.ltb_spec a (base v + size v)); simpl; try lia;
    (eapply IH; [exact Ht|unfold vma_end; lia]).
Qed.

Lemma attr_app lo m hi l1 l2 a :
  tiles lo m l1 -> tiles m hi l2 ->
  attr (l1 ++ l2) a = if a <? m then attr l1 a else attr l2 a.
Proof.
  revert lo. induction l1 as [|v l1 IH]; intros lo; simpl app.
  - intros -> Ht. destruct (Z.ltb_spec a m); [|done]. eapply attr_outside; [exact Ht|lia].
  - intros (<- & Hs & H1) H2. specialize (IH _ H1 H2). pose proof (tiles_le _ _ _ H1).
    unfold attr in *. simpl. unfold inside at 1 3. unfold vma_end in *.
    destruct (Z.leb_spec (base v) a), (Z.ltb_spec a (base v + size v)); simpl; try done.
    by rewrite (proj2 (Z.ltb_lt a m)) by lia.
Qed.

Lemma attr_cons lo hi v l a :
  tiles lo hi (v :: l) ->
  attr (v :: l) a = if inside v a then Some (view v a) else attr l a.
Proof. intros _. unfold attr. simpl. by destruct (inside v a). Qed.

(** Replacing a run of areas by another with the same extent. *)
Lemma attr_replace lo b e hi p m m' q a :
  tiles lo b p -> tiles b e m -> tiles b e m' -> tiles e hi q ->
  attr (p ++ m' ++ q) a =
  if (b <=? a) && (a <? e) then attr m' a else attr (p ++ m ++ q) a.
Proof.
  intros Hp Hm Hm' Hq. pose proof (tiles_le _ _ _ Hm).
  assert (Hmq : tiles b hi (m ++ q)) by (apply tiles_app; eauto).
  assert (Hmq' : tiles b hi (m' ++ q)) by (apply tiles_app; eauto).
  rewrite (attr_app _ _ _ _ _ a Hp Hmq), (attr_app _ _ _ _ _ a Hp Hmq').
  rewrite (attr_app _ _ _ _ _ a Hm Hq), (attr_app _ _ _ _ _ a Hm' Hq).
  destruct (Z.leb_spec b a), (Z.ltb_spec a e); simpl; zdecide; done.
Qed.

(** ** Finding an area *)

Lemma span_tiles lo hi l a :
  tiles lo hi l -> lo <= a < hi ->
  exists pre v suf, l = pre ++ v :: suf /\ inside v a = true /\
    span (fun v => base v <=? a) l = (pre ++ [v], suf).
Proof.
  revert lo. induction l as [|v l IH]; intros lo; simpl; [lia|].
  intros (<- & Hs & Ht) Ha. rewrite (proj2 (Z.leb_le (base v) a)) by lia.
  destruct (Z.lt_ge_cases a (vma_end v)) as [Hlt|Hge].
  - exists [], v, l. split_and!; [done| |].
    + unfold inside. by zdecide.
    + destruct l as [|w l]; [done|]. destruct Ht as (Hw & _). simpl.
      rewrite (proj2 (Z.leb_gt (base w) a)) by lia. done.
  - destruct (IH _ Ht ltac:(lia)) as (pre & w & suf & -> & Hw & E).
    exists (v :: pre), w, suf. split_and!; try done. by rewrite E.
Qed.

Lemma FindVMA_run s a :
  tiles 0 MAX_ADDRESS (vma_map s) -> 0 <= a < MAX_ADDRESS ->
  exists pre v suf, vma_map s = pre ++ v :: suf /\ inside v a = true /\
    FindVMA a s = Done s (pre, v :: suf).
Proof.
  intros Ht Ha. destruct (span_tiles _ _ _ a Ht Ha) as (pre & v & suf & E & Hv & Es).
  exists pre, v, suf. split_and!; try done. unfold FindVMA. rewrite bind_get.
  rewrite (proj2 (Z.leb_gt MAX_ADDRESS a)) by lia. rewrite Es. unfold iter_prev. simpl.
  by rewrite rev_unit, rev_involutive.
Qed.

Lemma FindVMA_end s a : MAX_ADDRESS <= a -> FindVMA a s = Done s (vma_map s, []).
Proof. intros Ha. unfold FindVMA. rewrite bind_get. by rewrite (proj2 (Z.leb_le _ _)) by lia. Qed.

(** ** Splitting *)

Definition left_part (off : Z) (v : VirtualMemoryArea) : VirtualMemoryArea := with_size off v.

Definition right_part (off : Z) (v : VirtualMemoryArea) : VirtualMemoryArea :=
  mkVMA (base v + off) (size v - off) (vtype v) (permissions v) (meminfo_state v)
    match vtype v with
    | VMA_Free => backing_memory v
    | BackingMemory => mkRef (backing_mem (backing_memory v)) (offset (backing_memory v) + off)
    end.

(** The host allocations in use: no two of them overlap or touch. *)
Variable mems : BackingMem -> Prop.
Hypothesis mems_separate : forall b c p,
  mems b -> mems c -> mem_ptr b < p <= mem_ptr b + mem_size b ->
  mem_ptr c <= p < mem_ptr c + mem_size c -> b = c.
Hypothesis mems_nonnull : forall b, mems b -> 0 < mem_ptr b.

(** The memory of an area lies in one allocation. *)
Definition backed (v : VirtualMemoryArea) : Prop :=
  match vtype v with
  | VMA_Free => permissions v = None_ /\ meminfo_state v = MS_Free
  | BackingMemory => exists b, backing_mem (backing_memory v) = Some b /\ mems b /\
      0 <= offset (backing_memory v) /\ offset (backing_memory v) + size v <= mem_size b
  end.

Lemma mergeable_true v w :
  mergeable v w = true <->
  permissions v = permissions w /\ meminfo_state v = meminfo_state w /\ vtype v = vtype w /\
  (vtype v = BackingMemory -> GetPtr (backing_memory v) + size v = GetPtr (backing_memory w)).
Proof.
  unfold mergeable. repeat case_bool_decide; simpl; try (split; [done|tauto]).
  all: destruct (Z.eqb_spec (GetPtr (backing_memory v) + size v) (GetPtr (backing_memory w)));
    simpl; intuition congruence.
Qed.

Lemma bool_ext_iff (b c : bool) : (b = true <-> c = true) -> b = c.
Proof. destruct b, c; intuition. Qed.

Lemma right_ptr off v :
  vtype v = BackingMemory -> backed v ->
  GetPtr (backing_memory (right_part off v)) = GetPtr (backing_memory v) + off.
Proof.
  intros Ev Hb. unfold right_part, backed in *. rewrite Ev in *. simpl.
  destruct Hb as (b & E & _). unfold GetPtr. simpl. rewrite E. lia.
Qed.

Lemma split_mergeable off v : backed v -> mergeable (left_part off v) (right_part off v) = true.
Proof.
  intros Hb. apply mergeable_true. split_and!; try done. intros Ev.
  simpl in Ev. by rewrite right_ptr.
Qed.

Lemma view_left off v a : view (left_part off v) a = view v a.
Proof. done. Qed.

Lemma view_right off v a : backed v -> view (right_part off v) a = view v a.
Proof.
  intros Hb. unfold view. simpl vtype. simpl permissions. simpl meminfo_state.
  destruct (vtype v) eqn:Ev; [done|]. rewrite (right_ptr off v Ev Hb). simpl. f_equal. lia.
Qed.

Lemma backed_left off v : off <= size v -> backed v -> backed (left_part off v).
Proof.
  unfold backed. simpl. destruct (vtype v); [done|]. intros Ho (b & E & Hb & H1 & H2).
  exists b. split_and!; try done. lia.
Qed.

Lemma backed_right off v : 0 <= off -> backed v -> backed (right_part off v).
Proof.
  unfold backed, right_part. simpl. destruct (vtype v); [done|]. intros Ho (b & E & Hb & H1 & H2).
  exists b. simpl. split_and!; try done; lia.
Qed.

Definition in_space (v : VirtualMemoryArea) : Prop :=
  0 <= base v /\ 0 < size v /\ vma_end v <= MAX_ADDRESS.

Lemma SplitVMA_run s pre v suf off :
  in_space v -> backed v -> 0 < off < size v ->
  SplitVMA (pre, v :: suf) off s =
  Done (mkVMM (pre ++ left_part off v :: right_part off v :: suf) (page_table s) (is_locked s))
    (pre ++ [left_part off v], right_part off v :: suf).
Proof.
  intros (H1 & H2 & H3) Hb Ho. unfold vma_end, MAX_ADDRESS in H3. unfold SplitVMA, deref.
  erewrite bind_Done by (simpl; reflexivity).
  erewrite bind_Done by (unfold assert_; rewrite (proj2 (Z.ltb_lt off (size v))) by lia; reflexivity).
  erewrite bind_Done by (unfold assert_; rewrite (proj2 (Z.ltb_lt 0 off)) by lia; reflexivity).
  assert (E : (match vtype v with
               | VMA_Free => ret (backing_memory v)
               | BackingMemory => ref_add (backing_memory v) off
               end) s = Done s (backing_memory (right_part off v))).
  { pose proof Hb as Hb'. unfold backed, right_part in *. simpl.
    destruct (vtype v) eqn:Ev; [done|]. destruct Hb' as (b & Eb & _ & Ho1 & Ho2).
    unfold ref_add, GetSize, bind, assert_. rewrite Eb.
    rewrite (proj2 (Z.ltb_lt _ _)) by lia. done. }
  erewrite bind_Done by exact E.
  rewrite (u32_small (base v + off)), (u32_small (size v - off)) by word_lia.
  change (mkVMA (base v + off) (size v - off) (vtype v) (permissions v) (meminfo_state v)
            (backing_memory (right_part off v))) with (right_part off v).
  change (with_size off v) with (left_part off v).
  unfold CanBeMergedWith. simpl base. simpl size. unfold bind, assert_.
  rewrite (u32_small (base v + off)) by word_lia. rewrite Z.eqb_refl.
  unfold ret. rewrite split_mergeable by done. done.
Qed.

Lemma tiles_split lo hi p v q off :
  tiles lo hi (p ++ v :: q) -> 0 < off < size v ->
  tiles lo hi (p ++ left_part off v :: right_part off v :: q).
Proof.
  intros H Ho. apply tiles_app in H as (m & H1 & H2 & H3 & H4). apply tiles_app. exists m.
  split; [done|]. simpl. unfold vma_end in *. simpl. split_and!; try done; try lia.
  replace (base v + off + (size v - off)) with (base v + size v) by lia. done.
Qed.

Lemma attr_split lo hi p v q off a :
  tiles lo hi (p ++ v :: q) -> backed v -> 0 < off < size v ->
  attr (p ++ left_part off v :: right_part off v :: q) a = attr (p ++ v :: q) a.
Proof.
  intros H Hb Ho. pose proof H as (m & H1 & H2 & H3 & H4)%tiles_app.
  change (left_part off v :: right_part off v :: q) with ([left_part off v; right_part off v] ++ q).
  change (v :: q) with ([v] ++ q).
  rewrite (attr_replace lo m (vma_end v) hi p [v] _ q a); try done.
  - destruct (Z.leb_spec m a), (Z.ltb_spec a (vma_end v)); simpl; try done.
    rewrite (attr_app lo m hi p ([v] ++ q)) by (done || (apply tiles_app; exists (vma_end v); done)).
    rewrite (proj2 (Z.ltb_ge a m)) by lia.
    unfold attr. simpl. unfold inside, vma_end in *. simpl.
    destruct (Z.ltb_spec a (base v + off)); zdecide; simpl; [done|].
    f_equal. by apply view_right.
  - simpl. unfold vma_end. simpl. lia.
Qed.

(** ** Merging *)

Definition join (v w : VirtualMemoryArea) : VirtualMemoryArea := with_size (size v + size w) v.

Lemma view_merge v w a : mergeable v w = true -> vma_end v = base w -> view v a = view w a.
Proof.
  intros (H1 & H2 & H3 & H4)%mergeable_true Hb. unfold view. rewrite H1, H2, <-H3. f_equal.
  destruct (vtype v) eqn:Ev; [done|]. specialize (H4 eq_refl). unfold vma_end in Hb. lia.
Qed.

Lemma mergeable_join_r v w x : mergeable v w = true -> mergeable (join v w) x = mergeable w x.
Proof.
  intros (H1 & H2 & H3 & H4)%mergeable_true. apply bool_ext_iff. rewrite !mergeable_true. simpl.
  rewrite <-H1, <-H2, <-H3. split; intros (? & ? & ? & H); split_and!; try done;
    intros Ev; specialize (H4 Ev); specialize (H Ev); lia.
Qed.

Lemma mergeable_join_l v w x : mergeable x (join v w) = mergeable x v.
Proof. done. Qed.

Lemma ptr_in v b :
  backing_mem (backing_memory v) = Some b -> GetPtr (backing_memory v) = mem_ptr b + offset (backing_memory v).
Proof. unfold GetPtr. by intros ->. Qed.

Lemma backed_join v w :
  0 < size v -> 0 < size w -> backed v -> backed w -> mergeable v w = true -> backed (join v w).
Proof.
  intros Hv Hw Hbv Hbw (H1 & H2 & H3 & H4)%mergeable_true. unfold backed in *. simpl.
  rewrite <-H3 in Hbw. destruct (vtype v) eqn:Ev; [done|]. specialize (H4 eq_refl).
  destruct Hbv as (b & Eb & Hb & Hb1 & Hb2). destruct Hbw as (c & Ec & Hc & Hc1 & Hc2).
  rewrite (ptr_in _ _ Eb), (ptr_in _ _ Ec) in H4.
  assert (b = c) as <-.
  { apply (mems_separate b c (GetPtr (backing_memory w))); try done; rewrite (ptr_in _ _ Ec); lia. }
  exists b. split_and!; try done. lia.
Qed.

Lemma tiles_join lo hi p v w q :
  tiles lo hi (p ++ v :: w :: q) -> tiles lo hi (p ++ join v w :: q).
Proof.
  intros (m & H1 & H2 & H3 & H4 & H5 & H6)%tiles_app. apply tiles_app. exists m.
  split; [done|]. simpl. unfold vma_end in *. simpl. split_and!; try done; try lia.
  replace (base v + (size v + size w)) with (base w + size w) by lia. done.
Qed.

Lemma attr_join lo hi p v w q a :
  tiles lo hi (p ++ v :: w :: q) -> mergeable v w = true ->
  attr (p ++ join v w :: q) a = attr (p ++ v :: w :: q) a.
Proof.
  intros H Hm. pose proof H as (m & H1 & H2 & H3 & H4 & H5 & H6)%tiles_app.
  change (join v w :: q) with ([join v w] ++ q). change (v :: w :: q) with ([v; w] ++ q).
  rewrite (attr_replace lo m (vma_end w) hi p [v; w] _ q a); try done.
  - destruct (Z.leb_spec m a), (Z.ltb_spec a (vma_end w)); simpl; try done.
    rewrite (attr_app lo m hi p ([v; w] ++ q)) by (done || (apply tiles_app; exists (vma_end w); done)).
    rewrite (proj2 (Z.ltb_ge a m)) by lia.
    unfold attr. simpl. unfold inside, vma_end in *. simpl.
    destruct (Z.ltb_spec a (base v + size v)); zdecide; simpl; [done|]. f_equal.
    by apply (view_merge v w).
  - simpl. unfold vma_end in *. simpl. lia.
Qed.

(** One junction: merged when possible. *)
Definition merge_next (v : VirtualMemoryArea) (suf : list VirtualMemoryArea)
    : VirtualMemoryArea * list VirtualMemoryArea :=
  match suf with
  | n :: r => if mergeable v n then (join v n, r) else (v, suf)
  | [] => (v, [])
  end.

Definition areas_ok (l : list VirtualMemoryArea) : Prop :=
  tiles 0 MAX_ADDRESS l /\ Forall backed l.

Lemma areas_in_space l v : areas_ok l -> v ∈ l -> in_space v /\ backed v.
Proof.
  intros [Ht Hb] Hv. rewrite Forall_forall in Hb.
  split; [by apply (tiles_bound _ _ _ _ Ht)|auto].
Qed.

Lemma areas_join p v w q :
  areas_ok (p ++ v :: w :: q) -> mergeable v w = true -> areas_ok (p ++ join v w :: q).
Proof.
  intros H Hm. destruct (areas_in_space _ v H ltac:(mem_list)) as [(_ & Hv & _) Hbv].
  destruct (areas_in_space _ w H ltac:(mem_list)) as [(_ & Hw & _) Hbw].
  destruct H as [Ht Hb]. split; [by apply tiles_join|].
  apply Forall_app in Hb as [Hp Hq]. apply Forall_app. split; [done|].
  apply Forall_cons in Hq as [_ Hq]. apply Forall_cons in Hq as [_ Hq].
  constructor; [by apply backed_join|done].
Qed.

Lemma tiles_adjacent lo hi p v w q : tiles lo hi (p ++ v :: w :: q) -> vma_end v = base w.
Proof. by intros (m & _ & _ & _ & H & _)%tiles_app. Qed.

Lemma CanBeMergedWith_run {S} p v w q (s : S) :
  areas_ok (p ++ v :: w :: q) -> CanBeMergedWith v w s = Done s (mergeable v w).
Proof.
  intros H. pose proof (tiles_adjacent _ _ _ _ _ _ (proj1 H)) as Ha.
  destruct (areas_in_space _ w H ltac:(mem_list)) as [(Hw1 & Hw2 & Hw3) _].
  unfold CanBeMergedWith, bind, assert_. unfold vma_end, MAX_ADDRESS in *.
  rewrite Ha, u32_small by word_lia. by rewrite Z.eqb_refl.
Qed.

Lemma with_size_join p v w q :
  areas_ok (p ++ v :: w :: q) -> with_size (u32 (size v + size w)) v = join v w.
Proof.
  intros H. destruct (areas_in_space _ v H ltac:(mem_list)) as [(Hv1 & Hv2 & Hv3) _].
  destruct (areas_in_space _ w H ltac:(mem_list)) as [(Hw1 & Hw2 & Hw3) _].
  pose proof (tiles_adjacent _ _ _ _ _ _ (proj1 H)) as Ha.
  unfold join. unfold vma_end, MAX_ADDRESS in *. by rewrite u32_small by word_lia.
Qed.

(** What [MergeAdjacent] leaves: the same address map, the new area in place of
    the old one and of the neighbours it was merged with. *)
Record merged (pre : list VirtualMemoryArea) (v : VirtualMemoryArea) (suf pre' : list VirtualMemoryArea)
    (v' : VirtualMemoryArea) (suf' : list VirtualMemoryArea) : Prop := {
  merged_ok : areas_ok (pre' ++ v' :: suf');
  merged_attr : forall a, attr (pre' ++ v' :: suf') a = attr (pre ++ v :: suf) a;
  merged_view : forall a, view v' a = view v a;
  merged_suf : suf' = suf \/ exists n, suf = n :: suf' /\ mergeable v n = true;
  merged_pre : (pre' = pre /\ base v' = base v) \/
               exists x, pre = pre' ++ [x] /\ mergeable x v = true /\ base v' = base x;
  merged_stop : forall x, pre' = pre -> last pre = Some x -> mergeable x v = false;
  merged_stop_next : forall n, suf' = suf -> head suf = Some n -> mergeable v n = false;
  merged_left : normal pre -> normal (pre' ++ [v']);
  merged_normal : normal pre -> normal suf -> normal (pre' ++ v' :: suf')
}.

Lemma merged_refl pre v suf :
  areas_ok (pre ++ v :: suf) ->
  (forall x, last pre = Some x -> mergeable x v = false) ->
  (forall n, head suf = Some n -> mergeable v n = false) ->
  merged pre v suf pre v suf.
Proof.
  intros H Hp Hs. split; [done|done|done|by left|by left|by auto|by auto| |].
  { intros Hn1. apply chain_app. split; [done|]. split; [done|]. intros y w Hy [= <-]. by apply Hp. }
  intros Hn1 Hn2. apply chain_app. split; [done|]. split.
  - apply (chain_app _ [v]). split; [done|]. split; [done|]. intros y w [= <-]. apply Hs.
  - intros y w Hy [= <-]. by apply Hp.
Qed.

Lemma merged_next pre v suf v1 suf1 :
  areas_ok (pre ++ v :: suf) -> merge_next v suf = (v1, suf1) ->
  areas_ok (pre ++ v1 :: suf1) /\
  (forall a, attr (pre ++ v1 :: suf1) a = attr (pre ++ v :: suf) a) /\
  (forall a, view v1 a = view v a) /\ base v1 = base v /\
  (forall x, mergeable x v1 = mergeable x v) /\
  (suf1 = suf \/ exists n, suf = n :: suf1 /\ mergeable v n = true) /\
  (forall n, suf1 = suf -> head suf = Some n -> mergeable v n = false) /\
  (normal suf -> normal (v1 :: suf1)).
Proof.
  intros H E. destruct suf as [|n r]; simpl in E.
  - injection E as <- <-. split_and!; try done. by left.
  - destruct (mergeable v n) eqn:Em; injection E as <- <-.
    + split_and!; try done.
      * by apply areas_join.
      * intros a. eapply attr_join; [apply H|done].
      * right. eauto.
      * intros x Hx. apply (f_equal length) in Hx. simpl in Hx. lia.
      * intros Hn. destruct r as [|y r]; [done|]. simpl in Hn |- *.
        by rewrite mergeable_join_r.
    + split_and!; try done; [by left|]. by intros x _ [= <-].
Qed.

Lemma MergeAdjacent_run s pre v suf :
  areas_ok (pre ++ v :: suf) ->
  exists pre' v' suf', merged pre v suf pre' v' suf' /\
    MergeAdjacent (pre, v :: suf) s =
    Done (mkVMM (pre' ++ v' :: suf') (page_table s) (is_locked s)) (pre', v' :: suf').
Proof.
  intros H. destruct (merge_next v suf) as [v1 suf1] eqn:E1.
  destruct (merged_next pre v suf v1 suf1 H E1) as (H1 & Ha1 & Hv1 & Hb1 & Hm1 & Hs1 & Hst1 & Hn1).
  assert (Enext : (match suf with
                   | [] => ret (v, [])
                   | next_vma :: suf0 =>
                       b <- CanBeMergedWith v next_vma ;;
                       ret (if b then (with_size (u32 (size v + size next_vma)) v, suf0)
                            else (v, next_vma :: suf0))
                   end)%hle s = Done s (v1, suf1)).
  { destruct suf as [|n r]; simpl in E1; [by injection E1 as <- <-|].
    erewrite bind_Done by (eapply CanBeMergedWith_run; exact H). unfold ret.
    rewrite (with_size_join pre v n r H). by rewrite <-E1. }
  unfold MergeAdjacent, deref. simpl snd. simpl fst. simpl tl.
  erewrite bind_Done by reflexivity. erewrite bind_Done by exact Enext.
  destruct pre as [|x p _] using rev_ind.
  - exists [], v1, suf1. split; [|reflexivity]. split; try done; auto.
  - clear Enext. unfold iter_prev. simpl fst. rewrite rev_unit. simpl snd. rewrite rev_involutive.
    rewrite <-app_assoc in H1. simpl in H1.
    assert (Eprev : (b <- CanBeMergedWith x v1 ;;
                     ret (if b then (p, with_size (u32 (size x + size v1)) x)
                          else (p ++ [x], v1)))%hle s =
                    Done s (if mergeable x v1 then (p, join x v1) else (p ++ [x], v1))).
    { erewrite bind_Done by (eapply CanBeMergedWith_run; exact H1). unfold ret.
      by rewrite (with_size_join p x v1 suf1 H1). }
    erewrite bind_Done by exact Eprev. destruct (mergeable x v1) eqn:Em.
    + exists p, (join x v1), suf1. split; [|reflexivity]. split.
      * by apply areas_join.
      * intros a. rewrite <-Ha1, <-app_assoc. eapply attr_join; [apply H1|done].
      * intros a. rewrite <-Hv1. apply (view_merge x v1); [done|].
        by eapply (tiles_adjacent _ _ p), H1.
      * done.
      * right. exists x. by rewrite <-Hm1.
      * intros y Hy. apply (f_equal length) in Hy. rewrite length_app in Hy. simpl in Hy. lia.
      * exact Hst1.
      * intros Hnp. apply chain_app in Hnp as (Hp1 & _ & Hp2). apply chain_app.
        split; [done|]. split; [done|]. intros y w Hy [= <-]. rewrite mergeable_join_l. by apply Hp2.
      * intros Hnp Hns. apply chain_app in Hnp as (Hp1 & _ & Hp2).
        specialize (Hn1 Hns). apply chain_app. split; [done|]. split.
        -- destruct suf1 as [|y r]; [done|]. simpl in Hn1 |- *. by rewrite mergeable_join_r.
        -- intros y w Hy [= <-]. rewrite mergeable_join_l. by apply Hp2.
    + exists (p ++ [x]), v1, suf1. split; [|reflexivity]. split; try done.
      * by rewrite <-app_assoc.
      * by left.
      * intros y _ Hy. rewrite last_app in Hy. injection Hy as <-. by rewrite <-Hm1.
      * intros Hnp. apply chain_app. split; [done|]. split; [done|].
        intros y w Hy [= <-]. rewrite last_app in Hy. by injection Hy as <-.
      * intros Hnp Hns. apply chain_app. split; [done|]. split; [auto|].
        intros y w Hy [= <-]. rewrite last_app in Hy. injection Hy as <-. done.
Qed.

(** ** Free areas *)

Lemma free_mergeable v w :
  backed v -> backed w -> vtype v = VMA_Free -> vtype w = VMA_Free -> mergeable v w = true.
Proof.
  unfold backed. intros Hv Hw Ev Ew. rewrite Ev in Hv. rewrite Ew in Hw. apply mergeable_true.
  destruct Hv as [-> ->], Hw as [-> ->]. split_and!; try done; congruence.
Qed.

Lemma mergeable_type v w : mergeable v w = true -> vtype v = vtype w.
Proof. by intros (_ & _ & H & _)%mergeable_true. Qed.

Lemma joined_app p q :
  joined (p ++ q) <-> joined p /\ joined q /\
  (forall v w, last p = Some v -> head q = Some w -> vtype v = VMA_Free -> vtype w <> VMA_Free).
Proof. apply chain_app. Qed.

Lemma joined_cons v q :
  joined (v :: q) <-> joined q /\ (forall w, head q = Some w -> vtype v = VMA_Free -> vtype w <> VMA_Free).
Proof.
  change (v :: q) with ([v] ++ q). rewrite joined_app. split.
  - intros (_ & Hq & H). split; [done|]. intros w. by apply H.
  - intros [Hq H]. split; [done|]. split; [done|]. intros x w [= <-]. apply H.
Qed.

(** Two lists of areas with the same types have free neighbours alike. *)
Lemma joined_split p v l r q : vtype v <> VMA_Free -> vtype l = vtype v -> vtype r = vtype v ->
  joined (p ++ v :: q) -> joined (p ++ l :: r :: q).
Proof.
  intros Hv Hl Hr. rewrite !joined_app, !joined_cons. intros (Hp & (Hq & Hvq) & Hpv).
  split_and!; try done; intros; simplify_eq; cbn in *; simplify_eq; congruence.
Qed.

(** Merging keeps free areas apart. *)
Lemma merged_joined pre v suf pre' v' suf' :
  areas_ok (pre ++ v :: suf) -> merged pre v suf pre' v' suf' -> joined pre -> joined suf ->
  joined (pre' ++ v' :: suf').
Proof.
  intros Hok Hm Hpre Hsuf.
  assert (Ht : vtype v' = vtype v).
  { pose proof (merged_view _ _ _ _ _ _ Hm 0) as E. unfold view in E. by injection E. }
  assert (Hb : forall x, x ∈ pre ++ v :: suf -> backed x) by (intros x Hx; by apply (areas_in_space _ x Hok)).
  assert (Hn : joined (v' :: suf')).
  { apply joined_cons. destruct (merged_suf _ _ _ _ _ _ Hm) as [->|(n & -> & En)].
    - split; [done|]. intros w Hw Hf Hfw.
      pose proof (merged_stop_next _ _ _ _ _ _ Hm w eq_refl Hw) as E.
      rewrite free_mergeable in E; [done|apply Hb; mem_list| |congruence|done].
      apply Hb. destruct suf; [done|]. injection Hw as ->. mem_list.
    - apply joined_cons in Hsuf as [Hs Hn]. split; [done|]. intros w Hw Hf. apply Hn; [done|].
      by rewrite <-(mergeable_type _ _ En), <-Ht. }
  apply joined_app. destruct (merged_pre _ _ _ _ _ _ Hm) as [[-> _]|(x & -> & Ex & _)].
  - split_and!; try done. intros x w Hx [= <-] Hf Hfw.
    pose proof (merged_stop _ _ _ _ _ _ Hm x eq_refl Hx) as E.
    rewrite free_mergeable in E; [done| |apply Hb; mem_list|done|congruence].
    apply Hb, elem_of_app. left. by apply last_Some_elem_of.
  - apply joined_app in Hpre as (Hp & _ & Hx). split_and!; try done. intros y w Hy [= <-] Hf.
    rewrite Ht, <-(mergeable_type _ _ Ex). by apply (Hx y).
Qed.

(** ** The page table *)

(** The host pointer a page table gives for an address (0 when unmapped). *)
Variable pt_lookup : PageTable -> Z -> Z.
Hypothesis lookup_MapMemoryRegion : forall pt b n m a,
  pt_lookup (MapMemoryRegion pt b n m) a =
  if (b <=? a) && (a <? b + n) then GetPtr m + (a - b) else pt_lookup pt a.
Hypothesis lookup_UnmapRegion : forall pt b n a,
  pt_lookup (UnmapRegion pt b n) a =
  if (b <=? a) && (a <? b + n) then 0 else pt_lookup pt a.

Definition ptr_of (x : option attributes) : Z :=
  match x with
  | Some (_, _, _, p) => p
  | None => 0
  end.

(** The page table agrees with the areas. *)
Definition pt_ok (s : VMManager) : Prop :=
  forall a, 0 <= a < MAX_ADDRESS -> pt_lookup (page_table s) a = ptr_of (attr (vma_map s) a).

Record vm_wf (s : VMManager) : Prop := {
  wf_areas : areas_ok (vma_map s);
  wf_pt : pt_ok s
}.

(** Changing an area in place, as the loops do. *)
Definition modify_vma (f : VirtualMemoryArea -> VirtualMemoryArea) (it : VMAIter)
    : op VMManager VMAIter :=
  (v <- deref it ;;
   it <- assign_vma it (f v) ;;
   UpdatePageTableForVMA (f v) ;;
   MergeAdjacent it)%hle.

Definition same_extent (f : VirtualMemoryArea -> VirtualMemoryArea) : Prop :=
  forall v, base (f v) = base v /\ size (f v) = size v.

Lemma attr_modify lo hi p v v' q a :
  tiles lo hi (p ++ v :: q) -> base v' = base v -> size v' = size v ->
  attr (p ++ v' :: q) a = if inside v a then Some (view v' a) else attr (p ++ v :: q) a.
Proof.
  intros (m & H1 & H2 & H3 & H4)%tiles_app Hb Hs.
  change (v' :: q) with ([v'] ++ q). change (v :: q) with ([v] ++ q).
  subst m. rewrite (attr_replace lo (base v) (vma_end v) hi p [v] [v'] q a); try done.
  - fold (inside v a). destruct (inside v a) eqn:E; [|done].
    unfold attr. simpl. unfold inside, vma_end in *. rewrite Hb, Hs. by rewrite E.
  - simpl. unfold vma_end in *. by rewrite Hb, Hs.
Qed.

Lemma areas_modify p v v' q :
  areas_ok (p ++ v :: q) -> base v' = base v -> size v' = size v -> backed v' ->
  areas_ok (p ++ v' :: q).
Proof.
  intros [(m & H1 & H2 & H3 & H4)%tiles_app Hb] Eb Es Hv'. split.
  - apply tiles_app. exists m. split; [done|]. simpl. unfold vma_end in *. by rewrite Eb, Es.
  - apply Forall_app in Hb as [Hp Hq]. apply Forall_cons in Hq as [_ Hq].
    apply Forall_app. split; [done|]. by constructor.
Qed.

Lemma ptr_of_view v a : ptr_of (Some (view v a)) =
  match vtype v with
  | VMA_Free => 0
  | BackingMemory => GetPtr (backing_memory v) + (a - base v)
  end.
Proof. done. Qed.

Lemma modify_vma_run f s pre v suf :
  vm_wf s -> vma_map s = pre ++ v :: suf -> same_extent f -> backed (f v) ->
  exists pre' v' suf' s', merged pre (f v) suf pre' v' suf' /\
    modify_vma f (pre, v :: suf) s = Done s' (pre', v' :: suf') /\
    vma_map s' = pre' ++ v' :: suf' /\ is_locked s' = is_locked s /\ vm_wf s' /\
    (forall a, attr (vma_map s') a =
      if inside v a then Some (view (f v) a) else attr (vma_map s) a) /\
    (joined pre -> joined suf -> joined (vma_map s')).
Proof.
  intros [Hok Hpt] E Hf Hb. destruct (Hf v) as [Eb Es]. rewrite E in Hok.
  pose proof (areas_modify _ _ _ _ Hok Eb Es Hb) as Hok1.
  unfold modify_vma, deref, assign_vma. simpl fst. simpl snd. simpl tl.
  erewrite bind_Done by reflexivity. erewrite bind_Done by reflexivity.
  erewrite bind_Done by reflexivity. unfold vma_map at 1. unfold page_table at 1 2, is_locked at 1.
  set (pt := match vtype (f v) with VMA_Free => _ | BackingMemory => _ end).
  destruct (MergeAdjacent_run (mkVMM (pre ++ f v :: suf) pt (is_locked s)) pre (f v) suf Hok1)
    as (pre' & v' & suf' & Hm & Er).
  exists pre', v', suf', (mkVMM (pre' ++ v' :: suf') pt (is_locked s)).
  assert (Hattr : forall a, attr (pre' ++ v' :: suf') a =
            if inside v a then Some (view (f v) a) else attr (vma_map s) a).
  { intros a. rewrite (merged_attr _ _ _ _ _ _ Hm), E.
    apply (attr_modify _ _ _ _ _ _ _ (proj1 Hok) Eb Es). }
  split_and!; try done; [|by apply (merged_joined _ _ _ _ _ _ Hok1 Hm)].
  split; [apply (merged_ok _ _ _ _ _ _ Hm)|].
  intros a Ha. simpl. rewrite Hattr. unfold pt.
  assert (Ei : ((base (f v) <=? a) && (a <? base (f v) + size (f v))) = inside v a).
  { unfold inside, vma_end. by rewrite Eb, Es. }
  destruct (vtype (f v)) eqn:Et.
  - rewrite lookup_UnmapRegion, Ei. destruct (inside v a); [|by apply Hpt].
    by rewrite ptr_of_view, Et.
  - rewrite lookup_MapMemoryRegion, Ei. destruct (inside v a); [|by apply Hpt].
    by rewrite ptr_of_view, Et.
Qed.

(** ** The loops over a range *)

Lemma range_stop body e fuel pre suf s :
  (forall n, head suf = Some n -> e <= base n) ->
  range_loop body e (S fuel) (pre, suf) s = Done s tt.
Proof.
  intros H. simpl. destruct suf as [|n r]; [done|].
  rewrite (proj2 (Z.ltb_ge (base n) e)); [done|]. by apply H.
Qed.

Lemma range_step body e fuel pre v suf s :
  base v < e ->
  range_loop body e (S fuel) (pre, v :: suf) s =
  (it <- body (pre, v :: suf) ;; it <- iter_next it ;; range_loop body e fuel it)%hle s.
Proof. intros H. simpl. by rewrite (proj2 (Z.ltb_lt _ _)) by lia. Qed.

Lemma tiles_head lo hi l n : tiles lo hi l -> head l = Some n -> base n = lo.
Proof. destruct l as [|v l]; [done|]. intros (<- & _) [= ->]. done. Qed.

Lemma tiles_inside lo hi l v w a :
  tiles lo hi l -> v ∈ l -> w ∈ l -> inside v a = true -> inside w a = true -> v = w.
Proof.
  intros Ht Hv Hw Hav Haw. apply list_elem_of_split in Hv as (p & q & ->).
  apply tiles_app in Ht as (m & H1 & H2 & H3 & H4). unfold inside in *. zbool.
  apply elem_of_app in Hw as [Hw|Hw].
  - apply (tiles_bound _ _ _ w) in H1; [lia|done].
  - apply elem_of_cons in Hw as [->|Hw]; [done|]. apply (tiles_bound _ _ _ w) in H4; [lia|done].
Qed.

Lemma attr_elem lo hi l v a :
  tiles lo hi l -> v ∈ l -> inside v a = true -> attr l a = Some (view v a).
Proof.
  intros Ht Hv Ha. apply list_elem_of_split in Hv as (p & q & ->).
  pose proof Ht as (m & H1 & H2)%tiles_app. rewrite (attr_app _ _ _ _ _ a H1 H2).
  destruct H2 as (<- & _). unfold inside in Ha. pose proof Ha. zbool.
  rewrite (proj2 (Z.ltb_ge a (base v))) by lia. unfold attr. simpl. unfold inside.
  zdecide. done.
Qed.

Lemma attr_inside lo hi l a : tiles lo hi l -> lo <= a < hi -> exists x, attr l a = Some x.
Proof.
  intros Ht Ha. destruct (span_tiles lo hi l a Ht Ha) as (p & v & q & -> & Hv & _).
  exists (view v a). eapply attr_elem; [exact Ht|mem_list|done].
Qed.

Section Range.
Variable f : VirtualMemoryArea -> VirtualMemoryArea.
Variable g : attributes -> attributes.
Hypothesis f_extent : same_extent f.
Hypothesis f_view : forall v a, view (f v) a = g (view v a).
(** An area that a changed area merges with has the new attributes already. *)
Hypothesis f_merge : forall v n a, mergeable (f v) n = true -> view (f n) a = view n a.

Lemma range_run_done e fuel s pre suf :
  (forall n, head suf = Some n -> e <= base n) -> vm_wf s -> (0 < fuel)%nat ->
  exists s', range_loop (modify_vma f) e fuel (pre, suf) s = Done s' tt /\ vm_wf s' /\
    is_locked s' = is_locked s /\ (forall a, attr (vma_map s') a = attr (vma_map s) a) /\
    (joined (vma_map s) -> joined (vma_map s')).
Proof.
  intros H Hwf Hf. destruct fuel as [|fuel]; [lia|]. exists s. by rewrite range_stop.
Qed.

Lemma range_run e fuel s pre mid post b :
  vm_wf s -> vma_map s = pre ++ mid ++ post -> tiles b e mid ->
  tiles e MAX_ADDRESS post -> Forall (fun v => backed (f v)) mid -> (length (mid ++ post) < fuel)%nat ->
  exists s', range_loop (modify_vma f) e fuel (pre, mid ++ post) s = Done s' tt /\ vm_wf s' /\
    is_locked s' = is_locked s /\
    (forall a, attr (vma_map s') a =
      if (b <=? a) && (a <? e) then g <$> attr (vma_map s) a else attr (vma_map s) a) /\
    (joined (vma_map s) -> joined (vma_map s')).
Proof.
  remember (length mid) as n eqn:En. revert fuel s pre mid b En.
  induction n as [n IH] using lt_wf_ind. intros fuel s pre mid b En Hwf E Ht Htp Hb Hfuel.
  assert (Hpost : forall n, head post = Some n -> base n = e).
  { intros x Hx. by apply (tiles_head _ _ _ _ Htp). }
  destruct mid as [|v mid].
  { simpl in Ht. subst e. simpl app.
    destruct (range_run_done b fuel s pre post) as (s' & E' & Hwf' & Hl & Ha & Hj);
      [intros x Hx; rewrite (Hpost x Hx); lia|done|lia|].
    exists s'. split_and!; try done. intros a. rewrite Ha.
    destruct (Z.leb_spec b a), (Z.ltb_spec a b); simpl; try done; lia. }
  destruct Ht as (Eb & Hs & Ht). apply Forall_cons in Hb as [Hbv Hb].
  pose proof (tiles_le _ _ _ Ht) as Hle. unfold vma_end in Hle.
  destruct fuel as [|fuel]; [lia|]. simpl app. simpl range_loop.
  rewrite (proj2 (Z.ltb_lt (base v) e)) by lia.
  destruct (modify_vma_run f s pre v (mid ++ post) Hwf) as
    (pre' & v' & suf' & s1 & Hm & Er & E1 & Hl1 & Hwf1 & Ha1 & Hj1); [done|done|done|].
  assert (Hj : joined (vma_map s) -> joined (vma_map s1)).
  { rewrite E. simpl app. intros (Hp & [Hq _]%joined_cons & _)%joined_app. by apply Hj1. }
  erewrite bind_Done by exact Er. erewrite bind_Done by (unfold iter_next; simpl; reflexivity).
  simpl fst. assert (Hin : forall a, (b <=? a) && (a <? e) =
    inside v a || ((vma_end v <=? a) && (a <? e))).
  { intros a. unfold inside, vma_end. subst b.
    destruct (Z.leb_spec (base v) a), (Z.ltb_spec a e), (Z.ltb_spec a (base v + size v));
      zdecide; simpl; try done; lia. }
  assert (Hv0 : forall a, inside v a = true -> attr (vma_map s) a = Some (view v a)).
  { intros a Ha. eapply attr_elem; [apply (wf_areas _ Hwf)|rewrite E; simpl; mem_list|done]. }
  destruct (merged_suf _ _ _ _ _ _ Hm) as [->|(x & Ex & Hmx)].
  - (* the next area was not merged *)
    destruct (IH (length mid)) with (fuel := fuel) (s := s1) (pre := pre' ++ [v']) (mid := mid)
      (b := vma_end v) as (s2 & E2 & Hwf2 & Hl2 & Ha2 & Hj2); try done.
    { simpl in En. lia. }
    { rewrite E1. by rewrite <-app_assoc. }
    { simpl in Hfuel. lia. }
    exists s2. split_and!; [done|done|congruence| |by auto]. intros a. rewrite Ha2, Ha1, Hin.
    destruct (inside v a) eqn:Hia; simpl; [|done].
    rewrite Hv0 by done. unfold inside in Hia. zbool.
    rewrite (proj2 (Z.leb_gt (vma_end v) a)) by lia. simpl. by rewrite f_view.
  - (* it was merged, and needs no change *)
    destruct mid as [|x' mid].
    + simpl in Ex. simpl in Ht. subst e.
      assert (Hstop : forall n, head suf' = Some n -> vma_end v <= base n).
      { intros y Hy. rewrite Ex in Htp. destruct Htp as (Hx & Hsx & Htp).
        apply (tiles_head _ _ _ _ Htp) in Hy. unfold vma_end in *. lia. }
      destruct (range_run_done (vma_end v) fuel s1 (pre' ++ [v']) suf' Hstop Hwf1) as
        (s2 & E2 & Hwf2 & Hl2 & Ha2 & Hj2); [simpl in Hfuel; rewrite Ex in Hfuel; simpl in Hfuel; lia|].
      exists s2. split_and!; [done|done|congruence| |by auto]. intros a. rewrite Ha2, Ha1, Hin.
      destruct (inside v a) eqn:Hia; simpl.
      * rewrite Hv0 by done. simpl. by rewrite f_view.
      * destruct (Z.leb_spec (vma_end v) a), (Z.ltb_spec a (vma_end v)); simpl; try done; lia.
    + simpl in Ex. injection Ex as -> <-. destruct Ht as (Ebx & Hsx & Ht).
      apply Forall_cons in Hb as [Hbx Hb].
      destruct (IH (length mid)) with (fuel := fuel) (s := s1) (pre := pre' ++ [v']) (mid := mid)
        (b := vma_end x) as (s2 & E2 & Hwf2 & Hl2 & Ha2 & Hj2); try done.
      { simpl in En. lia. }
      { rewrite E1. by rewrite <-app_assoc. }
      { simpl in Hfuel. lia. }
      exists s2. split_and!; [done|done|congruence| |by auto]. intros a. rewrite Ha2, Ha1, Hin.
      pose proof (tiles_le _ _ _ Ht) as Hlex. unfold vma_end in Hlex, Ebx.
      assert (Hx0 : inside x a = true -> attr (vma_map s) a = Some (view x a)).
      { intros Ha. eapply attr_elem; [apply (wf_areas _ Hwf)|rewrite E; simpl; mem_list|done]. }
      destruct (inside v a) eqn:Hia; simpl.
      * rewrite Hv0 by done. unfold inside, vma_end in *. zbool. zdecide. simpl. by rewrite f_view.
      * destruct (inside x a) eqn:Hix.
        -- rewrite Hx0 by done. unfold inside, vma_end in *. zbool. zdecide. simpl.
           by rewrite <-f_view, f_merge with (v := v).
        -- unfold inside, vma_end in *.
           destruct (Z.leb_spec (base v + size v) a), (Z.ltb_spec a e); simpl;
             rewrite ?andb_false_r; try done; zdecide; simpl; try done.
Qed.
End Range.

(** ** Carving a range *)

Definition is_free (x : option attributes) : bool :=
  match x with
  | Some (VMA_Free, _, _, _) => true
  | _ => false
  end.

Lemma is_free_view v a : is_free (Some (view v a)) = bool_decide (vtype v = VMA_Free).
Proof. unfold view. simpl. by destruct (vtype v). Qed.

Lemma until_elem e pre suf lo hi v :
  tiles lo hi suf -> v ∈ until e (pre, suf) <-> v ∈ suf /\ base v < e.
Proof.
  unfold until. simpl. revert lo. induction suf as [|w suf IH]; intros lo; simpl.
  - intros _. split; [by intros ?%elem_of_nil|by intros [?%elem_of_nil _]].
  - intros (<- & Hs & Ht). destruct (Z.ltb_spec (base w) e) as [Hlt|Hge].
    + specialize (IH _ Ht). destruct (span _ suf) as [p q]. simpl in *.
      rewrite !elem_of_cons, IH. split; [intros [->|]; tauto|tauto].
    + simpl. split; [by intros ?%elem_of_nil|]. intros [[->|Hv]%elem_of_cons Hlt]; [lia|].
      apply (tiles_bound _ _ _ v) in Ht; [|done]. unfold vma_end in Ht. lia.
Qed.

Lemma until_free s t e pre v suf :
  areas_ok (vma_map s) -> vma_map s = pre ++ v :: suf -> inside v t = true -> t < e ->
  existsb (fun v => bool_decide (vtype v = VMA_Free)) (until e (pre, v :: suf)) = true <->
  exists a, t <= a < e /\ is_free (attr (vma_map s) a) = true.
Proof.
  intros [Ht _] E Hv Hte. pose proof Ht as Ht'. rewrite E in Ht'.
  apply tiles_app in Ht' as (m & Hp & Hs). pose proof Hv as Hv'. unfold inside in Hv'. zbool.
  rewrite existsb_exists. split.
  - intros (w & Hw%list_elem_of_In & Hf). apply (until_elem e pre _ _ _ w Hs) in Hw as [Hw Hlt].
    assert (Hw2 : base w <= Z.max (base w) t < vma_end w).
    { apply elem_of_cons in Hw as [->|Hw]; [lia|]. destruct Hs as (_ & _ & Hs).
      apply (tiles_bound _ _ _ w) in Hs; [|done]. unfold vma_end in *. lia. }
    exists (Z.max (base w) t). split; [lia|].
    rewrite (attr_elem _ _ _ w _ Ht), is_free_view; [done| |].
    + rewrite E. apply elem_of_app. by right.
    + unfold inside. by zdecide.
  - intros (a & Ha & Hf). rewrite E, (attr_app _ _ _ _ _ a Hp Hs) in Hf.
    destruct Hs as (<- & Hs0 & Hs). rewrite (proj2 (Z.ltb_ge a (base v))) in Hf by lia.
    unfold attr in Hf. destruct (find (fun v => inside v a) (v :: suf)) as [w|] eqn:Ew; [|done].
    apply find_some in Ew as [Hw Hwa]. apply list_elem_of_In in Hw. simpl in Hf.
    exists w. rewrite <-list_elem_of_In, <-is_free_view with (a := a). split; [|done].
    rewrite (until_elem e pre (v :: suf) (base v) MAX_ADDRESS) by done.
    split; [done|]. unfold inside in Hwa. zbool. lia.
Qed.

Lemma span_app_all {A} (h : A -> bool) l1 l2 :
  Forall (fun x => h x = true) l1 ->
  span h (l1 ++ l2) = (l1 ++ fst (span h l2), snd (span h l2)).
Proof.
  induction 1 as [|x l1 Hx H IH]; simpl; [by destruct (span h l2)|]. by rewrite Hx, IH.
Qed.

Lemma FindVMA_suffix s pre l b a :
  vma_map s = pre ++ l -> tiles 0 b pre -> tiles b MAX_ADDRESS l -> b <= a < MAX_ADDRESS ->
  exists mid w suf, l = mid ++ w :: suf /\ inside w a = true /\
    FindVMA a s = Done s (pre ++ mid, w :: suf).
Proof.
  intros E Hp Hl Ha. destruct (span_tiles _ _ _ a Hl Ha) as (mid & w & suf & El & Hw & Es).
  exists mid, w, suf. split_and!; try done. unfold FindVMA. rewrite bind_get.
  rewrite (proj2 (Z.leb_gt MAX_ADDRESS a)), E by lia. rewrite span_app_all.
  - rewrite Es. simpl. rewrite app_assoc. unfold iter_prev. simpl.
    by rewrite rev_unit, rev_involutive.
  - apply Forall_forall. intros x Hx. apply (tiles_bound _ _ _ x) in Hp; [|done].
    unfold vma_end in Hp. by zdecide.
Qed.

Lemma FindVMA_at s pre v suf b :
  vma_map s = pre ++ v :: suf -> tiles 0 b pre -> tiles b MAX_ADDRESS (v :: suf) ->
  FindVMA b s = Done s (pre, v :: suf).
Proof.
  intros E Hp Hl. pose proof Hl as (Eb & Hs & Ht). pose proof (tiles_le _ _ _ Ht).
  unfold vma_end in *.
  destruct (FindVMA_suffix s pre (v :: suf) b b E Hp Hl) as (mid & w & suf' & El & Hw & Ef); [lia|].
  destruct mid as [|x mid].
  - simpl in El. rewrite app_nil_r in Ef. by rewrite El.
  - simpl in El. injection El as <- ->. apply tiles_app in Ht as (m & H1 & H2 & _).
    apply tiles_le in H1. unfold inside in Hw. zbool. lia.
Qed.

Definition aligned (x : Z) : Prop := Z.land x CITRA_PAGE_MASK = 0.

(** The state after a range was carved: its areas are [mid]. *)
Record carved (s : VMManager) (t e : Z) (s1 : VMManager) (pre mid post : list VirtualMemoryArea)
    : Prop := {
  carved_map : vma_map s1 = pre ++ mid ++ post;
  carved_pre : tiles 0 t pre;
  carved_mid : tiles t e mid;
  carved_post : tiles e MAX_ADDRESS post;
  carved_wf : vm_wf s1;
  carved_attr : forall a, attr (vma_map s1) a = attr (vma_map s) a;
  carved_locked : is_locked s1 = is_locked s
}.

Lemma split_wf s pre v suf off :
  vm_wf s -> vma_map s = pre ++ v :: suf -> 0 < off < size v ->
  let s1 := mkVMM (pre ++ left_part off v :: right_part off v :: suf) (page_table s) (is_locked s) in
  SplitVMA (pre, v :: suf) off s = Done s1 (pre ++ [left_part off v], right_part off v :: suf) /\
  vm_wf s1 /\ (forall a, attr (vma_map s1) a = attr (vma_map s) a).
Proof.
  intros [Hok Hpt] E Ho s1. pose proof Hok as Hok'. rewrite E in Hok'.
  destruct (areas_in_space _ v Hok' ltac:(mem_list)) as [Hsp Hb].
  assert (Ha : forall a, attr (vma_map s1) a = attr (vma_map s) a).
  { intros a. rewrite E. simpl. eapply attr_split; [apply Hok'|done|done]. }
  split_and!; [by apply SplitVMA_run| |done]. split.
  - destruct Hok' as [Ht HB]. split; [by apply tiles_split|]. simpl.
    apply Forall_app in HB as [HB1 HB2]. apply Forall_cons in HB2 as [_ HB2].
    apply Forall_app. split; [done|]. constructor; [apply backed_left; [lia|done]|].
    constructor; [apply backed_right; [lia|done]|done].
  - intros a Ha'. simpl page_table. rewrite Ha. by apply Hpt.
Qed.

Lemma u32_in x : 0 <= x <= MAX_ADDRESS -> u32 x = x.
Proof. intros. unfold MAX_ADDRESS in *. apply u32_small. unfold is_u32. lia. Qed.

(** The first split, at the start of the range. *)
Lemma carve_start s t :
  vm_wf s -> 0 <= t < MAX_ADDRESS ->
  exists pre v suf, vma_map s = pre ++ v :: suf /\ inside v t = true /\
    FindVMA t s = Done s (pre, v :: suf) /\
    exists s1 pre1 l, carved s t t s1 pre1 [] l /\ l <> [] /\
      (if negb (t =? base v) then SplitVMA (pre, v :: suf) (u32 (t - base v))
       else ret (pre, v :: suf)) s = Done s1 (pre1, l) /\
      (vtype v <> VMA_Free -> joined (vma_map s) -> joined (vma_map s1)).
Proof.
  intros Hwf Ht. destruct (FindVMA_run s t (proj1 (wf_areas _ Hwf)) Ht) as (pre & v & suf & E & Hv & Ef).
  exists pre, v, suf. split_and!; try done. pose proof (wf_areas _ Hwf) as [HT _]. rewrite E in HT.
  apply tiles_app in HT as (m & H1 & H2 & H3 & H4). unfold inside in Hv. zbool. unfold vma_end in *.
  pose proof (tiles_le _ _ _ H1).
  destruct (Z.eqb_spec t (base v)) as [->|Hne]; cbn [negb].
  - exists s, pre, (v :: suf). split_and!; try done. split; try done; by rewrite ?H2.
  - assert (Ho : 0 < t - base v < size v) by lia.
    destruct (split_wf s pre v suf (t - base v) Hwf E Ho) as (Es & Hwf1 & Ha1).
    rewrite u32_in by lia.
    eexists _, _, _. split; [|split; [|split; [exact Es|]]]; [|done|].
    2:{ intros Hv. rewrite E. by apply joined_split. }
    split; try done.
    + simpl. by rewrite <-app_assoc.
    + apply tiles_app. exists m. split; [done|]. simpl. unfold vma_end. simpl. lia.
    + simpl. unfold vma_end. simpl. split_and!; try lia.
      replace (base v + (t - base v) + (size v - (t - base v))) with (base v + size v) by lia. done.
Qed.

(** The second split, at its end. *)
Lemma carve_end s t e s1 pre l :
  carved s t t s1 pre [] l -> t < e <= MAX_ADDRESS ->
  exists s2 mid post, carved s t e s2 pre mid post /\
    (is_free (attr (vma_map s1) (e - 1)) = false -> joined (vma_map s1) -> joined (vma_map s2)) /\
    (end_vma <- FindVMA e ;;
     match snd end_vma with
     | [] => ret (pre, l)
     | x :: _ => if negb (e =? base x) then SplitVMA end_vma (u32 (e - base x)) ;; FindVMA t
                 else ret (pre, l)
     end)%hle s1 = Done s2 (pre, mid ++ post).
Proof.
  intros [Em Hp _ Hl Hwf Ha Hlk] He. simpl in Em.
  destruct (Z.eq_dec e MAX_ADDRESS) as [->|Hne].
  { exists s1, l, []. split.
    - split; try done. by rewrite app_nil_r.
    - split; [done|]. erewrite bind_Done by (apply FindVMA_end; lia). simpl. by rewrite app_nil_r. }
  destruct (FindVMA_suffix s1 pre l t e Em Hp Hl) as (mid & w & suf & El & Hw & Ef); [lia|].
  erewrite bind_Done by exact Ef. cbn [snd].
  rewrite El in Hl. apply tiles_app in Hl as (m & H1 & H2 & H3 & H4).
  unfold inside in Hw. zbool. unfold vma_end in *.
  pose proof (tiles_le _ _ _ H1). pose proof (tiles_le _ _ _ Hp).
  destruct (Z.eqb_spec e (base w)) as [->|Hne']; cbn [negb].
  - exists s1, mid, (w :: suf). split; [|split; [done|by rewrite El]]. split; try done.
    + by rewrite Em, El.
    + by rewrite H2.
  - assert (Ew : vma_map s1 = (pre ++ mid) ++ w :: suf) by (by rewrite Em, El, <-app_assoc).
    destruct (split_wf s1 _ w suf (e - base w) Hwf Ew) as (Es & Hwf2 & Ha2); [lia|].
    rewrite u32_in by lia. erewrite bind_Done by exact Es.
    set (s2 := mkVMM _ _ _) in *.
    assert (Hmid : tiles t e (mid ++ [left_part (e - base w) w])).
    { apply tiles_app. exists m. split; [done|]. simpl. unfold vma_end. simpl. lia. }
    assert (Hpost : tiles e MAX_ADDRESS (right_part (e - base w) w :: suf)).
    { simpl. unfold vma_end. simpl. split_and!; try lia.
      replace (base w + (e - base w) + (size w - (e - base w))) with (base w + size w) by lia. done. }
    exists s2, (mid ++ [left_part (e - base w) w]), (right_part (e - base w) w :: suf).
    assert (E2 : vma_map s2 = pre ++ (mid ++ [left_part (e - base w) w]) ++ right_part (e - base w) w :: suf).
    { simpl. by rewrite <-!app_assoc. }
    assert (Hj : is_free (attr (vma_map s1) (e - 1)) = false -> joined (vma_map s1) -> joined (vma_map s2)).
    { rewrite (attr_elem _ _ _ w (e - 1) (proj1 (wf_areas _ Hwf))), is_free_view.
      - intros Hf%bool_decide_eq_false. rewrite Ew. by apply joined_split.
      - rewrite Ew. mem_list.
      - unfold inside, vma_end. by zdecide. }
    split; [split; try done|split; [done|]].
    + intros a. by rewrite Ha2.
    + destruct (mid ++ [left_part (e - base w) w]) as [|x mid'] eqn:Emid; [by destruct mid|].
      simpl app in E2 |- *. apply FindVMA_at; [done|done|].
      apply (tiles_app t MAX_ADDRESS (x :: mid')). eauto.
Qed.

Lemma CarveVMARange_run s t n :
  vm_wf s -> aligned t -> aligned n -> 0 <= t -> 0 < n -> t + n <= MAX_ADDRESS ->
  ((exists a, t <= a < t + n /\ is_free (attr (vma_map s) a) = true) /\
   CarveVMARange t n s = Failed s ResultInvalidAddressState) \/
  ((forall a, t <= a < t + n -> is_free (attr (vma_map s) a) = false) /\
   exists s1 pre mid post, carved s t (t + n) s1 pre mid post /\
     (joined (vma_map s) -> joined (vma_map s1)) /\
     CarveVMARange t n s = Done s1 (pre, mid ++ post)).
Proof.
  intros Hwf Hat Han H1 H2 H3.
  destruct (carve_start s t Hwf) as (pre & v & suf & E & Hv & Ef & s1 & pre1 & l & Hc & Hl & Es & Hj1); [lia|].
  unfold CarveVMARange. rewrite u32_in by lia.
  erewrite bind_Done by (unfold assert_; rewrite Han; reflexivity).
  erewrite bind_Done by (unfold assert_; rewrite Hat; reflexivity).
  erewrite bind_Done by (unfold assert_; rewrite (proj2 (Z.leb_le _ _)) by lia; reflexivity).
  erewrite bind_Done by (unfold assert_; rewrite (proj2 (Z.leb_le _ _)) by lia; reflexivity).
  erewrite bind_Done by (unfold assert_; rewrite (proj2 (Z.ltb_lt _ _)) by lia; reflexivity).
  erewrite bind_Done by exact Ef.
  pose proof (until_free s t (t + n) pre v suf (wf_areas _ Hwf) E Hv ltac:(lia)) as Hfree.
  destruct (existsb _ _) eqn:Ex.
  - left. split; [by apply Hfree|]. by erewrite bind_Failed by reflexivity.
  - right. split.
    { intros a Ha. apply not_true_iff_false. intros Hf. discriminate (proj2 Hfree). eauto. }
    erewrite bind_Done by reflexivity. erewrite bind_Done by reflexivity.
    erewrite bind_Done by exact Es.
    destruct (carve_end s t (t + n) s1 pre1 l Hc) as (s2 & mid & post & Hc2 & Hj2 & E2); [lia|].
    exists s2, pre1, mid, post. split_and!; [done| |exact E2].
    assert (Hnf : forall a, t <= a < t + n -> is_free (attr (vma_map s) a) = false).
    { intros a Ha. apply not_true_iff_false. intros Hf. discriminate (proj2 Hfree). eauto. }
    intros Hj. apply Hj2; [rewrite (carved_attr _ _ _ _ _ _ _ Hc); apply Hnf; lia|]. apply Hj1; [|done].
    specialize (Hnf t ltac:(lia)).
    rewrite (attr_elem _ _ _ v t (proj1 (wf_areas _ Hwf))), is_free_view in Hnf;
      [by apply bool_decide_eq_false in Hnf | rewrite E; mem_list | done].
Qed.

(** ** Unmapping, reprotecting, changing the state *)

Definition freed (v : VirtualMemoryArea) : VirtualMemoryArea :=
  mkVMA (base v) (size v) VMA_Free None_ MS_Free null_ref.

Definition reprotected (p : VMAPermission) (v : VirtualMemoryArea) : VirtualMemoryArea :=
  mkVMA (base v) (size v) (vtype v) p (meminfo_state v) (backing_memory v).

Definition restated (st : MemoryState) (p : VMAPermission) (v : VirtualMemoryArea) : VirtualMemoryArea :=
  mkVMA (base v) (size v) (vtype v) p st (backing_memory v).

Definition free_attributes : attributes := (VMA_Free, None_, MS_Free, 0).

Definition set_perms (p : VMAPermission) (x : attributes) : attributes :=
  let '(t, _, st, ptr) := x in (t, p, st, ptr).

Definition set_state (st : MemoryState) (p : VMAPermission) (x : attributes) : attributes :=
  let '(t, _, _, ptr) := x in (t, p, st, ptr).

Lemma range_loop_ext (body body' : VMAIter -> op VMManager VMAIter) e fuel it s :
  (forall it s, is_locked s = false -> body it s = body' it s) ->
  (forall it s s' it', is_locked s = false -> body' it s = Done s' it' -> is_locked s' = false) ->
  is_locked s = false -> range_loop body e fuel it s = range_loop body' e fuel it s.
Proof.
  intros He Hp. revert it s. induction fuel as [|fuel IH]; intros it s Hl; [done|]. simpl.
  destruct (snd it) as [|v suf]; [done|]. destruct (base v <? e); [|done].
  unfold bind. rewrite He by done. destruct (body' it s) as [s1 it1| |] eqn:E; try done.
  apply Hp in E; [|done]. unfold iter_next. destruct (snd it1); [done|]. simpl. by apply IH.
Qed.

Lemma assert_locked {A} (k : op VMManager A) s :
  (assert_unlocked ;; k)%hle s = if is_locked s then Aborted else k s.
Proof. unfold assert_unlocked, bind, get, assert_. by destruct (is_locked s). Qed.

(** Operations that leave the lock as it is. *)
Definition keeps_lock {A} (m : op VMManager A) : Prop :=
  forall s s' a, m s = Done s' a -> is_locked s' = is_locked s.

Lemma keeps_bind {A B} (m : op VMManager A) (k : A -> op VMManager B) :
  keeps_lock m -> (forall a, keeps_lock (k a)) -> keeps_lock (bind m k).
Proof.
  intros Hm Hk s s' b. unfold bind. destruct (m s) as [s1 a| |] eqn:E; try done.
  intros H. apply Hk in H. apply Hm in E. congruence.
Qed.

Lemma keeps_ret {A} (a : A) : keeps_lock (ret a).
Proof. by intros s s' x [= <- _]. Qed.

Lemma keeps_assert b : keeps_lock (assert_ b).
Proof. intros s s' x. unfold assert_. destruct b; [|done]. by intros [= <- _]. Qed.

Lemma keeps_set_map l : keeps_lock (set_map l).
Proof. by intros s s' x [= <- _]. Qed.

Lemma keeps_merge v w : keeps_lock (CanBeMergedWith v w).
Proof. apply keeps_bind; [apply keeps_assert|]. intros ?. apply keeps_ret. Qed.

Lemma keeps_deref it : keeps_lock (deref it).
Proof. unfold deref. destruct (snd it); [by intros ???|apply keeps_ret]. Qed.

Lemma modify_vma_locked f it : keeps_lock (modify_vma f it).
Proof.
  apply keeps_bind; [apply keeps_deref|]. intros v.
  apply keeps_bind; [apply keeps_bind; [apply keeps_set_map|intros ?; apply keeps_ret]|]. intros it1.
  apply keeps_bind; [by intros s s' x [= <- _]|]. intros _.
  apply keeps_bind; [apply keeps_deref|]. intros w.
  apply keeps_bind.
  { destruct (tl (snd it1)); [apply keeps_ret|].
    apply keeps_bind; [apply keeps_merge|intros ?; apply keeps_ret]. }
  intros [v1 suf1]. apply keeps_bind.
  { destruct (iter_prev _) as [[[??]?]|]; [|apply keeps_ret].
    apply keeps_bind; [apply keeps_merge|intros ?; apply keeps_ret]. }
  intros [p1 v2]. apply keeps_bind; [apply keeps_set_map|]. intros ?. apply keeps_ret.
Qed.

Lemma Unmap_modify it s : is_locked s = false -> Unmap it s = modify_vma freed it s.
Proof. intros Hl. unfold Unmap. rewrite assert_locked, Hl. done. Qed.

Lemma Reprotect_modify p it s :
  is_locked s = false -> Reprotect it p s = modify_vma (reprotected p) it s.
Proof. intros Hl. unfold Reprotect. rewrite assert_locked, Hl. done. Qed.

Lemma change_state_modify st p it s : change_state st p it s = modify_vma (restated st p) it s.
Proof. done. Qed.

Lemma run_range_ext body f e it s :
  (forall it s, is_locked s = false -> body it s = modify_vma f it s) -> is_locked s = false ->
  run_range body e it s = range_loop (modify_vma f) e (S (length (snd it))) it s.
Proof.
  intros H Hl. unfold run_range. apply range_loop_ext; [done| |done].
  intros it0 s0 s0' it' Hl0 E. apply modify_vma_locked in E. congruence.
Qed.

Lemma carved_not_free s t e s1 pre mid post :
  carved s t e s1 pre mid post ->
  (forall a, t <= a < e -> is_free (attr (vma_map s) a) = false) ->
  Forall (fun v => vtype v <> VMA_Free /\ backed v) mid.
Proof.
  intros [Em Hp Hm Hq Hwf Ha Hl] Hf. apply Forall_forall. intros v Hv.
  pose proof (tiles_bound _ _ _ v Hm Hv) as (H1 & H2 & H3). unfold vma_end in H3.
  assert (Hin : v ∈ vma_map s1) by (rewrite Em; mem_list).
  split; [|apply (areas_in_space _ v (wf_areas _ Hwf) Hin)].
  intros Et. specialize (Hf (base v) ltac:(lia)). rewrite <-Ha in Hf.
  rewrite (attr_elem _ _ _ v _ (proj1 (wf_areas _ Hwf)) Hin), is_free_view, Et in Hf; [done|].
  unfold inside, vma_end. by zdecide.
Qed.

(** Carving a range and changing its areas. *)
Lemma carve_and_modify s t n f g :
  vm_wf s -> is_locked s = false -> aligned t -> aligned n ->
  0 <= t -> 0 < n -> t + n <= MAX_ADDRESS ->
  same_extent f -> (forall v a, view (f v) a = g (view v a)) ->
  (forall v n a, mergeable (f v) n = true -> view (f n) a = view n a) ->
  (forall v, vtype v <> VMA_Free -> backed v -> backed (f v)) ->
  ((exists a, t <= a < t + n /\ is_free (attr (vma_map s) a) = true) /\
   CarveVMARange t n s = Failed s ResultInvalidAddressState) \/
  ((forall a, t <= a < t + n -> is_free (attr (vma_map s) a) = false) /\
   exists s1 pre mid post s', carved s t (t + n) s1 pre mid post /\
     CarveVMARange t n s = Done s1 (pre, mid ++ post) /\
     range_loop (modify_vma f) (t + n) (S (length (mid ++ post))) (pre, mid ++ post) s1 = Done s' tt /\
     vm_wf s' /\ is_locked s' = false /\
     (forall a, attr (vma_map s') a =
       if (t <=? a) && (a <? t + n) then g <$> attr (vma_map s) a else attr (vma_map s) a) /\
     (joined (vma_map s) -> joined (vma_map s'))).
Proof.
  intros Hwf Hl Hat Han H1 H2 H3 Hfe Hfv Hfm Hfb.
  destruct (CarveVMARange_run s t n Hwf Hat Han H1 H2 H3) as
    [?|(Hfree & s1 & pre & mid & post & Hc & Hj & E)]; [by left|right].
  split; [done|]. pose proof (carved_not_free _ _ _ _ _ _ _ Hc Hfree) as Hmid.
  destruct (range_run f g Hfe Hfv Hfm (t + n) (S (length (mid ++ post))) s1 pre mid post t)
    as (s' & E' & Hwf' & Hl' & Ha' & Hj').
  - apply (carved_wf _ _ _ _ _ _ _ Hc).
  - apply (carved_map _ _ _ _ _ _ _ Hc).
  - apply (carved_mid _ _ _ _ _ _ _ Hc).
  - apply (carved_post _ _ _ _ _ _ _ Hc).
  - apply (List.Forall_impl _ (fun v H => Hfb v (proj1 H) (proj2 H)) Hmid).
  - lia.
  - exists s1, pre, mid, post, s'. split_and!; try done.
    + rewrite Hl'. by rewrite (carved_locked _ _ _ _ _ _ _ Hc).
    + intros a. by rewrite Ha', (carved_attr _ _ _ _ _ _ _ Hc).
    + auto.
Qed.

(** ** The area that is left after unmapping *)

Definition is_freed (v : VirtualMemoryArea) : Prop :=
  vtype v = VMA_Free /\ permissions v = None_ /\ meminfo_state v = MS_Free.

Lemma freed_mergeable u v : is_freed u -> mergeable u (freed v) = true.
Proof.
  intros (H1 & H2 & H3). apply mergeable_true. simpl. split_and!; try done.
  intros H. congruence.
Qed.

Lemma freed_not_mergeable v w : vtype w <> VMA_Free -> mergeable (freed v) w = false.
Proof.
  intros H. apply not_true_iff_false. intros (_ & _ & Ht & _)%mergeable_true. by apply H.
Qed.

Lemma view_freed v w a : view w a = view (freed v) a -> is_freed w.
Proof. unfold view, is_freed. simpl. intros [= H1 H2 H3 _]. auto. Qed.

Lemma tiles_start a b hi l : tiles a hi l -> tiles b hi l -> a = b.
Proof. destruct l as [|v l]; simpl; [congruence|]. by intros (<- & _) (<- & _). Qed.

Lemma merged_end pre v suf pre' v' suf' b :
  merged pre v suf pre' v' suf' -> tiles b MAX_ADDRESS suf' -> vma_end v' = b.
Proof.
  intros Hm Hb. pose proof (merged_ok _ _ _ _ _ _ Hm) as [Ht _].
  apply tiles_app in Ht as (m & _ & _ & _ & Ht). by eapply tiles_start.
Qed.

(** The new area covers the old one. *)
Lemma merged_extent pre v suf pre' v' suf' :
  areas_ok (pre ++ v :: suf) -> merged pre v suf pre' v' suf' ->
  base v' <= base v /\ vma_end v <= vma_end v'.
Proof.
  intros [(m & Hp & <- & Hs & Hq)%tiles_app _] Hm. split.
  - destruct (merged_pre _ _ _ _ _ _ Hm) as [[_ ->]|(x & -> & _ & ->)]; [done|].
    apply tiles_app in Hp as (k & _ & <- & Hx & Hp). simpl in Hp. unfold vma_end in Hp. lia.
  - destruct (merged_suf _ _ _ _ _ _ Hm) as [->|(n & -> & _)].
    + by rewrite (merged_end _ _ _ _ _ _ _ Hm Hq).
    + destruct Hq as (Hb & Hn & Hq). rewrite (merged_end _ _ _ _ _ _ _ Hm Hq). unfold vma_end in *. lia.
Qed.

Lemma unmap_cover mid fuel s p u post b0 e s' :
  vm_wf s -> vma_map s = p ++ u :: mid ++ post -> is_freed u -> base u <= b0 ->
  Forall (fun v => vtype v <> VMA_Free /\ backed v) mid -> tiles (vma_end u) e mid ->
  tiles e MAX_ADDRESS post ->
  range_loop (modify_vma freed) e fuel (p ++ [u], mid ++ post) s = Done s' tt ->
  exists x, x ∈ vma_map s' /\ base x <= b0 /\ e <= vma_end x.
Proof.
  revert fuel s p u. induction mid as [|v mid IH];
    intros fuel s p u Hwf E Hu Hb Hnf Hm Hp Hr; (destruct fuel as [|fuel]; [done|]).
  - simpl in Hm. simpl app in *. rewrite range_stop in Hr.
    + injection Hr as <-. exists u. rewrite E. split_and!; [mem_list|done|lia].
    + intros n Hn. apply (tiles_head _ _ _ _ Hp) in Hn. lia.
  - destruct Hm as (Eb & Hs & Hm). apply Forall_cons in Hnf as [[Hv Hbv] Hnf].
    pose proof (tiles_le _ _ _ Hm) as Hle. unfold vma_end in Hle.
    simpl in Hr. rewrite (proj2 (Z.ltb_lt (base v) e)) in Hr by lia.
    destruct (modify_vma_run freed s (p ++ [u]) v (mid ++ post) Hwf) as
      (pre' & v' & suf' & s1 & Hmg & Er & E1 & Hl1 & Hwf1 & _); [by rewrite <-app_assoc|done|done|].
    erewrite bind_Done in Hr by exact Er.
    erewrite bind_Done in Hr by (unfold iter_next; simpl; reflexivity). simpl fst in Hr.
    assert (Hv' : is_freed v') by (eapply view_freed, (merged_view _ _ _ _ _ _ Hmg 0)).
    assert (Hbase : base v' <= b0).
    { destruct (merged_pre _ _ _ _ _ _ Hmg) as [[-> _]|(x & Ex & _ & ->)].
      - pose proof (merged_stop _ _ _ _ _ _ Hmg u eq_refl) as Hst.
        rewrite last_snoc, freed_mergeable in Hst by done. by specialize (Hst eq_refl).
      - apply app_inj_tail in Ex as [_ <-]. done. }
    destruct (merged_suf _ _ _ _ _ _ Hmg) as [->|(x & Ex & Hmx)].
    + assert (Hpost : tiles (vma_end v) MAX_ADDRESS (mid ++ post)) by (apply tiles_app; eauto).
      pose proof (merged_end _ _ _ _ _ _ _ Hmg Hpost) as Hend.
      eapply (IH fuel s1 pre' v'); try done. by rewrite Hend.
    + destruct mid as [|x' mid].
      * simpl in Ex. simpl in Hm. subst post. destruct Hp as (Hx & Hsx & Hp).
        pose proof (merged_end _ _ _ _ _ _ _ Hmg Hp) as Hend. unfold vma_end in Hend.
        destruct fuel as [|fuel]; [done|]. rewrite range_stop in Hr.
        -- injection Hr as <-. exists v'. rewrite E1. unfold vma_end. split_and!; [mem_list|done|lia].
        -- intros n Hn. apply (tiles_head _ _ _ _ Hp) in Hn. unfold vma_end in Hn. lia.
      * simpl in Ex. injection Ex as -> <-. apply Forall_cons in Hnf as [[Hnx _] _].
        rewrite (freed_not_mergeable v x) in Hmx by done. done.
Qed.

Lemma UnmapRange_run s t n :
  vm_wf s -> is_locked s = false -> aligned t -> aligned n ->
  0 <= t -> 0 < n -> t + n <= MAX_ADDRESS ->
  ((exists a, t <= a < t + n /\ is_free (attr (vma_map s) a) = true) /\
   UnmapRange t n s = Failed s ResultInvalidAddressState) \/
  ((forall a, t <= a < t + n -> is_free (attr (vma_map s) a) = false) /\
   exists s', UnmapRange t n s = Done s' tt /\ vm_wf s' /\ is_locked s' = false /\
     (forall a, attr (vma_map s') a =
       if (t <=? a) && (a <? t + n) then Some free_attributes else attr (vma_map s) a) /\
     (joined (vma_map s) -> joined (vma_map s'))).
Proof.
  intros Hwf Hl Hat Han H1 H2 H3. unfold UnmapRange. rewrite assert_locked, Hl.
  destruct (carve_and_modify s t n freed (fun _ => free_attributes) Hwf Hl Hat Han H1 H2 H3)
    as [[Hf E]|(Hf & s1 & pre & mid & post & s' & Hc & E & Er & Hwf' & Hl' & Ha & Hj)].
  - done.
  - done.
  - intros v w a (Hp & Hst & Ht & _)%mergeable_true. simpl in *. unfold view. simpl.
    by rewrite <-Hp, <-Hst, <-Ht.
  - done.
  - left. split; [done|]. by erewrite bind_Failed by exact E.
  - right. split; [done|]. erewrite bind_Done by exact E. rewrite u32_in by lia.
    erewrite bind_Done.
    2:{ rewrite (run_range_ext Unmap freed); [exact Er|exact Unmap_modify|].
        by rewrite (carved_locked _ _ _ _ _ _ _ Hc). }
    assert (Hcov : exists x, x ∈ vma_map s' /\ base x <= t /\ t + n <= vma_end x).
    { pose proof (carved_not_free _ _ _ _ _ _ _ Hc Hf) as Hnf.
      destruct Hc as [Em Hp Hm Hq Hwf1 _ Hl1].
      destruct mid as [|v mid]; [simpl in Hm; lia|]. destruct Hm as (Eb & Hs & Hm).
      pose proof (tiles_le _ _ _ Hm). unfold vma_end in *.
      simpl app in Er. rewrite range_step in Er by lia.
      destruct (modify_vma_run freed s1 pre v (mid ++ post) Hwf1 Em) as
        (pre' & v' & suf' & s2 & Hmg & Em2 & E2 & _ & Hwf2 & _); [done|done|].
      erewrite bind_Done in Er by exact Em2.
      erewrite bind_Done in Er by (unfold iter_next; simpl; reflexivity). simpl fst in Er.
      apply Forall_cons in Hnf as [[Hv _] Hnf].
      assert (Hbase : base v' <= t).
      { destruct (merged_pre _ _ _ _ _ _ Hmg) as [[_ ->]|(x & Ex & _ & ->)]; [simpl; lia|].
        subst pre. apply tiles_app in Hp as (m & _ & Hx & Hsx & Hp). simpl in Hp.
        unfold vma_end in Hp. lia. }
      assert (Hv' : is_freed v') by (eapply view_freed, (merged_view _ _ _ _ _ _ Hmg 0)).
      destruct (merged_suf _ _ _ _ _ _ Hmg) as [->|(x & Ex & Hmx)].
      - assert (Hpost : tiles (base v + size v) MAX_ADDRESS (mid ++ post)) by (apply tiles_app; eauto).
        pose proof (merged_end _ _ _ _ _ _ _ Hmg Hpost) as Hend.
        refine (unmap_cover mid _ s2 pre' v' post t (t + n) s' _ _ _ _ _ _ _ Er); try done. by rewrite Hend.
      - destruct mid as [|x' mid].
        + simpl in Ex, Hm. subst post. destruct Hq as (Hx & Hsx & Hq).
          pose proof (merged_end _ _ _ _ _ _ _ Hmg Hq) as Hend. unfold vma_end in Hend, Hq.
          cbn [length app] in Er. rewrite range_stop in Er.
          * injection Er as <-. exists v'. rewrite E2. split_and!; [mem_list|done|lia].
          * intros y Hy. apply (tiles_head _ _ _ _ Hq) in Hy. lia.
        + simpl in Ex. injection Ex as -> <-. apply Forall_cons in Hnf as [[Hnx _] _].
          rewrite (freed_not_mergeable v x) in Hmx by done. done. }
    destruct Hcov as (x & Hx & Hx1 & Hx2).
    pose proof (wf_areas _ Hwf') as [Ht' _].
    destruct (FindVMA_run s' t Ht' ltac:(lia)) as (p & w & q & Ew & Hw & Ef).
    assert (w = x) as ->.
    { apply (tiles_inside _ _ _ _ _ t Ht'); [rewrite Ew; mem_list|done|done|].
      unfold inside. zdecide. done. }
    erewrite bind_Done by exact Ef. erewrite bind_Done by reflexivity.
    unfold assert_. unfold vma_end in Hx2. rewrite (proj2 (Z.leb_le n (size x))) by lia.
    exists s'. split_and!; try done. intros a. rewrite Ha.
    destruct (Z.leb_spec t a), (Z.ltb_spec a (t + n)); simpl; try done.
    destruct (attr_inside _ _ _ a (proj1 (wf_areas _ Hwf)) ltac:(lia)) as (y & ->). done.
Qed.

Lemma ReprotectRange_run s t n p :
  vm_wf s -> is_locked s = false -> aligned t -> aligned n ->
  0 <= t -> 0 < n -> t + n <= MAX_ADDRESS ->
  ((exists a, t <= a < t + n /\ is_free (attr (vma_map s) a) = true) /\
   ReprotectRange t n p s = Failed s ResultInvalidAddressState) \/
  ((forall a, t <= a < t + n -> is_free (attr (vma_map s) a) = false) /\
   exists s', ReprotectRange t n p s = Done s' tt /\ vm_wf s' /\ is_locked s' = false /\
     (forall a, attr (vma_map s') a =
       if (t <=? a) && (a <? t + n) then set_perms p <$> attr (vma_map s) a
       else attr (vma_map s) a) /\
     (joined (vma_map s) -> joined (vma_map s'))).
Proof.
  intros Hwf Hl Hat Han H1 H2 H3. unfold ReprotectRange. rewrite assert_locked, Hl.
  destruct (carve_and_modify s t n (reprotected p) (set_perms p) Hwf Hl Hat Han H1 H2 H3)
    as [[Hf E]|(Hf & s1 & pre & mid & post & s' & Hc & E & Er & Hwf' & Hl' & Ha & Hj)].
  - done.
  - done.
  - intros v w a (Hp & _)%mergeable_true. simpl in Hp. unfold view. simpl. by rewrite <-Hp.
  - intros v Hv Hb. unfold backed in *. simpl. by destruct (vtype v).
  - left. split; [done|]. by erewrite bind_Failed by exact E.
  - right. split; [done|]. erewrite bind_Done by exact E. rewrite u32_in by lia.
    exists s'. split_and!; try done.
    rewrite (run_range_ext _ (reprotected p)); [exact Er| |].
    + intros it s0 Hl0. by apply Reprotect_modify.
    + by rewrite (carved_locked _ _ _ _ _ _ _ Hc).
Qed.

Definition attr_state_ok (st : MemoryState) (p : VMAPermission) (x : option attributes) : bool :=
  match x with
  | Some (_, q, st', _) =>
      bool_decide (st' = st) &&
      (Z.land (VMAPermission_value q) (VMAPermission_value p) =? VMAPermission_value p)
  | None => false
  end.

Lemma state_ok_attr st p v a : state_ok st p v = attr_state_ok st p (Some (view v a)).
Proof. done. Qed.

Lemma until_state_ok st p s t e pre v suf :
  areas_ok (vma_map s) -> vma_map s = pre ++ v :: suf -> inside v t = true -> t < e ->
  forallb (state_ok st p) (until e (pre, v :: suf)) = true <->
  forall a, t <= a < Z.min e MAX_ADDRESS -> attr_state_ok st p (attr (vma_map s) a) = true.
Proof.
  intros [Ht _] E Hv Hte. pose proof Ht as Ht'. rewrite E in Ht'.
  apply tiles_app in Ht' as (m & Hp & Hs). pose proof Hv as Hv'. unfold inside in Hv'. zbool.
  rewrite forallb_forall. split.
  - intros Hall a Ha. pose proof (tiles_le _ _ _ Hp) as Hm.
    destruct (attr_inside _ _ _ a Ht ltac:(destruct Hs as (<- & _); lia)) as (x & Ex).
    rewrite E, (attr_app _ _ _ _ _ a Hp Hs) in Ex |- *.
    destruct Hs as (<- & Hs0 & Hs). rewrite (proj2 (Z.ltb_ge a (base v))) in Ex |- * by lia.
    unfold attr in *. destruct (find (fun v => inside v a) (v :: suf)) as [w|] eqn:Ew; [|done].
    apply find_some in Ew as [Hw Hwa]. apply list_elem_of_In in Hw.
    change (attr_state_ok st p (Some (view w a)) = true). rewrite <-state_ok_attr. apply Hall.
    apply list_elem_of_In. rewrite (until_elem e pre (v :: suf) (base v) MAX_ADDRESS) by done.
    split; [done|]. unfold inside in Hwa. zbool. lia.
  - intros Hall w Hw%list_elem_of_In.
    apply (until_elem e pre _ _ _ w Hs) in Hw as [Hw Hlt].
    assert (Hw2 : base w <= Z.max (base w) t < vma_end w /\ vma_end w <= MAX_ADDRESS).
    { pose proof (tiles_bound _ _ _ w Hs Hw). apply elem_of_cons in Hw as [->|Hw]; [lia|].
      destruct Hs as (_ & _ & Hs).
      apply (tiles_bound _ _ _ w) in Hs; [|done]. unfold vma_end in *. lia. }
    rewrite (state_ok_attr st p w (Z.max (base w) t)).
    rewrite <-(attr_elem _ _ _ w _ Ht); [apply Hall; lia| |].
    + rewrite E. apply elem_of_app. by right.
    + unfold inside. by zdecide.
Qed.

Lemma ChangeMemoryState_run s t n es ep ns np :
  vm_wf s -> is_locked s = false -> aligned t -> aligned n ->
  0 <= t -> 0 < n -> t + n <= MAX_ADDRESS ->
  let ok := forall a, t <= a < t + n ->
    is_free (attr (vma_map s) a) = false /\ attr_state_ok es ep (attr (vma_map s) a) = true in
  (~ ok /\ ChangeMemoryState t n es ep ns np s = Failed s ResultInvalidAddressState) \/
  (ok /\ exists s', ChangeMemoryState t n es ep ns np s = Done s' tt /\ vm_wf s' /\
     is_locked s' = false /\
     (forall a, attr (vma_map s') a =
       if (t <=? a) && (a <? t + n) then set_state ns np <$> attr (vma_map s) a
       else attr (vma_map s) a) /\
     (joined (vma_map s) -> joined (vma_map s'))).
Proof.
  intros Hwf Hl Hat Han H1 H2 H3 ok. unfold ChangeMemoryState. rewrite bind_get, Hl, u32_in by lia.
  destruct (FindVMA_run s t (proj1 (wf_areas _ Hwf))) as (pre0 & v & suf & E0 & Hv & Ef); [lia|].
  erewrite bind_Done by exact Ef. erewrite bind_Done by reflexivity.
  pose proof (until_state_ok es ep s t (t + n) pre0 v suf (wf_areas _ Hwf) E0 Hv ltac:(lia)) as Hst.
  rewrite Z.min_l in Hst by lia.
  destruct (forallb _ _) eqn:Eall.
  2:{ left. split; [|by erewrite bind_Failed by reflexivity].
      intros Hok. discriminate (proj2 Hst). intros a Ha. by apply Hok. }
  erewrite bind_Done by reflexivity.
  destruct (carve_and_modify s t n (restated ns np) (set_state ns np) Hwf Hl Hat Han H1 H2 H3)
    as [[Hf E]|(Hf & s1 & pre & mid & post & s' & Hc & E & Er & Hwf' & Hl' & Ha & Hj)].
  - done.
  - done.
  - intros w x a (Hp & Hs & _)%mergeable_true. simpl in Hp, Hs. unfold view. simpl.
    by rewrite <-Hp, <-Hs.
  - intros w Hw Hb. unfold backed in *. simpl. by destruct (vtype w).
  - left. split; [|by erewrite bind_Failed by exact E].
    destruct Hf as (a & Ha & Hf). intros Hok. destruct (Hok a Ha). congruence.
  - right. split; [intros a Ha'; split; [by apply Hf|by apply Hst]|].
    erewrite bind_Done by exact E. exists s'. split_and!; try done.
Qed.

(** ** Mapping *)

(** [[t, t + n)] lies in a single free area. *)
Definition free_area (l : list VirtualMemoryArea) (t n : Z) : Prop :=
  exists v, v ∈ l /\ vtype v = VMA_Free /\ base v <= t /\ t + n <= vma_end v.

Lemma carve_free_end s pre v suf e :
  vm_wf s -> vma_map s = pre ++ v :: suf -> base v < e <= vma_end v ->
  exists s1 w q, vma_map s1 = pre ++ w :: q /\ base w = base v /\ vma_end w = e /\
    vtype w = vtype v /\ vm_wf s1 /\ (forall a, attr (vma_map s1) a = attr (vma_map s) a) /\
    is_locked s1 = is_locked s /\ (joined (v :: suf) -> joined q) /\
    (if negb (e - base v =? size v) then
       let* (pre, suf) := SplitVMA (pre, v :: suf) (e - base v) in
       match iter_prev (pre, suf) with
       | None => fun _ => Aborted
       | Some (pre, v, suf) => ret (pre, v :: suf)
       end
     else ret (pre, v :: suf))%hle s = Done s1 (pre, w :: q).
Proof.
  intros Hwf E He. unfold vma_end in He.
  destruct (Z.eqb_spec (e - base v) (size v)) as [Heq|Hne]; cbn [negb].
  - exists s, v, suf. split_and!; try done; [unfold vma_end; lia|]. by intros [? _]%joined_cons.
  - destruct (split_wf s pre v suf (e - base v) Hwf E) as (Es & Hwf1 & Ha1); [lia|].
    erewrite bind_Done by exact Es. unfold iter_prev. cbn [fst snd].
    rewrite rev_unit, rev_involutive.
    set (s1 := mkVMM _ _ _) in *. exists s1, (left_part (e - base v) v), (right_part (e - base v) v :: suf).
    split; [done|]. split; [done|]. split; [unfold vma_end; simpl; lia|]. by split_and!.
Qed.

Lemma carve_free_start s s1 pre w q t e :
  vm_wf s1 -> vma_map s1 = pre ++ w :: q -> base w <= t < e -> vma_end w = e ->
  (forall a, attr (vma_map s1) a = attr (vma_map s) a) -> is_locked s1 = is_locked s ->
  exists s2 p x, carved s t e s2 p [x] q /\
    (if negb (t - base w =? 0) then SplitVMA (pre, w :: q) (t - base w) else ret (pre, w :: q)) s1 =
    Done s2 (p, x :: q) /\ vtype x = vtype w /\ (joined (pre ++ [w]) -> joined p).
Proof.
  intros Hwf E Ht He Ha Hl. pose proof (proj1 (wf_areas _ Hwf)) as HT. rewrite E in HT.
  destruct (Z.eqb_spec (t - base w) 0) as [Heq|Hne]; cbn [negb].
  - apply tiles_app in HT as (m & H1 & H2 & H3 & H4).
    exists s1, pre, w. split_and!; try done; [|by intros (? & _)%joined_app]. split; try done.
    + replace t with m by lia. done.
    + simpl. split_and!; [lia|lia|done].
    + by rewrite <-He.
  - destruct (split_wf s1 pre w q (t - base w) Hwf E) as (Es & Hwf1 & Ha1);
      [unfold vma_end in He; lia|].
    apply tiles_app in HT as (m & H1 & H2 & H3 & H4).
    set (s2 := mkVMM _ _ _) in *.
    exists s2, (pre ++ [left_part (t - base w) w]), (right_part (t - base w) w). split_and!; try done.
    + split; try done.
      * simpl. by rewrite <-app_assoc.
      * apply tiles_app. exists m. split; [done|]. simpl. unfold vma_end. simpl. lia.
      * simpl. unfold vma_end in *. simpl. lia.
      * by rewrite <-He.
      * intros a. by rewrite Ha1.
    + intros (Hp & _ & Hj)%joined_app. apply joined_app. split_and!; try done.
      intros y z Hy [= <-]. exact (Hj y w Hy eq_refl).
Qed.

Lemma CarveVMA_run s t n :
  vm_wf s -> aligned t -> aligned n -> 0 <= t -> 0 < n -> t + n <= MAX_ADDRESS ->
  (~ free_area (vma_map s) t n /\ CarveVMA t n s = Failed s ResultInvalidAddressState) \/
  (free_area (vma_map s) t n /\
   exists s1 pre x post, carved s t (t + n) s1 pre [x] post /\
     (joined (vma_map s) -> joined pre /\ joined post) /\
     CarveVMA t n s = Done s1 (pre, x :: post)).
Proof.
  intros Hwf Hat Han H1 H2 H3. pose proof (wf_areas _ Hwf) as Hok.
  destruct (FindVMA_run s t (proj1 Hok)) as (pre & v & suf & E & Hv & Ef); [lia|].
  assert (Hin : v ∈ vma_map s) by (rewrite E; mem_list).
  destruct (areas_in_space _ v Hok Hin) as [(Hb0 & Hs0 & He0) _].
  pose proof Hv as Hv'. unfold inside in Hv'. zbool.
  unfold CarveVMA. erewrite bind_Done by (unfold assert_; rewrite Han; reflexivity).
  erewrite bind_Done by (unfold assert_; rewrite Hat; reflexivity).
  erewrite bind_Done by exact Ef. cbn [snd].
  rewrite (u32_in (t - base v)), (u32_in (t - base v + n)) by lia.
  assert (Hfa : free_area (vma_map s) t n <-> vtype v = VMA_Free /\ t - base v + n <= size v).
  { unfold vma_end in *. split.
    - intros (w & Hw & Hf & Hw1 & Hw2).
      assert (w = v) as ->; [|split; [done|unfold vma_end in Hw2; lia]].
      apply (tiles_inside _ _ _ _ _ t (proj1 Hok) Hw Hin); [|done].
      unfold inside. by zdecide.
    - intros [Hf Hn]. exists v. split_and!; try done. unfold vma_end. lia. }
  rewrite Hfa. unfold vma_end in *. destruct (bool_decide_reflect (vtype v = VMA_Free)) as [Hf|Hf].
  2:{ left. split; [tauto|]. by erewrite bind_Failed by reflexivity. }
  erewrite bind_Done by reflexivity.
  destruct (Z.leb_spec (t - base v + n) (size v)) as [Hle|Hgt].
  2:{ left. split; [lia|]. by erewrite bind_Failed by reflexivity. }
  erewrite bind_Done by reflexivity. right. split; [done|].
  destruct (carve_free_end s pre v suf (t + n) Hwf E ltac:(unfold vma_end; lia))
    as (s1 & w & q & E1 & Hb & He & Hty & Hwf1 & Ha1 & Hl1 & Hj1 & Ec).
  replace (t + n - base v) with (t - base v + n) in Ec by lia.
  erewrite bind_Done by exact Ec. rewrite <-Hb.
  destruct (carve_free_start s s1 pre w q t (t + n) Hwf1 E1) as (s2 & p & x & Hc & Es & _ & Hj2); try done.
  { lia. }
  exists s2, p, x, q. split_and!; try done. rewrite E. intros (Hp & Hq & Hpq)%joined_app. split; [|by apply Hj1].
  apply Hj2, joined_app. split_and!; try done. intros y z Hy [= <-] ?. rewrite Hty. by apply (Hpq y).
Qed.

(** The memory given to a mapping is a part of one allocation. *)
Definition memory_ok (m : MemoryRef) (n : Z) : Prop :=
  exists b, backing_mem m = Some b /\ mems b /\ 0 <= offset m /\ offset m + n <= mem_size b.

Lemma memory_ok_nonnull m n : memory_ok m n -> 0 < GetPtr m.
Proof.
  intros (b & E & Hb & Ho & _). unfold GetPtr. rewrite E. pose proof (mems_nonnull b Hb). lia.
Qed.

Definition mapped (m : MemoryRef) (st : MemoryState) (v : VirtualMemoryArea) : VirtualMemoryArea :=
  mkVMA (base v) (size v) BackingMemory ReadWrite st m.

Lemma MapBackingMemory_run s t m n st :
  vm_wf s -> is_locked s = false -> memory_ok m n -> aligned t -> aligned n ->
  0 <= t -> 0 < n -> t + n <= MAX_ADDRESS ->
  (~ free_area (vma_map s) t n /\ MapBackingMemory t m n st s = Failed s ResultInvalidAddressState) \/
  (free_area (vma_map s) t n /\
   exists s' pre' v' suf', MapBackingMemory t m n st s = Done s' (pre', v' :: suf') /\
     vma_map s' = pre' ++ v' :: suf' /\ base v' <= t /\ t + n <= vma_end v' /\
     vm_wf s' /\ is_locked s' = false /\
     (forall a, attr (vma_map s') a =
       if (t <=? a) && (a <? t + n) then Some (BackingMemory, ReadWrite, st, GetPtr m + (a - t))
       else attr (vma_map s) a) /\
     (joined (vma_map s) -> joined (vma_map s'))).
Proof.
  intros Hwf Hl Hm Hat Han H1 H2 H3. pose proof (memory_ok_nonnull m n Hm) as Hp.
  unfold MapBackingMemory. rewrite assert_locked, Hl.
  erewrite bind_Done by (unfold assert_; rewrite (proj2 (Z.eqb_neq _ _)) by lia; reflexivity).
  destruct (CarveVMA_run s t n Hwf Hat Han H1 H2 H3) as [[Hf E]|(Hf & s1 & pre & x & post & Hc & Hj & E)].
  { left. split; [done|]. by erewrite bind_Failed by exact E. }
  right. split; [done|]. erewrite bind_Done by exact E.
  pose proof (carved_mid _ _ _ _ _ _ _ Hc) as (Hbx & _ & Hex). simpl in Hex. unfold vma_end in Hex.
  assert (Hsx : size x = n) by lia.
  destruct (modify_vma_run (mapped m st) s1 pre x post (carved_wf _ _ _ _ _ _ _ Hc)
              (carved_map _ _ _ _ _ _ _ Hc)) as (pre' & v' & suf' & s' & Hmg & Er & Em & Hl' & Hwf' & Ha & Hj').
  - done.
  - unfold backed. simpl. by rewrite Hsx.
  - pose proof (carved_wf _ _ _ _ _ _ _ Hc) as Hwf1. pose proof (wf_areas _ Hwf1) as Hok1.
    rewrite (carved_map _ _ _ _ _ _ _ Hc) in Hok1.
    assert (Hok2 : areas_ok (pre ++ mapped m st x :: post)).
    { apply (areas_modify _ x); try done. unfold backed. simpl. by rewrite Hsx. }
    destruct (merged_extent _ _ _ _ _ _ Hok2 Hmg) as [Hb1 Hb2]. simpl in Hb1. unfold vma_end in Hb2 at 1.
    simpl in Hb2. exists s', pre', v', suf'. split_and!; try done; try lia.
    + unfold modify_vma in Er. erewrite bind_Done in Er |- * by reflexivity.
      erewrite bind_Done by (unfold assert_; rewrite Hsx, Z.eqb_refl; reflexivity). exact Er.
    + rewrite Hl'. by rewrite (carved_locked _ _ _ _ _ _ _ Hc).
    + intros a. rewrite Ha, (carved_attr _ _ _ _ _ _ _ Hc). unfold inside, vma_end.
      rewrite Hbx, Hsx. destruct ((t <=? a) && (a <? t + n)); [|done].
      unfold view. simpl. by rewrite Hbx.
    + intros [Hp1 Hp2]%Hj. auto.
Qed.

(** Free neighbours being one area, a range of free addresses lies in one area. *)
Lemma joined_free_area l t n :
  areas_ok l -> joined l -> 0 <= t -> 0 < n -> t + n <= MAX_ADDRESS ->
  free_area l t n <-> forall a, t <= a < t + n -> is_free (attr l a) = true.
Proof.
  intros Hok Hj H1 H2 H3. pose proof (proj1 Hok) as Ht. split.
  - intros (v & Hv & Hf & Hb & He) a Ha.
    rewrite (attr_elem _ _ _ v a Ht Hv), is_free_view by (unfold inside; by zdecide).
    by apply bool_decide_eq_true.
  - intros Hall. destruct (span_tiles _ _ _ t Ht ltac:(lia)) as (pre & v & suf & -> & Hv & _).
    pose proof (Hall t ltac:(lia)) as Hf. rewrite (attr_elem _ _ _ v t Ht) in Hf; [|mem_list|done].
    rewrite is_free_view in Hf. apply bool_decide_eq_true in Hf.
    unfold inside in Hv. zbool. exists v. split_and!; [mem_list|done|lia|].
    destruct (Z.le_gt_cases (t + n) (vma_end v)) as [|Hgt]; [done|exfalso].
    pose proof Ht as (m & _ & _ & _ & Hs)%tiles_app. destruct suf as [|w suf]; [simpl in Hs; lia|].
    apply joined_app in Hj as (_ & [_ Hj]%joined_cons & _). apply (Hj w eq_refl Hf).
    destruct Hs as (Hb & Hsz & _).
    pose proof (Hall (base w) ltac:(lia)) as Hfw.
    rewrite (attr_elem _ _ _ w (base w) Ht) in Hfw; [|mem_list|unfold inside, vma_end; by zdecide].
    rewrite is_free_view in Hfw. by apply bool_decide_eq_true in Hfw.
Qed.

Lemma Reset_run s :
  is_locked s = false -> (forall a, pt_lookup empty_table a = 0) ->
  exists s', Reset s = Done s' tt /\ vm_wf s' /\ is_locked s' = false /\
    vma_map s' = [initial_vma].
Proof.
  intros Hl He. unfold Reset. rewrite assert_locked, Hl.
  eexists. split; [reflexivity|]. split_and!; try done. split.
  - split; [done|]. by constructor.
  - intros a Ha. simpl. rewrite lookup_UnmapRegion, He. unfold attr. simpl. by destruct (inside _ _), (_ && _).
Qed.

(** ** Requests *)

(** The operations that a caller asks for, with well-formed arguments. *)
Inductive request :=
  | RMap (target : Z) (memory : MemoryRef) (n : Z) (state : MemoryState)
  | RUnmap (target n : Z)
  | RReprotect (target n : Z) (p : VMAPermission)
  | RChange (target n : Z) (es : MemoryState) (ep : VMAPermission) (ns : MemoryState) (np : VMAPermission).

Definition request_range (r : request) : Z * Z :=
  match r with
  | RMap t _ n _ | RUnmap t n | RReprotect t n _ | RChange t n _ _ _ _ => (t, n)
  end.

Definition valid_request (r : request) : Prop :=
  let (t, n) := request_range r in
  aligned t /\ aligned n /\ 0 <= t /\ 0 < n /\ t + n <= MAX_ADDRESS /\
  match r with
  | RMap _ m n _ => memory_ok m n
  | _ => True
  end.

Definition exec (r : request) : op VMManager unit :=
  match r with
  | RMap t m n st => (MapBackingMemory t m n st ;; ret tt)%hle
  | RUnmap t n => UnmapRange t n
  | RReprotect t n p => ReprotectRange t n p
  | RChange t n es ep ns np => ChangeMemoryState t n es ep ns np
  end.

(** When a request is granted. *)
Definition allowed (r : request) (l : list VirtualMemoryArea) : Prop :=
  match r with
  | RMap t _ n _ => forall a, t <= a < t + n -> is_free (attr l a) = true
  | RUnmap t n | RReprotect t n _ => forall a, t <= a < t + n -> is_free (attr l a) = false
  | RChange t n es ep _ _ => forall a, t <= a < t + n ->
      is_free (attr l a) = false /\ attr_state_ok es ep (attr l a) = true
  end.

(** The attributes that a granted request gives to an address of its range. *)
Definition new_attributes (r : request) (a : Z) (x : attributes) : attributes :=
  match r with
  | RMap t m _ st => (BackingMemory, ReadWrite, st, GetPtr m + (a - t))
  | RUnmap _ _ => free_attributes
  | RReprotect _ _ p => set_perms p x
  | RChange _ _ _ _ ns np => set_state ns np x
  end.

Definition effect (r : request) (m : Z -> option attributes) (a : Z) : option attributes :=
  let (t, n) := request_range r in
  if (t <=? a) && (a <? t + n) then new_attributes r a <$> m a else m a.

Definition vm_good (s : VMManager) : Prop :=
  vm_wf s /\ is_locked s = false /\ joined (vma_map s).

Definition granted (r : request) (s s' : VMManager) : Prop :=
  allowed r (vma_map s) /\ exec r s = Done s' tt /\ vm_good s' /\
  forall a, attr (vma_map s') a = effect r (attr (vma_map s)) a.

Definition denied (r : request) (s : VMManager) : Prop :=
  ~ allowed r (vma_map s) /\ exec r s = Failed s ResultInvalidAddressState.

Lemma not_all_free l t n :
  (exists a, t <= a < t + n /\ is_free (attr l a) = true) ->
  ~ forall a, t <= a < t + n -> is_free (attr l a) = false.
Proof. intros (a & Ha & Hf) Hall. rewrite Hall in Hf; done. Qed.

Lemma exec_cases s r :
  vm_good s -> valid_request r -> denied r s \/ exists s', granted r s s'.
Proof.
  intros (Hwf & Hl & Hj). destruct r as [t m n st|t n|t n p|t n es ep ns np];
    intros (Hat & Han & H1 & H2 & H3 & Hm); simpl in *.
  - destruct (MapBackingMemory_run s t m n st Hwf Hl Hm Hat Han H1 H2 H3)
      as [[Hf E]|(Hf & s' & p' & v' & q' & E & _ & _ & _ & Hwf' & Hl' & Ha & Hj')];
      rewrite (joined_free_area _ _ _ (wf_areas _ Hwf) Hj) in Hf by lia.
    + left. split; [done|]. simpl. by erewrite bind_Failed by exact E.
    + right. exists s'. split_and!; [done| |split_and!; by auto|].
      * simpl. by erewrite bind_Done by exact E.
      * intros a. rewrite Ha. unfold effect. simpl.
        destruct (Z.leb_spec t a), (Z.ltb_spec a (t + n)); simpl; try done.
        by destruct (attr_inside _ _ _ a (proj1 (wf_areas _ Hwf)) ltac:(lia)) as (y & ->).
  - destruct (UnmapRange_run s t n) as [[Hf E]|(Hf & s' & E & Hwf' & Hl' & Ha & Hj')]; try done.
    + left. split; [by apply not_all_free|done].
    + right. exists s'. split_and!; [done|done|split_and!; by auto|].
      intros a. rewrite Ha. unfold effect. simpl.
      destruct (Z.leb_spec t a), (Z.ltb_spec a (t + n)); simpl; try done.
      by destruct (attr_inside _ _ _ a (proj1 (wf_areas _ Hwf)) ltac:(lia)) as (y & ->).
  - destruct (ReprotectRange_run s t n p) as [[Hf E]|(Hf & s' & E & Hwf' & Hl' & Ha & Hj')]; try done.
    + left. split; [by apply not_all_free|done].
    + right. exists s'. split_and!; try done; split_and!; by auto.
  - destruct (ChangeMemoryState_run s t n es ep ns np) as [[Hf E]|(Hf & s' & E & Hwf' & Hl' & Ha & Hj')];
      try done.
    + by left.
    + right. exists s'. split_and!; try done; split_and!; by auto.
Qed.

(** The run of a list of requests; a denied one leaves the state alone. *)
Fixpoint exec_all (rs : list request) (s : VMManager) : outcome VMManager unit :=
  match rs with
  | [] => Done s tt
  | r :: rs =>
      match exec r s with
      | Done s' _ => exec_all rs s'
      | Failed s' _ => exec_all rs s'
      | Aborted => Aborted
      end
  end.

(** The address map after a list of requests of which [grants] says which were granted. *)
Fixpoint effects (rs : list (request * bool)) (m : Z -> option attributes) : Z -> option attributes :=
  match rs with
  | [] => m
  | (r, true) :: rs => effects rs (effect r m)
  | (_, false) :: rs => effects rs m
  end.

Lemma effect_ext r m m' a : (forall a, m a = m' a) -> effect r m a = effect r m' a.
Proof. intros E. unfold effect. destruct (request_range r). by rewrite !E. Qed.

Lemma effects_ext rs m m' a : (forall a, m a = m' a) -> effects rs m a = effects rs m' a.
Proof.
  revert m m'. induction rs as [|[r []] rs IH]; intros m m' E; simpl; [done| |by apply IH].
  apply IH. intros b. by apply effect_ext.
Qed.

Lemma exec_all_run rs s :
  vm_good s -> Forall valid_request rs ->
  exists s' grants, length grants = length rs /\ exec_all rs s = Done s' tt /\ vm_good s' /\
    forall a, attr (vma_map s') a = effects (combine rs grants) (attr (vma_map s)) a.
Proof.
  revert s. induction rs as [|r rs IH]; intros s Hs Hrs; [by exists s, []|].
  apply Forall_cons in Hrs as [Hr Hrs].
  destruct (exec_cases s r Hs Hr) as [[_ E]|(s1 & _ & E & Hs1 & Ha)].
  - destruct (IH s Hs Hrs) as (s' & gs & Hl & E' & Hg & Ha). exists s', (false :: gs).
    simpl. rewrite E, Hl. by split_and!.
  - destruct (IH s1 Hs1 Hrs) as (s' & gs & Hl & E' & Hg & Ha'). exists s', (true :: gs).
    simpl. rewrite E, Hl. split_and!; try done.
    intros a. rewrite Ha'. by apply effects_ext.
Qed.

Lemma find_ext_elem {A} (f g : A -> bool) l : (forall x, x ∈ l -> f x = g x) -> find f l = find g l.
Proof.
  induction l as [|x l IH]; intros H; simpl; [done|].
  rewrite (H x) by mem_list. rewrite IH; [done|]. intros y Hy. apply H. mem_list.
Qed.

(** ** Host blocks of a range *)

Definition total_size (bs : list (MemoryRef * Z)) : Z := foldr (fun b n => b.2 + n) 0 bs.

(** The host pointer of byte [i] of the blocks laid end to end. *)
Fixpoint block_ptr (bs : list (MemoryRef * Z)) (i : Z) : Z :=
  match bs with
  | [] => 0
  | (m, n) :: bs => if i <? n then GetPtr m + i else block_ptr bs (i - n)
  end.

Lemma FindVMA_area s pre v suf a :
  tiles 0 MAX_ADDRESS (vma_map s) -> vma_map s = pre ++ v :: suf -> inside v a = true ->
  FindVMA a s = Done s (pre, v :: suf).
Proof.
  intros Ht E Hv. pose proof Ht as Ht'. rewrite E in Ht'.
  pose proof Ht' as (m & H1 & H2 & H3 & H4)%tiles_app.
  pose proof Hv as Hv'. unfold inside in Hv'. zbool. pose proof (tiles_le _ _ _ H1).
  pose proof (tiles_le _ _ _ H4).
  assert (Hl : tiles m MAX_ADDRESS (v :: suf)) by done.
  destruct (FindVMA_suffix s pre (v :: suf) m a E H1 Hl) as (mid & w & q & El & Hw & Ef); [lia|].
  destruct mid as [|x mid].
  - injection El as <- <-. by rewrite app_nil_r in Ef.
  - injection El as <- ->. exfalso. apply tiles_app in H4 as (k & K1 & K2 & _).
    pose proof (tiles_le _ _ _ K1). unfold inside in Hw. zbool. lia.
Qed.

Lemma GetBackingBlocks_run s e fuel : forall suf pre v t acc,
  vm_wf s -> vma_map s = pre ++ v :: suf -> inside v t = true -> t < e <= MAX_ADDRESS ->
  (length suf + 2 <= fuel)%nat ->
  ((exists a, t <= a < e /\ is_free (attr (vma_map s) a) = true) /\
   GetBackingBlocks_loop fuel t e acc s = Failed s ResultInvalidAddressState) \/
  ((forall a, t <= a < e -> is_free (attr (vma_map s) a) = false) /\
   exists bs, GetBackingBlocks_loop fuel t e acc s = Done s (acc ++ bs) /\ total_size bs = e - t /\
     Forall (fun b => 0 < b.2) bs /\
     forall i, 0 <= i < e - t -> block_ptr bs i = ptr_of (attr (vma_map s) (t + i))).
Proof.
  induction fuel as [|fuel IH]; intros suf pre v t acc Hwf E Hv He Hfuel; [lia|].
  pose proof (wf_areas _ Hwf) as Hok. pose proof (proj1 Hok) as HT.
  assert (Hin : v ∈ vma_map s) by (rewrite E; mem_list).
  destruct (areas_in_space _ v Hok Hin) as [(Hb0 & Hs0 & He0) Hbv].
  assert (Hat : forall a, inside v a = true -> attr (vma_map s) a = Some (view v a)).
  { intros a Ha. by apply (attr_elem 0 MAX_ADDRESS). }
  pose proof Hv as Hv'. unfold inside in Hv'. zbool. unfold vma_end in *.
  simpl GetBackingBlocks_loop. rewrite (proj2 (Z.eqb_neq t e)) by lia.
  erewrite bind_Done by (by apply FindVMA_area). erewrite bind_Done by reflexivity.
  destruct (bool_decide_reflect (vtype v = BackingMemory)) as [Hty|Hty].
  2:{ left. split; [|by erewrite bind_Failed by reflexivity].
      exists t. split; [lia|]. rewrite (Hat t Hv), is_free_view. by destruct (vtype v). }
  erewrite bind_Done by reflexivity.
  rewrite (u32_in (base v + size v)) by lia. set (ie := Z.min e (base v + size v)).
  rewrite (u32_in (ie - t)), (u32_in (t - base v)), (u32_in (t + (ie - t))) by (unfold ie; lia).
  replace (t + (ie - t)) with ie by lia.
  pose proof Hbv as Hb. unfold backed in Hb. rewrite Hty in Hb. destruct Hb as (b & Eb & _ & Ho1 & Ho2).
  set (m := mkRef (backing_mem (backing_memory v)) (offset (backing_memory v) + (t - base v))).
  assert (Er : ref_add (backing_memory v) (t - base v) s = Done s m).
  { unfold ref_add, GetSize, bind, assert_. rewrite Eb.
    rewrite (proj2 (Z.ltb_lt _ _)) by lia. by unfold m; rewrite Eb. }
  erewrite bind_Done by exact Er.
  assert (Hm : GetPtr m = GetPtr (backing_memory v) + (t - base v)).
  { unfold GetPtr, m. simpl. rewrite Eb. lia. }
  assert (Hhere : forall i, 0 <= i < ie - t ->
            is_free (attr (vma_map s) (t + i)) = false /\
            GetPtr m + i = ptr_of (attr (vma_map s) (t + i))).
  { intros i Hi. rewrite (Hat (t + i)) by (unfold inside, ie, vma_end in *; zdecide; done).
    rewrite is_free_view, ptr_of_view, Hty, Hm. split; [done|lia]. }
  destruct (Z.eq_dec ie e) as [Hie|Hie].
  - right. split.
    { intros a Ha. replace a with (t + (a - t)) by lia. apply Hhere. lia. }
    exists [(m, ie - t)]. split_and!.
    + destruct fuel; [lia|]. simpl. by rewrite Hie, Z.eqb_refl.
    + simpl. lia.
    + constructor; [simpl; unfold ie; lia|constructor].
    + intros i Hi. simpl. rewrite (proj2 (Z.ltb_lt i (ie - t))) by lia. apply Hhere. lia.
  - assert (Hie' : ie = base v + size v /\ ie < e) by (unfold ie in *; lia). destruct Hie' as [Hie1 Hie2].
    pose proof HT as HT'. rewrite E in HT'. apply tiles_app in HT' as (k & K1 & K2 & K3 & K4).
    unfold vma_end in K4. destruct suf as [|w suf]; [simpl in K4; lia|]. destruct K4 as (K4 & K5 & _).
    assert (E2 : vma_map s = (pre ++ [v]) ++ w :: suf) by (by rewrite <-app_assoc).
    assert (Hw : inside w ie = true) by (unfold inside, vma_end; zdecide; done).
    destruct (IH suf _ w ie (acc ++ [(m, ie - t)]) Hwf E2 Hw) as [[(a & Ha & Hf) El]|(Hnf & bs & El & Hs & Hpos & Hp)].
    + lia.
    + simpl in Hfuel. lia.
    + left. split; [|exact El]. exists a. split; [lia|done].
    + right. split.
      { intros a Ha. destruct (Z.lt_ge_cases a ie); [|apply Hnf; lia].
        replace a with (t + (a - t)) by lia. apply Hhere. lia. }
      exists ((m, ie - t) :: bs). split_and!.
      * rewrite El. by rewrite <-app_assoc.
      * simpl. lia.
      * constructor; [simpl; unfold ie; lia|done].
      * intros i Hi. simpl. destruct (Z.ltb_spec i (ie - t)); [apply Hhere; lia|].
        rewrite Hp by lia. do 2 f_equal. lia.
Qed.

(** ** The properties *)


(** C2: A request with page-aligned arguments inside the address space never
    trips an assertion.  It is granted exactly when the abstract address map
    allows it (mapping: every address of the range is free; unmapping, reprotecting,
    changing state: no address of the range is free, and for the last each has the
    expected state and permissions); a granted request changes the attributes of
    exactly the addresses of its range, keeps areas and page table consistent and
    keeps free areas joined, and a denied one fails with InvalidAddressState and changes nothing. *)
Theorem vm_request_refines s r :
  vm_good s -> valid_request r ->
  (~ allowed r (vma_map s) /\ exec r s = Failed s ResultInvalidAddressState) \/
  (allowed r (vma_map s) /\ exists s', exec r s = Done s' tt /\ vm_good s' /\
   forall a, attr (vma_map s') a = effect r (attr (vma_map s)) a).
Proof.
  intros Hs Hr. destruct (exec_cases s r Hs Hr) as [H|(s' & Hal & E & H)]; [by left|right].
  split; [done|]. by exists s'.
Qed.

(** C24: From [Reset], any list of valid requests runs to its end without an
    assertion failing; the areas then cover the whole address space without gap or
    overlap, the address map is the composition of the effects of the granted
    requests, and the page table maps every address to the host pointer that this
    map gives. *)
Theorem vm_history_page_table s0 rs :
  is_locked s0 = false -> (forall a, pt_lookup empty_table a = 0) -> Forall valid_request rs ->
  exists s1 s' grants, Reset s0 = Done s1 tt /\ length grants = length rs /\
    exec_all rs s1 = Done s' tt /\ tiles 0 MAX_ADDRESS (vma_map s') /\
    forall a, 0 <= a < MAX_ADDRESS ->
      attr (vma_map s') a = effects (combine rs grants) (fun _ => Some free_attributes) a /\
      pt_lookup (page_table s') a =
      ptr_of (effects (combine rs grants) (fun _ => Some free_attributes) a).
Proof.
  intros Hl He Hrs. destruct (Reset_run s0 Hl He) as (s1 & E1 & Hwf1 & Hl1 & Em).
  assert (Hg1 : vm_good s1) by (split_and!; [done | done | by rewrite Em]).
  destruct (exec_all_run rs s1 Hg1 Hrs) as (s' & gs & Hgs & E & [Hwf' _] & Ha).
  exists s1, s', gs. split_and!; try done; [apply (wf_areas _ Hwf')|].
  intros a Hra. rewrite (wf_pt _ Hwf' a Hra), Ha, Em.
  enough (Heq : forall rs m m', m a = m' a -> effects rs m a = effects rs m' a).
  { rewrite (Heq _ (attr [initial_vma]) (fun _ => Some free_attributes)); [done|].
    unfold attr. simpl. unfold inside, vma_end. simpl. unfold MAX_ADDRESS in *. by zdecide. }
  clear. intros rs. induction rs as [|[r []] rs IH]; intros m m' E; simpl; [done| |by apply IH].
  apply IH. unfold effect. destruct (request_range r). by rewrite E.
Qed.

(** [MapBackingMemoryToBase] takes the first free area that ends above the
    base and not before base + size; the mapping starts at the larger of the base
    and the area's start.  Without such an area the end iterator is dereferenced
    (the check for it comes after); when the area starts above the base and is
    shorter than the request the mapping fails although a later area may fit.
    Otherwise the target is inside the region and exactly its range is remapped. *)
Theorem MapBackingMemoryToBase_outcome s lo region n m st :
  vm_good s -> memory_ok m n -> 0 <= lo -> 0 < n -> 0 <= region -> lo + region <= MAX_ADDRESS ->
  lo + n <= MAX_ADDRESS -> aligned n -> aligned lo -> (forall v, v ∈ vma_map s -> aligned (base v)) ->
  match find (fun v => bool_decide (vtype v = VMA_Free) &&
                       ((lo <? vma_end v) && (lo + n <=? vma_end v))) (vma_map s) with
  | None => MapBackingMemoryToBase lo region m n st s = Aborted
  | Some v =>
      let t := Z.max lo (base v) in
      if lo + region <? t + n then MapBackingMemoryToBase lo region m n st s = Failed s ResultOutOfMemory
      else if vma_end v <? t + n then
        MapBackingMemoryToBase lo region m n st s = Failed s ResultInvalidAddressState
      else exists s', MapBackingMemoryToBase lo region m n st s = Done s' t /\ vm_good s' /\
        free_area (vma_map s) t n /\
        forall a, attr (vma_map s') a = effect (RMap t m n st) (attr (vma_map s)) a
  end.
Proof.
  intros (Hwf & Hl & Hj) Hm H1 H2 H3 H4 H5 Han Hal Hav. pose proof (wf_areas _ Hwf) as Hok.
  unfold MapBackingMemoryToBase. rewrite assert_locked, Hl, bind_get.
  rewrite (find_ext_elem (fun v => bool_decide (vtype v = VMA_Free) &&
    ((lo <? u32 (base v + size v)) && (u32 (lo + n) <=? u32 (base v + size v)))) (fun v => bool_decide (vtype v = VMA_Free) && ((lo <? vma_end v) && (lo + n <=? vma_end v)))).
  2:{ intros v Hv. destruct (areas_in_space _ v Hok Hv) as [(? & ? & ?) _]. unfold vma_end in *.
      by rewrite !u32_in by lia. }
  destruct (find _ _) as [v|] eqn:Ef; [|done].
  erewrite bind_Done by reflexivity. cbv zeta.
  set (t := Z.max lo (base v)). assert (Et : t = Z.max lo (base v)) by done. clearbody t.
  apply find_some in Ef as [Hv Hfit]. apply list_elem_of_In in Hv.
  destruct (areas_in_space _ v Hok Hv) as [(Hb & Hs & He) _].
  apply andb_true_iff in Hfit as [Hty Hfit]. apply bool_decide_eq_true in Hty. zbool.
  rewrite (u32_in (lo + region)) by lia.
  assert (Htn : 0 <= t + n < 2 ^ 32) by (unfold MAX_ADDRESS in *; unfold vma_end in *; lia).
  rewrite u32_small by (unfold is_u32; lia).
  destruct (Z.ltb_spec (lo + region) (t + n)) as [Hgt|Hle].
  { rewrite (proj2 (Z.leb_gt _ _)) by lia. by erewrite bind_Failed by reflexivity. }
  rewrite (proj2 (Z.leb_le (t + n) (lo + region))) by lia. erewrite bind_Done by reflexivity.
  assert (Hat : aligned t) by (subst t; destruct (Z.max_spec lo (base v)) as [[_ ->]|[_ ->]]; auto).
  assert (Hfa : free_area (vma_map s) t n <-> t + n <= vma_end v).
  { split.
    - intros (w & Hw & Hf & Hw1 & Hw2). assert (w = v) as ->; [|done].
      apply (tiles_inside _ _ _ _ _ t (proj1 Hok) Hw Hv); unfold inside, vma_end in *; by zdecide.
    - intros Ht. exists v. split_and!; try done. lia. }
  destruct (MapBackingMemory_run s t m n st Hwf Hl Hm Hat Han) as [[Hf E]|(Hf & s' & p' & v' & q' & E & _ & _ & _ & Hwf' & Hl' & Ha & Hj')];
    try lia; rewrite Hfa in Hf.
  - rewrite (proj2 (Z.ltb_lt _ _)) by lia. by erewrite bind_Failed by exact E.
  - rewrite (proj2 (Z.ltb_ge _ _)) by lia. exists s'.
    split_and!; [by erewrite bind_Done by exact E|split_and!; by auto|by apply Hfa|].
    intros a. rewrite Ha. unfold effect. simpl.
    destruct (Z.leb_spec t a), (Z.ltb_spec a (t + n)); simpl; try done.
    by destruct (attr_inside _ _ _ a (proj1 Hok) ltac:(lia)) as (y & ->).
Qed.

(** [GetBackingBlocksForRange] never runs out of areas: it fails exactly when
    an address of the range is free, and otherwise the blocks it returns, none of
    them empty, laid end to end have the size of the range and hold at each position the host pointer
    that the page table has for the address. *)
Theorem GetBackingBlocksForRange_blocks s a n :
  vm_wf s -> 0 <= a -> 0 < n -> a + n <= MAX_ADDRESS ->
  ((exists x, a <= x < a + n /\ is_free (attr (vma_map s) x) = true) /\
   GetBackingBlocksForRange a n s = Failed s ResultInvalidAddressState) \/
  ((forall x, a <= x < a + n -> is_free (attr (vma_map s) x) = false) /\
   exists bs, GetBackingBlocksForRange a n s = Done s bs /\ total_size bs = n /\
     Forall (fun b => 0 < b.2) bs /\
     forall i, 0 <= i < n -> block_ptr bs i = pt_lookup (page_table s) (a + i)).
Proof.
  intros Hwf H1 H2 H3. unfold GetBackingBlocksForRange. rewrite bind_get, u32_in by lia.
  destruct (FindVMA_run s a (proj1 (wf_areas _ Hwf))) as (pre & v & suf & E & Hv & _); [lia|].
  destruct (GetBackingBlocks_run s (a + n) (S (length (vma_map s))) suf pre v a [] Hwf E Hv)
    as [H|(Hf & bs & Eb & Hs & Hpos & Hp)].
  - lia.
  - rewrite E, length_app. simpl. lia.
  - by left.
  - right. split; [done|]. exists bs. split_and!; [done|lia|done|].
    intros i Hi. rewrite Hp by lia. symmetry. apply (wf_pt _ Hwf). lia.
Qed.
End VMManager.

(** ** A concrete memory system: the page table as a function *)

Definition flat_map (pt : Z -> Z) (b n : Z) (m : MemoryRef) : Z -> Z := fun a =>
  if (b <=? a) && (a <? b + n) then GetPtr m + (a - b) else pt a.

Definition flat_unmap (pt : Z -> Z) (b n : Z) : Z -> Z := fun a =>
  if (b <=? a) && (a <? b + n) then 0 else pt a.

Definition page_mask : Z := 0xFFF.

Definition host_block : BackingMem := mkMem 0x700000 0x100000.

Definition the_mems (b : BackingMem) : Prop := b = host_block.

Lemma the_mems_separate b c p :
  the_mems b -> the_mems c -> mem_ptr b < p <= mem_ptr b + mem_size b ->
  mem_ptr c <= p < mem_ptr c + mem_size c -> b = c.
Proof. unfold the_mems. congruence. Qed.

Lemma the_mems_nonnull b : the_mems b -> 0 < mem_ptr b.
Proof. by intros ->. Qed.

Definition at_offset (o : Z) : MemoryRef := mkRef (Some host_block) o.

Definition fresh_vmm : @VMManager (Z -> Z) := mkVMM [initial_vma] (fun _ => 0) false.

Definition sample_requests : list request :=
  [RMap 0x1000 (at_offset 0) 0x3000 Private; RReprotect 0x2000 0x2000 Read; RUnmap 0x2000 0x1000].

Lemma fresh_good : vm_good the_mems (fun pt => pt) fresh_vmm.
Proof.
  split; [|done]. split; [split; [done|by constructor]|].
  intros a Ha. unfold attr. simpl. by destruct (inside _ _).
Qed.

Lemma sample_valid : Forall (valid_request page_mask the_mems) sample_requests.
Proof.
  repeat constructor; try done. exists host_block. split_and!; done.
Qed.

Lemma vm_request_refines_witness :
  exists s', exec flat_map flat_unmap page_mask (RMap 0x1000 (at_offset 0) 0x3000 Private) fresh_vmm =
    Done s' tt /\ attr (vma_map s') 0x1008 = Some (BackingMemory, ReadWrite, Private, 0x700008).
Proof.
  destruct (vm_request_refines (fun _ => 0) flat_map flat_unmap page_mask the_mems
    the_mems_separate the_mems_nonnull (fun pt => pt) ltac:(done) ltac:(done)
    fresh_vmm (RMap 0x1000 (at_offset 0) 0x3000 Private) fresh_good
    ltac:(apply (Forall_inv sample_valid))) as [[Hno _]|(_ & s' & E & _ & Ha)].
  - destruct Hno. intros a Ha. unfold attr. simpl. unfold inside, vma_end. simpl.
    unfold MAX_ADDRESS. by zdecide.
  - exists s'. split; [exact E|]. by rewrite Ha.
Defined.

Lemma vm_history_page_table_witness :
  exists s1 s' (grants : list bool), Reset (fun _ => 0) flat_map flat_unmap fresh_vmm = Done s1 tt /\
    length grants = 3%nat /\
    exec_all flat_map flat_unmap page_mask sample_requests s1 = Done s' tt.
Proof.
  destruct (vm_history_page_table (fun _ => 0) flat_map flat_unmap page_mask the_mems
    the_mems_separate the_mems_nonnull (fun pt => pt) ltac:(done) ltac:(done)
    fresh_vmm sample_requests eq_refl ltac:(done) sample_valid) as (s1 & s' & gs & E & Hl & E' & _).
  by exists s1, s', gs.
Defined.

(** An address space with a short hole before a long one. *)
Definition holed_vmm : @VMManager (Z -> Z) :=
  mkVMM [mkVMA 0 0x2000 BackingMemory ReadWrite Private (at_offset 0);
         mkVMA 0x2000 0x1000 VMA_Free None_ MS_Free null_ref;
         mkVMA 0x3000 0x1000 BackingMemory ReadWrite Private (at_offset 0x4000);
         mkVMA 0x4000 (MAX_ADDRESS - 0x4000) VMA_Free None_ MS_Free null_ref]
    (fun a => if (0 <=? a) && (a <? 0x2000) then 0x700000 + a
              else if (0x3000 <=? a) && (a <? 0x4000) then 0x704000 + (a - 0x3000) else 0) false.

Lemma holed_good : vm_good the_mems (fun pt => pt) holed_vmm.
Proof.
  split; [|split; [done|by vm_compute]]. split; [split|].
  - by vm_compute.
  - repeat constructor; try done; exists host_block; by split_and!.
  - intros a Ha. unfold attr. simpl. unfold inside, vma_end, MAX_ADDRESS in *. simpl in *.
    repeat match goal with
           | |- context [?x <=? ?y] => destruct (Z.leb_spec x y)
           | |- context [?x <? ?y] => destruct (Z.ltb_spec x y)
           end; simpl; try lia; unfold GetPtr; simpl; lia.
Qed.

Lemma MapBackingMemoryToBase_outcome_witness :
  MapBackingMemoryToBase flat_map flat_unmap page_mask 0x1000 0x100000 (at_offset 0x8000) 0x2000 Private
    holed_vmm = Failed holed_vmm ResultInvalidAddressState.
Proof.
  refine (MapBackingMemoryToBase_outcome (fun _ => 0) flat_map flat_unmap page_mask the_mems
    the_mems_separate the_mems_nonnull (fun pt => pt) _ _
    holed_vmm 0x1000 0x100000 0x2000 (at_offset 0x8000) Private holed_good _ _ _ _ _ _ _ _ _);
    try done.
  - exists host_block. by split_and!.
  - apply Forall_forall. by repeat constructor.
Defined.

Lemma GetBackingBlocksForRange_blocks_witness :
  exists bs, GetBackingBlocksForRange 0x3000 0x1000 holed_vmm = Done holed_vmm bs /\
    total_size bs = 0x1000 /\ block_ptr bs 8 = 0x704008.
Proof.
  destruct (GetBackingBlocksForRange_blocks the_mems (fun pt => pt) holed_vmm 0x3000 0x1000
    (proj1 holed_good) ltac:(done) ltac:(done) ltac:(done)) as [[_ E]|(_ & bs & E & Hs & _ & Hp)].
  - discriminate E.
  - exists bs. split_and!; [exact E|exact Hs|]. by rewrite Hp.
Defined.

(** Reprotecting the first page and half of its neighbour to the neighbour's
    permissions: both pieces become one area that could be merged with the rest of
    the neighbour. *)
Definition split_neighbour : list request :=
  [RMap 0x1000 (at_offset 0) 0x3000 Private; RReprotect 0x2000 0x2000 Read; RReprotect 0x1000 0x2000 Read].

(** [ReprotectRange] can leave two neighbouring areas that could be merged:
    the loop stops before the second half of an area it split at the end of the
    range when the first half was merged away.  The list of areas is then not
    the merged one that vm_manager.h promises. *)
Theorem ReprotectRange_leaves_mergeable :
  Forall (valid_request page_mask the_mems) split_neighbour /\
  exists s', exec_all flat_map flat_unmap page_mask split_neighbour fresh_vmm = Done s' tt /\
    ~ normal (vma_map s').
Proof.
  split.
  - repeat constructor; try done. exists host_block. split_and!; done.
  - assert (H : match exec_all flat_map flat_unmap page_mask split_neighbour fresh_vmm with
                | Done s' _ => ~ normal (vma_map s')
                | _ => False
                end) by (vm_compute; intuition discriminate).
    destruct (exec_all _ _ _ _ _) as [s' []|s' rc|]; [by exists s'|done|done].
Qed.
