(* ===== verification/ResourceLimit.v ===== *)
(** * ResourceLimit: the limits of a process (core/hle/kernel/resource_limit.cpp, resource_limit.h)

    A limit object is two arrays of ten signed 32-bit values, indexed by
    [ResourceLimitType]: lists, with the indexed update of stdpp.  The name of the
    object and [ApplyAppMaxCPUSetting], which also sets up the thread manager of
    the second core, are left out. *)
From S2P Require Import Prelude Result.

Local Open Scope Z_scope.

Inductive ResourceLimitCategory := Application | SysApplet | LibApplet | Other.

Definition ResourceLimitCategory_value (c : ResourceLimitCategory) : Z :=
  match c with Application => 0 | SysApplet => 1 | LibApplet => 2 | Other => 3 end.

Inductive ResourceLimitType :=
  | Priority | Commit | Thread | Event | Mutex | Semaphore | Timer | SharedMemory
  | AddressArbiter | CpuTime.

#[export] Instance ResourceLimitType_eq_dec : EqDecision ResourceLimitType.
Proof. solve_decision. Defined.

(** [static_cast<std::size_t>(type)] *)
Definition type_index (t : ResourceLimitType) : nat :=
  match t with
  | Priority => 0 | Commit => 1 | Thread => 2 | Event => 3 | Mutex => 4 | Semaphore => 5
  | Timer => 6 | SharedMemory => 7 | AddressArbiter => 8 | CpuTime => 9
  end.

Definition ResourceLimitType_Max : nat := 10.

Record ResourceLimit := mkLimit {
  m_category : ResourceLimitCategory;
  m_limit_values : list Z;
  m_current_values : list Z
}.

(** A new object: both arrays are value-initialised. *)
Definition Create (category : ResourceLimitCategory) : ResourceLimit :=
  mkLimit category (replicate ResourceLimitType_Max 0) (replicate ResourceLimitType_Max 0).

Definition GetCurrentValue (type : ResourceLimitType) (r : ResourceLimit) : Z :=
  nth (type_index type) (m_current_values r) 0.

Definition GetLimitValue (type : ResourceLimitType) (r : ResourceLimit) : Z :=
  nth (type_index type) (m_limit_values r) 0.

Definition SetCurrentValue (type : ResourceLimitType) (value : Z) (r : ResourceLimit)
    : ResourceLimit :=
  mkLimit (m_category r) (m_limit_values r) (<[type_index type := value]> (m_current_values r)).

Definition SetLimitValue (type : ResourceLimitType) (value : Z) (r : ResourceLimit)
    : ResourceLimit :=
  mkLimit (m_category r) (<[type_index type := value]> (m_limit_values r)) (m_current_values r).

(** [Reserve] and [Release] compare with the limit, respectively the current
    value, only to log: they always succeed.  The amount is converted to [s32],
    and the sum is taken modulo 2^32. *)
Definition Reserve (type : ResourceLimitType) (amount : Z) (r : ResourceLimit)
    : ResourceLimit * bool :=
  (SetCurrentValue type (s32 (GetCurrentValue type r + s32 amount)) r, true).

Definition Release (type : ResourceLimitType) (amount : Z) (r : ResourceLimit)
    : ResourceLimit * bool :=
  (SetCurrentValue type (s32 (GetCurrentValue type r - s32 amount)) r, true).

(** The limits of the four categories ([ResourceLimitList::ResourceLimitList]). *)
Definition set_limits (values : list (ResourceLimitType * Z)) (r : ResourceLimit) : ResourceLimit :=
  fold_left (fun r v => SetLimitValue v.1 v.2 r) values r.

Definition PREEMPTION_DISABLED : Z := 0.
Definition PREEMPTION_SYSMODULE : Z := 1000.
Definition PREEMPTION_EXCEMPTED : Z := 10000.

Definition ResourceLimitList (is_new_3ds : bool) (appmemalloc_size : Z) : list ResourceLimit :=
  [set_limits
     [(Priority, 0x18); (Commit, s32 appmemalloc_size); (Thread, 0x20); (Event, 0x20);
      (Mutex, 0x20); (Semaphore, 0x8); (Timer, 0x8); (SharedMemory, 0x10);
      (AddressArbiter, 0x2); (CpuTime, PREEMPTION_DISABLED)] (Create Application);
   set_limits
     [(Priority, 0x4); (Commit, if is_new_3ds then 0x5E06000 else 0x2606000);
      (Thread, if is_new_3ds then 0x1D else 0xE); (Event, if is_new_3ds then 0xB else 0x8);
      (Mutex, 0x8); (Semaphore, 0x4); (Timer, 0x4); (SharedMemory, 0x8);
      (AddressArbiter, 0x3); (CpuTime, PREEMPTION_EXCEMPTED)] (Create SysApplet);
   set_limits
     [(Priority, 0x4); (Commit, 0x602000); (Thread, 0xE); (Event, 0x8); (Mutex, 0x8);
      (Semaphore, 0x4); (Timer, 0x4); (SharedMemory, 0x8); (AddressArbiter, 0x1);
      (CpuTime, PREEMPTION_EXCEMPTED)] (Create LibApplet);
   set_limits
     [(Priority, 0x4); (Commit, if is_new_3ds then 0x2182000 else 0x1682000);
      (Thread, if is_new_3ds then 0xE1 else 0xCA); (Event, if is_new_3ds then 0x108 else 0xF8);
      (Mutex, if is_new_3ds then 0x25 else 0x23); (Semaphore, if is_new_3ds then 0x43 else 0x40);
      (Timer, if is_new_3ds then 0x2C else 0x2B);
      (SharedMemory, if is_new_3ds then 0x1F else 0x1E);
      (AddressArbiter, if is_new_3ds then 0x2D else 0x2B);
      (CpuTime, PREEMPTION_SYSMODULE)] (Create Other)].

(** Every category value indexes the list. *)
Definition GetForCategory (category : ResourceLimitCategory) (l : list ResourceLimit)
    : option ResourceLimit :=
  l !! Z.to_nat (ResourceLimitCategory_value category).

(** ** Facts *)

(** Both arrays have an entry for each type. *)
Definition limit_wf (r : ResourceLimit) : Prop :=
  length (m_limit_values r) = ResourceLimitType_Max /\
  length (m_current_values r) = ResourceLimitType_Max.

Lemma type_index_max t : (type_index t < ResourceLimitType_Max)%nat.
Proof. unfold ResourceLimitType_Max. destruct t; simpl; lia. Qed.

Lemma type_index_inj t u : type_index t = type_index u -> t = u.
Proof. by destruct t, u. Qed.

Lemma SetCurrentValue_wf t v r : limit_wf r -> limit_wf (SetCurrentValue t v r).
Proof. intros [H1 H2]. split; [done|]. simpl. by rewrite length_insert. Qed.

Lemma GetCurrentValue_Set t u v r : limit_wf r ->
  GetCurrentValue t (SetCurrentValue u v r) =
  if bool_decide (t = u) then v else GetCurrentValue t r.
Proof.
  intros [_ H]. unfold GetCurrentValue, SetCurrentValue. simpl.
  destruct (decide (t = u)) as [->|Hn].
  - rewrite bool_decide_eq_true_2 by done. apply nth_lookup_Some.
    apply list_lookup_insert_eq. rewrite H. apply type_index_max.
  - rewrite bool_decide_eq_false_2 by done. rewrite !nth_lookup.
    rewrite list_lookup_insert_ne; [done|]. intros E%type_index_inj. by apply Hn.
Qed.

(** A release undoes a reservation of the same amount, whatever the limit. *)
Lemma Release_Reserve t n r : limit_wf r -> is_s32 (GetCurrentValue t r) ->
  GetCurrentValue t (fst (Release t n (fst (Reserve t n r)))) = GetCurrentValue t r.
Proof.
  intros H Hc. unfold Release, Reserve. simpl.
  rewrite !GetCurrentValue_Set by (try apply SetCurrentValue_wf; done).
  rewrite bool_decide_eq_true_2 by done. revert Hc. generalize (s32 n) as m.
  intros m. unfold is_s32. intros Hc. unfold s32. word_lia.
Qed.

(** The limit is not enforced: a reservation far above it succeeds. *)
Lemma Reserve_ignores_limit :
  let r := nth 0 (ResourceLimitList false 0x04000000) (Create Other) in
  GetLimitValue Thread r = 32 /\ snd (Reserve Thread 1000 r) = true /\
  GetCurrentValue Thread (fst (Reserve Thread 1000 r)) = 1000.
Proof. vm_compute. done. Qed.

Lemma GetForCategory_category c b n : exists r,
  GetForCategory c (ResourceLimitList b n) = Some r /\ m_category r = c /\ limit_wf r.
Proof. destruct c; eexists; (split; [reflexivity|]); split; done. Qed.
