(* ===== verification/Process.v ===== *)
(** * Process: the memory of a process (core/hle/kernel/process.cpp, memory.cpp, svc.cpp)

    [ControlMemory] and the functions of [Process] that it calls, on the address
    space of [VMManager], the FCRAM regions of [MemoryRegion] and the resource
    limit of the process; the allocation of thread local storage; the layout of
    the regions; the kernel capabilities of a process.

    The memory system of core/memory.h is not part of the repository in the form
    used here: its page table, addresses and references into FCRAM are the
    interface [MemorySystem].  So are the operators [+=] and [-=] of an interval
    set, which process.cpp uses and the [std::set] of memory.h does not have. *)
From S2P Require Import Prelude Result StdSet MemoryRegion VMManager ResourceLimit.
From S2P Require Import BitField.

Local Open Scope Z_scope.

(** ** The memory system *)

Class MemorySystem := {
  PageTable : Type;
  MapMemoryRegion : PageTable -> Z -> Z -> MemoryRef -> PageTable;
  UnmapRegion : PageTable -> Z -> Z -> PageTable;
  CITRA_PAGE_SIZE : Z;
  CITRA_PAGE_MASK : Z;
  LINEAR_HEAP_VADDR : Z;
  NEW_LINEAR_HEAP_VADDR : Z;
  TLS_AREA_VADDR : Z;
  TLS_ENTRY_SIZE : Z;
  FCRAM_N3DS_SIZE : Z;
  GetFCRAMRef : Z -> MemoryRef;
  GetFCRAMPointer : Z -> Z;
  GetFCRAMOffset : Z -> Z;
  (** [ZeroBlock(process, address, size)], on the page table and the host memory. *)
  ZeroBlock : PageTable -> Z -> Z -> (Z -> Z) -> (Z -> Z);
  (** [set += intervals], [set += interval] and [set -= interval]. *)
  add_intervals : IntervalSet -> IntervalSet -> IntervalSet;
  sub_interval : IntervalSet -> Interval -> IntervalSet
}.

(** core/mem_map.h *)
Definition FCRAM_SIZE : Z := 0x08000000.
Definition HEAP_VADDR : Z := 0x08000000.
Definition HEAP_VADDR_END : Z := HEAP_VADDR + FCRAM_SIZE.

(** ** Kernel capabilities *)

Record AddressMapping := mkMapping {
  mapping_address : Z;
  mapping_size : Z;
  mapping_read_only : bool;
  mapping_unk_flag : bool
}.

Definition MAX_ADDRESS_MAPPINGS : nat := 8.

(** The members of [Process] that [ParseKernelCaps] fills in. *)
Record Capabilities := mkCaps {
  svc_access_mask : list bool;   (* std::bitset<0x80> *)
  handle_table_size : Z;
  address_mappings : list AddressMapping;
  flags : Z;
  kernel_version : Z
}.

Definition svc_mask_size : nat := 0x80.

Definition append_address_mapping (m : AddressMapping) (c : Capabilities) : Capabilities :=
  if (MAX_ADDRESS_MAPPINGS <=? length (address_mappings c))%nat then c
  else mkCaps (svc_access_mask c) (handle_table_size c) (address_mappings c ++ [m])
         (flags c) (kernel_version c).

(** [while (bits && index < svc_access_mask.size())]: [bits] has 24 bits. *)
Fixpoint set_svc_bits (fuel : nat) (bits : Z) (index : nat) (mask : list bool) : list bool :=
  match fuel with
  | O => mask
  | S fuel =>
      if (bits =? 0) || (svc_mask_size <=? index)%nat then mask
      else set_svc_bits fuel (Z.shiftr bits 1) (S index) (<[index := Z.odd bits]> mask)
  end.

Definition with_svc_mask (m : list bool) (c : Capabilities) : Capabilities :=
  mkCaps m (handle_table_size c) (address_mappings c) (flags c) (kernel_version c).

(** One descriptor; a memory range takes the next descriptor too. *)
Fixpoint ParseKernelCaps (page_size : Z) (kernel_caps : list Z) (c : Capabilities) : Capabilities :=
  match kernel_caps with
  | [] => c
  | descriptor :: rest =>
      let type := Z.shiftr descriptor 20 in
      if descriptor =? 0xFFFFFFFF then ParseKernelCaps page_size rest c
      else if Z.land type 0xF00 =? 0xE00 then ParseKernelCaps page_size rest c
      else if Z.land type 0xF80 =? 0xF00 then
        let index := Z.to_nat (Z.land (Z.shiftr descriptor 24) 7 * 24) in
        let bits := Z.land descriptor 0xFFFFFF in
        ParseKernelCaps page_size rest
          (with_svc_mask (set_svc_bits 24 bits index (svc_access_mask c)) c)
      else if Z.land type 0xFF0 =? 0xFE0 then
        ParseKernelCaps page_size rest
          (mkCaps (svc_access_mask c) (Z.land descriptor 0x3FF) (address_mappings c)
             (flags c) (kernel_version c))
      else if Z.land type 0xFF8 =? 0xFF0 then
        ParseKernelCaps page_size rest
          (mkCaps (svc_access_mask c) (handle_table_size c) (address_mappings c)
             (Z.land descriptor 0xFFFF) (kernel_version c))
      else if Z.land type 0xFFE =? 0xFF8 then
        match rest with
        | [] => c
        | end_desc :: rest' =>
            if negb (Z.land (Z.shiftr end_desc 20) 0xFFE =? 0xFF8)
            then ParseKernelCaps page_size rest c
            else
              let address := u32 (Z.shiftl descriptor 12) in
              let end_address := u32 (Z.shiftl end_desc 12) in
              ParseKernelCaps page_size rest'
                (append_address_mapping
                   (mkMapping address
                      (if address <? end_address then end_address - address else 0)
                      (negb (Z.land descriptor (Z.shiftl 1 20) =? 0))
                      (negb (Z.land end_desc (Z.shiftl 1 20) =? 0))) c)
        end
      else if Z.land type 0xFFF =? 0xFFE then
        ParseKernelCaps page_size rest
          (append_address_mapping
             (mkMapping (u32 (Z.shiftl descriptor 12)) page_size false false) c)
      else if Z.land type 0xFE0 =? 0xFC0 then
        ParseKernelCaps page_size rest
          (mkCaps (svc_access_mask c) (handle_table_size c) (address_mappings c)
             (flags c) (Z.land descriptor 0xFFFF))
      else ParseKernelCaps page_size rest c
  end.

Definition Set3dsxKernelCaps (c : Capabilities) : Capabilities :=
  mkCaps (replicate svc_mask_size true) (handle_table_size c)
    [mkMapping 0x1FF50000 0x8000 true false; mkMapping 0x1FF70000 0x8000 true false;
     mkMapping 0x1F000000 0x600000 false false]
    (flags c) 0x23a.

(** ** State *)

(** The [MemoryRegion] enumeration of kernel.h. *)
Inductive MemoryRegionName := APPLICATION | SYSTEM | BASE.

#[export] Instance MemoryRegionName_eq_dec : EqDecision MemoryRegionName.
Proof. solve_decision. Defined.

(** [KernelSystem::memory_regions]. *)
Record Regions := mkRegions {
  application_region : MemoryRegionInfo;
  system_region : MemoryRegionInfo;
  base_region : MemoryRegionInfo
}.

Definition GetMemoryRegion (region : MemoryRegionName) (r : Regions) : MemoryRegionInfo :=
  match region with
  | APPLICATION => application_region r
  | SYSTEM => system_region r
  | BASE => base_region r
  end.

Definition set_region (region : MemoryRegionName) (i : MemoryRegionInfo) (r : Regions) : Regions :=
  match region with
  | APPLICATION => mkRegions i (system_region r) (base_region r)
  | SYSTEM => mkRegions (application_region r) i (base_region r)
  | BASE => mkRegions (application_region r) (system_region r) i
  end.

(** The sizes of the three regions for each memory mode. *)
Definition memory_region_sizes : list (list Z) :=
  [[0x04000000; 0x02C00000; 0x01400000];
   [0; 0; 0];
   [0x06000000; 0x00C00000; 0x01400000];
   [0x05000000; 0x01C00000; 0x01400000];
   [0x04800000; 0x02400000; 0x01400000];
   [0x02000000; 0x04C00000; 0x01400000];
   [0x07C00000; 0x06400000; 0x02000000];
   [0x0B200000; 0x02E00000; 0x02000000]].

Inductive MemoryMode := Prod | Dev1 | Dev2 | Dev3 | Dev4 | NewProd | NewDev1.

Definition MemoryMode_value (m : MemoryMode) : Z :=
  match m with
  | Prod => 0 | Dev1 => 2 | Dev2 => 3 | Dev3 => 4 | Dev4 => 5 | NewProd => 6 | NewDev1 => 7
  end.

Section Process.
Context {MS : MemorySystem}.

Record Process := mkProcess {
  vm_manager : @VMManager PageTable;
  memory_region : option MemoryRegionName;   (* a null pointer before [Run] *)
  holding_memory : IntervalSet;
  holding_tls_memory : IntervalSet;
  memory_used : Z;
  tls_slots : list (list bool);              (* std::vector<std::bitset<8>> *)
  capabilities : Capabilities
}.

(** The process with the objects it shares: the regions of the kernel, its resource
    limit and the host memory (a byte for each host address). *)
Record System := mkSystem {
  process : Process;
  regions : Regions;
  resource_limit : option ResourceLimit;
  host_memory : Z -> Z
}.

Definition with_vm (v : VMManager) (s : System) : System :=
  let p := process s in
  mkSystem (mkProcess v (memory_region p) (holding_memory p) (holding_tls_memory p)
              (memory_used p) (tls_slots p) (capabilities p))
    (regions s) (resource_limit s) (host_memory s).

Definition with_regions (r : Regions) (s : System) : System :=
  mkSystem (process s) r (resource_limit s) (host_memory s).

Definition with_limit (l : option ResourceLimit) (s : System) : System :=
  mkSystem (process s) (regions s) l (host_memory s).

Definition with_host (h : Z -> Z) (s : System) : System :=
  mkSystem (process s) (regions s) (resource_limit s) h.

(** [holding_memory] and [memory_used], which change together. *)
Definition with_holding (h : IntervalSet) (used : Z) (s : System) : System :=
  let p := process s in
  mkSystem (mkProcess (vm_manager p) (memory_region p) h (holding_tls_memory p)
              used (tls_slots p) (capabilities p))
    (regions s) (resource_limit s) (host_memory s).

Definition with_tls (h : IntervalSet) (slots : list (list bool)) (used : Z) (s : System) : System :=
  let p := process s in
  mkSystem (mkProcess (vm_manager p) (memory_region p) (holding_memory p) h
              used slots (capabilities p))
    (regions s) (resource_limit s) (host_memory s).

Definition modify (f : System -> System) : op System unit := fun s => Done (f s) tt.

(** ** Calls on the parts *)

Definition on_vm {A} (m : op VMManager A) : op System A := fun s =>
  match m (vm_manager (process s)) with
  | Done v a => Done (with_vm v s) a
  | Failed v rc => Failed (with_vm v s) rc
  | Aborted => Aborted
  end.

Definition on_region {A} (name : MemoryRegionName) (m : op MemoryRegionInfo A) : op System A :=
  fun s =>
  let update i := with_regions (set_region name i (regions s)) s in
  match m (GetMemoryRegion name (regions s)) with
  | Done i a => Done (update i) a
  | Failed i rc => Failed (update i) rc
  | Aborted => Aborted
  end.

(** A call through the [resource_limit] pointer. *)
Definition on_limit (f : ResourceLimit -> ResourceLimit * bool) : op System bool := fun s =>
  match resource_limit s with
  | None => Aborted
  | Some l => let '(l, b) := f l in Done (with_limit (Some l) s) b
  end.

(** [ASSERT(result.Succeeded())] *)
Definition must {A} (m : op System A) : op System A := fun s =>
  match m s with
  | Failed _ _ => Aborted
  | x => x
  end.

(** A call whose [Result] is not looked at. *)
Definition ignoring {A} (m : op System A) : op System unit := fun s =>
  match m s with
  | Done s _ | Failed s _ => Done s tt
  | Aborted => Aborted
  end.

(** [*memory_region] *)
Definition own_region : op System MemoryRegionName := fun s =>
  match memory_region (process s) with
  | None => Aborted
  | Some name => Done s name
  end.

(** [std::fill(first, last, 0)] on host addresses. *)
Definition fill_zero (first last : Z) : op System unit :=
  modify (fun s => with_host
    (fun p => if (first <=? p) && (p <? last) then 0 else host_memory s p) s).

(** ** The linear heap *)

Definition GetLinearHeapAreaAddress (p : Process) : Z :=
  if kernel_version (capabilities p) <? 0x22C then LINEAR_HEAP_VADDR else NEW_LINEAR_HEAP_VADDR.

Definition GetLinearHeapBase : op System Z :=
  (name <- own_region ;;
   s <- get ;;
   ret (u32 (GetLinearHeapAreaAddress (process s)
             + region_base (GetMemoryRegion name (regions s)))))%hle.

Definition GetLinearHeapLimit : op System Z :=
  (heap_base <- GetLinearHeapBase ;;
   name <- own_region ;;
   s <- get ;;
   ret (u32 (heap_base + region_size (GetMemoryRegion name (regions s)))))%hle.

(** [target < lo || target + size > hi || target + size < target] *)
Definition outside (lo hi target size : Z) : bool :=
  (target <? lo) || (hi <? u32 (target + size)) || (u32 (target + size) <? target).

(** ** HeapAllocate and HeapFree *)

(** [vma->second.type != Free || vma->second.base + vma->second.size < target + size] *)
Definition check_free_area (target size : Z) : op System unit :=
  (it <- on_vm (FindVMA target) ;;
   v <- on_vm (deref it) ;;
   R_UNLESS (negb (negb (bool_decide (vtype v = VMA_Free)) ||
                   (u32 (base v + VMManager.size v) <? u32 (target + size))))
     ResultInvalidAddressState)%hle.

(** Maps [memory] and gives the area that is returned the permissions. *)
Definition map_with (target : Z) (memory : MemoryRef) (size : Z) (state : MemoryState)
    (perms : VMAPermission) : op System unit :=
  (vma <- must (on_vm (MapBackingMemory MapMemoryRegion UnmapRegion CITRA_PAGE_MASK
                         target memory size state)) ;;
   on_vm (Reprotect MapMemoryRegion UnmapRegion vma perms) ;;
   ret tt)%hle.

(** "Maps heap block by block" *)
Fixpoint map_heap_blocks (blocks : list Interval) (perms : VMAPermission) (state : MemoryState)
    (interval_target : Z) : op System unit :=
  match blocks with
  | [] => ret tt
  | interval :: rest =>
      let interval_size := u32 (upper interval - lower interval) in
      (fill_zero (GetFCRAMPointer (lower interval)) (GetFCRAMPointer (upper interval)) ;;
       map_with interval_target (GetFCRAMRef (lower interval)) interval_size state perms ;;
       map_heap_blocks rest perms state (u32 (interval_target + interval_size)))%hle
  end.

Definition HeapAllocate (target size : Z) (perms : VMAPermission) (memory_state : MemoryState)
    (skip_range_check : bool) : op System Z :=
  (R_UNLESS (negb (outside HEAP_VADDR HEAP_VADDR_END target size && negb skip_range_check))
     ResultInvalidAddress ;;
   check_free_area target size ;;
   name <- own_region ;;
   allocated_fcram <- on_region name (MemoryRegion.HeapAllocate size) ;;
   R_UNLESS (negb (bool_decide (length allocated_fcram = 0%nat))) ResultOutOfHeapMemory ;;
   map_heap_blocks allocated_fcram perms memory_state target ;;
   modify (fun s => with_holding (add_intervals (holding_memory (process s)) allocated_fcram)
                      (u32 (memory_used (process s) + size)) s) ;;
   on_limit (Reserve Commit size) ;;
   ret target)%hle.

(** "Free heaps block by block" *)
Fixpoint free_heap_blocks (blocks : list (MemoryRef * Z)) : op System unit :=
  match blocks with
  | [] => ret tt
  | (backing_memory, block_size) :: rest =>
      let backing_offset := GetFCRAMOffset (GetPtr backing_memory) in
      (name <- own_region ;;
       on_region name (Free backing_offset block_size) ;;
       modify (fun s => with_holding
         (sub_interval (holding_memory (process s))
            (mkInterval backing_offset (u32 (backing_offset + block_size))))
         (memory_used (process s)) s) ;;
       free_heap_blocks rest)%hle
  end.

Definition HeapFree (target size : Z) : op System unit :=
  (R_UNLESS (negb (outside HEAP_VADDR HEAP_VADDR_END target size)) ResultInvalidAddress ;;
   if size =? 0 then ret tt
   else
     backing_blocks <- on_vm (GetBackingBlocksForRange target size) ;;
     free_heap_blocks backing_blocks ;;
     must (on_vm (UnmapRange MapMemoryRegion UnmapRegion CITRA_PAGE_MASK target size)) ;;
     modify (fun s => with_holding (holding_memory (process s))
                        (u32 (memory_used (process s) - size)) s) ;;
     on_limit (Release Commit size) ;;
     ret tt)%hle.

(** ** LinearAllocate and LinearFree *)

Definition LinearAllocate (target size : Z) (perms : VMAPermission) : op System Z :=
  (name <- own_region ;;
   s <- get ;;
   let area := GetLinearHeapAreaAddress (process s) in
   let* (physical_offset, target) :=
     (if target =? 0 then
        offset <- on_region name (MemoryRegion.LinearAllocate size) ;;
        match offset with
        | None => fail ResultOutOfHeapMemory
        | Some physical_offset => ret (physical_offset, u32 (physical_offset + area))
        end
      else
        lo <- GetLinearHeapBase ;;
        hi <- GetLinearHeapLimit ;;
        R_UNLESS (negb (outside lo hi target size)) ResultInvalidAddress ;;
        let physical_offset := u32 (target - area) in
        ok <- on_region name (LinearAllocateAt physical_offset size) ;;
        R_UNLESS ok ResultInvalidAddressState ;;
        ret (physical_offset, target)) in
   let backing_memory := GetFCRAMRef physical_offset in
   fill_zero (GetPtr backing_memory) (GetPtr backing_memory + size) ;;
   map_with target backing_memory size Continuous perms ;;
   modify (fun s => with_holding
     (add_intervals (holding_memory (process s))
        [mkInterval physical_offset (u32 (physical_offset + size))])
     (u32 (memory_used (process s) + size)) s) ;;
   on_limit (Reserve Commit size) ;;
   ret target)%hle.

Definition LinearFree (target size : Z) : op System unit :=
  (lo <- GetLinearHeapBase ;;
   hi <- GetLinearHeapLimit ;;
   R_UNLESS (negb (outside lo hi target size)) ResultInvalidAddress ;;
   if size =? 0 then ret tt
   else
     on_vm (UnmapRange MapMemoryRegion UnmapRegion CITRA_PAGE_MASK target size) ;;
     s <- get ;;
     let physical_offset := u32 (target - GetLinearHeapAreaAddress (process s)) in
     name <- own_region ;;
     on_region name (Free physical_offset size) ;;
     modify (fun s => with_holding
       (sub_interval (holding_memory (process s))
          (mkInterval physical_offset (u32 (physical_offset + size))))
       (u32 (memory_used (process s) - size)) s) ;;
     on_limit (Release Commit size) ;;
     ret tt)%hle.

(** ** Thread local storage *)

(** The first page with a free slot, and its first free slot. *)
Fixpoint find_tls_slot (page : nat) (slots : list (list bool)) : option (nat * nat) :=
  match slots with
  | [] => None
  | page_tls_slots :: rest =>
      match list_find (fun used => used = false) page_tls_slots with
      | Some (slot, _) => Some (page, slot)
      | None => find_tls_slot (S page) rest
      end
  end.

Definition tls_page_address (page : nat) : Z :=
  u32 (TLS_AREA_VADDR + u32 (Z.of_nat page * CITRA_PAGE_SIZE)).

Definition tls_slot_address (page slot : nat) : Z :=
  u32 (tls_page_address page + u32 (Z.of_nat slot * TLS_ENTRY_SIZE)).

(** [tls_slots[page].set(slot)] *)
Definition set_slot (page slot : nat) (slots : list (list bool)) : list (list bool) :=
  alter (fun l => <[slot := true]> l) page slots.

(** The result of mapping the new page is not looked at. *)
Definition AllocateThreadLocalStorage : op System Z :=
  (s <- get ;;
   let* (tls_page, tls_slot) :=
     match find_tls_slot 0 (tls_slots (process s)) with
     | Some found => ret found
     | None =>
         let tls_page := length (tls_slots (process s)) in
         offset <- on_region BASE (MemoryRegion.LinearAllocate CITRA_PAGE_SIZE) ;;
         match offset with
         | None => fail ResultOutOfMemory
         | Some offset =>
             modify (fun s => with_tls
               (add_intervals (holding_tls_memory (process s))
                  [mkInterval offset (u32 (offset + CITRA_PAGE_SIZE))])
               (tls_slots (process s) ++ [replicate 8 false])
               (u32 (memory_used (process s) + CITRA_PAGE_SIZE)) s) ;;
             ignoring (on_vm (MapBackingMemory MapMemoryRegion UnmapRegion CITRA_PAGE_MASK
               (tls_page_address tls_page) (GetFCRAMRef offset) CITRA_PAGE_SIZE Locked)) ;;
             ret (tls_page, 0%nat)
         end
     end in
   modify (fun s => with_tls (holding_tls_memory (process s))
     (set_slot tls_page tls_slot (tls_slots (process s))) (memory_used (process s)) s) ;;
   let tls_address := tls_slot_address tls_page tls_slot in
   modify (fun s => with_host
     (ZeroBlock (page_table (vm_manager (process s))) tls_address TLS_ENTRY_SIZE (host_memory s)) s) ;;
   ret tls_address)%hle.

(** ** Map and Unmap *)

(** [source - target < size || target - source < size] *)
Definition overlapping (target source size : Z) : bool :=
  (u32 (source - target) <? size) || (u32 (target - source) <? size).

Fixpoint map_alias_blocks (blocks : list (MemoryRef * Z)) (perms : VMAPermission)
    (target_state : MemoryState) (interval_target : Z) : op System unit :=
  match blocks with
  | [] => ret tt
  | (backing_memory, block_size) :: rest =>
      (map_with interval_target backing_memory block_size target_state perms ;;
       map_alias_blocks rest perms target_state (u32 (interval_target + block_size)))%hle
  end.

Definition change_memory_state (source size : Z) (expected_state : MemoryState)
    (expected_perms : VMAPermission) (new_state : MemoryState) (new_perms : VMAPermission)
    : op System unit :=
  on_vm (ChangeMemoryState MapMemoryRegion UnmapRegion CITRA_PAGE_MASK source size
           expected_state expected_perms new_state new_perms).

Definition Map (target source size : Z) (perms : VMAPermission) (privileged : bool)
    : op System unit :=
  (R_UNLESS (privileged || negb (outside HEAP_VADDR HEAP_VADDR_END source size))
     ResultInvalidAddress ;;
   if overlapping target source size then
     if privileged then
       if source =? target then
         change_memory_state source size Private ReadWrite AliasCode perms
       else fail ResultInvalidAddress
     else fail ResultInvalidAddressState
   else
     check_free_area target size ;;
     let source_state := if privileged then Locked else Aliased in
     let target_state := if privileged then AliasCode else Alias in
     let source_perm := if privileged then None_ else ReadWrite in
     change_memory_state source size Private ReadWrite source_state source_perm ;;
     backing_blocks <- on_vm (GetBackingBlocksForRange source size) ;;
     map_alias_blocks backing_blocks perms target_state target)%hle.

Definition Unmap (target source size : Z) (perms : VMAPermission) (privileged : bool)
    : op System unit :=
  (R_UNLESS (privileged || negb (outside HEAP_VADDR HEAP_VADDR_END source size))
     ResultInvalidAddress ;;
   if overlapping target source size then
     if privileged then
       if source =? target then
         change_memory_state source size AliasCode None_ Private perms
       else fail ResultInvalidAddress
     else fail ResultInvalidAddressState
   else
     let source_state := if privileged then Locked else Aliased in
     on_vm (UnmapRange MapMemoryRegion UnmapRegion CITRA_PAGE_MASK target size) ;;
     change_memory_state source size source_state None_ Private perms)%hle.

(** ** FreeAllMemory *)

Fixpoint free_held (name : MemoryRegionName) (with_commit : bool) (held : list Interval)
    : op System unit :=
  match held with
  | [] => ret tt
  | entry :: rest =>
      let size := u32 (upper entry - lower entry) in
      (on_region name (Free (lower entry) size) ;;
       modify (fun s => with_holding (holding_memory (process s))
                          (u32 (memory_used (process s) - size)) s) ;;
       (if with_commit then on_limit (Release Commit size) else ret true) ;;
       free_held name with_commit rest)%hle
  end.

Definition FreeAllMemory : op System unit :=
  (s <- get ;;
   match memory_region (process s), resource_limit s with
   | None, _ | _, None => ret tt
   | Some name, Some _ =>
       free_held name true (holding_memory (process s)) ;;
       modify (fun s => with_holding [] (memory_used (process s)) s) ;;
       s <- get ;;
       free_held BASE false (holding_tls_memory (process s)) ;;
       modify (fun s => with_tls [] [] (memory_used (process s)) s)
   end)%hle.

(** ** svcControlMemory *)

Definition MEMOP_FREE : Z := 1.
Definition MEMOP_COMMIT : Z := 3.
Definition MEMOP_MAP : Z := 4.
Definition MEMOP_UNMAP : Z := 5.
Definition MEMOP_PROTECT : Z := 6.
Definition MEMOP_OPERATION_MASK : Z := 0xFF.
Definition MEMOP_REGION_MASK : Z := 0xF00.
Definition MEMOP_LINEAR : Z := 0x10000.

(** [static_cast<VMAPermission>(permissions)] *)
Definition VMAPermission_of (n : Z) : VMAPermission :=
  match n with
  | 1 => Read | 2 => Write | 3 => ReadWrite | 4 => Execute | 5 => ReadExecute
  | 6 => WriteExecute | 7 => ReadWriteExecute | _ => None_
  end.

(** The value is what is left in [*out_addr], where the call stores one. *)
Definition ControlMemory (addr0 addr1 size operation permissions : Z) : op System (option Z) :=
  (R_UNLESS (Z.land addr0 CITRA_PAGE_MASK =? 0) ResultMisalignedAddress ;;
   R_UNLESS (Z.land addr1 CITRA_PAGE_MASK =? 0) ResultMisalignedAddress ;;
   R_UNLESS (Z.land size CITRA_PAGE_MASK =? 0) ResultMisalignedSize ;;
   let operation := Z.ldiff operation MEMOP_REGION_MASK in
   R_UNLESS (Z.land permissions 3 =? permissions) ResultInvalidCombination ;;
   let vma_permissions := VMAPermission_of permissions in
   let operation_ := Z.land operation MEMOP_OPERATION_MASK in
   if operation_ =? MEMOP_FREE then
     (if (HEAP_VADDR <=? addr0) && (addr0 <? HEAP_VADDR_END) then HeapFree addr0 size
      else
        lo <- GetLinearHeapBase ;;
        hi <- GetLinearHeapLimit ;;
        if (lo <=? addr0) && (addr0 <? hi) then LinearFree addr0 size
        else fail ResultInvalidAddress) ;;
     ret (Some addr0)
   else if operation_ =? MEMOP_COMMIT then
     target <- (if negb (Z.land operation MEMOP_LINEAR =? 0)
                then LinearAllocate addr0 size vma_permissions
                else HeapAllocate addr0 size vma_permissions Private false) ;;
     ret (Some target)
   else if operation_ =? MEMOP_MAP then
     Map addr0 addr1 size vma_permissions false ;; ret None
   else if operation_ =? MEMOP_UNMAP then
     Unmap addr0 addr1 size vma_permissions false ;; ret None
   else if operation_ =? MEMOP_PROTECT then
     on_vm (ReprotectRange MapMemoryRegion UnmapRegion CITRA_PAGE_MASK addr0 size vma_permissions) ;;
     ret None
   else fail ResultInvalidCombination)%hle.

(** ** MemoryInit *)

(** What the configuration memory reports. *)
Record ConfigMem := mkConfigMem {
  app_mem_type : Z;
  app_mem_alloc : Z;
  sys_mem_alloc : Z;
  base_mem_alloc : Z
}.

(** The loop over the three regions, [base] being the end of the previous one,
    and the values written to the configuration memory. *)
Definition MemoryInit (is_new_3ds : bool) (memory_mode : MemoryMode) : op System ConfigMem :=
  let size i := nth i (nth (Z.to_nat (MemoryMode_value memory_mode)) memory_region_sizes []) 0 in
  let reset name base i :=
    (on_region name (MemoryRegion.Reset base (size i)) ;;
     s <- get ;;
     ret (u32 (base + region_size (GetMemoryRegion name (regions s)))))%hle in
  (base <- reset APPLICATION 0 0%nat ;;
   base <- reset SYSTEM base 1%nat ;;
   base <- reset BASE base 2%nat ;;
   assert_ (base =? (if is_new_3ds then FCRAM_N3DS_SIZE else FCRAM_SIZE)) ;;
   s <- get ;;
   ret (mkConfigMem (u8 (MemoryMode_value memory_mode))
          (region_size (application_region (regions s)))
          (region_size (system_region (regions s)))
          (region_size (base_region (regions s)))))%hle.
End Process.
