(* ===== verification/ProcessMemory.v ===== *)
(** * ProcessMemory: the memory requests of a process keep it consistent

    The invariant of a process ([process_ok]): its address space is well formed, its
    region allocates whole pages, and [owns] relates the address map, the free set
    and the held set.  What each of [HeapAllocate], [HeapFree], [LinearAllocate] and
    [LinearFree] does on every branch. *)
From S2P Require Import Prelude Result StdSet MemoryRegion VMManager ResourceLimit Process ProcessSpecs.

Local Open Scope Z_scope.

Section Process.
Context {MS : MemorySystem} {ML : MemorySystemLaws MS}.

Abbreviation good := (vm_good mems pt_lookup).

(** ** The invariant *)

Definition region_of (name : MemoryRegionName) (s : System) : MemoryRegionInfo :=
  GetMemoryRegion name (regions s).

Definition space (s : System) : list VirtualMemoryArea := vma_map (vm_manager (process s)).

Definition own_now (name : MemoryRegionName) (s : System) : (Z -> option Z) -> (Z -> Prop) -> (Z -> Prop) -> Prop :=
  owns fcram (GetLinearHeapAreaAddress (process s)) (region_base (region_of name s))
    (region_size (region_of name s)).

Record process_ok (name : MemoryRegionName) (s : System) : Prop := {
  ok_space : good (vm_manager (process s));
  ok_name : memory_region (process s) = Some name;
  ok_region : region_wf (region_of name s);
  ok_unlocked : MemoryRegion.is_locked (region_of name s) = false;
  ok_base : region_base (region_of name s) mod 4096 = 0;
  ok_size : region_size (region_of name s) mod 4096 = 0;
  ok_fcram : region_base (region_of name s) + region_size (region_of name s) <= FCRAM_N3DS_SIZE;
  ok_holding : canonical (region_base (region_of name s))
    (region_base (region_of name s) + region_size (region_of name s)) (holding_memory (process s));
  ok_limit : exists l, resource_limit s = Some l /\ limit_wf l;
  ok_owns : own_now name s (host_of (space s)) (covers (free_blocks (region_of name s)))
    (covers (holding_memory (process s)))
}.

(** What [memory_used] and the commit count of the resource limit have besides the
    memory that the process holds (thread local storage is not committed). *)
Definition ledger (s : System) : Z * Z :=
  (u32 (memory_used (process s) - total (holding_memory (process s))
        - total (holding_tls_memory (process s))),
   u32 (match resource_limit s with Some l => GetCurrentValue Commit l | None => 0 end
        - total (holding_memory (process s)))).

(** A change of the permissions of an area that a new area was merged with. *)
Definition reperm (p : VMAPermission) (st : MemoryState) (x y : option attributes) : Prop :=
  x = y \/
  exists h, x = Some (BackingMemory, ReadWrite, st, h) /\ y = Some (BackingMemory, p, st, h).

Lemma reperm_trans p st x y z : reperm p st x y -> reperm p st y z -> reperm p st x z.
Proof.
  intros [->|(h & -> & ->)]; [done|]. intros [<-|(h' & [= E <-] & ->)]; right; eauto.
Qed.

Lemma reperm_own p st h y : reperm p st (Some (BackingMemory, p, st, h)) y ->
  y = Some (BackingMemory, p, st, h).
Proof. intros [<-|(h' & [= -> ->] & ->)]; done. Qed.

Lemma reperm_host p st l l' a : reperm p st (attr l a) (attr l' a) -> host_of l a = host_of l' a.
Proof. unfold host_of. by intros [->|(h & -> & ->)]. Qed.

(** The offset of byte [i] of the blocks laid end to end. *)
Fixpoint offset_at (blocks : list Interval) (i : Z) : Z :=
  match blocks with
  | [] => 0
  | b :: rest =>
      if i <? upper b - lower b then lower b + i else offset_at rest (i - (upper b - lower b))
  end.

Lemma linear_area_range s :
  GetLinearHeapAreaAddress (process s) mod 4096 = 0 /\
  HEAP_VADDR_END <= GetLinearHeapAreaAddress (process s) /\
  GetLinearHeapAreaAddress (process s) + FCRAM_N3DS_SIZE <= MAX_ADDRESS.
Proof.
  apply linear_area_ok. unfold GetLinearHeapAreaAddress. destruct (_ <? _); auto.
Qed.

(** ** Mapping the blocks of an allocation *)

(** One block: free memory becomes held and mapped. *)
Lemma map_block_run area lo size s t b perms st F H :
  good (vm_manager (process s)) -> t mod 4096 = 0 -> 0 <= t -> aligned_block b ->
  0 <= lower b -> lower b < upper b -> upper b <= FCRAM_N3DS_SIZE ->
  t + (upper b - lower b) <= MAX_ADDRESS ->
  (forall a, t <= a < t + (upper b - lower b) -> host_of (space s) a = None) ->
  (forall a, t <= a < t + (upper b - lower b) -> in_linear area lo size a -> lower b + (a - t) = a - area) ->
  owns fcram area lo size (host_of (space s)) F H ->
  (forall o, MemoryRegion.inside b o -> F o) ->
  exists v, map_with t (GetFCRAMRef (lower b)) (upper b - lower b) st perms s = Done (with_vm v s) tt /\
    good v /\
    (forall a, t <= a < t + (upper b - lower b) ->
       attr (vma_map v) a = Some (BackingMemory, perms, st, fcram + (lower b + (a - t)))) /\
    (forall a, ~ (t <= a < t + (upper b - lower b)) -> reperm perms st (attr (space s) a) (attr (vma_map v) a)) /\
    owns fcram area lo size (host_of (vma_map v)) (fun o => F o /\ ~ MemoryRegion.inside b o)
      (fun o => H o \/ MemoryRegion.inside b o).
Proof.
  intros Hg Ht H0 [Hb1 Hb2] Hl Hlu Hu Hmax Hnone Hlin Ho HF.
  pose proof (GetFCRAMRef_ptr (lower b)) as Hp. rewrite FCRAM_N3DS_SIZE_value in *.
  destruct (map_with_run s t (GetFCRAMRef (lower b)) (upper b - lower b) st perms Hg)
    as (v & E & Hg' & Hin & Hout); try done; try lia.
  - apply GetFCRAMRef_ok; rewrite ?FCRAM_N3DS_SIZE_value; lia.
  - zlia.
  - intros a Ha. apply free_host; [done|lia|]. by apply Hnone.
  - rewrite Hp in * by lia.
    assert (Hr : forall a, ~ (t <= a < t + (upper b - lower b)) ->
              reperm perms st (attr (space s) a) (attr (vma_map v) a)).
    { intros a Ha. unfold space. destruct (Hout a Ha) as [->|[-> ->]]; [by left|]. right. eauto. }
    exists v. split_and!; try done.
    + intros a Ha. rewrite Hin by done. do 2 f_equal. lia.
    + eapply owns_ext; [..|apply (owns_map _ _ _ _ _ F H t (upper b - lower b) (lower b) Ho)];
        try done; try zlia.
      * intros a. unfold map_block.
        destruct (Z.leb_spec t a), (Z.ltb_spec a (t + (upper b - lower b))); simpl;
          try (apply (reperm_host perms st), Hr; lia).
        unfold host_of. by rewrite Hin by lia.
      * intros o. unfold MemoryRegion.inside. simpl.
        replace (lower b + (upper b - lower b)) with (upper b) by lia. done.
      * intros o. unfold MemoryRegion.inside. simpl.
        replace (lower b + (upper b - lower b)) with (upper b) by lia. done.
      * intros i Hi. apply HF. unfold MemoryRegion.inside. lia.
Qed.

(** The fill reaches the host bytes of the blocks and no others. *)
Definition zero_blocks (blocks : IntervalSet) (h h' : Z -> Z) : Prop :=
  (forall o, covers blocks o -> h' (fcram + o) = 0) /\
  (forall p, ~ covers blocks (p - fcram) -> h' p = h p).

Lemma fill_block b s : 0 <= lower b -> lower b < upper b -> upper b <= FCRAM_N3DS_SIZE ->
  exists h, fill_zero (GetFCRAMPointer (lower b)) (GetFCRAMPointer (upper b)) s =
    Done (with_host h s) tt /\ zero_blocks [b] (host_memory s) h.
Proof.
  intros H1 H2 H3. rewrite !GetFCRAMPointer_ptr by lia. eexists. split; [reflexivity|]. split.
  - intros o Ho%covers_single. unfold MemoryRegion.inside in Ho. by zdecide.
  - intros p Hp. rewrite covers_single in Hp. unfold MemoryRegion.inside in Hp.
    destruct (Z.leb_spec (fcram + lower b) p), (Z.ltb_spec p (fcram + upper b)); simpl; try done; lia.
Qed.

Lemma zero_blocks_cons b rest h h1 h2 :
  zero_blocks [b] h h1 -> zero_blocks rest h1 h2 -> zero_blocks (b :: rest) h h2.
Proof.
  intros [A1 A2] [B1 B2]. split.
  - intros o Ho. destruct (decide (Exists (fun i => MemoryRegion.inside i o) rest)) as [Hr|Hr].
    + apply B1. apply Exists_exists in Hr as (i & ? & ?). by exists i.
    + assert (Hn : ~ covers rest o).
      { intros (i & ? & ?). apply Hr, Exists_exists. eauto. }
      rewrite B2 by by replace (fcram + o - fcram) with o by lia.
      apply A1. apply covers_cons in Ho as [Ho|Ho]; [by apply covers_single|done].
  - intros p Hp. rewrite covers_cons in Hp. rewrite B2 by tauto.
    apply A2. rewrite covers_single. tauto.
Qed.

Lemma map_heap_blocks_run area lo size perms st F blocks : forall s t H,
  canonical lo (lo + size) blocks -> Forall aligned_block blocks ->
  0 <= lo -> lo + size <= FCRAM_N3DS_SIZE ->
  good (vm_manager (process s)) -> t mod 4096 = 0 -> 0 <= t -> t + total blocks <= MAX_ADDRESS ->
  (forall a, t <= a < t + total blocks -> host_of (space s) a = None) ->
  (forall a, t <= a < t + total blocks -> ~ in_linear area lo size a) ->
  owns fcram area lo size (host_of (space s)) (fun o => F o \/ covers blocks o) H ->
  (forall o, F o -> ~ covers blocks o) ->
  exists v h, map_heap_blocks blocks perms st t s = Done (with_host h (with_vm v s)) tt /\
    good v /\ zero_blocks blocks (host_memory s) h /\
    (forall a, t <= a < t + total blocks ->
       attr (vma_map v) a = Some (BackingMemory, perms, st, fcram + offset_at blocks (a - t))) /\
    (forall a, ~ (t <= a < t + total blocks) -> reperm perms st (attr (space s) a) (attr (vma_map v) a)) /\
    owns fcram area lo size (host_of (vma_map v)) F (fun o => H o \/ covers blocks o).
Proof.
  induction blocks as [|b rest IH]; intros s t H Hc Hal Hlo Hhi Hg Ht H0 Hmax Hnone Hlin Ho Hdis.
  - exists (vm_manager (process s)), (host_memory s). split_and!; try done.
    + by destruct s as [[] ? ? ?].
    + split; [|done]. intros o Hc'. by apply covers_nil in Hc'.
    + simpl. lia.
    + by left.
    + eapply owns_ext; [done|..|exact Ho]; intros o; pose proof (covers_nil o); simpl; tauto.
  - pose proof Hc as Hc0. apply canonical_cons in Hc as (Hb & Hbef & Hc). pose proof Hb as (B1 & B2 & B3).
    apply Forall_cons in Hal as [Hab Hal]. pose proof (total_nonneg _ _ _ Hc) as Htn. simpl total in *.
    pose proof Hhi as Hhi'. rewrite FCRAM_N3DS_SIZE_value in Hhi'.
    destruct (fill_block b s) as (h1 & Ef & Hz1); [lia|lia|rewrite FCRAM_N3DS_SIZE_value; lia|].
    set (s1 := with_host h1 s) in *.
    assert (Hnb : forall o, MemoryRegion.inside b o -> ~ covers rest o).
    { intros o Hio (j & Hj & Hjo). specialize (Hbef j Hj). unfold before, MemoryRegion.inside in *. lia. }
    destruct (map_block_run area lo size s1 t b perms st (fun o => F o \/ covers (b :: rest) o) H Hg Ht H0 Hab) as
      (v1 & Em & Hg1 & Hin1 & Hout1 & Ho1); try done; try lia.
    { intros a Ha. apply Hnone. lia. }
    { intros a Ha Hla. destruct (Hlin a); [lia|done]. }
    { intros o Hio. right. apply covers_cons. auto. }
    set (n := upper b - lower b) in *. set (s2 := with_vm v1 s1).
    assert (Hmid : forall a, t + n <= a < t + n + total rest -> ~ (t <= a < t + n)) by lia.
    destruct (IH s2 (t + n) (fun o => H o \/ MemoryRegion.inside b o)) as
      (v2 & h2 & E2 & Hg2 & Hz2 & Hin2 & Hout2 & Ho2); try done; try lia.
    { destruct Hab. unfold n. zlia. }
    { intros a Ha. rewrite <-(Hnone a) by lia. symmetry. eapply reperm_host, Hout1. by apply Hmid. }
    { intros a Ha. apply Hlin. lia. }
    { eapply owns_ext; [done|..|exact Ho1]; intros o; [|done]. cbv beta. rewrite covers_cons.
      specialize (Hdis o). rewrite covers_cons in Hdis. specialize (Hnb o). tauto. }
    { intros o HF. specialize (Hdis o HF). rewrite covers_cons in Hdis. tauto. }
    exists v2, h2. split_and!; try done.
    + simpl map_heap_blocks. fold n.
      assert (Eu : u32 n = n) by (apply u32_small; unfold n; word_lia).
      assert (Et : u32 (t + n) = t + n) by (apply u32_small; unfold MAX_ADDRESS in Hmax; word_lia).
      rewrite Eu, Et. erewrite bind_Done by exact Ef. erewrite bind_Done by exact Em. exact E2.
    + by apply (zero_blocks_cons b rest _ h1).
    + intros a Ha. simpl offset_at. fold n. destruct (Z.ltb_spec (a - t) n).
      * apply (reperm_own perms st (fcram + (lower b + (a - t)))).
        rewrite <-Hin1 by lia. apply (Hout2 a). lia.
      * rewrite Hin2 by lia. by replace (a - (t + n)) with (a - t - n) by lia.
    + intros a Ha. apply (reperm_trans perms st _ (attr (space s2) a)).
      * apply Hout1. lia.
      * apply Hout2. lia.
    + eapply owns_ext; [done|done|..|exact Ho2]. intros o. rewrite covers_cons. tauto.
Qed.

(** ** The checks *)

Lemma with_vm_id s : with_vm (vm_manager (process s)) s = s.
Proof. by destruct s as [[] ? ? ?]. Qed.

Lemma set_region_id name r : set_region name (GetMemoryRegion name r) r = r.
Proof. by destruct name, r. Qed.

Lemma with_regions_id name s : with_regions (set_region name (region_of name s) (regions s)) s = s.
Proof. unfold region_of. rewrite set_region_id. by destruct s. Qed.

Lemma on_region_Done {A} name (m : op MemoryRegionInfo A) s r a :
  m (region_of name s) = Done r a ->
  on_region name m s = Done (with_regions (set_region name r (regions s)) s) a.
Proof. intros E. unfold on_region. unfold region_of in E. by rewrite E. Qed.

Lemma on_region_same {A} name (m : op MemoryRegionInfo A) s a :
  m (region_of name s) = Done (region_of name s) a -> on_region name m s = Done s a.
Proof. intros E. rewrite (on_region_Done _ _ _ _ _ E). by rewrite with_regions_id. Qed.

Lemma on_vm_Done {A} (m : op VMManager A) s v a :
  m (vm_manager (process s)) = Done v a -> on_vm m s = Done (with_vm v s) a.
Proof. intros E. unfold on_vm. by rewrite E. Qed.

Lemma on_vm_refused {A} (m : op VMManager A) s rc :
  m (vm_manager (process s)) = Failed (vm_manager (process s)) rc -> on_vm m s = Failed s rc.
Proof. intros E. unfold on_vm. rewrite E. by rewrite with_vm_id. Qed.

Lemma get_set_region name i r : GetMemoryRegion name (set_region name i r) = i.
Proof. by destruct name. Qed.

Lemma outside_false lo hi t n : is_u32 t -> is_u32 n -> hi < 4294967296 ->
  outside lo hi t n = false <-> lo <= t /\ t + n <= hi.
Proof.
  intros Ht Hn Hh. unfold outside. rewrite !orb_false_iff, !Z.ltb_ge. unfold is_u32 in *.
  split; [word_lia|]. intros [H1 H2]. rewrite u32_small by (unfold is_u32; lia). lia.
Qed.

Lemma check_free_area_run s t n :
  good (vm_manager (process s)) -> 0 <= t -> 0 < n -> t + n <= MAX_ADDRESS ->
  ((forall a, t <= a < t + n -> host_of (space s) a = None) /\
   check_free_area t n s = Done s tt) \/
  ((exists a h, t <= a < t + n /\ host_of (space s) a = Some h) /\
   check_free_area t n s = Failed s ResultInvalidAddressState).
Proof.
  intros Hg H0 H1 H2. pose proof Hg as (Hwf & Hlk & Hj). pose proof (good_space _ Hg) as Htl.
  destruct (FindVMA_run (vm_manager (process s)) t Htl) as (pre & v & suf & Em & Hv & Ef); [lia|].
  assert (Hin : v ∈ vma_map (vm_manager (process s))) by (rewrite Em; mem_list).
  destruct (tiles_bound _ _ _ v Htl Hin) as (B1 & B2 & B3). pose proof Hv as Hv'.
  unfold VMManager.inside in Hv'. zbool. unfold vma_end, MAX_ADDRESS in *.
  assert (Er : check_free_area t n s =
    if negb (negb (bool_decide (vtype v = VMA_Free)) || (base v + VMManager.size v <? t + n))
    then Done s tt else Failed s ResultInvalidAddressState).
  { unfold check_free_area. erewrite bind_Done by (unfold on_vm; rewrite Ef; reflexivity).
    rewrite with_vm_id. erewrite bind_Done by (unfold on_vm; simpl; rewrite with_vm_id; reflexivity).
    rewrite !u32_small by word_lia. done. }
  rewrite Er. destruct (vtype v) eqn:Et.
  - rewrite bool_decide_eq_true_2 by done. simpl.
    assert (Hfree : (forall a, t <= a < t + n -> is_free (attr (space s) a) = true) <->
                    t + n <= base v + VMManager.size v).
    { rewrite <-(joined_free_area mems _ t n (wf_areas _ _ _ Hwf) Hj) by (unfold MAX_ADDRESS; lia).
      split; [|intros Hle; exists v; split_and!; try done; unfold vma_end; lia].
      intros (w & Hw & Hfw & Hb & He). assert (w = v) as ->; [|unfold vma_end in He; lia].
      rewrite Em in Hw, Htl.
      assert (Hiw : VMManager.inside w t = true) by (unfold VMManager.inside; by zdecide).
      apply elem_of_split_list in Hw as (p & q & Epq).
      assert (FindVMA t (vm_manager (process s)) = Done (vm_manager (process s)) (p, w :: q)).
      { apply FindVMA_area; [by rewrite Em|by rewrite Em|done]. }
      congruence. }
    destruct (Z.ltb_spec (base v + VMManager.size v) (t + n)); simpl; [right|left]; (split; [|done]).
    + destruct (decide (host_of (space s) (base v + VMManager.size v) = None)) as [E|E].
      2: { destruct (host_of (space s) _) as [h|] eqn:Eh; [|done]. exists (base v + VMManager.size v), h.
           split; [lia|done]. }
      exfalso. destruct suf as [|w suf].
      { rewrite Em in Htl. apply tiles_app in Htl as (k & _ & Ek & _ & Hk). simpl in Hk.
        unfold vma_end, MAX_ADDRESS in *. lia. }
      pose proof Hj as Hj'. unfold joined in Hj'. rewrite Em in Hj'.
      apply joined_app in Hj' as (_ & [_ Hne]%joined_cons & _). apply (Hne w eq_refl Et).
      pose proof Htl as Htl'. rewrite Em in Htl'. apply tiles_adjacent in Htl' as Eb. unfold vma_end in Eb.
      assert (Hw : w ∈ vma_map (vm_manager (process s))) by (rewrite Em; mem_list).
      destruct (tiles_bound _ _ _ w Htl Hw) as (W1 & W2 & W3).
      assert (Hf : is_free (attr (space s) (base w)) = true).
      { apply free_host; [done|unfold vma_end, MAX_ADDRESS in *; lia|]. by rewrite <-Eb. }
      unfold space in Hf. rewrite (attr_elem _ _ _ w (base w) Htl Hw), is_free_view in Hf;
        [by apply bool_decide_eq_true in Hf|unfold VMManager.inside, vma_end; by zdecide].
    + intros a Ha. apply free_host; [done|unfold MAX_ADDRESS; lia|]. by apply Hfree.
  - right. rewrite bool_decide_eq_false_2 by done. split; [|done].
    exists t, (GetPtr (backing_memory v) + (t - base v)). split; [lia|].
    unfold host_of, space. rewrite (attr_elem _ _ _ v t Htl Hin Hv). unfold view. by rewrite Et.
Qed.

Lemma heap_not_linear name s a : process_ok name s -> in_heap a ->
  ~ in_linear (GetLinearHeapAreaAddress (process s)) (region_base (region_of name s))
      (region_size (region_of name s)) a.
Proof.
  intros Hok. pose proof (linear_area_range s) as (_ & H & _). pose proof (wf_base _ (ok_region _ _ Hok)).
  unfold in_heap, in_linear. lia.
Qed.

Lemma other_set_region other name i r : other <> name ->
  GetMemoryRegion other (set_region name i r) = GetMemoryRegion other r.
Proof. by destruct other, name. Qed.

(** ** Allocation *)

(** What an allocation of [blocks] at [t] has done: the memory was free, is held
    now, is mapped in order and reads zero; nothing else is mapped differently. *)
Record allocated (name : MemoryRegionName) (s s' : System) (t n : Z) (p : VMAPermission)
    (st : MemoryState) (blocks : IntervalSet) : Prop := {
  al_blocks : canonical (region_base (region_of name s))
    (region_base (region_of name s) + region_size (region_of name s)) blocks;
  al_total : total blocks = n;
  al_range : forall a, t <= a < t + n ->
    attr (space s') a = Some (BackingMemory, p, st, fcram + offset_at blocks (a - t));
  al_rest : forall a, ~ (t <= a < t + n) -> reperm p st (attr (space s) a) (attr (space s') a);
  al_free : forall o, covers (free_blocks (region_of name s)) o <->
    covers (free_blocks (region_of name s')) o \/ covers blocks o;
  al_held : forall o, covers (holding_memory (process s')) o <->
    covers (holding_memory (process s)) o \/ covers blocks o;
  al_extent : region_base (region_of name s') = region_base (region_of name s) /\
    region_size (region_of name s') = region_size (region_of name s);
  al_others : forall other, other <> name -> region_of other s' = region_of other s;
  al_zero : zero_blocks blocks (host_memory s) (host_memory s');
  al_ledger : ledger s' = ledger s;
  al_capabilities : capabilities (process s') = capabilities (process s)
}.

(** The bookkeeping at the end of [HeapAllocate] and [LinearAllocate]. *)
Definition book (blocks : IntervalSet) (n : Z) : op System unit :=
  (modify (fun s => with_holding (add_intervals (holding_memory (process s)) blocks)
                      (u32 (memory_used (process s) + n)) s) ;;
   on_limit (Reserve Commit n) ;;
   ret tt)%hle.

(** The state when the memory was taken from the region and mapped. *)
Definition after_mapping (name : MemoryRegionName) (r : MemoryRegionInfo) (v : VMManager) (h : Z -> Z)
    (s : System) : System :=
  with_host h (with_vm v (with_regions (set_region name r (regions s)) s)).

Lemma region_after name r v h s : region_of name (after_mapping name r v h s) = r.
Proof. unfold region_of. simpl. apply get_set_region. Qed.

Lemma held_canonical_block name s b : process_ok name s ->
  canonical (region_base (region_of name s))
    (region_base (region_of name s) + region_size (region_of name s)) b ->
  forall i, i ∈ b -> 0 <= lower i /\ lower i < upper i /\ upper i <= FCRAM_N3DS_SIZE.
Proof.
  intros Hok Hb i Hi. destruct (canonical_block _ _ _ _ Hb Hi) as (B1 & B2 & B3).
  pose proof (ok_fcram _ _ Hok). pose proof (wf_base _ (ok_region _ _ Hok)). lia.
Qed.

Lemma book_run name s r v h t n p st blocks :
  process_ok name s -> region_wf r -> MemoryRegion.is_locked r = false ->
  region_base r = region_base (region_of name s) -> region_size r = region_size (region_of name s) ->
  canonical (region_base (region_of name s))
    (region_base (region_of name s) + region_size (region_of name s)) blocks ->
  total blocks = n ->
  (forall o, covers (free_blocks (region_of name s)) o <-> covers (free_blocks r) o \/ covers blocks o) ->
  good v -> zero_blocks blocks (host_memory s) h ->
  (forall a, t <= a < t + n -> attr (vma_map v) a = Some (BackingMemory, p, st, fcram + offset_at blocks (a - t))) ->
  (forall a, ~ (t <= a < t + n) -> reperm p st (attr (space s) a) (attr (vma_map v) a)) ->
  own_now name s (host_of (vma_map v)) (covers (free_blocks r))
    (fun o => covers (holding_memory (process s)) o \/ covers blocks o) ->
  exists s', book blocks n (after_mapping name r v h s) = Done s' tt /\
    process_ok name s' /\ allocated name s s' t n p st blocks.
Proof.
  intros Hok Hwf Hlk Eb Es Hbl Htot Hfree Hg Hz Hin Hout Ho.
  destruct (ok_limit _ _ Hok) as (l & El & Hl).
  assert (Hdis : forall o, covers (holding_memory (process s)) o -> covers blocks o -> False).
  { intros o Hh Hb. apply (owns_disjoint _ _ _ _ _ _ _ o (ok_owns _ _ Hok) Hh). apply Hfree. auto. }
  destruct (add_intervals_ok _ _ _ _ (ok_holding _ _ Hok) Hbl Hdis) as [Hc Hcov].
  pose proof (total_union _ _ _ _ _ (ok_holding _ _ Hok) Hbl Hc Hcov Hdis) as Ht.
  set (s0 := after_mapping name r v h s).
  set (s1 := with_limit (Some (fst (Reserve Commit n l)))
    (with_holding (add_intervals (holding_memory (process s0)) blocks)
       (u32 (memory_used (process s0) + n)) s0)).
  assert (Er : region_of name s1 = r) by (unfold region_of; simpl; apply get_set_region).
  exists s1. split.
  { unfold book, s1, bind, modify, on_limit. simpl. by rewrite El. }
  split.
  - split; rewrite ?Er, ?Eb, ?Es; try done.
    + apply (ok_name _ _ Hok).
    + apply (ok_base _ _ Hok).
    + apply (ok_size _ _ Hok).
    + apply (ok_fcram _ _ Hok).
    + exists (fst (Reserve Commit n l)). split; [done|]. by apply SetCurrentValue_wf.
    + unfold own_now. rewrite Er, Eb, Es. eapply owns_ext; [done|done|..|exact Ho].
      intros o. simpl. by rewrite Hcov.
  - split; rewrite ?Er; try done.
    { intros other Hne. by apply other_set_region. }
    unfold ledger. simpl. rewrite El, GetCurrentValue_Set by done.
    rewrite bool_decide_eq_true_2 by done. rewrite Ht, Htot. f_equal; word_lia.
Qed.

Lemma free_aligned name s : process_ok name s -> Forall aligned_block (free_blocks (region_of name s)).
Proof.
  intros Hok. apply list.Forall_forall. intros i Hi. pose proof (ok_base _ _ Hok). pose proof (ok_size _ _ Hok).
  eapply (block_pages _ _ _ i (wf_free _ (ok_region _ _ Hok)) Hi); try done.
  - apply (own_free_pages _ _ _ _ _ _ _ (ok_owns _ _ Hok)).
  - apply (wf_base _ (ok_region _ _ Hok)).
  - zlia.
Qed.

Lemma own_region_run name s : process_ok name s -> own_region s = Done s name.
Proof. intros Hok. unfold own_region. by rewrite (ok_name _ _ Hok). Qed.

Lemma HeapAllocate_outside t n p st s : is_u32 t -> is_u32 n ->
  ~ (HEAP_VADDR <= t /\ t + n <= HEAP_VADDR_END) ->
  HeapAllocate t n p st false s = Failed s ResultInvalidAddress.
Proof.
  intros Ht Hn Hr. unfold HeapAllocate.
  destruct (outside HEAP_VADDR HEAP_VADDR_END t n) eqn:E; [done|].
  apply outside_false in E; done.
Qed.

Lemma HeapAllocate_commits name s t n p st skip :
  process_ok name s -> is_u32 n -> 0 <= t -> 0 < n -> t mod 4096 = 0 -> n mod 4096 = 0 ->
  t + n <= MAX_ADDRESS ->
  (forall a, t <= a < t + n -> ~ in_linear (GetLinearHeapAreaAddress (process s))
     (region_base (region_of name s)) (region_size (region_of name s)) a) ->
  skip = true \/ (HEAP_VADDR <= t /\ t + n <= HEAP_VADDR_END) ->
  ((exists a h, t <= a < t + n /\ host_of (space s) a = Some h) /\
   HeapAllocate t n p st skip s = Failed s ResultInvalidAddressState) \/
  ((forall a, t <= a < t + n -> host_of (space s) a = None) /\
   ((total (free_blocks (region_of name s)) < n /\
     HeapAllocate t n p st skip s = Failed s ResultOutOfHeapMemory) \/
    (n <= total (free_blocks (region_of name s)) /\ exists s' blocks,
     HeapAllocate t n p st skip s = Done s' t /\ process_ok name s' /\
     allocated name s s' t n p st blocks /\
     (forall x y, covers (free_blocks (region_of name s')) x -> covers blocks y -> x < y)))).
Proof.
  intros Hok Hn H0 H1 Hta Hna Hmax Hlin Hskip. pose proof (ok_space _ _ Hok) as Hg.
  assert (Hout : negb (outside HEAP_VADDR HEAP_VADDR_END t n && negb skip) = true).
  { destruct Hskip as [->|Hr]; [by rewrite andb_false_r|].
    assert (Htu : is_u32 t) by (unfold is_u32, MAX_ADDRESS in *; lia).
    by rewrite (proj2 (outside_false HEAP_VADDR HEAP_VADDR_END t n Htu Hn eq_refl) Hr). }
  assert (Hn' : 0 < n < 4294967296) by (unfold is_u32 in Hn; lia).
  unfold HeapAllocate. rewrite Hout. erewrite bind_Done by reflexivity.
  destruct (check_free_area_run s t n Hg H0 H1 Hmax) as [[Hnone E]|[Hmapped E]].
  2: { left. split; [done|]. by erewrite bind_Failed by exact E. }
  right. split; [done|]. erewrite bind_Done by exact E.
  erewrite bind_Done by (by apply own_region_run).
  destruct (HeapAllocate_run (region_of name s) n (ok_region _ _ Hok) (ok_unlocked _ _ Hok) Hn') as
    [[Hlt Er]|(Hle & r & blocks & Er & Hwf & Eq & Hc & Ht & Hcov & Hord)].
  - left. split; [done|].
    erewrite bind_Done by (by apply on_region_same). done.
  - right. split; [done|].
    erewrite bind_Done by (by apply on_region_Done).
    assert (Hlen : length blocks <> 0%nat).
    { destruct blocks; [simpl in Ht; lia|done]. }
    rewrite bool_decide_eq_false_2 by done. erewrite bind_Done by reflexivity.
    pose proof (HeapAllocate_aligned _ _ _ _ (ok_region _ _ Hok) (ok_unlocked _ _ Hok)
                  Hn' Hna (free_aligned _ _ Hok) Er) as Hal.
    set (s0 := with_regions (set_region name r (regions s)) s).
    destruct (map_heap_blocks_run (GetLinearHeapAreaAddress (process s)) (region_base (region_of name s))
                (region_size (region_of name s)) p st (covers (free_blocks r)) blocks s0 t
                (covers (holding_memory (process s)))) as
      (v & h & Em & Hgv & Hz & Hin & Hrest & Ho); rewrite ?Ht; try done.
    + apply (wf_base _ (ok_region _ _ Hok)).
    + apply (ok_fcram _ _ Hok).
    + eapply owns_ext; [done|apply Hcov|done|apply (ok_owns _ _ Hok)].
    + intros o Hf Hb. specialize (Hord o o Hf Hb). lia.
    + erewrite bind_Done by exact Em. rewrite Ht in Hin, Hrest.
      destruct (book_run name s r v h t n p st blocks) as (s' & Eb & Hok' & Hal'); try done.
      * rewrite Eq. apply (ok_unlocked _ _ Hok).
      * by rewrite Eq.
      * by rewrite Eq.
      * exists s', blocks. split_and!; try done.
        -- unfold book, after_mapping in Eb. fold s0 in Eb. revert Eb. unfold bind, modify, on_limit, ret.
           simpl. destruct (resource_limit s); [|done]. simpl. by intros [= ->].
        -- assert (region_of name s' = r) as ->; [|done].
           revert Eb. unfold book, bind, modify, on_limit, ret. simpl.
           destruct (resource_limit s); [|done]. simpl. intros [= <-]. apply region_after.
Qed.

(** ** The linear heap *)

Abbreviation linear_base name s := (GetLinearHeapAreaAddress (process s) + region_base (region_of name s)).

Lemma linear_extent name s : process_ok name s ->
  HEAP_VADDR_END <= linear_base name s /\ 0 <= region_size (region_of name s) /\
  linear_base name s + region_size (region_of name s) <= MAX_ADDRESS.
Proof.
  intros Hok. pose proof (linear_area_range s) as (_ & H1 & H2). pose proof (ok_region _ _ Hok) as Hr.
  pose proof (wf_base _ Hr). pose proof (wf_size _ Hr). pose proof (ok_fcram _ _ Hok). lia.
Qed.

Lemma GetLinearHeapBase_run name s : process_ok name s ->
  GetLinearHeapBase s = Done s (linear_base name s).
Proof.
  intros Hok. pose proof (linear_extent _ _ Hok). unfold GetLinearHeapBase.
  erewrite bind_Done by (by apply own_region_run). rewrite bind_get. unfold ret. f_equal.
  fold (region_of name s). apply u32_small. unfold MAX_ADDRESS, HEAP_VADDR_END, HEAP_VADDR, FCRAM_SIZE in *.
  word_lia.
Qed.

Lemma GetLinearHeapLimit_run name s : process_ok name s ->
  GetLinearHeapLimit s = Done s (linear_base name s + region_size (region_of name s)).
Proof.
  intros Hok. pose proof (linear_extent _ _ Hok). unfold GetLinearHeapLimit.
  erewrite bind_Done by (by apply GetLinearHeapBase_run).
  erewrite bind_Done by (by apply own_region_run). rewrite bind_get. unfold ret. f_equal.
  fold (region_of name s). apply u32_small. unfold MAX_ADDRESS, HEAP_VADDR_END, HEAP_VADDR, FCRAM_SIZE in *.
  word_lia.
Qed.

(** Free memory of the region is not mapped in the linear area. *)
Lemma linear_unmapped name s o n a : process_ok name s ->
  (forall x, o <= x < o + n -> covers (free_blocks (region_of name s)) x) -> 0 < n ->
  region_base (region_of name s) <= o -> o + n <= region_base (region_of name s) + region_size (region_of name s) ->
  GetLinearHeapAreaAddress (process s) + o <= a < GetLinearHeapAreaAddress (process s) + o + n ->
  host_of (space s) a = None.
Proof.
  intros Hok Hfree Hn H1 H2 Ha. destruct (host_of (space s) a) as [h|] eqn:E; [exfalso|done].
  pose proof (ok_owns _ _ Hok) as Ho.
  assert (Hl : h - fcram = a - GetLinearHeapAreaAddress (process s)).
  { apply (own_linear _ _ _ _ _ _ _ Ho); [unfold in_linear; lia|done]. }
  apply (own_free _ _ _ _ _ _ _ Ho a h E). apply Hfree. lia.
Qed.

(** The common part of both kinds of linear allocation. *)
Lemma linear_commit_run name s r o n p :
  process_ok name s -> 0 < n -> o mod 4096 = 0 -> n mod 4096 = 0 ->
  region_wf r -> MemoryRegion.is_locked r = false ->
  region_base r = region_base (region_of name s) -> region_size r = region_size (region_of name s) ->
  taken (region_of name s) r o n ->
  let t := GetLinearHeapAreaAddress (process s) + o in
  let s0 := with_regions (set_region name r (regions s)) s in
  exists s', (fill_zero (GetPtr (GetFCRAMRef o)) (GetPtr (GetFCRAMRef o) + n) ;;
     map_with t (GetFCRAMRef o) n Continuous p ;;
     modify (fun s => with_holding (add_intervals (holding_memory (process s)) [mkInterval o (u32 (o + n))])
               (u32 (memory_used (process s) + n)) s) ;;
     on_limit (Reserve Commit n) ;; ret t)%hle s0 = Done s' t /\
    process_ok name s' /\ allocated name s s' t n p Continuous [mkInterval o (o + n)].
Proof.
  intros Hok Hn Hoa Hna Hwf Hlk Eb Es (Hfree & Hnot & _) t s0.
  pose proof (linear_extent _ _ Hok) as (L1 & L2 & L3). pose proof (linear_area_range s) as (L4 & L5 & L6).
  pose proof (ok_fcram _ _ Hok) as Hfc. rewrite FCRAM_N3DS_SIZE_value in Hfc.
  set (b := mkInterval o (o + n)).
  assert (Hbin : forall x, MemoryRegion.inside b x -> covers (free_blocks (region_of name s)) x).
  { intros x Hx. apply Hfree. right. done. }
  assert (Hbo : block_ok (region_base (region_of name s))
                  (region_base (region_of name s) + region_size (region_of name s)) b).
  { destruct (covers_range _ _ _ o (o + n) (wf_free _ (ok_region _ _ Hok))) as (i & Hi & I1 & I2); [lia| |].
    - intros x Hx. by apply Hbin.
    - destruct (canonical_block _ _ _ _ (wf_free _ (ok_region _ _ Hok)) Hi) as (B1 & B2 & B3).
      unfold block_ok, b. simpl. lia. }
  pose proof Hbo as (B1 & B2 & B3). simpl in B1, B2, B3. pose proof (wf_base _ (ok_region _ _ Hok)) as Hb0.
  destruct (fill_block b s0) as (h & Ef & Hz); [simpl; lia|simpl; lia|rewrite FCRAM_N3DS_SIZE_value; simpl; lia|].
  rewrite !GetFCRAMPointer_ptr in Ef by (rewrite FCRAM_N3DS_SIZE_value; simpl; lia). simpl in Ef.
  assert (Eptr : GetPtr (GetFCRAMRef o) = fcram + o)
    by (apply GetFCRAMRef_ptr; rewrite FCRAM_N3DS_SIZE_value; lia).
  destruct (map_block_run (GetLinearHeapAreaAddress (process s)) (region_base (region_of name s))
              (region_size (region_of name s)) (with_host h s0) t b p Continuous
              (covers (free_blocks (region_of name s))) (covers (holding_memory (process s)))) as
    (v & Em & Hgv & Hin & Hrest & Ho); try (simpl; lia).
  { apply (ok_space _ _ Hok). }
  { unfold t. zlia. }
  { unfold t, HEAP_VADDR_END, HEAP_VADDR, FCRAM_SIZE in *. lia. }
  { split; simpl; zlia. }
  { rewrite FCRAM_N3DS_SIZE_value. simpl. lia. }
  { intros a Ha. simpl in Ha. eapply (linear_unmapped name s o n); try done; lia. }
  { apply (ok_owns _ _ Hok). }
  { exact Hbin. }
  replace (upper b - lower b) with n in * by (simpl; lia).
  destruct (book_run name s r v h t n p Continuous [b]) as (s' & Ebk & Hok' & Hal); try done.
  - by apply canonical_single.
  - simpl. lia.
  - intros x. rewrite Hfree, covers_single. done.
  - intros a Ha. rewrite Hin by done. simpl. replace (o + n - o) with n by lia.
    rewrite (proj2 (Z.ltb_lt _ _)) by lia. done.
  - eapply owns_ext; [done|..|exact Ho]; intros x; cbv beta; rewrite ?covers_single; [|done].
    rewrite Hfree. split; [|intros Hx; split; [by left|]; intros Hi; by apply (Hnot x)].
    intros [[?|Hx] Hi]; [done|]. by destruct Hi.
  - exists s'. split_and!; try done. rewrite Eptr, <-Z.add_assoc.
    erewrite bind_Done by exact Ef. simpl lower in Em. erewrite bind_Done by exact Em.
    rewrite (u32_small (o + n)) by word_lia.
    revert Ebk. unfold book, after_mapping, bind, modify, on_limit, ret. simpl.
    destruct (resource_limit s); [|done]. simpl. by intros [= <-].
Qed.

Lemma LinearAllocateAt_extent o n r r' b : LinearAllocateAt o n r = Done r' b ->
  region_base r' = region_base r /\ region_size r' = region_size r /\
  MemoryRegion.is_locked r' = MemoryRegion.is_locked r.
Proof.
  unfold LinearAllocateAt. rewrite bind_get. unfold bind, assert_. destruct (negb _); [|done].
  destruct (negb (Contains _ _)); by intros [= <- _].
Qed.

Lemma LinearAllocate_extent n r r' o : MemoryRegion.LinearAllocate n r = Done r' o ->
  region_base r' = region_base r /\ region_size r' = region_size r /\
  MemoryRegion.is_locked r' = MemoryRegion.is_locked r.
Proof.
  unfold MemoryRegion.LinearAllocate. rewrite bind_get. unfold bind, assert_. destruct (negb _); [|done].
  destruct (find _ _); by intros [= <- _].
Qed.

(** The first block of memory that fits starts at a page. *)
Lemma first_fit_page name s r o n : process_ok name s -> 0 < n ->
  taken (region_of name s) r o n -> (forall q, q < o -> no_room (region_of name s) n q) -> o mod 4096 = 0.
Proof.
  intros Hok Hn (Hfree & _) Hfirst. destruct (Z.eq_dec (o mod 4096) 0) as [|Hne]; [done|exfalso].
  assert (Hin : forall x, o <= x < o + n -> covers (free_blocks (region_of name s)) x).
  { intros x Hx. apply Hfree. by right. }
  apply (Hfirst (o - 1)); [lia|]. intros x Hx. destruct (Z.eq_dec x (o - 1)) as [->|]; [|apply Hin; lia].
  apply (own_free_pages _ _ _ _ _ _ _ (ok_owns _ _ Hok) o); [apply Hin; lia|zlia].
Qed.

Lemma LinearAllocate_commits name s n p :
  process_ok name s -> is_u32 n -> 0 < n -> n mod 4096 = 0 ->
  ((forall q, no_room (region_of name s) n q) /\
   LinearAllocate 0 n p s = Failed s ResultOutOfHeapMemory) \/
  exists s' o, LinearAllocate 0 n p s = Done s' (GetLinearHeapAreaAddress (process s) + o) /\
    process_ok name s' /\
    allocated name s s' (GetLinearHeapAreaAddress (process s) + o) n p Continuous [mkInterval o (o + n)] /\
    (forall q, q < o -> no_room (region_of name s) n q).
Proof.
  intros Hok Hn H1 Hna. assert (Hn' : 0 < n < 4294967296) by (unfold is_u32 in Hn; lia).
  destruct (LinearAllocate_run (region_of name s) n (ok_region _ _ Hok) (ok_unlocked _ _ Hok) Hn')
    as (r & o & E & Hwf & Ho).
  unfold LinearAllocate. erewrite bind_Done by (by apply own_region_run).
  rewrite bind_get. cbv zeta. rewrite Z.eqb_refl.
  destruct o as [o|].
  - right. destruct Ho as [Ht Hfirst]. pose proof (first_fit_page _ _ _ _ _ Hok H1 Ht Hfirst) as Hoa.
    pose proof (LinearAllocate_extent _ _ _ _ E) as Hr. rewrite (ok_unlocked _ _ Hok) in Hr.
    destruct Hr as (Eb & Es & El).
    assert (Hcov : covers (free_blocks (region_of name s)) o) by (apply (proj1 Ht); right; lia).
    destruct Hcov as (i & Hi & Hio). destruct (canonical_block _ _ _ _ (wf_free _ (ok_region _ _ Hok)) Hi) as (B1 & B2 & B3).
    unfold MemoryRegion.inside in Hio. pose proof (ok_fcram _ _ Hok). pose proof (linear_area_range s) as (_ & L1 & L2).
    pose proof (wf_base _ (ok_region _ _ Hok)).
    destruct (linear_commit_run name s r o n p) as (s' & Er & Hok' & Hal); try done.
    exists s', o. split_and!; try done. 
    etransitivity; [apply (bind_Done _ _ _ (with_regions (set_region name r (regions s)) s)
             (o, GetLinearHeapAreaAddress (process s) + o))|exact Er].
    erewrite bind_Done by (apply on_region_Done, E). unfold ret.
    rewrite u32_small; [by rewrite (Z.add_comm o)|].
    unfold is_u32, MAX_ADDRESS, HEAP_VADDR_END, HEAP_VADDR, FCRAM_SIZE in *. lia.
  - left. destruct Ho as [-> Hno]. split; [done|].
    apply bind_Failed. erewrite bind_Done by (apply on_region_same, E). done.
Qed.

Lemma LinearAllocateAt_process_run name s t n p :
  process_ok name s -> is_u32 t -> is_u32 n -> t <> 0 -> 0 < n -> t mod 4096 = 0 -> n mod 4096 = 0 ->
  let o := t - GetLinearHeapAreaAddress (process s) in
  (~ (linear_base name s <= t /\ t + n <= linear_base name s + region_size (region_of name s)) /\
   LinearAllocate t n p s = Failed s ResultInvalidAddress) \/
  (linear_base name s <= t /\ t + n <= linear_base name s + region_size (region_of name s) /\
   ((~ (exists i, i ∈ free_blocks (region_of name s) /\ lower i <= o /\ o + n <= upper i /\
          (lower i < o \/ o + n = upper i)) /\
     LinearAllocate t n p s = Failed s ResultInvalidAddressState) \/
    exists s', LinearAllocate t n p s = Done s' t /\ process_ok name s' /\
      allocated name s s' t n p Continuous [mkInterval o (o + n)])).
Proof.
  intros Hok Htu Hn Ht0 H1 Hta Hna o. pose proof (linear_extent _ _ Hok) as (L1 & L2 & L3).
  pose proof (linear_area_range s) as (L4 & L5 & L6). pose proof (wf_base _ (ok_region _ _ Hok)) as Hb0.
  pose proof (ok_fcram _ _ Hok) as Hfc. rewrite FCRAM_N3DS_SIZE_value in Hfc.
  unfold LinearAllocate. erewrite bind_Done by (by apply own_region_run).
  rewrite bind_get. cbv zeta. rewrite (proj2 (Z.eqb_neq t 0)) by done.
  assert (Eo : u32 (t - GetLinearHeapAreaAddress (process s)) = u32 o) by done.
  assert (Hchk : forall A (k : op System A), (lo <- GetLinearHeapBase ;; hi <- GetLinearHeapLimit ;;
     R_UNLESS (negb (outside lo hi t n)) ResultInvalidAddress ;; k)%hle s =
     if outside (linear_base name s) (linear_base name s + region_size (region_of name s)) t n
     then Failed s ResultInvalidAddress else k s).
  { intros A k. erewrite bind_Done by (by apply GetLinearHeapBase_run).
    erewrite bind_Done by (by apply GetLinearHeapLimit_run).
    destruct (outside _ _ t n); done. }
  destruct (outside (linear_base name s) (linear_base name s + region_size (region_of name s)) t n) eqn:Eout.
  - left. split; [intros Hr; apply outside_false in Hr; unfold MAX_ADDRESS in *; try done; [congruence|lia]|].
    apply bind_Failed. by rewrite Hchk.
  - apply outside_false in Eout as [Hr1 Hr2]; [|done|done|unfold MAX_ADDRESS in *; lia].
    right. split; [done|]. split; [done|].
    assert (Ho : 0 <= o /\ o + n <= 268435456) by (unfold o; lia).
    destruct (LinearAllocateAt_run (region_of name s) o n (ok_region _ _ Hok) (ok_unlocked _ _ Hok))
      as (r & b & E & Hwf & Hb & Hr); [lia|lia|lia|].
    rewrite (u32_small o) in Eo by (unfold is_u32; lia).
    destruct b.
    + right. destruct (linear_commit_run name s r o n p) as (s' & Er & Hok' & Hal); try done.
      * unfold o. zlia.
      * rewrite <-(ok_unlocked _ _ Hok). apply (LinearAllocateAt_extent _ _ _ _ _ E).
      * apply (LinearAllocateAt_extent _ _ _ _ _ E).
      * apply (LinearAllocateAt_extent _ _ _ _ _ E).
      * assert (Et : GetLinearHeapAreaAddress (process s) + o = t) by (unfold o; lia).
        rewrite Et in *. exists s'. split_and!; try done. 
        etransitivity; [apply (bind_Done _ _ _ (with_regions (set_region name r (regions s)) s) (o, t))|exact Er].
        rewrite Hchk.
        erewrite bind_Done by (apply on_region_Done; rewrite Eo; exact E). by rewrite Eo.
    + left. subst r. split; [intros Hx; by apply Hb in Hx|].
      apply bind_Failed. rewrite Hchk.
      erewrite bind_Done by (apply on_region_same; rewrite Eo; exact E). done.
Qed.

(** ** Freeing *)

(** The offsets of [f] on the first [n] positions. *)
Definition image (f : Z -> Z) (n o : Z) : Prop := exists i, 0 <= i < n /\ o = f i.

(** The state when memory was given back. *)
Definition after_free (name : MemoryRegionName) (r : MemoryRegionInfo) (h : IntervalSet) (s : System) : System :=
  with_holding h (memory_used (process s)) (with_regions (set_region name r (regions s)) s).

Lemma sub_interval_total lo hi l b :
  canonical lo hi l -> lower b < upper b -> (forall o, MemoryRegion.inside b o -> covers l o) ->
  total (sub_interval l b) = total l - (upper b - lower b).
Proof.
  intros Hl Hb Hin. destruct (sub_interval_ok lo hi l b Hl Hb) as [Hc Hcov].
  rewrite (total_disjoint lo hi (sub_interval l b) l b); try done; [lia| |].
  - intros p. rewrite Hcov. destruct (decide (lower b <= p < upper b)) as [Hi|Hi];
      unfold MemoryRegion.inside in *; [|tauto]. specialize (Hin p Hi). tauto.
  - intros p Hp [_ Hn]%Hcov. by apply Hn.
Qed.

(** Freeing held memory of the region. *)
Lemma free_block_run name s o n :
  memory_region (process s) = Some name ->
  let r := region_of name s in
  region_wf r -> MemoryRegion.is_locked r = false ->
  canonical (region_base r) (region_base r + region_size r) (holding_memory (process s)) ->
  0 < n -> (forall x, o <= x < o + n -> covers (holding_memory (process s)) x /\ ~ covers (free_blocks r) x) ->
  exists r', region_wf r' /\ MemoryRegion.is_locked r' = false /\
    region_base r' = region_base r /\ region_size r' = region_size r /\
    (forall x, covers (free_blocks r') x <-> covers (free_blocks r) x \/ o <= x < o + n) /\
    on_region name (Free o n) s = Done (with_regions (set_region name r' (regions s)) s) tt /\
    u32 (o + n) = o + n /\ 0 <= o /\
    let h := sub_interval (holding_memory (process s)) (mkInterval o (o + n)) in
    canonical (region_base r) (region_base r + region_size r) h /\
    (forall x, covers h x <-> covers (holding_memory (process s)) x /\ ~ (o <= x < o + n)) /\
    total h = total (holding_memory (process s)) - n.
Proof.
  intros Hname r Hwf Hlk Hc Hn Hall.
  destruct (covers_range _ _ _ o (o + n) Hc) as (i & Hi & I1 & I2); [lia|intros x Hx; by apply Hall|].
  destruct (canonical_block _ _ _ _ Hc Hi) as (B1 & B2 & B3).
  pose proof (wf_base _ Hwf). pose proof (wf_end _ Hwf).
  destruct (Free_run r o n Hwf Hlk) as (r' & E & Hwf' & Hlk' & Eb & Es & _ & Hcov); try lia.
  { intros p Hp. by apply Hall. }
  exists r'. cbv zeta. split_and!; try done.
  - by apply on_region_Done.
  - apply u32_small. unfold is_u32. lia.
  - lia.
  - by apply sub_interval_ok; [|simpl; lia].
  - intros x. destruct (sub_interval_ok _ _ _ (mkInterval o (o + n)) Hc) as [_ Hx]; [simpl; lia|].
    rewrite Hx. done.
  - rewrite (sub_interval_total (region_base r) (region_base r + region_size r)); simpl; try done; try lia.
    intros x Hx. by apply Hall.
Qed.

Lemma free_heap_blocks_run name bs : forall s f,
  memory_region (process s) = Some name ->
  region_wf (region_of name s) -> MemoryRegion.is_locked (region_of name s) = false ->
  region_base (region_of name s) + region_size (region_of name s) <= FCRAM_N3DS_SIZE ->
  canonical (region_base (region_of name s))
    (region_base (region_of name s) + region_size (region_of name s)) (holding_memory (process s)) ->
  Forall (fun b => 0 < b.2) bs ->
  (forall i, 0 <= i < total_size bs -> block_ptr bs i = fcram + f i) ->
  (forall i j, 0 <= i < total_size bs -> 0 <= j < total_size bs -> f i = f j -> i = j) ->
  (forall i, 0 <= i < total_size bs -> covers (holding_memory (process s)) (f i) /\
     ~ covers (free_blocks (region_of name s)) (f i)) ->
  exists r h, free_heap_blocks bs s = Done (after_free name r h s) tt /\
    region_wf r /\ MemoryRegion.is_locked r = false /\
    region_base r = region_base (region_of name s) /\ region_size r = region_size (region_of name s) /\
    (forall o, covers (free_blocks r) o <->
       covers (free_blocks (region_of name s)) o \/ image f (total_size bs) o) /\
    canonical (region_base r) (region_base r + region_size r) h /\
    (forall o, covers h o <-> covers (holding_memory (process s)) o /\ ~ image f (total_size bs) o) /\
    total h = total (holding_memory (process s)) - total_size bs.
Proof.
  induction bs as [|[m n] bs IH]; intros s f Hname Hwf Hlk Hfc Hc Hpos Hptr Hinj Hall.
  - exists (region_of name s), (holding_memory (process s)). split_and!; try done; simpl; try lia.
    + unfold ret, after_free. rewrite with_regions_id. by destruct s as [[] ? ? ?].
    + intros o. split; [auto|]. intros [?|(i & Hi & _)]; [done|lia].
    + intros o. split; [|tauto]. intros Ho. split; [done|]. intros (i & Hi & _). lia.
  - apply Forall_cons in Hpos as [Hn Hpos]. simpl in Hn. simpl total_size in *.
    assert (Hts : 0 <= total_size bs).
    { clear -Hpos. induction Hpos as [|b l Hb Hl IH]; simpl; lia. }
    assert (Hf : forall i, 0 <= i < n -> f i = f 0 + i).
    { intros i Hi. pose proof (Hptr 0 ltac:(lia)) as P0. pose proof (Hptr i ltac:(lia)) as Pi.
      simpl in P0, Pi. rewrite (proj2 (Z.ltb_lt 0 n)) in P0 by lia. rewrite (proj2 (Z.ltb_lt i n)) in Pi by lia. lia. }
    assert (Hm : GetPtr m = fcram + f 0).
    { pose proof (Hptr 0 ltac:(lia)) as P0. simpl in P0.
      rewrite (proj2 (Z.ltb_lt _ _)) in P0 by lia. lia. }
    destruct (free_block_run name s (f 0) n Hname Hwf Hlk Hc Hn) as
      (r1 & Hwf1 & Hlk1 & Eb1 & Es1 & Hfree1 & E1 & Eu & H0 & Hc1 & Hcov1 & Ht1).
    { intros x Hx. replace x with (f (x - f 0)) by (rewrite Hf by lia; lia). apply Hall. lia. }
    set (h1 := sub_interval _ _) in *. set (s1 := after_free name r1 h1 s).
    assert (Er1 : region_of name s1 = r1) by (unfold region_of; simpl; apply get_set_region).
    assert (Hf0 : f 0 < FCRAM_N3DS_SIZE).
    { destruct (proj1 (Hall 0 ltac:(lia))) as (i & Hi & Hio).
      destruct (canonical_block _ _ _ _ Hc Hi) as (B1 & B2 & B3). unfold MemoryRegion.inside in Hio. lia. }
    destruct (IH s1 (fun i => f (n + i))) as
      (r2 & h2 & E2 & Hwf2 & Hlk2 & Eb2 & Es2 & Hfree2 & Hc2 & Hcov2 & Ht2); rewrite ?Er1, ?Eb1, ?Es1; try done.
    { intros i Hi. specialize (Hptr (n + i) ltac:(lia)). simpl in Hptr.
      rewrite (proj2 (Z.ltb_ge _ _)) in Hptr by lia. by replace (n + i - n) with i in Hptr by lia. }
    { intros i j Hi Hj Hij. apply Hinj in Hij; lia. }
    { intros i Hi. simpl. fold h1. rewrite Hcov1, Hfree1. destruct (Hall (n + i) ltac:(lia)) as [A1 A2].
      assert (~ (f 0 <= f (n + i) < f 0 + n)); [|tauto].
      intros Hr. assert (f (f (n + i) - f 0) = f (n + i)) as Heq by (rewrite Hf by lia; lia).
      apply Hinj in Heq; lia. }
    assert (Himg : forall o, image f (n + total_size bs) o <->
              f 0 <= o < f 0 + n \/ image (fun i => f (n + i)) (total_size bs) o).
    { intros o. split.
      - intros (i & Hi & ->). destruct (Z.lt_ge_cases i n); [left; rewrite (Hf i) by lia; lia|].
        right. exists (i - n). split; [lia|]. f_equal. lia.
      - intros [Ho|(i & Hi & ->)]; [exists (o - f 0); split; [lia|]; rewrite Hf by lia; lia|].
        exists (n + i). split; [lia|done]. }
    rewrite Er1 in Eb2, Es2, Hfree2. exists r2, h2. split_and!; try done; try congruence.
    + simpl free_heap_blocks. rewrite Hm, GetFCRAMOffset_ptr, Eu by lia.
      erewrite bind_Done by (unfold own_region; rewrite Hname; reflexivity).
      erewrite bind_Done by exact E1. erewrite bind_Done by reflexivity.
      simpl. fold h1. change (with_holding h1 _ _) with s1. rewrite E2.
      unfold after_free, s1, with_holding, with_regions, after_free. simpl. by destruct name.
    + intros o. rewrite Hfree2, Hfree1, Himg. tauto.
    + intros o. rewrite Hcov2. simpl. fold h1. rewrite Hcov1, Himg. tauto.
    + rewrite Ht2. simpl. fold h1. rewrite Ht1. lia.
Qed.

(** What freeing the range at [t] has done: its memory is free and no longer held,
    and its addresses are free; nothing else has changed. *)
Record released (name : MemoryRegionName) (s s' : System) (t n : Z) : Prop := {
  rl_attr : forall a, attr (space s') a =
    if (t <=? a) && (a <? t + n) then Some free_attributes else attr (space s) a;
  rl_free : forall o, covers (free_blocks (region_of name s')) o <->
    covers (free_blocks (region_of name s)) o \/ backing fcram t n (host_of (space s)) o;
  rl_held : forall o, covers (holding_memory (process s')) o <->
    covers (holding_memory (process s)) o /\ ~ backing fcram t n (host_of (space s)) o;
  rl_extent : region_base (region_of name s') = region_base (region_of name s) /\
    region_size (region_of name s') = region_size (region_of name s);
  rl_backing : forall o, backing fcram t n (host_of (space s)) o -> covers (holding_memory (process s)) o;
  rl_others : forall other, other <> name -> region_of other s' = region_of other s;
  rl_host : host_memory s' = host_memory s;
  rl_ledger : ledger s' = ledger s;
  rl_capabilities : capabilities (process s') = capabilities (process s)
}.

(** The state after a release: address space, region, bookkeeping. *)
Definition after_release (name : MemoryRegionName) (r : MemoryRegionInfo) (h : IntervalSet)
    (v : VMManager) (n : Z) (l : ResourceLimit) (s : System) : System :=
  with_limit (Some (fst (Release Commit n l)))
    (with_holding h (u32 (memory_used (process s) - n))
       (with_vm v (with_regions (set_region name r (regions s)) s))).

Lemma release_run name s r h v t n l :
  process_ok name s -> resource_limit s = Some l -> t mod 4096 = 0 -> n mod 4096 = 0 ->
  (forall a, t <= a < t + n -> in_heap a \/ in_linear (GetLinearHeapAreaAddress (process s))
     (region_base (region_of name s)) (region_size (region_of name s)) a) ->
  region_wf r -> MemoryRegion.is_locked r = false ->
  region_base r = region_base (region_of name s) -> region_size r = region_size (region_of name s) ->
  canonical (region_base r) (region_base r + region_size r) h ->
  (forall o, covers (free_blocks r) o <->
     covers (free_blocks (region_of name s)) o \/ backing fcram t n (host_of (space s)) o) ->
  (forall o, covers h o <->
     covers (holding_memory (process s)) o /\ ~ backing fcram t n (host_of (space s)) o) ->
  total h = total (holding_memory (process s)) - n ->
  good v ->
  (forall a, attr (vma_map v) a =
     if (t <=? a) && (a <? t + n) then Some free_attributes else attr (space s) a) ->
  process_ok name (after_release name r h v n l s) /\
  released name s (after_release name r h v n l s) t n.
Proof.
  intros Hok El Ht Hn Hr Hwf Hlk Eb Es Hc Hfree Hheld Htot Hg Ha.
  destruct (ok_limit _ _ Hok) as (l' & El' & Hl). rewrite El in El'. injection El' as <-.
  set (s' := after_release name r h v n l s).
  assert (Er : region_of name s' = r) by (unfold region_of; simpl; apply get_set_region).
  split.
  - split; rewrite ?Er; try done.
    + apply (ok_name _ _ Hok).
    + rewrite Eb. apply (ok_base _ _ Hok).
    + rewrite Es. apply (ok_size _ _ Hok).
    + rewrite Eb, Es. apply (ok_fcram _ _ Hok).
    + exists (fst (Release Commit n l)). split; [done|]. by apply SetCurrentValue_wf.
    + unfold own_now. rewrite Er, Eb, Es.
      eapply owns_ext; [..|apply (owns_unmap _ _ _ _ _ _ _ t n (ok_owns _ _ Hok) Ht Hn Hr)].
      * intros a. unfold unmap_range, host_of. simpl. unfold space. simpl. rewrite Ha.
        by destruct ((t <=? a) && (a <? t + n)).
      * intros o. by rewrite Hfree.
      * intros o. simpl. by rewrite Hheld.
  - split; rewrite ?Er; try done.
    { intros o (a & Har & E). pose proof (own_mapped _ _ _ _ _ _ _ (ok_owns _ _ Hok) a _ (Hr a Har) E) as Hh.
      by replace (fcram + o - fcram) with o in Hh by lia. }
    { intros other Hne. by apply other_set_region. }
    unfold ledger. simpl. rewrite El, GetCurrentValue_Set by done.
    rewrite bool_decide_eq_true_2 by done. rewrite Htot. f_equal; word_lia.
Qed.

Lemma HeapFree_outside t n s : is_u32 t -> is_u32 n ->
  ~ (HEAP_VADDR <= t /\ t + n <= HEAP_VADDR_END) -> HeapFree t n s = Failed s ResultInvalidAddress.
Proof.
  intros Ht Hn Hr. unfold HeapFree.
  destruct (outside HEAP_VADDR HEAP_VADDR_END t n) eqn:E; [done|]. apply outside_false in E; done.
Qed.

Lemma mapped_host v a : good v -> 0 <= a < MAX_ADDRESS ->
  is_free (attr (vma_map v) a) = false <-> host_of (vma_map v) a = Some (ptr_of (attr (vma_map v) a)).
Proof.
  intros Hg Ha. destruct (attr_inside _ _ _ a (good_space v Hg) Ha) as [x E].
  unfold host_of. rewrite E. destruct x as [[[[|] p] st] h]; simpl; done.
Qed.

Lemma HeapFree_run name s t n :
  process_ok name s -> is_u32 t -> is_u32 n -> 0 < n -> t mod 4096 = 0 -> n mod 4096 = 0 ->
  HEAP_VADDR <= t -> t + n <= HEAP_VADDR_END ->
  ((exists a, t <= a < t + n /\ host_of (space s) a = None) /\
   HeapFree t n s = Failed s ResultInvalidAddressState) \/
  ((forall a, t <= a < t + n -> host_of (space s) a <> None) /\
   exists s', HeapFree t n s = Done s' tt /\ process_ok name s' /\ released name s s' t n).
Proof.
  intros Hok Htu Hnu Hn Hta Hna H1 H2. pose proof (ok_space _ _ Hok) as Hg.
  assert (Hend : 0 <= t /\ t + n <= MAX_ADDRESS).
  { unfold MAX_ADDRESS, HEAP_VADDR_END, HEAP_VADDR, FCRAM_SIZE in *. lia. }
  destruct Hend as [H0 Hmax].
  unfold HeapFree. rewrite (proj2 (outside_false HEAP_VADDR HEAP_VADDR_END t n Htu Hnu eq_refl)) by done.
  rewrite (proj2 (Z.eqb_neq n 0)) by lia. erewrite bind_Done by reflexivity.
  destruct (GetBackingBlocksForRange_blocks mems pt_lookup (vm_manager (process s)) t n (proj1 Hg) H0 Hn Hmax)
    as [[(a & Ha & Hf) E]|(Hnf & bs & E & Hts & Hpos & Hptr)].
  { left. split; [exists a; split; [done|by apply free_host; [|lia|]]|].
    apply bind_Failed. by apply on_vm_refused. }
  right. assert (Hhost : forall a, t <= a < t + n -> host_of (space s) a = Some (ptr_of (attr (space s) a))).
  { intros a Ha. apply mapped_host; [done|lia|by apply Hnf]. }
  split; [intros a Ha; by rewrite Hhost|].
  pose proof (ok_owns _ _ Hok) as Ho.
  set (f := fun i => ptr_of (attr (space s) (t + i)) - fcram).
  assert (Hheld : forall i, 0 <= i < n -> covers (holding_memory (process s)) (f i)).
  { intros i Hi. apply (own_mapped _ _ _ _ _ _ _ Ho (t + i)); [left; unfold in_heap; lia|]. apply Hhost. lia. }
  destruct (free_heap_blocks_run name bs s f (ok_name _ _ Hok) (ok_region _ _ Hok) (ok_unlocked _ _ Hok)
              (ok_fcram _ _ Hok) (ok_holding _ _ Hok) Hpos) as
    (r & h & Ef & Hwf & Hlk & Eb & Es & Hfree & Hc & Hh & Htot); rewrite ?Hts.
  { intros i Hi. rewrite Hptr by done. unfold f.
    rewrite (wf_pt _ _ _ (proj1 Hg)) by lia. unfold space. lia. }
  { intros i j Hi Hj Hij. unfold f in Hij.
    assert (t + i = t + j); [|lia]. apply (own_inj _ _ _ _ _ _ _ Ho _ _ (ptr_of (attr (space s) (t + i)))).
    - apply Hhost. lia.
    - rewrite Hhost by lia. f_equal. lia.
    - by apply Hheld. }
  { intros i Hi. split; [by apply Hheld|]. intros Hfr.
    by apply (owns_disjoint _ _ _ _ _ _ _ (f i) Ho (Hheld i Hi)). }
  rewrite Hts in *.
  destruct (vm_unmap (vm_manager (process s)) t n Hg Hta Hna H0 Hn Hmax) as
    [[(a & Ha & Hf) _]|(_ & v & Eu & Hgv & Hav)]; [by rewrite (Hnf a Ha) in Hf|].
  destruct (ok_limit _ _ Hok) as (l & El & _).
  assert (Hback : forall o, backing fcram t n (host_of (space s)) o <-> image f n o).
  { intros o. split.
    - intros (a & Ha & Ea). exists (a - t). split; [lia|]. unfold f.
      replace (t + (a - t)) with a by lia. rewrite Hhost in Ea by done. injection Ea. lia.
    - intros (i & Hi & ->). exists (t + i). split; [lia|]. rewrite Hhost by lia. unfold f. f_equal. lia. }
  destruct (release_run name s r h v t n l) as [Hok' Hrel]; try done.
  - intros a Ha. left. unfold in_heap. lia.
  - intros o. by rewrite Hback.
  - intros o. by rewrite Hback.
  - eexists. split; [|split; [exact Hok'|exact Hrel]].
    erewrite bind_Done by (apply on_vm_Done, E). rewrite with_vm_id.
    erewrite bind_Done by exact Ef.
    erewrite bind_Done by (unfold must; erewrite on_vm_Done by exact Eu; reflexivity).
    erewrite bind_Done by reflexivity.
    erewrite bind_Done by (unfold on_limit; simpl; rewrite El; reflexivity). done.
Qed.

Lemma LinearFree_run name s t n :
  process_ok name s -> is_u32 t -> is_u32 n -> 0 < n -> t mod 4096 = 0 -> n mod 4096 = 0 ->
  linear_base name s <= t -> t + n <= linear_base name s + region_size (region_of name s) ->
  ((exists a, t <= a < t + n /\ host_of (space s) a = None) /\
   LinearFree t n s = Failed s ResultInvalidAddressState) \/
  ((forall a, t <= a < t + n -> host_of (space s) a <> None) /\
   exists s', LinearFree t n s = Done s' tt /\ process_ok name s' /\ released name s s' t n).
Proof.
  intros Hok Htu Hnu Hn Hta Hna H1 H2. pose proof (ok_space _ _ Hok) as Hg.
  pose proof (linear_extent _ _ Hok) as (L1 & L2 & L3). pose proof (linear_area_range s) as (L4 & L5 & L6).
  pose proof (wf_base _ (ok_region _ _ Hok)) as Hb0. pose proof (ok_owns _ _ Hok) as Ho.
  pose proof Htu as [H0 _].
  unfold LinearFree. erewrite bind_Done by (by apply GetLinearHeapBase_run).
  erewrite bind_Done by (by apply GetLinearHeapLimit_run).
  rewrite (proj2 (outside_false (linear_base name s) (linear_base name s + region_size (region_of name s)) t n Htu Hnu ltac:(unfold MAX_ADDRESS in *; lia))) by done.
  rewrite (proj2 (Z.eqb_neq n 0)) by lia. erewrite bind_Done by reflexivity.
  destruct (vm_unmap (vm_manager (process s)) t n Hg Hta Hna) as
    [[(a & Ha & Hf) E]|(Hnf & v & Eu & Hgv & Hav)]; try lia.
  { left. split; [exists a; split; [done|by apply free_host; [|lia|]]|].
    apply bind_Failed. by apply on_vm_refused. }
  right. assert (Hhost : forall a, t <= a < t + n -> host_of (space s) a = Some (ptr_of (attr (space s) a))).
  { intros a Ha. apply mapped_host; [done|lia|by apply Hnf]. }
  split; [intros a Ha; by rewrite Hhost|].
  set (o := t - GetLinearHeapAreaAddress (process s)).
  assert (Hlin : forall a, t <= a < t + n -> host_of (space s) a = Some (fcram + (o + (a - t)))).
  { intros a Ha. rewrite Hhost by done. f_equal.
    assert (Hl : ptr_of (attr (space s) a) - fcram = a - GetLinearHeapAreaAddress (process s)); [|unfold o; lia].
    apply (own_linear _ _ _ _ _ _ _ Ho a); [unfold in_linear; lia|by apply Hhost]. }
  assert (Hback : forall x, backing fcram t n (host_of (space s)) x <-> o <= x < o + n).
  { intros x. split.
    - intros (a & Ha & Ea). rewrite Hlin in Ea by done. injection Ea. lia.
    - intros Hx. exists (t + (x - o)). split; [lia|]. rewrite Hlin by lia. f_equal. lia. }
  destruct (free_block_run name (with_vm v s) o n (ok_name _ _ Hok) (ok_region _ _ Hok) (ok_unlocked _ _ Hok)
              (ok_holding _ _ Hok) Hn) as
    (r & Hwf & Hlk & Eb & Es & Hfree & Ef & Eo & Ho0 & Hc & Hh & Htot).
  { intros x Hx. assert (Hhx : covers (holding_memory (process s)) x).
    { replace x with (fcram + (o + (t + (x - o) - t)) - fcram) by lia.
      apply (own_mapped _ _ _ _ _ _ _ Ho (t + (x - o))); [right; unfold in_linear; lia|]. apply Hlin. lia. }
    split; [done|]. intros Hfx. by apply (owns_disjoint _ _ _ _ _ _ _ x Ho Hhx). }
  destruct (ok_limit _ _ Hok) as (l & El & _).
  destruct (release_run name s r (sub_interval (holding_memory (process s)) (mkInterval o (o + n))) v t n l)
    as [Hok' Hrel]; try done.
  - intros a Ha. right. unfold in_linear. lia.
  - by rewrite Eb, Es.
  - intros x. by rewrite Hback.
  - intros x. by rewrite Hback.
  - eexists. split; [|split; [exact Hok'|exact Hrel]].
    assert (Eu' : u32 o = o).
    { apply u32_small. unfold is_u32, o, MAX_ADDRESS, HEAP_VADDR_END, HEAP_VADDR, FCRAM_SIZE in *. lia. }
    erewrite bind_Done by (apply on_vm_Done, Eu). rewrite bind_get.
    change (GetLinearHeapAreaAddress (process (with_vm v s))) with (GetLinearHeapAreaAddress (process s)).
    cbv zeta. fold o. rewrite Eu', Eo.
    erewrite bind_Done by (unfold own_region; simpl; rewrite (ok_name _ _ Hok); reflexivity).
    erewrite bind_Done by exact Ef. erewrite bind_Done by reflexivity.
    erewrite bind_Done by (unfold on_limit; simpl; rewrite El; reflexivity). done.
Qed.
End Process.
