(* ===== verification/ProcessRequests.v ===== *)
(** * ProcessRequests: every memory request keeps a process in order

    [ControlMemory] on every request but MAP and UNMAP; what a request leaves
    behind ([kept]); an allocation that is freed again. *)
From S2P Require Import Prelude Result StdSet MemoryRegion VMManager ResourceLimit Process ProcessSpecs.
From S2P Require Import ProcessMemory.

Local Open Scope Z_scope.

Section Process.
Context {MS : MemorySystem} {ML : MemorySystemLaws MS}.

Abbreviation good := (vm_good mems pt_lookup).
Abbreviation linear_base name s := (GetLinearHeapAreaAddress (process s) + region_base (region_of name s)).

(** ** svcControlMemory *)

(** The mapped range is backed by exactly the blocks. *)
Lemma backing_blocks t n blocks m o lo hi :
  canonical lo hi blocks -> total blocks = n ->
  (forall a, t <= a < t + n -> m a = Some (fcram + offset_at blocks (a - t))) ->
  backing fcram t n m o <-> covers blocks o.
Proof.
  intros Hc <-. revert t m. induction blocks as [|b rest IH]; intros t m Hm.
  - split; [intros (a & Ha & _); simpl in Ha; lia|intros ?%covers_nil; done].
  - apply canonical_cons in Hc as (Hb & Hbef & Hc). destruct Hb as (B1 & B2 & B3).
    pose proof (total_nonneg _ _ _ Hc). simpl total in *. rewrite covers_cons.
    set (k := upper b - lower b) in *.
    assert (Hrest : backing fcram (t + k) (total rest) m o <-> covers rest o).
    { apply IH; [done|]. intros a Ha. rewrite Hm by lia. simpl. fold k.
      rewrite (proj2 (Z.ltb_ge _ _)) by lia. do 2 f_equal. f_equal. lia. }
    rewrite <-Hrest. unfold MemoryRegion.inside. split.
    + intros (a & Ha & E). destruct (Z.lt_ge_cases a (t + k)).
      * left. rewrite Hm in E by lia. simpl in E. fold k in E.
        rewrite (proj2 (Z.ltb_lt _ _)) in E by lia. injection E. lia.
      * right. exists a. split; [lia|done].
    + intros [Ho|(a & Ha & E)]; [|exists a; split; [lia|done]].
      exists (t + (o - lower b)). split; [lia|]. rewrite Hm by lia. simpl. fold k.
      rewrite (proj2 (Z.ltb_lt _ _)) by lia. f_equal. lia.
Qed.

(** What a request leaves behind: the process is in order, with the same ledger;
    its region has the same extent, memory has at most passed between the free set
    of the region and the process, an address is mapped as before or to memory
    that was free, and the other regions are as they were. *)
Record kept (name : MemoryRegionName) (s s' : System) : Prop := {
  kept_ok : process_ok name s';
  kept_ledger : ledger s' = ledger s;
  kept_extent : region_base (region_of name s') = region_base (region_of name s) /\
    region_size (region_of name s') = region_size (region_of name s);
  kept_memory : forall o,
    covers (free_blocks (region_of name s')) o \/ covers (holding_memory (process s')) o <->
    covers (free_blocks (region_of name s)) o \/ covers (holding_memory (process s)) o;
  kept_mapped : forall a p, host_of (space s') a = Some p ->
    host_of (space s) a = Some p \/ covers (free_blocks (region_of name s)) (p - fcram);
  kept_others : forall other, other <> name -> region_of other s' = region_of other s
}.

Lemma kept_refl name s : process_ok name s -> kept name s s.
Proof. intros Hok. split; try done. auto. Qed.

Lemma allocated_kept name s s' t n p st blocks :
  process_ok name s' -> allocated name s s' t n p st blocks -> kept name s s'.
Proof.
  intros Hok Hal. split; [done|apply Hal|apply Hal|..|apply Hal].
  - intros o. rewrite (al_held _ _ _ _ _ _ _ _ Hal), (al_free _ _ _ _ _ _ _ _ Hal). tauto.
  - intros a q E. destruct (decide (t <= a < t + n)) as [Ha|Ha].
    + right. apply (al_free _ _ _ _ _ _ _ _ Hal). right.
      apply (backing_blocks t n blocks (host_of (space s')) _ _ _
               (al_blocks _ _ _ _ _ _ _ _ Hal) (al_total _ _ _ _ _ _ _ _ Hal)).
      * intros b Hb. unfold host_of. by rewrite (al_range _ _ _ _ _ _ _ _ Hal) by done.
      * exists a. split; [done|]. rewrite E. f_equal. lia.
    + left. rewrite <-E. by eapply reperm_host, (al_rest _ _ _ _ _ _ _ _ Hal).
Qed.

Lemma covers_dec l o : covers l o \/ ~ covers l o.
Proof.
  destruct (decide (Exists (fun i => MemoryRegion.inside i o) l)) as [H|H];
    rewrite Exists_exists in H; [by left|by right].
Qed.

Lemma released_kept name s s' t n :
  process_ok name s' -> released name s s' t n -> kept name s s'.
Proof.
  intros Hok Hrel. split; [done|apply Hrel|apply Hrel|..|apply Hrel].
  - intros o. rewrite (rl_held _ _ _ _ _ Hrel), (rl_free _ _ _ _ _ Hrel).
    pose proof (rl_backing _ _ _ _ _ Hrel o) as Hb. pose proof (rl_free _ _ _ _ _ Hrel o) as Hf.
    destruct (covers_dec (free_blocks (region_of name s')) o); tauto.
  - intros a p. unfold host_of at 1. rewrite (rl_attr _ _ _ _ _ Hrel).
    destruct ((t <=? a) && (a <? t + n)); [done|by left].
Qed.

(** An operation that either refuses, with no effect, or keeps the process in order. *)
Definition safe {A} (name : MemoryRegionName) (s : System) (o : outcome System A) : Prop :=
  match o with
  | Done s' _ => kept name s s'
  | Failed s' _ => s' = s
  | Aborted => False
  end.

Lemma safe_then {A B} name s (m : op System A) (b : A -> B) :
  safe name s (m s) -> safe name s ((x <- m ;; ret (b x))%hle s).
Proof. unfold bind. by destruct (m s). Qed.

Lemma heap_range t n : is_u32 t -> is_u32 n -> HEAP_VADDR <= t -> t + n <= HEAP_VADDR_END ->
  0 <= t /\ t + n <= MAX_ADDRESS.
Proof. unfold is_u32, MAX_ADDRESS, HEAP_VADDR_END, HEAP_VADDR, FCRAM_SIZE. lia. Qed.

Lemma HeapAllocate_safe name s t n p :
  process_ok name s -> is_u32 t -> is_u32 n -> 0 < n -> t mod 4096 = 0 -> n mod 4096 = 0 ->
  safe name s (HeapAllocate t n p Private false s).
Proof.
  intros Hok Ht Hn H1 Hta Hna.
  destruct (decide (HEAP_VADDR <= t /\ t + n <= HEAP_VADDR_END)) as [[Hlo Hhi]|Hr].
  2: { by rewrite HeapAllocate_outside. }
  destruct (heap_range t n Ht Hn Hlo Hhi) as [H0 Hmax].
  destruct (HeapAllocate_commits name s t n p Private false Hok Hn H0 H1 Hta Hna Hmax) as
    [[_ ->]|(_ & [[_ ->]|(_ & s' & bl & -> & Hok' & Hal & _)])]; try done.
  - intros a Ha. apply heap_not_linear; [done|unfold in_heap; lia].
  - by right.
  - by eapply allocated_kept.
Qed.

Lemma HeapFree_safe name s t n :
  process_ok name s -> is_u32 t -> is_u32 n -> t mod 4096 = 0 -> n mod 4096 = 0 ->
  safe name s (HeapFree t n s).
Proof.
  intros Hok Ht Hn Hta Hna.
  destruct (decide (HEAP_VADDR <= t /\ t + n <= HEAP_VADDR_END)) as [[Hlo Hhi]|Hr].
  2: { by rewrite HeapFree_outside. }
  destruct (Z.eq_dec n 0) as [->|Hne].
  { unfold HeapFree. rewrite (proj2 (outside_false HEAP_VADDR HEAP_VADDR_END t 0 Ht Hn eq_refl)) by done.
    by apply kept_refl. }
  destruct (HeapFree_run name s t n Hok Ht Hn) as [[_ ->]|(_ & s' & -> & Hok' & Hrel)]; try done.
  - unfold is_u32 in Hn. lia.
  - by eapply released_kept.
Qed.

Lemma LinearAllocate_safe name s t n p :
  process_ok name s -> is_u32 t -> is_u32 n -> 0 < n -> t mod 4096 = 0 -> n mod 4096 = 0 ->
  safe name s (LinearAllocate t n p s).
Proof.
  intros Hok Ht Hn H1 Hta Hna. destruct (Z.eq_dec t 0) as [->|Hne].
  - destruct (LinearAllocate_commits name s n p Hok Hn H1 Hna) as [[_ ->]|(s' & o & -> & Hok' & Hal & _)]; [done|].
    by eapply allocated_kept.
  - destruct (LinearAllocateAt_process_run name s t n p Hok Ht Hn Hne H1 Hta Hna) as
      [[_ ->]|(_ & _ & [[_ ->]|(s' & -> & Hok' & Hal)])]; try done.
    by eapply allocated_kept.
Qed.

Lemma LinearFree_safe name s t n :
  process_ok name s -> is_u32 t -> is_u32 n -> t mod 4096 = 0 -> n mod 4096 = 0 ->
  safe name s (LinearFree t n s).
Proof.
  intros Hok Ht Hn Hta Hna. pose proof (linear_extent _ _ Hok) as (L1 & L2 & L3).
  assert (Hchk : outside (linear_base name s) (linear_base name s + region_size (region_of name s)) t n = false <->
    linear_base name s <= t /\ t + n <= linear_base name s + region_size (region_of name s)).
  { apply outside_false; [done|done|]. unfold MAX_ADDRESS in *. lia. }
  assert (Hrun : outside (linear_base name s) (linear_base name s + region_size (region_of name s)) t n = true \/ n = 0 ->
    LinearFree t n s = Done s tt \/ LinearFree t n s = Failed s ResultInvalidAddress).
  { intros Hor. unfold LinearFree. erewrite bind_Done by (by apply GetLinearHeapBase_run).
    erewrite bind_Done by (by apply GetLinearHeapLimit_run).
    destruct Hor as [->| ->]; [by right|]. destruct (outside _ _ t 0); [by right|by left]. }
  destruct (outside _ _ t n) eqn:E; [|destruct (Z.eq_dec n 0) as [->|Hne]].
  - destruct Hrun as [->| ->]; [by left|by apply kept_refl|done].
  - destruct Hrun as [->| ->]; [by right|by apply kept_refl|done].
  - destruct (proj1 Hchk eq_refl) as [Hlo Hhi].
    destruct (LinearFree_run name s t n Hok Ht Hn) as [[_ ->]|(_ & s' & -> & Hok' & Hrel)]; try done.
    + unfold is_u32 in Hn. lia.
    + by eapply released_kept.
Qed.

(** Changing permissions does not touch the ownership. *)
Lemma protect_safe name s t n p :
  process_ok name s -> 0 <= t -> 0 < n -> t + n <= MAX_ADDRESS -> t mod 4096 = 0 -> n mod 4096 = 0 ->
  safe name s (on_vm (ReprotectRange MapMemoryRegion UnmapRegion CITRA_PAGE_MASK t n p) s).
Proof.
  intros Hok H0 H1 H2 Ht Hn. destruct (vm_protect (vm_manager (process s)) t n p (ok_space _ _ Hok) Ht Hn H0 H1 H2)
    as [[_ E]|(_ & v & E & Hg & Ha)].
  - by rewrite (on_vm_refused _ _ _ E).
  - rewrite (on_vm_Done _ _ _ _ E).
    assert (Hhost : forall a, host_of (vma_map v) a = host_of (space s) a).
    { intros a. unfold host_of, space. rewrite Ha.
      destruct ((t <=? a) && (a <? t + n)); [|done].
      by destruct (attr _ a) as [[[[[|] ?] ?] ?]|]. }
    split; try done.
    + pose proof (ok_owns _ _ Hok) as Ho. destruct Hok. split; try done.
      eapply owns_ext; [|done|done|exact Ho]. intros a. symmetry. apply Hhost.
    + intros a q Ea. left. rewrite <-Hhost. exact Ea.
Qed.

(** The requests that are considered: FREE, COMMIT and PROTECT (and codes that
    name no operation).  The two exclusions are ranges that the code asserts about. *)
Definition request_code (operation : Z) : Z :=
  Z.land (Z.ldiff operation MEMOP_REGION_MASK) MEMOP_OPERATION_MASK.

Definition plain_request (addr0 size operation : Z) : Prop :=
  is_u32 addr0 /\ is_u32 size /\
  request_code operation <> MEMOP_MAP /\ request_code operation <> MEMOP_UNMAP /\
  (request_code operation = MEMOP_COMMIT -> size <> 0) /\
  (request_code operation = MEMOP_PROTECT -> size <> 0 /\ addr0 + size <= MAX_ADDRESS).

Lemma ControlMemory_request name s addr0 addr1 size operation permissions :
  process_ok name s -> plain_request addr0 size operation ->
  safe name s (ControlMemory addr0 addr1 size operation permissions s).
Proof.
  intros Hok (Ha & Hs & Hm & Hu & Hc & Hp). pose proof Ha as [Ha0 _]. pose proof Hs as [Hs0 _].
  unfold ControlMemory. fold (request_code operation). rewrite page_mask_value.
  destruct (Z.eqb_spec (Z.land addr0 4095) 0) as [Hta%mask_aligned|]; [|done].
  destruct (Z.eqb_spec (Z.land addr1 4095) 0) as [_|]; [|done].
  destruct (Z.eqb_spec (Z.land size 4095) 0) as [Hna%mask_aligned|]; [|done].
  destruct (Z.land permissions 3 =? permissions); [|done].
  do 4 (erewrite bind_Done by reflexivity). cbv zeta. fold (request_code operation).
  destruct (Z.eqb_spec (request_code operation) MEMOP_FREE).
  { apply (safe_then name s _ (fun _ => Some addr0)).
    destruct ((HEAP_VADDR <=? addr0) && (addr0 <? HEAP_VADDR_END)); [by apply HeapFree_safe|].
    erewrite bind_Done by (by apply GetLinearHeapBase_run).
    erewrite bind_Done by (by apply GetLinearHeapLimit_run).
    destruct ((linear_base name s <=? addr0) && _); [by apply LinearFree_safe|done]. }
  destruct (Z.eqb_spec (request_code operation) MEMOP_COMMIT) as [Ec|].
  { specialize (Hc Ec). apply (safe_then name s _ Some).
    destruct (negb (Z.land _ MEMOP_LINEAR =? 0)); [apply LinearAllocate_safe|apply HeapAllocate_safe];
      try done; lia. }
  destruct (Z.eqb_spec (request_code operation) MEMOP_MAP); [done|].
  destruct (Z.eqb_spec (request_code operation) MEMOP_UNMAP); [done|].
  destruct (Z.eqb_spec (request_code operation) MEMOP_PROTECT) as [Ep|]; [|done].
  destruct (Hp Ep) as [Hne Hmax].
  apply (safe_then name s _ (fun _ => None)). rewrite <-page_mask_value. apply protect_safe; try done. lia.
Qed.

(** ** Giving an allocation back *)

Lemma region_ext r r' : region_wf r -> region_wf r' -> region_base r = region_base r' ->
  region_size r = region_size r' -> MemoryRegion.is_locked r = MemoryRegion.is_locked r' ->
  (forall o, covers (free_blocks r) o <-> covers (free_blocks r') o) -> r = r'.
Proof.
  intros H1 H2 Eb Es El Hc.
  assert (Ef : free_blocks r = free_blocks r').
  { apply (canonical_unique (region_base r) (region_base r + region_size r)); [apply (wf_free _ H1)| |done].
    rewrite Eb, Es. apply (wf_free _ H2). }
  pose proof (wf_used _ H1). pose proof (wf_used _ H2).
  destruct r, r'. simpl in *. subst. f_equal. lia.
Qed.

Lemma allocated_released name s s1 s2 t n p st blocks :
  process_ok name s -> process_ok name s2 -> 0 <= t -> t + n <= MAX_ADDRESS ->
  (forall a, t <= a < t + n -> host_of (space s) a = None) ->
  allocated name s s1 t n p st blocks -> released name s1 s2 t n ->
  region_of name s2 = region_of name s /\ holding_memory (process s2) = holding_memory (process s) /\
  (forall a, host_of (space s2) a = host_of (space s) a).
Proof.
  intros Hok Hok2 H0 Hmax Hnone Hal Hrel.
  pose proof (al_extent _ _ _ _ _ _ _ _ Hal) as [Eb1 Es1]. pose proof (rl_extent _ _ _ _ _ Hrel) as [Eb2 Es2].
  rewrite Eb1 in Eb2. rewrite Es1 in Es2.
  assert (Hback : forall o, backing fcram t n (host_of (space s1)) o <-> covers blocks o).
  { intros o. apply (backing_blocks _ _ _ _ _ _ _ (al_blocks _ _ _ _ _ _ _ _ Hal) (al_total _ _ _ _ _ _ _ _ Hal)).
    intros a Ha. unfold host_of. by rewrite (al_range _ _ _ _ _ _ _ _ Hal) by done. }
  assert (Hdis : forall o, covers (holding_memory (process s)) o -> covers blocks o -> False).
  { intros o Hh Hb. apply (owns_disjoint _ _ _ _ _ _ _ o (ok_owns _ _ Hok) Hh).
    apply (al_free _ _ _ _ _ _ _ _ Hal). auto. }
  split_and!.
  - apply region_ext; rewrite ?Eb2, ?Es2; try done; try apply (ok_region _ _ Hok2); try apply (ok_region _ _ Hok).
    + rewrite (ok_unlocked _ _ Hok2). symmetry. apply (ok_unlocked _ _ Hok).
    + intros o. rewrite (rl_free _ _ _ _ _ Hrel), Hback. symmetry. apply (al_free _ _ _ _ _ _ _ _ Hal).
  - pose proof (ok_holding _ _ Hok2) as Hc2. rewrite Eb2, Es2 in Hc2.
    apply (canonical_unique _ _ _ _ Hc2 (ok_holding _ _ Hok)). intros o.
    rewrite (rl_held _ _ _ _ _ Hrel), Hback, (al_held _ _ _ _ _ _ _ _ Hal). specialize (Hdis o). tauto.
  - intros a. unfold host_of at 1. rewrite (rl_attr _ _ _ _ _ Hrel).
    destruct (Z.leb_spec t a), (Z.ltb_spec a (t + n)); simpl; try (symmetry; apply Hnone; lia);
      symmetry; eapply (reperm_host p st), (al_rest _ _ _ _ _ _ _ _ Hal); lia.
Qed.

(** ** Properties *)

(** C1: Every FREE, COMMIT and PROTECT request of [svcControlMemory], whatever its
    arguments (an empty COMMIT and a PROTECT outside the address space apart),
    runs without failing any assertion of the address space, the allocator and the
    process.  A refused request changes nothing at all; after a granted one the
    process is in order again: no address is mapped to free memory, each held offset
    is mapped at exactly one address, and the memory counters agree. *)
Theorem ControlMemory_safe name s addr0 addr1 size operation permissions :
  process_ok name s -> plain_request addr0 size operation ->
  (exists rc, ControlMemory addr0 addr1 size operation permissions s = Failed s rc) \/
  (exists s' out, ControlMemory addr0 addr1 size operation permissions s = Done s' out /\
     process_ok name s' /\ ledger s' = ledger s).
Proof.
  intros Hok Hr. pose proof (ControlMemory_request name s addr0 addr1 size operation permissions Hok Hr) as Hs.
  destruct (ControlMemory _ _ _ _ _ s) as [s' out|s' rc|]; simpl in Hs; [right|left|done].
  - eexists _, _. split; [done|]. split; apply Hs.
  - subst. eauto.
Qed.

(** [HeapAllocate] in the heap on every branch: a range that is not in the heap,
    a range with a mapped address, and a size above the free memory of the region
    are refused, in this order and without effect; otherwise the highest free
    memory is taken, zeroed and mapped in order with the permissions asked for, and
    beyond the range only the permissions of an area may change that continues the
    new one in state [st], read-write, and in host memory. *)
Theorem HeapAllocate_outcome name s t n p st :
  process_ok name s -> is_u32 t -> is_u32 n -> 0 < n -> t mod 4096 = 0 -> n mod 4096 = 0 ->
  let in_range := HEAP_VADDR <= t /\ t + n <= HEAP_VADDR_END in
  let unmapped := forall a, t <= a < t + n -> host_of (space s) a = None in
  (~ in_range /\ HeapAllocate t n p st false s = Failed s ResultInvalidAddress) \/
  (in_range /\ ~ unmapped /\ HeapAllocate t n p st false s = Failed s ResultInvalidAddressState) \/
  (in_range /\ unmapped /\ total (free_blocks (region_of name s)) < n /\
     HeapAllocate t n p st false s = Failed s ResultOutOfHeapMemory) \/
  (in_range /\ unmapped /\ n <= total (free_blocks (region_of name s)) /\ exists s' blocks,
     HeapAllocate t n p st false s = Done s' t /\ allocated name s s' t n p st blocks /\
     (forall x y, covers (free_blocks (region_of name s')) x -> covers blocks y -> x < y)).
Proof.
  intros Hok Ht Hn H1 Hta Hna in_range unmapped.
  destruct (decide (HEAP_VADDR <= t /\ t + n <= HEAP_VADDR_END)) as [Hr|Hr].
  2: { left. by rewrite HeapAllocate_outside. }
  right. destruct (heap_range t n Ht Hn (proj1 Hr) (proj2 Hr)) as [H0 Hmax].
  destruct (HeapAllocate_commits name s t n p st false Hok Hn H0 H1 Hta Hna Hmax) as
    [[(a & h & Ha & E) E']|(Hno & [[Hlt E]|(Hle & s' & bl & E & _ & Hal & Hord)])].
  - intros a Ha. apply heap_not_linear; [done|unfold in_heap; lia].
  - by right.
  - left. split_and!; try done. intros Hu. by rewrite (Hu a Ha) in E.
  - right; left. done.
  - right; right. split_and!; try done. eauto.
Qed.

(** C22: Freeing what [HeapAllocate] has just mapped restores the region exactly, the
    held memory, the host address of every address and the ledger.  The range itself
    is free again.  Beyond it every area has its type, state and host memory, but not
    always its permissions: an area in state [st] that was read-write and that the
    new one was merged with keeps the permissions [p] of the allocation. *)
Theorem HeapAllocate_HeapFree name s t n p st s1 :
  process_ok name s -> is_u32 t -> is_u32 n -> 0 < n -> t mod 4096 = 0 -> n mod 4096 = 0 ->
  HeapAllocate t n p st false s = Done s1 t ->
  exists s2, HeapFree t n s1 = Done s2 tt /\ process_ok name s2 /\
    region_of name s2 = region_of name s /\
    holding_memory (process s2) = holding_memory (process s) /\
    (forall a, host_of (space s2) a = host_of (space s) a) /\
    (forall a, t <= a < t + n -> attr (space s2) a = Some free_attributes) /\
    (forall a, ~ (t <= a < t + n) -> reperm p st (attr (space s) a) (attr (space s2) a)) /\
    ledger s2 = ledger s.
Proof.
  intros Hok Ht Hn H1 Hta Hna E.
  destruct (decide (HEAP_VADDR <= t /\ t + n <= HEAP_VADDR_END)) as [Hr|Hr].
  2: { by rewrite HeapAllocate_outside in E. }
  destruct (heap_range t n Ht Hn (proj1 Hr) (proj2 Hr)) as [H0 Hmax].
  destruct (HeapAllocate_commits name s t n p st false Hok Hn H0 H1 Hta Hna Hmax) as
    [[_ E']|(Hno & [[_ E']|(_ & s1' & bl & E' & Hok1 & Hal & _)])].
  { intros a Ha. apply heap_not_linear; [done|unfold in_heap; lia]. }
  { by right. }
  all: rewrite E in E'; try done.
  injection E' as <-.
  destruct (HeapFree_run name s1 t n Hok1 Ht Hn H1 Hta Hna (proj1 Hr) (proj2 Hr)) as
    [[(a & Ha & Hf) _]|(_ & s2 & E2 & Hok2 & Hrel)].
  { unfold host_of in Hf. by rewrite (al_range _ _ _ _ _ _ _ _ Hal) in Hf. }
  exists s2. destruct (allocated_released name s s1 s2 t n p st bl) as (R1 & R2 & R3); try done.
  split_and!; try done.
  - intros a Ha. rewrite (rl_attr _ _ _ _ _ Hrel). by zdecide.
  - intros a Ha. rewrite (rl_attr _ _ _ _ _ Hrel).
    destruct (Z.leb_spec t a), (Z.ltb_spec a (t + n)); simpl; try lia;
      by apply (al_rest _ _ _ _ _ _ _ _ Hal).
  - rewrite (rl_ledger _ _ _ _ _ Hrel). apply (al_ledger _ _ _ _ _ _ _ _ Hal).
Qed.
End Process.
