(* ===== verification/ProcessMachine.v ===== *)
(** * ProcessMachine: the memory requests of several processes

    The processes of one kernel with what they share: the FCRAM regions, the host
    memory and the resource limits.  Their requests interleave; no process gets at
    the memory of another, and the counters stay exact. *)
From S2P Require Import Prelude Result StdSet MemoryRegion VMManager ResourceLimit Process ProcessSpecs.
From S2P Require Import ProcessMemory ProcessRequests.

Local Open Scope Z_scope.

Section Machine.
Context {MS : MemorySystem} {ML : MemorySystemLaws MS}.

(** ** Processes that share a kernel *)

(** The process list of the kernel, each process with the number of the resource
    limit that it points to, the limits, the regions and the host memory. *)
Record Machine := mkMachine {
  processes : list (Process * nat);
  limits : list ResourceLimit;
  memory_regions : Regions;
  host : Z -> Z
}.

(** A process with the shared objects, as its own functions see them. *)
Definition view (k : Machine) (x : Process * nat) : System :=
  mkSystem (fst x) (memory_regions k) (limits k !! snd x) (host k).

Definition put_back (i n : nat) (s : System) (k : Machine) : Machine :=
  mkMachine (<[i := (process s, n)]> (processes k))
    (match resource_limit s with Some l => <[n := l]> (limits k) | None => limits k end)
    (regions s) (host_memory s).

(** A call of [svcControlMemory] while process number [caller] is the current one. *)
Record Request := mkRequest {
  caller : nat;
  addr0 : Z;
  addr1 : Z;
  size : Z;
  operation : Z;
  permissions : Z
}.

(** [None] when an assertion fails or there is no such process. *)
Definition request (r : Request) (k : Machine) : option Machine :=
  match processes k !! caller r with
  | None => None
  | Some x =>
      match ControlMemory (addr0 r) (addr1 r) (size r) (operation r) (permissions r) (view k x) with
      | Done s _ | Failed s _ => Some (put_back (caller r) (snd x) s k)
      | Aborted => None
      end
  end.

Fixpoint run_requests (rs : list Request) (k : Machine) : option Machine :=
  match rs with
  | [] => Some k
  | r :: rest =>
      match request r k with
      | Some k' => run_requests rest k'
      | None => None
      end
  end.

(** ** The invariant *)

Definition free_in (name : MemoryRegionName) (k : Machine) (o : Z) : Prop :=
  covers (free_blocks (GetMemoryRegion name (memory_regions k))) o.

Definition mapping (x : Process * nat) : Z -> option Z := host_of (vma_map (vm_manager (fst x))).

Definition holds (x : Process * nat) (o : Z) : Prop := covers (holding_memory (fst x)) o.

Record machine_ok (k : Machine) : Prop := {
  mo_process : forall i x, processes k !! i = Some x -> exists name, process_ok name (view k x);
  (** An offset is free in one region at most. *)
  mo_regions : forall name other o, name <> other -> free_in name k o -> free_in other k o -> False;
  (** No process maps free memory, of whatever region. *)
  mo_free : forall i x name a p, processes k !! i = Some x ->
    mapping x a = Some p -> free_in name k (p - fcram) -> False;
  (** No process maps memory that another one holds. *)
  mo_private : forall i j x y a p, i <> j -> processes k !! i = Some x -> processes k !! j = Some y ->
    mapping x a = Some p -> holds y (p - fcram) -> False
}.

(** The memory that the processes under limit number [n] hold together. *)
Fixpoint limit_held (n : nat) (xs : list (Process * nat)) : Z :=
  match xs with
  | [] => 0
  | x :: rest => (if Nat.eqb (snd x) n then total (holding_memory (fst x)) else 0) + limit_held n rest
  end.

Definition used_ledger (p : Process) : Z :=
  u32 (memory_used p - total (holding_memory p) - total (holding_tls_memory p)).

Definition commit_ledger (xs : list (Process * nat)) (n : nat) (l : ResourceLimit) : Z :=
  u32 (GetCurrentValue Commit l - limit_held n xs).

(** What each process counts beside the memory it holds, and what each resource
    limit counts beside the memory that its processes hold. *)
Definition machine_ledger (k : Machine) : list Z * list Z :=
  ((fun x => used_ledger (fst x)) <$> processes k,
   imap (commit_ledger (processes k)) (limits k)).

(** ** One request *)

Lemma limit_held_insert n xs : forall i x p, xs !! i = Some x ->
  limit_held n (<[i := (p, snd x)]> xs) =
  limit_held n xs +
    (if Nat.eqb (snd x) n then total (holding_memory p) - total (holding_memory (fst x)) else 0).
Proof.
  induction xs as [|y xs IH]; intros [|i] x p E; try done; simpl in *.
  - injection E as ->. destruct (Nat.eqb _ _); lia.
  - rewrite (IH i x p E). lia.
Qed.

Lemma holds_mapped k name x o : process_ok name (view k x) -> holds x o ->
  exists a, mapping x a = Some (fcram + o).
Proof. intros Hok. apply (own_onto _ _ _ _ _ _ _ (ok_owns _ _ Hok)). Qed.

(** Memory of a process is free in no region. *)
Lemma holds_free k i x name o : machine_ok k -> processes k !! i = Some x -> holds x o ->
  free_in name k o -> False.
Proof.
  intros Hm E Hh Hf. destruct (mo_process _ Hm i x E) as [name' Hok].
  destruct (holds_mapped k name' x o Hok Hh) as [a Ha].
  apply (mo_free _ Hm i x name a _ E Ha). by replace (fcram + o - fcram) with o by lia.
Qed.

Section Step.
Variables (k : Machine) (i : nat) (x : Process * nat) (name : MemoryRegionName) (s : System).
Hypothesis Hm : machine_ok k.
Hypothesis Hi : processes k !! i = Some x.
Hypothesis Hok : process_ok name (view k x).
Hypothesis Hkept : kept name (view k x) s.

Abbreviation k' := (put_back i (snd x) s k).
Abbreviation x' := (process s, snd x).

Lemma step_self : processes k' !! i = Some x'.
Proof. apply list_lookup_insert_eq. by eapply lookup_lt_Some. Qed.

Lemma step_other j : j <> i -> processes k' !! j = processes k !! j.
Proof. intros H. by apply list_lookup_insert_ne. Qed.

Lemma step_limits : exists l l', limits k !! snd x = Some l /\ resource_limit s = Some l' /\ limit_wf l' /\
  limits k' = <[snd x := l']> (limits k) /\ limits k' !! snd x = Some l'.
Proof.
  destruct (ok_limit _ _ Hok) as (l & El & _). destruct (ok_limit _ _ (kept_ok _ _ _ Hkept)) as (l' & El' & Hl).
  exists l, l'. simpl. rewrite El'. split_and!; try done. apply list_lookup_insert_eq. by eapply lookup_lt_Some.
Qed.

Lemma step_view : view k' x' = s.
Proof.
  destruct step_limits as (l & l' & _ & El & _ & _ & E). unfold view. simpl snd. rewrite E, <-El. by destruct s.
Qed.

Lemma step_others other o : other <> name -> free_in other k' o -> free_in other k o.
Proof.
  intros Hne. change (free_in other k' o) with (covers (free_blocks (region_of other s)) o).
  by rewrite (kept_others _ _ _ Hkept other Hne).
Qed.

(** Memory that is free after the request was free, or held by the process. *)
Lemma step_free other o : free_in other k' o -> free_in other k o \/ holds x o.
Proof.
  destruct (decide (other = name)) as [->|Hne]; intros Hf.
  - apply (proj1 (kept_memory _ _ _ Hkept o)). by left.
  - left. by apply step_others.
Qed.

Lemma step_held o : holds x' o -> free_in name k o \/ holds x o.
Proof. intros Hh. apply (proj1 (kept_memory _ _ _ Hkept o)). by right. Qed.

Lemma step_mapped a p : mapping x' a = Some p -> mapping x a = Some p \/ free_in name k (p - fcram).
Proof. apply (kept_mapped _ _ _ Hkept). Qed.

Lemma step_mo_free j y other a p : processes k' !! j = Some y ->
  mapping y a = Some p -> free_in other k' (p - fcram) -> False.
Proof.
  destruct (decide (j = i)) as [->|Hne].
  - rewrite step_self. intros [= <-] Ha Hf. destruct (decide (other = name)) as [->|Hno].
    + by apply (own_free _ _ _ _ _ _ _ (ok_owns _ _ (kept_ok _ _ _ Hkept)) a p Ha).
    + apply step_others in Hf as Hf'; [|done]. destruct (step_mapped a p Ha) as [Ha0|Hf0].
      * by apply (mo_free _ Hm i x other a p).
      * by apply (mo_regions _ Hm other name (p - fcram)).
  - rewrite step_other by done. intros Ey Ha [Hf|Hh]%step_free.
    + by apply (mo_free _ Hm j y other a p).
    + by apply (mo_private _ Hm j i y x a p).
Qed.

(** Another process is as well off as before. *)
Lemma step_neighbour j y ny : j <> i -> processes k !! j = Some y ->
  process_ok ny (view k y) -> process_ok ny (view k' y).
Proof.
  intros Hne Ey Hy. pose proof (kept_ok _ _ _ Hkept) as Hs.
  assert (Hext : region_base (region_of ny (view k' y)) = region_base (region_of ny (view k y)) /\
    region_size (region_of ny (view k' y)) = region_size (region_of ny (view k y)) /\
    region_wf (region_of ny (view k' y)) /\ MemoryRegion.is_locked (region_of ny (view k' y)) = false /\
    whole_pages (covers (free_blocks (region_of ny (view k' y))))).
  { destruct (decide (ny = name)) as [->|Hno].
    - destruct (kept_extent _ _ _ Hkept) as [Eb Es]. split_and!; try done.
      + apply (ok_region _ _ Hs).
      + apply (ok_unlocked _ _ Hs).
      + apply (own_free_pages _ _ _ _ _ _ _ (ok_owns _ _ Hs)).
    - unfold region_of, view. simpl. pose proof (kept_others _ _ _ Hkept ny Hno) as E.
      unfold region_of in E. rewrite E. simpl. split_and!; try done.
      + apply (ok_region _ _ Hy).
      + apply (ok_unlocked _ _ Hy).
      + apply (own_free_pages _ _ _ _ _ _ _ (ok_owns _ _ Hy)). }
  destruct Hext as (Eb & Es & Hwf & Hlk & Hpg). pose proof (ok_owns _ _ Hy) as Ho.
  split; rewrite ?Eb, ?Es; try done; try apply Hy.
  - destruct step_limits as (l & l' & _ & _ & Hl' & El & El'). change (resource_limit (view k' y)) with (limits k' !! snd y).
    destruct (decide (snd y = snd x)) as [->|Hn]; [by eauto|].
    rewrite El. rewrite list_lookup_insert_ne by done. apply (ok_limit _ _ Hy).
  - unfold own_now. rewrite Eb, Es. destruct Ho. split; try done.
    intros a p Ha Hf. apply (step_mo_free j y ny a p); try done. by rewrite step_other.
Qed.

Lemma step_machine_ok : machine_ok k'.
Proof.
  split.
  - intros j y. destruct (decide (j = i)) as [->|Hne].
    + rewrite step_self. intros [= <-]. exists name. rewrite step_view. apply (kept_ok _ _ _ Hkept).
    + rewrite step_other by done. intros Ey. destruct (mo_process _ Hm j y Ey) as [ny Hy].
      exists ny. by apply (step_neighbour j).
  - intros n1 n2 o Hne H1 H2. destruct (decide (n1 = name)) as [->|Hn1].
    + apply step_others in H2; [|done]. apply step_free in H1 as [H1|H1].
      * by apply (mo_regions _ Hm name n2 o).
      * by apply (holds_free k i x n2 o).
    + apply step_others in H1; [|done]. apply step_free in H2 as [H2|H2].
      * by apply (mo_regions _ Hm n1 n2 o).
      * by apply (holds_free k i x n1 o).
  - intros j y other a p. apply step_mo_free.
  - intros j1 j2 y z a p Hne. destruct (decide (j1 = i)) as [->|Hn1], (decide (j2 = i)) as [->|Hn2].
    + done.
    + rewrite step_self, step_other by done. intros [= <-] Ez [Ha|Hf]%step_mapped Hh.
      * by apply (mo_private _ Hm i j2 x z a p).
      * by apply (holds_free k j2 z name (p - fcram)).
    + rewrite step_self, step_other by done. intros Ey [= <-] Ha [Hf|Hh]%step_held.
      * by apply (mo_free _ Hm j1 y name a p).
      * by apply (mo_private _ Hm j1 i y x a p).
    + rewrite !step_other by done. by apply (mo_private _ Hm).
Qed.

Lemma step_used_ledger : used_ledger (process s) = used_ledger (fst x).
Proof. exact (f_equal fst (kept_ledger _ _ _ Hkept)). Qed.

Lemma step_commit_ledger n : commit_ledger (processes k') n <$> limits k' !! n =
  commit_ledger (processes k) n <$> limits k !! n.
Proof.
  destruct step_limits as (l & l' & E & Es & _ & El & El').
  unfold commit_ledger. simpl processes. rewrite (limit_held_insert n _ i x (process s) Hi).
  destruct (Nat.eqb_spec (snd x) n) as [<-|Hne].
  - rewrite El', E. simpl. f_equal. pose proof (f_equal snd (kept_ledger _ _ _ Hkept)) as Hl.
    unfold ledger, view in Hl. simpl in Hl. rewrite Es, E in Hl. word_lia.
  - rewrite El, list_lookup_insert_ne by done. by rewrite Z.add_0_r.
Qed.

Lemma step_ledger : machine_ledger k' = machine_ledger k.
Proof.
  unfold machine_ledger. f_equal.
  - simpl. rewrite list_fmap_insert. apply list_insert_id. rewrite list_lookup_fmap, Hi. simpl.
    by rewrite step_used_ledger.
  - apply list_eq. intros n. rewrite !list_lookup_imap. apply step_commit_ledger.
Qed.
End Step.

(** A request that is considered: FREE, COMMIT or PROTECT, of a process there is. *)
Definition request_ok (k : Machine) (r : Request) : Prop :=
  plain_request (addr0 r) (size r) (operation r) /\ (caller r < length (processes k))%nat.

Lemma request_run k r : machine_ok k -> request_ok k r ->
  exists k', request r k = Some k' /\ machine_ok k' /\ machine_ledger k' = machine_ledger k /\
    length (processes k') = length (processes k).
Proof.
  intros Hm [Hr Hc]. destruct (lookup_lt_is_Some_2 _ _ Hc) as [x Hx].
  destruct (mo_process _ Hm _ x Hx) as [name Hok].
  pose proof (ControlMemory_request name (view k x) (addr0 r) (addr1 r) (size r) (operation r)
                (permissions r) Hok Hr) as Hs.
  assert (Hstep : exists s, request r k = Some (put_back (caller r) (snd x) s k) /\ kept name (view k x) s).
  { unfold request. rewrite Hx.
    destruct (ControlMemory _ _ _ _ _ (view k x)) as [s a|s rc|]; simpl in Hs; [by eauto| |done].
    subst s. exists (view k x). split; [done|]. by apply kept_refl. }
  destruct Hstep as (s & E & Hk). exists (put_back (caller r) (snd x) s k). split_and!.
  - done.
  - by apply (step_machine_ok k (caller r) x name).
  - by apply (step_ledger k (caller r) x name).
  - apply length_insert.
Qed.

(** ** Properties *)

(** C4: The processes of a kernel are kept apart.  Over any sequence of FREE, COMMIT and
    PROTECT requests, by whichever processes and in whatever order, no assertion
    fails and the machine stays in order: every process is ([process_ok]), no offset
    is free in two regions, no process maps memory that is free in any region, and
    none maps memory that another one holds.  For each process [memory_used], and
    for each resource limit its commit count, exceed the memory held by the same
    amount as before, the processes that share a limit taken together. *)
Theorem process_history k requests :
  machine_ok k -> Forall (request_ok k) requests ->
  exists k', run_requests requests k = Some k' /\ machine_ok k' /\ machine_ledger k' = machine_ledger k.
Proof.
  revert k. induction requests as [|r rest IH]; intros k Hm Hr; [by exists k|].
  apply Forall_cons in Hr as [Hr Hrest]. destruct (request_run k r Hm Hr) as (k1 & E & Hm1 & El & En).
  destruct (IH k1 Hm1) as (k' & E' & Hm' & El').
  { eapply Forall_impl; [exact Hrest|]. intros q [Hq Hc]. split; [done|]. by rewrite En. }
  exists k'. simpl. rewrite E. split_and!; [done|done|]. by rewrite El'.
Qed.
End Machine.
