(* ===== verification/ProcessLifetime.v ===== *)
(** * ProcessLifetime: the regions, the capabilities and the end of a process

    The layout that [MemoryInit] gives FCRAM, the bounds that [ParseKernelCaps]
    keeps, the slots of thread local storage, and [FreeAllMemory], which gives
    everything back. *)
From S2P Require Import Prelude Result StdSet MemoryRegion VMManager ResourceLimit Process ProcessSpecs.
From S2P Require Import ProcessMemory.

Local Open Scope Z_scope.

(** ** Kernel capabilities *)

(** What the types of the members promise: a mask of 128 bits, at most 8 mappings. *)
Record caps_ok (c : Capabilities) : Prop := {
  caps_mask : length (svc_access_mask c) = svc_mask_size;
  caps_mappings : (length (address_mappings c) <= MAX_ADDRESS_MAPPINGS)%nat;
  caps_version : is_u16 (kernel_version c);
  caps_flags : is_u16 (flags c);
  caps_table : 0 <= handle_table_size c
}.

Lemma set_svc_bits_step fuel bits index mask :
  set_svc_bits (S fuel) bits index mask =
  if (bits =? 0) || (svc_mask_size <=? index)%nat then mask
  else set_svc_bits fuel (Z.shiftr bits 1) (S index) (<[index := Z.odd bits]> mask).
Proof. done. Qed.

Lemma set_svc_bits_length fuel bits index mask :
  length (set_svc_bits fuel bits index mask) = length mask.
Proof.
  revert bits index mask. induction fuel as [|fuel IH]; intros; [done|]. rewrite set_svc_bits_step.
  destruct (_ || _); [done|]. by rewrite IH, length_insert.
Qed.

(** Bit [k] of the mask after the loop: bit [k - index] of [bits], as far as the
    loop gets, which is until the last set bit. *)
Lemma set_svc_bits_lookup fuel : forall bits index mask k,
  length mask = svc_mask_size -> 0 <= bits < 2 ^ Z.of_nat fuel ->
  (k < index)%nat -> set_svc_bits fuel bits index mask !! k = mask !! k.
Proof.
  induction fuel as [|fuel IH]; intros bits index mask k Hm Hb Hk; [done|]. rewrite set_svc_bits_step.
  destruct ((bits =? 0) || _)%bool; [done|]. rewrite IH.
  - by rewrite list_lookup_insert_ne by lia.
  - by rewrite length_insert.
  - rewrite Z.shiftr_div_pow2 by lia. change (2 ^ 1) with 2.
    rewrite Nat2Z.inj_succ, Z.pow_succ_r in Hb by lia. zlia.
  - lia.
Qed.

Lemma set_svc_bits_set fuel : forall bits index mask k,
  length mask = svc_mask_size -> 0 <= bits < 2 ^ Z.of_nat fuel ->
  (index <= k < svc_mask_size)%nat -> Z.testbit bits (Z.of_nat (k - index)) = true ->
  set_svc_bits fuel bits index mask !! k = Some true.
Proof.
  induction fuel as [|fuel IH]; intros bits index mask k Hm Hb Hk Ht.
  { simpl in Hb. assert (bits = 0) as -> by lia. by rewrite Z.testbit_0_l in Ht. }
  rewrite set_svc_bits_step. destruct (Z.eqb_spec bits 0) as [->|Hne]; [by rewrite Z.testbit_0_l in Ht|].
  destruct (Nat.leb_spec svc_mask_size index); [lia|]. cbv [orb].
  assert (Hb' : 0 <= Z.shiftr bits 1 < 2 ^ Z.of_nat fuel).
  { rewrite Z.shiftr_div_pow2 by lia. change (2 ^ 1) with 2.
    rewrite Nat2Z.inj_succ, Z.pow_succ_r in Hb by lia. zlia. }
  destruct (Nat.eq_dec k index) as [->|Hki].
  - rewrite set_svc_bits_lookup; [|by rewrite length_insert|done|lia].
    rewrite list_lookup_insert_eq by lia. rewrite Nat.sub_diag in Ht. f_equal. by rewrite <-Z.bit0_odd.
  - apply IH; [by rewrite length_insert|done|lia|].
    rewrite Z.shiftr_spec by lia. replace (Z.of_nat (k - S index) + 1) with (Z.of_nat (k - index)) by lia. done.
Qed.

Lemma append_ok m c : caps_ok c -> caps_ok (append_address_mapping m c).
Proof.
  intros []. unfold append_address_mapping.
  destruct (Nat.leb_spec MAX_ADDRESS_MAPPINGS (length (address_mappings c))); [by split|].
  split; simpl; try done. rewrite length_app. simpl. lia.
Qed.

Lemma land_u16 x : is_u16 (Z.land x 0xFFFF).
Proof. change 0xFFFF with (Z.ones 16). rewrite Z.land_ones by lia. unfold is_u16. zlia. Qed.

(** A list of descriptors, however malformed, keeps the members in bounds. *)
Lemma ParseKernelCaps_ok page_size kernel_caps c :
  caps_ok c -> caps_ok (ParseKernelCaps page_size kernel_caps c).
Proof.
  revert c. induction kernel_caps as [kernel_caps IH] using (induction_ltof1 _ (@length Z)).
  unfold ltof in IH. intros c Hc. destruct kernel_caps as [|d rest]; [done|].
  assert (IH1 : forall c, caps_ok c -> caps_ok (ParseKernelCaps page_size rest c)).
  { intros c'. apply IH. simpl. lia. }
  cbn [ParseKernelCaps]. cbv zeta. pose proof Hc as [H1 H2 H3 H4 H5].
  destruct (d =? 0xFFFFFFFF); [by apply IH1|].
  destruct (Z.land (Z.shiftr d 20) 0xF00 =? 0xE00); [by apply IH1|].
  destruct (Z.land (Z.shiftr d 20) 0xF80 =? 0xF00).
  { apply IH1. split; [|exact H2|exact H3|exact H4|exact H5].
    unfold with_svc_mask, svc_access_mask at 1. by rewrite set_svc_bits_length. }
  destruct (Z.land (Z.shiftr d 20) 0xFF0 =? 0xFE0).
  { apply IH1. split; [exact H1|exact H2|exact H3|exact H4|].
    unfold handle_table_size. apply Z.land_nonneg. lia. }
  destruct (Z.land (Z.shiftr d 20) 0xFF8 =? 0xFF0).
  { apply IH1. split; [exact H1|exact H2|exact H3|apply land_u16|exact H5]. }
  destruct (Z.land (Z.shiftr d 20) 0xFFE =? 0xFF8).
  { destruct rest as [|e rest']; [done|]. destruct (negb _); [by apply IH1|].
    apply IH; [simpl; lia|]. by apply append_ok. }
  destruct (Z.land (Z.shiftr d 20) 0xFFF =? 0xFFE); [apply IH1; by apply append_ok|].
  destruct (Z.land (Z.shiftr d 20) 0xFE0 =? 0xFC0); [|by apply IH1].
  apply IH1. split; [exact H1|exact H2|apply land_u16|exact H4|exact H5].
Qed.

Section Process.
Context {MS : MemorySystem} {ML : MemorySystemLaws MS}.

(** ** MemoryInit *)

(** The modes of a New 3DS are those that fill its larger FCRAM. *)
Definition mode_fits (is_new_3ds : bool) (mode : MemoryMode) : bool :=
  match mode with NewProd | NewDev1 => is_new_3ds | _ => negb is_new_3ds end.

(** A region that is one free block from [lo] on. *)
Definition whole_region (lo hi : Z) (r : MemoryRegionInfo) : Prop :=
  r = mkRegion lo (hi - lo) 0 [mkInterval lo hi] false.

Lemma whole_region_wf lo hi r : 0 <= lo -> lo < hi -> hi < 4294967296 -> whole_region lo hi r -> region_wf r.
Proof.
  intros H1 H2 H3 ->. constructor; simpl; try lia.
  split; [repeat constructor|]. constructor; [unfold block_ok; simpl; lia|constructor].
Qed.

Lemma Reset_region name lo n s :
  MemoryRegion.is_locked (region_of name s) = false -> 0 <= lo -> 0 < n -> lo + n < 4294967296 ->
  on_region name (MemoryRegion.Reset lo n) s =
  Done (with_regions (set_region name (mkRegion lo n 0 [mkInterval lo (lo + n)] false) (regions s)) s) tt.
Proof.
  intros Hl H1 H2 H3. apply on_region_Done. unfold MemoryRegion.Reset, bind, assert_, put. rewrite Hl.
  rewrite u32_small by word_lia. done.
Qed.

Lemma MemoryInit_run s a b c is_new mode :
  (forall name, MemoryRegion.is_locked (region_of name s) = false) ->
  nth (Z.to_nat (MemoryMode_value mode)) memory_region_sizes [] = [a; b; c] ->
  0 < a -> 0 < b -> 0 < c -> a + b + c < 4294967296 ->
  MemoryInit is_new mode s =
  if a + b + c =? (if is_new then FCRAM_N3DS_SIZE else FCRAM_SIZE) then
    Done (with_regions (mkRegions (mkRegion 0 a 0 [mkInterval 0 a] false)
                          (mkRegion a b 0 [mkInterval a (a + b)] false)
                          (mkRegion (a + b) c 0 [mkInterval (a + b) (a + b + c)] false)) s)
      (mkConfigMem (u8 (MemoryMode_value mode)) a b c)
  else Aborted.
Proof.
  intros Hl E Ha Hb Hc Hs. pose proof (Hl APPLICATION) as L1. pose proof (Hl SYSTEM) as L2.
  pose proof (Hl BASE) as L3. unfold region_of in L1, L2, L3. unfold MemoryInit. rewrite E.
  cbv zeta. simpl nth.
  unfold bind at 1. unfold bind at 1. rewrite Reset_region by first [exact L1|exact L2|exact L3|lia].
  unfold bind at 1, get, ret at 1. simpl.
  rewrite Z.add_0_l. replace (u32 a) with a by (symmetry; apply u32_small; unfold is_u32; lia).
  unfold bind at 1. unfold bind at 1. rewrite Reset_region by first [exact L1|exact L2|exact L3|lia].
  unfold bind at 1, ret at 1. simpl.
  replace (u32 (a + b)) with (a + b) by (symmetry; apply u32_small; unfold is_u32; lia).
  unfold bind at 1. unfold bind at 1. rewrite Reset_region by first [exact L1|exact L2|exact L3|lia].
  unfold bind at 1, ret at 1. simpl.
  replace (u32 (a + b + c)) with (a + b + c) by (symmetry; apply u32_small; unfold is_u32; lia).
  unfold bind, assert_. by destruct (_ =? _).
Qed.

(** ** Thread local storage *)

Lemma find_tls_slot_spec page slots p k : find_tls_slot page slots = Some (p, k) ->
  (page <= p)%nat /\ exists l, slots !! (p - page)%nat = Some l /\ l !! k = Some false.
Proof.
  revert page. induction slots as [|l slots IH]; intros page; simpl; [done|].
  destruct (list_find _ l) as [[i x]|] eqn:E.
  - intros [= <- <-]. apply list_find_Some in E as (E & -> & _). split; [lia|].
    exists l. by rewrite Nat.sub_diag.
  - intros [Hp (l' & El & Hk)]%IH. split; [lia|]. exists l'.
    replace (p - page)%nat with (S (p - S page)) by lia. done.
Qed.

(** Which slots are in use. *)
Definition slot_used (slots : list (list bool)) (page slot : nat) : Prop :=
  exists l, slots !! page = Some l /\ l !! slot = Some true.

Lemma set_slot_used page slot slots l p k :
  slots !! page = Some l -> (slot < length l)%nat ->
  slot_used (set_slot page slot slots) p k <-> slot_used slots p k \/ (p = page /\ k = slot).
Proof.
  intros El Hs. unfold slot_used, set_slot. destruct (Nat.eq_dec p page) as [->|Hne].
  - rewrite list_lookup_alter_eq, El. simpl. split.
    + intros (l' & [= <-] & Hk). destruct (Nat.eq_dec k slot) as [->|]; [by right|].
      left. exists l. by rewrite list_lookup_insert_ne in Hk.
    + intros [(l' & [= <-] & Hk)|[_ ->]]; eexists; (split; [done|]).
      * destruct (Nat.eq_dec k slot) as [->|]; [by rewrite list_lookup_insert_eq|by rewrite list_lookup_insert_ne].
      * by rewrite list_lookup_insert_eq.
  - rewrite list_lookup_alter_ne by done. split; [by left|]. intros [?|[? _]]; done.
Qed.

Lemma set_slot_vm v s : tls_slots (process (with_vm v s)) = tls_slots (process s).
Proof. done. Qed.

(** ** FreeAllMemory *)

(** What a part of the clean-up leaves alone. *)
Definition same_but_freed (name : MemoryRegionName) (s s' : System) : Prop :=
  (forall other, other <> name -> region_of other s' = region_of other s) /\
  vm_manager (process s') = vm_manager (process s) /\
  memory_region (process s') = memory_region (process s) /\
  holding_memory (process s') = holding_memory (process s) /\
  holding_tls_memory (process s') = holding_tls_memory (process s) /\
  host_memory s' = host_memory s.

Lemma set_region_other name other i r : other <> name ->
  GetMemoryRegion other (set_region name i r) = GetMemoryRegion other r.
Proof. by destruct name, other. Qed.

Lemma free_held_run name c held : forall s,
  let r := region_of name s in
  region_wf r -> MemoryRegion.is_locked r = false ->
  canonical (region_base r) (region_base r + region_size r) held ->
  (forall o, covers held o -> ~ covers (free_blocks r) o) ->
  is_u32 (memory_used (process s)) -> resource_limit s <> None ->
  exists s', free_held name c held s = Done s' tt /\ same_but_freed name s s' /\
    region_wf (region_of name s') /\ MemoryRegion.is_locked (region_of name s') = false /\
    region_base (region_of name s') = region_base r /\ region_size (region_of name s') = region_size r /\
    (forall o, covers (free_blocks (region_of name s')) o <-> covers (free_blocks r) o \/ covers held o) /\
    memory_used (process s') = u32 (memory_used (process s) - total held) /\
    resource_limit s' <> None.
Proof.
  induction held as [|i held IH]; intros s r Hwf Hlk Hc Hdis Hu Hl.
  - exists s. simpl. rewrite Z.sub_0_r, u32_small by done. split_and!; try done.
    intros o. pose proof (covers_nil o). tauto.
  - apply canonical_cons in Hc as (Hi & Hb & Hc). pose proof Hi as (B1 & B2 & B3).
    pose proof (wf_base _ Hwf). pose proof (wf_end _ Hwf). pose proof (total_nonneg _ _ _ Hc).
    destruct (Free_run r (lower i) (upper i - lower i) Hwf Hlk) as (r1 & E & Hwf1 & Hlk1 & Eb & Es & _ & Hcov);
      try lia.
    { intros p Hp. apply Hdis, covers_cons. left. unfold MemoryRegion.inside. lia. }
    destruct (resource_limit s) as [l|] eqn:El; [|done].
    set (s1 := with_limit (Some (if c then fst (Release Commit (upper i - lower i) l) else l))
      (with_holding (holding_memory (process s)) (u32 (memory_used (process s) - (upper i - lower i)))
         (with_regions (set_region name r1 (regions s)) s))).
    assert (Er1 : region_of name s1 = r1) by (unfold region_of; simpl; apply get_set_region).
    destruct (IH s1) as (s2 & E2 & Hsame & Hwf2 & Hlk2 & Eb2 & Es2 & Hcov2 & Hu2 & Hl2);
      rewrite ?Er1, ?Eb, ?Es; try done.
    { intros o Ho. rewrite Hcov. intros [Hf|Hf]; [apply (Hdis o); [by apply covers_cons; right|done]|].
      destruct Ho as (j & Hj & Hjo). specialize (Hb j Hj). unfold before, MemoryRegion.inside in *. lia. }
    { simpl. apply u32_range. }
    exists s2. rewrite Er1, ?Eb, ?Es in *. destruct Hsame as (S1 & S2 & S3 & S4 & S5 & S6).
    split_and!; try done.
    + simpl free_held. rewrite (u32_small (upper i - lower i)) by (unfold is_u32; lia).
      erewrite bind_Done by (apply on_region_Done, E). erewrite bind_Done by reflexivity.
      rewrite <-E2. unfold s1. destruct c.
      * erewrite bind_Done; [reflexivity|]. unfold on_limit. simpl. by rewrite El.
      * erewrite bind_Done; [reflexivity|]. unfold ret, with_limit. simpl. by rewrite <-El.
    + split; [|done]. intros o Ho. rewrite (S1 o Ho). unfold region_of. simpl. by apply set_region_other.
    + intros o. rewrite Hcov2, Hcov, covers_cons. unfold MemoryRegion.inside.
      replace (lower i + (upper i - lower i)) with (upper i) by lia. tauto.
    + rewrite Hu2. simpl. word_lia.
Qed.

(** The thread local storage of a process: memory of the BASE region that is not
    free and, when the process lives in that region, not held otherwise. *)
Record tls_ok (name : MemoryRegionName) (s : System) : Prop := {
  tls_region : region_wf (region_of BASE s);
  tls_unlocked : MemoryRegion.is_locked (region_of BASE s) = false;
  tls_holding : canonical (region_base (region_of BASE s))
    (region_base (region_of BASE s) + region_size (region_of BASE s)) (holding_tls_memory (process s));
  tls_taken : forall o, covers (holding_tls_memory (process s)) o -> ~ covers (free_blocks (region_of BASE s)) o;
  tls_apart : name = BASE -> forall o, covers (holding_tls_memory (process s)) o ->
    ~ covers (holding_memory (process s)) o
}.

Lemma region_mkt name s h sl u l : region_of name (with_tls h sl u (with_limit l s)) = region_of name s.
Proof. done. Qed.

Lemma FreeAllMemory_run name s :
  process_ok name s -> tls_ok name s -> is_u32 (memory_used (process s)) ->
  exists s', FreeAllMemory s = Done s' tt /\
    holding_memory (process s') = [] /\ holding_tls_memory (process s') = [] /\
    tls_slots (process s') = [] /\ memory_used (process s') = fst (ledger s) /\
    (forall region, region_wf (region_of region s) -> region_wf (region_of region s')) /\
    (forall region o, covers (free_blocks (region_of region s')) o <->
       covers (free_blocks (region_of region s)) o \/
       (region = name /\ covers (holding_memory (process s)) o) \/
       (region = BASE /\ covers (holding_tls_memory (process s)) o)).
Proof.
  intros Hok Htls Hu. destruct (ok_limit _ _ Hok) as (l & El & _). destruct Htls as [T1 T2 T3 T4 T5].
  destruct (free_held_run name true (holding_memory (process s)) s (ok_region _ _ Hok) (ok_unlocked _ _ Hok)
              (ok_holding _ _ Hok)) as
    (s1 & E1 & (S1 & S2 & S3 & S4 & S5 & S6) & W1 & L1 & B1 & Z1 & C1 & U1 & R1); try done.
  { intros o Hh Hf. by apply (owns_disjoint _ _ _ _ _ _ _ o (ok_owns _ _ Hok) Hh). }
  { by rewrite El. }
  set (s2 := with_holding [] (memory_used (process s1)) s1).
  assert (Hbase : region_wf (region_of BASE s2) /\ MemoryRegion.is_locked (region_of BASE s2) = false /\
    region_base (region_of BASE s2) = region_base (region_of BASE s) /\
    region_size (region_of BASE s2) = region_size (region_of BASE s) /\
    (forall o, covers (holding_tls_memory (process s)) o -> ~ covers (free_blocks (region_of BASE s2)) o)).
  { change (region_of BASE s2) with (region_of BASE s1). destruct (decide (name = BASE)) as [->|Hn].
    - split_and!; try done. intros o Ho [Hf|Hh]%C1; [by apply (T4 o)|by apply (T5 eq_refl o)].
    - rewrite (S1 BASE) by done. split_and!; done. }
  destruct Hbase as (W & L & B & Z & D).
  destruct (free_held_run BASE false (holding_tls_memory (process s)) s2) as
    (s3 & E3 & (V1 & V2 & V3 & V4 & V5 & V6) & W3 & L3 & B3 & Z3 & C3 & U3 & R3); try done.
  { by rewrite B, Z. }
  { simpl. rewrite U1. apply u32_range. }
  exists (with_tls [] [] (memory_used (process s3)) s3). split_and!; try done.
  - unfold FreeAllMemory. rewrite bind_get, (ok_name _ _ Hok), El.
    erewrite bind_Done by exact E1. erewrite bind_Done by reflexivity. rewrite bind_get.
    change (holding_tls_memory (process (with_holding [] (memory_used (process s1)) s1))) with
      (holding_tls_memory (process s1)). rewrite S5.
    erewrite bind_Done by exact E3. done.
  - simpl. rewrite U3. simpl. rewrite U1. unfold ledger. simpl. word_lia.
  - intros region Hw. change (region_wf (region_of region s3)).
    destruct (decide (region = BASE)) as [->|Hn]; [done|]. rewrite (V1 region Hn).
    change (region_wf (region_of region s1)). destruct (decide (region = name)) as [->|Hn']; [done|].
    by rewrite (S1 region Hn').
  - intros region o. change (region_of region (with_tls [] [] (memory_used (process s3)) s3)) with (region_of region s3).
    assert (Hs1 : covers (free_blocks (region_of region s1)) o <->
              covers (free_blocks (region_of region s)) o \/ (region = name /\ covers (holding_memory (process s)) o)).
    { destruct (decide (region = name)) as [->|Hn']; [rewrite C1; tauto|]. rewrite (S1 region Hn'). tauto. }
    destruct (decide (region = BASE)) as [->|Hn].
    + rewrite C3. change (region_of BASE s2) with (region_of BASE s1). rewrite Hs1. tauto.
    + rewrite (V1 region Hn). change (region_of region s2) with (region_of region s1). rewrite Hs1. tauto.
Qed.

(** ** Properties *)

(** [MemoryInit] lays the three regions out one after the other over the whole
    FCRAM, each of them one free block, when the memory mode belongs to the console;
    with a mode of the other console its assertion fails. *)
Theorem MemoryInit_layout s is_new mode :
  (forall name, MemoryRegion.is_locked (region_of name s) = false) ->
  if mode_fits is_new mode then
    exists s' cfg, MemoryInit is_new mode s = Done s' cfg /\ process s' = process s /\
      whole_region 0 (app_mem_alloc cfg) (region_of APPLICATION s') /\
      whole_region (app_mem_alloc cfg) (app_mem_alloc cfg + sys_mem_alloc cfg) (region_of SYSTEM s') /\
      whole_region (app_mem_alloc cfg + sys_mem_alloc cfg) (if is_new then FCRAM_N3DS_SIZE else FCRAM_SIZE)
        (region_of BASE s') /\
      forall name, region_wf (region_of name s')
  else MemoryInit is_new mode s = Aborted.
Proof.
  intros Hl.
  assert (Hrun : exists a b c, nth (Z.to_nat (MemoryMode_value mode)) memory_region_sizes [] = [a; b; c] /\
    0 < a /\ 0 < b /\ 0 < c /\ a + b + c < 4294967296 /\
    (a + b + c =? (if is_new then FCRAM_N3DS_SIZE else FCRAM_SIZE)) = mode_fits is_new mode).
  { rewrite FCRAM_N3DS_SIZE_value. destruct mode; do 3 eexists; (split; [reflexivity|]);
      split_and!; try lia; by destruct is_new. }
  destruct Hrun as (a & b & c & E & Ha & Hb & Hc & Hs & Hm).
  rewrite (MemoryInit_run s a b c is_new mode Hl E Ha Hb Hc Hs), Hm.
  destruct (mode_fits is_new mode); [|done]. apply Z.eqb_eq in Hm.
  do 2 eexists. split; [reflexivity|]. rewrite <-Hm. unfold whole_region. simpl.
  split; [done|]. split; [by rewrite Z.sub_0_r|]. split; [unfold region_of; simpl; f_equal; lia|].
  split; [unfold region_of; simpl; f_equal; lia|]. intros name.
  assert (Hw : forall lo n, 0 <= lo -> 0 < n -> lo + n < 4294967296 ->
            region_wf (mkRegion lo n 0 [mkInterval lo (lo + n)] false)).
  { intros lo n H1 H2 H3. apply (whole_region_wf lo (lo + n)); try lia. unfold whole_region. f_equal. lia. }
  destruct name; unfold region_of; simpl; [|apply Hw; lia..]. apply (Hw 0 a); lia.
Qed.

(** The thread local storage that a thread is given is no other thread's: the
    slot at the address returned was not in use, it is now, and no other slot has
    changed. *)
Theorem tls_slot_fresh s s' address :
  Forall (fun l => length l = 8%nat) (tls_slots (process s)) ->
  AllocateThreadLocalStorage s = Done s' address ->
  exists page slot, address = tls_slot_address page slot /\ (slot < 8)%nat /\
    ~ slot_used (tls_slots (process s)) page slot /\
    forall p k, slot_used (tls_slots (process s')) p k <->
      slot_used (tls_slots (process s)) p k \/ (p = page /\ k = slot).
Proof.
  intros H8. unfold AllocateThreadLocalStorage. rewrite bind_get.
  destruct (find_tls_slot 0 (tls_slots (process s))) as [[page slot]|] eqn:Ef.
  - unfold bind, ret, modify. intros [= <- <-].
    apply find_tls_slot_spec in Ef as (_ & l & El & Hk). rewrite Nat.sub_0_r in El.
    apply lookup_lt_Some in Hk as Hlt. exists page, slot. split; [done|].
    split; [by rewrite <-(Forall_lookup_1 _ _ _ _ H8 El)|]. split.
    + intros (l' & El' & Hk'). congruence.
    + intros p k. by apply (set_slot_used page slot _ l).
  - unfold bind, on_region. destruct (MemoryRegion.LinearAllocate _ _) as [r [o|]| |]; simpl; try done.
    unfold ignoring, on_vm. destruct (MapBackingMemory _ _ _ _ _ _ _ _) as [v it|v rc|]; simpl; try done;
      (intros [= <- <-]; exists (length (tls_slots (process s))), 0%nat;
       split; [done|]; split; [lia|];
       assert (El : (tls_slots (process s) ++ [replicate 8 false]) !! length (tls_slots (process s)) =
                    Some (replicate 8 false)) by (by apply list_lookup_middle);
       split; [intros (l' & El' & _); apply lookup_lt_Some in El'; lia|];
       intros p k; simpl; rewrite (set_slot_used _ 0 _ _ p k El) by (simpl; lia);
       unfold slot_used; split; (intros [(l' & El' & Hk)|?]; [left|by right]);
       [|exists l'; split; [by apply lookup_app_l_Some|done]];
       apply lookup_app_Some in El' as [El'|[Hle El']]; [by exists l'|];
       apply list_lookup_singleton_Some in El' as [_ <-];
       apply lookup_replicate in Hk as [? _]; done).
Qed.

(** C32: The end of a process gives everything back: [FreeAllMemory] fails no
    assertion, every offset the process held is free again in the region it came
    from, with the thread local storage in BASE, and nothing else has become free;
    [memory_used] is left with what did not come from these two. *)
Theorem FreeAllMemory_returns name s :
  process_ok name s -> tls_ok name s -> is_u32 (memory_used (process s)) ->
  exists s', FreeAllMemory s = Done s' tt /\
    holding_memory (process s') = [] /\ holding_tls_memory (process s') = [] /\
    memory_used (process s') = fst (ledger s) /\
    (forall region, region_wf (region_of region s) -> region_wf (region_of region s')) /\
    (forall region o, covers (free_blocks (region_of region s')) o <->
       covers (free_blocks (region_of region s)) o \/
       (region = name /\ covers (holding_memory (process s)) o) \/
       (region = BASE /\ covers (holding_tls_memory (process s)) o)).
Proof.
  intros Hok Ht Hu. destruct (FreeAllMemory_run name s Hok Ht Hu) as (s' & E & H1 & H2 & _ & H3 & H4 & H5).
  by exists s'.
Qed.
End Process.
