(* ===== verification/ProcessModel.v ===== *)
(** * ProcessModel: a memory system, and runs of a process

    An instance of the interface of [Process] and of its contract, the witnesses of
    the theorems about processes, and runs that show where the code asserts or
    changes more than it was asked to. *)
From S2P Require Import Prelude Result StdSet MemoryRegion VMManager ResourceLimit Process ProcessSpecs.
From S2P Require Import ProcessMemory ProcessRequests ProcessMachine ProcessLifetime.

Local Open Scope Z_scope.

(** ** The instance *)

Definition fcram_block : BackingMem := mkMem 0x70000000 0x10000000.

(** The bytes that a range of addresses is mapped to. *)
Definition zero_mapped (pt : Z -> Z) (a n : Z) (h : Z -> Z) : Z -> Z := fun p =>
  if existsb (fun i => pt (a + Z.of_nat i) =? p) (seq 0 (Z.to_nat n)) then 0 else h p.

#[export] Instance the_memory : MemorySystem := {|
  PageTable := Z -> Z;
  Process.MapMemoryRegion := flat_map;
  Process.UnmapRegion := flat_unmap;
  CITRA_PAGE_SIZE := 0x1000;
  CITRA_PAGE_MASK := 0xFFF;
  LINEAR_HEAP_VADDR := 0x14000000;
  NEW_LINEAR_HEAP_VADDR := 0x30000000;
  TLS_AREA_VADDR := 0x1FF82000;
  TLS_ENTRY_SIZE := 0x200;
  FCRAM_N3DS_SIZE := 0x10000000;
  GetFCRAMRef := mkRef (Some fcram_block);
  GetFCRAMPointer := fun o => 0x70000000 + o;
  GetFCRAMOffset := fun p => p - 0x70000000;
  ZeroBlock := zero_mapped;
  add_intervals := fun l k => fold_left InsertMerge k l;
  sub_interval := SubtractInterval
|}.

Lemma fold_InsertMerge lo hi k : forall l, canonical lo hi l -> canonical lo hi k ->
  canonical lo hi (fold_left InsertMerge k l) /\
  (forall p, covers (fold_left InsertMerge k l) p <-> covers l p \/ covers k p).
Proof.
  induction k as [|i k IH]; intros l Hl Hk; simpl.
  - split; [done|]. intros p. pose proof (covers_nil p). tauto.
  - apply canonical_cons in Hk as (Hi & _ & Hk). destruct (InsertMerge_spec lo hi l i Hl Hi) as [Hl' Hc].
    destruct (IH (InsertMerge l i) Hl' Hk) as [H1 H2]. split; [done|]. intros p.
    rewrite H2, Hc, covers_cons. tauto.
Qed.

#[export] Instance the_laws : MemorySystemLaws the_memory.
Proof.
  refine {| ProcessSpecs.pt_lookup := fun pt => pt : Z -> Z;
            ProcessSpecs.mems := fun b => b = fcram_block; fcram := 0x70000000 |}; try done.
  - congruence.
  - by intros b ->.
  - intros o n H1 H2 H3. exists fcram_block. split_and!; done.
  - intros o Ho. simpl. lia.
  - intros a [-> | ->]; done.
  - intros lo hi l k Hl Hk _. by apply fold_InsertMerge.
  - intros lo hi l n Hl Hn. split; [by apply SubtractInterval_canonical|].
    intros p. by apply (SubtractInterval_covers lo hi).
Defined.

(** ** A new process *)

Definition no_region : MemoryRegionInfo := mkRegion 0 0 0 [] false.

Definition no_caps : Capabilities := mkCaps (replicate svc_mask_size false) 0x200 [] 0 0x220.

(** A process in the APPLICATION region, with an empty address space. *)
Definition new_system (regions : Regions) : System :=
  mkSystem (mkProcess (mkVMM [initial_vma] (fun _ => 0) false) (Some APPLICATION) [] [] 0 [] no_caps)
    regions (Some (Create Application)) (fun _ => 0xFF).

Definition booted : System :=
  new_system (mkRegions (mkRegion 0 0x4000000 0 [mkInterval 0 0x4000000] false)
    (mkRegion 0x4000000 0x2C00000 0 [mkInterval 0x4000000 0x6C00000] false)
    (mkRegion 0x6C00000 0x1400000 0 [mkInterval 0x6C00000 0x8000000] false)).

(** [booted] is what [MemoryInit] makes of empty regions. *)
Lemma booted_init :
  MemoryInit false Prod (new_system (mkRegions no_region no_region no_region)) =
  Done booted (mkConfigMem 0 0x4000000 0x2C00000 0x1400000).
Proof. reflexivity. Qed.

Lemma booted_space_free a : host_of (space booted) a = None.
Proof.
  unfold host_of, space, attr. simpl. by destruct (VMManager.inside initial_vma a).
Qed.

Lemma covers_whole lo hi o : covers [mkInterval lo hi] o <-> lo <= o < hi.
Proof. apply covers_single. Qed.

Lemma booted_process_ok : process_ok APPLICATION booted.
Proof.
  split; try done.
  - split; [|done]. split.
    + split; [done|]. constructor; [done|constructor].
    + intros a Ha. simpl. unfold attr. simpl. by destruct (VMManager.inside _ _).
  - apply (whole_region_wf 0 0x4000000); done.
  - apply canonical_nil.
  - by exists (Create Application).
  - unfold own_now. split.
    + intros a p E. by rewrite booted_space_free in E.
    + intros a p _ E. by rewrite booted_space_free in E.
    + intros a b p E. by rewrite booted_space_free in E.
    + intros o Ho. by apply covers_nil in Ho.
    + intros a a' p E. by rewrite booted_space_free in E.
    + intros a p E. by rewrite booted_space_free in E.
    + intros o o' Ho Hpg. change (covers [mkInterval 0 0x4000000] o') in |- *.
      change (covers [mkInterval 0 0x4000000] o) in Ho. rewrite covers_whole in Ho |- *. zlia.
    + intros o o' Ho. by apply covers_nil in Ho.
    + intros a p _ E. by rewrite booted_space_free in E.
Qed.

(** ** Witnesses *)

Definition succeeded {A} (o : outcome System A) : bool :=
  match o with Done _ _ => true | _ => false end.

Definition after {A} (o : outcome System A) : System :=
  match o with Done s _ | Failed s _ => s | Aborted => booted end.

Definition value {A} (o : outcome System A) : option A :=
  match o with Done _ a => Some a | _ => None end.

Lemma after_Done {A} (o : outcome System A) a : value o = Some a -> o = Done (after o) a.
Proof. destruct o as [s x| |]; simpl; congruence. Qed.

(** A run that succeeds, by evaluation. *)
Ltac evaluate E := exfalso; apply (f_equal succeeded) in E; vm_compute in E; discriminate E.

Ltac plain := split; [unfold is_u32; lia|]; split; [unfold is_u32; lia|];
  split; [vm_compute; discriminate|]; split; [vm_compute; discriminate|];
  split; intros Hcode; [lia|vm_compute in Hcode; discriminate].

Lemma ControlMemory_safe_witness : exists s' out,
  ControlMemory 0x08001000 0 0x3000 3 3 booted = Done s' out /\ process_ok APPLICATION s' /\
  ledger s' = (0, 0).
Proof.
  destruct (ControlMemory_safe APPLICATION booted 0x08001000 0 0x3000 3 3 booted_process_ok)
    as [(rc & E)|(s' & out & E & Hok & Hl)].
  - plain.
  - evaluate E.
  - exists s', out. split; [exact E|]. split; [exact Hok|exact Hl].
Defined.

Definition committed : System := after (ControlMemory 0x08001000 0 0x3000 3 3 booted).

(** Two processes of the APPLICATION region that share a resource limit. *)
Definition two_processes : Machine :=
  mkMachine [(process booted, 0%nat); (process booted, 0%nat)] [Create Application] (regions booted)
    (host_memory booted).

Lemma two_processes_view i x : processes two_processes !! i = Some x -> view two_processes x = booted.
Proof. by destruct i as [|[|i]]; intros [= <-]. Qed.

Lemma booted_free_covers name o : free_in name two_processes o ->
  match name with
  | APPLICATION => 0 <= o < 0x4000000
  | SYSTEM => 0x4000000 <= o < 0x6C00000
  | BASE => 0x6C00000 <= o < 0x8000000
  end.
Proof. by destruct name; intros H%covers_whole. Qed.

Lemma two_processes_ok : machine_ok two_processes.
Proof.
  assert (Hnone : forall i x a, processes two_processes !! i = Some x -> mapping x a = None).
  { intros i x a E. rewrite <-(booted_space_free a), <-(two_processes_view i x E). done. }
  split.
  - intros i x E. exists APPLICATION. rewrite (two_processes_view i x E). exact booted_process_ok.
  - intros n1 n2 o Hne H1%booted_free_covers H2%booted_free_covers. destruct n1, n2; (done || lia).
  - intros i x name a p E Ha. by rewrite (Hnone i x a E) in Ha.
  - intros i j x y a p _ E _ Ha. by rewrite (Hnone i x a E) in Ha.
Qed.

(** Both commit at the same address, the first frees a page in the middle, the
    second takes linear memory, and the first makes its last page read-only. *)
Definition interleaved : list Request :=
  [mkRequest 0 0x08001000 0 0x3000 3 3; mkRequest 1 0x08001000 0 0x2000 3 3;
   mkRequest 0 0x08002000 0 0x1000 1 0; mkRequest 1 0 0 0x1000 0x10003 3;
   mkRequest 0 0x08003000 0 0x1000 6 1].

Lemma process_history_witness : exists k',
  run_requests interleaved two_processes = Some k' /\ machine_ok k' /\
  machine_ledger k' = ([0; 0], [0]).
Proof.
  destruct (process_history two_processes interleaved two_processes_ok) as (k' & E & Hk & Hl).
  - repeat constructor; try lia; cbn; try (unfold is_u32; lia); vm_compute; congruence.
  - exists k'. split; [exact E|]. split; [exact Hk|exact Hl].
Defined.

(** The second process got other memory at the same address. *)
Lemma interleaved_apart :
  (fun k => map (fun x => mapping x 0x08001000) (processes k)) <$> run_requests interleaved two_processes =
  Some [Some (0x70000000 + 0x3FFD000); Some (0x70000000 + 0x3FFB000)].
Proof. vm_compute. reflexivity. Qed.

Lemma HeapAllocate_outcome_witness : exists s' blocks,
  HeapAllocate 0x08001000 0x3000 ReadWrite Private false booted = Done s' 0x08001000 /\
  allocated APPLICATION booted s' 0x08001000 0x3000 ReadWrite Private blocks.
Proof.
  destruct (HeapAllocate_outcome APPLICATION booted 0x08001000 0x3000 ReadWrite Private booted_process_ok
    ltac:(unfold is_u32; lia) ltac:(unfold is_u32; lia) ltac:(lia) eq_refl eq_refl)
    as [[_ E]|[(_ & _ & E)|[(_ & _ & _ & E)|(_ & _ & _ & s' & bl & E & Hal & _)]]].
  - evaluate E.
  - evaluate E.
  - evaluate E.
  - exists s', bl. split; [exact E|exact Hal].
Defined.

Lemma HeapAllocate_HeapFree_witness : exists s2,
  HeapFree 0x08001000 0x3000 (after (HeapAllocate 0x08001000 0x3000 Read Code false booted)) = Done s2 tt /\
  region_of APPLICATION s2 = region_of APPLICATION booted.
Proof.
  destruct (HeapAllocate_HeapFree APPLICATION booted 0x08001000 0x3000 Read Code
    (after (HeapAllocate 0x08001000 0x3000 Read Code false booted)) booted_process_ok
    ltac:(unfold is_u32; lia) ltac:(unfold is_u32; lia) ltac:(lia) eq_refl eq_refl) as (s2 & E & _ & Hr & _).
  { refine (after_Done (HeapAllocate 0x08001000 0x3000 Read Code false booted) 0x08001000 _).
    vm_compute. reflexivity. }
  exists s2. split; [exact E|exact Hr].
Defined.

Lemma MemoryInit_layout_witness :
  MemoryInit true Dev2 (new_system (mkRegions no_region no_region no_region)) = Aborted.
Proof.
  apply (MemoryInit_layout (new_system (mkRegions no_region no_region no_region)) true Dev2).
  by intros [].
Defined.

Definition threaded : System := after (AllocateThreadLocalStorage committed).

Lemma tls_slot_fresh_witness : exists page slot,
  0x1FF82200 = tls_slot_address page slot /\ ~ slot_used (tls_slots (process threaded)) page slot.
Proof.
  destruct (tls_slot_fresh threaded (after (AllocateThreadLocalStorage threaded)) 0x1FF82200)
    as (page & slot & Ha & _ & Hn & _).
  - constructor; [vm_compute; reflexivity|constructor].
  - refine (after_Done (AllocateThreadLocalStorage threaded) 0x1FF82200 _). vm_compute. reflexivity.
  - exists page, slot. split; [exact Ha|exact Hn].
Defined.

Lemma committed_ok : process_ok APPLICATION committed.
Proof.
  assert (H : safe APPLICATION booted (ControlMemory 0x08001000 0 0x3000 3 3 booted)).
  { apply ControlMemory_request; [exact booted_process_ok|plain]. }
  rewrite (after_Done _ (Some 0x08001000)) in H by (vm_compute; reflexivity). apply H.
Qed.

Lemma FreeAllMemory_returns_witness : exists s',
  FreeAllMemory committed = Done s' tt /\ holding_memory (process s') = [] /\
  memory_used (process s') = 0.
Proof.
  destruct (FreeAllMemory_returns APPLICATION committed committed_ok) as (s' & E & H1 & _ & H2 & _).
  - split.
    + apply (whole_region_wf 0x6C00000 0x8000000); [lia|lia|lia|]. vm_compute. reflexivity.
    + vm_compute. reflexivity.
    + apply canonical_nil.
    + intros o Ho. by apply covers_nil in Ho.
    + discriminate.
  - split; vm_compute; [discriminate|reflexivity].
  - exists s'. split; [exact E|]. split; [exact H1|exact H2].
Defined.

(** ** Where a request does more, or asserts *)

Definition aborted {A} (o : outcome System A) : bool :=
  match o with Aborted => true | _ => false end.

(** COMMIT of no memory: the allocator returns an empty block, and splitting an area
    at its end is asserted against. *)
Lemma empty_commit_asserts :
  aborted (ControlMemory 0x08000000 0 0 3 3 booted) = true /\
  aborted (ControlMemory 0 0 0 0x10003 3 booted) = true.
Proof. vm_compute. done. Qed.

(** PROTECT of an empty range, and of one that ends above the address space. *)
Lemma protect_asserts :
  aborted (ControlMemory 0x08001000 0 0 6 3 committed) = true /\
  aborted (ControlMemory 0x3FFFF000 0 0x2000 6 3 committed) = true.
Proof. vm_compute. done. Qed.

(** MAP to an address above the address space: the area found is [end()]. *)
Lemma map_above_asserts :
  aborted (ControlMemory 0x40000000 0x08001000 0x1000 4 3 committed) = true.
Proof. vm_compute. done. Qed.

Definition permissions_of (x : option attributes) : option VMAPermission :=
  match x with Some (_, p, _, _) => Some p | None => None end.

Definition linear_once : System := after (ControlMemory 0 0 0x1000 0x10003 3 booted).

Definition linear_twice : System := after (ControlMemory 0 0 0x1000 0x10003 1 linear_once).

(** The area that [MapBackingMemory] returns may be the one it was merged with: a
    second allocation, read-only, takes the write permission of the first away. *)
Lemma commit_reprotects_neighbour :
  permissions_of (attr (space linear_once) 0x14000000) = Some ReadWrite /\
  permissions_of (attr (space linear_twice) 0x14000000) = Some Read.
Proof. vm_compute. done. Qed.

Definition aliased : System := after (ControlMemory 0x08010000 0x08001000 0x1000 4 3 committed).

Definition alias_freed : System := after (ControlMemory 0x08010000 0 0x1000 1 0 aliased).

(** FREE of a range made by MAP gives the memory back while its source is still
    mapped to it; freeing the source then fails an assertion of the allocator. *)
Lemma alias_free_dangles :
  host_of (space alias_freed) 0x08001000 = Some (0x70000000 + 0x3FFD000) /\
  existsb (fun i => (lower i <=? 0x3FFD000) && (0x3FFD000 <? upper i))
    (free_blocks (region_of APPLICATION alias_freed)) = true /\
  aborted (ControlMemory 0x08001000 0 0x1000 1 0 alias_freed) = true.
Proof. vm_compute. done. Qed.
