(* ===== verification/Ipc.v ===== *)
(** * Ipc: command headers and descriptors (core/hle/ipc.h)

    An IPC command is a list of 32-bit words: a header, the normal parameters and
    the translate parameters, each of which is a descriptor followed by its words.
    The constructors of headers and descriptors, their fields, and the sorting of
    a descriptor by [GetDescriptorType]. *)
From S2P Require Import Prelude BitField.

Local Open Scope Z_scope.

(** ** Constants *)

(** [0x100 / sizeof(u32)] *)
Definition COMMAND_BUFFER_LENGTH : Z := 0x40.
Definition MAX_STATIC_BUFFERS : Z := 16.

(** [enum DescriptorType : u32]; [GetDescriptorType] also returns 0x30, which
    has no name. *)
Definition StaticBuffer : Z := 0x02.
Definition PXIBuffer : Z := 0x04.
Definition MappedBuffer : Z := 0x08.
Definition CopyHandle : Z := 0x00.
Definition MoveHandle : Z := 0x10.
Definition CallingPid : Z := 0x20.

(** [enum MappedBufferPermissions : u32] *)
Definition R : Z := 1.
Definition W : Z := 2.
Definition RW : Z := Z.lor R W.

(** [BitField<position, bits, u32>] of a union with a [u32 raw]. *)
Definition field (position bits raw : Z) : Z := extract 32 false position bits raw.
Definition Assign (position bits raw value : Z) : Z := assign 32 false position bits raw value.

(** ** Headers *)

Definition translate_params_size (header : Z) : Z := field 0 6 header.
Definition normal_params_size (header : Z) : Z := field 6 6 header.
Definition command_id (header : Z) : Z := field 16 16 header.

Definition MakeHeader (command_id normal_params_size translate_params_size : Z) : Z :=
  let header := Assign 16 16 0 command_id in
  let header := Assign 6 6 header normal_params_size in
  Assign 0 6 header translate_params_size.

(** ** Handle descriptors *)

Definition MoveHandleDesc (num_handles : Z) : Z :=
  Z.lor MoveHandle (u32 (Z.shiftl (u32 (num_handles - 1)) 26)).

Definition CopyHandleDesc (num_handles : Z) : Z :=
  Z.lor CopyHandle (u32 (Z.shiftl (u32 (num_handles - 1)) 26)).

Definition CallingPidDesc : Z := CallingPid.

Definition IsHandleDescriptor (descriptor : Z) : bool := Z.land descriptor 0xF =? 0x0.

Definition HandleNumberFromDesc (handle_descriptor : Z) : Z :=
  u32 (Z.shiftr handle_descriptor 26 + 1).

(** ** Buffer descriptors *)

(** [StaticBufferDescInfo] *)
Definition static_descriptor_type (raw : Z) : Z := field 0 4 raw.
Definition static_buffer_id (raw : Z) : Z := field 10 4 raw.
Definition static_size (raw : Z) : Z := field 14 18 raw.

Definition StaticBufferDesc (size buffer_id : Z) : Z :=
  let info := Assign 0 4 0 StaticBuffer in
  let info := Assign 10 4 info buffer_id in
  Assign 14 18 info (u32 size).

Definition PXIBufferDesc (size buffer_id : Z) (is_read_only : bool) : Z :=
  let type := PXIBuffer in
  let type := if is_read_only then Z.lor type 0x2 else type in
  Z.lor (Z.lor type (u32 (Z.shiftl size 8))) (u32 (Z.shiftl (Z.land buffer_id 0xF) 4)).

(** [MappedBufferDescInfo]; [flags] and [perms] overlap. *)
Definition mapped_flags (raw : Z) : Z := field 0 4 raw.
Definition mapped_perms (raw : Z) : Z := field 1 2 raw.
Definition mapped_size (raw : Z) : Z := field 4 28 raw.

Definition MappedBufferDesc (size perms : Z) : Z :=
  let info := Assign 0 4 0 MappedBuffer in
  let info := Assign 1 2 info perms in
  Assign 4 28 info (u32 size).

Definition GetDescriptorType (descriptor : Z) : Z :=
  if IsHandleDescriptor descriptor then Z.land descriptor 0x30
  else if negb (Z.land descriptor MappedBuffer =? 0) then MappedBuffer
  else if negb (Z.land descriptor PXIBuffer =? 0) then PXIBuffer
  else StaticBuffer.

(** ** Fields *)

Lemma field_small p b v : field_ok 32 p b -> 0 <= v < 2 ^ b -> conv b false v = v.
Proof. intros _ Hv. unfold conv. by apply Z.mod_small. Qed.

Lemma field_Assign p b raw v : field_ok 32 p b -> 0 <= v < 2 ^ b -> field p b (Assign p b raw v) = v.
Proof.
  intros Hf Hv. unfold field, Assign. rewrite extract_assign_same by (lia || done).
  by apply (field_small p).
Qed.

Lemma field_Assign_other p b raw v p' b' :
  field_ok 32 p b -> field_ok 32 p' b' -> p' + b' <= p \/ p + b <= p' ->
  field p' b' (Assign p b raw v) = field p' b' raw.
Proof. intros. apply extract_assign_other; lia || done. Qed.

Lemma field_value_of p b raw : field_ok 32 p b -> field p b raw = (raw / 2 ^ p) mod 2 ^ b.
Proof.
  intros Hf. unfold field. rewrite extract_wide by (lia || done). unfold field_value, conv.
  rewrite Z.shiftr_div_pow2; [done|]. unfold field_ok in Hf. lia.
Qed.

Lemma ipc_field_range p b raw : field_ok 32 p b -> 0 <= field p b raw < 2 ^ b.
Proof.
  intros Hf. rewrite field_value_of by done. apply Z.mod_pos_bound.
  apply Z.pow_pos_nonneg; unfold field_ok in Hf; lia.
Qed.

(** The fields of the words of this file. *)
Ltac fields :=
  repeat first [rewrite field_Assign by (unfold field_ok; lia)
               |rewrite field_Assign_other by (unfold field_ok; lia)].

Lemma Assign_u32 p b raw v : is_u32 (Assign p b raw v).
Proof. unfold Assign, assign, conv, is_u32. change (2 ^ 32) with 4294967296. zlia. Qed.

(** A mask of low bits sees only those. *)
Lemma land_low x m k : 0 <= k -> 0 <= m < 2 ^ k -> Z.land x m = Z.land (x mod 2 ^ k) m.
Proof.
  intros Hk Hm. rewrite <-(Z.mod_small m (2 ^ k)) at 1 by done.
  rewrite <-!Z.land_ones by done. rewrite (Z.land_comm m), !Z.land_assoc. f_equal.
Qed.

Lemma handle_desc_value t n :
  t = CopyHandle \/ t = MoveHandle -> 1 <= n <= 64 ->
  Z.lor t (u32 (Z.shiftl (u32 (n - 1)) 26)) = (n - 1) * 67108864 + t.
Proof.
  intros Ht Hn. rewrite (u32_small (n - 1)) by (unfold is_u32; lia).
  rewrite Z.shiftl_mul_pow2 by lia. change (2 ^ 26) with 67108864.
  rewrite u32_small by (unfold is_u32; lia). rewrite Z.lor_comm.
  apply (lor_add _ _ 26); [lia| |]; [destruct Ht as [->| ->]; vm_compute; intuition congruence|].
  change (2 ^ 26) with 67108864. zlia.
Qed.

Lemma handle_desc_number t n :
  t = CopyHandle \/ t = MoveHandle -> 1 <= n <= 64 ->
  HandleNumberFromDesc ((n - 1) * 67108864 + t) = n.
Proof.
  intros Ht Hn. unfold HandleNumberFromDesc. rewrite Z.shiftr_div_pow2 by lia.
  change (2 ^ 26) with 67108864.
  destruct Ht as [->| ->]; unfold CopyHandle, MoveHandle; word_lia.
Qed.

Lemma handle_desc_type t n :
  t = CopyHandle \/ t = MoveHandle -> GetDescriptorType ((n - 1) * 67108864 + t) = t.
Proof.
  intros Ht. unfold GetDescriptorType, IsHandleDescriptor.
  rewrite (land_low _ 0xF 6), (land_low _ 0x30 6) by lia. change (2 ^ 6) with 64.
  assert (E : ((n - 1) * 67108864 + t) mod 64 = t)
    by (destruct Ht as [->| ->]; unfold CopyHandle, MoveHandle; zlia).
  rewrite E. by destruct Ht as [->| ->].
Qed.

(** The kind of a buffer descriptor is decided by its low four bits. *)
Lemma GetDescriptorType_low d d' :
  field 0 4 d = field 0 4 d' -> field 0 4 d <> 0 -> GetDescriptorType d = GetDescriptorType d'.
Proof.
  rewrite !field_value_of by (unfold field_ok; lia). rewrite !Z.div_1_r. change (2 ^ 4) with 16.
  intros E H. unfold GetDescriptorType, IsHandleDescriptor, MappedBuffer, PXIBuffer.
  rewrite (land_low d 0xF 4), (land_low d 8 4), (land_low d 4 4), (land_low d' 0xF 4),
    (land_low d' 8 4), (land_low d' 4 4) by lia. change (2 ^ 4) with 16. rewrite <-E.
  assert (Hn : Z.land (d mod 16) 15 <> 0); [|by rewrite (proj2 (Z.eqb_neq _ _) Hn)].
  change 15 with (Z.ones 4). rewrite Z.land_ones by lia. change (2 ^ 4) with 16. zlia.
Qed.

Lemma pxi_low size id ro :
  0 <= id < 16 -> field 0 4 (PXIBufferDesc size id ro) = if ro then 6 else 4.
Proof.
  intros Hi. rewrite field_value_of by (unfold field_ok; lia). rewrite Z.div_1_r.
  rewrite <-Z.land_ones by lia. unfold PXIBufferDesc. cbv zeta.
  rewrite !Z.land_lor_distr_l. change 0xF with (Z.ones 4).
  rewrite !Z.land_ones, !Z.shiftl_mul_pow2 by lia. change (2 ^ 4) with 16. change (2 ^ 8) with 256.
  replace (u32 (size * 256) mod 16) with 0 by word_lia.
  replace (u32 (id mod 16 * 16) mod 16) with 0 by word_lia.
  rewrite !Z.lor_0_r. by destruct ro.
Qed.

(** The words that follow a descriptor. *)
Definition descriptor_words (descriptor : Z) : nat :=
  let t := GetDescriptorType descriptor in
  if (t =? CopyHandle) || (t =? MoveHandle) then Z.to_nat (HandleNumberFromDesc descriptor)
  else 1.

Lemma HandleNumber_range d : is_u32 d -> 1 <= HandleNumberFromDesc d <= 64.
Proof.
  intros Hd. unfold HandleNumberFromDesc. rewrite Z.shiftr_div_pow2 by lia.
  change (2 ^ 26) with 67108864. word_lia.
Qed.

(** What a constructor of a header or a descriptor packs, the accessors give
    back: a header its command id and the two parameter counts; a handle
    descriptor its kind and the number of handles (up to 64); a buffer descriptor
    its kind and its fields, whatever rights it carries. *)
Lemma descriptors_roundtrip :
  (forall cid n t, 0 <= cid < 65536 -> 0 <= n < 64 -> 0 <= t < 64 ->
     let h := MakeHeader cid n t in
     is_u32 h /\ command_id h = cid /\ normal_params_size h = n /\ translate_params_size h = t) /\
  (forall n, 1 <= n <= 64 ->
     GetDescriptorType (MoveHandleDesc n) = MoveHandle /\ HandleNumberFromDesc (MoveHandleDesc n) = n /\
     GetDescriptorType (CopyHandleDesc n) = CopyHandle /\ HandleNumberFromDesc (CopyHandleDesc n) = n) /\
  GetDescriptorType CallingPidDesc = CallingPid /\
  (forall size id, 0 <= size < 0x40000 -> 0 <= id < MAX_STATIC_BUFFERS ->
     let d := StaticBufferDesc size id in
     GetDescriptorType d = StaticBuffer /\ static_size d = size /\ static_buffer_id d = id) /\
  (forall size id ro, 0 <= size < 0x1000000 -> 0 <= id < 16 ->
     GetDescriptorType (PXIBufferDesc size id ro) = PXIBuffer) /\
  (forall size perms, 0 <= size < 0x10000000 -> 0 <= perms <= RW ->
     let d := MappedBufferDesc size perms in
     GetDescriptorType d = MappedBuffer /\ mapped_size d = size /\ mapped_perms d = perms).
Proof.
  split_and!.
  - intros cid n t Hc Hn Ht. unfold MakeHeader, command_id, normal_params_size, translate_params_size.
    cbv zeta. split_and!; [apply Assign_u32|by fields..].
  - intros n Hn. unfold MoveHandleDesc, CopyHandleDesc.
    rewrite (handle_desc_value MoveHandle), (handle_desc_value CopyHandle) by auto.
    rewrite !handle_desc_type, !handle_desc_number by auto. done.
  - done.
  - intros size id Hs Hi. unfold MAX_STATIC_BUFFERS in Hi. unfold StaticBufferDesc. cbv zeta.
    rewrite u32_small by (unfold is_u32; lia). unfold static_size, static_buffer_id.
    split_and!; [|by fields..]. apply (GetDescriptorType_low _ StaticBuffer); fields; done.
  - intros size id ro Hs Hi. transitivity (GetDescriptorType (if ro then 6 else 4)); [|by destruct ro].
    apply GetDescriptorType_low; rewrite pxi_low by lia; by destruct ro.
  - intros size perms Hs Hp. change RW with 3 in Hp. unfold MappedBufferDesc. cbv zeta.
    rewrite u32_small by (unfold is_u32; lia). unfold mapped_size, mapped_perms.
    split_and!; [|by fields..].
    transitivity (GetDescriptorType (Assign 1 2 (Assign 0 4 0 MappedBuffer) perms)).
    + assert (Hc : perms = 0 \/ perms = 1 \/ perms = 2 \/ perms = 3) by lia.
      apply GetDescriptorType_low; rewrite field_Assign_other by (unfold field_ok; lia); [done|].
      by destruct Hc as [-> |[-> |[-> | ->]]].
    + assert (Hc : perms = 0 \/ perms = 1 \/ perms = 2 \/ perms = 3) by lia.
      by destruct Hc as [-> |[-> |[-> | ->]]].
Qed.

(** ** Commands *)

(** A translate parameter: a descriptor and its words. *)
Record tparam := mkParam { descriptor : Z; payload : list Z }.

Definition param_ok (p : tparam) : Prop :=
  is_u32 (descriptor p) /\ length (payload p) = descriptor_words (descriptor p).

Definition encode (ps : list tparam) : list Z := ps ≫= fun p => descriptor p :: payload p.

(** The words of a command whose header announces them. *)
Record is_command (header : Z) (normal : list Z) (ps : list tparam) : Prop := {
  cmd_normal : normal_params_size header = Z.of_nat (length normal);
  cmd_translate : translate_params_size header = Z.of_nat (length (encode ps));
  cmd_params : Forall param_ok ps;
  cmd_length : 1 + Z.of_nat (length normal) + Z.of_nat (length (encode ps)) <= COMMAND_BUFFER_LENGTH
}.

Definition command_words (header : Z) (normal : list Z) (ps : list tparam) : list Z :=
  header :: normal ++ encode ps.

Lemma encode_cons p ps : encode (p :: ps) = descriptor p :: payload p ++ encode ps.
Proof. done. Qed.

Lemma encode_app ps qs : encode (ps ++ qs) = encode ps ++ encode qs.
Proof. apply bind_app. Qed.

Lemma descriptor_words_pos d : is_u32 d -> (1 <= descriptor_words d <= 64)%nat.
Proof.
  intros Hd. unfold descriptor_words. pose proof (HandleNumber_range d Hd).
  destruct (_ || _); lia.
Qed.

(** ** The memory of a guest

    What the IPC code uses of the memory system: block transfers through the page
    table of a process.  [ReadBlock] fills the whole buffer it is given. *)
Class GuestMemory (PageTable : Type) := {
  ReadBlock : PageTable -> (Z -> Z) -> Z -> Z -> list Z;
  WriteBlock : PageTable -> (Z -> Z) -> Z -> list Z -> (Z -> Z);
  (** [CopyBlock(dest_process, src_process, dest, src, size)] *)
  CopyBlock : PageTable -> PageTable -> (Z -> Z) -> Z -> Z -> Z -> (Z -> Z)
}.

Class GuestMemoryLaws (PageTable : Type) `{!GuestMemory PageTable} := {
  length_ReadBlock pt h a n : 0 <= n -> length (ReadBlock pt h a n) = Z.to_nat n
}.
