(* ===== verification/HleIpc.v ===== *)
(** * HleIpc: requests to the services of the emulator (core/hle/kernel/hle_ipc.cpp, hle_ipc.h, core/hle/ipc_helpers.h)

    [HLERequestContext] holds a request while a service handles it.
    [PopulateFromIncomingCommandBuffer] takes it from the command buffer of the
    guest, [RequestParser] reads it, [RequestBuilder] writes the reply into the
    same buffer, and [WriteToOutgoingCommandBuffer] hands it back to the guest.
    An access outside an array, undefined in C++, is [Aborted]. *)
From S2P Require Import Prelude BitField Result HandleTable Ipc.

Local Open Scope Z_scope.

(** ** Arrays of words *)

Definition load {S} (l : list Z) (i : Z) : op S Z := fun s =>
  match l !! Z.to_nat i with
  | Some w => Done s w
  | None => Aborted
  end.

(** A check that has no message: an index outside its array. *)
Definition in_range {S} (i : Z) (n : nat) : op S unit := assert_ (i <? Z.of_nat n).

(** An operation on a part of the state. *)
Definition on_fst {S T A} (m : op S A) : op (S * T) A := fun s =>
  match m s.1 with
  | Done x a => Done (x, s.2) a
  | Failed x rc => Failed (x, s.2) rc
  | Aborted => Aborted
  end.

Definition on_snd {S T A} (m : op T A) : op (S * T) A := fun s =>
  match m s.2 with
  | Done x a => Done (s.1, x) a
  | Failed x rc => Failed (s.1, x) rc
  | Aborted => Aborted
  end.

(** A call whose [Result] is dropped. *)
Definition dropping {S A} (m : op S A) : op S unit := fun s =>
  match m s with
  | Done s' _ => Done s' tt
  | Failed s' _ => Done s' tt
  | Aborted => Aborted
  end.

(** [R_ASSERT]: an error is a failing assertion. *)
Definition R_ASSERT {S A} (m : op S A) : op S A := fun s =>
  match m s with
  | Done s' a => Done s' a
  | Failed _ _ | Aborted => Aborted
  end.

Section HleIpc.
(** Kernel objects, and the host pages of a process. *)
Context {Object : Type} {PageTable : Type} `{!GuestMemory PageTable}.

(** ** The request context *)

Record MappedBuffer := mkMapped {
  mb_id : Z;
  mb_address : Z;
  mb_size : Z;
  mb_perms : Z
}.

Record HLERequestContext := mkContext {
  cmd_buf : list Z;
  request_handles : list (option Object);
  static_buffers : list (list Z);
  request_mapped_buffers : list MappedBuffer
}.

(** The constructor; the words of [cmd_buf] but the first are not initialised. *)
Definition new_context (uninitialised : list Z) : HLERequestContext :=
  mkContext (<[0%nat := 0]> uninitialised) [] (replicate (Z.to_nat MAX_STATIC_BUFFERS) []) [].

Definition store (i v : Z) : op HLERequestContext unit :=
  (c <- get ;;
   in_range i (length (cmd_buf c)) ;;
   put (mkContext (<[Z.to_nat i := v]> (cmd_buf c)) (request_handles c) (static_buffers c)
          (request_mapped_buffers c)))%hle.

Definition CommandHeader (c : HLERequestContext) : Z := nth 0 (cmd_buf c) 0.

Definition CommandID (c : HLERequestContext) : Z := u16 (command_id (CommandHeader c)).

Definition GetIncomingHandle (id_from_cmdbuf : Z) : op HLERequestContext (option Object) :=
  (c <- get ;;
   assert_ (id_from_cmdbuf <? Z.of_nat (length (request_handles c))) ;;
   ret (default None (request_handles c !! Z.to_nat id_from_cmdbuf)))%hle.

Definition AddOutgoingHandle (object : option Object) : op HLERequestContext Z :=
  (c <- get ;;
   put (mkContext (cmd_buf c) (request_handles c ++ [object]) (static_buffers c)
          (request_mapped_buffers c)) ;;
   c <- get ;;
   ret (u32 (Z.of_nat (length (request_handles c)) - 1)))%hle.

Definition ClearIncomingObjects : op HLERequestContext unit :=
  (c <- get ;;
   put (mkContext (cmd_buf c) [] (static_buffers c) (request_mapped_buffers c)))%hle.

Definition GetStaticBuffer (buffer_id : Z) : op HLERequestContext (list Z) := fun c =>
  match static_buffers c !! Z.to_nat buffer_id with
  | Some data => Done c data
  | None => Aborted
  end.

Definition AddStaticBuffer (buffer_id : Z) (data : list Z) : op HLERequestContext unit :=
  (c <- get ;;
   in_range buffer_id (length (static_buffers c)) ;;
   put (mkContext (cmd_buf c) (request_handles c) (<[Z.to_nat buffer_id := data]> (static_buffers c))
          (request_mapped_buffers c)))%hle.

Definition GetMappedBuffer (id_from_cmdbuf : Z) : op HLERequestContext MappedBuffer := fun c =>
  match request_mapped_buffers c !! Z.to_nat id_from_cmdbuf with
  | Some b => Done c b
  | None => Aborted
  end.

(** [request_mapped_buffers.emplace_back(memory, process, descriptor, address, id)] *)
Definition add_mapped_buffer (descriptor address : Z) : op HLERequestContext Z :=
  (c <- get ;;
   let next_id := u32 (Z.of_nat (length (request_mapped_buffers c))) in
   put (mkContext (cmd_buf c) (request_handles c) (static_buffers c)
          (request_mapped_buffers c ++
             [mkMapped next_id address (mapped_size descriptor) (mapped_perms descriptor)])) ;;
   ret next_id)%hle.

(** ** Mapped buffers *)

Definition GenerateDescriptor (b : MappedBuffer) : Z := MappedBufferDesc (mb_size b) (mb_perms b).

Definition Read (page_table : PageTable) (host : Z -> Z) (offset n : Z) (b : MappedBuffer)
    : option (list Z) :=
  if negb (Z.land (mb_perms b) R =? 0) && (u64 (offset + n) <=? mb_size b) then
    Some (ReadBlock page_table host (u32 (mb_address b + u32 offset)) n)
  else None.

Definition Write (page_table : PageTable) (host : Z -> Z) (data : list Z) (offset : Z) (b : MappedBuffer)
    : option (Z -> Z) :=
  if negb (Z.land (mb_perms b) W =? 0) && (u64 (offset + Z.of_nat (length data)) <=? mb_size b) then
    Some (WriteBlock page_table host (u32 (mb_address b + u32 offset)) data)
  else None.

(** ** From the guest *)

(** What the methods use of the process: the thread and process of the kernel (for
    pseudo-handles), its id, its pages. *)
Variables (current_thread current_process : option Object) (process_id : Z) (page_table : PageTable).

Definition Table : Type := @HandleTable Object.

Section Incoming.
(** The host memory, only read here, and the command buffer of the guest. *)
Variables (host : Z -> Z) (src_cmdbuf : list Z).

Definition Incoming : Type := HLERequestContext * Table.

(** One handle of a handle descriptor; the value stored in its place. *)
Definition incoming_handle (descriptor handle : Z) : op Incoming Z :=
  (object <- (if handle =? 0 then ret None
              else (s <- get ;;
                    let object := GetGeneric current_thread current_process s.2 handle in
                    assert_ (bool_decide (is_Some object)) ;;
                    (if descriptor =? MoveHandle then dropping (on_snd (Close handle)) else ret tt) ;;
                    ret object)) ;;
   on_fst (AddOutgoingHandle object))%hle.

Fixpoint incoming_handles (descriptor : Z) (n : nat) (i : Z) : op Incoming Z :=
  match n with
  | O => ret i
  | S n =>
      (handle <- load src_cmdbuf i ;;
       v <- incoming_handle descriptor handle ;;
       on_fst (store i v) ;;
       incoming_handles descriptor n (i + 1))%hle
  end.

(** The body of the loop: the parameter at [i]; returns the index after it. *)
Definition incoming_param (command_size i : Z) : op Incoming Z :=
  (descriptor <- load src_cmdbuf i ;;
   on_fst (store i descriptor) ;;
   let i := i + 1 in
   let type := GetDescriptorType descriptor in
   if (type =? CopyHandle) || (type =? MoveHandle) then
     let num_handles := HandleNumberFromDesc descriptor in
     assert_ (i + num_handles <=? command_size) ;;
     incoming_handles descriptor (Z.to_nat num_handles) i
   else if type =? CallingPid then
     on_fst (store i process_id) ;;
     ret (i + 1)
   else if type =? StaticBuffer then
     source_address <- load src_cmdbuf i ;;
     let data := ReadBlock page_table host source_address (static_size descriptor) in
     on_fst (AddStaticBuffer (static_buffer_id descriptor) data) ;;
     on_fst (store i source_address) ;;
     ret (i + 1)
   else if type =? Ipc.MappedBuffer then
     address <- load src_cmdbuf i ;;
     next_id <- on_fst (add_mapped_buffer descriptor address) ;;
     on_fst (store i next_id) ;;
     ret (i + 1)
   else (* UNIMPLEMENTED_MSG *) assert_ false ;; ret i)%hle.

(** [while (i < command_size)]; every parameter has at least one word. *)
Fixpoint incoming_loop (fuel : nat) (command_size i : Z) : op Incoming unit :=
  match fuel with
  | O => fun _ => Aborted
  | S fuel =>
      if i <? command_size then
        (i <- incoming_param command_size i ;; incoming_loop fuel command_size i)%hle
      else ret tt
  end.

(** [std::copy_n(src_cmdbuf, n, cmd_buf.begin())] *)
Definition copy_in (n : Z) : op HLERequestContext unit :=
  (c <- get ;;
   put (mkContext (take (Z.to_nat n) src_cmdbuf ++ drop (Z.to_nat n) (cmd_buf c))
          (request_handles c) (static_buffers c) (request_mapped_buffers c)))%hle.

Definition PopulateFromIncomingCommandBuffer : op Incoming unit :=
  (header <- load src_cmdbuf 0 ;;
   let untranslated_size := 1 + normal_params_size header in
   let command_size := untranslated_size + translate_params_size header in
   assert_ (command_size <=? COMMAND_BUFFER_LENGTH) ;;
   on_fst (copy_in untranslated_size) ;;
   incoming_loop (S (Z.to_nat command_size)) command_size untranslated_size)%hle.
End Incoming.

(** ** To the guest *)

Record Outgoing := mkOutgoing {
  dst_cmdbuf : list Z;
  dst_table : Table;
  dst_host : Z -> Z
}.

Definition store_out (i v : Z) : op Outgoing unit :=
  (s <- get ;;
   in_range i (length (dst_cmdbuf s)) ;;
   put (mkOutgoing (<[Z.to_nat i := v]> (dst_cmdbuf s)) (dst_table s) (dst_host s)))%hle.

(** [R_ASSERT(dst_process.handle_table.Create(&handle, object))] *)
Definition create_handle (object : option Object) : op Outgoing Z := fun s =>
  match Create object (dst_table s) with
  | Done t h => Done (mkOutgoing (dst_cmdbuf s) t (dst_host s)) h
  | Failed _ _ | Aborted => Aborted
  end.

Definition write_guest (address : Z) (data : list Z) : op Outgoing unit :=
  (s <- get ;;
   put (mkOutgoing (dst_cmdbuf s) (dst_table s) (WriteBlock page_table (dst_host s) address data)))%hle.

Section Outgoing.
Variable c : HLERequestContext.

(** A [const] method of the context. *)
Definition reading {A} (m : op HLERequestContext A) : op Outgoing A := fun s =>
  match m c with
  | Done _ a => Done s a
  | Failed _ _ | Aborted => Aborted
  end.

Fixpoint outgoing_handles (n : nat) (i : Z) : op Outgoing Z :=
  match n with
  | O => ret i
  | S n =>
      (handle_id <- load (cmd_buf c) i ;;
       object <- reading (GetIncomingHandle handle_id) ;;
       handle <- (if bool_decide (is_Some object) then create_handle object else ret 0) ;;
       store_out i handle ;;
       outgoing_handles n (i + 1))%hle
  end.

Definition outgoing_param (command_size i : Z) : op Outgoing Z :=
  (descriptor <- load (cmd_buf c) i ;;
   store_out i descriptor ;;
   let i := i + 1 in
   let type := GetDescriptorType descriptor in
   if (type =? CopyHandle) || (type =? MoveHandle) then
     let num_handles := HandleNumberFromDesc descriptor in
     assert_ (i + num_handles <=? command_size) ;;
     outgoing_handles (Z.to_nat num_handles) i
   else if type =? StaticBuffer then
     data <- reading (GetStaticBuffer (static_buffer_id descriptor)) ;;
     let static_buffer_offset := COMMAND_BUFFER_LENGTH + 2 * static_buffer_id descriptor in
     s <- get ;;
     target_descriptor <- load (dst_cmdbuf s) static_buffer_offset ;;
     target_address <- load (dst_cmdbuf s) (static_buffer_offset + 1) ;;
     assert_ (Z.of_nat (length data) <=? static_size target_descriptor) ;;
     write_guest target_address data ;;
     store_out i target_address ;;
     ret (i + 1)
   else if type =? Ipc.MappedBuffer then
     buffer_id <- load (cmd_buf c) i ;;
     buffer <- reading (GetMappedBuffer buffer_id) ;;
     store_out i (mb_address buffer) ;;
     ret (i + 1)
   else (* UNIMPLEMENTED_MSG *) assert_ false ;; ret i)%hle.

Fixpoint outgoing_loop (fuel : nat) (command_size i : Z) : op Outgoing unit :=
  match fuel with
  | O => fun _ => Aborted
  | S fuel =>
      if i <? command_size then
        (i <- outgoing_param command_size i ;; outgoing_loop fuel command_size i)%hle
      else ret tt
  end.

Definition copy_out (n : Z) : op Outgoing unit :=
  (s <- get ;;
   in_range (n - 1) (length (dst_cmdbuf s)) ;;
   put (mkOutgoing (take (Z.to_nat n) (cmd_buf c) ++ drop (Z.to_nat n) (dst_cmdbuf s))
          (dst_table s) (dst_host s)))%hle.

Definition WriteToOutgoingCommandBuffer : op Outgoing unit :=
  (header <- load (cmd_buf c) 0 ;;
   let untranslated_size := 1 + normal_params_size header in
   let command_size := untranslated_size + translate_params_size header in
   assert_ (command_size <=? COMMAND_BUFFER_LENGTH) ;;
   copy_out untranslated_size ;;
   outgoing_loop (S (Z.to_nat command_size)) command_size untranslated_size)%hle.
End Outgoing.

(** ** The helpers of the services

    A parser and the builder it makes work on the same context; [Cursor] is what is
    their own. *)
Record Cursor := mkCursor { index : Z; header : Z }.

Definition Helper : Type := HLERequestContext * Cursor.

Definition TotalSize (k : Cursor) : Z :=
  1 + normal_params_size (header k) + translate_params_size (header k).

(** [DEBUG_ASSERT] is [ASSERT] in common/assert.h. *)
Definition ValidateHeader : op Helper unit :=
  (s <- get ;; assert_ (index s.2 =? TotalSize s.2))%hle.

Definition advance (n : Z) : op Helper unit :=
  on_snd (fun k => Done (mkCursor (index k + n) (header k)) tt).

Definition set_words (i : Z) (ws : list Z) : op HLERequestContext unit :=
  (c <- get ;;
   in_range (i + Z.of_nat (length ws) - 1) (length (cmd_buf c)) ;;
   put (mkContext (take (Z.to_nat i) (cmd_buf c) ++ ws ++
                   drop (Z.to_nat i + length ws)%nat (cmd_buf c))
          (request_handles c) (static_buffers c) (request_mapped_buffers c)))%hle.

Definition Skip (size_in_words : Z) (set_to_null : bool) : op Helper unit :=
  ((if set_to_null then
      s <- get ;; on_fst (set_words (index s.2) (replicate (Z.to_nat size_in_words) 0))
    else ret tt) ;;
   advance size_in_words)%hle.

(** ** RequestBuilder *)

(** The constructor. *)
Definition RequestBuilder (command_header : Z) : op HLERequestContext Cursor :=
  (ClearIncomingObjects ;;
   store 0 command_header ;;
   ret (mkCursor 1 command_header))%hle.

Definition Push_u32 (value : Z) : op Helper unit :=
  (s <- get ;;
   on_fst (store (index s.2) value) ;;
   advance 1)%hle.

(** [memcpy(cmdbuf + index, bytes)]: a last word that is only partly written keeps
    its other bytes. *)
Fixpoint overlay (bytes : list Z) (n : nat) (ws : list Z) : list Z :=
  match n, ws with
  | S n, w :: ws =>
      le_value (take 4 bytes ++ drop (length bytes) (le32 w)) :: overlay (drop 4 bytes) n ws
  | _, _ => []
  end.

(** [(sizeof(T) + 3) / 4] *)
Definition raw_words (size : nat) : nat := (size + 3) / 4.

Definition PushRaw (bytes : list Z) : op Helper unit :=
  (s <- get ;;
   let n := raw_words (length bytes) in
   in_range (index s.2 + Z.of_nat n - 1) (length (cmd_buf s.1)) ;;
   on_fst (set_words (index s.2) (overlay bytes n (drop (Z.to_nat (index s.2)) (cmd_buf s.1)))) ;;
   advance (Z.of_nat n))%hle.

(** The values that services push and pop, with their specialisations. *)
Inductive value :=
  | U8 (v : Z) | U16 (v : Z) | U32 (v : Z) | S32 (v : Z) | U64 (v : Z) | Bool (v : bool)
  | ResultCode (raw : Z) | Raw (bytes : list Z).

Definition Push (v : value) : op Helper unit :=
  match v with
  | U8 v => PushRaw [v]
  | U16 v => PushRaw [v mod 256; v / 256]
  | U32 v => Push_u32 v
  | S32 v => Push_u32 (u32 v)
  | U64 v => (Push_u32 (u32 v) ;; Push_u32 (u32 (Z.shiftr v 32)))%hle
  | Bool v => PushRaw [Z.b2z v]
  | ResultCode raw => Push_u32 raw
  | Raw bytes => PushRaw bytes
  end.

Fixpoint push_words (ws : list Z) : op Helper unit :=
  match ws with
  | [] => ret tt
  | w :: ws => (Push_u32 w ;; push_words ws)%hle
  end.

(** [context->AddOutgoingHandle(pointers)...] *)
Fixpoint add_handles (objects : list (option Object)) : op HLERequestContext (list Z) :=
  match objects with
  | [] => ret []
  | object :: objects =>
      (i <- AddOutgoingHandle object ;; l <- add_handles objects ;; ret (i :: l))%hle
  end.

Definition PushCopyObjects (objects : list (option Object)) : op Helper unit :=
  (handles <- on_fst (add_handles objects) ;;
   Push_u32 (CopyHandleDesc (Z.of_nat (length handles))) ;;
   push_words handles)%hle.

Definition PushMoveObjects (objects : list (option Object)) : op Helper unit :=
  (handles <- on_fst (add_handles objects) ;;
   Push_u32 (MoveHandleDesc (Z.of_nat (length handles))) ;;
   push_words handles)%hle.

Definition PushStaticBuffer (buffer : list Z) (buffer_id : Z) : op Helper unit :=
  (assert_ (buffer_id <? MAX_STATIC_BUFFERS) ;;
   Push_u32 (StaticBufferDesc (Z.of_nat (length buffer)) buffer_id) ;;
   Push_u32 0xDEADC0DE ;;
   on_fst (AddStaticBuffer buffer_id buffer))%hle.

Definition PushMappedBuffer (b : MappedBuffer) : op Helper unit :=
  (Push_u32 (GenerateDescriptor b) ;;
   Push_u32 (mb_id b))%hle.

(** ** RequestParser *)

Definition RequestParser (c : HLERequestContext) : Cursor := mkCursor 1 (CommandHeader c).

Definition MakeBuilder (normal_params_size translate_params_size : Z) (validateHeader : bool)
    : op Helper Cursor :=
  ((if validateHeader then ValidateHeader else ret tt) ;;
   s <- get ;;
   on_fst (RequestBuilder (MakeHeader (u16 (command_id (header s.2))) normal_params_size
                             translate_params_size)))%hle.

Definition Pop_u32 : op Helper Z :=
  (s <- get ;;
   v <- load (cmd_buf s.1) (index s.2) ;;
   advance 1 ;;
   ret v)%hle.

Definition PopRaw (size : nat) : op Helper (list Z) :=
  (s <- get ;;
   let n := Z.of_nat (raw_words size) in
   in_range (index s.2 + n - 1) (length (cmd_buf s.1)) ;;
   advance n ;;
   ret (take size (words_bytes (drop (Z.to_nat (index s.2)) (cmd_buf s.1)))))%hle.

Inductive value_type := TU8 | TU16 | TU32 | TS32 | TU64 | TBool | TResult | TRaw (size : nat).

Definition Pop (t : value_type) : op Helper value :=
  match t with
  | TU8 => (b <- PopRaw 1 ;; ret (U8 (le_value b)))%hle
  | TU16 => (b <- PopRaw 2 ;; ret (U16 (le_value b)))%hle
  | TU32 => (v <- Pop_u32 ;; ret (U32 v))%hle
  | TS32 => (b <- PopRaw 4 ;; ret (S32 (s32 (le_value b))))%hle
  | TU64 => (lsw <- Pop_u32 ;; msw <- Pop_u32 ;; ret (U64 (Z.lor (u64 (Z.shiftl msw 32)) lsw)))%hle
  | TBool => (b <- PopRaw 1 ;; ret (Bool (negb (le_value b =? 0))))%hle
  | TResult => (v <- Pop_u32 ;; ret (ResultCode v))%hle
  | TRaw size => (b <- PopRaw size ;; ret (Raw b))%hle
  end.

Fixpoint pop_words (n : nat) : op Helper (list Z) :=
  match n with
  | O => ret []
  | S n => (w <- Pop_u32 ;; ws <- pop_words n ;; ret (w :: ws))%hle
  end.

Definition PopHLEHandles (n : nat) : op Helper (list Z) :=
  (handle_descriptor <- Pop_u32 ;;
   assert_ (IsHandleDescriptor handle_descriptor) ;;
   assert_ (Z.of_nat n =? HandleNumberFromDesc handle_descriptor) ;;
   pop_words n)%hle.

Fixpoint get_objects (handles : list Z) : op HLERequestContext (list (option Object)) :=
  match handles with
  | [] => ret []
  | h :: handles => (o <- GetIncomingHandle h ;; os <- get_objects handles ;; ret (o :: os))%hle
  end.

Definition PopGenericObjects (n : nat) : op Helper (list (option Object)) :=
  (handles <- PopHLEHandles n ;; on_fst (get_objects handles))%hle.

Definition PopPID : op Helper Z :=
  (d <- Pop_u32 ;; assert_ (d =? CallingPid) ;; Pop_u32)%hle.

Definition PopStaticBuffer : op Helper (list Z) :=
  (sbuffer_descriptor <- Pop_u32 ;;
   Pop_u32 ;;
   on_fst (GetStaticBuffer (u8 (static_buffer_id sbuffer_descriptor))))%hle.

Definition PopMappedBuffer : op Helper MappedBuffer :=
  (mapped_buffer_descriptor <- Pop_u32 ;;
   assert_ (GetDescriptorType mapped_buffer_descriptor =? Ipc.MappedBuffer) ;;
   buffer_id <- Pop_u32 ;;
   on_fst (GetMappedBuffer buffer_id))%hle.
End HleIpc.
