(* ===== verification/HleIpcValues.v ===== *)
(** * HleIpcValues: what a service pushes is what it would pop

    The command buffer as a list of words: a push writes the words of a value at
    the cursor, a pop reads them back, and the two agree on every type of value. *)
From S2P Require Import Prelude BitField Result HandleTable Ipc HleIpc.

Local Open Scope Z_scope.

(** ** Parts of a list *)

(** The words from [i] on replaced. *)
Definition splice (i : nat) (ws l : list Z) : list Z := take i l ++ ws ++ drop (i + length ws) l.

Lemma length_splice i ws l : (i + length ws <= length l)%nat -> length (splice i ws l) = length l.
Proof. intros H. unfold splice. rewrite !length_app, length_take, length_drop. lia. Qed.

Lemma splice_nil i l : splice i [] l = l.
Proof. unfold splice. simpl. by rewrite Nat.add_0_r, take_drop. Qed.

Lemma splice_insert i v l : (i < length l)%nat -> <[i := v]> l = splice i [v] l.
Proof. intros H. unfold splice. rewrite insert_take_drop by done. simpl. by rewrite Nat.add_1_r. Qed.

Lemma splice_app i ws1 ws2 l :
  (i + length ws1 <= length l)%nat ->
  splice (i + length ws1) ws2 (splice i ws1 l) = splice i (ws1 ++ ws2) l.
Proof.
  intros H. assert (Hl : length (take i l ++ ws1) = (i + length ws1)%nat)
    by (rewrite length_app, length_take; lia).
  unfold splice. rewrite (app_assoc (take i l) ws1), <-Hl, take_app_length, <-(drop_drop _ (length ws2) (length (take i l ++ ws1))),
    drop_app_length, drop_drop.
  rewrite Hl, length_app, <-!app_assoc. do 4 f_equal. lia.
Qed.

Lemma drop_splice i ws l :
  (i <= length l)%nat -> drop i (splice i ws l) = ws ++ drop (i + length ws) l.
Proof.
  intros H. unfold splice. assert (Hl : length (take i l) = i) by (rewrite length_take; lia).
  rewrite <-Hl at 1. apply drop_app_length.
Qed.

Lemma drop_app_next {A} i (l ws rest : list A) :
  drop i l = ws ++ rest -> drop (i + length ws) l = rest.
Proof. intros H. by rewrite <-drop_drop, H, drop_app_length. Qed.

Lemma drop_le_length {A} i (l ws rest : list A) :
  drop i l = ws ++ rest -> (i <= length l)%nat -> (i + length ws <= length l)%nat.
Proof. intros H Hi. apply (f_equal length) in H. rewrite length_drop, length_app in H. lia. Qed.

(** ** Bytes of words *)

Lemma le32_bytes v : Forall is_u8 (le32 v).
Proof. unfold le32. repeat constructor; unfold is_u8; zlia. Qed.

Lemma le32_le_value a b c d :
  is_u8 a -> is_u8 b -> is_u8 c -> is_u8 d -> le32 (le_value [a; b; c; d]) = [a; b; c; d].
Proof.
  unfold is_u8. intros Ha Hb Hc Hd. unfold le32. cbn [le_value].
  change (2 ^ 8) with 256. change (2 ^ 16) with 65536. change (2 ^ 24) with 16777216.
  do 4 (f_equal; try zlia).
Qed.

Lemma le32_of_bytes bs : length bs = 4%nat -> Forall is_u8 bs -> le32 (le_value bs) = bs.
Proof.
  intros Hl Hb. destruct bs as [|a [|b [|c [|d [|]]]]]; try done.
  rewrite !Forall_cons in Hb. destruct Hb as (? & ? & ? & ? & _). by apply le32_le_value.
Qed.

Lemma le_value_range bs : Forall is_u8 bs -> 0 <= le_value bs < 256 ^ Z.of_nat (length bs).
Proof.
  induction 1 as [|b bs Hb _ IH]; [simpl; lia|]. cbn [le_value length].
  rewrite Nat2Z.inj_succ, Z.pow_succ_r by lia. unfold is_u8 in Hb. nia.
Qed.

Lemma overlay_bytes bytes n ws :
  Forall is_u8 bytes -> (length bytes <= 4 * n)%nat -> (n <= length ws)%nat ->
  length (overlay bytes n ws) = n /\ take (length bytes) (words_bytes (overlay bytes n ws)) = bytes.
Proof.
  revert bytes ws. induction n as [|n IH]; intros bytes ws Hb Hl Hn.
  { destruct bytes; [done|simpl in Hl; lia]. }
  destruct ws as [|w ws]; [simpl in Hn; lia|]. cbn [overlay length] in *.
  destruct (IH (drop 4 bytes) ws) as [Hl' Ht]; [by apply Forall_drop|rewrite length_drop; lia|lia|].
  split; [by rewrite Hl'|]. rewrite words_bytes_cons, le32_of_bytes.
  - destruct (Nat.le_gt_cases (length bytes) 4).
    + rewrite (take_ge bytes 4) by lia. by rewrite <-app_assoc, take_app_length.
    + rewrite (drop_ge (le32 w)) by (simpl; lia). rewrite app_nil_r.
      rewrite take_app_ge by (rewrite length_take; lia).
      rewrite length_take, Nat.min_l by lia. rewrite length_drop in Ht. rewrite Ht.
      apply take_drop.
  - rewrite length_app, length_take, length_drop. change (length (le32 w)) with 4%nat. lia.
  - apply Forall_app. split; [by apply Forall_take|]. apply Forall_drop, le32_bytes.
Qed.

Lemma raw_words_bounds n : (n <= 4 * raw_words n <= n + 3)%nat.
Proof.
  unfold raw_words. pose proof (Nat.div_mod (n + 3) 4 ltac:(lia)).
  pose proof (Nat.mod_upper_bound (n + 3) 4 ltac:(lia)). lia.
Qed.

Section Values.
Context {Object PageTable : Type} `{!GuestMemory PageTable}.

Definition with_buf (b : list Z) (c : HLERequestContext (Object := Object)) : HLERequestContext :=
  mkContext b (request_handles c) (static_buffers c) (request_mapped_buffers c).

Lemma with_buf_with_buf b b' c : with_buf b (with_buf b' c) = with_buf b c.
Proof. done. Qed.

Lemma with_buf_same c : with_buf (cmd_buf c) c = c.
Proof. by destruct c. Qed.

Definition moved (n : nat) (k : Cursor) : Cursor := mkCursor (index k + Z.of_nat n) (header k).

Lemma moved_moved n m k : moved n (moved m k) = moved (m + n) k.
Proof. unfold moved. simpl. f_equal. lia. Qed.

(** The words [ws] are next for the cursor. *)
Definition next_words (c : HLERequestContext (Object := Object)) (k : Cursor) (ws : list Z) : Prop :=
  0 <= index k <= Z.of_nat (length (cmd_buf c)) /\
  exists rest, drop (Z.to_nat (index k)) (cmd_buf c) = ws ++ rest.

Lemma next_words_app c k ws1 ws2 :
  next_words c k (ws1 ++ ws2) -> next_words c k ws1 /\ next_words c (moved (length ws1) k) ws2.
Proof.
  intros [Hi (rest & Hr)]. rewrite <-app_assoc in Hr. split; [split; [done|by eexists]|].
  pose proof (drop_le_length _ _ _ _ Hr ltac:(lia)) as Hl.
  split; [unfold moved; simpl; lia|]. exists rest. unfold moved. cbn [index].
  rewrite Z2Nat.inj_add, Nat2Z.id by lia. by apply drop_app_next in Hr.
Qed.

(** Room for [n] words. *)
Definition room (c : HLERequestContext (Object := Object)) (k : Cursor) (n : nat) : Prop :=
  0 <= index k /\ index k + Z.of_nat n <= Z.of_nat (length (cmd_buf c)).

Definition wrote (ws : list Z) (c : HLERequestContext (Object := Object)) (k : Cursor)
    : HLERequestContext :=
  with_buf (splice (Z.to_nat (index k)) ws (cmd_buf c)) c.

Lemma wrote_app ws1 ws2 c k : room c k (length ws1) ->
  wrote ws2 (wrote ws1 c k) (moved (length ws1) k) = wrote (ws1 ++ ws2) c k.
Proof.
  intros [H1 H2]. unfold wrote, moved. cbn [with_buf cmd_buf index].
  rewrite Z2Nat.inj_add, Nat2Z.id by lia. rewrite splice_app by lia. done.
Qed.

Lemma room_wrote ws n c k :
  room c k (length ws + n) -> room (wrote ws c k) (moved (length ws) k) n.
Proof.
  intros [H1 H2]. unfold room, wrote, moved. cbn [with_buf cmd_buf index].
  rewrite length_splice by lia. lia.
Qed.

Lemma wrote_next ws c k : room c k (length ws) -> next_words (wrote ws c k) k ws.
Proof.
  intros [H1 H2]. split; cbn [wrote with_buf cmd_buf].
  - rewrite length_splice by lia. lia.
  - eexists. apply drop_splice. lia.
Qed.

(** ** Pops *)

Lemma Pop_u32_run c k w : next_words c k [w] -> Pop_u32 (c, k) = Done (c, moved 1 k) w.
Proof.
  intros [Hi (rest & Hr)]. unfold Pop_u32. rewrite bind_get. unfold load. cbn [fst snd].
  assert (E : cmd_buf c !! Z.to_nat (index k) = Some w).
  { rewrite <-(Nat.add_0_r (Z.to_nat _)), <-lookup_drop, Hr. done. }
  unfold bind at 1. rewrite E. reflexivity.
Qed.

Lemma pop_words_run c k ws : next_words c k ws ->
  pop_words (length ws) (c, k) = Done (c, moved (length ws) k) ws.
Proof.
  revert k. induction ws as [|w ws IH]; intros k H.
  { simpl. unfold ret, moved. destruct k. simpl. by rewrite Z.add_0_r. }
  apply (next_words_app c k [w] ws) in H as [H1 H2]. cbn [pop_words length].
  erewrite bind_Done by (by apply Pop_u32_run). erewrite bind_Done by (by apply IH).
  unfold ret. by rewrite moved_moved.
Qed.

Lemma PopRaw_run c k n ws :
  next_words c k ws -> length ws = raw_words n ->
  PopRaw n (c, k) = Done (c, moved (length ws) k) (take n (words_bytes ws)).
Proof.
  intros [Hi (rest & Hr)] Hl. unfold PopRaw. rewrite bind_get. cbn [fst snd].
  pose proof (drop_le_length _ _ _ _ Hr ltac:(lia)) as Hlen. pose proof (raw_words_bounds n) as Hb.
  unfold in_range. erewrite bind_Done by (unfold assert_; rewrite (proj2 (Z.ltb_lt _ _)) by lia; done).
  unfold advance, on_snd, bind, ret. cbn [fst snd]. rewrite Hr, words_bytes_app, take_app_le.
  - by rewrite Hl.
  - rewrite length_words_bytes. lia.
Qed.

(** The words of a value of each type, and the value that they hold. *)
Definition type_words (t : value_type) : nat :=
  match t with
  | TU64 => 2
  | TRaw n => raw_words n
  | _ => 1
  end.

Definition decode (t : value_type) (ws : list Z) : value :=
  match t with
  | TU8 => U8 (le_value (take 1 (words_bytes ws)))
  | TU16 => U16 (le_value (take 2 (words_bytes ws)))
  | TU32 => U32 (nth 0 ws 0)
  | TS32 => S32 (s32 (le_value (take 4 (words_bytes ws))))
  | TU64 => U64 (Z.lor (u64 (Z.shiftl (nth 1 ws 0) 32)) (nth 0 ws 0))
  | TBool => Bool (negb (le_value (take 1 (words_bytes ws)) =? 0))
  | TResult => ResultCode (nth 0 ws 0)
  | TRaw n => Raw (take n (words_bytes ws))
  end.

Lemma Pop_run t c k ws :
  next_words c k ws -> length ws = type_words t ->
  Pop t (c, k) = Done (c, moved (length ws) k) (decode t ws).
Proof.
  intros H Hl. destruct t; simpl in Hl; cbn [Pop];
    try (erewrite bind_Done by (by apply PopRaw_run); reflexivity).
  - destruct ws as [|w [|]]; try done. erewrite bind_Done by (by apply Pop_u32_run). reflexivity.
  - destruct ws as [|w [|w' [|]]]; try done. apply (next_words_app c k [w] [w']) in H as [H1 H2].
    erewrite bind_Done by (by apply Pop_u32_run). erewrite bind_Done by (by apply Pop_u32_run).
    unfold ret. rewrite moved_moved. reflexivity.
  - destruct ws as [|w [|]]; try done. erewrite bind_Done by (by apply Pop_u32_run). reflexivity.
Qed.

(** ** Pushes *)

Lemma store_run i v c : 0 <= i < Z.of_nat (length (cmd_buf c)) ->
  store i v c = Done (with_buf (splice (Z.to_nat i) [v] (cmd_buf c)) c) tt.
Proof.
  intros Hi. unfold store, in_range, bind, get, assert_, put. rewrite (proj2 (Z.ltb_lt _ _)) by lia.
  rewrite splice_insert by lia. done.
Qed.

Lemma Push_u32_run w c k : room c k 1 -> Push_u32 w (c, k) = Done (wrote [w] c k, moved 1 k) tt.
Proof.
  intros [H1 H2]. unfold Push_u32. rewrite bind_get. unfold bind, on_fst. cbn [fst snd].
  rewrite store_run by lia. done.
Qed.

Lemma push_words_run ws c k : room c k (length ws) ->
  push_words ws (c, k) = Done (wrote ws c k, moved (length ws) k) tt.
Proof.
  revert c k. induction ws as [|w ws IH]; intros c k Hr.
  { unfold wrote, moved. rewrite splice_nil, with_buf_same. destruct k. simpl. by rewrite Z.add_0_r. }
  cbn [push_words length]. erewrite bind_Done by (apply Push_u32_run; unfold room in *; simpl in *; lia).
  rewrite IH by (apply (room_wrote [w]); exact Hr).
  rewrite (wrote_app [w] ws), moved_moved by (unfold room in *; simpl in *; lia). done.
Qed.

Lemma set_words_run i ws c :
  0 <= i -> i + Z.of_nat (length ws) <= Z.of_nat (length (cmd_buf c)) ->
  set_words i ws c = Done (with_buf (splice (Z.to_nat i) ws (cmd_buf c)) c) tt.
Proof.
  intros H1 H2. unfold set_words, in_range, bind, get, assert_, put.
  by rewrite (proj2 (Z.ltb_lt _ _)) by lia.
Qed.

Lemma PushRaw_run bytes c k :
  Forall is_u8 bytes -> room c k (raw_words (length bytes)) ->
  exists ws, length ws = raw_words (length bytes) /\ take (length bytes) (words_bytes ws) = bytes /\
    PushRaw bytes (c, k) = Done (wrote ws c k, moved (length ws) k) tt.
Proof.
  intros Hb [H1 H2]. pose proof (raw_words_bounds (length bytes)) as Hn.
  destruct (overlay_bytes bytes (raw_words (length bytes)) (drop (Z.to_nat (index k)) (cmd_buf c)))
    as [Hl Ht]; [done|lia|rewrite length_drop; lia|].
  eexists. split; [exact Hl|]. split; [exact Ht|].
  unfold PushRaw. rewrite bind_get. cbn [fst snd].
  unfold in_range. erewrite bind_Done by (unfold assert_; rewrite (proj2 (Z.ltb_lt _ _)) by lia; done).
  unfold bind, on_fst. cbn [fst snd]. rewrite set_words_run by (rewrite ?Hl; lia).
  unfold advance, on_snd, moved, wrote. cbn [fst snd]. by rewrite Hl.
Qed.

Definition type_of (v : value) : value_type :=
  match v with
  | U8 _ => TU8 | U16 _ => TU16 | U32 _ => TU32 | S32 _ => TS32 | U64 _ => TU64
  | Bool _ => TBool | ResultCode _ => TResult | Raw bytes => TRaw (length bytes)
  end.

Definition value_ok (v : value) : Prop :=
  match v with
  | U8 v => is_u8 v
  | U16 v => is_u16 v
  | U32 v | ResultCode v => is_u32 v
  | S32 v => is_s32 v
  | U64 v => is_u64 v
  | Bool _ => True
  | Raw bytes => Forall is_u8 bytes
  end.

Lemma Push_run v c k :
  value_ok v -> room c k (type_words (type_of v)) ->
  exists ws, length ws = type_words (type_of v) /\ decode (type_of v) ws = v /\
    Push v (c, k) = Done (wrote ws c k, moved (length ws) k) tt.
Proof.
  intros Hv Hr. destruct v as [v|v|v|v|v|v|v|bytes]; cbn [Push type_of type_words value_ok] in *.
  - destruct (PushRaw_run [v] c k) as (ws & Hl & Ht & E); [by apply Forall_singleton|done|].
    exists ws. split; [done|]. split; [|done]. cbn [decode]. cbn [length] in Ht. rewrite Ht.
    simpl. f_equal. lia.
  - unfold is_u16 in Hv. destruct (PushRaw_run [v mod 256; v / 256] c k) as (ws & Hl & Ht & E);
      [rewrite !Forall_cons; split_and!; [unfold is_u8; zlia..|constructor]|done|].
    exists ws. split; [done|]. split; [|done]. cbn [decode]. cbn [length] in Ht. rewrite Ht.
    cbn [le_value]. f_equal. zlia.
  - exists [v]. split; [done|]. split; [done|]. by apply Push_u32_run.
  - exists [u32 v]. split; [done|]. split; [|by apply Push_u32_run].
    cbn [decode words_bytes mbind list_bind]. rewrite app_nil_r. change (take 4 (le32 (u32 v))) with (le32 (u32 v)).
    rewrite le_value_le32 by apply u32_range. f_equal. word_lia.
  - exists [u32 v; u32 (Z.shiftr v 32)]. split; [done|]. split.
    + cbn [decode nth]. f_equal. rewrite Z.shiftr_div_pow2, Z.shiftl_mul_pow2 by lia.
      change (2 ^ 32) with 4294967296. unfold is_u64 in Hv.
      rewrite (u32_small (v / _)) by (unfold is_u32; zlia). rewrite u64_small by (unfold is_u64; zlia).
      rewrite (lor_add _ _ 32); change (2 ^ 32) with 4294967296; [unfold u32; zlia|lia|apply u32_range|zlia].
    + rewrite <-(push_words_run [u32 v; u32 (Z.shiftr v 32)] c k Hr). cbn [push_words].
      unfold bind, ret. destruct (Push_u32 (u32 v) (c, k)) as [s []| |]; [|done..].
      by destruct (Push_u32 _ s) as [? []| |].
  - destruct (PushRaw_run [Z.b2z v] c k) as (ws & Hl & Ht & E);
      [apply Forall_singleton; destruct v; unfold is_u8; simpl; lia|done|].
    exists ws. split; [done|]. split; [|done]. cbn [decode]. cbn [length] in Ht. rewrite Ht.
    by destruct v.
  - exists [v]. split; [done|]. split; [done|]. by apply Push_u32_run.
  - destruct (PushRaw_run bytes c k) as (ws & Hl & Ht & E); [done|done|].
    exists ws. split; [done|]. split; [|done]. cbn [decode]. by rewrite Ht.
Qed.

(** ** Sequences *)

Fixpoint Push_all (vs : list value) : op (Helper (Object := Object)) unit :=
  match vs with
  | [] => ret tt
  | v :: vs => (Push v ;; Push_all vs)%hle
  end.

Fixpoint Pop_all (ts : list value_type) : op (Helper (Object := Object)) (list value) :=
  match ts with
  | [] => ret []
  | t :: ts => (v <- Pop t ;; vs <- Pop_all ts ;; ret (v :: vs))%hle
  end.

Definition total_words (ts : list value_type) : nat := foldr (fun t n => (type_words t + n)%nat) 0%nat ts.

Lemma Push_all_run vs c k :
  Forall value_ok vs -> room c k (total_words (type_of <$> vs)) ->
  exists wss, Forall2 (fun v ws => length ws = type_words (type_of v) /\ decode (type_of v) ws = v) vs wss /\
    length (concat wss) = total_words (type_of <$> vs) /\
    Push_all vs (c, k) = Done (wrote (concat wss) c k, moved (length (concat wss)) k) tt.
Proof.
  intros Hvs. revert c k. induction Hvs as [|v vs Hv _ IH]; intros c k Hr.
  { exists []. split; [constructor|]. split; [done|]. simpl. unfold wrote, moved.
    rewrite splice_nil, with_buf_same. destruct k. simpl. by rewrite Z.add_0_r. }
  cbn [Push_all fmap list_fmap total_words foldr] in *.
  destruct (Push_run v c k) as (ws & Hl & Hd & E); [done|unfold room in *; lia|].
  destruct (IH (wrote ws c k) (moved (length ws) k)) as (wss & Hw & Hlw & E');
    [apply room_wrote; by rewrite Hl|].
  exists (ws :: wss). split; [by constructor|]. cbn [concat]. rewrite length_app, Hlw.
  split; [by rewrite Hl|]. erewrite bind_Done by exact E. rewrite E', wrote_app, moved_moved.
  - by rewrite Hlw.
  - unfold room in *. lia.
Qed.

Lemma Pop_all_run vs wss c k :
  Forall2 (fun v ws => length ws = type_words (type_of v) /\ decode (type_of v) ws = v) vs wss ->
  next_words c k (concat wss) ->
  Pop_all (type_of <$> vs) (c, k) = Done (c, moved (length (concat wss)) k) vs.
Proof.
  intros H. revert k. induction H as [|v ws vs wss [Hl Hd] _ IH]; intros k Hn.
  { simpl. unfold ret, moved. destruct k. simpl. by rewrite Z.add_0_r. }
  cbn [concat] in Hn. apply next_words_app in Hn as [H1 H2].
  cbn [Pop_all fmap list_fmap]. erewrite bind_Done by (by apply Pop_run).
  erewrite bind_Done by (by apply IH). unfold ret. rewrite moved_moved, Hd. cbn [concat].
  by rewrite length_app.
Qed.

(** Values round trip through the command buffer: pushing a list of values
    that fits runs to its end, touches no word outside the ones that it advances
    over, and popping the same types from the place where the pushes began gives
    the same values and ends at the same word.  This includes the raw values whose
    last word is only partly written. *)
Theorem pushed_values_pop vs c k :
  Forall value_ok vs -> room c k (total_words (type_of <$> vs)) ->
  exists c', Push_all vs (c, k) = Done (c', moved (total_words (type_of <$> vs)) k) tt /\
    request_handles c' = request_handles c /\ static_buffers c' = static_buffers c /\
    length (cmd_buf c') = length (cmd_buf c) /\
    take (Z.to_nat (index k)) (cmd_buf c') = take (Z.to_nat (index k)) (cmd_buf c) /\
    (let n := (Z.to_nat (index k) + total_words (type_of <$> vs))%nat in
     drop n (cmd_buf c') = drop n (cmd_buf c)) /\
    Pop_all (type_of <$> vs) (c', k) = Done (c', moved (total_words (type_of <$> vs)) k) vs.
Proof.
  intros Hv Hr. destruct (Push_all_run vs c k Hv Hr) as (wss & Hw & Hl & E). rewrite <-Hl in *.
  exists (wrote (concat wss) c k). pose proof Hr as [H1 H2].
  split; [exact E|]. split; [done|]. split; [done|]. cbn [wrote with_buf cmd_buf].
  split; [apply length_splice; lia|]. unfold splice.
  assert (Ht : length (take (Z.to_nat (index k)) (cmd_buf c)) = Z.to_nat (index k))
    by (rewrite length_take; lia).
  split; [rewrite <-Ht at 1; apply take_app_length|]. split.
  - cbv zeta. rewrite <-(drop_drop _ (length (concat wss)) (Z.to_nat (index k))).
    rewrite <-Ht at 1. by rewrite drop_app_length, drop_app_length.
  - apply Pop_all_run; [done|]. by apply wrote_next.
Qed.
End Values.

Definition sample_values : list value :=
  [U8 7; U16 0x1234; S32 (-2); U64 0x123456789ABCDEF0; Bool true; Raw [1; 2; 3; 4; 5]; ResultCode 0].

Definition stale_context : HLERequestContext (Object := nat) :=
  new_context (replicate 64 0xFFFFFFFF).

Lemma pushed_values_pop_witness :
  exists c', Push_all sample_values (stale_context, mkCursor 1 0) = Done (c', mkCursor 10 0) tt /\
    Pop_all (type_of <$> sample_values) (c', mkCursor 1 0) = Done (c', mkCursor 10 0) sample_values.
Proof.
  destruct (pushed_values_pop sample_values stale_context (mkCursor 1 0))
    as (c' & E & _ & _ & _ & _ & _ & E').
  - unfold sample_values. rewrite !Forall_cons, Forall_nil. cbn [value_ok].
    unfold is_u8, is_u16, is_u32, is_s32, is_u64. rewrite !Forall_cons, Forall_nil. lia.
  - split; vm_compute; congruence.
  - exists c'. split; [exact E|exact E'].
Defined.
