(* ===== verification/HleIpcRequests.v ===== *)
(** * HleIpcRequests: what a service receives

    The request of a guest as a service sees it: [PopulateFromIncomingCommandBuffer]
    followed by the pops of a [RequestParser] gives the normal parameters and, for
    every translate parameter, the objects, the process id, the bytes or the buffer
    that it stands for. *)
From S2P Require Import Prelude BitField Result HandleTable Ipc HleIpc HleIpcValues.

Local Open Scope Z_scope.

Section Requests.
Context {Object PageTable : Type} `{!GuestMemory PageTable}.
Variables (current_thread current_process : option Object) (process_id : Z) (page_table : PageTable).

(** ** The abstract request *)

(** What a translate parameter stands for. *)
Inductive argument :=
  | Objects (os : list (option Object))
  | Pid (pid : Z)
  | Static (data : list Z)
  | Mapped (address size perms : Z).

Definition handle_type (d : Z) : bool :=
  (GetDescriptorType d =? CopyHandle) || (GetDescriptorType d =? MoveHandle).

(** A handle of the guest: its object, and the table after a move. *)
Definition take_handle (d h : Z) (t : @HandleTable Object) : option (option Object * @HandleTable Object) :=
  if h =? 0 then Some (None, t)
  else match GetGeneric current_thread current_process t h with
       | None => None
       | Some o =>
           Some (Some o,
                 if d =? MoveHandle then
                   match Close h t with Done t' _ | Failed t' _ => t' | Aborted => t end
                 else t)
       end.

Fixpoint take_handles (d : Z) (hs : list Z) (t : @HandleTable Object)
    : option (list (option Object) * @HandleTable Object) :=
  match hs with
  | [] => Some ([], t)
  | h :: hs =>
      match take_handle d h t with
      | None => None
      | Some (o, t) =>
          match take_handles d hs t with
          | None => None
          | Some (os, t) => Some (o :: os, t)
          end
      end
  end.

Definition received_param (host : Z -> Z) (p : tparam) (t : @HandleTable Object)
    : option (argument * @HandleTable Object) :=
  let d := descriptor p in
  let w := nth 0 (payload p) 0 in
  if handle_type d then
    match take_handles d (payload p) t with
    | None => None
    | Some (os, t) => Some (Objects os, t)
    end
  else if GetDescriptorType d =? CallingPid then Some (Pid process_id, t)
  else if GetDescriptorType d =? StaticBuffer then
    Some (Static (ReadBlock page_table host w (static_size d)), t)
  else if GetDescriptorType d =? Ipc.MappedBuffer then
    Some (Mapped w (mapped_size d) (mapped_perms d), t)
  else None.

Fixpoint received (host : Z -> Z) (ps : list tparam) (t : @HandleTable Object)
    : option (list argument * @HandleTable Object) :=
  match ps with
  | [] => Some ([], t)
  | p :: ps =>
      match received_param host p t with
      | None => None
      | Some (a, t) =>
          match received host ps t with
          | None => None
          | Some (args, t) => Some (a :: args, t)
          end
      end
  end.

(** Only a descriptor that moves a single handle equals [MoveHandle], so the
    handles that are moved together stay open in the sender's table. *)
Lemma moved_together_stay_open n hs t os t' :
  2 <= n <= 64 -> take_handles (MoveHandleDesc n) hs t = Some (os, t') -> t' = t.
Proof.
  intros Hn. assert (Hd : (MoveHandleDesc n =? MoveHandle) = false).
  { apply Z.eqb_neq. unfold MoveHandleDesc. rewrite handle_desc_value by (auto || lia). lia. }
  revert t os t'. induction hs as [|h hs IH]; intros t os t'; simpl; [congruence|].
  unfold take_handle. rewrite Hd. destruct (h =? 0).
  - destruct (take_handles _ hs t) as [[os' t1]|] eqn:E; [|done]. intros [= <- <-]. by eapply IH.
  - destruct (GetGeneric _ _ t h); [|done].
    destruct (take_handles _ hs t) as [[os' t1]|] eqn:E; [|done]. intros [= <- <-]. by eapply IH.
Qed.

Lemma bind_Aborted {S A B} (m : op S A) (k : A -> op S B) s : m s = Aborted -> bind m k s = Aborted.
Proof. intros E. unfold bind. by rewrite E. Qed.

(** A handle that is not in the sender's table stops the emulator while the request
    is translated, and a word that is no index of an object stops it when it is
    popped: no object is replaced by null. *)
Lemma invalid_handle_stops d h t (c : @HLERequestContext Object) w :
  (h <> 0 -> GetGeneric current_thread current_process t h = None ->
   incoming_handle current_thread current_process d h (c, t) = Aborted) /\
  (Z.of_nat (length (request_handles c)) <= w -> GetIncomingHandle w c = Aborted).
Proof.
  split.
  - intros Hh E. unfold incoming_handle. rewrite (proj2 (Z.eqb_neq _ _) Hh).
    apply bind_Aborted. unfold bind, get, assert_. cbn [snd]. by rewrite E.
  - intros Hw. unfold GetIncomingHandle. rewrite bind_get. apply bind_Aborted.
    unfold assert_. by rewrite (proj2 (Z.ltb_ge _ _) Hw).
Qed.

(** ** Parameters in a context *)

(** The parameter [p], in the words of the context, stands for [a]. *)
Definition decoded (c : HLERequestContext) (p : tparam) (a : argument) : Prop :=
  match a with
  | Objects os =>
      handle_type (descriptor p) = true /\
      Forall2 (fun w o => is_u32 w /\ request_handles c !! Z.to_nat w = Some o) (payload p) os
  | Pid pid => GetDescriptorType (descriptor p) = CallingPid /\ payload p = [pid]
  | Static data =>
      GetDescriptorType (descriptor p) = StaticBuffer /\
      static_buffers c !! Z.to_nat (static_buffer_id (descriptor p)) = Some data /\
      exists w, payload p = [w]
  | Mapped a n r =>
      GetDescriptorType (descriptor p) = Ipc.MappedBuffer /\
      exists w b, payload p = [w] /\ request_mapped_buffers c !! Z.to_nat w = Some b /\
        mb_address b = a /\ mb_size b = n /\ mb_perms b = r
  end.

Definition static_ids (ps : list tparam) : list Z :=
  omap (fun p => if GetDescriptorType (descriptor p) =? StaticBuffer
                 then Some (static_buffer_id (descriptor p)) else None) ps.

(** [c'] has what [c] has, up to the words and the static buffers [ids]. *)
Record extends (ids : list Z) (c c' : HLERequestContext (Object := Object)) : Prop := {
  ext_handles : request_handles c `prefix_of` request_handles c';
  ext_mapped : request_mapped_buffers c `prefix_of` request_mapped_buffers c';
  ext_static_length : length (static_buffers c') = length (static_buffers c);
  ext_static : forall id, 0 <= id -> id ∉ ids ->
    static_buffers c' !! Z.to_nat id = static_buffers c !! Z.to_nat id
}.

Lemma extends_refl ids c b : extends ids c (with_buf b c).
Proof. by split. Qed.

Lemma extends_trans ids1 ids2 c1 c2 c3 :
  extends ids1 c1 c2 -> extends ids2 c2 c3 -> extends (ids1 ++ ids2) c1 c3.
Proof.
  intros [H1 H2 H3 H4] [K1 K2 K3 K4]. split; [by etrans|by etrans|congruence|].
  intros id Hid Hn. rewrite not_elem_of_app in Hn. rewrite K4, H4; tauto.
Qed.

Lemma static_id_range d : 0 <= static_buffer_id d < 16.
Proof. apply (ipc_field_range 10 4). unfold field_ok. lia. Qed.

Lemma decoded_extends c c' p a ids :
  decoded c p a -> extends ids c c' ->
  (forall i, i ∈ static_ids [p] -> i ∉ ids) -> decoded c' p a.
Proof.
  intros H [H1 H2 _ H4] Hn. destruct a as [os|pid|data|a n r]; cbn [decoded] in *.
  - destruct H as [H H']. split; [done|]. eapply Forall2_impl; [exact H'|].
    intros w o [? Hw]. split; [done|]. by eapply prefix_lookup_Some.
  - done.
  - destruct H as (H & H' & H''). split; [done|]. split; [|done].
    rewrite H4; [done|apply static_id_range|]. apply Hn.
    unfold static_ids. simpl. rewrite H. simpl. apply elem_of_cons; by left.
  - destruct H as (H & w & b & E & Hb & Hr). split; [done|]. exists w, b. split; [done|].
    split; [|done]. by eapply prefix_lookup_Some.
Qed.

(** ** Storing the parameters *)

Lemma load_run {S} l i (w : Z) ws (s : S) :
  0 <= i -> drop (Z.to_nat i) l = w :: ws -> load l i s = Done s w.
Proof.
  intros Hi E. unfold load.
  assert (El : l !! Z.to_nat i = Some w)
    by (rewrite <-(Nat.add_0_r (Z.to_nat i)), <-lookup_drop, E; done).
  by rewrite El.
Qed.

Lemma on_fst_Done {S T A} (m : op S A) (s s' : S) (t : T) a :
  m s = Done s' a -> on_fst m (s, t) = Done (s', t) a.
Proof. intros E. unfold on_fst. simpl. by rewrite E. Qed.

Definition add_objects (os : list (option Object)) (c : HLERequestContext) : HLERequestContext :=
  mkContext (cmd_buf c) (request_handles c ++ os) (static_buffers c) (request_mapped_buffers c).

Lemma AddOutgoingHandle_run o c :
  Z.of_nat (length (request_handles c)) < 4294967295 ->
  AddOutgoingHandle o c = Done (add_objects [o] c) (Z.of_nat (length (request_handles c))).
Proof.
  intros H. unfold AddOutgoingHandle, bind, get, put, ret. cbn [request_handles].
  unfold add_objects. rewrite length_app. simpl. f_equal. rewrite u32_small; [lia|].
  unfold is_u32. lia.
Qed.

Lemma incoming_handle_run d h c t :
  Z.of_nat (length (request_handles c)) < 4294967295 ->
  incoming_handle current_thread current_process d h (c, t) =
  match take_handle d h t with
  | Some (o, t') => Done (add_objects [o] c, t') (Z.of_nat (length (request_handles c)))
  | None => Aborted
  end.
Proof.
  intros Hl. unfold incoming_handle, take_handle. destruct (h =? 0).
  { unfold bind at 1, ret at 1. by rewrite (on_fst_Done _ _ _ _ _ (AddOutgoingHandle_run None c Hl)). }
  destruct (GetGeneric current_thread current_process t h) as [o|] eqn:E.
  - unfold bind, get, assert_, ret. cbn [snd fst]. rewrite E, bool_decide_eq_true_2 by eauto.
    destruct (d =? MoveHandle).
    + unfold dropping, on_snd. cbn [snd fst]. destruct (Close h t) as [t' []|t' rc|] eqn:Ec.
      * by rewrite (on_fst_Done _ _ _ _ _ (AddOutgoingHandle_run (Some o) c Hl)).
      * by rewrite (on_fst_Done _ _ _ _ _ (AddOutgoingHandle_run (Some o) c Hl)).
      * exfalso. revert Ec. unfold Close, bind, get, R_UNLESS, put. by destruct (IsValid t h).
    + by rewrite (on_fst_Done _ _ _ _ _ (AddOutgoingHandle_run (Some o) c Hl)).
  - unfold bind, get, assert_. cbn [snd fst]. by rewrite E.
Qed.

Definition resolved_ids (l : list (option Object)) : list Z -> list (option Object) -> Prop :=
  Forall2 (fun w o => is_u32 w /\ l !! Z.to_nat w = Some o).

Lemma incoming_handles_run src d hs : forall rest i c t,
  0 <= i -> drop (Z.to_nat i) src = hs ++ rest ->
  i + Z.of_nat (length hs) <= Z.of_nat (length (cmd_buf c)) <= 64 ->
  Z.of_nat (length (request_handles c)) <= i ->
  match take_handles d hs t with
  | Some (os, t') => exists ws, length ws = length hs /\ length os = length hs /\
      resolved_ids (request_handles c ++ os) ws os /\
      incoming_handles current_thread current_process src d (length hs) i (c, t) =
      Done (with_buf (splice (Z.to_nat i) ws (cmd_buf c)) (add_objects os c), t')
        (i + Z.of_nat (length hs))
  | None => incoming_handles current_thread current_process src d (length hs) i (c, t) = Aborted
  end.
Proof.
  induction hs as [|h hs IH]; intros rest i c t Hi Hd Hb Hl; cbn [take_handles length incoming_handles].
  { exists []. split; [done|]. split; [done|]. split; [constructor|].
    rewrite splice_nil. unfold with_buf, add_objects, ret. cbn. rewrite app_nil_r, Z.add_0_r.
    by destruct c. }
  cbn [length] in Hb. erewrite bind_Done by (by apply (load_run _ _ h (hs ++ rest))).
  set (n := Z.of_nat (length (request_handles c))) in *.
  pose proof (incoming_handle_run d h c t ltac:(lia)) as E.
  destruct (take_handle d h t) as [[o t1]|]; [|by apply bind_Aborted].
  erewrite bind_Done by exact E.
  erewrite bind_Done by (apply on_fst_Done, store_run; cbn [add_objects cmd_buf]; lia).
  set (c1 := with_buf _ _).
  assert (Hc1 : request_handles c1 = request_handles c ++ [o]) by done.
  assert (Hb1 : length (cmd_buf c1) = length (cmd_buf c))
    by (apply (length_splice _ [_]); simpl; lia).
  specialize (IH rest (i + 1) c1 t1). rewrite Hc1, Hb1, length_app in IH. simpl in IH.
  assert (Hd1 : drop (Z.to_nat (i + 1)) src = hs ++ rest).
  { rewrite Z2Nat.inj_add by lia. by apply (drop_app_next _ _ [h]). }
  specialize (IH ltac:(lia) Hd1 ltac:(lia) ltac:(lia)).
  destruct (take_handles d hs t1) as [[os t2]|]; [|exact IH].
  destruct IH as (ws & Hlw & Hlo & Hres & E2). rewrite <-app_assoc in Hres. cbn [app] in Hres.
  exists (n :: ws). cbn [length]. rewrite Hlw, Hlo.
  split; [done|]. split; [done|]. split.
  - constructor; [|exact Hres]. split; [unfold is_u32; lia|]. subst n. rewrite Nat2Z.id.
    rewrite lookup_app_r by lia. by rewrite Nat.sub_diag.
  - etrans; [exact E2|]. unfold c1, with_buf, add_objects. cbn [cmd_buf request_handles static_buffers
      request_mapped_buffers]. rewrite Z2Nat.inj_add by lia.
    change (Z.to_nat 1) with (length [n]). rewrite splice_app by (simpl; lia). rewrite <-app_assoc.
    f_equal. lia.
Qed.

(** ** One parameter *)

Lemma handle_payload p : param_ok p -> handle_type (descriptor p) = true ->
  Z.of_nat (length (payload p)) = HandleNumberFromDesc (descriptor p).
Proof.
  intros [Hd Hl] Ht. rewrite Hl. unfold descriptor_words. unfold handle_type in Ht. rewrite Ht.
  pose proof (HandleNumber_range _ Hd). lia.
Qed.

Lemma other_payload p : param_ok p -> handle_type (descriptor p) = false ->
  exists w, payload p = [w].
Proof.
  intros [Hd Hl] Ht. unfold descriptor_words in Hl. unfold handle_type in Ht. rewrite Ht in Hl.
  destruct (payload p) as [|w [|]]; try done. by eexists.
Qed.

(** What the loop has done at [i]. *)
Definition progress (c : HLERequestContext (Object := Object)) (i : Z) : Prop :=
  length (cmd_buf c) = 64%nat /\ length (static_buffers c) = 16%nat /\
  Z.of_nat (length (request_handles c)) <= i /\ Z.of_nat (length (request_mapped_buffers c)) <= i.

Definition stored (c : HLERequestContext (Object := Object)) (i : Z) (words : list Z)
    (c' : HLERequestContext (Object := Object)) : Prop :=
  cmd_buf c' = splice (Z.to_nat i) words (cmd_buf c).

Lemma incoming_param_run host src p rest size i c t :
  param_ok p -> 0 <= i -> drop (Z.to_nat i) src = descriptor p :: payload p ++ rest ->
  i + 1 + Z.of_nat (length (payload p)) <= size <= 64 -> progress c i ->
  match received_param host p t with
  | Some (a, t') => exists c' ws, length ws = length (payload p) /\
      incoming_param current_thread current_process process_id page_table host src size i (c, t) =
        Done (c', t') (i + 1 + Z.of_nat (length (payload p))) /\
      stored c i (descriptor p :: ws) c' /\ extends (static_ids [p]) c c' /\
      progress c' (i + 1 + Z.of_nat (length (payload p))) /\
      decoded c' (mkParam (descriptor p) ws) a
  | None =>
      incoming_param current_thread current_process process_id page_table host src size i (c, t) = Aborted
  end.
Proof.
  intros Hp Hi Hd Hs (Hb & Hst & Hh & Hm). unfold received_param. cbv zeta.
  set (d := descriptor p) in *. unfold incoming_param.
  erewrite bind_Done by (by eapply load_run).
  erewrite bind_Done by (apply on_fst_Done, store_run; lia).
  set (c1 := with_buf _ _).
  assert (Hd1 : drop (Z.to_nat (i + 1)) src = payload p ++ rest).
  { rewrite Z2Nat.inj_add by lia. by apply (drop_app_next _ _ [d]). }
  assert (Hb1 : length (cmd_buf c1) = 64%nat) by (etrans; [apply (length_splice _ [_]); simpl; lia|done]).
  assert (Hst1 : length (static_buffers c1) = 16%nat) by exact Hst.
  assert (Hlast : forall ws, (Z.to_nat i + 1 + length ws <= 64)%nat ->
    splice (Z.to_nat (i + 1)) ws (cmd_buf c1) = splice (Z.to_nat i) (d :: ws) (cmd_buf c)).
  { intros ws Hws. unfold c1. cbn [with_buf cmd_buf]. rewrite Z2Nat.inj_add by lia.
    change (Z.to_nat 1) with (length [d]). by rewrite splice_app by (simpl; lia). }
  fold (handle_type d). destruct (handle_type d) eqn:Ht.
  - pose proof (handle_payload p Hp Ht) as Hn. fold d in Hn. rewrite <-Hn.
    erewrite bind_Done by (unfold assert_; rewrite (proj2 (Z.leb_le _ _)) by lia; done).
    rewrite Nat2Z.id.
    pose proof (incoming_handles_run src d (payload p) rest (i + 1) c1 t ltac:(lia) Hd1
      ltac:(rewrite Hb1; lia) ltac:(cbn; lia)) as IH.
    destruct (take_handles d (payload p) t) as [[os t1]|]; [|exact IH].
    destruct IH as (ws & Hlw & Hlo & Hres & E). eexists _, ws.
    split; [done|]. split; [exact E|]. split; [apply Hlast; lia|].
    split; [split; try done; by apply prefix_app_r|]. split; [|by split].
    unfold progress, with_buf, add_objects. cbn [cmd_buf static_buffers request_handles request_mapped_buffers].
    rewrite length_splice, length_app, Hb1 by (rewrite ?Hb1; lia). unfold c1.
    cbn [with_buf request_handles request_mapped_buffers static_buffers]. lia.
  - destruct (other_payload p Hp Ht) as [w Hw]. rewrite Hw in *. cbn [nth length] in *.
    unfold handle_type in Ht. change (Z.of_nat 1) with 1 in *.
    destruct (GetDescriptorType d =? CallingPid) eqn:Hpid.
    { erewrite bind_Done by (apply on_fst_Done, store_run; lia).
      eexists _, [process_id]. split; [done|]. split; [reflexivity|].
      split; [apply (Hlast [_]); simpl; lia|]. split; [by split|]. split.
      - unfold progress. cbn [with_buf cmd_buf static_buffers request_handles request_mapped_buffers].
        rewrite length_splice, Hb1 by (rewrite ?Hb1; simpl; lia). unfold c1. cbn. lia.
      - split; [|done]. by apply Z.eqb_eq. }
    destruct (GetDescriptorType d =? StaticBuffer) eqn:Hsb.
    { pose proof (static_id_range d) as Hid.
      erewrite bind_Done by (by eapply load_run; [lia|]).
      set (data := ReadBlock _ _ _ _).
      set (c2 := mkContext (cmd_buf c1) (request_handles c1)
        (<[Z.to_nat (static_buffer_id d) := data]> (static_buffers c1)) (request_mapped_buffers c1)).
      assert (Ea : AddStaticBuffer (static_buffer_id d) data c1 = Done c2 tt).
      { unfold AddStaticBuffer, in_range, bind, get, assert_, put.
        by rewrite Hst1, (proj2 (Z.ltb_lt (static_buffer_id d) _)) by lia. }
      erewrite bind_Done by (apply on_fst_Done, Ea).
      erewrite bind_Done by (apply on_fst_Done, store_run; change (cmd_buf c2) with (cmd_buf c1); lia).
      eexists _, [w]. split; [done|]. split; [reflexivity|].
      split; [apply (Hlast [_]); simpl; lia|]. split; [|split].
      - split; try done; [by apply length_insert|].
        intros id Hid0 Hn. apply list_lookup_insert_ne. intros E.
        apply Hn. unfold static_ids. simpl. fold d. rewrite Hsb. simpl. apply elem_of_cons. left. lia.
      - unfold progress. cbn [with_buf cmd_buf static_buffers request_handles request_mapped_buffers c2].
        rewrite length_splice, length_insert, Hb1 by (rewrite ?Hb1; simpl; lia). unfold c1. cbn. lia.
      - split; [by apply Z.eqb_eq|]. split; [|by eexists]. cbn [with_buf static_buffers c2 descriptor].
        apply list_lookup_insert_eq. rewrite Hst1. lia. }
    destruct (GetDescriptorType d =? Ipc.MappedBuffer) eqn:Hmb; [|done].
    erewrite bind_Done by (by eapply load_run; [lia|]).
    set (n := Z.of_nat (length (request_mapped_buffers c1))).
    assert (Hn : n = Z.of_nat (length (request_mapped_buffers c))) by done.
    set (b := mkMapped n w (mapped_size d) (mapped_perms d)).
    set (c2 := mkContext (cmd_buf c1) (request_handles c1) (static_buffers c1)
      (request_mapped_buffers c1 ++ [b])).
    assert (Ea : add_mapped_buffer d w c1 = Done c2 n).
    { unfold add_mapped_buffer, bind, get, put, ret. fold n.
      rewrite (u32_small n) by (unfold is_u32; lia). done. }
    erewrite bind_Done by (apply on_fst_Done, Ea).
    erewrite bind_Done by (apply on_fst_Done, store_run; change (cmd_buf c2) with (cmd_buf c1); lia).
    eexists _, [n]. split; [done|]. split; [reflexivity|].
    split; [apply (Hlast [_]); simpl; lia|]. split; [|split].
    + split; try done. by apply prefix_app_r.
    + unfold progress. cbn [with_buf cmd_buf static_buffers request_handles request_mapped_buffers c2].
      rewrite length_splice, length_app, Hb1 by (rewrite ?Hb1; simpl; lia). unfold c1. cbn. lia.
    + split; [by apply Z.eqb_eq|]. exists n, b. split; [done|]. split; [|done].
      cbn [with_buf request_mapped_buffers c2]. rewrite lookup_app_r by lia.
      replace (Z.to_nat n - _)%nat with 0%nat by lia. done.
Qed.

(** A command that fills the buffer and ends in a process id descriptor: its word
    would be stored after the array. *)
Lemma pid_past_buffer host src c t d :
  length (cmd_buf c) = 64%nat -> src !! 63%nat = Some d -> GetDescriptorType d = CallingPid ->
  incoming_param current_thread current_process process_id page_table host src 64 63 (c, t) = Aborted.
Proof.
  intros Hl Hs Hd. unfold incoming_param.
  assert (Hld : load src 63 (c, t) = Done (c, t) d)
    by (unfold load; change (Z.to_nat 63) with 63%nat; by rewrite Hs).
  erewrite bind_Done by exact Hld.
  erewrite bind_Done by (apply on_fst_Done, store_run; lia).
  rewrite Hd. change (CallingPid =? CopyHandle) with false. change (CallingPid =? MoveHandle) with false.
  cbn [orb]. rewrite Z.eqb_refl. apply bind_Aborted. unfold on_fst, store, in_range, bind, get, assert_.
  cbn [fst cmd_buf with_buf]. rewrite length_splice, Hl by (simpl; lia). done.
Qed.

(** ** All parameters *)

(** The same descriptors, other words. *)
Definition translated : list tparam -> list tparam -> Prop :=
  Forall2 (fun p p' => descriptor p' = descriptor p /\ length (payload p') = length (payload p)).

Lemma translated_length ps ps' : translated ps ps' -> length (encode ps') = length (encode ps).
Proof.
  induction 1 as [|p p' ps ps' [_ Hl] _ IH]; [done|]. rewrite !encode_cons. cbn [length].
  rewrite !length_app. lia.
Qed.

Lemma static_ids_cons p ps : static_ids (p :: ps) = static_ids [p] ++ static_ids ps.
Proof. unfold static_ids. simpl. by destruct (_ =? _). Qed.

Lemma encode_drop src i p ps rest :
  drop i src = encode (p :: ps) ++ rest ->
  drop i src = descriptor p :: payload p ++ (encode ps ++ rest) /\
  drop (i + 1 + length (payload p)) src = encode ps ++ rest.
Proof.
  intros H. rewrite encode_cons in H. cbn [app] in H. rewrite <-app_assoc in H. split; [done|].
  pose proof (drop_app_next i src (descriptor p :: payload p) (encode ps ++ rest) H) as E.
  rewrite <-E. f_equal. simpl. lia.
Qed.

Lemma incoming_loop_run host src ps : forall fuel rest size i c t,
  Forall param_ok ps -> NoDup (static_ids ps) -> 0 <= i ->
  drop (Z.to_nat i) src = encode ps ++ rest ->
  size = i + Z.of_nat (length (encode ps)) -> size <= 64 -> (length (encode ps) < fuel)%nat ->
  progress c i ->
  match received host ps t with
  | Some (args, t') => exists c' ps', translated ps ps' /\
      incoming_loop current_thread current_process process_id page_table host src fuel size i (c, t) =
        Done (c', t') tt /\
      stored c i (encode ps') c' /\ extends (static_ids ps) c c' /\ Forall2 (decoded c') ps' args
  | None =>
      incoming_loop current_thread current_process process_id page_table host src fuel size i (c, t) = Aborted
  end.
Proof.
  induction ps as [|p ps IH]; intros fuel rest size i c t Hps Hnd Hi Hd Hsz Hs Hf Hpr;
    (destruct fuel as [|fuel]; [lia|]); cbn [received incoming_loop].
  { simpl in Hsz. rewrite (proj2 (Z.ltb_ge _ _)) by lia. exists c, []. split; [constructor|].
    split; [done|]. unfold stored. rewrite splice_nil. split; [done|]. split; [by split|constructor]. }
  apply Forall_cons in Hps as [Hp Hps]. rewrite static_ids_cons in Hnd.
  apply NoDup_app in Hnd as (_ & Hdis & Hnd).
  apply encode_drop in Hd as [Hd1 Hd2]. rewrite encode_cons in Hsz, Hf. cbn [length] in Hsz, Hf.
  rewrite length_app in Hsz, Hf.
  rewrite (proj2 (Z.ltb_lt i size)) by lia.
  pose proof (incoming_param_run host src p _ size i c t Hp Hi Hd1 ltac:(lia) Hpr) as H.
  destruct (received_param host p t) as [[a t1]|]; [|by apply bind_Aborted].
  destruct H as (c1 & ws & Hlw & E & Hst & Hext & Hpr1 & Hdec).
  erewrite bind_Done by exact E.
  set (j := i + 1 + Z.of_nat (length (payload p))) in *.
  assert (Hj : Z.to_nat j = (Z.to_nat i + length (descriptor p :: ws))%nat) by (simpl; lia).
  specialize (IH fuel rest size j c1 t1 Hps Hnd ltac:(lia)).
  rewrite Hj in IH. cbn [length] in IH. rewrite Hlw in IH.
  replace (Z.to_nat i + S (length (payload p)))%nat with (Z.to_nat i + 1 + length (payload p))%nat in IH by lia.
  specialize (IH Hd2 ltac:(lia) Hs ltac:(lia) Hpr1).
  destruct (received host ps t1) as [[args t2]|]; [|exact IH].
  destruct IH as (c2 & ps2 & Htr & E2 & Hst2 & Hext2 & Hdec2).
  exists c2, (mkParam (descriptor p) ws :: ps2). split; [by constructor|]. split; [exact E2|].
  split; [|split; [|constructor; [|done]]].
  - unfold stored in *. rewrite Hst2, Hst, Hj, splice_app; [done|].
    destruct Hpr as [Hb _]. rewrite Hb. simpl. lia.
  - rewrite static_ids_cons. by eapply extends_trans.
  - eapply decoded_extends; [exact Hdec|exact Hext2|].
    intros id Hid Hid'. by apply (Hdis id).
Qed.

(** ** Parsing *)

(** How a service pops a parameter: the method fits the descriptor that it expects. *)
Definition PopParam (d : Z) : op (Helper (Object := Object)) argument :=
  if handle_type d then
    (os <- PopGenericObjects (Z.to_nat (HandleNumberFromDesc d)) ;; ret (Objects os))%hle
  else if GetDescriptorType d =? CallingPid then (pid <- PopPID ;; ret (Pid pid))%hle
  else if GetDescriptorType d =? StaticBuffer then (data <- PopStaticBuffer ;; ret (Static data))%hle
  else (b <- PopMappedBuffer ;; ret (Mapped (mb_address b) (mb_size b) (mb_perms b)))%hle.

Fixpoint PopParams (ds : list Z) : op (Helper (Object := Object)) (list argument) :=
  match ds with
  | [] => ret []
  | d :: ds => (a <- PopParam d ;; l <- PopParams ds ;; ret (a :: l))%hle
  end.

(** [PopPID] compares the whole descriptor. *)
Definition plain_pid (p : tparam) : Prop :=
  GetDescriptorType (descriptor p) = CallingPid -> descriptor p = CallingPid.

Lemma handle_type_is_handle d : handle_type d = true -> IsHandleDescriptor d = true.
Proof.
  unfold handle_type, GetDescriptorType. destruct (IsHandleDescriptor d); [done|].
  by repeat destruct (negb _).
Qed.

Lemma get_objects_run c ws os : resolved_ids (request_handles c) ws os ->
  get_objects ws c = Done c os.
Proof.
  induction 1 as [|w o ws os [Hw Hl] _ IH]; [done|]. cbn [get_objects].
  erewrite bind_Done.
  - erewrite bind_Done by exact IH. reflexivity.
  - unfold GetIncomingHandle, bind, get, assert_, ret.
    apply lookup_lt_Some in Hl as Hlt. unfold is_u32 in Hw. rewrite (proj2 (Z.ltb_lt _ _)) by lia.
    by rewrite Hl.
Qed.

Lemma PopParam_run c k p a :
  param_ok p -> plain_pid p -> decoded c p a -> next_words c k (descriptor p :: payload p) ->
  PopParam (descriptor p) (c, k) = Done (c, moved (S (length (payload p))) k) a.
Proof.
  intros Hp Hpid Hdec Hn. pose proof (next_words_app _ _ [descriptor p] _ Hn) as [H1 H2].
  cbn [length] in H2.
  unfold PopParam. destruct a as [os|pid|data|ad n r]; cbn [decoded] in Hdec.
  - destruct Hdec as [Ht Hr]. rewrite Ht. pose proof (handle_payload p Hp Ht) as Hl.
    erewrite bind_Done; [reflexivity|]. unfold PopGenericObjects, PopHLEHandles.
    rewrite <-Hl, Nat2Z.id. erewrite bind_Done.
    2:{ erewrite bind_Done by (by apply Pop_u32_run). unfold bind at 1, assert_.
        rewrite handle_type_is_handle by done. unfold bind at 1. rewrite Hl, Z.eqb_refl.
        exact (pop_words_run _ _ _ H2). }
    unfold on_fst. cbn [fst snd]. rewrite (get_objects_run c _ _ Hr). by rewrite moved_moved.
  - destruct Hdec as [Ht Hw]. unfold handle_type. rewrite Ht, (Hpid Ht), Hw in *. cbn [Z.eqb orb].
    change (CallingPid =? CopyHandle) with false. change (CallingPid =? MoveHandle) with false. cbn [orb].
    rewrite Z.eqb_refl. erewrite bind_Done; [reflexivity|].
    unfold PopPID. erewrite bind_Done by (by apply Pop_u32_run). rewrite Z.eqb_refl.
    unfold bind at 1, assert_. rewrite (Pop_u32_run _ _ _ H2). by rewrite moved_moved.
  - destruct Hdec as (Ht & Hl & w & Hw). unfold handle_type. rewrite Ht.
    change (StaticBuffer =? CopyHandle) with false. change (StaticBuffer =? MoveHandle) with false.
    change (StaticBuffer =? CallingPid) with false. cbn [orb]. rewrite Z.eqb_refl, Hw in *.
    erewrite bind_Done; [reflexivity|]. unfold PopStaticBuffer.
    erewrite bind_Done by (by apply Pop_u32_run). erewrite bind_Done by (by apply Pop_u32_run).
    pose proof (static_id_range (descriptor p)). rewrite u8_small by (unfold is_u8; lia).
    unfold on_fst, GetStaticBuffer. cbn [fst snd]. rewrite Hl. by rewrite moved_moved.
  - destruct Hdec as (Ht & w & b & Hw & Hl & <- & <- & <-). unfold handle_type. rewrite Ht.
    change (Ipc.MappedBuffer =? CopyHandle) with false. change (Ipc.MappedBuffer =? MoveHandle) with false.
    change (Ipc.MappedBuffer =? CallingPid) with false. change (Ipc.MappedBuffer =? StaticBuffer) with false.
    cbn [orb]. rewrite Hw in *. erewrite bind_Done; [reflexivity|]. unfold PopMappedBuffer.
    erewrite bind_Done by (by apply Pop_u32_run). rewrite Ht, Z.eqb_refl. unfold bind at 1, assert_.
    erewrite bind_Done by (by apply Pop_u32_run).
    unfold on_fst, GetMappedBuffer. cbn [fst snd]. rewrite Hl. by rewrite moved_moved.
Qed.

Lemma PopParams_run c ps args : forall k,
  Forall param_ok ps -> Forall plain_pid ps -> Forall2 (decoded c) ps args ->
  next_words c k (encode ps) ->
  PopParams (descriptor <$> ps) (c, k) = Done (c, moved (length (encode ps)) k) args.
Proof.
  intros k Hps Hpids Hdec. revert k Hps Hpids.
  induction Hdec as [|p a ps args Hd _ IH]; intros k Hps Hpids Hn.
  { simpl. unfold ret, moved. destruct k. simpl. by rewrite Z.add_0_r. }
  apply Forall_cons in Hps as [Hp Hps]. apply Forall_cons in Hpids as [Hpid Hpids].
  rewrite encode_cons in Hn. apply (next_words_app _ _ (descriptor p :: payload p)) in Hn as [H1 H2].
  cbn [fmap list_fmap PopParams]. erewrite bind_Done by (by apply PopParam_run).
  erewrite bind_Done by (by apply IH). unfold ret. rewrite encode_cons. cbn [length].
  by rewrite moved_moved, length_app.
Qed.

(** ** What the service receives *)

(** The parser of a service that knows the shape of its request. *)
Definition parse_request (normal : nat) (ds : list Z) : op (Helper (Object := Object)) (list Z * list argument) :=
  (ws <- pop_words normal ;;
   args <- PopParams ds ;;
   ValidateHeader ;;
   ret (ws, args))%hle.

Lemma parse_request_run c header normal ps args :
  is_command header normal ps -> Forall plain_pid ps -> Forall2 (decoded c) ps args ->
  next_words c (mkCursor 1 header) (normal ++ encode ps) ->
  exists k, parse_request (length normal) (descriptor <$> ps) (c, mkCursor 1 header) =
    Done (c, k) (normal, args).
Proof.
  intros [Hn Ht Hps Hl] Hpids Hdec Hw. apply next_words_app in Hw as [H1 H2].
  eexists. unfold parse_request. erewrite bind_Done by (by apply pop_words_run).
  erewrite bind_Done by (by apply PopParams_run). rewrite moved_moved.
  unfold ValidateHeader, bind, get, assert_, ret, TotalSize, moved. cbn [snd index HleIpc.header].
  rewrite Hn, Ht, (proj2 (Z.eqb_eq _ _)) by lia. done.
Qed.

Lemma copy_in_run src n (c : HLERequestContext (Object := Object)) : copy_in src n c =
  Done (with_buf (take (Z.to_nat n) src ++ drop (Z.to_nat n) (cmd_buf c)) c) tt.
Proof. done. Qed.

Lemma Populate_run host header normal ps stale rest t :
  is_command header normal ps -> NoDup (static_ids ps) -> length stale = 64%nat ->
  let src := command_words header normal ps ++ rest in
  match received host ps t with
  | Some (args, t') => exists c ps', translated ps ps' /\
      PopulateFromIncomingCommandBuffer current_thread current_process process_id page_table host src
        (new_context stale, t) = Done (c, t') tt /\
      (exists rest', cmd_buf c = command_words header normal ps' ++ rest') /\
      length (cmd_buf c) = 64%nat /\ Forall2 (decoded c) ps' args
  | None =>
      PopulateFromIncomingCommandBuffer current_thread current_process process_id page_table host src
        (new_context stale, t) = Aborted
  end.
Proof.
  intros [Hn Ht Hps Hl] Hnd Hstale src. unfold COMMAND_BUFFER_LENGTH in Hl.
  unfold PopulateFromIncomingCommandBuffer.
  erewrite bind_Done by (by eapply load_run). rewrite Hn, Ht.
  set (u := 1 + Z.of_nat (length normal)). set (n := u + Z.of_nat (length (encode ps))).
  erewrite bind_Done by (unfold assert_, COMMAND_BUFFER_LENGTH; rewrite (proj2 (Z.leb_le _ _)) by lia; done).
  erewrite bind_Done by (apply on_fst_Done, copy_in_run).
  assert (Hu : Z.to_nat u = length (header :: normal)) by (simpl; lia).
  assert (Hsrc : src = (header :: normal) ++ encode ps ++ rest).
  { unfold src, command_words. by rewrite app_comm_cons, <-app_assoc. }
  set (c1 := with_buf _ _).
  assert (Hb1 : length (cmd_buf c1) = 64%nat).
  { cbn [c1 with_buf cmd_buf]. rewrite Hu, Hsrc, take_app_length, length_app, length_drop.
    cbn [new_context cmd_buf]. rewrite length_insert. simpl length. lia. }
  assert (Hd : drop (Z.to_nat u) src = encode ps ++ rest) by (by rewrite Hu, Hsrc, drop_app_length).
  pose proof (incoming_loop_run host src ps (S (Z.to_nat n)) rest n u c1 t Hps Hnd ltac:(lia) Hd
    eq_refl ltac:(lia) ltac:(lia)) as H.
  assert (Hpr : progress c1 u).
  { unfold progress. rewrite Hb1. cbn [c1 with_buf static_buffers request_handles request_mapped_buffers new_context].
    rewrite length_replicate. unfold MAX_STATIC_BUFFERS. cbn [length]. lia. }
  specialize (H Hpr). destruct (received host ps t) as [[args t']|]; [|exact H].
  destruct H as (c & ps' & Htr & E & Hst & _ & Hdec). exists c, ps'.
  split; [done|]. split; [exact E|]. unfold stored in Hst. pose proof (translated_length _ _ Htr) as Hle.
  split; [|split; [|done]].
  - exists (drop (Z.to_nat u + length (encode ps'))%nat (cmd_buf c1)).
    rewrite Hst. unfold splice. rewrite (app_assoc (take _ _)). f_equal.
    unfold command_words. rewrite app_comm_cons. f_equal.
    cbn [c1 with_buf cmd_buf]. by rewrite Hu, Hsrc, take_app_length, take_app_length.
  - rewrite Hst, length_splice; [done|]. lia.
Qed.

(** C14: What a guest sends is what the service receives.  A well-formed command
    (any header that announces its sizes, any normal parameters, any list of
    translate parameters with distinct static buffer ids) is taken into a fresh
    context, whatever its memory held, without an access outside the buffers; the
    service that pops the normal parameters and one argument for each descriptor
    gets the words themselves, the objects that the guest's handles refer to (null for
    handle 0; a handle that is moved alone is closed in the guest's table), the guest's process id,
    the bytes at the static buffer's address, and the address, size and rights of a
    mapped buffer, and has then consumed exactly the command.  If a handle is
    invalid the emulator stops, where the comment on [PopGenericObjects] promises
    null (see [invalid_handle_stops]). *)
Theorem request_received host header normal ps stale rest t :
  is_command header normal ps -> NoDup (static_ids ps) -> Forall plain_pid ps ->
  length stale = 64%nat ->
  let src := command_words header normal ps ++ rest in
  let run := PopulateFromIncomingCommandBuffer current_thread current_process process_id page_table
               host src (new_context stale, t) in
  match received host ps t with
  | Some (args, t') => exists c k, run = Done (c, t') tt /\
      parse_request (length normal) (descriptor <$> ps) (c, RequestParser c) = Done (c, k) (normal, args)
  | None => run = Aborted
  end.
Proof.
  intros Hc Hnd Hpids Hl src run. pose proof (Populate_run host header normal ps stale rest t Hc Hnd Hl) as H.
  fold src in H. destruct (received host ps t) as [[args t']|]; [|exact H].
  destruct H as (c & ps' & Htr & E & (rest' & Hb) & Hlen & Hdec).
  assert (Hds : descriptor <$> ps = descriptor <$> ps').
  { clear -Htr. induction Htr as [|p p' ps ps' [E _] _ IH]; [done|]. csimpl. congruence. }
  assert (Hc' : is_command header normal ps').
  { destruct Hc as [H1 H2 H3 H4]. pose proof (translated_length _ _ Htr) as Hle.
    split; [done|by rewrite Hle| |by rewrite Hle].
    clear -Htr H3. induction Htr as [|p p' ps ps' [E El] _ IH]; [constructor|].
    apply Forall_cons in H3 as [[Hp1 Hp2] H3]. constructor; [|by apply IH].
    split; [by rewrite E|by rewrite E, El]. }
  assert (Hpids' : Forall plain_pid ps').
  { clear -Htr Hpids. induction Htr as [|p p' ps ps' [E El] _ IH]; [constructor|].
    apply Forall_cons in Hpids as [Hp Hpids]. constructor; [|by apply IH].
    unfold plain_pid in *. by rewrite E. }
  assert (Hr : RequestParser c = mkCursor 1 header).
  { unfold RequestParser, CommandHeader. by rewrite Hb. }
  destruct (parse_request_run c header normal ps' args) as [k Ek]; try done.
  - split; cbn [index]; [lia|]. exists rest'. change (Z.to_nat 1) with 1%nat. rewrite Hb.
    unfold command_words. simpl. done.
  - exists c, k. by rewrite Hds, Hr.
Qed.
End Requests.
