(* ===== verification/HleIpcReplies.v ===== *)
(** * HleIpcReplies: what a guest gets back

    The reply of a service: a [RequestBuilder] writes the header, the normal
    parameters and the objects, static buffers and mapped buffers, and
    [WriteToOutgoingCommandBuffer] turns them into the words, handles and memory of
    the guest. *)
From S2P Require Import Prelude BitField Result HandleTable Ipc HleIpc HleIpcValues HleIpcRequests.

Local Open Scope Z_scope.

(** ** The translate parameters of a reply *)
Inductive reply_item {Object : Type} :=
  | RObjects (move : bool) (os : list (option Object))
  | RStatic (data : list Z) (buffer_id : Z)
  | RMapped (b : MappedBuffer).
Arguments reply_item : clear implicits.

Section Replies.
Context {Object PageTable : Type} `{!GuestMemory PageTable}.
Variable page_table : PageTable.

Definition push_item (i : reply_item Object) : op Helper unit :=
  match i with
  | RObjects true os => PushMoveObjects os
  | RObjects false os => PushCopyObjects os
  | RStatic data buffer_id => PushStaticBuffer data buffer_id
  | RMapped b => PushMappedBuffer b
  end.

Fixpoint push_items (l : list (reply_item Object)) : op Helper unit :=
  match l with
  | [] => ret tt
  | i :: l => (push_item i ;; push_items l)%hle
  end.

(** A service writes a reply and its builder is destroyed. *)
Definition build_reply (header : Z) (normal : list Z) (items : list (reply_item Object))
    : op HLERequestContext unit := fun c =>
  match RequestBuilder header c with
  | Done c k =>
      match (push_words normal ;; push_items items ;; ValidateHeader)%hle (c, k) with
      | Done (c, _) _ => Done c tt
      | Failed (c, _) rc => Failed c rc
      | Aborted => Aborted
      end
  | Failed c rc => Failed c rc
  | Aborted => Aborted
  end.

Definition item_descriptor (i : reply_item Object) : Z :=
  match i with
  | RObjects true os => MoveHandleDesc (Z.of_nat (length os))
  | RObjects false os => CopyHandleDesc (Z.of_nat (length os))
  | RStatic data buffer_id => StaticBufferDesc (Z.of_nat (length data)) buffer_id
  | RMapped b => GenerateDescriptor b
  end.

Definition item_words (i : reply_item Object) : nat :=
  match i with
  | RObjects _ os => S (length os)
  | _ => 2
  end.

Definition items_words (l : list (reply_item Object)) : nat :=
  foldr (fun i n => (item_words i + n)%nat) 0%nat l.

Definition item_argument (i : reply_item Object) : argument :=
  match i with
  | RObjects _ os => Objects os
  | RStatic data _ => Static data
  | RMapped b => Mapped (mb_address b) (mb_size b) (mb_perms b)
  end.

(** What a service may push: mapped buffers are those of the request. *)
Definition item_ok (mapped : list MappedBuffer) (i : reply_item Object) : Prop :=
  match i with
  | RObjects _ os => (1 <= length os <= 64)%nat
  | RStatic data buffer_id =>
      Z.of_nat (length data) < 0x40000 /\ 0 <= buffer_id < MAX_STATIC_BUFFERS
  | RMapped b =>
      is_u32 (mb_id b) /\ mapped !! Z.to_nat (mb_id b) = Some b /\
      0 <= mb_size b < 0x10000000 /\ 0 <= mb_perms b <= RW
  end.

Definition item_static (i : reply_item Object) : list Z :=
  match i with
  | RStatic _ buffer_id => [buffer_id]
  | _ => []
  end.

(** ** Descriptors *)

Lemma static_desc size buffer_id :
  0 <= size < 0x40000 -> 0 <= buffer_id < 16 ->
  GetDescriptorType (StaticBufferDesc size buffer_id) = StaticBuffer /\
  static_buffer_id (StaticBufferDesc size buffer_id) = buffer_id.
Proof.
  intros Hs Hi. unfold StaticBufferDesc. cbv zeta.
  rewrite u32_small by (unfold is_u32; lia). unfold static_buffer_id.
  split; [|by fields]. apply (GetDescriptorType_low _ StaticBuffer); fields; done.
Qed.

Lemma mapped_desc size perms :
  0 <= perms <= RW -> GetDescriptorType (MappedBufferDesc size perms) = Ipc.MappedBuffer.
Proof.
  intros Hp. change RW with 3 in Hp. unfold MappedBufferDesc. cbv zeta.
  assert (Hc : perms = 0 \/ perms = 1 \/ perms = 2 \/ perms = 3) by lia.
  transitivity (GetDescriptorType (Assign 1 2 (Assign 0 4 0 Ipc.MappedBuffer) perms));
    [apply GetDescriptorType_low; rewrite field_Assign_other by (unfold field_ok; lia); [done|]|];
    by destruct Hc as [-> |[-> |[-> | ->]]].
Qed.

Lemma handles_desc (m : bool) (n : nat) :
  (1 <= n <= 64)%nat ->
  let d := if m then MoveHandleDesc (Z.of_nat n) else CopyHandleDesc (Z.of_nat n) in
  is_u32 d /\ handle_type d = true /\ HandleNumberFromDesc d = Z.of_nat n.
Proof.
  intros Hn. cbv zeta. unfold MoveHandleDesc, CopyHandleDesc, handle_type, is_u32.
  destruct m.
  - rewrite (handle_desc_value MoveHandle) by (auto || lia).
    rewrite handle_desc_type, handle_desc_number by (auto || lia). unfold MoveHandle. split; [lia|done].
  - rewrite (handle_desc_value CopyHandle) by (auto || lia).
    rewrite handle_desc_type, handle_desc_number by (auto || lia). unfold CopyHandle. split; [lia|done].
Qed.

Lemma item_param_ok mapped i ws :
  item_ok mapped i -> S (length ws) = item_words i -> param_ok (mkParam (item_descriptor i) ws).
Proof.
  intros Hi Hl. unfold param_ok. cbn [descriptor payload]. unfold descriptor_words.
  destruct i as [m os|data bid|b]; cbn [item_ok item_words item_descriptor] in *.
  - destruct (handles_desc m (length os) Hi) as (H1 & H2 & H3).
    replace (if m then _ else _) with
      (if m then MoveHandleDesc (Z.of_nat (length os)) else CopyHandleDesc (Z.of_nat (length os))) by (by destruct m).
    split; [done|]. unfold handle_type in H2. rewrite H2, H3. lia.
  - destruct Hi as [Hs Hb]. destruct (static_desc (Z.of_nat (length data)) bid ltac:(lia) Hb) as [-> _].
    split; [apply Assign_u32|]. simpl. lia.
  - destruct Hi as (_ & _ & _ & Hp). unfold GenerateDescriptor. rewrite mapped_desc by done.
    split; [apply Assign_u32|]. simpl. lia.
Qed.

(** ** Pushing *)

Lemma add_handles_run (os : list (option Object)) (c : HLERequestContext) :
  Z.of_nat (length (request_handles c)) + Z.of_nat (length os) < 4294967295 ->
  exists ws, length ws = length os /\ resolved_ids (request_handles c ++ os) ws os /\
    add_handles os c = Done (add_objects os c) ws.
Proof.
  revert c. induction os as [|o os IH]; intros c Hl.
  { exists []. split; [done|]. split; [constructor|]. unfold add_objects. rewrite app_nil_r. by destruct c. }
  cbn [length add_handles] in *.
  destruct (IH (add_objects [o] c)) as (ws & Hlw & Hr & E).
  { cbn [add_objects request_handles]. rewrite length_app. simpl. lia. }
  exists (Z.of_nat (length (request_handles c)) :: ws). split; [cbn [length]; by rewrite Hlw|].
  cbn [add_objects request_handles] in Hr. rewrite <-app_assoc in Hr. split.
  - constructor; [|exact Hr]. split; [unfold is_u32; lia|]. rewrite Nat2Z.id, lookup_app_r by lia.
    by rewrite Nat.sub_diag.
  - erewrite bind_Done by (apply AddOutgoingHandle_run; lia). erewrite bind_Done by exact E.
    unfold ret, add_objects. cbn [cmd_buf request_handles static_buffers request_mapped_buffers].
    by rewrite <-app_assoc.
Qed.

(** What the builder has done at its cursor. *)
Definition building (c : HLERequestContext (Object := Object)) (i : Z) : Prop :=
  length (cmd_buf c) = 64%nat /\ length (static_buffers c) = 16%nat /\
  Z.of_nat (length (request_handles c)) <= i.

Lemma push_handles_run (m : bool) (os : list (option Object)) c k :
  (1 <= length os <= 64)%nat -> building c (index k) -> room c k (S (length os)) ->
  exists ws, length ws = length os /\ resolved_ids (request_handles c ++ os) ws os /\
    push_item (RObjects m os) (c, k) =
    Done (wrote (item_descriptor (RObjects m os) :: ws) (add_objects os c) k, moved (S (length os)) k) tt.
Proof.
  intros Ho (Hb & Hs & Hh) Hr. pose proof Hr as [Hr1 Hr2].
  destruct (add_handles_run os c) as (ws & Hlw & Hres & E); [rewrite Hb in Hr2; lia|].
  exists ws. split; [done|]. split; [done|].
  assert (Hgo : forall d, (Push_u32 d ;; push_words ws)%hle (add_objects os c, k) =
    Done (wrote (d :: ws) (add_objects os c) k, moved (S (length os)) k) tt).
  { intros d. rewrite <-Hlw. apply (push_words_run (d :: ws)). cbn [length]. by rewrite Hlw. }
  unfold push_item, PushMoveObjects, PushCopyObjects. destruct m;
    (erewrite bind_Done by (apply on_fst_Done, E)); rewrite Hlw; apply Hgo.
Qed.

Lemma push_item_run i c k :
  item_ok (request_mapped_buffers c) i -> building c (index k) -> room c k (item_words i) ->
  exists c' ws, S (length ws) = item_words i /\
    push_item i (c, k) = Done (c', moved (item_words i) k) tt /\
    stored c (index k) (item_descriptor i :: ws) c' /\ extends (item_static i) c c' /\
    request_mapped_buffers c' = request_mapped_buffers c /\
    building c' (index (moved (item_words i) k)) /\
    decoded c' (mkParam (item_descriptor i) ws) (item_argument i).
Proof.
  intros Hi Hbu Hr. pose proof Hbu as (Hb & Hs & Hh). pose proof Hr as [Hr1 Hr2].
  destruct i as [m os|data bid|b]; cbn [item_ok item_words item_argument item_static] in *.
  - destruct (push_handles_run m os c k Hi Hbu Hr) as (ws & Hlw & Hres & E).
    destruct (handles_desc m (length os) Hi) as (_ & Ht & _).
    eexists _, ws. split; [by rewrite Hlw|]. split; [exact E|]. split; [done|].
    split; [split; try done; by apply prefix_app_r|]. split; [done|]. split.
    + unfold building, wrote, moved. cbn [with_buf add_objects cmd_buf static_buffers request_handles index].
      rewrite length_splice, length_app by (simpl; lia). lia.
    + split; [|exact Hres]. cbn [descriptor item_descriptor]. by destruct m.
  - destruct Hi as [Hlen Hbid]. unfold MAX_STATIC_BUFFERS in Hbid.
    destruct (static_desc (Z.of_nat (length data)) bid ltac:(lia) Hbid) as [Ht Hid].
    set (d := StaticBufferDesc _ _) in *.
    set (c1 := wrote [d; 0xDEADC0DE] c k).
    set (c2 := mkContext (cmd_buf c1) (request_handles c1) (<[Z.to_nat bid := data]> (static_buffers c1))
      (request_mapped_buffers c1)).
    assert (E : push_item (RStatic data bid) (c, k) = Done (c2, moved 2 k) tt).
    { unfold push_item, PushStaticBuffer, MAX_STATIC_BUFFERS.
      erewrite bind_Done by (unfold assert_; rewrite (proj2 (Z.ltb_lt _ _)) by lia; done).
      pose proof (push_words_run [d; 0xDEADC0DE] c k Hr) as Ep. cbn [push_words length] in Ep. fold c1 in Ep.
      fold d. revert Ep. unfold bind, ret. destruct (Push_u32 d (c, k)) as [s []| |]; [|done..].
      destruct (Push_u32 0xDEADC0DE s) as [s' []| |]; [|done..]. intros [= ->].
      apply on_fst_Done. unfold AddStaticBuffer, in_range, bind, get, assert_, put.
      assert (Hs1 : length (static_buffers c1) = 16%nat) by exact Hs.
      by rewrite Hs1, (proj2 (Z.ltb_lt bid _)) by lia. }
    exists c2, [0xDEADC0DE]. split; [done|]. split; [exact E|]. split; [done|].
    split; [|split; [done|split]].
    + split; try done; [by apply length_insert|]. intros id Hid0 Hn. apply list_lookup_insert_ne.
      intros E'. apply Hn. apply elem_of_cons. left. lia.
    + unfold building, moved. cbn [c2 cmd_buf static_buffers request_handles index].
      rewrite length_insert. unfold c1, wrote. cbn [with_buf cmd_buf static_buffers request_handles].
      rewrite length_splice by (simpl; lia). lia.
    + cbn [decoded descriptor payload item_descriptor]. fold d. split; [done|]. split; [|by eexists].
      rewrite Hid. cbn [c2 static_buffers]. apply list_lookup_insert_eq.
      assert (Hs1 : length (static_buffers c1) = 16%nat) by exact Hs. lia.
  - destruct Hi as (Hu & Hl & _ & Hp).
    exists (wrote [GenerateDescriptor b; mb_id b] c k), [mb_id b]. split; [done|]. split.
    { pose proof (push_words_run [GenerateDescriptor b; mb_id b] c k Hr) as Ep. cbn [push_words length] in Ep.
      rewrite <-Ep. unfold push_item, PushMappedBuffer, bind, ret.
      destruct (Push_u32 _ (c, k)) as [s []| |]; [|done..].
      by destruct (Push_u32 _ s) as [? []| |]. }
    split; [done|]. split; [by split|]. split; [done|]. split.
    + unfold building, wrote, moved. cbn [with_buf cmd_buf static_buffers request_handles index].
      rewrite length_splice by (simpl; lia). lia.
    + cbn [decoded descriptor payload item_descriptor]. unfold GenerateDescriptor at 1.
      split; [by apply mapped_desc|]. exists (mb_id b), b. done.
Qed.

Definition item_statics (l : list (reply_item Object)) : list Z := l ≫= item_static.

Lemma item_static_ids i mapped ws : item_ok mapped i ->
  static_ids [mkParam (item_descriptor i) ws] = item_static i.
Proof.
  intros Hi. unfold static_ids. simpl. destruct i as [m os|data bid|b]; cbn [item_ok item_descriptor item_static] in *.
  - destruct (handles_desc m (length os) Hi) as (_ & Ht & _). unfold handle_type in Ht.
    destruct m; (destruct (GetDescriptorType _ =? StaticBuffer) eqn:E; [|done]);
      apply Z.eqb_eq in E; by rewrite E in Ht.
  - destruct Hi as [Hs Hb]. destruct (static_desc (Z.of_nat (length data)) bid ltac:(lia) Hb) as [-> ->]. done.
  - destruct Hi as (_ & _ & _ & Hp). unfold GenerateDescriptor. by rewrite mapped_desc.
Qed.

(** The parameters that the items became. *)
Definition built : list (reply_item Object) -> list tparam -> Prop :=
  Forall2 (fun i p => descriptor p = item_descriptor i /\ S (length (payload p)) = item_words i).

Lemma built_length l ps : built l ps -> length (encode ps) = items_words l.
Proof.
  induction 1 as [|i p l ps [_ Hl] _ IH]; [done|]. rewrite encode_cons. cbn [length items_words foldr].
  rewrite length_app, IH. fold (items_words l). lia.
Qed.

Lemma push_items_run l : forall c k,
  Forall (item_ok (request_mapped_buffers c)) l -> NoDup (item_statics l) ->
  building c (index k) -> room c k (items_words l) ->
  exists c' ps, built l ps /\
    push_items l (c, k) = Done (c', moved (items_words l) k) tt /\
    stored c (index k) (encode ps) c' /\ extends (item_statics l) c c' /\
    Forall2 (decoded c') ps (item_argument <$> l).
Proof.
  induction l as [|i l IH]; intros c k Hok Hnd Hbu Hr.
  { exists c, []. split; [constructor|]. split.
    { simpl. unfold ret, moved. destruct k. simpl. by rewrite Z.add_0_r. }
    unfold stored. rewrite splice_nil. split; [done|]. split; [by split|constructor]. }
  apply Forall_cons in Hok as [Hi Hok]. unfold item_statics in Hnd. cbn [mbind list_bind] in Hnd.
  apply NoDup_app in Hnd as (_ & Hdis & Hnd). cbn [items_words foldr] in Hr. fold (items_words l) in Hr.
  destruct (push_item_run i c k Hi Hbu) as (c1 & ws & Hl & E & Hst & Hext & Hm & Hbu1 & Hdec);
    [unfold room in *; lia|].
  assert (Hr1 : room c1 (moved (item_words i) k) (items_words l)).
  { destruct Hr as [H1 H2]. destruct Hbu as [Hb _], Hbu1 as [Hb1 _].
    unfold room, moved. cbn [index]. lia. }
  destruct (IH c1 (moved (item_words i) k)) as (c2 & ps & Hb2 & E2 & Hst2 & Hext2 & Hdec2);
    [by rewrite Hm|done|done|done|].
  exists c2, (mkParam (item_descriptor i) ws :: ps). split; [by constructor|].
  split; [cbn [push_items]; erewrite bind_Done by exact E; rewrite E2, moved_moved; done|].
  split; [|split; [|cbn [fmap list_fmap]; constructor; [|done]]].
  - unfold stored in *. rewrite Hst2, Hst, encode_cons. destruct Hr as [H1 H2].
    assert (Hj : Z.to_nat (index (moved (item_words i) k)) =
      (Z.to_nat (index k) + length (item_descriptor i :: ws))%nat) by (unfold moved; cbn [index length]; lia).
    rewrite Hj, splice_app by (cbn [length]; lia). done.
  - unfold item_statics. cbn [mbind list_bind]. by eapply extends_trans.
  - eapply decoded_extends; [exact Hdec|exact Hext2|].
    intros id Hid Hid'. rewrite (item_static_ids i _ ws Hi) in Hid. by apply (Hdis id).
Qed.

Lemma build_reply_run header normal items c :
  normal_params_size header = Z.of_nat (length normal) ->
  translate_params_size header = Z.of_nat (items_words items) ->
  (1 + length normal + items_words items <= 64)%nat ->
  length (cmd_buf c) = 64%nat -> length (static_buffers c) = 16%nat ->
  Forall (item_ok (request_mapped_buffers c)) items -> NoDup (item_statics items) ->
  exists c' ps rest, build_reply header normal items c = Done c' tt /\ built items ps /\
    cmd_buf c' = command_words header normal ps ++ rest /\
    Forall2 (decoded c') ps (item_argument <$> items).
Proof.
  intros Hn Ht Hl Hb Hs Hok Hnd. unfold build_reply, RequestBuilder.
  erewrite bind_Done by done.
  set (c0 := mkContext (cmd_buf c) [] (static_buffers c) (request_mapped_buffers c)).
  erewrite bind_Done by (apply store_run; change (cmd_buf c0) with (cmd_buf c); lia).
  set (c1 := with_buf _ c0). unfold ret at 1.
  assert (Hb1 : length (cmd_buf c1) = 64%nat) by (etrans; [apply (length_splice _ [_]); simpl; lia|done]).
  set (k := mkCursor 1 header).
  assert (Hr : room c1 k (length normal)) by (unfold room; rewrite Hb1; cbn [k index]; lia).
  erewrite bind_Done by (by apply push_words_run).
  set (c2 := wrote normal c1 k).
  assert (Hb2 : length (cmd_buf c2) = 64%nat).
  { unfold c2, wrote. cbn [with_buf cmd_buf k index]. rewrite length_splice; lia. }
  destruct (push_items_run items c2 (moved (length normal) k)) as (c3 & ps & Hbu & E & Hst & _ & Hdec);
    [done|done| |unfold room, moved; rewrite Hb2; cbn [k index]; lia|].
  { unfold building, moved. rewrite Hb2. split; [done|]. split; [exact Hs|]. cbn [k index].
    change (request_handles c2) with (@nil (option Object)). cbn [length]. lia. }
  erewrite bind_Done by exact E. unfold ValidateHeader, bind, get, assert_, TotalSize, moved.
  cbn [snd k index HleIpc.header]. rewrite Hn, Ht, (proj2 (Z.eqb_eq _ _)) by lia.
  eexists c3, ps, _. split; [done|]. split; [done|]. split; [|done].
  unfold stored in Hst. rewrite Hst. unfold c2, wrote, moved. cbn [with_buf cmd_buf k index].
  replace (Z.to_nat (1 + Z.of_nat (length normal))) with (Z.to_nat 1 + length normal)%nat by lia.
  rewrite splice_app by lia. change (Z.to_nat 1) with (0 + length [header])%nat.
  unfold c1. cbn [with_buf cmd_buf]. change (Z.to_nat 0) with 0%nat.
  rewrite splice_app by (simpl; change (cmd_buf c0) with (cmd_buf c); lia).
  unfold splice. simpl take. cbn [app]. unfold command_words. reflexivity.
Qed.

(** ** Delivery *)

(** A handle word of the guest refers to an object. *)
Definition refers (t : @HandleTable Object) (o : option Object) (h : Z) : Prop :=
  match o with
  | None => h = 0
  | Some o => is_handle h /\ resolve t h = Some o
  end.

(** The handles of the guest keep their meaning. *)
Definition keeps (t t' : @HandleTable Object) : Prop :=
  forall h o, is_handle h -> resolve t h = Some o -> resolve t' h = Some o.

Lemma refers_keeps t t' o h : refers t o h -> keeps t t' -> refers t' o h.
Proof. destruct o; simpl; [|done]. intros [Hh Hr] Hk. split; [done|]. by apply Hk. Qed.

Lemma Create_keeps t s fl o t' h :
  ht_wf t (s :: fl) -> Create (Some o) t = Done t' h -> refers t' (Some o) h /\ keeps t t'.
Proof.
  intros Hwf E. destruct (Create_resolve t s fl o t' h Hwf E) as (Hh & Hn & Hr & Hs).
  split; [done|]. intros h' o' Hh' Hr'. rewrite Hs; [done|done|]. intros ->. congruence.
Qed.

Definition object_count (os : list (option Object)) : nat := length (omap (fun o => o) os).

Lemma store_out_run i v (s : Outgoing (Object := Object)) : 0 <= i < Z.of_nat (length (dst_cmdbuf s)) ->
  store_out i v s = Done (mkOutgoing (splice (Z.to_nat i) [v] (dst_cmdbuf s)) (dst_table s) (dst_host s)) tt.
Proof.
  intros Hi. unfold store_out, in_range, bind, get, assert_, put. rewrite (proj2 (Z.ltb_lt _ _)) by lia.
  rewrite splice_insert by lia. done.
Qed.

Lemma outgoing_handles_run c ws (os : list (option Object)) : forall rest i (s : Outgoing) free,
  0 <= i -> drop (Z.to_nat i) (cmd_buf c) = ws ++ rest ->
  resolved_ids (request_handles c) ws os ->
  i + Z.of_nat (length ws) <= Z.of_nat (length (dst_cmdbuf s)) ->
  ht_wf (dst_table s) free -> (object_count os <= length free)%nat ->
  exists hs t' free', length hs = length ws /\
    outgoing_handles c (length ws) i s =
      Done (mkOutgoing (splice (Z.to_nat i) hs (dst_cmdbuf s)) t' (dst_host s)) (i + Z.of_nat (length ws)) /\
    ht_wf t' free' /\ (length free = object_count os + length free')%nat /\
    Forall2 (refers t') os hs /\ keeps (dst_table s) t'.
Proof.
  intros rest i s free Hi Hd Hres. revert rest i s free Hi Hd.
  induction Hres as [|w o ws os [Hw Hl] _ IH]; intros rest i s free Hi Hd Hb Hwf Hf.
  { exists [], (dst_table s), free. split; [done|]. split.
    { simpl. rewrite splice_nil, Z.add_0_r. by destruct s. }
    split; [done|]. split; [done|]. split; [constructor|]. by intros ???. }
  cbn [length outgoing_handles] in *. erewrite bind_Done by (by eapply load_run).
  erewrite bind_Done.
  2:{ unfold reading, GetIncomingHandle, bind, get, assert_, ret.
      apply lookup_lt_Some in Hl as Hlt. unfold is_u32 in Hw. rewrite (proj2 (Z.ltb_lt _ _)) by lia.
      rewrite Hl. reflexivity. }
  cbn [default from_option id].
  assert (Hcreate : exists h t1 free1,
    (if bool_decide (is_Some o) then create_handle o else ret 0) s =
      Done (mkOutgoing (dst_cmdbuf s) t1 (dst_host s)) h /\
    ht_wf t1 free1 /\ (length free = object_count [o] + length free1)%nat /\
    refers t1 o h /\ keeps (dst_table s) t1).
  { destruct o as [o|]; cbn [bool_decide].
    - rewrite bool_decide_eq_true_2 by eauto. unfold object_count in Hf. cbn [omap list_omap length] in Hf.
      destruct free as [|f free]; [simpl in Hf; lia|].
      destruct (Create_run _ f free o Hwf) as (t1 & E & Hwf1 & _).
      destruct (Create_keeps _ _ _ _ _ _ Hwf E) as [Hr1 Hk1].
      exists (f * 32768 + next_generation (dst_table s)), t1, free. unfold create_handle. by rewrite E.
    - rewrite bool_decide_eq_false_2 by (by intros [? ?]). exists 0, (dst_table s), free.
      split; [by destruct s|]. split; [done|]. split; [done|]. split; [done|]. by intros ???. }
  destruct Hcreate as (h & t1 & free1 & E & Hwf1 & Hf1 & Hr1 & Hk1).
  erewrite bind_Done by exact E.
  erewrite bind_Done by (apply store_out_run; cbn [dst_cmdbuf]; lia).
  cbn [dst_cmdbuf dst_table dst_host].
  assert (Hd1 : drop (Z.to_nat (i + 1)) (cmd_buf c) = ws ++ rest).
  { rewrite Z2Nat.inj_add by lia. by apply (drop_app_next _ _ [w]). }
  assert (Hc : object_count (o :: os) = (object_count [o] + object_count os)%nat).
  { unfold object_count. destruct o; done. }
  destruct (IH rest (i + 1) (mkOutgoing (splice (Z.to_nat i) [h] (dst_cmdbuf s)) t1 (dst_host s)) free1)
    as (hs & t2 & free2 & Hlh & E2 & Hwf2 & Hf2 & Hr2 & Hk2);
    [lia|done|cbn [dst_cmdbuf]; rewrite length_splice by (simpl; lia); lia|done|lia|].
  exists (h :: hs), t2, free2. cbn [length]. split; [by rewrite Hlh|]. split.
  - rewrite E2. cbn [dst_cmdbuf dst_table dst_host]. rewrite Z2Nat.inj_add by lia.
    change (Z.to_nat 1) with (length [h]). rewrite splice_app by (simpl; lia). f_equal. lia.
  - split; [done|]. split; [lia|]. split.
    + constructor; [|done]. by eapply refers_keeps.
    + intros h' o' Hh' Hr'. apply Hk2; [done|]. by apply Hk1.
Qed.

(** What the guest has set up for static buffer [id]. *)
Definition target_size (dst : list Z) (id : Z) : Z :=
  static_size (nth (Z.to_nat (COMMAND_BUFFER_LENGTH + 2 * id)) dst 0).
Definition target_address (dst : list Z) (id : Z) : Z :=
  nth (Z.to_nat (COMMAND_BUFFER_LENGTH + 2 * id + 1)) dst 0.

(** The words of an item in the guest's buffer. *)
Definition delivered (dst : list Z) (t : @HandleTable Object) (i : reply_item Object) (p : tparam) : Prop :=
  descriptor p = item_descriptor i /\
  match i with
  | RObjects _ os => Forall2 (refers t) os (payload p)
  | RStatic _ buffer_id => payload p = [target_address dst buffer_id]
  | RMapped b => payload p = [mb_address b]
  end.

Definition item_fits (dst : list Z) (i : reply_item Object) : Prop :=
  match i with
  | RStatic data buffer_id => Z.of_nat (length data) <= target_size dst buffer_id
  | _ => True
  end.

Definition item_objects (i : reply_item Object) : nat :=
  match i with
  | RObjects _ os => object_count os
  | _ => 0%nat
  end.

Definition items_objects (l : list (reply_item Object)) : nat :=
  foldr (fun i n => (item_objects i + n)%nat) 0%nat l.

(** The static buffers written to the guest. *)
Definition write_item (dst : list Z) (host : Z -> Z) (i : reply_item Object) : Z -> Z :=
  match i with
  | RStatic data buffer_id => WriteBlock page_table host (target_address dst buffer_id) data
  | _ => host
  end.

(** The buffer of the guest still has what it set up. *)
Definition same_targets (dst : list Z) (s : Outgoing (Object := Object)) : Prop :=
  length (dst_cmdbuf s) = length dst /\
  forall j, (64 <= j)%nat -> dst_cmdbuf s !! j = dst !! j.

Lemma lookup_splice_after i ws l j :
  (i + length ws <= length l)%nat -> (i + length ws <= j)%nat -> splice i ws l !! j = l !! j.
Proof.
  intros H Hj. unfold splice. rewrite app_assoc.
  assert (Hl : length (take i l ++ ws) = (i + length ws)%nat) by (rewrite length_app, length_take; lia).
  rewrite lookup_app_r by lia. rewrite lookup_drop, Hl. f_equal. lia.
Qed.

Lemma same_targets_splice dst s i ws t h :
  same_targets dst s -> (i + length ws <= 64)%nat -> (96 <= length dst)%nat ->
  same_targets dst (mkOutgoing (splice i ws (dst_cmdbuf s)) t h).
Proof.
  intros [Hl Hs] Hi Hd. split; cbn [dst_cmdbuf]; [rewrite length_splice; lia|].
  intros j Hj. rewrite lookup_splice_after by lia. by apply Hs.
Qed.

Lemma outgoing_param_run c dst i p rest size j (s : Outgoing) free mapped :
  item_ok mapped i -> descriptor p = item_descriptor i -> S (length (payload p)) = item_words i ->
  decoded c p (item_argument i) -> item_fits dst i -> same_targets dst s -> (96 <= length dst)%nat ->
  ht_wf (dst_table s) free -> (item_objects i <= length free)%nat -> 0 <= j ->
  drop (Z.to_nat j) (cmd_buf c) = descriptor p :: payload p ++ rest ->
  j + 1 + Z.of_nat (length (payload p)) <= size <= 64 ->
  exists ws t' free', length ws = length (payload p) /\
    outgoing_param page_table c size j s =
      Done (mkOutgoing (splice (Z.to_nat j) (descriptor p :: ws) (dst_cmdbuf s)) t'
              (write_item dst (dst_host s) i)) (j + 1 + Z.of_nat (length (payload p))) /\
    ht_wf t' free' /\ (length free = item_objects i + length free')%nat /\
    keeps (dst_table s) t' /\ delivered dst t' i (mkParam (descriptor p) ws).
Proof.
  intros Hok Hdesc Hlen Hdec Hfit Hsame Hdst Hwf Hf Hj Hd Hs. pose proof Hsame as [Hsl Hst].
  unfold outgoing_param. erewrite bind_Done by (by eapply load_run).
  erewrite bind_Done by (apply store_out_run; lia).
  set (s1 := mkOutgoing _ _ _).
  assert (Hl1 : length (dst_cmdbuf s1) = length (dst_cmdbuf s))
    by (apply (length_splice _ [_]); simpl; lia).
  assert (Hd1 : drop (Z.to_nat (j + 1)) (cmd_buf c) = payload p ++ rest).
  { rewrite Z2Nat.inj_add by lia. by apply (drop_app_next _ _ [descriptor p]). }
  assert (Hlast : forall ws, (Z.to_nat j + 1 + length ws <= 64)%nat ->
    splice (Z.to_nat (j + 1)) ws (dst_cmdbuf s1) = splice (Z.to_nat j) (descriptor p :: ws) (dst_cmdbuf s)).
  { intros ws Hws. unfold s1. cbn [dst_cmdbuf]. rewrite Z2Nat.inj_add by lia.
    change (Z.to_nat 1) with (length [descriptor p]). by rewrite splice_app by (simpl; lia). }
  assert (Hsame1 : same_targets dst s1)
    by (apply (same_targets_splice dst s _ [_]); [done|simpl; lia|lia]).
  rewrite Hdesc in *. destruct i as [m os|data bid|b]; cbn [item_ok item_argument item_words item_objects] in *.
  - destruct Hdec as [Ht Hres]. rewrite Hdesc in Ht.
    destruct (handles_desc m (length os) Hok) as (_ & _ & Hn).
    assert (Hn' : HandleNumberFromDesc (item_descriptor (RObjects m os)) = Z.of_nat (length (payload p))).
    { injection Hlen as ->. exact Hn. }
    cbv zeta. fold (handle_type (item_descriptor (RObjects m os))). rewrite Ht, Hn', Nat2Z.id.
    erewrite bind_Done by (unfold assert_; rewrite (proj2 (Z.leb_le _ _)) by lia; done).
    destruct (outgoing_handles_run c (payload p) os rest (j + 1) s1 free)
      as (hs & t' & free' & Hlh & E & Hwf' & Hf' & Hr & Hk); [lia|done|done|lia|done|done|].
    exists hs, t', free'. split; [done|]. split; [|done]. rewrite E, Hlast by lia. done.
  - destruct Hdec as (Ht & Hl & w & Hw). rewrite Hdesc in Ht, Hl. rewrite Ht, Hw in *. cbn [length] in *.
    destruct Hok as [Hlend Hbid]. unfold MAX_STATIC_BUFFERS in Hbid.
    destruct (static_desc (Z.of_nat (length data)) bid ltac:(lia) Hbid) as [_ Hid].
    change (StaticBuffer =? CopyHandle) with false. change (StaticBuffer =? MoveHandle) with false.
    cbn [orb]. cbv zeta. rewrite Z.eqb_refl. cbn [item_descriptor] in *. rewrite Hid in *.
    erewrite bind_Done by (unfold reading, GetStaticBuffer; rewrite Hl; done).
    rewrite bind_get. pose proof Hsame1 as [Hsl1 Hst1].
    assert (Hload : forall o, 64 <= o < 96 ->
      load (dst_cmdbuf s1) o s1 = Done s1 (nth (Z.to_nat o) dst 0)).
    { intros o Ho. unfold load. rewrite Hst1 by lia.
      destruct (lookup_lt_is_Some_2 dst (Z.to_nat o) ltac:(lia)) as [v Hv]. rewrite Hv.
      f_equal. symmetry. by apply nth_lookup_Some. }
    erewrite bind_Done by (apply Hload; unfold COMMAND_BUFFER_LENGTH; lia).
    erewrite bind_Done by (apply Hload; unfold COMMAND_BUFFER_LENGTH; lia).
    erewrite bind_Done by (unfold assert_; rewrite (proj2 (Z.leb_le _ _)) by exact Hfit; done).
    unfold write_guest. erewrite bind_Done by done.
    erewrite bind_Done by (apply store_out_run; change (length (dst_cmdbuf s1) = length dst) in Hsl1; cbn [dst_cmdbuf]; lia).
    cbn [dst_cmdbuf dst_table dst_host].
    exists [target_address dst bid], (dst_table s), free. split; [done|]. split.
    { unfold ret. rewrite Hlast by (simpl; lia). done. }
    split; [done|]. split; [done|]. split; [by intros ???|]. by split.
  - destruct Hdec as (Ht & w & b' & Hw & Hl & Ha & _). rewrite Hdesc in Ht. rewrite Ht, Hw in *.
    cbn [length] in *. change (Ipc.MappedBuffer =? CopyHandle) with false.
    change (Ipc.MappedBuffer =? MoveHandle) with false. change (Ipc.MappedBuffer =? StaticBuffer) with false.
    cbn [orb]. cbv zeta. rewrite Z.eqb_refl. erewrite bind_Done by (by eapply load_run; [lia|]).
    erewrite bind_Done by (unfold reading, GetMappedBuffer; rewrite Hl; done).
    erewrite bind_Done by (apply store_out_run; lia).
    exists [mb_address b], (dst_table s), free. split; [done|]. split.
    { unfold ret. rewrite <-Ha, Hlast by (simpl; lia). done. }
    split; [done|]. split; [done|]. split; [by intros ???|]. by split.
Qed.

Lemma keeps_handles_trans t1 t2 t3 : keeps t1 t2 -> keeps t2 t3 -> keeps t1 t3.
Proof. intros H1 H2 h o Hh Hr. apply H2; [done|]. by apply H1. Qed.

Lemma delivered_keeps dst t t' i p : delivered dst t i p -> keeps t t' -> delivered dst t' i p.
Proof.
  intros [Hd H] Hk. split; [done|]. destruct i as [m os| |]; [|done..].
  eapply Forall2_impl; [exact H|]. intros o h Hr. by eapply refers_keeps.
Qed.

Lemma outgoing_loop_run c dst l : forall ps fuel rest size j (s : Outgoing) free mapped,
  Forall (item_ok mapped) l -> built l ps -> Forall2 (decoded c) ps (item_argument <$> l) ->
  Forall (item_fits dst) l -> same_targets dst s -> (96 <= length dst)%nat ->
  ht_wf (dst_table s) free -> (items_objects l <= length free)%nat -> 0 <= j ->
  drop (Z.to_nat j) (cmd_buf c) = encode ps ++ rest ->
  size = j + Z.of_nat (length (encode ps)) -> size <= 64 -> (length (encode ps) < fuel)%nat ->
  exists ps' t' free',
    outgoing_loop page_table c fuel size j s =
      Done (mkOutgoing (splice (Z.to_nat j) (encode ps') (dst_cmdbuf s)) t'
              (foldl (write_item dst) (dst_host s) l)) tt /\
    ht_wf t' free' /\ keeps (dst_table s) t' /\ Forall2 (delivered dst t') l ps' /\
    length (encode ps') = length (encode ps).
Proof.
  intros ps fuel rest size j s free mapped Hok Hb. revert fuel rest size j s free Hok.
  induction Hb as [|i p l ps [Hdesc Hlen] _ IH];
    intros fuel rest size j s free Hok Hdec Hfit Hsame Hdst Hwf Hf Hj Hd Hsz Hs Hfu;
    (destruct fuel as [|fuel]; [lia|]); cbn [outgoing_loop].
  { simpl in Hsz. rewrite (proj2 (Z.ltb_ge _ _)) by lia. exists [], (dst_table s), free.
    split; [rewrite splice_nil; by destruct s|]. split; [done|]. split; [by intros ???|].
    split; [constructor|done]. }
  cbn [fmap list_fmap] in Hdec. apply Forall2_cons in Hdec as [Hdec1 Hdec].
  apply Forall_cons in Hok as [Hok1 Hok]. apply Forall_cons in Hfit as [Hfit1 Hfit].
  apply encode_drop in Hd as [Hd1 Hd2]. rewrite encode_cons in Hsz, Hfu. cbn [length] in Hsz, Hfu.
  rewrite length_app in Hsz, Hfu. cbn [items_objects foldr] in Hf. fold (items_objects l) in Hf.
  rewrite (proj2 (Z.ltb_lt j size)) by lia.
  destruct (outgoing_param_run c dst i p (encode ps ++ rest) size j s free mapped)
    as (ws & t1 & free1 & Hlw & E & Hwf1 & Hf1 & Hk1 & Hdel); try done; [lia|lia|].
  erewrite bind_Done by exact E.
  set (s1 := mkOutgoing _ _ _) in *. set (j1 := j + 1 + Z.of_nat (length (payload p))) in *.
  assert (Hj1 : Z.to_nat j1 = (Z.to_nat j + length (descriptor p :: ws))%nat) by (cbn [length]; lia).
  assert (Hsame1 : same_targets dst s1) by (apply same_targets_splice; [done|cbn [length]; lia|done]).
  assert (Hd3 : drop (Z.to_nat j1) (cmd_buf c) = encode ps ++ rest).
  { rewrite Hj1. cbn [length]. rewrite Hlw, <-Hd2. f_equal. lia. }
  destruct (IH fuel rest size j1 s1 free1) as (ps' & t2 & free2 & E2 & Hwf2 & Hk2 & Hdel2 & Hle);
    try done; try lia.
  exists (mkParam (descriptor p) ws :: ps'), t2, free2. split.
  - rewrite E2, encode_cons. cbn [descriptor payload foldl]. unfold s1. cbn [dst_cmdbuf dst_host].
    rewrite Hj1, splice_app; [done|]. destruct Hsame as [Hl _]. cbn [length]. lia.
  - split; [done|]. split; [by eapply keeps_handles_trans|]. split.
    + constructor; [by eapply delivered_keeps|done].
    + rewrite !encode_cons. cbn [length descriptor payload]. rewrite !length_app. lia.
Qed.

Lemma Write_run c dst header normal items ps rest t free host mapped :
  normal_params_size header = Z.of_nat (length normal) ->
  translate_params_size header = Z.of_nat (items_words items) ->
  (1 + length normal + items_words items <= 64)%nat ->
  cmd_buf c = command_words header normal ps ++ rest ->
  Forall (item_ok mapped) items -> built items ps -> Forall2 (decoded c) ps (item_argument <$> items) ->
  Forall (item_fits dst) items -> (96 <= length dst)%nat ->
  ht_wf t free -> (items_objects items <= length free)%nat ->
  exists ps' t' free',
    WriteToOutgoingCommandBuffer page_table c (mkOutgoing dst t host) =
      Done (mkOutgoing (command_words header normal ps' ++
                        drop (1 + length normal + items_words items) dst)
              t' (foldl (write_item dst) host items)) tt /\
    ht_wf t' free' /\ keeps t t' /\ Forall2 (delivered dst t') items ps'.
Proof.
  intros Hn Ht Hl Hb Hok Hbu Hdec Hfit Hdst Hwf Hf.
  pose proof (built_length _ _ Hbu) as Hle.
  assert (Hc : cmd_buf c = (header :: normal) ++ encode ps ++ rest).
  { rewrite Hb. unfold command_words. by rewrite app_comm_cons, <-app_assoc. }
  unfold WriteToOutgoingCommandBuffer.
  erewrite bind_Done by (eapply load_run; [lia|by rewrite Hb]). rewrite Hn, Ht.
  set (u := 1 + Z.of_nat (length normal)). set (n := u + Z.of_nat (items_words items)).
  erewrite bind_Done by (unfold assert_, COMMAND_BUFFER_LENGTH; rewrite (proj2 (Z.leb_le _ _)) by lia; done).
  assert (Hu : Z.to_nat u = length (header :: normal)) by (cbn [length]; lia).
  set (s1 := mkOutgoing ((header :: normal) ++ drop (Z.to_nat u) dst) t host).
  assert (E1 : copy_out c u (mkOutgoing dst t host) = Done s1 tt).
  { unfold copy_out, in_range, bind, get, assert_, put. cbn [dst_cmdbuf dst_table dst_host].
    rewrite (proj2 (Z.ltb_lt (u - 1) _)) by lia. unfold s1.
    by rewrite Hc, Hu, take_app_length. }
  erewrite bind_Done by exact E1.
  assert (Hlen : length (dst_cmdbuf s1) = length dst).
  { unfold s1. cbn [dst_cmdbuf]. rewrite length_app, length_drop. cbn [length]. lia. }
  destruct (outgoing_loop_run c dst items ps (S (Z.to_nat n)) rest n u s1 free mapped)
    as (ps' & t' & free' & E & Hwf' & Hk & Hdel & Hle'); try done; try lia.
  - split; [done|]. intros j Hj. unfold s1. cbn [dst_cmdbuf].
    rewrite lookup_app_r by (cbn [length]; lia). rewrite lookup_drop. f_equal. cbn [length]. lia.
  - by rewrite Hu, Hc, drop_app_length.
  - exists ps', t', free'. split; [|done]. rewrite E. unfold s1. cbn [dst_cmdbuf dst_host].
    f_equal. f_equal. rewrite Hu. unfold splice. rewrite take_app_length. unfold command_words.
    rewrite app_comm_cons, <-app_assoc. f_equal. f_equal.
    rewrite <-(drop_drop _ (length (encode ps')) (length (header :: normal))), drop_app_length, drop_drop.
    f_equal. cbn [length]. lia.
Qed.

(** C15: What a service replies is what the guest gets.  A builder that is given a
    header announcing its sizes, normal parameters and any objects, static buffers
    (with distinct ids) and mapped buffers of the request that fit the command
    buffer, is destroyed without complaint; translating the result for a guest whose
    handle table has room and whose static buffers are large enough never leaves a
    buffer, and gives the guest the header, the normal parameters, the descriptors,
    for every object a handle that refers to it (0 for null), for a static
    buffer the address that the guest had set up, with the bytes written there, and
    for a mapped buffer its own address; all its other handles keep their meaning and
    the rest of its buffer is untouched. *)
Theorem reply_delivered header normal items c dst t free host :
  normal_params_size header = Z.of_nat (length normal) ->
  translate_params_size header = Z.of_nat (items_words items) ->
  (1 + length normal + items_words items <= 64)%nat ->
  length (cmd_buf c) = 64%nat -> length (static_buffers c) = 16%nat ->
  Forall (item_ok (request_mapped_buffers c)) items -> NoDup (item_statics items) ->
  Forall (item_fits dst) items -> (96 <= length dst)%nat ->
  ht_wf t free -> (items_objects items <= length free)%nat ->
  exists c' ps t', build_reply header normal items c = Done c' tt /\
    WriteToOutgoingCommandBuffer page_table c' (mkOutgoing dst t host) =
      Done (mkOutgoing (command_words header normal ps ++
                        drop (1 + length normal + items_words items) dst)
              t' (foldl (write_item dst) host items)) tt /\
    (exists free', ht_wf t' free') /\ keeps t t' /\ Forall2 (delivered dst t') items ps.
Proof.
  intros Hn Ht Hl Hb Hs Hok Hnd Hfit Hdst Hwf Hf.
  destruct (build_reply_run header normal items c) as (c' & ps & rest & E & Hbu & Hc & Hdec); try done.
  destruct (Write_run c' dst header normal items ps rest t free host (request_mapped_buffers c))
    as (ps' & t' & free' & E' & Hwf' & Hk & Hdel); try done.
  exists c', ps', t'. split; [done|]. split; [done|]. split; [by exists free'|]. done.
Qed.
End Replies.
