(* ===== verification/HleIpcModel.v ===== *)
(** * HleIpcModel: a guest and a service

    Flat memory, a guest with one object, a request with a handle and a mapped
    buffer, and its reply. *)
From S2P Require Import Prelude BitField Result HandleTable Ipc HleIpc HleIpcValues HleIpcRequests.
From S2P Require Import HleIpcReplies.

Local Open Scope Z_scope.

(** Virtual addresses are host addresses. *)
#[export] Instance flat_memory : GuestMemory unit := {
  ReadBlock _ h a n := (fun i => h (a + Z.of_nat i)) <$> seq 0 (Z.to_nat n);
  WriteBlock _ h a data := fun p => default (h p) (if a <=? p then data !! Z.to_nat (p - a) else None);
  CopyBlock _ _ h dst src n := fun p => if (dst <=? p) && (p <? dst + n) then h (src + (p - dst)) else h p
}.

#[export] Instance flat_memory_laws : GuestMemoryLaws unit.
Proof. split. intros pt h a n Hn. simpl. by rewrite length_fmap, length_seq. Qed.

(** The object 7 has the handle 1. *)
Definition guest_table : @HandleTable nat :=
  match Create (Some 7%nat) HandleTable_init with Done t _ => t | _ => HandleTable_init end.

Definition sample_params : list tparam :=
  [mkParam (CopyHandleDesc 2) [1; 0]; mkParam CallingPidDesc [0];
   mkParam (MappedBufferDesc 16 RW) [0x1000]; mkParam (StaticBufferDesc 2 3) [5]].

Definition sample_header : Z := MakeHeader 0x801 1 9.

Definition receive_sample (t : @HandleTable nat) : outcome Incoming unit :=
  PopulateFromIncomingCommandBuffer None None 42 tt (fun a => a)
    (command_words sample_header [17] sample_params ++ replicate 80 0)
    (new_context (replicate 64 0xFFFFFFFF), t).

Lemma sample_command : is_command sample_header [17] sample_params.
Proof.
  split; try done. unfold sample_params. rewrite !Forall_cons, Forall_nil. unfold param_ok.
  split_and!; try done; by vm_compute.
Qed.

Lemma sample_received :
  received None None 42 tt (fun a => a) sample_params guest_table =
  Some ([Objects [Some 7%nat; None]; Pid 42; Mapped 0x1000 16 3; Static [5; 6]], guest_table).
Proof. vm_compute. reflexivity. Qed.

Lemma request_received_witness :
  exists c k, receive_sample guest_table = Done (c, guest_table) tt /\
    parse_request 1 (descriptor <$> sample_params) (c, RequestParser c) =
    Done (c, k) ([17], [Objects [Some 7%nat; None]; Pid 42; Mapped 0x1000 16 3; Static [5; 6]]).
Proof.
  pose proof (request_received None None 42 tt (fun a => a) sample_header [17] sample_params
    (replicate 64 0xFFFFFFFF) (replicate 80 0) guest_table sample_command) as H.
  cbv zeta in H. rewrite sample_received in H. apply H.
  - change (static_ids sample_params) with [3]. apply NoDup_singleton.
  - unfold sample_params. rewrite !Forall_cons, Forall_nil. unfold plain_pid. split_and!; try done.
  - reflexivity.
Defined.

(** The reply: the object back, a new one and none, two bytes for the static
    buffer 3, and the mapped buffer. *)
Definition sample_mapped : MappedBuffer := mkMapped 0 0x1000 16 3.

Definition sample_items : list (reply_item nat) :=
  [RObjects true [Some 7%nat; Some 8%nat; None]; RStatic [1; 2] 3; RMapped sample_mapped].

Definition sample_context : HLERequestContext (Object := nat) :=
  mkContext (replicate 64 0xFFFFFFFF) [] (replicate 16 []) [sample_mapped].

(** The guest has set up static buffer 3 at 0x2000. *)
Definition sample_dst : list Z :=
  replicate 70 0 ++ [StaticBufferDesc 0x10 3; 0x2000] ++ replicate 24 0.

Lemma guest_table_wf : exists free, ht_wf guest_table free /\ length free = 4095%nat.
Proof.
  pose proof (HandleTable_init_wf (Object := nat)) as H.
  assert (Hl : length (Z.of_nat <$> seq 0 (Z.to_nat MAX_COUNT)) = 4096%nat)
    by (rewrite length_fmap, length_seq; unfold MAX_COUNT; lia).
  revert H Hl. generalize (Z.of_nat <$> seq 0 (Z.to_nat MAX_COUNT)). intros l H Hl.
  destruct l as [|s fl]; [simpl in Hl; lia|].
  destruct (Create_run _ _ _ 7%nat H) as (t' & Et & Hwf & _).
  exists fl. unfold guest_table. rewrite Et. split; [exact Hwf|]. by injection Hl.
Qed.

Lemma reply_delivered_witness :
  exists c' ps t', build_reply (MakeHeader 0x801 1 8) [0] sample_items sample_context = Done c' tt /\
    WriteToOutgoingCommandBuffer tt c' (mkOutgoing sample_dst guest_table (fun _ => 0)) =
      Done (mkOutgoing (command_words (MakeHeader 0x801 1 8) [0] ps ++ drop 10 sample_dst) t'
              (WriteBlock tt (fun _ => 0) 0x2000 [1; 2])) tt /\
    (exists free', ht_wf t' free') /\ keeps guest_table t' /\
    Forall2 (delivered sample_dst t') sample_items ps.
Proof.
  destruct guest_table_wf as (free & Hwf & Hl).
  apply (reply_delivered tt (MakeHeader 0x801 1 8) [0] sample_items sample_context sample_dst
    guest_table free (fun _ => 0)); try done.
  - simpl. lia.
  - unfold sample_items. rewrite !Forall_cons, Forall_nil. cbn [item_ok].
    split; [simpl; lia|]. split; [by vm_compute|]. split; [|done]. by vm_compute.
  - apply NoDup_singleton.
  - unfold sample_items. rewrite !Forall_cons, Forall_nil. split; [done|]. split; [|done]. by vm_compute.
  - rewrite Hl. simpl. lia.
Defined.
