(* ===== verification/IpcTranslate.v ===== *)
(** * IpcTranslate: commands between two processes (core/hle/kernel/ipc.cpp, ipc.h)

    [TranslateCommandBuffer] copies a command from the thread that sends to the one
    that receives: handles move from one table to the other, static buffers are
    copied, mapped buffers are placed in the address space of the receiver between
    two guard pages and removed by the reply.  The state [Sys] is what the function
    changes besides its local buffer; processes are known by a key, so that sender
    and receiver may be the same. *)
From stdpp Require Import gmap.
From S2P Require Import Prelude BitField Result HandleTable MemoryRegion VMManager Process Ipc HleIpc.

Local Open Scope Z_scope.

(** [Common::AlignDown] and [AlignUp] of common/alignment.h at type u32. *)
Definition AlignDown (value size : Z) : Z := u32 (value - value mod size).

Definition AlignUp (value size : Z) : Z :=
  let mod_ := value mod size in
  let value := value - mod_ in
  u32 (if mod_ =? 0 then value else value + size).

(** Where mapped buffers are placed; part of the missing core/memory.h. *)
Class IpcArea := {
  IPC_MAPPING_VADDR : Z;
  IPC_MAPPING_SIZE : Z;
  CITRA_PAGE_BITS : Z
}.

(** [struct MappedBufferContext] *)
Record MappedBufferContext := mkMapping {
  mc_permissions : Z;
  mc_size : Z;
  mc_source_address : Z;
  mc_target_address : Z;
  mc_buffer : BackingMem
}.

Section Translate.
Context {Object : Type} `{!MemorySystem} `{!GuestMemory PageTable} `{!IpcArea}.

Record KProcess := mkKProcess {
  process_id : Z;
  handle_table : @HandleTable Object;
  vm_manager : @VMManager PageTable
}.

Record Sys := mkSys {
  processes : gmap Z KProcess;
  host : Z -> Z;
  (** Where the next host allocation is placed. *)
  heap : Z;
  mapped_buffer_context : list MappedBufferContext
}.

Definition with_process (k : Z) (p : KProcess) (s : Sys) : Sys :=
  mkSys (<[k := p]> (processes s)) (host s) (heap s) (mapped_buffer_context s).

Definition with_contexts (l : list MappedBufferContext) (s : Sys) : Sys :=
  mkSys (processes s) (host s) (heap s) l.

Definition with_memory (h : Z -> Z) (s : Sys) : Sys :=
  mkSys (processes s) h (heap s) (mapped_buffer_context s).

Definition the_process (k : Z) : op Sys KProcess := fun s =>
  match processes s !! k with
  | Some p => Done s p
  | None => Aborted
  end.

(** An operation on the handle table or the address space of a process. *)
Definition on_table {A} (k : Z) (m : op (@HandleTable Object) A) : op Sys A := fun s =>
  match processes s !! k with
  | None => Aborted
  | Some p =>
      let next t := with_process k (mkKProcess (process_id p) t (vm_manager p)) s in
      match m (handle_table p) with
      | Done t a => Done (next t) a
      | Failed t rc => Failed (next t) rc
      | Aborted => Aborted
      end
  end.

Definition on_space {A} (k : Z) (m : op (@VMManager PageTable) A) : op Sys A := fun s =>
  match processes s !! k with
  | None => Aborted
  | Some p =>
      let next v := with_process k (mkKProcess (process_id p) (handle_table p) v) s in
      match m (vm_manager p) with
      | Done v a => Done (next v) a
      | Failed v rc => Failed (next v) rc
      | Aborted => Aborted
      end
  end.

(** [memory.ReadBlock(process, address, data, size)] and [WriteBlock] *)
Definition read_block (k address size : Z) : op Sys (list Z) :=
  (p <- the_process k ;;
   s <- get ;;
   ret (ReadBlock (page_table (vm_manager p)) (host s) address size))%hle.

Definition write_block (k address : Z) (data : list Z) : op Sys unit :=
  (p <- the_process k ;;
   s <- get ;;
   put (with_memory (WriteBlock (page_table (vm_manager p)) (host s) address data) s))%hle.

Definition copy_block (dst src dst_address src_address size : Z) : op Sys unit :=
  (d <- the_process dst ;;
   p <- the_process src ;;
   s <- get ;;
   put (with_memory (CopyBlock (page_table (vm_manager d)) (page_table (vm_manager p)) (host s)
                       dst_address src_address size) s))%hle.

(** [std::make_shared<BufferMem>(size)]: a zeroed vector.  The next allocation does
    not begin where this one ends. *)
Definition new_buffer (size : Z) : op Sys BackingMem :=
  (s <- get ;;
   let b := mkMem (heap s) size in
   put (mkSys (processes s) (fun p => if (heap s <=? p) && (p <? heap s + size) then 0 else host s p)
          (heap s + size + 1) (mapped_buffer_context s)) ;;
   ret b)%hle.

(** Bytes stored through a host pointer. *)
Definition poke (pointer : Z) (data : list Z) : op Sys unit :=
  (s <- get ;;
   put (with_memory (fun p => if pointer <=? p then
                                default (host s p) (data !! Z.to_nat (p - pointer)) else host s p) s))%hle.

Section Call.
(** The arguments: the threads as objects, their processes (null when the weak
    pointer has expired), the process objects, and the kernel's current thread and
    process, which [GetGeneric] uses. *)
Variables (current_thread current_process : option Object).
Variables (src_thread src_process_object : Object) (src_process dst_process : Z).
Variables (dst_address : Z) (reply : bool).

Definition Local_ : Type := Sys * list Z.

Definition store_cmd (i v : Z) : op Local_ unit :=
  on_snd (l <- get ;; in_range i (length l) ;; put (<[Z.to_nat i := v]> l))%hle.

Definition load_cmd (i : Z) : op Local_ Z := (s <- get ;; load s.2 i)%hle.

(** One handle; the word stored in its place. *)
Definition translate_handle (descriptor handle : Z) : op Sys Z :=
  (object <- (if handle =? CurrentThread then ret (Some src_thread)
              else if handle =? CurrentProcess then ret (Some src_process_object)
              else if negb (handle =? 0) then
                p <- the_process src_process ;;
                let object := GetGeneric current_thread current_process (handle_table p) handle in
                (if descriptor =? MoveHandle then dropping (on_table src_process (Close handle))
                 else ret tt) ;;
                ret object
              else ret None) ;;
   match object with
   | None => ret 0
   | Some _ => R_ASSERT (on_table dst_process (Create object))
   end)%hle.

Fixpoint translate_handles (descriptor : Z) (n : nat) (i : Z) : op Local_ Z :=
  match n with
  | O => ret i
  | S n =>
      (handle <- load_cmd i ;;
       v <- on_fst (translate_handle descriptor handle) ;;
       store_cmd i v ;;
       translate_handles descriptor n (i + 1))%hle
  end.

Definition word_at (bytes : list Z) (i : nat) : Z := le_value (take 4 (drop (4 * i) bytes)).

(** The [StaticBuffer] case. *)
Definition translate_static (descriptor static_buffer_src_address : Z) : op Sys Z :=
  (data <- read_block src_process static_buffer_src_address (static_size descriptor) ;;
   let static_buffer_offset := u32 (COMMAND_BUFFER_LENGTH * 4 + 8 * static_buffer_id descriptor) in
   target_buffer <- read_block dst_process (u32 (dst_address + static_buffer_offset)) 8 ;;
   let target_address := word_at target_buffer 1 in
   assert_ (Z.of_nat (length data) <=? static_size (word_at target_buffer 0)) ;;
   write_block dst_process target_address data ;;
   ret target_address)%hle.

(** The [MappedBuffer] case of a reply; the word is left as it is. *)
Definition matches (perms size address : Z) (c : MappedBufferContext) : bool :=
  (mc_permissions c =? perms) && (mc_size c =? size) && (mc_target_address c =? address).

Fixpoint erase_first (f : MappedBufferContext -> bool) (l : list MappedBufferContext)
    : list MappedBufferContext :=
  match l with
  | [] => []
  | c :: l => if f c then l else c :: erase_first f l
  end.

Definition area_at (k address : Z) : op Sys VirtualMemoryArea :=
  (it <- on_space k (FindVMA address) ;; on_space k (deref it))%hle.

Definition unmap_reply (source_address size perms page_start num_pages : Z) : op Sys unit :=
  (s <- get ;;
   match find (matches perms size source_address) (mapped_buffer_context s) with
   | None => assert_ false
   | Some found =>
       (if negb (perms =? R) then
          copy_block dst_process src_process (mc_source_address found)
            (mc_target_address found) size
        else ret tt) ;;
       prev_vma <- area_at src_process (u32 (page_start - CITRA_PAGE_SIZE)) ;;
       next_vma <- area_at src_process (u32 (page_start + u32 (num_pages * CITRA_PAGE_SIZE))) ;;
       assert_ (bool_decide (meminfo_state prev_vma = Reserved) &&
                bool_decide (meminfo_state next_vma = Reserved)) ;;
       R_ASSERT (on_space src_process
                   (UnmapRange MapMemoryRegion UnmapRegion CITRA_PAGE_MASK
                      (u32 (page_start - CITRA_PAGE_SIZE)) (u32 (u32 (num_pages + 2) * CITRA_PAGE_SIZE)))) ;;
       s <- get ;;
       put (with_contexts (erase_first (matches perms size source_address) (mapped_buffer_context s)) s)
   end)%hle.

(** The guard pages lose all rights. *)
Definition guard (address : Z) : op Sys unit :=
  R_ASSERT (on_space dst_process
    (ChangeMemoryState MapMemoryRegion UnmapRegion CITRA_PAGE_MASK address CITRA_PAGE_SIZE
       Shared ReadWrite Reserved None_)).

(** The [MappedBuffer] case of a request. *)
Definition map_request (source_address size perms page_offset num_pages : Z) : op Sys Z :=
  (buffer <- new_buffer (u32 (u32 (num_pages + 2) * CITRA_PAGE_SIZE)) ;;
   data <- read_block src_process source_address size ;;
   poke (mem_ptr buffer + CITRA_PAGE_SIZE + page_offset) data ;;
   target_address <- R_ASSERT (on_space dst_process
     (MapBackingMemoryToBase MapMemoryRegion UnmapRegion CITRA_PAGE_MASK IPC_MAPPING_VADDR IPC_MAPPING_SIZE
        (mkRef (Some buffer) 0) (u32 (mem_size buffer)) Shared)) ;;
   let low_guard_address := target_address in
   let high_guard_address := u32 (u32 (low_guard_address + mem_size buffer) - CITRA_PAGE_SIZE) in
   guard low_guard_address ;;
   guard high_guard_address ;;
   let target_address := u32 (target_address + CITRA_PAGE_SIZE) in
   s <- get ;;
   put (with_contexts (mapped_buffer_context s ++
          [mkMapping perms size source_address (u32 (target_address + page_offset)) buffer]) s) ;;
   ret (u32 (target_address + page_offset)))%hle.

(** The [MappedBuffer] case; [None] leaves the word as it is. *)
Definition translate_mapped (descriptor source_address : Z) : op Sys (option Z) :=
  (let size := mapped_size descriptor in
   let permissions := mapped_perms descriptor in
   let page_start := AlignDown source_address CITRA_PAGE_SIZE in
   let page_offset := u32 (source_address - page_start) in
   let num_pages := Z.shiftr (AlignUp (u32 (page_offset + size)) CITRA_PAGE_SIZE) CITRA_PAGE_BITS in
   if size =? 0 then ret (Some 0)
   else
     assert_ (1 <=? num_pages) ;;
     if reply then
       unmap_reply source_address size permissions page_start num_pages ;;
       ret None
     else
       v <- map_request source_address size permissions page_offset num_pages ;;
       ret (Some v))%hle.

Definition CommandTooLarge : Result :=
  Result_of (ErrCodes.ErrCodes_value ErrCodes.CommandTooLarge) ErrorModule.OS ErrorSummary.InvalidState
    ErrorLevel.Status.

(** The body of the loop at [i]; returns the index after the parameter. *)
Definition translate_at (command_size i : Z) : op Local_ Z :=
  (descriptor <- load_cmd i ;;
   let i := i + 1 in
   let type := GetDescriptorType descriptor in
   if (type =? CopyHandle) || (type =? MoveHandle) then
     let num_handles := HandleNumberFromDesc descriptor in
     R_UNLESS (i + num_handles <=? command_size) CommandTooLarge ;;
     translate_handles descriptor (Z.to_nat num_handles) i
   else if type =? CallingPid then
     p <- on_fst (the_process src_process) ;;
     store_cmd i (process_id p) ;;
     ret (i + 1)
   else if type =? StaticBuffer then
     address <- load_cmd i ;;
     v <- on_fst (translate_static descriptor address) ;;
     store_cmd i v ;;
     ret (i + 1)
   else if type =? Ipc.MappedBuffer then
     address <- load_cmd i ;;
     v <- on_fst (translate_mapped descriptor address) ;;
     match v with
     | Some v => store_cmd i v
     | None => ret tt
     end ;;
     ret (i + 1)
   else (* UNIMPLEMENTED_MSG *) assert_ false ;; ret i)%hle.

Fixpoint translate_loop (fuel : nat) (command_size i : Z) : op Local_ unit :=
  match fuel with
  | O => fun _ => Aborted
  | S fuel =>
      if i <? command_size then
        (i <- translate_at command_size i ;; translate_loop fuel command_size i)%hle
      else ret tt
  end.
End Call.

(** An operation with a local array. *)
Definition with_local {A} (l : list Z) (m : op Local_ A) : op Sys (list Z) := fun s =>
  match m (s, l) with
  | Done s' _ => Done s'.1 s'.2
  | Failed s' rc => Failed s'.1 rc
  | Aborted => Aborted
  end.

(** [cmd_buf] is not initialised: [stale] is what it holds. *)
Definition TranslateCommandBuffer (stale : list Z) (current_thread current_process : option Object)
    (src_thread src_process_object : Object) (src_process dst_process : option Z)
    (src_address dst_address : Z) (reply : bool) : op Sys unit :=
  match src_process, dst_process with
  | Some src, Some dst =>
      (bytes <- read_block src src_address 4 ;;
       let header := word_at bytes 0 in
       let untranslated_size := 1 + normal_params_size header in
       let command_size := untranslated_size + translate_params_size header in
       assert_ (command_size <=? COMMAND_BUFFER_LENGTH) ;;
       bytes <- read_block src src_address (command_size * 4) ;;
       let cmd_buf := bytes_words (Z.to_nat command_size) bytes ++ drop (Z.to_nat command_size) stale in
       cmd_buf <- with_local cmd_buf
         (translate_loop current_thread current_process src_thread src_process_object src dst
            dst_address reply (S (Z.to_nat command_size)) command_size untranslated_size) ;;
       write_block dst dst_address (words_bytes (take (Z.to_nat command_size) cmd_buf)))%hle
  | _, _ => assert_ false
  end.
End Translate.
