(* ===== verification/IpcCommands.v ===== *)
(** * IpcCommands: a command is translated parameter by parameter

    [TranslateCommandBuffer] walks an array with an index; here the same command is a
    list of parameters, each translated on its own, and the two agree on every
    well-formed command, errors included.  Then what happens to handles. *)
From stdpp Require Import gmap.
From S2P Require Import Prelude BitField Result HandleTable MemoryRegion VMManager Process Ipc HleIpc.
From S2P Require Import HleIpcValues HleIpcRequests HleIpcReplies IpcTranslate.

Local Open Scope Z_scope.

Section Commands.
Context {Object : Type} `{!MemorySystem} `{!GuestMemory PageTable} `{!IpcArea}.
Variables (current_thread current_process : option Object).
Variables (src_thread src_process_object : Object) (src dst : Z).
Variables (dst_address : Z) (reply : bool).

Local Abbreviation translate_handle :=
  (translate_handle current_thread current_process src_thread src_process_object src dst).
Local Abbreviation translate_handles :=
  (translate_handles current_thread current_process src_thread src_process_object src dst).
Local Abbreviation translate_at :=
  (translate_at current_thread current_process src_thread src_process_object src dst dst_address reply).
Local Abbreviation translate_loop :=
  (translate_loop current_thread current_process src_thread src_process_object src dst dst_address reply).

(** ** Parameters *)

Fixpoint handle_words (descriptor : Z) (hs : list Z) : op (Sys (Object := Object)) (list Z) :=
  match hs with
  | [] => ret []
  | h :: hs =>
      (v <- translate_handle descriptor h ;; vs <- handle_words descriptor hs ;; ret (v :: vs))%hle
  end.

Definition param_words (p : tparam) : op (Sys (Object := Object)) (list Z) :=
  let d := descriptor p in
  let w := nth 0 (payload p) 0 in
  if handle_type d then handle_words d (payload p)
  else if GetDescriptorType d =? CallingPid then
    (k <- the_process src ;; ret [process_id k])%hle
  else if GetDescriptorType d =? StaticBuffer then
    (v <- translate_static src dst dst_address d w ;; ret [v])%hle
  else if GetDescriptorType d =? Ipc.MappedBuffer then
    (v <- translate_mapped src dst reply d w ;; ret [default w v])%hle
  else (assert_ false ;; ret [])%hle.

Fixpoint translate_params (ps : list tparam) : op (Sys (Object := Object)) (list tparam) :=
  match ps with
  | [] => ret []
  | p :: ps =>
      (ws <- param_words p ;; ps' <- translate_params ps ;;
       ret (mkParam (descriptor p) ws :: ps'))%hle
  end.

(** ** The array holds what the list says *)

(** [m] on the array and [spec] on the list do the same: [m] leaves [ws] at [i]. *)
Definition implements {A} (i : nat) (l : list Z) (m : outcome (Local_ (Object := Object)) A)
    (a : A) (n : nat) (spec : outcome (Sys (Object := Object)) (list Z)) : Prop :=
  match spec with
  | Done s ws => length ws = n /\ m = Done (s, splice i ws l) a
  | Failed s rc => exists l', m = Failed (s, l') rc
  | Aborted => m = Aborted
  end.

Lemma store_cmd_run i v s (l : list Z) :
  0 <= i < Z.of_nat (length l) ->
  store_cmd (Object := Object) i v (s, l) = Done (s, splice (Z.to_nat i) [v] l) tt.
Proof.
  intros Hi. unfold store_cmd, on_snd, bind, get, in_range, assert_, put. cbn [fst snd].
  rewrite (proj2 (Z.ltb_lt _ _)) by lia. rewrite splice_insert by lia. done.
Qed.

Lemma load_cmd_run i w ws s (l : list Z) :
  0 <= i -> drop (Z.to_nat i) l = w :: ws -> load_cmd (Object := Object) i (s, l) = Done (s, l) w.
Proof. intros Hi Hd. unfold load_cmd. rewrite bind_get. by eapply load_run. Qed.

Lemma bind_run {S A B} (m : op S A) (k : A -> op S B) s :
  bind m k s =
  match m s with Done s' a => k a s' | Failed s' rc => Failed s' rc | Aborted => Aborted end.
Proof. done. Qed.

Lemma on_fst_run {S T A} (m : op S A) (s : S) (t : T) :
  on_fst m (s, t) =
  match m s with Done s' a => Done (s', t) a | Failed s' rc => Failed (s', t) rc | Aborted => Aborted end.
Proof. done. Qed.

Lemma handles_implement d hs : forall rest i s l,
  0 <= i -> drop (Z.to_nat i) l = hs ++ rest -> i + Z.of_nat (length hs) <= Z.of_nat (length l) ->
  implements (Z.to_nat i) l (translate_handles d (length hs) i (s, l)) (i + Z.of_nat (length hs))
    (length hs) (handle_words d hs s).
Proof.
  induction hs as [|h hs IH]; intros rest i s l Hi Hd Hl.
  { split; [done|]. rewrite splice_nil. cbn [length]. by rewrite Z.add_0_r. }
  cbn [length translate_handles handle_words] in *.
  erewrite bind_Done by (by eapply load_cmd_run). 
  rewrite !(bind_run _ _ (s, l)), (bind_run _ _ s), on_fst_run. destruct (translate_handle d h s) as [s1 v|s1 rc|]; [|by (hnf; eexists)|done].
  erewrite bind_Done by (apply store_cmd_run; lia).
  assert (Hls : length (splice (Z.to_nat i) [v] l) = length l) by (apply length_splice; simpl; lia).
  assert (Hd1 : drop (Z.to_nat (i + 1)) (splice (Z.to_nat i) [v] l) = hs ++ rest).
  { rewrite Z2Nat.inj_add, <-drop_drop, drop_splice by lia. cbn [length].
    change (Z.to_nat 1) with (length [v]). rewrite drop_app_length.
    by apply (drop_app_next _ _ [h]). }
  specialize (IH rest (i + 1) s1 (splice (Z.to_nat i) [v] l) ltac:(lia) Hd1 ltac:(lia)).
  unfold bind. destruct (handle_words d hs s1) as [s2 vs|s2 rc|]; cbn [implements] in *; [|done|done].
  destruct IH as [Hlv E]. split; [cbn [length]; by rewrite Hlv|]. rewrite E.
  replace (Z.to_nat (i + 1)) with (Z.to_nat i + length [v])%nat by (simpl; lia).
  rewrite splice_app by (simpl; lia). f_equal. lia.
Qed.

Lemma param_implements p rest size i s l :
  param_ok p -> 0 <= i -> drop (Z.to_nat i) l = descriptor p :: payload p ++ rest ->
  i + 1 + Z.of_nat (length (payload p)) <= size -> size <= Z.of_nat (length l) ->
  implements (Z.to_nat (i + 1)) l (translate_at size i (s, l)) (i + 1 + Z.of_nat (length (payload p)))
    (length (payload p)) (param_words p s).
Proof.
  intros Hp Hi Hd Hs Hl. unfold translate_at, param_words. cbv zeta.
  erewrite bind_Done by (by eapply load_cmd_run).
  assert (Hd1 : drop (Z.to_nat (i + 1)) l = payload p ++ rest).
  { rewrite Z2Nat.inj_add by lia. by apply (drop_app_next _ _ [descriptor p]). }
  fold (handle_type (descriptor p)). destruct (handle_type (descriptor p)) eqn:Ht.
  - rewrite <-(handle_payload p Hp Ht), Nat2Z.id.
    erewrite bind_Done by (unfold R_UNLESS; rewrite (proj2 (Z.leb_le _ _)) by lia; done).
    apply (handles_implement _ _ rest); lia || done.
  - destruct (other_payload p Hp Ht) as [w Hw]. rewrite Hw in *. cbn [nth length] in *.
    unfold handle_type in Ht. change (Z.of_nat 1) with 1 in *.
    destruct (GetDescriptorType (descriptor p) =? CallingPid).
    { rewrite (bind_run _ _ (s, l)), (bind_run _ _ s), on_fst_run. destruct (the_process src s) as [s1 k|s1 rc|];
        [|by (hnf; eexists)|done]. erewrite bind_Done by (apply store_cmd_run; lia). done. }
    destruct (GetDescriptorType (descriptor p) =? StaticBuffer).
    { erewrite bind_Done by (by eapply load_cmd_run; [lia|]). rewrite (bind_run _ _ (s, l)), (bind_run _ _ s), on_fst_run.
      destruct (translate_static src dst dst_address (descriptor p) w s) as [s1 v|s1 rc|];
        [|by (hnf; eexists)|done]. erewrite bind_Done by (apply store_cmd_run; lia). done. }
    destruct (GetDescriptorType (descriptor p) =? Ipc.MappedBuffer); [|done].
    erewrite bind_Done by (by eapply load_cmd_run; [lia|]). rewrite (bind_run _ _ (s, l)), (bind_run _ _ s), on_fst_run.
    destruct (translate_mapped src dst reply (descriptor p) w s) as [s1 [v|]|s1 rc|];
      [| |by (hnf; eexists)|done].
    + erewrite bind_Done by (apply store_cmd_run; lia). done.
    + split; [done|]. unfold ret at 1, bind, ret. f_equal. f_equal. cbn [default].
      unfold splice. cbn [app length]. rewrite <-(take_drop (Z.to_nat (i + 1)) l) at 1. f_equal.
      rewrite Hd1. cbn [app]. f_equal. by rewrite (drop_app_next _ l [w] rest).
Qed.

Definition implements_params (i : nat) (l : list Z) (ps : list tparam)
    (m : outcome (Local_ (Object := Object)) unit)
    (spec : outcome (Sys (Object := Object)) (list tparam)) : Prop :=
  match spec with
  | Done s ps' => translated ps ps' /\ m = Done (s, splice i (encode ps') l) tt
  | Failed s rc => exists l', m = Failed (s, l') rc
  | Aborted => m = Aborted
  end.

Lemma loop_implements ps : forall fuel rest size i s l,
  Forall param_ok ps -> 0 <= i -> drop (Z.to_nat i) l = encode ps ++ rest ->
  size = i + Z.of_nat (length (encode ps)) -> size <= Z.of_nat (length l) ->
  (length (encode ps) < fuel)%nat ->
  implements_params (Z.to_nat i) l ps (translate_loop fuel size i (s, l)) (translate_params ps s).
Proof.
  induction ps as [|p ps IH]; intros fuel rest size i s l Hps Hi Hd Hsz Hl Hf;
    (destruct fuel as [|fuel]; [lia|]); cbn [translate_params translate_loop].
  { simpl in Hsz. rewrite (proj2 (Z.ltb_ge _ _)) by lia. split; [constructor|]. by rewrite splice_nil. }
  apply Forall_cons in Hps as [Hp Hps]. apply encode_drop in Hd as [Hd1 Hd2].
  rewrite encode_cons in Hsz, Hf. cbn [length] in Hsz, Hf. rewrite length_app in Hsz, Hf.
  rewrite (proj2 (Z.ltb_lt i size)) by lia.
  pose proof (param_implements p _ size i s l Hp Hi Hd1 ltac:(lia) Hl) as Hpar.
  rewrite (bind_run _ _ (s, l)), (bind_run _ _ s). unfold implements in Hpar.
  destruct (param_words p s) as [s1 ws|s1 rc|]; [|by destruct Hpar as [l' ->]; eexists|by rewrite Hpar].
  destruct Hpar as [Hlw ->].
  set (l1 := splice (Z.to_nat (i + 1)) ws l). set (j := i + 1 + Z.of_nat (length (payload p))) in *.
  assert (Hl1 : length l1 = length l) by (apply length_splice; lia).
  assert (Hdl : drop (Z.to_nat j) l1 = encode ps ++ rest).
  { rewrite <-Hd2. unfold l1.
    replace (Z.to_nat j) with (Z.to_nat (i + 1) + length ws)%nat by lia.
    rewrite <-drop_drop, drop_splice, drop_app_length by lia. f_equal. lia. }
  specialize (IH fuel rest size j s1 l1 Hps ltac:(lia) Hdl ltac:(lia) ltac:(lia) ltac:(lia)).
  unfold bind. unfold implements_params in *.
  destruct (translate_params ps s1) as [s2 ps'|s2 rc|]; [|done|done].
  destruct IH as [Htr E]. split; [by constructor|]. rewrite E. f_equal. f_equal.
  unfold l1. replace (Z.to_nat j) with (Z.to_nat (i + 1) + length ws)%nat by lia.
  rewrite splice_app by lia. rewrite encode_cons. cbn [descriptor payload].
  unfold splice. cbn [length]. rewrite length_app, app_comm_cons.
  replace (Z.to_nat (i + 1)) with (S (Z.to_nat i)) by lia.
  rewrite (take_S_r _ _ (descriptor p)), <-app_assoc.
  - replace (S (Z.to_nat i) + _)%nat with (Z.to_nat i + S (length ws + length (encode ps')))%nat by lia.
    done.
  - rewrite <-(Nat.add_0_r (Z.to_nat i)), <-lookup_drop, Hd1. done.
Qed.

(** ** The whole command *)

(** The memory of the sender at [address] holds the command. *)
Definition holds_command (s : Sys (Object := Object)) (address header : Z) (normal : list Z)
    (ps : list tparam) : Prop :=
  exists k, processes s !! src = Some k /\
    let words := command_words header normal ps in
    Forall is_u32 words /\
    ReadBlock (page_table (vm_manager k)) (host s) address 4 = le32 header /\
    ReadBlock (page_table (vm_manager k)) (host s) address (Z.of_nat (length words) * 4) = words_bytes words.

Lemma read_block_run k p address n (s : Sys (Object := Object)) :
  processes s !! k = Some p ->
  read_block k address n s = Done s (ReadBlock (page_table (vm_manager p)) (host s) address n).
Proof. intros E. unfold read_block, the_process, bind. by rewrite E. Qed.

(** C18: Translating a well-formed command is translating its parameters one after
    the other.  Whatever the uninitialised part of the local buffer holds, for any
    header that announces its sizes (the buffer may be filled to its last word), the
    loop over the buffer never reads or writes outside the command and ends; it gives the
    receiver the header, the normal parameters and, in their places, the words that each
    parameter becomes, and an error or an assertion failure of a parameter is that
    of the whole. *)
Theorem TranslateCommandBuffer_params s src_address header normal ps stale :
  is_command header normal ps -> holds_command s src_address header normal ps ->
  length stale = 64%nat ->
  TranslateCommandBuffer stale current_thread current_process src_thread src_process_object
    (Some src) (Some dst) src_address dst_address reply s =
  (ps' <- translate_params ps ;;
   write_block dst dst_address (words_bytes (command_words header normal ps')))%hle s.
Proof.
  intros [Hn Ht Hps Hl] (k & Hk & Hw & Hr4 & Hr) Hst. cbv zeta in Hw, Hr4, Hr.
  unfold COMMAND_BUFFER_LENGTH in Hl. unfold TranslateCommandBuffer.
  erewrite bind_Done by (by apply read_block_run). rewrite Hr4.
  assert (Eh : word_at (le32 header) 0 = header).
  { apply le_value_le32. unfold command_words in Hw. by inversion Hw. }
  rewrite Eh. cbv zeta. rewrite Hn, Ht.
  set (u := 1 + Z.of_nat (length normal)). set (n := u + Z.of_nat (length (encode ps))).
  erewrite bind_Done by (unfold assert_, COMMAND_BUFFER_LENGTH; rewrite (proj2 (Z.leb_le _ _)) by lia; done).
  assert (Hlen : length (command_words header normal ps) = Z.to_nat n).
  { unfold command_words. cbn [length]. rewrite length_app. lia. }
  erewrite bind_Done by (by apply read_block_run).
  replace n with (Z.of_nat (length (command_words header normal ps))) at 2 by lia. rewrite Hr.
  assert (Hu : Z.to_nat u = length (header :: normal)) by (cbn [length]; lia).
  set (l := bytes_words _ _ ++ _).
  assert (El : l = (header :: normal) ++ encode ps ++ drop (Z.to_nat n) stale).
  { unfold l. rewrite <-Hlen, <-(app_nil_r (words_bytes _)), bytes_words_bytes by done.
    unfold command_words. by rewrite app_comm_cons, <-app_assoc. }
  assert (Hll : length l = 64%nat).
  { rewrite El, !length_app, length_drop. cbn [length]. lia. }
  assert (Hd : drop (Z.to_nat u) l = encode ps ++ drop (Z.to_nat n) stale)
    by (by rewrite Hu, El, drop_app_length).
  pose proof (loop_implements ps (S (Z.to_nat n)) _ n u s l Hps ltac:(lia) Hd eq_refl ltac:(lia) ltac:(lia)) as Hi.
  unfold implements_params in Hi. rewrite !bind_run. unfold with_local.
  destruct (translate_params ps s) as [s1 ps'|s1 rc|].
  - destruct Hi as [Htr ->]. cbn [fst snd]. f_equal. f_equal.
    pose proof (translated_length _ _ Htr) as Hle.
    unfold splice. rewrite Hu, El, take_app_length. unfold command_words.
    rewrite app_comm_cons, (app_assoc (header :: normal)).
    replace (Z.to_nat n) with (length ((header :: normal) ++ encode ps'))
      by (rewrite length_app; cbn [length]; lia).
    apply take_app_length.
  - destruct Hi as [l' ->]. done.
  - by rewrite Hi.
Qed.

(** ** Handles *)

(** What the receiver is sent for a handle, and the table of the sender after it. *)
Definition send_handle (d h : Z) (t : @HandleTable Object) : option Object * @HandleTable Object :=
  if h =? CurrentThread then (Some src_thread, t)
  else if h =? CurrentProcess then (Some src_process_object, t)
  else if h =? 0 then (None, t)
  else
    (GetGeneric current_thread current_process t h,
     if d =? MoveHandle then
       match Close h t with Done t' _ | Failed t' _ => t' | Aborted => t end
     else t).

Fixpoint send_handles (d : Z) (hs : list Z) (t : @HandleTable Object)
    : list (option Object) * @HandleTable Object :=
  match hs with
  | [] => ([], t)
  | h :: hs =>
      let (o, t) := send_handle d h t in
      let (os, t) := send_handles d hs t in
      (o :: os, t)
  end.

(** The state with other tables for the two processes. *)
Definition with_tables (s : Sys (Object := Object)) (a b : KProcess (Object := Object))
    (ta tb : @HandleTable Object) : Sys (Object := Object) :=
  mkSys (<[dst := mkKProcess (process_id b) tb (vm_manager b)]>
           (<[src := mkKProcess (process_id a) ta (vm_manager a)]> (processes s)))
    (host s) (heap s) (mapped_buffer_context s).

Section Handles.
Hypothesis different : src <> dst.

Lemma with_tables_src s a b ta tb :
  processes (with_tables s a b ta tb) !! src = Some (mkKProcess (process_id a) ta (vm_manager a)).
Proof. simpl. rewrite lookup_insert_ne by done. by rewrite lookup_insert_eq. Qed.

Lemma with_tables_dst s a b ta tb :
  processes (with_tables s a b ta tb) !! dst = Some (mkKProcess (process_id b) tb (vm_manager b)).
Proof. simpl. by rewrite lookup_insert_eq. Qed.

Lemma with_tables_id s a b :
  processes s !! src = Some a -> processes s !! dst = Some b ->
  with_tables s a b (handle_table a) (handle_table b) = s.
Proof.
  intros Ha Hb. unfold with_tables. destruct a as [pa ta va], b as [pb tb vb]. simpl.
  rewrite (insert_id (processes s) src) by done. rewrite insert_id by done. by destruct s.
Qed.

Lemma set_src s a b ta tb ta' :
  with_process src (mkKProcess (process_id a) ta' (vm_manager a)) (with_tables s a b ta tb) =
  with_tables s a b ta' tb.
Proof.
  unfold with_process, with_tables. simpl. f_equal.
  rewrite insert_insert_ne by done. by rewrite insert_insert_eq.
Qed.

Lemma set_dst s a b ta tb tb' :
  with_process dst (mkKProcess (process_id b) tb' (vm_manager b)) (with_tables s a b ta tb) =
  with_tables s a b ta tb'.
Proof. unfold with_process, with_tables. simpl. f_equal. by rewrite insert_insert_eq. Qed.

Lemma close_src s a b ta tb h :
  dropping (on_table src (Close h)) (with_tables s a b ta tb) =
  Done (with_tables s a b (match Close h ta with Done t _ | Failed t _ => t | Aborted => ta end) tb) tt.
Proof.
  unfold dropping, on_table. rewrite with_tables_src. cbn [handle_table process_id vm_manager].
  destruct (Close h ta) as [t []|t rc|] eqn:E; [by rewrite set_src|by rewrite set_src|].
  exfalso. revert E. unfold Close, bind, get, R_UNLESS, put. by destruct (IsValid ta h).
Qed.

(** Creating the handle of the receiver. *)
Lemma create_dst s a b ta tb free (o : Object) :
  ht_wf tb free -> (1 <= length free)%nat ->
  exists h tb' free', R_ASSERT (on_table dst (Create (Some o))) (with_tables s a b ta tb) =
      Done (with_tables s a b ta tb') h /\
    ht_wf tb' free' /\ length free = S (length free') /\ refers tb' (Some o) h /\ keeps tb tb'.
Proof.
  intros Hwf Hf. destruct free as [|f free]; [simpl in Hf; lia|].
  destruct (Create_run _ f free o Hwf) as (tb' & E & Hwf' & _).
  destruct (Create_keeps _ _ _ _ _ _ Hwf E) as [Hr Hk].
  exists (f * 32768 + next_generation tb), tb', free. split; [|done].
  unfold R_ASSERT, on_table. rewrite with_tables_dst. cbn [handle_table process_id vm_manager].
  by rewrite E, set_dst.
Qed.

Lemma translate_handle_run d h s a b ta tb free :
  ht_wf tb free -> (object_count [(send_handle d h ta).1] <= length free)%nat ->
  exists w tb' free',
    translate_handle d h (with_tables s a b ta tb) = Done (with_tables s a b (send_handle d h ta).2 tb') w /\
    ht_wf tb' free' /\ length free = (object_count [(send_handle d h ta).1] + length free')%nat /\
    refers tb' (send_handle d h ta).1 w /\ keeps tb tb'.
Proof.
  intros Hwf Hf.
  assert (Hgo : forall o ta', (object_count [o] <= length free)%nat ->
    exists w tb' free',
      match o with
      | None => ret 0
      | Some _ => R_ASSERT (on_table dst (Create o))
      end (with_tables s a b ta' tb) = Done (with_tables s a b ta' tb') w /\
      ht_wf tb' free' /\ length free = (object_count [o] + length free')%nat /\
      refers tb' o w /\ keeps tb tb').
  { intros [o|] ta' Ho; [by apply create_dst|]. exists 0, tb, free. split; [done|].
    split; [done|]. split; [done|]. split; [done|]. by intros ???. }
  unfold IpcTranslate.translate_handle, send_handle in *.
  destruct (h =? CurrentThread); [exact (Hgo (Some src_thread) ta Hf)|].
  destruct (h =? CurrentProcess); [exact (Hgo (Some src_process_object) ta Hf)|].
  destruct (h =? 0); cbn [negb]; [exact (Hgo None ta Hf)|].
  cbn [fst snd] in *. rewrite bind_run, bind_run. unfold the_process at 1.
  rewrite with_tables_src. cbn [handle_table]. rewrite bind_run. destruct (d =? MoveHandle).
  - rewrite close_src. exact (Hgo _ _ Hf).
  - exact (Hgo _ _ Hf).
Qed.

Lemma handle_words_run d hs s a b : forall ta tb free,
  ht_wf tb free -> (object_count (send_handles d hs ta).1 <= length free)%nat ->
  exists ws tb' free',
    handle_words d hs (with_tables s a b ta tb) = Done (with_tables s a b (send_handles d hs ta).2 tb') ws /\
    ht_wf tb' free' /\ Forall2 (refers tb') (send_handles d hs ta).1 ws /\ keeps tb tb'.
Proof.
  induction hs as [|h hs IH]; intros ta tb free Hwf Hf.
  { exists [], tb, free. split; [done|]. split; [done|]. split; [constructor|]. by intros ???. }
  cbn [send_handles handle_words] in *.
  pose proof (translate_handle_run d h s a b ta tb free Hwf) as Hone.
  destruct (send_handle d h ta) as [o ta1]. cbn [fst snd] in Hone.
  specialize (IH ta1). destruct (send_handles d hs ta1) as [os ta2]. cbn [fst snd] in *.
  assert (Hc : object_count (o :: os) = (object_count [o] + object_count os)%nat).
  { unfold object_count. by destruct o. }
  destruct Hone as (w & tb1 & free1 & E & Hwf1 & Hf1 & Hr1 & Hk1); [lia|].
  destruct (IH tb1 free1 Hwf1 ltac:(lia)) as (ws & tb2 & free2 & E2 & Hwf2 & Hr2 & Hk2).
  exists (w :: ws), tb2, free2. erewrite bind_Done by exact E. erewrite bind_Done by exact E2.
  split; [done|]. split; [done|]. split.
  - constructor; [|done]. by eapply refers_keeps.
  - by eapply keeps_handles_trans.
Qed.

Lemma send_handles_copy d hs t : d <> MoveHandle -> (send_handles d hs t).2 = t.
Proof.
  intros Hd. induction hs as [|h hs IH]; [done|]. cbn [send_handles]. unfold send_handle.
  rewrite (proj2 (Z.eqb_neq d MoveHandle)) by done.
  destruct (h =? CurrentThread), (h =? CurrentProcess), (h =? 0), (send_handles d hs t); done.
Qed.

Lemma GetGeneric_resolve (t : @HandleTable Object) h :
  is_handle h -> GetGeneric current_thread current_process t h = resolve t h.
Proof.
  intros Hh. unfold is_handle, MAX_COUNT in Hh. unfold GetGeneric, CurrentThread, CurrentProcess.
  rewrite !(proj2 (Z.eqb_neq _ _)) by lia. destruct (resolve t h) as [o|] eqn:E.
  - pose proof E as (H1 & H2 & H3)%resolve_Some. unfold IsValid. rewrite H2, H3, Z.eqb_refl.
    rewrite (proj2 (Z.ltb_lt _ _)), bool_decide_eq_true_2 by eauto. done.
  - apply resolve_None in E. by rewrite E.
Qed.

(** C6: Handles keep their meaning across processes.  For the handles of one descriptor,
    sent to another process whose table has room, the receiver gets one word each:
    0 for a handle that refers to nothing, otherwise a handle of its own that refers to
    the same object (the sending thread and process for the two pseudo-handles); its
    other handles keep their meaning.  The sender's table is unchanged, except that a
    handle moved on its own is closed there, and only it. *)
Theorem handles_translated d hs s a b free :
  processes s !! src = Some a -> processes s !! dst = Some b ->
  ht_wf (handle_table b) free ->
  (object_count (send_handles d hs (handle_table a)).1 <= length free)%nat ->
  (exists ws tb, handle_words d hs s = Done (with_tables s a b (send_handles d hs (handle_table a)).2 tb) ws /\
     (exists free', ht_wf tb free') /\
     Forall2 (refers tb) (send_handles d hs (handle_table a)).1 ws /\ keeps (handle_table b) tb) /\
  (forall h, is_handle h -> h <> 0 ->
     (send_handle d h (handle_table a)).1 = resolve (handle_table a) h) /\
  (d <> MoveHandle -> (send_handles d hs (handle_table a)).2 = handle_table a) /\
  (forall h o fl, d = MoveHandle -> hs = [h] -> is_handle h -> h <> 0 ->
     ht_wf (handle_table a) fl -> resolve (handle_table a) h = Some o ->
     resolve (send_handles d hs (handle_table a)).2 h = None /\
     same_except h (handle_table a) (send_handles d hs (handle_table a)).2).
Proof.
  intros Ha Hb Hwf Hf.
  assert (Hsend : forall h, is_handle h -> h <> 0 ->
    (h =? CurrentThread) = false /\ (h =? CurrentProcess) = false /\ (h =? 0) = false).
  { intros h Hh Hz. unfold is_handle, MAX_COUNT in Hh. unfold CurrentThread, CurrentProcess.
    rewrite !(proj2 (Z.eqb_neq _ _)) by lia. done. }
  split; [|split; [|split]].
  - destruct (handle_words_run d hs s a b (handle_table a) (handle_table b) free Hwf Hf)
      as (ws & tb & free' & E & Hwf' & Hr & Hk).
    rewrite with_tables_id in E by done. exists ws, tb. split; [exact E|]. split; [by exists free'|]. done.
  - intros h Hh Hz. destruct (Hsend h Hh Hz) as (E1 & E2 & E3). unfold send_handle.
    rewrite E1, E2, E3. by apply GetGeneric_resolve.
  - intros Hd. by apply send_handles_copy.
  - intros h o fl -> -> Hh Hz Hwfa Hr. destruct (Hsend h Hh Hz) as (E1 & E2 & E3).
    cbn [send_handles]. unfold send_handle. rewrite E1, E2, E3, Z.eqb_refl. cbn [fst snd].
    pose proof Hh as Hh0. unfold is_handle in Hh0.
    destruct (Close_run _ fl h o Hwfa ltac:(lia) Hr) as (t' & E & _).
    pose proof (Close_resolve _ fl h o t' Hwfa Hh Hr E) as Hc. by rewrite E.
Qed.
End Handles.
End Commands.
