(* ===== verification/IpcBuffers.v ===== *)
(** * IpcBuffers: the life of a mapped buffer

    A request places a copy of the sender's buffer in the receiver's address space,
    between two guard pages without rights; the reply copies it back when it was
    writable and removes all of it. *)
From stdpp Require Import gmap.
From S2P Require Import Prelude BitField Result HandleTable MemoryRegion VMManager Process ProcessSpecs.
From S2P Require Import Ipc HleIpc HleIpcValues IpcTranslate.

Local Open Scope Z_scope.

(** The documented layout of the address space. *)
Class IpcAreaLaws `{!IpcArea} : Prop := {
  mapping_vaddr : IPC_MAPPING_VADDR = 0x04000000;
  mapping_size : IPC_MAPPING_SIZE = 0x04000000;
  page_bits : CITRA_PAGE_BITS = 12
}.

(** ** Pages *)

Lemma AlignDown_page x : is_u32 x -> AlignDown x 4096 = x - x mod 4096.
Proof. intros Hx. unfold AlignDown. rewrite u32_small; [done|]. unfold is_u32 in *. zlia. Qed.

Lemma AlignUp_page x : 0 <= x < 4294963200 -> AlignUp x 4096 = (x + 4095) / 4096 * 4096.
Proof.
  intros Hx. unfold AlignUp. destruct (Z.eqb_spec (x mod 4096) 0);
    rewrite u32_small by (unfold is_u32; zlia); zlia.
Qed.

(** The pages of a buffer. *)
Definition page_offset (address : Z) : Z := address mod 4096.
Definition num_pages (address size : Z) : Z := (page_offset address + size + 4095) / 4096.

(** The size of the window: the pages and the two guards. *)
Definition window (address size : Z) : Z := (num_pages address size + 2) * 4096.

Lemma window_bounds address size :
  0 < size < 0x10000000 ->
  1 <= num_pages address size /\ page_offset address + size <= num_pages address size * 4096 /\
  12288 <= window address size <= 0x10003000 /\ window address size mod 4096 = 0.
Proof. intros Hs. unfold window, num_pages, page_offset. zlia. Qed.

Section Buffers.
Context {Object : Type} {MS : MemorySystem} {ML : MemorySystemLaws MS}.
Context {GM : GuestMemory PageTable} {GL : GuestMemoryLaws PageTable} {IA : IpcArea} {IL : IpcAreaLaws}.

Local Abbreviation good := (vm_good mems pt_lookup).

(** ** The operations on the address space *)

Lemma vm_change v t n es ep ns np :
  good v -> t mod 4096 = 0 -> n mod 4096 = 0 -> 0 <= t -> 0 < n -> t + n <= MAX_ADDRESS ->
  (forall a, t <= a < t + n ->
     is_free (attr (vma_map v) a) = false /\ attr_state_ok es ep (attr (vma_map v) a) = true) ->
  exists v', ChangeMemoryState MapMemoryRegion UnmapRegion CITRA_PAGE_MASK t n es ep ns np v = Done v' tt /\
    good v' /\
    (forall a, attr (vma_map v') a =
       if (t <=? a) && (a <? t + n) then set_state ns np <$> attr (vma_map v) a else attr (vma_map v) a).
Proof.
  intros (Hwf & Hlk & Hj) Ht%aligned_page Hn%aligned_page H0 H1 H2 Hok.
  destruct (ChangeMemoryState_run (page_table v) MapMemoryRegion UnmapRegion CITRA_PAGE_MASK mems
              mems_separate pt_lookup lookup_MapMemoryRegion lookup_UnmapRegion
              v t n es ep ns np Hwf Hlk Ht Hn H0 H1 H2)
    as [[Hf _]|(_ & v' & E & Hwf' & Hlk' & Ha & Hj')]; [by destruct Hf|].
  exists v'. split; [done|]. split; [unfold vm_good; auto|done].
Qed.

(** The receiver has room: the area that [MapBackingMemoryToBase] tries. *)
Definition room_at (v : @VMManager PageTable) (n t : Z) : Prop :=
  exists w, find (fun v => bool_decide (vtype v = VMA_Free) &&
                           ((IPC_MAPPING_VADDR <? vma_end v) && (IPC_MAPPING_VADDR + n <=? vma_end v)))
              (vma_map v) = Some w /\
    t = Z.max IPC_MAPPING_VADDR (base w) /\ t + n <= IPC_MAPPING_VADDR + IPC_MAPPING_SIZE /\
    t + n <= vma_end w.

Definition page_bases (v : @VMManager PageTable) : Prop :=
  forall w, w ∈ vma_map v -> base w mod 4096 = 0.

Lemma vm_map_base v n t m st :
  good v -> page_bases v -> room_at v n t -> memory_ok mems m n -> n mod 4096 = 0 -> 0 < n ->
  0x04000000 + n <= MAX_ADDRESS ->
  exists v', MapBackingMemoryToBase MapMemoryRegion UnmapRegion CITRA_PAGE_MASK IPC_MAPPING_VADDR
      IPC_MAPPING_SIZE m n st v = Done v' t /\ good v' /\ t mod 4096 = 0 /\
    0x04000000 <= t /\ t + n <= 0x08000000 /\
    (forall a, t <= a < t + n -> is_free (attr (vma_map v) a) = true) /\
    (forall a, attr (vma_map v') a =
       if (t <=? a) && (a <? t + n) then Some (BackingMemory, ReadWrite, st, GetPtr m + (a - t))
       else attr (vma_map v) a).
Proof.
  intros Hg Hb (w & Ef & Et & Hr1 & Hr2) Hm Hn H1 Hmax. rewrite mapping_vaddr, mapping_size in *.
  pose proof Hg as (Hwf & Hlk & Hj).
  pose proof (MapBackingMemoryToBase_outcome (page_table v) MapMemoryRegion UnmapRegion CITRA_PAGE_MASK mems
    mems_separate mems_nonnull pt_lookup lookup_MapMemoryRegion lookup_UnmapRegion v 0x04000000 0x04000000 n m st
    Hg Hm ltac:(lia) H1 ltac:(lia) ltac:(unfold MAX_ADDRESS; lia) Hmax) as H.
  specialize (H ltac:(by apply aligned_page) ltac:(by apply aligned_page)
    ltac:(intros x Hx; apply aligned_page, Hb, Hx)).
  rewrite Ef in H. cbv zeta in H. rewrite <-Et in H.
  rewrite !(proj2 (Z.ltb_ge _ _)) in H by lia. destruct H as (v' & E & Hg' & Hfa & Ha).
  assert (Hall : forall a, t <= a < t + n -> is_free (attr (vma_map v) a) = true).
  { apply (joined_free_area mems (vma_map v) t n (wf_areas _ _ _ Hwf) Hj); [lia|done|unfold MAX_ADDRESS; lia|done]. }
  assert (Hw : w ∈ vma_map v).
  { apply find_some in Ef as [Hw _]. by apply list_elem_of_In. }
  exists v'. split; [done|]. split; [done|]. split.
  { rewrite Et. specialize (Hb w Hw). destruct (Z.max_spec 0x04000000 (base w)) as [[_ ->]|[_ ->]]; [done|zlia]. }
  split; [lia|]. split; [lia|]. split; [done|].
  intros a. rewrite Ha. unfold effect. cbn [request_range].
  destruct ((t <=? a) && (a <? t + n)) eqn:Ea; [|done].
  assert (Hin : 0 <= a < MAX_ADDRESS) by (zbool; unfold MAX_ADDRESS; lia).
  by destruct (attr_inside _ _ _ a (good_space v Hg) Hin) as [x ->].
Qed.

(** A free address has the attributes of free memory. *)
Lemma free_attr v a : good v -> is_free (attr (vma_map v) a) = true ->
  attr (vma_map v) a = None \/ attr (vma_map v) a = Some free_attributes.
Proof.
  intros Hg Hf. unfold attr in *. destruct (find _ (vma_map v)) as [w|] eqn:E; [|by left].
  right. apply find_some in E as [Hw _]. apply list_elem_of_In in Hw.
  destruct (areas_in_space mems (vma_map v) w (wf_areas _ _ _ (proj1 Hg)) Hw) as [_ Hbk].
  cbn [fmap option_fmap option_map] in *. unfold backed in Hbk. unfold view in *.
  cbn [is_free] in Hf. destruct (vtype w); [|done]. destruct Hbk as [-> ->]. done.
Qed.

(** ** The request *)

Definition set_space (p : KProcess (Object := Object)) (v : @VMManager PageTable) : KProcess :=
  mkKProcess (process_id p) (handle_table p) v.

Lemma on_space_Done {A} k (m : op (@VMManager PageTable) A) (s : Sys (Object := Object)) p v x :
  processes s !! k = Some p -> m (vm_manager p) = Done v x ->
  on_space k m s = Done (with_process k (set_space p v) s) x.
Proof. intros Hk E. unfold on_space. by rewrite Hk, E. Qed.

Lemma with_process_twice k p q (s : Sys (Object := Object)) :
  with_process k q (with_process k p s) = with_process k q s.
Proof. unfold with_process. cbn [processes host heap mapped_buffer_context]. by rewrite insert_insert_eq. Qed.

(** A buffer of [n] bytes at [ptr], guards included, placed at [t]. *)
Definition guarded_attr (t n ptr x : Z) : attributes :=
  if (t + 4096 <=? x) && (x <? t + n - 4096)
  then (BackingMemory, ReadWrite, Shared, ptr + (x - t))
  else (BackingMemory, None_, Reserved, ptr + (x - t)).

Definition placed (v v' : @VMManager PageTable) (t n ptr : Z) : Prop :=
  forall x, attr (vma_map v') x =
    if (t <=? x) && (x <? t + n) then Some (guarded_attr t n ptr x) else attr (vma_map v) x.

(** Mapping and the two guards, on the address space alone. *)
Lemma place_run v n t b :
  good v -> page_bases v -> room_at v n t -> mems b -> mem_size b = n ->
  n mod 4096 = 0 -> 12288 <= n -> 0x04000000 + n <= MAX_ADDRESS ->
  exists v1 v2 v3,
    MapBackingMemoryToBase MapMemoryRegion UnmapRegion CITRA_PAGE_MASK IPC_MAPPING_VADDR IPC_MAPPING_SIZE
      (mkRef (Some b) 0) n Shared v = Done v1 t /\
    ChangeMemoryState MapMemoryRegion UnmapRegion CITRA_PAGE_MASK t CITRA_PAGE_SIZE
      Shared ReadWrite Reserved None_ v1 = Done v2 tt /\
    ChangeMemoryState MapMemoryRegion UnmapRegion CITRA_PAGE_MASK (t + n - 4096) CITRA_PAGE_SIZE
      Shared ReadWrite Reserved None_ v2 = Done v3 tt /\
    good v3 /\ placed v v3 t n (mem_ptr b) /\ t mod 4096 = 0 /\ 0x04000000 <= t /\ t + n <= 0x08000000 /\
    (forall a, t <= a < t + n -> is_free (attr (vma_map v) a) = true).
Proof.
  intros Hg Hb Hr Hm Hsz Hn Hn1 Hmax.
  destruct (vm_map_base v n t (mkRef (Some b) 0) Shared Hg Hb Hr) as (v1 & E1 & Hg1 & Ht & Hlo & Hhi & Hfree & Ha1);
    [exists b; cbn; split_and!; (done || lia)|done|lia|done|].
  assert (Hp : GetPtr (mkRef (Some b) 0) = mem_ptr b) by (unfold GetPtr; simpl; lia). rewrite Hp in Ha1.
  rewrite page_size_value.
  destruct (vm_change v1 t 4096 Shared ReadWrite Reserved None_ Hg1 Ht) as (v2 & E2 & Hg2 & Ha2);
    [done|lia|done|unfold MAX_ADDRESS; lia| |].
  { intros x Hx. rewrite Ha1. zdecide. done. }
  destruct (vm_change v2 (t + n - 4096) 4096 Shared ReadWrite Reserved None_ Hg2) as (v3 & E3 & Hg3 & Ha3);
    [zlia|done|lia|done|unfold MAX_ADDRESS; lia| |].
  { intros x Hx. rewrite Ha2, Ha1. zdecide. done. }
  exists v1, v2, v3. split; [done|]. split; [done|]. split; [done|]. split; [done|].
  split; [|by split_and!]. intros x. rewrite Ha3, Ha2, Ha1. unfold guarded_attr.
  replace (t + n - 4096 + 4096) with (t + n) by lia.
  destruct (Z.leb_spec t x), (Z.ltb_spec x (t + n)), (Z.leb_spec (t + n - 4096) x),
    (Z.ltb_spec x (t + 4096)), (Z.leb_spec (t + 4096) x), (Z.ltb_spec x (t + n - 4096));
    cbn [andb fmap option_fmap option_map set_state]; (done || lia).
Qed.

Lemma fill_run (data : list Z) (ptr j : Z) (h : Z -> Z) :
  0 <= j < Z.of_nat (length data) ->
  (if ptr <=? ptr + j then default (h (ptr + j)) (data !! Z.to_nat (ptr + j - ptr)) else h (ptr + j)) =
  nth (Z.to_nat j) data 0.
Proof.
  intros Hj. zdecide. replace (ptr + j - ptr) with j by lia.
  destruct (lookup_lt_is_Some_2 data (Z.to_nat j) ltac:(lia)) as [x E]. rewrite E. cbn.
  symmetry. by apply nth_lookup_Some.
Qed.

(** The host memory after the allocation of the buffer. *)
Definition zeroed (s : Sys (Object := Object)) (n : Z) : Z -> Z :=
  fun p => if (heap s <=? p) && (p <? heap s + n) then 0 else host s p.

Lemma new_buffer_run n (s : Sys (Object := Object)) :
  new_buffer n s =
  Done (mkSys (processes s) (zeroed s n) (heap s + n + 1) (mapped_buffer_context s)) (mkMem (heap s) n).
Proof. reflexivity. Qed.

Lemma poke_run ptr data (s : Sys (Object := Object)) :
  poke ptr data s =
  Done (with_memory (fun p => if ptr <=? p then default (host s p) (data !! Z.to_nat (p - ptr))
                              else host s p) s) tt.
Proof. reflexivity. Qed.

Lemma map_request_run src dst (s : Sys (Object := Object)) a b size perms address t :
  0 < size < 0x10000000 -> is_u32 address ->
  processes s !! src = Some a -> processes s !! dst = Some b ->
  good (vm_manager b) -> page_bases (vm_manager b) ->
  let n := window address size in
  let off := page_offset address in
  room_at (vm_manager b) n t -> mems (mkMem (heap s) n) ->
  exists h v,
    map_request src dst address size perms off (num_pages address size) s =
      Done (mkSys (<[dst := set_space b v]> (processes s)) h (heap s + n + 1)
              (mapped_buffer_context s ++ [mkMapping perms size address (t + 4096 + off) (mkMem (heap s) n)]))
        (t + 4096 + off) /\
    (forall j, 0 <= j < size -> h (heap s + 4096 + off + j) =
       nth (Z.to_nat j) (ReadBlock (page_table (vm_manager a)) (zeroed s n) address size) 0) /\
    good v /\ placed (vm_manager b) v t n (heap s) /\ t mod 4096 = 0 /\ 0x04000000 <= t /\
    t + n <= 0x08000000 /\
    (forall x, t <= x < t + n -> is_free (attr (vma_map (vm_manager b)) x) = true).
Proof.
  intros Hsz Had Ha Hb Hg Hpb n off Hroom Hmem.
  destruct (window_bounds address size Hsz) as (Hp1 & Hp2 & Hn1 & Hn2). fold n in Hn1, Hn2.
  assert (Hoff : 0 <= off < 4096) by (unfold off, page_offset; zlia).
  destruct (place_run (vm_manager b) n t (mkMem (heap s) n) Hg Hpb Hroom Hmem eq_refl Hn2 ltac:(lia))
    as (v1 & v2 & v3 & E1 & E2 & E3 & Hg3 & Hpl & Ht & Hlo & Hhi & Hfree); [unfold MAX_ADDRESS; lia|].
  set (data := ReadBlock (page_table (vm_manager a)) (zeroed s n) address size).
  set (ptr := heap s + 4096 + off).
  set (h := fun p => if ptr <=? p then default (zeroed s n p) (data !! Z.to_nat (p - ptr)) else zeroed s n p).
  exists h, v3. split.
  2:{ split; [|done]. intros j Hj. apply fill_run. unfold data.
      rewrite length_ReadBlock by lia. lia. }
  unfold map_request. rewrite page_size_value.
  assert (Ew : u32 (u32 (num_pages address size + 2) * 4096) = n).
  { rewrite (u32_small (num_pages address size + 2)) by (unfold n, window in Hn1; unfold is_u32; lia).
    fold (window address size). apply u32_small. unfold is_u32. fold n. lia. }
  rewrite Ew. erewrite bind_Done by apply new_buffer_run. cbn [mem_ptr mem_size].
  erewrite bind_Done by (unfold read_block, the_process, bind; cbn [processes]; rewrite Ha; reflexivity).
  cbn [host]. fold (zeroed s n). fold data. erewrite bind_Done by apply poke_run. cbn [host heap processes mapped_buffer_context].
  unfold with_memory. cbn [processes heap mapped_buffer_context]. fold ptr.
  set (s1 := mkSys (processes s) _ _ _).
  rewrite (u32_small n) by (unfold is_u32; lia).
  erewrite bind_Done by (unfold R_ASSERT; rewrite (on_space_Done dst _ s1 b v1 t Hb E1); reflexivity).
  assert (L1 : processes (with_process dst (set_space b v1) s1) !! dst = Some (set_space b v1))
    by (simpl; by rewrite lookup_insert_eq).
  erewrite bind_Done by (unfold guard, R_ASSERT; rewrite page_size_value in E2 |- *;
    rewrite (on_space_Done dst _ _ _ v2 tt L1 E2), with_process_twice; reflexivity).
  assert (L2 : processes (with_process dst (set_space (set_space b v1) v2) s1) !! dst =
    Some (set_space (set_space b v1) v2)) by (simpl; by rewrite lookup_insert_eq).
  rewrite (u32_small (t + n)), (u32_small (t + n - 4096)) by (unfold is_u32; lia).
  erewrite bind_Done by (unfold guard, R_ASSERT; rewrite page_size_value in E3 |- *;
    rewrite (on_space_Done dst _ _ _ v3 tt L2 E3), with_process_twice; reflexivity).
  rewrite (u32_small (t + 4096)), (u32_small (t + 4096 + off)) by (unfold is_u32; lia).
  rewrite bind_get. unfold bind, put, ret, with_contexts, with_process, set_space, s1.
  cbn [processes host heap mapped_buffer_context process_id handle_table]. done.
Qed.

(** ** The reply *)

Lemma set_space_same p : set_space p (vm_manager p) = p.
Proof. by destruct p. Qed.

Lemma with_process_same k p (s : Sys (Object := Object)) : processes s !! k = Some p -> with_process k p s = s.
Proof. intros Hk. unfold with_process. rewrite insert_id by done. by destruct s. Qed.

Lemma area_at_run k x (s : Sys (Object := Object)) p :
  processes s !! k = Some p -> good (vm_manager p) -> 0 <= x < MAX_ADDRESS ->
  exists w, area_at k x s = Done s w /\ attr (vma_map (vm_manager p)) x = Some (view w x).
Proof.
  intros Hk Hg Hx. pose proof (good_space _ Hg) as Ht.
  destruct (FindVMA_run (vm_manager p) x Ht Hx) as (pre & w & suf & E & Hin & Ef).
  exists w. split.
  - unfold area_at. erewrite bind_Done.
    2:{ rewrite (on_space_Done k _ s p _ _ Hk Ef), set_space_same, with_process_same by done. reflexivity. }
    rewrite (on_space_Done k _ s p (vm_manager p) w Hk); [|done].
    by rewrite set_space_same, with_process_same.
  - apply (attr_elem _ _ _ w x Ht); [rewrite E; mem_list|done].
Qed.

(** The context that the reply looks for is the one that the request added. *)
Lemma find_added f l c :
  Forall (fun c => f c = false) l -> f c = true ->
  find f (l ++ [c]) = Some c /\ erase_first f (l ++ [c]) = l.
Proof.
  induction 1 as [|c' l Hc _ IH]; intros Hf; simpl; [by rewrite Hf|].
  rewrite Hc. destruct (IH Hf) as [-> ->]. done.
Qed.

(** The memory of the client after the reply. *)
Definition copied_back (a b : KProcess (Object := Object)) (perms address target size : Z) (h : Z -> Z) : Z -> Z :=
  if perms =? R then h
  else CopyBlock (page_table (vm_manager a)) (page_table (vm_manager b)) h address target size.

Lemma unmap_reply_run src dst (s : Sys (Object := Object)) a b ctxs size perms address t ptr v0 :
  let n := window address size in
  let off := page_offset address in
  0 < size < 0x10000000 -> 0x04000000 <= t -> t mod 4096 = 0 -> t + n <= 0x08000000 ->
  processes s !! src = Some a -> processes s !! dst = Some b ->
  good (vm_manager a) -> placed v0 (vm_manager a) t n ptr -> good v0 ->
  mapped_buffer_context s = ctxs ++ [mkMapping perms size address (t + 4096 + off) (mkMem ptr n)] ->
  Forall (fun c => is_free (attr (vma_map v0) (mc_target_address c)) = false) ctxs ->
  (forall x, t <= x < t + n -> is_free (attr (vma_map v0) x) = true) ->
  exists v, unmap_reply src dst (t + 4096 + off) size perms (t + 4096) (num_pages address size) s =
      Done (mkSys (<[src := set_space a v]> (processes s))
              (copied_back b a perms address (t + 4096 + off) size (host s)) (heap s) ctxs) tt /\
    good v /\ forall x, attr (vma_map v) x = attr (vma_map v0) x.
Proof.
  intros n off Hsz Hlo Ht Hhi Ha Hb Hg Hpl Hg0 Hctx Hold Hfree.
  destruct (window_bounds address size Hsz) as (Hp1 & Hp2 & Hn1 & Hn2). fold n in Hn1, Hn2.
  assert (En : n = (num_pages address size + 2) * 4096) by done.
  assert (Hoff : 0 <= off < 4096) by (unfold off, page_offset; zlia).
  set (c := mkMapping perms size address (t + 4096 + off) (mkMem ptr n)) in *.
  set (f := matches perms size (t + 4096 + off)).
  destruct (find_added f ctxs c) as [Hfind Herase].
  { eapply Forall_impl; [exact Hold|]. intros c' Hc'. cbn beta in Hc'. unfold f, matches.
    destruct (Z.eqb_spec (mc_target_address c') (t + 4096 + off)) as [E|]; [|by rewrite andb_false_r].
    rewrite E, Hfree in Hc' by (fold off in Hp2; unfold off in *; lia). done. }
  { unfold f, matches, c. cbn [mc_permissions mc_size mc_target_address]. by rewrite !Z.eqb_refl. }
  unfold unmap_reply. rewrite bind_get, Hctx. fold f. rewrite Hfind.
  set (s1 := with_memory (copied_back b a perms address (t + 4096 + off) size (host s)) s).
  assert (Hcopy : (if negb (perms =? R) then copy_block dst src (mc_source_address c) (mc_target_address c) size
                   else ret tt) s = Done s1 tt).
  { unfold s1, copied_back. destruct (perms =? R); cbn [negb]; [by destruct s|].
    unfold copy_block, the_process, bind. rewrite Hb, Ha. done. }
  erewrite bind_Done by exact Hcopy. rewrite page_size_value.
  rewrite (u32_small (t + 4096 - 4096)), (u32_small (num_pages address size * 4096)),
    (u32_small (t + 4096 + _)), (u32_small (num_pages address size + 2)),
    (u32_small ((num_pages address size + 2) * 4096)) by (unfold is_u32; lia).
  replace (t + 4096 - 4096) with t by lia.
  replace (t + 4096 + num_pages address size * 4096) with (t + n - 4096) by lia.
  rewrite <-En.
  destruct (area_at_run src t s1 a Ha Hg) as (w1 & E1 & A1); [unfold MAX_ADDRESS; lia|].
  erewrite bind_Done by exact E1.
  destruct (area_at_run src (t + n - 4096) s1 a Ha Hg) as (w2 & E2 & A2); [unfold MAX_ADDRESS; lia|].
  erewrite bind_Done by exact E2.
  assert (Hres : meminfo_state w1 = Reserved /\ meminfo_state w2 = Reserved).
  { rewrite Hpl in A1, A2. unfold guarded_attr in A1, A2.
    rewrite (proj2 (Z.leb_le t t)), (proj2 (Z.ltb_lt t (t + n))), (proj2 (Z.leb_gt (t + 4096) t)) in A1 by lia.
    rewrite (proj2 (Z.leb_le t (t + n - 4096))), (proj2 (Z.ltb_lt (t + n - 4096) (t + n))),
      (proj2 (Z.ltb_ge (t + n - 4096) (t + n - 4096))), andb_false_r in A2 by lia.
    cbn [andb] in A1, A2. unfold view in A1, A2. split; congruence. }
  destruct Hres as [Hr1 Hr2]. rewrite Hr1, Hr2, bool_decide_eq_true_2 by done.
  erewrite bind_Done by reflexivity.
  destruct (vm_unmap (vm_manager a) t n Hg Ht Hn2) as [[(x & Hx & Hxf) _]|(_ & v & Ev & Hgv & Hav)];
    [lia|lia|unfold MAX_ADDRESS; lia| |].
  { exfalso. rewrite Hpl in Hxf. destruct Hx as [Hx1 Hx2].
    rewrite (proj2 (Z.leb_le t x)), (proj2 (Z.ltb_lt x (t + n))) in Hxf by lia. cbn [andb] in Hxf.
    unfold guarded_attr in Hxf. by destruct (_ && _). }
  erewrite bind_Done by (unfold R_ASSERT; rewrite (on_space_Done src _ s1 a v tt Ha Ev); reflexivity).
  exists v. split; [|split; [done|]].
  - rewrite bind_get. unfold put, with_contexts, with_process. cbn [mapped_buffer_context s1 with_memory].
    rewrite Hctx, Herase. done.
  - intros x. rewrite Hav, Hpl. destruct ((t <=? x) && (x <? t + n)) eqn:Ex; [|done].
    zbool. destruct (free_attr v0 x Hg0) as [E| ->]; [apply Hfree; lia| |done].
    destruct (attr_inside _ _ _ x (good_space v0 Hg0)) as [y Ey]; [unfold MAX_ADDRESS; lia|congruence].
Qed.

Lemma translate_mapped_pages src dst reply d address :
  is_u32 address -> 0 < mapped_size d < 0x10000000 ->
  translate_mapped (Object := Object) src dst reply d address =
  (if reply then
     unmap_reply src dst address (mapped_size d) (mapped_perms d) (address - page_offset address)
       (num_pages address (mapped_size d)) ;;
     ret None
   else
     v <- map_request src dst address (mapped_size d) (mapped_perms d) (page_offset address)
            (num_pages address (mapped_size d)) ;;
     ret (Some v))%hle.
Proof.
  intros Ha Hs. unfold translate_mapped. rewrite page_size_value, page_bits.
  rewrite (proj2 (Z.eqb_neq (mapped_size d) 0)) by lia. rewrite AlignDown_page by done.
  destruct (window_bounds address (mapped_size d) Hs) as (Hp1 & _). fold (page_offset address).
  assert (Hoff : 0 <= page_offset address < 4096) by (unfold page_offset; zlia).
  replace (address - (address - page_offset address)) with (page_offset address) by lia.
  rewrite (u32_small (page_offset address)), (u32_small (page_offset address + _)) by (unfold is_u32; lia).
  rewrite AlignUp_page by lia. rewrite Z.shiftr_div_pow2 by lia. change (2 ^ 12) with 4096.
  rewrite Z.div_mul by lia. fold (num_pages address (mapped_size d)).
  by rewrite (proj2 (Z.leb_le _ _)) by lia.
Qed.

Lemma page_offset_window t address : t mod 4096 = 0 ->
  page_offset (t + 4096 + page_offset address) = page_offset address.
Proof. intros Ht. unfold page_offset. zlia. Qed.

(** C5: The life of one mapped buffer, when between its request and its reply the
    receiver's address space and the contexts are not changed.  When the receiver has room for the buffer and two
    guard pages, a request places it: the receiver's word is the address of a copy of the
    sender's bytes, readable and writable, the pages before and after it are
    reserved and without rights, and nothing else in its address space changes.  Whatever
    happens in memory until then, the reply that returns this address succeeds: it
    copies the bytes back to the sender's buffer unless it was read-only, removes
    the buffer and both guards so that every address of the receiver is as it was before
    the request, and forgets the mapping. *)
Theorem mapped_buffer_lifetime client server s a b d address t :
  let size := mapped_size d in
  let perms := mapped_perms d in
  let n := window address size in
  let target := t + 4096 + page_offset address in
  0 < size -> is_u32 address ->
  processes s !! client = Some a -> processes s !! server = Some b ->
  good (vm_manager b) -> page_bases (vm_manager b) -> room_at (vm_manager b) n t ->
  mems (mkMem (heap s) n) ->
  Forall (fun c => is_free (attr (vma_map (vm_manager b)) (mc_target_address c)) = false)
    (mapped_buffer_context s) ->
  exists s1 v1,
    translate_mapped client server false d address s = Done s1 (Some target) /\
    processes s1 = <[server := set_space b v1]> (processes s) /\
    placed (vm_manager b) v1 t n (heap s) /\
    (forall j, 0 <= j < size ->
       attr (vma_map v1) (target + j) =
         Some (BackingMemory, ReadWrite, Shared, heap s + (target + j - t)) /\
       host s1 (heap s + (target + j - t)) =
         nth (Z.to_nat j) (ReadBlock (page_table (vm_manager a)) (zeroed s n) address size) 0) /\
    forall s2 a2 b2,
      processes s2 !! client = Some a2 -> processes s2 !! server = Some b2 -> vm_manager b2 = v1 ->
      mapped_buffer_context s2 = mapped_buffer_context s1 ->
      exists v2,
        translate_mapped server client true d target s2 =
          Done (mkSys (<[server := set_space b2 v2]> (processes s2))
                  (copied_back a2 b2 perms address target size (host s2)) (heap s2)
                  (mapped_buffer_context s)) None /\
        forall x, attr (vma_map v2) x = attr (vma_map (vm_manager b)) x.
Proof.
  intros size perms n target Hsz Had Ha Hb Hg Hpb Hroom Hmem Hold.
  assert (Hsz' : 0 < size < 0x10000000).
  { split; [done|]. apply (ipc_field_range 4 28). unfold field_ok. lia. }
  destruct (window_bounds address size Hsz') as (Hp1 & Hp2 & Hn1 & Hn2). fold n in Hn1, Hn2.
  destruct (map_request_run client server s a b size perms address t Hsz' Had Ha Hb Hg Hpb Hroom Hmem)
    as (h & v1 & E & Hh & Hg1 & Hpl & Ht & Hlo & Hhi & Hfree). fold n in Hpl, Hhi, Hfree.
  assert (Hoff : 0 <= page_offset address < 4096) by (unfold page_offset; zlia).
  assert (En : n = (num_pages address size + 2) * 4096) by done.
  eexists _, v1. split.
  { rewrite translate_mapped_pages by done. erewrite bind_Done by exact E. reflexivity. }
  split; [done|]. split; [done|]. split.
  { intros j Hj. split.
    - rewrite Hpl. unfold guarded_attr, target. zdecide. done.
    - cbn [host]. rewrite <-Hh by done. f_equal. unfold target. lia. }
  intros s2 a2 b2 Ha2 Hb2 Hv2 Hc2. cbn [mapped_buffer_context] in Hc2.
  assert (Hw : window target size = n) by (unfold window, num_pages; unfold target; by rewrite page_offset_window).
  destruct (unmap_reply_run server client s2 b2 a2 (mapped_buffer_context s) size perms address t (heap s)
    (vm_manager b)) as (v2 & E2 & Hg2 & Ha3); try done; try (by rewrite Hv2).
  exists v2. split; [|done]. rewrite translate_mapped_pages by (done || (unfold is_u32, target; lia)).
  fold size perms.
  assert (Eo : page_offset target = page_offset address) by (unfold target; by apply page_offset_window).
  assert (Ep : num_pages target size = num_pages address size) by (unfold num_pages; by rewrite Eo).
  rewrite Eo, Ep. replace (target - page_offset address) with (t + 4096) by (unfold target; lia).
  erewrite bind_Done by exact E2. reflexivity.
Qed.
End Buffers.
