(* ===== verification/IpcModel.v ===== *)
(** * IpcModel: two processes

    The memory system of [ProcessModel] with block transfers through the page table,
    a client with one object and a server with an empty address space: a command with
    handles, and a mapped buffer. *)
From stdpp Require Import gmap.
From S2P Require Import Prelude BitField Result HandleTable MemoryRegion VMManager Process ProcessSpecs.
From S2P Require Import ProcessModel Ipc HleIpc HleIpcRequests HleIpcReplies HleIpcModel IpcTranslate.
From S2P Require Import IpcCommands IpcBuffers.

Local Open Scope Z_scope.

(** ** The instance *)

Definition write_mapped (pt : Z -> Z) (h : Z -> Z) (a : Z) (data : list Z) : Z -> Z := fun p =>
  match find (fun i => pt (a + Z.of_nat i) =? p) (seq 0 (length data)) with
  | Some i => nth i data 0
  | None => h p
  end.

Definition read_mapped (pt : Z -> Z) (h : Z -> Z) (a n : Z) : list Z :=
  (fun i => h (pt (a + Z.of_nat i))) <$> seq 0 (Z.to_nat n).

#[export] Instance the_transfers : GuestMemory (@PageTable the_memory) := {|
  ReadBlock := read_mapped;
  WriteBlock := write_mapped;
  CopyBlock := fun d p h dst src n => write_mapped d h dst (read_mapped p h src n)
|}.

#[export] Instance the_transfers_laws : GuestMemoryLaws (@PageTable the_memory).
Proof. split. intros pt h a n Hn. unfold ReadBlock. simpl. unfold read_mapped. by rewrite length_fmap, length_seq. Qed.

#[export] Instance the_area : IpcArea := {|
  IPC_MAPPING_VADDR := 0x04000000; IPC_MAPPING_SIZE := 0x04000000; CITRA_PAGE_BITS := 12
|}.

#[export] Instance the_area_laws : IpcAreaLaws.
Proof. by split. Qed.

(** The host blocks of mapped buffers of one page each, one after the other as
    [new_buffer] places them, apart from FCRAM. *)
Definition buffer_block (k : Z) : BackingMem := mkMem (0x90000000 + k * 0x3001) 0x3000.

Definition ipc_laws : MemorySystemLaws the_memory.
Proof.
  refine {| ProcessSpecs.pt_lookup := fun pt => pt : Z -> Z;
            ProcessSpecs.mems := fun b => b = fcram_block \/ exists k, 0 <= k /\ b = buffer_block k; fcram := 0x70000000 |}; try done.
  - intros b c p [-> |(k & Hk & ->)] [-> |(j & Hj & ->)]; simpl; intros; try (done || lia).
    assert (k = j) by lia. by subst.
  - intros b [-> |(k & Hk & ->)]; simpl; lia.
  - intros o n H1 H2 H3. exists fcram_block. split_and!; try done. by left.
  - intros o Ho. simpl. lia.
  - intros a [-> | ->]; done.
  - intros lo hi l k Hl Hk _. by apply fold_InsertMerge.
  - intros lo hi l n Hl Hn. split; [by apply SubtractInterval_canonical|].
    intros p. by apply (SubtractInterval_covers lo hi).
Defined.
#[local] Existing Instance ipc_laws.

(** ** Two processes *)

(** The client's pages are its host pages, the server has none yet. *)
Definition client_process : KProcess (Object := nat) :=
  mkKProcess 10 guest_table (mkVMM (PageTable := @PageTable the_memory) [initial_vma] (fun a => a) false).

Definition server_process : KProcess (Object := nat) :=
  mkKProcess 11 HandleTable_init (mkVMM (PageTable := @PageTable the_memory) [initial_vma] (fun _ => 0) false).

Definition ipc_words : list Z := command_words (MakeHeader 2 1 5) [17]
  [mkParam (CopyHandleDesc 2) [1; CurrentProcess]; mkParam CallingPidDesc [0]].

(** The command at 0x1000. *)
Definition ipc_memory : Z -> Z := fun p => nth (Z.to_nat (p - 0x1000)) (words_bytes ipc_words) 0.

Definition ipc_sys : Sys (Object := nat) :=
  mkSys {[ 1 := client_process; 2 := server_process ]} ipc_memory 0x90000000 [].

Lemma ipc_client : processes ipc_sys !! 1 = Some client_process.
Proof. done. Qed.

Lemma ipc_server : processes ipc_sys !! 2 = Some server_process.
Proof. done. Qed.

Lemma TranslateCommandBuffer_params_witness :
  TranslateCommandBuffer (replicate 64 0xFFFFFFFF) None None 5%nat 6%nat (Some 1) (Some 2)
    0x1000 0x2000 false ipc_sys =
  (ps' <- translate_params None None 5%nat 6%nat 1 2 0x2000 false
     [mkParam (CopyHandleDesc 2) [1; CurrentProcess]; mkParam CallingPidDesc [0]] ;;
   write_block 2 0x2000 (words_bytes (command_words (MakeHeader 2 1 5) [17] ps')))%hle ipc_sys.
Proof.
  apply (TranslateCommandBuffer_params None None 5%nat 6%nat 1 2 0x2000 false ipc_sys 0x1000
    (MakeHeader 2 1 5) [17]); [| |reflexivity].
  - split; try done. rewrite !Forall_cons, Forall_nil. unfold param_ok. split_and!; (done || by vm_compute).
  - exists client_process. split; [exact ipc_client|]. split; [|split; vm_compute; reflexivity].
    match goal with |- Forall _ ?l => let l' := eval vm_compute in l in change l with l' end.
    rewrite !Forall_cons, Forall_nil. unfold is_u32. lia.
Defined.

Lemma server_table_wf : exists free, ht_wf (handle_table server_process) free /\ length free = 4096%nat.
Proof.
  exists (Z.of_nat <$> seq 0 (Z.to_nat MAX_COUNT)). split; [apply HandleTable_init_wf|].
  rewrite length_fmap, length_seq. unfold MAX_COUNT. lia.
Qed.

(** The client's handle 1 and its own process go to the server. *)
Lemma handles_translated_witness :
  exists ws tb,
    handle_words None None 5%nat 6%nat 1 2 (CopyHandleDesc 2) [1; CurrentProcess] ipc_sys =
      Done (with_tables 1 2 ipc_sys client_process server_process guest_table tb) ws /\
    Forall2 (refers tb) [Some 7%nat; Some 6%nat] ws.
Proof.
  destruct server_table_wf as (free & Hwf & Hl).
  assert (E : send_handles None None 5%nat 6%nat (CopyHandleDesc 2) [1; CurrentProcess] (handle_table client_process)
              = ([Some 7%nat; Some 6%nat], guest_table)).
  { change (handle_table client_process) with guest_table. cbn [send_handles]. unfold send_handle.
    change (1 =? CurrentThread) with false. change (1 =? CurrentProcess) with false.
    change (CurrentProcess =? CurrentThread) with false. rewrite Z.eqb_refl. change (1 =? 0) with false.
    change (CopyHandleDesc 2 =? MoveHandle) with false.
    assert (Eg : GetGeneric None None guest_table 1 = Some 7%nat) by (vm_compute; reflexivity).
    by rewrite Eg. }
  destruct (handles_translated None None 5%nat 6%nat 1 2 ltac:(done) (CopyHandleDesc 2)
    [1; CurrentProcess] ipc_sys client_process server_process free ipc_client ipc_server Hwf)
    as [(ws & tb & Ew & _ & Hr & _) _].
  - rewrite E, Hl. cbn. lia.
  - rewrite E in Ew, Hr. exists ws, tb. split; [exact Ew|exact Hr].
Defined.

Lemma server_good : vm_good ProcessSpecs.mems ProcessSpecs.pt_lookup (vm_manager server_process).
Proof.
  split; [|done]. split.
  - split; [done|]. constructor; [done|constructor].
  - intros a Ha. simpl. unfold attr. simpl. by destruct (VMManager.inside _ _).
Qed.

(** 16 bytes at 0x1010 of the client, seen by the server at 0x04001010. *)
Lemma mapped_buffer_lifetime_witness :
  exists s1 v1,
    translate_mapped 1 2 false (MappedBufferDesc 16 RW) 0x1010 ipc_sys = Done s1 (Some 0x04001010) /\
    placed (vm_manager server_process) v1 0x04000000 0x3000 0x90000000.
Proof.
  destruct (mapped_buffer_lifetime 1 2 ipc_sys client_process server_process
    (MappedBufferDesc 16 RW) 0x1010 0x04000000) as (s1 & v1 & E & _ & Hp & _).
  - done.
  - done.
  - exact ipc_client.
  - exact ipc_server.
  - exact server_good.
  - intros w [->|Hw]%elem_of_cons; [done|]. by apply elem_of_nil in Hw.
  - exists initial_vma. split_and!; done.
  - right. by exists 0.
  - constructor.
  - exists s1, v1. split; [exact E|exact Hp].
Defined.
