(* ===== verification/Cro.v ===== *)
(** * Cro: modules of relocatable code (core/hle/service/ldr_ro/cro_helper.cpp, cro_helper.h)

    A CRO is a module in the memory of a process: a header of 32-bit fields, tables of
    entries, code and data.  [CROHelper] rebases a module where it was mapped, relocates
    it, links it with the modules that are loaded, and takes all of that back.  A
    [CROHelper] is the address of its module; all its state is guest memory.

    [Memory()] reads words through the page table of the running process ([current]) and
    blocks through the one of the process that owns the module ([process]).  The calls of
    [InvalidateCacheRange] are recorded. *)
From S2P Require Import Prelude Result Ipc.

Local Open Scope Z_scope.

(** ** Memory *)

(** The accesses of the memory system that read and write words and strings. *)
Class WordMemory (PageTable : Type) := {
  Read8 : PageTable -> (Z -> Z) -> Z -> Z;
  Read32 : PageTable -> (Z -> Z) -> Z -> Z;
  Write32 : PageTable -> (Z -> Z) -> Z -> Z -> (Z -> Z);
  (** [ReadCString(address, max_length)] *)
  ReadCString : PageTable -> (Z -> Z) -> Z -> Z -> list Z
}.

(** Host memory, and the ranges whose cached instructions were invalidated, last first. *)
Record Linker := mkLinker { host : Z -> Z; invalidated : list (Z * Z) }.

(** ** Header *)

Definition CRO_HEADER_SIZE : Z := 0x138.
Definition CRO_HASH_SIZE : Z := 0x80.
Definition MAGIC_CRO0 : Z := 0x304F5243.
Definition MAGIC_FIXD : Z := 0x44584946.

(** [HeaderField]: the code counts with these numbers. *)
Definition HeaderField : Type := Z.
Definition Magic : HeaderField := 0.
Definition NameOffset : HeaderField := 1.
Definition NextCRO : HeaderField := 2.
Definition PreviousCRO : HeaderField := 3.
Definition FileSize : HeaderField := 4.
Definition BssSize : HeaderField := 5.
Definition FixedSize : HeaderField := 6.
Definition OnUnresolvedSegmentTag : HeaderField := 11.
Definition CodeOffset : HeaderField := 12.
Definition CodeSize : HeaderField := 13.
Definition DataOffset : HeaderField := 14.
Definition ModuleNameOffset : HeaderField := 16.
Definition ModuleNameSize : HeaderField := 17.
Definition SegmentTableOffset : HeaderField := 18.
Definition SegmentNum : HeaderField := 19.
Definition ExportNamedSymbolTableOffset : HeaderField := 20.
Definition ExportNamedSymbolNum : HeaderField := 21.
Definition ExportIndexedSymbolTableOffset : HeaderField := 22.
Definition ExportStringsOffset : HeaderField := 24.
Definition ExportStringsSize : HeaderField := 25.
Definition ExportTreeTableOffset : HeaderField := 26.
Definition ExportTreeNum : HeaderField := 27.
Definition ImportModuleTableOffset : HeaderField := 28.
Definition ImportModuleNum : HeaderField := 29.
Definition ExternalRelocationTableOffset : HeaderField := 30.
Definition ExternalRelocationNum : HeaderField := 31.
Definition ImportNamedSymbolTableOffset : HeaderField := 32.
Definition ImportNamedSymbolNum : HeaderField := 33.
Definition ImportIndexedSymbolTableOffset : HeaderField := 34.
Definition ImportIndexedSymbolNum : HeaderField := 35.
Definition ImportAnonymousSymbolTableOffset : HeaderField := 36.
Definition ImportAnonymousSymbolNum : HeaderField := 37.
Definition ImportStringsOffset : HeaderField := 38.
Definition ImportStringsSize : HeaderField := 39.
Definition StaticAnonymousSymbolTableOffset : HeaderField := 40.
Definition StaticAnonymousSymbolNum : HeaderField := 41.
Definition InternalRelocationTableOffset : HeaderField := 42.
Definition InternalRelocationNum : HeaderField := 43.
Definition StaticRelocationTableOffset : HeaderField := 44.
Definition StaticRelocationNum : HeaderField := 45.
Definition Fix0Barrier : HeaderField := 46.
Definition Fix1Barrier : HeaderField := StaticAnonymousSymbolTableOffset.
Definition Fix2Barrier : HeaderField := ImportModuleTableOffset.
Definition Fix3Barrier : HeaderField := ExportNamedSymbolTableOffset.

(** ** Table entries *)

(** The bytes of a field of a structure. *)
Definition u8_at (bytes : list Z) (i : nat) : Z := nth i bytes 0.
Definition u16_at (bytes : list Z) (i : nat) : Z := le_value (take 2 (drop i bytes)).
Definition u32_at (bytes : list Z) (i : nat) : Z := le_value (take 4 (drop i bytes)).
Definition le16 (v : Z) : list Z := [v mod 256; v / 256 mod 256].

(** A structure that is an entry of a table: its size, the header field that holds the
    offset of its table, and its bytes. *)
Class Entry (T : Type) := {
  sizeof : Z;
  TABLE_OFFSET_FIELD : HeaderField;
  of_bytes : list Z -> T;
  to_bytes : T -> list Z
}.
Arguments sizeof T {_}.
Arguments TABLE_OFFSET_FIELD T {_}.

(** [SegmentTag], by its [raw]. *)
Definition segment_index (raw : Z) : Z := Z.land raw 15.
Definition offset_into_segment (raw : Z) : Z := Z.shiftr raw 4.

(** [SegmentType] *)
Definition Code : Z := 0.
Definition ROData : Z := 1.
Definition Data : Z := 2.
Definition BSS : Z := 3.

Record SegmentEntry := mkSegment { seg_offset : Z; seg_size : Z; seg_type : Z }.
#[export] Instance SegmentEntry_entry : Entry SegmentEntry := {
  sizeof := 12; TABLE_OFFSET_FIELD := SegmentTableOffset;
  of_bytes b := mkSegment (u32_at b 0) (u32_at b 4) (u32_at b 8);
  to_bytes e := le32 (seg_offset e) ++ le32 (seg_size e) ++ le32 (seg_type e)
}.

Record ExportNamedSymbolEntry := mkExportNamed { en_name_offset : Z; en_symbol_position : Z }.
#[export] Instance ExportNamedSymbolEntry_entry : Entry ExportNamedSymbolEntry := {
  sizeof := 8; TABLE_OFFSET_FIELD := ExportNamedSymbolTableOffset;
  of_bytes b := mkExportNamed (u32_at b 0) (u32_at b 4);
  to_bytes e := le32 (en_name_offset e) ++ le32 (en_symbol_position e)
}.

Record ExportIndexedSymbolEntry := mkExportIndexed { ei_symbol_position : Z }.
#[export] Instance ExportIndexedSymbolEntry_entry : Entry ExportIndexedSymbolEntry := {
  sizeof := 4; TABLE_OFFSET_FIELD := ExportIndexedSymbolTableOffset;
  of_bytes b := mkExportIndexed (u32_at b 0);
  to_bytes e := le32 (ei_symbol_position e)
}.

(** A child of a tree node, by its [raw]. *)
Definition next_index (raw : Z) : Z := Z.land raw 0x7FFF.
Definition is_end (raw : Z) : bool := negb (Z.shiftr raw 15 =? 0).

Record ExportTreeEntry := mkTree { test_bit : Z; left_ : Z; right_ : Z; export_table_index : Z }.
#[export] Instance ExportTreeEntry_entry : Entry ExportTreeEntry := {
  sizeof := 8; TABLE_OFFSET_FIELD := ExportTreeTableOffset;
  of_bytes b := mkTree (u16_at b 0) (u16_at b 2) (u16_at b 4) (u16_at b 6);
  to_bytes e := le16 (test_bit e) ++ le16 (left_ e) ++ le16 (right_ e) ++ le16 (export_table_index e)
}.

Record ImportNamedSymbolEntry := mkImportNamed { in_name_offset : Z; in_batch : Z }.
#[export] Instance ImportNamedSymbolEntry_entry : Entry ImportNamedSymbolEntry := {
  sizeof := 8; TABLE_OFFSET_FIELD := ImportNamedSymbolTableOffset;
  of_bytes b := mkImportNamed (u32_at b 0) (u32_at b 4);
  to_bytes e := le32 (in_name_offset e) ++ le32 (in_batch e)
}.

Record ImportIndexedSymbolEntry := mkImportIndexed { ii_index : Z; ii_batch : Z }.
#[export] Instance ImportIndexedSymbolEntry_entry : Entry ImportIndexedSymbolEntry := {
  sizeof := 8; TABLE_OFFSET_FIELD := ImportIndexedSymbolTableOffset;
  of_bytes b := mkImportIndexed (u32_at b 0) (u32_at b 4);
  to_bytes e := le32 (ii_index e) ++ le32 (ii_batch e)
}.

Record ImportAnonymousSymbolEntry := mkImportAnonymous { ia_symbol_position : Z; ia_batch : Z }.
#[export] Instance ImportAnonymousSymbolEntry_entry : Entry ImportAnonymousSymbolEntry := {
  sizeof := 8; TABLE_OFFSET_FIELD := ImportAnonymousSymbolTableOffset;
  of_bytes b := mkImportAnonymous (u32_at b 0) (u32_at b 4);
  to_bytes e := le32 (ia_symbol_position e) ++ le32 (ia_batch e)
}.

Record ImportModuleEntry := mkImportModule {
  im_name_offset : Z;
  import_indexed_symbol_table_offset : Z;
  import_indexed_symbol_num : Z;
  import_anonymous_symbol_table_offset : Z;
  import_anonymous_symbol_num : Z
}.
#[export] Instance ImportModuleEntry_entry : Entry ImportModuleEntry := {
  sizeof := 20; TABLE_OFFSET_FIELD := ImportModuleTableOffset;
  of_bytes b := mkImportModule (u32_at b 0) (u32_at b 4) (u32_at b 8) (u32_at b 12) (u32_at b 16);
  to_bytes e := le32 (im_name_offset e) ++ le32 (import_indexed_symbol_table_offset e)
    ++ le32 (import_indexed_symbol_num e) ++ le32 (import_anonymous_symbol_table_offset e)
    ++ le32 (import_anonymous_symbol_num e)
}.

(** [RelocationType] *)
Definition Nothing : Z := 0.
Definition AbsoluteAddress : Z := 2.
Definition RelativeAddress : Z := 3.
Definition ThumbBranch : Z := 10.
Definition ArmBranch : Z := 28.
Definition ModifyArmBranch : Z := 29.
Definition AbsoluteAddress2 : Z := 38.
Definition AlignedRelativeAddress : Z := 42.

Record RelocationEntry := mkRelocation {
  target_position : Z;
  relocation_type : Z;
  is_batch_end : Z;
  is_batch_resolved : Z;
  padding : Z;
  addend : Z
}.
Definition relocation_of_bytes (b : list Z) : RelocationEntry :=
  mkRelocation (u32_at b 0) (u8_at b 4) (u8_at b 5) (u8_at b 6) (u8_at b 7) (u32_at b 8).
Definition relocation_bytes (e : RelocationEntry) : list Z :=
  le32 (target_position e) ++ [relocation_type e; is_batch_end e; is_batch_resolved e; padding e]
    ++ le32 (addend e).
Definition sizeof_RelocationEntry : Z := 12.

(** [ExternalRelocationEntry]: an entry of the table of external relocations. *)
#[export] Instance ExternalRelocationEntry_entry : Entry RelocationEntry := {
  sizeof := 12; TABLE_OFFSET_FIELD := ExternalRelocationTableOffset;
  of_bytes := relocation_of_bytes; to_bytes := relocation_bytes
}.

Record InternalRelocationEntry := mkInternal {
  ir_target_position : Z;
  ir_type : Z;
  symbol_segment : Z;
  ir_padding : list Z;
  ir_addend : Z
}.
#[export] Instance InternalRelocationEntry_entry : Entry InternalRelocationEntry := {
  sizeof := 12; TABLE_OFFSET_FIELD := InternalRelocationTableOffset;
  of_bytes b := mkInternal (u32_at b 0) (u8_at b 4) (u8_at b 5) (take 2 (drop 6 b)) (u32_at b 8);
  to_bytes e := le32 (ir_target_position e) ++ [ir_type e; symbol_segment e] ++ ir_padding e
    ++ le32 (ir_addend e)
}.

Record StaticAnonymousSymbolEntry := mkStatic { sa_symbol_position : Z; sa_batch : Z }.
#[export] Instance StaticAnonymousSymbolEntry_entry : Entry StaticAnonymousSymbolEntry := {
  sizeof := 8; TABLE_OFFSET_FIELD := StaticAnonymousSymbolTableOffset;
  of_bytes b := mkStatic (u32_at b 0) (u32_at b 4);
  to_bytes e := le32 (sa_symbol_position e) ++ le32 (sa_batch e)
}.

(** The sizes of the entries of the tables from [CodeOffset] on. *)
Definition ENTRY_SIZE : list Z := [1; 1; 1; 12; 8; 4; 1; 8; 20; 12; 8; 8; 8; 1; 8; 12; 12].

Definition FIX_BARRIERS : list HeaderField := [Fix0Barrier; Fix1Barrier; Fix2Barrier; Fix3Barrier].

(** The offset fields: [for (field = CodeOffset; field < Fix0Barrier; field += 2)]. *)
Definition offset_fields : list HeaderField :=
  [12; 14; 16; 18; 20; 22; 24; 26; 28; 30; 32; 34; 36; 38; 40; 42; 44].

(** ** Errors *)

Definition ERROR_BUFFER_TOO_SMALL : Result :=
  Result_of 31 ErrorModule.RO ErrorSummary.InvalidArgument ErrorLevel.Usage.

Definition CROFormatError (description : Z) : Result :=
  Result_of description ErrorModule.RO ErrorSummary.WrongArgument ErrorLevel.Permanent.

(** ** Loops *)

(** [for (u32 i = 0; i < num; ++i)] *)
Fixpoint for_range {S} (n : nat) (i : Z) (body : Z -> op S unit) : op S unit :=
  match n with
  | O => ret tt
  | Datatypes.S n => (body i ;; for_range n (i + 1) body)%hle
  end.
Definition for_u32 {S} (num : Z) (body : Z -> op S unit) : op S unit :=
  for_range (Z.to_nat num) 0 body.

Fixpoint for_list {S A} (l : list A) (body : A -> op S unit) : op S unit :=
  match l with
  | [] => ret tt
  | x :: l => (body x ;; for_list l body)%hle
  end.

(** ** CROHelper *)

Section CROHelper.
Context {PageTable : Type} `{!GuestMemory PageTable} `{!WordMemory PageTable}.
Variables (current process : PageTable) (CITRA_PAGE_SIZE : Z).
(** The rounds allowed to the loops that the data of the guest should end. *)
Variable fuel : nat.

Definition read {A} (f : (Z -> Z) -> A) : op Linker A := fun s => Done s (f (host s)).
Definition write (f : (Z -> Z) -> (Z -> Z)) : op Linker unit := fun s =>
  Done (mkLinker (f (host s)) (invalidated s)) tt.
Definition InvalidateCacheRange (start length : Z) : op Linker unit := fun s =>
  Done (mkLinker (host s) ((start, length) :: invalidated s)) tt.

Definition Field (module_address : Z) (field : HeaderField) : Z :=
  u32 (module_address + CRO_HASH_SIZE + field * 4).
Definition GetField (cro : Z) (field : HeaderField) : op Linker Z :=
  read (fun h => Read32 current h (Field cro field)).
Definition SetField (cro : Z) (field : HeaderField) (value : Z) : op Linker unit :=
  write (fun h => Write32 current h (Field cro field) value).

Definition ModuleName (cro : Z) : op Linker (list Z) :=
  (a <- GetField cro ModuleNameOffset ;;
   n <- GetField cro ModuleNameSize ;;
   read (fun h => ReadCString current h a n))%hle.

Definition GetFileSize (cro : Z) : op Linker Z := GetField cro FileSize.
Definition NextModule (cro : Z) : op Linker Z := GetField cro NextCRO.
Definition PreviousModule (cro : Z) : op Linker Z := GetField cro PreviousCRO.
Definition SetNextModule (cro next : Z) : op Linker unit := SetField cro NextCRO next.
Definition SetPreviousModule (cro previous : Z) : op Linker unit := SetField cro PreviousCRO previous.

(** A structure read from an address, and written to one. *)
Definition read_struct (T : Type) `{!Entry T} (address : Z) : op Linker T :=
  read (fun h => of_bytes (ReadBlock process h address (sizeof T))).
Definition write_struct {T : Type} `{!Entry T} (address : Z) (data : T) : op Linker unit :=
  write (fun h => WriteBlock process h address (to_bytes data)).

Definition GetEntry (T : Type) `{!Entry T} (cro index : Z) : op Linker T :=
  (table <- GetField cro (TABLE_OFFSET_FIELD T) ;;
   read_struct T (u32 (table + u32 (index * sizeof T))))%hle.
Definition SetEntry {T : Type} `{!Entry T} (cro index : Z) (data : T) : op Linker unit :=
  (table <- GetField cro (TABLE_OFFSET_FIELD T) ;;
   write_struct (u32 (table + u32 (index * sizeof T))) data)%hle.

Definition GetImportIndexedSymbolEntry (entry : ImportModuleEntry) (index : Z) :
    op Linker ImportIndexedSymbolEntry :=
  read_struct ImportIndexedSymbolEntry
    (u32 (import_indexed_symbol_table_offset entry + index * sizeof ImportIndexedSymbolEntry)).
Definition GetImportAnonymousSymbolEntry (entry : ImportModuleEntry) (index : Z) :
    op Linker ImportAnonymousSymbolEntry :=
  read_struct ImportAnonymousSymbolEntry
    (u32 (import_anonymous_symbol_table_offset entry + index * sizeof ImportAnonymousSymbolEntry)).

Definition SegmentTagToAddress (cro segment_tag : Z) : op Linker Z :=
  (segment_num <- GetField cro SegmentNum ;;
   if segment_num <=? segment_index segment_tag then ret 0
   else
     entry <- GetEntry SegmentEntry cro (segment_index segment_tag) ;;
     if seg_size entry <=? offset_into_segment segment_tag then ret 0
     else ret (u32 (seg_offset entry + offset_into_segment segment_tag)))%hle.

(** ** Relocations *)

(** The branches of the code that are not implemented fail an assertion. *)
Definition unimplemented (relocation_type : Z) : bool :=
  (relocation_type =? ThumbBranch) || (relocation_type =? ArmBranch)
  || (relocation_type =? ModifyArmBranch) || (relocation_type =? AlignedRelativeAddress).

Definition patch (target_address value : Z) : op Linker unit :=
  (write (fun h => Write32 current h target_address value) ;;
   InvalidateCacheRange target_address 4)%hle.

Definition ApplyRelocation (target_address relocation_type addend symbol_address
    target_future_address : Z) : op Linker unit :=
  (if relocation_type =? Nothing then ret tt
   else if (relocation_type =? AbsoluteAddress) || (relocation_type =? AbsoluteAddress2) then
     patch target_address (u32 (symbol_address + addend))
   else if relocation_type =? RelativeAddress then
     patch target_address (u32 (symbol_address + addend - target_future_address))
   else if unimplemented relocation_type then assert_ false
   else fail (CROFormatError 0x22))%hle.

Definition ClearRelocation (target_address relocation_type : Z) : op Linker unit :=
  (if relocation_type =? Nothing then ret tt
   else if (relocation_type =? AbsoluteAddress) || (relocation_type =? AbsoluteAddress2)
           || (relocation_type =? RelativeAddress) then patch target_address 0
   else if unimplemented relocation_type then assert_ false
   else fail (CROFormatError 0x22))%hle.

Fixpoint apply_batch (n : nat) (cro relocation_address symbol_address : Z) : op Linker unit :=
  match n with
  | O => assert_ false
  | S n =>
      (relocation <- read_struct RelocationEntry relocation_address ;;
       relocation_target <- SegmentTagToAddress cro (target_position relocation) ;;
       if relocation_target =? 0 then fail (CROFormatError 0x12)
       else
         ApplyRelocation relocation_target (relocation_type relocation) (addend relocation)
           symbol_address relocation_target ;;
         if negb (is_batch_end relocation =? 0) then ret tt
         else apply_batch n cro (u32 (relocation_address + sizeof_RelocationEntry)) symbol_address)%hle
  end.

Definition with_resolved (v : Z) (e : RelocationEntry) : RelocationEntry :=
  mkRelocation (target_position e) (relocation_type e) (is_batch_end e) v (padding e) (addend e).

Definition ApplyRelocationBatch (cro batch symbol_address : Z) (reset : bool) : op Linker unit :=
  (R_UNLESS (negb ((symbol_address =? 0) && negb reset)) (CROFormatError 0x10) ;;
   apply_batch fuel cro batch symbol_address ;;
   relocation <- read_struct RelocationEntry batch ;;
   write_struct batch (with_resolved (if reset then 0 else 1) relocation))%hle.

(** ** Exported names *)

Fixpoint find_leaf (n : nat) (cro : Z) (name : list Z) (next : Z) : op Linker Z :=
  match n with
  | O => fun _ => Aborted
  | S n =>
      (entry <- GetEntry ExportTreeEntry cro (next_index next) ;;
       if is_end next then ret (export_table_index entry)
       else
         let test_byte := Z.shiftr (test_bit entry) 3 in
         let test_bit_in_byte := Z.land (test_bit entry) 7 in
         if Z.of_nat (length name) <=? test_byte then find_leaf n cro name (left_ entry)
         else if Z.testbit (nth (Z.to_nat test_byte) name 0) test_bit_in_byte
         then find_leaf n cro name (right_ entry)
         else find_leaf n cro name (left_ entry))%hle
  end.

Definition FindExportNamedSymbol (cro : Z) (name : list Z) : op Linker Z :=
  (export_tree_num <- GetField cro ExportTreeNum ;;
   if export_tree_num =? 0 then ret 0
   else
     entry <- GetEntry ExportTreeEntry cro 0 ;;
     found_id <- find_leaf fuel cro name (left_ entry) ;;
     export_named_symbol_num <- GetField cro ExportNamedSymbolNum ;;
     if export_named_symbol_num <=? found_id then ret 0
     else
       export_strings_size <- GetField cro ExportStringsSize ;;
       symbol_entry <- GetEntry ExportNamedSymbolEntry cro found_id ;;
       found <- read (fun h => ReadCString current h (en_name_offset symbol_entry) export_strings_size) ;;
       if bool_decide (found = name) then SegmentTagToAddress cro (en_symbol_position symbol_entry)
       else ret 0)%hle.

(** ** Rebasing *)

(** The order that the offsets of the header must have. *)
Definition OFFSET_ORDER : list HeaderField :=
  [CodeOffset; ModuleNameOffset; SegmentTableOffset; ExportNamedSymbolTableOffset;
   ExportTreeTableOffset; ExportIndexedSymbolTableOffset; ExportStringsOffset;
   ImportModuleTableOffset; ExternalRelocationTableOffset; ImportNamedSymbolTableOffset;
   ImportIndexedSymbolTableOffset; ImportAnonymousSymbolTableOffset; ImportStringsOffset;
   StaticAnonymousSymbolTableOffset; InternalRelocationTableOffset;
   StaticRelocationTableOffset; DataOffset; FileSize].

Fixpoint verify_order (cro prev_offset : Z) (order : list HeaderField) : op Linker unit :=
  match order with
  | [] => ret tt
  | field :: order =>
      (cur_offset <- GetField cro field ;;
       R_UNLESS (negb (cur_offset <? prev_offset)) (CROFormatError 0x11) ;;
       verify_order cro cur_offset order)%hle
  end.

(** [offset = GetField(f); if (offset != 0) SetField(f, offset + module_address)] *)
Definition rebase_field (cro : Z) (field : HeaderField) : op Linker unit :=
  (offset <- GetField cro field ;;
   if offset =? 0 then ret tt else SetField cro field (u32 (offset + cro)))%hle.

Definition RebaseHeader (cro cro_size : Z) : op Linker unit :=
  let error := CROFormatError 0x11 in
  (magic <- GetField cro Magic ;;
   R_UNLESS (magic =? MAGIC_CRO0) error ;;
   next <- GetField cro NextCRO ;;
   R_UNLESS (next =? 0) error ;;
   previous <- GetField cro PreviousCRO ;;
   R_UNLESS (previous =? 0) error ;;
   file_size <- GetField cro FileSize ;;
   R_UNLESS (file_size <=? 0x10000000) error ;;
   bss_size <- GetField cro BssSize ;;
   R_UNLESS (bss_size <=? 0x10000000) error ;;
   fixed_size <- GetField cro FixedSize ;;
   R_UNLESS (fixed_size =? 0) error ;;
   code_offset <- GetField cro CodeOffset ;;
   R_UNLESS (CRO_HEADER_SIZE <=? code_offset) error ;;
   prev_offset <- GetField cro CodeOffset ;;
   verify_order cro prev_offset (tail OFFSET_ORDER) ;;
   rebase_field cro NameOffset ;;
   for_list offset_fields (rebase_field cro) ;;
   let file_end := u32 (cro + cro_size) in
   for_list (zip offset_fields ENTRY_SIZE) (fun p =>
     offset <- GetField cro p.1 ;;
     size <- GetField cro (p.1 + 1) ;;
     R_UNLESS (u32 (offset + u32 (size * p.2)) <=? file_end) error))%hle.

Fixpoint rebase_segments (n : nat) (i prev_data_segment cro cro_size data_segment_address
    data_segment_size bss_segment_address bss_segment_size : Z) : op Linker Z :=
  match n with
  | O => ret prev_data_segment
  | S n =>
      (segment <- GetEntry SegmentEntry cro i ;;
       let set offset := mkSegment offset (seg_size segment) (seg_type segment) in
       let* (prev, segment) :=
         (if seg_type segment =? Data then
            if seg_size segment =? 0 then ret (prev_data_segment, segment)
            else
              R_UNLESS (seg_size segment <=? data_segment_size) ERROR_BUFFER_TOO_SMALL ;;
              ret (seg_offset segment, set data_segment_address)
          else if seg_type segment =? BSS then
            if seg_size segment =? 0 then ret (prev_data_segment, segment)
            else
              R_UNLESS (seg_size segment <=? bss_segment_size) ERROR_BUFFER_TOO_SMALL ;;
              ret (prev_data_segment, set bss_segment_address)
          else if seg_offset segment =? 0 then ret (prev_data_segment, segment)
          else
            let offset := u32 (seg_offset segment + cro) in
            R_UNLESS (offset <=? u32 (cro + cro_size)) (CROFormatError 0x19) ;;
            ret (prev_data_segment, set offset)) in
       (SetEntry cro i segment ;;
        rebase_segments n (i + 1) prev cro cro_size data_segment_address data_segment_size
          bss_segment_address bss_segment_size))%hle
  end.

Definition RebaseSegmentTable (cro cro_size data_segment_address data_segment_size
    bss_segment_address bss_segment_size : Z) : op Linker Z :=
  (segment_num <- GetField cro SegmentNum ;;
   prev_data_segment <- rebase_segments (Z.to_nat segment_num) 0 0 cro cro_size
     data_segment_address data_segment_size bss_segment_address bss_segment_size ;;
   ret (u32 (prev_data_segment + cro)))%hle.

(** [if (x != 0) { x += module_address; if (!ok(x)) return error; }] *)
Definition rebased (cro : Z) (ok : Z -> bool) (error : Result) (x : Z) : op Linker Z :=
  (if x =? 0 then ret x
   else
     let x := u32 (x + cro) in
     R_UNLESS (ok x) error ;;
     ret x)%hle.

(** Inside a table, its end excluded or included. *)
Definition before_end (start finish x : Z) : bool := negb ((x <? start) || (finish <=? x)).
Definition up_to_end (start finish x : Z) : bool := negb ((x <? start) || (finish <? x)).

(** The bounds of a table: [start + GetField(num) * size]. *)
Definition table_bounds (cro : Z) (offset_field num_field : HeaderField) (entry_size : Z) :
    op Linker (Z * Z) :=
  (start <- GetField cro offset_field ;;
   num <- GetField cro num_field ;;
   ret (start, u32 (start + num * entry_size)))%hle.

(** A loop that changes every entry of a table. *)
Definition update_table {T : Type} `{!Entry T} (cro num : Z) (f : T -> op Linker T) : op Linker unit :=
  for_u32 num (fun i =>
    (entry <- GetEntry T cro i ;;
     entry <- f entry ;;
     SetEntry cro i entry)%hle).

Definition RebaseExportNamedSymbolTable (cro : Z) : op Linker unit :=
  (let* (start, finish) := table_bounds cro ExportStringsOffset ExportStringsSize 1 in
   (export_named_symbol_num <- GetField cro ExportNamedSymbolNum ;;
    update_table cro export_named_symbol_num (fun entry : ExportNamedSymbolEntry =>
      name_offset <- rebased cro (before_end start finish) (CROFormatError 0x11) (en_name_offset entry) ;;
      ret (mkExportNamed name_offset (en_symbol_position entry)))))%hle.

Definition VerifyExportTreeTable (cro : Z) : op Linker unit :=
  (tree_num <- GetField cro ExportTreeNum ;;
   for_u32 tree_num (fun i =>
     entry <- GetEntry ExportTreeEntry cro i ;;
     R_UNLESS ((next_index (left_ entry) <? tree_num) && (next_index (right_ entry) <? tree_num))
       (CROFormatError 0x11)))%hle.

Definition RebaseImportModuleTable (cro : Z) : op Linker unit :=
  let error := CROFormatError 0x18 in
  (let* (strings, strings_end) := table_bounds cro ImportStringsOffset ImportStringsSize 1 in
   let* (indexed, indexed_end) := table_bounds cro ImportIndexedSymbolTableOffset
     ImportIndexedSymbolNum (sizeof ImportIndexedSymbolEntry) in
   let* (anonymous, anonymous_end) := table_bounds cro ImportAnonymousSymbolTableOffset
     ImportAnonymousSymbolNum (sizeof ImportAnonymousSymbolEntry) in
   (module_num <- GetField cro ImportModuleNum ;;
    update_table cro module_num (fun entry : ImportModuleEntry =>
      name_offset <- rebased cro (before_end strings strings_end) error (im_name_offset entry) ;;
      indexed_table <- rebased cro (up_to_end indexed indexed_end) error
        (import_indexed_symbol_table_offset entry) ;;
      anonymous_table <- rebased cro (up_to_end anonymous anonymous_end) error
        (import_anonymous_symbol_table_offset entry) ;;
      ret (mkImportModule name_offset indexed_table (import_indexed_symbol_num entry)
             anonymous_table (import_anonymous_symbol_num entry)))))%hle.

Definition RebaseImportNamedSymbolTable (cro : Z) : op Linker unit :=
  let error := CROFormatError 0x1B in
  (let* (strings, strings_end) := table_bounds cro ImportStringsOffset ImportStringsSize 1 in
   let* (table, table_end) := table_bounds cro ExternalRelocationTableOffset
     ExternalRelocationNum sizeof_RelocationEntry in
   (num <- GetField cro ImportNamedSymbolNum ;;
    update_table cro num (fun entry : ImportNamedSymbolEntry =>
      name_offset <- rebased cro (before_end strings strings_end) error (in_name_offset entry) ;;
      batch <- rebased cro (up_to_end table table_end) error (in_batch entry) ;;
      ret (mkImportNamed name_offset batch))))%hle.

Definition RebaseImportIndexedSymbolTable (cro : Z) : op Linker unit :=
  (let* (table, table_end) := table_bounds cro ExternalRelocationTableOffset
     ExternalRelocationNum sizeof_RelocationEntry in
   (num <- GetField cro ImportIndexedSymbolNum ;;
    update_table cro num (fun entry : ImportIndexedSymbolEntry =>
      batch <- rebased cro (up_to_end table table_end) (CROFormatError 0x14) (ii_batch entry) ;;
      ret (mkImportIndexed (ii_index entry) batch))))%hle.

Definition RebaseImportAnonymousSymbolTable (cro : Z) : op Linker unit :=
  (let* (table, table_end) := table_bounds cro ExternalRelocationTableOffset
     ExternalRelocationNum sizeof_RelocationEntry in
   (num <- GetField cro ImportAnonymousSymbolNum ;;
    update_table cro num (fun entry : ImportAnonymousSymbolEntry =>
      batch <- rebased cro (up_to_end table table_end) (CROFormatError 0x17) (ia_batch entry) ;;
      ret (mkImportAnonymous (ia_symbol_position entry) batch))))%hle.

Definition GetOnUnresolvedAddress (cro : Z) : op Linker Z :=
  (tag <- GetField cro OnUnresolvedSegmentTag ;; SegmentTagToAddress cro tag)%hle.

(** The loops over all external relocations: [apply] is given the target and the entry. *)
Fixpoint external_relocations (n : nat) (i : Z) (batch_begin : bool) (cro : Z)
    (apply : Z -> RelocationEntry -> op Linker unit) : op Linker unit :=
  match n with
  | O => ret tt
  | S n =>
      (relocation <- GetEntry RelocationEntry cro i ;;
       relocation_target <- SegmentTagToAddress cro (target_position relocation) ;;
       R_UNLESS (negb (relocation_target =? 0)) (CROFormatError 0x12) ;;
       apply relocation_target relocation ;;
       (if batch_begin then SetEntry cro i (with_resolved 0 relocation) else ret tt) ;;
       external_relocations n (i + 1) (negb (is_batch_end relocation =? 0)) cro apply)%hle
  end.

Definition ResetExternalRelocations (cro : Z) : op Linker unit :=
  (unresolved_symbol <- GetOnUnresolvedAddress cro ;;
   external_relocation_num <- GetField cro ExternalRelocationNum ;;
   relocation <- GetEntry RelocationEntry cro (u32 (external_relocation_num - 1)) ;;
   R_UNLESS (negb (is_batch_end relocation =? 0)) (CROFormatError 0x12) ;;
   external_relocations (Z.to_nat external_relocation_num) 0 true cro (fun target relocation =>
     ApplyRelocation target (relocation_type relocation) (addend relocation) unresolved_symbol target))%hle.

Definition ClearExternalRelocations (cro : Z) : op Linker unit :=
  (external_relocation_num <- GetField cro ExternalRelocationNum ;;
   external_relocations (Z.to_nat external_relocation_num) 0 true cro (fun target relocation =>
     ClearRelocation target (relocation_type relocation)))%hle.

Definition ApplyStaticAnonymousSymbolToCRS (cro crs_address : Z) : op Linker unit :=
  (let* (table, table_end) := table_bounds cro StaticRelocationTableOffset StaticRelocationNum
     sizeof_RelocationEntry in
   (offset_export_num <- GetField cro StaticAnonymousSymbolNum ;;
    for_u32 offset_export_num (fun i =>
      entry <- GetEntry StaticAnonymousSymbolEntry cro i ;;
      let batch_address := u32 (sa_batch entry + cro) in
      R_UNLESS (up_to_end table table_end batch_address) (CROFormatError 0x16) ;;
      symbol_address <- SegmentTagToAddress cro (sa_symbol_position entry) ;;
      ApplyRelocationBatch crs_address batch_address symbol_address false)))%hle.

Definition ApplyInternalRelocations (cro old_data_segment_address : Z) : op Linker unit :=
  (segment_num <- GetField cro SegmentNum ;;
   internal_relocation_num <- GetField cro InternalRelocationNum ;;
   for_u32 internal_relocation_num (fun i =>
     relocation <- GetEntry InternalRelocationEntry cro i ;;
     target_addressB <- SegmentTagToAddress cro (ir_target_position relocation) ;;
     R_UNLESS (negb (target_addressB =? 0)) (CROFormatError 0x15) ;;
     target_segment <- GetEntry SegmentEntry cro (segment_index (ir_target_position relocation)) ;;
     let target_address :=
       if seg_type target_segment =? Data
       then u32 (old_data_segment_address + offset_into_segment (ir_target_position relocation))
       else target_addressB in
     R_UNLESS (symbol_segment relocation <? segment_num) (CROFormatError 0x15) ;;
     symbol <- GetEntry SegmentEntry cro (symbol_segment relocation) ;;
     ApplyRelocation target_address (ir_type relocation) (ir_addend relocation) (seg_offset symbol)
       target_addressB))%hle.

Definition ClearInternalRelocations (cro : Z) : op Linker unit :=
  (internal_relocation_num <- GetField cro InternalRelocationNum ;;
   for_u32 internal_relocation_num (fun i =>
     relocation <- GetEntry InternalRelocationEntry cro i ;;
     target_address <- SegmentTagToAddress cro (ir_target_position relocation) ;;
     R_UNLESS (negb (target_address =? 0)) (CROFormatError 0x15) ;;
     ClearRelocation target_address (ir_type relocation)))%hle.

(** ** Unrebasing *)

(** [if (x != 0) x -= module_address] *)
Definition unrebased (cro x : Z) : Z := if x =? 0 then x else u32 (x - cro).

Definition UnrebaseImportAnonymousSymbolTable (cro : Z) : op Linker unit :=
  (num <- GetField cro ImportAnonymousSymbolNum ;;
   update_table cro num (fun entry : ImportAnonymousSymbolEntry =>
     ret (mkImportAnonymous (ia_symbol_position entry) (unrebased cro (ia_batch entry)))))%hle.

Definition UnrebaseImportIndexedSymbolTable (cro : Z) : op Linker unit :=
  (num <- GetField cro ImportIndexedSymbolNum ;;
   update_table cro num (fun entry : ImportIndexedSymbolEntry =>
     ret (mkImportIndexed (ii_index entry) (unrebased cro (ii_batch entry)))))%hle.

Definition UnrebaseImportNamedSymbolTable (cro : Z) : op Linker unit :=
  (num <- GetField cro ImportNamedSymbolNum ;;
   update_table cro num (fun entry : ImportNamedSymbolEntry =>
     ret (mkImportNamed (unrebased cro (in_name_offset entry)) (unrebased cro (in_batch entry)))))%hle.

Definition UnrebaseImportModuleTable (cro : Z) : op Linker unit :=
  (module_num <- GetField cro ImportModuleNum ;;
   update_table cro module_num (fun entry : ImportModuleEntry =>
     ret (mkImportModule (unrebased cro (im_name_offset entry))
            (unrebased cro (import_indexed_symbol_table_offset entry)) (import_indexed_symbol_num entry)
            (unrebased cro (import_anonymous_symbol_table_offset entry))
            (import_anonymous_symbol_num entry))))%hle.

Definition UnrebaseExportNamedSymbolTable (cro : Z) : op Linker unit :=
  (export_named_symbol_num <- GetField cro ExportNamedSymbolNum ;;
   update_table cro export_named_symbol_num (fun entry : ExportNamedSymbolEntry =>
     ret (mkExportNamed (unrebased cro (en_name_offset entry)) (en_symbol_position entry))))%hle.

Definition UnrebaseSegmentTable (cro : Z) : op Linker unit :=
  (segment_num <- GetField cro SegmentNum ;;
   update_table cro segment_num (fun segment : SegmentEntry =>
     ret (mkSegment (if seg_type segment =? BSS then 0 else unrebased cro (seg_offset segment))
            (seg_size segment) (seg_type segment))))%hle.

Definition unrebase_field (cro : Z) (field : HeaderField) : op Linker unit :=
  (offset <- GetField cro field ;;
   if offset =? 0 then ret tt else SetField cro field (u32 (offset - cro)))%hle.

Definition UnrebaseHeader (cro : Z) : op Linker unit :=
  (unrebase_field cro NameOffset ;;
   for_list offset_fields (unrebase_field cro))%hle.

(** ** Linking *)

(** [ForEachAutoLinkCRO]: the static module and the list behind it. *)
Fixpoint for_each (n : nat) (cur : Z) (func : Z -> op Linker bool) : op Linker unit :=
  if cur =? 0 then ret tt
  else
    match n with
    | O => assert_ false
    | S n =>
        (next <- func cur ;;
         if negb next then ret tt
         else
           cur <- NextModule cur ;;
           for_each n cur func)%hle
    end.
Definition ForEachAutoLinkCRO (crs_address : Z) (func : Z -> op Linker bool) : op Linker unit :=
  for_each fuel crs_address func.

(** The name that a field of an entry points to. *)
Definition read_name (address max_length : Z) : op Linker (list Z) :=
  read (fun h => ReadCString current h address max_length).

Definition ApplyImportNamedSymbol (cro crs_address : Z) : op Linker unit :=
  (import_strings_size <- GetField cro ImportStringsSize ;;
   symbol_import_num <- GetField cro ImportNamedSymbolNum ;;
   for_u32 symbol_import_num (fun i =>
     entry <- GetEntry ImportNamedSymbolEntry cro i ;;
     let relocation_addr := in_batch entry in
     relocation_entry <- read_struct RelocationEntry relocation_addr ;;
     if negb (is_batch_resolved relocation_entry =? 0) then ret tt
     else
       ForEachAutoLinkCRO crs_address (fun source =>
         symbol_name <- read_name (in_name_offset entry) import_strings_size ;;
         symbol_address <- FindExportNamedSymbol source symbol_name ;;
         if symbol_address =? 0 then ret true
         else
           ApplyRelocationBatch cro relocation_addr symbol_address false ;;
           ret false)))%hle.

(** The three tables of imports are reset in the same way. *)
Definition reset_imports (cro : Z) (num_field : HeaderField) (batch_of : Z -> op Linker Z) : op Linker unit :=
  (unresolved_symbol <- GetOnUnresolvedAddress cro ;;
   num <- GetField cro num_field ;;
   for_u32 num (fun i =>
     relocation_addr <- batch_of i ;;
     ApplyRelocationBatch cro relocation_addr unresolved_symbol true))%hle.

Definition ResetImportNamedSymbol (cro : Z) : op Linker unit :=
  reset_imports cro ImportNamedSymbolNum (fun i =>
    (entry <- GetEntry ImportNamedSymbolEntry cro i ;; ret (in_batch entry))%hle).
Definition ResetImportIndexedSymbol (cro : Z) : op Linker unit :=
  reset_imports cro ImportIndexedSymbolNum (fun i =>
    (entry <- GetEntry ImportIndexedSymbolEntry cro i ;; ret (ii_batch entry))%hle).
Definition ResetImportAnonymousSymbol (cro : Z) : op Linker unit :=
  reset_imports cro ImportAnonymousSymbolNum (fun i =>
    (entry <- GetEntry ImportAnonymousSymbolEntry cro i ;; ret (ia_batch entry))%hle).

(** The symbols that [cro] imports from [source] by index and by position, as both
    [ApplyModuleImport] and [ApplyModuleExport] resolve them. *)
Definition import_from (cro source : Z) (entry : ImportModuleEntry) : op Linker unit :=
  (for_u32 (import_indexed_symbol_num entry) (fun j =>
     im <- GetImportIndexedSymbolEntry entry j ;;
     ex <- GetEntry ExportIndexedSymbolEntry source (ii_index im) ;;
     symbol_address <- SegmentTagToAddress source (ei_symbol_position ex) ;;
     ApplyRelocationBatch cro (ii_batch im) symbol_address false) ;;
   for_u32 (import_anonymous_symbol_num entry) (fun j =>
     im <- GetImportAnonymousSymbolEntry entry j ;;
     symbol_address <- SegmentTagToAddress source (ia_symbol_position im) ;;
     ApplyRelocationBatch cro (ia_batch im) symbol_address false))%hle.

Definition ApplyModuleImport (cro crs_address : Z) : op Linker unit :=
  (import_strings_size <- GetField cro ImportStringsSize ;;
   import_module_num <- GetField cro ImportModuleNum ;;
   for_u32 import_module_num (fun i =>
     entry <- GetEntry ImportModuleEntry cro i ;;
     want_cro_name <- read_name (im_name_offset entry) import_strings_size ;;
     ForEachAutoLinkCRO crs_address (fun source =>
       name <- ModuleName source ;;
       if bool_decide (want_cro_name = name) then (import_from cro source entry ;; ret false)
       else ret true)))%hle.

Definition ApplyExportNamedSymbol (cro target : Z) : op Linker unit :=
  (target_import_strings_size <- GetField target ImportStringsSize ;;
   target_symbol_import_num <- GetField target ImportNamedSymbolNum ;;
   for_u32 target_symbol_import_num (fun i =>
     entry <- GetEntry ImportNamedSymbolEntry target i ;;
     let relocation_addr := in_batch entry in
     relocation_entry <- read_struct RelocationEntry relocation_addr ;;
     if negb (is_batch_resolved relocation_entry =? 0) then ret tt
     else
       symbol_name <- read_name (in_name_offset entry) target_import_strings_size ;;
       symbol_address <- FindExportNamedSymbol cro symbol_name ;;
       if symbol_address =? 0 then ret tt
       else ApplyRelocationBatch target relocation_addr symbol_address false))%hle.

Definition ResetExportNamedSymbol (cro target : Z) : op Linker unit :=
  (unresolved_symbol <- GetOnUnresolvedAddress target ;;
   target_import_strings_size <- GetField target ImportStringsSize ;;
   target_symbol_import_num <- GetField target ImportNamedSymbolNum ;;
   for_u32 target_symbol_import_num (fun i =>
     entry <- GetEntry ImportNamedSymbolEntry target i ;;
     let relocation_addr := in_batch entry in
     relocation_entry <- read_struct RelocationEntry relocation_addr ;;
     if is_batch_resolved relocation_entry =? 0 then ret tt
     else
       symbol_name <- read_name (in_name_offset entry) target_import_strings_size ;;
       symbol_address <- FindExportNamedSymbol cro symbol_name ;;
       if symbol_address =? 0 then ret tt
       else ApplyRelocationBatch target relocation_addr unresolved_symbol true))%hle.

Definition ApplyModuleExport (cro target : Z) : op Linker unit :=
  (module_name <- ModuleName cro ;;
   target_import_string_size <- GetField target ImportStringsSize ;;
   target_import_module_num <- GetField target ImportModuleNum ;;
   for_u32 target_import_module_num (fun i =>
     entry <- GetEntry ImportModuleEntry target i ;;
     name <- read_name (im_name_offset entry) target_import_string_size ;;
     if bool_decide (name = module_name) then import_from target cro entry else ret tt))%hle.

Definition ResetModuleExport (cro target : Z) : op Linker unit :=
  (unresolved_symbol <- GetOnUnresolvedAddress target ;;
   module_name <- ModuleName cro ;;
   target_import_string_size <- GetField target ImportStringsSize ;;
   target_import_module_num <- GetField target ImportModuleNum ;;
   for_u32 target_import_module_num (fun i =>
     entry <- GetEntry ImportModuleEntry target i ;;
     name <- read_name (im_name_offset entry) target_import_string_size ;;
     if bool_decide (name = module_name) then
       for_u32 (import_indexed_symbol_num entry) (fun j =>
         im <- GetImportIndexedSymbolEntry entry j ;;
         ApplyRelocationBatch target (ii_batch im) unresolved_symbol true) ;;
       for_u32 (import_anonymous_symbol_num entry) (fun j =>
         im <- GetImportAnonymousSymbolEntry entry j ;;
         ApplyRelocationBatch target (ia_batch im) unresolved_symbol true)
     else ret tt))%hle.

(** "__aeabi_atexit" and "nnroAeabiAtexit_" *)
Definition aeabi_atexit : list Z := [95; 95; 97; 101; 97; 98; 105; 95; 97; 116; 101; 120; 105; 116].
Definition nnroAeabiAtexit_ : list Z :=
  [110; 110; 114; 111; 65; 101; 97; 98; 105; 65; 116; 101; 120; 105; 116; 95].

Definition ApplyExitRelocations (cro crs_address : Z) : op Linker unit :=
  (import_strings_size <- GetField cro ImportStringsSize ;;
   symbol_import_num <- GetField cro ImportNamedSymbolNum ;;
   for_u32 symbol_import_num (fun i =>
     entry <- GetEntry ImportNamedSymbolEntry cro i ;;
     let relocation_addr := in_batch entry in
     relocation_entry <- read_struct RelocationEntry relocation_addr ;;
     name <- read_name (in_name_offset entry) import_strings_size ;;
     if bool_decide (name = aeabi_atexit) then
       ForEachAutoLinkCRO crs_address (fun source =>
         symbol_address <- FindExportNamedSymbol source nnroAeabiAtexit_ ;;
         if symbol_address =? 0 then ret true
         else
           ApplyRelocationBatch cro relocation_addr symbol_address false ;;
           ret false)
     else ret tt))%hle.

(** ** The public operations *)

Definition VerifyStringTableLength (address size : Z) : op Linker unit :=
  (if size =? 0 then ret tt
   else
     last <- read (fun h => Read8 current h (u32 (address + size - 1))) ;;
     R_UNLESS (last =? 0) (CROFormatError 0x0B))%hle.

Definition verify_strings (cro : Z) (offset_field size_field : HeaderField) : op Linker unit :=
  (offset <- GetField cro offset_field ;;
   size <- GetField cro size_field ;;
   VerifyStringTableLength offset size)%hle.

Definition Rebase (cro crs_address cro_size data_segment_address data_segment_size
    bss_segment_address bss_segment_size : Z) (is_crs : bool) : op Linker unit :=
  (RebaseHeader cro cro_size ;;
   verify_strings cro ModuleNameOffset ModuleNameSize ;;
   prev_data_segment_address <-
     (if is_crs then ret 0
      else RebaseSegmentTable cro cro_size data_segment_address data_segment_size
             bss_segment_address bss_segment_size) ;;
   RebaseExportNamedSymbolTable cro ;;
   VerifyExportTreeTable cro ;;
   verify_strings cro ExportStringsOffset ExportStringsSize ;;
   RebaseImportModuleTable cro ;;
   ResetExternalRelocations cro ;;
   RebaseImportNamedSymbolTable cro ;;
   RebaseImportIndexedSymbolTable cro ;;
   RebaseImportAnonymousSymbolTable cro ;;
   verify_strings cro ImportStringsOffset ImportStringsSize ;;
   (if is_crs then ret tt else ApplyStaticAnonymousSymbolToCRS cro crs_address) ;;
   ApplyInternalRelocations cro prev_data_segment_address ;;
   (if is_crs then ret tt else ApplyExitRelocations cro crs_address))%hle.

Definition Unrebase (cro : Z) (is_crs : bool) : op Linker unit :=
  (UnrebaseImportAnonymousSymbolTable cro ;;
   UnrebaseImportIndexedSymbolTable cro ;;
   UnrebaseImportNamedSymbolTable cro ;;
   UnrebaseImportModuleTable cro ;;
   UnrebaseExportNamedSymbolTable cro ;;
   (if is_crs then ret tt else UnrebaseSegmentTable cro) ;;
   SetNextModule cro 0 ;;
   SetPreviousModule cro 0 ;;
   SetField cro FixedSize 0 ;;
   UnrebaseHeader cro)%hle.

Definition VerifyHash (cro cro_size crr : Z) : op Linker unit := ret tt.

(** [SCOPE_EXIT]: also when the body returns an error. *)
Definition finally {A} (body : op Linker A) (exit : op Linker unit) : op Linker A := fun s =>
  match body s with
  | Done s a => (exit ;; ret a)%hle s
  | Failed s rc => (exit ;; fail rc)%hle s
  | Aborted => Aborted
  end.

(** The fix of 7.2.0-17: symbols are imported with the .data segment in the CRO. *)
Definition restore_data_segment (cro : Z) : op Linker Z :=
  (segment_num <- GetField cro SegmentNum ;;
   if 2 <=? segment_num then
     entry <- GetEntry SegmentEntry cro 2 ;;
     assert_ (seg_type entry =? Data) ;;
     data_offset <- GetField cro DataOffset ;;
     SetEntry cro 2 (mkSegment data_offset (seg_size entry) (seg_type entry)) ;;
     ret (seg_offset entry)
   else ret 0)%hle.

Definition set_data_segment (cro data_segment_address : Z) : op Linker unit :=
  (segment_num <- GetField cro SegmentNum ;;
   if 2 <=? segment_num then
     entry <- GetEntry SegmentEntry cro 2 ;;
     SetEntry cro 2 (mkSegment data_segment_address (seg_size entry) (seg_type entry))
   else ret tt)%hle.

Definition Link (cro crs_address : Z) (link_on_load_bug_fix : bool) : op Linker unit :=
  (data_segment_address <- (if link_on_load_bug_fix then restore_data_segment cro else ret 0) ;;
   finally (ApplyImportNamedSymbol cro crs_address ;; ApplyModuleImport cro crs_address)
     (if link_on_load_bug_fix then set_data_segment cro data_segment_address else ret tt) ;;
   ForEachAutoLinkCRO crs_address (fun target =>
     ApplyExportNamedSymbol cro target ;;
     ApplyModuleExport cro target ;;
     ret true))%hle.

Definition Unlink (cro crs_address : Z) : op Linker unit :=
  (ResetImportNamedSymbol cro ;;
   ResetImportIndexedSymbol cro ;;
   ResetImportAnonymousSymbol cro ;;
   ForEachAutoLinkCRO crs_address (fun target =>
     ResetExportNamedSymbol cro target ;;
     ResetModuleExport cro target ;;
     ret true))%hle.

Definition ClearRelocations (cro : Z) : op Linker unit :=
  (ClearExternalRelocations cro ;; ClearInternalRelocations cro)%hle.

Definition InitCRS (cro : Z) : op Linker unit :=
  (SetNextModule cro 0 ;; SetPreviousModule cro 0)%hle.

Definition Register (cro crs_address : Z) (auto_link : bool) : op Linker unit :=
  (head <- (if auto_link then NextModule crs_address else PreviousModule crs_address) ;;
   (if negb (head =? 0) then
      tail <- PreviousModule head ;;
      tail_next <- NextModule tail ;;
      assert_ (tail_next =? 0) ;;
      SetPreviousModule cro tail ;;
      SetNextModule tail cro ;;
      SetPreviousModule head cro
    else
      SetPreviousModule cro cro ;;
      (if auto_link then SetNextModule crs_address cro else SetPreviousModule crs_address cro)) ;;
   SetNextModule cro 0)%hle.

Definition Unregister (cro crs_address : Z) : op Linker unit :=
  (next_head <- NextModule crs_address ;;
   previous_head <- PreviousModule crs_address ;;
   next <- NextModule cro ;;
   previous <- PreviousModule cro ;;
   (if (cro =? next_head) || (cro =? previous_head) then
      (if negb (next =? 0) then SetPreviousModule next previous else ret tt) ;;
      (if cro =? previous_head then SetPreviousModule crs_address next
       else SetNextModule crs_address next)
    else if negb (next =? 0) then
      SetNextModule previous next ;;
      SetPreviousModule next previous
    else
      SetNextModule previous 0 ;;
      (* [next_head && next_head.PreviousModule() == module_address] *)
      in_next <- (if next_head =? 0 then ret false
                  else p <- PreviousModule next_head ;; ret (p =? cro)) ;;
      if (in_next : bool) then SetPreviousModule next_head previous
      else
        in_previous <- (if previous_head =? 0 then ret false
                        else p <- PreviousModule previous_head ;; ret (p =? cro)) ;;
        if (in_previous : bool) then SetPreviousModule previous_head previous
        else assert_ false) ;;
   SetNextModule cro 0 ;;
   SetPreviousModule cro 0)%hle.

(** ** Fixing *)

(** The tables from [ModuleNameOffset] up to the barrier. *)
Fixpoint fix_end_loop (n : nat) (cro end_ : Z) (field barrier : HeaderField) (entry_size_i : nat) :
    op Linker Z :=
  match n with
  | O => fun _ => Aborted
  | S n =>
      (offset <- GetField cro field ;;
       num <- GetField cro (field + 1) ;;
       let end_ := Z.max end_ (u32 (offset + u32 (num * nth entry_size_i ENTRY_SIZE 0))) in
       if field + 2 =? barrier then ret end_
       else fix_end_loop n cro end_ (field + 2) barrier (Datatypes.S entry_size_i))%hle
  end.

(** [FIX_BARRIERS[fix_level]] *)
Definition fix_barrier (fix_level : Z) : op Linker HeaderField := fun s =>
  match FIX_BARRIERS !! Z.to_nat fix_level with
  | Some barrier => Done s barrier
  | None => Aborted
  end.

Definition GetFixEnd (cro fix_level : Z) : op Linker Z :=
  (code_offset <- GetField cro CodeOffset ;;
   code_size <- GetField cro CodeSize ;;
   let end_ := Z.max CRO_HEADER_SIZE (u32 (code_offset + code_size)) in
   barrier <- fix_barrier fix_level ;;
   fix_end_loop 15 cro end_ ModuleNameOffset barrier 2)%hle.

Definition AlignDown (value size : Z) : Z := value - value mod size.
Definition AlignUp (value size : Z) : Z :=
  if value mod size =? 0 then value else u32 (value - value mod size + size).

Definition Fix (cro fix_level : Z) : op Linker Z :=
  (fix_end <- GetFixEnd cro fix_level ;;
   (if fix_level =? 0 then ret tt
    else
      SetField cro Magic MAGIC_FIXD ;;
      barrier <- fix_barrier fix_level ;;
      for_list (filter (fun f => barrier <= f) offset_fields) (fun field =>
        SetField cro field fix_end ;;
        SetField cro (field + 1) 0)) ;;
   let fixed_size := u32 (AlignUp fix_end CITRA_PAGE_SIZE - cro) in
   SetField cro FixedSize fixed_size ;;
   ret fixed_size)%hle.

Definition IsFixed (cro : Z) : op Linker bool :=
  (magic <- GetField cro Magic ;; ret (magic =? MAGIC_FIXD))%hle.

Definition GetFixedSize (cro : Z) : op Linker Z := GetField cro FixedSize.

Definition IsLoaded (cro : Z) : op Linker bool :=
  (magic <- GetField cro Magic ;; ret ((magic =? MAGIC_CRO0) || (magic =? MAGIC_FIXD)))%hle.

Fixpoint executable_pages (n : nat) (i cro : Z) : op Linker (Z * Z) :=
  match n with
  | O => ret (0, 0)
  | S n =>
      (entry <- GetEntry SegmentEntry cro i ;;
       if (seg_type entry =? Code) && negb (seg_size entry =? 0) then
         let begin := AlignDown (seg_offset entry) CITRA_PAGE_SIZE in
         let finish := AlignUp (u32 (seg_offset entry + seg_size entry)) CITRA_PAGE_SIZE in
         ret (begin, u32 (finish - begin))
       else executable_pages n (i + 1) cro)%hle
  end.

Definition GetExecutablePages (cro : Z) : op Linker (Z * Z) :=
  (segment_num <- GetField cro SegmentNum ;;
   executable_pages (Z.to_nat segment_num) 0 cro)%hle.

End CROHelper.
