(* ===== verification/CroMemory.v ===== *)
(** * CroMemory: what the memory of modules promises

    The contract of [WordMemory], and guest memory seen as bytes at addresses.  [flat]
    says that the addresses of a set are each mapped to a byte of their own, seen alike
    by the running process and by the owner of the module: on them, reads and writes are
    those of an array. *)
From S2P Require Import Prelude Result Ipc Cro.

Local Open Scope Z_scope.

(** The characters before the first zero. *)
Fixpoint c_string (bytes : list Z) : list Z :=
  match bytes with
  | [] => []
  | b :: bytes => if b =? 0 then [] else b :: c_string bytes
  end.

(** The addresses of a range are mapped, by a page table as a map to host addresses. *)
Definition mapped (locate : Z -> option Z) (a n : Z) : Prop :=
  0 <= a /\ a + n <= 4294967296 /\ forall i, 0 <= i < n -> is_Some (locate (a + i)).

(** Words are four bytes, strings end at a zero, and blocks are bytes at the host
    addresses that the page table gives. *)
Class WordMemoryLaws (PageTable : Type) `{!GuestMemory PageTable} `{!WordMemory PageTable} := {
  locate : PageTable -> Z -> option Z;
  Read8_block pt h a : mapped (locate pt) a 1 -> Read8 pt h a = u8_at (ReadBlock pt h a 1) 0;
  Read32_block pt h a : mapped (locate pt) a 4 -> Read32 pt h a = le_value (ReadBlock pt h a 4);
  Write32_block pt h a v : mapped (locate pt) a 4 -> Write32 pt h a v = WriteBlock pt h a (le32 v);
  ReadCString_block pt h a n k : 0 <= k < n -> mapped (locate pt) a (k + 1) ->
    u8_at (ReadBlock pt h a (k + 1)) (Z.to_nat k) = 0 ->
    ReadCString pt h a n = c_string (ReadBlock pt h a (k + 1));
  ReadBlock_bytes pt h a n : mapped (locate pt) a n ->
    ReadBlock pt h a n = (fun b => default 0 (h <$> locate pt b)) <$> seqZ a n;
  WriteBlock_other pt h a bytes p : mapped (locate pt) a (Z.of_nat (length bytes)) ->
    (forall i, 0 <= i < Z.of_nat (length bytes) -> locate pt (a + i) <> Some p) ->
    WriteBlock pt h a bytes p = h p;
  WriteBlock_same pt h a bytes i p b : mapped (locate pt) a (Z.of_nat (length bytes)) ->
    bytes !! i = Some b -> locate pt (a + Z.of_nat i) = Some p ->
    (forall j, locate pt (a + Z.of_nat j) = Some p -> (j < length bytes)%nat -> j = i) ->
    WriteBlock pt h a bytes p = b
}.

Lemma nth_lookup_Some' (l : list Z) i : (i < length l)%nat -> l !! i = Some (nth i l 0).
Proof.
  intros Hi. destruct (lookup_lt_is_Some_2 l i Hi) as [x E]. rewrite E. f_equal.
  symmetry. by apply nth_lookup_Some.
Qed.

Section View.
Context {PageTable : Type} `{WordMemoryLaws PageTable}.
Variables (current process : PageTable) (owned : Z -> Prop).

Record flat : Prop := {
  flat_range a : owned a -> is_u32 a;
  flat_current a : owned a -> locate current a = locate process a;
  flat_mapped a : owned a -> is_Some (locate process a);
  flat_apart a b : owned a -> owned b -> locate process a = locate process b -> a = b
}.

Definition view (h : Z -> Z) (a : Z) : Z := default 0 (h <$> locate process a).
Definition bytes (h : Z -> Z) (a n : Z) : list Z := view h <$> seqZ a n.
Definition word (h : Z -> Z) (a : Z) : Z := le_value (bytes h a 4).
Definition range (a n : Z) : Prop := forall i, 0 <= i < n -> owned (a + i).

Hypothesis FLAT : flat.

Lemma range_sub a n b m : range a n -> a <= b -> b + m <= a + n -> range b m.
Proof. intros H' ?? i ?. replace (b + i) with (a + (b - a + i)) by lia. apply H'. lia. Qed.

Lemma range_mapped a n : 0 < n -> range a n ->
  mapped (locate process) a n /\ mapped (locate current) a n.
Proof.
  intros Hn Hr.
  pose proof (flat_range FLAT _ (Hr 0 ltac:(lia))). pose proof (flat_range FLAT _ (Hr (n - 1) ltac:(lia))).
  unfold is_u32 in *. unfold mapped.
  repeat split; try lia; intros i Hi; [|rewrite (flat_current FLAT) by auto];
    by apply (flat_mapped FLAT), Hr.
Qed.

Lemma bytes_length h a n : length (bytes h a n) = Z.to_nat n.
Proof. unfold bytes. by rewrite length_fmap, length_seqZ. Qed.

Lemma ReadBlock_view h a n : 0 < n -> range a n -> ReadBlock process h a n = bytes h a n.
Proof. intros. by apply ReadBlock_bytes, range_mapped. Qed.

Lemma ReadBlock_current h a n : 0 < n -> range a n -> ReadBlock current h a n = bytes h a n.
Proof.
  intros Hn Hr. rewrite ReadBlock_bytes by (by apply range_mapped). apply list_fmap_ext.
  intros i b E. apply lookup_seqZ in E as [-> Hi]. unfold view.
  rewrite (flat_current FLAT); [done|]. apply Hr. lia.
Qed.

Lemma Read32_view h a : range a 4 -> Read32 current h a = word h a.
Proof.
  intros Hr. rewrite Read32_block by (by apply range_mapped).
  by rewrite ReadBlock_current by (lia || done).
Qed.

Lemma WriteBlock_view pt h a l b :
  pt = process \/ pt = current -> l <> [] -> range a (Z.of_nat (length l)) -> owned b ->
  view (WriteBlock pt h a l) b =
  if decide (a <= b < a + Z.of_nat (length l)) then nth (Z.to_nat (b - a)) l 0 else view h b.
Proof.
  intros Hpt Hne Hr Hb. destruct (flat_mapped FLAT b Hb) as [p Ep].
  assert (Hlen : 0 < Z.of_nat (length l)) by (destruct l; [done|simpl; lia]).
  assert (Hm : mapped (locate pt) a (Z.of_nat (length l)))
    by (destruct Hpt as [->| ->]; by apply range_mapped).
  assert (Hl : forall a', owned a' -> locate pt a' = locate process a')
    by (intros a' Ha'; destruct Hpt as [->| ->]; [done|by apply (flat_current FLAT)]).
  unfold view. rewrite Ep. cbn. case_decide as Hin.
  - apply (WriteBlock_same _ _ _ _ (Z.to_nat (b - a))); [done| | |].
    + apply nth_lookup_Some'. lia.
    + rewrite Hl by (apply Hr; lia). rewrite <-Ep. f_equal. lia.
    + intros j Ej Hj. rewrite Hl in Ej by (apply Hr; lia). rewrite <-Ep in Ej.
      apply (flat_apart FLAT) in Ej; [lia|apply Hr; lia|done].
  - apply WriteBlock_other; [done|]. intros i Hi E. apply Hin.
    rewrite Hl in E by (apply Hr; lia). rewrite <-Ep in E.
    apply (flat_apart FLAT) in E; [lia|apply Hr; lia|done].
Qed.

Lemma Write32_view h a v b : range a 4 -> owned b ->
  view (Write32 current h a v) b =
  if decide (a <= b < a + 4) then nth (Z.to_nat (b - a)) (le32 v) 0 else view h b.
Proof.
  intros Hr Hb. rewrite Write32_block by (by apply range_mapped).
  by rewrite WriteBlock_view by (auto || done).
Qed.

(** Two memories that agree on a range have the same bytes there. *)
Lemma bytes_agree (h h' : Z -> Z) a n :
  (forall b, a <= b < a + n -> view h' b = view h b) -> bytes h' a n = bytes h a n.
Proof.
  intros E. apply list_fmap_ext. intros i b Eb. apply lookup_seqZ in Eb as [-> Hi]. apply E. lia.
Qed.

Lemma bytes_written (h' : Z -> Z) a l :
  (forall b, a <= b < a + Z.of_nat (length l) -> view h' b = nth (Z.to_nat (b - a)) l 0) ->
  bytes h' a (Z.of_nat (length l)) = l.
Proof.
  intros E. apply list_eq. intros i. unfold bytes. rewrite list_lookup_fmap.
  destruct (decide (i < length l)%nat) as [Hi|Hi].
  - rewrite lookup_seqZ_lt by lia. cbn. rewrite E by lia.
    replace (Z.to_nat _) with i by lia. symmetry. by apply nth_lookup_Some'.
  - rewrite lookup_seqZ_ge by lia. by rewrite lookup_ge_None_2 by lia.
Qed.

(** ** Writes *)

(** [h'] is [h] with the bytes [l] at [a]. *)
Definition wrote (a : Z) (l : list Z) (h h' : Z -> Z) : Prop := forall b, owned b ->
  view h' b = if decide (a <= b < a + Z.of_nat (length l)) then nth (Z.to_nat (b - a)) l 0
              else view h b.

Lemma Write32_wrote h a v : range a 4 -> wrote a (le32 v) h (Write32 current h a v).
Proof. intros Hr b Hb. by apply Write32_view. Qed.

Lemma WriteBlock_wrote h a l : l <> [] -> range a (Z.of_nat (length l)) ->
  wrote a l h (WriteBlock process h a l).
Proof. intros Hn Hr b Hb. apply WriteBlock_view; auto. Qed.

Lemma wrote_same a l h h' : wrote a l h h' -> range a (Z.of_nat (length l)) ->
  bytes h' a (Z.of_nat (length l)) = l.
Proof.
  intros W Hr. apply bytes_written. intros b Hb. rewrite W.
  - by rewrite decide_True by lia.
  - replace b with (a + (b - a)) by lia. apply Hr. lia.
Qed.

Lemma wrote_other a l h h' b n : wrote a l h h' -> range b n ->
  b + n <= a \/ a + Z.of_nat (length l) <= b -> bytes h' b n = bytes h b n.
Proof.
  intros W Hr D. apply bytes_agree. intros c Hc. rewrite W.
  - by rewrite decide_False by lia.
  - replace c with (b + (c - b)) by lia. apply Hr. lia.
Qed.

Lemma wrote_word_same a v h h' : wrote a (le32 v) h h' -> range a 4 -> is_u32 v -> word h' a = v.
Proof.
  intros W Hr Hv. pose proof (wrote_same a (le32 v) h h' W Hr) as E.
  change (Z.of_nat (length (le32 v))) with 4 in E. unfold word. rewrite E. by apply le_value_le32.
Qed.

Lemma wrote_word_other a l h h' b : wrote a l h h' -> range b 4 ->
  b + 4 <= a \/ a + Z.of_nat (length l) <= b -> word h' b = word h b.
Proof. intros W Hr D. unfold word. by rewrite (wrote_other a l h h' b 4). Qed.

(** ** Header fields *)

(** The header of a module is in memory of its own. *)
Definition header (cro : Z) : Prop := range cro CRO_HEADER_SIZE.

Definition field (h : Z -> Z) (cro : Z) (f : HeaderField) : Z := word h (Field cro f).

Lemma Field_at cro f : header cro -> 0 <= f < 46 -> Field cro f = cro + 128 + 4 * f.
Proof.
  intros Hh Hf. unfold Field, CRO_HASH_SIZE.
  pose proof (flat_range FLAT _ (Hh (128 + f * 4) ltac:(unfold CRO_HEADER_SIZE; lia))) as Hr.
  pose proof (flat_range FLAT _ (Hh 0 ltac:(unfold CRO_HEADER_SIZE; lia))).
  unfold is_u32 in *. rewrite u32_small; unfold is_u32; lia.
Qed.

Lemma Field_range cro f : header cro -> 0 <= f < 46 -> range (Field cro f) 4.
Proof.
  intros Hh Hf. rewrite Field_at by done. apply (range_sub cro CRO_HEADER_SIZE); [done|lia|].
  unfold CRO_HEADER_SIZE. lia.
Qed.

Lemma GetField_run cro f s : header cro -> 0 <= f < 46 ->
  GetField current cro f s = Done s (field (host s) cro f).
Proof. intros Hh Hf. unfold GetField, read. by rewrite Read32_view by (by apply Field_range). Qed.

Lemma SetField_run cro f v s :
  SetField current cro f v s = Done (mkLinker (Write32 current (host s) (Field cro f) v) (invalidated s)) tt.
Proof. done. Qed.

Lemma SetField_wrote cro f v h : header cro -> 0 <= f < 46 ->
  wrote (Field cro f) (le32 v) h (Write32 current h (Field cro f) v).
Proof. intros. by apply Write32_wrote, Field_range. Qed.

(** Modules do not overlap, as far as their headers. *)
Definition apart (a b : Z) : Prop := a + CRO_HEADER_SIZE <= b \/ b + CRO_HEADER_SIZE <= a.

Lemma field_wrote cro f v h h' cro' f' :
  wrote (Field cro f) (le32 v) h h' -> header cro -> header cro' -> 0 <= f < 46 -> 0 <= f' < 46 ->
  is_u32 v -> cro = cro' \/ apart cro cro' ->
  field h' cro' f' = if decide (cro' = cro /\ f' = f) then v else field h cro' f'.
Proof.
  intros W Hh Hh' Hf Hf' Hv Ha. unfold field. case_decide as E.
  - destruct E as [-> ->]. by apply (wrote_word_same (Field cro f) v h); [|apply Field_range|].
  - apply (wrote_word_other (Field cro f) (le32 v) h h'); [done|by apply Field_range|].
    rewrite !Field_at by done. unfold apart, CRO_HEADER_SIZE in Ha. simpl. lia.
Qed.

(** Outside of what was written nothing changes. *)
Definition same_outside (R : Z -> Prop) (h h' : Z -> Z) : Prop :=
  forall b, owned b -> ~ R b -> view h' b = view h b.

Lemma same_outside_refl R h : same_outside R h h.
Proof. done. Qed.

Lemma same_outside_trans R h1 h2 h3 :
  same_outside R h1 h2 -> same_outside R h2 h3 -> same_outside R h1 h3.
Proof. intros A B b Hb Hn. by rewrite B, A. Qed.

Lemma wrote_outside (R : Z -> Prop) a l h h' :
  wrote a l h h' -> (forall b, a <= b < a + Z.of_nat (length l) -> R b) -> same_outside R h h'.
Proof. intros W HR b Hb Hn. rewrite W by done. rewrite decide_False; [done|]. auto. Qed.
End View.
