(* ===== verification/CroLists.v ===== *)
(** * CroLists: the lists of registered modules

    The static module heads two lists that run through the headers of the modules: the
    modules that are linked automatically (its [NextCRO]) and the others (its
    [PreviousCRO]).  The [PreviousCRO] of the head of a list is its tail.  Registering and
    unregistering refine adding at the end and removing, for any history of requests. *)
From stdpp Require Import functions.
From S2P Require Import Prelude Result Ipc Cro CroMemory.

Local Open Scope Z_scope.

(** ** Doubly linked lists *)

Fixpoint last_or (p : Z) (l : list Z) : Z :=
  match l with [] => p | m :: l => last_or m l end.
Definition hd_or (e : Z) (l : list Z) : Z := match l with [] => e | m :: _ => m end.

(** The elements [l] in a row: [p] is before the first, [e] after the last. *)
Fixpoint dls (nx pv : Z -> Z) (p : Z) (l : list Z) (e : Z) : Prop :=
  match l with
  | [] => True
  | m :: l => pv m = p /\ nx m = hd_or e l /\ dls nx pv m l e
  end.

(** The list of the code: the tail is before the head, nothing after the tail. *)
Definition ring (nx pv : Z -> Z) (l : list Z) : Prop := dls nx pv (last_or 0 l) l 0.

Lemma last_or_app p l1 l2 : last_or p (l1 ++ l2) = last_or (last_or p l1) l2.
Proof. revert p. by induction l1; simpl. Qed.

Lemma hd_or_app e l1 l2 : hd_or e (l1 ++ l2) = hd_or (hd_or e l2) l1.
Proof. by destruct l1. Qed.

Lemma last_or_any p q l : l <> [] -> last_or p l = last_or q l.
Proof. by destruct l. Qed.

Lemma last_or_in p l : l <> [] -> last_or p l ∈ l.
Proof.
  revert p. induction l as [|m l IH]; intros p H; [done|]. simpl.
  destruct l as [|m' l]; [left|]. right. by apply IH.
Qed.

Lemma hd_or_in e l : l <> [] -> hd_or e l ∈ l.
Proof. destruct l; [done|left]. Qed.

Lemma dls_app nx pv p l1 l2 e :
  dls nx pv p (l1 ++ l2) e <-> dls nx pv p l1 (hd_or e l2) /\ dls nx pv (last_or p l1) l2 e.
Proof.
  revert p. induction l1 as [|m l1 IH]; intros p; simpl; [tauto|].
  rewrite IH, hd_or_app. tauto.
Qed.

Lemma dls_ext nx pv nx' pv' p l e :
  (forall m, m ∈ l -> nx' m = nx m /\ pv' m = pv m) -> dls nx pv p l e -> dls nx' pv' p l e.
Proof.
  revert p. induction l as [|m l IH]; intros p E; simpl; [done|].
  destruct (E m) as [-> ->]; [left|]. intros (-> & -> & H). repeat split.
  apply IH; [|done]. intros m' Hm'. apply E. by right.
Qed.

Lemma dls_ext_insert nx pv p l e t v :
  t ∉ l -> dls nx pv p l e -> dls (<[t := v]> nx) pv p l e.
Proof.
  intros Ht. apply dls_ext. intros m Hm. rewrite fn_lookup_insert_ne; [done|]. by intros ->.
Qed.

Lemma dls_ext_insert_prev nx pv p l e t v :
  t ∉ l -> dls nx pv p l e -> dls nx (<[t := v]> pv) p l e.
Proof.
  intros Ht. apply dls_ext. intros m Hm. rewrite fn_lookup_insert_ne; [done|]. by intros ->.
Qed.

(** Another end, and another beginning. *)
Lemma dls_end nx pv p l e e' :
  NoDup l -> dls nx pv p l e -> dls (<[last_or 0 l := e']> nx) pv p l e'.
Proof.
  destruct l as [|t l _] using rev_ind; [done|].
  rewrite last_or_app. simpl. intros [_ [Hn _]]%NoDup_app [H1 [H2 _]]%dls_app.
  apply dls_app. split.
  - apply dls_ext_insert; [|done]. intros Ht. apply (Hn t Ht). left.
  - split; [done|]. by rewrite fn_lookup_insert.
Qed.

Lemma dls_begin nx pv p p' l e :
  NoDup l -> dls nx pv p l e -> dls nx (<[hd_or 0 l := p']> pv) p' l e.
Proof.
  destruct l as [|t l]; [done|]. intros [Ht _]%NoDup_cons (_ & H2 & H3). simpl.
  rewrite fn_lookup_insert. repeat split; [done|]. by apply dls_ext_insert_prev.
Qed.

(** A new element at the end. *)
Lemma ring_append nx pv l m :
  l <> [] -> NoDup l -> m ∉ l -> ring nx pv l ->
  ring (<[m := 0]> (<[last_or 0 l := m]> nx)) (<[hd_or 0 l := m]> (<[m := last_or 0 l]> pv)) (l ++ [m]).
Proof.
  intros Hl Hnd Hm H. unfold ring. rewrite last_or_app. simpl. apply dls_app. split.
  - apply dls_begin with (p := last_or 0 l); [done|]. apply dls_ext_insert; [done|].
    apply dls_ext_insert_prev; [done|]. by apply (dls_end nx pv _ l 0).
  - simpl. rewrite fn_lookup_insert. repeat split.
    rewrite fn_lookup_insert_ne by (intros <-; by apply Hm, hd_or_in).
    rewrite fn_lookup_insert. by apply last_or_any.
Qed.

Lemma ring_single nx pv m : ring (<[m := 0]> nx) (<[m := m]> pv) [m].
Proof. unfold ring. simpl. by rewrite !fn_lookup_insert. Qed.

(** What surrounds an element, and what is left without it. *)
Lemma ring_split nx pv l1 m l2 : ring nx pv (l1 ++ m :: l2) ->
  dls nx pv (last_or m l2) l1 m /\ pv m = last_or (last_or m l2) l1 /\ nx m = hd_or 0 l2
  /\ dls nx pv m l2 0.
Proof.
  unfold ring. rewrite last_or_app. simpl. intros [H1 (H2 & H3 & H4)]%dls_app. done.
Qed.

Lemma ring_without_head nx pv m l2 : l2 <> [] -> NoDup l2 -> ring nx pv (m :: l2) ->
  ring nx (<[hd_or 0 l2 := pv m]> pv) l2.
Proof.
  intros Hl Hnd H. apply (ring_split _ _ [] m l2) in H as (_ & Hp & _ & H4). simpl in Hp.
  unfold ring. rewrite Hp, (last_or_any m 0) by done. by apply dls_begin with (p := m).
Qed.

Lemma ring_without_middle nx pv l1 m l2 : l1 <> [] -> l2 <> [] -> NoDup (l1 ++ l2) ->
  ring nx pv (l1 ++ m :: l2) ->
  ring (<[pv m := nx m]> nx) (<[nx m := pv m]> pv) (l1 ++ l2).
Proof.
  intros Hl1 Hl2 Hnd H. apply ring_split in H as (H1 & -> & -> & H4).
  apply NoDup_app in Hnd as (Hnd1 & Hx & Hnd2). rewrite (last_or_any (last_or m l2) 0 l1) by done.
  assert (hd_or 0 l2 ∉ l1) by (intros Hin; by apply (Hx _ Hin), hd_or_in).
  assert (last_or 0 l1 ∉ l2) by (intros Hin; by eapply Hx; [apply last_or_in|]).
  unfold ring. apply dls_app. rewrite last_or_app, (last_or_any (last_or 0 l1) m l2) by done.
  rewrite (last_or_any (last_or m l2) 0 l1) by done. split.
  - apply dls_ext_insert_prev; [done|]. by apply dls_end with (e := m).
  - apply dls_ext_insert; [done|]. by apply dls_begin with (p := m).
Qed.

Lemma ring_without_tail nx pv l1 m : l1 <> [] -> NoDup l1 -> ring nx pv (l1 ++ [m]) ->
  ring (<[pv m := 0]> nx) (<[hd_or 0 l1 := pv m]> pv) l1.
Proof.
  intros Hl1 Hnd H. apply ring_split in H as (H1 & -> & _ & _). simpl in *.
  rewrite (last_or_any m 0 l1) by done. unfold ring.
  apply dls_begin with (p := m); [done|]. by apply dls_end with (e := m).
Qed.

Lemma ring_insert nx pv t u v w l : t ∉ l -> u ∉ l -> ring nx pv l ->
  ring (<[t := v]> nx) (<[u := w]> pv) l.
Proof. intros Ht Hu H. by apply dls_ext_insert, dls_ext_insert_prev. Qed.

Lemma ring_insert_next nx pv t v l : t ∉ l -> ring nx pv l -> ring (<[t := v]> nx) pv l.
Proof. intros. by apply dls_ext_insert. Qed.

Lemma ring_insert_prev nx pv u w l : u ∉ l -> ring nx pv l -> ring nx (<[u := w]> pv) l.
Proof. intros. by apply dls_ext_insert_prev. Qed.

(** ** The modules in memory *)

(** The modules that are registered with a static module. *)
Record Modules := mkModules { autos : list Z; manuals : list Z }.

Section Memory.
Context {PageTable : Type} `{WordMemoryLaws PageTable}.
Variables (current process : PageTable) (owned : Z -> Prop).
Hypothesis FLAT : flat current process owned.

(** Every module that takes part, the static one among them. *)
Variables (modules : list Z) (crs : Z).
Record module_space : Prop := {
  space_header m : m ∈ modules -> header owned m;
  space_apart m m' : m ∈ modules -> m' ∈ modules -> m = m' \/ apart m m';
  space_null : 0 ∉ modules;
  space_crs : crs ∈ modules
}.
Hypothesis SPACE : module_space.

(** The bytes of the two link fields. *)
Definition link_byte (b : Z) : Prop := exists m, m ∈ modules /\ m + 136 <= b < m + 144.

Definition links (h : Z -> Z) (nx pv : Z -> Z) : Prop := forall m, m ∈ modules ->
  field (process) h m NextCRO = nx m /\ field process h m PreviousCRO = pv m.

(** From links [nx], [pv] the computation returns [a] and leaves [nx'], [pv'];
    nothing else changes. *)
Definition runs {A} (m : op Linker A) (nx pv : Z -> Z) (a : A) (nx' pv' : Z -> Z) : Prop :=
  forall s, links (host s) nx pv ->
  exists s', m s = Done s' a /\ links (host s') nx' pv' /\ invalidated s' = invalidated s /\
    same_outside process owned link_byte (host s) (host s').

Lemma runs_pure {A} (a : A) nx pv : runs (ret a) nx pv a nx pv.
Proof. intros s L. by exists s. Qed.

Lemma runs_seq {A B} (m : op Linker A) (k : A -> op Linker B) nx pv a nx1 pv1 b nx2 pv2 :
  runs m nx pv a nx1 pv1 -> runs (k a) nx1 pv1 b nx2 pv2 -> runs (bind m k) nx pv b nx2 pv2.
Proof.
  intros Hm Hk s L. destruct (Hm s L) as (s1 & E1 & L1 & I1 & O1).
  destruct (Hk s1 L1) as (s2 & E2 & L2 & I2 & O2). exists s2.
  split; [by erewrite bind_Done|]. split; [done|]. split; [congruence|].
  by apply (same_outside_trans _ _ _ _ (host s1)).
Qed.

Lemma runs_assert nx pv : runs (assert_ true) nx pv tt nx pv.
Proof. intros s L. by exists s. Qed.

Lemma runs_next m nx pv : m ∈ modules -> runs (NextModule current m) nx pv (nx m) nx pv.
Proof.
  intros Hm s L. exists s. unfold NextModule.
  rewrite (GetField_run current process owned FLAT) by (by apply SPACE || by unfold NextCRO).
  by destruct (L m Hm) as [-> _].
Qed.

Lemma runs_prev m nx pv : m ∈ modules -> runs (PreviousModule current m) nx pv (pv m) nx pv.
Proof.
  intros Hm s L. exists s. unfold PreviousModule.
  rewrite (GetField_run current process owned FLAT) by (by apply SPACE || by unfold PreviousCRO).
  by destruct (L m Hm) as [_ ->].
Qed.

(** Writing one of the two fields. *)
Lemma link_field m f v h : m ∈ modules -> f = NextCRO \/ f = PreviousCRO -> is_u32 v ->
  let h' := Write32 current h (Field m f) v in
  same_outside process owned link_byte h h' /\
  forall m' f', m' ∈ modules -> f' = NextCRO \/ f' = PreviousCRO ->
    field process h' m' f' = if decide (m' = m /\ f' = f) then v else field process h m' f'.
Proof.
  intros Hm Hf Hv h'.
  assert (Hf0 : 0 <= f < 46) by (unfold NextCRO, PreviousCRO in *; lia).
  assert (W : wrote process owned (Field m f) (le32 v) h h')
    by (by apply SetField_wrote; [|apply SPACE|]).
  split.
  - eapply wrote_outside; [done|]. intros b Hb. exists m. split; [done|].
    rewrite (Field_at current process owned) in Hb by (by apply SPACE || done).
    simpl in Hb. unfold NextCRO, PreviousCRO in *. lia.
  - intros m' f' Hm' Hf'. apply (field_wrote current process owned); try done; [by apply SPACE|by apply SPACE| |by apply SPACE].
    unfold NextCRO, PreviousCRO in *. lia.
Qed.

Lemma runs_set_next m v nx pv : m ∈ modules -> is_u32 v ->
  runs (SetNextModule current m v) nx pv tt (<[m := v]> nx) pv.
Proof.
  intros Hm Hv s L. eexists. split; [apply SetField_run|]. cbn [host invalidated].
  destruct (link_field m NextCRO v (host s) Hm) as [O F]; [by left|done|].
  split; [|done]. intros m' Hm'. rewrite !F by auto. destruct (decide (m' = m /\ PreviousCRO = NextCRO)) as [[_ Hx]|_]; [discriminate Hx|].
  destruct (L m' Hm') as [-> ->]. split; [|done]. unfold insert, fn_insert.
  destruct (decide (m = m')) as [->|Hn]; [by rewrite decide_True|]. rewrite decide_False; [done|]. by intros [-> _].
Qed.

Lemma runs_set_prev m v nx pv : m ∈ modules -> is_u32 v ->
  runs (SetPreviousModule current m v) nx pv tt nx (<[m := v]> pv).
Proof.
  intros Hm Hv s L. eexists. split; [apply SetField_run|]. cbn [host invalidated].
  destruct (link_field m PreviousCRO v (host s) Hm) as [O F]; [by right|done|].
  split; [|done]. intros m' Hm'. rewrite !F by auto. destruct (decide (m' = m /\ NextCRO = PreviousCRO)) as [[_ Hx]|_]; [discriminate Hx|].
  destruct (L m' Hm') as [-> ->]. split; [done|]. unfold insert, fn_insert.
  destruct (decide (m = m')) as [->|Hn]; [by rewrite decide_True|]. rewrite decide_False; [done|]. by intros [-> _].
Qed.

Lemma module_u32 m : m ∈ modules -> is_u32 m.
Proof.
  intros Hm. apply (flat_range _ _ _ FLAT). rewrite <-(Z.add_0_r m).
  apply (space_header SPACE m Hm). unfold CRO_HEADER_SIZE. lia.
Qed.

(** ** Registering *)

Definition registered (r : Modules) : list Z := autos r ++ manuals r.
Definition the_list (auto : bool) (r : Modules) : list Z := if auto then autos r else manuals r.
Definition add (auto : bool) (m : Z) (r : Modules) : Modules :=
  if auto then mkModules (autos r ++ [m]) (manuals r) else mkModules (autos r) (manuals r ++ [m]).
Definition remove (m : Z) (r : Modules) : Modules :=
  mkModules (filter (.≠ m) (autos r)) (filter (.≠ m) (manuals r)).

Definition valid (r : Modules) : Prop :=
  NoDup (crs :: registered r) /\ forall m, m ∈ registered r -> m ∈ modules.

Definition rep (nx pv : Z -> Z) (r : Modules) : Prop :=
  valid r /\ nx crs = hd_or 0 (autos r) /\ pv crs = hd_or 0 (manuals r) /\
  ring nx pv (autos r) /\ ring nx pv (manuals r).

Lemma valid_split r : valid r ->
  crs ∉ autos r /\ crs ∉ manuals r /\ NoDup (autos r) /\ NoDup (manuals r) /\
  forall m, m ∈ autos r -> m ∈ manuals r -> False.
Proof.
  unfold valid, registered.
  intros [[Hc (H1 & H2 & H3)%NoDup_app]%NoDup_cons _].
  rewrite elem_of_app in Hc. repeat split; first [tauto|exact H2].
Qed.

Lemma the_list_valid auto r : valid r ->
  crs ∉ the_list auto r /\ NoDup (the_list auto r) /\
  (forall m, m ∈ the_list auto r -> m ∉ the_list (negb auto) r) /\
  (forall m, m ∈ the_list auto r -> m ∈ modules).
Proof.
  intros V. destruct (valid_split r V) as (C1 & C2 & N1 & N2 & D). destruct V as [_ V].
  unfold registered in V. set_unfold. destruct auto; simpl; repeat split; eauto.
Qed.

Lemma add_valid auto m r : valid r -> m ∈ modules -> m ∉ crs :: registered r -> valid (add auto m r).
Proof.
  intros [Hnd V] Hm Hn.
  assert (P : registered (add auto m r) ≡ₚ m :: registered r).
  { unfold registered, add. destruct auto; simpl.
    - rewrite <-app_assoc. symmetry. apply Permutation_middle.
    - rewrite app_assoc. symmetry. apply Permutation_cons_append. }
  split.
  - rewrite P. apply NoDup_cons. apply NoDup_cons in Hnd as [Hc Hnd]. rewrite not_elem_of_cons in Hn.
    destruct Hn as [Hn1 Hn2]. rewrite elem_of_cons. split; [naive_solver|]. by apply NoDup_cons.
  - intros m'. rewrite P. rewrite elem_of_cons. intros [->|]; auto.
Qed.

(** Behind the tail of a list that has modules. *)
Lemma rep_append auto m nx pv r :
  rep nx pv r -> m ∈ modules -> m ∉ crs :: registered r -> the_list auto r <> [] ->
  let l := the_list auto r in
  rep (<[m := 0]> (<[last_or 0 l := m]> nx)) (<[hd_or 0 l := m]> (<[m := last_or 0 l]> pv)) (add auto m r).
Proof.
  intros (V & Hn & Hp & R1 & R2) Hm Hnew Hl l.
  destruct (the_list_valid auto r V) as (Hc & Hnd & Hother & Hmod).
  change (the_list auto r) with l in Hc, Hnd, Hother, Hmod, Hl.
  assert (Hml : m ∉ l /\ m ∉ the_list (negb auto) r /\ m <> crs).
  { unfold l, registered in *. set_unfold. destruct auto; simpl; naive_solver. }
  destruct Hml as (Hm1 & Hm2 & Hm3).
  assert (Hlast : last_or 0 l ∈ l) by (by apply last_or_in).
  assert (Hhead : hd_or 0 l ∈ l) by (by apply hd_or_in).
  assert (Hr : ring nx pv l) by (unfold l; by destruct auto).
  assert (Hr' : ring nx pv (the_list (negb auto) r)) by (by destruct auto).
  assert (last_or 0 l <> crs) by (by intros E; rewrite E in Hlast).
  assert (hd_or 0 l <> crs) by (by intros E; rewrite E in Hhead).
  pose proof (ring_append nx pv l m Hl Hnd Hm1 Hr) as Happ.
  assert (Hkeep : ring (<[m := 0]> (<[last_or 0 l := m]> nx)) (<[hd_or 0 l := m]> (<[m := last_or 0 l]> pv))
                    (the_list (negb auto) r)).
  { apply ring_insert; [done| |apply ring_insert; [|done|done]]; auto. }
  split; [by apply add_valid|].
  rewrite !fn_lookup_insert_ne, Hn, Hp by done.
  unfold add, l in *. destruct auto; simpl in *; (split; [|split; [|done]]); try done;
    rewrite hd_or_app; by destruct (autos r), (manuals r).
Qed.

(** The first module of a list. *)
Lemma rep_first auto m nx pv r :
  rep nx pv r -> m ∈ modules -> m ∉ crs :: registered r -> the_list auto r = [] ->
  rep (<[m := 0]> (if auto then <[crs := m]> nx else nx))
      (if auto then <[m := m]> pv else <[crs := m]> (<[m := m]> pv)) (add auto m r).
Proof.
  intros (V & Hn & Hp & R1 & R2) Hm Hnew Hl.
  destruct (valid_split r V) as (C1 & C2 & _).
  assert (Hml : m ∉ autos r /\ m ∉ manuals r /\ m <> crs)
    by (unfold registered in *; set_unfold; naive_solver).
  destruct Hml as (Hm1 & Hm2 & Hm3).
  split; [by apply add_valid|]. unfold add. destruct auto; simpl in Hl |- *; rewrite Hl in *; simpl.
  - rewrite fn_lookup_insert_ne, fn_lookup_insert, fn_lookup_insert_ne, Hp by done.
    do 2 (split; [done|]). split; [|by apply ring_insert, ring_insert_next].
    apply (dls_ext (<[m := 0]> nx) (<[m := m]> pv)); [|by apply ring_single].
    intros m' ->%list_elem_of_singleton. by rewrite !fn_lookup_insert.
  - rewrite fn_lookup_insert, fn_lookup_insert_ne, Hn by done.
    do 2 (split; [done|]). split; 
      [by apply (ring_insert_prev (<[m := 0]> nx)), (ring_insert nx pv)|].
    apply (dls_ext (<[m := 0]> nx) (<[m := m]> pv)); [|by apply ring_single].
    intros m' ->%list_elem_of_singleton. split; [done|]. by rewrite fn_lookup_insert_ne by done.
Qed.

Lemma hd_or_null l : l <> [] -> (forall m, m ∈ l -> m ∈ modules) -> hd_or 0 l <> 0.
Proof. intros Hl Hm E. apply (space_null SPACE). rewrite <-E. by apply Hm, hd_or_in. Qed.

Lemma ring_head_prev nx pv l : l <> [] -> ring nx pv l -> pv (hd_or 0 l) = last_or 0 l.
Proof. destruct l; [done|]. by intros _ [? _]. Qed.

Lemma ring_tail_next nx pv l : l <> [] -> ring nx pv l -> nx (last_or 0 l) = 0.
Proof.
  destruct l as [|t l _] using rev_ind; [done|]. intros _. unfold ring. rewrite !last_or_app. simpl.
  by intros [_ (_ & ? & _)]%dls_app.
Qed.

Lemma Register_refines auto m nx pv r :
  rep nx pv r -> m ∈ modules -> m ∉ crs :: registered r ->
  exists nx' pv', runs (Register current m crs auto) nx pv tt nx' pv' /\ rep nx' pv' (add auto m r).
Proof.
  intros R Hm Hnew. pose proof R as (V & Hn & Hp & R1 & R2).
  destruct (the_list_valid auto r V) as (_ & _ & _ & Hmod).
  assert (Hhead : runs (if auto then NextModule current crs else PreviousModule current crs)
                    nx pv (hd_or 0 (the_list auto r)) nx pv).
  { destruct auto; simpl; rewrite <-?Hn, <-?Hp; [apply runs_next|apply runs_prev]; apply SPACE. }
  assert (Hu : is_u32 m) by (by apply module_u32).
  destruct (decide (the_list auto r = [])) as [Hl|Hl].
  - eexists _, _. split; [|by apply rep_first]. unfold Register.
    eapply runs_seq; [exact Hhead|]. rewrite Hl. simpl.
    eapply runs_seq; [|by apply runs_set_next].
    eapply runs_seq; [by apply runs_set_prev|].
    destruct auto; [apply runs_set_next|apply runs_set_prev]; by try apply SPACE.
  - set (l := the_list auto r) in *.
    assert (Hr : ring nx pv l) by (unfold l; by destruct auto).
    assert (Ht : last_or 0 l ∈ modules) by (by apply Hmod, last_or_in).
    assert (Hh : hd_or 0 l ∈ modules) by (by apply Hmod, hd_or_in).
    eexists _, _. split; [|by apply rep_append]. unfold Register.
    eapply runs_seq; [exact Hhead|].
    rewrite (proj2 (Z.eqb_neq (hd_or 0 l) 0)) by (by apply hd_or_null). cbn [negb].
    eapply runs_seq; [|by apply runs_set_next].
    eapply runs_seq; [by apply runs_prev|]. rewrite (ring_head_prev nx pv l) by done.
    eapply runs_seq; [by apply runs_next|]. rewrite (ring_tail_next nx pv l) by done.
    eapply runs_seq; [apply runs_assert|].
    eapply runs_seq; [by apply runs_set_prev, module_u32|].
    eapply runs_seq; [by apply runs_set_next|]. by apply runs_set_prev.
Qed.

(** ** Unregistering *)

Lemma filter_ne (m : Z) (l : list Z) : m ∉ l -> filter (.≠ m) l = l.
Proof.
  induction l as [|x l IH]; intros Hm; [done|]. apply not_elem_of_cons in Hm as [Hx Hm].
  by rewrite filter_cons_True, IH.
Qed.

Lemma remove_lists auto m r l1 l2 : valid r -> the_list auto r = l1 ++ m :: l2 ->
  the_list auto (remove m r) = l1 ++ l2 /\
  the_list (negb auto) (remove m r) = the_list (negb auto) r /\ valid (remove m r).
Proof.
  intros V El. destruct (the_list_valid auto r V) as (_ & Hnd & Hother & _).
  rewrite El in Hnd, Hother. apply NoDup_app in Hnd as (_ & Hx & [Hm2 _]%NoDup_cons).
  assert (Hm1 : m ∉ l1) by (intros Hin; apply (Hx m Hin); left).
  assert (E1 : filter (.≠ m) (the_list auto r) = l1 ++ l2).
  { rewrite El, filter_app, filter_cons_False by auto. by rewrite !filter_ne. }
  assert (E2 : filter (.≠ m) (the_list (negb auto) r) = the_list (negb auto) r).
  { apply filter_ne, Hother. apply elem_of_app. right. left. }
  split; [by destruct auto|]. split; [by destruct auto|].
  destruct V as [Hnd V]. unfold valid, registered, remove in *. simpl. rewrite <-filter_app. split.
  - apply NoDup_cons in Hnd as [Hc Hnd]. apply NoDup_cons. split.
    + by intros [_ ?]%list_elem_of_filter.
    + by apply NoDup_filter.
  - intros m' [_ ?]%list_elem_of_filter. auto.
Qed.

(** The slot of the static module for a list, and the one for the other. *)
Lemma rep_lists (auto : bool) nx pv r : valid r ->
  (if auto then nx else pv) crs = hd_or 0 (the_list auto r) ->
  (if auto then pv else nx) crs = hd_or 0 (the_list (negb auto) r) ->
  ring nx pv (the_list auto r) -> ring nx pv (the_list (negb auto) r) -> rep nx pv r.
Proof. intros V H1 H2 H3 H4. destruct auto; split; auto. Qed.

(** The slot of a list in the static module set to [v]. *)
Definition slot_next (auto : bool) (v : Z) (nx : Z -> Z) : Z -> Z := if auto then <[crs := v]> nx else nx.
Definition slot_prev (auto : bool) (v : Z) (pv : Z -> Z) : Z -> Z := if auto then pv else <[crs := v]> pv.

Lemma runs_set_slot (auto : bool) v nx pv : is_u32 v ->
  runs (if negb auto then SetPreviousModule current crs v else SetNextModule current crs v) nx pv tt
    (slot_next auto v nx) (slot_prev auto v pv).
Proof. destruct auto; [apply runs_set_next|apply runs_set_prev]; apply SPACE. Qed.

Lemma ring_slot (auto : bool) v nx pv l : crs ∉ l -> ring nx pv l -> ring (slot_next auto v nx) (slot_prev auto v pv) l.
Proof. destruct auto; [apply ring_insert_next|apply ring_insert_prev]. Qed.

(** What a removal has to establish, the links of [m] reset. *)
Lemma rep_removed (auto : bool) m nx pv r l1 l2 : rep nx pv r -> the_list auto r = l1 ++ m :: l2 ->
  forall nx1 pv1, ring nx1 pv1 (l1 ++ l2) -> ring nx1 pv1 (the_list (negb auto) r) ->
  (if auto then nx1 else pv1) crs = hd_or 0 (l1 ++ l2) ->
  (if auto then pv1 else nx1) crs = (if auto then pv else nx) crs ->
  rep (<[m := 0]> nx1) (<[m := 0]> pv1) (remove m r).
Proof.
  intros (V & Hn & Hp & _) El nx1 pv1 Hr Hr' Hslot Hother'.
  destruct (remove_lists auto m r l1 l2 V El) as (E1 & E2 & V').
  assert (Hm : m ∈ the_list auto r) by (rewrite El; apply elem_of_app; right; left).
  destruct (the_list_valid auto r V) as (Hc & Hnd & Hother & _).
  assert (Hcm : m <> crs) by (by intros ->).
  rewrite El in Hnd. apply NoDup_app in Hnd as (_ & Hx & [Hm2 _]%NoDup_cons).
  assert (Hm1 : m ∉ l1 ++ l2).
  { rewrite elem_of_app. intros [Hin|]; [|done]. apply (Hx m Hin). left. }
  apply (rep_lists auto); rewrite ?E1, ?E2; [done| | | |].
  - by destruct auto; rewrite fn_lookup_insert_ne.
  - destruct auto; rewrite fn_lookup_insert_ne by done; by rewrite Hother', ?Hn, ?Hp.
  - by apply ring_insert.
  - apply ring_insert; [by apply Hother|by apply Hother|done].
Qed.

(** The values that [Unregister] reads first, and the reset at its end. *)
Lemma runs_Unregister m nx pv nx1 pv1 : m ∈ modules ->
  runs (if (m =? nx crs) || (m =? pv crs) then
          (if negb (nx m =? 0) then SetPreviousModule current (nx m) (pv m) else ret tt) ;;
          (if m =? pv crs then SetPreviousModule current crs (nx m)
           else SetNextModule current crs (nx m))
        else if negb (nx m =? 0) then
          SetNextModule current (pv m) (nx m) ;;
          SetPreviousModule current (nx m) (pv m)
        else
          SetNextModule current (pv m) 0 ;;
          in_next <- (if nx crs =? 0 then ret false
                      else p <- PreviousModule current (nx crs) ;; ret (p =? m)) ;;
          if (in_next : bool) then SetPreviousModule current (nx crs) (pv m)
          else
            in_previous <- (if pv crs =? 0 then ret false
                            else p <- PreviousModule current (pv crs) ;; ret (p =? m)) ;;
            if (in_previous : bool) then SetPreviousModule current (pv crs) (pv m)
            else assert_ false)%hle nx pv tt nx1 pv1 ->
  runs (Unregister current m crs) nx pv tt (<[m := 0]> nx1) (<[m := 0]> pv1).
Proof.
  intros Hm Hb. unfold Unregister.
  eapply runs_seq; [apply runs_next, SPACE|]. eapply runs_seq; [apply runs_prev, SPACE|].
  eapply runs_seq; [by apply runs_next|]. eapply runs_seq; [by apply runs_prev|].
  eapply runs_seq; [exact Hb|]. eapply runs_seq; [by apply runs_set_next|by apply runs_set_prev].
Qed.

(** Elements of a list, their neighbours and the slots. *)
Lemma member_facts (auto : bool) nx pv r l1 m l2 : rep nx pv r -> the_list auto r = l1 ++ m :: l2 ->
  ring nx pv (l1 ++ m :: l2) /\ ring nx pv (the_list (negb auto) r) /\ NoDup (l1 ++ l2) /\
  m ∈ modules /\ is_u32 (pv m) /\ is_u32 (nx m) /\ m ∉ the_list (negb auto) r /\
  (forall x, x ∈ l1 ++ l2 -> x ∈ modules /\ x <> crs /\ x <> m /\ x ∉ the_list (negb auto) r) /\
  nx crs = hd_or 0 (the_list true r) /\ pv crs = hd_or 0 (the_list false r).
Proof.
  intros (V & Hn & Hp & R1 & R2) El.
  destruct (the_list_valid auto r V) as (Hc & Hnd & Hother & Hmod).
  assert (Hr : ring nx pv (l1 ++ m :: l2)) by (rewrite <-El; by destruct auto).
  rewrite El in *. pose proof (ring_split _ _ _ _ _ Hr) as (_ & Hpm & Hnm & _).
  assert (Hin : forall x, x ∈ l1 ++ l2 -> x ∈ l1 ++ m :: l2) by set_solver.
  assert (P : l1 ++ m :: l2 ≡ₚ m :: l1 ++ l2) by (symmetry; apply Permutation_middle).
  rewrite P in Hnd. apply NoDup_cons in Hnd as [Hm Hnd].
  assert (Hmm : m ∈ l1 ++ m :: l2) by set_solver.
  assert (U0 : is_u32 0) by done.
  split; [done|]. split; [by destruct auto|]. split; [done|]. split; [by apply Hmod|].
  split; [|split].
  - rewrite Hpm. destruct l1 as [|x l1]; simpl.
    + destruct l2 as [|y l2]; simpl; [by apply module_u32, Hmod|]. apply module_u32, Hmod.
      apply elem_of_app. right. right. by apply (last_or_in m (y :: l2)).
    + apply module_u32, Hmod. apply elem_of_app. left. by apply (last_or_in 0 (x :: l1)).
  - rewrite Hnm. destruct l2; [done|]. apply module_u32, Hmod. set_solver.
  - split; [by apply Hother|]. split; [|by destruct auto].
    intros x Hx. split; [by apply Hmod, Hin|]. split; [intros ->; by apply Hc, Hin|].
    split; [by intros ->|]. by apply Hother, Hin.
Qed.

(** The first module of a list: its successor takes its place in the static module. *)
Lemma Unregister_head auto m nx pv r l2 : rep nx pv r -> the_list auto r = m :: l2 ->
  exists nx' pv', runs (Unregister current m crs) nx pv tt nx' pv' /\ rep nx' pv' (remove m r).
Proof.
  intros R El.
  destruct (member_facts auto nx pv r [] m l2 R El) as (Hr & Hr' & Hnd & Hm & Hpu & Hnu & Hmo & Hin & Hn & Hp).
  assert (Hnm : nx m = hd_or 0 l2) by apply Hr.
  set (pv1 := if decide (l2 = []) then pv else <[hd_or 0 l2 := pv m]> pv).
  eexists _, _. split.
  - apply runs_Unregister; [done|].
    assert (Hhd : (m =? nx crs) || (m =? pv crs) = true).
    { rewrite Hn, Hp. destruct auto; rewrite El; simpl; rewrite Z.eqb_refl; [done|apply orb_true_r]. }
    assert (Hph : (m =? pv crs) = negb auto).
    { rewrite Hp. destruct auto; [|by rewrite El; apply Z.eqb_refl].
      apply Z.eqb_neq. intros E. destruct (the_list false r) as [|x l] eqn:Ef; simpl in E.
      - by apply (space_null SPACE); rewrite <-E.
      - apply Hmo. simpl in *. rewrite Ef, E. left. }
    rewrite Hhd, Hph. apply runs_seq with (a := tt) (nx1 := nx) (pv1 := pv1).
    + unfold pv1. rewrite Hnm. case_decide as Hl2; [rewrite Hl2; apply runs_pure|].
      rewrite (proj2 (Z.eqb_neq (hd_or 0 l2) 0)) by (apply hd_or_null; [done|]; intros; by apply Hin).
      apply runs_set_prev; [|done]. by apply Hin, hd_or_in.
    + by apply (runs_set_slot auto).
  - assert (Hc : crs ∉ l2) by (intros Hc; by destruct (Hin crs Hc) as (_ & ? & _)).
    assert (Hc' : crs ∉ the_list (negb auto) r) by (by apply (the_list_valid (negb auto) r), R).
    rewrite Hnm. apply (rep_removed auto m nx pv r [] l2); [done|done| | | |].
    + apply ring_slot; [done|]. unfold pv1. case_decide as Hl2; [by rewrite Hl2|]. by apply ring_without_head.
    + apply ring_slot; [done|]. unfold pv1. case_decide as Hl2; [done|].
      apply ring_insert_prev; [|done]. by apply Hin, hd_or_in.
    + unfold slot_next, slot_prev. simpl. destruct auto; by rewrite fn_lookup_insert.
    + unfold slot_next, slot_prev, pv1. destruct auto; [|done]. case_decide as Hl2; [done|].
      apply fn_lookup_insert_ne. by apply Hin, hd_or_in.
Qed.

(** A later module is neither of the two heads. *)
Lemma not_head auto m nx pv r l1 l2 : rep nx pv r -> the_list auto r = l1 ++ m :: l2 -> l1 <> [] ->
  (m =? nx crs) || (m =? pv crs) = false.
Proof.
  intros R El Hl1.
  destruct (member_facts auto nx pv r l1 m l2 R El) as (_ & _ & _ & Hm & _ & _ & Hmo & Hin & Hn & Hp).
  assert (Hhd : forall b, m <> hd_or 0 (the_list b r)).
  { intros b E. destruct (decide (b = auto)) as [->|Hb].
    - destruct (Hin (hd_or 0 l1)) as (_ & _ & Hne & _).
      + apply elem_of_app. left. by apply hd_or_in.
      + apply Hne. rewrite E, El. by destruct l1.
    - assert (b = negb auto) as -> by (by destruct b, auto).
      destruct (the_list (negb auto) r) as [|x l]; simpl in E.
      + apply (space_null SPACE). by rewrite <-E.
      + apply Hmo. rewrite E. left. }
  rewrite Hn, Hp. by rewrite !(proj2 (Z.eqb_neq m _)) by apply Hhd.
Qed.

(** A module with a neighbour on both sides. *)
Lemma Unregister_middle auto m nx pv r l1 l2 : rep nx pv r -> the_list auto r = l1 ++ m :: l2 ->
  l1 <> [] -> l2 <> [] ->
  exists nx' pv', runs (Unregister current m crs) nx pv tt nx' pv' /\ rep nx' pv' (remove m r).
Proof.
  intros R El Hl1 Hl2. pose proof (not_head auto m nx pv r l1 l2 R El Hl1) as Hh.
  destruct (member_facts auto nx pv r l1 m l2 R El) as (Hr & Hr' & Hnd & Hm & Hpu & Hnu & Hmo & Hin & Hn & Hp).
  pose proof (ring_split _ _ _ _ _ Hr) as (_ & Hpm & Hnm & _).
  assert (Hnin : nx m ∈ l1 ++ l2) by (rewrite Hnm; apply elem_of_app; right; by apply hd_or_in).
  assert (Hpin : pv m ∈ l1 ++ l2) by (rewrite Hpm; apply elem_of_app; left; by apply last_or_in).
  destruct (Hin _ Hnin) as (Hn1 & Hn2 & _ & Hn3). destruct (Hin _ Hpin) as (Hp1 & Hp2 & _ & Hp3).
  eexists _, _. split.
  - apply runs_Unregister; [done|]. rewrite Hh, (proj2 (Z.eqb_neq (nx m) 0)).
    2: { intros E. apply (space_null SPACE). by rewrite <-E. }
    eapply runs_seq; [by apply runs_set_next|by apply runs_set_prev].
  - apply (rep_removed auto m nx pv r l1 l2); [done|done| | | |].
    + by apply ring_without_middle.
    + by apply ring_insert.
    + destruct auto; rewrite fn_lookup_insert_ne by done; rewrite ?Hn, ?Hp, El; by destruct l1.
    + destruct auto; by rewrite fn_lookup_insert_ne.
Qed.

Lemma runs_is_tail h m nx pv : h = 0 \/ h ∈ modules ->
  runs (if h =? 0 then ret false else p <- PreviousModule current h ;; ret (p =? m))%hle nx pv
    (negb (h =? 0) && (pv h =? m)) nx pv.
Proof.
  intros [->|Hh]; [apply runs_pure|].
  rewrite (proj2 (Z.eqb_neq h 0)) by (intros ->; by apply (space_null SPACE)).
  eapply runs_seq; [by apply runs_prev|apply runs_pure].
Qed.

(** The last module of a list: the head of its list learns its new tail. *)
Lemma Unregister_tail auto m nx pv r l1 : rep nx pv r -> the_list auto r = l1 ++ [m] -> l1 <> [] ->
  exists nx' pv', runs (Unregister current m crs) nx pv tt nx' pv' /\ rep nx' pv' (remove m r).
Proof.
  intros R El Hl1. pose proof (not_head auto m nx pv r l1 [] R El Hl1) as Hh.
  destruct (member_facts auto nx pv r l1 m [] R El) as (Hr & Hr' & Hnd & Hm & Hpu & Hnu & Hmo & Hin & Hn & Hp).
  pose proof (ring_split _ _ _ _ _ Hr) as (_ & Hpm & Hnm & _). simpl in Hpm, Hnm.
  rewrite app_nil_r in *.
  assert (Hpin : pv m ∈ l1) by (rewrite Hpm; by apply last_or_in).
  assert (Hhin : hd_or 0 l1 ∈ l1) by (by apply hd_or_in).
  destruct (Hin _ Hpin) as (Hp1 & Hp2 & _ & Hp3). destruct (Hin _ Hhin) as (Hh1 & Hh2 & _ & Hh3).
  assert (Hhd : hd_or 0 (the_list auto r) = hd_or 0 l1) by (rewrite El; by destruct l1).
  assert (Hpv : pv (hd_or 0 l1) = m).
  { rewrite <-Hhd. rewrite ring_head_prev with (nx := nx); [|by rewrite El; destruct l1|by rewrite El].
    by rewrite El, last_or_app. }
  exists (<[m := 0]> (<[pv m := 0]> nx)), (<[m := 0]> (<[hd_or 0 l1 := pv m]> pv)). split.
  - apply runs_Unregister; [done|]. rewrite Hh, Hnm. cbn [negb Z.eqb].
    eapply runs_seq; [by apply runs_set_next|]. set (nx1 := <[pv m := 0]> nx).
    assert (Hown : negb (hd_or 0 l1 =? 0) && (pv (hd_or 0 l1) =? m) = true).
    { rewrite Hpv, Z.eqb_refl, (proj2 (Z.eqb_neq _ 0)); [done|].
      intros E. apply (space_null SPACE). by rewrite <-E. }
    rewrite Hn, Hp. destruct auto; simpl the_list in *.
    + rewrite Hhd. eapply runs_seq; [apply runs_is_tail; by right|]. rewrite Hown.
      by apply runs_set_prev.
    + rewrite Hhd. eapply runs_seq; [apply runs_is_tail|].
      { destruct (autos r) eqn:Ea; [by left|right]. apply R. apply elem_of_app. left. rewrite Ea. left. }
      assert (Hfalse : negb (hd_or 0 (autos r) =? 0) && (pv (hd_or 0 (autos r)) =? m) = false).
      { destruct (decide (autos r = [])) as [->|Ha]; [done|]. apply andb_false_iff. right.
        apply Z.eqb_neq. rewrite (ring_head_prev nx pv (autos r)) by done. intros E.
        apply Hmo. rewrite <-E. by apply last_or_in. }
      rewrite Hfalse. eapply runs_seq; [apply runs_is_tail; by right|]. rewrite Hown.
      by apply runs_set_prev.
  - apply (rep_removed auto m nx pv r l1 []); rewrite ?app_nil_r; [done|done| | | |].
    + by apply ring_without_tail.
    + by apply ring_insert.
    + destruct auto; rewrite fn_lookup_insert_ne by done; rewrite ?Hn, ?Hp; exact Hhd.
    + destruct auto; by rewrite fn_lookup_insert_ne.
Qed.

(** ** Histories *)

(** The lists of registered modules are [r] in this memory. *)
Definition listed (s : Linker) (r : Modules) : Prop :=
  exists nx pv, links (host s) nx pv /\ rep nx pv r.

Inductive request := Reg (m : Z) (auto_link : bool) | Unreg (m : Z).

Definition run_request (q : request) : op Linker unit :=
  match q with
  | Reg m auto_link => Register current m crs auto_link
  | Unreg m => Unregister current m crs
  end.

(** What a request does to the lists: a module is registered once, and unregistered
    when it is registered. *)
Definition apply_request (q : request) (r : Modules) : option Modules :=
  match q with
  | Reg m auto_link =>
      if bool_decide (m ∈ modules) && negb (bool_decide (m ∈ crs :: registered r))
      then Some (add auto_link m r) else None
  | Unreg m => if bool_decide (m ∈ registered r) then Some (remove m r) else None
  end.

Fixpoint run_requests (qs : list request) : op Linker unit :=
  match qs with
  | [] => ret tt
  | q :: qs => (run_request q ;; run_requests qs)%hle
  end.

Fixpoint apply_requests (qs : list request) (r : Modules) : option Modules :=
  match qs with
  | [] => Some r
  | q :: qs => apply_request q r ≫= apply_requests qs
  end.

Lemma request_refines q r r' nx pv : rep nx pv r -> apply_request q r = Some r' ->
  exists nx' pv', runs (run_request q) nx pv tt nx' pv' /\ rep nx' pv' r'.
Proof.
  intros R E. destruct q as [m auto|m]; simpl in *.
  - destruct (bool_decide (m ∈ modules)) eqn:Hm; [|done].
    destruct (bool_decide (m ∈ crs :: registered r)) eqn:Hr; [done|]. injection E as <-.
    apply bool_decide_eq_true in Hm. apply bool_decide_eq_false in Hr. by apply Register_refines.
  - destruct (bool_decide (m ∈ registered r)) eqn:Hr; [|done]. injection E as <-.
    apply bool_decide_eq_true in Hr.
    assert (exists auto l1 l2, the_list auto r = l1 ++ m :: l2) as (auto & l1 & l2 & El).
    { apply elem_of_app in Hr as [Hr|Hr]; apply list_elem_of_split in Hr as (l1 & l2 & El);
        [exists true|exists false]; by exists l1, l2. }
    destruct (decide (l1 = [])) as [->|Hl1]; [by apply (Unregister_head auto m nx pv r l2)|].
    destruct (decide (l2 = [])) as [->|Hl2]; [by apply (Unregister_tail auto m nx pv r l1)|].
    by apply (Unregister_middle auto m nx pv r l1 l2).
Qed.

Lemma requests_refine qs r r' nx pv : rep nx pv r -> apply_requests qs r = Some r' ->
  exists nx' pv', runs (run_requests qs) nx pv tt nx' pv' /\ rep nx' pv' r'.
Proof.
  revert r nx pv. induction qs as [|q qs IH]; intros r nx pv R E.
  - injection E as <-. exists nx, pv. split; [apply runs_pure|done].
  - simpl in E. destruct (apply_request q r) as [r1|] eqn:E1; [|done].
    destruct (request_refines q r r1 nx pv R E1) as (nx1 & pv1 & H1 & R1).
    destruct (IH r1 nx1 pv1 R1 E) as (nx2 & pv2 & H2 & R2).
    exists nx2, pv2. split; [|done]. by eapply runs_seq.
Qed.

Lemma InitCRS_refines nx pv :
  exists nx' pv', runs (InitCRS current crs) nx pv tt nx' pv' /\ rep nx' pv' (mkModules [] []).
Proof.
  eexists _, _. split.
  - eapply runs_seq; [by apply runs_set_next; [apply SPACE|]|by apply runs_set_prev; [apply SPACE|]].
  - unfold rep, valid. simpl. rewrite !fn_lookup_insert.
    repeat split; [apply NoDup_singleton|by intros m ?%elem_of_nil].
Qed.

(** Any history of registrations, from the initialisation of the static module. *)
Lemma history_listed qs r s : apply_requests qs (mkModules [] []) = Some r ->
  exists s', (InitCRS current crs ;; run_requests qs)%hle s = Done s' tt /\ listed s' r /\
    invalidated s' = invalidated s /\ same_outside process owned link_byte (host s) (host s').
Proof.
  intros E. set (nx m := field process (host s) m NextCRO). set (pv m := field process (host s) m PreviousCRO).
  destruct (InitCRS_refines nx pv) as (nx0 & pv0 & H0 & R0).
  destruct (requests_refine qs _ r nx0 pv0 R0 E) as (nx' & pv' & H' & R').
  destruct (runs_seq _ (fun _ => run_requests qs) _ _ _ _ _ _ _ _ H0 H' s) as (s' & Es & Ls & Is & Os); [done|].
  exists s'. split; [done|]. split; [by exists nx', pv'|]. done.
Qed.

(** ** Visiting *)

(** The modules of a list one after the other, until one returns [false] or fails. *)
Fixpoint visit (l : list Z) (func : Z -> op Linker bool) : op Linker unit :=
  match l with
  | [] => ret tt
  | m :: l => (next <- func m ;; if negb next then ret tt else visit l func)%hle
  end.

(** [func] leaves the lists alone. *)
Definition keeps_lists (r : Modules) (func : Z -> op Linker bool) : Prop :=
  forall m s s' b, listed s r -> func m s = Done s' b -> listed s' r.

(** The successor of a module of the automatic list, and of the static module. *)
Lemma listed_next s r l1 m l2 : listed s r -> crs :: autos r = l1 ++ m :: l2 ->
  NextModule current m s = Done s (hd_or 0 l2).
Proof.
  intros (nx & pv & L & V & Hn & Hp & R1 & R2) E.
  assert (Hm : m ∈ modules).
  { assert (m ∈ crs :: autos r) as [->|Hin]%elem_of_cons by (rewrite E; set_solver); [apply SPACE|].
    apply V. apply elem_of_app. by left. }
  unfold NextModule. rewrite (GetField_run current process owned FLAT) by (by apply SPACE || by unfold NextCRO).
  destruct (L m Hm) as [-> _]. f_equal. destruct l1 as [|x l1]; simpl in E; injection E as <- E.
  - by rewrite Hn, E.
  - rewrite E in R1. by apply ring_split in R1 as (_ & _ & ? & _).
Qed.

Lemma for_each_visit r func l1 l2 n s : keeps_lists r func -> listed s r ->
  crs :: autos r = l1 ++ l2 -> (length l2 <= n)%nat ->
  for_each current n (hd_or 0 l2) func s = visit l2 func s.
Proof.
  intros K. revert l1 n s. induction l2 as [|m l2 IH]; intros l1 n s L E Hn; simpl.
  - by destruct n.
  - assert (Hm : m <> 0).
    { assert (m ∈ crs :: autos r) as [->|Hin]%elem_of_cons by (rewrite E; set_solver).
      - intros E0. by apply (space_null SPACE); rewrite <-E0; apply SPACE.
      - intros ->. apply (space_null SPACE). destruct L as (nx & pv & _ & [_ V] & _).
        apply V. apply elem_of_app. by left. }
    simpl in Hn. destruct n as [|n]; [lia|]. simpl. rewrite (proj2 (Z.eqb_neq m 0)) by done.
    unfold bind at 1 3. destruct (func m s) as [s' b| |] eqn:Ef; [|done|done].
    pose proof (K _ _ _ _ L Ef) as L'. destruct b; [|done]. cbn [negb].
    erewrite bind_Done by (eapply (listed_next s' r l1 m l2); [done|by rewrite E]).
    apply (IH (l1 ++ [m])); [done|by rewrite E, <-app_assoc|lia].
Qed.

Lemma ForEachAutoLinkCRO_visit r func fuel s : keeps_lists r func -> listed s r ->
  (S (length (autos r)) <= fuel)%nat ->
  ForEachAutoLinkCRO current fuel crs func s = visit (crs :: autos r) func s.
Proof. intros K L Hf. by apply (for_each_visit r func [] (crs :: autos r)). Qed.

(** ** Properties *)

(** C17: for any sequence of registrations and removals of modules, starting with the
    initialisation of the static module, no assertion fails; the two lists that the
    headers hold are the modules in order of registration, those removed left out;
    nothing but the link fields changes; and [ForEachAutoLinkCRO] visits the static
    module and the automatic modules in this order, ending at the first that asks for
    it or fails. *)
Theorem module_lists_history qs r s :
  apply_requests qs (mkModules [] []) = Some r ->
  exists s', (InitCRS current crs ;; run_requests qs)%hle s = Done s' tt /\ listed s' r /\
    same_outside process owned link_byte (host s) (host s') /\
    forall func fuel, keeps_lists r func -> (S (length (autos r)) <= fuel)%nat ->
      ForEachAutoLinkCRO current fuel crs func s' = visit (crs :: autos r) func s'.
Proof.
  intros E. destruct (history_listed qs r s E) as (s' & Es & L & _ & O).
  exists s'. split; [done|]. split; [done|]. split; [done|].
  intros func fuel K Hf. by apply ForEachAutoLinkCRO_visit.
Qed.
End Memory.
