(* ===== verification/CroTables.v ===== *)
(** * CroTables: tables of entries, segments and names in the memory of a module

    What [GetEntry] and [SetEntry] do to the bytes of a table, the address that a segment
    tag stands for, and the strings of a module. *)
From S2P Require Import Prelude Result Ipc Cro CroMemory.

Local Open Scope Z_scope.

(** ** Entries and their bytes *)

(** Entries are not empty, and their table is named in the header. *)
Class EntryShape (T : Type) `{!Entry T} : Prop := {
  sizeof_range : 0 < sizeof T <= 20;
  table_high : 12 <= TABLE_OFFSET_FIELD T < 46
}.
Lemma table_field {T} `{!Entry T, !EntryShape T} : 0 <= TABLE_OFFSET_FIELD T < 46.
Proof. pose proof (table_high (T := T)). lia. Qed.
Ltac entry_shape := by split.
#[export] Instance SegmentEntry_shape : EntryShape SegmentEntry. Proof. entry_shape. Qed.
#[export] Instance ExportNamedSymbolEntry_shape : EntryShape ExportNamedSymbolEntry. Proof. entry_shape. Qed.
#[export] Instance ExportIndexedSymbolEntry_shape : EntryShape ExportIndexedSymbolEntry. Proof. entry_shape. Qed.
#[export] Instance ExportTreeEntry_shape : EntryShape ExportTreeEntry. Proof. entry_shape. Qed.
#[export] Instance ImportNamedSymbolEntry_shape : EntryShape ImportNamedSymbolEntry. Proof. entry_shape. Qed.
#[export] Instance ImportIndexedSymbolEntry_shape : EntryShape ImportIndexedSymbolEntry. Proof. entry_shape. Qed.
#[export] Instance ImportAnonymousSymbolEntry_shape : EntryShape ImportAnonymousSymbolEntry. Proof. entry_shape. Qed.
#[export] Instance ImportModuleEntry_shape : EntryShape ImportModuleEntry. Proof. entry_shape. Qed.
#[export] Instance ExternalRelocationEntry_shape : EntryShape RelocationEntry. Proof. entry_shape. Qed.
#[export] Instance InternalRelocationEntry_shape : EntryShape InternalRelocationEntry. Proof. entry_shape. Qed.

(** An entry has as many bytes as its size says, and bytes and entries are the same. *)
Class EntryLaws (T : Type) `{!Entry T} := {
  entry_ok : T -> Prop;
  of_bytes_ok l : Forall is_u8 l -> length l = Z.to_nat (sizeof T) -> entry_ok (of_bytes l);
  to_bytes_ok e : entry_ok e -> Forall is_u8 (to_bytes e) /\ length (to_bytes e) = Z.to_nat (sizeof T);
  of_to_bytes e : entry_ok e -> of_bytes (to_bytes e) = e;
  to_of_bytes l : Forall is_u8 l -> length l = Z.to_nat (sizeof T) -> to_bytes (of_bytes l) = l
}.

Lemma le_value_u32 l : Forall is_u8 l -> length l = 4%nat -> is_u32 (le_value l) /\ le32 (le_value l) = l.
Proof.
  destruct l as [|a [|b [|c [|d [|]]]]]; try done. intros Hf _.
  repeat match goal with H : Forall _ (_ :: _) |- _ => apply Forall_cons in H as [? H] end.
  unfold is_u8, is_u32, le32 in *. simpl. split; [lia|]. repeat f_equal; zlia.
Qed.

Lemma le32_u8 v : Forall is_u8 (le32 v).
Proof. unfold le32. repeat constructor; unfold is_u8; zlia. Qed.

Lemma take_drop_u8 n m (l : list Z) : Forall is_u8 l -> Forall is_u8 (take n (drop m l)).
Proof. intros. by apply Forall_take, Forall_drop. Qed.

Lemma u32_at_u32 l i : Forall is_u8 l -> (i + 4 <= length l)%nat -> is_u32 (u32_at l i).
Proof.
  intros Hl Hi. apply le_value_u32; [by apply take_drop_u8|]. rewrite length_take, length_drop. lia.
Qed.

Lemma le32_u32_at l i : Forall is_u8 l -> (i + 4 <= length l)%nat -> le32 (u32_at l i) = take 4 (drop i l).
Proof.
  intros Hl Hi. apply le_value_u32; [by apply take_drop_u8|]. rewrite length_take, length_drop. lia.
Qed.

Lemma u32_at_0 v l : is_u32 v -> u32_at (le32 v ++ l) 0 = v.
Proof. apply le_value_le32. Qed.

Lemma u32_at_skip v l n : (4 <= n)%nat -> u32_at (le32 v ++ l) n = u32_at l (n - 4).
Proof. intros Hn. unfold u32_at. by replace n with (4 + (n - 4))%nat at 1 by lia. Qed.

(** An entry made of words: the five laws. *)
Ltac words_ok := intros l Hl Hn; simpl in *; repeat split; apply u32_at_u32; auto; rewrite Hn; simpl; lia.
Ltac words_bytes_ok :=
  intros e _; split; [cbn -[le32]; repeat apply Forall_app_2; apply le32_u8|reflexivity].
Ltac words_of_to :=
  intros []; cbn -[le32 u32_at]; intros; destruct_and?;
  repeat (rewrite u32_at_skip by lia; cbn -[le32 u32_at]);
  f_equal; first [by apply u32_at_0 | by apply le_value_le32].
Ltac words_to_of :=
  intros l Hl Hn; cbn -[le32 u32_at] in *; rewrite !le32_u32_at by (auto; rewrite Hn; simpl; lia);
  repeat (destruct l as [|? l]; [discriminate Hn|]); by destruct l.
Ltac words_entry := first [done | words_ok | words_bytes_ok | words_of_to | words_to_of].

#[export] Instance SegmentEntry_laws : EntryLaws SegmentEntry.
Proof. refine (Build_EntryLaws SegmentEntry _ (fun e => is_u32 (seg_offset e) /\ is_u32 (seg_size e) /\ is_u32 (seg_type e)) _ _ _ _); words_entry. Defined.

#[export] Instance ExportNamedSymbolEntry_laws : EntryLaws ExportNamedSymbolEntry.
Proof. refine (Build_EntryLaws ExportNamedSymbolEntry _ (fun e => is_u32 (en_name_offset e) /\ is_u32 (en_symbol_position e)) _ _ _ _); words_entry. Defined.

#[export] Instance ImportNamedSymbolEntry_laws : EntryLaws ImportNamedSymbolEntry.
Proof. refine (Build_EntryLaws ImportNamedSymbolEntry _ (fun e => is_u32 (in_name_offset e) /\ is_u32 (in_batch e)) _ _ _ _); words_entry. Defined.

#[export] Instance ImportIndexedSymbolEntry_laws : EntryLaws ImportIndexedSymbolEntry.
Proof. refine (Build_EntryLaws ImportIndexedSymbolEntry _ (fun e => is_u32 (ii_index e) /\ is_u32 (ii_batch e)) _ _ _ _); words_entry. Defined.

#[export] Instance ImportAnonymousSymbolEntry_laws : EntryLaws ImportAnonymousSymbolEntry.
Proof. refine (Build_EntryLaws ImportAnonymousSymbolEntry _ (fun e => is_u32 (ia_symbol_position e) /\ is_u32 (ia_batch e)) _ _ _ _); words_entry. Defined.

#[export] Instance ImportModuleEntry_laws : EntryLaws ImportModuleEntry.
Proof. refine (Build_EntryLaws ImportModuleEntry _ (fun e => is_u32 (im_name_offset e) /\ is_u32 (import_indexed_symbol_table_offset e) /\ is_u32 (import_indexed_symbol_num e) /\ is_u32 (import_anonymous_symbol_table_offset e) /\ is_u32 (import_anonymous_symbol_num e)) _ _ _ _); words_entry. Defined.

Lemma relocation_bytes_inv l : Forall is_u8 l -> length l = 12%nat ->
  relocation_bytes (relocation_of_bytes l) = l.
Proof.
  intros Hl Hn. unfold relocation_bytes, relocation_of_bytes.
  cbn [target_position relocation_type is_batch_end is_batch_resolved padding addend].
  rewrite !le32_u32_at by (auto; rewrite Hn; simpl; lia).
  repeat (destruct l as [|? l]; [discriminate Hn|]). by destruct l.
Qed.

Definition relocation_ok (e : RelocationEntry) : Prop :=
  is_u32 (target_position e) /\ is_u8 (relocation_type e) /\ is_u8 (is_batch_end e) /\
  is_u8 (is_batch_resolved e) /\ is_u8 (padding e) /\ is_u32 (addend e).

Lemma relocation_of_bytes_inv e : relocation_ok e -> relocation_of_bytes (relocation_bytes e) = e.
Proof.
  destruct e as [a b c d p f]. intros (Ha & _ & _ & _ & _ & Hf).
  unfold relocation_bytes, relocation_of_bytes. cbn -[le32 u32_at u8_at] in *.
  rewrite u32_at_0 by done. rewrite u32_at_skip by lia.
  f_equal. by apply le_value_le32.
Qed.

#[export] Instance ExternalRelocationEntry_laws : EntryLaws RelocationEntry.
Proof.
  refine (Build_EntryLaws RelocationEntry _ relocation_ok _ _ _ _).
  - intros l Hl Hn. change (Z.to_nat (sizeof RelocationEntry)) with 12%nat in Hn.
    assert (Hb : forall i, (i < 12)%nat -> is_u8 (u8_at l i)).
    { intros i Hi. apply (proj1 (Forall_nth is_u8 0 l) Hl). lia. }
    repeat split; first [apply u32_at_u32; [done|lia] | apply Hb; lia].
  - intros [a b c d p f] (Ha & Hb & Hc & Hd & Hp & Hf). split; [|done]. cbn in Hb, Hc, Hd, Hp.
    change (Forall is_u8 (le32 a ++ [b; c; d; p] ++ le32 f)).
    rewrite !Forall_app. split; [apply le32_u8|]. split; [|apply le32_u8]. by rewrite !Forall_cons.
  - apply relocation_of_bytes_inv.
  - intros l Hl Hn. by apply relocation_bytes_inv.
Defined.

Section Tables.
Context {PageTable : Type} `{WordMemoryLaws PageTable}.
Variables (current process : PageTable) (owned : Z -> Prop).
Hypothesis FLAT : flat current process owned.

Notation field := (field process).
Notation bytes := (bytes process).
Notation range := (range owned).

(** ** Entries in memory *)

Definition base (T : Type) `{!Entry T} (h : Z -> Z) (cro : Z) : Z := field h cro (TABLE_OFFSET_FIELD T).
Definition entry_bytes (T : Type) `{!Entry T} (h : Z -> Z) (cro i : Z) : list Z :=
  bytes h (base T h cro + i * sizeof T) (sizeof T).
Definition entry (T : Type) `{!Entry T} (h : Z -> Z) (cro i : Z) : T := of_bytes (entry_bytes T h cro i).
(** The first [n] entries are in memory of their own. *)
Definition table (T : Type) `{!Entry T} (h : Z -> Z) (cro n : Z) : Prop :=
  range (base T h cro) (n * sizeof T).

Lemma entry_range T `{!Entry T} h cro n i : 0 < sizeof T -> table T h cro n -> 0 <= i < n ->
  range (base T h cro + i * sizeof T) (sizeof T) /\
  u32 (base T h cro + u32 (i * sizeof T)) = base T h cro + i * sizeof T.
Proof.
  intros Hs Ht Hi. unfold table in Ht. set (sz := sizeof T) in *. set (b := base T h cro) in *.
  assert (0 <= i * sz /\ i * sz + sz <= n * sz) by nia. clearbody sz b.
  split.
  - apply (range_sub owned b (n * sz)); [done|lia|lia].
  - pose proof (flat_range _ _ _ FLAT _ (Ht (i * sz) ltac:(lia))) as Hr.
    pose proof (flat_range _ _ _ FLAT _ (Ht 0 ltac:(lia))) as Hb.
    unfold is_u32 in *. rewrite (u32_small (i * sz)), u32_small; unfold is_u32; lia.
Qed.

Lemma GetEntry_run T `{!Entry T, !EntryShape T} cro i n s :
  header owned cro -> table T (host s) cro n -> 0 <= i < n ->
  GetEntry current process T cro i s = Done s (entry T (host s) cro i).
Proof.
  intros Hh Ht Hi. pose proof (sizeof_range (T := T)) as Hs.
  unfold GetEntry. erewrite bind_Done by (apply (GetField_run current process owned FLAT); [done|apply table_field]).
  fold (base T (host s) cro).
  destruct (entry_range T (host s) cro n i (proj1 Hs) Ht Hi) as [Hr ->].
  unfold read_struct, read. by rewrite (ReadBlock_view current process owned FLAT) by (done || lia).
Qed.

Lemma SetEntry_run T `{!Entry T, !EntryShape T, !EntryLaws T} cro i n (e : T) s :
  header owned cro -> table T (host s) cro n -> 0 <= i < n -> entry_ok e ->
  exists h', SetEntry current process cro i e s = Done (mkLinker h' (invalidated s)) tt /\
    wrote process owned (base T (host s) cro + i * sizeof T) (to_bytes e) (host s) h'.
Proof.
  intros Hh Ht Hi He. pose proof (sizeof_range (T := T)) as Hs.
  unfold SetEntry. erewrite bind_Done by (apply (GetField_run current process owned FLAT); [done|apply table_field]).
  fold (base T (host s) cro).
  destruct (entry_range T (host s) cro n i (proj1 Hs) Ht Hi) as [Hr ->].
  destruct (to_bytes_ok e He) as [_ Hlen].
  eexists. split; [reflexivity|]. apply (WriteBlock_wrote current).
  - done.
  - intros E. rewrite E in Hlen. simpl in Hlen. lia.
  - rewrite Hlen, Z2Nat.id by lia. done.
Qed.

(** ** Segments *)

Definition segment_num (h : Z -> Z) (cro : Z) : Z := field h cro SegmentNum.

(** The address that a tag stands for, 0 when it stands for none. *)
Definition tag_address (h : Z -> Z) (cro tag : Z) : Z :=
  let e := entry SegmentEntry h cro (segment_index tag) in
  if (segment_num h cro <=? segment_index tag) || (seg_size e <=? offset_into_segment tag) then 0
  else u32 (seg_offset e + offset_into_segment tag).

Definition segments (h : Z -> Z) (cro : Z) : Prop := table SegmentEntry h cro (segment_num h cro).

Lemma SegmentTagToAddress_run cro tag s :
  header owned cro -> segments (host s) cro ->
  SegmentTagToAddress current process cro tag s = Done s (tag_address (host s) cro tag).
Proof.
  intros Hh Hs. unfold SegmentTagToAddress, tag_address.
  erewrite bind_Done by (by apply (GetField_run current process owned FLAT)).
  fold (segment_num (host s) cro).
  destruct (Z.leb_spec (segment_num (host s) cro) (segment_index tag)) as [Hle|Hlt]; [done|].
  erewrite bind_Done.
  2: { apply GetEntry_run with (n := segment_num (host s) cro); [apply _|done|done|].
       split; [|done]. unfold segment_index. apply Z.land_nonneg. right. lia. }
  by destruct (_ <=? offset_into_segment tag).
Qed.

(** The bytes that a module keeps its header and its segment table in. *)
Definition module_byte (h : Z -> Z) (cro b : Z) : Prop :=
  cro <= b < cro + CRO_HEADER_SIZE \/
  base SegmentEntry h cro <= b < base SegmentEntry h cro + segment_num h cro * sizeof SegmentEntry.

Lemma field_stable h h' cro f : header owned cro -> 0 <= f < 46 ->
  (forall b, cro <= b < cro + CRO_HEADER_SIZE -> view process h' b = view process h b) ->
  field h' cro f = field h cro f.
Proof.
  intros Hh Hf E. unfold CroMemory.field, word. f_equal. apply bytes_agree. intros b Hb. apply E.
  rewrite (Field_at current process owned FLAT) in Hb by done. unfold CRO_HEADER_SIZE. lia.
Qed.

Lemma module_stable h h' cro : header owned cro ->
  (forall b, module_byte h cro b -> view process h' b = view process h b) ->
  base SegmentEntry h' cro = base SegmentEntry h cro /\ segment_num h' cro = segment_num h cro /\
  forall tag, tag_address h' cro tag = tag_address h cro tag.
Proof.
  intros Hh E.
  assert (Eb : base SegmentEntry h' cro = base SegmentEntry h cro)
    by (apply field_stable; [done|done|intros; apply E; by left]).
  assert (En : segment_num h' cro = segment_num h cro)
    by (apply field_stable; [done|done|intros; apply E; by left]).
  split; [done|]. split; [done|]. intros tag. unfold tag_address. rewrite En.
  destruct (Z.leb_spec (segment_num h cro) (segment_index tag)) as [|Hlt]; [done|].
  assert (0 <= segment_index tag) by (apply Z.land_nonneg; right; lia).
  assert (Ee : entry SegmentEntry h' cro (segment_index tag) = entry SegmentEntry h cro (segment_index tag)).
  { unfold entry, entry_bytes. rewrite Eb. f_equal. apply bytes_agree. intros b Hb. apply E. right.
    simpl sizeof in *. lia. }
  by rewrite Ee.
Qed.

Lemma module_byte_owned h cro b : header owned cro -> segments h cro ->
  module_byte h cro b -> owned b.
Proof.
  intros Hh Hs [Hb|Hb].
  - replace b with (cro + (b - cro)) by lia. apply Hh. lia.
  - replace b with (base SegmentEntry h cro + (b - base SegmentEntry h cro)) by lia.
    apply Hs. lia.
Qed.

(** ** Strings *)

(** The string [name] is at [a], with the zero behind it. *)
Definition string_at (h : Z -> Z) (a : Z) (name : list Z) : Prop :=
  range a (Z.of_nat (length name) + 1) /\
  bytes h a (Z.of_nat (length name) + 1) = name ++ [0] /\ Forall (fun c => c <> 0) name.

Lemma c_string_zero name : Forall (fun c => c <> 0) name -> c_string (name ++ [0]) = name.
Proof.
  induction 1 as [|c name Hc _ IH]; [done|]. simpl. by rewrite (proj2 (Z.eqb_neq c 0)), IH.
Qed.

Lemma ReadCString_run h a n name : string_at h a name -> Z.of_nat (length name) < n ->
  ReadCString current h a n = name.
Proof.
  intros (Hr & Hb & Hn) Hlen.
  assert (E : ReadBlock current h a (Z.of_nat (length name) + 1) = name ++ [0])
    by (by rewrite (ReadBlock_current current process owned FLAT) by (lia || done)).
  rewrite (ReadCString_block _ _ _ _ (Z.of_nat (length name))); [|lia| |].
  - rewrite E. by apply c_string_zero.
  - apply (range_mapped current process owned FLAT); [lia|done].
  - rewrite E, Nat2Z.id. unfold u8_at. rewrite app_nth2 by lia. by rewrite Nat.sub_diag.
Qed.
End Tables.
