(* ===== verification/CroSymbols.v ===== *)
(** * CroSymbols: looking up an exported name

    The names that a module exports are the leaves of a binary tree whose nodes test one
    bit of a name.  [FindExportNamedSymbol] walks down the tree and compares the name at
    the leaf: with a tree that leads each name to its entry, it is the search of the name
    in the list of exports.  A tree with a cycle keeps it walking for ever. *)
From S2P Require Import Prelude Result Ipc Cro CroMemory CroTables.

Local Open Scope Z_scope.

(** ** Trees *)

Inductive trie :=
  | Leaf (id : Z)
  | Branch (bit : Z) (left_child right_child : trie).

(** A bit of a name: those behind its end are 0. *)
Definition name_bit (name : list Z) (bit : Z) : bool :=
  if Z.of_nat (length name) <=? Z.shiftr bit 3 then false
  else Z.testbit (nth (Z.to_nat (Z.shiftr bit 3)) name 0) (Z.land bit 7).

Fixpoint trie_find (t : trie) (name : list Z) : Z :=
  match t with
  | Leaf id => id
  | Branch bit l r => if name_bit name bit then trie_find r name else trie_find l name
  end.

Fixpoint height (t : trie) : nat :=
  match t with
  | Leaf _ => 0
  | Branch _ l r => S (Nat.max (height l) (height r))
  end.

Section Symbols.
Context {PageTable : Type} `{WordMemoryLaws PageTable}.
Variables (current process : PageTable) (owned : Z -> Prop).
Hypothesis FLAT : flat current process owned.

Notation field := (field process).
Notation entry := (entry process).
Notation table := (table process owned).

(** The tree below a child field, in a table of [n] nodes. *)
Fixpoint child (h : Z -> Z) (cro n raw : Z) (t : trie) : Prop :=
  let e := entry ExportTreeEntry h cro (next_index raw) in
  0 <= next_index raw < n /\
  match t with
  | Leaf id => is_end raw = true /\ export_table_index e = id /\ 0 <= id
  | Branch bit l r =>
      is_end raw = false /\ test_bit e = bit /\ child h cro n (left_ e) l /\ child h cro n (right_ e) r
  end.

Lemma find_leaf_run cro n name s : header owned cro -> table ExportTreeEntry (host s) cro n ->
  forall t fuel raw, child (host s) cro n raw t -> (height t < fuel)%nat ->
  find_leaf current process fuel cro name raw s = Done s (trie_find t name).
Proof.
  intros Hh Ht t. induction t as [id|bit l IHl r IHr]; intros fuel raw C Hf;
    (destruct fuel as [|fuel]; [simpl in Hf; lia|]); destruct C as [Hi C]; cbn [find_leaf];
    erewrite bind_Done by (by apply (GetEntry_run current process owned FLAT) with (n := n)).
  - by destruct C as (-> & -> & _).
  - destruct C as (-> & -> & Hl & Hr). simpl in Hf. simpl trie_find. unfold name_bit.
    destruct (_ <=? _); [apply IHl; [done|lia]|].
    destruct (Z.testbit _ _); [apply IHr; [done|lia]|apply IHl; [done|lia]].
Qed.

(** Child fields from which no end can be reached. *)
Lemma find_leaf_hangs cro n name s (C : Z -> Prop) :
  header owned cro -> table ExportTreeEntry (host s) cro n ->
  (forall raw, C raw -> 0 <= next_index raw < n /\ is_end raw = false /\
     C (left_ (entry ExportTreeEntry (host s) cro (next_index raw))) /\
     C (right_ (entry ExportTreeEntry (host s) cro (next_index raw)))) ->
  forall fuel raw, C raw -> find_leaf current process fuel cro name raw s = Aborted.
Proof.
  intros Hh Ht HC fuel. induction fuel as [|fuel IH]; intros raw Hraw; [done|].
  destruct (HC raw Hraw) as (Hi & He & Hl & Hr). cbn [find_leaf].
  erewrite bind_Done by (by apply (GetEntry_run current process owned FLAT) with (n := n)).
  rewrite He. destruct (_ <=? _); [by apply IH|]. destruct (Z.testbit _ _); by apply IH.
Qed.

(** ** Exports *)

(** The named exports of a module: names and segment tags. *)
Definition exports_at (h : Z -> Z) (cro : Z) (exports : list (list Z * Z)) : Prop :=
  field h cro ExportNamedSymbolNum = Z.of_nat (length exports) /\
  table ExportNamedSymbolEntry h cro (Z.of_nat (length exports)) /\
  forall i name tag, exports !! i = Some (name, tag) ->
    let e := entry ExportNamedSymbolEntry h cro (Z.of_nat i) in
    string_at process owned h (en_name_offset e) name /\
    Z.of_nat (length name) < field h cro ExportStringsSize /\ en_symbol_position e = tag.

(** The tree of a module, which leads every exported name to its entry. *)
Definition tree_at (h : Z -> Z) (cro : Z) (t : trie) (exports : list (list Z * Z)) : Prop :=
  let n := field h cro ExportTreeNum in
  0 < n /\ table ExportTreeEntry h cro n /\
  child h cro n (left_ (entry ExportTreeEntry h cro 0)) t /\
  forall i name tag, exports !! i = Some (name, tag) -> trie_find t name = Z.of_nat i.

(** The search in the list of exports. *)
Definition find_export (h : Z -> Z) (cro : Z) (exports : list (list Z * Z)) (name : list Z) : Z :=
  match list_find (fun e => e.1 = name) exports with
  | Some (_, (_, tag)) => tag_address process h cro tag
  | None => 0
  end.

Lemma find_export_at h cro exports t name tag : tree_at h cro t exports ->
  exports !! Z.to_nat (trie_find t name) = Some (name, tag) ->
  find_export h cro exports name = tag_address process h cro tag.
Proof.
  intros (_ & _ & _ & T) E. unfold find_export.
  destruct (list_find _ exports) as [[j [name' tag']]|] eqn:F.
  - apply list_find_Some in F as (Ej & En & _). simpl in En. subst name'.
    pose proof (T _ _ _ Ej) as Hj. rewrite Hj, Nat2Z.id, Ej in E. by injection E as ->.
  - apply list_find_None in F. rewrite Forall_forall in F.
    destruct (F (name, tag)); [|done]. eapply list_elem_of_lookup_2; eauto.
Qed.

Lemma find_export_none h cro exports t name : tree_at h cro t exports ->
  (forall tag, exports !! Z.to_nat (trie_find t name) <> Some (name, tag)) ->
  find_export h cro exports name = 0.
Proof.
  intros (_ & _ & _ & T) E. unfold find_export.
  destruct (list_find _ exports) as [[j [name' tag']]|] eqn:F; [|done].
  apply list_find_Some in F as (Ej & En & _). simpl in En. subst name'.
  destruct (E tag'). by rewrite (T _ _ _ Ej), Nat2Z.id.
Qed.

Lemma trie_find_nonneg h cro n t : forall raw, child h cro n raw t -> forall name, 0 <= trie_find t name.
Proof.
  induction t as [id|bit l IHl r IHr]; intros raw C name; destruct C as [_ C]; simpl.
  - apply C.
  - destruct C as (_ & _ & Hl & Hr). destruct (name_bit _ _); eauto.
Qed.

(** C20: a lookup returns the address of the export of that name, 0 when the module does
    not export it, if the tree leads every exported name to its entry; the depth of the
    tree bounds the steps. *)
Theorem FindExportNamedSymbol_finds cro exports t name fuel s :
  header owned cro -> segments process owned (host s) cro ->
  exports_at (host s) cro exports -> tree_at (host s) cro t exports -> (height t < fuel)%nat ->
  FindExportNamedSymbol current process fuel cro name s
  = Done s (find_export (host s) cro exports name).
Proof.
  intros Hh Hs (Hn & He & Hx) T Hf. pose proof T as (Hpos & Ht & Hc & _).
  unfold FindExportNamedSymbol.
  erewrite bind_Done by (by apply (GetField_run current process owned FLAT)).
  rewrite (proj2 (Z.eqb_neq _ 0)) by lia.
  erewrite bind_Done by (apply (GetEntry_run current process owned FLAT) with (n := field (host s) cro ExportTreeNum); [apply _|done|done|lia]).
  erewrite bind_Done by (eapply find_leaf_run; done).
  erewrite bind_Done by (by apply (GetField_run current process owned FLAT)).
  pose proof (trie_find_nonneg _ _ _ _ _ Hc name) as H0.
  rewrite Hn. destruct (Z.leb_spec (Z.of_nat (length exports)) (trie_find t name)) as [Hle|Hlt].
  { unfold ret. f_equal. symmetry. apply (find_export_none _ _ _ t); [done|]. intros tag E.
    apply lookup_lt_Some in E. lia. }
  destruct (exports !! Z.to_nat (trie_find t name)) as [[name' tag]|] eqn:E.
  2: { apply lookup_ge_None in E. lia. }
  destruct (Hx _ _ _ E) as (Hstr & Hlen & Htag). rewrite Z2Nat.id in Hstr, Htag by lia.
  erewrite bind_Done by (by apply (GetField_run current process owned FLAT)).
  erewrite bind_Done by (by apply (GetEntry_run current process owned FLAT) with (n := Z.of_nat (length exports))).
  unfold read. unfold bind at 1. rewrite (ReadCString_run current process owned FLAT _ _ _ name') by done.
  rewrite Htag. case_bool_decide as Heq.
  - subst name'. rewrite (SegmentTagToAddress_run current process owned FLAT) by done.
    f_equal. symmetry. by apply (find_export_at _ _ _ t).
  - unfold ret. f_equal. symmetry. apply (find_export_none _ _ _ t); [done|]. intros tag' E'.
    rewrite E in E'. by injection E' as ??.
Qed.
End Symbols.
