(* ===== verification/CroRelocations.v ===== *)
(** * CroRelocations: a batch of relocations

    The relocations that one symbol is applied to are a row of entries, the last of them
    marked.  [ApplyRelocationBatch] patches the word of each, invalidates the cached
    instructions there, and marks the batch as resolved or not. *)
From S2P Require Import Prelude Result Ipc Cro CroMemory CroTables.

Local Open Scope Z_scope.

(** ** What a batch does to memory *)

(** Words patched into a map from addresses to bytes, one after the other. *)
Fixpoint patched (ps : list (Z * Z)) (v : Z -> Z) : Z -> Z :=
  match ps with
  | [] => v
  | (t, w) :: ps => patched ps (fun b => if decide (t <= b < t + 4) then nth (Z.to_nat (b - t)) (le32 w) 0 else v b)
  end.

(** The types that are implemented; those that patch a word. *)
Definition applicable (type : Z) : bool :=
  (type =? Nothing) || (type =? AbsoluteAddress) || (type =? AbsoluteAddress2) || (type =? RelativeAddress).

(** The value for a relocation of type [type] at [target]. *)
Definition relocated (type addend symbol target : Z) : Z :=
  if type =? RelativeAddress then u32 (symbol + addend - target) else u32 (symbol + addend).

Lemma patched_app ps qs v : patched (ps ++ qs) v = patched qs (patched ps v).
Proof. revert v. by induction ps as [|[t w] ps IH]; simpl. Qed.

Lemma patched_ext ps v v' b : (v b = v' b) -> patched ps v b = patched ps v' b.
Proof.
  revert v v'. induction ps as [|[t w] ps IH]; intros v v' E; [done|]. simpl. apply IH.
  by destruct (decide _).
Qed.

Lemma patched_other ps v b : Forall (fun p => ~ (p.1 <= b < p.1 + 4)) ps -> patched ps v b = v b.
Proof.
  revert v. induction ps as [|[t w] ps IH]; intros v Hf; [done|].
  apply Forall_cons in Hf as [Ht Hf]. simpl in *. rewrite IH by done. by rewrite decide_False.
Qed.

Lemma with_resolved_bytes v l : Forall is_u8 l -> length l = 12%nat ->
  relocation_bytes (with_resolved v (relocation_of_bytes l)) = <[6%nat := v]> l.
Proof.
  intros Hl Hn. unfold relocation_bytes, with_resolved, relocation_of_bytes.
  cbn [target_position relocation_type is_batch_end is_batch_resolved padding addend].
  rewrite !le32_u32_at by (auto; rewrite Hn; simpl; lia).
  repeat (destruct l as [|? l]; [discriminate Hn|]). by destruct l.
Qed.

Section Relocations.
Context {PageTable : Type} `{WordMemoryLaws PageTable}.
Variables (current process : PageTable) (owned : Z -> Prop).
Hypothesis FLAT : flat current process owned.

Notation view := (view process).
Notation bytes := (bytes process).
Notation range := (range owned).
Notation tag_address := (tag_address process).

Lemma patch_run t v s : range t 4 ->
  exists h', patch current t v s = Done (mkLinker h' ((t, 4) :: invalidated s)) tt /\
    wrote process owned t (le32 v) (host s) h'.
Proof. intros Hr. eexists. split; [reflexivity|]. by apply Write32_wrote. Qed.

(** The patches of a batch, in order. *)
Definition patch_of (h : Z -> Z) (cro symbol : Z) (e : RelocationEntry) : list (Z * Z) :=
  let t := tag_address h cro (target_position e) in
  if relocation_type e =? Nothing then []
  else [(t, relocated (relocation_type e) (addend e) symbol t)].

(** From [s] to [s'] exactly the words [ps] are patched, and invalidated. *)
Definition patches (ps : list (Z * Z)) (s s' : Linker) : Prop :=
  (forall b, owned b -> view (host s') b = patched ps (view (host s)) b) /\
  invalidated s' = rev ((fun p => (p.1, 4)) <$> ps) ++ invalidated s.

Lemma patches_refl s : patches [] s s.
Proof. done. Qed.

Lemma patches_trans ps qs s1 s2 s3 : patches ps s1 s2 -> patches qs s2 s3 -> patches (ps ++ qs) s1 s3.
Proof.
  intros [V1 I1] [V2 I2]. split.
  - intros b Hb. rewrite V2, patched_app by done. apply patched_ext. by apply V1.
  - rewrite I2, I1, fmap_app, rev_app_distr. by rewrite app_assoc.
Qed.

(** An entry that can be applied, with its word in memory. *)
Definition entry_applies (h : Z -> Z) (cro : Z) (e : RelocationEntry) : Prop :=
  let t := tag_address h cro (target_position e) in
  t <> 0 /\ applicable (relocation_type e) = true /\ (relocation_type e <> Nothing -> range t 4).

Lemma ApplyRelocation_run h cro symbol e s : entry_applies h cro e ->
  let t := tag_address h cro (target_position e) in
  exists s', ApplyRelocation current t (relocation_type e) (addend e) symbol t s = Done s' tt /\
    patches (patch_of h cro symbol e) s s'.
Proof.
  intros (Ht & Ha & Hr) t. unfold ApplyRelocation, patch_of, relocated. fold t.
  destruct (Z.eqb_spec (relocation_type e) Nothing) as [E|E]; [by exists s|].
  specialize (Hr E). fold t in Hr.
  assert (P : forall v, exists s', patch current t v s = Done s' tt /\ patches [(t, v)] s s').
  { intros v. destruct (patch_run t v s Hr) as (h' & Ep & W). eexists. split; [exact Ep|].
    split; [|done]. intros b Hb. by apply W. }
  unfold applicable in Ha. rewrite (proj2 (Z.eqb_neq _ Nothing)) in Ha by done.
  destruct (Z.eqb_spec (relocation_type e) RelativeAddress) as [Er|Er].
  - rewrite Er. cbn [orb Z.eqb]. apply P.
  - rewrite orb_false_r in Ha. simpl in Ha. rewrite Ha. apply P.
Qed.

(** ** A batch in memory *)

Definition batch_at (h : Z -> Z) (a : Z) (es : list RelocationEntry) : Prop :=
  forall i e, es !! i = Some e ->
    range (a + 12 * Z.of_nat i) 12 /\ Forall is_u8 (bytes h (a + 12 * Z.of_nat i) 12) /\
    relocation_of_bytes (bytes h (a + 12 * Z.of_nat i) 12) = e.

(** Only the last entry ends the batch. *)
Fixpoint ends (es : list RelocationEntry) : Prop :=
  match es with
  | [] => False
  | [e] => is_batch_end e <> 0
  | e :: es => is_batch_end e = 0 /\ ends es
  end.

Lemma batch_at_cons h a e es : batch_at h a (e :: es) <->
  (range a 12 /\ Forall is_u8 (bytes h a 12) /\ relocation_of_bytes (bytes h a 12) = e) /\ batch_at h (a + 12) es.
Proof.
  split.
  - intros B. split; [specialize (B O e eq_refl); by rewrite Z.mul_0_r, Z.add_0_r in B|].
    intros i e' E. specialize (B (S i) e' E). by replace (a + 12 + 12 * Z.of_nat i) with (a + 12 * Z.of_nat (S i)) by lia.
  - intros [B1 B2] [|i] e' E.
    + injection E as <-. by rewrite Z.mul_0_r, Z.add_0_r.
    + specialize (B2 i e' E). by replace (a + 12 * Z.of_nat (S i)) with (a + 12 + 12 * Z.of_nat i) by lia.
Qed.

Lemma read_relocation a s : range a 12 ->
  read_struct process RelocationEntry a s = Done s (relocation_of_bytes (bytes (host s) a 12)).
Proof. intros Hr. unfold read_struct, read. by rewrite (ReadBlock_view current process owned FLAT) by (simpl; lia || done). Qed.

(** The words that a batch patches avoid the module and the batch. *)
Definition clear_of (h : Z -> Z) (cro a n : Z) (e : RelocationEntry) : Prop :=
  let t := tag_address h cro (target_position e) in
  forall b, t <= b < t + 4 -> ~ module_byte process h cro b /\ ~ (a <= b < a + n).

(** The memory agrees with [h0] on the module and on the batch. *)
Definition undisturbed (h0 : Z -> Z) (cro start n : Z) (s : Linker) : Prop :=
  forall b, owned b -> module_byte process h0 cro b \/ start <= b < start + n -> view (host s) b = view h0 b.

Lemma undisturbed_module h0 cro start n s : header owned cro -> segments process owned h0 cro ->
  undisturbed h0 cro start n s ->
  segments process owned (host s) cro /\ forall tag, tag_address (host s) cro tag = tag_address h0 cro tag.
Proof.
  intros Hh Hs U.
  destruct (module_stable current process owned FLAT h0 (host s) cro Hh) as (Eb & En & Et).
  { intros b Hb. apply U; [by apply (module_byte_owned process owned h0 cro)|by left]. }
  split; [|done]. unfold segments, table. by rewrite Eb, En.
Qed.

Lemma undisturbed_patches h0 cro start n symbol e s s' :
  undisturbed h0 cro start n s -> clear_of h0 cro start n e ->
  patches (patch_of h0 cro symbol e) s s' -> undisturbed h0 cro start n s'.
Proof.
  intros U C [V _] b Hb Hp. rewrite V by done. rewrite patched_other; [by apply U|].
  unfold patch_of. destruct (_ =? _); [done|]. apply Forall_singleton. simpl. intros Hin.
  destruct (C b Hin) as [C1 C2]. tauto.
Qed.

(** One round of the loop. *)
Lemma apply_batch_step h0 cro symbol start n e es a s fuel :
  header owned cro -> segments process owned h0 cro -> undisturbed h0 cro start n s ->
  batch_at h0 a (e :: es) -> start <= a -> a + 12 <= start + n ->
  entry_applies h0 cro e -> clear_of h0 cro start n e ->
  exists s', patches (patch_of h0 cro symbol e) s s' /\ undisturbed h0 cro start n s' /\
    apply_batch current process (S fuel) cro a symbol s =
    (if negb (is_batch_end e =? 0) then ret tt
     else apply_batch current process fuel cro (u32 (a + sizeof_RelocationEntry)) symbol) s'.
Proof.
  intros Hh Hs U [(Hr & Hu & He) _]%batch_at_cons Ha Hn Ap C.
  assert (Eb : bytes (host s) a 12 = bytes h0 a 12).
  { apply bytes_agree. intros b Hb. apply U; [|right; lia]. replace b with (a + (b - a)) by lia.
    apply Hr. lia. }
  destruct (undisturbed_module h0 cro start n s Hh Hs U) as [Hs' Et].
  destruct (ApplyRelocation_run h0 cro symbol e s Ap) as (s' & Ea & P). exists s'.
  split; [done|]. split; [by eapply undisturbed_patches|]. cbn [apply_batch].
  erewrite bind_Done by (by apply read_relocation). rewrite Eb, He.
  erewrite bind_Done by (by apply (SegmentTagToAddress_run current process owned FLAT)). rewrite Et.
  rewrite (proj2 (Z.eqb_neq _ 0)) by apply Ap.
  by erewrite bind_Done by exact Ea.
Qed.

Lemma apply_batch_run h0 cro symbol start n : header owned cro -> segments process owned h0 cro ->
  forall es a s fuel, undisturbed h0 cro start n s ->
  batch_at h0 a es -> ends es -> start <= a -> a + 12 * Z.of_nat (length es) <= start + n ->
  Forall (entry_applies h0 cro) es -> Forall (clear_of h0 cro start n) es -> (length es <= fuel)%nat ->
  exists s', apply_batch current process fuel cro a symbol s = Done s' tt /\
    patches (es ≫= patch_of h0 cro symbol) s s' /\ undisturbed h0 cro start n s'.
Proof.
  intros Hh Hs es. induction es as [|e es IH]; intros a s fuel U B E Ha Hn Ap C Hf; [done|].
  apply Forall_cons in Ap as [Ae Ap]. apply Forall_cons in C as [Ce C].
  destruct fuel as [|fuel]; [simpl in Hf; lia|]. cbn [length] in Hn, Hf.
  destruct (apply_batch_step h0 cro symbol start n e es a s fuel) as (s1 & P1 & U1 & ->);
    [done|done|done|done|lia|lia|done|done|].
  destruct es as [|e' es].
  - exists s1. simpl in E. rewrite (proj2 (Z.eqb_neq _ 0)) by done. split; [done|].
    cbn. by rewrite app_nil_r.
  - destruct E as [E0 E]. rewrite E0. cbn [Z.eqb negb].
    apply batch_at_cons in B as [_ B].
    assert (Hu : u32 (a + sizeof_RelocationEntry) = a + 12).
    { unfold sizeof_RelocationEntry. apply u32_small. rewrite <-(Z.add_0_r (a + 12)).
      apply (flat_range _ _ _ FLAT). apply batch_at_cons in B as [(Hr & _) _]. apply Hr. lia. }
    rewrite Hu.
    destruct (IH (a + 12) s1 fuel) as (s2 & E2 & P2 & U2); [done|done|done|lia|lia|done|done|lia|].
    exists s2. split; [done|]. split; [|done].
    change ((e :: e' :: es) ≫= patch_of h0 cro symbol)
      with (patch_of h0 cro symbol e ++ ((e' :: es) ≫= patch_of h0 cro symbol)).
    by eapply patches_trans.
Qed.

(** Marking a batch changes one byte. *)
Lemma resolved_byte h a v b : range a 12 -> owned b -> Forall is_u8 (bytes h a 12) ->
  view (WriteBlock process h a (to_bytes (with_resolved v (relocation_of_bytes (bytes h a 12))))) b =
  if decide (b = a + 6) then v else view h b.
Proof.
  intros Hr Hb Hu.
  pose proof (WriteBlock_wrote current process owned FLAT h a
    (to_bytes (with_resolved v (relocation_of_bytes (bytes h a 12))))) as W.
  rewrite W; [|done|done|done]. clear W.
  change (Z.of_nat (length (to_bytes _))) with 12.
  destruct (decide (a <= b < a + 12)) as [Hin|Hout]; [|by rewrite decide_False by lia].
  change (to_bytes (with_resolved v (relocation_of_bytes (bytes h a 12))))
    with (relocation_bytes (with_resolved v (relocation_of_bytes (bytes h a 12)))).
  rewrite with_resolved_bytes by (done || by rewrite bytes_length).
  apply nth_lookup_Some. destruct (decide (b = a + 6)) as [->|Hne].
  - replace (Z.to_nat (a + 6 - a)) with 6%nat by lia. apply list_lookup_insert_eq.
    rewrite bytes_length. lia.
  - rewrite list_lookup_insert_ne by lia. unfold CroMemory.bytes.
    rewrite list_lookup_fmap, lookup_seqZ_lt by lia. cbn. do 2 f_equal. lia.
Qed.

(** C19: a batch whose entries are of the implemented types, with targets in segments that
    are neither the header, nor the segment table, nor the batch, is applied in order:
    every target word gets the symbol's address relocated for it, its cached instructions
    are invalidated, the batch is marked resolved, or unresolved by a reset, and no other
    byte changes. *)
Theorem ApplyRelocationBatch_applies cro a symbol reset es fuel s :
  header owned cro -> segments process owned (host s) cro ->
  symbol <> 0 \/ reset = true ->
  batch_at (host s) a es -> ends es ->
  Forall (entry_applies (host s) cro) es ->
  Forall (clear_of (host s) cro a (12 * Z.of_nat (length es))) es ->
  (length es <= fuel)%nat ->
  let ps := es ≫= patch_of (host s) cro symbol in
  exists s', ApplyRelocationBatch current process fuel cro a symbol reset s = Done s' tt /\
    invalidated s' = rev ((fun p => (p.1, 4)) <$> ps) ++ invalidated s /\
    forall b, owned b -> view (host s') b =
      if decide (b = a + 6) then (if reset then 0 else 1) else patched ps (view (host s)) b.
Proof.
  intros Hh Hs Hsym B E Ap C Hf ps. unfold ApplyRelocationBatch.
  assert (Hr : R_UNLESS (negb ((symbol =? 0) && negb reset)) (CROFormatError 16) s = Done s tt).
  { unfold R_UNLESS. destruct Hsym as [Hn| ->]; [by rewrite (proj2 (Z.eqb_neq _ 0))|by rewrite andb_false_r]. }
  erewrite bind_Done by exact Hr.
  destruct (apply_batch_run (host s) cro symbol a (12 * Z.of_nat (length es)) Hh Hs es a s fuel)
    as (s1 & E1 & [V1 I1] & U1); [by intros b|done|done|lia|lia|done|done|done|].
  erewrite bind_Done by exact E1.
  destruct es as [|e es]; [done|]. apply batch_at_cons in B as [(Hra & Hu8 & He) _].
  assert (Eb : bytes (host s1) a 12 = bytes (host s) a 12).
  { apply bytes_agree. intros b Hb. apply U1; [|right; simpl length; lia].
    replace b with (a + (b - a)) by lia. apply Hra. lia. }
  erewrite bind_Done by (by apply read_relocation).
  eexists. split; [reflexivity|]. split; [done|]. intros b Hb. cbn [host].
  rewrite (resolved_byte (host s1) a (if reset then 0 else 1) b); [|done|done|by rewrite Eb].
  case_decide; [done|]. by apply V1.
Qed.
End Relocations.
