(* ===== verification/CroRebase.v ===== *)
(** * CroRebase: a static module is unrebased to what it was

    Rebasing adds the address of the module to the offsets in its header and tables, and
    resets and applies relocations; unrebasing subtracts the address again.  Between the
    two everything outside of the relocated words comes back, byte for byte. *)
From S2P Require Import Prelude Result Ipc Cro CroMemory CroTables.

Local Open Scope Z_scope.

(** ** Runs that end *)

Lemma bind_inv {S A B} (m : op S A) (k : A -> op S B) s s' b :
  bind m k s = Done s' b -> exists s1 a, m s = Done s1 a /\ k a s1 = Done s' b.
Proof. unfold bind. destruct (m s) as [s1 a| |]; [|done|done]. eauto. Qed.

Lemma Done_inv {S A} (s s' : S) (a a' : A) : Done s a = Done s' a' -> s = s' /\ a = a'.
Proof. by injection 1. Qed.

(** A computation that does not change the state. *)
Definition reads {S A} (m : op S A) : Prop := forall s s' a, m s = Done s' a -> s' = s.

Lemma reads_ret {S A} (a : A) : reads (ret (S := S) a).
Proof. intros s s' b E. by injection E as <- _. Qed.

Lemma reads_bind {S A B} (m : op S A) (k : A -> op S B) :
  reads m -> (forall a, reads (k a)) -> reads (bind m k).
Proof.
  intros Hm Hk s s' b (s1 & a & E1 & E2)%bind_inv. apply Hm in E1 as ->. by apply (Hk a) in E2.
Qed.

Lemma reads_R_UNLESS {S} b rc : reads (R_UNLESS (S := S) b rc).
Proof. intros s s' a. unfold R_UNLESS. destruct b; [|done]. by injection 1. Qed.

Lemma R_UNLESS_inv {S} b rc (s s' : S) a : R_UNLESS b rc s = Done s' a -> b = true /\ s' = s.
Proof. unfold R_UNLESS. destruct b; [|done]. by injection 1. Qed.

Lemma reads_for_range {S} n i (body : Z -> op S unit) : (forall j, reads (body j)) -> reads (for_range n i body).
Proof.
  intros Hb. revert i. induction n as [|n IH]; intros i; [apply reads_ret|].
  apply reads_bind; [apply Hb|intros _; apply IH].
Qed.

Lemma reads_for_list {S A} (l : list A) (body : A -> op S unit) : (forall x, reads (body x)) -> reads (for_list l body).
Proof.
  intros Hb. induction l as [|x l IH]; [apply reads_ret|].
  apply reads_bind; [apply Hb|intros _; apply IH].
Qed.

Section Rebase.
Context {PageTable : Type} `{WordMemoryLaws PageTable}.
Variables (current process : PageTable) (owned : Z -> Prop).
Hypothesis FLAT : flat current process owned.

Notation view := (view process).
Notation bytes := (bytes process).
Notation field := (field process).
Notation range := (range owned).
Notation out := (same_outside process owned).
Notation base := (base process).
Notation entry := (entry process).
Notation table := (table process owned).

Lemma reads_GetField cro f : reads (GetField current cro f).
Proof. intros s s' a E. by injection E as <- _. Qed.

Lemma reads_GetEntry T `{!Entry T} cro i : reads (GetEntry current process T cro i).
Proof. apply reads_bind; [apply reads_GetField|]. intros a s s' b E. by injection E as <- _. Qed.

Lemma reads_table_bounds cro f g n : reads (table_bounds current cro f g n).
Proof. repeat (apply reads_bind; [apply reads_GetField|intros ?]). apply reads_ret. Qed.

Lemma reads_SegmentTagToAddress cro tag : reads (SegmentTagToAddress current process cro tag).
Proof.
  apply reads_bind; [apply reads_GetField|]. intros n. destruct (_ <=? _); [apply reads_ret|].
  apply reads_bind; [apply reads_GetEntry|]. intros e. destruct (_ <=? _); apply reads_ret.
Qed.

Lemma reads_verify_strings cro f g : reads (verify_strings current cro f g).
Proof.
  apply reads_bind; [apply reads_GetField|]. intros a. apply reads_bind; [apply reads_GetField|].
  intros n. unfold VerifyStringTableLength. destruct (_ =? 0); [apply reads_ret|].
  apply reads_bind; [|intros; apply reads_R_UNLESS]. intros s s' b E. by injection E as <- _.
Qed.

Lemma reads_VerifyExportTreeTable cro : reads (VerifyExportTreeTable current process cro).
Proof.
  apply reads_bind; [apply reads_GetField|]. intros n. apply reads_for_range. intros j.
  apply reads_bind; [apply reads_GetEntry|]. intros e. apply reads_R_UNLESS.
Qed.

(** ** Updating a table *)

(** What a check of an entry does: it gives the new entry or an error. *)
Definition checks {T} (f : T -> op Linker T) (g : T -> option T) : Prop :=
  forall e s s' e', f e s = Done s' e' -> s' = s /\ g e = Some e'.

(** The bytes of a table. *)
Definition table_byte (T : Type) `{!Entry T} (h : Z -> Z) (cro num b : Z) : Prop :=
  base T h cro <= b < base T h cro + num * sizeof T.

(** The table is neither in the header nor around the address space. *)
Definition placed (T : Type) `{!Entry T} (h : Z -> Z) (cro num : Z) : Prop :=
  0 <= num /\ table T h cro num /\ cro + CRO_HEADER_SIZE <= base T h cro.

Lemma field_out (R : Z -> Prop) h h' cro f : header owned cro -> 0 <= f < 46 -> out R h h' ->
  (forall b, R b -> cro + CRO_HEADER_SIZE <= b) -> field h' cro f = field h cro f.
Proof.
  intros Hh Hf O HR. apply (field_stable current process owned FLAT); [done|done|].
  intros b Hb. apply O; [|intros Hr; specialize (HR b Hr); lia].
  replace b with (cro + (b - cro)) by lia. apply Hh. lia.
Qed.

Lemma field_below h h' cro f : header owned cro -> 0 <= f < 46 ->
  out (fun b => cro + CRO_HEADER_SIZE <= b) h h' -> field h' cro f = field h cro f.
Proof. intros. by apply (field_out (fun b => cro + CRO_HEADER_SIZE <= b)). Qed.

Lemma out_weaken (R R' : Z -> Prop) h h' : out R h h' -> (forall b, R b -> R' b) -> out R' h h'.
Proof. intros O HR b Hb Hn. apply O; auto. Qed.

(** One entry written. *)
Lemma SetEntry_effect T `{!Entry T, !EntryShape T, !EntryLaws T} cro num i (e : T) s s' :
  header owned cro -> placed T (host s) cro num -> 0 <= i < num -> entry_ok e ->
  SetEntry current process cro i e s = Done s' tt ->
  wrote process owned (base T (host s) cro + i * sizeof T) (to_bytes e) (host s) (host s').
Proof.
  intros Hh (Hn & Ht & Hb) Hi He E.
  destruct (SetEntry_run current process owned FLAT T cro i num e s Hh Ht Hi He) as (h' & E' & W).
  rewrite E' in E. by injection E as <-.
Qed.

(** After the loop from [i] on: the entries from [i] on are replaced, the others kept. *)
Definition updated (T : Type) `{!Entry T} (g : T -> option T) (cro i num : Z) (h h' : Z -> Z) : Prop :=
  out (table_byte T h cro num) h h' /\
  forall j, 0 <= j < num ->
    if decide (i <= j) then
      exists e', g (entry T h cro j) = Some e' /\ entry_bytes process T h' cro j = to_bytes e'
    else entry_bytes process T h' cro j = entry_bytes process T h cro j.

Lemma base_out T `{!Entry T, !EntryShape T} h h' cro num : header owned cro -> placed T h cro num ->
  out (table_byte T h cro num) h h' -> base T h' cro = base T h cro.
Proof.
  intros Hh (_ & _ & Hb) O. apply (field_out (table_byte T h cro num)); [done|apply table_field|done|].
  intros b Hr. unfold table_byte in Hr. lia.
Qed.

(** Memory holds bytes. *)
Definition all_u8 (h : Z -> Z) : Prop := forall b, owned b -> is_u8 (view h b).

Lemma bytes_u8 h a n : all_u8 h -> range a n -> Forall is_u8 (bytes h a n).
Proof.
  intros U Hr. apply Forall_forall. intros x (b & -> & Hb)%list_elem_of_fmap.
  apply elem_of_seqZ in Hb. apply U. replace b with (a + (b - a)) by lia. apply Hr. lia.
Qed.

Lemma wrote_u8 h h' a l : all_u8 h -> Forall is_u8 l -> wrote process owned a l h h' -> all_u8 h'.
Proof.
  intros U Hl W b Hb. rewrite W by done. case_decide as Hin; [|by apply U].
  apply (proj1 (Forall_nth is_u8 0 l) Hl). lia.
Qed.

Lemma entry_bytes_ok T `{!Entry T, !EntryShape T} h cro num j : all_u8 h ->
  placed T h cro num -> 0 <= j < num ->
  Forall is_u8 (entry_bytes process T h cro j) /\ length (entry_bytes process T h cro j) = Z.to_nat (sizeof T).
Proof.
  intros U (_ & Ht & _) Hj. split; [|apply bytes_length].
  apply bytes_u8; [done|]. apply (entry_range current process owned FLAT T h cro num j); [apply sizeof_range|done|done].
Qed.

Lemma entry_bytes_wrote T `{!Entry T, !EntryShape T} h h' cro num i j l :
  header owned cro -> placed T h cro num -> 0 <= i < num -> 0 <= j < num ->
  Z.of_nat (length l) = sizeof T ->
  wrote process owned (base T h cro + i * sizeof T) l h h' ->
  out (table_byte T h cro num) h h' /\ base T h' cro = base T h cro /\
  entry_bytes process T h' cro j = if decide (j = i) then l else entry_bytes process T h cro j.
Proof.
  intros Hh Hp Hi Hj Hl W. pose proof (sizeof_range (T := T)) as Hs.
  assert (Ho : out (table_byte T h cro num) h h').
  { eapply wrote_outside; [exact W|]. intros b Hb. unfold table_byte. nia. }
  assert (Eb : base T h' cro = base T h cro) by (by apply (base_out T h h' cro num)).
  split; [done|]. split; [done|]. unfold entry_bytes. rewrite Eb.
  assert (Hr : forall k, 0 <= k < num -> range (base T h cro + k * sizeof T) (sizeof T))
    by (intros k Hk; apply (entry_range current process owned FLAT T h cro num k); [apply Hs|apply Hp|done]).
  case_decide as E.
  - subst j. pose proof (wrote_same process owned _ _ _ _ W) as E'. rewrite Hl in E'. by apply E', Hr.
  - apply (wrote_other process owned (base T h cro + i * sizeof T) l); [done|by apply Hr|]. nia.
Qed.

Lemma update_loop T `{!Entry T, !EntryShape T, !EntryLaws T} cro num f g :
  header owned cro -> checks f g -> (forall e e', entry_ok e -> g e = Some e' -> entry_ok e') ->
  forall n i s s' u, all_u8 (host s) -> placed T (host s) cro num -> 0 <= i -> i + Z.of_nat n = num ->
  for_range n i (fun i => (entry <- GetEntry current process T cro i ;;
    entry <- f entry ;; SetEntry current process cro i entry)%hle) s = Done s' u ->
  updated T g cro i num (host s) (host s') /\ all_u8 (host s').
Proof.
  intros Hh Hf Hg n. induction n as [|n IH]; intros i s s' u U Hp Hi Hin E.
  { injection E as <- _. split; [|done]. split; [done|]. intros j Hj. by rewrite decide_False by lia. }
  cbn [for_range] in E. apply bind_inv in E as (s1 & [] & E1 & E2).
  apply bind_inv in E1 as (s0 & e & Ee & E1).
  rewrite (GetEntry_run current process owned FLAT T cro i num) in Ee by (done || apply Hp || lia).
  injection Ee as <- <-. apply bind_inv in E1 as (s0 & e' & Ef & E1).
  apply Hf in Ef as [-> Eg].
  destruct (entry_bytes_ok T (host s) cro num i U Hp ltac:(lia)) as [Hbu Hbl].
  assert (Hok : entry_ok e') by (eapply Hg; [by apply of_bytes_ok|exact Eg]).
  destruct (to_bytes_ok e' Hok) as [Htu Htl].
  pose proof (SetEntry_effect T cro num i e' s s1 Hh Hp ltac:(lia) Hok E1) as W.
  assert (Hl : Z.of_nat (length (to_bytes e')) = sizeof T)
    by (rewrite Htl, Z2Nat.id; [done|apply Z.lt_le_incl, sizeof_range]).
  assert (Hw : forall j, 0 <= j < num -> _) by (intros j Hj; exact (entry_bytes_wrote T _ _ cro num i j _ Hh Hp ltac:(lia) Hj Hl W)).
  destruct (Hw i ltac:(lia)) as (O1 & Eb & _).
  assert (Hp1 : placed T (host s1) cro num) by (destruct Hp as (?&?&?); unfold placed, table; by rewrite Eb).
  destruct (IH (i + 1) s1 s' u) as [[O2 Hj2] U2]; [by eapply wrote_u8|done|lia|lia|done|].
  split; [|done]. split.
  - eapply same_outside_trans; [exact O1|]. eapply out_weaken; [exact O2|]. unfold table_byte. by rewrite Eb.
  - intros j Hj. specialize (Hj2 j Hj). destruct (Hw j Hj) as (_ & _ & Ej).
    assert (Een : j <> i -> entry T (host s1) cro j = entry T (host s) cro j)
      by (intros Hne; unfold entry; rewrite Ej; by rewrite decide_False).
    destruct (decide (i + 1 <= j)); [|destruct (decide (j = i)) as [->|]].
    + rewrite decide_True by lia. rewrite <-Een by lia. exact Hj2.
    + rewrite decide_True by lia. exists e'. split; [exact Eg|congruence].
    + rewrite decide_False by lia. congruence.
Qed.

(** The whole table. *)
Lemma update_table_effect T `{!Entry T, !EntryShape T, !EntryLaws T} cro num f g s s' u :
  header owned cro -> checks f g -> (forall e e', entry_ok e -> g e = Some e' -> entry_ok e') ->
  all_u8 (host s) -> placed T (host s) cro num ->
  update_table current process cro num f s = Done s' u ->
  updated T g cro 0 num (host s) (host s') /\ all_u8 (host s').
Proof.
  intros Hh Hf Hg U Hp E. eapply update_loop; try done. rewrite Z2Nat.id; [done|apply Hp].
Qed.

(** ** Relocations stay where they are allowed *)

(** The words that relocations of [cro] may patch are in [R], which leaves the header and
    the segment table of the module alone; so is the table of external relocations.  The
    table of internal relocations is in place. *)
Record patchable (R : Z -> Prop) (h : Z -> Z) (cro : Z) : Prop := {
  patch_targets tag : 0 <= tag -> tag_address process h cro tag <> 0 ->
    forall b, tag_address process h cro tag <= b < tag_address process h cro tag + 4 -> owned b /\ R b;
  patch_apart b : R b -> ~ module_byte process h cro b;
  patch_segments : segments process owned h cro;
  patch_table : placed RelocationEntry h cro (field h cro ExternalRelocationNum);
  patch_table_in b : table_byte RelocationEntry h cro (field h cro ExternalRelocationNum) b -> R b;
  patch_internal : CroTables.table process owned InternalRelocationEntry h cro (field h cro InternalRelocationNum)
}.

(** [s] agrees with [h] outside of [R]. *)
Definition agrees (R : Z -> Prop) (h : Z -> Z) (s : Linker) : Prop := out R h (host s) /\ all_u8 (host s).

Lemma agrees_module R h cro s : header owned cro -> patchable R h cro -> agrees R h s ->
  (forall f, 0 <= f < 46 -> field (host s) cro f = field h cro f) /\
  segments process owned (host s) cro /\
  forall tag, tag_address process (host s) cro tag = tag_address process h cro tag.
Proof.
  intros Hh P [O _].
  assert (E : forall b, module_byte process h cro b -> view (host s) b = view h b).
  { intros b Hb. apply O; [|intros Hr; by apply (patch_apart _ _ _ P b Hr)].
    destruct Hb as [Hb|Hb].
    - replace b with (cro + (b - cro)) by lia. apply Hh. lia.
    - replace b with (base SegmentEntry h cro + (b - base SegmentEntry h cro)) by lia.
      apply (patch_segments _ _ _ P). lia. }
  destruct (module_stable current process owned FLAT h (host s) cro Hh E) as (Eb & En & Et).
  split; [|split; [|done]].
  - intros f Hf. apply (field_stable current process owned FLAT); [done|done|]. intros b Hb. apply E. by left.
  - unfold segments, CroTables.table. rewrite Eb, En. apply P.
Qed.

Lemma agrees_wrote R h s s' a l : agrees R h s -> Forall is_u8 l ->
  wrote process owned a l (host s) (host s') -> (forall b, a <= b < a + Z.of_nat (length l) -> R b) ->
  agrees R h s'.
Proof.
  intros [O U] Hl W HR. split; [|by eapply wrote_u8].
  eapply same_outside_trans; [exact O|]. by eapply wrote_outside.
Qed.

Lemma patch_agrees R h t v s s' u : agrees R h s ->
  (forall b, t <= b < t + 4 -> owned b /\ R b) -> patch current t v s = Done s' u -> agrees R h s'.
Proof.
  intros A Ht E. injection E as <- _. eapply agrees_wrote; [exact A|apply (le32_u8 v)| |].
  - apply (Write32_wrote current process owned FLAT). intros i Hi. apply Ht. lia.
  - intros b Hb. apply Ht. simpl in Hb. lia.
Qed.

Lemma ApplyRelocation_agrees R h t type addend symbol future s s' u : agrees R h s ->
  (forall b, t <= b < t + 4 -> owned b /\ R b) ->
  ApplyRelocation current t type addend symbol future s = Done s' u -> agrees R h s'.
Proof.
  intros A Ht. unfold ApplyRelocation. destruct (_ =? Nothing); [by injection 1 as <- _|].
  destruct (_ || _); [by apply patch_agrees|]. destruct (_ =? RelativeAddress); [by apply patch_agrees|].
  by destruct (unimplemented type).
Qed.

Lemma SegmentTag_inv R h cro tag s s' t : header owned cro -> patchable R h cro -> agrees R h s ->
  SegmentTagToAddress current process cro tag s = Done s' t -> s' = s /\ t = tag_address process h cro tag.
Proof.
  intros Hh P A E. destruct (agrees_module R h cro s Hh P A) as (_ & Hs & Et).
  rewrite (SegmentTagToAddress_run current process owned FLAT) in E by done.
  injection E as <- <-. by rewrite Et.
Qed.

Lemma external_agrees R h cro apply : header owned cro -> patchable R h cro ->
  (forall t e s s' u, agrees R h s -> (forall b, t <= b < t + 4 -> owned b /\ R b) ->
     apply t e s = Done s' u -> agrees R h s') ->
  forall n i b s s' u, 0 <= i -> i + Z.of_nat n <= field h cro ExternalRelocationNum -> agrees R h s ->
  external_relocations current process n i b cro apply s = Done s' u -> agrees R h s'.
Proof.
  intros Hh P Hap n. induction n as [|n IH]; intros i b s s' u Hi Hn A E; [by injection E as <- _|].
  cbn [external_relocations] in E.
  assert (T : forall s, agrees R h s -> base RelocationEntry (host s) cro = base RelocationEntry h cro /\
    placed RelocationEntry (host s) cro (field h cro ExternalRelocationNum)).
  { intros s0 A0. destruct (agrees_module R h cro s0 Hh P A0) as (Ef & _).
    assert (Eb : base RelocationEntry (host s0) cro = base RelocationEntry h cro) by (by apply Ef).
    split; [done|]. unfold placed, CroTables.table. rewrite Eb. apply P. }
  destruct (T s A) as [_ Tp].
  assert (Hir : 0 <= i < field h cro ExternalRelocationNum) by lia.
  apply bind_inv in E as (s0 & e & E1 & E).
  rewrite (GetEntry_run current process owned FLAT RelocationEntry cro i (field h cro ExternalRelocationNum)) in E1
    by (done || apply Tp || lia).
  injection E1 as <- <-. set (e := entry RelocationEntry (host s) cro i) in *.
  assert (Hok : entry_ok e).
  { destruct (entry_bytes_ok RelocationEntry (host s) cro _ i (proj2 A) Tp Hir). by apply of_bytes_ok. }
  apply bind_inv in E as (s0 & t & E1 & E). apply (SegmentTag_inv R h) in E1 as [-> ->]; [|done|done|done].
  apply bind_inv in E as (s0 & ? & [Ht ->]%R_UNLESS_inv & E).
  apply negb_true_iff, Z.eqb_neq in Ht.
  apply bind_inv in E as (s1 & ? & E1 & E).
  assert (A1 : agrees R h s1) by (eapply Hap; [exact A| |exact E1]; intros; apply (patch_targets R h cro P (target_position e)); [apply Hok|done|done]).
  apply bind_inv in E as (s2 & [] & E2 & E).
  assert (A2 : agrees R h s2).
  { destruct b; [|by injection E2 as <-]. destruct (T s1 A1) as [Eb Tp1].
    assert (Hok' : entry_ok (with_resolved 0 e)) by (destruct Hok as (?&?&?&?&?&?); by split_and!).
    pose proof (SetEntry_effect RelocationEntry cro (field h cro ExternalRelocationNum) i _ s1 s2 Hh Tp1 Hir Hok' E2) as W.
    eapply agrees_wrote; [exact A1|by apply to_bytes_ok|exact W|]. intros b Hb.
    apply (patch_table_in R h cro P). unfold table_byte. rewrite Eb in Hb. simpl in *. lia. }
  eapply IH; [| |exact A2|exact E]; lia.
Qed.

Lemma ResetExternalRelocations_agrees R h cro s s' u : header owned cro -> patchable R h cro ->
  agrees R h s -> ResetExternalRelocations current process cro s = Done s' u -> agrees R h s'.
Proof.
  intros Hh P A E. destruct (agrees_module R h cro s Hh P A) as (Ef & _).
  unfold ResetExternalRelocations in E.
  apply bind_inv in E as (s0 & sym & E1 & E).
  assert (s0 = s) as ->.
  { apply bind_inv in E1 as (s1 & tag & E1 & E2). apply reads_GetField in E1 as ->.
    by apply reads_SegmentTagToAddress in E2. }
  clear E1.
  apply bind_inv in E as (s0 & n & E1 & E).
  rewrite (GetField_run current process owned FLAT) in E1 by done. injection E1 as <- <-.
  apply bind_inv in E as (s0 & e & E1 & E). apply reads_GetEntry in E1 as ->.
  apply bind_inv in E as (s0 & ? & [_ ->]%R_UNLESS_inv & E).
  rewrite Ef in E by done. pose proof (proj1 (patch_table R h cro P)) as H0.
  refine (external_agrees R h cro _ Hh P _ _ 0 _ s s' u _ _ A E); [|lia|rewrite Z2Nat.id; lia].
  intros t e' s1 s1' u' A1 Ht E1. by eapply ApplyRelocation_agrees.
Qed.

(** Targets in a .data segment are patched where that segment was before. *)
Definition patchable_data (R : Z -> Prop) (h : Z -> Z) (cro old : Z) : Prop := forall tag,
  0 <= tag -> tag_address process h cro tag <> 0 ->
  seg_type (entry SegmentEntry h cro (segment_index tag)) = Data ->
  forall b, u32 (old + offset_into_segment tag) <= b < u32 (old + offset_into_segment tag) + 4 -> owned b /\ R b.

Lemma agrees_segment R h cro s i : header owned cro -> patchable R h cro -> agrees R h s ->
  0 <= i < segment_num process h cro -> entry SegmentEntry (host s) cro i = entry SegmentEntry h cro i.
Proof.
  intros Hh P A Hi. destruct (agrees_module R h cro s Hh P A) as (Ef & _).
  assert (Eb : base SegmentEntry (host s) cro = base SegmentEntry h cro) by (by apply Ef).
  unfold CroTables.entry, entry_bytes. rewrite Eb. f_equal. apply bytes_agree. intros b Hb. apply A.
  - apply (module_byte_owned process owned h cro b Hh (patch_segments _ _ _ P)). right. simpl sizeof in *. lia.
  - intros Hr. apply (patch_apart _ _ _ P b Hr). right. simpl sizeof in *. lia.
Qed.

Lemma tag_segment h cro tag : tag_address process h cro tag <> 0 ->
  0 <= segment_index tag < segment_num process h cro.
Proof.
  unfold tag_address. intros Ht. split; [apply Z.land_nonneg; right; lia|].
  destruct (Z.leb_spec (segment_num process h cro) (segment_index tag)); [done|lia].
Qed.

Lemma for_range_agrees R h (body : Z -> op Linker unit) :
  forall n i, (forall j s s' u, i <= j < i + Z.of_nat n -> agrees R h s -> body j s = Done s' u -> agrees R h s') ->
  forall s s' u, agrees R h s -> for_range n i body s = Done s' u -> agrees R h s'.
Proof.
  intros n. induction n as [|n IH]; intros i Hb s s' u A E; [by injection E as <- _|].
  apply bind_inv in E as (s1 & ? & E1 & E). eapply IH; [| |exact E].
  - intros j ? ? ? Hj. apply Hb. lia.
  - eapply Hb; [|exact A|exact E1]. lia.
Qed.

(** An internal relocation, read from a memory that agrees with [h]. *)
Lemma internal_tag R h cro i s s' e : header owned cro -> patchable R h cro -> agrees R h s ->
  0 <= i < field h cro InternalRelocationNum ->
  GetEntry current process InternalRelocationEntry cro i s = Done s' e -> s' = s /\ 0 <= ir_target_position e.
Proof.
  intros Hh P A Hi E. destruct (agrees_module R h cro s Hh P A) as (Ef & _).
  assert (Tp : CroTables.table process owned InternalRelocationEntry (host s) cro (field h cro InternalRelocationNum)).
  { unfold CroTables.table, CroTables.base. rewrite Ef by done. apply P. }
  rewrite (GetEntry_run current process owned FLAT InternalRelocationEntry cro i (field h cro InternalRelocationNum)) in E
    by done.
  apply Done_inv in E as [<- <-]. split; [done|].
  destruct (entry_range current process owned FLAT InternalRelocationEntry (host s) cro _ i ltac:(done) Tp Hi) as [Hr _].
  apply (u32_at_u32 _ 0).
  - by apply bytes_u8; [apply A|].
  - unfold entry_bytes. rewrite bytes_length. simpl. lia.
Qed.

Lemma ApplyInternalRelocations_agrees R h cro old s s' u : header owned cro -> patchable R h cro ->
  patchable_data R h cro old -> agrees R h s ->
  ApplyInternalRelocations current process cro old s = Done s' u -> agrees R h s'.
Proof.
  intros Hh P Pd A E.
  apply bind_inv in E as (s0 & num & E1 & E). apply reads_GetField in E1 as ->.
  apply bind_inv in E as (s0 & n & E1 & E).
  rewrite (GetField_run current process owned FLAT) in E1 by done. apply Done_inv in E1 as [<- <-].
  rewrite (proj1 (agrees_module R h cro s Hh P A)) in E by done.
  eapply for_range_agrees; [|exact A|exact E]. clear A E s s' u. intros i s s' u Hi A E.
  apply bind_inv in E as (s0 & e & E1 & E). apply (internal_tag R h) in E1 as [-> He]; [|done..|lia].
  apply bind_inv in E as (s0 & t & E1 & E). apply (SegmentTag_inv R h) in E1 as [-> ->]; [|done|done|done].
  apply bind_inv in E as (s0 & ? & [Ht ->]%R_UNLESS_inv & E). apply negb_true_iff, Z.eqb_neq in Ht.
  clear Hi. pose proof (tag_segment h cro _ Ht) as Hi.
  apply bind_inv in E as (s0 & seg & E1 & E).
  destruct (agrees_module R h cro s Hh P A) as (Ef & Hs & _).
  rewrite (GetEntry_run current process owned FLAT SegmentEntry cro _ (segment_num process h cro)) in E1.
  2: done. 3: done.
  2: { unfold segments, segment_num in Hs. rewrite Ef in Hs by done. exact Hs. }
  apply Done_inv in E1 as [<- <-]. rewrite (agrees_segment R h cro s _ Hh P A Hi) in E.
  apply bind_inv in E as (s0 & ? & [_ ->]%R_UNLESS_inv & E).
  apply bind_inv in E as (s0 & sym & E1 & E). apply reads_GetEntry in E1 as ->.
  eapply ApplyRelocation_agrees; [exact A| |exact E].
  destruct (Z.eqb_spec (seg_type (entry SegmentEntry h cro (segment_index (ir_target_position e)))) Data) as [Ed|Ed].
  - by apply Pd.
  - by apply (patch_targets R h cro P).
Qed.

(** ** The header *)

(** The bytes of the header fields. *)
Definition header_byte (cro b : Z) : Prop := cro + 128 <= b < cro + CRO_HEADER_SIZE.

(** A memory whose header fields are those of [h], changed by [F]. *)
Definition header_is (F : HeaderField -> Z -> Z) (cro : Z) (h h' : Z -> Z) : Prop :=
  out (header_byte cro) h h' /\
  forall f, 0 <= f < 46 -> field h' cro f = F f (field h cro f).

Lemma SetField_header cro f v h : header owned cro -> 0 <= f < 46 -> is_u32 v -> all_u8 h ->
  let h' := Write32 current h (Field cro f) v in
  header_is (fun f' x => if f' =? f then v else x) cro h h' /\ all_u8 h'.
Proof.
  intros Hh Hf Hv U h'. pose proof (SetField_wrote current process owned FLAT cro f v h Hh Hf) as W.
  split; [split|].
  - eapply wrote_outside; [exact W|]. rewrite (Field_at current process owned FLAT) by done.
    intros b Hb. simpl in Hb. unfold header_byte, CRO_HEADER_SIZE. lia.
  - intros f' Hf'. rewrite (field_wrote current process owned FLAT cro f v h h' cro f') by auto.
    destruct (Z.eqb_spec f' f) as [->|Hne]; [by rewrite decide_True|]. rewrite decide_False; [done|]. by intros [_ ?].
  - eapply wrote_u8; [exact U|apply (le32_u8 v)|exact W].
Qed.

Lemma header_is_trans F G cro h1 h2 h3 :
  header_is F cro h1 h2 -> header_is G cro h2 h3 -> header_is (fun f x => G f (F f x)) cro h1 h3.
Proof.
  intros [O1 E1] [O2 E2]. split; [by eapply same_outside_trans|]. intros f Hf. by rewrite E2, E1.
Qed.

Lemma header_is_ext F G cro h h' : header_is F cro h h' ->
  (forall f, 0 <= f < 46 -> F f (field h cro f) = G f (field h cro f)) -> header_is G cro h h'.
Proof. intros [O E] Ef. split; [done|]. intros f Hf. by rewrite E, Ef. Qed.

Lemma field_u32 h cro f : header owned cro -> 0 <= f < 46 -> all_u8 h -> is_u32 (field h cro f).
Proof.
  intros Hh Hf U. apply le_value_u32; [|by apply bytes_length].
  apply bytes_u8; [done|]. by apply (Field_range current process owned FLAT).
Qed.

(** Fields that are equal are equal bytes. *)
Lemma header_byte_restored cro h h' : header owned cro -> all_u8 h -> all_u8 h' ->
  (forall f, 0 <= f < 46 -> field h' cro f = field h cro f) -> forall b, header_byte cro b -> view h' b = view h b.
Proof.
  intros Hh U U' E b Hin. unfold header_byte, CRO_HEADER_SIZE in Hin.
  set (f := (b - cro - 128) / 4). set (k := (b - cro - 128) mod 4).
  assert (Hf : 0 <= f < 46) by (unfold f; zlia). assert (Hk : 0 <= k < 4) by (unfold k; zlia).
  assert (Eb : b = Field cro f + k) by (rewrite (Field_at current process owned FLAT) by done; unfold f, k; zlia).
  assert (Hr : range (Field cro f) 4) by (by apply (Field_range current process owned FLAT)).
  assert (Ebytes : bytes h' (Field cro f) 4 = bytes h (Field cro f) 4).
  { rewrite <-(proj2 (le_value_u32 (bytes h' (Field cro f) 4) (bytes_u8 _ _ _ U' Hr) (bytes_length _ _ _ _))).
    rewrite <-(proj2 (le_value_u32 (bytes h (Field cro f) 4) (bytes_u8 _ _ _ U Hr) (bytes_length _ _ _ _))).
    f_equal. by apply E. }
  assert (Hn : forall g, bytes g (Field cro f) 4 !! Z.to_nat k = Some (view g b)).
  { intros g. unfold CroMemory.bytes. rewrite list_lookup_fmap, lookup_seqZ_lt by lia.
    cbn. do 2 f_equal. rewrite Eb. lia. }
  pose proof (Hn h') as H1. rewrite Ebytes, Hn in H1. by injection H1.
Qed.

(** One header field replaced by a value computed from it. *)
Definition changes_field (v : Z -> Z) (cro : Z) (body : HeaderField -> op Linker unit) : Prop :=
  forall f s, 0 <= f < 46 -> all_u8 (host s) -> exists s', body f s = Done s' tt /\
    header_is (fun f' x => if f' =? f then v x else x) cro (host s) (host s') /\ all_u8 (host s').

Lemma for_list_header v cro body (l : list HeaderField) : changes_field v cro body -> NoDup l -> Forall (fun f => 0 <= f < 46) l ->
  forall s, all_u8 (host s) -> exists s', for_list l body s = Done s' tt /\
    header_is (fun f x => if bool_decide (f ∈ l) then v x else x) cro (host s) (host s') /\ all_u8 (host s').
Proof.
  intros Hb Hnd Hl. induction l as [|f l IH]; intros s U.
  - exists s. split; [done|]. split; [|done]. by split.
  - apply NoDup_cons in Hnd as [Hf Hnd]. apply Forall_cons in Hl as [Hf0 Hl].
    destruct (Hb f s Hf0 U) as (s1 & E1 & H1 & U1). destruct (IH Hnd Hl s1 U1) as (s2 & E2 & H2 & U2).
    exists s2. split; [cbn [for_list]; by erewrite bind_Done|]. split; [|done].
    eapply header_is_ext; [by eapply header_is_trans|]. intros f' _. cbn.
    destruct (Z.eqb_spec f' f) as [->|Hne].
    + rewrite bool_decide_eq_false_2 by done. rewrite bool_decide_eq_true_2 by left. done.
    + repeat case_bool_decide; set_solver.
Qed.

Definition rebase_val (cro x : Z) : Z := if x =? 0 then 0 else u32 (x + cro).

Lemma set_field_changes v cro (body : HeaderField -> op Linker unit) : header owned cro ->
  (forall x, is_u32 (v x) \/ v x = x) ->
  (forall f s, 0 <= f < 46 -> body f s =
     (if field (host s) cro f =? 0 then ret tt else SetField current cro f (v (field (host s) cro f))) s) ->
  v 0 = 0 -> (forall x, is_u32 x -> is_u32 (v x)) -> changes_field v cro body.
Proof.
  intros Hh _ Hb H0 Hv f s Hf U. rewrite Hb by done.
  destruct (Z.eqb_spec (field (host s) cro f) 0) as [E|E].
  - exists s. split; [done|]. split; [|done]. split; [done|]. intros f' Hf'.
    destruct (Z.eqb_spec f' f) as [->|]; [|done]. by rewrite E, H0.
  - eexists. split; [apply SetField_run|]. cbn [host].
    destruct (SetField_header cro f (v (field (host s) cro f)) (host s) Hh Hf) as [Hd U1];
      [by apply Hv, field_u32|done|].
    split; [|done]. eapply header_is_ext; [exact Hd|]. intros f' _. cbn.
    by destruct (Z.eqb_spec f' f) as [->|].
Qed.

Lemma rebase_field_changes cro : header owned cro -> changes_field (rebase_val cro) cro (rebase_field current cro).
Proof.
  intros Hh. apply set_field_changes; try done.
  - intros x. unfold rebase_val. destruct (Z.eqb_spec x 0); [by right|left; apply u32_range].
  - intros f s Hf. unfold rebase_field. erewrite bind_Done by (by apply (GetField_run current process owned FLAT)).
    unfold rebase_val. by destruct (Z.eqb_spec (field (host s) cro f) 0).
  - intros x Hx. unfold rebase_val. destruct (_ =? 0); [done|apply u32_range].
Qed.

Lemma unrebase_field_changes cro : header owned cro -> changes_field (unrebased cro) cro (unrebase_field current cro).
Proof.
  intros Hh. apply set_field_changes; try done.
  - intros x. unfold unrebased. destruct (Z.eqb_spec x 0); [by right|left; apply u32_range].
  - intros f s Hf. unfold unrebase_field. erewrite bind_Done by (by apply (GetField_run current process owned FLAT)).
    unfold unrebased. by destruct (Z.eqb_spec (field (host s) cro f) 0).
  - intros x Hx. unfold unrebased. destruct (_ =? 0); [done|apply u32_range].
Qed.

Lemma unrebased_rebase_val cro x : 0 <= cro -> is_u32 x -> x = 0 \/ x + cro < 4294967296 ->
  unrebased cro (rebase_val cro x) = x.
Proof.
  unfold unrebased, rebase_val, is_u32. intros Hc Hx Hs.
  destruct (Z.eqb_spec x 0) as [->|Hne]; [done|].
  rewrite (u32_small (x + cro)) by (unfold is_u32; lia).
  rewrite (proj2 (Z.eqb_neq (x + cro) 0)) by lia. rewrite u32_small; unfold is_u32; lia.
Qed.

(** The fields that are rebased. *)
Definition rebased_fields : list HeaderField := NameOffset :: offset_fields.

Lemma GetField_inv cro f s s' v : header owned cro -> 0 <= f < 46 ->
  GetField current cro f s = Done s' v -> s' = s /\ v = field (host s) cro f.
Proof.
  intros Hh Hf E. rewrite (GetField_run current process owned FLAT) in E by done.
  by apply Done_inv in E as [<- <-].
Qed.

(** A field read, and a check passed, at the head of a run that ended. *)
Ltac get_field E :=
  let H := fresh in
  apply bind_inv in E as (? & ? & H & E);
  eapply GetField_inv in H as [-> ->]; [|eassumption|done].
Ltac check_ok E :=
  let H := fresh "Hcheck" in
  apply bind_inv in E as (? & ? & [H ->]%R_UNLESS_inv & E).

Lemma verify_order_inv cro l last_ : header owned cro -> Forall (fun f => 0 <= f < 46) (l ++ [last_]) ->
  forall prev s s' u, verify_order current cro prev (l ++ [last_]) s = Done s' u ->
  s' = s /\ prev <= field (host s) cro last_ /\
  forall f, f ∈ l -> prev <= field (host s) cro f <= field (host s) cro last_.
Proof.
  intros Hh. induction l as [|f l IH]; intros Hl prev s s' u E; cbn [app verify_order] in E;
    apply Forall_cons in Hl as [Hf Hl];
    apply bind_inv in E as (s0 & v & E1 & E);
    rewrite (GetField_run current process owned FLAT) in E1 by done; apply Done_inv in E1 as [<- <-];
    apply bind_inv in E as (s0 & ? & [Hv ->]%R_UNLESS_inv & E);
    apply negb_true_iff, Z.ltb_ge in Hv.
  - apply Done_inv in E as [-> _]. split; [done|]. split; [done|]. by intros f ?%elem_of_nil.
  - destruct (IH Hl _ _ _ _ E) as (-> & H1 & H2). split; [done|]. split; [lia|].
    intros f' [->|Hin]%elem_of_cons; [lia|]. specialize (H2 f' Hin). lia.
Qed.

(** What a header has to satisfy to be rebased, and what becomes of it. *)
Lemma RebaseHeader_inv cro cro_size s s' u : header owned cro -> all_u8 (host s) ->
  RebaseHeader current cro cro_size s = Done s' u ->
  let F := field (host s) cro in
  F NextCRO = 0 /\ F PreviousCRO = 0 /\ F FixedSize = 0 /\ F FileSize <= 0x10000000 /\
  (forall f, f ∈ offset_fields -> CRO_HEADER_SIZE <= F f <= F FileSize) /\
  header_is (fun f x => if bool_decide (f ∈ rebased_fields) then rebase_val cro x else x) cro (host s) (host s') /\
  all_u8 (host s').
Proof.
  intros Hh U E F.
  unfold RebaseHeader in E.
  do 3 (get_field E; check_ok E). do 3 (get_field E; check_ok E). get_field E. check_ok E.
  get_field E. apply bind_inv in E as (s0 & ? & E1 & E).
  change (tail OFFSET_ORDER) with ((tail (removelast OFFSET_ORDER)) ++ [FileSize]) in E1.
  apply verify_order_inv in E1 as (-> & Hlast & Hord); [|done|by repeat constructor].
  apply bind_inv in E as (s1 & ? & E1 & E). apply bind_inv in E as (s2 & ? & E2 & E).
  destruct (for_list_header _ cro (rebase_field current cro) rebased_fields (rebase_field_changes cro Hh))
    with (s := s) as (s3 & E3 & H3 & U3); [by apply (bool_decide_unpack _)|by repeat constructor|done|].
  change (for_list rebased_fields (rebase_field current cro) s)
    with ((rebase_field current cro NameOffset ;; for_list offset_fields (rebase_field current cro))%hle s) in E3.
  rewrite (bind_Done _ _ _ _ _ E1), E2 in E3.
  apply Done_inv in E3 as [<- _].
  assert (s' = s2) as ->.
  { eapply reads_for_list; [|exact E]. intros [f n]. do 2 (apply reads_bind; [apply reads_GetField|intros ?]).
    apply reads_R_UNLESS. }
  repeat match goal with Hc : _ = true |- _ => first [apply Z.eqb_eq in Hc|apply Z.leb_le in Hc] end.
  assert (Hcode : forall f, f ∈ offset_fields -> f = CodeOffset \/ f ∈ tail (removelast OFFSET_ORDER)).
  { intros f Hf. apply elem_of_cons. unfold offset_fields in Hf.
    repeat (apply elem_of_cons in Hf as [->|Hf]; [by apply (bool_decide_unpack _)|]).
    by apply elem_of_nil in Hf. }
  do 4 (split; [assumption|]). split; [|by split].
  intros f [->|Hf]%Hcode; [split; assumption|]. destruct (Hord f Hf). split; [|done].
  by etransitivity.
Qed.
End Rebase.
