(* ===== verification/CroUnrebase.v ===== *)
(** * CroUnrebase: rebasing a static module and unrebasing it

    The tables are unrebased in the reverse of the order in which they were rebased, so
    that each table is a bracket around what happens in between: what the inside leaves
    alone, the whole leaves alone. *)
From S2P Require Import Prelude Result Ipc Cro CroMemory CroTables CroRebase.

Local Open Scope Z_scope.

Definition rebase_opt (cro : Z) (ok : Z -> bool) (x : Z) : option Z :=
  if x =? 0 then Some x else if ok (u32 (x + cro)) then Some (u32 (x + cro)) else None.

Lemma rebased_inv cro ok rc x s s' x' :
  rebased cro ok rc x s = Done s' x' -> s' = s /\ rebase_opt cro ok x = Some x'.
Proof.
  unfold rebased, rebase_opt. destruct (x =? 0); [by intros [<- <-]%Done_inv|].
  intros (s1 & ? & [E ->]%R_UNLESS_inv & [<- <-]%Done_inv)%bind_inv. by rewrite E.
Qed.

Lemma rebase_opt_back cro ok x x' : (forall y, ok y = true -> y <> 0) -> is_u32 x ->
  rebase_opt cro ok x = Some x' -> is_u32 x' /\ unrebased cro x' = x.
Proof.
  intros Hok Hx. unfold rebase_opt, unrebased. destruct (Z.eqb_spec x 0) as [->|Hne]; [by intros [= <-]|].
  destruct (ok (u32 (x + cro))) eqn:E; [|done]. intros [= <-].
  rewrite (proj2 (Z.eqb_neq _ 0)) by (by apply Hok). split; [apply u32_range|].
  unfold u32, is_u32 in *. rewrite Zminus_mod_idemp_l. rewrite Z.mod_small; lia.
Qed.

Lemma before_end_pos start finish y : 0 < start -> before_end start finish y = true -> y <> 0.
Proof. unfold before_end. intros H E. apply negb_true_iff, orb_false_iff in E as [E%Z.ltb_ge _]. lia. Qed.

Lemma up_to_end_pos start finish y : 0 < start -> up_to_end start finish y = true -> y <> 0.
Proof. unfold up_to_end. intros H E. apply negb_true_iff, orb_false_iff in E as [E%Z.ltb_ge _]. lia. Qed.

(** [v] takes back what [g] did to an entry. *)
Definition undoes {T} `{!Entry T, !EntryLaws T} (g : T -> option T) (v : T -> T) : Prop :=
  forall e e', entry_ok e -> g e = Some e' -> entry_ok e' /\ v e' = e.

Section Unrebase.
Context {PageTable : Type} `{WordMemoryLaws PageTable}.
Variables (current process : PageTable) (owned : Z -> Prop).
Hypothesis FLAT : flat current process owned.

Notation view := (view process).
Notation bytes := (bytes process).
Notation field := (field process).
Notation out := (same_outside process owned).
Notation base := (base process).
Notation entry := (entry process).
Notation all_u8 := (all_u8 process owned).
Notation placed := (placed process owned).
Notation table_byte := (table_byte process).
Notation updated := (updated process owned).

(** ** One table *)

Lemma update_table_total T `{!Entry T, !EntryShape T, !EntryLaws T} cro (v : T -> T) :
  header owned cro -> (forall e, entry_ok e -> entry_ok (v e)) ->
  forall n i s num, all_u8 (host s) -> placed T (host s) cro num -> 0 <= i -> i + Z.of_nat n = num ->
  exists s', for_range n i (fun i => (entry <- GetEntry current process T cro i ;;
    entry <- ret (v entry) ;; SetEntry current process cro i entry)%hle) s = Done s' tt.
Proof.
  intros Hh Hv n. induction n as [|n IH]; intros i s num U Hp Hi Hn; [by exists s|].
  assert (Hir : 0 <= i < num) by lia.
  destruct (entry_bytes_ok current process owned FLAT T (host s) cro num i U Hp Hir) as [Hbu Hbl].
  assert (Hok : entry_ok (v (entry T (host s) cro i))) by (by apply Hv, of_bytes_ok).
  destruct (to_bytes_ok _ Hok) as [Htu Htl].
  destruct (SetEntry_run current process owned FLAT T cro i num _ s Hh (proj1 (proj2 Hp)) Hir Hok) as (h1 & E1 & W).
  assert (Hl : Z.of_nat (length (to_bytes (v (entry T (host s) cro i)))) = sizeof T)
    by (rewrite Htl, Z2Nat.id; [done|apply Z.lt_le_incl, sizeof_range]).
  destruct (entry_bytes_wrote current process owned FLAT T (host s) h1 cro num i i _ Hh Hp Hir Hir Hl W) as (_ & Eb & _).
  destruct (IH (i + 1) (mkLinker h1 (invalidated s)) num) as (s' & E').
  - by eapply wrote_u8.
  - destruct Hp as (? & ? & ?). unfold CroRebase.placed, table. cbn [host]. by rewrite Eb.
  - lia.
  - lia.
  - exists s'. cbn [for_range]. erewrite bind_Done; [exact E'|].
    erewrite bind_Done by (by apply (GetEntry_run current process owned FLAT T cro i num); [done|apply Hp|]).
    erewrite bind_Done by reflexivity. exact E1.
Qed.

Lemma entry_bytes_view T `{!Entry T, !EntryShape T} h h' cro i :
  base T h' cro = base T h cro -> entry_bytes process T h' cro i = entry_bytes process T h cro i ->
  forall b, base T h cro + i * sizeof T <= b < base T h cro + i * sizeof T + sizeof T -> view h' b = view h b.
Proof.
  intros Eb E b Hb. unfold entry_bytes in E. rewrite Eb in E.
  assert (Hn : forall g, bytes g (base T h cro + i * sizeof T) (sizeof T)
      !! Z.to_nat (b - (base T h cro + i * sizeof T)) = Some (view g b)).
  { intros g. unfold CroMemory.bytes. rewrite list_lookup_fmap, lookup_seqZ_lt by lia. cbn. do 2 f_equal. lia. }
  pose proof (Hn h') as H1. rewrite E, Hn in H1. by injection H1.
Qed.

(** The fields from the first offset on. *)
Lemma high_field (X : Z -> Prop) h h' cro f : header owned cro -> 12 <= f < 46 -> out X h h' ->
  (forall b, X b -> ~ (cro + 176 <= b < cro + CRO_HEADER_SIZE)) -> field h' cro f = field h cro f.
Proof.
  intros Hh Hf O HX. unfold CroMemory.field, word. f_equal. apply bytes_agree. intros b Hb.
  rewrite (Field_at current process owned FLAT) in Hb by (done || lia).
  apply O; [|intros HXb; apply (HX b HXb); unfold CRO_HEADER_SIZE; lia].
  replace b with (cro + (b - cro)) by lia. apply Hh. unfold CRO_HEADER_SIZE. lia.
Qed.

(** The bracket: [g] before, [v] after, and in between nothing but [X] changes, which is
    outside of the header and of the table. *)
Lemma bracket T `{!Entry T, !EntryShape T, !EntryLaws T} cro num (g : T -> option T) (v : T -> T) (X : Z -> Prop) hs ha sb :
  header owned cro -> placed T hs cro num -> undoes g v -> (forall e, entry_ok e -> entry_ok (v e)) ->
  all_u8 hs -> updated T g cro 0 num hs ha -> out X ha (host sb) -> all_u8 (host sb) ->
  (forall b, X b -> ~ (cro + 176 <= b < cro + CRO_HEADER_SIZE) /\ ~ table_byte T hs cro num b) ->
  exists sc, update_table current process cro num (fun e => ret (v e)) sb = Done sc tt /\
    out X hs (host sc) /\ all_u8 (host sc).
Proof.
  intros Hh Hp Hu Hv U [O1 G] O2 U2 HX.
  assert (Ea : base T ha cro = base T hs cro) by (by apply (base_out current process owned FLAT T hs ha cro num)).
  assert (Eb : base T (host sb) cro = base T ha cro).
  { apply (high_field X ha (host sb)); [done|apply table_high|done|]. intros b HXb. by apply HX. }
  assert (Hpb : placed T (host sb) cro num)
    by (destruct Hp as (?&?&?); unfold CroRebase.placed, table; by rewrite Eb, Ea).
  destruct (update_table_total T cro v Hh Hv (Z.to_nat num) 0 sb num U2 Hpb) as (sc & Ec);
    [done|rewrite Z2Nat.id; [done|apply Hp]|].
  exists sc. split; [exact Ec|].
  destruct (update_table_effect current process owned FLAT T cro num (fun e => ret (v e)) (fun e => Some (v e)) sb sc tt)
    as [[O3 G3] U3]; try done.
  { intros e s s' e' E. by apply Done_inv in E as [<- <-]. }
  { intros e e' He [= <-]. by apply Hv. }
  split; [|done]. intros b Hb HXb.
  destruct (decide (table_byte T hs cro num b)) as [Hin|Hout].
  2: { rewrite O3, O2, O1; try done. unfold CroRebase.table_byte. by rewrite Eb, Ea. }
  pose proof (sizeof_range (T := T)) as Hs.
  set (i := (b - base T hs cro) / sizeof T).
  assert (Hi : 0 <= i < num /\ base T hs cro + i * sizeof T <= b < base T hs cro + i * sizeof T + sizeof T).
  { unfold CroRebase.table_byte in Hin. unfold i. clear -Hin Hs. set (sz := sizeof T) in *.
    set (a := base T hs cro) in *. clearbody sz a.
    pose proof (Z.div_mod (b - a) sz ltac:(lia)). pose proof (Z.mod_pos_bound (b - a) sz ltac:(lia)). nia. }
  destruct Hi as [Hi Hbi].
  specialize (G i Hi). specialize (G3 i Hi). rewrite decide_True in G, G3 by lia.
  destruct G as (e' & Eg & Eb1), G3 as (e'' & [= <-] & Eb3).
  destruct (entry_bytes_ok current process owned FLAT T hs cro num i U Hp Hi) as [Hbu Hbl].
  destruct (Hu (entry T hs cro i) e' (of_bytes_ok _ Hbu Hbl) Eg) as [Hok' Ev].
  assert (Emid : entry_bytes process T (host sb) cro i = entry_bytes process T ha cro i).
  { unfold entry_bytes. rewrite Eb. apply bytes_agree. intros c Hc.
    assert (Hct : table_byte T hs cro num c) by (unfold CroRebase.table_byte; rewrite Ea in Hc; nia).
    apply O2; [|intros HXc; destruct (HX c HXc) as [_ Hx]; by apply Hx].
    destruct Hp as (_ & Ht & _). replace c with (base T hs cro + (c - base T hs cro)) by lia.
    apply Ht. unfold CroRebase.table_byte in Hct. lia. }
  assert (Efin : entry_bytes process T (host sc) cro i = entry_bytes process T hs cro i).
  { rewrite Eb3. unfold CroTables.entry. rewrite Emid, Eb1, of_to_bytes, Ev by done.
    by apply to_of_bytes. }
  eapply (entry_bytes_view T hs (host sc)); [|exact Efin|exact Hbi].
  assert (Ec3 : base T (host sc) cro = base T (host sb) cro)
    by (by apply (base_out current process owned FLAT T (host sb) (host sc) cro num)).
  congruence.
Qed.

(** ** The five tables *)

(** The tables that entries point into are not at address 0. *)
Definition starts_ok (h : Z -> Z) (cro : Z) : Prop :=
  forall f, f ∈ [ExportStringsOffset; ImportStringsOffset; ExternalRelocationTableOffset;
    ImportIndexedSymbolTableOffset; ImportAnonymousSymbolTableOffset] -> 0 < field h cro f.

(** What a phase that rebases a table does. *)
Definition rebases (T : Type) `{!Entry T, !EntryLaws T} (num_field : HeaderField) (v : T -> T) (cro : Z)
    (phase : op Linker unit) : Prop :=
  forall s s' u, all_u8 (host s) -> placed T (host s) cro (field (host s) cro num_field) ->
    starts_ok (host s) cro -> phase s = Done s' u ->
    exists g, updated T g cro 0 (field (host s) cro num_field) (host s) (host s') /\ undoes g v /\ all_u8 (host s').

Lemma unrebased_u32 cro x : is_u32 x -> is_u32 (unrebased cro x).
Proof. intros Hx. unfold unrebased. destruct (_ =? 0); [done|apply u32_range]. Qed.

Lemma table_bounds_inv cro f g n s s' a b : header owned cro -> 0 <= f < 46 ->
  table_bounds current cro f g n s = Done s' (a, b) -> s' = s /\ a = field (host s) cro f.
Proof.
  intros Hh Hf E. pose proof (reads_table_bounds current cro f g n _ _ _ E) as ->. split; [done|].
  unfold table_bounds in E. erewrite bind_Done in E by (by apply (GetField_run current process owned FLAT)).
  apply bind_inv in E as (s1 & m & _ & E). apply Done_inv in E as [_ E]. congruence.
Qed.

(** The last step of every phase. *)
Lemma rebases_update T `{!Entry T, !EntryShape T, !EntryLaws T} num_field v cro f g s s' u :
  header owned cro -> 0 <= num_field < 46 -> all_u8 (host s) ->
  placed T (host s) cro (field (host s) cro num_field) -> checks f g -> undoes g v ->
  (num <- GetField current cro num_field ;; update_table current process cro num f)%hle s = Done s' u ->
  exists g, updated T g cro 0 (field (host s) cro num_field) (host s) (host s') /\ undoes g v /\ all_u8 (host s').
Proof.
  intros Hh Hf U Hp Hc Hu E.
  erewrite bind_Done in E by (by apply (GetField_run current process owned FLAT)).
  destruct (update_table_effect current process owned FLAT T cro (field (host s) cro num_field) f g s s' u) as [Hup U']; try done.
  { intros e e' He Eg. by apply (Hu e e'). }
  by exists g.
Qed.

Definition un_export (cro : Z) (e : ExportNamedSymbolEntry) : ExportNamedSymbolEntry :=
  mkExportNamed (unrebased cro (en_name_offset e)) (en_symbol_position e).
Definition un_module (cro : Z) (e : ImportModuleEntry) : ImportModuleEntry :=
  mkImportModule (unrebased cro (im_name_offset e)) (unrebased cro (import_indexed_symbol_table_offset e))
    (import_indexed_symbol_num e) (unrebased cro (import_anonymous_symbol_table_offset e))
    (import_anonymous_symbol_num e).
Definition un_named (cro : Z) (e : ImportNamedSymbolEntry) : ImportNamedSymbolEntry :=
  mkImportNamed (unrebased cro (in_name_offset e)) (unrebased cro (in_batch e)).
Definition un_indexed (cro : Z) (e : ImportIndexedSymbolEntry) : ImportIndexedSymbolEntry :=
  mkImportIndexed (ii_index e) (unrebased cro (ii_batch e)).
Definition un_anonymous (cro : Z) (e : ImportAnonymousSymbolEntry) : ImportAnonymousSymbolEntry :=
  mkImportAnonymous (ia_symbol_position e) (unrebased cro (ia_batch e)).

(** The bounds of a table are read, and their start is not 0. *)
Local Ltac bounds E start :=
  let H := fresh in
  apply bind_inv in E as (? & [start ?] & H & E);
  apply table_bounds_inv in H as [-> ->]; [|done|done].

(** A checked field of an entry. *)
Local Ltac checked E :=
  let H := fresh "Hopt" in
  apply bind_inv in E as (? & ? & [-> H]%rebased_inv & E).

Lemma rebases_export cro : header owned cro ->
  rebases ExportNamedSymbolEntry ExportNamedSymbolNum (un_export cro) cro (RebaseExportNamedSymbolTable current process cro).
Proof.
  intros Hh s s' u U Hp St E. unfold RebaseExportNamedSymbolTable in E. bounds E start.
  eapply (rebases_update ExportNamedSymbolEntry _ _ _ _ (fun e => n ← rebase_opt cro (before_end _ _) (en_name_offset e);
    Some (mkExportNamed n (en_symbol_position e)))); [done|done|done|done| | |exact E].
  - intros e s1 s2 e' E1. checked E1. apply Done_inv in E1 as [<- <-]. by rewrite Hopt.
  - intros [n t] e' [Hn Ht] Eg. simpl in *. destruct (rebase_opt _ _ n) as [n'|] eqn:En; [|done]. injection Eg as <-.
    apply rebase_opt_back in En as [? ?]; [|intros y; apply before_end_pos, St; set_solver|done].
    split; [done|]. unfold un_export. simpl. congruence.
Qed.

Lemma rebases_module cro : header owned cro ->
  rebases ImportModuleEntry ImportModuleNum (un_module cro) cro (RebaseImportModuleTable current process cro).
Proof.
  intros Hh s s' u U Hp St E. unfold RebaseImportModuleTable in E.
  bounds E strings. bounds E indexed. bounds E anonymous.
  eapply (rebases_update ImportModuleEntry _ _ _ _ (fun e => n ← rebase_opt cro (before_end _ _) (im_name_offset e);
    i ← rebase_opt cro (up_to_end _ _) (import_indexed_symbol_table_offset e);
    a ← rebase_opt cro (up_to_end _ _) (import_anonymous_symbol_table_offset e);
    Some (mkImportModule n i (import_indexed_symbol_num e) a (import_anonymous_symbol_num e))));
    [done|done|done|done| | |exact E].
  - intros e s1 s2 e' E1. checked E1. checked E1. checked E1. apply Done_inv in E1 as [<- <-].
    rewrite Hopt. simpl. rewrite Hopt0. simpl. by rewrite Hopt1.
  - intros [n i ni a na] e' (Hn & Hi & Hni & Ha & Hna) Eg. simpl in *.
    destruct (rebase_opt _ _ n) as [n'|] eqn:En; [|done]. simpl in Eg.
    destruct (rebase_opt _ _ i) as [i'|] eqn:Ei; [|done]. simpl in Eg.
    destruct (rebase_opt _ _ a) as [a'|] eqn:Ea; [|done]. injection Eg as <-.
    apply rebase_opt_back in En as [? ?]; [|intros y; apply before_end_pos, St; set_solver|done].
    apply rebase_opt_back in Ei as [? ?]; [|intros y; apply up_to_end_pos, St; set_solver|done].
    apply rebase_opt_back in Ea as [? ?]; [|intros y; apply up_to_end_pos, St; set_solver|done].
    split; [by split_and!|]. unfold un_module. simpl. congruence.
Qed.

Lemma rebases_named cro : header owned cro ->
  rebases ImportNamedSymbolEntry ImportNamedSymbolNum (un_named cro) cro (RebaseImportNamedSymbolTable current process cro).
Proof.
  intros Hh s s' u U Hp St E. unfold RebaseImportNamedSymbolTable in E.
  bounds E strings. bounds E batches.
  eapply (rebases_update ImportNamedSymbolEntry _ _ _ _ (fun e => n ← rebase_opt cro (before_end _ _) (in_name_offset e);
    b ← rebase_opt cro (up_to_end _ _) (in_batch e); Some (mkImportNamed n b))); [done|done|done|done| | |exact E].
  - intros e s1 s2 e' E1. checked E1. checked E1. apply Done_inv in E1 as [<- <-]. rewrite Hopt. simpl. by rewrite Hopt0.
  - intros [n b] e' [Hn Hb] Eg. simpl in *.
    destruct (rebase_opt _ _ n) as [n'|] eqn:En; [|done]. simpl in Eg.
    destruct (rebase_opt _ _ b) as [b'|] eqn:Eb; [|done]. injection Eg as <-.
    apply rebase_opt_back in En as [? ?]; [|intros y; apply before_end_pos, St; set_solver|done].
    apply rebase_opt_back in Eb as [? ?]; [|intros y; apply up_to_end_pos, St; set_solver|done].
    split; [by split|]. unfold un_named. simpl. congruence.
Qed.

Lemma rebases_indexed cro : header owned cro ->
  rebases ImportIndexedSymbolEntry ImportIndexedSymbolNum (un_indexed cro) cro (RebaseImportIndexedSymbolTable current process cro).
Proof.
  intros Hh s s' u U Hp St E. unfold RebaseImportIndexedSymbolTable in E. bounds E batches.
  eapply (rebases_update ImportIndexedSymbolEntry _ _ _ _ (fun e => b ← rebase_opt cro (up_to_end _ _) (ii_batch e);
    Some (mkImportIndexed (ii_index e) b))); [done|done|done|done| | |exact E].
  - intros e s1 s2 e' E1. checked E1. apply Done_inv in E1 as [<- <-]. by rewrite Hopt.
  - intros [i b] e' [Hi Hb] Eg. simpl in *. destruct (rebase_opt _ _ b) as [b'|] eqn:Eb; [|done]. injection Eg as <-.
    apply rebase_opt_back in Eb as [? ?]; [|intros y; apply up_to_end_pos, St; set_solver|done].
    split; [by split|]. unfold un_indexed. simpl. congruence.
Qed.

Lemma rebases_anonymous cro : header owned cro ->
  rebases ImportAnonymousSymbolEntry ImportAnonymousSymbolNum (un_anonymous cro) cro (RebaseImportAnonymousSymbolTable current process cro).
Proof.
  intros Hh s s' u U Hp St E. unfold RebaseImportAnonymousSymbolTable in E. bounds E batches.
  eapply (rebases_update ImportAnonymousSymbolEntry _ _ _ _ (fun e => b ← rebase_opt cro (up_to_end _ _) (ia_batch e);
    Some (mkImportAnonymous (ia_symbol_position e) b))); [done|done|done|done| | |exact E].
  - intros e s1 s2 e' E1. checked E1. apply Done_inv in E1 as [<- <-]. by rewrite Hopt.
  - intros [p b] e' [Hp' Hb] Eg. simpl in *. destruct (rebase_opt _ _ b) as [b'|] eqn:Eb; [|done]. injection Eg as <-.
    apply rebase_opt_back in Eb as [? ?]; [|intros y; apply up_to_end_pos, St; set_solver|done].
    split; [by split|]. unfold un_anonymous. simpl. congruence.
Qed.

(** ** The whole module *)

Notation module_byte := (module_byte process).
Notation patchable := (patchable process owned).
Notation patchable_data := (patchable_data process owned).

(** A table of the module is in place, clear of header and segments and of [R]. *)
Definition laid (T : Type) `{!Entry T} (num_field : HeaderField) (R : Z -> Prop) (h : Z -> Z) (cro : Z) : Prop :=
  placed T h cro (field h cro num_field) /\
  forall b, table_byte T h cro (field h cro num_field) b -> ~ module_byte h cro b /\ ~ R b.

(** A static module whose relocations stay in [R], away from header and tables. *)
Record well_laid (R : Z -> Prop) (h : Z -> Z) (cro : Z) : Prop := {
  wl_patch : patchable R h cro;
  wl_data : patchable_data R h cro 0;
  wl_export : laid ExportNamedSymbolEntry ExportNamedSymbolNum R h cro;
  wl_module : laid ImportModuleEntry ImportModuleNum R h cro;
  wl_named : laid ImportNamedSymbolEntry ImportNamedSymbolNum R h cro;
  wl_indexed : laid ImportIndexedSymbolEntry ImportIndexedSymbolNum R h cro;
  wl_anonymous : laid ImportAnonymousSymbolEntry ImportAnonymousSymbolNum R h cro
}.

(** The header and the segment table are those of [h]. *)
Definition near (h : Z -> Z) (cro : Z) (s : Linker) : Prop :=
  (forall b, module_byte h cro b -> view (host s) b = view h b) /\ all_u8 (host s).

Lemma near_fields h cro s : header owned cro -> near h cro s ->
  forall f, 0 <= f < 46 -> field (host s) cro f = field h cro f.
Proof.
  intros Hh [N _] f Hf. apply (field_stable current process owned FLAT); [done|done|]. intros b Hb. apply N. by left.
Qed.

Lemma near_laid h cro s T `{!Entry T, !EntryShape T} num_field R : header owned cro -> near h cro s ->
  0 <= num_field < 46 -> laid T num_field R h cro ->
  field (host s) cro num_field = field h cro num_field /\ base T (host s) cro = base T h cro /\
  placed T (host s) cro (field h cro num_field).
Proof.
  intros Hh N Hf [Hp _]. pose proof (near_fields h cro s Hh N) as E.
  assert (Eb : base T (host s) cro = base T h cro) by apply E, table_field.
  split; [by apply E|]. split; [done|]. unfold CroRebase.placed, table. by rewrite Eb.
Qed.

Lemma near_patchable R h cro s old : header owned cro -> near h cro s -> patchable R h cro ->
  patchable_data R h cro old -> patchable R (host s) cro /\ patchable_data R (host s) cro old.
Proof.
  intros Hh N P Pd. pose proof (near_fields h cro s Hh N) as E.
  destruct (module_stable current process owned FLAT h (host s) cro Hh (proj1 N)) as (Eb & En & Et).
  assert (Em : forall b, module_byte (host s) cro b <-> module_byte h cro b)
    by (intros b; unfold CroTables.module_byte; by rewrite Eb, En).
  assert (Ex : base RelocationEntry (host s) cro = base RelocationEntry h cro) by (by apply E).
  assert (Ee : field (host s) cro ExternalRelocationNum = field h cro ExternalRelocationNum) by (by apply E).
  split; [split|].
  - intros tag. rewrite Et. apply P.
  - intros b Hb. rewrite Em. by apply (patch_apart _ _ _ _ _ P).
  - unfold segments, table. rewrite Eb, En. apply P.
  - unfold CroRebase.placed, table. rewrite Ex, Ee. apply P.
  - intros b. unfold CroRebase.table_byte. rewrite Ex, Ee. apply P.
  - unfold table. assert (base InternalRelocationEntry (host s) cro = base InternalRelocationEntry h cro) as -> by (by apply E).
    rewrite E by done. apply P.
  - intros tag Hn. rewrite Et. intros Ht Hd b Hb. apply (Pd tag Hn Ht); [|done].
    pose proof (tag_segment process h cro tag Ht) as Hi.
    rewrite <-Hd. unfold CroTables.entry, entry_bytes. rewrite Eb. do 2 f_equal. symmetry.
    apply bytes_agree. intros c Hc. apply N. right. simpl sizeof in *. lia.
Qed.

(** A phase that rebases a table. *)
Lemma near_phase h cro R s s' u T `{!Entry T, !EntryShape T, !EntryLaws T} num_field v phase :
  header owned cro -> segments process owned h cro -> near h cro s -> starts_ok h cro -> 0 <= num_field < 46 ->
  laid T num_field R h cro -> rebases T num_field v cro phase -> phase s = Done s' u ->
  near h cro s' /\ exists g, updated T g cro 0 (field h cro num_field) (host s) (host s') /\ undoes g v.
Proof.
  intros Hh Hs N St Hf L Hph E.
  destruct (near_laid h cro s T num_field R Hh N Hf L) as (En & Eb & Hp).
  destruct (Hph s s' u) as (g & Hup & Hu & U'); [apply N|by rewrite En| |done|].
  { intros f Hf'. rewrite (near_fields h cro s Hh N); [by apply St|].
    repeat (apply elem_of_cons in Hf' as [->|Hf']; [done|]). by apply elem_of_nil in Hf'. }
  rewrite En in Hup. split; [|by exists g].
  split; [|done]. intros b Hb. rewrite <-(proj1 N b Hb). apply Hup.
  - by apply (module_byte_owned process owned h cro).
  - unfold CroRebase.table_byte. rewrite Eb. intros Hin. destruct (proj2 L b Hin) as [Hm _]. by apply Hm.
Qed.

(** A phase that relocates. *)
Lemma near_agrees R h cro s s' : header owned cro -> near h cro s -> patchable R (host s) cro ->
  agrees process owned R (host s) s' -> near h cro s'.
Proof.
  intros Hh N P [O U]. split; [|done]. intros b Hb. rewrite <-(proj1 N b Hb).
  destruct (module_stable current process owned FLAT h (host s) cro Hh (proj1 N)) as (Eb & En & _).
  assert (Hb' : module_byte (host s) cro b) by (unfold CroTables.module_byte; by rewrite Eb, En).
  apply O.
  - by apply (module_byte_owned process owned (host s) cro b Hh (patch_segments _ _ _ _ _ P)).
  - intros Hr. by apply (patch_apart _ _ _ _ _ P b Hr).
Qed.

(** The bytes of [NextCRO] and [PreviousCRO]. *)
Definition link_field_byte (cro b : Z) : Prop := cro + 136 <= b < cro + 144.

Lemma bracket_laid h cro R s sa sb T `{!Entry T, !EntryShape T, !EntryLaws T} num_field v g :
  let X b := R b \/ link_field_byte cro b in
  header owned cro -> patchable R h cro -> near h cro s -> near h cro sa -> 12 <= num_field < 46 -> laid T num_field R h cro ->
  updated T g cro 0 (field h cro num_field) (host s) (host sa) -> undoes g v ->
  (forall e, entry_ok e -> entry_ok (v e)) -> out X (host sa) (host sb) -> all_u8 (host sb) ->
  exists sc, (num <- GetField current cro num_field ;; update_table current process cro num (fun e => ret (v e)))%hle sb
      = Done sc tt /\ out X (host s) (host sc) /\ all_u8 (host sc).
Proof.
  intros X Hh P N Na Hf L Hup Hu Hv O U.
  assert (Hhigh : forall b, X b -> ~ (cro + 176 <= b < cro + CRO_HEADER_SIZE)).
  { intros b [Hr|Hl] Hb; [|unfold link_field_byte in Hl; lia].
    apply (patch_apart _ _ _ _ _ P b Hr). left. lia. }
  destruct (near_laid h cro s T num_field R Hh N ltac:(lia) L) as (En & Eb & Hp).
  assert (Enb : field (host sb) cro num_field = field h cro num_field).
  { rewrite (high_field X (host sa) (host sb)) by done. apply near_fields; [done|done|lia]. }
  destruct (bracket T cro (field h cro num_field) g v X (host s) (host sa) sb) as (sc & E & O' & U'); try done.
  - apply N.
  - intros b HX. split; [by apply Hhigh|]. unfold CroRebase.table_byte. rewrite Eb. intros Hin.
    destruct (proj2 L b Hin) as [Hm HR]. destruct HX as [Hr|Hl]; [done|]. apply Hm. left.
    unfold link_field_byte, CRO_HEADER_SIZE in *. lia.
  - exists sc. split; [|done]. erewrite bind_Done by (apply (GetField_run current process owned FLAT); [done|lia]).
    by rewrite Enb.
Qed.

(** The phases of [Rebase] for a static module. *)
Lemma Rebase_phases fuel R cro cro_size s sh s1 u : header owned cro -> all_u8 (host sh) ->
  well_laid R (host sh) cro -> starts_ok (host sh) cro ->
  RebaseHeader current cro cro_size s = Done sh tt ->
  Rebase current process fuel cro 0 cro_size 0 0 0 0 true s = Done s1 u ->
  exists a1 a2 a3 a4 a5 a6 g1 g2 g3 g4 g5,
    (updated ExportNamedSymbolEntry g1 cro 0 (field (host sh) cro ExportNamedSymbolNum) (host sh) (host a1) /\ undoes g1 (un_export cro)) /\
    (updated ImportModuleEntry g2 cro 0 (field (host sh) cro ImportModuleNum) (host a1) (host a2) /\ undoes g2 (un_module cro)) /\
    out R (host a2) (host a3) /\
    (updated ImportNamedSymbolEntry g3 cro 0 (field (host sh) cro ImportNamedSymbolNum) (host a3) (host a4) /\ undoes g3 (un_named cro)) /\
    (updated ImportIndexedSymbolEntry g4 cro 0 (field (host sh) cro ImportIndexedSymbolNum) (host a4) (host a5) /\ undoes g4 (un_indexed cro)) /\
    (updated ImportAnonymousSymbolEntry g5 cro 0 (field (host sh) cro ImportAnonymousSymbolNum) (host a5) (host a6) /\ undoes g5 (un_anonymous cro)) /\
    out R (host a6) (host s1) /\ Forall (near (host sh) cro) [sh; a1; a2; a3; a4; a5; a6; s1].
Proof.
  intros Hh U W St Eh E. destruct W as [P Pd L1 L2 L3 L4 L5].
  pose proof (patch_segments _ _ _ _ _ P) as Hs.
  assert (N0 : near (host sh) cro sh) by done.
  unfold Rebase in E. rewrite (bind_Done _ _ _ _ _ Eh) in E.
  apply bind_inv in E as (? & ? & ->%reads_verify_strings & E).
  apply bind_inv in E as (? & ? & [<- <-]%Done_inv & E).
  apply bind_inv in E as (a1 & ? & E1 & E).
  destruct (near_phase _ _ R sh a1 _ ExportNamedSymbolEntry ExportNamedSymbolNum _ _ Hh Hs N0 St ltac:(done) L1 (rebases_export cro Hh) E1) as (N1 & g1 & G1).
  apply bind_inv in E as (? & ? & ->%reads_VerifyExportTreeTable & E).
  apply bind_inv in E as (? & ? & ->%reads_verify_strings & E).
  apply bind_inv in E as (a2 & ? & E2 & E).
  destruct (near_phase _ _ R a1 a2 _ ImportModuleEntry ImportModuleNum _ _ Hh Hs N1 St ltac:(done) L2 (rebases_module cro Hh) E2) as (N2 & g2 & G2).
  apply bind_inv in E as (a3 & ? & E3 & E).
  destruct (near_patchable R _ cro a2 0 Hh N2 P Pd) as [P2 _].
  assert (A3 : agrees process owned R (host a2) a3).
  { eapply ResetExternalRelocations_agrees; [exact FLAT|exact Hh|exact P2| |exact E3]. split; [done|apply N2]. }
  pose proof (near_agrees R _ cro a2 a3 Hh N2 P2 A3) as N3.
  apply bind_inv in E as (a4 & ? & E4 & E).
  destruct (near_phase _ _ R a3 a4 _ ImportNamedSymbolEntry ImportNamedSymbolNum _ _ Hh Hs N3 St ltac:(done) L3 (rebases_named cro Hh) E4) as (N4 & g3 & G3).
  apply bind_inv in E as (a5 & ? & E5 & E).
  destruct (near_phase _ _ R a4 a5 _ ImportIndexedSymbolEntry ImportIndexedSymbolNum _ _ Hh Hs N4 St ltac:(done) L4 (rebases_indexed cro Hh) E5) as (N5 & g4 & G4).
  apply bind_inv in E as (a6 & ? & E6 & E).
  destruct (near_phase _ _ R a5 a6 _ ImportAnonymousSymbolEntry ImportAnonymousSymbolNum _ _ Hh Hs N5 St ltac:(done) L5 (rebases_anonymous cro Hh) E6) as (N6 & g5 & G5).
  apply bind_inv in E as (? & ? & ->%reads_verify_strings & E).
  apply bind_inv in E as (? & ? & [<- _]%Done_inv & E).
  apply bind_inv in E as (a7 & ? & E7 & E). apply Done_inv in E as [<- _].
  destruct (near_patchable R _ cro a6 0 Hh N6 P Pd) as [P6 Pd6].
  assert (A7 : agrees process owned R (host a6) a7).
  { eapply ApplyInternalRelocations_agrees; [exact FLAT|exact Hh|exact P6|exact Pd6| |exact E7]. split; [done|apply N6]. }
  pose proof (near_agrees R _ cro a6 a7 Hh N6 P6 A7) as N7.
  exists a1, a2, a3, a4, a5, a6, g1, g2, g3, g4, g5.
  split; [exact G1|]. split; [exact G2|]. split; [apply A3|]. split; [exact G3|]. split; [exact G4|].
  split; [exact G5|]. split; [apply A7|]. by repeat (apply Forall_cons; split; [done|]).
Qed.

(** What [RebaseHeader] gives: the fields, and that the tables are not at address 0. *)
Lemma RebaseHeader_fields cro cro_size s sh : header owned cro -> all_u8 (host s) ->
  cro + field (host s) cro FileSize < 4294967296 -> cro + field (host s) cro NameOffset < 4294967296 ->
  RebaseHeader current cro cro_size s = Done sh tt ->
  all_u8 (host sh) /\ starts_ok (host sh) cro /\ out (header_byte cro) (host s) (host sh) /\
  field (host s) cro NextCRO = 0 /\ field (host s) cro PreviousCRO = 0 /\ field (host s) cro FixedSize = 0 /\
  forall f : HeaderField, 0 <= f < 46 ->
    (if bool_decide (f ∈ rebased_fields) then unrebased cro (field (host sh) cro f) else field (host sh) cro f)
    = field (host s) cro f.
Proof.
  intros Hh U Hsz Hname E.
  destruct (RebaseHeader_inv current process owned FLAT cro cro_size s sh tt Hh U E)
    as (Fn & Fp & Fx & _ & Ford & [O Ff] & U').
  assert (Hc : 0 <= cro).
  { apply (flat_range _ _ _ FLAT). replace cro with (cro + 0) by lia. apply Hh. unfold CRO_HEADER_SIZE. lia. }
  split; [done|]. split; [|do 4 (split; [done|])].
  - intros f Hf.
    assert (Hin : f ∈ offset_fields /\ 0 <= f < 46).
    { repeat (apply elem_of_cons in Hf as [->|Hf]; [split; [by apply (bool_decide_unpack _)|done]|]).
      by apply elem_of_nil in Hf. }
    destruct Hin as [Hin Hf0]. rewrite Ff, bool_decide_eq_true_2 by (done || by right).
    specialize (Ford f Hin). unfold CRO_HEADER_SIZE in Ford. unfold rebase_val.
    rewrite (proj2 (Z.eqb_neq _ 0)) by lia. rewrite u32_small; unfold is_u32; lia.
  - intros f Hf. rewrite Ff by done.
    destruct (bool_decide (f ∈ rebased_fields)) eqn:Hin; [|done]. apply bool_decide_eq_true in Hin.
    apply unrebased_rebase_val; [done|by apply (field_u32 current process owned FLAT)|].
    apply elem_of_cons in Hin as [->|Hin]; [right; lia|]. specialize (Ford f Hin). right. lia.
Qed.

(** The end of [Unrebase]: links and size reset, header unrebased. *)
Lemma Unrebase_header cro c : header owned cro -> all_u8 (host c) -> exists s2,
  (SetNextModule current cro 0 ;; SetPreviousModule current cro 0 ;; SetField current cro FixedSize 0 ;;
   UnrebaseHeader current cro)%hle c = Done s2 tt /\ out (header_byte cro) (host c) (host s2) /\ all_u8 (host s2) /\
  forall f : HeaderField, 0 <= f < 46 -> field (host s2) cro f =
    if bool_decide (f ∈ rebased_fields) then unrebased cro (field (host c) cro f)
    else if bool_decide (f ∈ [NextCRO; PreviousCRO; FixedSize]) then 0 else field (host c) cro f.
Proof.
  intros Hh U. unfold SetNextModule, SetPreviousModule.
  destruct (SetField_header current process owned FLAT cro NextCRO 0 (host c) Hh ltac:(done) ltac:(done) U) as [H1 U1].
  destruct (SetField_header current process owned FLAT cro PreviousCRO 0 _ Hh ltac:(done) ltac:(done) U1) as [H2 U2].
  destruct (SetField_header current process owned FLAT cro FixedSize 0 _ Hh ltac:(done) ltac:(done) U2) as [H3 U3].
  set (c3 := mkLinker (Write32 current (Write32 current (Write32 current (host c) (Field cro NextCRO) 0)
    (Field cro PreviousCRO) 0) (Field cro FixedSize) 0) (invalidated c)).
  destruct (for_list_header current process owned FLAT _ cro (unrebase_field current cro) rebased_fields
    (unrebase_field_changes current process owned FLAT cro Hh)) with (s := c3) as (s2 & E & H4 & U4);
    [by apply (bool_decide_unpack _)|by repeat constructor|done|].
  exists s2. split; [exact E|].
  pose proof (header_is_trans process owned _ _ cro _ _ _ (header_is_trans process owned _ _ cro _ _ _
    (header_is_trans process owned _ _ cro _ _ _ H1 H2) H3) H4) as [O F].
  split; [done|]. split; [done|]. intros f Hf. rewrite F by done. cbn.
  destruct (Z.eqb_spec f NextCRO) as [->|]; [done|]. destruct (Z.eqb_spec f PreviousCRO) as [->|]; [done|].
  destruct (Z.eqb_spec f FixedSize) as [->|]; [done|]. case_bool_decide; [done|].
  rewrite bool_decide_eq_false_2; [done|]. rewrite !elem_of_cons, elem_of_nil. tauto.
Qed.

(** The bytes of the header come back with its fields, the others by themselves. *)
Lemma restored_outside (R : Z -> Prop) cro h hh hc h2 : header owned cro -> all_u8 h -> all_u8 h2 ->
  out (header_byte cro) h hh -> out (fun b => R b \/ link_field_byte cro b) hh hc -> out (header_byte cro) hc h2 ->
  (forall b, R b -> ~ (cro <= b < cro + CRO_HEADER_SIZE)) ->
  (forall f : HeaderField, 0 <= f < 46 -> f ∈ rebased_fields -> field hc cro f = field hh cro f -> field h2 cro f = field h cro f) ->
  (forall f : HeaderField, 0 <= f < 46 -> f ∉ rebased_fields ->
     (f ∉ [NextCRO; PreviousCRO] -> field hc cro f = field hh cro f) -> field h2 cro f = field h cro f) ->
  forall b, owned b -> ~ R b -> view h2 b = view h b.
Proof.
  intros Hh U U2 O1 O2 O3 HR F1 F2 b Hb HRb.
  assert (Ef : forall f : HeaderField, 0 <= f < 46 -> f ∉ [NextCRO; PreviousCRO] -> field hc cro f = field hh cro f).
  { intros f Hf Hl. unfold CroMemory.field, word. f_equal. apply bytes_agree. intros c Hc.
    rewrite (Field_at current process owned FLAT) in Hc by done. rewrite !elem_of_cons, elem_of_nil in Hl.
    unfold NextCRO, PreviousCRO in Hl. apply O2.
    - replace c with (cro + (c - cro)) by lia. apply Hh. unfold CRO_HEADER_SIZE. lia.
    - intros [Hr|Hlk]; [apply (HR c Hr); unfold CRO_HEADER_SIZE; lia|]. unfold link_field_byte in Hlk. lia. }
  destruct (decide (header_byte cro b)) as [Hin|Hout].
  - apply (header_byte_restored current process owned FLAT cro h h2); try done.
    intros f Hf. destruct (decide (f ∈ rebased_fields)) as [Hr|Hr].
    + apply F1; [done|done|]. apply Ef; [done|]. rewrite !elem_of_cons, elem_of_nil.
      assert (NextCRO ∉ rebased_fields /\ PreviousCRO ∉ rebased_fields) as [Hn Hp]
        by (split; by apply (bool_decide_unpack _)).
      by intros [->|[->|[]]].
    + apply F2; auto.
  - rewrite O3, O2, O1; try done. intros [Hr|Hl]; [done|]. apply Hout.
    unfold link_field_byte, header_byte, CRO_HEADER_SIZE in *. lia.
Qed.

(** C16: rebasing a static module and unrebasing it gives its memory back.  When the module
    was rebased, its relocations patching only words of [R] and its tables in place, and
    since then only its links and words of [R] have changed, [Unrebase] runs, and every
    byte outside of [R] is what it was before: header, names, tables and all the rest. *)
Theorem Rebase_Unrebase fuel R cro cro_size s sh s1 s1' :
  header owned cro -> all_u8 (host s) -> all_u8 (host s1') ->
  cro + field (host s) cro FileSize < 4294967296 -> cro + field (host s) cro NameOffset < 4294967296 ->
  RebaseHeader current cro cro_size s = Done sh tt -> well_laid R (host sh) cro ->
  Rebase current process fuel cro 0 cro_size 0 0 0 0 true s = Done s1 tt ->
  out (fun b => R b \/ link_field_byte cro b) (host s1) (host s1') ->
  exists s2, Unrebase current process cro true s1' = Done s2 tt /\
    forall b, owned b -> ~ R b -> view (host s2) b = view (host s) b.
Proof.
  intros Hh U U1' Hsz Hname Eh W E O1'.
  destruct (RebaseHeader_fields cro cro_size s sh Hh U Hsz Hname Eh) as (Uh & St & Oh & Fn & Fp & Fx & Ff).
  destruct (Rebase_phases fuel R cro cro_size s sh s1 tt Hh Uh W St Eh E)
    as (a1 & a2 & a3 & a4 & a5 & a6 & g1 & g2 & g3 & g4 & g5 & [G1 I1] & [G2 I2] & O23 & [G3 I3] & [G4 I4] & [G5 I5] & O6 & N).
  rewrite !Forall_cons in N. destruct N as (N0 & N1 & N2 & N3 & N4 & N5 & N6 & N7 & _).
  destruct W as [P Pd L1 L2 L3 L4 L5].
  set (X b := R b \/ link_field_byte cro b) in *.
  assert (HRX : forall b, R b -> X b) by (by left).
  assert (O6' : out X (host a6) (host s1')).
  { eapply same_outside_trans; [|exact O1']. by eapply out_weaken. }
  destruct (bracket_laid (host sh) cro R a5 a6 s1' ImportAnonymousSymbolEntry ImportAnonymousSymbolNum (un_anonymous cro) g5)
    as (c5 & Ec5 & O5 & U5); try done; [intros [? ?] [? ?]; split; [done|by apply unrebased_u32]|].
  destruct (bracket_laid (host sh) cro R a4 a5 c5 ImportIndexedSymbolEntry ImportIndexedSymbolNum (un_indexed cro) g4)
    as (c4 & Ec4 & O4 & U4); try done; [intros [? ?] [? ?]; split; [done|by apply unrebased_u32]|].
  destruct (bracket_laid (host sh) cro R a3 a4 c4 ImportNamedSymbolEntry ImportNamedSymbolNum (un_named cro) g3)
    as (c3 & Ec3 & O3 & U3); try done; [intros [? ?] [? ?]; split; by apply unrebased_u32|].
  destruct (bracket_laid (host sh) cro R a1 a2 c3 ImportModuleEntry ImportModuleNum (un_module cro) g2)
    as (c2 & Ec2 & O2 & U2); try done.
  { intros [? ? ? ? ?] (? & ? & ? & ? & ?). split_and!; try done; by apply unrebased_u32. }
  { eapply same_outside_trans; [|exact O3]. by eapply out_weaken. }
  destruct (bracket_laid (host sh) cro R sh a1 c2 ExportNamedSymbolEntry ExportNamedSymbolNum (un_export cro) g1)
    as (c1 & Ec1 & O1 & U1); try done; [intros [? ?] [? ?]; split; [by apply unrebased_u32|done]|].
  destruct (Unrebase_header cro c1 Hh U1) as (s2 & Es2 & Oc & Us2 & Fc).
  exists s2. split.
  { unfold Unrebase. erewrite bind_Done by exact Ec5. erewrite bind_Done by exact Ec4.
    erewrite bind_Done by exact Ec3. erewrite bind_Done by exact Ec2. erewrite bind_Done by exact Ec1.
    erewrite bind_Done by reflexivity. exact Es2. }
  eapply restored_outside; [exact Hh|exact U|exact Us2|exact Oh|exact O1|exact Oc| | |].
  - intros b Hr Hb. apply (patch_apart _ _ _ _ _ P b Hr). by left.
  - intros f Hf Hin Ef. rewrite Fc by done. rewrite bool_decide_eq_true_2 by done.
    rewrite Ef. specialize (Ff f Hf). by rewrite bool_decide_eq_true_2 in Ff.
  - intros f Hf Hin Ef. rewrite Fc by done. rewrite bool_decide_eq_false_2 by done.
    specialize (Ff f Hf). rewrite bool_decide_eq_false_2 in Ff by done.
    case_bool_decide as Hz; [|rewrite Ef; [done|set_solver]].
    by repeat (apply elem_of_cons in Hz as [->|Hz]; [done|]); apply elem_of_nil in Hz.
Qed.
End Unrebase.
