(* ===== verification/CroModel.v ===== *)
(** * CroModel: a module in flat memory

    The page tables of [ProcessModel] with accesses through them, a small module with
    two exports and an import of each kind, and the runs that the theorems on modules
    are applied to. *)
From S2P Require Import Prelude Result Process ProcessModel Ipc IpcModel Cro CroMemory CroLists.
From S2P Require Import CroTables CroSymbols CroRelocations CroRebase CroUnrebase.

Local Open Scope Z_scope.

(** ** The instance *)

#[export] Instance the_words : WordMemory (@PageTable the_memory) := {|
  Read8 pt h a := u8_at (read_mapped pt h a 1) 0;
  Read32 pt h a := le_value (read_mapped pt h a 4);
  Write32 pt h a v := write_mapped pt h a (le32 v);
  ReadCString pt h a n := c_string (read_mapped pt h a n)
|}.

Lemma c_string_prefix l k : u8_at l k = 0 -> (k < length l)%nat -> c_string l = c_string (take (S k) l).
Proof.
  revert k. induction l as [|b l IH]; intros k E Hk; [done|]. simpl in *.
  destruct (Z.eqb_spec b 0) as [|Hb]; [done|]. destruct k as [|k]; [by destruct Hb|].
  f_equal. rewrite (IH k); [done|exact E|lia].
Qed.

Lemma read_mapped_prefix pt h a n m : 0 <= m <= n -> read_mapped pt h a m = take (Z.to_nat m) (read_mapped pt h a n).
Proof.
  intros Hm. unfold read_mapped. rewrite <-fmap_take. f_equal.
  rewrite take_seq. f_equal. lia.
Qed.

Lemma read_mapped_nth pt h a n k : (k < Z.to_nat n)%nat -> nth k (read_mapped pt h a n) 0 = h (pt (a + Z.of_nat k)).
Proof.
  intros Hk. apply nth_lookup_Some. unfold read_mapped.
  by rewrite list_lookup_fmap, lookup_seq_lt by done.
Qed.

Lemma write_mapped_other pt h a l p :
  (forall i, 0 <= i < Z.of_nat (length l) -> Some (pt (a + i)) <> Some p) -> write_mapped pt h a l p = h p.
Proof.
  intros Hp. unfold write_mapped. destruct (find _ _) as [i|] eqn:E; [|done].
  apply find_some in E as [Hi%in_seq Ei%Z.eqb_eq]. destruct (Hp (Z.of_nat i)); [lia|congruence].
Qed.

Lemma write_mapped_same pt h a l i p b : l !! i = Some b -> Some (pt (a + Z.of_nat i)) = Some p ->
  (forall j, Some (pt (a + Z.of_nat j)) = Some p -> (j < length l)%nat -> j = i) -> write_mapped pt h a l p = b.
Proof.
  intros Hb [= Hp] Hj. pose proof (lookup_lt_Some _ _ _ Hb) as Hi. unfold write_mapped.
  destruct (find _ _) as [j|] eqn:E.
  - apply find_some in E as [Hjs%in_seq Ej%Z.eqb_eq]. rewrite (Hj j) by (congruence || lia).
    by apply nth_lookup_Some.
  - apply find_none with (x := i) in E; [|apply in_seq; lia]. by apply Z.eqb_neq in E.
Qed.

#[export] Instance the_words_laws : WordMemoryLaws (@PageTable the_memory).
Proof.
  refine {| locate pt a := Some (pt a) |}.
  - done.
  - done.
  - done.
  - intros pt h a n k Hk Hm E. cbn in *. rewrite (read_mapped_prefix pt h a n (k + 1)) by lia.
    replace (Z.to_nat (k + 1)) with (S (Z.to_nat k)) by lia. apply c_string_prefix.
    + unfold u8_at in *. rewrite read_mapped_nth in * by lia. exact E.
    + unfold read_mapped. rewrite length_fmap, length_seq. lia.
  - intros pt h a n Hm. cbn. unfold read_mapped. apply list_eq. intros i.
    rewrite !list_lookup_fmap. destruct (decide (i < Z.to_nat n)%nat) as [Hi|Hi].
    + by rewrite lookup_seq_lt, lookup_seqZ_lt by lia.
    + by rewrite lookup_seq_ge, lookup_seqZ_ge by lia.
  - intros pt h a l p _. apply write_mapped_other.
  - intros pt h a l i p b _. apply write_mapped_same.
Defined.

(** Every address is its own host address. *)
Definition flat_table : Z -> Z := fun a => a.
Definition all_mapped (a : Z) : Prop := is_u32 a.

Lemma flat_ok : flat (PageTable := @PageTable the_memory) flat_table flat_table all_mapped.
Proof.
  split; try done.
  intros a b _ _ [= E]. exact E.
Qed.

(** ** Lists of modules *)

Definition empty_memory : Linker := mkLinker (fun _ => 0) [].
Definition some_modules : list Z := [0x1000; 0x2000; 0x3000; 0x4000].

Lemma some_modules_ok : module_space all_mapped some_modules 0x1000.
Proof.
  split.
  - intros m Hm i Hi. unfold CRO_HEADER_SIZE in Hi. unfold all_mapped, is_u32.
    repeat (apply elem_of_cons in Hm as [->|Hm]; [lia|]). by apply elem_of_nil in Hm.
  - intros m m' Hm Hm'. unfold apart, CRO_HEADER_SIZE.
    repeat (apply elem_of_cons in Hm as [->|Hm]; [|]); [..|by apply elem_of_nil in Hm];
      repeat (apply elem_of_cons in Hm' as [->|Hm']; [lia|]); by apply elem_of_nil in Hm'.
  - by apply (bool_decide_unpack _).
  - by apply (bool_decide_unpack _).
Qed.

Definition some_history : list request :=
  [Reg 0x2000 true; Reg 0x3000 true; Reg 0x4000 false; Unreg 0x2000; Reg 0x2000 true].

Lemma module_lists_history_witness :
  apply_requests some_modules 0x1000 some_history (mkModules [] []) = Some (mkModules [0x3000; 0x2000] [0x4000]) /\
  exists s', (InitCRS flat_table 0x1000 ;; run_requests flat_table 0x1000 some_history)%hle empty_memory = Done s' tt /\
    listed flat_table some_modules 0x1000 s' (mkModules [0x3000; 0x2000] [0x4000]) /\
    same_outside flat_table all_mapped (link_byte some_modules) (host empty_memory) (host s') /\
    forall func fuel, keeps_lists flat_table some_modules 0x1000 (mkModules [0x3000; 0x2000] [0x4000]) func ->
      (3 <= fuel)%nat ->
      ForEachAutoLinkCRO flat_table fuel 0x1000 func s' = visit [0x1000; 0x3000; 0x2000] func s'.
Proof.
  split; [reflexivity|].
  apply (module_lists_history flat_table flat_table all_mapped flat_ok some_modules 0x1000 some_modules_ok
    some_history (mkModules [0x3000; 0x2000] [0x4000]) empty_memory).
  reflexivity.
Defined.

(** ** A module *)

(** The file of a module that exports "a" and "b" and imports from "x", with offsets from
    [b]: 0 in the file, the address of the module once it is loaded. *)
Definition header_fields (b : Z) : list Z :=
  [MAGIC_CRO0; 0; 0; 0; 456; 0; 0; 0; 0; 0; 0; 0;
   b + 312; 16; b + 456; 0; b + 328; 2; b + 332; 1;
   b + 344; 2; b + 392; 0; b + 392; 4; b + 360; 4;
   b + 396; 1; b + 416; 1; b + 428; 1; b + 436; 1; b + 444; 1; b + 452; 2;
   b + 456; 0; b + 456; 0; b + 456; 0].

Definition the_relocation : RelocationEntry := mkRelocation 64 AbsoluteAddress 1 0 0 5.

Definition module_file (b : Z) : list Z :=
  replicate 128 0 ++ words_bytes (header_fields b) ++
  replicate 16 7 ++                                                  (* code *)
  [109; 0; 0; 0] ++                                                  (* the name "m" *)
  to_bytes (mkSegment (0x10000 + 312) 16 Code) ++
  to_bytes (mkExportNamed (b + 392) 0) ++ to_bytes (mkExportNamed (b + 394) 128) ++
  to_bytes (mkTree 0 1 1 0) ++ to_bytes (mkTree 0 0x8002 0x8003 0) ++
  to_bytes (mkTree 0 0 0 1) ++ to_bytes (mkTree 0 0 0 0) ++
  [97; 0; 98; 0] ++                                                  (* "a", "b" *)
  to_bytes (mkImportModule (b + 452) (b + 436) 1 (b + 444) 1) ++
  to_bytes the_relocation ++
  to_bytes (mkImportNamed (b + 452) (b + 416)) ++
  to_bytes (mkImportIndexed 0 (b + 416)) ++
  to_bytes (mkImportAnonymous 0 (b + 416)) ++
  [120; 0; 0; 0].                                                    (* "x" *)

Definition the_module : Z := 0x10000.
Definition module_memory (b : Z) : Linker :=
  mkLinker (fun a => nth (Z.to_nat (a - the_module)) (if a <? the_module then [] else module_file b) 0) [].

Example module_file_length : length (module_file 0) = 456%nat.
Proof. reflexivity. Qed.


Notation loaded := (module_memory the_module).
Notation in_flat P := (P flat_table flat_table all_mapped flat_ok) (only parsing).

Lemma range_flat a n : 0 <= a -> a + n <= 4294967296 -> range all_mapped a n.
Proof. intros ?? i Hi. unfold all_mapped, is_u32. lia. Qed.

Lemma the_header : header all_mapped the_module.
Proof. by apply range_flat. Qed.

(** The exports of the module, and its tree: bit 0 tells "a" from "b". *)
Definition the_exports : list (list Z * Z) := [([97], 0); ([98], 128)].
Definition the_tree : trie := Branch 0 (Leaf 1) (Leaf 0).

Lemma base_segments : base flat_table SegmentEntry (host loaded) the_module = the_module + 332.
Proof. by vm_compute. Qed.
Lemma num_segments : segment_num flat_table (host loaded) the_module = 1.
Proof. by vm_compute. Qed.
Lemma base_exports : base flat_table ExportNamedSymbolEntry (host loaded) the_module = the_module + 344.
Proof. by vm_compute. Qed.
Lemma base_tree : base flat_table ExportTreeEntry (host loaded) the_module = the_module + 360.
Proof. by vm_compute. Qed.

Lemma the_segments : segments flat_table all_mapped (host loaded) the_module.
Proof.
  unfold segments, table. rewrite base_segments.
  rewrite num_segments. by apply range_flat.
Qed.

Lemma the_string a c : view flat_table (host loaded) a = c -> view flat_table (host loaded) (a + 1) = 0 ->
  c <> 0 -> 0 <= a < 0x20000 -> string_at flat_table all_mapped (host loaded) a [c].
Proof.
  intros E0 E1 Hc Ha. split; [apply range_flat; simpl; lia|]. split; [|by apply Forall_singleton].
  unfold bytes. change (Z.of_nat (length [c]) + 1) with 2. replace (seqZ a 2) with [a; a + 1].
  - rewrite !fmap_cons. by rewrite E0, E1.
  - rewrite !seqZ_cons by lia. unfold seqZ. simpl. repeat f_equal; lia.
Qed.

Lemma the_exports_ok : exports_at flat_table all_mapped (host loaded) the_module the_exports.
Proof.
  split; [by vm_compute|]. split.
  { unfold table. rewrite base_exports. by apply range_flat. }
  intros [|[|i]] name tag [= <- <-].
  - split; [|by vm_compute]. by apply (the_string (the_module + 392) 97); vm_compute.
  - split; [|by vm_compute]. by apply (the_string (the_module + 394) 98); vm_compute.
Qed.

Lemma the_tree_ok : tree_at flat_table all_mapped (host loaded) the_module the_tree the_exports.
Proof.
  split; [by vm_compute|]. split.
  { unfold table. rewrite base_tree. by apply range_flat. }
  split; [by vm_compute|]. by intros [|[|i]] name tag [= <- <-].
Qed.

Lemma FindExportNamedSymbol_finds_witness :
  FindExportNamedSymbol flat_table flat_table 2 the_module [98] loaded
    = Done loaded (find_export flat_table (host loaded) the_module the_exports [98])
  /\ find_export flat_table (host loaded) the_module the_exports [98] = the_module + 312 + 8.
Proof.
  split; [|by vm_compute].
  apply (FindExportNamedSymbol_finds flat_table flat_table all_mapped flat_ok the_module the_exports the_tree [98] 2 loaded
    the_header the_segments the_exports_ok the_tree_ok).
  apply le_n.
Defined.

(** ** Its relocation *)

Lemma the_batch : batch_at flat_table all_mapped (host loaded) (the_module + 416) [the_relocation].
Proof.
  intros [|i] e [= <-]. split; [by apply range_flat|]. split; [|by vm_compute].
  apply (bool_decide_unpack _). by vm_compute.
Qed.

Lemma the_target : tag_address flat_table (host loaded) the_module 64 = the_module + 316.
Proof. by vm_compute. Qed.

Lemma the_patch : [the_relocation] ≫= patch_of flat_table (host loaded) the_module 0x20000
  = [(the_module + 316, 0x20005)].
Proof.
  cbn [mbind list_bind]. rewrite app_nil_r. unfold patch_of. change (target_position the_relocation) with 64.
  by rewrite the_target.
Qed.

Lemma ApplyRelocationBatch_applies_witness :
  exists s', ApplyRelocationBatch flat_table flat_table 1 the_module (the_module + 416) 0x20000 false loaded = Done s' tt /\
    invalidated s' = [(the_module + 316, 4)] /\
    forall b, all_mapped b -> view flat_table (host s') b =
      if decide (b = the_module + 422) then 1
      else patched [(the_module + 316, 0x20005)] (view flat_table (host loaded)) b.
Proof.
  destruct (ApplyRelocationBatch_applies flat_table flat_table all_mapped flat_ok the_module (the_module + 416)
    0x20000 false [the_relocation] 1 loaded the_header the_segments) as (s' & E & I & V).
  - by left.
  - exact the_batch.
  - done.
  - apply Forall_singleton. unfold entry_applies. change (target_position the_relocation) with 64.
    rewrite the_target. split; [done|]. split; [done|]. intros _. by apply range_flat.
  - apply Forall_singleton. unfold clear_of. change (target_position the_relocation) with 64.
    rewrite the_target. intros b Hb. unfold module_byte.
    rewrite base_segments.
    rewrite num_segments.
    unfold CRO_HEADER_SIZE. simpl. unfold the_module in *. lia.
  - apply le_n.
  - exists s'. split; [exact E|]. rewrite the_patch in I, V. split; [exact I|].
    intros b Hb. rewrite (V b Hb). by replace (the_module + 416 + 6) with (the_module + 422) by lia.
Defined.

(** ** Rebased and unrebased *)

Definition unloaded : Linker := module_memory 0.
Definition state_or (s : Linker) (r : outcome Linker unit) : Linker := match r with Done s' _ => s' | _ => s end.
Definition headed : Linker := state_or unloaded (RebaseHeader flat_table the_module 0x1000 unloaded).
Definition rebased_memory : Linker :=
  state_or unloaded (Rebase flat_table flat_table 10 the_module 0 0x1000 0 0 0 0 true unloaded).

(** The code, with three bytes after it, and the table of external relocations. *)
Definition relocated_byte (b : Z) : Prop :=
  the_module + 312 <= b < the_module + 331 \/ the_module + 416 <= b < the_module + 428.

Lemma state_or_Done s (r : outcome Linker unit) :
  match r with Done _ _ => true | _ => false end = true -> r = Done (state_or s r) tt.
Proof. destruct r as [s' []| |]; done. Qed.

Lemma headed_run : RebaseHeader flat_table the_module 0x1000 unloaded = Done headed tt.
Proof. apply state_or_Done. by vm_compute. Qed.

Lemma rebased_memory_run : Rebase flat_table flat_table 10 the_module 0 0x1000 0 0 0 0 true unloaded = Done rebased_memory tt.
Proof. apply state_or_Done. by vm_compute. Qed.

Notation headed_field := (field flat_table (host headed) the_module).

Definition table_fields : list HeaderField :=
  [SegmentTableOffset; SegmentNum; ExportNamedSymbolTableOffset; ExportNamedSymbolNum;
   ImportModuleTableOffset; ImportModuleNum; ExternalRelocationTableOffset; ExternalRelocationNum;
   ImportNamedSymbolTableOffset; ImportNamedSymbolNum; ImportIndexedSymbolTableOffset; ImportIndexedSymbolNum;
   ImportAnonymousSymbolTableOffset; ImportAnonymousSymbolNum; InternalRelocationTableOffset; InternalRelocationNum].
Definition table_values : list Z :=
  [the_module + 332; 1; the_module + 344; 2; the_module + 396; 1; the_module + 416; 1;
   the_module + 428; 1; the_module + 436; 1; the_module + 444; 1; the_module + 456; 0].

Lemma headed_values : headed_field <$> table_fields = table_values.
Proof. by vm_compute. Qed.

Lemma headed_segment : entry flat_table SegmentEntry (host headed) the_module 0 = mkSegment (the_module + 312) 16 Code.
Proof. by vm_compute. Qed.

Lemma headed_at i f v : table_fields !! i = Some f -> table_values !! i = Some v -> headed_field f = v.
Proof.
  intros Hf Hv. pose proof (list_lookup_fmap headed_field table_fields i) as E.
  rewrite headed_values, Hf, Hv in E. apply (inj Some) in E. symmetry. exact E.
Qed.

Lemma unloaded_u8 : all_u8 flat_table all_mapped (host unloaded).
Proof.
  assert (F : Forall is_u8 (module_file 0)) by (apply (bool_decide_unpack _); by vm_compute).
  intros b _. change (view flat_table (host unloaded) b)
    with (nth (Z.to_nat (b - the_module)) (if b <? the_module then [] else module_file 0) 0).
  destruct (nth_in_or_default (Z.to_nat (b - the_module)) (if b <? the_module then [] else module_file 0) 0) as [Hi| ->]; [|done].
  apply list_elem_of_In in Hi. destruct (b <? the_module); [by apply elem_of_nil in Hi|].
  rewrite Forall_forall in F. by apply F.
Qed.

(** The addresses of a module with one segment. *)
Lemma one_segment h cro e tag : segment_num flat_table h cro = 1 -> entry flat_table SegmentEntry h cro 0 = e ->
  0 <= seg_offset e -> seg_offset e + seg_size e <= 4294967296 -> 0 <= tag ->
  tag_address flat_table h cro tag <> 0 ->
  segment_index tag = 0 /\ seg_offset e <= tag_address flat_table h cro tag < seg_offset e + seg_size e.
Proof.
  intros Hs He Ho Hz Hn Ht. pose proof (tag_segment flat_table _ _ _ Ht) as Hi.
  rewrite Hs in Hi. assert (E0 : segment_index tag = 0) by lia. split; [done|].
  revert Ht. unfold tag_address. rewrite E0, He, Hs.
  destruct (Z.leb_spec 1 0); [lia|]. destruct (Z.leb_spec (seg_size e) (offset_into_segment tag)); [done|]. intros _. cbn [orb].
  assert (0 <= offset_into_segment tag) by (by apply Z.shiftr_nonneg).
  rewrite u32_small; unfold is_u32; lia.
Qed.

Lemma headed_tag tag : 0 <= tag -> tag_address flat_table (host headed) the_module tag <> 0 ->
  segment_index tag = 0 /\ the_module + 312 <= tag_address flat_table (host headed) the_module tag < the_module + 328.
Proof.
  assert (H0 : 0 <= the_module + 312) by done. assert (H1 : the_module + 312 + 16 <= 4294967296) by done.
  exact (one_segment (host headed) the_module _ tag (headed_at 1 SegmentNum 1 eq_refl eq_refl) headed_segment H0 H1).
Qed.

Lemma headed_laid T `{!Entry T} i base_address num num_field : table_fields !! i = Some (TABLE_OFFSET_FIELD T) ->
  table_values !! i = Some base_address -> table_fields !! S i = Some num_field -> table_values !! S i = Some num ->
  the_module + 344 <= base_address -> 0 <= num -> 0 < sizeof T ->
  (base_address + num * sizeof T <= the_module + 416 \/ the_module + 428 <= base_address) ->
  base_address + num * sizeof T <= 4294967296 ->
  laid flat_table all_mapped T num_field relocated_byte (host headed) the_module.
Proof.
  intros Hb Hbv Hn Hnv Hlo H0 Hs Hap Hhi.
  assert (Eb : base flat_table T (host headed) the_module = base_address) by exact (headed_at _ _ _ Hb Hbv).
  assert (En : headed_field num_field = num) by exact (headed_at _ _ _ Hn Hnv).
  assert (Es : base flat_table SegmentEntry (host headed) the_module = the_module + 332)
    by exact (headed_at 0 SegmentTableOffset _ eq_refl eq_refl).
  assert (Em : segment_num flat_table (host headed) the_module = 1) by exact (headed_at 1 SegmentNum 1 eq_refl eq_refl).
  unfold laid, placed, table_byte, table, module_byte. rewrite Eb, En, Es, Em.
  change (sizeof SegmentEntry) with 12. unfold CRO_HEADER_SIZE, relocated_byte.
  clear Eb En Es Em Hb Hbv Hn Hnv. set (sz := sizeof T) in *. clearbody sz.
  assert (0 <= num * sz) by lia. change the_module with 65536 in *.
  split; [split; [done|]; split; [apply range_flat; lia|lia]|]. intros b Hb. lia.
Qed.

Lemma headed_patchable : patchable flat_table all_mapped relocated_byte (host headed) the_module.
Proof.
  assert (Es : base flat_table SegmentEntry (host headed) the_module = the_module + 332)
    by exact (headed_at 0 SegmentTableOffset _ eq_refl eq_refl).
  assert (Em : segment_num flat_table (host headed) the_module = 1) by exact (headed_at 1 SegmentNum 1 eq_refl eq_refl).
  assert (Ex : base flat_table RelocationEntry (host headed) the_module = the_module + 416)
    by exact (headed_at 6 ExternalRelocationTableOffset _ eq_refl eq_refl).
  assert (En : headed_field ExternalRelocationNum = 1) by exact (headed_at 7 ExternalRelocationNum _ eq_refl eq_refl).
  assert (Ei : base flat_table InternalRelocationEntry (host headed) the_module = the_module + 456)
    by exact (headed_at 14 InternalRelocationTableOffset _ eq_refl eq_refl).
  assert (Ej : headed_field InternalRelocationNum = 0) by exact (headed_at 15 InternalRelocationNum _ eq_refl eq_refl).
  split.
  - intros tag Hn Ht b. pose proof (headed_tag tag Hn Ht) as [_ Hr]. revert Hr.
    generalize (tag_address flat_table (host headed) the_module tag). clear. intros t.
    unfold all_mapped, is_u32, relocated_byte, the_module. lia.
  - intros b Hb. unfold module_byte. rewrite Es, Em. clear -Hb. revert Hb.
    unfold relocated_byte, the_module, CRO_HEADER_SIZE. simpl. lia.
  - unfold segments, table. rewrite Es, Em. by apply range_flat.
  - unfold placed, table. rewrite Ex, En. split; [done|]. split; [by apply range_flat|done].
  - intros b. unfold table_byte. rewrite Ex, En. clear. unfold relocated_byte, the_module. simpl. lia.
  - unfold table. rewrite Ei, Ej. by apply range_flat.
Qed.

Lemma headed_data : patchable_data flat_table all_mapped relocated_byte (host headed) the_module 0.
Proof.
  intros tag Hn Ht. pose proof (headed_tag tag Hn Ht) as [E0 _]. by rewrite E0, headed_segment.
Qed.

Lemma headed_well_laid : well_laid flat_table all_mapped relocated_byte (host headed) the_module.
Proof.
  split; [exact headed_patchable|exact headed_data|..].
  - apply (headed_laid ExportNamedSymbolEntry 2 (the_module + 344) 2); (done || by left).
  - apply (headed_laid ImportModuleEntry 4 (the_module + 396) 1); (done || by left).
  - apply (headed_laid ImportNamedSymbolEntry 8 (the_module + 428) 1); (done || by right).
  - apply (headed_laid ImportIndexedSymbolEntry 10 (the_module + 436) 1); (done || by right).
  - apply (headed_laid ImportAnonymousSymbolEntry 12 (the_module + 444) 1); (done || by right).
Qed.

Lemma unloaded_fits : the_module + field flat_table (host unloaded) the_module FileSize < 4294967296 /\
  the_module + field flat_table (host unloaded) the_module NameOffset < 4294967296.
Proof. by vm_compute. Qed.

Lemma rebased_u8 : all_u8 flat_table all_mapped (host rebased_memory).
Proof.
  destruct (RebaseHeader_fields flat_table flat_table all_mapped flat_ok the_module 0x1000 unloaded headed the_header
    unloaded_u8 (proj1 unloaded_fits) (proj2 unloaded_fits) headed_run) as (U & St & _).
  destruct (Rebase_phases flat_table flat_table all_mapped flat_ok 10 relocated_byte the_module 0x1000 unloaded headed
    rebased_memory tt the_header U headed_well_laid St headed_run rebased_memory_run)
    as (a1 & a2 & a3 & a4 & a5 & a6 & g1 & g2 & g3 & g4 & g5 & _ & _ & _ & _ & _ & _ & _ & N).
  rewrite !Forall_cons in N. apply N.
Qed.

Lemma Rebase_Unrebase_witness : exists s2,
  Unrebase flat_table flat_table the_module true rebased_memory = Done s2 tt /\
  forall b, all_mapped b -> ~ relocated_byte b -> view flat_table (host s2) b = view flat_table (host unloaded) b.
Proof.
  apply (Rebase_Unrebase flat_table flat_table all_mapped flat_ok 10 relocated_byte the_module 0x1000 unloaded headed
    rebased_memory rebased_memory the_header unloaded_u8 rebased_u8 (proj1 unloaded_fits) (proj2 unloaded_fits) headed_run
    headed_well_laid rebased_memory_run).
  by intros b _ _.
Defined.
