(* ===== verification/LdrRo.v ===== *)
(** * LdrRo: the service that loads modules (core/hle/service/ldr_ro/ldr_ro.cpp, ldr_ro.h)

    The requests of ldr:ro on the memory of a process ([Process]) and its modules
    ([Cro]).  A handler is given the arguments that it pops.  What it pushes is its
    outcome: [Done] with a value is success and that value, [Failed] with an error is
    that error and zeros. *)
From S2P Require Import Prelude Result StdSet MemoryRegion VMManager ResourceLimit.
From S2P Require Import Process Ipc Cro.

Local Open Scope Z_scope.

Section RO.
Context {MS : MemorySystem} `{!GuestMemory PageTable} `{!WordMemory PageTable}.
(** The page table of the running process, and the bounds of the process image. *)
Variables (current : System -> PageTable) (PROCESS_IMAGE_VADDR PROCESS_IMAGE_VADDR_END : Z) (fuel : nat).

Definition ERROR_ALREADY_INITIALIZED : Result :=
  Result_known ErrorDescription.AlreadyInitialized ErrorModule.RO ErrorSummary.Internal ErrorLevel.Permanent.
Definition ERROR_NOT_INITIALIZED : Result :=
  Result_known ErrorDescription.NotInitialized ErrorModule.RO ErrorSummary.Internal ErrorLevel.Permanent.
Definition ERROR_MISALIGNED_ADDRESS : Result :=
  Result_known ErrorDescription.MisalignedAddress ErrorModule.RO ErrorSummary.WrongArgument ErrorLevel.Permanent.
Definition ERROR_MISALIGNED_SIZE : Result :=
  Result_known ErrorDescription.MisalignedSize ErrorModule.RO ErrorSummary.WrongArgument ErrorLevel.Permanent.
Definition ERROR_ILLEGAL_ADDRESS : Result :=
  Result_of 15 ErrorModule.RO ErrorSummary.Internal ErrorLevel.Usage.
Definition ERROR_INVALID_MEMORY_STATE : Result :=
  Result_of 8 ErrorModule.RO ErrorSummary.InvalidState ErrorLevel.Permanent.
Definition ERROR_NOT_LOADED : Result :=
  Result_of 13 ErrorModule.RO ErrorSummary.InvalidState ErrorLevel.Permanent.
Definition ERROR_NOT_ZERO : Result :=
  Result_of 29 ErrorModule.RO ErrorSummary.Internal ErrorLevel.Usage.

(** The process of the request, the cache ranges invalidated, and the [ClientSlot] of the
    session: the address of the static module, 0 without one. *)
Record RO := mkRO {
  system : System;
  cache_invalidated : list (Z * Z);
  loaded_crs : Z
}.

Definition on_process {A} (m : op System A) : op RO A := fun s =>
  let update x := mkRO x (cache_invalidated s) (loaded_crs s) in
  match m (system s) with
  | Done x a => Done (update x) a
  | Failed x rc => Failed (update x) rc
  | Aborted => Aborted
  end.

(** A function of [CROHelper]: memory as the page tables are now. *)
Definition on_cro {A} (m : PageTable -> PageTable -> op Linker A) : op RO A := fun s =>
  let update l := mkRO (with_host (host l) (system s)) (invalidated l) (loaded_crs s) in
  match m (current (system s)) (page_table (vm_manager (Process.process (system s))))
          (mkLinker (host_memory (system s)) (cache_invalidated s)) with
  | Done l a => Done (update l) a
  | Failed l rc => Failed (update l) rc
  | Aborted => Aborted
  end.

Definition get_loaded_crs : op RO Z := fun s => Done s (loaded_crs s).
Definition set_loaded_crs (crs : Z) : op RO unit := fun s =>
  Done (mkRO (system s) (cache_invalidated s) crs) tt.

(** [system.InvalidateCacheRange] *)
Definition invalidate_cache (start length : Z) : op RO unit := fun s =>
  Done (mkRO (system s) ((start, length) :: cache_invalidated s) (loaded_crs s)) tt.

(** The areas from the one of the buffer on. *)
Fixpoint verify_areas (l : list VirtualMemoryArea) (buffer_end : Z) : bool :=
  match l with
  | [] => false
  | v :: l =>
      if negb (bool_decide (permissions v = ReadWrite)) || negb (bool_decide (meminfo_state v = Private))
      then false
      else if buffer_end <=? u32 (base v + size v) then true
      else verify_areas l buffer_end
  end.

Definition VerifyBufferState (buffer_ptr size : Z) : op System bool :=
  (it <- on_vm (FindVMA buffer_ptr) ;;
   ret (verify_areas (snd it) (u32 (buffer_ptr + size))))%hle.

(** [x & CITRA_PAGE_MASK] *)
Definition misaligned (x : Z) : bool := negb (Z.land x CITRA_PAGE_MASK =? 0).

(** The checks that [Initialize] and [LoadCRO] make of a buffer and its target. *)
Definition check_buffer (buffer_ptr address size : Z) : op RO unit :=
  (R_UNLESS (CRO_HEADER_SIZE <=? size) ERROR_BUFFER_TOO_SMALL ;;
   R_UNLESS (negb (misaligned buffer_ptr)) ERROR_MISALIGNED_ADDRESS ;;
   R_UNLESS (negb (misaligned address)) ERROR_MISALIGNED_ADDRESS ;;
   R_UNLESS (negb (misaligned size)) ERROR_MISALIGNED_SIZE ;;
   verified <- on_process (VerifyBufferState buffer_ptr size) ;;
   R_UNLESS verified ERROR_INVALID_MEMORY_STATE ;;
   R_UNLESS (negb ((address <? PROCESS_IMAGE_VADDR) || (PROCESS_IMAGE_VADDR_END <? u32 (address + size))))
     ERROR_ILLEGAL_ADDRESS)%hle.

Definition Initialize (crs_buffer_ptr crs_size crs_address : Z) : op RO unit :=
  (loaded <- get_loaded_crs ;;
   R_UNLESS (loaded =? 0) ERROR_ALREADY_INITIALIZED ;;
   check_buffer crs_buffer_ptr crs_address crs_size ;;
   on_process (Map crs_address crs_buffer_ptr crs_size Read true) ;;
   on_cro (fun c _ => InitCRS c crs_address) ;;
   on_cro (fun c p => Rebase c p fuel crs_address 0 crs_size 0 0 0 0 true) ;;
   set_loaded_crs crs_address)%hle.

Definition LoadCRR (crr_buffer_ptr crr_size : Z) : op RO unit := ret tt.
Definition UnloadCRR (crr_buffer_ptr : Z) : op RO unit := ret tt.

(** On an error [cleanup] runs too, and its own result is dropped. *)
Definition on_error {A} (m : op RO A) (cleanup : op RO unit) : op RO A := fun s =>
  match m s with
  | Failed s1 rc =>
      match cleanup s1 with
      | Done s2 _ | Failed s2 _ => Failed s2 rc
      | Aborted => Aborted
      end
  | o => o
  end.

Definition LoadCRO (link_on_load_bug_fix : bool) (cro_buffer_ptr cro_address cro_size data_segment_address
    zero data_segment_size bss_segment_address bss_segment_size : Z) (auto_link : bool)
    (fix_level crr_address : Z) : op RO Z :=
  (crs <- get_loaded_crs ;;
   R_UNLESS (negb (crs =? 0)) ERROR_NOT_INITIALIZED ;;
   check_buffer cro_buffer_ptr cro_address cro_size ;;
   R_UNLESS (zero =? 0) ERROR_NOT_ZERO ;;
   on_process (Map cro_address cro_buffer_ptr cro_size Read true) ;;
   on_error
     (on_cro (fun _ _ => VerifyHash cro_address cro_size crr_address) ;;
      on_cro (fun c p => Rebase c p fuel cro_address crs cro_size data_segment_address data_segment_size
                           bss_segment_address bss_segment_size false) ;;
      on_cro (fun c p => Link c p fuel cro_address crs link_on_load_bug_fix) ;;
      on_cro (fun c _ => Register c cro_address crs auto_link) ;;
      fix_size <- on_cro (fun c _ => Fix c CITRA_PAGE_SIZE cro_address fix_level) ;;
      (if fix_size =? cro_size then ret tt
       else on_process (Unmap (u32 (cro_address + fix_size)) (u32 (cro_buffer_ptr + fix_size))
                          (u32 (cro_size - fix_size)) ReadWrite true)) ;;
      let* (exe_begin, exe_size) := on_cro (fun c p => GetExecutablePages c p CITRA_PAGE_SIZE cro_address) in
      ((if exe_begin =? 0 then ret tt
        else on_process (on_vm (ReprotectRange MapMemoryRegion UnmapRegion CITRA_PAGE_MASK
                                  exe_begin exe_size ReadExecute))) ;;
       invalidate_cache cro_address cro_size ;;
       ret fix_size))
     (on_process (Unmap cro_address cro_buffer_ptr cro_size ReadWrite true)))%hle.

(** The checks of a module that was loaded. *)
Definition check_loaded (cro_address : Z) : op RO Z :=
  (crs <- get_loaded_crs ;;
   R_UNLESS (negb (crs =? 0)) ERROR_NOT_INITIALIZED ;;
   R_UNLESS (negb (misaligned cro_address)) ERROR_MISALIGNED_ADDRESS ;;
   loaded <- on_cro (fun c _ => IsLoaded c cro_address) ;;
   R_UNLESS loaded ERROR_NOT_LOADED ;;
   ret crs)%hle.

(** The result of [m], with [exit] after it in either case. *)
Definition then_always (m exit : op RO unit) : op RO unit := fun s =>
  match m s with
  | Done s1 _ => exit s1
  | Failed s1 rc => (exit ;; fail rc)%hle s1
  | Aborted => Aborted
  end.

Definition UnloadCRO (cro_address zero cro_buffer_ptr : Z) : op RO unit :=
  (crs <- check_loaded cro_address ;;
   fixed_size <- on_cro (fun c _ => GetFixedSize c cro_address) ;;
   on_cro (fun c _ => Unregister c cro_address crs) ;;
   on_cro (fun c p => Unlink c p fuel cro_address crs) ;;
   fixed <- on_cro (fun c _ => IsFixed c cro_address) ;;
   (if (fixed : bool) then ret tt else on_cro (fun c p => ClearRelocations c p cro_address)) ;;
   on_cro (fun c p => Unrebase c p cro_address false) ;;
   then_always (on_process (Unmap cro_address cro_buffer_ptr fixed_size ReadWrite true))
     (invalidate_cache cro_address fixed_size))%hle.

Definition LinkCRO (cro_address : Z) : op RO unit :=
  (crs <- check_loaded cro_address ;;
   on_cro (fun c p => Link c p fuel cro_address crs false))%hle.

Definition UnlinkCRO (cro_address : Z) : op RO unit :=
  (crs <- check_loaded cro_address ;;
   on_cro (fun c p => Unlink c p fuel cro_address crs))%hle.

Definition Shutdown (crs_buffer_ptr : Z) : op RO unit :=
  (crs <- get_loaded_crs ;;
   R_UNLESS (negb (crs =? 0)) ERROR_NOT_INITIALIZED ;;
   on_cro (fun c p => Unrebase c p crs true) ;;
   file_size <- on_cro (fun c _ => GetFileSize c crs) ;;
   then_always (on_process (Unmap crs crs_buffer_ptr file_size ReadWrite true)) (set_loaded_crs 0))%hle.
End RO.

(** ** Requests that are refused *)

Section Refused.
Context {MS : MemorySystem} `{!GuestMemory PageTable} `{!WordMemory PageTable}.
Variables (current : System -> PageTable) (PROCESS_IMAGE_VADDR PROCESS_IMAGE_VADDR_END : Z) (fuel : nat).

(** A second static module is refused. *)
Lemma Initialize_twice crs_buffer_ptr crs_size crs_address s : loaded_crs s <> 0 ->
  Initialize current PROCESS_IMAGE_VADDR PROCESS_IMAGE_VADDR_END fuel crs_buffer_ptr crs_size crs_address s
    = Failed s ERROR_ALREADY_INITIALIZED.
Proof.
  intros Hs. unfold Initialize. erewrite bind_Done by reflexivity.
  by rewrite (proj2 (Z.eqb_neq _ 0)).
Qed.

(** Without one, so are modules. *)
Lemma check_loaded_none cro s : loaded_crs s = 0 -> check_loaded current cro s = Failed s ERROR_NOT_INITIALIZED.
Proof. intros Hs. unfold check_loaded. erewrite bind_Done by reflexivity. by rewrite Hs. Qed.

(** The requests that need a static module. *)
Definition needs_static (r : op RO unit) : Prop := forall s, loaded_crs s = 0 -> r s = Failed s ERROR_NOT_INITIALIZED.

Lemma check_loaded_first {A} cro (k : Z -> op RO A) s : loaded_crs s = 0 ->
  (crs <- check_loaded current cro ;; k crs)%hle s = Failed s ERROR_NOT_INITIALIZED.
Proof. intros Hs. unfold bind at 1. by rewrite check_loaded_none. Qed.

Lemma UnloadCRO_needs_static cro zero buffer : needs_static (UnloadCRO current fuel cro zero buffer).
Proof. intros s Hs. by apply check_loaded_first. Qed.
Lemma LinkCRO_needs_static cro : needs_static (LinkCRO current fuel cro).
Proof. intros s Hs. by apply check_loaded_first. Qed.
Lemma UnlinkCRO_needs_static cro : needs_static (UnlinkCRO current fuel cro).
Proof. intros s Hs. by apply check_loaded_first. Qed.
Lemma Shutdown_needs_static buffer : needs_static (Shutdown current buffer).
Proof. intros s Hs. unfold Shutdown. erewrite bind_Done by reflexivity. by rewrite Hs. Qed.

(** [FIX_BARRIERS] has four levels: [Fix] with a higher one, which [LoadCRO] takes from the
    guest as it is, reads past its end. *)
Lemma Fix_level_out_of_range (c : PageTable) page_size cro fix_level s : 4 <= fix_level ->
  Fix c page_size cro fix_level s = Aborted.
Proof.
  intros Hf. unfold Fix, GetFixEnd. unfold bind at 1.
  erewrite bind_Done by reflexivity. erewrite bind_Done by reflexivity. cbv zeta. unfold bind at 1, fix_barrier.
  by rewrite lookup_ge_None_2 by (simpl; lia).
Qed.
End Refused.
