(* ===== verification/ArmSupp.v ===== *)
(** * ArmSupp: the arithmetic helpers of the ARM interpreter (core/arm/skyeye_common/armsupp.h, armsupp.cpp)

    Every function works on unsigned words; a signed parameter is given by its
    value.  Out-parameters are returned in a tuple. *)
From S2P Require Import Prelude.

Local Open Scope Z_scope.

(** The macros, for a 32-bit operand. *)
Definition BITS (s a b : Z) : Z := Z.shiftr (u32 (Z.shiftl s (31 - b))) (32 - b + a - 1).
Definition BIT (s n : Z) : Z := Z.land (Z.shiftr s n) 1.
Definition POS (i : Z) : Z := Z.shiftr (u32 (Z.lnot i)) 31.
Definition NEG (i : Z) : Z := Z.shiftr i 31.

(** C's conversion of an integer to a truth value. *)
Definition truth (x : Z) : bool := negb (x =? 0).

Definition ARMul_UnsignedAbsoluteDifference (left right : Z) : Z :=
  if right <? left then u8 (left - right) else u8 (right - left).

(** The result, the carry and the overflow. *)
Definition AddWithCarry (left right carry_in : Z) : Z * bool * bool :=
  let unsigned_sum := u64 (u64 (left + right) + carry_in) in
  let signed_sum := s32 left + s32 right + carry_in in
  let result := Z.land unsigned_sum 0xFFFFFFFF in
  (u32 result, negb (result =? unsigned_sum), negb (s32 result =? signed_sum)).

Definition AddOverflow (a b result : Z) : bool :=
  (truth (NEG a) && truth (NEG b) && truth (POS result)) ||
  (truth (POS a) && truth (POS b) && truth (NEG result)).

Definition SubOverflow (a b result : Z) : bool :=
  (truth (NEG a) && truth (POS b) && truth (POS result)) ||
  (truth (POS a) && truth (NEG b) && truth (NEG result)).

Definition ARMul_AddOverflowQ (a b : Z) : bool :=
  let result := u32 (a + b) in
  if truth (Z.land (Z.lxor result a) 0x80000000) && (Z.land (Z.lxor a b) 0x80000000 =? 0)
  then true else false.

Definition ARMul_SignedSaturatedAdd8 (left right : Z) : Z :=
  let result := u8 (left + right) in
  if truth (Z.land (Z.lxor result left) 0x80) && (Z.land (Z.lxor left right) 0x80 =? 0) then
    if truth (Z.land left 0x80) then 0x80 else 0x7F
  else result.

Definition ARMul_SignedSaturatedSub8 (left right : Z) : Z :=
  let result := u8 (left - right) in
  if truth (Z.land (Z.lxor result left) 0x80) && negb (Z.land (Z.lxor left right) 0x80 =? 0) then
    if truth (Z.land left 0x80) then 0x80 else 0x7F
  else result.

Definition ARMul_SignedSaturatedAdd16 (left right : Z) : Z :=
  let result := u16 (left + right) in
  if truth (Z.land (Z.lxor result left) 0x8000) && (Z.land (Z.lxor left right) 0x8000 =? 0) then
    if truth (Z.land left 0x8000) then 0x8000 else 0x7FFF
  else result.

Definition ARMul_SignedSaturatedSub16 (left right : Z) : Z :=
  let result := u16 (left - right) in
  if truth (Z.land (Z.lxor result left) 0x8000) && negb (Z.land (Z.lxor left right) 0x8000 =? 0) then
    if truth (Z.land left 0x8000) then 0x8000 else 0x7FFF
  else result.

Definition ARMul_UnsignedSaturatedAdd8 (left right : Z) : Z :=
  let result := u8 (left + right) in
  if result <? left then 0xFF else result.

Definition ARMul_UnsignedSaturatedAdd16 (left right : Z) : Z :=
  let result := u16 (left + right) in
  if result <? left then 0xFFFF else result.

Definition ARMul_UnsignedSaturatedSub8 (left right : Z) : Z :=
  if left <=? right then 0 else u8 (left - right).

Definition ARMul_UnsignedSaturatedSub16 (left right : Z) : Z :=
  if left <=? right then 0 else u16 (left - right).

(** [1 << shift] is an [int]; the value and whether it was saturated. *)
Definition ARMul_SignedSatQ (value shift : Z) : Z * bool :=
  let max := u32 (s32 (Z.shiftl 1 shift) - 1) in
  let top := Z.shiftr value shift in
  if 0 <? top then (max, true)
  else if top <? -1 then (u32 (Z.lnot max), true)
  else (u32 value, false).

Definition ARMul_UnsignedSatQ (value shift : Z) : Z * bool :=
  let max := u32 (s32 (Z.shiftl 1 shift) - 1) in
  if value <? 0 then (0, true)
  else if max <? u32 value then (max, true)
  else (u32 value, false).

(** ** Bit fields *)

(** The bits [a] to [b] of a word. *)
Definition field (s a b : Z) : Z := (s / 2 ^ a) mod 2 ^ (b - a + 1).

Lemma BITS_field s a b : is_u32 s -> 0 <= a <= b -> b <= 31 -> BITS s a b = field s a b.
Proof.
  intros Hs Ha Hb. unfold BITS, field, u32. apply Z.bits_inj'. intros i Hi.
  rewrite Z.shiftr_spec by done.
  change 4294967296 with (2 ^ 32).
  destruct (Z.lt_ge_cases i (b - a + 1)).
  - rewrite (Z.mod_pow2_bits_low (s / 2 ^ a)), Z.div_pow2_bits by lia.
    rewrite Z.mod_pow2_bits_low, Z.shiftl_spec by lia. f_equal. lia.
  - rewrite (Z.mod_pow2_bits_high (s / 2 ^ a)) by lia. by rewrite Z.mod_pow2_bits_high by lia.
Qed.

Lemma field_range s a b : 0 <= a <= b -> 0 <= field s a b < 2 ^ (b - a + 1).
Proof. intros. unfold field. apply Z.mod_pos_bound. lia. Qed.

Lemma BIT_field s n : 0 <= n -> BIT s n = field s n n.
Proof.
  intros Hn. unfold BIT, field. rewrite Z.shiftr_div_pow2 by done.
  change 1 with (Z.ones 1) at 1. rewrite Z.land_ones by done. by replace (n - n + 1) with 1 by lia.
Qed.

(** ** Sign bits *)

Lemma truth_bit x k : 0 <= k -> truth (Z.land x (2 ^ k)) = Z.testbit x k.
Proof.
  intros Hk. unfold truth. destruct (Z.testbit x k) eqn:E.
  - destruct (Z.eqb_spec (Z.land x (2 ^ k)) 0) as [H|]; [|done].
    apply (f_equal (fun z => Z.testbit z k)) in H.
    by rewrite Z.land_spec, E, Z.pow2_bits_true, Z.bits_0 in H.
  - rewrite (proj2 (Z.eqb_eq _ 0)); [done|]. apply Z.bits_inj'. intros i Hi.
    rewrite Z.land_spec, Z.bits_0. destruct (Z.eq_dec i k) as [->|]; [by rewrite E|].
    rewrite Z.pow2_bits_false by done. by destruct (Z.testbit x i).
Qed.

Lemma zero_bit x k : 0 <= k -> (Z.land x (2 ^ k) =? 0) = negb (Z.testbit x k).
Proof. intros Hk. rewrite <-truth_bit by done. unfold truth. by rewrite negb_involutive. Qed.

Lemma top_bit x k : 0 <= k -> 0 <= x < 2 ^ (k + 1) -> Z.testbit x k = (2 ^ k <=? x).
Proof.
  intros Hk Hx. rewrite Z.pow_add_r in Hx by lia.
  pose proof (Z.testbit_spec' x k Hk) as H.
  assert (Hd : x / 2 ^ k = if 2 ^ k <=? x then 1 else 0).
  { destruct (Z.leb_spec (2 ^ k) x).
    - symmetry. apply (Z.div_unique_pos _ _ _ (x - 2 ^ k)); lia.
    - apply Z.div_small. lia. }
  rewrite Hd in H. by destruct (2 ^ k <=? x), (Z.testbit x k).
Qed.

Lemma top_bit_7 x : is_u8 x -> Z.testbit x 7 = (128 <=? x).
Proof. intros. apply (top_bit x 7); [done|exact H]. Qed.

Lemma top_bit_15 x : is_u16 x -> Z.testbit x 15 = (32768 <=? x).
Proof. intros. apply (top_bit x 15); [done|exact H]. Qed.

Lemma top_bit_31 x : is_u32 x -> Z.testbit x 31 = (2147483648 <=? x).
Proof. intros. apply (top_bit x 31); [done|exact H]. Qed.

(** The tests of the code in terms of comparisons. *)
Ltac sign_bits :=
  change 0x80 with (2 ^ 7); change 0x8000 with (2 ^ 15); change 0x80000000 with (2 ^ 31);
  rewrite ?truth_bit, ?zero_bit by done; rewrite ?Z.lxor_spec;
  rewrite ?top_bit_7, ?top_bit_15, ?top_bit_31 by (done || word_lia);
  change (2 ^ 7) with 128; change (2 ^ 15) with 32768; change (2 ^ 31) with 2147483648.

(** ** Saturation *)

Definition clamp (lo hi x : Z) : Z := Z.max lo (Z.min hi x).

Lemma SignedSaturatedAdd8_spec l r : is_u8 l -> is_u8 r ->
  is_u8 (ARMul_SignedSaturatedAdd8 l r) /\
  s8 (ARMul_SignedSaturatedAdd8 l r) = clamp (-128) 127 (s8 l + s8 r).
Proof.
  intros Hl Hr. unfold ARMul_SignedSaturatedAdd8. cbv zeta. sign_bits.
  unfold clamp, s8, u8, is_u8 in *. repeat zcase; simpl; zlia.
Qed.

Lemma SignedSaturatedSub8_spec l r : is_u8 l -> is_u8 r ->
  is_u8 (ARMul_SignedSaturatedSub8 l r) /\
  s8 (ARMul_SignedSaturatedSub8 l r) = clamp (-128) 127 (s8 l - s8 r).
Proof.
  intros Hl Hr. unfold ARMul_SignedSaturatedSub8. cbv zeta. sign_bits.
  unfold clamp, s8, u8, is_u8 in *. repeat zcase; simpl; zlia.
Qed.

Lemma SignedSaturatedAdd16_spec l r : is_u16 l -> is_u16 r ->
  is_u16 (ARMul_SignedSaturatedAdd16 l r) /\
  s16 (ARMul_SignedSaturatedAdd16 l r) = clamp (-32768) 32767 (s16 l + s16 r).
Proof.
  intros Hl Hr. unfold ARMul_SignedSaturatedAdd16. cbv zeta. sign_bits.
  unfold clamp, s16, u16, is_u16 in *. repeat zcase; simpl; zlia.
Qed.

Lemma SignedSaturatedSub16_spec l r : is_u16 l -> is_u16 r ->
  is_u16 (ARMul_SignedSaturatedSub16 l r) /\
  s16 (ARMul_SignedSaturatedSub16 l r) = clamp (-32768) 32767 (s16 l - s16 r).
Proof.
  intros Hl Hr. unfold ARMul_SignedSaturatedSub16. cbv zeta. sign_bits.
  unfold clamp, s16, u16, is_u16 in *. repeat zcase; simpl; zlia.
Qed.

Ltac unsigned_saturation :=
  intros Hl Hr; cbv [ARMul_UnsignedSaturatedAdd8 ARMul_UnsignedSaturatedAdd16
    ARMul_UnsignedSaturatedSub8 ARMul_UnsignedSaturatedSub16 ARMul_UnsignedAbsoluteDifference];
  cbv zeta; unfold clamp, u8, u16, is_u8, is_u16 in *; zcase; zlia.

Lemma UnsignedSaturatedAdd8_spec l r : is_u8 l -> is_u8 r ->
  ARMul_UnsignedSaturatedAdd8 l r = clamp 0 255 (l + r).
Proof. unsigned_saturation. Qed.

Lemma UnsignedSaturatedSub8_spec l r : is_u8 l -> is_u8 r ->
  ARMul_UnsignedSaturatedSub8 l r = clamp 0 255 (l - r).
Proof. unsigned_saturation. Qed.

Lemma UnsignedSaturatedAdd16_spec l r : is_u16 l -> is_u16 r ->
  ARMul_UnsignedSaturatedAdd16 l r = clamp 0 65535 (l + r).
Proof. unsigned_saturation. Qed.

Lemma UnsignedSaturatedSub16_spec l r : is_u16 l -> is_u16 r ->
  ARMul_UnsignedSaturatedSub16 l r = clamp 0 65535 (l - r).
Proof. unsigned_saturation. Qed.

Lemma UnsignedAbsoluteDifference_spec l r : is_u8 l -> is_u8 r ->
  ARMul_UnsignedAbsoluteDifference l r = Z.abs (l - r).
Proof. unsigned_saturation. Qed.

(** ** Carry and overflow *)

Lemma NEG_spec x : is_u32 x -> truth (NEG x) = (s32 x <? 0).
Proof.
  intros Hx. unfold NEG, truth. rewrite Z.shiftr_div_pow2 by done.
  change (2 ^ 31) with 2147483648. repeat zcase; simpl; word_lia.
Qed.

Lemma POS_spec x : is_u32 x -> truth (POS x) = (0 <=? s32 x).
Proof.
  intros Hx. unfold POS, truth. rewrite Z.shiftr_div_pow2 by done.
  change (2 ^ 31) with 2147483648. unfold Z.lnot. repeat zcase; simpl; word_lia.
Qed.

(** A signed sum overflows when it is not representable. *)
Definition fits_s32 (x : Z) : bool := (-2147483648 <=? x) && (x <? 2147483648).

Lemma AddWithCarry_spec l r c : is_u32 l -> is_u32 r -> 0 <= c <= 1 ->
  AddWithCarry l r c = (u32 (l + r + c), 4294967296 <=? l + r + c, negb (fits_s32 (s32 l + s32 r + c))).
Proof.
  intros Hl Hr Hc. unfold AddWithCarry. cbv zeta.
  change 0xFFFFFFFF with (Z.ones 32). rewrite Z.land_ones by done. change (2 ^ 32) with 4294967296.
  assert (E : u64 (u64 (l + r) + c) = l + r + c) by word_lia. rewrite E.
  f_equal; [f_equal|].
  - word_lia.
  - repeat zcase; simpl; try done; word_lia.
  - unfold fits_s32. repeat zcase; simpl; try done; word_lia.
Qed.

Lemma s32_cases x : is_u32 x -> s32 x = if x <? 2147483648 then x else x - 4294967296.
Proof. intros. zcase; word_lia. Qed.

Lemma u32_sum_cases a b : is_u32 a -> is_u32 b ->
  u32 (a + b) = if a + b <? 4294967296 then a + b else a + b - 4294967296.
Proof. intros. zcase; word_lia. Qed.

Lemma u32_diff_cases a b : is_u32 a -> is_u32 b ->
  u32 (a - b) = if a <? b then a - b + 4294967296 else a - b.
Proof. intros. zcase; word_lia. Qed.

Ltac overflow_cases :=
  rewrite !NEG_spec, !POS_spec by (done || apply u32_range);
  rewrite !s32_cases by (done || apply u32_range); rewrite ?u32_sum_cases, ?u32_diff_cases by done;
  unfold fits_s32, is_u32 in *; repeat (zcase; try lia); done.

Lemma AddOverflow_spec a b : is_u32 a -> is_u32 b ->
  AddOverflow a b (u32 (a + b)) = negb (fits_s32 (s32 a + s32 b)).
Proof.
  intros Ha Hb. unfold AddOverflow. overflow_cases.
Qed.

Lemma SubOverflow_spec a b : is_u32 a -> is_u32 b ->
  SubOverflow a b (u32 (a - b)) = negb (fits_s32 (s32 a - s32 b)).
Proof.
  intros Ha Hb. unfold SubOverflow. overflow_cases.
Qed.

Lemma AddOverflowQ_spec a b : is_u32 a -> is_u32 b ->
  ARMul_AddOverflowQ a b = negb (fits_s32 (s32 a + s32 b)).
Proof.
  intros Ha Hb. unfold ARMul_AddOverflowQ. cbv zeta. sign_bits.
  unfold fits_s32. repeat zcase; simpl; try done; word_lia.
Qed.

(** ** The properties *)

(** The saturating additions and subtractions of bytes and halfwords, signed
    and unsigned, give the exact result clamped to the range of the type, for all
    operands; the absolute difference of two bytes is exact. *)
Theorem saturating_arithmetic l r :
  (is_u8 l -> is_u8 r ->
   s8 (ARMul_SignedSaturatedAdd8 l r) = clamp (-128) 127 (s8 l + s8 r) /\
   s8 (ARMul_SignedSaturatedSub8 l r) = clamp (-128) 127 (s8 l - s8 r) /\
   is_u8 (ARMul_SignedSaturatedAdd8 l r) /\ is_u8 (ARMul_SignedSaturatedSub8 l r) /\
   ARMul_UnsignedSaturatedAdd8 l r = clamp 0 255 (l + r) /\
   ARMul_UnsignedSaturatedSub8 l r = clamp 0 255 (l - r) /\
   ARMul_UnsignedAbsoluteDifference l r = Z.abs (l - r)) /\
  (is_u16 l -> is_u16 r ->
   s16 (ARMul_SignedSaturatedAdd16 l r) = clamp (-32768) 32767 (s16 l + s16 r) /\
   s16 (ARMul_SignedSaturatedSub16 l r) = clamp (-32768) 32767 (s16 l - s16 r) /\
   is_u16 (ARMul_SignedSaturatedAdd16 l r) /\ is_u16 (ARMul_SignedSaturatedSub16 l r) /\
   ARMul_UnsignedSaturatedAdd16 l r = clamp 0 65535 (l + r) /\
   ARMul_UnsignedSaturatedSub16 l r = clamp 0 65535 (l - r)).
Proof.
  split; intros Hl Hr; split_and!;
    auto using UnsignedSaturatedAdd8_spec, UnsignedSaturatedSub8_spec, UnsignedAbsoluteDifference_spec,
      UnsignedSaturatedAdd16_spec, UnsignedSaturatedSub16_spec;
    first [apply SignedSaturatedAdd8_spec|apply SignedSaturatedSub8_spec|
           apply SignedSaturatedAdd16_spec|apply SignedSaturatedSub16_spec]; done.
Qed.

Lemma saturating_arithmetic_witness :
  s8 (ARMul_SignedSaturatedAdd8 0x7F 0x01) = 127 /\ ARMul_UnsignedSaturatedSub16 3 5 = 0.
Proof.
  split.
  - destruct (proj1 (saturating_arithmetic 0x7F 0x01)) as (H & _); [done|done|]. exact H.
  - destruct (proj2 (saturating_arithmetic 3 5)) as (_ & _ & _ & _ & _ & H); [done|done|]. exact H.
Defined.

(** C39: [AddWithCarry] returns the sum modulo 2^32, and its flags say exactly
    whether the unsigned sum carries out and whether the signed sum is out of
    range; the three overflow tests, applied to the wrapped result, agree with
    signed arithmetic too. *)
Theorem carry_and_overflow a b c : is_u32 a -> is_u32 b -> 0 <= c <= 1 ->
  AddWithCarry a b c = (u32 (a + b + c), 4294967296 <=? a + b + c, negb (fits_s32 (s32 a + s32 b + c))) /\
  AddOverflow a b (u32 (a + b)) = negb (fits_s32 (s32 a + s32 b)) /\
  SubOverflow a b (u32 (a - b)) = negb (fits_s32 (s32 a - s32 b)) /\
  ARMul_AddOverflowQ a b = negb (fits_s32 (s32 a + s32 b)).
Proof.
  intros Ha Hb Hc.
  split_and!; auto using AddWithCarry_spec, AddOverflow_spec, SubOverflow_spec, AddOverflowQ_spec.
Qed.

Lemma carry_and_overflow_witness :
  AddWithCarry 0xFFFFFFFF 0 1 = (0, true, false) /\ ARMul_AddOverflowQ 0x80000000 0x80000000 = true.
Proof.
  split.
  - destruct (carry_and_overflow 0xFFFFFFFF 0 1) as (H & _); [done|done|done|]. rewrite H. reflexivity.
  - destruct (carry_and_overflow 0x80000000 0x80000000 0) as (_ & _ & _ & H); [done|done|done|].
    rewrite H. reflexivity.
Defined.

(** [ARMul_SignedSatQ] clamps to the signed range of shift + 1 bits and
    [ARMul_UnsignedSatQ] to the unsigned range of shift bits; each reports
    saturation exactly when it changes the value.  For the signed case the shift is
    at most 30 ([1 << 31] is not an [int]). *)
Theorem saturation_Q value shift : is_s32 value -> 0 <= shift <= 30 ->
  (let c := clamp (- 2 ^ shift) (2 ^ shift - 1) value in
   ARMul_SignedSatQ value shift = (u32 c, negb (c =? value))) /\
  (let c := clamp 0 (2 ^ shift - 1) value in
   ARMul_UnsignedSatQ value shift = (u32 c, negb (c =? value))).
Proof.
  intros Hv Hs.
  assert (Hp : 1 <= 2 ^ shift <= 2 ^ 30).
  { split; [change 1 with (2 ^ 0)|]; apply Z.pow_le_mono_r; lia. }
  change (2 ^ 30) with 1073741824 in Hp.
  assert (Hmax : u32 (s32 (Z.shiftl 1 shift) - 1) = 2 ^ shift - 1).
  { rewrite Z.shiftl_1_l. word_lia. }
  unfold ARMul_SignedSatQ, ARMul_UnsignedSatQ. rewrite !Hmax. cbv zeta.
  rewrite Z.shiftr_div_pow2 by lia. set (p := 2 ^ shift) in *. clearbody p.
  assert (Hd : p * (value / p) <= value < p * (value / p) + p).
  { pose proof (Z.mul_div_le value p). pose proof (Z.mul_succ_div_gt value p). lia. }
  set (q := value / p) in *. clearbody q. clear Hmax.
  assert (Hq1 : 0 < q -> p <= value) by nia. assert (Hq2 : q <= 0 -> value < p) by nia.
  assert (Hq3 : q < -1 -> value < -p) by nia. assert (Hq4 : -1 <= q -> -p <= value) by nia.
  unfold clamp, Z.lnot. split.
  - repeat zcase; simpl; f_equal; try done; try word_lia.
  - repeat zcase; simpl; f_equal; try done; try word_lia.
Qed.

Lemma saturation_Q_witness :
  ARMul_SignedSatQ (-300) 7 = (0xFFFFFF80, true) /\ ARMul_UnsignedSatQ 300 8 = (255, true).
Proof.
  split.
  - destruct (saturation_Q (-300) 7) as [H _]; [done|done|]. rewrite H. reflexivity.
  - destruct (saturation_Q 300 8) as [_ H]; [done|done|]. rewrite H. reflexivity.
Defined.
