(* ===== verification/ArmDecode.v ===== *)
(** * ArmDecode: the ARM instruction decoder (core/arm/dyncom/arm_dyncom_dec.cpp)

    The two tables are kept in the order of the source, in three parts each. *)
From S2P Require Import Prelude ArmSupp.
From Stdlib Require String.
Import String.StringSyntax.

Local Open Scope Z_scope.
Local Open Scope string_scope.

Inductive ARMDecodeStatus := SUCCESS | FAILURE.

#[export] Instance ARMDecodeStatus_eq_dec : EqDecision ARMDecodeStatus.
Proof. solve_decision. Defined.

(** ** ARM versions *)
Definition INVALID : Z := 0.
Definition ARMVFP2 : Z := 9.
Definition ARMVFP3 : Z := 10.
Definition ARMV6K : Z := 11.

(** [content] is an array of 21 words: what is not listed is 0. *)
Record InstructionSetEncodingItem := mkItem {
  name : String.string;
  attribute_value : nat;
  version : Z;
  content : list Z
}.

Definition at_ (content : list Z) (i : nat) : Z := nth i content 0.

(** [arm_instruction] *)
Definition arm_instruction_vfp : list InstructionSetEncodingItem :=
  [
   mkItem "vmla" 5 ARMVFP2 [23; 27; 28; 20; 21; 0; 9; 11; 5; 6; 6; 0; 4; 4; 0];
   mkItem "vmls" 5 ARMVFP2 [23; 27; 28; 20; 21; 0; 9; 11; 5; 6; 6; 1; 4; 4; 0];
   mkItem "vnmla" 5 ARMVFP2 [23; 27; 28; 20; 21; 1; 9; 11; 5; 6; 6; 1; 4; 4; 0];
   mkItem "vnmls" 5 ARMVFP2 [23; 27; 28; 20; 21; 1; 9; 11; 5; 6; 6; 0; 4; 4; 0];
   mkItem "vnmul" 5 ARMVFP2 [23; 27; 28; 20; 21; 2; 9; 11; 5; 6; 6; 1; 4; 4; 0];
   mkItem "vmul" 5 ARMVFP2 [23; 27; 28; 20; 21; 2; 9; 11; 5; 6; 6; 0; 4; 4; 0];
   mkItem "vadd" 5 ARMVFP2 [23; 27; 28; 20; 21; 3; 9; 11; 5; 6; 6; 0; 4; 4; 0];
   mkItem "vsub" 5 ARMVFP2 [23; 27; 28; 20; 21; 3; 9; 11; 5; 6; 6; 1; 4; 4; 0];
   mkItem "vdiv" 5 ARMVFP2 [23; 27; 29; 20; 21; 0; 9; 11; 5; 6; 6; 0; 4; 4; 0];
   mkItem "vmov(i)" 4 ARMVFP3 [23; 27; 29; 20; 21; 3; 9; 11; 5; 4; 7; 0];
   mkItem "vmov(r)" 5 ARMVFP3 [23; 27; 29; 16; 21; 48; 9; 11; 5; 6; 7; 1; 4; 4; 0];
   mkItem "vabs" 5 ARMVFP2 [23; 27; 29; 16; 21; 48; 9; 11; 5; 6; 7; 3; 4; 4; 0];
   mkItem "vneg" 5 ARMVFP2 [23; 27; 29; 17; 21; 24; 9; 11; 5; 6; 7; 1; 4; 4; 0];
   mkItem "vsqrt" 5 ARMVFP2 [23; 27; 29; 16; 21; 49; 9; 11; 5; 6; 7; 3; 4; 4; 0];
   mkItem "vcmp" 5 ARMVFP2 [23; 27; 29; 16; 21; 52; 9; 11; 5; 6; 6; 1; 4; 4; 0];
   mkItem "vcmp2" 5 ARMVFP2 [23; 27; 29; 16; 21; 53; 9; 11; 5; 0; 6; 64];
   mkItem "vcvt(bds)" 5 ARMVFP2 [23; 27; 29; 16; 21; 55; 9; 11; 5; 6; 7; 3; 4; 4; 0];
   mkItem "vcvt(bff)" 6 ARMVFP3 [23; 27; 29; 19; 21; 7; 17; 17; 1; 9; 11; 5; 6; 6; 1];
   mkItem "vcvt(bfi)" 5 ARMVFP2 [23; 27; 29; 19; 21; 7; 9; 11; 5; 6; 6; 1; 4; 4; 0];
   mkItem "vmovbrs" 3 ARMVFP2 [21; 27; 112; 8; 11; 10; 0; 6; 16];
   mkItem "vmsr" 2 ARMVFP2 [20; 27; 238; 0; 11; 2576];
   mkItem "vmovbrc" 4 ARMVFP2 [23; 27; 28; 20; 20; 0; 8; 11; 11; 0; 4; 16];
   mkItem "vmrs" 2 ARMVFP2 [20; 27; 239; 0; 11; 2576];
   mkItem "vmovbcr" 4 ARMVFP2 [24; 27; 14; 20; 20; 1; 8; 11; 11; 0; 4; 16];
   mkItem "vmovbrrss" 3 ARMVFP2 [21; 27; 98; 8; 11; 10; 4; 4; 1];
   mkItem "vmovbrrd" 3 ARMVFP2 [21; 27; 98; 6; 11; 44; 4; 4; 1];
   mkItem "vstr" 3 ARMVFP2 [24; 27; 13; 20; 21; 0; 9; 11; 5];
   mkItem "vpush" 3 ARMVFP2 [23; 27; 26; 16; 21; 45; 9; 11; 5];
   mkItem "vstm" 3 ARMVFP2 [25; 27; 6; 20; 20; 0; 9; 11; 5];
   mkItem "vpop" 3 ARMVFP2 [23; 27; 25; 16; 21; 61; 9; 11; 5];
   mkItem "vldr" 3 ARMVFP2 [24; 27; 13; 20; 21; 1; 9; 11; 5];
   mkItem "vldm" 3 ARMVFP2 [25; 27; 6; 20; 20; 1; 9; 11; 5]].

Definition arm_instruction_v6 : list InstructionSetEncodingItem :=
  [
   mkItem "srs" 4 6 [25; 31; 124; 22; 22; 1; 16; 20; 13; 8; 11; 5];
   mkItem "rfe" 4 6 [25; 31; 124; 22; 22; 0; 20; 20; 1; 8; 11; 10];
   mkItem "bkpt" 2 3 [20; 27; 18; 4; 7; 7];
   mkItem "blx" 1 3 [25; 31; 125];
   mkItem "cps" 3 6 [20; 31; 3856; 16; 16; 0; 5; 5; 0];
   mkItem "pld" 4 4 [26; 31; 61; 24; 24; 1; 20; 22; 5; 12; 15; 15];
   mkItem "setend" 2 6 [16; 31; 61697; 4; 7; 0];
   mkItem "clrex" 1 6 [0; 31; 4118802463];
   mkItem "rev16" 2 6 [16; 27; 1727; 4; 11; 251];
   mkItem "usad8" 3 6 [20; 27; 120; 12; 15; 15; 4; 7; 1];
   mkItem "sxtb" 2 6 [16; 27; 1711; 4; 7; 7];
   mkItem "uxtb" 2 6 [16; 27; 1775; 4; 7; 7];
   mkItem "sxth" 2 6 [16; 27; 1727; 4; 7; 7];
   mkItem "sxtb16" 2 6 [16; 27; 1679; 4; 7; 7];
   mkItem "uxth" 2 6 [16; 27; 1791; 4; 7; 7];
   mkItem "uxtb16" 2 6 [16; 27; 1743; 4; 7; 7];
   mkItem "cpy" 2 6 [20; 27; 26; 4; 11; 0];
   mkItem "uxtab" 2 6 [20; 27; 110; 4; 9; 7];
   mkItem "ssub8" 2 6 [20; 27; 97; 4; 7; 15];
   mkItem "shsub8" 2 6 [20; 27; 99; 4; 7; 15];
   mkItem "ssubaddx" 2 6 [20; 27; 97; 4; 7; 5];
   mkItem "strex" 2 6 [20; 27; 24; 4; 7; 9];
   mkItem "strexb" 2 7 [20; 27; 28; 4; 7; 9];
   mkItem "swp" 2 0 [20; 27; 16; 4; 7; 9];
   mkItem "swpb" 2 0 [20; 27; 20; 4; 7; 9];
   mkItem "ssub16" 2 6 [20; 27; 97; 4; 7; 7];
   mkItem "ssat16" 2 6 [20; 27; 106; 4; 7; 3];
   mkItem "shsubaddx" 2 6 [20; 27; 99; 4; 7; 5];
   mkItem "qsubaddx" 2 6 [20; 27; 98; 4; 7; 5];
   mkItem "shaddsubx" 2 6 [20; 27; 99; 4; 7; 3];
   mkItem "shadd8" 2 6 [20; 27; 99; 4; 7; 9];
   mkItem "shadd16" 2 6 [20; 27; 99; 4; 7; 1];
   mkItem "sel" 2 6 [20; 27; 104; 4; 7; 11];
   mkItem "saddsubx" 2 6 [20; 27; 97; 4; 7; 3];
   mkItem "sadd8" 2 6 [20; 27; 97; 4; 7; 9];
   mkItem "sadd16" 2 6 [20; 27; 97; 4; 7; 1];
   mkItem "shsub16" 2 6 [20; 27; 99; 4; 7; 7];
   mkItem "umaal" 2 6 [20; 27; 4; 4; 7; 9];
   mkItem "uxtab16" 2 6 [20; 27; 108; 4; 7; 7];
   mkItem "usubaddx" 2 6 [20; 27; 101; 4; 7; 5];
   mkItem "usub8" 2 6 [20; 27; 101; 4; 7; 15];
   mkItem "usub16" 2 6 [20; 27; 101; 4; 7; 7];
   mkItem "usat16" 2 6 [20; 27; 110; 4; 7; 3];
   mkItem "usada8" 2 6 [20; 27; 120; 4; 7; 1];
   mkItem "uqsubaddx" 2 6 [20; 27; 102; 4; 7; 5];
   mkItem "uqsub8" 2 6 [20; 27; 102; 4; 7; 15];
   mkItem "uqsub16" 2 6 [20; 27; 102; 4; 7; 7];
   mkItem "uqaddsubx" 2 6 [20; 27; 102; 4; 7; 3];
   mkItem "uqadd8" 2 6 [20; 27; 102; 4; 7; 9];
   mkItem "uqadd16" 2 6 [20; 27; 102; 4; 7; 1];
   mkItem "sxtab" 2 6 [20; 27; 106; 4; 7; 7];
   mkItem "uhsubaddx" 2 6 [20; 27; 103; 4; 7; 5];
   mkItem "uhsub8" 2 6 [20; 27; 103; 4; 7; 15];
   mkItem "uhsub16" 2 6 [20; 27; 103; 4; 7; 7];
   mkItem "uhaddsubx" 2 6 [20; 27; 103; 4; 7; 3];
   mkItem "uhadd8" 2 6 [20; 27; 103; 4; 7; 9];
   mkItem "uhadd16" 2 6 [20; 27; 103; 4; 7; 1];
   mkItem "uaddsubx" 2 6 [20; 27; 101; 4; 7; 3];
   mkItem "uadd8" 2 6 [20; 27; 101; 4; 7; 9];
   mkItem "uadd16" 2 6 [20; 27; 101; 4; 7; 1];
   mkItem "sxtah" 2 6 [20; 27; 107; 4; 7; 7];
   mkItem "sxtab16" 2 6 [20; 27; 104; 4; 7; 7];
   mkItem "qadd8" 2 6 [20; 27; 98; 4; 7; 9];
   mkItem "bxj" 2 5 [20; 27; 18; 4; 7; 2];
   mkItem "clz" 2 3 [20; 27; 22; 4; 7; 1];
   mkItem "uxtah" 2 6 [20; 27; 111; 4; 7; 7];
   mkItem "bx" 2 2 [20; 27; 18; 4; 7; 1];
   mkItem "rev" 2 6 [20; 27; 107; 4; 7; 3];
   mkItem "blx" 2 3 [20; 27; 18; 4; 7; 3];
   mkItem "revsh" 2 6 [20; 27; 111; 4; 7; 11];
   mkItem "qadd" 2 4 [20; 27; 16; 4; 7; 5];
   mkItem "qadd16" 2 6 [20; 27; 98; 4; 7; 1];
   mkItem "qaddsubx" 2 6 [20; 27; 98; 4; 7; 3];
   mkItem "ldrex" 2 0 [20; 27; 25; 4; 7; 9];
   mkItem "qdadd" 2 4 [20; 27; 20; 4; 7; 5];
   mkItem "qdsub" 2 4 [20; 27; 22; 4; 7; 5];
   mkItem "qsub" 2 4 [20; 27; 18; 4; 7; 5];
   mkItem "ldrexb" 2 7 [20; 27; 29; 4; 7; 9];
   mkItem "qsub8" 2 6 [20; 27; 98; 4; 7; 15];
   mkItem "qsub16" 2 6 [20; 27; 98; 4; 7; 7];
   mkItem "smuad" 4 6 [20; 27; 112; 12; 15; 15; 6; 7; 0; 4; 4; 1];
   mkItem "smmul" 4 6 [20; 27; 117; 12; 15; 15; 6; 7; 0; 4; 4; 1];
   mkItem "smusd" 4 6 [20; 27; 112; 12; 15; 15; 6; 7; 1; 4; 4; 1];
   mkItem "smlsd" 3 6 [20; 27; 112; 6; 7; 1; 4; 4; 1];
   mkItem "smlsld" 3 6 [20; 27; 116; 6; 7; 1; 4; 4; 1];
   mkItem "smmla" 3 6 [20; 27; 117; 6; 7; 0; 4; 4; 1];
   mkItem "smmls" 3 6 [20; 27; 117; 6; 7; 3; 4; 4; 1];
   mkItem "smlald" 3 6 [20; 27; 116; 6; 7; 0; 4; 4; 1];
   mkItem "smlad" 3 6 [20; 27; 112; 6; 7; 0; 4; 4; 1];
   mkItem "smlaw" 3 4 [20; 27; 18; 7; 7; 1; 4; 5; 0];
   mkItem "smulw" 3 4 [20; 27; 18; 7; 7; 1; 4; 5; 2];
   mkItem "pkhtb" 2 6 [20; 27; 104; 4; 6; 5];
   mkItem "pkhbt" 2 6 [20; 27; 104; 4; 6; 1];
   mkItem "smul" 3 4 [20; 27; 22; 7; 7; 1; 4; 4; 0];
   mkItem "smlalxy" 3 4 [20; 27; 20; 7; 7; 1; 4; 4; 0];
   mkItem "smla" 3 4 [20; 27; 16; 7; 7; 1; 4; 4; 0];
   mkItem "mcrr" 1 6 [20; 27; 196];
   mkItem "mrrc" 1 6 [20; 27; 197]].

Definition arm_instruction_base : list InstructionSetEncodingItem :=
  [
   mkItem "cmp" 2 0 [26; 27; 0; 20; 24; 21];
   mkItem "tst" 2 0 [26; 27; 0; 20; 24; 17];
   mkItem "teq" 2 0 [26; 27; 0; 20; 24; 19];
   mkItem "cmn" 2 0 [26; 27; 0; 20; 24; 23];
   mkItem "smull" 2 0 [21; 27; 6; 4; 7; 9];
   mkItem "umull" 2 0 [21; 27; 4; 4; 7; 9];
   mkItem "umlal" 2 0 [21; 27; 5; 4; 7; 9];
   mkItem "smlal" 2 0 [21; 27; 7; 4; 7; 9];
   mkItem "mul" 2 0 [21; 27; 0; 4; 7; 9];
   mkItem "mla" 2 0 [21; 27; 1; 4; 7; 9];
   mkItem "ssat" 2 6 [21; 27; 53; 4; 5; 1];
   mkItem "usat" 2 6 [21; 27; 55; 4; 5; 1];
   mkItem "mrs" 4 0 [23; 27; 2; 20; 21; 0; 16; 19; 15; 0; 11; 0];
   mkItem "msr" 3 0 [23; 27; 2; 20; 21; 2; 4; 7; 0];
   mkItem "and" 2 0 [26; 27; 0; 21; 24; 0];
   mkItem "bic" 2 0 [26; 27; 0; 21; 24; 14];
   mkItem "ldm" 3 0 [25; 27; 4; 20; 22; 5; 15; 15; 0];
   mkItem "eor" 2 0 [26; 27; 0; 21; 24; 1];
   mkItem "add" 2 0 [26; 27; 0; 21; 24; 4];
   mkItem "rsb" 2 0 [26; 27; 0; 21; 24; 3];
   mkItem "rsc" 2 0 [26; 27; 0; 21; 24; 7];
   mkItem "sbc" 2 0 [26; 27; 0; 21; 24; 6];
   mkItem "adc" 2 0 [26; 27; 0; 21; 24; 5];
   mkItem "sub" 2 0 [26; 27; 0; 21; 24; 2];
   mkItem "orr" 2 0 [26; 27; 0; 21; 24; 12];
   mkItem "mvn" 2 0 [26; 27; 0; 21; 24; 15];
   mkItem "mov" 2 0 [26; 27; 0; 21; 24; 13];
   mkItem "stm" 2 0 [25; 27; 4; 20; 22; 4];
   mkItem "ldm" 4 0 [25; 27; 4; 22; 22; 1; 20; 20; 1; 15; 15; 1];
   mkItem "ldrsh" 3 2 [25; 27; 0; 20; 20; 1; 4; 7; 15];
   mkItem "stm" 3 0 [25; 27; 4; 22; 22; 0; 20; 20; 0];
   mkItem "ldm" 3 0 [25; 27; 4; 22; 22; 0; 20; 20; 1];
   mkItem "ldrsb" 3 2 [25; 27; 0; 20; 20; 1; 4; 7; 13];
   mkItem "strd" 3 4 [25; 27; 0; 20; 20; 0; 4; 7; 15];
   mkItem "ldrh" 3 0 [25; 27; 0; 20; 20; 1; 4; 7; 11];
   mkItem "strh" 3 0 [25; 27; 0; 20; 20; 0; 4; 7; 11];
   mkItem "ldrd" 3 4 [25; 27; 0; 20; 20; 0; 4; 7; 13];
   mkItem "strt" 3 0 [26; 27; 1; 24; 24; 0; 20; 22; 2];
   mkItem "strbt" 3 0 [26; 27; 1; 24; 24; 0; 20; 22; 6];
   mkItem "ldrbt" 3 0 [26; 27; 1; 24; 24; 0; 20; 22; 7];
   mkItem "ldrt" 3 0 [26; 27; 1; 24; 24; 0; 20; 22; 3];
   mkItem "mrc" 3 6 [24; 27; 14; 20; 20; 1; 4; 4; 1];
   mkItem "mcr" 3 0 [24; 27; 14; 20; 20; 0; 4; 4; 1];
   mkItem "msr" 3 0 [23; 27; 6; 20; 21; 2; 22; 22; 1];
   mkItem "msr" 4 0 [23; 27; 6; 20; 21; 2; 22; 22; 0; 16; 19; 4];
   mkItem "msr" 5 0 [23; 27; 6; 20; 21; 2; 22; 22; 0; 19; 19; 1; 16; 17; 0];
   mkItem "msr" 4 0 [23; 27; 6; 20; 21; 2; 22; 22; 0; 16; 17; 1];
   mkItem "msr" 4 0 [23; 27; 6; 20; 21; 2; 22; 22; 0; 17; 17; 1];
   mkItem "ldrb" 3 0 [26; 27; 1; 22; 22; 1; 20; 20; 1];
   mkItem "strb" 3 0 [26; 27; 1; 22; 22; 1; 20; 20; 0];
   mkItem "ldr" 4 0 [28; 31; 14; 26; 27; 1; 22; 22; 0; 20; 20; 1];
   mkItem "ldrcond" 3 0 [26; 27; 1; 22; 22; 0; 20; 20; 1];
   mkItem "str" 3 0 [26; 27; 1; 22; 22; 0; 20; 20; 0];
   mkItem "cdp" 2 0 [24; 27; 14; 4; 4; 0];
   mkItem "stc" 2 0 [25; 27; 6; 20; 20; 0];
   mkItem "ldc" 2 0 [25; 27; 6; 20; 20; 1];
   mkItem "ldrexd" 2 ARMV6K [20; 27; 27; 4; 7; 9];
   mkItem "strexd" 2 ARMV6K [20; 27; 26; 4; 7; 9];
   mkItem "ldrexh" 2 ARMV6K [20; 27; 31; 4; 7; 9];
   mkItem "strexh" 2 ARMV6K [20; 27; 30; 4; 7; 9];
   mkItem "nop" 5 ARMV6K [23; 27; 6; 22; 22; 0; 20; 21; 2; 16; 19; 0; 0; 7; 0];
   mkItem "yield" 5 ARMV6K [23; 27; 6; 22; 22; 0; 20; 21; 2; 16; 19; 0; 0; 7; 1];
   mkItem "wfe" 5 ARMV6K [23; 27; 6; 22; 22; 0; 20; 21; 2; 16; 19; 0; 0; 7; 2];
   mkItem "wfi" 5 ARMV6K [23; 27; 6; 22; 22; 0; 20; 21; 2; 16; 19; 0; 0; 7; 3];
   mkItem "sev" 5 ARMV6K [23; 27; 6; 22; 22; 0; 20; 21; 2; 16; 19; 0; 0; 7; 4];
   mkItem "swi" 1 0 [24; 27; 15];
   mkItem "bbl" 1 0 [25; 27; 5]].

Definition arm_instruction : list InstructionSetEncodingItem :=
  arm_instruction_vfp ++ arm_instruction_v6 ++ arm_instruction_base.

(** [arm_exclusion_code] *)
Definition arm_exclusion_vfp : list InstructionSetEncodingItem :=
  [
   mkItem "vmla" 0 ARMVFP2 [0];
   mkItem "vmls" 0 ARMVFP2 [0];
   mkItem "vnmla" 0 ARMVFP2 [0];
   mkItem "vnmls" 0 ARMVFP2 [0];
   mkItem "vnmul" 0 ARMVFP2 [0];
   mkItem "vmul" 0 ARMVFP2 [0];
   mkItem "vadd" 0 ARMVFP2 [0];
   mkItem "vsub" 0 ARMVFP2 [0];
   mkItem "vdiv" 0 ARMVFP2 [0];
   mkItem "vmov(i)" 0 ARMVFP3 [0];
   mkItem "vmov(r)" 0 ARMVFP3 [0];
   mkItem "vabs" 0 ARMVFP2 [0];
   mkItem "vneg" 0 ARMVFP2 [0];
   mkItem "vsqrt" 0 ARMVFP2 [0];
   mkItem "vcmp" 0 ARMVFP2 [0];
   mkItem "vcmp2" 0 ARMVFP2 [0];
   mkItem "vcvt(bff)" 0 ARMVFP3 [4; 4; 1];
   mkItem "vcvt(bds)" 0 ARMVFP2 [0];
   mkItem "vcvt(bfi)" 0 ARMVFP2 [0];
   mkItem "vmovbrs" 0 ARMVFP2 [0];
   mkItem "vmsr" 0 ARMVFP2 [0];
   mkItem "vmovbrc" 0 ARMVFP2 [0];
   mkItem "vmrs" 0 ARMVFP2 [0];
   mkItem "vmovbcr" 0 ARMVFP2 [0];
   mkItem "vmovbrrss" 0 ARMVFP2 [0];
   mkItem "vmovbrrd" 0 ARMVFP2 [0];
   mkItem "vstr" 0 ARMVFP2 [0];
   mkItem "vpush" 0 ARMVFP2 [0];
   mkItem "vstm" 0 ARMVFP2 [0];
   mkItem "vpop" 0 ARMVFP2 [0];
   mkItem "vldr" 0 ARMVFP2 [0];
   mkItem "vldm" 0 ARMVFP2 [0]].

Definition arm_exclusion_v6 : list InstructionSetEncodingItem :=
  [
   mkItem "srs" 0 6 [0];
   mkItem "rfe" 0 6 [0];
   mkItem "bkpt" 0 3 [0];
   mkItem "blx" 0 3 [0];
   mkItem "cps" 0 6 [0];
   mkItem "pld" 0 4 [0];
   mkItem "setend" 0 6 [0];
   mkItem "clrex" 0 6 [0];
   mkItem "rev16" 0 6 [0];
   mkItem "usad8" 0 6 [0];
   mkItem "sxtb" 0 6 [0];
   mkItem "uxtb" 0 6 [0];
   mkItem "sxth" 0 6 [0];
   mkItem "sxtb16" 0 6 [0];
   mkItem "uxth" 0 6 [0];
   mkItem "uxtb16" 0 6 [0];
   mkItem "cpy" 0 6 [0];
   mkItem "uxtab" 0 6 [0];
   mkItem "ssub8" 0 6 [0];
   mkItem "shsub8" 0 6 [0];
   mkItem "ssubaddx" 0 6 [0];
   mkItem "strex" 0 6 [0];
   mkItem "strexb" 0 7 [0];
   mkItem "swp" 0 0 [0];
   mkItem "swpb" 0 0 [0];
   mkItem "ssub16" 0 6 [0];
   mkItem "ssat16" 0 6 [0];
   mkItem "shsubaddx" 0 6 [0];
   mkItem "qsubaddx" 0 6 [0];
   mkItem "shaddsubx" 0 6 [0];
   mkItem "shadd8" 0 6 [0];
   mkItem "shadd16" 0 6 [0];
   mkItem "sel" 0 6 [0];
   mkItem "saddsubx" 0 6 [0];
   mkItem "sadd8" 0 6 [0];
   mkItem "sadd16" 0 6 [0];
   mkItem "shsub16" 0 6 [0];
   mkItem "umaal" 0 6 [0];
   mkItem "uxtab16" 0 6 [0];
   mkItem "usubaddx" 0 6 [0];
   mkItem "usub8" 0 6 [0];
   mkItem "usub16" 0 6 [0];
   mkItem "usat16" 0 6 [0];
   mkItem "usada8" 0 6 [0];
   mkItem "uqsubaddx" 0 6 [0];
   mkItem "uqsub8" 0 6 [0];
   mkItem "uqsub16" 0 6 [0];
   mkItem "uqaddsubx" 0 6 [0];
   mkItem "uqadd8" 0 6 [0];
   mkItem "uqadd16" 0 6 [0];
   mkItem "sxtab" 0 6 [0];
   mkItem "uhsubaddx" 0 6 [0];
   mkItem "uhsub8" 0 6 [0];
   mkItem "uhsub16" 0 6 [0];
   mkItem "uhaddsubx" 0 6 [0];
   mkItem "uhadd8" 0 6 [0];
   mkItem "uhadd16" 0 6 [0];
   mkItem "uaddsubx" 0 6 [0];
   mkItem "uadd8" 0 6 [0];
   mkItem "uadd16" 0 6 [0];
   mkItem "sxtah" 0 6 [0];
   mkItem "sxtab16" 0 6 [0];
   mkItem "qadd8" 0 6 [0];
   mkItem "bxj" 0 5 [0];
   mkItem "clz" 0 3 [0];
   mkItem "uxtah" 0 6 [0];
   mkItem "bx" 0 2 [0];
   mkItem "rev" 0 6 [0];
   mkItem "blx" 0 3 [0];
   mkItem "revsh" 0 6 [0];
   mkItem "qadd" 0 4 [0];
   mkItem "qadd16" 0 6 [0];
   mkItem "qaddsubx" 0 6 [0];
   mkItem "ldrex" 0 0 [0];
   mkItem "qdadd" 0 4 [0];
   mkItem "qdsub" 0 4 [0];
   mkItem "qsub" 0 4 [0];
   mkItem "ldrexb" 0 7 [0];
   mkItem "qsub8" 0 6 [0];
   mkItem "qsub16" 0 6 [0];
   mkItem "smuad" 0 6 [0];
   mkItem "smmul" 0 6 [0];
   mkItem "smusd" 0 6 [0];
   mkItem "smlsd" 0 6 [0];
   mkItem "smlsld" 0 6 [0];
   mkItem "smmla" 0 6 [0];
   mkItem "smmls" 0 6 [0];
   mkItem "smlald" 0 6 [0];
   mkItem "smlad" 0 6 [0];
   mkItem "smlaw" 0 4 [0];
   mkItem "smulw" 0 4 [0];
   mkItem "pkhtb" 0 6 [0];
   mkItem "pkhbt" 0 6 [0];
   mkItem "smul" 0 4 [0];
   mkItem "smlal" 0 4 [0];
   mkItem "smla" 0 4 [0];
   mkItem "mcrr" 0 6 [0];
   mkItem "mrrc" 0 6 [0]].

Definition arm_exclusion_base : list InstructionSetEncodingItem :=
  [
   mkItem "cmp" 3 0 [4; 4; 1; 7; 7; 1; 25; 25; 0];
   mkItem "tst" 3 0 [4; 4; 1; 7; 7; 1; 25; 25; 0];
   mkItem "teq" 3 0 [4; 4; 1; 7; 7; 1; 25; 25; 0];
   mkItem "cmn" 3 0 [4; 4; 1; 7; 7; 1; 25; 25; 0];
   mkItem "smull" 0 0 [0];
   mkItem "umull" 0 0 [0];
   mkItem "umlal" 0 0 [0];
   mkItem "smlal" 0 0 [0];
   mkItem "mul" 0 0 [0];
   mkItem "mla" 0 0 [0];
   mkItem "ssat" 0 6 [0];
   mkItem "usat" 0 6 [0];
   mkItem "mrs" 0 0 [0];
   mkItem "msr" 0 0 [0];
   mkItem "and" 3 0 [4; 4; 1; 7; 7; 1; 25; 25; 0];
   mkItem "bic" 3 0 [4; 4; 1; 7; 7; 1; 25; 25; 0];
   mkItem "ldm" 0 0 [0];
   mkItem "eor" 3 0 [4; 4; 1; 7; 7; 1; 25; 25; 0];
   mkItem "add" 3 0 [4; 4; 1; 7; 7; 1; 25; 25; 0];
   mkItem "rsb" 3 0 [4; 4; 1; 7; 7; 1; 25; 25; 0];
   mkItem "rsc" 3 0 [4; 4; 1; 7; 7; 1; 25; 25; 0];
   mkItem "sbc" 3 0 [4; 4; 1; 7; 7; 1; 25; 25; 0];
   mkItem "adc" 3 0 [4; 4; 1; 7; 7; 1; 25; 25; 0];
   mkItem "sub" 3 0 [4; 4; 1; 7; 7; 1; 25; 25; 0];
   mkItem "orr" 3 0 [4; 4; 1; 7; 7; 1; 25; 25; 0];
   mkItem "mvn" 3 0 [4; 4; 1; 7; 7; 1; 25; 25; 0];
   mkItem "mov" 3 0 [4; 4; 1; 7; 7; 1; 25; 25; 0];
   mkItem "stm" 0 0 [0];
   mkItem "ldm" 0 0 [0];
   mkItem "ldrsh" 0 2 [0];
   mkItem "stm" 0 0 [0];
   mkItem "ldm" 0 0 [0];
   mkItem "ldrsb" 0 2 [0];
   mkItem "strd" 0 4 [0];
   mkItem "ldrh" 0 0 [0];
   mkItem "strh" 0 0 [0];
   mkItem "ldrd" 0 4 [0];
   mkItem "strt" 0 0 [0];
   mkItem "strbt" 0 0 [0];
   mkItem "ldrbt" 0 0 [0];
   mkItem "ldrt" 0 0 [0];
   mkItem "mrc" 0 6 [0];
   mkItem "mcr" 0 0 [0];
   mkItem "msr" 0 0 [0];
   mkItem "msr" 0 0 [0];
   mkItem "msr" 0 0 [0];
   mkItem "msr" 0 0 [0];
   mkItem "msr" 0 0 [0];
   mkItem "ldrb" 0 0 [0];
   mkItem "strb" 0 0 [0];
   mkItem "ldr" 0 0 [0];
   mkItem "ldrcond" 1 0 [28; 31; 14];
   mkItem "str" 0 0 [0];
   mkItem "cdp" 0 0 [0];
   mkItem "stc" 0 0 [0];
   mkItem "ldc" 0 0 [0];
   mkItem "ldrexd" 0 ARMV6K [0];
   mkItem "strexd" 0 ARMV6K [0];
   mkItem "ldrexh" 0 ARMV6K [0];
   mkItem "strexh" 0 ARMV6K [0];
   mkItem "nop" 0 ARMV6K [0];
   mkItem "yield" 0 ARMV6K [0];
   mkItem "wfe" 0 ARMV6K [0];
   mkItem "wfi" 0 ARMV6K [0];
   mkItem "sev" 0 ARMV6K [0];
   mkItem "swi" 0 0 [0];
   mkItem "bbl" 0 0 [0];
   mkItem "bl_1_thumb" 0 INVALID [0];
   mkItem "bl_2_thumb" 0 INVALID [0];
   mkItem "blx_1_thumb" 0 INVALID [0];
   mkItem "invalid" 0 INVALID [0]].

Definition arm_exclusion_code : list InstructionSetEncodingItem :=
  arm_exclusion_vfp ++ arm_exclusion_v6 ++ arm_exclusion_base.

(** ** The decoder *)

(** [while (n)]: true when every field matched. *)
Fixpoint match_instruction (instr : Z) (content : list Z) (n base : nat) : bool :=
  match n with
  | O => true
  | S n =>
      if (at_ content (base + 1) =? 31) && (at_ content base =? 0) then
        if negb (instr =? at_ content (base + 2)) then false
        else match_instruction instr content n (base + 3)
      else if negb (BITS instr (at_ content base) (at_ content (base + 1)) =? at_ content (base + 2))
      then false
      else match_instruction instr content n (base + 3)
  end.

Fixpoint match_exclusion (instr : Z) (content : list Z) (n base : nat) : bool :=
  match n with
  | O => true
  | S n =>
      if negb (BITS instr (at_ content base) (at_ content (base + 1)) =? at_ content (base + 2))
      then false
      else match_exclusion instr content n (base + 3)
  end.

(** The status after the two checks of one entry. *)
Definition entry_status (instr : Z) (item excl : InstructionSetEncodingItem) : ARMDecodeStatus :=
  let ret := if match_instruction instr (content item) (attribute_value item) 0
             then SUCCESS else FAILURE in
  match ret with
  | SUCCESS =>
      let n := attribute_value excl in
      if negb (n =? 0)%nat then
        if match_exclusion instr (content excl) n 0 then FAILURE else SUCCESS
      else SUCCESS
  | FAILURE => FAILURE
  end.

(** The loop over the entries; [arm_exclusion_code] is the longer table. *)
Fixpoint decode_loop (instr : Z) (i : nat) (items excls : list InstructionSetEncodingItem)
    : ARMDecodeStatus * option nat :=
  match items, excls with
  | item :: items, excl :: excls =>
      if version item =? ARMVFP3 then decode_loop instr (S i) items excls
      else
        match entry_status instr item excl with
        | SUCCESS => (SUCCESS, Some i)
        | FAILURE => decode_loop instr (S i) items excls
        end
  | _, _ => (FAILURE, None)
  end.

(** The status and [*idx]. *)
Definition DecodeARMInstruction (instr : Z) : ARMDecodeStatus * option nat :=
  decode_loop instr 0 arm_instruction arm_exclusion_code.

(** ** What the tables say *)

(** The fields (first bit, last bit, value) that an entry constrains. *)
Fixpoint fields (content : list Z) (n base : nat) : list (Z * Z * Z) :=
  match n with
  | O => []
  | S n => (at_ content base, at_ content (base + 1), at_ content (base + 2)) :: fields content n (base + 3)
  end.

Definition item_fields (it : InstructionSetEncodingItem) : list (Z * Z * Z) :=
  fields (content it) (attribute_value it) 0.

Definition has_fields (instr : Z) (fs : list (Z * Z * Z)) : Prop :=
  Forall (fun f => let '(a, b, v) := f in field instr a b = v) fs.

(** The entry [i] is enabled, its fields are in the word, those of its exclusion
    are not. *)
Definition accepts (i : nat) (instr : Z) : Prop :=
  exists item excl, arm_instruction !! i = Some item /\ arm_exclusion_code !! i = Some excl /\
    version item <> ARMVFP3 /\ has_fields instr (item_fields item) /\
    ~ (attribute_value excl <> 0%nat /\ has_fields instr (item_fields excl)).

Definition field_ok (f : Z * Z * Z) : bool :=
  let '(a, b, v) := f in (0 <=? a) && (a <=? b) && (b <=? 31).

Definition table_ok (l : list InstructionSetEncodingItem) : bool :=
  forallb (fun it => forallb field_ok (item_fields it)) l.

Lemma tables_ok : table_ok arm_instruction = true /\ table_ok arm_exclusion_code = true.
Proof. split; vm_compute; reflexivity. Qed.

Lemma test_field instr a b v : is_u32 instr -> field_ok (a, b, v) = true ->
  BITS instr a b = field instr a b.
Proof. intros Hi Hf. simpl in Hf. zbool. apply BITS_field; [done|lia|lia]. Qed.

Lemma field_all instr : is_u32 instr -> field instr 0 31 = instr.
Proof. intros Hi. unfold field. rewrite Z.div_1_r. by apply Z.mod_small. Qed.

Lemma has_fields_cons instr a b v fs :
  has_fields instr ((a, b, v) :: fs) <-> field instr a b = v /\ has_fields instr fs.
Proof. unfold has_fields. by rewrite Forall_cons. Qed.

Lemma match_exclusion_spec instr c n : forall base,
  is_u32 instr -> forallb field_ok (fields c n base) = true ->
  match_exclusion instr c n base = true <-> has_fields instr (fields c n base).
Proof.
  induction n as [|n IH]; intros base Hi Hf; [by split; [constructor|]|].
  cbn [fields forallb] in Hf. apply andb_true_iff in Hf as [Hf1 Hf2].
  cbn [match_exclusion fields]. rewrite has_fields_cons, <-IH by done.
  rewrite (test_field _ _ _ _ Hi Hf1).
  destruct (Z.eqb_spec (field instr (at_ c base) (at_ c (base + 1))) (at_ c (base + 2)));
    cbn [negb]; intuition congruence.
Qed.

(** The special case of the whole word does not differ from the general one. *)
Lemma match_instruction_exclusion instr c n : forall base,
  is_u32 instr -> match_instruction instr c n base = match_exclusion instr c n base.
Proof.
  induction n as [|n IH]; intros base Hi; [done|]. cbn [match_instruction match_exclusion].
  destruct ((at_ c (base + 1) =? 31) && (at_ c base =? 0)) eqn:E; [|by rewrite IH].
  apply andb_true_iff in E as [E1 E2]. zbool. rewrite E1, E2, BITS_field by (done || lia).
  by rewrite field_all, IH.
Qed.

Lemma entry_status_spec instr it ex :
  is_u32 instr -> forallb field_ok (item_fields it) = true -> forallb field_ok (item_fields ex) = true ->
  entry_status instr it ex = SUCCESS <->
  has_fields instr (item_fields it) /\
  ~ (attribute_value ex <> 0%nat /\ has_fields instr (item_fields ex)).
Proof.
  intros Hi H1 H2. unfold entry_status, item_fields in *.
  rewrite match_instruction_exclusion by done.
  rewrite <-!match_exclusion_spec by done.
  destruct (match_exclusion instr (content it) _ 0); [|split; [done|intros [? _]; done]].
  destruct (Nat.eqb_spec (attribute_value ex) 0); cbn [negb]; [tauto|].
  destruct (match_exclusion instr (content ex) _ 0); intuition done.
Qed.

Lemma decode_loop_spec instr items : forall excls k,
  is_u32 instr -> table_ok items = true -> table_ok excls = true -> (length items <= length excls)%nat ->
  let accepts i := exists it ex, items !! i = Some it /\ excls !! i = Some ex /\ version it <> ARMVFP3 /\
    has_fields instr (item_fields it) /\
    ~ (attribute_value ex <> 0%nat /\ has_fields instr (item_fields ex)) in
  (exists i, decode_loop instr k items excls = (SUCCESS, Some (k + i)%nat) /\ accepts i /\
     forall j, (j < i)%nat -> ~ accepts j) \/
  (decode_loop instr k items excls = (FAILURE, None) /\ forall j, ~ accepts j).
Proof.
  induction items as [|it items IH]; intros excls k Hi Ht He Hl accepts.
  { right. split; [done|]. intros j (? & ? & Hj & _). by rewrite lookup_nil in Hj. }
  destruct excls as [|ex excls]; [simpl in Hl; lia|]. simpl in Hl.
  simpl in Ht, He. apply andb_true_iff in Ht as [Ht1 Ht2]. apply andb_true_iff in He as [He1 He2].
  specialize (IH excls (S k) Hi Ht2 He2 ltac:(lia)). cbv zeta in IH.
  assert (H0 : accepts O <-> version it <> ARMVFP3 /\ entry_status instr it ex = SUCCESS).
  { rewrite entry_status_spec by done. unfold accepts. simpl. split.
    - intros (a & b & [= <-] & [= <-] & H). tauto.
    - intros H. exists it, ex. tauto. }
  assert (Hskip : ~ accepts O -> decode_loop instr k (it :: items) (ex :: excls) =
                  decode_loop instr (S k) items excls).
  { intros Hn. simpl. destruct (Z.eqb_spec (version it) ARMVFP3); [done|].
    destruct (entry_status instr it ex); [tauto|done]. }
  assert (Hdec : Decision (version it <> ARMVFP3 /\ entry_status instr it ex = SUCCESS)) by apply _.
  destruct Hdec as [Hd|Hd].
  { left. exists O. split_and!; [|by apply H0|lia]. rewrite Nat.add_0_r. simpl.
    destruct Hd as [Hv Hs]. rewrite (proj2 (Z.eqb_neq _ _)) by done. by rewrite Hs. }
  rewrite <-H0 in Hd. rewrite (Hskip Hd).
  destruct IH as [(i & E & Ha & Hmin)|[E Hno]]; [left|right].
  - exists (S i). split_and!; [rewrite E; do 2 f_equal; lia|exact Ha|].
    intros [|j] Hj; [done|]. apply (Hmin j). lia.
  - split; [done|]. intros [|j]; [done|]. apply Hno.
Qed.

(** The decoder against the entries that accept a word. *)
Lemma decode_spec instr : is_u32 instr ->
  (exists i, DecodeARMInstruction instr = (SUCCESS, Some i) /\ accepts i instr /\
     forall j, (j < i)%nat -> ~ accepts j instr) \/
  (DecodeARMInstruction instr = (FAILURE, None) /\ forall j, ~ accepts j instr).
Proof.
  intros Hi. destruct tables_ok as [H1 H2].
  apply (decode_loop_spec instr arm_instruction arm_exclusion_code 0 Hi H1 H2).
  apply Nat.leb_le. vm_compute. reflexivity.
Qed.

(** ** The properties *)

(** C27: The decoder returns the first entry of the table (VFPv3 ones left out)
    whose fields are in the word and whose exclusion's fields are not, and fails
    exactly when there is none; the special case for a whole-word field changes
    nothing. *)
Theorem decode_first_match instr : is_u32 instr ->
  (exists i, DecodeARMInstruction instr = (SUCCESS, Some i) /\ accepts i instr /\
     forall j, (j < i)%nat -> ~ accepts j instr) \/
  (DecodeARMInstruction instr = (FAILURE, None) /\ forall j, ~ accepts j instr).
Proof. apply decode_spec. Qed.

(** [add r0, r1, r2]: the entry "add". *)
Lemma decode_first_match_witness :
  exists i, DecodeARMInstruction 0xE0810002 = (SUCCESS, Some i) /\ accepts i 0xE0810002 /\
    name <$> arm_instruction !! i = Some "add".
Proof.
  destruct (decode_first_match 0xE0810002) as [(i & E & Ha & _)|[E _]].
  - done.
  - exists i. split_and!; [exact E|exact Ha|]. vm_compute in E. injection E as <-. reflexivity.
  - vm_compute in E. discriminate E.
Defined.

(** ** The condition field *)

(** A field outside the condition, or one that asks for the conditions AL or NV. *)
Definition cond_free (f : Z * Z * Z) : bool :=
  let '(a, b, v) := f in
  (b <=? 27) || ((b =? 31) && (a <=? 28) && (14 * 2 ^ (28 - a) <=? v)).

Definition table_cond_free (l : list InstructionSetEncodingItem) : bool :=
  forallb (fun it => forallb cond_free (item_fields it)) l.

Lemma tables_cond_free : table_cond_free arm_instruction = true /\ table_cond_free arm_exclusion_code = true.
Proof. split; vm_compute; reflexivity. Qed.

Definition with_cond (c r : Z) : Z := c * 2 ^ 28 + r.

Lemma with_cond_word c r : 0 <= c < 16 -> 0 <= r < 2 ^ 28 -> is_u32 (with_cond c r).
Proof. unfold with_cond, is_u32. change (2 ^ 28) with 268435456. lia. Qed.

Lemma field_low c r a b : 0 <= a <= b -> b <= 27 -> field (with_cond c r) a b = field r a b.
Proof.
  intros Ha Hb. unfold field, with_cond.
  replace (c * 2 ^ 28) with (c * 2 ^ (27 - b) * 2 ^ (b - a + 1) * 2 ^ a).
  - rewrite Z.add_comm, Z.div_add by lia. by rewrite Z.mod_add by lia.
  - replace 28 with (27 - b + (b - a + 1) + a) by lia. rewrite !Z.pow_add_r by lia. lia.
Qed.

Lemma field_high c r a v : 0 <= c < 14 -> 0 <= r < 2 ^ 28 -> 0 <= a <= 28 ->
  14 * 2 ^ (28 - a) <= v -> field (with_cond c r) a 31 <> v.
Proof.
  intros Hc Hr Ha Hv. unfold field, with_cond.
  assert (H28 : 2 ^ 28 = 2 ^ (28 - a) * 2 ^ a) by (rewrite <-Z.pow_add_r by lia; f_equal; lia).
  assert (Hp : 0 < 2 ^ a) by lia. assert (Hq : 0 < 2 ^ (28 - a)) by lia.
  assert (Hd : (c * 2 ^ 28 + r) / 2 ^ a < 14 * 2 ^ (28 - a)).
  { apply Z.div_lt_upper_bound; [lia|]. nia. }
  pose proof (Z.mod_le ((c * 2 ^ 28 + r) / 2 ^ a) (2 ^ (31 - a + 1))) as Hm.
  assert (0 <= (c * 2 ^ 28 + r) / 2 ^ a) by (apply Z.div_pos; lia). lia.
Qed.

Lemma fields_cond_free c1 c2 r fs :
  0 <= c1 < 14 -> 0 <= c2 < 14 -> 0 <= r < 2 ^ 28 ->
  forallb field_ok fs = true -> forallb cond_free fs = true ->
  has_fields (with_cond c1 r) fs -> has_fields (with_cond c2 r) fs.
Proof.
  intros H1 H2 Hr Hok Hcf Hf. unfold has_fields in *. rewrite Forall_forall in *.
  rewrite forallb_forall in Hok, Hcf. intros [[a b] v] Hin. specialize (Hf _ Hin). simpl in Hf.
  apply list_elem_of_In in Hin. specialize (Hok _ Hin). specialize (Hcf _ Hin).
  simpl in Hok, Hcf. zbool. apply orb_true_iff in Hcf as [Hb|Hb]; zbool.
  - rewrite field_low in Hf |- * by lia. done.
  - exfalso. subst b. eapply field_high; [apply H1|apply Hr| | |exact Hf]; lia.
Qed.

Lemma table_lookup (P : InstructionSetEncodingItem -> bool) l i it :
  forallb P l = true -> l !! i = Some it -> P it = true.
Proof.
  intros Hl Hi. rewrite forallb_forall in Hl. apply Hl, list_elem_of_In. by eapply list_elem_of_lookup_2.
Qed.

Lemma accepts_cond c1 c2 r i :
  0 <= c1 < 14 -> 0 <= c2 < 14 -> 0 <= r < 2 ^ 28 ->
  accepts i (with_cond c1 r) -> accepts i (with_cond c2 r).
Proof.
  intros H1 H2 Hr (it & ex & Hi & He & Hv & Hf & Hx). exists it, ex.
  destruct tables_ok as [Ok1 Ok2], tables_cond_free as [Cf1 Cf2].
  pose proof (table_lookup _ _ _ _ Ok1 Hi). pose proof (table_lookup _ _ _ _ Ok2 He).
  pose proof (table_lookup _ _ _ _ Cf1 Hi). pose proof (table_lookup _ _ _ _ Cf2 He).
  split_and!; try done; [by apply (fields_cond_free c1 c2 r)|].
  intros [Hn Hfx]. apply Hx. split; [done|]. by apply (fields_cond_free c2 c1 r).
Qed.

(** The condition field does not take part in decoding: two words that differ
    only in their condition, neither AL nor the unconditional 15, decode to the same
    entry. *)
Theorem decode_condition_independent c1 c2 r :
  0 <= c1 < 14 -> 0 <= c2 < 14 -> 0 <= r < 2 ^ 28 ->
  DecodeARMInstruction (with_cond c1 r) = DecodeARMInstruction (with_cond c2 r).
Proof.
  intros H1 H2 Hr.
  assert (Hiff : forall i, accepts i (with_cond c1 r) <-> accepts i (with_cond c2 r)).
  { intros i. split; by apply accepts_cond. }
  destruct (decode_first_match (with_cond c1 r)) as [(i & E1 & A1 & M1)|[E1 N1]];
    [apply with_cond_word; lia| |];
    (destruct (decode_first_match (with_cond c2 r)) as [(j & E2 & A2 & M2)|[E2 N2]];
      [apply with_cond_word; lia| |]); rewrite E1, E2.
  - do 2 f_equal. destruct (Nat.lt_trichotomy i j) as [H|[H|H]]; [|done|].
    + destruct (M2 i H). by apply Hiff.
    + destruct (M1 j H). by apply Hiff.
  - destruct (N2 i). by apply Hiff.
  - destruct (N1 j). by apply Hiff.
  - done.
Qed.

(** [ldrcond r0, [r1]] under EQ and NE. *)
Lemma decode_condition_independent_witness :
  DecodeARMInstruction (with_cond 0 0x5910000) = DecodeARMInstruction (with_cond 1 0x5910000) /\
  DecodeARMInstruction (with_cond 0 0x5910000) <> DecodeARMInstruction (with_cond 14 0x5910000).
Proof.
  split; [apply (decode_condition_independent 0 1 0x5910000); done|].
  vm_compute. discriminate.
Defined.
