(* ===== verification/Thumb.v ===== *)
(** * Thumb: translation of Thumb instructions to ARM (core/arm/dyncom/arm_dyncom_thumb.cpp, .h)

    One definition per group of cases of the switch.  All operands are 16-bit
    fields shifted inside a 32-bit word, so no shift overflows. *)
From Stdlib Require Import Btauto.
From S2P Require Import Prelude ArmSupp.

Local Open Scope Z_scope.

Inductive ThumbDecodeStatus := UNDEFINED | DECODED | BRANCH | UNINITIALIZED.

Definition GetThumbInstruction (instr address : Z) : Z :=
  if negb (Z.land address 0x3 =? 0) then Z.shiftr instr 16 else Z.land instr 0xFFFF.

Declare Scope word_scope.
Local Notation "x '.|' y" := (Z.lor x y) (at level 50, left associativity) : word_scope.
Local Notation "x '.&' y" := (Z.land x y) (at level 40, left associativity) : word_scope.
Local Notation "x '<<' y" := (Z.shiftl x y) (at level 45, left associativity) : word_scope.
Local Notation "x '>>' y" := (Z.shiftr x y) (at level 45, left associativity) : word_scope.
Local Open Scope word_scope.

(** [subset[i]] *)
Definition sub (l : list Z) (i : Z) : Z := nth (Z.to_nat i) l 0.

(** The translation of a halfword: an ARM word, or the status of the branch. *)
Inductive translation := Word (ainstr : Z) | Status (s : ThumbDecodeStatus).

(** Cases 0 to 2. *)
Definition thumb_shift (tinstr : Z) : Z :=
  0xE1B00000 .| (tinstr .& 0x1800 >> (11 - 5)) .| (tinstr .& 0x07C0 << (7 - 6))
  .| (tinstr .& 0x0038 >> 3) .| (tinstr .& 0x0007 << 12).

(** Case 3. *)
Definition thumb_addsub (tinstr : Z) : Z :=
  sub [0xE0900000; 0xE0500000; 0xE2900000; 0xE2500000] (tinstr .& 0x0600 >> 9)
  .| (tinstr .& 0x01C0 >> 6) .| (tinstr .& 0x0038 << (16 - 3)) .| (tinstr .& 0x0007 << (12 - 0)).

(** Cases 4 to 7. *)
Definition thumb_imm8 (tinstr : Z) : Z :=
  sub [0xE3B00000; 0xE3500000; 0xE2900000; 0xE2500000] (tinstr .& 0x1800 >> 11)
  .| (tinstr .& 0x00FF >> 0) .| (tinstr .& 0x0700 << (16 - 8)) .| (tinstr .& 0x0700 << (12 - 8)).

Inductive otype := t_norm | t_shift | t_neg | t_mul.

(** Case 8 with bit 10 clear. *)
Definition alu_subset : list (Z * otype) :=
  [(0xE0100000, t_norm); (0xE0300000, t_norm); (0xE1B00010, t_shift); (0xE1B00030, t_shift);
   (0xE1B00050, t_shift); (0xE0B00000, t_norm); (0xE0D00000, t_norm); (0xE1B00070, t_shift);
   (0xE1100000, t_norm); (0xE2700000, t_neg); (0xE1500000, t_norm); (0xE1700000, t_norm);
   (0xE1900000, t_norm); (0xE0100090, t_mul); (0xE1D00000, t_norm); (0xE1F00000, t_norm)].

Definition thumb_alu (tinstr : Z) : Z :=
  let (opcode, type) := nth (Z.to_nat (tinstr .& 0x03C0 >> 6)) alu_subset (0, t_norm) in
  match type with
  | t_norm => opcode .| ((tinstr .& 0x0007 << 16) .| (tinstr .& 0x0007 << 12) .| (tinstr .& 0x0038 >> 3))
  | t_shift => opcode .| ((tinstr .& 0x0007 << 12) .| (tinstr .& 0x0007 >> 0) .| (tinstr .& 0x0038 << (8 - 3)))
  | t_neg => opcode .| ((tinstr .& 0x0007 << 12) .| (tinstr .& 0x0038 << (16 - 3)))
  | t_mul => opcode .| ((tinstr .& 0x0007 << 16) .| (tinstr .& 0x0007 << 8) .| (tinstr .& 0x0038 >> 3))
  end.

(** Case 8 with bit 10 set. *)
Definition thumb_hireg (tinstr : Z) : Z :=
  let Rd := tinstr .& 0x0007 >> 0 in
  let Rs := tinstr .& 0x0078 >> 3 in
  let Rd := if negb (tinstr .& (1 << 7) =? 0) then Rd + 8 else Rd in
  let op := tinstr .& 0x03C0 >> 6 in
  if op <=? 0x3 then 0xE0800000 .| (Rd << 16) .| (Rd << 12) .| (Rs << 0)
  else if op <=? 0x7 then 0xE1500000 .| (Rd << 16) .| (Rs << 0)
  else if op <=? 0xB then 0xE1A00000 .| (Rd << 12) .| (Rs << 0)
  else if op <=? 0xD then 0xE12FFF10 .| (tinstr .& 0x0078 >> 3)
  else 0xE1200030 .| (Rs << 0).

(** Case 9. *)
Definition thumb_ldr_pc (tinstr : Z) : Z :=
  0xE59F0000 .| (tinstr .& 0x0700 << (12 - 8)) .| (tinstr .& 0x00FF << (2 - 0)).

(** Cases 10 and 11. *)
Definition thumb_mem_reg (tinstr : Z) : Z :=
  sub [0xE7800000; 0xE18000B0; 0xE7C00000; 0xE19000D0; 0xE7900000; 0xE19000B0; 0xE7D00000; 0xE19000F0]
    (tinstr .& 0xE00 >> 9)
  .| (tinstr .& 0x0007 << (12 - 0)) .| (tinstr .& 0x0038 << (16 - 3)) .| (tinstr .& 0x01C0 >> 6).

(** Cases 12 to 15. *)
Definition thumb_mem_imm (tinstr : Z) : Z :=
  sub [0xE5800000; 0xE5900000; 0xE5C00000; 0xE5D00000] (tinstr .& 0x1800 >> 11)
  .| (tinstr .& 0x0007 << (12 - 0)) .| (tinstr .& 0x0038 << (16 - 3))
  .| (tinstr .& 0x07C0 >> (6 - (if negb (tinstr .& (1 << 12) =? 0) then 0 else 2))).

(** Cases 16 and 17. *)
Definition thumb_half_imm (tinstr : Z) : Z :=
  (if negb (tinstr .& (1 << 11) =? 0) then 0xE1D000B0 else 0xE1C000B0)
  .| (tinstr .& 0x0007 << (12 - 0)) .| (tinstr .& 0x0038 << (16 - 3))
  .| (tinstr .& 0x01C0 >> (6 - 1)) .| (tinstr .& 0x0600 >> (9 - 8)).

(** Cases 18 and 19. *)
Definition thumb_mem_sp (tinstr : Z) : Z :=
  (if negb (tinstr .& (1 << 11) =? 0) then 0xE59D0000 else 0xE58D0000)
  .| (tinstr .& 0x0700 << (12 - 8)) .| (tinstr .& 0x00FF << 2).

(** Cases 20 and 21. *)
Definition thumb_address (tinstr : Z) : Z :=
  if tinstr .& (1 << 11) =? 0 then
    0xE28F0F00 .| (tinstr .& 0x0700 << (12 - 8)) .| (tinstr .& 0x00FF)
  else 0xE28D0F00 .| (tinstr .& 0x0700 << (12 - 8)) .| (tinstr .& 0x00FF).

(** Cases 22 and 23. *)
Definition thumb_misc (tinstr : Z) : translation :=
  if tinstr .& 0x0F00 =? 0x0000 then
    Word ((if negb (tinstr .& (1 << 7) =? 0) then 0xE24DDF00 else 0xE28DDF00) .| (tinstr .& 0x007F))
  else if tinstr .& 0x0F00 =? 0x0e00 then
    Word (0xEF000000 .| BITS tinstr 0 3 .| (BITS tinstr 4 7 << 8))
  else if tinstr .& 0x0F00 =? 0x0200 then
    Word (sub [0xE6BF0070; 0xE6AF0070; 0xE6FF0070; 0xE6EF0070] (BITS tinstr 6 7)
          .| (BITS tinstr 0 2 << 12) .| BITS tinstr 3 5)
  else if tinstr .& 0x0F00 =? 0x600 then
    if BIT tinstr 5 =? 0 then Word (0xF1010000 .| (BIT tinstr 3 << 9))
    else Word (0xF1080000 .| (BIT tinstr 0 << 6) .| (BIT tinstr 1 << 7) .| (BIT tinstr 2 << 8)
               .| (BIT tinstr 4 << 18))
  else if tinstr .& 0x0F00 =? 0x0a00 then
    let subset_index := BITS tinstr 6 7 in
    if subset_index =? 2 then Status UNDEFINED
    else Word (sub [0xE6BF0F30; 0xE6BF0FB0; 0; 0xE6FF0FB0] subset_index
               .| (BITS tinstr 0 2 << 12) .| BITS tinstr 3 5)
  else
    Word (sub [0xE92D0000; 0xE92D4000; 0xE8BD0000; 0xE8BD8000]
            ((tinstr .& (1 << 11) >> 10) .| (tinstr .& (1 << 8) >> 8))
          .| (tinstr .& 0x00FF)).

(** Cases 24 and 25. *)
Definition thumb_multiple (tinstr : Z) : Z :=
  if negb (tinstr .& (1 << 11) =? 0) then
    let rn := BITS tinstr 8 10 in
    let base := if tinstr .& (1 << rn) =? 0 then 0xE8900000 .| (1 << 21) else 0xE8900000 in
    base .| (rn << 16) .| (tinstr .& 0x00FF)
  else 0xE8A00000 .| (BITS tinstr 8 10 << 16) .| (tinstr .& 0x00FF).

(** Cases 26 and 27. *)
Definition thumb_swi (tinstr : Z) : translation :=
  if tinstr .& 0x0F00 =? 0x0F00 then
    Word (if tinstr .& 0x00FF =? 0x18 then 0xEF000000 .| (tinstr .& 0x00FF << 16)
          else if tinstr .& 0x00FF =? 0xFE then 0xEF000000 .| 0x180000
          else 0xEF000000 .| (tinstr .& 0x00FF))
  else if negb (tinstr .& 0x0F00 =? 0x0E00) then Status BRANCH
  else Status UNDEFINED.

Definition translate (tinstr : Z) : translation :=
  let op := tinstr .& 0xF800 >> 11 in
  if op <=? 2 then Word (thumb_shift tinstr)
  else if op <=? 3 then Word (thumb_addsub tinstr)
  else if op <=? 7 then Word (thumb_imm8 tinstr)
  else if op <=? 8 then
    Word (if tinstr .& (1 << 10) =? 0 then thumb_alu tinstr else thumb_hireg tinstr)
  else if op <=? 9 then Word (thumb_ldr_pc tinstr)
  else if op <=? 11 then Word (thumb_mem_reg tinstr)
  else if op <=? 15 then Word (thumb_mem_imm tinstr)
  else if op <=? 17 then Word (thumb_half_imm tinstr)
  else if op <=? 19 then Word (thumb_mem_sp tinstr)
  else if op <=? 21 then Word (thumb_address tinstr)
  else if op <=? 23 then thumb_misc tinstr
  else if op <=? 25 then Word (thumb_multiple tinstr)
  else if op <=? 27 then thumb_swi tinstr
  else if op <=? 28 then Status BRANCH
  else if op <=? 29 then (if negb (tinstr .& 0x1 =? 0) then Status UNDEFINED else Status BRANCH)
  else Status BRANCH.

(** The status, [*ainstr] and [*inst_size]; a word that was not assigned keeps the
    debugging value. *)
Definition TranslateThumbInstruction (addr instr : Z) : ThumbDecodeStatus * Z * Z :=
  match translate (GetThumbInstruction instr addr) with
  | Word ainstr => (UNINITIALIZED, ainstr, 2)
  | Status s => (s, 0xDEADC0DE, 2)
  end.

(** ** ARM instructions

    The ARM instructions that a Thumb-1 instruction stands for, all executed
    unconditionally, and their encoding (ARM Architecture Reference Manual). *)

Inductive operand2 :=
  | Imm (rotate imm8 : Z)
  | RegShiftImm (rm shift imm5 : Z)
  | RegShiftReg (rm shift rs : Z).

Inductive address := Offset12 (imm12 : Z) | OffsetReg (rm : Z).
Inductive half_address := Offset8 (hi lo : Z) | OffsetReg8 (rm : Z).

Inductive arm :=
  | DataProc (op : Z) (s : bool) (rn rd : Z) (o : operand2)
  | Mul (rd rm rs : Z)
  | BX (rm : Z)
  | BLX (rm : Z)
  | Load (b : bool) (rn rd : Z) (a : address)
  | Store (b : bool) (rn rd : Z) (a : address)
  (* [sh]: 1 unsigned halfword, 2 signed byte, 3 signed halfword *)
  | LoadHalf (sh rn rd : Z) (a : half_address)
  | StoreHalf (rn rd : Z) (a : half_address)
  | Extend (unsigned half : bool) (rd rm : Z)
  | Rev (rd rm : Z)
  | Rev16 (rd rm : Z)
  | RevSh (rd rm : Z)
  | SetEnd (e : Z)
  | Cps (im a i f : Z)
  | StoreMultiple (before writeback : bool) (rn extra reglist : Z)
  | LoadMultiple (writeback : bool) (rn extra reglist : Z)
  | Swi (imm : Z)
  | Bkpt (imm8 : Z).

Definition AND := 0.
Definition EOR := 1.
Definition SUB := 2.
Definition RSB := 3.
Definition ADD := 4.
Definition ADC := 5.
Definition SBC := 6.
Definition TST := 8.
Definition CMP := 10.
Definition CMN := 11.
Definition ORR := 12.
Definition MOV := 13.
Definition BIC := 14.
Definition MVN := 15.
Definition LSL := 0.
Definition LSR := 1.
Definition ASR := 2.
Definition ROR := 3.
Definition SP := 13.
Definition LR := 14.
Definition PC := 15.

(** Condition AL; the bits of a flag. *)
Definition AL : Z := 14 << 28.
Definition flag (b : bool) (k : Z) : Z := if b then 1 << k else 0.

Definition encode_operand2 (o : operand2) : Z :=
  match o with
  | Imm rotate imm8 => (1 << 25) .| (rotate << 8) .| imm8
  | RegShiftImm rm shift imm5 => (imm5 << 7) .| (shift << 5) .| rm
  | RegShiftReg rm shift rs => (1 << 4) .| (shift << 5) .| (rs << 8) .| rm
  end.

Definition encode_address (a : address) : Z :=
  match a with
  | Offset12 imm12 => imm12
  | OffsetReg rm => (1 << 25) .| rm
  end.

Definition encode_half_address (a : half_address) : Z :=
  match a with
  | Offset8 hi lo => (1 << 22) .| (hi << 8) .| lo
  | OffsetReg8 rm => rm
  end.

(** Offset addressing, index added (P = U = 1, W = 0). *)
Definition arm_encode (i : arm) : Z :=
  match i with
  | DataProc op s rn rd o =>
      AL .| (op << 21) .| flag s 20 .| (rn << 16) .| (rd << 12) .| encode_operand2 o
  | Mul rd rm rs => AL .| (1 << 20) .| (9 << 4) .| (rd << 16) .| (rs << 8) .| rm
  | BX rm => AL .| (0x12FFF1 << 4) .| rm
  | BLX rm => AL .| (0x12FFF3 << 4) .| rm
  | Load b rn rd a =>
      AL .| (1 << 26) .| (3 << 23) .| flag b 22 .| (1 << 20) .| (rn << 16) .| (rd << 12) .| encode_address a
  | Store b rn rd a =>
      AL .| (1 << 26) .| (3 << 23) .| flag b 22 .| (rn << 16) .| (rd << 12) .| encode_address a
  | LoadHalf sh rn rd a =>
      AL .| (3 << 23) .| (1 << 20) .| (9 << 4) .| (sh << 5) .| (rn << 16) .| (rd << 12) .| encode_half_address a
  | StoreHalf rn rd a =>
      AL .| (3 << 23) .| (9 << 4) .| (1 << 5) .| (rn << 16) .| (rd << 12) .| encode_half_address a
  | Extend unsigned half rd rm =>
      AL .| (0x6A << 20) .| flag unsigned 22 .| flag half 20 .| (15 << 16) .| (7 << 4) .| (rd << 12) .| rm
  | Rev rd rm => AL .| (0x6BF << 16) .| (0xF3 << 4) .| (rd << 12) .| rm
  | Rev16 rd rm => AL .| (0x6BF << 16) .| (0xFB << 4) .| (rd << 12) .| rm
  | RevSh rd rm => AL .| (0x6FF << 16) .| (0xFB << 4) .| (rd << 12) .| rm
  | SetEnd e => 0xF1010000 .| (e << 9)
  | Cps im a i f => 0xF1080000 .| (im << 18) .| (a << 8) .| (i << 7) .| (f << 6)
  | StoreMultiple before writeback rn extra reglist =>
      AL .| (1 << 27) .| (if before then 1 << 24 else 1 << 23) .| flag writeback 21 .| (rn << 16)
      .| extra .| reglist
  | LoadMultiple writeback rn extra reglist =>
      AL .| (1 << 27) .| (1 << 23) .| flag writeback 21 .| (1 << 20) .| (rn << 16) .| extra .| reglist
  | Swi imm => AL .| (15 << 24) .| imm
  | Bkpt imm8 => AL .| (0x12 << 20) .| (7 << 4) .| (field imm8 4 7 << 8) .| field imm8 0 3
  end.

(** The bits of an encoding that should be zero or should be one: the first operand
    of MOV and MVN, the destination of the comparisons, the ones in BLX. *)
Definition should_be (i : arm) : Z :=
  match i with
  | DataProc op _ _ _ _ =>
      if (op =? MOV) || (op =? MVN) then 0xF0000
      else if (TST <=? op) && (op <=? CMN) then 0xF000
      else 0
  | BLX _ => 0xFFF00
  | _ => 0
  end.

(** A word that encodes an instruction: equal in all other bits. *)
Definition encodes (word : Z) (i : arm) : Prop :=
  word .| should_be i = arm_encode i .| should_be i.

(** The meaning of a halfword (ARMv6): an ARM instruction, or a branch, an undefined or
    an unpredictable instruction. *)
Inductive meaning := Arm (i : arm) | Branch | Undefined | Unpredictable.

Section Meaning.
Context (t : Z).
Local Abbreviation f := (field t).

Definition alu_meaning : arm :=
  let rd := f 0 2 in
  let rs := f 3 5 in
  let norm op rn rd := DataProc op true rn rd (RegShiftImm rs LSL 0) in
  let shift sh := DataProc MOV true 0 rd (RegShiftReg rd sh rs) in
  match f 6 9 with
  | 0 => norm AND rd rd
  | 1 => norm EOR rd rd
  | 2 => shift LSL
  | 3 => shift LSR
  | 4 => shift ASR
  | 5 => norm ADC rd rd
  | 6 => norm SBC rd rd
  | 7 => shift ROR
  | 8 => norm TST rd 0
  | 9 => DataProc RSB true rs rd (Imm 0 0)
  | 10 => norm CMP rd 0
  | 11 => norm CMN rd 0
  | 12 => norm ORR rd rd
  | 13 => Mul rd rs rd
  | 14 => norm BIC rd rd
  | _ => norm MVN 0 rd
  end.

(** Registers 8 to 15 are reached through bits 7 and 6. *)
Definition hireg_meaning : arm :=
  let rd := f 0 2 + 8 * f 7 7 in
  let rm := f 3 6 in
  match f 8 9 with
  | 0 => DataProc ADD false rd rd (RegShiftImm rm LSL 0)
  | 1 => DataProc CMP true rd 0 (RegShiftImm rm LSL 0)
  | 2 => DataProc MOV false 0 rd (RegShiftImm rm LSL 0)
  | _ => if f 7 7 =? 0 then BX rm else BLX rm
  end.

Definition mem_reg_meaning : arm :=
  let rd := f 0 2 in
  let rb := f 3 5 in
  let ro := f 6 8 in
  match f 9 11 with
  | 0 => Store false rb rd (OffsetReg ro)
  | 1 => StoreHalf rb rd (OffsetReg8 ro)
  | 2 => Store true rb rd (OffsetReg ro)
  | 3 => LoadHalf 2 rb rd (OffsetReg8 ro)
  | 4 => Load false rb rd (OffsetReg ro)
  | 5 => LoadHalf 1 rb rd (OffsetReg8 ro)
  | 6 => Load true rb rd (OffsetReg ro)
  | _ => LoadHalf 3 rb rd (OffsetReg8 ro)
  end.

Definition misc_meaning : meaning :=
  let rd := f 0 2 in
  let rm := f 3 5 in
  match f 8 11 with
  | 0 => Arm (DataProc (if f 7 7 =? 0 then ADD else SUB) false SP SP (Imm 15 (f 0 6)))
  | 2 => Arm (match f 6 7 with
              | 0 => Extend false true rd rm
              | 1 => Extend false false rd rm
              | 2 => Extend true true rd rm
              | _ => Extend true false rd rm
              end)
  | 4 | 5 => Arm (StoreMultiple true true SP (f 8 8 << LR) (f 0 7))
  | 6 => match f 5 7 with
         | 2 => if (f 4 4 =? 1) && (f 0 2 =? 0) then Arm (SetEnd (f 3 3)) else Unpredictable
         | 3 => if f 3 3 =? 0 then Arm (Cps (f 4 4) (f 2 2) (f 1 1) (f 0 0)) else Unpredictable
         | _ => Undefined
         end
  | 10 => match f 6 7 with
          | 0 => Arm (Rev rd rm)
          | 1 => Arm (Rev16 rd rm)
          | 2 => Undefined
          | _ => Arm (RevSh rd rm)
          end
  | 12 | 13 => Arm (LoadMultiple true SP (f 8 8 << PC) (f 0 7))
  | 14 => Arm (Bkpt (f 0 7))
  | _ => Undefined
  end.

Definition swi_meaning : meaning :=
  match f 8 11 with
  | 15 => Arm (Swi (f 0 7))
  | 14 => Undefined
  | _ => Branch
  end.

Definition thumb_meaning : meaning :=
  match f 11 15 with
  | 0 | 1 | 2 => Arm (DataProc MOV true 0 (f 0 2) (RegShiftImm (f 3 5) (f 11 12) (f 6 10)))
  | 3 =>
      Arm (DataProc (if f 9 9 =? 0 then ADD else SUB) true (f 3 5) (f 0 2)
             (if f 10 10 =? 0 then RegShiftImm (f 6 8) LSL 0 else Imm 0 (f 6 8)))
  | 4 => Arm (DataProc MOV true 0 (f 8 10) (Imm 0 (f 0 7)))
  | 5 => Arm (DataProc CMP true (f 8 10) 0 (Imm 0 (f 0 7)))
  | 6 => Arm (DataProc ADD true (f 8 10) (f 8 10) (Imm 0 (f 0 7)))
  | 7 => Arm (DataProc SUB true (f 8 10) (f 8 10) (Imm 0 (f 0 7)))
  | 8 => Arm (if f 10 10 =? 0 then alu_meaning else hireg_meaning)
  | 9 => Arm (Load false PC (f 8 10) (Offset12 (f 0 7 << 2)))
  | 10 | 11 => Arm mem_reg_meaning
  | 12 => Arm (Store false (f 3 5) (f 0 2) (Offset12 (f 6 10 << 2)))
  | 13 => Arm (Load false (f 3 5) (f 0 2) (Offset12 (f 6 10 << 2)))
  | 14 => Arm (Store true (f 3 5) (f 0 2) (Offset12 (f 6 10)))
  | 15 => Arm (Load true (f 3 5) (f 0 2) (Offset12 (f 6 10)))
  | 16 => Arm (StoreHalf (f 3 5) (f 0 2) (Offset8 (f 9 10) (f 6 8 << 1)))
  | 17 => Arm (LoadHalf 1 (f 3 5) (f 0 2) (Offset8 (f 9 10) (f 6 8 << 1)))
  | 18 => Arm (Store false SP (f 8 10) (Offset12 (f 0 7 << 2)))
  | 19 => Arm (Load false SP (f 8 10) (Offset12 (f 0 7 << 2)))
  | 20 => Arm (DataProc ADD false PC (f 8 10) (Imm 15 (f 0 7)))
  | 21 => Arm (DataProc ADD false SP (f 8 10) (Imm 15 (f 0 7)))
  | 22 | 23 => misc_meaning
  | 24 => Arm (StoreMultiple false true (f 8 10) 0 (f 0 7))
  | 25 => Arm (LoadMultiple (negb (Z.testbit t (f 8 10))) (f 8 10) 0 (f 0 7))
  | 26 | 27 => swi_meaning
  | 29 => if f 0 0 =? 0 then Branch else Undefined
  | _ => Branch
  end.
(** The halfwords that are not translated to what they mean: those between 0xB000 and
    0xBFFF that ARMv6 leaves undefined or unpredictable, the breakpoint, and the two
    system calls that stand for a breakpoint of the debugger. *)
Definition deviates : bool :=
  match f 12 15, f 8 11 with
  | 11, (1 | 3 | 7 | 8 | 9 | 11 | 14 | 15) => true
  | 11, 6 => negb ((f 5 7 =? 2) && (f 4 4 =? 1) && (f 0 2 =? 0) || (f 5 7 =? 3) && (f 3 3 =? 0))
  | 13, 15 => (f 0 7 =? 0x18) || (f 0 7 =? 0xFE)
  | _, _ => false
  end.
End Meaning.

(** ** Fields and masks *)

Lemma field_bits t a b : 0 <= a <= b -> field t a b = Z.land (Z.shiftr t a) (Z.ones (b - a + 1)).
Proof. intros H. unfold field. by rewrite Z.land_ones, Z.shiftr_div_pow2 by lia. Qed.

Lemma mask_field t m a b :
  ((0 <=? a) && (a <=? b) && (m =? Z.ones (b - a + 1) << a)) = true -> t .& m = field t a b << a.
Proof.
  intros H. zbool. subst m. rewrite field_bits by lia. apply Z.bits_inj'. intros i Hi.
  rewrite Z.land_spec, !Z.shiftl_spec, Z.land_spec by done.
  destruct (Z.lt_ge_cases i a).
  - rewrite !(Z.testbit_neg_r _ (i - a)) by lia. by rewrite !andb_false_r.
  - rewrite Z.shiftr_spec by lia. by replace (i - a + a) with i by lia.
Qed.

(** A field of a field. *)
Lemma field_sub t a b c d : 0 <= c <= a -> a <= b <= d -> field t a b = field (field t c d) (a - c) (b - c).
Proof.
  intros Hc Hb. rewrite !field_bits by lia. apply Z.bits_inj'. intros i Hi.
  rewrite !Z.land_spec, !Z.shiftr_spec, Z.land_spec, Z.shiftr_spec by lia.
  rewrite !Z.testbit_ones by lia. replace (i + (a - c) + c) with (i + a) by lia.
  repeat zcase; simpl; try lia; by rewrite ?andb_true_r, ?andb_false_r.
Qed.

Lemma shiftl_zero x k : 0 <= k -> (x << k =? 0) = (x =? 0).
Proof.
  intros Hk. pose proof (Z.pow_pos_nonneg 2 k). rewrite Z.shiftl_mul_pow2 by done.
  destruct (Z.eqb_spec x 0) as [->|]; [done|]. apply Z.eqb_neq. nia.
Qed.

Lemma testbit_field t n : 0 <= n -> Z.testbit t n = negb (field t n n =? 0).
Proof.
  intros Hn. rewrite field_bits by lia. replace (n - n + 1) with 1 by lia.
  replace (Z.land (t >> n) (Z.ones 1)) with (Z.b2z (Z.testbit t n)); [by destruct (Z.testbit t n)|].
  change (Z.ones 1) with (2 ^ 0). apply Z.bits_inj'. intros i Hi. rewrite Z.land_spec.
  destruct (Z.eq_dec i 0) as [->|].
  - rewrite Z.b2z_bit0, Z.shiftr_spec by done. by rewrite andb_true_r.
  - rewrite Z.pow2_bits_false, andb_false_r by lia.
    destruct (Z.testbit t n); [|apply Z.bits_0]. apply (Z.pow2_bits_false 0). lia.
Qed.

(** ** Disjunctions of constants and fields *)

Inductive lor_tree := Const (c : Z) | Atom (n : nat) | Lor (a b : lor_tree).

Fixpoint lor_eval (env : list Z) (x : lor_tree) : Z :=
  match x with
  | Const c => c
  | Atom n => nth n env 0
  | Lor a b => lor_eval env a .| lor_eval env b
  end.

Fixpoint lor_const (x : lor_tree) : Z :=
  match x with
  | Const c => c
  | Atom _ => 0
  | Lor a b => lor_const a .| lor_const b
  end.

Fixpoint lor_atoms (x : lor_tree) : list nat :=
  match x with
  | Const _ => []
  | Atom n => [n]
  | Lor a b => lor_atoms a ++ lor_atoms b
  end.

Definition subset_b (l1 l2 : list nat) : bool := forallb (fun x => existsb (Nat.eqb x) l2) l1.

Definition lor_same (x y : lor_tree) : bool :=
  (lor_const x =? lor_const y) && subset_b (lor_atoms x) (lor_atoms y) && subset_b (lor_atoms y) (lor_atoms x).

Lemma lor_eval_bit env x i :
  Z.testbit (lor_eval env x) i =
  Z.testbit (lor_const x) i || existsb (fun n => Z.testbit (nth n env 0) i) (lor_atoms x).
Proof.
  induction x as [c|n|a IHa b IHb]; simpl.
  - by rewrite orb_false_r.
  - by rewrite Z.bits_0, orb_false_r.
  - rewrite !Z.lor_spec, IHa, IHb, existsb_app. btauto.
Qed.

Lemma subset_exists l1 l2 (P : nat -> bool) :
  subset_b l1 l2 = true -> existsb P l1 = true -> existsb P l2 = true.
Proof.
  unfold subset_b. rewrite forallb_forall, !existsb_exists. intros H (x & Hx & Hp).
  specialize (H x Hx). apply existsb_exists in H as (y & Hy & ->%Nat.eqb_eq). eauto.
Qed.

Lemma lor_solve env x y : lor_same x y = true -> lor_eval env x = lor_eval env y.
Proof.
  intros H. unfold lor_same in H. zbool. apply Z.bits_inj. intros i.
  rewrite !lor_eval_bit. replace (lor_const y) with (lor_const x) by congruence. f_equal.
  apply eq_true_iff_eq. split; by apply subset_exists.
Qed.

Ltac mem_atom x l :=
  lazymatch l with
  | nil => constr:(false)
  | x :: _ => constr:(true)
  | _ :: ?l => mem_atom x l
  end.

Ltac collect_atoms x l :=
  lazymatch x with
  | Z.lor ?a ?b => let l := collect_atoms a l in collect_atoms b l
  | context [field _ _ _] =>
      lazymatch mem_atom x l with true => l | false => constr:(x :: l) end
  | _ => l
  end.

Ltac atom_index x l :=
  lazymatch l with
  | x :: _ => constr:(O)
  | _ :: ?l => let n := atom_index x l in constr:(S n)
  end.

Ltac reify_lor x l :=
  lazymatch x with
  | Z.lor ?a ?b => let a := reify_lor a l in let b := reify_lor b l in constr:(Lor a b)
  | context [field _ _ _] => let n := atom_index x l in constr:(Atom n)
  | _ => constr:(Const x)
  end.

(** Equality of two disjunctions, up to reordering and the value of constants. *)
Ltac same_word :=
  lazymatch goal with
  | |- ?a = ?b =>
      let l := collect_atoms a (@nil Z) in
      let l := collect_atoms b l in
      let x := reify_lor a l in
      let y := reify_lor b l in
      apply (lor_solve l x y); vm_compute; reflexivity
  end.

(** Every mask as a field. *)
Ltac masks t :=
  repeat match goal with
  | |- context [Z.land t ?m] =>
      let a := eval vm_compute in (Z.log2 (Z.land m (- m))) in
      let b := eval vm_compute in (Z.log2 m) in
      rewrite (mask_field t m a b eq_refl)
  end.

Ltac literal_shifts :=
  rewrite ?Z.shiftr_shiftl_l, ?Z.shiftl_shiftl by lia;
  repeat match goal with
  | |- context [Z.shiftl ?x ?k] =>
      lazymatch k with
      | context [field _ _ _] => fail
      | _ => let k' := eval vm_compute in k in progress change (Z.shiftl x k) with (Z.shiftl x k')
      end
  end;
  rewrite ?Z.shiftl_0_r, ?shiftl_zero by done.

(** The fields inside a field of known value. *)
Ltac use_field E :=
  lazymatch type of E with
  | field ?t ?c ?d = ?v =>
      repeat match goal with
      | |- context [field t ?a ?b] =>
          lazymatch eval vm_compute in ((c <=? a) && (b <=? d)) with
          | true =>
              let r := eval vm_compute in (field v (a - c) (b - c)) in
              replace (field t a b) with r by (rewrite (field_sub t a b c d), E by lia; reflexivity)
          end
      end
  end.

Ltac open_meaning :=
  cbn [arm_encode encode_operand2 encode_address encode_half_address flag negb].

(** ** Each group of cases *)

Ltac word_ok t := masks t; literal_shifts; open_meaning; literal_shifts; same_word.

Lemma field_cases t a b : 0 <= a <= b -> b <= a + 3 ->
  exists v, field t a b = v /\ v ∈ seqZ 0 (2 ^ (b - a + 1)).
Proof.
  intros Ha Hb. exists (field t a b). split; [done|]. apply elem_of_seqZ.
  pose proof (field_range t a b Ha). lia.
Qed.

(** Case analysis on the value of a short field. *)
Ltac field_values t a b E :=
  let v := fresh "v" in let Hv := fresh "Hv" in
  destruct (field_cases t a b ltac:(lia) ltac:(lia)) as (v & E & Hv);
  repeat (rewrite ?elem_of_cons in Hv);
  let l := eval vm_compute in (seqZ 0 (2 ^ (b - a + 1))) in
  change (v ∈ l) in Hv; rewrite ?elem_of_cons, elem_of_nil in Hv;
  repeat destruct Hv as [->|Hv]; [..|done].

(** The branch taken for a known selector. *)
Ltac pick_branch :=
  unfold sub;
  repeat match goal with
  | |- context [Z.to_nat ?k] =>
      lazymatch k with
      | context [field _ _ _] => fail
      | _ => let n := eval vm_compute in (Z.to_nat k) in change (Z.to_nat k) with n
      end
  end;
  cbn [nth alu_subset Z.eqb Z.leb Z.compare Pos.compare Pos.compare_cont Pos.eqb negb].

(** ** Bits that should be zero or one *)

Lemma encodes_eq w i : w = arm_encode i -> encodes w i.
Proof. by intros ->. Qed.

(** A field is absorbed by a mask over it. *)
Lemma absorbed x k : 0 <= x < 16 -> 0 <= k -> (x << k) .| (15 << k) = 15 << k.
Proof.
  intros Hx Hk. rewrite <-Z.shiftl_lor. f_equal.
  assert (H : forallb (fun y => Z.lor y 15 =? 15) (seqZ 0 16) = true) by reflexivity.
  rewrite forallb_forall in H. apply Z.eqb_eq, H, list_elem_of_In, elem_of_seqZ. lia.
Qed.

Lemma absorbed_bit x k i : 0 <= x < 16 -> 0 <= k ->
  Z.testbit (x << k) i || Z.testbit (15 << k) i = Z.testbit (15 << k) i.
Proof. intros Hx Hk. by rewrite <-Z.lor_spec, absorbed. Qed.

Lemma encodes_rn op s rn rd o w : op = MOV \/ op = MVN -> 0 <= rn < 16 ->
  w = arm_encode (DataProc op s rn rd o) -> encodes w (DataProc op s 0 rd o).
Proof.
  intros Hop Hr ->. unfold encodes.
  replace (should_be (DataProc op s 0 rd o)) with (15 << 16) by by destruct Hop as [-> | ->].
  cbn [arm_encode]. apply Z.bits_inj. intros i. rewrite Z.shiftl_0_l, Z.lor_0_r, !Z.lor_spec.
  rewrite <-(absorbed_bit rn 16 i) by lia. btauto.
Qed.

Lemma encodes_rd op s rn rd o w : TST <= op <= CMN -> 0 <= rd < 16 ->
  w = arm_encode (DataProc op s rn rd o) -> encodes w (DataProc op s rn 0 o).
Proof.
  intros Hop Hr ->. unfold encodes.
  replace (should_be (DataProc op s rn 0 o)) with (15 << 12).
  2: { unfold should_be, MOV, MVN, TST, CMN in *. by zdecide. }
  cbn [arm_encode]. apply Z.bits_inj. intros i. rewrite Z.shiftl_0_l, Z.lor_0_r, !Z.lor_spec.
  rewrite <-(absorbed_bit rd 12 i) by lia. btauto.
Qed.

Lemma encodes_blx rm w : w = 0xE1200030 .| rm -> encodes w (BLX rm).
Proof.
  intros ->. unfold encodes. cbn [arm_encode should_be]. apply Z.bits_inj. intros i.
  replace (AL .| (0x12FFF3 << 4)) with (0xE1200030 .| 0xFFF00) by reflexivity.
  rewrite !Z.lor_spec. btauto.
Qed.

Lemma thumb_shift_ok t :
  thumb_shift t = arm_encode (DataProc MOV true 0 (field t 0 2)
                                (RegShiftImm (field t 3 5) (field t 11 12) (field t 6 10))).
Proof. unfold thumb_shift. word_ok t. Qed.

Lemma thumb_addsub_ok t :
  thumb_addsub t =
  arm_encode (DataProc (if field t 9 9 =? 0 then ADD else SUB) true (field t 3 5) (field t 0 2)
    (if field t 10 10 =? 0 then RegShiftImm (field t 6 8) LSL 0 else Imm 0 (field t 6 8))).
Proof.
  unfold thumb_addsub. masks t. literal_shifts.
  field_values t 9 10 E; use_field E; pick_branch; word_ok t.
Qed.

Ltac alu_word t := literal_shifts; open_meaning; literal_shifts; same_word.

Lemma thumb_alu_ok t : encodes (thumb_alu t) (alu_meaning t).
Proof.
  assert (Hd : 0 <= field t 0 2 < 16) by (pose proof (field_range t 0 2 ltac:(lia)); lia).
  unfold thumb_alu, alu_meaning. masks t. literal_shifts.
  field_values t 6 9 E; rewrite E; pick_branch; cbv zeta.
  all: try (apply encodes_eq; word_ok t).
  1-3: apply (encodes_rd _ _ _ (field t 0 2)); [done|done|]; word_ok t.
  apply (encodes_rn _ _ (field t 0 2)); [by right|done|]; word_ok t.
Qed.

Lemma thumb_hireg_ok t : encodes (thumb_hireg t) (hireg_meaning t).
Proof.
  unfold thumb_hireg, hireg_meaning. masks t. literal_shifts.
  field_values t 6 9 E; use_field E; pick_branch; cbv zeta; rewrite ?Z.mul_0_r, ?Z.mul_1_r, ?Z.add_0_r.
  all: try (apply encodes_eq; word_ok t).
  all: apply encodes_blx; word_ok t.
Qed.

Lemma thumb_mem_reg_ok t : thumb_mem_reg t = arm_encode (mem_reg_meaning t).
Proof.
  unfold thumb_mem_reg, mem_reg_meaning. masks t. literal_shifts.
  field_values t 9 11 E; rewrite E; pick_branch; cbv zeta; word_ok t.
Qed.

(** A translation that is what the halfword means. *)
Definition agrees (x : translation) (m : meaning) : Prop :=
  match m, x with
  | Arm i, Word a => encodes a i
  | Branch, Status BRANCH => True
  | Undefined, Status UNDEFINED => True
  | _, _ => False
  end.

Lemma agrees_eq w i : w = arm_encode i -> agrees (Word w) (Arm i).
Proof. apply encodes_eq. Qed.

Lemma thumb_swi_ok t : field t 12 15 = 13 -> deviates t = false ->
  agrees (thumb_swi t) (swi_meaning t).
Proof.
  unfold thumb_swi, swi_meaning, deviates. intros ->. masks t. literal_shifts.
  field_values t 8 11 E; rewrite E; pick_branch; try done.
  intros [H1 H2]%orb_false_iff. rewrite H1, H2. apply agrees_eq. open_meaning. same_word.
Qed.

Lemma thumb_misc_ok t : is_u16 t -> field t 12 15 = 11 -> deviates t = false ->
  agrees (thumb_misc t) (misc_meaning t).
Proof.
  intros Ht E0. assert (Ht' : is_u32 t) by word_lia.
  unfold thumb_misc, misc_meaning, deviates. rewrite E0, !BITS_field, !BIT_field by (done || lia).
  masks t. literal_shifts.
  field_values t 8 11 E; use_field E; pick_branch; intros Hd; try discriminate Hd.
  all: try (apply agrees_eq; literal_shifts; open_meaning; literal_shifts; pick_branch; same_word).
  - apply agrees_eq. destruct (field t 7 7 =? 0); word_ok t.
  - apply agrees_eq. field_values t 6 7 E2; rewrite E2; pick_branch; word_ok t.
  - field_values t 5 7 E2; rewrite E2 in Hd |- *; use_field E2; pick_branch; try discriminate Hd.
    all: apply negb_false_iff in Hd; cbn [Z.eqb Pos.eqb andb orb] in Hd; rewrite ?orb_false_r in Hd;
      rewrite Hd; apply agrees_eq.
    + apply andb_true_iff in Hd as [H4%Z.eqb_eq _]. word_ok t.
    + word_ok t.
  - cbv zeta. field_values t 6 7 E2; rewrite E2; pick_branch; try done; apply agrees_eq; word_ok t.
Qed.

Lemma thumb_multiple_ok t v : is_u16 t -> 24 <= v <= 25 -> field t 11 15 = v ->
  thumb_multiple t = arm_encode
    (if v =? 24 then StoreMultiple false true (field t 8 10) 0 (field t 0 7)
     else LoadMultiple (negb (Z.testbit t (field t 8 10))) (field t 8 10) 0 (field t 0 7)).
Proof.
  intros Ht Hv E. assert (Ht' : is_u32 t) by word_lia.
  unfold thumb_multiple. rewrite !BITS_field by (done || lia). cbv zeta.
  rewrite (Z.shiftl_1_l (field t 8 10)), zero_bit by (apply field_range; lia).
  masks t. literal_shifts. assert (v = 24 \/ v = 25) as [-> | ->] by lia; use_field E; pick_branch.
  - open_meaning. same_word.
  - open_meaning. destruct (Z.testbit t (field t 8 10)); cbn [negb]; same_word.
Qed.

(** The formats whose meaning depends on the major opcode. *)
Ltac format_ok t E :=
  masks t; literal_shifts; use_field E; pick_branch; cbv zeta; word_ok t.

Definition imm8_meaning (t v : Z) : arm :=
  let r := field t 8 10 in
  let o := Imm 0 (field t 0 7) in
  if v =? 4 then DataProc MOV true 0 r o
  else if v =? 5 then DataProc CMP true r 0 o
  else if v =? 6 then DataProc ADD true r r o
  else DataProc SUB true r r o.

Lemma thumb_imm8_word t v : 4 <= v <= 7 -> field t 11 15 = v ->
  thumb_imm8 t = arm_encode (DataProc (if v =? 4 then MOV else if v =? 5 then CMP else if v =? 6 then ADD else SUB)
    true (field t 8 10) (field t 8 10) (Imm 0 (field t 0 7))).
Proof.
  intros Hv E. unfold thumb_imm8.
  assert (v = 4 \/ v = 5 \/ v = 6 \/ v = 7) as [-> |[-> |[-> | ->]]] by lia; format_ok t E.
Qed.

Lemma thumb_imm8_ok t v : 4 <= v <= 7 -> field t 11 15 = v -> encodes (thumb_imm8 t) (imm8_meaning t v).
Proof.
  intros Hv E. pose proof (thumb_imm8_word t v Hv E) as H.
  assert (Hr : 0 <= field t 8 10 < 16) by (pose proof (field_range t 8 10 ltac:(lia)); lia).
  assert (v = 4 \/ v = 5 \/ v = 6 \/ v = 7) as [-> |[-> |[-> | ->]]] by lia.
  - apply (encodes_rn MOV true (field t 8 10)); [by left|done|exact H].
  - apply (encodes_rd CMP true _ (field t 8 10)); [done|done|exact H].
  - by apply encodes_eq.
  - by apply encodes_eq.
Qed.

(** ** The whole translation *)

(** The leading four bits from the leading five. *)
Lemma major t v k : field t 11 15 = v -> v / 2 = k -> field t 12 15 = k.
Proof.
  intros E <-. pose proof (field_range t 11 15 ltac:(lia)) as Hr.
  rewrite (field_sub t 12 15 11 15), E in * by lia. unfold field.
  change (2 ^ (12 - 11)) with 2. change (2 ^ (15 - 11 - (12 - 11) + 1)) with 16.
  change (2 ^ (15 - 11 + 1)) with 32 in Hr. zlia.
Qed.

Lemma translate_ok t : is_u16 t -> deviates t = false -> agrees (translate t) (thumb_meaning t).
Proof.
  intros Ht Hd. unfold translate, thumb_meaning.
  rewrite (mask_field t 0xF800 11 15 eq_refl), Z.shiftr_shiftl_l, Z.shiftl_0_r by lia. cbv zeta.
  assert (Hr : 0 <= field t 11 15 < 32) by (apply (field_range t 11 15); lia).
  remember (field t 11 15) as v eqn:E. symmetry in E.
  assert (Hv : v ∈ seqZ 0 32) by (apply elem_of_seqZ; lia).
  let l := eval vm_compute in (seqZ 0 32) in change (v ∈ l) in Hv.
  rewrite ?elem_of_cons, elem_of_nil in Hv.
  repeat destruct Hv as [->|Hv]; [..|done]; cbn [Z.leb Z.compare Pos.compare Pos.compare_cont];
    try exact I.
  1-3: apply agrees_eq, thumb_shift_ok.
  1: apply agrees_eq, thumb_addsub_ok.
  1: by apply (thumb_imm8_ok t 4).
  1: by apply (thumb_imm8_ok t 5).
  1: by apply (thumb_imm8_ok t 6).
  1: by apply (thumb_imm8_ok t 7).
  1: masks t. literal_shifts. destruct (field t 10 10 =? 0); [apply thumb_alu_ok|apply thumb_hireg_ok].
  1: apply agrees_eq; unfold thumb_ldr_pc; format_ok t E.
  1-2: apply agrees_eq, thumb_mem_reg_ok.
  1-4: apply agrees_eq; unfold thumb_mem_imm; format_ok t E.
  1-2: apply agrees_eq; unfold thumb_half_imm; format_ok t E.
  1-2: apply agrees_eq; unfold thumb_mem_sp; format_ok t E.
  1-2: apply agrees_eq; unfold thumb_address; format_ok t E.
  1-2: by apply thumb_misc_ok; [|exact (major t _ 11 E eq_refl)|].
  1: by apply agrees_eq, (thumb_multiple_ok t 24).
  1: by apply agrees_eq, (thumb_multiple_ok t 25).
  1-2: by apply thumb_swi_ok; [exact (major t _ 13 E eq_refl)|].
  1: masks t. literal_shifts. by destruct (field t 0 0 =? 0).
Qed.

Lemma GetThumbInstruction_u16 instr addr : is_u32 instr -> is_u16 (GetThumbInstruction instr addr).
Proof.
  intros Hi. unfold GetThumbInstruction. change 0xFFFF with (Z.ones 16).
  rewrite Z.land_ones, Z.shiftr_div_pow2 by done. change (2 ^ 16) with 65536.
  case_match; word_lia.
Qed.

(** C26: Every Thumb halfword, the [deviates] ones apart, is translated to what it
    means on an ARMv6 processor: an instruction to a word that is its ARM encoding in all
    bits but those that should be zero or one, a branch to the status BRANCH, and an undefined
    instruction to the status UNDEFINED, which nothing else gets; the size is 2, and
    the halfword is the upper one when the address is not word aligned.  The
    deviations are halfwords between 0xB000 and 0xBFFF that are undefined or unpredictable
    ([undefined_translated]), the breakpoint and two numbers of the system call
    ([breakpoints_translated]). *)
Theorem TranslateThumb_correct addr instr : is_u32 instr ->
  let t := if addr mod 4 =? 0 then instr mod 65536 else instr / 65536 in
  deviates t = false ->
  exists status word, TranslateThumbInstruction addr instr = (status, word, 2) /\
    match thumb_meaning t with
    | Arm i => encodes word i /\ status <> BRANCH /\ status <> UNDEFINED
    | Branch => status = BRANCH
    | Undefined => status = UNDEFINED
    | Unpredictable => False
    end.
Proof.
  intros Hi t Hd. pose proof (GetThumbInstruction_u16 instr addr Hi) as Ht.
  assert (Eg : GetThumbInstruction instr addr = t).
  { unfold GetThumbInstruction. change 0x3 with (Z.ones 2). change 0xFFFF with (Z.ones 16).
    rewrite !Z.land_ones, Z.shiftr_div_pow2 by done. change (2 ^ 2) with 4. unfold t. by destruct (addr mod 4 =? 0). }
  unfold TranslateThumbInstruction. rewrite Eg in Ht |- *. pose proof (translate_ok t Ht Hd) as H.
  destruct (translate t) as [a|st]; eexists _, _; (split; [reflexivity|]);
    destruct (thumb_meaning t); try done; by destruct st.
Qed.

(** [adds r0, r1, r2] in the lower half, [bl] (first half) in the upper one. *)
Lemma TranslateThumb_correct_witness :
  (exists status, TranslateThumbInstruction 0x100 0xF0001888 = (status, 0xE0910002, 2) /\
     status <> BRANCH /\ encodes 0xE0910002 (DataProc ADD true 1 0 (RegShiftImm 2 LSL 0))) /\
  (exists word, TranslateThumbInstruction 0x102 0xF0001888 = (BRANCH, word, 2)).
Proof.
  split.
  - destruct (TranslateThumb_correct 0x100 0xF0001888) as (st & w & E & Hw & Hb & _); [done|reflexivity|].
    exists st. injection E as <- <-. split; [reflexivity|]. split; [exact Hb|exact Hw].
  - destruct (TranslateThumb_correct 0x102 0xF0001888) as (st & w & E & Hs); [done|reflexivity|].
    simpl in Hs. subst st. exists w. exact E.
Defined.

(** ** Where the translation deviates *)

(** A word is never reported as [DECODED]. *)
Lemma never_decoded addr instr : fst (fst (TranslateThumbInstruction addr instr)) <> DECODED.
Proof.
  unfold TranslateThumbInstruction. destruct (translate _) as [a|st] eqn:E; [done|].
  intros H. simpl in H. subst st. revert E. unfold translate, thumb_misc, thumb_swi.
  repeat case_match; done.
Qed.

(** Undefined halfwords become PUSH and POP, and change the endianness or the
    processor state. *)
Lemma undefined_translated :
  thumb_meaning 0xB101 = Undefined /\ translate 0xB101 = Word (arm_encode (StoreMultiple true true SP (1 << LR) 1)) /\
  thumb_meaning 0xB801 = Undefined /\ translate 0xB801 = Word (arm_encode (LoadMultiple true SP 0 1)) /\
  thumb_meaning 0xB608 = Undefined /\ translate 0xB608 = Word (arm_encode (SetEnd 1)) /\
  thumb_meaning 0xB6A1 = Undefined /\ translate 0xB6A1 = Word (arm_encode (Cps 0 0 0 1)).
Proof. by vm_compute. Qed.

(** BKPT becomes a system call with its number spread over other bits; the system calls
    0x18 and 0xFE become 0x180000. *)
Lemma breakpoints_translated :
  thumb_meaning 0xBE12 = Arm (Bkpt 0x12) /\ translate 0xBE12 = Word (arm_encode (Swi 0x102)) /\
  thumb_meaning 0xDF18 = Arm (Swi 0x18) /\ translate 0xDF18 = Word (arm_encode (Swi 0x180000)) /\
  thumb_meaning 0xDFFE = Arm (Swi 0xFE) /\ translate 0xDFFE = Word (arm_encode (Swi 0x180000)).
Proof. by vm_compute. Qed.
