(* ===== verification/Color.v ===== *)
(** * Color: pixel formats (common/color.h)

    Memory is a list of bytes; the pointer is its start.  The byte order of the
    host is a parameter: [u16_le] is little-endian everywhere, a plain [u16] is
    stored in the order of the host. *)
From S2P Require Import Prelude.

Local Open Scope Z_scope.

Record Vec4 := mkVec4 { r : Z; g : Z; b : Z; a : Z }.

Definition Convert1To8 (value : Z) : Z := u8 (value * 255).
Definition Convert4To8 (value : Z) : Z := u8 (Z.lor (Z.shiftl value 4) value).
Definition Convert5To8 (value : Z) : Z := u8 (Z.lor (Z.shiftl value 3) (Z.shiftr value 2)).
Definition Convert6To8 (value : Z) : Z := u8 (Z.lor (Z.shiftl value 2) (Z.shiftr value 4)).
Definition Convert8To1 (value : Z) : Z := u8 (Z.shiftr value 7).
Definition Convert8To4 (value : Z) : Z := u8 (Z.shiftr value 4).
Definition Convert8To5 (value : Z) : Z := u8 (Z.shiftr value 3).
Definition Convert8To6 (value : Z) : Z := u8 (Z.shiftr value 2).

Definition AverageRgbComponents (color : Vec4) : Z := u8 (u32 (u32 (r color + g color) + b color) / 3).

(** [bytes[i]], [bytes[i] = v] *)
Definition byte (bytes : list Z) (i : nat) : Z := nth i bytes 0.
Definition store (i : nat) (v : Z) (bytes : list Z) : list Z := <[i := v]> bytes.

(** [memcpy] to and from a [u16_le]. *)
Definition load_u16_le (bytes : list Z) : Z := byte bytes 0 + 256 * byte bytes 1.
Definition store_u16_le (v : Z) (bytes : list Z) : list Z := store 1 (u8 (v / 256)) (store 0 (u8 v) bytes).

(** [memcpy] from a [u16]. *)
Definition store_u16 (big_endian : bool) (v : Z) (bytes : list Z) : list Z :=
  if big_endian then store 1 (u8 v) (store 0 (u8 (v / 256)) bytes) else store_u16_le v bytes.

Definition DecodeRGBA8 (bytes : list Z) : Vec4 := mkVec4 (byte bytes 3) (byte bytes 2) (byte bytes 1) (byte bytes 0).
Definition DecodeRGB8 (bytes : list Z) : Vec4 := mkVec4 (byte bytes 2) (byte bytes 1) (byte bytes 0) 255.
Definition DecodeRG8 (bytes : list Z) : Vec4 := mkVec4 (byte bytes 1) (byte bytes 0) 0 255.

Definition DecodeRGB565 (bytes : list Z) : Vec4 :=
  let pixel := load_u16_le bytes in
  mkVec4 (Convert5To8 (Z.land (Z.shiftr pixel 11) 0x1F)) (Convert6To8 (Z.land (Z.shiftr pixel 5) 0x3F))
    (Convert5To8 (Z.land pixel 0x1F)) 255.

Definition DecodeRGB5A1 (bytes : list Z) : Vec4 :=
  let pixel := load_u16_le bytes in
  mkVec4 (Convert5To8 (Z.land (Z.shiftr pixel 11) 0x1F)) (Convert5To8 (Z.land (Z.shiftr pixel 6) 0x1F))
    (Convert5To8 (Z.land (Z.shiftr pixel 1) 0x1F)) (Convert1To8 (Z.land pixel 0x1)).

Definition DecodeRGBA4 (bytes : list Z) : Vec4 :=
  let pixel := load_u16_le bytes in
  mkVec4 (Convert4To8 (Z.land (Z.shiftr pixel 12) 0xF)) (Convert4To8 (Z.land (Z.shiftr pixel 8) 0xF))
    (Convert4To8 (Z.land (Z.shiftr pixel 4) 0xF)) (Convert4To8 (Z.land pixel 0xF)).

Definition DecodeIA8 (bytes : list Z) : Vec4 := mkVec4 (byte bytes 1) (byte bytes 1) (byte bytes 1) (byte bytes 0).
Definition DecodeI8 (bytes : list Z) : Vec4 := mkVec4 (byte bytes 0) (byte bytes 0) (byte bytes 0) 255.
Definition DecodeA8 (bytes : list Z) : Vec4 := mkVec4 0 0 0 (byte bytes 0).

Definition DecodeIA4 (bytes : list Z) : Vec4 :=
  let i := Convert4To8 (Z.shiftr (Z.land (byte bytes 0) 0xF0) 4) in
  let a := Convert4To8 (Z.land (byte bytes 0) 0x0F) in
  mkVec4 i i i a.

Definition DecodeD16 (bytes : list Z) : Z := load_u16_le bytes.
Definition DecodeD24 (bytes : list Z) : Z :=
  Z.lor (Z.lor (Z.shiftl (byte bytes 2) 16) (Z.shiftl (byte bytes 1) 8)) (byte bytes 0).
Definition DecodeD24S8 (bytes : list Z) : Z * Z :=
  (Z.lor (Z.lor (Z.shiftl (byte bytes 2) 16) (Z.shiftl (byte bytes 1) 8)) (byte bytes 0), byte bytes 3).

Definition EncodeRGBA8 (color : Vec4) (bytes : list Z) : list Z :=
  store 0 (a color) (store 1 (b color) (store 2 (g color) (store 3 (r color) bytes))).
Definition EncodeRGB8 (color : Vec4) (bytes : list Z) : list Z :=
  store 0 (b color) (store 1 (g color) (store 2 (r color) bytes)).
Definition EncodeRG8 (color : Vec4) (bytes : list Z) : list Z := store 0 (g color) (store 1 (r color) bytes).

Definition EncodeRGB565 (color : Vec4) (bytes : list Z) : list Z :=
  let data := u16 (Z.lor (Z.lor (Z.shiftl (Convert8To5 (r color)) 11) (Z.shiftl (Convert8To6 (g color)) 5))
                     (Convert8To5 (b color))) in
  store_u16_le data bytes.

Definition EncodeRGB5A1 (color : Vec4) (bytes : list Z) : list Z :=
  let data := u16 (Z.lor (Z.lor (Z.lor (Z.shiftl (Convert8To5 (r color)) 11) (Z.shiftl (Convert8To5 (g color)) 6))
                     (Z.shiftl (Convert8To5 (b color)) 1)) (Convert8To1 (a color))) in
  store_u16_le data bytes.

Definition EncodeRGBA4 (big_endian : bool) (color : Vec4) (bytes : list Z) : list Z :=
  let data := u16 (Z.lor (Z.lor (Z.lor (Z.shiftl (Convert8To4 (r color)) 12) (Z.shiftl (Convert8To4 (g color)) 8))
                     (Z.shiftl (Convert8To4 (b color)) 4)) (Convert8To4 (a color))) in
  store_u16 big_endian data bytes.

Definition EncodeIA8 (color : Vec4) (bytes : list Z) : list Z :=
  store 0 (a color) (store 1 (AverageRgbComponents color) bytes).
Definition EncodeI8 (color : Vec4) (bytes : list Z) : list Z := store 0 (AverageRgbComponents color) bytes.
Definition EncodeA8 (color : Vec4) (bytes : list Z) : list Z := store 0 (a color) bytes.
Definition EncodeIA4 (color : Vec4) (bytes : list Z) : list Z :=
  store 0 (u8 (Z.lor (Z.shiftl (Convert8To4 (AverageRgbComponents color)) 4) (Convert8To4 (a color)))) bytes.

Definition EncodeD16 (value : Z) (bytes : list Z) : list Z := store_u16_le (u16 value) bytes.
Definition EncodeD24 (value : Z) (bytes : list Z) : list Z :=
  store 2 (Z.land (Z.shiftr value 16) 0xFF) (store 1 (Z.land (Z.shiftr value 8) 0xFF)
    (store 0 (Z.land value 0xFF) bytes)).
Definition EncodeD24S8 (depth stencil : Z) (bytes : list Z) : list Z :=
  store 3 stencil (store 2 (Z.land (Z.shiftr depth 16) 0xFF) (store 1 (Z.land (Z.shiftr depth 8) 0xFF)
    (store 0 (Z.land depth 0xFF) bytes))).
Definition EncodeD24X8 (depth : Z) (bytes : list Z) : list Z :=
  store 2 (Z.land (Z.shiftr depth 16) 0xFF) (store 1 (Z.land (Z.shiftr depth 8) 0xFF)
    (store 0 (Z.land depth 0xFF) bytes)).
Definition EncodeX24S8 (stencil : Z) (bytes : list Z) : list Z := store 3 stencil bytes.

(** ** Bits as arithmetic *)

Lemma low_bits x k : 0 <= k -> Z.land x (Z.ones k) = x mod 2 ^ k.
Proof. intros. by apply Z.land_ones. Qed.

(** Shifts and masks by literals as multiplications, divisions and remainders. *)
Ltac arith :=
  rewrite ?Z.shiftr_div_pow2, ?Z.shiftl_mul_pow2 by done;
  change 0x1F with (Z.ones 5); change 0x3F with (Z.ones 6); change 0xFF with (Z.ones 8);
  change 0xF with (Z.ones 4); change 0x1 with (Z.ones 1);
  rewrite ?low_bits by done.

Lemma Convert4To8_spec v : 0 <= v < 16 -> Convert4To8 v = 17 * v.
Proof.
  intros. unfold Convert4To8. rewrite Z.shiftl_mul_pow2 by done.
  rewrite (lor_add _ _ 4) by (change (2 ^ 4) with 16; zlia). word_lia.
Qed.

Lemma Convert5To8_spec v : 0 <= v < 32 -> Convert5To8 v = 8 * v + v / 4.
Proof.
  intros. unfold Convert5To8. rewrite Z.shiftl_mul_pow2, Z.shiftr_div_pow2 by done.
  rewrite (lor_add _ _ 3) by (change (2 ^ 3) with 8; change (2 ^ 2) with 4; zlia).
  change (2 ^ 2) with 4. change (2 ^ 3) with 8. word_lia.
Qed.

Lemma Convert6To8_spec v : 0 <= v < 64 -> Convert6To8 v = 4 * v + v / 16.
Proof.
  intros. unfold Convert6To8. rewrite Z.shiftl_mul_pow2, Z.shiftr_div_pow2 by done.
  rewrite (lor_add _ _ 2) by (change (2 ^ 2) with 4; change (2 ^ 4) with 16; zlia).
  change (2 ^ 2) with 4. change (2 ^ 4) with 16. word_lia.
Qed.

Lemma Convert8To4_spec v : is_u8 v -> Convert8To4 v = v / 16.
Proof. intros. unfold Convert8To4. rewrite Z.shiftr_div_pow2 by done. change (2 ^ 4) with 16. word_lia. Qed.

Lemma Convert8To5_spec v : is_u8 v -> Convert8To5 v = v / 8.
Proof. intros. unfold Convert8To5. rewrite Z.shiftr_div_pow2 by done. change (2 ^ 3) with 8. word_lia. Qed.

Lemma Convert8To6_spec v : is_u8 v -> Convert8To6 v = v / 4.
Proof. intros. unfold Convert8To6. rewrite Z.shiftr_div_pow2 by done. change (2 ^ 2) with 4. word_lia. Qed.

Lemma Convert8To1_spec v : is_u8 v -> Convert8To1 v = v / 128.
Proof. intros. unfold Convert8To1. rewrite Z.shiftr_div_pow2 by done. change (2 ^ 7) with 128. word_lia. Qed.

(** Packed pixels. *)
Lemma pack_565 x y z : 0 <= x < 32 -> 0 <= y < 64 -> 0 <= z < 32 ->
  Z.lor (Z.lor (Z.shiftl x 11) (Z.shiftl y 5)) z = 2048 * x + 32 * y + z.
Proof.
  intros. rewrite !Z.shiftl_mul_pow2 by done. change (2 ^ 11) with 2048. change (2 ^ 5) with 32.
  rewrite (lor_add _ (y * 32) 11) by (change (2 ^ 11) with 2048; zlia).
  rewrite (lor_add _ z 5) by (change (2 ^ 5) with 32; zlia). lia.
Qed.

Lemma pack_5551 x y z w : 0 <= x < 32 -> 0 <= y < 32 -> 0 <= z < 32 -> 0 <= w < 2 ->
  Z.lor (Z.lor (Z.lor (Z.shiftl x 11) (Z.shiftl y 6)) (Z.shiftl z 1)) w = 2048 * x + 64 * y + 2 * z + w.
Proof.
  intros. rewrite !Z.shiftl_mul_pow2 by done.
  change (2 ^ 11) with 2048. change (2 ^ 6) with 64. change (2 ^ 1) with 2.
  rewrite (lor_add _ (y * 64) 11) by (change (2 ^ 11) with 2048; zlia).
  rewrite (lor_add _ (z * 2) 6) by (change (2 ^ 6) with 64; zlia).
  rewrite (lor_add _ w 1) by (change (2 ^ 1) with 2; zlia). lia.
Qed.

Lemma pack_4444 x y z w : 0 <= x < 16 -> 0 <= y < 16 -> 0 <= z < 16 -> 0 <= w < 16 ->
  Z.lor (Z.lor (Z.lor (Z.shiftl x 12) (Z.shiftl y 8)) (Z.shiftl z 4)) w = 4096 * x + 256 * y + 16 * z + w.
Proof.
  intros. rewrite !Z.shiftl_mul_pow2 by done.
  change (2 ^ 12) with 4096. change (2 ^ 8) with 256. change (2 ^ 4) with 16.
  rewrite (lor_add _ (y * 256) 12) by (change (2 ^ 12) with 4096; zlia).
  rewrite (lor_add _ (z * 16) 8) by (change (2 ^ 8) with 256; zlia).
  rewrite (lor_add _ w 4) by (change (2 ^ 4) with 16; zlia). lia.
Qed.

Lemma pack_24 x y z : is_u8 x -> is_u8 y -> is_u8 z ->
  Z.lor (Z.lor (Z.shiftl x 16) (Z.shiftl y 8)) z = 65536 * x + 256 * y + z.
Proof.
  unfold is_u8. intros. rewrite !Z.shiftl_mul_pow2 by done. change (2 ^ 16) with 65536. change (2 ^ 8) with 256.
  rewrite (lor_add _ (y * 256) 16) by (change (2 ^ 16) with 65536; zlia).
  rewrite (lor_add _ z 8) by (change (2 ^ 8) with 256; zlia). lia.
Qed.

(** ** Formats *)

Inductive format := RGBA8 | RGB8 | RG8 | RGB565 | RGB5A1 | RGBA4 | IA8 | I8 | A8 | IA4.

Definition decode (f : format) : list Z -> Vec4 :=
  match f with
  | RGBA8 => DecodeRGBA8 | RGB8 => DecodeRGB8 | RG8 => DecodeRG8 | RGB565 => DecodeRGB565
  | RGB5A1 => DecodeRGB5A1 | RGBA4 => DecodeRGBA4 | IA8 => DecodeIA8 | I8 => DecodeI8
  | A8 => DecodeA8 | IA4 => DecodeIA4
  end.

Definition encode (big_endian : bool) (f : format) : Vec4 -> list Z -> list Z :=
  match f with
  | RGBA8 => EncodeRGBA8 | RGB8 => EncodeRGB8 | RG8 => EncodeRG8 | RGB565 => EncodeRGB565
  | RGB5A1 => EncodeRGB5A1 | RGBA4 => EncodeRGBA4 big_endian | IA8 => EncodeIA8 | I8 => EncodeI8
  | A8 => EncodeA8 | IA4 => EncodeIA4
  end.

Definition pixel_size (f : format) : nat :=
  match f with
  | RGBA8 => 4
  | RGB8 => 3
  | RG8 | RGB565 | RGB5A1 | RGBA4 | IA8 => 2
  | I8 | A8 | IA4 => 1
  end.

(** The color that a format keeps: each component cut to its bits and expanded by
    repeating its high bits; missing components replaced. *)
Definition keep1 (v : Z) : Z := 255 * (v / 128).
Definition keep4 (v : Z) : Z := 17 * (v / 16).
Definition keep5 (v : Z) : Z := 8 * (v / 8) + v / 32.
Definition keep6 (v : Z) : Z := 4 * (v / 4) + v / 64.
Definition average (c : Vec4) : Z := (r c + g c + b c) / 3.

Definition quantise (f : format) (c : Vec4) : Vec4 :=
  match f with
  | RGBA8 => c
  | RGB8 => mkVec4 (r c) (g c) (b c) 255
  | RG8 => mkVec4 (r c) (g c) 0 255
  | RGB565 => mkVec4 (keep5 (r c)) (keep6 (g c)) (keep5 (b c)) 255
  | RGB5A1 => mkVec4 (keep5 (r c)) (keep5 (g c)) (keep5 (b c)) (keep1 (a c))
  | RGBA4 => mkVec4 (keep4 (r c)) (keep4 (g c)) (keep4 (b c)) (keep4 (a c))
  | IA8 => mkVec4 (average c) (average c) (average c) (a c)
  | I8 => mkVec4 (average c) (average c) (average c) 255
  | A8 => mkVec4 0 0 0 (a c)
  | IA4 => mkVec4 (keep4 (average c)) (keep4 (average c)) (keep4 (average c)) (keep4 (a c))
  end.

Definition is_color (c : Vec4) : Prop := is_u8 (r c) /\ is_u8 (g c) /\ is_u8 (b c) /\ is_u8 (a c).

Lemma average_spec c : is_color c -> AverageRgbComponents c = average c /\ is_u8 (average c).
Proof. intros (? & ? & ? & ?). unfold AverageRgbComponents, average. split; word_lia. Qed.

(** What [memcpy] stores is what it loads. *)
Lemma load_store_le v bytes : is_u16 v -> (2 <= length bytes)%nat -> load_u16_le (store_u16_le v bytes) = v.
Proof.
  intros Hv Hl. destruct bytes as [|x [|y m]]; simpl in Hl; try lia.
  unfold load_u16_le, store_u16_le, byte, store. simpl. word_lia.
Qed.

Lemma store_load_le bytes : Forall is_u8 bytes -> (2 <= length bytes)%nat ->
  store_u16_le (load_u16_le bytes) bytes = bytes.
Proof.
  intros Hb Hl. destruct bytes as [|x [|y m]]; simpl in Hl; try lia.
  apply Forall_cons in Hb as [Hx Hb]. apply Forall_cons in Hb as [Hy _].
  unfold load_u16_le, store_u16_le, byte, store. simpl. f_equal; [word_lia|f_equal; word_lia].
Qed.

Lemma load_u16_range bytes : Forall is_u8 bytes -> (2 <= length bytes)%nat -> is_u16 (load_u16_le bytes).
Proof.
  intros Hb Hl. destruct bytes as [|x [|y m]]; simpl in Hl; try lia.
  apply Forall_cons in Hb as [Hx Hb]. apply Forall_cons in Hb as [Hy _].
  unfold load_u16_le, byte. simpl. word_lia.
Qed.

(** The components of a packed pixel. *)
Ltac components :=
  rewrite ?Z.shiftr_div_pow2 by done;
  change 0x1F with (Z.ones 5); change 0x3F with (Z.ones 6); change 0xF with (Z.ones 4);
  try change (Z.land ?p 1) with (Z.land p (Z.ones 1));
  rewrite ?Z.land_ones by done;
  change (2 ^ 12) with 4096; change (2 ^ 11) with 2048; change (2 ^ 8) with 256; change (2 ^ 6) with 64;
  change (2 ^ 5) with 32; change (2 ^ 4) with 16; change (2 ^ 1) with 2.

Lemma Decode565_spec bytes p : load_u16_le bytes = p -> is_u16 p ->
  DecodeRGB565 bytes = mkVec4 (Convert5To8 (p / 2048)) (Convert6To8 (p / 32 mod 64)) (Convert5To8 (p mod 32)) 255.
Proof.
  intros E Hp. unfold DecodeRGB565. rewrite E. cbv zeta. components.
  replace (p / 2048 mod 32) with (p / 2048) by word_lia. done.
Qed.

Lemma Decode5551_spec bytes p : load_u16_le bytes = p -> is_u16 p ->
  DecodeRGB5A1 bytes = mkVec4 (Convert5To8 (p / 2048)) (Convert5To8 (p / 64 mod 32)) (Convert5To8 (p / 2 mod 32))
    (Convert1To8 (p mod 2)).
Proof.
  intros E Hp. unfold DecodeRGB5A1. rewrite E. cbv zeta.
  change (Z.land p 1) with (Z.land p (Z.ones 1)). components.
  replace (p / 2048 mod 32) with (p / 2048) by word_lia. done.
Qed.

Lemma Decode4444_spec bytes p : load_u16_le bytes = p -> is_u16 p ->
  DecodeRGBA4 bytes = mkVec4 (Convert4To8 (p / 4096)) (Convert4To8 (p / 256 mod 16)) (Convert4To8 (p / 16 mod 16))
    (Convert4To8 (p mod 16)).
Proof.
  intros E Hp. unfold DecodeRGBA4. rewrite E. cbv zeta. components.
  replace (p / 4096 mod 16) with (p / 4096) by word_lia. done.
Qed.

Lemma Encode565_spec c m : is_color c ->
  EncodeRGB565 c m = store_u16_le (2048 * (r c / 8) + 32 * (g c / 4) + b c / 8) m.
Proof.
  intros (Hr & Hg & Hb & _). unfold EncodeRGB565. cbv zeta.
  rewrite !Convert8To5_spec, Convert8To6_spec by done. rewrite pack_565 by word_lia.
  f_equal. word_lia.
Qed.

Lemma Encode5551_spec c m : is_color c ->
  EncodeRGB5A1 c m = store_u16_le (2048 * (r c / 8) + 64 * (g c / 8) + 2 * (b c / 8) + a c / 128) m.
Proof.
  intros (Hr & Hg & Hb & Ha). unfold EncodeRGB5A1. cbv zeta.
  rewrite !Convert8To5_spec, Convert8To1_spec by done. rewrite pack_5551 by word_lia.
  f_equal. word_lia.
Qed.

Lemma Encode4444_spec be c m : is_color c ->
  EncodeRGBA4 be c m = store_u16 be (4096 * (r c / 16) + 256 * (g c / 16) + 16 * (b c / 16) + a c / 16) m.
Proof.
  intros (Hr & Hg & Hb & Ha). unfold EncodeRGBA4. cbv zeta.
  rewrite !Convert8To4_spec by done. rewrite pack_4444 by word_lia. f_equal. word_lia.
Qed.

Lemma EncodeIA4_spec c m : is_color c ->
  EncodeIA4 c m = store 0 (16 * (average c / 16) + a c / 16) m.
Proof.
  intros Hc. destruct (average_spec c Hc) as [E Hav]. destruct Hc as (_ & _ & _ & Ha).
  unfold EncodeIA4. rewrite E, !Convert8To4_spec by done. rewrite Z.shiftl_mul_pow2 by done.
  rewrite (lor_add _ _ 4) by (change (2 ^ 4) with 16; word_lia). f_equal. change (2 ^ 4) with 16. word_lia.
Qed.

Lemma DecodeIA4_spec m : is_u8 (byte m 0) ->
  let i := 17 * (byte m 0 / 16) in DecodeIA4 m = mkVec4 i i i (17 * (byte m 0 mod 16)).
Proof.
  intros Hb. unfold DecodeIA4. cbv zeta. change 0x0F with (Z.ones 4).
  rewrite Z.land_ones by done. change (2 ^ 4) with 16.
  replace (Z.shiftr (Z.land (byte m 0) 0xF0) 4) with (byte m 0 / 16).
  - rewrite !Convert4To8_spec by word_lia. done.
  - rewrite Z.shiftr_land. change (Z.shiftr 0xF0 4) with (Z.ones 4).
    rewrite Z.land_ones, Z.shiftr_div_pow2 by done. change (2 ^ 4) with 16. word_lia.
Qed.

(** Truncation undoes expansion. *)
Lemma keep5_expand x : 0 <= x < 32 -> Convert5To8 x / 8 = x /\ is_u8 (Convert5To8 x).
Proof. intros. rewrite Convert5To8_spec by done. split; word_lia. Qed.

Lemma keep6_expand x : 0 <= x < 64 -> Convert6To8 x / 4 = x /\ is_u8 (Convert6To8 x).
Proof. intros. rewrite Convert6To8_spec by done. split; word_lia. Qed.

Lemma keep4_expand x : 0 <= x < 16 -> Convert4To8 x / 16 = x /\ is_u8 (Convert4To8 x).
Proof. intros. rewrite Convert4To8_spec by done. split; word_lia. Qed.

Lemma keep1_expand x : 0 <= x < 2 -> Convert1To8 x / 128 = x /\ is_u8 (Convert1To8 x).
Proof. intros. unfold Convert1To8. split; word_lia. Qed.

Lemma roundtrip_565 m : Forall is_u8 m -> (2 <= length m)%nat -> EncodeRGB565 (DecodeRGB565 m) m = m.
Proof.
  intros Hm Hl. pose proof (load_u16_range m Hm Hl) as Hp.
  rewrite (Decode565_spec m _ eq_refl Hp). set (p := load_u16_le m) in *.
  destruct (keep5_expand (p / 2048)) as [E1 H1]; [word_lia|].
  destruct (keep6_expand (p / 32 mod 64)) as [E2 H2]; [word_lia|].
  destruct (keep5_expand (p mod 32)) as [E3 H3]; [word_lia|].
  rewrite Encode565_spec by (by split_and!). cbn [r g b]. rewrite E1, E2, E3.
  rewrite <-(store_load_le m) at 2 by done. fold p. f_equal. word_lia.
Qed.

Lemma roundtrip_5551 m : Forall is_u8 m -> (2 <= length m)%nat -> EncodeRGB5A1 (DecodeRGB5A1 m) m = m.
Proof.
  intros Hm Hl. pose proof (load_u16_range m Hm Hl) as Hp.
  rewrite (Decode5551_spec m _ eq_refl Hp). set (p := load_u16_le m) in *.
  destruct (keep5_expand (p / 2048)) as [E1 H1]; [word_lia|].
  destruct (keep5_expand (p / 64 mod 32)) as [E2 H2]; [word_lia|].
  destruct (keep5_expand (p / 2 mod 32)) as [E3 H3]; [word_lia|].
  destruct (keep1_expand (p mod 2)) as [E4 H4]; [word_lia|].
  rewrite Encode5551_spec by (by split_and!). cbn [r g b a]. rewrite E1, E2, E3, E4.
  rewrite <-(store_load_le m) at 2 by done. fold p. f_equal. word_lia.
Qed.

Lemma roundtrip_4444 m : Forall is_u8 m -> (2 <= length m)%nat -> EncodeRGBA4 false (DecodeRGBA4 m) m = m.
Proof.
  intros Hm Hl. pose proof (load_u16_range m Hm Hl) as Hp.
  rewrite (Decode4444_spec m _ eq_refl Hp). set (p := load_u16_le m) in *.
  destruct (keep4_expand (p / 4096)) as [E1 H1]; [word_lia|].
  destruct (keep4_expand (p / 256 mod 16)) as [E2 H2]; [word_lia|].
  destruct (keep4_expand (p / 16 mod 16)) as [E3 H3]; [word_lia|].
  destruct (keep4_expand (p mod 16)) as [E4 H4]; [word_lia|].
  rewrite Encode4444_spec by (by split_and!). cbn [r g b a]. rewrite E1, E2, E3, E4.
  rewrite <-(store_load_le m) at 2 by done. fold p. unfold store_u16. f_equal. word_lia.
Qed.

Ltac open_memory m Hl :=
  destruct m as [|x0 [|x1 [|x2 [|x3 m]]]]; simpl in Hl; try lia.

Lemma encode_decode f be m :
  Forall is_u8 m -> (pixel_size f <= length m)%nat -> (f = RGBA4 -> be = false) ->
  encode be f (decode f m) m = m.
Proof.
  intros Hm Hl Hbe. destruct f; cbn [encode decode pixel_size] in *.
  4: by apply roundtrip_565.
  4: by apply roundtrip_5551.
  4: rewrite Hbe by done; by apply roundtrip_4444.
  1-3, 6: by open_memory m Hl.
  - assert (H0 : is_u8 (byte m 1)) by (open_memory m Hl; by inversion_clear Hm as [|? ? ? [|]]).
    unfold EncodeIA8, AverageRgbComponents, DecodeIA8. cbn [r g b a].
    replace (u8 _) with (byte m 1) by word_lia. by open_memory m Hl.
  - assert (H0 : is_u8 (byte m 0)) by (open_memory m Hl; by inversion_clear Hm).
    unfold EncodeI8, AverageRgbComponents, DecodeI8. cbn [r g b a].
    replace (u8 _) with (byte m 0) by word_lia. by open_memory m Hl.
  - assert (H0 : is_u8 (byte m 0)) by (open_memory m Hl; by inversion_clear Hm).
    rewrite DecodeIA4_spec by done. cbv zeta.
    rewrite EncodeIA4_spec by (unfold is_color; cbn [r g b a]; split_and!; word_lia).
    unfold average. cbn [r g b a].
    replace (16 * _ + _) with (byte m 0) by word_lia. by open_memory m Hl.
Qed.

(** Storing two bytes keeps the rest. *)
Lemma store_u16_rest v m : (2 <= length m)%nat ->
  drop 2 (store_u16_le v m) = drop 2 m /\ length (store_u16_le v m) = length m.
Proof. intros Hl. by open_memory m Hl. Qed.

Ltac packed_value m p Hp :=
  match goal with
  | |- context [store_u16_le ?v m] => assert (Hp : is_u16 v) by word_lia; set (p := v) in *
  end.

Lemma decode_encode f be c m :
  is_color c -> (pixel_size f <= length m)%nat -> (f = RGBA4 -> be = false) ->
  decode f (encode be f c m) = quantise f c /\
  drop (pixel_size f) (encode be f c m) = drop (pixel_size f) m /\ length (encode be f c m) = length m.
Proof.
  intros Hc Hl Hbe. destruct (average_spec c Hc) as [Eav Hav]. pose proof Hc as (Hr & Hg & Hb & Ha).
  destruct f; cbn [encode decode pixel_size quantise] in *.
  1: open_memory m Hl; by destruct c.
  1,2,8: by open_memory m Hl.
  - rewrite Encode565_spec by done. split; [|by apply store_u16_rest].
    packed_value m p Hp. rewrite (Decode565_spec _ p (load_store_le p m Hp Hl) Hp). subst p.
    rewrite !Convert5To8_spec, Convert6To8_spec by word_lia. unfold keep5, keep6. f_equal; word_lia.
  - rewrite Encode5551_spec by done. split; [|by apply store_u16_rest].
    packed_value m p Hp. rewrite (Decode5551_spec _ p (load_store_le p m Hp Hl) Hp). subst p.
    rewrite !Convert5To8_spec by word_lia. unfold Convert1To8, keep5, keep1. f_equal; word_lia.
  - rewrite Encode4444_spec, Hbe by done. unfold store_u16. split; [|by apply store_u16_rest].
    packed_value m p Hp. rewrite (Decode4444_spec _ p (load_store_le p m Hp Hl) Hp). subst p.
    rewrite !Convert4To8_spec by word_lia. unfold keep4. f_equal; word_lia.
  - unfold EncodeIA8. rewrite Eav. by open_memory m Hl.
  - unfold EncodeI8. rewrite Eav. by open_memory m Hl.
  - rewrite EncodeIA4_spec by done. split; [|by open_memory m Hl].
    rewrite DecodeIA4_spec by (open_memory m Hl; unfold byte; simpl; word_lia).
    unfold keep4. open_memory m Hl; unfold byte; simpl; f_equal; word_lia.
Qed.

(** ** The properties *)

(** Encoding a pixel that was decoded from memory gives the memory back, in
    every format; decoding a color that was encoded gives the color cut to what the
    format keeps, and no byte after the pixel is touched.  RGBA4 needs a
    little-endian host: its encoder stores in host order. *)
Theorem pixel_roundtrip f be m c :
  (pixel_size f <= length m)%nat -> (f = RGBA4 -> be = false) ->
  (Forall is_u8 m -> encode be f (decode f m) m = m) /\
  (is_color c -> decode f (encode be f c m) = quantise f c /\
     drop (pixel_size f) (encode be f c m) = drop (pixel_size f) m /\
     length (encode be f c m) = length m).
Proof.
  intros Hl Hbe. split; intros H; [by apply encode_decode|by apply decode_encode].
Qed.

Lemma pixel_roundtrip_witness :
  encode false RGB565 (decode RGB565 [0x34; 0x12; 0x99]) [0x34; 0x12; 0x99] = [0x34; 0x12; 0x99] /\
  decode RGB565 (encode false RGB565 (mkVec4 255 128 7 3) [0; 0]) = mkVec4 255 130 0 255.
Proof.
  split.
  - destruct (pixel_roundtrip RGB565 false [0x34; 0x12; 0x99] (mkVec4 0 0 0 0)) as [H _];
      [simpl; lia|done|]. apply H. by repeat constructor.
  - destruct (pixel_roundtrip RGB565 false [0; 0] (mkVec4 255 128 7 3)) as [_ H]; [simpl; lia|done|].
    destruct H as [H _]; [by repeat constructor|]. rewrite H. reflexivity.
Defined.

(** On a big-endian host [EncodeRGBA4] writes the two bytes in the other order. *)
Theorem RGBA4_big_endian :
  DecodeRGBA4 (EncodeRGBA4 true (mkVec4 255 0 0 0) [0; 0]) = mkVec4 0 0 255 0.
Proof. reflexivity. Qed.

Lemma low_byte x : Z.land x 0xFF = x mod 256.
Proof. change 0xFF with (Z.ones 8). by rewrite Z.land_ones. Qed.

Ltac depth_bytes :=
  rewrite ?low_byte, ?Z.shiftr_div_pow2 by done; change (2 ^ 16) with 65536; change (2 ^ 8) with 256.

(** Depth and stencil values: decoding returns the low 16 or 24 bits of the depth
    and the stencil that were encoded; [EncodeD24X8] leaves the stencil byte and
    [EncodeX24S8] the depth of a D24S8 pixel as they were. *)
Theorem depth_roundtrip v s m : (4 <= length m)%nat -> Forall is_u8 m -> is_u32 v -> is_u8 s ->
  DecodeD16 (EncodeD16 v m) = v mod 65536 /\
  DecodeD24 (EncodeD24 v m) = v mod 16777216 /\
  DecodeD24S8 (EncodeD24S8 v s m) = (v mod 16777216, s) /\
  DecodeD24S8 (EncodeD24X8 v m) = (v mod 16777216, snd (DecodeD24S8 m)) /\
  DecodeD24S8 (EncodeX24S8 s m) = (fst (DecodeD24S8 m), s).
Proof.
  intros Hl Hm Hv Hs. destruct m as [|x0 [|x1 [|x2 [|x3 m]]]]; simpl in Hl; try lia.
  split_and!.
  - unfold DecodeD16, EncodeD16. rewrite load_store_le; [done|word_lia|simpl; lia].
  - unfold DecodeD24, EncodeD24, store, byte. simpl. depth_bytes. rewrite pack_24 by word_lia. word_lia.
  - unfold DecodeD24S8, EncodeD24S8, store, byte. simpl. depth_bytes. rewrite pack_24 by word_lia.
    f_equal. word_lia.
  - unfold DecodeD24S8, EncodeD24X8, store, byte. simpl. depth_bytes. rewrite pack_24 by word_lia.
    f_equal. word_lia.
  - done.
Qed.

Lemma depth_roundtrip_witness :
  DecodeD24S8 (EncodeD24S8 0x12345678 0x9A [0; 0; 0; 0]) = (0x345678, 0x9A).
Proof.
  destruct (depth_roundtrip 0x12345678 0x9A [0; 0; 0; 0]) as (_ & _ & H & _);
    [simpl; lia|by repeat constructor|done|done|]. exact H.
Defined.
