(* ===== verification/Kernel.v ===== *)
(** * Kernel: threads and waitable objects (core/hle/kernel: thread.cpp, wait_object.cpp, mutex.cpp, semaphore.cpp, event.cpp, timer.cpp; the waiting system calls of svc.cpp)

    The kernel of one core.  Objects and threads live in two maps, keyed by their
    address; a thread is a waitable object too, under the same key.  The ready queue
    and the event scheduler are used through interfaces. *)
From stdpp Require Import gmap.
From S2P Require Import Prelude Result.

Local Open Scope Z_scope.

(** ** Data *)

Definition ThreadPrioHighest : Z := 0.
Definition ThreadPrioLowest : Z := 63.

Inductive ThreadStatus :=
  | Running | Ready | WaitArb | WaitSleep | WaitIPC | WaitSynchAny | WaitSynchAll | WaitHleEvent
  | Dormant | Dead.

Inductive ThreadWakeupReason := Signal | Timeout.

Inductive ResetType := OneShot | Sticky | Pulse.

#[export] Instance ThreadStatus_eq_dec : EqDecision ThreadStatus.
Proof. solve_decision. Defined.
#[export] Instance ResetType_eq_dec : EqDecision ResetType.
Proof. solve_decision. Defined.

(** [SVC_SyncCallback(do_output)] *)
Inductive WakeupCallback := SyncCallback (do_output : bool).

Record Thread := mkThread {
  status : ThreadStatus;
  nominal_priority : Z;
  current_priority : Z;
  can_schedule : bool;
  held_mutexes : gset Z;
  pending_mutexes : gset Z;
  wait_objects : list Z;
  wakeup_callback : option WakeupCallback;
  (* cpu_registers[0] and [1] *)
  reg0 : Z;
  reg1 : Z
}.

(** What is specific to the class of an object. *)
Inductive ObjectKind :=
  | Mutex (lock_count priority : Z) (holding_thread : option Z)
  | Semaphore (max_count available_count : Z)
  | Event (reset_type : ResetType) (signaled : bool)
  | Timer (reset_type : ResetType) (signaled : bool) (initial_delay interval_delay callback_id : Z)
  | ThreadObject.

Record WaitObject := mkObject { waiting_threads : list Z; kind : ObjectKind }.

(** ** Interfaces *)

(** [std::erase] of the first match. *)
Fixpoint erase_first (t : Z) (l : list Z) : list Z :=
  match l with
  | [] => []
  | x :: l => if x =? t then l else x :: erase_first t l
  end.

(** The ready queue of a core: a queue for each priority. *)
Class ReadyQueue (Q : Type) := {
  rq_prepare : Z -> Q -> Q;
  rq_push_back : Z -> Z -> Q -> Q;
  rq_push_front : Z -> Z -> Q -> Q;
  rq_remove : Z -> Z -> Q -> Q;
  rq_move : Z -> Z -> Z -> Q -> Q;
  rq_pop_first : Q -> option (Z * Z) * Q;
  rq_pop_first_better : Z -> Q -> option (Z * Z) * Q;
  rq_list : Q -> Z -> list Z
}.

(** Its contract; [rq_list] is what the queue holds at a priority. *)
Class ReadyQueueLaws (Q : Type) `{!ReadyQueue Q} := {
  rq_list_prepare p q p' : rq_list (rq_prepare p q) p' = rq_list q p';
  rq_list_push_back p t q p' :
    rq_list (rq_push_back p t q) p' = if p' =? p then rq_list q p ++ [t] else rq_list q p';
  rq_list_push_front p t q p' :
    rq_list (rq_push_front p t q) p' = if p' =? p then t :: rq_list q p else rq_list q p';
  rq_list_remove p t q p' :
    rq_list (rq_remove p t q) p' = if p' =? p then erase_first t (rq_list q p) else rq_list q p';
  rq_list_move t p1 p2 q p' :
    rq_list (rq_move t p1 p2 q) p' = rq_list (rq_push_back p2 t (rq_remove p1 t q)) p';
  (* the first thread of the most urgent priority; only below a limit *)
  rq_pop_first_None q q' p' :
    rq_pop_first q = (None, q') -> rq_list q p' = [] /\ rq_list q' p' = [];
  rq_pop_first_Some q q' p t p' :
    rq_pop_first q = (Some (p, t), q') ->
    rq_list q p' = (if p' =? p then t :: rq_list q' p else rq_list q' p') /\ (p' < p -> rq_list q p' = []);
  rq_pop_first_better_None limit q q' p' :
    rq_pop_first_better limit q = (None, q') ->
    rq_list q' p' = rq_list q p' /\ (p' < limit -> rq_list q p' = []);
  rq_pop_first_better_Some limit q q' p t p' :
    rq_pop_first_better limit q = (Some (p, t), q') ->
    p < limit /\ rq_list q p' = (if p' =? p then t :: rq_list q' p else rq_list q' p') /\
    (p' < p -> rq_list q p' = [])
}.

(** The event scheduler, as far as the kernel drives it: [ScheduleEvent(cycles,
    type, userdata)] and [UnscheduleEvent(type, userdata)]. *)
Inductive EventKind := ThreadWakeupEvent | TimerCallbackEvent.

Class TimingService (T : Type) := {
  ScheduleEvent : Z -> EventKind -> Z -> T -> T;
  UnscheduleEvent : EventKind -> Z -> T -> T
}.

Section Kernel.
Context {Q : Type} `{!ReadyQueue Q} {T : Type} `{!TimingService T}.
Variable nsToCycles : Z -> Z.
(** [Result::raw] *)
Variable result_raw : Result -> Z.

Record Kernel := mkKernel {
  threads : gmap Z Thread;
  objects : gmap Z WaitObject;
  ready_queue : Q;
  current_thread : option Z;
  timing : T;
  reschedule_pending : bool
}.

Local Open Scope hle.

(** ** Access to the store *)

Definition set_threads (m : gmap Z Thread) (k : Kernel) : Kernel :=
  mkKernel m (objects k) (ready_queue k) (current_thread k) (timing k) (reschedule_pending k).
Definition set_objects (m : gmap Z WaitObject) (k : Kernel) : Kernel :=
  mkKernel (threads k) m (ready_queue k) (current_thread k) (timing k) (reschedule_pending k).
Definition set_queue (q : Q) (k : Kernel) : Kernel :=
  mkKernel (threads k) (objects k) q (current_thread k) (timing k) (reschedule_pending k).
Definition set_current (t : option Z) (k : Kernel) : Kernel :=
  mkKernel (threads k) (objects k) (ready_queue k) t (timing k) (reschedule_pending k).
Definition set_timing (t : T) (k : Kernel) : Kernel :=
  mkKernel (threads k) (objects k) (ready_queue k) (current_thread k) t (reschedule_pending k).

(** A dangling pointer is a fault. *)
Definition thread (t : Z) : op Kernel Thread := fun k =>
  match threads k !! t with
  | Some th => Done k th
  | None => Aborted
  end.

Definition object (o : Z) : op Kernel WaitObject := fun k =>
  match objects k !! o with
  | Some ob => Done k ob
  | None => Aborted
  end.

Definition put_thread (t : Z) (th : Thread) : op Kernel unit := fun k =>
  Done (set_threads (<[t := th]> (threads k)) k) tt.
Definition put_object (o : Z) (ob : WaitObject) : op Kernel unit := fun k =>
  Done (set_objects (<[o := ob]> (objects k)) k) tt.

Definition modify_thread (t : Z) (f : Thread -> Thread) : op Kernel unit :=
  th <- thread t ;; put_thread t (f th).
Definition modify_object (o : Z) (f : WaitObject -> WaitObject) : op Kernel unit :=
  ob <- object o ;; put_object o (f ob).
Definition modify_queue (f : Q -> Q) : op Kernel unit := fun k => Done (set_queue (f (ready_queue k)) k) tt.
Definition modify_timing (f : T -> T) : op Kernel unit := fun k => Done (set_timing (f (timing k)) k) tt.

Definition PrepareReschedule : op Kernel unit := fun k =>
  Done (mkKernel (threads k) (objects k) (ready_queue k) (current_thread k) (timing k) true) tt.

Definition set_kind (kd : ObjectKind) (ob : WaitObject) : WaitObject := mkObject (waiting_threads ob) kd.
Definition set_waiting (l : list Z) (ob : WaitObject) : WaitObject := mkObject l (kind ob).

Definition set_status (s : ThreadStatus) (th : Thread) : Thread :=
  mkThread s (nominal_priority th) (current_priority th) (can_schedule th) (held_mutexes th)
    (pending_mutexes th) (wait_objects th) (wakeup_callback th) (reg0 th) (reg1 th).
Definition set_current_priority (p : Z) (th : Thread) : Thread :=
  mkThread (status th) (nominal_priority th) p (can_schedule th) (held_mutexes th)
    (pending_mutexes th) (wait_objects th) (wakeup_callback th) (reg0 th) (reg1 th).
Definition set_nominal_priority (p : Z) (th : Thread) : Thread :=
  mkThread (status th) p (current_priority th) (can_schedule th) (held_mutexes th)
    (pending_mutexes th) (wait_objects th) (wakeup_callback th) (reg0 th) (reg1 th).
Definition set_held (s : gset Z) (th : Thread) : Thread :=
  mkThread (status th) (nominal_priority th) (current_priority th) (can_schedule th) s
    (pending_mutexes th) (wait_objects th) (wakeup_callback th) (reg0 th) (reg1 th).
Definition set_pending (s : gset Z) (th : Thread) : Thread :=
  mkThread (status th) (nominal_priority th) (current_priority th) (can_schedule th) (held_mutexes th)
    s (wait_objects th) (wakeup_callback th) (reg0 th) (reg1 th).
Definition set_wait_objects (l : list Z) (th : Thread) : Thread :=
  mkThread (status th) (nominal_priority th) (current_priority th) (can_schedule th) (held_mutexes th)
    (pending_mutexes th) l (wakeup_callback th) (reg0 th) (reg1 th).
Definition set_callback (c : option WakeupCallback) (th : Thread) : Thread :=
  mkThread (status th) (nominal_priority th) (current_priority th) (can_schedule th) (held_mutexes th)
    (pending_mutexes th) (wait_objects th) c (reg0 th) (reg1 th).
Definition set_reg0 (x : Z) (th : Thread) : Thread :=
  mkThread (status th) (nominal_priority th) (current_priority th) (can_schedule th) (held_mutexes th)
    (pending_mutexes th) (wait_objects th) (wakeup_callback th) x (reg1 th).
Definition set_reg1 (x : Z) (th : Thread) : Thread :=
  mkThread (status th) (nominal_priority th) (current_priority th) (can_schedule th) (held_mutexes th)
    (pending_mutexes th) (wait_objects th) (wakeup_callback th) (reg0 th) x.

(** [for (auto& x : l) f(x);] *)
Fixpoint for_each {A} (f : A -> op Kernel unit) (l : list A) : op Kernel unit :=
  match l with
  | [] => ret tt
  | x :: l => f x ;; for_each f l
  end.

(** ** Thread priorities (thread.cpp) *)

Definition BoostPriority (t priority : Z) : op Kernel unit :=
  th <- thread t ;;
  (if bool_decide (status th = Ready)
   then modify_queue (rq_move t (current_priority th) priority)
   else modify_queue (rq_prepare priority)) ;;
  modify_thread t (set_current_priority priority).

Definition SetPriority (t priority : Z) : op Kernel unit :=
  assert_ ((priority <=? ThreadPrioLowest) && (ThreadPrioHighest <=? priority)) ;;
  th <- thread t ;;
  (if bool_decide (status th = Ready)
   then modify_queue (rq_move t (current_priority th) priority)
   else modify_queue (rq_prepare priority)) ;;
  modify_thread t (fun th => set_nominal_priority priority (set_current_priority priority th)).

(** [mutex->priority] *)
Definition mutex_priority (ob : WaitObject) : Z :=
  match kind ob with
  | Mutex _ p _ => p
  | _ => 0
  end.

Fixpoint best_of_mutexes (best : Z) (l : list Z) : op Kernel Z :=
  match l with
  | [] => ret best
  | m :: l =>
      ob <- object m ;;
      best_of_mutexes (if mutex_priority ob <? best then mutex_priority ob else best) l
  end.

Definition Thread_UpdatePriority (t : Z) : op Kernel unit :=
  th <- thread t ;;
  best_priority <- best_of_mutexes (nominal_priority th) (elements (held_mutexes th)) ;;
  BoostPriority t best_priority.

(** ** Mutex::UpdatePriority *)

Fixpoint best_of_waiters (best : Z) (l : list Z) : op Kernel Z :=
  match l with
  | [] => ret best
  | t :: l =>
      waiter <- thread t ;;
      best_of_waiters (if current_priority waiter <? best then current_priority waiter else best) l
  end.

Definition Mutex_UpdatePriority (m : Z) : op Kernel unit :=
  ob <- object m ;;
  match kind ob with
  | Mutex lock_count priority (Some h) =>
      best_priority <- best_of_waiters ThreadPrioLowest (waiting_threads ob) ;;
      if negb (best_priority =? priority) then
        modify_object m (set_kind (Mutex lock_count best_priority (Some h))) ;;
        Thread_UpdatePriority h
      else ret tt
  | _ => ret tt
  end.

(** ** ShouldWait and Acquire *)

Definition ShouldWait (o t : Z) : op Kernel bool :=
  ob <- object o ;;
  match kind ob with
  | Mutex lock_count _ h => ret ((0 <? lock_count) && negb (bool_decide (Some t = h)))
  | Semaphore _ available_count => ret (available_count <=? 0)
  | Event _ signaled | Timer _ signaled _ _ _ => ret (negb signaled)
  | ThreadObject => th <- thread o ;; ret (negb (bool_decide (status th = Dead)))
  end.

Definition Acquire (o t : Z) : op Kernel unit :=
  ob <- object o ;;
  match kind ob with
  | Mutex lock_count _ h =>
      w <- ShouldWait o t ;;
      assert_ (negb w) ;;
      (if lock_count =? 0 then
         th <- thread t ;;
         modify_object o (set_kind (Mutex lock_count (current_priority th) h)) ;;
         modify_thread t (fun th => set_held ({[o]} ∪ held_mutexes th) th) ;;
         modify_object o (set_kind (Mutex lock_count (current_priority th) (Some t))) ;;
         Thread_UpdatePriority t ;;
         PrepareReschedule
       else ret tt) ;;
      modify_object o (fun ob =>
        match kind ob with
        | Mutex lock_count p h => set_kind (Mutex (lock_count + 1) p h) ob
        | _ => ob
        end)
  | Semaphore max_count available_count =>
      if available_count <=? 0 then ret tt
      else put_object o (set_kind (Semaphore max_count (available_count - 1)) ob)
  | Event reset_type signaled =>
      w <- ShouldWait o t ;;
      assert_ (negb w) ;;
      if bool_decide (reset_type = OneShot)
      then put_object o (set_kind (Event reset_type false) ob) else ret tt
  | Timer reset_type signaled i n c =>
      w <- ShouldWait o t ;;
      assert_ (negb w) ;;
      if bool_decide (reset_type = OneShot)
      then put_object o (set_kind (Timer reset_type false i n c) ob) else ret tt
  | ThreadObject =>
      w <- ShouldWait o t ;;
      assert_ (negb w)
  end.

(** ** Waiting lists (wait_object.cpp, mutex.cpp) *)

Definition WaitObject_AddWaitingThread (o t : Z) : op Kernel unit :=
  modify_object o (fun ob =>
    if existsb (Z.eqb t) (waiting_threads ob) then ob
    else set_waiting (waiting_threads ob ++ [t]) ob).

Definition WaitObject_RemoveWaitingThread (o t : Z) : op Kernel unit :=
  modify_object o (fun ob => set_waiting (erase_first t (waiting_threads ob)) ob).

(** The virtual functions: a mutex also keeps the pending set and its priority. *)
Definition AddWaitingThread (o t : Z) : op Kernel unit :=
  ob <- object o ;;
  WaitObject_AddWaitingThread o t ;;
  match kind ob with
  | Mutex _ _ _ =>
      modify_thread t (fun th => set_pending ({[o]} ∪ pending_mutexes th) th) ;;
      Mutex_UpdatePriority o
  | _ => ret tt
  end.

Definition RemoveWaitingThread (o t : Z) : op Kernel unit :=
  ob <- object o ;;
  WaitObject_RemoveWaitingThread o t ;;
  match kind ob with
  | Mutex _ _ _ =>
      modify_thread t (fun th => set_pending (pending_mutexes th ∖ {[o]}) th) ;;
      Mutex_UpdatePriority o
  | _ => ret tt
  end.

(** ** Waking up *)

Definition is_synch_status (s : ThreadStatus) : bool :=
  match s with
  | WaitSynchAny | WaitSynchAll | WaitHleEvent => true
  | _ => false
  end.

(** [std::none_of(wait_objects, ShouldWait)]: stops at the first that should wait. *)
Fixpoint none_should_wait (t : Z) (l : list Z) : op Kernel bool :=
  match l with
  | [] => ret true
  | o :: l => w <- ShouldWait o t ;; if w then ret false else none_should_wait t l
  end.

Fixpoint highest_ready (o : Z) (candidate : option Z) (candidate_priority : Z) (l : list Z)
    : op Kernel (option Z) :=
  match l with
  | [] => ret candidate
  | t :: l =>
      th <- thread t ;;
      assert_ (is_synch_status (status th)) ;;
      if candidate_priority <=? current_priority th then highest_ready o candidate candidate_priority l
      else
        w <- ShouldWait o t ;;
        if w then highest_ready o candidate candidate_priority l
        else
          ready_to_run <- (if bool_decide (status th = WaitSynchAll)
                           then none_should_wait t (wait_objects th) else ret true) ;;
          if ready_to_run then highest_ready o (Some t) (current_priority th) l
          else highest_ready o candidate candidate_priority l
  end.

Definition GetHighestPriorityReadyThread (o : Z) : op Kernel (option Z) :=
  ob <- object o ;; highest_ready o None (ThreadPrioLowest + 1) (waiting_threads ob).

Definition ResumeFromWait (t : Z) : op Kernel unit :=
  th <- thread t ;;
  assert_ (bool_decide (wait_objects th = [])) ;;
  match status th with
  | WaitSynchAll | WaitSynchAny | WaitHleEvent | WaitArb | WaitSleep | WaitIPC | Dormant =>
      modify_thread t (set_callback None) ;;
      modify_queue (rq_push_back (current_priority th) t) ;;
      modify_thread t (set_status Ready) ;;
      PrepareReschedule
  | Ready => assert_ (bool_decide (wakeup_callback th = None))
  | Running | Dead => assert_ false
  end.

(** [SetWaitSynchronizationResult], [SetWaitSynchronizationOutput] *)
Definition SetWaitSynchronizationResult (t : Z) (rc : Result) : op Kernel unit :=
  modify_thread t (set_reg0 (result_raw rc)).
Definition SetWaitSynchronizationOutput (t output : Z) : op Kernel unit :=
  modify_thread t (set_reg1 output).

(** The position of the last match, -1 when there is none. *)
Fixpoint last_index (o i : Z) (l : list Z) : Z :=
  match l with
  | [] => -1
  | x :: l => let r := last_index o (i + 1) l in if r =? -1 then (if x =? o then i else -1) else r
  end.

Definition GetWaitObjectIndex (t o : Z) : op Kernel Z :=
  th <- thread t ;;
  assert_ (negb (bool_decide (wait_objects th = []))) ;;
  ret (last_index o 0 (wait_objects th)).

(** [SVC_SyncCallback::WakeUp] *)
Definition WakeUp (cb : WakeupCallback) (reason : ThreadWakeupReason) (t : Z) (obj : option Z) : op Kernel unit :=
  match reason with
  | Timeout => SetWaitSynchronizationResult t ResultTimeout
  | Signal =>
      SetWaitSynchronizationResult t ResultSuccess ;;
      match cb, obj with
      | SyncCallback true, Some o => i <- GetWaitObjectIndex t o ;; SetWaitSynchronizationOutput t i
      | SyncCallback true, None => fun _ => Aborted
      | SyncCallback false, _ => ret tt
      end
  end.

Definition call_wakeup (reason : ThreadWakeupReason) (t : Z) (obj : option Z) : op Kernel unit :=
  th <- thread t ;;
  match wakeup_callback th with
  | Some cb => WakeUp cb reason t obj
  | None => ret tt
  end.

(** [for (auto& object : thread->wait_objects) object->RemoveWaitingThread(thread);
    thread->wait_objects.clear();] *)
Definition leave_wait_objects (t : Z) : op Kernel unit :=
  th <- thread t ;;
  for_each (fun o => RemoveWaitingThread o t) (wait_objects th) ;;
  modify_thread t (set_wait_objects []).

(** The body of the loop of [WakeupAllWaitingThreads]. *)
Definition wakeup_one (o t : Z) : op Kernel unit :=
  th <- thread t ;;
  (if negb (bool_decide (status th = WaitSynchAll)) then Acquire o t
   else for_each (fun ob => Acquire ob t) (wait_objects th)) ;;
  call_wakeup Signal t (Some o) ;;
  leave_wait_objects t ;;
  ResumeFromWait t.

Fixpoint wakeup_loop (fuel : nat) (o : Z) : op Kernel unit :=
  match fuel with
  | O => fun _ => Aborted
  | S fuel =>
      c <- GetHighestPriorityReadyThread o ;;
      match c with
      | None => ret tt
      | Some t => wakeup_one o t ;; wakeup_loop fuel o
      end
  end.

(** The virtual function: a pulse object is cleared afterwards. *)
Definition WakeupAllWaitingThreads (o : Z) : op Kernel unit :=
  ob <- object o ;;
  wakeup_loop (S (length (waiting_threads ob))) o ;;
  modify_object o (fun ob =>
    match kind ob with
    | Event Pulse _ => set_kind (Event Pulse false) ob
    | Timer Pulse _ i n c => set_kind (Timer Pulse false i n c) ob
    | _ => ob
    end).

(** ** Mutexes *)

(** The priority of a mutex is only meaningful once it is held. *)
Definition CreateMutex (m : Z) (initial_locked : bool) : op Kernel unit :=
  put_object m (mkObject [] (Mutex 0 0 None)) ;;
  k <- get ;;
  if initial_locked then
    match current_thread k with
    | Some t => Acquire m t
    | None => fun _ => Aborted
    end
  else ret tt.

Definition WrongLockingThread : Result :=
  Result_of (ErrCodes.ErrCodes_value ErrCodes.WrongLockingThread) ErrorModule.Kernel
    ErrorSummary.InvalidArgument ErrorLevel.Permanent.

Definition MutexNotLocked : Result :=
  Result_of (ErrorDescription.ErrorDescription_value ErrorDescription.InvalidResultValue) ErrorModule.Kernel
    ErrorSummary.InvalidState ErrorLevel.Permanent.

Definition Mutex_Release (m t : Z) : op Kernel unit :=
  ob <- object m ;;
  match kind ob with
  | Mutex lock_count priority h =>
      R_UNLESS (bool_decide (Some t = h)) WrongLockingThread ;;
      R_UNLESS (negb (lock_count <=? 0)) MutexNotLocked ;;
      put_object m (set_kind (Mutex (lock_count - 1) priority h) ob) ;;
      if lock_count - 1 =? 0 then
        modify_thread t (fun th => set_held (held_mutexes th ∖ {[m]}) th) ;;
        Thread_UpdatePriority t ;;
        modify_object m (fun ob =>
          match kind ob with
          | Mutex lock_count p _ => set_kind (Mutex lock_count p None) ob
          | _ => ob
          end) ;;
        WakeupAllWaitingThreads m ;;
        PrepareReschedule
      else ret tt
  | _ => fun _ => Aborted
  end.

Definition ReleaseThreadMutexes (t : Z) : op Kernel unit :=
  th <- thread t ;;
  for_each (fun m =>
    modify_object m (fun ob =>
      match kind ob with
      | Mutex _ p _ => set_kind (Mutex 0 p None) ob
      | _ => ob
      end) ;;
    WakeupAllWaitingThreads m) (elements (held_mutexes th)) ;;
  modify_thread t (set_held ∅).

(** ** Semaphores *)

Definition CreateSemaphore (o initial_count max_count : Z) : op Kernel unit :=
  R_UNLESS (initial_count <=? max_count) ResultInvalidCombinationKernel ;;
  put_object o (mkObject [] (Semaphore max_count initial_count)).

(** The result is [*out_count]; the sums are of [s32]. *)
Definition Semaphore_Release (o release_count : Z) : op Kernel Z :=
  ob <- object o ;;
  match kind ob with
  | Semaphore max_count available_count =>
      R_UNLESS (s32 (release_count + available_count) <=? max_count) ResultOutOfRangeKernel ;;
      put_object o (set_kind (Semaphore max_count (s32 (available_count + release_count))) ob) ;;
      WakeupAllWaitingThreads o ;;
      ret available_count
  | _ => fun _ => Aborted
  end.

(** ** Events and timers *)

Definition CreateEvent (o : Z) (reset_type : ResetType) : op Kernel unit :=
  put_object o (mkObject [] (Event reset_type false)).

Definition Event_Signal (o : Z) : op Kernel unit :=
  modify_object o (fun ob =>
    match kind ob with
    | Event r _ => set_kind (Event r true) ob
    | _ => ob
    end) ;;
  WakeupAllWaitingThreads o.

Definition Event_Clear (o : Z) : op Kernel unit :=
  modify_object o (fun ob =>
    match kind ob with
    | Event r _ => set_kind (Event r false) ob
    | _ => ob
    end).

Definition CreateTimer (o : Z) (reset_type : ResetType) (callback_id : Z) : op Kernel unit :=
  put_object o (mkObject [] (Timer reset_type false 0 0 callback_id)).

Definition Timer_Cancel (o : Z) : op Kernel unit :=
  ob <- object o ;;
  match kind ob with
  | Timer _ _ _ _ c => modify_timing (UnscheduleEvent TimerCallbackEvent c)
  | _ => fun _ => Aborted
  end.

Definition Timer_Clear (o : Z) : op Kernel unit :=
  modify_object o (fun ob =>
    match kind ob with
    | Timer r _ i n c => set_kind (Timer r false i n c) ob
    | _ => ob
    end).

Definition Timer_Signal (o cycles_late : Z) : op Kernel unit :=
  modify_object o (fun ob =>
    match kind ob with
    | Timer r _ i n c => set_kind (Timer r true i n c) ob
    | _ => ob
    end) ;;
  WakeupAllWaitingThreads o ;;
  ob <- object o ;;
  match kind ob with
  | Timer _ _ _ interval_delay c =>
      if negb (interval_delay =? 0) then
        modify_timing (ScheduleEvent (nsToCycles interval_delay - cycles_late) TimerCallbackEvent c)
      else ret tt
  | _ => fun _ => Aborted
  end.

(** The delays are stored as [u64]. *)
Definition Timer_Set (o initial interval : Z) : op Kernel unit :=
  Timer_Cancel o ;;
  modify_object o (fun ob =>
    match kind ob with
    | Timer r s _ _ c => set_kind (Timer r s (u64 initial) (u64 interval) c) ob
    | _ => ob
    end) ;;
  if initial =? 0 then Timer_Signal o 0
  else
    ob <- object o ;;
    match kind ob with
    | Timer _ _ _ _ c => modify_timing (ScheduleEvent (nsToCycles initial) TimerCallbackEvent c)
    | _ => fun _ => Aborted
    end.

(** ** The life of a thread (thread.cpp) *)

(** [CreateThread], for a processor id that names a core; [entry_valid] and
    [tls] are the outcomes of [IsValidVirtualAddress] and of
    [AllocateThreadLocalStorage]. *)
Definition CreateThread (t priority arg : Z) (entry_valid make_ready : bool) (tls : option Result) : op Kernel unit :=
  R_UNLESS (priority <=? ThreadPrioLowest) ResultOutOfRange ;;
  R_UNLESS entry_valid (Result_of (ErrorDescription.ErrorDescription_value ErrorDescription.InvalidAddress)
    ErrorModule.Kernel ErrorSummary.InvalidArgument ErrorLevel.Permanent) ;;
  modify_queue (rq_prepare priority) ;;
  put_object t (mkObject [] ThreadObject) ;;
  put_thread t (mkThread Dormant priority priority true ∅ ∅ [] None 0 0) ;;
  (match tls with
   | Some rc => R_UNLESS false rc
   | None => ret tt
   end) ;;
  modify_thread t (set_reg0 arg) ;;
  if make_ready then
    modify_queue (rq_push_back priority t) ;;
    modify_thread t (set_status Ready)
  else ret tt.

Definition WakeAfterDelay (t nanoseconds : Z) : op Kernel unit :=
  if nanoseconds =? -1 then ret tt
  else modify_timing (ScheduleEvent (nsToCycles nanoseconds) ThreadWakeupEvent t).

Definition ThreadWakeupCallback (t : Z) : op Kernel unit :=
  th <- thread t ;;
  (match status th with
   | WaitSynchAny | WaitSynchAll | WaitArb | WaitHleEvent =>
       call_wakeup Timeout t None ;; leave_wait_objects t
   | _ => ret tt
   end) ;;
  ResumeFromWait t.

(** [Stop], without the bookkeeping of the owner process. *)
Definition Stop (t : Z) : op Kernel unit :=
  modify_timing (UnscheduleEvent ThreadWakeupEvent t) ;;
  th <- thread t ;;
  (if bool_decide (status th = Ready)
   then modify_queue (rq_remove (current_priority th) t) else ret tt) ;;
  modify_thread t (set_status Dead) ;;
  WakeupAllWaitingThreads t ;;
  leave_wait_objects t ;;
  ReleaseThreadMutexes t.

(** ** Scheduling (thread.cpp) *)

(** [previous_thread->status == Running] happens when the thread did not yield. *)
Definition SwitchContext (new_thread : option Z) : op Kernel unit :=
  k <- get ;;
  (match current_thread k with
   | Some p =>
       th <- thread p ;;
       if bool_decide (status th = Running) then
         modify_queue (rq_push_front (current_priority th) p) ;;
         modify_thread p (set_status Ready)
       else ret tt
   | None => ret tt
   end) ;;
  match new_thread with
  | Some t =>
      th <- thread t ;;
      assert_ (bool_decide (status th = Ready)) ;;
      modify_timing (UnscheduleEvent ThreadWakeupEvent t) ;;
      (fun k => Done (set_current (Some t) k) tt) ;;
      modify_queue (rq_remove (current_priority th) t) ;;
      modify_thread t (set_status Running)
  | None => fun k => Done (set_current None k) tt
  end.

(** One pop of the loops of [PopNextReadyThread]. *)
Definition pop (limit : option Z) : op Kernel (option (Z * Z)) := fun k =>
  let (r, q) := match limit with
                | Some p => rq_pop_first_better p (ready_queue k)
                | None => rq_pop_first (ready_queue k)
                end in
  Done (set_queue q k) r.

Fixpoint pop_loop (fuel : nat) (limit : option Z) (skipped : list (Z * Z)) : op Kernel (option Z * list (Z * Z)) :=
  match fuel with
  | O => fun _ => Aborted
  | S fuel =>
      r <- pop limit ;;
      match r with
      | None => ret (None, skipped)
      | Some (p, next) =>
          th <- thread next ;;
          if can_schedule th then ret (Some next, skipped)
          else pop_loop fuel limit (skipped ++ [(p, next)])
      end
  end.

(** For a core without time limits (every core but 1). *)
Definition PopNextReadyThread : op Kernel (option Z) :=
  k <- get ;;
  limit <- (match current_thread k with
            | Some t => th <- thread t ;;
                if bool_decide (status th = Running) then ret (Some (t, current_priority th)) else ret None
            | None => ret None
            end) ;;
  let* (next, skipped) := pop_loop (S (size (threads k))) (snd <$> limit) [] in
  for_each (fun it => modify_queue (rq_push_front (fst it) (snd it))) (rev skipped) ;;
  ret (match next, limit with
       | None, Some (t, _) => Some t
       | _, _ => next
       end).

Definition Reschedule : op Kernel unit :=
  k <- get ;;
  next <- PopNextReadyThread ;;
  match current_thread k, next with
  | None, None => ret tt
  | _, _ => SwitchContext next
  end.

(** ** Waiting (svc.cpp) *)

Definition sleep (t nano_seconds : Z) (do_output : bool) : op Kernel unit :=
  WakeAfterDelay t nano_seconds ;;
  modify_thread t (set_callback (Some (SyncCallback do_output))) ;;
  PrepareReschedule.

Definition WaitSynchronization1 (t o nano_seconds : Z) : op Kernel Result :=
  w <- ShouldWait o t ;;
  if w then
    R_UNLESS (negb (nano_seconds =? 0)) ResultTimeout ;;
    modify_thread t (set_wait_objects [o]) ;;
    AddWaitingThread o t ;;
    modify_thread t (set_status WaitSynchAny) ;;
    sleep t nano_seconds false ;;
    ret ResultTimeout
  else
    Acquire o t ;;
    ret ResultSuccess.

(** [std::find_if(objects, !ShouldWait)]: the position and the object. *)
Fixpoint first_available (t i : Z) (l : list Z) : op Kernel (option (Z * Z)) :=
  match l with
  | [] => ret None
  | o :: l => w <- ShouldWait o t ;; if w then first_available t (i + 1) l else ret (Some (i, o))
  end.

(** The handles are resolved to [objs]; the result is the code and [*out], which
    keeps its value in one case. *)
Definition WaitSynchronizationN (t : Z) (objs : list Z) (wait_all : bool) (nano_seconds : Z)
    : op Kernel (Result * option Z) :=
  if wait_all then
    all_available <- none_should_wait t objs ;;
    if all_available then
      for_each (fun o => Acquire o t) objs ;;
      ret (ResultSuccess, None)
    else
      R_UNLESS (negb (nano_seconds =? 0)) ResultTimeout ;;
      modify_thread t (set_status WaitSynchAll) ;;
      for_each (fun o => AddWaitingThread o t) objs ;;
      modify_thread t (set_wait_objects objs) ;;
      sleep t nano_seconds false ;;
      ret (ResultTimeout, Some (-1))
  else
    itr <- first_available t 0 objs ;;
    match itr with
    | Some (i, o) =>
        Acquire o t ;;
        ret (ResultSuccess, Some i)
    | None =>
        R_UNLESS (negb (nano_seconds =? 0)) ResultTimeout ;;
        modify_thread t (set_status WaitSynchAny) ;;
        for_each (fun o => AddWaitingThread o t) objs ;;
        modify_thread t (set_wait_objects objs) ;;
        sleep t nano_seconds true ;;
        ret (ResultTimeout, Some (-1))
    end.
End Kernel.
