(* ===== verification/Skeleton.v ===== *)
(** * Skeleton: what the synchronisation objects do, without priorities

    The skeleton of a kernel is its threads and objects without the priorities that
    inheritance computes and without the ready queue.  This file gives the operations
    on skeletons as pure functions, the invariants (references lead somewhere, waiting
    lists and wait objects agree, mutex owners and held mutexes agree) and that the
    operations keep them. *)
From stdpp Require Import gmap.
From S2P Require Import Prelude Result Kernel.

Local Open Scope Z_scope.

(** ** Skeletons *)

Record skeleton := mkSkel { sthreads : gmap Z Thread; sobjects : gmap Z WaitObject }.

Definition stripT (th : Thread) : Thread := set_current_priority 0 th.

Definition stripO (ob : WaitObject) : WaitObject :=
  match kind ob with
  | Mutex l _ h => set_kind (Mutex l 0 h) ob
  | _ => ob
  end.

Definition sk_thread (t : Z) (f : Thread -> Thread) (s : skeleton) : skeleton :=
  mkSkel (alter f t (sthreads s)) (sobjects s).

Definition sk_object (o : Z) (f : WaitObject -> WaitObject) (s : skeleton) : skeleton :=
  mkSkel (sthreads s) (alter f o (sobjects s)).

Lemma alter_is_Some {A} (f : A -> A) i j (m : gmap Z A) : is_Some (alter f i m !! j) <-> is_Some (m !! j).
Proof.
  destruct (decide (j = i)) as [->|]; [by rewrite lookup_alter_eq, fmap_is_Some|by rewrite lookup_alter_ne].
Qed.

Lemma alter_id_map {A} i (m : gmap Z A) : alter (fun x => x) i m = m.
Proof.
  apply map_eq. intros j. destruct (decide (j = i)) as [->|]; [|by rewrite lookup_alter_ne].
  rewrite lookup_alter_eq. by destruct (m !! i).
Qed.

(** Every pointer leads to a thread or an object. *)
Record refs_ok (s : skeleton) : Prop := {
  refs_waiting : forall o ob t, sobjects s !! o = Some ob -> t ∈ waiting_threads ob -> is_Some (sthreads s !! t);
  refs_holder : forall o ob l p t, sobjects s !! o = Some ob -> kind ob = Mutex l p (Some t) ->
    is_Some (sthreads s !! t);
  refs_held : forall t th m, sthreads s !! t = Some th -> m ∈ held_mutexes th -> is_Some (sobjects s !! m);
  refs_wait : forall t th o, sthreads s !! t = Some th -> o ∈ wait_objects th -> is_Some (sobjects s !! o);
  refs_thread : forall o ob, sobjects s !! o = Some ob -> kind ob = ThreadObject -> is_Some (sthreads s !! o)
}.

Lemma stripT_status th : status (stripT th) = status th.
Proof. done. Qed.

Lemma stripO_waiting ob : waiting_threads (stripO ob) = waiting_threads ob.
Proof. unfold stripO. by destruct (kind ob). Qed.

(** Whether a thread has to wait for an object, on skeletons. *)
Definition should_wait (s : skeleton) (o t : Z) : bool :=
  match sobjects s !! o with
  | None => true
  | Some ob =>
      match kind ob with
      | Mutex l _ h => (0 <? l) && negb (bool_decide (Some t = h))
      | Semaphore _ a => a <=? 0
      | Event _ b | Timer _ b _ _ _ => negb b
      | ThreadObject => negb (bool_decide (status <$> sthreads s !! o = Some Dead))
      end
  end.

(** ** The operations on skeletons *)

Definition acquire_mutex (o t : Z) (l : Z) (h : option Z) (s : skeleton) : skeleton :=
  let s := sk_object o (set_kind (Mutex l 0 h)) s in
  let s := sk_thread t (fun th => set_held ({[o]} ∪ held_mutexes th) th) s in
  sk_object o (set_kind (Mutex l 0 (Some t))) s.

Definition count_up (ob : WaitObject) : WaitObject :=
  match kind ob with
  | Mutex l _ h => set_kind (Mutex (l + 1) 0 h) ob
  | _ => ob
  end.

Definition sk_acquire (o t : Z) (s : skeleton) : skeleton :=
  match kind <$> sobjects s !! o with
  | Some (Mutex l _ h) => sk_object o count_up (if l =? 0 then acquire_mutex o t l h s else s)
  | Some (Semaphore m a) => if a <=? 0 then s else sk_object o (set_kind (Semaphore m (a - 1))) s
  | Some (Event OneShot _) => sk_object o (set_kind (Event OneShot false)) s
  | Some (Timer OneShot _ i n c) => sk_object o (set_kind (Timer OneShot false i n c)) s
  | _ => s
  end.

Definition is_mutex (k : option ObjectKind) : bool :=
  match k with
  | Some (Mutex _ _ _) => true
  | _ => false
  end.

Definition add_waiting (t : Z) (ob : WaitObject) : WaitObject :=
  if existsb (Z.eqb t) (waiting_threads ob) then ob else set_waiting (waiting_threads ob ++ [t]) ob.

Definition drop_waiting (t : Z) (ob : WaitObject) : WaitObject :=
  set_waiting (erase_first t (waiting_threads ob)) ob.

Definition sk_add (o t : Z) (s : skeleton) : skeleton :=
  let s' := sk_object o (add_waiting t) s in
  if is_mutex (kind <$> sobjects s !! o)
  then sk_thread t (fun th => set_pending ({[o]} ∪ pending_mutexes th) th) s' else s'.

Definition sk_remove (o t : Z) (s : skeleton) : skeleton :=
  let s' := sk_object o (drop_waiting t) s in
  if is_mutex (kind <$> sobjects s !! o)
  then sk_thread t (fun th => set_pending (pending_mutexes th ∖ {[o]}) th) s' else s'.

(** The same objects and threads exist. *)
Definition same_dom (s s' : skeleton) : Prop :=
  (forall t, is_Some (sthreads s' !! t) <-> is_Some (sthreads s !! t)) /\
  (forall o, is_Some (sobjects s' !! o) <-> is_Some (sobjects s !! o)).

Lemma same_dom_thread t f s : same_dom s (sk_thread t f s).
Proof. split; intros i; [apply alter_is_Some|done]. Qed.

Lemma same_dom_object o f s : same_dom s (sk_object o f s).
Proof. split; intros i; [done|apply alter_is_Some]. Qed.

Lemma same_dom_refl s : same_dom s s.
Proof. done. Qed.

Lemma same_dom_trans s1 s2 s3 : same_dom s1 s2 -> same_dom s2 s3 -> same_dom s1 s3.
Proof. intros [A B] [C D]. split; intros i; [by rewrite C, A|by rewrite D, B]. Qed.

#[export] Hint Resolve same_dom_thread same_dom_object same_dom_refl : hle.
#[export] Hint Extern 3 (same_dom _ (sk_thread _ _ (sk_object _ _ _))) =>
  eapply same_dom_trans; [apply same_dom_object|apply same_dom_thread] : hle.

Lemma same_dom_add o t s : same_dom s (sk_add o t s).
Proof. unfold sk_add. destruct (is_mutex _); eauto with hle. Qed.

Lemma same_dom_remove o t s : same_dom s (sk_remove o t s).
Proof. unfold sk_remove. destruct (is_mutex _); eauto with hle. Qed.

Ltac dom := split; intros ?; cbn [sthreads sobjects sk_thread sk_object]; rewrite ?alter_is_Some; done.

Lemma same_dom_acquire o t s : same_dom s (sk_acquire o t s).
Proof.
  unfold sk_acquire, acquire_mutex.
  destruct (kind <$> sobjects s !! o) as [[l p h|m a|[] b|[] b i n c|]|]; cbv zeta; try destruct (_ =? _);
    try destruct (_ <=? _); dom.
Qed.

Lemma refs_sk_object s o g :
  refs_ok s ->
  (forall ob, sobjects s !! o = Some ob ->
     (forall t, t ∈ waiting_threads (g ob) -> is_Some (sthreads s !! t)) /\
     (forall l p t, kind (g ob) = Mutex l p (Some t) -> is_Some (sthreads s !! t)) /\
     (kind (g ob) = ThreadObject -> is_Some (sthreads s !! o))) ->
  refs_ok (sk_object o g s).
Proof.
  intros [R1 R2 R3 R4 R5] Hg.
  assert (Ho : forall o' ob', alter g o (sobjects s) !! o' = Some ob' ->
            (o' = o /\ exists ob, sobjects s !! o = Some ob /\ ob' = g ob) \/ sobjects s !! o' = Some ob').
  { intros o' ob'. destruct (decide (o' = o)) as [->|].
    - rewrite lookup_alter_eq. destruct (sobjects s !! o) as [ob|]; [|done]. intros [= <-]. left. eauto.
    - rewrite lookup_alter_ne by done. by right. }
  split; unfold sk_object; cbn [sthreads sobjects].
  - intros o' ob' t E Ht. apply Ho in E as [(-> & ob & E & ->)|E]; [destruct (Hg ob E) as (? & ? & ?); eauto|eauto].
  - intros o' ob' l p t E Ht. apply Ho in E as [(-> & ob & E & ->)|E]; [destruct (Hg ob E) as (? & ? & ?); eauto|eauto].
  - intros t th m E Hm. apply alter_is_Some. eauto.
  - intros t th m E Hm. apply alter_is_Some. eauto.
  - intros o' ob' E Hk. apply Ho in E as [(-> & ob & E & ->)|E]; [destruct (Hg ob E) as (? & ? & ?); eauto|eauto].
Qed.

Lemma refs_sk_thread s t g :
  refs_ok s ->
  (forall th, sthreads s !! t = Some th ->
     (forall m, m ∈ held_mutexes (g th) -> is_Some (sobjects s !! m)) /\
     (forall o, o ∈ wait_objects (g th) -> is_Some (sobjects s !! o))) ->
  refs_ok (sk_thread t g s).
Proof.
  intros [R1 R2 R3 R4 R5] Hg.
  assert (Ho : forall t' th', alter g t (sthreads s) !! t' = Some th' ->
            (t' = t /\ exists th, sthreads s !! t = Some th /\ th' = g th) \/ sthreads s !! t' = Some th').
  { intros t' th'. destruct (decide (t' = t)) as [->|].
    - rewrite lookup_alter_eq. destruct (sthreads s !! t) as [th|]; [|done]. intros [= <-]. left. eauto.
    - rewrite lookup_alter_ne by done. by right. }
  split; unfold sk_thread; cbn [sthreads sobjects].
  - intros. apply alter_is_Some. eauto.
  - intros. apply alter_is_Some. eauto.
  - intros t' th' m E Hm. apply Ho in E as [(-> & th & E & ->)|E]; [destruct (Hg th E); eauto|eauto].
  - intros t' th' m E Hm. apply Ho in E as [(-> & th & E & ->)|E]; [destruct (Hg th E); eauto|eauto].
  - intros. apply alter_is_Some. eauto.
Qed.

(** Changes of a thread that keep its references. *)
Lemma refs_sk_thread_keep s t g :
  refs_ok s -> (forall th, held_mutexes (g th) = held_mutexes th) ->
  (forall th, wait_objects (g th) = wait_objects th) -> refs_ok (sk_thread t g s).
Proof.
  intros Hr Hh Hw. apply refs_sk_thread; [done|]. intros th E. rewrite Hh, Hw.
  split; intros; [by eapply refs_held|by eapply refs_wait].
Qed.

(** A new kind for an object, its waiting list kept. *)
Lemma refs_sk_kind s o kd :
  refs_ok s -> (forall l p t, kd = Mutex l p (Some t) -> is_Some (sthreads s !! t)) -> kd <> ThreadObject ->
  refs_ok (sk_object o (set_kind kd) s).
Proof.
  intros Hr Hh Hk. apply refs_sk_object; [done|]. intros ob E. split_and!; simpl; try done.
  intros t Ht. by eapply refs_waiting.
Qed.

(** ** Lists without their first match *)

Lemma elem_of_erase_first t l x : NoDup l -> x ∈ erase_first t l <-> x ∈ l /\ x <> t.
Proof.
  induction l as [|y l IH]; simpl; intros Hn; [split; [by intros ?%elem_of_nil|by intros [?%elem_of_nil _]]|].
  apply list.NoDup_cons in Hn as [Hy Hn]. destruct (Z.eqb_spec y t) as [->|Hne].
  - split; [intros H; split; [mem_list|by intros ->]|intros [[->|H]%elem_of_cons Hx]; done].
  - rewrite !elem_of_cons, IH by done. intuition congruence.
Qed.

Lemma erase_first_subset t l x : x ∈ erase_first t l -> x ∈ l.
Proof.
  induction l as [|y l IH]; simpl; [done|]. destruct (Z.eqb_spec y t) as [->|]; [by intros; right|].
  rewrite !elem_of_cons. tauto.
Qed.

Lemma NoDup_erase_first t l : NoDup l -> NoDup (erase_first t l).
Proof.
  induction 1 as [|y l Hy Hn IH]; simpl; [constructor|]. destruct (y =? t); [done|].
  constructor; [|done]. by intros ?%erase_first_subset.
Qed.

Lemma erase_first_notin t l : t ∉ l -> erase_first t l = l.
Proof.
  induction l as [|y l IH]; simpl; intros H; [done|]. destruct (Z.eqb_spec y t) as [->|].
  - destruct H. by left.
  - f_equal. apply IH. intros Hin. apply H. by right.
Qed.

Lemma refs_add o t s : refs_ok s -> is_Some (sthreads s !! t) -> refs_ok (sk_add o t s).
Proof.
  intros Hr Ht. unfold sk_add. set (s' := sk_object o (add_waiting t) s).
  assert (refs_ok s').
  { apply refs_sk_object; [done|]. intros ob E. unfold add_waiting.
    destruct (existsb _ _); simpl; (split_and!; [intros t'|intros l p t' Ek; by eapply refs_holder|intros Ek; by eapply refs_thread]).
    - by apply (refs_waiting _ Hr o).
    - intros [Hin| ->%list_elem_of_singleton]%elem_of_app; [by eapply (refs_waiting _ Hr o)|done]. }
  destruct (is_mutex _); [|done]. by apply refs_sk_thread_keep.
Qed.

Lemma refs_remove o t s : refs_ok s -> refs_ok (sk_remove o t s).
Proof.
  intros Hr. unfold sk_remove. set (s' := sk_object o (drop_waiting t) s).
  assert (refs_ok s').
  { apply refs_sk_object; [done|]. intros ob E. simpl.
    split_and!; [intros t' Hin%erase_first_subset; by eapply (refs_waiting _ Hr o)|intros l p t' Ek; by eapply refs_holder|
      intros Ek; by eapply refs_thread]. }
  destruct (is_mutex _); [|done]. by apply refs_sk_thread_keep.
Qed.

Lemma refs_acquire o t s : refs_ok s -> is_Some (sthreads s !! t) -> refs_ok (sk_acquire o t s).
Proof.
  intros Hr Ht. unfold sk_acquire. destruct (sobjects s !! o) as [ob|] eqn:E; [|done]. cbn [fmap option_fmap option_map].
  assert (Hup : forall s, refs_ok s -> refs_ok (sk_object o count_up s)).
  { intros s' Hr'. apply refs_sk_object; [done|]. intros ob' E'. unfold count_up.
    destruct (kind ob') as [l p h|m a|r b|r b i n c|] eqn:Ek; simpl; split_and!; try done;
      try (intros t'; by apply (refs_waiting _ Hr' o)); rewrite ?Ek; try done.
    - intros l' p' t' [= _ _ ->]. by eapply (refs_holder _ Hr').
    - intros _. by eapply (refs_thread _ Hr'). }
  destruct (kind ob) as [l p h|m a|[] b|[] b i n c|] eqn:Ek; try done; try (by apply refs_sk_kind).
  - apply Hup. destruct (l =? 0); [|done]. unfold acquire_mutex. cbv zeta. apply refs_sk_kind; [|by intros ??? [= _ _ <-]; simpl; apply alter_is_Some|done].
    apply refs_sk_thread.
    + apply refs_sk_kind; [done|intros ??? [= _ _ ->]; by eapply (refs_holder _ Hr)|done].
    + intros th Eth. simpl. split; intros x; [rewrite elem_of_union, elem_of_singleton|];
        rewrite alter_is_Some; [intros [->|Hx]; [by rewrite E|]; by eapply (refs_held _ Hr)|by eapply (refs_wait _ Hr)].
  - destruct (a <=? 0); [done|]. by apply refs_sk_kind.
Qed.

(** ** Waking, on skeletons *)

(** Whether a waiter of an object can go on. *)
Definition ready_waiter (s : skeleton) (o t : Z) : bool :=
  negb (should_wait s o t) &&
  match sthreads s !! t with
  | Some th =>
      if bool_decide (status th = WaitSynchAll)
      then forallb (fun o' => negb (should_wait s o' t)) (wait_objects th) else true
  | None => false
  end.

(** What is acquired for a thread that wakes up because of an object. *)
Definition acquired (s : skeleton) (o t : Z) : list Z :=
  match sthreads s !! t with
  | Some th => if bool_decide (status th = WaitSynchAll) then wait_objects th else [o]
  | None => []
  end.

Definition sk_leave (t : Z) (s : skeleton) : skeleton :=
  match sthreads s !! t with
  | Some th => sk_thread t (set_wait_objects []) (fold_left (fun s o => sk_remove o t s) (wait_objects th) s)
  | None => s
  end.

(** The registers a woken thread finds. *)
Definition wake_registers (raw : Z) (o : Z) (th : Thread) : Thread :=
  match wakeup_callback th with
  | Some (SyncCallback true) => set_reg1 (last_index o 0 (wait_objects th)) (set_reg0 raw th)
  | Some (SyncCallback false) => set_reg0 raw th
  | None => th
  end.

Definition sk_ready (t : Z) (s : skeleton) : skeleton :=
  sk_thread t (fun th => set_status Ready (set_callback None th)) s.

(** A waiter takes what it waits for, is told so, leaves the waiting lists and
    becomes ready. *)
Definition sk_wake (raw o t : Z) (s : skeleton) : skeleton :=
  sk_ready t (sk_leave t (sk_thread t (wake_registers raw o)
    (fold_left (fun s o' => sk_acquire o' t s) (acquired s o t) s))).

(** Who waits for what: waiting lists and wait objects agree, without duplicates; a
    thread that can run has no wakeup callback. *)
Record wait_ok (s : skeleton) : Prop := {
  wait_in : forall o ob t, sobjects s !! o = Some ob -> t ∈ waiting_threads ob ->
    exists th, sthreads s !! t = Some th /\ o ∈ wait_objects th /\ is_synch_status (status th) = true;
  wait_once : forall o ob, sobjects s !! o = Some ob -> NoDup (waiting_threads ob);
  wait_all : forall t th o, sthreads s !! t = Some th -> o ∈ wait_objects th ->
    exists ob, sobjects s !! o = Some ob /\ t ∈ waiting_threads ob;
  wait_nodup : forall t th, sthreads s !! t = Some th -> status th = WaitSynchAll -> NoDup (wait_objects th);
  wait_callback : forall t th, sthreads s !! t = Some th -> status th = Ready \/ status th = Running ->
    wakeup_callback th = None
}.

(** ** What waking depends on *)

(** Two skeletons where every thread has the same status, wait objects and callback
    and every object the same waiting list. *)
Definition same_waits (s s' : skeleton) : Prop :=
  (forall t, (fun th => (status th, wait_objects th, wakeup_callback th)) <$> sthreads s' !! t =
             (fun th => (status th, wait_objects th, wakeup_callback th)) <$> sthreads s !! t) /\
  (forall o, waiting_threads <$> sobjects s' !! o = waiting_threads <$> sobjects s !! o).

#[export] Instance same_waits_equiv : Equivalence same_waits.
Proof.
  split; [done| |].
  - by intros s s' [A B].
  - intros s1 s2 s3 [A B] [C D]. split; intros i; [by rewrite C|by rewrite D].
Qed.

Lemma same_waits_thread s s' t th :
  same_waits s s' -> sthreads s !! t = Some th ->
  exists th', sthreads s' !! t = Some th' /\ status th' = status th /\ wait_objects th' = wait_objects th /\
    wakeup_callback th' = wakeup_callback th.
Proof.
  intros [A _] E. specialize (A t). rewrite E in A. destruct (sthreads s' !! t) as [th'|]; [|done].
  injection A as ? ? ?. eauto.
Qed.

Lemma same_waits_object s s' o ob :
  same_waits s s' -> sobjects s !! o = Some ob ->
  exists ob', sobjects s' !! o = Some ob' /\ waiting_threads ob' = waiting_threads ob.
Proof.
  intros [_ B] E. specialize (B o). rewrite E in B. destruct (sobjects s' !! o) as [ob'|]; [|done].
  injection B as ?. eauto.
Qed.

Lemma wait_ok_same s s' : same_waits s s' -> wait_ok s -> wait_ok s'.
Proof.
  intros Hs [W1 W2 W3 W4 W5]. assert (Hs' : same_waits s' s) by (by symmetry). split.
  - intros o ob t E Ht. destruct (same_waits_object _ _ _ _ Hs' E) as (ob1 & E1 & Hw). rewrite <-Hw in Ht.
    destruct (W1 o ob1 t E1 Ht) as (th & Et & Ho & Hst).
    destruct (same_waits_thread _ _ _ _ Hs Et) as (th' & Et' & Hst' & Hwo & _). exists th'. by rewrite Hst', Hwo.
  - intros o ob E. destruct (same_waits_object _ _ _ _ Hs' E) as (ob1 & E1 & <-). eauto.
  - intros t th o E Ho. destruct (same_waits_thread _ _ _ _ Hs' E) as (th1 & E1 & _ & Hw & _). rewrite <-Hw in Ho.
    destruct (W3 t th1 o E1 Ho) as (ob & Eo & Ht). destruct (same_waits_object _ _ _ _ Hs Eo) as (ob' & Eo' & Hw').
    exists ob'. by rewrite Hw'.
  - intros t th E Hst. destruct (same_waits_thread _ _ _ _ Hs' E) as (th1 & E1 & Hst1 & <- & _). eauto with congruence.
  - intros t th E Hst. destruct (same_waits_thread _ _ _ _ Hs' E) as (th1 & E1 & Hst1 & _ & <-). rewrite <-Hst1 in Hst. eauto.
Qed.

#[export] Instance wait_ok_proper : Proper (same_waits ==> iff) wait_ok.
Proof. intros s s' H. split; apply wait_ok_same; [done|by symmetry]. Qed.

Lemma same_waits_sk_thread s t g :
  (forall th, status (g th) = status th) -> (forall th, wait_objects (g th) = wait_objects th) ->
  (forall th, wakeup_callback (g th) = wakeup_callback th) -> same_waits s (sk_thread t g s).
Proof.
  intros Hs Hw Hc. split; intros i; [|done]. cbn [sk_thread sthreads]. destruct (decide (i = t)) as [->|].
  - rewrite lookup_alter_eq. destruct (sthreads s !! t); simpl; by rewrite ?Hs, ?Hw, ?Hc.
  - by rewrite lookup_alter_ne.
Qed.

Lemma same_waits_sk_object s o g :
  (forall ob, waiting_threads (g ob) = waiting_threads ob) -> same_waits s (sk_object o g s).
Proof.
  intros Hw. split; intros i; [done|]. cbn [sk_object sobjects]. destruct (decide (i = o)) as [->|].
  - rewrite lookup_alter_eq. destruct (sobjects s !! o); simpl; by rewrite ?Hw.
  - by rewrite lookup_alter_ne.
Qed.

Lemma waiting_count_up ob : waiting_threads (count_up ob) = waiting_threads ob.
Proof. unfold count_up. by destruct (kind ob). Qed.

Lemma same_waits_acquire o t s : same_waits s (sk_acquire o t s).
Proof.
  unfold sk_acquire, acquire_mutex.
  destruct (kind <$> sobjects s !! o) as [[l p h|m a|[] b|[] b i n c|]|]; cbv zeta; try done;
    try (by apply same_waits_sk_object).
  - etrans; [|apply same_waits_sk_object, waiting_count_up]. destruct (l =? 0); [|done].
    etrans; [|by apply same_waits_sk_object]. etrans; [|by apply same_waits_sk_thread]. by apply same_waits_sk_object.
  - destruct (a <=? 0); [done|]. by apply same_waits_sk_object.
Qed.

Lemma sk_object_ne o o' g s : o' <> o -> sobjects (sk_object o g s) !! o' = sobjects s !! o'.
Proof. intros. by apply lookup_alter_ne. Qed.

Lemma acquire_object_ne o o' t s : o' <> o -> sobjects (sk_acquire o t s) !! o' = sobjects s !! o'.
Proof.
  intros Hne. unfold sk_acquire, acquire_mutex.
  destruct (kind <$> sobjects s !! o) as [[l p h|m a|[] b|[] b i n c|]|]; cbv zeta; try done;
    try case_match; cbn [sk_thread sobjects]; rewrite ?sk_object_ne by done; try done.
  cbn [sk_thread sobjects]. by rewrite sk_object_ne.
Qed.

(** Acquiring one object leaves the others as available as they were. *)
Lemma should_wait_acquire o o' t t' s :
  o' <> o -> should_wait (sk_acquire o t s) o' t' = should_wait s o' t'.
Proof.
  intros Hne. unfold should_wait. rewrite acquire_object_ne by done. destruct (sobjects s !! o') as [ob|]; [|done].
  destruct (kind ob); try done. do 2 f_equal. apply bool_decide_ext.
  destruct (same_waits_acquire o t s) as [A _]. specialize (A o').
  destruct (sthreads s !! o'), (sthreads (sk_acquire o t s) !! o'); try done. injection A as A _ _. simpl. by rewrite A.
Qed.

(** ** Leaving the waiting lists *)

Definition remove_all (t : Z) (l : list Z) (s : skeleton) : skeleton := fold_left (fun s o => sk_remove o t s) l s.

Lemma sk_remove_object o o' t s :
  sobjects (sk_remove o t s) !! o' = (if bool_decide (o' = o) then drop_waiting t else id) <$> sobjects s !! o'.
Proof.
  assert (E : sobjects (sk_remove o t s) = alter (drop_waiting t) o (sobjects s)) by (unfold sk_remove; by case_match).
  rewrite E. case_bool_decide as H; [subst; by rewrite lookup_alter_eq|].
  rewrite lookup_alter_ne by done. by rewrite option_fmap_id.
Qed.

Lemma sk_remove_thread_ne o t t' s : t' <> t -> sthreads (sk_remove o t s) !! t' = sthreads s !! t'.
Proof. intros Hne. unfold sk_remove. case_match; [|done]. by apply lookup_alter_ne. Qed.

Lemma sk_remove_thread o t s :
  set_pending ∅ <$> sthreads (sk_remove o t s) !! t = set_pending ∅ <$> sthreads s !! t.
Proof.
  unfold sk_remove. case_match; [|done]. cbn [sk_thread sthreads sk_object]. rewrite lookup_alter_eq.
  by destruct (sthreads s !! t).
Qed.

Lemma remove_all_thread_ne l t t' s : t' <> t -> sthreads (remove_all t l s) !! t' = sthreads s !! t'.
Proof.
  intros Hne. revert s. induction l as [|o l IH]; intros s; [done|]. simpl. rewrite IH. by apply sk_remove_thread_ne.
Qed.

Lemma remove_all_thread l t s :
  set_pending ∅ <$> sthreads (remove_all t l s) !! t = set_pending ∅ <$> sthreads s !! t.
Proof. revert s. induction l as [|o l IH]; intros s; [done|]. simpl. rewrite IH. apply sk_remove_thread. Qed.

Lemma erase_first_idem t l : NoDup l -> erase_first t (erase_first t l) = erase_first t l.
Proof. intros Hn. apply erase_first_notin. rewrite elem_of_erase_first by done. tauto. Qed.

Lemma remove_all_object l t s o :
  (forall ob, sobjects s !! o = Some ob -> NoDup (waiting_threads ob)) ->
  sobjects (remove_all t l s) !! o = (if bool_decide (o ∈ l) then drop_waiting t else id) <$> sobjects s !! o.
Proof.
  revert s. induction l as [|o' l IH]; intros s Hn.
  { rewrite bool_decide_eq_false_2 by (by intros ?%elem_of_nil). by rewrite option_fmap_id. }
  simpl. rewrite IH, sk_remove_object.
  - destruct (sobjects s !! o) as [ob|] eqn:E; [|done]. simpl. f_equal.
    destruct (bool_decide_reflect (o = o')) as [->|Hne].
    + rewrite (bool_decide_eq_true_2 (o' ∈ o' :: l)) by mem_list. case_match; [|done].
      unfold drop_waiting, set_waiting. simpl. by rewrite erase_first_idem by eauto.
    + rewrite (bool_decide_ext (o ∈ o' :: l) (o ∈ l)); [done|]. rewrite elem_of_cons. tauto.
  - rewrite sk_remove_object. destruct (sobjects s !! o) as [ob|] eqn:E; [|done]. intros ob' [= <-].
    destruct (bool_decide (o = o')); simpl; [apply NoDup_erase_first|]; eauto.
Qed.

Lemma leave_object t s o :
  wait_ok s -> is_Some (sthreads s !! t) -> sobjects (sk_leave t s) !! o = drop_waiting t <$> sobjects s !! o.
Proof.
  intros Hw [th E]. unfold sk_leave. rewrite E. cbn [sk_thread sobjects].
  change (fold_left _ (wait_objects th) s) with (remove_all t (wait_objects th) s).
  rewrite remove_all_object by (intros; by eapply wait_once).
  case_bool_decide as Hin; [done|]. destruct (sobjects s !! o) as [ob|] eqn:Eo; [|done]. simpl. f_equal.
  unfold drop_waiting, set_waiting. rewrite erase_first_notin; [by destruct ob|]. intros Ht.
  destruct (wait_in _ Hw o ob t Eo Ht) as (th' & E' & Ho & _). congruence.
Qed.

Lemma leave_thread_ne t t' s : t' <> t -> sthreads (sk_leave t s) !! t' = sthreads s !! t'.
Proof.
  intros Hne. unfold sk_leave. destruct (sthreads s !! t) as [th|]; [|done]. cbn [sk_thread sthreads].
  rewrite lookup_alter_ne by done. by apply remove_all_thread_ne.
Qed.

Lemma leave_thread t s th :
  sthreads s !! t = Some th ->
  exists P, sthreads (sk_leave t s) !! t = Some (set_pending P (set_wait_objects [] th)).
Proof.
  intros E. unfold sk_leave. rewrite E. cbn [sk_thread sthreads]. rewrite lookup_alter_eq.
  pose proof (remove_all_thread (wait_objects th) t s) as H. rewrite E in H. unfold remove_all in H.
  destruct (sthreads (fold_left _ _ _) !! t) as [th'|]; [|done]. exists (pending_mutexes th').
  simpl. f_equal. destruct th, th'. by inversion H; subst.
Qed.

(** A thread that waits for nothing is in no waiting list. *)
Lemma wait_ok_idle s t th o ob :
  wait_ok s -> sthreads s !! t = Some th -> wait_objects th = [] -> sobjects s !! o = Some ob ->
  t ∉ waiting_threads ob.
Proof.
  intros Hw E Ht Eo Hin. destruct (wait_in _ Hw o ob t Eo Hin) as (th' & E' & Ho & _).
  replace th' with th in Ho by congruence. rewrite Ht in Ho. by apply elem_of_nil in Ho.
Qed.

Lemma wait_ok_thread s t g :
  wait_ok s -> (forall th, sthreads s !! t = Some th -> wait_objects th = [] /\ wait_objects (g th) = [] /\
    (status (g th) = Ready \/ status (g th) = Running -> wakeup_callback (g th) = None)) ->
  wait_ok (sk_thread t g s).
Proof.
  intros Hw Hg. pose proof Hw as [W1 W2 W3 W4 W5].
  assert (Hl : forall t' th', alter g t (sthreads s) !! t' = Some th' ->
            (t' <> t /\ sthreads s !! t' = Some th') \/ (t' = t /\ wait_objects th' = [] /\
              (status th' = Ready \/ status th' = Running -> wakeup_callback th' = None))).
  { intros t' th'. destruct (decide (t' = t)) as [->|Hne].
    - rewrite lookup_alter_eq. destruct (sthreads s !! t) as [th|]; [|done]. intros [= <-]. right. split; [done|].
      by destruct (Hg th) as (_ & ? & ?).
    - rewrite lookup_alter_ne by done. by left. }
  split; cbn [sk_thread sthreads sobjects]; [|done| | |].
  - intros o ob t' E Ht. destruct (W1 o ob t' E Ht) as (th' & E' & Ho & Hst). exists th'. split; [|done].
    rewrite lookup_alter_ne; [done|]. intros <-. destruct (Hg th' E') as (H0 & _). rewrite H0 in Ho.
    by apply elem_of_nil in Ho.
  - intros t' th' o E Ho. apply Hl in E as [[_ E]|(_ & E & _)]; [eauto|]. rewrite E in Ho. by apply elem_of_nil in Ho.
  - intros t' th' E Hst. apply Hl in E as [[_ E]|(_ & E & _)]; [eauto|]. rewrite E. constructor.
  - intros t' th' E Hst. apply Hl in E as [[_ E]|(_ & _ & E)]; eauto.
Qed.

Lemma wait_ok_leave t s : wait_ok s -> wait_ok (sk_leave t s).
Proof.
  intros Hw. destruct (sthreads s !! t) as [th|] eqn:E; [|by unfold sk_leave; rewrite E].
  destruct (leave_thread t s th E) as [P Et]. pose proof Hw as [W1 W2 W3 W4 W5].
  assert (Ho : forall o, sobjects (sk_leave t s) !! o = drop_waiting t <$> sobjects s !! o).
  { intros o. by apply leave_object. }
  assert (Hl : forall t' th', sthreads (sk_leave t s) !! t' = Some th' ->
            (t' <> t /\ sthreads s !! t' = Some th') \/ (t' = t /\ wait_objects th' = [] /\ status th' = status th /\ wakeup_callback th' = wakeup_callback th)).
  { intros t' th'. destruct (decide (t' = t)) as [->|Hne].
    - rewrite Et. intros [= <-]. by right.
    - rewrite leave_thread_ne by done. by left. }
  split.
  - intros o ob t'. rewrite Ho. destruct (sobjects s !! o) as [ob0|] eqn:Eo; [|done]. intros [= <-] Ht. simpl in Ht.
    apply elem_of_erase_first in Ht as [Ht Hne]; [|eauto]. rewrite leave_thread_ne by done. eauto.
  - intros o ob. rewrite Ho. destruct (sobjects s !! o) as [ob0|] eqn:Eo; [|done]. intros [= <-]. simpl.
    apply NoDup_erase_first. eauto.
  - intros t' th' o E' Hin. apply Hl in E' as [[Hne E']|(-> & E' & _)]; [|rewrite E' in Hin; by apply elem_of_nil in Hin].
    destruct (W3 t' th' o E' Hin) as (ob & Eo & Ht). exists (drop_waiting t ob). rewrite Ho, Eo. split; [done|].
    simpl. apply elem_of_erase_first; eauto.
  - intros t' th' E' Hst. apply Hl in E' as [[_ E']|(_ & E' & _)]; [eauto|]. rewrite E'. constructor.
  - intros t' th' E' Hst. apply Hl in E' as [[_ E']|(_ & _ & H1 & H2)]; [eauto|]. rewrite H2. rewrite H1 in Hst. eauto.
Qed.

Lemma refs_remove_all t l s : refs_ok s -> refs_ok (remove_all t l s).
Proof. revert s. induction l as [|o l IH]; intros s H; [done|]. apply IH. by apply refs_remove. Qed.

Lemma refs_leave t s : refs_ok s -> refs_ok (sk_leave t s).
Proof.
  intros Hr. unfold sk_leave. destruct (sthreads s !! t) as [th|]; [|done].
  pose proof (refs_remove_all t (wait_objects th) s Hr) as H.
  apply refs_sk_thread; [done|]. intros th' E'. simpl. split; [intros m; by apply (refs_held _ H t th')|by intros o ?%elem_of_nil].
Qed.

Definition acquire_all (t : Z) (l : list Z) (s : skeleton) : skeleton := fold_left (fun s o => sk_acquire o t s) l s.

Lemma same_waits_acquire_all t l s : same_waits s (acquire_all t l s).
Proof.
  revert s. induction l as [|o l IH]; intros s; [done|]. simpl. etrans; [apply (same_waits_acquire o t)|apply IH].
Qed.

Lemma same_dom_acquire_all t l s : same_dom s (acquire_all t l s).
Proof.
  revert s. induction l as [|o l IH]; intros s; [done|]. simpl.
  eapply same_dom_trans; [apply (same_dom_acquire o t)|apply IH].
Qed.

Lemma refs_acquire_all t l s : refs_ok s -> is_Some (sthreads s !! t) -> refs_ok (acquire_all t l s).
Proof.
  revert s. induction l as [|o l IH]; intros s H Ht; [done|]. apply IH; [by apply refs_acquire|].
  by apply same_dom_acquire.
Qed.

Lemma registers_keep raw o th :
  status (wake_registers raw o th) = status th /\ wait_objects (wake_registers raw o th) = wait_objects th /\
  held_mutexes (wake_registers raw o th) = held_mutexes th /\
  current_priority (wake_registers raw o th) = current_priority th /\
  nominal_priority (wake_registers raw o th) = nominal_priority th /\
  wakeup_callback (wake_registers raw o th) = wakeup_callback th.
Proof. unfold wake_registers. by destruct th as [? ? ? ? ? ? ? [[[]]|]]. Qed.

Lemma acquired_elem s o t o' :
  refs_ok s -> is_Some (sobjects s !! o) -> o' ∈ acquired s o t -> is_Some (sobjects s !! o').
Proof.
  intros Hr Ho. unfold acquired. destruct (sthreads s !! t) as [th|] eqn:E; [|by intros ?%elem_of_nil].
  case_bool_decide; [by apply (refs_wait _ Hr t)|by intros ->%list_elem_of_singleton].
Qed.

(** ** What waking does to the skeleton *)

Lemma same_waits_registers raw o t s : same_waits s (sk_thread t (wake_registers raw o) s).
Proof. apply same_waits_sk_thread; intros th; by destruct (registers_keep raw o th) as (? & ? & ? & ? & ? & ?). Qed.

Lemma refs_wake raw o t s : refs_ok s -> refs_ok (sk_wake raw o t s).
Proof.
  intros Hr. unfold sk_wake, sk_ready. apply refs_sk_thread_keep; [|done..]. apply refs_leave, refs_sk_thread_keep;
    [|intros th; by destruct (registers_keep raw o th) as (? & ? & ? & _)..].
  destruct (sthreads s !! t) as [th|] eqn:E; [apply refs_acquire_all; [done|by rewrite E]|].
  unfold acquired. by rewrite E.
Qed.

(** The skeleton just before the woken thread leaves the lists. *)
Lemma same_waits_taken raw o t s :
  same_waits s (sk_thread t (wake_registers raw o) (acquire_all t (acquired s o t) s)).
Proof. etrans; [apply same_waits_acquire_all|apply same_waits_registers]. Qed.

Lemma wake_waiting raw o t s o' :
  wait_ok s -> is_Some (sthreads s !! t) ->
  waiting_threads <$> sobjects (sk_wake raw o t s) !! o' =
  (fun ob => erase_first t (waiting_threads ob)) <$> sobjects s !! o'.
Proof.
  intros Hw Ht. pose proof (same_waits_taken raw o t s) as Hs.
  change (sobjects (sk_wake raw o t s)) with
    (sobjects (sk_leave t (sk_thread t (wake_registers raw o) (acquire_all t (acquired s o t) s)))).
  rewrite leave_object.
  - destruct Hs as [_ Hs]. specialize (Hs o'). destruct (sobjects s !! o') as [ob|] eqn:E;
      destruct (sobjects (sk_thread _ _ _) !! o') as [ob'|] eqn:E'; rewrite ?E, ?E' in Hs; try done.
    injection Hs as Hs. simpl. by rewrite Hs.
  - by rewrite <-Hs.
  - destruct Ht as [th E]. destruct (same_waits_thread _ _ _ _ Hs E) as (th' & -> & _). done.
Qed.

Lemma wait_ok_wake raw o t s : wait_ok s -> wait_ok (sk_wake raw o t s).
Proof.
  intros Hw. pose proof (same_waits_taken raw o t s) as Hs. rewrite Hs in Hw.
  unfold sk_wake, sk_ready. apply wait_ok_thread; [by apply wait_ok_leave|].
  fold (acquire_all t (acquired s o t) s). set (s' := sk_thread _ _ _) in *.
  intros th Eth. destruct (sthreads s' !! t) as [th'|] eqn:E'.
  - destruct (leave_thread t s' th' E') as [P E2]. rewrite E2 in Eth. by injection Eth as <-.
  - unfold sk_leave in Eth. rewrite E' in Eth. congruence.
Qed.

Lemma wake_thread_ne raw o t t' s : t' <> t -> sthreads (sk_wake raw o t s) !! t' = sthreads s !! t'.
Proof.
  intros Hne. unfold sk_wake, sk_ready. cbn [sk_thread sthreads]. rewrite lookup_alter_ne by done.
  rewrite leave_thread_ne by done. cbn [sk_thread sthreads]. rewrite lookup_alter_ne by done.
  generalize (acquired s o t). intros l. revert s. induction l as [|o' l IH]; intros s; [done|]. simpl. rewrite IH.
  unfold sk_acquire, acquire_mutex.
  destruct (kind <$> sobjects s !! o') as [[? ? ?|? ?|[] ?|[] ? ? ? ?|]|]; cbv zeta; try done; case_match; try done.
  cbn [sk_object sk_thread sthreads]. by rewrite lookup_alter_ne.
Qed.

(** A woken thread is ready. *)
Lemma wake_thread_ready raw o t s th :
  sthreads s !! t = Some th -> exists th', sthreads (sk_wake raw o t s) !! t = Some th' /\
    status th' = Ready /\ wait_objects th' = [] /\ wakeup_callback th' = None.
Proof.
  intros E. destruct (same_waits_thread _ _ _ _ (same_waits_taken raw o t s) E) as (th1 & E1 & _).
  destruct (leave_thread t _ _ E1) as [P E2]. unfold sk_wake, sk_ready. cbn [sk_thread sthreads].
  rewrite lookup_alter_eq. unfold acquire_all in E2. rewrite E2. simpl. eauto.
Qed.

Lemma length_erase_first t l : t ∈ l -> S (length (erase_first t l)) = length l.
Proof.
  induction l as [|x l IH]; [by intros ?%elem_of_nil|]. simpl. destruct (Z.eqb_spec x t) as [->|Hne]; [done|].
  intros [->|Hin]%elem_of_cons; [done|]. simpl. by rewrite IH.
Qed.

(** ** Who holds what *)

(** A mutex is held by at most one thread, which lists it; it is free exactly when
    its count is zero. *)
Record own_ok (s : skeleton) : Prop := {
  own_held : forall t th m, sthreads s !! t = Some th -> m ∈ held_mutexes th ->
    exists ob l p, sobjects s !! m = Some ob /\ kind ob = Mutex l p (Some t);
  own_holder : forall m ob l p t, sobjects s !! m = Some ob -> kind ob = Mutex l p (Some t) ->
    0 < l /\ exists th, sthreads s !! t = Some th /\ m ∈ held_mutexes th;
  own_free : forall m ob l p, sobjects s !! m = Some ob -> kind ob = Mutex l p None -> l = 0
}.

(** Two skeletons with the same kinds of objects and the same held mutexes. *)
Definition same_own (s s' : skeleton) : Prop :=
  (forall t, held_mutexes <$> sthreads s' !! t = held_mutexes <$> sthreads s !! t) /\
  (forall o, kind <$> sobjects s' !! o = kind <$> sobjects s !! o).

#[export] Instance same_own_equiv : Equivalence same_own.
Proof.
  split; [done| |].
  - by intros s s' [A B].
  - intros s1 s2 s3 [A B] [C D]. split; intros i; [by rewrite C|by rewrite D].
Qed.

Lemma own_ok_same s s' : same_own s s' -> own_ok s -> own_ok s'.
Proof.
  intros [A B] [O1 O2 O3].
  assert (HT : forall t th', sthreads s' !! t = Some th' ->
            exists th, sthreads s !! t = Some th /\ held_mutexes th' = held_mutexes th).
  { intros t th' E. specialize (A t). rewrite E in A. destruct (sthreads s !! t) as [th|]; [|done].
    injection A as A. eauto. }
  assert (HO : forall o ob', sobjects s' !! o = Some ob' ->
            exists ob, sobjects s !! o = Some ob /\ kind ob' = kind ob).
  { intros o ob' E. specialize (B o). rewrite E in B. destruct (sobjects s !! o) as [ob|]; [|done].
    injection B as B. eauto. }
  split.
  - intros t th' m E Hm. destruct (HT t th' E) as (th & Et & Hh). rewrite Hh in Hm.
    destruct (O1 t th m Et Hm) as (ob & l & p & Eo & Ek). specialize (B m). rewrite Eo in B.
    destruct (sobjects s' !! m) as [ob'|]; [|done]. injection B as B. exists ob', l, p. by rewrite B.
  - intros m ob' l p t E Ek. destruct (HO m ob' E) as (ob & Eo & Hk). rewrite Hk in Ek.
    destruct (O2 m ob l p t Eo Ek) as (Hl & th & Et & Hm). split; [done|]. specialize (A t). rewrite Et in A.
    destruct (sthreads s' !! t) as [th'|]; [|done]. injection A as A. exists th'. by rewrite A.
  - intros m ob' l p E Ek. destruct (HO m ob' E) as (ob & Eo & Hk). rewrite Hk in Ek. eauto.
Qed.

#[export] Instance own_ok_proper : Proper (same_own ==> iff) own_ok.
Proof. intros s s' H. split; apply own_ok_same; [done|by symmetry]. Qed.

Lemma same_own_thread s t g :
  (forall th, held_mutexes (g th) = held_mutexes th) -> same_own s (sk_thread t g s).
Proof.
  intros Hh. split; intros i; [|done]. cbn [sk_thread sthreads]. destruct (decide (i = t)) as [->|].
  - rewrite lookup_alter_eq. destruct (sthreads s !! t); simpl; by rewrite ?Hh.
  - by rewrite lookup_alter_ne.
Qed.

Lemma same_own_object s o g :
  (forall ob, kind (g ob) = kind ob) -> same_own s (sk_object o g s).
Proof.
  intros Hk. split; intros i; [done|]. cbn [sk_object sobjects]. destruct (decide (i = o)) as [->|].
  - rewrite lookup_alter_eq. destruct (sobjects s !! o); simpl; by rewrite ?Hk.
  - by rewrite lookup_alter_ne.
Qed.

Lemma same_own_add o t s : same_own s (sk_add o t s).
Proof.
  assert (same_own s (sk_object o (add_waiting t) s)).
  { apply same_own_object. intros ob. unfold add_waiting. by case_match. }
  unfold sk_add. case_match; [|done]. etrans; [done|]. by apply same_own_thread.
Qed.

Lemma same_own_remove o t s : same_own s (sk_remove o t s).
Proof.
  assert (same_own s (sk_object o (drop_waiting t) s)) by (by apply same_own_object).
  unfold sk_remove. case_match; [|done]. etrans; [done|]. by apply same_own_thread.
Qed.

Lemma same_own_leave t s : same_own s (sk_leave t s).
Proof.
  unfold sk_leave. destruct (sthreads s !! t) as [th|]; [|done]. etrans; [|by apply same_own_thread].
  generalize (wait_objects th). intros l. revert s. induction l as [|o l IH]; intros s; [done|].
  simpl. etrans; [apply (same_own_remove o t)|apply IH].
Qed.

(** Changes of an object that is not a mutex, to one that is not. *)
Lemma own_ok_other s o kd :
  own_ok s -> is_mutex (kind <$> sobjects s !! o) = false -> is_mutex (Some kd) = false ->
  own_ok (sk_object o (set_kind kd) s).
Proof.
  intros [O1 O2 O3] Hm Hkd.
  assert (HO : forall o' ob', alter (set_kind kd) o (sobjects s) !! o' = Some ob' -> is_mutex (Some (kind ob')) = true ->
            sobjects s !! o' = Some ob').
  { intros o' ob'. destruct (decide (o' = o)) as [->|].
    - rewrite lookup_alter_eq. destruct (sobjects s !! o); [|done]. intros [= <-] H. simpl in H. by destruct kd.
    - by rewrite lookup_alter_ne. }
  split; cbn [sk_object sthreads sobjects].
  - intros t th m E Hin. destruct (O1 t th m E Hin) as (ob & l & p & Eo & Ek). exists ob, l, p. split; [|done].
    rewrite lookup_alter_ne; [done|]. intros ->. rewrite Eo in Hm. simpl in Hm. by rewrite Ek in Hm.
  - intros m ob l p t E Ek. apply HO in E; [eauto|by rewrite Ek].
  - intros m ob l p E Ek. apply HO in E; [eauto|by rewrite Ek].
Qed.

Lemma mutex_acquired o t l h s : l = 0 -> forall i,
  sobjects (sk_object o count_up (acquire_mutex o t l h s)) !! i =
    (if bool_decide (i = o) then set_kind (Mutex 1 0 (Some t)) else id) <$> sobjects s !! i.
Proof.
  intros -> i. unfold acquire_mutex. cbn [sk_object sk_thread sobjects]. case_bool_decide as H.
  - subst. rewrite !lookup_alter_eq. by destruct (sobjects s !! o).
  - rewrite !lookup_alter_ne by done. by rewrite option_fmap_id.
Qed.

(** The first acquisition of a free mutex. *)
Lemma own_ok_first o t p s ob :
  own_ok s -> is_Some (sthreads s !! t) -> sobjects s !! o = Some ob -> kind ob = Mutex 0 p None ->
  own_ok (sk_object o count_up (acquire_mutex o t 0 None s)).
Proof.
  intros [O1 O2 O3] [th Et] Eo Ek. set (s' := sk_object o count_up _).
  assert (HTh : forall t', sthreads s' !! t' =
     (if bool_decide (t' = t) then (fun th => set_held ({[o]} ∪ held_mutexes th) th) else id) <$> sthreads s !! t').
  { intros t'. unfold s', acquire_mutex. cbn [sk_object sk_thread sthreads sobjects].
    case_bool_decide; subst; [by rewrite lookup_alter_eq|by rewrite lookup_alter_ne, option_fmap_id]. }
  pose proof (mutex_acquired o t 0 None s eq_refl) as HOb. fold s' in HOb.
  split.
  - intros t' th' m. rewrite HTh. destruct (sthreads s !! t') as [th0|] eqn:Et'; [|done]. intros [= <-] Hin.
    rewrite HOb. destruct (bool_decide_reflect (m = o)) as [->|Hm], (bool_decide_reflect (t' = t)) as [->|Hnt].
    + rewrite Eo. by eexists _, 1, 0.
    + destruct (O1 t' th0 o Et' Hin) as (ob' & l' & p' & Eo' & Ek'). congruence.
    + rewrite option_fmap_id. apply (O1 t th0 m Et'). simpl in Hin. set_solver.
    + rewrite option_fmap_id. by apply (O1 t' th0 m Et').
  - intros m ob' l' p' t'. rewrite HOb. destruct (sobjects s !! m) as [ob0|] eqn:Em; [|done]. intros [= <-].
    case_bool_decide as Hm.
    + intros [= <- <- <-]. split; [lia|]. rewrite HTh, bool_decide_eq_true_2, Et by done.
      eexists. split; [done|]. simpl. set_solver.
    + intros Ek'. destruct (O2 m ob0 l' p' t' Em Ek') as (Hl' & th0 & Et0 & Hin). split; [done|].
      rewrite HTh, Et0. eexists. split; [done|]. case_bool_decide; [simpl; set_solver|done].
  - intros m ob' l' p'. rewrite HOb. destruct (sobjects s !! m) as [ob0|] eqn:Em; [|done]. intros [= <-].
    case_bool_decide; [done|eauto].
Qed.

(** A change of the count of a held mutex. *)
Lemma own_ok_count o s ob l p h l' p' :
  own_ok s -> sobjects s !! o = Some ob -> kind ob = Mutex l p (Some h) -> 0 < l' ->
  own_ok (sk_object o (set_kind (Mutex l' p' (Some h))) s).
Proof.
  intros [O1 O2 O3] Eo Ek Hl'. destruct (O2 o ob l p h Eo Ek) as (Hlpos & Hth).
  assert (HO : forall i, sobjects (sk_object o (set_kind (Mutex l' p' (Some h))) s) !! i =
    (if bool_decide (i = o) then set_kind (Mutex l' p' (Some h)) else id) <$> sobjects s !! i).
  { intros i. cbn [sk_object sobjects].
    case_bool_decide; subst; [by rewrite lookup_alter_eq|by rewrite lookup_alter_ne, option_fmap_id]. }
  split.
  - intros t' th' m E Hin. destruct (O1 t' th' m E Hin) as (ob0 & l0 & p0 & E0 & Ek0). rewrite HO, E0.
    case_bool_decide; subst; [|by exists ob0, l0, p0].
    assert (h = t') as -> by congruence. by eexists _, _, _.
  - intros m ob' l0 p0 t'. rewrite HO. destruct (sobjects s !! m) as [ob0|] eqn:Em; [|done]. intros [= <-].
    case_bool_decide; subst; [|eauto]. simpl. intros [= <- <- <-]. split; [lia|done].
  - intros m ob' l0 p0. rewrite HO. destruct (sobjects s !! m) as [ob0|] eqn:Em; [|done]. intros [= <-].
    case_bool_decide; [done|eauto].
Qed.

Lemma own_ok_acquire o t s : own_ok s -> is_Some (sthreads s !! t) -> own_ok (sk_acquire o t s).
Proof.
  intros Hown Ht. pose proof Hown as [O1 O2 O3]. unfold sk_acquire.
  destruct (sobjects s !! o) as [ob|] eqn:Eo; [|done]. cbn [fmap option_fmap option_map].
  destruct (kind ob) as [l p h|m a|[] b|[] b i n c|] eqn:Ek; try done;
    try (apply own_ok_other; [done|by rewrite Eo; simpl; rewrite Ek|done]).
  - destruct (Z.eqb_spec l 0) as [->|Hl].
    + destruct h as [h|]; [destruct (O2 o ob 0 p h Eo Ek); lia|]. by eapply own_ok_first.
    + destruct h as [h|]; [|by rewrite (O3 o ob l p Eo Ek) in Hl].
      destruct (O2 o ob l p h Eo Ek) as [Hpos _].
      assert (sk_object o count_up s = sk_object o (set_kind (Mutex (l + 1) 0 (Some h))) s) as ->.
      { unfold sk_object. f_equal. apply map_eq. intros i. destruct (decide (i = o)) as [->|];
          [|by rewrite !lookup_alter_ne]. rewrite !lookup_alter_eq, Eo. simpl. unfold count_up. by rewrite Ek. }
      eapply own_ok_count; [done|done|done|lia].
  - destruct (a <=? 0); [done|]. apply own_ok_other; [done|by rewrite Eo; simpl; rewrite Ek|done].
Qed.

Lemma own_ok_acquire_all t l s : own_ok s -> is_Some (sthreads s !! t) -> own_ok (acquire_all t l s).
Proof.
  revert s. induction l as [|o l IH]; intros s H Ht; [done|]. apply IH; [by apply own_ok_acquire|].
  by apply same_dom_acquire.
Qed.

Lemma own_ok_wake raw o t s : own_ok s -> is_Some (sthreads s !! t) -> own_ok (sk_wake raw o t s).
Proof.
  intros Hown Ht. pose proof (own_ok_acquire_all t (acquired s o t) s Hown Ht) as H.
  unfold sk_wake, sk_ready. rewrite <-same_own_thread by done. rewrite <-same_own_leave.
  rewrite <-same_own_thread; [done|]. intros th. by destruct (registers_keep raw o th) as (? & ? & ? & _).
Qed.

(** ** Changes of one object *)

Lemma sk_object_at o f g s ob : sobjects s !! o = Some ob -> f ob = g ob -> sk_object o f s = sk_object o g s.
Proof.
  intros E H. unfold sk_object. f_equal. apply map_eq. intros i. destruct (decide (i = o)) as [->|].
  - rewrite !lookup_alter_eq, E. simpl. by rewrite H.
  - by rewrite !lookup_alter_ne.
Qed.

Lemma sk_object_id o s : sk_object o id s = s.
Proof. destruct s. unfold sk_object. f_equal. apply alter_id_map. Qed.

(** The three invariants of a skeleton. *)
Record sk_ok (s : skeleton) : Prop := {
  sk_refs : refs_ok s;
  sk_wait : wait_ok s;
  sk_own : own_ok s
}.

(** A new state for an event, a timer or a semaphore. *)
Lemma sk_ok_kind o kd s :
  sk_ok s -> is_mutex (kind <$> sobjects s !! o) = false -> is_mutex (Some kd) = false -> kd <> ThreadObject ->
  sk_ok (sk_object o (set_kind kd) s).
Proof.
  intros [Hr Hw Ho] Hm Hkd Ht. split.
  - apply refs_sk_kind; [done| |done]. by intros l p t ->.
  - by rewrite <-same_waits_sk_object.
  - by apply own_ok_other.
Qed.

(** A pulse object is reset. *)
Definition pulse_clear (ob : WaitObject) : WaitObject :=
  match kind ob with
  | Event Pulse _ => set_kind (Event Pulse false) ob
  | Timer Pulse _ i n c => set_kind (Timer Pulse false i n c) ob
  | _ => ob
  end.

Lemma sk_ok_pulse o s : sk_ok s -> sk_ok (sk_object o pulse_clear s).
Proof.
  intros Hok. destruct (sobjects s !! o) as [ob|] eqn:E.
  - assert (Hid : pulse_clear ob = id ob -> sk_ok (sk_object o pulse_clear s)).
    { intros H. by rewrite (sk_object_at o _ id s ob E H), sk_object_id. }
    destruct (kind ob) as [l p h|m a|r b|r b i n c|] eqn:Ek; try (apply Hid; unfold pulse_clear; by rewrite Ek);
      (destruct r; [apply Hid; unfold pulse_clear; by rewrite Ek..|]);
      [rewrite (sk_object_at o _ (set_kind (Event Pulse false)) s ob E)
      |rewrite (sk_object_at o _ (set_kind (Timer Pulse false i n c)) s ob E)];
      try (unfold pulse_clear; by rewrite Ek); (apply sk_ok_kind; [done|by rewrite E; simpl; rewrite Ek|done..]).
  - assert (sk_object o pulse_clear s = s) as ->; [|done]. destruct s as [ts os]. unfold sk_object. simpl in *. f_equal.
    apply map_eq. intros i. destruct (decide (i = o)) as [->|]; [by rewrite lookup_alter_eq, E|by rewrite lookup_alter_ne].
Qed.

(** ** Joining waiting lists *)

Definition add_all (t : Z) (l : list Z) (s : skeleton) : skeleton := fold_left (fun s o => sk_add o t s) l s.

Lemma sk_add_object o o' t s :
  sobjects (sk_add o t s) !! o' = (if bool_decide (o' = o) then add_waiting t else id) <$> sobjects s !! o'.
Proof.
  assert (E : sobjects (sk_add o t s) = alter (add_waiting t) o (sobjects s)) by (unfold sk_add; by case_match).
  rewrite E. case_bool_decide as H; [subst; by rewrite lookup_alter_eq|].
  by rewrite lookup_alter_ne, option_fmap_id by done.
Qed.

Lemma sk_add_thread_ne o t t' s : t' <> t -> sthreads (sk_add o t s) !! t' = sthreads s !! t'.
Proof. intros Hne. unfold sk_add. case_match; [|done]. by apply lookup_alter_ne. Qed.

Lemma sk_add_thread o t s :
  set_pending ∅ <$> sthreads (sk_add o t s) !! t = set_pending ∅ <$> sthreads s !! t.
Proof.
  unfold sk_add. case_match; [|done]. cbn [sk_thread sthreads sk_object]. rewrite lookup_alter_eq.
  by destruct (sthreads s !! t).
Qed.

Lemma add_all_thread_ne l t t' s : t' <> t -> sthreads (add_all t l s) !! t' = sthreads s !! t'.
Proof.
  intros Hne. revert s. induction l as [|o l IH]; intros s; [done|]. simpl. rewrite IH. by apply sk_add_thread_ne.
Qed.

Lemma add_all_thread l t s :
  set_pending ∅ <$> sthreads (add_all t l s) !! t = set_pending ∅ <$> sthreads s !! t.
Proof. revert s. induction l as [|o l IH]; intros s; [done|]. simpl. rewrite IH. apply sk_add_thread. Qed.

Lemma existsb_elem t l : existsb (Z.eqb t) l = bool_decide (t ∈ l).
Proof.
  apply eq_true_iff_eq. rewrite existsb_exists, bool_decide_eq_true. split.
  - by intros (x & Hx & ->%Z.eqb_eq); apply list_elem_of_In.
  - intros H. exists t. split; [by apply list_elem_of_In|apply Z.eqb_refl].
Qed.

Lemma elem_of_add_waiting t t' ob : t' ∈ waiting_threads (add_waiting t ob) <-> t' = t \/ t' ∈ waiting_threads ob.
Proof.
  unfold add_waiting. rewrite existsb_elem. case_bool_decide as H; [|simpl; rewrite elem_of_app, list_elem_of_singleton; tauto].
  split; [tauto|by intros [->|]].
Qed.

Lemma add_waiting_idem t ob : add_waiting t (add_waiting t ob) = add_waiting t ob.
Proof.
  unfold add_waiting at 1. rewrite existsb_elem, bool_decide_eq_true_2; [done|]. apply elem_of_add_waiting. by left.
Qed.

Lemma NoDup_add_waiting t ob : NoDup (waiting_threads ob) -> NoDup (waiting_threads (add_waiting t ob)).
Proof.
  intros H. unfold add_waiting. rewrite existsb_elem. case_bool_decide as Hin; [done|]. simpl. apply NoDup_app.
  split_and!; [done| |apply NoDup_singleton]. by intros x Hx ->%list_elem_of_singleton.
Qed.

Lemma add_all_object l t s o :
  sobjects (add_all t l s) !! o = (if bool_decide (o ∈ l) then add_waiting t else id) <$> sobjects s !! o.
Proof.
  revert s. induction l as [|o' l IH]; intros s.
  { rewrite bool_decide_eq_false_2 by (by intros ?%elem_of_nil). by rewrite option_fmap_id. }
  simpl. rewrite IH, sk_add_object. destruct (sobjects s !! o) as [ob|] eqn:E; [|done]. simpl. f_equal.
  destruct (bool_decide_reflect (o = o')) as [->|Hne].
  - rewrite (bool_decide_eq_true_2 (o' ∈ o' :: l)) by mem_list. case_match; [apply add_waiting_idem|done].
  - rewrite (bool_decide_ext (o ∈ o' :: l) (o ∈ l)); [done|]. rewrite elem_of_cons. tauto.
Qed.

(** A thread that cannot be waiting for an object has no wait objects. *)
Lemma wait_ok_no_objects s t th :
  wait_ok s -> sthreads s !! t = Some th -> is_synch_status (status th) = false -> wait_objects th = [].
Proof.
  intros Hw E Hs. destruct (wait_objects th) as [|o l] eqn:El; [done|].
  destruct (wait_all _ Hw t th o E) as (ob & Eo & Ht); [rewrite El; by left|].
  destruct (wait_in _ Hw o ob t Eo Ht) as (th' & E' & _ & Hs'). congruence.
Qed.

(** [s'] is [s] where the idle thread [t] has come to wait for [l]. *)
Record starts_waiting (t : Z) (l : list Z) (s s' : skeleton) : Prop := {
  sw_object : forall o, sobjects s' !! o =
    (if bool_decide (o ∈ l) then add_waiting t else id) <$> sobjects s !! o;
  sw_other : forall t', t' <> t -> sthreads s' !! t' = sthreads s !! t';
  sw_thread : exists th th', sthreads s !! t = Some th /\ sthreads s' !! t = Some th' /\
    is_synch_status (status th) = false /\ wait_objects th' = l /\ is_synch_status (status th') = true /\
    held_mutexes th' = held_mutexes th /\ (status th' = WaitSynchAll -> NoDup l)
}.

Lemma starts_waiting_own t l s s' : starts_waiting t l s s' -> same_own s s'.
Proof.
  intros [Ho Hne (th & th' & E & E' & _ & _ & _ & Hh & _)]. split; intros i.
  - destruct (decide (i = t)) as [->|Hi]; [rewrite E, E'; simpl; by rewrite Hh|by rewrite Hne].
  - rewrite Ho. destruct (sobjects s !! i) as [ob|]; [|done]. simpl. unfold add_waiting. repeat case_match; done.
Qed.

Lemma starts_waiting_wait t l s s' :
  wait_ok s -> (forall o, o ∈ l -> is_Some (sobjects s !! o)) -> starts_waiting t l s s' -> wait_ok s'.
Proof.
  intros Hw Hl [Ho Hne (th & th' & E & E' & Hs & Hwo & Hs' & _ & Hnd)]. pose proof Hw as [W1 W2 W3 W4 W5].
  pose proof (wait_ok_no_objects s t th Hw E Hs) as Hidle. split.
  - intros o ob t' Eo Ht. rewrite Ho in Eo. destruct (sobjects s !! o) as [ob0|] eqn:E0; [|done].
    injection Eo as <-. assert (t' = t /\ o ∈ l \/ t' ∈ waiting_threads ob0) as [[-> Hin]|Hin].
    { case_bool_decide; [apply elem_of_add_waiting in Ht as [->|]; auto|by right]. }
    + exists th'. by rewrite Hwo.
    + destruct (decide (t' = t)) as [->|Hnt]; [destruct (wait_ok_idle s t th o ob0 Hw E Hidle E0 Hin)|].
      rewrite Hne by done. eauto.
  - intros o ob Eo. rewrite Ho in Eo. destruct (sobjects s !! o) as [ob0|] eqn:E0; [|done].
    injection Eo as <-. case_bool_decide; [apply NoDup_add_waiting|]; eauto.
  - intros t' th2 o E2 Hin. destruct (decide (t' = t)) as [->|Hnt].
    + assert (th2 = th') as -> by congruence. rewrite Hwo in Hin. destruct (Hl o Hin) as [ob0 E0].
      exists (add_waiting t ob0). rewrite Ho, E0, bool_decide_eq_true_2 by done. split; [done|].
      apply elem_of_add_waiting. by left.
    + rewrite Hne in E2 by done. destruct (W3 t' th2 o E2 Hin) as (ob0 & E0 & Ht).
      eexists. rewrite Ho, E0. split; [done|]. case_bool_decide; [apply elem_of_add_waiting; by right|done].
  - intros t' th2 E2 Hst. destruct (decide (t' = t)) as [->|Hnt]; [|rewrite Hne in E2 by done; eauto].
    assert (th2 = th') as -> by congruence. rewrite Hwo. auto.
  - intros t' th2 E2 Hst. destruct (decide (t' = t)) as [->|Hnt]; [|rewrite Hne in E2 by done; eauto].
    assert (th2 = th') as -> by congruence. by destruct (status th'), Hst.
Qed.

Lemma starts_waiting_refs t l s s' :
  refs_ok s -> (forall o, o ∈ l -> is_Some (sobjects s !! o)) -> starts_waiting t l s s' -> refs_ok s'.
Proof.
  intros Hr Hl Hsw. pose proof Hsw as [Ho Hne (th & th' & E & E' & _ & Hwo & _ & Hh & _)].
  assert (Hd : forall t', is_Some (sthreads s !! t') -> is_Some (sthreads s' !! t')).
  { intros t'. destruct (decide (t' = t)) as [->|Hnt]; [by rewrite E'|by rewrite Hne]. }
  assert (Hdo : forall o, is_Some (sobjects s !! o) -> is_Some (sobjects s' !! o)).
  { intros o. rewrite Ho, fmap_is_Some. done. }
  assert (HO : forall o ob', sobjects s' !! o = Some ob' -> exists ob, sobjects s !! o = Some ob /\ kind ob' = kind ob /\
            (forall t', t' ∈ waiting_threads ob' -> t' = t \/ t' ∈ waiting_threads ob)).
  { intros o ob'. rewrite Ho. destruct (sobjects s !! o) as [ob|]; [|done]. intros [= <-]. exists ob.
    case_bool_decide; [|split_and!; auto]. split_and!; [done| |intros t'; by rewrite elem_of_add_waiting].
    unfold add_waiting. by case_match. }
  split.
  - intros o ob' t' Eo Ht. destruct (HO o ob' Eo) as (ob & E0 & _ & H). destruct (H t' Ht) as [->|H'].
    + by rewrite E'.
    + by apply Hd, (refs_waiting _ Hr o ob).
  - intros o ob' l' p t' Eo Ek. destruct (HO o ob' Eo) as (ob & E0 & Hk & _). rewrite Hk in Ek. eapply Hd, refs_holder; eauto.
  - intros t' th2 m E2 Hm. apply Hdo. destruct (decide (t' = t)) as [->|Hnt].
    + assert (th2 = th') as -> by congruence. rewrite Hh in Hm. by eapply (refs_held _ Hr).
    + rewrite Hne in E2 by done. by eapply (refs_held _ Hr).
  - intros t' th2 o E2 Hin. apply Hdo. destruct (decide (t' = t)) as [->|Hnt].
    + assert (th2 = th') as -> by congruence. rewrite Hwo in Hin. auto.
    + rewrite Hne in E2 by done. by eapply (refs_wait _ Hr).
  - intros o ob' Eo Ek. destruct (HO o ob' Eo) as (ob & E0 & Hk & _). rewrite Hk in Ek. eapply Hd, refs_thread; eauto.
Qed.

Lemma starts_waiting_ok t l s s' :
  sk_ok s -> (forall o, o ∈ l -> is_Some (sobjects s !! o)) -> starts_waiting t l s s' -> sk_ok s'.
Proof.
  intros [Hr Hw Ho] Hl H. split; [by eapply starts_waiting_refs|by eapply starts_waiting_wait|].
  by rewrite <-(starts_waiting_own _ _ _ _ H).
Qed.

(** ** Releasing a mutex *)

Definition sk_free (m t : Z) (s : skeleton) : skeleton :=
  sk_object m (set_kind (Mutex 0 0 None)) (sk_thread t (fun th => set_held (held_mutexes th ∖ {[m]}) th) s).

Lemma own_ok_free m t s ob l p :
  own_ok s -> sobjects s !! m = Some ob -> kind ob = Mutex l p (Some t) -> own_ok (sk_free m t s).
Proof.
  intros [O1 O2 O3] Eo Ek.
  assert (HT : forall t', sthreads (sk_free m t s) !! t' =
    (if bool_decide (t' = t) then (fun th => set_held (held_mutexes th ∖ {[m]}) th) else id) <$> sthreads s !! t').
  { intros t'. cbn [sk_free sk_object sk_thread sthreads].
    case_bool_decide; subst; [by rewrite lookup_alter_eq|by rewrite lookup_alter_ne, option_fmap_id]. }
  assert (HO : forall i, sobjects (sk_free m t s) !! i =
    (if bool_decide (i = m) then set_kind (Mutex 0 0 None) else id) <$> sobjects s !! i).
  { intros i. cbn [sk_free sk_object sk_thread sobjects].
    case_bool_decide; subst; [by rewrite lookup_alter_eq|by rewrite lookup_alter_ne, option_fmap_id]. }
  split.
  - intros t' th' m'. rewrite HT. destruct (sthreads s !! t') as [th0|] eqn:E0; [|done]. intros [= <-] Hin.
    assert (Hm : m' ∈ held_mutexes th0 /\ m' <> m).
    { destruct (bool_decide_reflect (t' = t)) as [->|Hne]; [simpl in Hin; set_solver|]. split; [done|]. intros ->.
      destruct (O1 t' th0 m E0 Hin) as (ob' & l' & p' & Eo' & Ek'). congruence. }
    destruct Hm as [Hin' Hne]. rewrite HO, bool_decide_eq_false_2, option_fmap_id by done. by eapply O1.
  - intros m' ob' l' p' t'. rewrite HO. destruct (sobjects s !! m') as [ob0|] eqn:E0; [|done]. intros [= <-].
    destruct (bool_decide_reflect (m' = m)) as [->|Hne]; [done|]. intros Ek'.
    destruct (O2 m' ob0 l' p' t' E0 Ek') as (Hl & th0 & Et & Hin). split; [done|]. rewrite HT, Et.
    eexists. split; [done|]. case_bool_decide; [simpl; set_solver|done].
  - intros m' ob' l' p'. rewrite HO. destruct (sobjects s !! m') as [ob0|] eqn:E0; [|done]. intros [= <-].
    destruct (bool_decide_reflect (m' = m)) as [->|Hne]; [by intros [= <- _]|eauto].
Qed.

Lemma sk_ok_free m t s ob l p :
  sk_ok s -> sobjects s !! m = Some ob -> kind ob = Mutex l p (Some t) -> sk_ok (sk_free m t s).
Proof.
  intros [Hr Hw Ho] Eo Ek. split; [| |by eapply own_ok_free].
  - apply refs_sk_kind; [|done..]. apply refs_sk_thread; [done|]. intros th E. simpl.
    split; [intros m' Hm'; eapply (refs_held _ Hr t th); [done|set_solver]|intros o; by apply (refs_wait _ Hr t th)].
  - unfold sk_free. rewrite <-same_waits_sk_object by done. by rewrite <-same_waits_sk_thread.
Qed.

Lemma sk_ok_count o s ob l p h l' p' :
  sk_ok s -> sobjects s !! o = Some ob -> kind ob = Mutex l p (Some h) -> 0 < l' ->
  sk_ok (sk_object o (set_kind (Mutex l' p' (Some h))) s).
Proof.
  intros [Hr Hw Ho] Eo Ek Hl. split; [|by rewrite <-same_waits_sk_object|by eapply own_ok_count].
  apply refs_sk_kind; [done| |done]. intros ? ? t [= _ _ ->]. by eapply (refs_holder _ Hr).
Qed.

(** ** Who runs *)

(** The same threads; none has started running. *)
Definition sched_le (s s' : skeleton) : Prop := forall t,
  match sthreads s !! t, sthreads s' !! t with
  | Some th, Some th' => status th' = Running -> status th = Running
  | None, None => True
  | _, _ => False
  end.

#[export] Instance sched_le_preorder : PreOrder sched_le.
Proof.
  split.
  - intros s t. by destruct (sthreads s !! t).
  - intros s1 s2 s3 H1 H2 t. specialize (H1 t). specialize (H2 t).
    destruct (sthreads s1 !! t), (sthreads s2 !! t), (sthreads s3 !! t); auto; done.
Qed.

Lemma sched_le_thread t g s :
  (forall th, status (g th) = Running -> status th = Running) -> sched_le s (sk_thread t g s).
Proof.
  intros H t'. cbn [sk_thread sthreads]. destruct (decide (t' = t)) as [->|Hne].
  - rewrite lookup_alter_eq. destruct (sthreads s !! t); simpl; auto.
  - rewrite lookup_alter_ne by done. by destruct (sthreads s !! t').
Qed.

Lemma sched_le_object o g s : sched_le s (sk_object o g s).
Proof. intros t. cbn [sk_object sthreads]. by destruct (sthreads s !! t). Qed.

#[export] Hint Resolve sched_le_thread sched_le_object : hle.

Lemma sched_le_waits s s' : same_waits s s' -> sched_le s s'.
Proof.
  intros [H _] t. specialize (H t). destruct (sthreads s !! t), (sthreads s' !! t); try done.
  by injection H as -> _ _.
Qed.

Lemma sched_le_waiting t l s s' : starts_waiting t l s s' -> sched_le s s'.
Proof.
  intros [_ Hne (th & th' & E & E' & _ & _ & Hs & _)] t'. destruct (decide (t' = t)) as [->|Hnt].
  - rewrite E, E'. intros Hr. by rewrite Hr in Hs.
  - rewrite Hne by done. by destruct (sthreads s !! t').
Qed.

Lemma sched_le_leave t s : sched_le s (sk_leave t s).
Proof.
  intros t'. destruct (decide (t' = t)) as [->|Hne].
  - destruct (sthreads s !! t) as [th|] eqn:E.
    + by destruct (leave_thread t s th E) as [P ->].
    + unfold sk_leave. by rewrite E, E.
  - rewrite leave_thread_ne by done. by destruct (sthreads s !! t').
Qed.

Lemma sched_le_wake raw o t s : sched_le s (sk_wake raw o t s).
Proof.
  unfold sk_wake, sk_ready. etrans; [|by apply sched_le_thread]. etrans; [|apply sched_le_leave].
  apply sched_le_waits, same_waits_taken.
Qed.

(** Timing out: a thread gives up waiting and becomes ready. *)
Lemma sk_ok_ready t s th :
  sk_ok s -> sthreads s !! t = Some th -> wait_objects th = [] -> sk_ok (sk_ready t s).
Proof.
  intros [Hr Hw Ho] E Hwo. split.
  - by apply refs_sk_thread_keep.
  - apply wait_ok_thread; [done|]. intros th' E'. by replace th' with th by congruence.
  - unfold sk_ready. by rewrite <-same_own_thread.
Qed.

Lemma sk_ok_leave t s : sk_ok s -> sk_ok (sk_leave t s).
Proof.
  intros [Hr Hw Ho]. split; [by apply refs_leave|by apply wait_ok_leave|by rewrite <-same_own_leave].
Qed.

Lemma sk_ok_wake raw o t s : sk_ok s -> is_Some (sthreads s !! t) -> sk_ok (sk_wake raw o t s).
Proof. intros [Hr Hw Ho] Ht. split; [by apply refs_wake|by apply wait_ok_wake|by apply own_ok_wake]. Qed.

Lemma sk_ok_acquire o t s : sk_ok s -> is_Some (sthreads s !! t) -> sk_ok (sk_acquire o t s).
Proof.
  intros [Hr Hw Ho] Ht. split; [by apply refs_acquire|by rewrite <-same_waits_acquire|by apply own_ok_acquire].
Qed.

(** A change of a thread that concerns none of the invariants. *)
Lemma sk_ok_thread t g s :
  sk_ok s -> (forall th, held_mutexes (g th) = held_mutexes th) -> (forall th, status (g th) = status th) ->
  (forall th, wait_objects (g th) = wait_objects th) -> (forall th, wakeup_callback (g th) = wakeup_callback th) ->
  sk_ok (sk_thread t g s).
Proof.
  intros [Hr Hw Ho] H1 H2 H3 H4. split; [by apply refs_sk_thread_keep|by rewrite <-same_waits_sk_thread|
    by rewrite <-same_own_thread].
Qed.

(** ** What never changes of an object *)

Definition shape (kd : ObjectKind) : ObjectKind :=
  match kd with
  | Mutex _ _ _ => Mutex 0 0 None
  | Semaphore m _ => Semaphore m 0
  | Event r _ => Event r false
  | Timer r _ i n c => Timer r false i n c
  | ThreadObject => ThreadObject
  end.

Definition same_shape (s s' : skeleton) : Prop :=
  forall o, (fun ob => shape (kind ob)) <$> sobjects s' !! o = (fun ob => shape (kind ob)) <$> sobjects s !! o.

#[export] Instance same_shape_equiv : Equivalence same_shape.
Proof.
  split; [done| |].
  - intros s s' A o. by rewrite A.
  - intros s1 s2 s3 A B o. by rewrite B.
Qed.

Lemma same_shape_object o g s :
  (forall ob, sobjects s !! o = Some ob -> shape (kind (g ob)) = shape (kind ob)) -> same_shape s (sk_object o g s).
Proof.
  intros H i. cbn [sk_object sobjects]. destruct (decide (i = o)) as [->|].
  - rewrite lookup_alter_eq. destruct (sobjects s !! o); simpl; by rewrite ?H.
  - by rewrite lookup_alter_ne.
Qed.

Lemma same_shape_thread t g s : same_shape s (sk_thread t g s).
Proof. done. Qed.

Lemma same_shape_kind o kd s ob :
  sobjects s !! o = Some ob -> shape kd = shape (kind ob) -> same_shape s (sk_object o (set_kind kd) s).
Proof. intros E H. apply same_shape_object. intros ob' E'. by replace ob' with ob by congruence. Qed.

Lemma same_shape_own s s' : same_own s s' -> same_shape s s'.
Proof.
  intros [_ H] o. specialize (H o). destruct (sobjects s !! o), (sobjects s' !! o); try done. injection H as H.
  simpl. by rewrite H.
Qed.

Lemma shape_count_up ob : shape (kind (count_up ob)) = shape (kind ob).
Proof. unfold count_up. by destruct (kind ob) eqn:E; simpl; rewrite ?E. Qed.

Lemma same_shape_acquire o t s : same_shape s (sk_acquire o t s).
Proof.
  unfold sk_acquire, acquire_mutex. destruct (sobjects s !! o) as [ob|] eqn:E; [|done].
  cbn [fmap option_fmap option_map]. destruct (kind ob) as [l p h|m a|[] b|[] b i n c|] eqn:Ek; cbv zeta; try done;
    try (eapply same_shape_kind; [done|by rewrite Ek]).
  - etrans; [|apply same_shape_object; intros; apply shape_count_up]. destruct (l =? 0); [|done].
    etrans; [|eapply same_shape_object].
    + etrans; [|apply same_shape_thread]. eapply same_shape_kind; [done|by rewrite Ek].
    + intros ob'. cbn [sk_thread sk_object sobjects]. rewrite lookup_alter_eq, E. by intros [= <-].
  - destruct (a <=? 0); [done|]. eapply same_shape_kind; [done|by rewrite Ek].
Qed.

Lemma same_shape_wake raw o t s : same_shape s (sk_wake raw o t s).
Proof.
  unfold sk_wake, sk_ready. etrans; [|apply same_shape_thread]. etrans; [|apply same_shape_own, same_own_leave].
  etrans; [|apply same_shape_thread]. generalize (acquired s o t). intros l. revert s.
  induction l as [|o' l IH]; intros s; [done|]. simpl. etrans; [apply (same_shape_acquire o' t)|apply IH].
Qed.

Lemma same_shape_pulse o s : same_shape s (sk_object o pulse_clear s).
Proof.
  apply same_shape_object. intros ob _. unfold pulse_clear. by destruct (kind ob) as [| |[]|[]|] eqn:E; simpl; rewrite ?E.
Qed.

Lemma same_shape_some s s' o ob :
  same_shape s s' -> sobjects s !! o = Some ob ->
  exists ob', sobjects s' !! o = Some ob' /\ shape (kind ob') = shape (kind ob).
Proof.
  intros H E. specialize (H o). rewrite E in H. destruct (sobjects s' !! o) as [ob'|]; [|done]. injection H as H. eauto.
Qed.

(** ** A new object *)

Definition sk_new (o : Z) (kd : ObjectKind) (s : skeleton) : skeleton :=
  mkSkel (sthreads s) (<[o := mkObject [] kd]> (sobjects s)).

Lemma sk_ok_new o kd s :
  sk_ok s -> sobjects s !! o = None -> kd <> ThreadObject ->
  (forall l p h, kd = Mutex l p h -> l = 0 /\ h = None) -> sk_ok (sk_new o kd s).
Proof.
  intros [[R1 R2 R3 R4 R5] [W1 W2 W3 W4 W5] [O1 O2 O3]] Hn Ht Hm.
  assert (HO : forall o' ob', <[o := mkObject [] kd]> (sobjects s) !! o' = Some ob' ->
            (o' = o /\ ob' = mkObject [] kd) \/ sobjects s !! o' = Some ob').
  { intros o' ob' [[<- <-]|[_ H]]%lookup_insert_Some; auto. }
  assert (HI : forall o' ob', sobjects s !! o' = Some ob' -> <[o := mkObject [] kd]> (sobjects s) !! o' = Some ob').
  { intros o' ob' E. rewrite lookup_insert_ne; [done|]. intros <-. congruence. }
  split; split; unfold sk_new; cbn [sthreads sobjects]; try done.
  - intros o' ob' t [[-> ->]|E]%HO; [by intros ?%elem_of_nil|eauto].
  - intros o' ob' l p t [[-> ->]|E]%HO; [intros Ek; by destruct (Hm _ _ _ Ek)|eauto].
  - intros t th m E Hin. destruct (R3 t th m E Hin) as [ob Eo]. eauto.
  - intros t th o' E Hin. destruct (R4 t th o' E Hin) as [ob Eo]. eauto.
  - intros o' ob' [[-> ->]|E]%HO; [done|eauto].
  - intros o' ob' t [[-> ->]|E]%HO; [by intros ?%elem_of_nil|eauto].
  - intros o' ob' [[-> ->]|E]%HO; [constructor|eauto].
  - intros t th o' E Hin. destruct (W3 t th o' E Hin) as (ob & Eo & H). eauto.
  - intros t th m E Hin. destruct (O1 t th m E Hin) as (ob & l & p & Eo & Ek). eauto 6.
  - intros m ob l p t [[-> ->]|E]%HO Ek; [by destruct (Hm _ _ _ Ek)|eauto].
  - intros m ob l p [[-> ->]|E]%HO Ek; [by destruct (Hm _ _ _ Ek)|eauto].
Qed.

Lemma sk_thread_compose t f g s : sk_thread t g (sk_thread t f s) = sk_thread t (g ∘ f) s.
Proof.
  unfold sk_thread. simpl. f_equal. apply map_eq. intros i. destruct (decide (i = t)) as [->|];
    [|by rewrite !lookup_alter_ne]. rewrite !lookup_alter_eq. by destruct (sthreads s !! t).
Qed.

Lemma starts_waiting_intro t l f g s th :
  sthreads s !! t = Some th -> is_synch_status (status th) = false ->
  (forall P, let th' := g (set_pending P (f th)) in
     wait_objects th' = l /\ is_synch_status (status th') = true /\ held_mutexes th' = held_mutexes th /\
     (status th' = WaitSynchAll -> NoDup l)) ->
  starts_waiting t l s (sk_thread t g (add_all t l (sk_thread t f s))).
Proof.
  intros E Hs Hg. assert (Hf : sthreads (sk_thread t f s) !! t = Some (f th)).
  { cbn [sk_thread sthreads]. by rewrite lookup_alter_eq, E. }
  assert (Hne : forall t', t' <> t -> sthreads (sk_thread t f s) !! t' = sthreads s !! t').
  { intros t' Hne. by apply lookup_alter_ne. }
  assert (Ho : sobjects (sk_thread t f s) = sobjects s) by done.
  pose proof (add_all_thread l t (sk_thread t f s)) as Ha. set (s1 := sk_thread t f s) in *. rewrite Hf in Ha.
  destruct (sthreads (add_all t l s1) !! t) as [th1|] eqn:E1; [|done]. apply (inj Some) in Ha.
  assert (th1 = set_pending (pending_mutexes th1) (f th)) as Hth.
  { destruct th1, (f th). unfold set_pending in *. simpl in *. by inversion Ha. }
  split.
  - intros o. cbn [sk_thread sobjects]. by rewrite add_all_object, Ho.
  - intros t' Hne'. cbn [sk_thread sthreads]. rewrite lookup_alter_ne by done.
    by rewrite add_all_thread_ne, Hne.
  - destruct (Hg (pending_mutexes th1)) as (G1 & G2 & G3 & G4). rewrite <-Hth in *.
    exists th, (g th1). split_and!; try done. cbn [sk_thread sthreads]. by rewrite lookup_alter_eq, E1.
Qed.

Lemma refs_add_all t l s : refs_ok s -> is_Some (sthreads s !! t) -> refs_ok (add_all t l s).
Proof.
  revert s. induction l as [|o l IH]; intros s H Ht; [done|]. apply IH; [by apply refs_add|].
  by apply same_dom_add.
Qed.

Lemma same_dom_add_all t l s : same_dom s (add_all t l s).
Proof.
  revert s. induction l as [|o l IH]; intros s; [done|]. simpl.
  eapply same_dom_trans; [apply (same_dom_add o t)|apply IH].
Qed.

(** ** A new thread *)

Definition sk_new_thread (t : Z) (th : Thread) (s : skeleton) : skeleton :=
  mkSkel (<[t := th]> (sthreads s)) (<[t := mkObject [] ThreadObject]> (sobjects s)).

Lemma sk_ok_new_thread t th s :
  sk_ok s -> sthreads s !! t = None -> sobjects s !! t = None ->
  held_mutexes th = ∅ -> wait_objects th = [] -> wakeup_callback th = None -> sk_ok (sk_new_thread t th s).
Proof.
  intros [[R1 R2 R3 R4 R5] [W1 W2 W3 W4 W5] [O1 O2 O3]] Hn Hno Hh Hwo Hcb.
  assert (HO : forall o' ob', <[t := mkObject [] ThreadObject]> (sobjects s) !! o' = Some ob' ->
            (o' = t /\ ob' = mkObject [] ThreadObject) \/ sobjects s !! o' = Some ob').
  { intros o' ob' [[<- <-]|[_ H]]%lookup_insert_Some; auto. }
  assert (HI : forall o' ob', sobjects s !! o' = Some ob' -> <[t := mkObject [] ThreadObject]> (sobjects s) !! o' = Some ob').
  { intros o' ob' E. rewrite lookup_insert_ne; [done|]. intros <-. congruence. }
  assert (HT : forall t' th', <[t := th]> (sthreads s) !! t' = Some th' -> (t' = t /\ th' = th) \/ sthreads s !! t' = Some th').
  { intros t' th' [[<- <-]|[_ H]]%lookup_insert_Some; auto. }
  assert (HIT : forall t' th', sthreads s !! t' = Some th' -> <[t := th]> (sthreads s) !! t' = Some th').
  { intros t' th' E. rewrite lookup_insert_ne; [done|]. intros <-. congruence. }
  assert (HIS : forall t', is_Some (sthreads s !! t') -> is_Some (<[t := th]> (sthreads s) !! t')).
  { intros t' [th' E]. eauto. }
  split; split; unfold sk_new_thread; cbn [sthreads sobjects].
  - intros o' ob' t' [[-> ->]|E]%HO Hin; [by apply elem_of_nil in Hin|eauto].
  - intros o' ob' l p t' [[-> ->]|E]%HO Ek; [done|eauto].
  - intros t' th' m [[-> ->]|E]%HT Hin; [rewrite Hh in Hin; set_solver|]. destruct (R3 _ _ _ E Hin). eauto.
  - intros t' th' o [[-> ->]|E]%HT Hin; [rewrite Hwo in Hin; by apply elem_of_nil in Hin|]. destruct (R4 _ _ _ E Hin). eauto.
  - intros o' ob' [[-> ->]|E]%HO Ek; [by rewrite lookup_insert_eq|eauto].
  - intros o' ob' t' [[-> ->]|E]%HO Hin; [by apply elem_of_nil in Hin|]. destruct (W1 _ _ _ E Hin) as (th' & E' & H). eauto.
  - intros o' ob' [[-> ->]|E]%HO; [constructor|eauto].
  - intros t' th' o [[-> ->]|E]%HT Hin; [rewrite Hwo in Hin; by apply elem_of_nil in Hin|].
    destruct (W3 _ _ _ E Hin) as (ob & Eo & H). eauto.
  - intros t' th' [[-> ->]|E]%HT Hst; [rewrite Hwo; constructor|eauto].
  - intros t' th' [[-> ->]|E]%HT Hst; [done|eauto].
  - intros t' th' m [[-> ->]|E]%HT Hin; [rewrite Hh in Hin; set_solver|].
    destruct (O1 _ _ _ E Hin) as (ob & l & p & Eo & Ek). eauto 6.
  - intros m ob l p t' [[-> ->]|E]%HO Ek; [done|]. destruct (O2 _ _ _ _ _ E Ek) as (Hl & th' & E' & Hin). eauto.
  - intros m ob l p [[-> ->]|E]%HO Ek; [done|eauto].
Qed.

(** A new status for a thread that waits for nothing and has no callback. *)
Lemma sk_ok_idle_status s t th st :
  sk_ok s -> sthreads s !! t = Some th -> wait_objects th = [] -> wakeup_callback th = None ->
  sk_ok (sk_thread t (set_status st) s).
Proof.
  intros [Hr Hw Ho] E Hwo Hcb. split.
  - by apply refs_sk_thread_keep.
  - apply wait_ok_thread; [done|]. intros th' E'. by assert (th' = th) as -> by congruence.
  - by rewrite <-same_own_thread.
Qed.
