(* ===== verification/Sync.v ===== *)
(** * Sync: the synchronisation objects of the kernel, verified

    The kernel of [Kernel] is related to its [Skeleton]: each operation acts on the
    skeleton as a pure function and keeps the ready queue in step with the threads.
    Waking, waiting and releasing are then verified against the skeleton. *)
From stdpp Require Import gmap.
From S2P Require Import Prelude Result Kernel Skeleton.

Local Open Scope Z_scope.

Section Sync.
Context {Q : Type} `{!ReadyQueue Q} `{!ReadyQueueLaws Q} {T : Type} `{!TimingService T}.
Variable result_raw : Result -> Z.

Local Abbreviation K := (@Kernel Q T).

Definition skel (k : K) : skeleton := mkSkel (stripT <$> threads k) (stripO <$> objects k).

Lemma skel_thread (k : K) t : sthreads (skel k) !! t = stripT <$> threads k !! t.
Proof. apply lookup_fmap. Qed.

Lemma skel_object (k : K) o : sobjects (skel k) !! o = stripO <$> objects k !! o.
Proof. apply lookup_fmap. Qed.

Lemma skel_thread_some (k : K) t : is_Some (sthreads (skel k) !! t) -> exists th, threads k !! t = Some th.
Proof. rewrite skel_thread, fmap_is_Some. by intros [th H]; exists th. Qed.

Lemma skel_object_some (k : K) o : is_Some (sobjects (skel k) !! o) -> exists ob, objects k !! o = Some ob.
Proof. rewrite skel_object, fmap_is_Some. by intros [th H]; exists th. Qed.

(** The ready queue holds exactly the ready threads, once, under their priority;
    inheritance only improves a priority. *)
Record ready_ok (k : K) : Prop := {
  ready_in : forall p t, t ∈ rq_list (ready_queue k) p ->
    exists th, threads k !! t = Some th /\ status th = Ready /\ current_priority th = p;
  ready_all : forall t th, threads k !! t = Some th -> status th = Ready ->
    t ∈ rq_list (ready_queue k) (current_priority th);
  ready_once : forall p, NoDup (rq_list (ready_queue k) p);
  ready_prio : forall t th, threads k !! t = Some th ->
    current_priority th <= nominal_priority th <= ThreadPrioLowest
}.

(** [m] runs to its end from [k], acts on the skeleton as [F] and keeps the ready
    queue right. *)
Definition runs (m : op K unit) (k : K) (F : skeleton -> skeleton) : Prop :=
  exists k', m k = Done k' tt /\ skel k' = F (skel k) /\ (ready_ok k -> ready_ok k') /\
    current_thread k' = current_thread k.

Lemma runs_ret k : runs (ret tt) k id.
Proof. by exists k. Qed.

Lemma runs_bind (m n : op K unit) k F G :
  runs m k F -> (forall k', skel k' = F (skel k) -> runs n k' G) ->
  runs (bind m (fun _ => n)) k (G ∘ F).
Proof.
  intros (k1 & E1 & S1 & R1 & C1) Hn. destruct (Hn k1 S1) as (k2 & E2 & S2 & R2 & C2).
  exists k2. split_and!.
  - by erewrite bind_Done by exact E1.
  - by rewrite S2, S1.
  - auto.
  - congruence.
Qed.

Lemma runs_ext m k F G : runs m k F -> F (skel k) = G (skel k) -> runs m k G.
Proof. intros (k1 & E1 & S1 & R1 & C1) H. exists k1. by rewrite <-H. Qed.

Lemma thread_Done (k : K) t th : threads k !! t = Some th -> thread t k = Done k th.
Proof. intros E. unfold thread. by rewrite E. Qed.

Lemma object_Done (k : K) o ob : objects k !! o = Some ob -> object o k = Done k ob.
Proof. intros E. unfold object. by rewrite E. Qed.

(** A step that reads the state first. *)
Lemma runs_read {A} (m : op K A) (n : A -> op K unit) k a F :
  m k = Done k a -> runs (n a) k F -> runs (bind m n) k F.
Proof. intros E (k1 & E1 & H). exists k1. by erewrite bind_Done by exact E. Qed.

Lemma runs_modify_object k o ob f g :
  objects k !! o = Some ob -> stripO (f ob) = g (stripO ob) ->
  runs (modify_object o f) k (sk_object o g).
Proof.
  intros E Hg. exists (set_objects (<[o := f ob]> (objects k)) k). split_and!.
  - unfold modify_object. by erewrite bind_Done by (by apply object_Done).
  - unfold skel, sk_object. simpl. f_equal. rewrite fmap_insert, Hg. apply map_eq. intros i.
    destruct (decide (i = o)) as [->|].
    + rewrite lookup_insert_eq, lookup_alter_eq, lookup_fmap, E. done.
    + by rewrite lookup_insert_ne, lookup_alter_ne by done.
  - intros [H1 H2 H3 H4]. by split.
  - done.
Qed.

Lemma skel_insert (k : K) t th g :
  threads k !! t = Some th ->
  alter g t (stripT <$> threads k) = <[t := g (stripT th)]> (stripT <$> threads k).
Proof.
  intros E. apply map_eq. intros i. destruct (decide (i = t)) as [->|].
  - by rewrite lookup_insert_eq, lookup_alter_eq, lookup_fmap, E.
  - by rewrite lookup_insert_ne, lookup_alter_ne by done.
Qed.

(** Changes of a thread that leave its status and priority alone. *)
Lemma runs_modify_thread k t th f g :
  threads k !! t = Some th -> stripT (f th) = g (stripT th) ->
  (status (f th) = status th \/ (status th <> Ready /\ status (f th) <> Ready)) ->
  current_priority (f th) = current_priority th -> nominal_priority (f th) = nominal_priority th ->
  runs (modify_thread t f) k (sk_thread t g).
Proof.
  intros E Hg Hs Hp Hn. exists (set_threads (<[t := f th]> (threads k)) k). split_and!.
  - unfold modify_thread. by erewrite bind_Done by (by apply thread_Done).
  - unfold skel, sk_thread. simpl. f_equal. by rewrite fmap_insert, Hg, (skel_insert k t th).
  - intros [H1 H2 H3 H4]. split; simpl.
    + intros p t' Hin. destruct (H1 p t' Hin) as (th' & E' & Hr & Hp').
      destruct (decide (t' = t)) as [->|].
      * rewrite lookup_insert_eq. assert (th' = th) as -> by congruence. exists (f th).
        split_and!; [done| |congruence]. destruct Hs as [Hs|[Hs _]]; congruence.
      * rewrite lookup_insert_ne by done. eauto.
    + intros t' th'. destruct (decide (t' = t)) as [->|].
      * rewrite lookup_insert_eq. intros [= <-] Hr. rewrite Hp. apply H2; [done|].
        destruct Hs as [Hs|[_ Hs]]; congruence.
      * rewrite lookup_insert_ne by done. apply H2.
    + done.
    + intros t' th'. destruct (decide (t' = t)) as [->|].
      * rewrite lookup_insert_eq. intros [= <-]. rewrite Hp, Hn. eauto.
      * rewrite lookup_insert_ne by done. apply H4.
  - done.
Qed.

Lemma runs_PrepareReschedule k : runs PrepareReschedule k id.
Proof. eexists. split_and!; [done|done| |done]. intros [H1 H2 H3 H4]. by split. Qed.

Lemma runs_timing k f : runs (modify_timing f) k id.
Proof. eexists. split_and!; [done|done| |done]. intros [H1 H2 H3 H4]. by split. Qed.

(** ** Priorities *)

Lemma skel_same_strip (k : K) t th f :
  threads k !! t = Some th -> stripT (f th) = stripT th ->
  stripT <$> <[t := f th]> (threads k) = stripT <$> threads k.
Proof.
  intros E Hf. rewrite fmap_insert, Hf. apply insert_id. by rewrite lookup_fmap, E.
Qed.

(** A new priority for a thread: the queue moves it when it is ready. *)
Lemma ready_move k t th p f :
  threads k !! t = Some th -> status th = Ready -> status (f th) = Ready -> current_priority (f th) = p ->
  p <= nominal_priority (f th) -> nominal_priority (f th) <= ThreadPrioLowest -> ready_ok k ->
  ready_ok (set_threads (<[t := f th]> (threads k)) (set_queue (rq_move t (current_priority th) p (ready_queue k)) k)).
Proof.
  intros E Hr Hfr Hfp Hle Hlo [H1 H2 H3 H4].
  assert (Hmem : forall p' t', t' ∈ rq_list (rq_move t (current_priority th) p (ready_queue k)) p' <->
            (t' <> t /\ t' ∈ rq_list (ready_queue k) p') \/ (t' = t /\ p' = p)).
  { assert (Hrm : forall p' t', t' ∈ rq_list (rq_remove (current_priority th) t (ready_queue k)) p' <->
              t' <> t /\ t' ∈ rq_list (ready_queue k) p').
    { intros p' t'. rewrite rq_list_remove. destruct (Z.eqb_spec p' (current_priority th)) as [->|Hne].
      - rewrite elem_of_erase_first by done. tauto.
      - split; [intros Hin; split; [|done]|tauto]. intros ->.
        destruct (H1 _ _ Hin) as (th' & E' & _ & Hp'). congruence. }
    intros p' t'. rewrite rq_list_move, rq_list_push_back. destruct (Z.eqb_spec p' p) as [->|Hne].
    - rewrite elem_of_app, list_elem_of_singleton, Hrm. tauto.
    - rewrite Hrm. tauto. }
  split; simpl.
  - intros p' t' Hin. apply Hmem in Hin as [[Hne Hin]|[-> ->]].
    + rewrite lookup_insert_ne by done. eauto.
    + rewrite lookup_insert_eq. eauto.
  - intros t' th'. destruct (decide (t' = t)) as [->|].
    + rewrite lookup_insert_eq. intros [= <-] _. apply Hmem. by right.
    + rewrite lookup_insert_ne by done. intros E' Hr'. apply Hmem. left. auto.
  - intros p'. rewrite rq_list_move, rq_list_push_back.
    assert (Hnd : forall p', NoDup (rq_list (rq_remove (current_priority th) t (ready_queue k)) p')).
    { intros p2. rewrite rq_list_remove. destruct (p2 =? _); [by apply NoDup_erase_first|done]. }
    destruct (Z.eqb_spec p' p) as [->|]; [|done]. apply NoDup_app. split_and!; [done| |apply NoDup_singleton].
    intros x Hx ->%list_elem_of_singleton. rewrite rq_list_remove in Hx.
    destruct (Z.eqb_spec p (current_priority th)).
    + by apply elem_of_erase_first in Hx as [_ ?].
    + destruct (H1 _ _ Hx) as (th' & E' & _ & Hp'). congruence.
  - intros t' th'. destruct (decide (t' = t)) as [->|].
    + rewrite lookup_insert_eq. intros [= <-]. lia.
    + rewrite lookup_insert_ne by done. apply H4.
Qed.

(** Threads that are not ready are not in the queue. *)
Lemma ready_other k t th th' q :
  threads k !! t = Some th -> status th <> Ready -> status th' <> Ready ->
  current_priority th' <= nominal_priority th' <= ThreadPrioLowest ->
  (forall p, rq_list q p = rq_list (ready_queue k) p) ->
  ready_ok k -> ready_ok (set_threads (<[t := th']> (threads k)) (set_queue q k)).
Proof.
  intros E Hs Hs' Hle Hq [H1 H2 H3 H4]. split; simpl.
  - intros p t' Hin. rewrite Hq in Hin. destruct (H1 _ _ Hin) as (th2 & E2 & Hr2 & Hp2).
    destruct (decide (t' = t)) as [->|]; [congruence|]. rewrite lookup_insert_ne by done. eauto.
  - intros t' th2. rewrite Hq. destruct (decide (t' = t)) as [->|].
    + rewrite lookup_insert_eq. by intros [= <-].
    + rewrite lookup_insert_ne by done. apply H2.
  - intros p. by rewrite Hq.
  - intros t' th2. destruct (decide (t' = t)) as [->|].
    + rewrite lookup_insert_eq. by intros [= <-].
    + rewrite lookup_insert_ne by done. apply H4.
Qed.

Lemma runs_set_priority k t th p f :
  threads k !! t = Some th -> status (f th) = status th ->
  current_priority (f th) = p -> p <= nominal_priority (f th) ->
  (nominal_priority (f th) = nominal_priority th \/ nominal_priority (f th) <= ThreadPrioLowest) ->
  exists k', bind (if bool_decide (status th = Ready)
     then modify_queue (rq_move t (current_priority th) p)
     else modify_queue (rq_prepare p)) (fun _ => modify_thread t f) k = Done k' tt /\
  threads k' = <[t := f th]> (threads k) /\ objects k' = objects k /\ (ready_ok k -> ready_ok k') /\
  current_thread k' = current_thread k.
Proof.
  intros E Hs Hp Hle Hlo. destruct (bool_decide_reflect (status th = Ready)) as [Hr|Hr].
  - eexists. split.
    { erewrite bind_Done by reflexivity. unfold modify_thread. by erewrite bind_Done by (by apply thread_Done). }
    split_and!; try done. intros Hok. pose proof (ready_prio _ Hok t th E).
    refine (ready_move k t th p f E Hr (eq_trans Hs Hr) Hp Hle _ Hok). lia.
  - eexists. split.
    { erewrite bind_Done by reflexivity. unfold modify_thread. by erewrite bind_Done by (by apply thread_Done). }
    split_and!; try done. intros Hok.
    pose proof (ready_prio _ Hok t th E).
    refine (ready_other k t th (f th) _ E Hr _ _ _ Hok); [congruence|lia|]. intros p'. apply rq_list_prepare.
Qed.

Lemma runs_BoostPriority k t th p :
  threads k !! t = Some th -> p <= nominal_priority th -> runs (BoostPriority t p) k id.
Proof.
  intros E Hle. destruct (runs_set_priority k t th p (set_current_priority p) E) as (k' & E' & Et & Eo & Hr & Hc);
    try done; [by left|].
  exists k'. split_and!; try done.
  - unfold BoostPriority. erewrite bind_Done by (by apply thread_Done). exact E'.
  - unfold skel. rewrite Et, Eo. unfold id. f_equal. by apply skel_same_strip.
Qed.

Lemma best_of_mutexes_Done (k : K) l best :
  (forall m, m ∈ l -> is_Some (objects k !! m)) -> exists b, best_of_mutexes best l k = Done k b /\ b <= best.
Proof.
  revert best. induction l as [|m l IH]; intros best H; [by exists best|].
  destruct (H m) as [ob E]; [by left|]. simpl. erewrite bind_Done by (by apply object_Done).
  destruct (IH (if mutex_priority ob <? best then mutex_priority ob else best)) as (b & Eb & Hb);
    [intros m' Hm'; apply H; by right|].
  exists b. split; [done|]. case_match; lia.
Qed.

Lemma best_of_waiters_Done (k : K) l best :
  (forall t, t ∈ l -> is_Some (threads k !! t)) -> exists b, best_of_waiters best l k = Done k b.
Proof.
  revert best. induction l as [|m l IH]; intros best H; [by eexists|].
  destruct (H m) as [ob E]; [by left|]. simpl. erewrite bind_Done by (by apply thread_Done).
  apply IH. intros m' Hm'. apply H. by right.
Qed.

Lemma skel_object_is_Some (k : K) o : is_Some (sobjects (skel k) !! o) <-> is_Some (objects k !! o).
Proof. by rewrite skel_object, fmap_is_Some. Qed.

Lemma skel_thread_is_Some (k : K) t : is_Some (sthreads (skel k) !! t) <-> is_Some (threads k !! t).
Proof. by rewrite skel_thread, fmap_is_Some. Qed.

Lemma runs_Thread_UpdatePriority k t :
  is_Some (threads k !! t) ->
  (forall th m, sthreads (skel k) !! t = Some th -> m ∈ held_mutexes th -> is_Some (sobjects (skel k) !! m)) ->
  runs (Thread_UpdatePriority t) k id.
Proof.
  intros [th E] Hm. unfold Thread_UpdatePriority. apply (runs_read _ _ _ th); [by apply thread_Done|].
  destruct (best_of_mutexes_Done k (elements (held_mutexes th)) (nominal_priority th)) as (b & Eb & Hb).
  { intros m Hin%elem_of_elements. apply skel_object_is_Some. eapply (Hm (stripT th)); [|exact Hin].
    by rewrite skel_thread, E. }
  eapply runs_read; [exact Eb|]. by eapply runs_BoostPriority.
Qed.

Lemma runs_Mutex_UpdatePriority k m :
  refs_ok (skel k) -> is_Some (objects k !! m) -> runs (Mutex_UpdatePriority m) k id.
Proof.
  intros Hok [ob E]. unfold Mutex_UpdatePriority. apply (runs_read _ _ _ ob); [by apply object_Done|].
  assert (Es : sobjects (skel k) !! m = Some (stripO ob)) by (by rewrite skel_object, E).
  destruct (kind ob) as [l p [h|]| | | |] eqn:Ek; try apply runs_ret.
  destruct (best_of_waiters_Done k (waiting_threads ob) ThreadPrioLowest) as [b Eb].
  { intros t Ht. apply skel_thread_is_Some. apply (refs_waiting _ Hok m (stripO ob)); [done|].
    by rewrite stripO_waiting. }
  eapply runs_read; [exact Eb|]. destruct (negb (b =? p)); [|apply runs_ret].
  assert (Hh : is_Some (sthreads (skel k) !! h)).
  { apply (refs_holder _ Hok m (stripO ob) l 0); [done|]. unfold stripO. by rewrite Ek. }
  eapply runs_ext; [eapply (runs_bind _ _ _ (sk_object m id) id)|].
  - eapply runs_modify_object; [exact E|]. unfold stripO. simpl. by rewrite Ek.
  - intros k' Ek'. apply runs_Thread_UpdatePriority.
    + apply skel_thread_is_Some. rewrite Ek'. done.
    + intros th m'. rewrite Ek'. unfold sk_object. cbn [sthreads sobjects]. rewrite alter_is_Some.
      apply (refs_held _ Hok).
  - unfold compose, id, sk_object. destruct (skel k) as [ts os]. simpl. f_equal. apply alter_id_map.
Qed.

(** ** Operations on objects *)

Lemma runs_obj k o f g :
  is_Some (sobjects (skel k) !! o) -> (forall ob, stripO (f ob) = g (stripO ob)) ->
  runs (modify_object o f) k (sk_object o g).
Proof. intros [ob E]%skel_object_some H. by eapply runs_modify_object. Qed.

Lemma runs_thr k t f g :
  is_Some (sthreads (skel k) !! t) -> (forall th, stripT (f th) = g (stripT th)) ->
  (forall th, status (f th) = status th) -> (forall th, current_priority (f th) = current_priority th) ->
  (forall th, nominal_priority (f th) = nominal_priority th) ->
  runs (modify_thread t f) k (sk_thread t g).
Proof. intros [th E]%skel_thread_some H Hs Hp Hn. eapply runs_modify_thread; eauto. Qed.

Lemma ShouldWait_Done k o t :
  refs_ok (skel k) -> is_Some (sobjects (skel k) !! o) -> ShouldWait o t k = Done k (should_wait (skel k) o t).
Proof.
  intros Hok Ho. pose proof Ho as [ob E]%skel_object_some. unfold ShouldWait, should_wait.
  erewrite bind_Done by (by apply object_Done). rewrite skel_object, E. cbn [fmap option_fmap option_map].
  assert (Ek : kind (stripO ob) = match kind ob with Mutex l _ h => Mutex l 0 h | k => k end).
  { unfold stripO. by destruct (kind ob) eqn:Ek; rewrite ?Ek. }
  rewrite Ek. destruct (kind ob) as [l p h| | | |] eqn:Ekk; try done.
  assert (Ht : is_Some (sthreads (skel k) !! o)).
  { apply (refs_thread _ Hok o (stripO ob)); [by rewrite skel_object, E|done]. }
  apply skel_thread_some in Ht as [th Eth]. erewrite bind_Done by (by apply thread_Done).
  rewrite skel_thread, Eth. unfold ret. do 2 f_equal. simpl. apply bool_decide_ext.
  split; [by intros ->|by intros [= ->]].
Qed.

Lemma stripO_set_kind kd ob : stripO (set_kind kd ob) = set_kind (kind (stripO (mkObject [] kd))) (stripO ob).
Proof. unfold stripO. simpl. by destruct kd, (kind ob). Qed.

Lemma runs_put_object k o ob kd :
  objects k !! o = Some ob -> runs (put_object o (set_kind kd ob)) k (sk_object o (set_kind (kind (stripO (mkObject [] kd))))).
Proof.
  intros E. destruct (runs_modify_object k o ob (set_kind kd) _ E (stripO_set_kind kd ob))
    as (k' & Ek & H). exists k'. split; [|done]. unfold modify_object in Ek.
  by erewrite bind_Done in Ek by (by apply object_Done).
Qed.

Lemma runs_Acquire k o t :
  refs_ok (skel k) -> is_Some (sobjects (skel k) !! o) -> is_Some (sthreads (skel k) !! t) ->
  should_wait (skel k) o t = false -> runs (Acquire o t) k (sk_acquire o t).
Proof.
  intros Hok Ho Ht Hw. pose proof Ho as [ob E]%skel_object_some.
  pose proof Ht as [th Eth]%skel_thread_some.
  pose proof (ShouldWait_Done k o t Hok Ho) as Esw. rewrite Hw in Esw.
  unfold Acquire. apply (runs_read _ _ _ ob); [by apply object_Done|].
  assert (Eo : kind <$> sobjects (skel k) !! o = Some (kind (stripO ob))) by (by rewrite skel_object, E).
  destruct (kind ob) as [l p h|m a|r b|r b i n c|] eqn:Ek.
  - eapply runs_read; [exact Esw|]. eapply (runs_read _ _ _ tt); [done|].
    eapply runs_ext; [eapply (runs_bind _ _ _ (if l =? 0 then acquire_mutex o t l h else id) (sk_object o count_up))|].
    + destruct (l =? 0); [|apply runs_ret]. eapply runs_read; [by apply thread_Done|].
      change (acquire_mutex o t l h) with (sk_object o (set_kind (Mutex l 0 (Some t))) ∘
        (sk_thread t (fun th => set_held ({[o]} ∪ held_mutexes th) th) ∘ sk_object o (set_kind (Mutex l 0 h)))).
      eapply runs_ext.
      * eapply runs_bind; [apply runs_obj; [done|apply (stripO_set_kind (Mutex l _ h))]|]. intros k1 E1.
        eapply runs_bind; [apply (runs_thr _ _ _ (fun th => set_held ({[o]} ∪ held_mutexes th) th)); [by rewrite E1|done..]|].
        intros k2 E2.
        assert (D2 : same_dom (skel k) (skel k2)) by (rewrite E2, E1; auto with hle).
        eapply runs_bind; [apply runs_obj; [by apply D2|apply (stripO_set_kind (Mutex l _ (Some t)))]|].
        intros k3 E3. assert (D3 : same_dom (skel k) (skel k3)).
        { rewrite E3. eapply same_dom_trans; [exact D2|apply same_dom_object]. }
        eapply runs_bind; [|intros k4 _; apply runs_PrepareReschedule].
        apply runs_Thread_UpdatePriority; [apply skel_thread_is_Some; by apply D3|].
        intros th' m. rewrite E3, E2, E1. cbn [sk_object sk_thread sthreads sobjects].
        rewrite lookup_alter_eq, skel_thread, Eth. intros [= <-]. simpl. rewrite !alter_is_Some.
        intros [->%elem_of_singleton|Hm]%elem_of_union; [done|].
        eapply (refs_held _ Hok t (stripT th)); [by rewrite skel_thread, Eth|done].
      * done.
    + intros k' Ek'. apply runs_obj.
      * rewrite Ek'. destruct (l =? 0); [|done]. unfold acquire_mutex. cbn [sk_object sk_thread sobjects].
        by rewrite !alter_is_Some.
      * intros ob'. unfold count_up, stripO. by destruct (kind ob') eqn:Ek2; simpl; rewrite ?Ek2.
    + unfold sk_acquire. rewrite Eo. unfold stripO. rewrite Ek. simpl. by destruct (l =? 0).
  - apply (runs_ext _ _ (if a <=? 0 then id else sk_object o (set_kind (Semaphore m (a - 1)))))
      ; [|by unfold sk_acquire; rewrite Eo; unfold stripO; rewrite Ek, Ek; case_match].
    destruct (a <=? 0); [apply runs_ret|by apply (runs_put_object k o ob (Semaphore m (a - 1)))].
  - eapply runs_read; [exact Esw|]. eapply (runs_read _ _ _ tt); [done|].
    apply (runs_ext _ _ (match r with OneShot => sk_object o (set_kind (Event OneShot false)) | _ => id end))
      ; [|by unfold sk_acquire; rewrite Eo; unfold stripO; rewrite Ek, Ek; case_match].
    destruct r; [by apply (runs_put_object k o ob (Event OneShot false))|apply runs_ret..].
  - eapply runs_read; [exact Esw|]. eapply (runs_read _ _ _ tt); [done|].
    apply (runs_ext _ _ (match r with OneShot => sk_object o (set_kind (Timer OneShot false i n c)) | _ => id end))
      ; [|by unfold sk_acquire; rewrite Eo; unfold stripO; rewrite Ek, Ek; case_match].
    destruct r; [by apply (runs_put_object k o ob (Timer OneShot false i n c))|apply runs_ret..].
  - eapply runs_read; [exact Esw|]. exists k. split_and!; try done.
    unfold sk_acquire. rewrite Eo. unfold stripO. by rewrite Ek, Ek.
Qed.

Lemma is_mutex_skel k o ob :
  objects k !! o = Some ob -> is_mutex (kind <$> sobjects (skel k) !! o) = is_mutex (Some (kind ob)).
Proof. intros E. rewrite skel_object, E. simpl. unfold stripO. by destruct (kind ob) eqn:Ek; simpl; rewrite ?Ek. Qed.

(** Adding to and removing from a waiting list have the same shape. *)
Lemma runs_waiting k o t ob f g (upd : Thread -> Thread) :
  objects k !! o = Some ob -> refs_ok (if is_mutex (Some (kind ob)) then sk_thread t upd (sk_object o g (skel k))
                                       else sk_object o g (skel k)) ->
  is_Some (sthreads (skel k) !! t) ->
  (forall ob, stripO (f ob) = g (stripO ob)) ->
  (forall th, stripT (upd th) = upd (stripT th)) ->
  (forall th, status (upd th) = status th) -> (forall th, current_priority (upd th) = current_priority th) ->
  (forall th, nominal_priority (upd th) = nominal_priority th) ->
  runs (bind (modify_object o f) (fun _ => match kind ob with
    | Mutex _ _ _ => bind (modify_thread t upd) (fun _ => Mutex_UpdatePriority o)
    | _ => ret tt end)) k
    (fun s => if is_mutex (Some (kind ob)) then sk_thread t upd (sk_object o g s) else sk_object o g s).
Proof.
  intros E Hr Ht Hf Hu Hs Hp Hn.
  assert (R : runs (modify_object o f) k (sk_object o g)) by (apply runs_obj; [by rewrite skel_object, E|done]).
  destruct (kind ob) eqn:Ek; simpl in Hr |- *;
    try (eapply runs_ext; [eapply runs_bind; [exact R|intros; apply runs_ret]|done]).
  eapply runs_ext.
  - eapply runs_bind; [exact R|]. intros k1 E1. eapply runs_bind; [apply (runs_thr _ _ _ upd); [by rewrite E1|done..]|].
    intros k2 E2. apply runs_Mutex_UpdatePriority; [by rewrite E2, E1|].
    apply skel_object_is_Some. rewrite E2, E1. cbn [sk_thread sk_object sobjects]. rewrite alter_is_Some, skel_object, E. done.
  - done.
Qed.

Lemma runs_AddWaitingThread k o t :
  refs_ok (skel k) -> is_Some (sobjects (skel k) !! o) -> is_Some (sthreads (skel k) !! t) ->
  runs (AddWaitingThread o t) k (sk_add o t).
Proof.
  intros Hr Ho Ht. pose proof Ho as [ob E]%skel_object_some. unfold AddWaitingThread.
  apply (runs_read _ _ _ ob); [by apply object_Done|].
  pose proof (refs_add o t _ Hr Ht) as Hra. unfold sk_add in Hra. cbv zeta in Hra.
  rewrite (is_mutex_skel k o ob E) in Hra.
  eapply runs_ext.
  - apply (runs_waiting k o t ob _ (add_waiting t)); try done.
    intros ob'. unfold add_waiting. rewrite stripO_waiting. destruct (existsb _ _); [done|].
    unfold stripO. simpl. by destruct (kind ob').
  - unfold sk_add. by rewrite (is_mutex_skel k o ob E).
Qed.

Lemma runs_RemoveWaitingThread k o t :
  refs_ok (skel k) -> is_Some (sobjects (skel k) !! o) -> is_Some (sthreads (skel k) !! t) ->
  runs (RemoveWaitingThread o t) k (sk_remove o t).
Proof.
  intros Hr Ho Ht. pose proof Ho as [ob E]%skel_object_some. unfold RemoveWaitingThread.
  apply (runs_read _ _ _ ob); [by apply object_Done|].
  pose proof (refs_remove o t _ Hr) as Hra. unfold sk_remove in Hra. cbv zeta in Hra.
  rewrite (is_mutex_skel k o ob E) in Hra.
  eapply runs_ext.
  - apply (runs_waiting k o t ob _ (drop_waiting t)); try done.
    intros ob'. unfold drop_waiting. rewrite stripO_waiting. unfold stripO. simpl. by destruct (kind ob').
  - unfold sk_remove. by rewrite (is_mutex_skel k o ob E).
Qed.

(** ** Choosing a waiter *)

Definition prio (k : K) (t : Z) : Z :=
  match threads k !! t with
  | Some th => current_priority th
  | None => ThreadPrioLowest + 1
  end.

Lemma none_should_wait_Done k t l :
  refs_ok (skel k) -> (forall o, o ∈ l -> is_Some (sobjects (skel k) !! o)) ->
  none_should_wait t l k = Done k (forallb (fun o => negb (should_wait (skel k) o t)) l).
Proof.
  intros Hr. induction l as [|o l IH]; intros Hl; [done|]. simpl.
  erewrite bind_Done by (apply ShouldWait_Done; [done|apply Hl; by left]).
  destruct (should_wait _ o t); [done|]. simpl. apply IH. intros o' Ho'. apply Hl. by right.
Qed.

(** [t] is the first of the most urgent ready waiters in [l]. *)
Definition best_in (k : K) (o : Z) (l : list Z) (t : Z) : Prop :=
  exists l1 l2, l = l1 ++ t :: l2 /\ ready_waiter (skel k) o t = true /\
    (forall t', t' ∈ l1 -> ready_waiter (skel k) o t' = true -> prio k t < prio k t') /\
    (forall t', t' ∈ l2 -> ready_waiter (skel k) o t' = true -> prio k t <= prio k t').

Lemma highest_ready_Done k o l :
  refs_ok (skel k) -> is_Some (sobjects (skel k) !! o) ->
  (forall t, t ∈ l -> exists th, sthreads (skel k) !! t = Some th /\ is_synch_status (status th) = true) ->
  forall cand cp, exists c, highest_ready o cand cp l k = Done k c /\
    ((c = cand /\ forall t, t ∈ l -> ready_waiter (skel k) o t = true -> cp <= prio k t) \/
     exists t, c = Some t /\ best_in k o l t /\ prio k t < cp).
Proof.
  intros Hr Ho. induction l as [|t l IH]; intros Hl cand cp.
  { exists cand. split; [done|]. left. split; [done|]. by intros t ?%elem_of_nil. }
  destruct (Hl t) as (ths & Es & Hst); [by left|].
  assert (exists th, threads k !! t = Some th /\ ths = stripT th) as (th & E & ->).
  { rewrite skel_thread in Es. destruct (threads k !! t) as [th|]; [|done]. injection Es as <-. eauto. }
  assert (Hl' : forall t, t ∈ l -> exists th, sthreads (skel k) !! t = Some th /\ is_synch_status (status th) = true).
  { intros t' Ht'. apply Hl. by right. }
  assert (Hp : prio k t = current_priority th) by (unfold prio; by rewrite E).
  simpl. erewrite bind_Done by (by apply thread_Done). unfold assert_. rewrite stripT_status in Hst. rewrite Hst.
  erewrite bind_Done by reflexivity.
  (* the waiter is passed over *)
  assert (Hskip : ready_waiter (skel k) o t = false \/ cp <= current_priority th -> exists c,
            highest_ready o cand cp l k = Done k c /\
            ((c = cand /\ forall t', t' ∈ t :: l -> ready_waiter (skel k) o t' = true -> cp <= prio k t') \/
             exists t', c = Some t' /\ best_in k o (t :: l) t' /\ prio k t' < cp)).
  { intros Hs. destruct (IH Hl' cand cp) as (c & Ec & [[-> Hc]|(t' & -> & (l1 & l2 & -> & Hw & H1 & H2) & Hc)]).
    - exists cand. split; [done|]. left. split; [done|]. intros t' [->|Ht']%elem_of_cons Hw; [|by apply Hc].
      destruct Hs as [Hs|Hs]; [congruence|lia].
    - exists (Some t'). split; [done|]. right. exists t'. split_and!; try done.
      exists (t :: l1), l2. split_and!; try done. intros t2 [->|Ht2]%elem_of_cons Hw2; [|by apply H1].
      destruct Hs as [Hs|Hs]; [congruence|lia]. }
  destruct (Z.leb_spec cp (current_priority th)) as [Hle|Hlt]; [apply Hskip; by right|].
  erewrite bind_Done by (by apply ShouldWait_Done).
  unfold ready_waiter in Hskip. rewrite Es in Hskip. rewrite stripT_status in Hskip.
  change (wait_objects (stripT th)) with (wait_objects th) in Hskip.
  destruct (should_wait (skel k) o t) eqn:Esw; [apply Hskip; by left|]. cbn [negb andb] in Hskip.
  assert (Hrd : (if bool_decide (status th = WaitSynchAll) then none_should_wait t (wait_objects th) else ret true) k
     = Done k (if bool_decide (status th = WaitSynchAll)
               then forallb (fun o' => negb (should_wait (skel k) o' t)) (wait_objects th) else true)).
  { destruct (bool_decide _); [|done]. apply none_should_wait_Done; [done|]. intros o' Ho'.
    by apply (refs_wait _ Hr t (stripT th)). }
  erewrite bind_Done by exact Hrd.
  destruct (if bool_decide _ then _ else true) eqn:Erd; [|apply Hskip; by left]. clear Hskip.
  assert (Hw : ready_waiter (skel k) o t = true).
  { unfold ready_waiter. rewrite Esw, Es, stripT_status. exact Erd. }
  destruct (IH Hl' (Some t) (current_priority th)) as (c & Ec & [[-> Hc]|(t' & -> & (l1 & l2 & -> & Hw' & H1 & H2) & Hc)]).
  - exists (Some t). split; [done|]. right. exists t. split_and!; [done| |lia].
    exists [], l. split_and!; try done; [by intros ? ?%elem_of_nil|]. intros t' Ht' Hw'. rewrite Hp. by apply Hc.
  - exists (Some t'). split; [done|]. right. exists t'. split_and!; [done| |lia].
    exists (t :: l1), l2. split_and!; try done. intros t2 [->|Ht2]%elem_of_cons Hw2; [lia|by apply H1].
Qed.

(** ** Waking one thread *)

Lemma runs_acquire_all k t l :
  refs_ok (skel k) -> is_Some (sthreads (skel k) !! t) -> NoDup l ->
  (forall o, o ∈ l -> is_Some (sobjects (skel k) !! o) /\ should_wait (skel k) o t = false) ->
  runs (for_each (fun o => Acquire o t) l) k (acquire_all t l).
Proof.
  revert k. induction l as [|o l IH]; intros k Hr Ht Hn Hl; [apply runs_ret|].
  apply list.NoDup_cons in Hn as [Ho Hn]. destruct (Hl o) as [Hoe How]; [by left|].
  eapply runs_ext; [eapply (runs_bind _ _ _ (sk_acquire o t) (acquire_all t l))|done].
  - by apply runs_Acquire.
  - intros k1 E1. apply IH; rewrite ?E1.
    + by apply refs_acquire.
    + by apply same_dom_acquire.
    + done.
    + intros o' Ho'. destruct (Hl o') as [He Hw]; [by right|]. split; [by apply same_dom_acquire|].
      rewrite should_wait_acquire; [done|]. by intros ->.
Qed.

Lemma runs_SetResult k t r :
  is_Some (sthreads (skel k) !! t) -> runs (SetWaitSynchronizationResult result_raw t r) k (sk_thread t (set_reg0 (result_raw r))).
Proof. intros Ht. by apply runs_thr. Qed.

Lemma runs_call_wakeup k t o th :
  sthreads (skel k) !! t = Some th -> wait_objects th <> [] ->
  runs (call_wakeup result_raw Signal t (Some o)) k (sk_thread t (wake_registers (result_raw ResultSuccess) o)).
Proof.
  intros Es Hne. assert (exists th', threads k !! t = Some th' /\ th = stripT th') as (th' & E & ->).
  { rewrite skel_thread in Es. destruct (threads k !! t) as [th'|]; [|done]. injection Es as <-. eauto. }
  unfold call_wakeup. apply (runs_read _ _ _ th'); [by apply thread_Done|].
  destruct (wakeup_callback th') as [[out]|] eqn:Ec.
  - eapply (runs_ext _ _ ((if out then sk_thread t (fun th => set_reg1 (last_index o 0 (wait_objects th')) th) else id)
      ∘ sk_thread t (set_reg0 (result_raw ResultSuccess)))).
    + eapply runs_bind; [apply runs_SetResult; by rewrite Es|]. intros k1 E1.
      assert (E1t : sthreads (skel k1) !! t = Some (set_reg0 (result_raw ResultSuccess) (stripT th'))).
      { rewrite E1. cbn [sk_thread sthreads]. by rewrite lookup_alter_eq, Es. }
      destruct out; [|apply runs_ret].
      apply (runs_read _ _ _ (last_index o 0 (wait_objects th'))).
      * rewrite skel_thread in E1t. destruct (threads k1 !! t) as [th1|] eqn:Et1; [|done].
        unfold GetWaitObjectIndex. erewrite bind_Done by (by apply thread_Done).
        assert (wait_objects th1 = wait_objects th') as -> by (by destruct th1, th'; inversion E1t).
        unfold assert_. rewrite bool_decide_eq_false_2 by done. done.
      * apply (runs_thr k1 t _ (set_reg1 (last_index o 0 (wait_objects th')))); [|done..].
        by rewrite E1t.
    + unfold compose, sk_thread. destruct (skel k) as [ts os]. cbn [sthreads sobjects] in *.
      assert (G : alter (wake_registers (result_raw ResultSuccess) o) t ts =
        <[t := wake_registers (result_raw ResultSuccess) o (stripT th')]> ts).
      { apply map_eq. intros i. destruct (decide (i = t)) as [->|];
          [by rewrite lookup_alter_eq, Es, lookup_insert_eq|by rewrite lookup_alter_ne, lookup_insert_ne]. }
      rewrite G. unfold wake_registers. change (wakeup_callback (stripT th')) with (wakeup_callback th'). rewrite Ec.
      destruct out; simpl; f_equal; apply map_eq; intros i; (destruct (decide (i = t)) as [->|];
          [rewrite ?lookup_alter_eq, Es, lookup_insert_eq; done|by rewrite ?lookup_alter_ne, lookup_insert_ne by done]).
  - eapply runs_ext; [apply runs_ret|]. unfold id, sk_thread. destruct (skel k) as [ts os]. simpl in *. f_equal.
    apply map_eq. intros i. destruct (decide (i = t)) as [->|]; [|by rewrite lookup_alter_ne].
    rewrite lookup_alter_eq, Es. simpl. unfold wake_registers. simpl. by rewrite Ec.
Qed.

Lemma runs_remove_all k t l :
  refs_ok (skel k) -> is_Some (sthreads (skel k) !! t) -> (forall o, o ∈ l -> is_Some (sobjects (skel k) !! o)) ->
  runs (for_each (fun o => RemoveWaitingThread o t) l) k (remove_all t l).
Proof.
  revert k. induction l as [|o l IH]; intros k Hr Ht Hl; [apply runs_ret|].
  eapply runs_ext; [eapply (runs_bind _ _ _ (sk_remove o t) (remove_all t l))|done].
  - apply runs_RemoveWaitingThread; [done| |done]. apply Hl. by left.
  - intros k1 E1. apply IH; rewrite ?E1.
    + by apply refs_remove.
    + by apply same_dom_remove.
    + intros o' Ho'. apply same_dom_remove, Hl. by right.
Qed.

Lemma runs_leave k t :
  refs_ok (skel k) -> is_Some (sthreads (skel k) !! t) -> runs (leave_wait_objects t) k (sk_leave t).
Proof.
  intros Hr Ht. pose proof Ht as [th E]%skel_thread_some. unfold leave_wait_objects.
  apply (runs_read _ _ _ th); [by apply thread_Done|].
  eapply runs_ext; [eapply (runs_bind _ _ _ (remove_all t (wait_objects th)))|].
  - apply runs_remove_all; [done|done|]. intros o Ho. eapply (refs_wait _ Hr t (stripT th)); [|done].
    by rewrite skel_thread, E.
  - intros k1 E1. apply (runs_thr _ _ _ (set_wait_objects [])); [|done..]. rewrite E1.
    pose proof (remove_all_thread (wait_objects th) t (skel k)) as H. rewrite skel_thread, E in H.
    by destruct (sthreads (remove_all _ _ _) !! t).
  - unfold sk_leave. by rewrite skel_thread, E.
Qed.

(** A thread that becomes ready goes to the end of the queue of its priority. *)
Lemma ready_push k t th th' :
  threads k !! t = Some th -> status th <> Ready -> status th' = Ready ->
  current_priority th' = current_priority th -> nominal_priority th' = nominal_priority th -> ready_ok k ->
  ready_ok (set_threads (<[t := th']> (threads k)) (set_queue (rq_push_back (current_priority th) t (ready_queue k)) k)).
Proof.
  intros E Hs Hs' Hp Hn [H1 H2 H3 H4].
  assert (Hni : forall p, t ∉ rq_list (ready_queue k) p).
  { intros p Hin. destruct (H1 p t Hin) as (? & ? & ? & _). congruence. }
  split; simpl.
  - intros p t'. rewrite rq_list_push_back. destruct (Z.eqb_spec p (current_priority th)) as [->|Hne].
    + rewrite elem_of_app, list_elem_of_singleton. intros [Hin| ->].
      * rewrite lookup_insert_ne by (intros ->; by apply (Hni _ Hin)). eauto.
      * rewrite lookup_insert_eq. eauto.
    + intros Hin. rewrite lookup_insert_ne by (intros ->; by apply (Hni _ Hin)). eauto.
  - intros t' th2. rewrite rq_list_push_back. destruct (decide (t' = t)) as [->|].
    + rewrite lookup_insert_eq. intros [= <-] _. rewrite Hp, Z.eqb_refl, elem_of_app. right. by left.
    + rewrite lookup_insert_ne by done. intros E2 Hr2. pose proof (H2 _ _ E2 Hr2).
      case_match eqn:Ep; [|done]. apply Z.eqb_eq in Ep. rewrite elem_of_app. left. by rewrite <-Ep.
  - intros p. rewrite rq_list_push_back. case_match; [|done]. apply NoDup_app. split_and!; [done| |apply NoDup_singleton].
    intros x Hx ->%list_elem_of_singleton. by apply (Hni _ Hx).
  - intros t' th2. destruct (decide (t' = t)) as [->|].
    + rewrite lookup_insert_eq. intros [= <-]. rewrite Hp, Hn. eauto.
    + rewrite lookup_insert_ne by done. apply H4.
Qed.

Lemma ready_ok_ext k k' :
  threads k' = threads k -> ready_queue k' = ready_queue k -> ready_ok k -> ready_ok k'.
Proof. intros Ht Hq [H1 H2 H3 H4]. split; rewrite ?Ht, ?Hq; done. Qed.

Definition wakeable (s : ThreadStatus) : bool :=
  match s with
  | WaitSynchAll | WaitSynchAny | WaitHleEvent | WaitArb | WaitSleep | WaitIPC | Dormant => true
  | _ => false
  end.

Lemma runs_ResumeFromWait k t th :
  sthreads (skel k) !! t = Some th -> wait_objects th = [] -> wakeable (status th) = true ->
  runs (ResumeFromWait t) k (sk_ready t).
Proof.
  intros Es Hw Hs. assert (exists th', threads k !! t = Some th' /\ th = stripT th') as (th' & E & ->).
  { rewrite skel_thread in Es. destruct (threads k !! t) as [th'|]; [|done]. injection Es as <-. eauto. }
  change (wait_objects (stripT th')) with (wait_objects th') in Hw. rewrite stripT_status in Hs.
  set (th2 := set_status Ready (set_callback None th')).
  exists (mkKernel (<[t := th2]> (threads k)) (objects k) (rq_push_back (current_priority th') t (ready_queue k))
            (current_thread k) (timing k) true).
  assert (Hbody : bind (modify_thread t (set_callback None)) (fun _ =>
     bind (modify_queue (rq_push_back (current_priority th') t)) (fun _ =>
     bind (modify_thread t (set_status Ready)) (fun _ => PrepareReschedule))) k =
    Done (mkKernel (<[t := th2]> (threads k)) (objects k) (rq_push_back (current_priority th') t (ready_queue k))
            (current_thread k) (timing k) true) tt).
  { unfold modify_thread, bind, put_thread, modify_queue, thread. rewrite E. simpl. rewrite lookup_insert_eq. simpl.
    unfold PrepareReschedule. simpl. by rewrite insert_insert_eq. }
  split_and!.
  - unfold ResumeFromWait. erewrite bind_Done by (by apply thread_Done). rewrite Hw.
    unfold assert_. rewrite bool_decide_eq_true_2 by done. erewrite bind_Done by reflexivity.
    by destruct (status th'); try discriminate Hs.
  - unfold skel, sk_ready, sk_thread. simpl. f_equal. rewrite (skel_insert k t th') by done. by rewrite fmap_insert.
  - intros Hok. assert (Hn : status th' <> Ready) by (intros En; by rewrite En in Hs).
    eapply ready_ok_ext; [| |exact (ready_push k t th' th2 E Hn eq_refl eq_refl eq_refl Hok)]; done.
  - done.
Qed.

Lemma runs_wakeup_one k o t ob :
  refs_ok (skel k) -> wait_ok (skel k) -> sobjects (skel k) !! o = Some ob -> t ∈ waiting_threads ob ->
  ready_waiter (skel k) o t = true ->
  runs (wakeup_one result_raw o t) k (sk_wake (result_raw ResultSuccess) o t).
Proof.
  intros Hr Hw Eo Hin Hrw. destruct (wait_in _ Hw o ob t Eo Hin) as (th & Es & Ho & Hst).
  assert (exists th', threads k !! t = Some th' /\ th = stripT th') as (th' & E & ->).
  { rewrite skel_thread in Es. destruct (threads k !! t) as [th'|]; [|done]. injection Es as <-. eauto. }
  unfold wakeup_one. apply (runs_read _ _ _ th'); [by apply thread_Done|].
  set (l := acquired (skel k) o t). set (raw := result_raw ResultSuccess).
  assert (Hacq : runs (if negb (bool_decide (status th' = WaitSynchAll)) then Acquire o t
                       else for_each (fun ob => Acquire ob t) (wait_objects th')) k (acquire_all t l)).
  { unfold ready_waiter in Hrw. apply andb_true_iff in Hrw as [Hsw Hrw]. apply negb_true_iff in Hsw.
    subst l. unfold acquired. rewrite Es in Hrw |- *. rewrite stripT_status in Hrw |- *.
    change (wait_objects (stripT th')) with (wait_objects th') in Hrw |- *.
    destruct (bool_decide_reflect (status th' = WaitSynchAll)) as [Ha|Ha]; simpl.
    - apply runs_acquire_all; [done|by rewrite Es|by apply (wait_nodup _ Hw t (stripT th'))|]. intros o' Ho'. split.
      + by apply (refs_wait _ Hr t (stripT th')).
      + rewrite forallb_forall in Hrw. apply negb_true_iff, Hrw. by apply list_elem_of_In.
    - apply runs_Acquire; [done|by rewrite Eo|by rewrite Es|done]. }
  eapply runs_ext.
  - eapply runs_bind; [exact Hacq|]. intros k1 E1.
    assert (W1 : same_waits (skel k) (skel k1)) by (rewrite E1; apply same_waits_acquire_all).
    destruct (same_waits_thread _ _ _ _ W1 Es) as (th1 & Es1 & Hst1 & Hwo1 & _).
    assert (R1 : refs_ok (skel k1)) by (rewrite E1; apply refs_acquire_all; [done|by rewrite Es]).
    eapply runs_bind.
    { apply (runs_call_wakeup k1 t o th1 Es1). rewrite Hwo1. intros E0. rewrite E0 in Ho. by apply elem_of_nil in Ho. }
    intros k2 E2. assert (Es2 : sthreads (skel k2) !! t = Some (wake_registers raw o th1)).
    { rewrite E2. cbn [sk_thread sthreads]. by rewrite lookup_alter_eq, Es1. }
    destruct (registers_keep raw o th1) as (G1 & G2 & G3 & _).
    assert (R2 : refs_ok (skel k2)).
    { rewrite E2. apply refs_sk_thread_keep; [done|..]; intros th2; by destruct (registers_keep raw o th2) as (? & ? & ? & _). }
    eapply runs_bind; [apply runs_leave; [done|by rewrite Es2]|]. intros k3 E3.
    destruct (leave_thread t _ _ Es2) as [P Es3]. rewrite <-E3 in Es3.
    apply (runs_ResumeFromWait k3 t _ Es3); [done|]. simpl. rewrite G1, Hst1. by destruct (status (stripT th')).
  - reflexivity.
Qed.

(** ** Waking everyone who can go on *)

(** Only the current thread runs, and it exists. *)
Record run_ok (k : K) : Prop := {
  run_current : forall t th, threads k !! t = Some th -> status th = Running -> current_thread k = Some t;
  run_exists : forall t, current_thread k = Some t -> is_Some (threads k !! t)
}.

Record sync_ok (k : K) : Prop := {
  sync_skel : sk_ok (skel k);
  sync_ready : ready_ok k;
  sync_run : run_ok k
}.

Lemma run_ok_le k k' : sched_le (skel k) (skel k') -> current_thread k' = current_thread k -> run_ok k -> run_ok k'.
Proof.
  intros Hle Hc [H1 H2]. split; rewrite Hc.
  - intros t th E Hs. specialize (Hle t). rewrite !skel_thread, E in Hle.
    destruct (threads k !! t) as [th0|] eqn:E0; [|done]. eauto.
  - intros t Ht. specialize (Hle t). rewrite !skel_thread in Hle. destruct (H2 t Ht) as [th0 E0]. rewrite E0 in Hle.
    by destruct (threads k' !! t).
Qed.

(** How the invariant is kept by a step of known effect on the skeleton. *)
Lemma sync_ok_step k k' :
  sync_ok k -> sk_ok (skel k') -> sched_le (skel k) (skel k') -> (ready_ok k -> ready_ok k') ->
  current_thread k' = current_thread k -> sync_ok k'.
Proof. intros [_ Hq Hr] Hs Hle Hq' Hc. split; [done|auto|by eapply run_ok_le]. Qed.

(** [wakes o k ws k']: from [k], the waiters [ws] of [o] are woken one after the
    other, each the most urgent of those that can go on. *)
Inductive wakes (o : Z) : K -> list Z -> K -> Prop :=
  | wakes_nil k : wakes o k [] k
  | wakes_cons k t k1 ws k2 ob :
      objects k !! o = Some ob -> best_in k o (waiting_threads ob) t ->
      skel k1 = sk_wake (result_raw ResultSuccess) o t (skel k) -> sync_ok k1 ->
      wakes o k1 ws k2 -> wakes o k (t :: ws) k2.

Definition nobody_ready (k : K) (o : Z) : Prop :=
  forall ob t, objects k !! o = Some ob -> t ∈ waiting_threads ob -> ready_waiter (skel k) o t = false.

Lemma best_in_elem k o l t : best_in k o l t -> t ∈ l /\ ready_waiter (skel k) o t = true.
Proof. intros (l1 & l2 & -> & H & _). split; [rewrite elem_of_app; right; by left|done]. Qed.

Lemma wakeup_loop_wakes fuel k o ob :
  sync_ok k -> objects k !! o = Some ob -> (length (waiting_threads ob) < fuel)%nat ->
  exists ws k', wakeup_loop result_raw fuel o k = Done k' tt /\ wakes o k ws k' /\ sync_ok k' /\
    nobody_ready k' o /\ current_thread k' = current_thread k.
Proof.
  revert k ob. induction fuel as [|fuel IH]; intros k ob Hok Eo Hf; [lia|].
  pose proof Hok as [[Hr Hw Ho] Hq _].
  assert (Eos : sobjects (skel k) !! o = Some (stripO ob)) by (by rewrite skel_object, Eo).
  assert (Hl : forall t, t ∈ waiting_threads ob ->
     exists th, sthreads (skel k) !! t = Some th /\ is_synch_status (status th) = true).
  { intros t Ht. destruct (wait_in _ Hw o (stripO ob) t Eos) as (th & E & _ & H); [by rewrite stripO_waiting|eauto]. }
  destruct (highest_ready_Done k o (waiting_threads ob) Hr) with (cand := None (A := Z)) (cp := ThreadPrioLowest + 1)
    as (c & Ec & Hc); [by rewrite Eos|done|].
  simpl. unfold GetHighestPriorityReadyThread.
  assert (Eg : bind (object o) (fun ob => highest_ready o None (ThreadPrioLowest + 1) (waiting_threads ob)) k = Done k c).
  { by erewrite bind_Done by (by apply object_Done). }
  erewrite bind_Done by exact Eg. destruct Hc as [[-> Hc]|(t & -> & Hb & _)].
  - exists [], k. split_and!; [done|constructor|done| |done]. intros ob' t E' Ht. replace ob' with ob in Ht by congruence.
    apply not_true_iff_false. intros Hrw. pose proof (Hc t Ht Hrw) as Hle. destruct (Hl t Ht) as (th & E & _).
    rewrite skel_thread in E. unfold prio in Hle. destruct (threads k !! t) as [th'|] eqn:Et; [|done].
    pose proof (ready_prio _ Hq t th' Et). lia.
  - destruct (best_in_elem _ _ _ _ Hb) as [Hin Hrw].
    destruct (runs_wakeup_one k o t (stripO ob) Hr Hw Eos) as (k1 & E1 & S1 & Q1 & C1); [by rewrite stripO_waiting|done|].
    erewrite bind_Done by exact E1.
    destruct (Hl t Hin) as (th & Et & _).
    assert (Hok1 : sync_ok k1).
    { apply (sync_ok_step k); rewrite ?S1; [done| |apply sched_le_wake|done..]. apply sk_ok_wake; [done|by rewrite Et]. }
    pose proof (wake_waiting (result_raw ResultSuccess) o t (skel k) o Hw) as Hww. rewrite <-S1, Eos, Et in Hww.
    specialize (Hww ltac:(eauto)). rewrite skel_object in Hww. destruct (objects k1 !! o) as [ob1|] eqn:Eo1; [|done].
    simpl in Hww. rewrite !stripO_waiting in Hww. injection Hww as Hww.
    destruct (IH k1 ob1 Hok1 Eo1) as (ws & k' & Ek' & Hws & Hok' & Hn & C').
    { rewrite Hww. pose proof (length_erase_first t _ Hin). lia. }
    exists (t :: ws), k'. split_and!; try done; [|congruence]. by econstructor.
Qed.

(** What became of the threads when [ws] have been woken. *)
Lemma wakes_threads o k ws k' :
  wakes o k ws k' -> wait_ok (skel k) -> is_Some (objects k !! o) ->
  NoDup ws /\
  (forall t, t ∈ ws -> exists ob th', objects k !! o = Some ob /\ t ∈ waiting_threads ob /\
     sthreads (skel k') !! t = Some th' /\ status th' = Ready /\ wait_objects th' = []) /\
  (forall t, t ∉ ws -> sthreads (skel k') !! t = sthreads (skel k) !! t) /\
  wait_ok (skel k') /\ is_Some (objects k' !! o).
Proof.
  induction 1 as [k|k t k1 ws k2 ob Eo Hb S1 Q1 Hws IH]; intros Hw Ho.
  { split_and!; [constructor|by intros t ?%elem_of_nil|done..]. }
  destruct (best_in_elem _ _ _ _ Hb) as [Hin Hrw].
  assert (Eos : sobjects (skel k) !! o = Some (stripO ob)) by (by rewrite skel_object, Eo).
  destruct (wait_in _ Hw o (stripO ob) t Eos) as (th & Et & _ & _); [by rewrite stripO_waiting|].
  set (raw := result_raw ResultSuccess) in *.
  assert (Hw1 : wait_ok (skel k1)) by (rewrite S1; by apply wait_ok_wake).
  pose proof (wake_waiting raw o t (skel k) o Hw ltac:(by rewrite Et)) as Hww.
  rewrite <-S1, !skel_object, Eo in Hww. destruct (objects k1 !! o) as [ob1|] eqn:Eo1; [|done].
  simpl in Hww. rewrite !stripO_waiting in Hww. injection Hww as Hww.
  destruct IH as (Hn & Hin' & Hout & Hw2 & Ho2); [done|done|].
  assert (Hnd : NoDup (waiting_threads ob)).
  { pose proof (wait_once _ Hw o _ Eos) as Hnd. by rewrite stripO_waiting in Hnd. }
  assert (Ht : t ∉ ws).
  { intros Ht. destruct (Hin' t Ht) as (ob' & _ & E' & Hin2 & _). replace ob' with ob1 in Hin2 by congruence.
    rewrite Hww in Hin2. by apply elem_of_erase_first in Hin2 as [_ ?]. }
  split_and!; [by constructor| | |done..].
  - intros t' [->|Ht']%elem_of_cons.
    + destruct (wake_thread_ready raw o t (skel k) th Et) as (th' & E' & Hs & Hwo & _).
      exists ob, th'. split_and!; try done. by rewrite Hout, S1.
    + destruct (Hin' t' Ht') as (ob' & th' & E' & Hin2 & H1 & H2 & H3). exists ob, th'. split_and!; [done| |done..].
      replace ob' with ob1 in Hin2 by congruence. rewrite Hww in Hin2. by apply erase_first_subset in Hin2.
  - intros t' Ht'. rewrite not_elem_of_cons in Ht'. destruct Ht' as [Hne Ht']. rewrite Hout, S1 by done.
    by apply wake_thread_ne.
Qed.

Lemma WakeupAll_outcome k o :
  sync_ok k -> is_Some (objects k !! o) ->
  exists ws k1 k', WakeupAllWaitingThreads result_raw o k = Done k' tt /\
    wakes o k ws k1 /\ nobody_ready k1 o /\ skel k' = sk_object o pulse_clear (skel k1) /\
    sync_ok k' /\ current_thread k' = current_thread k /\
    NoDup ws /\
    (forall t, t ∈ ws -> exists ob th, objects k !! o = Some ob /\ t ∈ waiting_threads ob /\
       threads k' !! t = Some th /\ status th = Ready /\ wait_objects th = [] /\
       t ∈ rq_list (ready_queue k') (current_priority th)) /\
    (forall t, t ∉ ws -> sthreads (skel k') !! t = sthreads (skel k) !! t).
Proof.
  intros Hok [ob Eo]. unfold WakeupAllWaitingThreads. erewrite bind_Done by (by apply object_Done).
  destruct (wakeup_loop_wakes (S (length (waiting_threads ob))) k o ob Hok Eo) as (ws & k1 & E1 & Hws & Hok1 & Hn & C1);
    [lia|].
  erewrite bind_Done by exact E1. destruct (wakes_threads o k ws k1 Hws) as (Hnd & Hin & Hout & _ & Ho1);
    [apply Hok|by rewrite Eo|].
  destruct (runs_obj k1 o pulse_clear pulse_clear) as (k' & E' & S' & Q' & C').
  { by apply skel_object_is_Some. }
  { intros ob'. unfold stripO, pulse_clear. by destruct (kind ob') as [| |[]|[]|] eqn:Ek; simpl; rewrite ?Ek. }
  assert (Hok' : sync_ok k').
  { apply (sync_ok_step k1); rewrite ?S'; [done|by apply sk_ok_pulse, Hok1|auto with hle|done..]. }
  assert (St : sthreads (skel k') = sthreads (skel k1)) by (by rewrite S').
  exists ws, k1, k'. split_and!; try done; [congruence| |].
  - intros t Ht. destruct (Hin t Ht) as (ob' & th' & Eo' & Hint & Et' & Hst & Hwo). rewrite <-St, skel_thread in Et'.
    destruct (threads k' !! t) as [th|] eqn:Et; [|done]. injection Et' as <-. exists ob', th. split_and!; try done.
    by apply (ready_all _ (sync_ready _ Hok')).
  - intros t Ht. rewrite St. by apply Hout.
Qed.

(** C13: [WakeupAllWaitingThreads] always comes to an end, without tripping an
    assertion.  It wakes distinct waiters of the object one after the other, each the
    most urgent (the first of them in the waiting list) of the waiters that can go on
    at that moment, and each woken waiter acquires what it waits for, leaves every
    waiting list and ends ready, in the ready queue; in the end no waiter that could go
    on is left, the other threads are untouched, and a pulse object is reset. *)
Theorem WakeupAllWaitingThreads_wakes k o :
  sync_ok k -> is_Some (objects k !! o) ->
  exists ws k1 k', WakeupAllWaitingThreads result_raw o k = Done k' tt /\
    wakes o k ws k1 /\ nobody_ready k1 o /\ skel k' = sk_object o pulse_clear (skel k1) /\
    sync_ok k' /\ current_thread k' = current_thread k /\
    NoDup ws /\
    (forall t, t ∈ ws -> exists ob th, objects k !! o = Some ob /\ t ∈ waiting_threads ob /\
       threads k' !! t = Some th /\ status th = Ready /\ wait_objects th = [] /\
       t ∈ rq_list (ready_queue k') (current_priority th)) /\
    (forall t, t ∉ ws -> sthreads (skel k') !! t = sthreads (skel k) !! t).
Proof. apply WakeupAll_outcome. Qed.

(** ** Postconditions

    [wp m k P]: from [k], [m] does not trip an assertion; a failure leaves a sound
    state, and a result satisfies [P]. *)
Definition wp {A} (m : op K A) (k : K) (P : A -> K -> Prop) : Prop :=
  match m k with
  | Done k' a => P a k'
  | Failed k' _ => sync_ok k'
  | Aborted => False
  end.

Lemma wp_bind {A B} (m : op K A) (n : A -> op K B) k P :
  wp m k (fun a k' => wp (n a) k' P) -> wp (bind m n) k P.
Proof. unfold wp, bind. by destruct (m k). Qed.

Lemma wp_mono {A} (m : op K A) k (P P' : A -> K -> Prop) :
  wp m k P -> (forall a k', P a k' -> P' a k') -> wp m k P'.
Proof. unfold wp. destruct (m k); auto. Qed.

Lemma wp_Done {A} (m : op K A) k k' a (P : A -> K -> Prop) : m k = Done k' a -> P a k' -> wp m k P.
Proof. unfold wp. by intros ->. Qed.

Lemma wp_read {A B} (m : op K A) (n : A -> op K B) k a P : m k = Done k a -> wp (n a) k P -> wp (bind m n) k P.
Proof. intros E H. apply wp_bind. by eapply wp_Done. Qed.

Lemma wp_step {A B} (m : op K A) (n : A -> op K B) k k' a P : m k = Done k' a -> wp (n a) k' P -> wp (bind m n) k P.
Proof. intros E H. apply wp_bind. by eapply wp_Done. Qed.

Lemma wp_R_UNLESS {B} b rc (n : unit -> op K B) k P :
  sync_ok k -> (b = true -> wp (n tt) k P) -> wp (bind (R_UNLESS b rc) n) k P.
Proof. intros Hk H. unfold wp, bind, R_UNLESS. destruct b; [by apply H|done]. Qed.

(** A step that acts on the skeleton, then the rest. *)
Lemma wp_runs {B} (m : op K unit) (n : unit -> op K B) k F P :
  runs m k F ->
  (forall k', skel k' = F (skel k) -> (ready_ok k -> ready_ok k') -> current_thread k' = current_thread k ->
     wp (n tt) k' P) ->
  wp (bind m n) k P.
Proof. intros (k' & E & S' & Q' & C') H. apply wp_bind. eapply wp_Done; [exact E|]. by apply H. Qed.

(** A step that keeps the invariants of the skeleton. *)
Lemma wp_ok {B} (m : op K unit) (n : unit -> op K B) k F P :
  sync_ok k -> runs m k F -> sk_ok (F (skel k)) -> sched_le (skel k) (F (skel k)) ->
  (forall k', skel k' = F (skel k) -> sync_ok k' -> current_thread k' = current_thread k -> wp (n tt) k' P) ->
  wp (bind m n) k P.
Proof.
  intros Hok Hr Hs Hle H. eapply wp_runs; [exact Hr|]. intros k' E Q' C'. apply H; [done| |done].
  apply (sync_ok_step k); rewrite ?E; done.
Qed.

Lemma wp_last (m : op K unit) k (P : unit -> K -> Prop) : wp (bind m (fun _ => ret tt)) k P -> wp m k P.
Proof. unfold wp, bind. destruct (m k) as [? []| |]; done. Qed.

Lemma wakes_same o k ws k' :
  wakes o k ws k' -> sched_le (skel k) (skel k') /\ same_shape (skel k) (skel k').
Proof.
  induction 1 as [k|k t k1 ws k2 ob Eo Hb S1 Q1 Hws [IH1 IH2]]; [split; reflexivity|]. split.
  - etrans; [|exact IH1]. rewrite S1. apply sched_le_wake.
  - etrans; [|exact IH2]. rewrite S1. apply same_shape_wake.
Qed.

Lemma wp_WakeupAll {B} o (n : unit -> op K B) k P :
  sync_ok k -> is_Some (objects k !! o) ->
  (forall k', sync_ok k' -> sched_le (skel k) (skel k') -> current_thread k' = current_thread k ->
     same_shape (skel k) (skel k') -> wp (n tt) k' P) ->
  wp (bind (WakeupAllWaitingThreads result_raw o) n) k P.
Proof.
  intros Hok Ho H.
  destruct (WakeupAll_outcome k o Hok Ho) as (ws & k1 & k' & E & Hws & _ & S' & Hok' & C' & _).
  apply wp_bind. eapply wp_Done; [exact E|]. destruct (wakes_same _ _ _ _ Hws) as [H1 H2]. apply H; rewrite ?S'; try done.
  etrans; [exact H2|]. apply same_shape_pulse.
Qed.
End Sync.
