(* ===== verification/Reschedule.v ===== *)
(** * Reschedule: choosing the next thread

    The scheduler of [Kernel] against its specification: the thread that runs next is
    the first of the most urgent threads that may be scheduled, the current thread
    included when it can go on; the threads passed over keep their places in the ready
    queue. *)
From stdpp Require Import gmap.
From S2P Require Import Prelude Result Kernel Skeleton Sync.

Local Open Scope Z_scope.

Section Reschedule.
Context {Q : Type} `{!ReadyQueue Q} `{!ReadyQueueLaws Q} {T : Type} `{!TimingService T}.

Local Abbreviation K := (@Kernel Q T).

(** ** One pop *)

(** [pop] under a limit takes the head of the most urgent list below the limit. *)
Lemma pop_spec (k : K) limit :
  exists r q, pop limit k = Done (set_queue q k) r /\
  match r with
  | None => forall p, rq_list q p = rq_list (ready_queue k) p /\
      (from_option (fun l => p < l) True limit -> rq_list (ready_queue k) p = [])
  | Some (p, t) => from_option (fun l => p < l) True limit /\
      forall p', rq_list (ready_queue k) p' = (if p' =? p then t :: rq_list q p else rq_list q p') /\
        (p' < p -> rq_list (ready_queue k) p' = [])
  end.
Proof.
  unfold pop. destruct limit as [l|].
  - destruct (rq_pop_first_better l (ready_queue k)) as [[[p t]|] q] eqn:E; eexists _, q; (split; [done|]).
    + split; [by destruct (rq_pop_first_better_Some _ _ _ _ _ p E)|]. intros p'.
      by destruct (rq_pop_first_better_Some _ _ _ _ _ p' E) as (_ & ? & ?).
    + intros p. by destruct (rq_pop_first_better_None _ _ _ p E).
  - destruct (rq_pop_first (ready_queue k)) as [[[p t]|] q] eqn:E; eexists _, q; (split; [done|]).
    + split; [done|]. intros p'. by apply rq_pop_first_Some.
    + intros p. destruct (rq_pop_first_None _ _ p E) as [H1 H2]. by rewrite H1, H2.
Qed.

(** ** The threads passed over *)

(** The entries of a list of pairs at a priority, in order. *)
Definition at_priority (p : Z) (l : list (Z * Z)) : list Z :=
  (filter (fun x => x.1 = p) l).*2.

Lemma at_priority_app p l1 l2 : at_priority p (l1 ++ l2) = at_priority p l1 ++ at_priority p l2.
Proof. unfold at_priority. by rewrite filter_app, fmap_app. Qed.

Lemma at_priority_cons p x l :
  at_priority p (x :: l) = if x.1 =? p then x.2 :: at_priority p l else at_priority p l.
Proof.
  unfold at_priority. rewrite filter_cons. destruct (Z.eqb_spec x.1 p); case_decide; done.
Qed.

(** Pushing them back in reverse order restores the queue. *)
Lemma push_back_skipped (k : K) l :
  exists q, for_each (fun it => modify_queue (rq_push_front it.1 it.2)) (rev l) k = Done (set_queue q k) tt /\
    forall p, rq_list q p = at_priority p l ++ rq_list (ready_queue k) p.
Proof.
  revert k. induction l as [|[p0 t0] l IH] using rev_ind; intros k.
  - exists (ready_queue k). split; [by destruct k|done].
  - rewrite rev_app_distr. simpl. erewrite bind_Done by reflexivity.
    destruct (IH (set_queue (rq_push_front p0 t0 (ready_queue k)) k)) as (q & E & Hq). exists q. split; [exact E|].
    intros p. rewrite Hq, at_priority_app, at_priority_cons, <-app_assoc. simpl. rewrite rq_list_push_front.
    destruct (Z.eqb_spec p0 p) as [->|Hne]; [by rewrite Z.eqb_refl|].
    destruct (Z.eqb_spec p p0); [congruence|done].
Qed.

(** What the loop has popped so far: threads that may not be scheduled. *)
Record popped (k0 : K) (q : Q) (skipped : list (Z * Z)) : Prop := {
  popped_lists : forall p, rq_list (ready_queue k0) p = at_priority p skipped ++ rq_list q p;
  popped_nodup : NoDup skipped.*2;
  popped_no : forall p t, (p, t) ∈ skipped -> exists th, threads k0 !! t = Some th /\ can_schedule th = false
}.

Lemma popped_elem k0 q skipped p t : popped k0 q skipped -> (p, t) ∈ skipped -> t ∈ rq_list (ready_queue k0) p.
Proof.
  intros [H _ _] Hin. rewrite H, elem_of_app. left. unfold at_priority. apply list_elem_of_fmap.
  exists (p, t). split; [done|]. by apply list_elem_of_filter.
Qed.

(** The loop cannot pop more entries than there are threads. *)
Lemma popped_length k0 q skipped : popped k0 q skipped -> (length skipped <= size (threads k0))%nat.
Proof.
  intros [_ Hn Hs]. rewrite <-(length_fmap snd). rewrite <-(size_list_to_set (C := gset Z)) by done.
  rewrite <-size_dom. apply subseteq_size. intros t. rewrite elem_of_list_to_set, elem_of_dom.
  intros ([p' t'] & -> & Hin)%list_elem_of_fmap. destruct (Hs p' t' Hin) as (th & E & _). simpl. by rewrite E.
Qed.

Definition below (limit : option Z) (p : Z) : Prop := from_option (fun l => p < l) True limit.

(** The result of the loop: [t] is the next thread, [q] the queue it leaves. *)
Definition loop_result (k0 : K) (limit next : option Z) (q : Q) (skipped : list (Z * Z)) : Prop :=
  (forall p t, (p, t) ∈ skipped -> exists th, threads k0 !! t = Some th /\ can_schedule th = false) /\
  match next with
  | None => forall p, rq_list (ready_queue k0) p = at_priority p skipped ++ rq_list q p /\
      (below limit p -> rq_list q p = [])
  | Some t => exists th, threads k0 !! t = Some th /\ status th = Ready /\ can_schedule th = true /\
      below limit (current_priority th) /\
      forall p, rq_list (ready_queue k0) p =
          at_priority p skipped ++ (if p =? current_priority th then [t] else []) ++ rq_list q p /\
        (p < current_priority th -> rq_list q p = [])
  end.

Lemma pop_loop_spec k0 limit fuel q skipped :
  ready_ok k0 -> popped k0 q skipped -> (size (threads k0) < fuel + length skipped)%nat ->
  exists next skipped' q', pop_loop fuel limit skipped (set_queue q k0) = Done (set_queue q' k0) (next, skipped') /\
    loop_result k0 limit next q' skipped'.
Proof.
  intros Hok. revert q skipped. induction fuel as [|fuel IH]; intros q skipped Hp Hf.
  { pose proof (popped_length _ _ _ Hp). lia. }
  destruct (pop_spec (set_queue q k0) limit) as (r & q1 & E & Hr). simpl.
  erewrite bind_Done by exact E. pose proof Hp as [Hl Hn Hs]. destruct r as [[p t]|].
  - destruct Hr as [Hlim Hr]. cbn [ready_queue set_queue] in Hr.
    assert (Hin : t ∈ rq_list (ready_queue k0) p).
    { destruct (Hr p) as [H1 _]. rewrite Z.eqb_refl in H1. rewrite Hl, H1, elem_of_app. right. by left. }
    destruct (ready_in _ Hok p t Hin) as (th & Et & Hst & Hpr). subst p.
    erewrite bind_Done by (by apply thread_Done). destruct (can_schedule th) eqn:Ec.
    + exists (Some t), skipped, q1. split; [done|]. split; [done|]. exists th. split_and!; [done..|]. intros p'.
      destruct (Hr p') as [H1 H2]. rewrite Hl, H1. split.
      * by destruct (p' =? current_priority th) eqn:Ep; [apply Z.eqb_eq in Ep as ->|].
      * intros Hlt. specialize (H2 Hlt). rewrite H1 in H2. destruct (Z.eqb_spec p' (current_priority th)); [lia|done].
    + assert (Hts : t ∉ skipped.*2).
      { intros ([p' t'] & -> & Hin')%list_elem_of_fmap. simpl in *.
        destruct (ready_in _ Hok _ _ (popped_elem _ _ _ _ _ Hp Hin')) as (th' & Et' & _ & Hpr').
        assert (p' = current_priority th) as -> by congruence.
        pose proof (ready_once _ Hok (current_priority th)) as Hnd. rewrite Hl in Hnd.
        destruct (Hr (current_priority th)) as [H1 _]. rewrite H1, Z.eqb_refl in Hnd.
        apply NoDup_app in Hnd as (_ & Hd & _). apply (Hd t'); [|by left]. unfold at_priority.
        apply list_elem_of_fmap. exists (current_priority th, t'). split; [done|]. by apply list_elem_of_filter. }
      destruct (IH q1 (skipped ++ [(current_priority th, t)])) as (next & sk' & q' & E' & H').
      * split.
        -- intros p'. rewrite Hl, at_priority_app, at_priority_cons, <-app_assoc. simpl.
           destruct (Hr p') as [-> _]. rewrite (Z.eqb_sym p').
           by destruct (Z.eqb_spec (current_priority th) p') as [->|].
        -- rewrite fmap_app. apply NoDup_app. split_and!; [done| |apply NoDup_singleton].
           by intros x Hx ->%list_elem_of_singleton.
        -- intros p' t' [Hin'|[= -> ->]%list_elem_of_singleton]%elem_of_app; eauto.
      * rewrite length_app. simpl. lia.
      * exists next, sk', q'. split; [exact E'|done].
  - exists None, skipped, q1. split; [done|]. split; [done|]. intros p. destruct (Hr p) as [H1 H2].
    cbn [ready_queue set_queue] in H1, H2. rewrite Hl, H1. split; [done|]. intros Hb. by apply H2.
Qed.

(** ** The next thread *)

(** A ready thread that may be scheduled. *)
Definition schedulable (k : K) (t : Z) (th : Thread) : Prop :=
  threads k !! t = Some th /\ status th = Ready /\ can_schedule th = true.

(** No schedulable thread is more urgent than [p]. *)
Definition none_better (k : K) (p : Z) : Prop :=
  forall t th, schedulable k t th -> p <= current_priority th.

(** The queue without [x], otherwise in step with the threads. *)
Record ready_except (x : option Z) (k : K) : Prop := {
  except_in : forall p t, t ∈ rq_list (ready_queue k) p ->
    Some t <> x /\ exists th, threads k !! t = Some th /\ status th = Ready /\ current_priority th = p;
  except_all : forall t th, Some t <> x -> threads k !! t = Some th -> status th = Ready ->
    t ∈ rq_list (ready_queue k) (current_priority th);
  except_once : forall p, NoDup (rq_list (ready_queue k) p);
  except_prio : forall t th, threads k !! t = Some th -> current_priority th <= nominal_priority th <= ThreadPrioLowest
}.

Lemma ready_except_None k : ready_except None k <-> ready_ok k.
Proof.
  split; intros [H1 H2 H3 H4]; split; auto.
  intros p t Hin. by destruct (H1 p t Hin).
Qed.

Lemma ready_except_lists x k q :
  (forall p, rq_list q p = rq_list (ready_queue k) p) -> ready_except x k -> ready_except x (set_queue q k).
Proof. intros Hq [H1 H2 H3 H4]. split; simpl; intros *; rewrite ?Hq; eauto. Qed.

(** The current thread, when it can go on. *)
Definition running (k : K) : op K (option (Z * Z)) :=
  match current_thread k with
  | Some t => bind (thread t) (fun th =>
      if bool_decide (status th = Running) then ret (Some (t, current_priority th)) else ret None)
  | None => ret None
  end.

Lemma running_Done k :
  run_ok k -> exists r, running k k = Done k r /\
    match r with
    | Some (t, p) => current_thread k = Some t /\ exists th, threads k !! t = Some th /\ status th = Running /\ current_priority th = p
    | None => forall t th, threads k !! t = Some th -> status th <> Running
    end.
Proof.
  intros [H1 H2]. unfold running. destruct (current_thread k) as [t|] eqn:Ec.
  - destruct (H2 t eq_refl) as [th E]. erewrite bind_Done by (by apply thread_Done).
    destruct (bool_decide_reflect (status th = Running)) as [Hr|Hr]; eexists; (split; [reflexivity|]); simpl.
    + split; [done|]. by exists th.
    + intros t' th' E' Hr'. assert (t' = t) as -> by (specialize (H1 _ _ E' Hr'); congruence). congruence.
  - eexists. split; [reflexivity|]. intros t th E Hr. by specialize (H1 _ _ E Hr).
Qed.

(** The loop's result with the threads passed over put back. *)
Lemma loop_result_next k limit next q skipped q2 :
  ready_ok k -> loop_result k limit next q skipped ->
  (forall p, rq_list q2 p = at_priority p skipped ++ rq_list q p) ->
  (forall t th, schedulable k t th -> t ∈ rq_list q (current_priority th) \/ next = Some t) /\
  ready_except next (set_queue q2 k) /\
  match next with
  | None => forall t th, schedulable k t th -> ~ below limit (current_priority th)
  | Some t => exists th, schedulable k t th /\ below limit (current_priority th) /\ none_better k (current_priority th)
  end.
Proof.
  intros Hok [Hs Hn] Hq. pose proof Hok as [H1 H2 H3 H4].
  assert (Hsk : forall t th, schedulable k t th -> forall p, t ∉ at_priority p skipped).
  { intros t th (E & _ & Hc) p ([p' t'] & -> & [_ Hin]%list_elem_of_filter)%list_elem_of_fmap.
    destruct (Hs _ _ Hin) as (th' & E' & Hc'). simpl in E. congruence. }
  destruct next as [t|].
  - destruct Hn as (th & E & Hst & Hc & Hb & Hl).
    assert (Hin : forall t' th', schedulable k t' th' -> t' ∈ rq_list q (current_priority th') \/ Some t = Some t').
    { intros t' th' Hsc. pose proof Hsc as (E' & Hst' & _). pose proof (H2 _ _ E' Hst') as Hi.
      destruct (Hl (current_priority th')) as [Hl' _]. rewrite Hl', !elem_of_app in Hi.
      destruct Hi as [Hi|[Hi|Hi]]; [by destruct (Hsk _ _ Hsc _ Hi)| |by left].
      case_match; [|by apply elem_of_nil in Hi]. apply list_elem_of_singleton in Hi as ->. by right. }
    split_and!; [done| |].
    + assert (Hperm : forall p, NoDup ((if p =? current_priority th then [t] else []) ++ rq_list q2 p) /\
        forall x, x ∈ rq_list (ready_queue k) p <-> x ∈ (if p =? current_priority th then [t] else []) \/ x ∈ rq_list q2 p).
      { intros p. destruct (Hl p) as [Hl' _]. pose proof (H3 p) as Hnd. rewrite Hl' in Hnd. rewrite Hq. split.
        - eapply NoDup_Permutation_proper; [|exact Hnd]. rewrite !(assoc_L (++)). f_equiv. apply Permutation_app_comm.
        - intros x. rewrite Hl', !elem_of_app. tauto. }
      split; cbn [ready_queue set_queue threads].
      * intros p t' Hin'. destruct (Hperm p) as [Hnd Hm]. assert (Hk : t' ∈ rq_list (ready_queue k) p) by (apply Hm; by right).
        destruct (H1 p t' Hk) as (th' & E' & Hst' & Hp'). split; [|eauto]. intros [= ->].
        assert (p = current_priority th) as -> by congruence. rewrite Z.eqb_refl in Hnd.
        apply NoDup_app in Hnd as (_ & Hd & _). by apply (Hd t); [left|].
      * intros t' th' Hne E' Hst'. destruct (Hperm (current_priority th')) as [_ Hm].
        destruct (proj1 (Hm t') (H2 _ _ E' Hst')) as [Hi|Hi]; [|done]. case_match; [|by apply elem_of_nil in Hi].
        apply list_elem_of_singleton in Hi as ->. done.
      * intros p. destruct (Hperm p) as [Hnd _]. by apply NoDup_app in Hnd as (_ & _ & ?).
      * done.
    + exists th. split_and!; [done|done|]. intros t' th' Hsc. destruct (Hin _ _ Hsc) as [Hi|[= <-]].
      * destruct (Z.le_gt_cases (current_priority th) (current_priority th')) as [|Hlt]; [done|].
        destruct (Hl (current_priority th')) as [_ He]. rewrite He in Hi by lia. by apply elem_of_nil in Hi.
      * destruct Hsc as (E' & _). replace th' with th by congruence. done.
  - assert (Hin : forall t' th', schedulable k t' th' -> t' ∈ rq_list q (current_priority th')).
    { intros t' th' Hsc. pose proof Hsc as (E' & Hst' & _). pose proof (H2 _ _ E' Hst') as Hi.
      destruct (Hn (current_priority th')) as [Hl' _]. rewrite Hl', elem_of_app in Hi.
      destruct Hi as [Hi|Hi]; [by destruct (Hsk _ _ Hsc _ Hi)|done]. }
    split_and!.
    + intros t th Hsc. left. by apply Hin.
    + apply ready_except_lists; [|by apply ready_except_None]. intros p. rewrite Hq. by destruct (Hn p) as [<- _].
    + intros t th Hsc Hb. specialize (Hin _ _ Hsc). destruct (Hn (current_priority th)) as [_ He].
      rewrite He in Hin by done. by apply elem_of_nil in Hin.
Qed.

(** The choice: the current thread goes on ([inl]) or another one was taken from the
    queue ([inr]). *)
Definition chosen (k : K) (next : option Z) (q : Q) : Prop :=
  match next with
  | None => (forall t th, threads k !! t = Some th -> status th <> Running) /\
      (forall t th, ~ schedulable k t th) /\ ready_except None (set_queue q k)
  | Some t => exists th, threads k !! t = Some th /\ none_better k (current_priority th) /\
      ((status th = Running /\ ready_except None (set_queue q k)) \/
       (schedulable k t th /\ ready_except (Some t) (set_queue q k) /\
        forall t' th', threads k !! t' = Some th' -> status th' = Running -> current_priority th < current_priority th'))
  end.

Lemma PopNextReadyThread_spec k :
  sync_ok k -> exists next q, PopNextReadyThread k = Done (set_queue q k) next /\ chosen k next q.
Proof.
  intros Hok. destruct (running_Done k (sync_run _ Hok)) as (r & Er & Hr). unfold PopNextReadyThread.
  rewrite bind_get. erewrite bind_Done by exact Er.
  destruct (pop_loop_spec k (snd <$> r) (S (size (threads k))) (ready_queue k) []) as (next & sk & q & El & Hl).
  { apply Hok. }
  { split; [done|constructor|by intros p t ?%elem_of_nil]. }
  { simpl. lia. }
  assert (Ek : set_queue (ready_queue k) k = k) by (by destruct k). rewrite Ek in El.
  erewrite bind_Done by exact El. destruct (push_back_skipped (set_queue q k) sk) as (q2 & Ep & Hq2).
  erewrite bind_Done by exact Ep.
  destruct (loop_result_next k (snd <$> r) next q sk q2 (sync_ready _ Hok) Hl Hq2) as (_ & Hex & Hn).
  assert (Hrun : forall t' th', threads k !! t' = Some th' -> status th' = Running ->
            exists p, r = Some (t', p) /\ p = current_priority th').
  { intros t' th' E' Hr'. destruct r as [[t p]|]; [|by destruct (Hr t' th' E')].
    destruct Hr as (Hc & th & E & _ & Hp). exists p. pose proof (run_current _ (sync_run _ Hok) _ _ E' Hr') as Hc'.
    assert (t' = t) as -> by congruence. split; [done|congruence]. }
  exists (match next, r with None, Some (t, _) => Some t | _, _ => next end), q2. split; [done|].
  destruct next as [t|].
  - destruct Hn as (th & Hsc & Hb & Hbest). exists th. split_and!; [apply Hsc|done|]. right. split_and!; [done|done|].
    intros t' th' E' Hr'. destruct (Hrun t' th' E' Hr') as (p & -> & ->). exact Hb.
  - destruct r as [[t p]|].
    + destruct Hr as (Hc & th & E & Hst & Hp). exists th. split_and!; [done| |by left]. intros t' th' Hsc.
      pose proof (Hn t' th' Hsc) as Hnb. simpl in Hnb. lia.
    + split_and!; [done| |done]. intros t' th' Hsc. by apply (Hn t' th' Hsc).
Qed.

(** ** Switching *)

Lemma put_back_except x k p th :
  ready_except x k -> threads k !! p = Some th -> status th = Running -> x <> Some p ->
  ready_except x (set_threads (<[p := set_status Ready th]> (threads k))
    (set_queue (rq_push_front (current_priority th) p (ready_queue k)) k)).
Proof.
  intros [H1 H2 H3 H4] E Hr Hx.
  assert (Hni : forall p', p ∉ rq_list (ready_queue k) p').
  { intros p' Hin. destruct (H1 p' p Hin) as (_ & th' & E' & Hst & _). congruence. }
  split; simpl.
  - intros p' t. rewrite rq_list_push_front. destruct (Z.eqb_spec p' (current_priority th)) as [->|Hne].
    + intros [->|Hin]%elem_of_cons; [split; [congruence|]; rewrite lookup_insert_eq; by exists (set_status Ready th)|].
      rewrite lookup_insert_ne by (intros ->; by apply (Hni _ Hin)). eauto.
    + intros Hin. rewrite lookup_insert_ne by (intros ->; by apply (Hni _ Hin)). eauto.
  - intros t th' Hne. rewrite rq_list_push_front. destruct (decide (t = p)) as [->|Hnp].
    + rewrite lookup_insert_eq. intros [= <-] _. simpl. rewrite Z.eqb_refl. by left.
    + rewrite lookup_insert_ne by done. intros E' Hst. pose proof (H2 _ _ Hne E' Hst) as Hin.
      case_match eqn:Ep; [|done]. apply Z.eqb_eq in Ep. rewrite <-Ep. by right.
  - intros p'. rewrite rq_list_push_front. case_match; [|done]. constructor; [apply Hni|done].
  - intros t th'. destruct (decide (t = p)) as [->|Hnp]; [rewrite lookup_insert_eq; intros [= <-]; apply (H4 _ _ E)|].
    rewrite lookup_insert_ne by done. apply H4.
Qed.

Lemma dispatch_ready x k t th :
  ready_except x k -> x = None \/ x = Some t -> threads k !! t = Some th -> status th = Ready ->
  ready_ok (set_threads (<[t := set_status Running th]> (threads k))
    (set_queue (rq_remove (current_priority th) t (ready_queue k)) k)).
Proof.
  intros [H1 H2 H3 H4] Hx E Hr.
  assert (Hm : forall p t', t' ∈ rq_list (rq_remove (current_priority th) t (ready_queue k)) p <->
            t' <> t /\ t' ∈ rq_list (ready_queue k) p).
  { intros p t'. rewrite rq_list_remove. destruct (Z.eqb_spec p (current_priority th)) as [->|Hne].
    - rewrite elem_of_erase_first by done. tauto.
    - split; [intros Hin; split; [|done]|tauto]. intros ->. destruct (H1 p t Hin) as (_ & th' & E' & _ & Hp). congruence. }
  split; simpl.
  - intros p t' [Hne Hin]%Hm. rewrite lookup_insert_ne by done. by destruct (H1 p t' Hin).
  - intros t' th'. destruct (decide (t' = t)) as [->|Hne]; [rewrite lookup_insert_eq; by intros [= <-]|].
    rewrite lookup_insert_ne by done. intros E' Hst. apply Hm. split; [done|]. apply H2; [|done..].
    destruct Hx as [->| ->]; [done|congruence].
  - intros p. rewrite rq_list_remove. case_match; [by apply NoDup_erase_first|done].
  - intros t' th'. destruct (decide (t' = t)) as [->|Hne]; [rewrite lookup_insert_eq; intros [= <-]; apply (H4 _ _ E)|].
    rewrite lookup_insert_ne by done. apply H4.
Qed.

Definition can_run (s : ThreadStatus) : Prop := s = Ready \/ s = Running.

Lemma sk_ok_status s t th st :
  sk_ok s -> sthreads s !! t = Some th -> can_run (status th) -> can_run st -> sk_ok (sk_thread t (set_status st) s).
Proof.
  intros Hok E Hc Hst. eapply sk_ok_idle_status; [done|done| |by apply (wait_callback _ (sk_wait _ Hok) t th E)].
  apply (wait_ok_no_objects s t); [apply Hok|done|]. by destruct Hc as [-> | ->].
Qed.

(** The current thread gives up the processor. *)
Definition pause (th : Thread) : Thread := if bool_decide (status th = Running) then set_status Ready th else th.

Definition stop_current (k : K) : op K unit :=
  match current_thread k with
  | Some p => bind (thread p) (fun th =>
      if bool_decide (status th = Running) then
        bind (modify_queue (rq_push_front (current_priority th) p)) (fun _ => modify_thread p (set_status Ready))
      else ret tt)
  | None => ret tt
  end.

Lemma stop_current_spec k x q :
  sync_ok k -> ready_except x (set_queue q k) ->
  (forall p th, threads k !! p = Some th -> status th = Running -> x <> Some p) ->
  exists k2, stop_current k (set_queue q k) = Done k2 tt /\ threads k2 = pause <$> threads k /\
    objects k2 = objects k /\ ready_except x k2 /\ sk_ok (skel k2).
Proof.
  intros Hok Hex Hx. pose proof (sync_run _ Hok) as [R1 R2].
  assert (Hidle : (forall t th, threads k !! t = Some th -> status th <> Running) -> pause <$> threads k = threads k).
  { intros H. rewrite <-(map_fmap_id (threads k)) at 2. apply map_fmap_ext. intros t th E. unfold pause.
    by rewrite bool_decide_eq_false_2 by eauto. }
  assert (Hstay : (forall t th, threads k !! t = Some th -> status th <> Running) -> exists k2,
    Done (set_queue q k) tt = Done k2 tt /\ threads k2 = pause <$> threads k /\ objects k2 = objects k /\
    ready_except x k2 /\ sk_ok (skel k2)).
  { intros H. exists (set_queue q k). split_and!; try done; [by rewrite Hidle|apply Hok]. }
  unfold stop_current. destruct (current_thread k) as [p|] eqn:Ec.
  - destruct (R2 p eq_refl) as [th E]. erewrite bind_Done by (by apply thread_Done).
    destruct (bool_decide_reflect (status th = Running)) as [Hr|Hr].
    + eexists. split.
      { erewrite bind_Done by reflexivity. unfold modify_thread. by erewrite bind_Done by (by apply thread_Done). }
      assert (Hp : <[p := set_status Ready th]> (threads k) = pause <$> threads k).
      { apply map_eq. intros i. rewrite lookup_fmap. destruct (decide (i = p)) as [->|Hne].
        - rewrite lookup_insert_eq, E. simpl. unfold pause. by rewrite bool_decide_eq_true_2.
        - rewrite lookup_insert_ne by done. destruct (threads k !! i) as [th'|] eqn:E'; [|done]. simpl.
          unfold pause. rewrite bool_decide_eq_false_2; [done|]. intros Hr'. specialize (R1 _ _ E' Hr'). congruence. }
      split_and!; [done|done| |].
      * exact (put_back_except x (set_queue q k) p th Hex E Hr (Hx _ _ E Hr)).
      * assert (S' : skel (set_threads (<[p := set_status Ready th]> (threads k))
            (set_queue (rq_push_front (current_priority th) p q) k)) = sk_thread p (set_status Ready) (skel k)).
        { unfold skel, sk_thread. simpl. f_equal. rewrite (skel_insert k p th) by done. by rewrite fmap_insert. }
        change (sk_ok (skel (set_threads (<[p := set_status Ready th]> (threads k))
            (set_queue (rq_push_front (current_priority th) p q) k)))). rewrite S'.
        eapply sk_ok_status; [apply Hok|by rewrite skel_thread, E|by right|by left].
    + apply Hstay. intros t th' E' Hr'. specialize (R1 _ _ E' Hr'). congruence.
  - apply Hstay. intros t th E Hr. specialize (R1 _ _ E Hr). done.
Qed.

Lemma pause_pause th : pause (pause th) = pause th.
Proof. unfold pause. repeat case_bool_decide; done. Qed.

Lemma pause_not_running th : status (pause th) <> Running.
Proof. unfold pause. by case_bool_decide. Qed.

Lemma pause_Running th : status th = Ready -> pause (set_status Running th) = pause th.
Proof.
  intros H. destruct th. simpl in H. by subst.
Qed.

Lemma schedulable_pause k t th :
  pause <$> threads k !! t = Some th -> status th = Ready -> can_schedule th = true ->
  exists th0, threads k !! t = Some th0 /\ current_priority th0 = current_priority th /\
    (schedulable k t th0 \/ status th0 = Running).
Proof.
  destruct (threads k !! t) as [th0|] eqn:E; [|done]. intros [= <-]. unfold pause.
  case_bool_decide as Hr; intros Hst Hc; exists th0; split_and!; try done; [by right|]. left. by split.
Qed.

(** The chosen thread takes the processor. *)
Lemma SwitchContext_to k t q :
  sync_ok k -> chosen k (Some t) q ->
  exists k', SwitchContext (Some t) (set_queue q k) = Done k' tt /\ sync_ok k' /\ current_thread k' = Some t /\
    objects k' = objects k /\
    exists th, threads k' = <[t := set_status Running th]> (pause <$> threads k) /\
      pause <$> threads k !! t = Some th /\ status th = Ready /\ none_better k (current_priority th) /\
      (forall t' th', threads k !! t' = Some th' -> status th' = Running -> current_priority th <= current_priority th').
Proof.
  intros Hok (th0 & E0 & Hnb & Hch).
  assert (exists x, ready_except x (set_queue q k) /\ (x = None \/ x = Some t) /\
            (forall p th, threads k !! p = Some th -> status th = Running -> x <> Some p) /\
            (forall t' th', threads k !! t' = Some th' -> status th' = Running -> current_priority th0 <= current_priority th'))
    as (x & Hex & Hx & Hxr & Hle).
  { destruct Hch as [[Hr Hex]|(Hsc & Hex & Hlt)].
    - exists None. split_and!; [done|by left|done|]. intros t' th' E' Hr'.
      pose proof (run_current _ (sync_run _ Hok) _ _ E0 Hr). pose proof (run_current _ (sync_run _ Hok) _ _ E' Hr').
      assert (t' = t) as -> by congruence. replace th' with th0 by congruence. done.
    - exists (Some t). split_and!; [done|by right| |]; intros t' th' E' Hr'; [|specialize (Hlt _ _ E' Hr'); lia].
      intros [= ->]. destruct Hsc as (E2 & Hst & _). congruence. }
  destruct (stop_current_spec k x q Hok Hex Hxr) as (k2 & E2 & Ht2 & Ho2 & Hex2 & Hsk2).
  assert (Et : threads k2 !! t = Some (pause th0)) by (by rewrite Ht2, lookup_fmap, E0).
  assert (Hrd : status (pause th0) = Ready /\ current_priority (pause th0) = current_priority th0).
  { unfold pause. case_bool_decide; [done|]. destruct Hch as [[Hr _]|[(_ & Hst & _) _]]; done. }
  destruct Hrd as [Hrd Hpr].
  set (k3 := set_current (Some t) (set_timing (UnscheduleEvent ThreadWakeupEvent t (timing k2)) k2)).
  set (k' := set_threads (<[t := set_status Running (pause th0)]> (threads k3))
               (set_queue (rq_remove (current_priority (pause th0)) t (ready_queue k3)) k3)).
  assert (S' : skel k' = sk_thread t (set_status Running) (skel k2)).
  { unfold skel, sk_thread. simpl. f_equal. rewrite (skel_insert k2 t (pause th0)) by done. by rewrite fmap_insert. }
  exists k'. split_and!.
  - unfold SwitchContext. rewrite bind_get. erewrite bind_Done by exact E2.
    erewrite bind_Done by (by apply thread_Done). unfold assert_. rewrite bool_decide_eq_true_2 by done.
    erewrite bind_Done by reflexivity. erewrite bind_Done by reflexivity. erewrite bind_Done by reflexivity.
    erewrite bind_Done by reflexivity. unfold modify_thread. by erewrite bind_Done by (by apply thread_Done).
  - split.
    + rewrite S'. eapply sk_ok_status; [done|by rewrite skel_thread, Et|by left|by right].
    + apply (dispatch_ready x k3 t (pause th0)); [|done..]. destruct Hex2 as [X1 X2 X3 X4]. by split.
    + split; simpl.
      * intros t' th'. destruct (decide (t' = t)) as [->|Hne]; [done|]. rewrite lookup_insert_ne, Ht2, lookup_fmap by done.
        destruct (threads k !! t') as [th1|]; [|done]. intros [= <-] Hr. by destruct (pause_not_running th1).
      * intros t' [= <-]. by rewrite lookup_insert_eq.
  - done.
  - done.
  - exists (pause th0). simpl. rewrite Ht2, Hpr, E0. by split_and!.
Qed.

Lemma Reschedule_outcome k :
  sync_ok k -> exists k', Reschedule k = Done k' tt /\ sync_ok k' /\
    match current_thread k' with
    | Some t => exists th, threads k' !! t = Some th /\ status th = Running /\ none_better k' (current_priority th)
    | None => forall t th, ~ schedulable k' t th
    end /\
    objects k' = objects k /\ pause <$> threads k' = pause <$> threads k.
Proof.
  intros Hok. destruct (PopNextReadyThread_spec k Hok) as (next & q & Ep & Hch).
  unfold Reschedule. rewrite bind_get. erewrite bind_Done by exact Ep. destruct next as [t|].
  - destruct (SwitchContext_to k t q Hok Hch) as (k' & E' & Hok' & Hc' & Ho' & th & Ht' & E & Hst & Hnb & Hle).
    exists k'. split; [by destruct (current_thread k)|]. split; [done|]. rewrite Hc'. split_and!; [|done|].
    + exists (set_status Running th). rewrite Ht', lookup_insert_eq. split_and!; [done|done|].
      intros t2 th2 (E2 & Hst2 & Hc2). rewrite Ht' in E2. destruct (decide (t2 = t)) as [->|Hne].
      { rewrite lookup_insert_eq in E2. by injection E2 as <-. }
      rewrite lookup_insert_ne, lookup_fmap in E2 by done.
      destruct (schedulable_pause k t2 th2 E2 Hst2 Hc2) as (th0 & E0 & <- & [Hsc|Hr]); simpl; [by apply (Hnb t2)|by apply (Hle t2)].
    + rewrite Ht', fmap_insert, pause_Running by done. rewrite <-map_fmap_compose.
      rewrite (map_fmap_ext _ pause (threads k)) by (intros; apply pause_pause). apply insert_id.
      rewrite lookup_fmap, E. f_equal. unfold pause. by rewrite bool_decide_eq_false_2 by congruence.
  - destruct Hch as (Hnr & Hns & Hex). destruct (stop_current_spec k None q Hok Hex) as (k2 & E2 & Ht2 & Ho2 & Hex2 & Hsk2).
    { done. }
    assert (Hid : pause <$> threads k = threads k).
    { rewrite <-(map_fmap_id (threads k)) at 2. apply map_fmap_ext. intros t th E. unfold pause.
      by rewrite bool_decide_eq_false_2 by eauto. }
    destruct (current_thread k) as [p|] eqn:Ec.
    + exists (set_current None k2). split.
      { unfold SwitchContext. rewrite bind_get. by erewrite bind_Done by exact E2. }
      split_and!; [|intros t th Hsc; apply (Hns t th); unfold schedulable in *; simpl in Hsc; by rewrite Ht2, Hid in Hsc
                  |done|simpl; by rewrite Ht2, Hid].
      split; [done| |].
      * apply ready_except_None. destruct Hex2 as [X1 X2 X3 X4]. by split.
      * split; simpl; [|done]. intros t th. rewrite Ht2, Hid. intros E Hr. by destruct (Hnr t th E).
    + exists (set_queue q k). split; [done|]. simpl. rewrite Ec. split_and!; try done. split; [apply Hok| |by destruct (sync_run _ Hok)].
      by apply ready_except_None.
Qed.

(** C23: [Reschedule] always succeeds.  Afterwards the current thread runs and none of the
    threads that are ready and may be scheduled has a better priority, or no thread
    runs and none could; the ready queue holds exactly the other ready threads; nothing
    but the two threads' statuses has changed, so that the threads passed over because
    they cannot be scheduled are back in the queue. *)
Theorem Reschedule_spec k :
  sync_ok k -> exists k', Reschedule k = Done k' tt /\ sync_ok k' /\
    match current_thread k' with
    | Some t => exists th, threads k' !! t = Some th /\ status th = Running /\ none_better k' (current_priority th)
    | None => forall t th, ~ schedulable k' t th
    end /\
    objects k' = objects k /\ pause <$> threads k' = pause <$> threads k.
Proof. apply Reschedule_outcome. Qed.
End Reschedule.
