(* ===== verification/KernelCalls.v ===== *)
(** * KernelCalls: the calls of the kernel keep its invariant

    Each call on the synchronisation objects, started in a state that satisfies the
    invariant of [Sync], trips no assertion and ends in such a state, whether it
    succeeds or fails. *)
From stdpp Require Import gmap.
From S2P Require Import Prelude Result Kernel Skeleton Sync Reschedule.

Local Open Scope Z_scope.

Section Calls.
Context {Q : Type} `{!ReadyQueue Q} `{!ReadyQueueLaws Q} {T : Type} `{!TimingService T}.
Variable nsToCycles : Z -> Z.
Variable result_raw : Result -> Z.

Local Abbreviation K := (@Kernel Q T).

Definition kind_of (k : K) (o : Z) : option ObjectKind := kind <$> objects k !! o.

(** The postcondition of every call. *)
Definition sound {A} (_ : A) (k : K) : Prop := sync_ok k.

Lemma sk_kind_of k o kd : kind_of k o = Some kd -> is_mutex (Some kd) = false ->
  kind <$> sobjects (skel k) !! o = Some kd.
Proof.
  unfold kind_of. rewrite skel_object. destruct (objects k !! o) as [ob|]; [|done]. intros [= <-] H. simpl.
  unfold stripO. destruct (kind ob) eqn:E; done || by rewrite E.
Qed.

(** ** Events, timers, semaphores *)

(** A new state for such an object. *)
Lemma wp_set_state {B} k o kd kd' f (n : unit -> op K B) P :
  sync_ok k -> kind_of k o = Some kd -> is_mutex (Some kd) = false -> kd <> ThreadObject ->
  is_mutex (Some kd') = false -> kd' <> ThreadObject ->
  (forall ob, kind ob = kd -> f ob = set_kind kd' ob) ->
  (forall k', sync_ok k' -> current_thread k' = current_thread k -> kind_of k' o = Some kd' -> wp (n tt) k' P) ->
  wp (bind (modify_object o f) n) k P.
Proof.
  intros Hok Hk Hm1 Ht1 Hm2 Ht2 Hf H. pose proof (sk_kind_of k o kd Hk Hm1) as Hsk.
  destruct (objects k !! o) as [ob|] eqn:Eo; [|unfold kind_of in Hk; by rewrite Eo in Hk].
  assert (kind ob = kd) as Eb by (unfold kind_of in Hk; rewrite Eo in Hk; by injection Hk).
  assert (Hs : forall ob kd, is_mutex (Some kd) = false -> kind ob = kd -> stripO ob = ob).
  { intros ob' kd0 H1 H2. unfold stripO. rewrite H2. by destruct kd0. }
  assert (R : runs (modify_object o f) k (sk_object o (set_kind kd'))).
  { apply (runs_modify_object k o ob); [done|]. rewrite (Hs ob kd), (Hs (f ob) kd'); try done; rewrite Hf; done. }
  destruct R as (k' & E & S' & Q' & C'). apply wp_bind. eapply wp_Done; [exact E|]. apply H; [|done|].
  - apply (sync_ok_step k); rewrite ?S'; auto with hle. apply sk_ok_kind; [apply Hok|by rewrite Hsk|done..].
  - unfold modify_object, bind, object in E. rewrite Eo in E. injection E as <-. unfold kind_of. simpl.
    rewrite lookup_insert_eq. simpl. by rewrite Hf.
Qed.

Lemma kind_exists k o kd : kind_of k o = Some kd -> is_Some (objects k !! o).
Proof. unfold kind_of. by destruct (objects k !! o). Qed.

Lemma wp_WakeupAll_last k o :
  sync_ok k -> is_Some (objects k !! o) -> wp (WakeupAllWaitingThreads result_raw o) k sound.
Proof. intros Hok Ho. apply wp_last. apply wp_WakeupAll; [done|done|]. by intros. Qed.

Lemma Event_Signal_wp k o r b :
  sync_ok k -> kind_of k o = Some (Event r b) -> wp (Event_Signal result_raw o) k sound.
Proof.
  intros Hok Hk. eapply (wp_set_state k o _ (Event r true)); try done; [by intros ob ->|]. intros k' Hok' _ Hk'.
  apply wp_WakeupAll_last; [done|by eapply kind_exists].
Qed.

Lemma Event_Clear_wp k o r b : sync_ok k -> kind_of k o = Some (Event r b) -> wp (Event_Clear o) k sound.
Proof.
  intros Hok Hk. apply wp_last. eapply (wp_set_state k o _ (Event r false)); try done; by intros ob ->.
Qed.

Lemma Timer_Clear_wp k o r b i n c : sync_ok k -> kind_of k o = Some (Timer r b i n c) -> wp (Timer_Clear o) k sound.
Proof.
  intros Hok Hk. apply wp_last. eapply (wp_set_state k o _ (Timer r false i n c)); try done; by intros ob ->.
Qed.

Lemma wp_timing {B} k f (n : unit -> op K B) P :
  sync_ok k -> (forall k', sync_ok k' -> current_thread k' = current_thread k -> objects k' = objects k -> wp (n tt) k' P) ->
  wp (bind (modify_timing f) n) k P.
Proof.
  intros Hok H. apply wp_bind. eapply wp_Done; [reflexivity|]. apply H; [|done..].
  destruct (runs_timing k f) as (k' & E & S' & Q' & C'). injection E as <-.
  eapply (sync_ok_step k); rewrite ?S'; try done. apply Hok.
Qed.

Lemma wp_object {B} k o ob (n : WaitObject -> op K B) P :
  objects k !! o = Some ob -> wp (n ob) k P -> wp (bind (object o) n) k P.
Proof. intros E. apply wp_read. by apply object_Done. Qed.

Lemma kind_of_shape k k' o kd :
  same_shape (skel k) (skel k') -> kind_of k o = Some kd ->
  exists kd', kind_of k' o = Some kd' /\ shape kd' = shape kd.
Proof.
  intros H. specialize (H o). rewrite !skel_object in H. unfold kind_of.
  destruct (objects k !! o) as [ob|]; [|done]. destruct (objects k' !! o) as [ob'|]; [|done]. intros [= <-].
  injection H as H. exists (kind ob'). split; [done|]. unfold stripO in H.
  destruct (kind ob) eqn:E1, (kind ob') eqn:E2; simpl in H; rewrite ?E1, ?E2 in H; done.
Qed.

Lemma wp_kind {B} k o kd (n : WaitObject -> op K B) P :
  kind_of k o = Some kd -> (forall ob, objects k !! o = Some ob -> kind ob = kd -> wp (n ob) k P) ->
  wp (bind (object o) n) k P.
Proof.
  unfold kind_of. intros Hk H. destruct (objects k !! o) as [ob|] eqn:E; [|done]. injection Hk as Hk.
  eapply wp_object; [done|auto].
Qed.

Lemma Timer_Signal_wp k o late r b i n c :
  sync_ok k -> kind_of k o = Some (Timer r b i n c) -> wp (Timer_Signal nsToCycles result_raw o late) k sound.
Proof.
  intros Hok Hk. eapply (wp_set_state k o _ (Timer r true i n c)); try done; [by intros ob ->|]. intros k1 Hok1 _ Hk1.
  apply wp_WakeupAll; [done|by eapply kind_exists|]. intros k2 Hok2 _ _ Hsh.
  destruct (kind_of_shape _ _ _ _ Hsh Hk1) as (kd & Hk2 & Hs). eapply wp_kind; [done|]. intros ob _ ->.
  destruct kd; try done. injection Hs as -> -> -> ->. destruct (negb (n =? 0)); [|done].
  apply wp_last, wp_timing; [done|]. by intros.
Qed.

Lemma Timer_Cancel_wp k o r b i n c : sync_ok k -> kind_of k o = Some (Timer r b i n c) -> wp (Timer_Cancel o) k sound.
Proof.
  intros Hok Hk. eapply wp_kind; [done|]. intros ob _ ->. apply wp_last, wp_timing; [done|]. by intros.
Qed.

Lemma Timer_Set_wp k o initial interval r b i n c :
  sync_ok k -> kind_of k o = Some (Timer r b i n c) -> wp (Timer_Set nsToCycles result_raw o initial interval) k sound.
Proof.
  intros Hok Hk. unfold Timer_Set. apply wp_bind. unfold Timer_Cancel. eapply wp_kind; [done|]. intros ob _ ->.
  apply wp_last, wp_timing; [done|]. intros k1 Hok1 _ Ho1. cbn.
  assert (Hk1 : kind_of k1 o = Some (Timer r b i n c)) by (unfold kind_of; by rewrite Ho1).
  eapply (wp_set_state k1 o _ (Timer r b (u64 initial) (u64 interval) c)); try done; [by intros ob' ->|]. intros k2 Hok2 _ Hk2.
  destruct (initial =? 0); [by eapply Timer_Signal_wp|]. eapply wp_kind; [done|]. intros ob' _ ->.
  apply wp_last, wp_timing; [done|]. by intros.
Qed.

Lemma Semaphore_Release_wp k o count m a :
  sync_ok k -> kind_of k o = Some (Semaphore m a) -> wp (Semaphore_Release result_raw o count) k sound.
Proof.
  intros Hok Hk. unfold Semaphore_Release. eapply wp_kind; [done|]. intros ob Eo Ek. rewrite Ek.
  apply wp_R_UNLESS; [done|]. intros _.
  assert (Hset : forall (n : unit -> op K Z) kd, put_object o (set_kind kd ob) k = modify_object o (set_kind kd) k).
  { intros _ kd. unfold modify_object, bind, object. by rewrite Eo. }
  assert (Hb : forall (n : unit -> op K Z) kd, bind (put_object o (set_kind kd ob)) n k = bind (modify_object o (set_kind kd)) n k).
  { intros n kd. unfold bind. by rewrite (Hset n). }
  unfold wp. rewrite Hb. fold (wp (bind (modify_object o (set_kind (Semaphore m (s32 (a + count)))))
    (fun _ => bind (WakeupAllWaitingThreads result_raw o) (fun _ => ret a))) k sound).
  eapply (wp_set_state k o _ (Semaphore m (s32 (a + count)))); try done. intros k' Hok' _ Hk'.
  apply wp_WakeupAll; [done|by eapply kind_exists|]. by intros.
Qed.

(** ** Mutexes *)

Definition drop_holder (ob : WaitObject) : WaitObject :=
  match kind ob with
  | Mutex l p _ => set_kind (Mutex l p None) ob
  | _ => ob
  end.

Lemma sk_free_steps m t s ob :
  sobjects s !! m = Some ob ->
  sk_object m drop_holder (sk_thread t (fun th => set_held (held_mutexes th ∖ {[m]}) th)
    (sk_object m (set_kind (Mutex 0 0 (Some t))) s)) = sk_free m t s.
Proof.
  intros E. unfold sk_free, sk_object, sk_thread. simpl. f_equal. apply map_eq. intros i.
  destruct (decide (i = m)) as [->|]; [by rewrite !lookup_alter_eq, E|by rewrite !lookup_alter_ne].
Qed.

Lemma skel_mutex k m l p h :
  kind_of k m = Some (Mutex l p h) -> exists ob, objects k !! m = Some ob /\ kind ob = Mutex l p h /\
    sobjects (skel k) !! m = Some (stripO ob) /\ kind (stripO ob) = Mutex l 0 h.
Proof.
  unfold kind_of. destruct (objects k !! m) as [ob|] eqn:E; [|done]. intros [= Ek]. exists ob.
  split_and!; [done|done|by rewrite skel_object, E|]. unfold stripO. by rewrite Ek.
Qed.

(** The last release, up to the point where the mutex is free. *)
Lemma wp_free {B} k m t p (n : unit -> op K B) P ob :
  sync_ok k -> objects k !! m = Some ob -> kind ob = Mutex 1 p (Some t) ->
  (forall k', skel k' = sk_free m t (skel k) -> sync_ok k' -> wp (n tt) k' P) ->
  wp (bind (put_object m (set_kind (Mutex 0 p (Some t)) ob)) (fun _ =>
      bind (modify_thread t (fun th => set_held (held_mutexes th ∖ {[m]}) th)) (fun _ =>
      bind (Thread_UpdatePriority t) (fun _ => bind (modify_object m drop_holder) n)))) k P.
Proof.
  intros Hok Eo Ek H. destruct (skel_mutex k m 1 p (Some t)) as (ob' & Eo' & _ & Es & Eks).
  { unfold kind_of. rewrite Eo. simpl. by rewrite Ek. }
  replace ob' with ob in * by congruence. clear ob' Eo'.
  destruct (own_holder _ (sk_own _ (sync_skel _ Hok)) m _ 1 0 t Es Eks) as (_ & th & Et & _).
  eapply wp_runs; [by apply runs_put_object|]. intros k1 E1 Q1 C1.
  eapply wp_runs; [apply (runs_thr k1 t _ (fun th => set_held (held_mutexes th ∖ {[m]}) th)); [rewrite E1; cbn [sk_object sthreads]; by rewrite Et|done..]|].
  intros k2 E2 Q2 C2.
  assert (E20 : forall th', sthreads (skel k2) !! t = Some th' -> th' = set_held (held_mutexes th ∖ {[m]}) th).
  { intros th'. rewrite E2, E1. cbn [sk_thread sthreads sk_object]. rewrite lookup_alter_eq, Et. by intros [= <-]. }
  eapply wp_runs; [apply (runs_Thread_UpdatePriority k2 t)|].
  { apply skel_thread_is_Some. rewrite E2, E1. cbn [sk_thread sthreads sk_object]. by rewrite lookup_alter_eq, Et. }
  { intros th' m' E' Hin. rewrite (E20 _ E') in Hin. rewrite E2, E1. cbn [sk_thread sobjects sk_object].
    apply alter_is_Some. apply (refs_held _ (sk_refs _ (sync_skel _ Hok)) t th m' Et). simpl in Hin. set_solver. }
  intros k3 E3 Q3 C3.
  eapply wp_runs; [apply (runs_obj k3 m _ drop_holder)|].
  { rewrite E3, E2, E1. unfold id. cbn [sk_thread sobjects sk_object]. by rewrite lookup_alter_eq, Es. }
  { intros ob'. unfold stripO, drop_holder. by destruct (kind ob') eqn:Ek'; simpl; rewrite ?Ek'. }
  intros k4 E4 Q4 C4.
  assert (E40 : skel k4 = sk_free m t (skel k)).
  { rewrite E4, E3, E2, E1. unfold id. by eapply sk_free_steps. }
  apply H; [done|]. apply (sync_ok_step k); rewrite ?E40; [done| | |auto|congruence].
  - eapply sk_ok_free; [apply Hok|done|done].
  - unfold sk_free. etrans; [|apply sched_le_object]. by apply sched_le_thread.
Qed.

Lemma Mutex_Release_wp k m t l p h :
  sync_ok k -> kind_of k m = Some (Mutex l p h) -> wp (Mutex_Release result_raw m t) k sound.
Proof.
  intros Hok Hk. destruct (skel_mutex k m l p h Hk) as (ob & Eo & Ek & Es & Eks).
  eapply wp_object; [done|]. rewrite Ek. apply wp_R_UNLESS; [done|]. intros <-%bool_decide_eq_true_1.
  apply wp_R_UNLESS; [done|]. intros Hl%negb_true_iff%Z.leb_gt.
  destruct (Z.eqb_spec (l - 1) 0) as [Hl1|Hl1].
  - assert (l = 1) as -> by lia. apply wp_free with (ob := ob) (p := p); [done..|]. intros k1 E1 Hok1.
    apply wp_WakeupAll; [done| |].
    { apply skel_object_is_Some. rewrite E1. cbn [sk_free sk_object sk_thread sobjects]. by rewrite lookup_alter_eq, Es. }
    intros k2 Hok2 _ _ _. apply wp_last. eapply wp_ok; [done|apply runs_PrepareReschedule|apply Hok2|done|by intros].
  - eapply wp_ok; [done|by apply runs_put_object| |apply sched_le_object|by intros].
    apply (sk_ok_count m (skel k) (stripO ob) l 0 t (l - 1) 0); [apply Hok|done|done|lia].
Qed.

(** ** Waiting *)

Lemma runs_add_all (k : K) t l :
  refs_ok (skel k) -> is_Some (sthreads (skel k) !! t) -> (forall o, o ∈ l -> is_Some (sobjects (skel k) !! o)) ->
  runs (for_each (fun o => AddWaitingThread o t) l) k (add_all t l).
Proof.
  revert k. induction l as [|o l IH]; intros k Hr Ht Hl; [apply runs_ret|].
  eapply runs_ext; [eapply (runs_bind _ _ _ (sk_add o t) (add_all t l))|done].
  - apply runs_AddWaitingThread; [done| |done]. apply Hl. by left.
  - intros k1 E1. apply IH; rewrite ?E1.
    + by apply refs_add.
    + by apply same_dom_add.
    + intros o' Ho'. apply same_dom_add, Hl. by right.
Qed.

Lemma skel_thread_of (k : K) t th : threads k !! t = Some th -> sthreads (skel k) !! t = Some (stripT th).
Proof. intros E. by rewrite skel_thread, E. Qed.

(** The end of both waiting calls. *)
Lemma runs_sleep (k : K) t ns out :
  is_Some (sthreads (skel k) !! t) ->
  runs (sleep nsToCycles t ns out) k (sk_thread t (set_callback (Some (SyncCallback out)))).
Proof.
  intros Ht. eapply runs_ext.
  - unfold sleep. eapply (runs_bind _ _ _ id).
    + unfold WakeAfterDelay. destruct (ns =? -1); [apply runs_ret|apply runs_timing].
    + intros k1 E1. eapply runs_bind; [|intros; apply runs_PrepareReschedule].
      apply (runs_thr k1 t _ (set_callback (Some (SyncCallback out)))); [by rewrite E1|done..].
  - done.
Qed.

(** Leaving the processor to wait: the status, the lists, the wait objects. *)
Lemma wp_wait_n {B} k t th l st ns out (n : unit -> op K B) P :
  sync_ok k -> threads k !! t = Some th -> status th = Running ->
  (forall o, o ∈ l -> is_Some (objects k !! o)) -> is_synch_status st = true -> (st = WaitSynchAll -> NoDup l) ->
  (forall k', sync_ok k' -> wp (n tt) k' P) ->
  wp (bind (modify_thread t (set_status st)) (fun _ =>
      bind (for_each (fun o => AddWaitingThread o t) l) (fun _ =>
      bind (modify_thread t (set_wait_objects l)) (fun _ => bind (sleep nsToCycles t ns out) n)))) k P.
Proof.
  intros Hok E Hrun Hl Hst Hnd H. pose proof (skel_thread_of k t th E) as Es.
  assert (Hlo : forall o, o ∈ l -> is_Some (sobjects (skel k) !! o)) by (intros; apply skel_object_is_Some; auto).
  eapply wp_runs; [apply (runs_modify_thread k t th _ (set_status st)); [done|done| |done..]|].
  { right. simpl. rewrite Hrun. split; [done|]. by intros ->. }
  intros k1 E1 Q1 C1. assert (D1 : same_dom (skel k) (skel k1)) by (rewrite E1; apply same_dom_thread).
  eapply wp_runs; [apply (runs_add_all k1 t l)|].
  { rewrite E1. apply refs_sk_thread_keep; [apply Hok|done..]. }
  { apply D1. by rewrite Es. }
  { intros o Ho. by apply D1, Hlo. }
  intros k2 E2 Q2 C2. assert (D2 : same_dom (skel k) (skel k2)).
  { rewrite E2. eapply same_dom_trans; [exact D1|apply same_dom_add_all]. }
  eapply wp_runs; [apply (runs_thr k2 t _ (set_wait_objects l)); [apply D2; by rewrite Es|done..]|].
  intros k3 E3 Q3 C3. eapply wp_runs.
  { apply runs_sleep. rewrite E3. apply same_dom_thread, D2. by rewrite Es. }
  intros k4 E4 Q4 C4. apply H.
  assert (Hsw : starts_waiting t l (skel k) (skel k4)).
  { rewrite E4, E3, E2, E1, sk_thread_compose. eapply starts_waiting_intro; [exact Es|by rewrite stripT_status, Hrun|].
    intros P'. simpl. auto. }
  apply (sync_ok_step k); [done| |by eapply sched_le_waiting|auto|congruence].
  eapply starts_waiting_ok; [apply Hok|exact Hlo|done].
Qed.

Lemma WaitSynchronization1_wp k t th o ns :
  sync_ok k -> threads k !! t = Some th -> status th = Running -> is_Some (objects k !! o) ->
  wp (WaitSynchronization1 nsToCycles t o ns) k sound.
Proof.
  intros Hok E Hrun Ho. pose proof (skel_thread_of k t th E) as Es.
  assert (Hso : is_Some (sobjects (skel k) !! o)) by (by apply skel_object_is_Some).
  unfold WaitSynchronization1. eapply wp_read; [apply ShouldWait_Done; [apply Hok|done]|].
  destruct (should_wait (skel k) o t) eqn:Esw.
  - apply wp_R_UNLESS; [done|]. intros _.
    eapply wp_runs; [apply (runs_thr k t _ (set_wait_objects [o])); [by rewrite Es|done..]|]. intros k1 E1 Q1 C1.
    eapply wp_runs; [apply runs_AddWaitingThread|].
    { rewrite E1. apply refs_sk_thread; [apply Hok|]. intros th' E'. split.
      - intros m. by apply (refs_held _ (sk_refs _ (sync_skel _ Hok)) t th').
      - by intros o' ->%list_elem_of_singleton. }
    { by rewrite E1. }
    { rewrite E1. apply same_dom_thread. by rewrite Es. }
    intros k2 E2 Q2 C2. assert (D2 : same_dom (skel k) (skel k2)).
    { rewrite E2, E1. eapply same_dom_trans; [apply same_dom_thread|apply same_dom_add]. }
    assert (exists th2, threads k2 !! t = Some th2 /\ status th2 = Running) as (th2 & E2t & Hr2).
    { pose proof (sk_add_thread o t (skel k1)) as Ha. rewrite <-E2, E1 in Ha. cbn [sk_thread sthreads] in Ha.
      rewrite lookup_alter_eq, Es, skel_thread in Ha. destruct (threads k2 !! t) as [th2|]; [|done].
      exists th2. split; [done|]. injection Ha. congruence. }
    eapply wp_runs; [apply (runs_modify_thread k2 t th2 _ (set_status WaitSynchAny)); [done|done| |done..]|].
    { right. by rewrite Hr2. }
    intros k3 E3 Q3 C3. eapply wp_runs.
    { apply runs_sleep. rewrite E3. apply same_dom_thread, D2. by rewrite Es. }
    intros k4 E4 Q4 C4. assert (Hsw : starts_waiting t [o] (skel k) (skel k4)).
    { rewrite E4, E3, E2, E1, sk_thread_compose. change (sk_add o t) with (add_all t [o]).
      eapply starts_waiting_intro; [exact Es|by rewrite stripT_status, Hrun|]. intros P'. simpl. done. }
    apply (sync_ok_step k); [done| |by eapply sched_le_waiting|auto|congruence].
    eapply starts_waiting_ok; [apply Hok| |done]. by intros o' ->%list_elem_of_singleton.
  - eapply wp_ok; [done|apply runs_Acquire; [apply Hok|done|by rewrite Es|done]| | |by intros].
    + apply sk_ok_acquire; [apply Hok|by rewrite Es].
    + apply sched_le_waits, same_waits_acquire.
Qed.

Lemma first_available_Done (k : K) t i l :
  refs_ok (skel k) -> (forall o, o ∈ l -> is_Some (sobjects (skel k) !! o)) ->
  exists r, first_available t i l k = Done k r /\
    match r with
    | Some (j, o) => o ∈ l /\ should_wait (skel k) o t = false
    | None => forall o, o ∈ l -> should_wait (skel k) o t = true
    end.
Proof.
  intros Hr. revert i. induction l as [|o l IH]; intros i Hl.
  { exists None. split; [done|]. by intros o ?%elem_of_nil. }
  simpl. erewrite bind_Done by (apply ShouldWait_Done; [done|apply Hl; by left]).
  destruct (should_wait (skel k) o t) eqn:Esw.
  - destruct (IH (i + 1)) as (r & Er & Hp); [intros o' Ho'; apply Hl; by right|]. exists r. split; [done|].
    destruct r as [[j o']|]; [destruct Hp; split; [by right|done]|]. by intros o' [->|Ho']%elem_of_cons; [|auto].
  - exists (Some (i, o)). split; [done|]. split; [by left|done].
Qed.

Lemma sk_ok_acquire_all t l s : sk_ok s -> is_Some (sthreads s !! t) -> sk_ok (acquire_all t l s).
Proof.
  intros [Hr Hw Ho] Ht. split; [by apply refs_acquire_all|by rewrite <-same_waits_acquire_all|by apply own_ok_acquire_all].
Qed.

Lemma WaitSynchronizationN_wp k t th l all ns :
  sync_ok k -> threads k !! t = Some th -> status th = Running ->
  (forall o, o ∈ l -> is_Some (objects k !! o)) -> (all = true -> NoDup l) ->
  wp (WaitSynchronizationN nsToCycles t l all ns) k sound.
Proof.
  intros Hok E Hrun Hl Hnd. pose proof (skel_thread_of k t th E) as Es.
  assert (Hr : refs_ok (skel k)) by apply Hok.
  assert (Hso : forall o, o ∈ l -> is_Some (sobjects (skel k) !! o)) by (intros; apply skel_object_is_Some; auto).
  assert (Hst : is_Some (sthreads (skel k) !! t)) by (by rewrite Es).
  unfold WaitSynchronizationN. destruct all.
  - eapply wp_read; [by apply none_should_wait_Done|]. destruct (forallb _ l) eqn:Eall.
    + rewrite forallb_forall in Eall.
      eapply wp_ok; [done|apply (runs_acquire_all k t l)| | |by intros]; [done|done|auto| | |].
      * intros o Ho. split; [auto|]. apply negb_true_iff, Eall. by apply list_elem_of_In.
      * apply sk_ok_acquire_all; [apply Hok|done].
      * apply sched_le_waits, same_waits_acquire_all.
    + apply wp_R_UNLESS; [done|]. intros _. eapply wp_wait_n; eauto.
  - destruct (first_available_Done k t 0 l Hr Hso) as (r & Er & Hp). eapply wp_read; [exact Er|].
    destruct r as [[i o]|].
    + destruct Hp as [Ho Hsw]. eapply wp_ok; [done|by apply runs_Acquire; auto| | |by intros].
      * apply sk_ok_acquire; [apply Hok|done].
      * apply sched_le_waits, same_waits_acquire.
    + apply wp_R_UNLESS; [done|]. intros _. eapply wp_wait_n; eauto. done.
Qed.

(** ** Timeouts *)

Lemma runs_timeout k t o :
  is_Some (sthreads (skel k) !! t) ->
  exists g, (forall th, held_mutexes (g th) = held_mutexes th /\ status (g th) = status th /\
                        wait_objects (g th) = wait_objects th /\ wakeup_callback (g th) = wakeup_callback th) /\
    runs (call_wakeup (T := T) result_raw Timeout t o) k (sk_thread t g).
Proof.
  intros Ht. pose proof Ht as [th E]%skel_thread_some. destruct (wakeup_callback th) as [[out]|] eqn:Ec.
  - exists (set_reg0 (result_raw ResultTimeout)). split; [done|]. unfold call_wakeup.
    eapply runs_read; [by apply thread_Done|]. rewrite Ec. by apply runs_SetResult.
  - exists id. split; [done|]. unfold call_wakeup. eapply runs_read; [by apply thread_Done|]. rewrite Ec.
    eapply runs_ext; [apply runs_ret|]. unfold id, sk_thread. destruct (skel k). simpl. f_equal. symmetry. apply alter_id_map.
Qed.

Lemma sk_ready_sched t s : sched_le s (sk_ready t s).
Proof. by apply sched_le_thread. Qed.

Lemma ThreadWakeupCallback_wp k t th :
  sync_ok k -> threads k !! t = Some th -> status th <> Running -> status th <> Dead ->
  wp (ThreadWakeupCallback result_raw t) k sound.
Proof.
  intros Hok E Hnr Hnd. pose proof (skel_thread_of k t th E) as Es.
  assert (Hw : wait_ok (skel k)) by apply Hok. eapply wp_read; [by apply thread_Done|].
  (* a thread that waits for nothing *)
  assert (Hidle : forall s, status th = s -> wakeable s = true -> is_synch_status s = false ->
            wp (ResumeFromWait t) k sound).
  { intros s Hs Hwk Hsy. pose proof (wait_ok_no_objects (skel k) t (stripT th) Hw Es) as Hwo.
    rewrite stripT_status, Hs in Hwo. specialize (Hwo Hsy). apply wp_last.
    eapply wp_ok; [done|apply (runs_ResumeFromWait k t (stripT th) Es Hwo); by rewrite stripT_status, Hs| | |by intros].
    - by eapply sk_ok_ready; [apply Hok| |].
    - apply sk_ready_sched. }
  (* one that leaves the lists first *)
  assert (Hleave : is_synch_status (status th) = true \/ status th = WaitArb ->
            wp (bind (bind (call_wakeup result_raw Timeout t None) (fun _ => leave_wait_objects t))
                     (fun _ => ResumeFromWait t)) k sound).
  { intros Hs. apply wp_bind, wp_bind.
    destruct (runs_timeout k t None) as (g & Hg & (k1 & E1 & S1 & Q1 & C1)); [by rewrite Es|].
    eapply wp_Done; [exact E1|]. assert (Hok1 : sync_ok k1).
    { apply (sync_ok_step k); rewrite ?S1; [done| | |done..].
      - apply sk_ok_thread; [apply Hok|intros th'; by destruct (Hg th') as (? & ? & ? & ?)..].
      - apply sched_le_thread. intros th'. by destruct (Hg th') as (_ & -> & _). }
    assert (Es1 : sthreads (skel k1) !! t = Some (g (stripT th))).
    { rewrite S1. cbn [sk_thread sthreads]. by rewrite lookup_alter_eq, Es. }
    destruct (runs_leave k1 t) as (k2 & E2 & S2 & Q2 & C2); [apply Hok1|by rewrite Es1|].
    eapply wp_Done; [exact E2|]. assert (Hok2 : sync_ok k2).
    { apply (sync_ok_step k1); rewrite ?S2; [done|apply sk_ok_leave, Hok1|apply sched_le_leave|done..]. }
    destruct (leave_thread t _ _ Es1) as [P Es2]. rewrite <-S2 in Es2. apply wp_last.
    eapply wp_ok; [done|apply (runs_ResumeFromWait k2 t _ Es2); [done|]| | |by intros].
    - destruct (Hg (stripT th)) as (_ & Hst & _). simpl. rewrite Hst, stripT_status.
      by destruct Hs as [Hs| ->], (status th).
    - by eapply sk_ok_ready; [apply Hok2|exact Es2|].
    - apply sk_ready_sched. }
  unfold ThreadWakeupCallback. destruct (status th) eqn:Est; try done; try (apply Hleave; auto; fail).
  - (* ready *)
    pose proof (wait_ok_no_objects (skel k) t (stripT th) Hw Es) as Hwo. rewrite stripT_status, Est in Hwo.
    specialize (Hwo eq_refl). pose proof (wait_callback _ Hw t _ Es) as Hcb. rewrite stripT_status, Est in Hcb.
    specialize (Hcb (or_introl eq_refl)). simpl in Hwo, Hcb.
    eapply wp_read; [done|]. eapply wp_read; [by apply thread_Done|]. rewrite Hwo, Est, Hcb. by eapply wp_Done.
  - eapply wp_read; [done|]. by apply (Hidle _ eq_refl).
  - eapply wp_read; [done|]. by apply (Hidle _ eq_refl).
  - eapply wp_read; [done|]. by apply (Hidle _ eq_refl).
Qed.

(** ** Priorities and new objects *)

Lemma SetPriority_wp k t th p :
  sync_ok k -> threads k !! t = Some th -> ThreadPrioHighest <= p <= ThreadPrioLowest ->
  wp (SetPriority t p) k sound.
Proof.
  intros Hok E Hp. unfold SetPriority, ThreadPrioHighest, ThreadPrioLowest in *. zdecide. eapply wp_read; [done|]. eapply wp_read; [by apply thread_Done|].
  destruct (runs_set_priority k t th p (fun th => set_nominal_priority p (set_current_priority p th)) E)
    as (k' & E' & Et & Eo & Q' & C'); [done|done|simpl; lia|right; simpl; unfold ThreadPrioLowest; lia|].
  eapply wp_Done; [exact E'|].
  assert (S' : skel k' = sk_thread t (set_nominal_priority p) (skel k)).
  { unfold skel, sk_thread. rewrite Et, Eo. simpl. f_equal. rewrite (skel_insert k t th) by done. by rewrite fmap_insert. }
  apply (sync_ok_step k); rewrite ?S'; [done| |by apply sched_le_thread|done..].
  apply sk_ok_thread; [apply Hok|done..].
Qed.

Lemma wp_new {B} k o kd (n : unit -> op K B) P :
  sync_ok k -> objects k !! o = None -> kd <> ThreadObject ->
  (forall l p h, kd = Mutex l p h -> l = 0 /\ h = None /\ p = 0) ->
  (forall k', sync_ok k' -> kind_of k' o = Some kd -> current_thread k' = current_thread k -> wp (n tt) k' P) ->
  wp (bind (put_object o (mkObject [] kd)) n) k P.
Proof.
  intros Hok Hn Ht Hm H. apply wp_bind. eapply wp_Done; [reflexivity|]. apply H; [| |done].
  - set (k' := set_objects _ k). assert (S' : skel k' = sk_new o kd (skel k)).
    { unfold skel, sk_new. simpl. f_equal. rewrite fmap_insert. f_equal. unfold stripO. simpl.
      destruct kd as [l p h| | | |]; try done. by destruct (Hm l p h eq_refl) as (_ & _ & ->). }
    apply (sync_ok_step k); [done| | | |done].
    + rewrite S'. apply sk_ok_new; [apply Hok|by rewrite skel_object, Hn|done|]. intros l p h Ek. by destruct (Hm l p h Ek) as (? & ? & _).
    + rewrite S'. intros t. unfold sk_new. simpl. by destruct ((stripT <$> threads k) !! t).
    + by apply ready_ok_ext.
  - unfold kind_of. simpl. by rewrite lookup_insert_eq.
Qed.

Lemma CreateSemaphore_wp k o initial maximum :
  sync_ok k -> objects k !! o = None -> wp (CreateSemaphore o initial maximum) k sound.
Proof.
  intros Hok Hn. unfold CreateSemaphore. apply wp_R_UNLESS; [done|]. intros _. apply wp_last, wp_new; done.
Qed.

Lemma CreateEvent_wp k o r : sync_ok k -> objects k !! o = None -> wp (CreateEvent o r) k sound.
Proof. intros Hok Hn. apply wp_last, wp_new; done. Qed.

Lemma CreateTimer_wp k o r c : sync_ok k -> objects k !! o = None -> wp (CreateTimer o r c) k sound.
Proof. intros Hok Hn. apply wp_last, wp_new; done. Qed.

Lemma CreateMutex_wp k o locked :
  sync_ok k -> objects k !! o = None -> (locked = true -> is_Some (current_thread k)) -> wp (CreateMutex o locked) k sound.
Proof.
  intros Hok Hn Hc. unfold CreateMutex. apply wp_new; [done|done|done|by intros ? ? ? [= <- <- <-]|].
  intros k1 Hok1 Hk1 C1. apply wp_bind. eapply wp_Done; [reflexivity|]. destruct locked; [|done]. rewrite C1.
  destruct Hc as [t Ht]; [done|]. rewrite Ht. destruct (run_exists _ (sync_run _ Hok1) t) as [th E]; [congruence|].
  pose proof (skel_thread_of k1 t th E) as Es. destruct (skel_mutex k1 o 0 0 None Hk1) as (ob & Eo & _ & Eos & Ek).
  apply wp_last. eapply wp_ok; [done|apply runs_Acquire; [apply Hok1|by rewrite Eos|by rewrite Es|]| | |by intros].
  - unfold should_wait. by rewrite Eos, Ek.
  - apply sk_ok_acquire; [apply Hok1|by rewrite Es].
  - apply sched_le_waits, same_waits_acquire.
Qed.

(** ** A new thread *)

Lemma sync_ok_add_thread (k : K) t th :
  sync_ok k -> threads k !! t = None -> objects k !! t = None -> status th = Dormant ->
  held_mutexes th = ∅ -> wait_objects th = [] -> wakeup_callback th = None ->
  current_priority th <= nominal_priority th <= ThreadPrioLowest ->
  sync_ok (set_threads (<[t := th]> (threads k)) (set_objects (<[t := mkObject [] ThreadObject]> (objects k)) k)).
Proof.
  intros Hok Hn Hno Hs Hh Hwo Hcb Hp. set (k' := set_threads _ _). pose proof Hok as [Hsk [Q1 Q2 Q3 Q4] [X1 X2]]. split.
  - assert (skel k' = sk_new_thread t (stripT th) (skel k)) as ->.
    { unfold skel, sk_new_thread. simpl. by rewrite !fmap_insert. }
    apply sk_ok_new_thread; try done; [by rewrite skel_thread, Hn|by rewrite skel_object, Hno].
  - split; simpl; [| |done|].
    + intros p t' Hin. destruct (Q1 p t' Hin) as (th' & E & H). rewrite lookup_insert_ne by congruence. eauto.
    + intros t' th' [[<- <-]|[_ E]]%lookup_insert_Some Hst; [congruence|auto].
    + intros t' th' [[<- <-]|[_ E]]%lookup_insert_Some; eauto.
  - split; simpl.
    + intros t' th' [[<- <-]|[_ E]]%lookup_insert_Some Hst; [congruence|eauto].
    + intros t' Hc. destruct (X2 t' Hc) as [th' E]. rewrite lookup_insert_ne by congruence. eauto.
Qed.

Lemma sync_ok_prepare (k : K) p : sync_ok k -> sync_ok (set_queue (rq_prepare p (ready_queue k)) k).
Proof.
  intros Hok. apply (sync_ok_step k); [done|apply Hok|done| |done].
  intros [Q1 Q2 Q3 Q4]. split; simpl; intros *; rewrite ?rq_list_prepare; eauto.
Qed.

Lemma CreateThread_wp (k : K) t p arg entry make_ready tls :
  sync_ok k -> threads k !! t = None -> objects k !! t = None ->
  wp (CreateThread t p arg entry make_ready tls) k sound.
Proof.
  intros Hok Hn Hno. unfold CreateThread. apply wp_R_UNLESS; [done|]. intros Hp%Z.leb_le.
  apply wp_R_UNLESS; [done|]. intros _. pose proof (sync_ok_prepare k p Hok) as Hok0.
  set (th := mkThread Dormant p p true ∅ ∅ [] None 0 0). set (k0 := set_queue (rq_prepare p (ready_queue k)) k) in *.
  pose proof (sync_ok_add_thread k0 t th Hok0 Hn Hno eq_refl eq_refl eq_refl eq_refl) as Hok1.
  specialize (Hok1 ltac:(simpl; lia)). set (k1 := set_threads _ _) in Hok1.
  do 3 (eapply wp_step; [reflexivity|]).
  change (wp (bind (match tls with Some rc => R_UNLESS false rc | None => ret tt end) (fun _ =>
    bind (modify_thread t (set_reg0 arg)) (fun _ => if make_ready then
      bind (modify_queue (rq_push_back p t)) (fun _ => modify_thread t (set_status Ready)) else ret tt))) k1 sound).
  destruct tls as [rc|]; [exact Hok1|]. eapply wp_step; [reflexivity|].
  assert (E1 : threads k1 !! t = Some th) by apply lookup_insert_eq.
  set (th2 := set_reg0 arg th). set (k2 := set_threads (<[t := th2]> (threads k1)) k1).
  assert (S2 : skel k2 = sk_thread t (set_reg0 arg) (skel k1)).
  { unfold skel, sk_thread. simpl. f_equal. rewrite (skel_insert k1 t th) by done. by rewrite fmap_insert. }
  assert (Hok2 : sync_ok k2).
  { destruct (runs_thr k1 t (set_reg0 arg) (set_reg0 arg)) as (k' & E & S' & Q' & C'); try done;
      [by rewrite (skel_thread_of k1 t th)|].
    unfold modify_thread in E. erewrite bind_Done in E by (by apply thread_Done). injection E as <-.
    apply (sync_ok_step k1); rewrite ?S2; [done|by apply sk_ok_thread; [apply Hok1|..]|by apply sched_le_thread|done..]. }
  eapply wp_step; [unfold modify_thread; erewrite bind_Done by (by apply thread_Done); reflexivity|].
  change (wp (if make_ready then bind (modify_queue (rq_push_back p t)) (fun _ => modify_thread t (set_status Ready))
    else ret tt) k2 sound).
  destruct make_ready; [|done]. eapply wp_step; [reflexivity|].
  assert (E2 : threads k2 !! t = Some th2) by apply lookup_insert_eq.
  set (k3 := set_queue (rq_push_back p t (ready_queue k2)) k2). unfold modify_thread.
  eapply wp_read; [by apply (thread_Done k3)|]. eapply wp_Done; [reflexivity|].
  set (k4 := set_threads _ k3). assert (S4 : skel k4 = sk_thread t (set_status Ready) (skel k2)).
  { unfold skel, sk_thread. simpl. f_equal. rewrite (skel_insert k2 t th2) by done. by rewrite fmap_insert. }
  apply (sync_ok_step k2); rewrite ?S4; [done| | | |done].
  - eapply sk_ok_idle_status; [apply Hok2|by apply skel_thread_of|done|done].
  - by apply sched_le_thread.
  - exact (ready_push k2 t th2 (set_status Ready th2) E2 ltac:(done) eq_refl eq_refl eq_refl).
Qed.

(** ** Requests and reachable states *)

Inductive request :=
  | ReqWait1 (t o nano_seconds : Z)
  | ReqWaitN (t : Z) (objs : list Z) (wait_all : bool) (nano_seconds : Z)
  | ReqReleaseMutex (m t : Z)
  | ReqReleaseSemaphore (o count : Z)
  | ReqSignal (o : Z) | ReqClear (o : Z)
  | ReqTimerSet (o initial interval : Z) | ReqTimerCancel (o : Z) | ReqTimerClear (o : Z)
  | ReqTimerFires (o cycles_late : Z)
  | ReqThreadTimeout (t : Z)
  | ReqSetPriority (t priority : Z)
  | ReqNewMutex (o : Z) (locked : bool) | ReqNewSemaphore (o initial maximum : Z)
  | ReqNewEvent (o : Z) (r : ResetType) | ReqNewTimer (o : Z) (r : ResetType) (callback_id : Z)
  | ReqNewThread (t priority arg : Z) (entry_valid make_ready : bool) (tls : option Result)
  | ReqReschedule.

Definition exec (r : request) : op K unit :=
  match r with
  | ReqWait1 t o ns => bind (WaitSynchronization1 nsToCycles t o ns) (fun _ => ret tt)
  | ReqWaitN t l all ns => bind (WaitSynchronizationN nsToCycles t l all ns) (fun _ => ret tt)
  | ReqReleaseMutex m t => Mutex_Release result_raw m t
  | ReqReleaseSemaphore o n => bind (Semaphore_Release result_raw o n) (fun _ => ret tt)
  | ReqSignal o => Event_Signal result_raw o
  | ReqClear o => Event_Clear o
  | ReqTimerSet o i n => Timer_Set nsToCycles result_raw o i n
  | ReqTimerCancel o => Timer_Cancel o
  | ReqTimerClear o => Timer_Clear o
  | ReqTimerFires o late => Timer_Signal nsToCycles result_raw o late
  | ReqThreadTimeout t => ThreadWakeupCallback result_raw t
  | ReqSetPriority t p => SetPriority t p
  | ReqNewMutex o locked => CreateMutex o locked
  | ReqNewSemaphore o i m => CreateSemaphore o i m
  | ReqNewEvent o r => CreateEvent o r
  | ReqNewTimer o r c => CreateTimer o r c
  | ReqNewThread t p a e r tls => CreateThread t p a e r tls
  | ReqReschedule => Reschedule
  end.

Definition is_event (kd : ObjectKind) : bool := match kd with Event _ _ => true | _ => false end.
Definition is_timer (kd : ObjectKind) : bool := match kd with Timer _ _ _ _ _ => true | _ => false end.
Definition is_semaphore (kd : ObjectKind) : bool := match kd with Semaphore _ _ => true | _ => false end.

Definition is_a (f : ObjectKind -> bool) (k : K) (o : Z) : Prop := exists kd, kind_of k o = Some kd /\ f kd = true.

Definition status_of (k : K) (t : Z) : option ThreadStatus := status <$> threads k !! t.

(** When the kernel makes a request: handles are resolved to objects of the right
    class, the caller of a wait runs, a timeout is pending for a thread that neither
    runs nor is dead, priorities are in range, new objects have fresh addresses.  A
    wait for all objects lists each of them once. *)
Definition allowed (k : K) (r : request) : Prop :=
  match r with
  | ReqWait1 t o _ => status_of k t = Some Running /\ is_Some (objects k !! o)
  | ReqWaitN t l all _ => status_of k t = Some Running /\ (forall o, o ∈ l -> is_Some (objects k !! o)) /\
      (all = true -> NoDup l)
  | ReqReleaseMutex m _ => is_a (fun kd => is_mutex (Some kd)) k m
  | ReqReleaseSemaphore o _ => is_a is_semaphore k o
  | ReqSignal o | ReqClear o => is_a is_event k o
  | ReqTimerSet o _ _ | ReqTimerCancel o | ReqTimerClear o | ReqTimerFires o _ => is_a is_timer k o
  | ReqThreadTimeout t => exists s, status_of k t = Some s /\ s <> Running /\ s <> Dead
  | ReqSetPriority t p => is_Some (threads k !! t) /\ ThreadPrioHighest <= p <= ThreadPrioLowest
  | ReqNewMutex o locked => objects k !! o = None /\ (locked = true -> is_Some (current_thread k))
  | ReqNewSemaphore o _ _ | ReqNewEvent o _ | ReqNewTimer o _ _ => objects k !! o = None
  | ReqNewThread t _ _ _ _ _ => threads k !! t = None /\ objects k !! t = None
  | ReqReschedule => True
  end.

Lemma wp_result {A} (m : op K A) k : wp m k sound -> wp (bind m (fun _ => ret tt)) k sound.
Proof. intros H. apply wp_bind. eapply wp_mono; [exact H|]. by intros. Qed.

Lemma status_of_some k t s : status_of k t = Some s -> exists th, threads k !! t = Some th /\ status th = s.
Proof. unfold status_of. destruct (threads k !! t) as [th|]; [|done]. intros [= <-]. eauto. Qed.

Lemma exec_wp k r : sync_ok k -> allowed k r -> wp (exec r) k sound.
Proof.
  intros Hok. destruct r; simpl.
  - intros [(th & E & Hr)%status_of_some Ho]. by eapply wp_result, WaitSynchronization1_wp.
  - intros [(th & E & Hr)%status_of_some [Hl Hn]]. by eapply wp_result, WaitSynchronizationN_wp.
  - intros ([l p h| | | |] & Hk & ?); try done. by eapply Mutex_Release_wp.
  - intros ([|m a| | |] & Hk & ?); try done. by eapply wp_result, Semaphore_Release_wp.
  - intros ([| |r b| |] & Hk & ?); try done. by eapply Event_Signal_wp.
  - intros ([| |r b| |] & Hk & ?); try done. by eapply Event_Clear_wp.
  - intros ([| | |r b i n c|] & Hk & ?); try done. by eapply Timer_Set_wp.
  - intros ([| | |r b i n c|] & Hk & ?); try done. by eapply Timer_Cancel_wp.
  - intros ([| | |r b i n c|] & Hk & ?); try done. by eapply Timer_Clear_wp.
  - intros ([| | |r b i n c|] & Hk & ?); try done. by eapply Timer_Signal_wp.
  - intros (s & (th & E & <-)%status_of_some & H1 & H2). by eapply ThreadWakeupCallback_wp.
  - intros [[th E] Hp]. by eapply SetPriority_wp.
  - intros [Hn Hc]. by apply CreateMutex_wp.
  - intros Hn. by apply CreateSemaphore_wp.
  - intros Hn. by apply CreateEvent_wp.
  - intros Hn. by apply CreateTimer_wp.
  - intros [Hn Hno]. by apply CreateThread_wp.
  - intros _. destruct (Reschedule_outcome k Hok) as (k' & E & Hok' & _). by eapply wp_Done.
Qed.

(** The state after a request, whether it succeeded or failed. *)
Definition after (m : op K unit) (k : K) : option K :=
  match m k with
  | Done k' _ | Failed k' _ => Some k'
  | Aborted => None
  end.

Definition kernel_init (k : K) : Prop :=
  threads k = ∅ /\ objects k = ∅ /\ current_thread k = None /\ forall p, rq_list (ready_queue k) p = [].

Inductive kernel_reachable : K -> Prop :=
  | reachable_init k : kernel_init k -> kernel_reachable k
  | reachable_step k r k' : kernel_reachable k -> allowed k r -> after (exec r) k = Some k' -> kernel_reachable k'.

Lemma sync_ok_init k : kernel_init k -> sync_ok k.
Proof.
  intros (Ht & Ho & Hc & Hq). split.
  - unfold skel. rewrite Ht, Ho, !fmap_empty. split; split; simpl; intros *; rewrite lookup_empty; done.
  - split; intros *; rewrite ?Hq, ?Ht; [by intros ?%elem_of_nil|done|constructor|done].
  - split; intros *; rewrite ?Hc, ?Ht; done.
Qed.

Lemma reachable_ok k : kernel_reachable k -> sync_ok k.
Proof.
  induction 1 as [k Hi|k r k' _ IH Ha E]; [by apply sync_ok_init|]. pose proof (exec_wp k r IH Ha) as Hw.
  unfold wp, after in *. by destruct (exec r k) as [k1 []|k1 rc|]; simplify_eq.
Qed.

(** C3: In every state the kernel reaches, from the empty kernel, through any sequence of
    waits, releases, signals, timer and thread timeouts, priority changes, creations
    and context switches, no request the kernel may make trips an assertion, and the
    state is sound: waiting lists and the threads' wait objects agree, exactly the
    ready threads are in the ready queue, once, under their current priority, only
    the current thread runs. *)
Theorem kernel_safe k :
  kernel_reachable k -> sync_ok k /\ forall r, allowed k r -> is_Some (after (exec r) k).
Proof.
  intros Hok%reachable_ok. split; [done|]. intros r Ha. pose proof (exec_wp k r Hok Ha) as Hw. unfold wp, after in *. by destruct (exec r k).
Qed.

(** C34: In every reachable state a mutex with a count is held by exactly one thread,
    which lists it among its mutexes; a thread lists only mutexes it holds; a free
    mutex has count zero. *)
Theorem mutex_exclusion k m ob l p h :
  kernel_reachable k -> objects k !! m = Some ob -> kind ob = Mutex l p h ->
  0 <= l /\ (l = 0 <-> h = None) /\
  forall t th, threads k !! t = Some th -> (m ∈ held_mutexes th <-> h = Some t).
Proof.
  intros [[_ _ [O1 O2 O3]] _ _]%reachable_ok Eo Ek.
  destruct (skel_mutex k m l p h) as (ob' & Eo' & _ & Es & Eks); [unfold kind_of; rewrite Eo; simpl; by rewrite Ek|].
  assert (Hpos : forall t, h = Some t -> 0 < l) by (intros t ->; by eapply O2).
  split_and!.
  - destruct h as [t|]; [specialize (Hpos t eq_refl); lia|]. by rewrite (O3 _ _ _ _ Es Eks).
  - split; [intros ->|intros ->; by eapply O3]. destruct h as [t|]; [|done]. by specialize (Hpos t eq_refl).
  - intros t th Et. pose proof (skel_thread_of k t th Et) as Ets. split.
    + intros Hin. destruct (O1 _ _ _ Ets Hin) as (ob2 & l2 & p2 & E2 & Ek2). congruence.
    + intros ->. destruct (O2 _ _ _ _ _ Es Eks) as (_ & th' & E' & Hin). rewrite Ets in E'. by injection E' as <-.
Qed.
End Calls.
