(* ===== verification/SyncSpecs.v ===== *)
(** * SyncSpecs: what signalling and releasing do

    The functional behaviour of the calls that make an object available: how many
    waiters go on, what is left of the object, and when a call fails. *)
From stdpp Require Import gmap.
From S2P Require Import Prelude Result Kernel Skeleton Sync Reschedule KernelCalls.

Local Open Scope Z_scope.

(** ** The object a waiter is woken for *)

Lemma remove_all_kind t l s o : kind <$> sobjects (remove_all t l s) !! o = kind <$> sobjects s !! o.
Proof.
  revert s. induction l as [|o' l IH]; intros s; [done|]. simpl. rewrite IH. by destruct (same_own_remove o' t s) as [_ ->].
Qed.

Lemma acquire_all_kind_ne t l s o : o ∉ l -> kind <$> sobjects (acquire_all t l s) !! o = kind <$> sobjects s !! o.
Proof.
  revert s. induction l as [|o' l IH]; intros s Hn; [done|]. simpl. apply not_elem_of_cons in Hn as [Hne Hn].
  rewrite IH by done. by rewrite acquire_object_ne.
Qed.

(** An object listed once is acquired once. *)
Lemma acquire_all_kind t l s o :
  NoDup l -> o ∈ l ->
  (forall s', kind <$> sobjects s' !! o = kind <$> sobjects s !! o ->
     kind <$> sobjects (sk_acquire o t s') !! o = kind <$> sobjects (sk_acquire o t s) !! o) ->
  kind <$> sobjects (acquire_all t l s) !! o = kind <$> sobjects (sk_acquire o t s) !! o.
Proof.
  intros Hn Hin Hc. revert s Hn Hin Hc. induction l as [|o' l IH]; intros s Hn Hin Hc; [by apply elem_of_nil in Hin|].
  apply list.NoDup_cons in Hn as [Ho' Hn]. simpl. destruct (decide (o' = o)) as [->|Hne].
  - by apply acquire_all_kind_ne.
  - apply elem_of_cons in Hin as [->|Hin]; [done|].
    assert (Hk : kind <$> sobjects (sk_acquire o' t s) !! o = kind <$> sobjects s !! o) by (by rewrite acquire_object_ne).
    rewrite IH; [by apply Hc|done|done|]. intros s' Hs'. rewrite (Hc (sk_acquire o' t s) Hk). apply Hc. by rewrite Hs'.
Qed.

Lemma acquired_once s o t th :
  wait_ok s -> sthreads s !! t = Some th -> o ∈ wait_objects th -> NoDup (acquired s o t) /\ o ∈ acquired s o t.
Proof.
  intros Hw E Ho. unfold acquired. rewrite E. case_bool_decide as Ha.
  - split; [by apply (wait_nodup _ Hw t th)|done].
  - split; [apply NoDup_singleton|by apply list_elem_of_singleton].
Qed.

(** What is acquired of an object does not depend on the rest of the state, unless it
    is a mutex. *)
Definition after_acquire (kd : ObjectKind) : ObjectKind :=
  match kd with
  | Semaphore m a => if a <=? 0 then kd else Semaphore m (a - 1)
  | Event OneShot _ => Event OneShot false
  | Timer OneShot _ i n c => Timer OneShot false i n c
  | _ => kd
  end.

Lemma after_acquire_not_mutex kd : is_mutex (Some kd) = false -> is_mutex (Some (after_acquire kd)) = false.
Proof. destruct kd as [|m a|[] ?|[] ? ? ? ?|]; try done. simpl. by destruct (a <=? 0). Qed.

Lemma acquire_kind o t s kd :
  kind <$> sobjects s !! o = Some kd -> is_mutex (Some kd) = false ->
  kind <$> sobjects (sk_acquire o t s) !! o = Some (after_acquire kd).
Proof.
  intros E Hm. unfold sk_acquire. rewrite E. destruct (sobjects s !! o) as [ob|] eqn:Eo; [|done].
  destruct kd as [l p h|m a|[] b|[] b i n c|]; try done; simpl; try (rewrite Eo; done).
  2-3: rewrite lookup_alter_eq, Eo; done.
  destruct (a <=? 0); [by rewrite Eo|]. simpl. by rewrite lookup_alter_eq, Eo.
Qed.

Lemma wake_kind raw o t s th kd :
  wait_ok s -> sthreads s !! t = Some th -> o ∈ wait_objects th ->
  kind <$> sobjects s !! o = Some kd -> is_mutex (Some kd) = false ->
  kind <$> sobjects (sk_wake raw o t s) !! o = Some (after_acquire kd).
Proof.
  intros Hw E Ho Ek Hm. destruct (acquired_once s o t th Hw E Ho) as [Hn Hin].
  transitivity (kind <$> sobjects (acquire_all t (acquired s o t) s) !! o).
  - unfold sk_wake, sk_ready. cbn [sk_thread sobjects]. fold (acquire_all t (acquired s o t) s).
    destruct (same_own_leave t (sk_thread t (wake_registers raw o) (acquire_all t (acquired s o t) s))) as [_ H].
    by rewrite H.
  - rewrite acquire_all_kind; [by apply acquire_kind|done|done|]. intros s' Hs'. rewrite Ek in Hs'.
    by rewrite !(acquire_kind o t _ kd).
Qed.

Section Specs.
Context {Q : Type} `{!ReadyQueue Q} `{!ReadyQueueLaws Q} {T : Type} `{!TimingService T}.
Variable nsToCycles : Z -> Z.
Variable result_raw : Result -> Z.

Local Abbreviation K := (@Kernel Q T).

(** ** The object after its waiters have been woken *)

Lemma sk_kind_of_iff (k : K) o kd :
  is_mutex (Some kd) = false -> kind_of k o = Some kd <-> kind <$> sobjects (skel k) !! o = Some kd.
Proof.
  intros Hm. split; [by intros; apply sk_kind_of|]. unfold kind_of. rewrite skel_object.
  destruct (objects k !! o) as [ob|]; [|done]. intros [= H]. simpl. unfold stripO in H.
  destruct (kind ob) eqn:E; rewrite ?E in H; simpl in H; subst; done.
Qed.

(** One step of [wakes]. *)
Lemma wakes_step o (k k1 : K) t ob kd :
  sync_ok k -> objects k !! o = Some ob -> best_in k o (waiting_threads ob) t ->
  skel k1 = sk_wake (result_raw ResultSuccess) o t (skel k) ->
  kind_of k o = Some kd -> is_mutex (Some kd) = false ->
  should_wait (skel k) o t = false /\ kind_of k1 o = Some (after_acquire kd) /\ wait_ok (skel k1).
Proof.
  intros Hok Eo Hb S1 Hk Hm. destruct (best_in_elem _ _ _ _ Hb) as [Hin Hrw].
  assert (Hw : wait_ok (skel k)) by apply Hok.
  destruct (wait_in _ Hw o (stripO ob) t) as (th & E & Ho & _); [by rewrite skel_object, Eo|by rewrite stripO_waiting|].
  split_and!.
  - unfold ready_waiter in Hrw. by apply andb_true_iff in Hrw as [?%negb_true_iff _].
  - apply sk_kind_of_iff; [by apply after_acquire_not_mutex|].
    rewrite S1. eapply wake_kind; [done|done|done| |done]. by apply sk_kind_of.
  - rewrite S1. by apply wait_ok_wake.
Qed.

(** Soundness along [wakes]: the loop's states are sound. *)
Lemma wakes_ind_ok o (P : K -> list Z -> K -> Prop) :
  (forall k, sync_ok k -> P k [] k) ->
  (forall k t k1 ws k2 ob, sync_ok k -> objects k !! o = Some ob -> best_in k o (waiting_threads ob) t ->
     skel k1 = sk_wake (result_raw ResultSuccess) o t (skel k) -> sync_ok k1 -> P k1 ws k2 -> P k (t :: ws) k2) ->
  forall k ws k', wakes result_raw o k ws k' -> sync_ok k -> P k ws k'.
Proof.
  intros H0 H1 k ws k' H. induction H as [k|k t k1 ws k2 ob Eo Hb S1 Hok1 Hws IH]; intros Hok; [auto|].
  apply (H1 k t k1 ws k2 ob); auto.
Qed.

Lemma wakes_semaphore o (k : K) ws k' m a :
  wakes result_raw o k ws k' -> sync_ok k -> kind_of k o = Some (Semaphore m a) ->
  kind_of k' o = Some (Semaphore m (a - Z.of_nat (length ws))) /\ (ws = [] \/ Z.of_nat (length ws) <= a).
Proof.
  intros H Hok. revert a. pattern k, ws, k'. revert k ws k' H Hok. apply wakes_ind_ok.
  - intros k _ a Hk. simpl. rewrite Z.sub_0_r. auto.
  - intros k t k1 ws k2 ob Hok Eo Hb S1 Hok1 IH a Hk.
    destruct (wakes_step o k k1 t ob _ Hok Eo Hb S1 Hk eq_refl) as (Hsw & Hk1 & _).
    assert (Ha : 0 < a).
    { unfold should_wait in Hsw. pose proof (sk_kind_of k o _ Hk eq_refl) as Hs.
      destruct (sobjects (skel k) !! o) as [ob'|]; [|done]. injection Hs as Hs. rewrite Hs in Hsw. lia. }
    simpl in Hk1. zdecide. destruct (IH (a - 1)) as [Hk2 Hl].
    { rewrite Hk1. by destruct (Z.leb_spec a 0); [lia|]. }
    rewrite Hk2. simpl length. split; [f_equal; f_equal; lia|right]. destruct Hl as [->|Hl]; simpl; lia.
Qed.

Lemma wakes_oneshot o (k : K) ws k' b :
  wakes result_raw o k ws k' -> sync_ok k -> kind_of k o = Some (Event OneShot b) ->
  (length ws <= if b then 1 else 0)%nat /\ kind_of k' o = Some (Event OneShot (b && bool_decide (ws = []))).
Proof.
  intros H Hok. revert b. pattern k, ws, k'. revert k ws k' H Hok. apply wakes_ind_ok.
  - intros k _ b Hk. simpl. rewrite andb_true_r. split; [lia|done].
  - intros k t k1 ws k2 ob Hok Eo Hb S1 Hok1 IH b Hk.
    destruct (wakes_step o k k1 t ob _ Hok Eo Hb S1 Hk eq_refl) as (Hsw & Hk1 & _). simpl in Hk1.
    destruct (IH false Hk1) as [Hl Hk2]. assert (b = true) as ->.
    { unfold should_wait in Hsw. pose proof (sk_kind_of k o _ Hk eq_refl) as Hs.
      destruct (sobjects (skel k) !! o) as [ob'|]; [|done]. injection Hs as Hs. rewrite Hs in Hsw. by destruct b. }
    simpl length. split; [lia|]. by rewrite Hk2.
Qed.

Lemma wakes_lasting o (k : K) ws k' r b :
  wakes result_raw o k ws k' -> sync_ok k -> r <> OneShot -> kind_of k o = Some (Event r b) -> kind_of k' o = Some (Event r b).
Proof.
  intros H Hok Hr. pattern k, ws, k'. revert k ws k' H Hok. apply wakes_ind_ok; [done|].
  intros k t k1 ws k2 ob Hok Eo Hb S1 Hok1 IH Hk. apply IH.
  destruct (wakes_step o k k1 t ob _ Hok Eo Hb S1 Hk eq_refl) as (_ & Hk1 & _). by destruct r.
Qed.

(** ** The calls *)

(** A waiter of the object that waits for any one object. *)
Definition any_waiter (k : K) (o t : Z) : Prop :=
  exists ob th, objects k !! o = Some ob /\ t ∈ waiting_threads ob /\
    threads k !! t = Some th /\ status th <> WaitSynchAll.

(** [ws] have been woken between [k] and [k']: they are distinct waiters, now ready;
    everyone else is as before. *)
Definition woken (o : Z) (k : K) (ws : list Z) (k' : K) : Prop :=
  NoDup ws /\
  (forall t, t ∈ ws -> exists ob th, objects k !! o = Some ob /\ t ∈ waiting_threads ob /\
     threads k' !! t = Some th /\ status th = Ready /\ wait_objects th = []) /\
  (forall t, t ∉ ws -> sthreads (skel k') !! t = sthreads (skel k) !! t).

Lemma set_state_outcome (k : K) o kd kd' f :
  sync_ok k -> kind_of k o = Some kd -> is_mutex (Some kd) = false -> kd <> ThreadObject ->
  is_mutex (Some kd') = false -> kd' <> ThreadObject -> (forall ob, kind ob = kd -> f ob = set_kind kd' ob) ->
  exists k1, modify_object o f k = Done k1 tt /\ sync_ok k1 /\ kind_of k1 o = Some kd' /\ threads k1 = threads k /\
    (forall i, waiting_threads <$> objects k1 !! i = waiting_threads <$> objects k !! i).
Proof.
  intros Hok Hk H1 H2 H3 H4 Hf.
  assert (W : wp (bind (modify_object o f) (fun _ => ret tt)) k (fun _ k' => sync_ok k' /\ kind_of k' o = Some kd')).
  { by eapply wp_set_state. }
  unfold wp, bind in W. unfold kind_of in Hk. destruct (objects k !! o) as [ob|] eqn:Eo; [|done]. injection Hk as Hk.
  assert (E : modify_object o f k = Done (set_objects (<[o := f ob]> (objects k)) k) tt).
  { unfold modify_object. by erewrite bind_Done by (by apply object_Done). }
  rewrite E in W. destruct W as [W1 W2]. eexists. split_and!; [exact E|done|done|done|]. intros i. simpl.
  destruct (decide (i = o)) as [->|]; [rewrite lookup_insert_eq, Eo; simpl; by rewrite Hf|by rewrite lookup_insert_ne].
Qed.

Lemma WakeupAll_state (k : K) o kd :
  sync_ok k -> kind_of k o = Some kd -> is_mutex (Some kd) = false ->
  exists ws k1 k', WakeupAllWaitingThreads result_raw o k = Done k' tt /\ sync_ok k' /\ woken o k ws k' /\
    wakes result_raw o k ws k1 /\
    (forall kd1, kind_of k1 o = Some kd1 -> is_mutex (Some kd1) = false ->
       kind_of k' o = Some (kind (pulse_clear (mkObject [] kd1))) /\
       ((exists t, any_waiter k' o t) -> exists t, should_wait (skel k1) o t = true)).
Proof.
  intros Hok Hk Hm. destruct (WakeupAll_outcome result_raw k o Hok) as
    (ws & k1 & k' & E & Hws & Hn & S' & Hok' & C' & Hnd & Hin & Hout); [by eapply kind_exists|].
  exists ws, k1, k'. split_and!; [done|done| |done|].
  - split_and!; [done| |done]. intros t Ht. destruct (Hin t Ht) as (ob & th & H1 & H2 & H3 & H4 & H5 & _). eauto 8.
  - intros kd1 Hk1 Hm1. pose proof (sk_kind_of k1 o kd1 Hk1 Hm1) as Hs1. split.
    + apply sk_kind_of_iff; [by destruct kd1 as [| |[] ?|[] ? ? ? ?|]|]. rewrite S'. cbn [sk_object sobjects].
      rewrite lookup_alter_eq. destruct (sobjects (skel k1) !! o) as [ob|]; [|done]. injection Hs1 as <-. simpl.
      f_equal. unfold pulse_clear. simpl. by destruct (kind ob) as [| |[]|[]|] eqn:E2; simpl; rewrite ?E2.
    + intros (t & ob & th & Eo & Ht & Et & Hst). exists t.
      assert (Eos : sobjects (skel k') !! o = Some (stripO ob)) by (by rewrite skel_object, Eo).
      rewrite S' in Eos. cbn [sk_object sobjects] in Eos. rewrite lookup_alter_eq, skel_object in Eos.
      destruct (objects k1 !! o) as [ob1|] eqn:Eo1; [|done]. apply (inj Some) in Eos.
      assert (Ht1 : t ∈ waiting_threads ob1).
      { assert (Hwt : waiting_threads (stripO ob) = waiting_threads ob1).
        { rewrite <-Eos. unfold pulse_clear. repeat case_match; simpl; apply stripO_waiting. }
        rewrite stripO_waiting in Hwt. by rewrite <-Hwt. }
      pose proof (Hn ob1 t Eo1 Ht1) as Hnr.
      assert (Ets : sthreads (skel k1) !! t = Some (stripT th)).
      { assert (Hts : sthreads (skel k') = sthreads (skel k1)) by (by rewrite S'). by rewrite <-Hts, skel_thread, Et. }
      unfold ready_waiter in Hnr. rewrite Ets, stripT_status, bool_decide_eq_false_2 in Hnr by done.
      apply andb_false_iff in Hnr as [Hnr|]; [|done]. by apply negb_false_iff.
Qed.

Lemma woken_from o k k1 ws k' :
  threads k1 = threads k -> (forall i, waiting_threads <$> objects k1 !! i = waiting_threads <$> objects k !! i) ->
  woken o k1 ws k' -> woken o k ws k'.
Proof.
  intros Ht Hl (Hn & Hin & Hout). split_and!; [done| |].
  - intros t H. destruct (Hin t H) as (ob & th & Eo & Hw & H'). specialize (Hl o). rewrite Eo in Hl.
    destruct (objects k !! o) as [ob0|]; [|done]. injection Hl as Hl. exists ob0, th. by rewrite <-Hl.
  - intros t H. rewrite Hout by done. by rewrite !skel_thread, Ht.
Qed.

Lemma should_wait_kind (k : K) o t kd : kind_of k o = Some kd -> is_mutex (Some kd) = false -> kd <> ThreadObject ->
  should_wait (skel k) o t = match kd with
                             | Semaphore _ a => a <=? 0
                             | Event _ b | Timer _ b _ _ _ => negb b
                             | _ => true
                             end.
Proof.
  intros Hk Hm Ht. pose proof (sk_kind_of k o kd Hk Hm) as Hs. unfold should_wait.
  destruct (sobjects (skel k) !! o) as [ob|]; [|done]. injection Hs as ->. by destruct kd.
Qed.

(** Releasing a semaphore fails, changing nothing, when its count would exceed the
    maximum; otherwise the result is the previous count, each woken waiter takes one
    unit of the new count, never more than there are, and no waiter for any object is
    left behind while units remain. *)
Theorem Semaphore_Release_spec k o count m a :
  sync_ok k -> kind_of k o = Some (Semaphore m a) -> is_s32 (count + a) ->
  (m < count + a -> Semaphore_Release result_raw o count k = Failed k ResultOutOfRangeKernel) /\
  (count + a <= m -> exists ws k', Semaphore_Release result_raw o count k = Done k' a /\ sync_ok k' /\
     woken o k ws k' /\ (ws = [] \/ Z.of_nat (length ws) <= a + count) /\
     kind_of k' o = Some (Semaphore m (a + count - Z.of_nat (length ws))) /\
     ((exists t, any_waiter k' o t) -> a + count - Z.of_nat (length ws) <= 0)).
Proof.
  intros Hok Hk Hs. unfold Semaphore_Release.
  destruct (objects k !! o) as [ob|] eqn:Eo; [|unfold kind_of in Hk; by rewrite Eo in Hk].
  assert (Ek : kind ob = Semaphore m a) by (unfold kind_of in Hk; rewrite Eo in Hk; by injection Hk).
  erewrite bind_Done by (by apply object_Done). rewrite Ek, s32_small by done. split; intros Hc.
  - unfold bind, R_UNLESS. by destruct (Z.leb_spec (count + a) m); [lia|].
  - unfold R_UNLESS. destruct (Z.leb_spec (count + a) m); [|lia]. erewrite bind_Done by reflexivity.
    rewrite (Z.add_comm a count), s32_small by done.
    destruct (set_state_outcome k o _ (Semaphore m (count + a)) (set_kind (Semaphore m (count + a))) Hok Hk)
      as (k1 & E1 & Hok1 & Hk1 & Ht1 & Hl1); try done.
    unfold modify_object in E1. erewrite bind_Done in E1 by (by apply object_Done). erewrite bind_Done by exact E1.
    destruct (WakeupAll_state k1 o _ Hok1 Hk1 eq_refl) as (ws & k2 & k' & E' & Hok' & Hwk & Hws & Hlast).
    erewrite bind_Done by exact E'. destruct (wakes_semaphore _ _ _ _ _ _ Hws Hok1 Hk1) as [Hk2 Hlen].
    destruct (Hlast _ Hk2 eq_refl) as [Hk' Hrest]. exists ws, k'. split_and!; try done; [by eapply woken_from|].
    intros H'. destruct (Hrest H') as [t Hsw]. rewrite (should_wait_kind _ _ _ _ Hk2) in Hsw by done. lia.
Qed.

(** Signalling an event wakes at most one waiter when it is one-shot, and uses the
    signal up exactly then; a sticky event stays signaled and a pulse event is reset.
    A one-shot event that stays signaled, a sticky and a pulse event leave no waiter
    for any object behind. *)
Theorem Event_Signal_spec k o r b :
  sync_ok k -> kind_of k o = Some (Event r b) ->
  exists ws k', Event_Signal result_raw o k = Done k' tt /\ sync_ok k' /\ woken o k ws k' /\
  match r with
  | OneShot => (length ws <= 1)%nat /\ kind_of k' o = Some (Event OneShot (bool_decide (ws = []))) /\
      (ws = [] -> forall t, ~ any_waiter k' o t)
  | Sticky => kind_of k' o = Some (Event Sticky true) /\ forall t, ~ any_waiter k' o t
  | Pulse => kind_of k' o = Some (Event Pulse false) /\ forall t, ~ any_waiter k' o t
  end.
Proof.
  intros Hok Hk. unfold Event_Signal.
  destruct (set_state_outcome k o _ (Event r true) (fun ob => match kind ob with Event r _ => set_kind (Event r true) ob | _ => ob end)
    Hok Hk) as (k1 & E1 & Hok1 & Hk1 & Ht1 & Hl1); try done; [by intros ob ->|].
  erewrite bind_Done by exact E1.
  destruct (WakeupAll_state k1 o _ Hok1 Hk1 eq_refl) as (ws & k2 & k' & E' & Hok' & Hwk & Hws & Hlast).
  exists ws, k'. split_and!; [done|done|by eapply woken_from|]. destruct r.
  - destruct (wakes_oneshot _ _ _ _ _ Hws Hok1 Hk1) as [Hlen Hk2]. destruct (Hlast _ Hk2 eq_refl) as [Hk' Hrest].
    split_and!; [done|done|]. intros -> t Ha. destruct (Hrest (ex_intro _ t Ha)) as [t' Hsw].
    by rewrite (should_wait_kind _ _ _ _ Hk2) in Hsw.
  - pose proof (wakes_lasting o k1 ws k2 Sticky true Hws Hok1 ltac:(done) Hk1) as Hk2. destruct (Hlast _ Hk2 eq_refl) as [Hk' Hrest].
    split; [done|]. intros t Ha. destruct (Hrest (ex_intro _ t Ha)) as [t' Hsw].
    by rewrite (should_wait_kind _ _ _ _ Hk2) in Hsw.
  - pose proof (wakes_lasting o k1 ws k2 Pulse true Hws Hok1 ltac:(done) Hk1) as Hk2. destruct (Hlast _ Hk2 eq_refl) as [Hk' Hrest].
    split; [done|]. intros t Ha. destruct (Hrest (ex_intro _ t Ha)) as [t' Hsw].
    by rewrite (should_wait_kind _ _ _ _ Hk2) in Hsw.
Qed.

(** ** Calls the kernel does not survive *)

(** A wait for all objects that lists an available one-shot event twice trips the
    assertion of [Event::Acquire]: every object is found available before any is
    acquired. *)
Theorem WaitSynchronizationN_twice_aborts k t o ns :
  kind_of k o = Some (Event OneShot true) -> WaitSynchronizationN nsToCycles t [o; o] true ns k = Aborted.
Proof.
  intros Hk. unfold kind_of in Hk. destruct (objects k !! o) as [[w kd]|] eqn:Eo; [|done]. injection Hk as Hk.
  simpl in Hk. subst kd.
  assert (Hsw : ShouldWait o t k = Done k false) by (unfold ShouldWait; by erewrite bind_Done by (by apply object_Done)).
  set (k1 := set_objects (<[o := mkObject w (Event OneShot false)]> (objects k)) k).
  assert (E1 : objects k1 !! o = Some (mkObject w (Event OneShot false))) by apply lookup_insert_eq.
  assert (Ha : Acquire o t k = Done k1 tt).
  { unfold Acquire. erewrite bind_Done by (by apply object_Done). simpl. by erewrite bind_Done by exact Hsw. }
  unfold WaitSynchronizationN. simpl. unfold bind at 1. unfold bind at 1. rewrite Hsw. unfold bind at 1. rewrite Hsw.
  simpl. unfold bind at 1. unfold bind at 1. rewrite Ha.
  assert (Ha2 : Acquire o t k1 = Aborted).
  { unfold Acquire. erewrite bind_Done by (by apply object_Done). simpl. unfold ShouldWait, bind, object. by rewrite E1. }
  unfold bind. by rewrite Ha2.
Qed.

(** Stopping a thread that waits for itself trips the assertion on the statuses of
    waiters: it is marked dead before its own waiters are woken. *)
Theorem Stop_self_waiter_aborts k t th ob l :
  threads k !! t = Some th -> objects k !! t = Some ob -> waiting_threads ob = t :: l ->
  Stop result_raw t k = Aborted.
Proof.
  intros Et Eo Ew. unfold Stop. erewrite bind_Done by reflexivity. erewrite bind_Done by (by apply thread_Done).
  assert (Hq : exists k1, (if bool_decide (status th = Ready) then modify_queue (rq_remove (current_priority th) t) else ret tt)
    (set_timing (UnscheduleEvent ThreadWakeupEvent t (timing k)) k) = Done k1 tt /\ threads k1 = threads k /\ objects k1 = objects k)
    by (case_bool_decide; by eexists).
  destruct Hq as (k1 & E1 & Et1 & Eo1). erewrite bind_Done by exact E1. rewrite <-Et1 in Et. rewrite <-Eo1 in Eo.
  assert (E2 : modify_thread t (set_status Dead) k1 = Done (set_threads (<[t := set_status Dead th]> (threads k1)) k1) tt).
  { unfold modify_thread. by erewrite bind_Done by (by apply thread_Done). }
  erewrite bind_Done by exact E2. set (k2 := set_threads _ k1).
  assert (E3 : threads k2 !! t = Some (set_status Dead th)) by apply lookup_insert_eq.
  assert (Hg : GetHighestPriorityReadyThread t k2 = Aborted).
  { unfold GetHighestPriorityReadyThread. erewrite bind_Done by (by apply object_Done). rewrite Ew. simpl.
    by erewrite bind_Done by (by apply thread_Done). }
  assert (Hw : WakeupAllWaitingThreads result_raw t k2 = Aborted).
  { unfold WakeupAllWaitingThreads. erewrite bind_Done by (by apply object_Done). simpl. unfold bind. by rewrite Hg. }
  unfold bind. by rewrite Hw.
Qed.
End Specs.
