(* ===== verification/KernelModel.v ===== *)
(** * KernelModel: the kernel runs

    A concrete ready queue and event list that satisfy the interfaces of [Kernel], a
    decision procedure for the requests, and small runs: every theorem on the kernel
    is applied to a state that such a run reaches. *)
From stdpp Require Import gmap.
From S2P Require Import Prelude BitField Result Kernel Skeleton Sync Reschedule KernelCalls SyncSpecs.

Local Open Scope Z_scope.

(** ** A ready queue: the entries of all priorities in one list *)

Abbreviation queue := (list (Z * Z)).

Fixpoint take_out (x : Z * Z) (q : queue) : queue :=
  match q with
  | [] => []
  | y :: q => if bool_decide (y = x) then q else y :: take_out x q
  end.

Definition entries (q : queue) (p : Z) : list Z := (filter (fun x => x.1 = p) q).*2.

(** The most urgent priority in the queue. *)
Definition most_urgent (q : queue) : option Z :=
  foldr (fun x m => match m with Some m => Some (Z.min x.1 m) | None => Some x.1 end) None q.

Definition pop_at (q : queue) : option (Z * Z) * queue :=
  match most_urgent q with
  | Some p =>
      match entries q p with
      | t :: _ => (Some (p, t), take_out (p, t) q)
      | [] => (None, q)
      end
  | None => (None, q)
  end.

#[export] Instance list_queue : ReadyQueue queue := {
  rq_prepare _ q := q;
  rq_push_back p t q := q ++ [(p, t)];
  rq_push_front p t q := (p, t) :: q;
  rq_remove p t q := take_out (p, t) q;
  rq_move t p1 p2 q := take_out (p1, t) q ++ [(p2, t)];
  rq_pop_first := pop_at;
  rq_pop_first_better limit q :=
    match most_urgent q with
    | Some p => if p <? limit then pop_at q else (None, q)
    | None => (None, q)
    end;
  rq_list := entries
}.

Lemma entries_cons x q p : entries (x :: q) p = if x.1 =? p then x.2 :: entries q p else entries q p.
Proof. unfold entries. rewrite filter_cons. destruct (Z.eqb_spec x.1 p); case_decide; done. Qed.

Lemma entries_app q1 q2 p : entries (q1 ++ q2) p = entries q1 p ++ entries q2 p.
Proof. unfold entries. by rewrite filter_app, fmap_app. Qed.

Lemma entries_take_out p t q p' :
  entries (take_out (p, t) q) p' = if p' =? p then erase_first t (entries q p) else entries q p'.
Proof.
  destruct (Z.eqb_spec p' p) as [Ep|Ep]; [subst p'|]; induction q as [|[p0 t0] q IH]; simpl; try done;
    rewrite !entries_cons; simpl; case_bool_decide as H.
  - injection H as -> ->. rewrite Z.eqb_refl. simpl. by rewrite Z.eqb_refl.
  - rewrite entries_cons, IH. simpl. destruct (Z.eqb_spec p0 p) as [->|]; [|done]. simpl.
    by destruct (Z.eqb_spec t0 t) as [->|].
  - injection H as -> ->. by destruct (Z.eqb_spec p p').
  - by rewrite entries_cons, IH.
Qed.

Lemma most_urgent_spec q :
  match most_urgent q with
  | Some p => entries q p <> [] /\ forall p', p' < p -> entries q p' = []
  | None => q = []
  end.
Proof.
  induction q as [|[p0 t0] q IH]; [done|]. simpl. destruct (most_urgent q) as [m|].
  - destruct IH as [H1 H2]. split.
    + rewrite entries_cons. simpl. destruct (Z.eqb_spec p0 (Z.min p0 m)) as [|Hne]; [done|].
      by replace (Z.min p0 m) with m by lia.
    + intros p' Hp'. rewrite entries_cons. simpl. destruct (Z.eqb_spec p0 p') as [->|]; [lia|]. apply H2. lia.
  - subst q. split.
    + rewrite entries_cons. simpl. by rewrite Z.eqb_refl.
    + intros p' Hp'. rewrite entries_cons. simpl. destruct (Z.eqb_spec p0 p'); [lia|done].
Qed.

Lemma pop_at_spec q p t q' p' :
  pop_at q = (Some (p, t), q') ->
  most_urgent q = Some p /\ entries q p' = (if p' =? p then t :: entries q' p else entries q' p') /\
  (p' < p -> entries q p' = []).
Proof.
  unfold pop_at. pose proof (most_urgent_spec q) as H. destruct (most_urgent q) as [m|]; [|done].
  destruct H as [H1 H2]. destruct (entries q m) as [|t0 l] eqn:E; [done|]. intros [= <- <- <-].
  split_and!; [done| |auto]. rewrite !entries_take_out, Z.eqb_refl, E.
  simpl. rewrite Z.eqb_refl. destruct (Z.eqb_spec p' m) as [->|]; [by rewrite E|done].
Qed.

Lemma pop_at_None q q' : pop_at q = (None, q') -> q = [] /\ q' = [].
Proof.
  unfold pop_at. pose proof (most_urgent_spec q) as H. destruct (most_urgent q) as [m|]; [|by intros [= <-]].
  destruct H as [H1 _]. by destruct (entries q m).
Qed.

#[export] Instance list_queue_laws : ReadyQueueLaws queue.
Proof.
  split; simpl.
  - done.
  - intros p t q p'. rewrite entries_app, entries_cons. simpl. rewrite (Z.eqb_sym p).
    destruct (Z.eqb_spec p' p) as [->|]; [done|apply app_nil_r].
  - intros p t q p'. rewrite entries_cons. simpl. rewrite (Z.eqb_sym p). by destruct (Z.eqb_spec p' p) as [->|].
  - intros. apply entries_take_out.
  - done.
  - intros q q' p' H. by destruct (pop_at_None _ _ H) as [-> ->].
  - intros q q' p t p' H. by destruct (pop_at_spec _ _ _ _ p' H) as (_ & ? & ?).
  - intros limit q q' p' H. pose proof (most_urgent_spec q) as Hm. destruct (most_urgent q) as [m|] eqn:E.
    + destruct (Z.ltb_spec m limit).
      * destruct (pop_at_None _ _ H) as [-> ->]. done.
      * injection H as <-. split; [done|]. intros. apply Hm. lia.
    + injection H as <-. by subst.
  - intros limit q q' p t p' H. destruct (most_urgent q) as [m|] eqn:E; [|done].
    destruct (Z.ltb_spec m limit); [|done]. destruct (pop_at_spec _ _ _ _ p' H) as (H1 & H2 & H3).
    split; [congruence|done].
Qed.

(** ** Pending events *)

#[export] Instance list_timing : TimingService (list (Z * EventKind * Z)) := {
  ScheduleEvent cycles e d l := (cycles, e, d) :: l;
  UnscheduleEvent e d l :=
    List.filter (fun x => negb (match x.1.2, e with
                           | ThreadWakeupEvent, ThreadWakeupEvent | TimerCallbackEvent, TimerCallbackEvent => x.2 =? d
                           | _, _ => false end)) l
}.

(** ** Runs *)

(** A decidable closed fact, by evaluation. *)
Ltac by_compute :=
  match goal with
  | |- ?P => let d := constr:(_ : Decision P) in apply (@bool_decide_unpack P d); vm_compute; exact I
  end.

Abbreviation kernel := (@Kernel queue (list (Z * EventKind * Z))).

#[export] Instance is_a_dec f (k : kernel) o : Decision (is_a f k o).
Proof.
  unfold is_a. destruct (kind_of k o) as [kd|]; [|right; by intros (? & ? & _)].
  destruct (f kd) eqn:E; [left; eauto|right; intros (kd' & [= <-] & ?); congruence].
Defined.

#[export] Instance allowed_dec (k : kernel) r : Decision (allowed k r).
Proof.
  destruct r; simpl; try apply _.
  - destruct (decide (status_of k t = Some Running)) as [H1|]; [|right; tauto].
    destruct (decide (Forall (fun o => is_Some (objects k !! o)) objs)) as [H2|H2]; rewrite Forall_forall in H2;
      [|right; tauto].
    destruct (decide (wait_all = true -> NoDup objs)) as [H3|]; [left|right]; tauto.
  - destruct (status_of k t) as [s|]; [|right; by intros (? & ? & _)].
    destruct (decide (s = Running)) as [->|H1]; [right; by intros (? & [= <-] & ? & _)|].
    destruct (decide (s = Dead)) as [->|H2]; [right; by intros (? & [= <-] & _ & ?)|]. left. eauto.
Defined.

Definition raw_result : Result -> Z := raw (fun p b v => assign 32 false p b 0 v).

Fixpoint steps (rs : list request) (k : kernel) : option kernel :=
  match rs with
  | [] => Some k
  | r :: rs => if decide (allowed k r) then after (exec id raw_result r) k ≫= steps rs else None
  end.

Definition empty_kernel : kernel := mkKernel ∅ ∅ [] None [] false.

Lemma steps_reachable rs k k' :
  kernel_reachable id raw_result k -> steps rs k = Some k' -> kernel_reachable id raw_result k'.
Proof.
  revert k. induction rs as [|r rs IH]; intros k Hk; simpl; [by intros [= <-]|].
  case_decide as Ha; [|done]. destruct (after _ k) as [k1|] eqn:E; [|done]. simpl. apply IH.
  by eapply reachable_step.
Qed.

Lemma empty_reachable : kernel_reachable id raw_result empty_kernel.
Proof. apply reachable_init. by split_and!. Qed.

(** Two threads, an event, a semaphore, a mutex and a timer; thread 2, the more urgent,
    waits for the event, thread 1 holds the mutex. *)
Definition setup : list request :=
  [ReqNewThread 1 50 0 true true None; ReqNewThread 2 40 7 true true None; ReqNewEvent 10 OneShot;
   ReqNewSemaphore 11 0 5; ReqNewMutex 12 false; ReqNewTimer 13 Pulse 1; ReqReschedule; ReqWait1 2 10 (-1);
   ReqReschedule; ReqWait1 1 12 0].

Definition state (rs : list request) : kernel := default empty_kernel (steps rs empty_kernel).

Lemma state_reachable rs : bool_decide (is_Some (steps rs empty_kernel)) = true -> kernel_reachable id raw_result (state rs).
Proof.
  intros [k E]%bool_decide_eq_true_1. unfold state. rewrite E. simpl.
  eapply steps_reachable; [apply empty_reachable|done].
Qed.

Lemma setup_reachable : kernel_reachable id raw_result (state setup).
Proof. apply state_reachable. vm_compute. reflexivity. Qed.

Lemma setup_ok : sync_ok (state setup).
Proof. exact (reachable_ok id raw_result _ setup_reachable). Qed.

(** ** The theorems at these states *)

Lemma WakeupAllWaitingThreads_wakes_witness :
  exists (ws : list Z) k1 k', WakeupAllWaitingThreads raw_result 10 (state setup) = Done k' tt /\
    wakes raw_result 10 (state setup) ws k1 /\ NoDup ws /\ sync_ok k'.
Proof.
  destruct (WakeupAllWaitingThreads_wakes raw_result (state setup) 10 setup_ok) as (ws & k1 & k' & H).
  - by_compute.
  - exists ws, k1, k'. tauto.
Defined.

Lemma Reschedule_spec_witness : exists k', Reschedule (state setup) = Done k' tt /\ sync_ok k'.
Proof. destruct (Reschedule_spec (state setup) setup_ok) as (k' & H1 & H2 & _). exists k'. tauto. Defined.

(** Signalling the event of the run wakes thread 2. *)
Lemma kernel_safe_witness :
  is_Some (after (exec id raw_result (ReqSignal 10)) (state setup)) /\
  status_of (state (setup ++ [ReqSignal 10])) 2 = Some Ready.
Proof.
  split.
  - destruct (kernel_safe id raw_result (state setup) setup_reachable) as [_ H]. apply H.
    by_compute.
  - vm_compute. reflexivity.
Defined.

Lemma mutex_exclusion_witness : exists th, threads (state setup) !! 1 = Some th /\ (12 ∈ held_mutexes th <-> Some 1 = Some 1).
Proof.
  destruct (threads (state setup) !! 1) as [th|] eqn:E; [|vm_compute in E; discriminate E]. exists th. split; [reflexivity|].
  destruct (mutex_exclusion id raw_result (state setup) 12 (mkObject [] (Mutex 1 50 (Some 1))) 1 50 (Some 1) setup_reachable)
    as (_ & _ & H); [vm_compute; reflexivity|reflexivity|exact (H 1 th E)].
Defined.

Lemma Semaphore_Release_spec_witness :
  (exists (ws : list Z) k', Semaphore_Release raw_result 11 3 (state setup) = Done k' 0 /\
    kind_of k' 11 = Some (Semaphore 5 (0 + 3 - Z.of_nat (length ws)))) /\
  Semaphore_Release raw_result 11 6 (state setup) = Failed (state setup) ResultOutOfRangeKernel.
Proof.
  assert (Hk : kind_of (state setup) 11 = Some (Semaphore 5 0)) by (vm_compute; reflexivity). split.
  - destruct (Semaphore_Release_spec raw_result (state setup) 11 3 5 0 setup_ok Hk) as [_ H]; [unfold is_s32; lia|].
    destruct H as (ws & k' & H1 & _ & _ & _ & H2 & _); [lia|]. exists ws, k'. tauto.
  - destruct (Semaphore_Release_spec raw_result (state setup) 11 6 5 0 setup_ok Hk) as [H _]; [unfold is_s32; lia|].
    apply H. lia.
Defined.

Lemma Event_Signal_spec_witness :
  exists (ws : list Z) k', Event_Signal raw_result 10 (state setup) = Done k' tt /\ (length ws <= 1)%nat /\
    kind_of k' 10 = Some (Event OneShot (bool_decide (ws = []))).
Proof.
  destruct (Event_Signal_spec raw_result (state setup) 10 OneShot false setup_ok) as (ws & k' & H1 & _ & _ & H2 & H3 & _).
  - vm_compute. reflexivity.
  - exists ws, k'. tauto.
Defined.

(** Thread 2 asks twice for the signaled event. *)
Definition twice : kernel := state (setup ++ [ReqClear 10; ReqSignal 10; ReqReschedule; ReqSignal 10]).

Lemma WaitSynchronizationN_twice_aborts_witness :
  kernel_reachable id raw_result twice /\ status_of twice 2 = Some Running /\
  WaitSynchronizationN id 2 [10; 10] true 0 twice = Aborted.
Proof.
  split; [|split].
  - apply state_reachable. vm_compute. reflexivity.
  - vm_compute. reflexivity.
  - apply WaitSynchronizationN_twice_aborts. vm_compute. reflexivity.
Defined.

(** Thread 1 waits for itself and is then terminated. *)
Definition self_waiting : list request := [ReqNewThread 1 50 0 true true None; ReqReschedule; ReqWait1 1 1 (-1)].

Lemma Stop_self_waiter_aborts_witness :
  kernel_reachable id raw_result (state self_waiting) /\ Stop raw_result 1 (state self_waiting) = Aborted.
Proof.
  split; [apply state_reachable; vm_compute; reflexivity|].
  destruct (threads (state self_waiting) !! 1) as [th|] eqn:E; [|vm_compute in E; discriminate E].
  apply (Stop_self_waiter_aborts raw_result (state self_waiting) 1 th (mkObject [1] ThreadObject) []);
    [exact E|vm_compute; reflexivity|reflexivity].
Defined.
