(* ===== verification/PicaFloat.v ===== *)
(** * PicaFloat: the number formats of the GPU (video_core/pica_types.h, video_core/pica/packed_attribute.h)

    A [Float<M, E>] is stored as a binary32 number, here a [spec_float]: the sign, the
    payload and the signalling bit of a NaN are not kept.  Every operation rounds to
    binary32. *)
From Stdlib Require Import SpecFloat.
From stdpp Require Import list.
From S2P Require Import Prelude.

Local Open Scope Z_scope.

#[export] Instance spec_float_eq_dec : EqDecision spec_float.
Proof. solve_decision. Defined.

(** ** Binary32 *)

(** [std::bit_cast<f32>] *)
Definition float_of_bits (h : Z) : spec_float :=
  let s := Z.testbit h 31 in
  let e := Z.land (Z.shiftr h 23) 255 in
  let m := Z.land h 8388607 in
  if e =? 255 then (if m =? 0 then S754_infinity s else S754_nan)
  else if e =? 0 then match m with Zpos p => S754_finite s p (-149) | _ => S754_zero s end
  else match m + 8388608 with Zpos p => S754_finite s p (e - 150) | _ => S754_nan end.

Definition f32_one : spec_float := S754_finite false 8388608 (-23).

Definition is_nan (x : spec_float) : bool := match x with S754_nan => true | _ => false end.

(** The integer part of [m * 2^e], towards zero. *)
Definition trunc_abs (m : positive) (e : Z) : Z := Z.shiftl (Zpos m) e.

(** [std::floor(float)] *)
Definition f32_floor (x : spec_float) : spec_float :=
  match x with
  | S754_finite s m e =>
      if 0 <=? e then x
      else binary_normalize 24 128 (Z.shiftr (if s then - Zpos m else Zpos m) (- e)) 0 s
  | _ => x
  end.

(** [static_cast<s32>(float)]: undefined when the value does not fit. *)
Definition f32_to_s32 (x : spec_float) : option Z :=
  match x with
  | S754_zero _ => Some 0
  | S754_finite s m e =>
      let z := if s then - trunc_abs m e else trunc_abs m e in
      if bool_decide (is_s32 z) then Some z else None
  | _ => None
  end.

(** ** [Float<M, E>] *)

Module Float.

(** [M] and [E] are the widths of the mantissa and of the exponent. *)
Definition FromRaw (M E : Z) (hex : Z) : spec_float :=
  let width := M + E + 1 in
  let bias := 128 - Z.shiftl 1 (E - 1) in
  let exponent := Z.land (Z.shiftr hex M) (Z.shiftl 1 E - 1) in
  let mantissa := Z.land hex (Z.shiftl 1 M - 1) in
  let sign := u32 (Z.shiftl (Z.shiftr hex (E + M)) 31) in
  float_of_bits
    (if Z.land hex (Z.shiftl 1 (width - 1) - 1) =? 0 then sign
     else
       let exponent := if exponent =? Z.shiftl 1 E - 1 then 255 else exponent + bias in
       Z.lor (Z.lor sign (u32 (Z.shiftl mantissa (23 - M)))) (Z.shiftl exponent 23)).

Definition Zero : spec_float := S754_zero false.
Definition One : spec_float := f32_one.

Definition mul (value flt : spec_float) : spec_float :=
  let result := SFmul 24 128 value flt in
  if is_nan result && negb (is_nan value) && negb (is_nan flt) then Zero else result.

Definition add (value flt : spec_float) : spec_float := SFadd 24 128 value flt.
Definition sub (value flt : spec_float) : spec_float := SFsub 24 128 value flt.
Definition div (value flt : spec_float) : spec_float := SFdiv 24 128 value flt.
Definition opp (value : spec_float) : spec_float := SFopp value.
Definition lt (value flt : spec_float) : bool := SFltb value flt.
Definition gt (value flt : spec_float) : bool := SFltb flt value.
Definition ge (value flt : spec_float) : bool := SFleb flt value.
Definition le (value flt : spec_float) : bool := SFleb value flt.
Definition eq (value flt : spec_float) : bool := SFeqb value flt.
Definition ne (value flt : spec_float) : bool := negb (SFeqb value flt).

End Float.

Definition f24_FromRaw : Z -> spec_float := Float.FromRaw 16 7.

(** [Common::Vec4<T>] *)
Record Vec4 (T : Type) := MakeVec { x : T; y : T; z : T; w : T }.
Arguments MakeVec {T}.
Arguments x {T}.
Arguments y {T}.
Arguments z {T}.
Arguments w {T}.

#[export] Instance Vec4_eq_dec `{EqDecision T} : EqDecision (Vec4 T).
Proof. solve_decision. Defined.

Definition f24vec : Type := Vec4 spec_float.

Definition AssignToAll {T} (f : T) : Vec4 T := MakeVec f f f f.

(** [v[i]] for an [i] below 4, and its assignment. *)
Definition component {T} (v : Vec4 T) (i : Z) : T :=
  if i =? 0 then x v else if i =? 1 then y v else if i =? 2 then z v else w v.

Definition set_component {T} (v : Vec4 T) (i : Z) (c : T) : Vec4 T :=
  if i =? 0 then MakeVec c (y v) (z v) (w v)
  else if i =? 1 then MakeVec (x v) c (z v) (w v)
  else if i =? 2 then MakeVec (x v) (y v) c (w v)
  else MakeVec (x v) (y v) (z v) c.

(** ** Packed attributes *)

Module PackedAttribute.

Record PackedAttribute := mk { buffer : list Z; index : Z }.

Definition initial : PackedAttribute := mk [0; 0; 0; 0] 0.

(** [None]: an access outside the buffer. *)
Definition Push (a : PackedAttribute) (word : Z) (is_float32 : bool) : option (bool * PackedAttribute) :=
  if bool_decide (0 <= index a < 4) then
    let index' := index a + 1 in
    Some ((4 <=? index') && is_float32 || (3 <=? index') && negb is_float32,
          mk (<[Z.to_nat (index a) := word]> (buffer a)) index')
  else None.

Definition Reset (a : PackedAttribute) : PackedAttribute := mk (buffer a) 0.

Definition word (a : PackedAttribute) (i : nat) : Z := default 0 (buffer a !! i).

Definition AsFloat24 (a : PackedAttribute) : f24vec :=
  MakeVec (f24_FromRaw (Z.land (word a 2) 16777215))
          (f24_FromRaw (Z.lor (Z.shiftl (Z.land (word a 1) 65535) 8)
                              (Z.land (Z.shiftr (word a 2) 24) 255)))
          (f24_FromRaw (Z.lor (Z.shiftl (Z.land (word a 0) 255) 16)
                              (Z.land (Z.shiftr (word a 1) 16) 65535)))
          (f24_FromRaw (Z.shiftr (word a 0) 8)).

(** The first word is the last component. *)
Definition AsFloat32 (a : PackedAttribute) : f24vec :=
  MakeVec (float_of_bits (word a 3)) (float_of_bits (word a 2))
          (float_of_bits (word a 1)) (float_of_bits (word a 0)).

Definition Get (a : PackedAttribute) (is_float32 : bool) : f24vec * PackedAttribute :=
  let a := Reset a in
  (if is_float32 then AsFloat32 a else AsFloat24 a, a).

End PackedAttribute.

(** ** What the raw formats mean *)

Lemma shiftl_1_ones n : 0 <= n -> Z.shiftl 1 n - 1 = Z.ones n.
Proof. intros. rewrite Z.ones_equiv, Z.shiftl_1_l. lia. Qed.

(** The fields of a packed binary32 word. *)
Lemma float_of_bits_pack b e m :
  (b = 0 \/ b = 1) -> 0 <= e < 256 -> 0 <= m < 8388608 ->
  let h := Z.lor (Z.lor (Z.shiftl b 31) m) (Z.shiftl e 23) in
  Z.testbit h 31 = (b =? 1) /\ Z.land (Z.shiftr h 23) 255 = e /\ Z.land h 8388607 = m.
Proof.
  intros Hb He Hm. cbn zeta.
  assert (Hm' : Z.land m (Z.ones 23) = m).
  { rewrite Z.land_ones by lia. apply Z.mod_small. lia. }
  assert (He' : Z.land e (Z.ones 8) = e).
  { rewrite Z.land_ones by lia. apply Z.mod_small. lia. }
  change 8388607 with (Z.ones 23). change 255 with (Z.ones 8).
  assert (Hmt : forall i, 23 <= i -> Z.testbit m i = false).
  { intros i Hi. rewrite <- Hm', Z.land_spec, Z.ones_spec_high, andb_false_r by lia. done. }
  assert (Het : forall i, 8 <= i -> Z.testbit e i = false).
  { intros i Hi. rewrite <- He', Z.land_spec, Z.ones_spec_high, andb_false_r by lia. done. }
  split_and!.
  - rewrite !Z.lor_spec, !Z.shiftl_spec, Hmt, Het by lia.
    destruct Hb as [-> | ->]; reflexivity.
  - rewrite <- He' at 2. apply Z.bits_inj'. intros i Hi.
    rewrite !Z.land_spec, Z.shiftr_spec, !Z.lor_spec, !Z.shiftl_spec, Hmt by lia.
    destruct (Z.lt_ge_cases i 8).
    + rewrite (Z.testbit_neg_r b), Z.add_simpl_r by lia. rewrite orb_false_l. done.
    + rewrite Z.ones_spec_high, !andb_false_r by lia. done.
  - rewrite <- Hm' at 2. apply Z.bits_inj'. intros i Hi.
    rewrite !Z.land_spec, !Z.lor_spec, !Z.shiftl_spec by lia.
    destruct (Z.lt_ge_cases i 23).
    + rewrite (Z.testbit_neg_r b), (Z.testbit_neg_r e), orb_false_l, orb_false_r by lia. done.
    + rewrite Z.ones_spec_high, !andb_false_r by lia. done.
Qed.

(** The number with sign [s], biased exponent [e] and mantissa [m] in the format
    [Float<M, E>]: there are no subnormal numbers. *)
Definition float_value (M E : Z) (s : bool) (e m : Z) : spec_float :=
  if (e =? 0) && (m =? 0) then S754_zero s
  else if e =? 2 ^ E - 1 then (if m =? 0 then S754_infinity s else S754_nan)
  else S754_finite s (Z.to_pos ((2 ^ M + m) * 2 ^ (23 - M))) (e - (2 ^ (E - 1) - 1) - 23).

Lemma FromRaw_value M E hex : 1 <= M <= 23 -> 2 <= E <= 7 -> 0 <= hex ->
  Float.FromRaw M E hex =
  float_value M E (Z.testbit hex (M + E)) ((hex / 2 ^ M) mod 2 ^ E) (hex mod 2 ^ M).
Proof.
  intros HM HE Hh. unfold Float.FromRaw, float_value.
  rewrite !shiftl_1_ones, !Z.land_ones, (Z.shiftr_div_pow2 hex M), Z.shiftl_1_l by lia.
  replace (M + E + 1 - 1) with (M + E) by lia.
  set (e := (hex / 2 ^ M) mod 2 ^ E). set (m := hex mod 2 ^ M).
  assert (HpM : 0 < 2 ^ M) by lia. assert (HpE : 0 < 2 ^ E) by lia.
  assert (Hm : 0 <= m < 2 ^ M) by (apply Z.mod_pos_bound; lia).
  assert (He : 0 <= e < 2 ^ E) by (apply Z.mod_pos_bound; lia).
  assert (Hsplit : hex mod 2 ^ (M + E) = e * 2 ^ M + m).
  { unfold e, m. rewrite Z.pow_add_r, Z.rem_mul_r by lia. lia. }
  assert (Hones : Z.ones E = 2 ^ E - 1) by (rewrite Z.ones_equiv; lia).
  assert (HE2 : 2 ^ E = 2 * 2 ^ (E - 1)).
  { rewrite <- Z.pow_succ_r by lia. f_equal. lia. }
  assert (HE7 : 2 ^ (E - 1) <= 2 ^ 6) by (apply Z.pow_le_mono_r; lia).
  assert (HE1 : 2 ^ 1 <= 2 ^ (E - 1)) by (apply Z.pow_le_mono_r; lia).
  rewrite Hsplit, Hones.
  (* the sign *)
  set (b := Z.b2z (Z.testbit hex (M + E))).
  assert (Hb : b = 0 \/ b = 1) by (unfold b; destruct (Z.testbit _ _); auto).
  assert (Hsign : u32 (Z.shiftl (Z.shiftr hex (E + M)) 31) = Z.shiftl b 31).
  { unfold b, u32. rewrite Z.testbit_spec', Z.shiftr_div_pow2, !Z.shiftl_mul_pow2 by lia.
    rewrite (Z.add_comm E M). change 4294967296 with (2 * 2 ^ 31).
    rewrite Z.mul_mod_distr_r by lia. done. }
  assert (Htb : Z.testbit hex (M + E) = (b =? 1)) by (unfold b; destruct (Z.testbit _ _); done).
  rewrite Hsign, Htb.
  assert (Hmant : u32 (Z.shiftl m (23 - M)) = m * 2 ^ (23 - M) /\ 0 <= m * 2 ^ (23 - M) < 8388608).
  { rewrite Z.shiftl_mul_pow2 by lia.
    assert (2 ^ M * 2 ^ (23 - M) = 8388608)
      by (rewrite <- Z.pow_add_r by lia; replace (M + (23 - M)) with 23 by lia; done).
    assert (0 < 2 ^ (23 - M)) by lia.
    assert (0 <= m * 2 ^ (23 - M) < 8388608) by nia.
    split; [apply u32_small; unfold is_u32; lia | done]. }
  destruct Hmant as [-> Hmant].
  destruct (Z.eqb_spec (e * 2 ^ M + m) 0) as [H0|H0].
  - assert (e = 0 /\ m = 0) as [-> ->] by nia. simpl.
    destruct Hb as [-> | ->]; done.
  - assert (Hem : (e =? 0) && (m =? 0) = false).
    { destruct (Z.eqb_spec e 0) as [->|]; [|done]. destruct (Z.eqb_spec m 0) as [->|]; [lia | done]. }
    rewrite Hem. set (e' := if e =? 2 ^ E - 1 then _ else _).
    assert (He' : 0 < e' <= 255) by (unfold e'; zcase; lia).
    destruct (float_of_bits_pack b e' (m * 2 ^ (23 - M)) Hb) as (H1 & H2 & H3); [lia | lia |].
    unfold float_of_bits. rewrite H1, H2, H3. unfold e' in *.
    assert (Hmz : (m * 2 ^ (23 - M) =? 0) = (m =? 0)).
    { assert (0 < 2 ^ (23 - M)) by lia. destruct (Z.eqb_spec m 0) as [->|]; [done |].
      apply Z.eqb_neq. nia. }
    destruct (Z.eqb_spec e (2 ^ E - 1)) as [Hmax|Hmax]; simpl.
    { rewrite Hmz. done. }
    zdecide.
    assert (Hval : m * 2 ^ (23 - M) + 8388608 = (2 ^ M + m) * 2 ^ (23 - M)).
    { rewrite Z.mul_add_distr_r, <- Z.pow_add_r by lia. replace (M + (23 - M)) with 23 by lia. lia. }
    rewrite <- Hval. destruct (m * 2 ^ (23 - M) + 8388608) eqn:E0; [lia | | lia].
    simpl. f_equal. lia.
Qed.
