(* ===== verification/ShaderBytecode.v ===== *)
(** * ShaderBytecode: the instructions of the GPU's shaders (common/shader/nihstro/shader_bytecode.h)

    An instruction and a swizzle pattern are 32-bit words; their formats are unions
    of bit fields, read here from the word. *)
From stdpp Require Import list.
From S2P Require Import Prelude.

Local Open Scope Z_scope.

(** [BitField<position, bits, uint32_t>::Value], [BitFlag<position, uint32_t>] *)
Definition field (position bits storage : Z) : Z :=
  Z.land (Z.shiftr storage position) (Z.ones bits).
Definition flag (position storage : Z) : bool := Z.testbit storage position.

Inductive RegisterType :=
  | Input | Output | Temporary | FloatUniform | IntUniform | BoolUniform
  | Address | ConditionalCode | UnknownRegister.

#[export] Instance RegisterType_eq_dec : EqDecision RegisterType.
Proof. solve_decision. Defined.

Module SourceRegister.

Definition GetRegisterType (value : Z) : RegisterType :=
  if value <? 16 then Input else if value <? 32 then Temporary else FloatUniform.

Definition GetIndex (value : Z) : Z :=
  match GetRegisterType value with
  | Input => value
  | Temporary => value - 16
  | _ => value - 32
  end.

End SourceRegister.

Module DestRegister.

Definition GetRegisterType (value : Z) : RegisterType :=
  if value <? 16 then Output else Temporary.

Definition GetIndex (value : Z) : Z :=
  match GetRegisterType value with
  | Output => value
  | _ => value - 16
  end.

End DestRegister.

Module OpCode.

Inductive Id :=
  | ADD | DP3 | DP4 | DPH | DST | EX2 | LG2 | LIT | MUL | SGE | SLT | FLR | MAX | MIN
  | RCP | RSQ | MOVA | MOV | DPHI | DSTI | SGEI | SLTI
  | BREAK | NOP | END | BREAKC | CALL | CALLC | CALLU | IFU | IFC | LOOP
  | EMIT | SETEMIT | JMPC | JMPU | CMP | MADI | MAD.

#[global] Instance Id_eq_dec : EqDecision Id.
Proof. solve_decision. Defined.

(** The named values of the enumeration. *)
Definition Id_table : list (Z * Id) :=
  [(0, ADD); (1, DP3); (2, DP4); (3, DPH); (4, DST); (5, EX2); (6, LG2); (7, LIT);
   (8, MUL); (9, SGE); (10, SLT); (11, FLR); (12, MAX); (13, MIN); (14, RCP); (15, RSQ);
   (18, MOVA); (19, MOV); (24, DPHI); (25, DSTI); (26, SGEI); (27, SLTI);
   (32, BREAK); (33, NOP); (34, END); (35, BREAKC); (36, CALL); (37, CALLC); (38, CALLU);
   (39, IFU); (40, IFC); (41, LOOP); (42, EMIT); (43, SETEMIT); (44, JMPC); (45, JMPU);
   (46, CMP); (48, MADI); (56, MAD)].

(** A value without a name is [None]. *)
Definition Id_of (value : Z) : option Id :=
  snd <$> list_find (fun p => fst p = value) Id_table ≫= fun q => Some (snd q).

Inductive Type_ :=
  | Trivial | Arithmetic | Conditional | UniformFlowControl | SetEmit | MultiplyAdd | Unknown.

#[global] Instance Type_eq_dec : EqDecision Type_.
Proof. solve_decision. Defined.

Definition EffectiveOpCode (value : Z) : option Id :=
  if Z.land value (Z.lnot 7) =? 56 then Some MAD
  else if Z.land value (Z.lnot 7) =? 48 then Some MADI
  else if Z.land value (Z.lnot 1) =? 46 then Some CMP
  else Id_of value.

(** The type of an instruction and whether its operands are inverted. *)
Definition info_table : list (Type_ * bool) :=
  replicate 16 (Arithmetic, false) ++
  [(Unknown, false); (Unknown, false); (Arithmetic, false); (Arithmetic, false);
   (Unknown, false); (Unknown, false); (Unknown, false); (Unknown, false);
   (Arithmetic, true); (Arithmetic, true); (Arithmetic, true); (Arithmetic, true);
   (Unknown, false); (Unknown, false); (Unknown, false); (Unknown, false);
   (Trivial, false); (Trivial, false); (Trivial, false); (Conditional, false);
   (Conditional, false); (Conditional, false); (UniformFlowControl, false);
   (UniformFlowControl, false); (Conditional, false); (UniformFlowControl, false);
   (Trivial, false); (SetEmit, false); (Conditional, false); (Conditional, false);
   (Arithmetic, false); (Arithmetic, false)] ++
  replicate 8 (MultiplyAdd, true) ++ replicate 8 (MultiplyAdd, false).

(** Opcodes have six bits: the table has an entry for each. *)
Definition GetInfo (value : Z) : Type_ * bool :=
  default (Unknown, false) (info_table !! Z.to_nat value).

End OpCode.

(** ** Instruction formats *)

Definition opcode (hex : Z) : Z := field 26 6 hex.
Definition assign_opcode (hex value : Z) : Z :=
  Z.lor (Z.ldiff hex (Z.shiftl (Z.ones 6) 26)) (Z.land (Z.shiftl value 26) (Z.shiftl (Z.ones 6) 26)).

Module Common.

Definition operand_desc_id (hex : Z) : Z := field 0 7 hex.
Definition GetSrc1 (is_inverted : bool) (hex : Z) : Z :=
  if negb is_inverted then field 12 7 hex else field 14 5 hex.
Definition GetSrc2 (is_inverted : bool) (hex : Z) : Z :=
  if negb is_inverted then field 7 5 hex else field 7 7 hex.
Definition address_register_index (hex : Z) : Z := field 19 2 hex.
Definition dest (hex : Z) : Z := field 21 5 hex.

Inductive Op := Equal | NotEqual | LessThan | LessEqual | GreaterThan | GreaterEqual | Unk6 | Unk7.

Definition Op_of (v : Z) : Op :=
  if v =? 0 then Equal else if v =? 1 then NotEqual else if v =? 2 then LessThan
  else if v =? 3 then LessEqual else if v =? 4 then GreaterThan else if v =? 5 then GreaterEqual
  else if v =? 6 then Unk6 else Unk7.

Definition compare_op_y (hex : Z) : Op := Op_of (field 21 3 hex).
Definition compare_op_x (hex : Z) : Op := Op_of (field 24 3 hex).

End Common.

Module FlowControl.

Definition num_instructions (hex : Z) : Z := field 0 8 hex.
Definition dest_offset (hex : Z) : Z := field 10 12 hex.
Definition bool_uniform_id (hex : Z) : Z := field 22 4 hex.
Definition int_uniform_id (hex : Z) : Z := field 22 2 hex.

Inductive Op := Or | And | JustX | JustY.

Definition Op_of (v : Z) : Op :=
  if v =? 0 then Or else if v =? 1 then And else if v =? 2 then JustX else JustY.

Definition op (hex : Z) : Op := Op_of (field 22 2 hex).
Definition refy (hex : Z) : bool := flag 24 hex.
Definition refx (hex : Z) : bool := flag 25 hex.

End FlowControl.

Module Mad.

Definition operand_desc_id (hex : Z) : Z := field 0 5 hex.
Definition GetSrc1 (is_inverted : bool) (hex : Z) : Z := field 17 5 hex.
Definition GetSrc2 (is_inverted : bool) (hex : Z) : Z :=
  if negb is_inverted then field 10 7 hex else field 12 5 hex.
Definition GetSrc3 (is_inverted : bool) (hex : Z) : Z :=
  if negb is_inverted then field 5 5 hex else field 5 7 hex.
Definition address_register_index (hex : Z) : Z := field 22 2 hex.
Definition dest (hex : Z) : Z := field 24 5 hex.

End Mad.

Module Setemit.

Definition winding (hex : Z) : bool := negb (field 22 1 hex =? 0).
Definition prim_emit (hex : Z) : bool := negb (field 23 1 hex =? 0).
Definition vertex_id (hex : Z) : Z := field 24 2 hex.

End Setemit.

Module SwizzlePattern.

Definition dest_mask (hex : Z) : Z := field 0 4 hex.
Definition negate_src1 (hex : Z) : bool := flag 4 hex.
Definition negate_src2 (hex : Z) : bool := flag 13 hex.
Definition negate_src3 (hex : Z) : bool := flag 22 hex.

(** The selectors of components 0 to 3. *)
Definition src1_selectors (hex : Z) : Z * Z * Z * Z :=
  (field 11 2 hex, field 9 2 hex, field 7 2 hex, field 5 2 hex).
Definition src2_selectors (hex : Z) : Z * Z * Z * Z :=
  (field 20 2 hex, field 18 2 hex, field 16 2 hex, field 14 2 hex).
Definition src3_selectors (hex : Z) : Z * Z * Z * Z :=
  (field 29 2 hex, field 27 2 hex, field 25 2 hex, field 23 2 hex).

Definition DestComponentEnabled (i : Z) (hex : Z) : bool :=
  negb (Z.land (dest_mask hex) (Z.shiftr 8 i) =? 0).

End SwizzlePattern.

Lemma bits_field_range position bits storage : 0 <= bits ->
  0 <= field position bits storage < 2 ^ bits.
Proof. intros. unfold field. rewrite Z.land_ones by lia. apply Z.mod_pos_bound. lia. Qed.

(** Bounds of a field of constant width. *)
Ltac field_bounds :=
  repeat match goal with
  | |- context [field ?p ?b ?s] =>
      lazymatch goal with
      | H : 0 <= field p b s < _ |- _ => fail
      | _ => let H := fresh "Hf" in
             pose proof (bits_field_range p b s ltac:(lia)) as H;
             let v := eval vm_compute in (2 ^ b) in change (2 ^ b) with v in H
      end
  end.
