(* ===== verification/Shader.v ===== *)
(** * Shader: the shader units of the GPU and their interpreter (video_core/shader/shader_interpreter.cpp, video_core/pica: shader_unit.cpp, shader_setup.cpp)

    The interpreter runs one instruction per [step].  The three stacks are lists with
    the innermost scope first.  The functions of the C++ library without an exact
    result ([std::exp2], [std::log2]) and the hash of the program code are parameters. *)
From Stdlib Require Import SpecFloat.
From stdpp Require Import list.
From S2P Require Import Prelude BitField PicaFloat ShaderBytecode.

Local Open Scope Z_scope.

(** ** Results

    An [ASSERT] that fails aborts the emulator; the last two faults are undefined
    behaviour of C++. *)
Inductive fault :=
  | IfStackOverflow | CallStackOverflow | LoopStackOverflow
  | EmitOnVertexShader | EmitVertexId | UnhandledArithmetic | InvalidEntryPoint
  | InvalidUniformIndex | InvalidConfiguration
  | CastOverflow
  | OutOfBounds.

Definition R (A : Type) : Type := fault + A.

#[export] Instance R_ret : MRet R := fun A a => inr a.
#[export] Instance R_bind : MBind R := fun A B f m =>
  match m with inl e => inl e | inr a => f a end.

Definition assert (b : bool) (e : fault) : R unit := if b then inr tt else inl e.

(** [a[i]] and [a[i] = v] on an array. *)
Definition get {A} (l : list A) (i : Z) : R A :=
  if i <? 0 then inl OutOfBounds else
  match l !! Z.to_nat i with Some a => inr a | None => inl OutOfBounds end.

Definition put {A} (l : list A) (i : Z) (v : A) : R (list A) :=
  _ ← get l i; inr (<[Z.to_nat i := v]> l).

(** ** Shader units *)

Definition AttributeBuffer : Type := list f24vec.

Inductive handler_call := WindingSetter | VertexHandler (buffer : AttributeBuffer).

(** [calls] are the calls made to the handlers, in order. *)
Record GeometryEmitter := mkGeometryEmitter {
  winding : bool;
  prim_emit : bool;
  vertex_id : Z;
  output_mask : Z;
  buffer : list AttributeBuffer;
  calls : list handler_call }.

Record ShaderUnit := mkShaderUnit {
  address_registers : list Z;
  conditional_code : list bool;
  input : list f24vec;
  temporary : list f24vec;
  output : list f24vec;
  emitter_ptr : option GeometryEmitter }.

Definition set_address_registers (l : list Z) (u : ShaderUnit) : ShaderUnit :=
  mkShaderUnit l (conditional_code u) (input u) (temporary u) (output u) (emitter_ptr u).
Definition set_conditional_code (l : list bool) (u : ShaderUnit) : ShaderUnit :=
  mkShaderUnit (address_registers u) l (input u) (temporary u) (output u) (emitter_ptr u).
Definition set_input (l : list f24vec) (u : ShaderUnit) : ShaderUnit :=
  mkShaderUnit (address_registers u) (conditional_code u) l (temporary u) (output u) (emitter_ptr u).
Definition set_temporary (l : list f24vec) (u : ShaderUnit) : ShaderUnit :=
  mkShaderUnit (address_registers u) (conditional_code u) (input u) l (output u) (emitter_ptr u).
Definition set_output (l : list f24vec) (u : ShaderUnit) : ShaderUnit :=
  mkShaderUnit (address_registers u) (conditional_code u) (input u) (temporary u) l (emitter_ptr u).
Definition set_emitter (e : GeometryEmitter) (u : ShaderUnit) : ShaderUnit :=
  mkShaderUnit (address_registers u) (conditional_code u) (input u) (temporary u) (output u) (Some e).

(** The set bits of a word, from the lowest one. *)
Definition BitSet_bits (mask : Z) : list Z :=
  filter (fun i => Z.testbit mask i = true) (seqZ 0 32).

(** [buffer[output_index++] = regs[reg]] for the registers of a mask. *)
Fixpoint copy_outputs (regs : list f24vec) (bits : list Z) (output_index : Z)
    (buf : AttributeBuffer) : R AttributeBuffer :=
  match bits with
  | [] => inr buf
  | reg :: bits =>
      v ← get regs reg; buf ← put buf output_index v;
      copy_outputs regs bits (output_index + 1) buf
  end.

Definition WriteOutput (mask : Z) (u : ShaderUnit) (buf : AttributeBuffer) : R AttributeBuffer :=
  copy_outputs (output u) (BitSet_bits mask) 0 buf.

Definition GetRegisterForAttribute (low high attribute_index : Z) : Z :=
  let map := Z.lor (Z.shiftl high 32) low in
  Z.land (Z.shiftr map (attribute_index * 4)) 15.

Fixpoint LoadInput_loop (low high : Z) (buf : AttributeBuffer) (attrs : list Z)
    (inp : list f24vec) : R (list f24vec) :=
  match attrs with
  | [] => inr inp
  | attr :: attrs =>
      v ← get buf attr;
      inp ← put inp (GetRegisterForAttribute low high attr) v;
      LoadInput_loop low high buf attrs inp
  end.

Definition LoadInput (max_input_attribute_index low high : Z) (u : ShaderUnit)
    (buf : AttributeBuffer) : R ShaderUnit :=
  inp ← LoadInput_loop low high buf (seqZ 0 (max_input_attribute_index + 1)) (input u);
  inr (set_input inp u).

Definition Emit (e : GeometryEmitter) (output_regs : list f24vec) : R GeometryEmitter :=
  _ ← assert (vertex_id e <? 3) EmitVertexId;
  old ← get (buffer e) (vertex_id e);
  new ← copy_outputs output_regs (BitSet_bits (output_mask e)) 0 old;
  bufs ← put (buffer e) (vertex_id e) new;
  inr (mkGeometryEmitter (winding e) (prim_emit e) (vertex_id e) (output_mask e) bufs
         (calls e ++
          if prim_emit e then
            (if winding e then [WindingSetter] else []) ++ (VertexHandler <$> bufs)
          else [])).

(** ** Shader setup *)

Definition MAX_PROGRAM_CODE_LENGTH : Z := 4096.
Definition MAX_SWIZZLE_DATA_LENGTH : Z := 4096.

(** The members [f], [b] and [i]. *)
Record Uniforms := mkUniforms {
  uniforms_f : list f24vec; uniforms_b : list bool; uniforms_i : list (Vec4 Z) }.

Record ShaderSetup := mkShaderSetup {
  uniforms : Uniforms;
  uniform_queue : PackedAttribute.PackedAttribute;
  entry_point : Z;
  uniforms_dirty : bool;
  requires_fixup : bool;
  has_fixup : bool;
  program_code : list Z;
  program_code_fixup : list Z;
  swizzle_data : list Z;
  program_code_hash_dirty : bool;
  swizzle_data_hash_dirty : bool;
  program_code_pending_fixup : bool;
  biggest_program_size : Z;
  biggest_swizzle_size : Z;
  program_code_hash : Z;
  swizzle_data_hash : Z }.

Definition set_uniforms (u : Uniforms) (dirty : bool) (s : ShaderSetup) : ShaderSetup :=
  mkShaderSetup u (uniform_queue s) (entry_point s) (uniforms_dirty s || dirty)
    (requires_fixup s) (has_fixup s) (program_code s) (program_code_fixup s) (swizzle_data s)
    (program_code_hash_dirty s) (swizzle_data_hash_dirty s) (program_code_pending_fixup s)
    (biggest_program_size s) (biggest_swizzle_size s) (program_code_hash s) (swizzle_data_hash s).
Definition set_uniform_queue (q : PackedAttribute.PackedAttribute) (s : ShaderSetup) : ShaderSetup :=
  mkShaderSetup (uniforms s) q (entry_point s) (uniforms_dirty s)
    (requires_fixup s) (has_fixup s) (program_code s) (program_code_fixup s) (swizzle_data s)
    (program_code_hash_dirty s) (swizzle_data_hash_dirty s) (program_code_pending_fixup s)
    (biggest_program_size s) (biggest_swizzle_size s) (program_code_hash s) (swizzle_data_hash s).
Definition set_entry_point (e : Z) (s : ShaderSetup) : ShaderSetup :=
  mkShaderSetup (uniforms s) (uniform_queue s) e (uniforms_dirty s)
    (requires_fixup s) (has_fixup s) (program_code s) (program_code_fixup s) (swizzle_data s)
    (program_code_hash_dirty s) (swizzle_data_hash_dirty s) (program_code_pending_fixup s)
    (biggest_program_size s) (biggest_swizzle_size s) (program_code_hash s) (swizzle_data_hash s).
Definition set_program_code (l : list Z) (size : Z) (s : ShaderSetup) : ShaderSetup :=
  mkShaderSetup (uniforms s) (uniform_queue s) (entry_point s) (uniforms_dirty s)
    (requires_fixup s) (has_fixup s) l (program_code_fixup s) (swizzle_data s)
    (program_code_hash_dirty s) (swizzle_data_hash_dirty s) (program_code_pending_fixup s)
    size (biggest_swizzle_size s) (program_code_hash s) (swizzle_data_hash s).
Definition set_fixup (has : bool) (l : list Z) (size : Z) (s : ShaderSetup) : ShaderSetup :=
  mkShaderSetup (uniforms s) (uniform_queue s) (entry_point s) (uniforms_dirty s)
    (requires_fixup s) has (program_code s) l (swizzle_data s)
    (program_code_hash_dirty s) (swizzle_data_hash_dirty s) (program_code_pending_fixup s)
    size (biggest_swizzle_size s) (program_code_hash s) (swizzle_data_hash s).
Definition set_swizzle_data (l : list Z) (dirty : bool) (size : Z) (s : ShaderSetup) : ShaderSetup :=
  mkShaderSetup (uniforms s) (uniform_queue s) (entry_point s) (uniforms_dirty s)
    (requires_fixup s) (has_fixup s) (program_code s) (program_code_fixup s) l
    (program_code_hash_dirty s) dirty (program_code_pending_fixup s)
    (biggest_program_size s) size (program_code_hash s) (swizzle_data_hash s).
Definition set_program_flags (hash_dirty pending : bool) (hash : Z) (s : ShaderSetup) : ShaderSetup :=
  mkShaderSetup (uniforms s) (uniform_queue s) (entry_point s) (uniforms_dirty s)
    (requires_fixup s) (has_fixup s) (program_code s) (program_code_fixup s) (swizzle_data s)
    hash_dirty (swizzle_data_hash_dirty s) pending
    (biggest_program_size s) (biggest_swizzle_size s) hash (swizzle_data_hash s).
Definition set_swizzle_hash (dirty : bool) (hash : Z) (s : ShaderSetup) : ShaderSetup :=
  mkShaderSetup (uniforms s) (uniform_queue s) (entry_point s) (uniforms_dirty s)
    (requires_fixup s) (has_fixup s) (program_code s) (program_code_fixup s) (swizzle_data s)
    (program_code_hash_dirty s) dirty (program_code_pending_fixup s)
    (biggest_program_size s) (biggest_swizzle_size s) (program_code_hash s) hash.

Definition initial_setup (u : Uniforms) : ShaderSetup :=
  mkShaderSetup u PackedAttribute.initial 0 true false false
    (replicate 4096 0) (replicate 4096 0) (replicate 4096 0) true true true 0 0 0 0.

Definition MakeProgramCodeDirty (s : ShaderSetup) : ShaderSetup :=
  set_fixup false (program_code_fixup s) (biggest_program_size s)
    (set_program_flags true true (program_code_hash s) s).

Definition GetProgramCode (s : ShaderSetup) : list Z :=
  if has_fixup s then program_code_fixup s else program_code s.
Definition GetSwizzleData (s : ShaderSetup) : list Z := swizzle_data s.

(** One word of the program; the offset is checked by the caller. *)
Definition UpdateProgramCode (offset value : Z) (s : ShaderSetup) : R ShaderSetup :=
  old ← get (program_code s) offset;
  if old =? value then inr s else
  code ← put (program_code s) offset value;
  let s := set_program_code code (biggest_program_size s) s in
  let s := if negb (program_code_hash_dirty s) then MakeProgramCodeDirty s else s in
  inr (if biggest_program_size s <? offset + 1 then set_program_code code (offset + 1) s else s).

(** The whole program, copied from another unit. *)
Definition UpdateProgramCode_all (other : list Z) (other_size : Z) (s : ShaderSetup) : ShaderSetup :=
  MakeProgramCodeDirty (set_program_code other (Z.max (biggest_program_size s) other_size) s).

Definition UpdateSwizzleData (offset value : Z) (s : ShaderSetup) : R ShaderSetup :=
  old ← get (swizzle_data s) offset;
  if old =? value then inr s else
  data ← put (swizzle_data s) offset value;
  let s := set_swizzle_data data true (biggest_swizzle_size s) s in
  inr (if biggest_swizzle_size s <? offset + 1
       then set_swizzle_data data true (offset + 1) s else s).

Definition UpdateSwizzleData_all (other : list Z) (other_size : Z) (s : ShaderSetup) : ShaderSetup :=
  set_swizzle_data other true (Z.max (biggest_swizzle_size s) other_size) s.

Definition WriteUniformBoolReg (value : Z) (s : ShaderSetup) : ShaderSetup :=
  let u := uniforms s in
  let bits := (fun i => Z.testbit value (Z.of_nat i)) <$> seq 0 (length (uniforms_b u)) in
  set_uniforms (mkUniforms (uniforms_f u) bits (uniforms_i u))
    (bool_decide (bits <> uniforms_b u)) s.

Definition WriteUniformIntReg (index : Z) (values : Vec4 Z) (s : ShaderSetup) : R ShaderSetup :=
  let u := uniforms s in
  _ ← assert (index <? Z.of_nat (length (uniforms_i u))) InvalidUniformIndex;
  prev ← get (uniforms_i u) index;
  l ← put (uniforms_i u) index values;
  inr (set_uniforms (mkUniforms (uniforms_f u) (uniforms_b u) l) (bool_decide (prev <> values)) s).

(** The register [uniform_setup] of a shader: an index and a format. *)
Definition uniform_index (reg : Z) : Z := BitField.extract 32 false 0 7 reg.
Definition IsFloat32 (reg : Z) : bool := BitField.extract 32 false 31 1 reg =? 1.

(** The result is the index written, the register and the setup. *)
Definition WriteUniformFloatReg (reg value : Z) (s : ShaderSetup) : R (option Z * Z * ShaderSetup) :=
  let is_float32 := IsFloat32 reg in
  match PackedAttribute.Push (uniform_queue s) value is_float32 with
  | None => inl OutOfBounds
  | Some (full, queue) =>
      if negb full then inr (None, reg, set_uniform_queue queue s) else
      let (uniform, queue) := PackedAttribute.Get queue is_float32 in
      let s := set_uniform_queue queue s in
      let u := uniforms s in
      if Z.of_nat (length (uniforms_f u)) <=? uniform_index reg then inr (None, reg, s) else
      let index := uniform_index reg in
      prev ← get (uniforms_f u) index;
      l ← put (uniforms_f u) index uniform;
      let s := set_uniforms (mkUniforms l (uniforms_b u) (uniforms_i u))
                 (bool_decide (prev <> uniform)) s in
      inr (Some index, BitField.assign 32 false 0 7 reg (index + 1), s)
  end.

Section Hash.

(** [Common::ComputeHash64] of the first words of an array *)
Variable ComputeHash64 : list Z -> Z.

Definition GetProgramCodeHash (s : ShaderSetup) : Z * ShaderSetup :=
  if program_code_hash_dirty s then
    let hash := ComputeHash64 (take (Z.to_nat (biggest_program_size s)) (GetProgramCode s)) in
    (hash, set_program_flags false (program_code_pending_fixup s) hash s)
  else (program_code_hash s, s).

Definition GetSwizzleDataHash (s : ShaderSetup) : Z * ShaderSetup :=
  if swizzle_data_hash_dirty s then
    let hash := ComputeHash64 (take (Z.to_nat (biggest_swizzle_size s)) (swizzle_data s)) in
    (hash, set_swizzle_hash false hash s)
  else (swizzle_data_hash s, s).

(** [memcpy] of 4096 bytes: a quarter of the program. *)
Definition prepare_for_fixup (s : ShaderSetup) : ShaderSetup :=
  let s := set_fixup true (take 1024 (program_code s) ++ drop 1024 (program_code_fixup s))
             (biggest_program_size s) s in
  set_program_flags true (program_code_pending_fixup s) (program_code_hash s) s.

(** [memmove] of 0x1C bytes, then two patched words. *)
Definition fix_3d_classics_common (offset_base mov_swizzle : Z) (s : ShaderSetup) : ShaderSetup :=
  let base := Z.to_nat (offset_base / 4) in
  let code := program_code_fixup s in
  let code := take (base + 1) code ++ take 7 (drop base code) ++ drop (base + 8) code in
  let code := <[base := Z.lor 0x4c000000 mov_swizzle]> code in
  let code := <[(base + 32)%nat := 0x88000000]> code in
  set_fixup (has_fixup s) code
    (if biggest_program_size s <=? offset_base / 4 + 32 then offset_base / 4 + 33
     else biggest_program_size s) s.

Definition THUNDER_BLADE : Z := 0x0797513756f2c8c9.
Definition AFTER_BURNER : Z := 0x188e959fbe31324d.
Definition COLLECTION_TB : Z := 0x5954c8e4d13cdd86.
Definition COLLECTION_PD : Z := 0x27496993b307355b.

Definition DoProgramCodeFixup (s : ShaderSetup) : ShaderSetup :=
  if negb (requires_fixup s) || negb (program_code_pending_fixup s) then s else
  let s := set_program_flags (program_code_hash_dirty s) false (program_code_hash s) s in
  let (hash, s) := GetProgramCodeHash s in
  if hash =? THUNDER_BLADE then fix_3d_classics_common 0x510 0xA (prepare_for_fixup s)
  else if hash =? AFTER_BURNER then fix_3d_classics_common 0x50C 0xA (prepare_for_fixup s)
  else if hash =? COLLECTION_TB then fix_3d_classics_common 0xAE0 0xC (prepare_for_fixup s)
  else if hash =? COLLECTION_PD then fix_3d_classics_common 0xAF0 0xC (prepare_for_fixup s)
  else s.

(** [InterpreterEngine::SetupBatch] *)
Definition SetupBatch (entry : Z) (s : ShaderSetup) : R ShaderSetup :=
  _ ← assert (entry <? MAX_PROGRAM_CODE_LENGTH) InvalidEntryPoint;
  inr (set_entry_point entry (DoProgramCodeFixup s)).

End Hash.

(** ** The interpreter *)

Record IfStackElement := mkIf { if_else_address : Z; if_end_address : Z }.
Record CallStackElement := mkCall { call_end_address : Z; return_address : Z }.
Record LoopStackElement := mkLoop {
  entry_address : Z; loop_end_address : Z; loop_downcounter : Z;
  address_increment : Z; previous_aL : Z }.

Definition IF_STACK_LIMIT : nat := 8.
Definition CALL_STACK_LIMIT : nat := 4.
Definition LOOP_STACK_LIMIT : nat := 4.

(** The local variables of [RunInterpreter]. *)
Record InterpState := mkInterp {
  if_stack : list IfStackElement;
  call_stack : list CallStackElement;
  loop_stack : list LoopStackElement;
  program_counter : Z;
  shader_unit : ShaderUnit }.

Definition set_unit (u : ShaderUnit) (st : InterpState) : InterpState :=
  mkInterp (if_stack st) (call_stack st) (loop_stack st) (program_counter st) u.
Definition set_pc (pc : Z) (st : InterpState) : InterpState :=
  mkInterp (if_stack st) (call_stack st) (loop_stack st) pc (shader_unit st).
Definition set_ifs (l : list IfStackElement) (st : InterpState) : InterpState :=
  mkInterp l (call_stack st) (loop_stack st) (program_counter st) (shader_unit st).
Definition set_calls (l : list CallStackElement) (st : InterpState) : InterpState :=
  mkInterp (if_stack st) l (loop_stack st) (program_counter st) (shader_unit st).
Definition set_loops (l : list LoopStackElement) (st : InterpState) : InterpState :=
  mkInterp (if_stack st) (call_stack st) l (program_counter st) (shader_unit st).

(** Where an instruction jumps: one before, as the counter is incremented next. *)
Definition before_dest (instr : Z) : Z := u32 (FlowControl.dest_offset instr - 1).
Definition dest_end (instr : Z) : Z :=
  u32 (FlowControl.dest_offset instr + FlowControl.num_instructions instr).

Definition do_if (instr : Z) (condition : bool) (st : InterpState) : R InterpState :=
  if condition then
    _ ← assert (bool_decide (length (if_stack st) < IF_STACK_LIMIT)%nat) IfStackOverflow;
    inr (set_ifs (mkIf (FlowControl.dest_offset instr) (dest_end instr) :: if_stack st) st)
  else inr (set_pc (before_dest instr) st).

Definition do_call (instr : Z) (st : InterpState) : R InterpState :=
  _ ← assert (bool_decide (length (call_stack st) < CALL_STACK_LIMIT)%nat) CallStackOverflow;
  inr (set_pc (before_dest instr)
        (set_calls (mkCall (dest_end instr) (u32 (program_counter st + 1)) :: call_stack st) st)).

(** [address_registers[2]], the loop counter *)
Definition aL (u : ShaderUnit) : R Z := get (address_registers u) 2.
Definition set_aL (v : Z) (u : ShaderUnit) : R ShaderUnit :=
  l ← put (address_registers u) 2 v; inr (set_address_registers l u).

Definition do_loop (instr : Z) (loop_param : Vec4 Z) (st : InterpState) : R InterpState :=
  previous ← aL (shader_unit st);
  _ ← assert (bool_decide (length (loop_stack st) < LOOP_STACK_LIMIT)%nat) LoopStackOverflow;
  u ← set_aL (y loop_param) (shader_unit st);
  inr (set_unit u
        (set_loops (mkLoop (u32 (program_counter st + 1)) (u32 (FlowControl.dest_offset instr + 1))
                      (x loop_param) (z loop_param) (u8 previous) :: loop_stack st) st)).

Definition evaluate_condition (instr : Z) (u : ShaderUnit) : R bool :=
  cx ← get (conditional_code u) 0;
  cy ← get (conditional_code u) 1;
  let result_x := Bool.eqb (FlowControl.refx instr) cx in
  let result_y := Bool.eqb (FlowControl.refy instr) cy in
  inr match FlowControl.op instr with
      | FlowControl.Or => result_x || result_y
      | FlowControl.And => result_x && result_y
      | FlowControl.JustX => result_x
      | FlowControl.JustY => result_y
      end.

(** The register a source operand reads; [address_register_index] is 0 without
    relative addressing. *)
Definition LookupSourceRegister (un : Uniforms) (u : ShaderUnit) (source_reg : Z)
    (address_register_index : Z) : R f24vec :=
  let index := SourceRegister.GetIndex source_reg in
  match SourceRegister.GetRegisterType source_reg with
  | Input => get (input u) index
  | Temporary => get (temporary u) index
  | FloatUniform =>
      if negb (address_register_index =? 0) then
        offset ← get (address_registers u) (address_register_index - 1);
        let offset := if (offset <? -128) || (127 <? offset) then 0 else offset in
        let index := Z.land (index + offset) 127 in
        if 96 <=? index then inr (AssignToAll Float.One) else get (uniforms_f un) index
      else get (uniforms_f un) index
  | _ => inr (AssignToAll Float.Zero)
  end.

(** The components selected by a swizzle pattern, negated on demand. *)
Definition swizzle_source (src : f24vec) (selectors : Z * Z * Z * Z) (negate : bool) : f24vec :=
  let '(s0, s1, s2, s3) := selectors in
  let v := MakeVec (component src s0) (component src s1) (component src s2) (component src s3) in
  if negate then
    MakeVec (Float.opp (x v)) (Float.opp (y v)) (Float.opp (z v)) (Float.opp (w v))
  else v.

(** [dest[i] = val[i]] for the enabled components. *)
Definition masked (swizzle : Z) (old val : f24vec) : f24vec :=
  let pick i c := if SwizzlePattern.DestComponentEnabled i swizzle then c val else c old in
  MakeVec (pick 0 x) (pick 1 y) (pick 2 z) (pick 3 w).

(** The destinations below 0x20 are all there are: the field has five bits. *)
Definition write_dest (dest swizzle : Z) (val : f24vec) (u : ShaderUnit) : R ShaderUnit :=
  let index := DestRegister.GetIndex dest in
  if dest <? 16 then
    old ← get (output u) index;
    l ← put (output u) index (masked swizzle old val); inr (set_output l u)
  else if dest <? 32 then
    old ← get (temporary u) index;
    l ← put (temporary u) index (masked swizzle old val); inr (set_temporary l u)
  else inr u.

Definition vmap (g : spec_float -> spec_float) (a : f24vec) : f24vec :=
  MakeVec (g (x a)) (g (y a)) (g (z a)) (g (w a)).
Definition vmap2 (g : spec_float -> spec_float -> spec_float) (a b : f24vec) : f24vec :=
  MakeVec (g (x a) (x b)) (g (y a) (y b)) (g (z a) (z b)) (g (w a) (w b)).

(** [std::inner_product] of the first components, from zero. *)
Definition dot (num_components : nat) (a b : f24vec) : spec_float :=
  foldl (fun acc i => Float.add acc (Float.mul (component a i) (component b i)))
    Float.Zero (seqZ 0 (Z.of_nat num_components)).

Definition compare (op : Common.Op) (a b : spec_float) (old : bool) : bool :=
  match op with
  | Common.Equal => Float.eq a b
  | Common.NotEqual => Float.ne a b
  | Common.LessThan => Float.lt a b
  | Common.LessEqual => Float.le a b
  | Common.GreaterThan => Float.gt a b
  | Common.GreaterEqual => Float.ge a b
  | _ => old
  end.

(** [state.address_registers[i] = static_cast<s32>(v)] *)
Definition mova (i : Z) (v : spec_float) (u : ShaderUnit) : R ShaderUnit :=
  match f32_to_s32 v with
  | None => inl CastOverflow
  | Some n => l ← put (address_registers u) i n; inr (set_address_registers l u)
  end.

Section Interpreter.

(** [std::exp2] and [std::log2] on floats *)
Variables exp2f log2f : spec_float -> spec_float.

(** The result of an arithmetic instruction that writes a register, if it does. *)
Definition arithmetic_result (op : OpCode.Id) (src1 src2 : f24vec) : option f24vec :=
  match op with
  | OpCode.ADD => Some (vmap2 Float.add src1 src2)
  | OpCode.MUL => Some (vmap2 Float.mul src1 src2)
  | OpCode.FLR => Some (vmap f32_floor src1)
  | OpCode.MAX => Some (vmap2 (fun a b => if Float.gt a b then a else b) src1 src2)
  | OpCode.MIN => Some (vmap2 (fun a b => if Float.lt a b then a else b) src1 src2)
  | OpCode.DP3 => Some (AssignToAll (dot 3 src1 src2))
  | OpCode.DP4 => Some (AssignToAll (dot 4 src1 src2))
  | OpCode.DPH | OpCode.DPHI =>
      Some (AssignToAll (dot 4 (set_component src1 3 Float.One) src2))
  | OpCode.RCP => Some (AssignToAll (SFdiv 24 128 f32_one (x src1)))
  | OpCode.RSQ => Some (AssignToAll (SFdiv 24 128 f32_one (SFsqrt 24 128 (x src1))))
  | OpCode.MOV => Some src1
  | OpCode.SGE | OpCode.SGEI =>
      Some (vmap2 (fun a b => if Float.ge a b then Float.One else Float.Zero) src1 src2)
  | OpCode.SLT | OpCode.SLTI =>
      Some (vmap2 (fun a b => if Float.lt a b then Float.One else Float.Zero) src1 src2)
  | OpCode.EX2 => Some (AssignToAll (exp2f (x src1)))
  | OpCode.LG2 => Some (AssignToAll (log2f (x src1)))
  | _ => None
  end.

(** The cases of type [Arithmetic]. *)
Definition exec_arithmetic (s : ShaderSetup) (instr : Z) (u : ShaderUnit) : R ShaderUnit :=
  swizzle ← get (GetSwizzleData s) (Common.operand_desc_id instr);
  let is_inverted := snd (OpCode.GetInfo (opcode instr)) in
  let reg := Common.address_register_index instr in
  src1_ ← LookupSourceRegister (uniforms s) u (Common.GetSrc1 is_inverted instr)
            (if is_inverted then 0 else reg);
  src2_ ← LookupSourceRegister (uniforms s) u (Common.GetSrc2 is_inverted instr)
            (if is_inverted then reg else 0);
  let src1 := swizzle_source src1_ (SwizzlePattern.src1_selectors swizzle)
                (SwizzlePattern.negate_src1 swizzle) in
  let src2 := swizzle_source src2_ (SwizzlePattern.src2_selectors swizzle)
                (SwizzlePattern.negate_src2 swizzle) in
  match OpCode.EffectiveOpCode (opcode instr) with
  | Some OpCode.MOVA =>
      u ← if SwizzlePattern.DestComponentEnabled 0 swizzle then mova 0 (x src1) u else inr u;
      if SwizzlePattern.DestComponentEnabled 1 swizzle then mova 1 (y src1) u else inr u
  | Some OpCode.CMP =>
      old0 ← get (conditional_code u) 0;
      l ← put (conditional_code u) 0 (compare (Common.compare_op_x instr) (x src1) (x src2) old0);
      old1 ← get l 1;
      l ← put l 1 (compare (Common.compare_op_y instr) (y src1) (y src2) old1);
      inr (set_conditional_code l u)
  | Some op =>
      match arithmetic_result op src1 src2 with
      | Some val => write_dest (Common.dest instr) swizzle val u
      | None => inl UnhandledArithmetic
      end
  | None => inl UnhandledArithmetic
  end.

(** The cases of type [MultiplyAdd]. *)
Definition exec_mad (s : ShaderSetup) (instr : Z) (u : ShaderUnit) : R ShaderUnit :=
  let op := OpCode.EffectiveOpCode (opcode instr) in
  if bool_decide (op = Some OpCode.MAD) || bool_decide (op = Some OpCode.MADI) then
      swizzle ← get (GetSwizzleData s) (Mad.operand_desc_id instr);
      let is_inverted := bool_decide (op = Some OpCode.MADI) in
      let reg := Mad.address_register_index instr in
      src1_ ← LookupSourceRegister (uniforms s) u (Mad.GetSrc1 is_inverted instr) 0;
      src2_ ← LookupSourceRegister (uniforms s) u (Mad.GetSrc2 is_inverted instr)
                (if is_inverted then 0 else reg);
      src3_ ← LookupSourceRegister (uniforms s) u (Mad.GetSrc3 is_inverted instr)
                (if is_inverted then reg else 0);
      let src1 := swizzle_source src1_ (SwizzlePattern.src1_selectors swizzle)
                    (SwizzlePattern.negate_src1 swizzle) in
      let src2 := swizzle_source src2_ (SwizzlePattern.src2_selectors swizzle)
                    (SwizzlePattern.negate_src2 swizzle) in
      let src3 := swizzle_source src3_ (SwizzlePattern.src3_selectors swizzle)
                    (SwizzlePattern.negate_src3 swizzle) in
      write_dest (Mad.dest instr) swizzle
        (vmap2 Float.add (vmap2 Float.mul src1 src2) src3) u
  else inr u.

Definition exec_emit (u : ShaderUnit) : R ShaderUnit :=
  match emitter_ptr u with
  | None => inl EmitOnVertexShader
  | Some e => e ← Emit e (output u); inr (set_emitter e u)
  end.

Definition exec_setemit (instr : Z) (u : ShaderUnit) : R ShaderUnit :=
  match emitter_ptr u with
  | None => inl EmitOnVertexShader
  | Some e =>
      inr (set_emitter
             (mkGeometryEmitter (Setemit.winding instr) (Setemit.prim_emit instr)
                (Setemit.vertex_id instr) (output_mask e) (buffer e) (calls e)) u)
  end.

(** The instructions that do not touch the flow of control. *)
Definition exec_straight (s : ShaderSetup) (instr : Z) (u : ShaderUnit) : R ShaderUnit :=
  match fst (OpCode.GetInfo (opcode instr)) with
  | OpCode.Arithmetic => exec_arithmetic s instr u
  | OpCode.MultiplyAdd => exec_mad s instr u
  | _ =>
      match OpCode.Id_of (opcode instr) with
      | Some OpCode.EMIT => exec_emit u
      | Some OpCode.SETEMIT => exec_setemit instr u
      | _ => inr u
      end
  end.

(** What an instruction asks of the rest of the loop body. *)
Inductive signal := Continue | Break | Stop.

(** A taken jump. *)
Definition jump_if (c : bool) (instr : Z) (st : InterpState) : InterpState :=
  if c then set_pc (before_dest instr) st else st.

(** The switch on the type and the opcode of an instruction. *)
Definition execute (s : ShaderSetup) (instr : Z) (st : InterpState) : R (InterpState * signal) :=
  let un := uniforms s in
  let u := shader_unit st in
  let straight := u ← exec_straight s instr u; inr (set_unit u st, Continue) in
  match fst (OpCode.GetInfo (opcode instr)) with
  | OpCode.Arithmetic | OpCode.MultiplyAdd => straight
  | _ =>
      match OpCode.Id_of (opcode instr) with
      | Some OpCode.END => inr (st, Stop)
      | Some OpCode.JMPC =>
          c ← evaluate_condition instr u; inr (jump_if c instr st, Continue)
      | Some OpCode.JMPU =>
          c ← get (uniforms_b un) (FlowControl.bool_uniform_id instr);
          inr (jump_if (Bool.eqb c (negb (Z.testbit (FlowControl.num_instructions instr) 0)))
                 instr st, Continue)
      | Some OpCode.CALL => st ← do_call instr st; inr (st, Continue)
      | Some OpCode.CALLU =>
          c ← get (uniforms_b un) (FlowControl.bool_uniform_id instr);
          st ← if (c : bool) then do_call instr st else inr st; inr (st, Continue)
      | Some OpCode.CALLC =>
          c ← evaluate_condition instr u;
          st ← if (c : bool) then do_call instr st else inr st; inr (st, Continue)
      | Some OpCode.IFU =>
          c ← get (uniforms_b un) (FlowControl.bool_uniform_id instr);
          st ← do_if instr c st; inr (st, Continue)
      | Some OpCode.IFC =>
          c ← evaluate_condition instr u; st ← do_if instr c st; inr (st, Continue)
      | Some OpCode.LOOP =>
          loop_param ← get (uniforms_i un) (FlowControl.int_uniform_id instr);
          u ← set_aL (y loop_param) u;
          st ← do_loop instr loop_param (set_unit u st); inr (st, Continue)
      | Some OpCode.BREAK => inr (st, Break)
      | Some OpCode.BREAKC =>
          c ← evaluate_condition instr u; inr (st, if (c : bool) then Break else Continue)
      | _ => straight
      end
  end.

(** Up to four CALL scopes end with an instruction; the last of four does not return. *)
Fixpoint close_calls (i : nat) (next_program_counter : Z) (st : InterpState) : InterpState :=
  match i with
  | O => st
  | S i' =>
      match call_stack st with
      | [] => st
      | top :: rest =>
          if negb (call_end_address top =? next_program_counter) then st else
          match i' with
          | O => close_calls i' next_program_counter (set_calls rest st)
          | _ => close_calls i' (return_address top)
                   (set_calls rest (set_pc (return_address top) st))
          end
      end
  end.

Definition close_if (next : Z) (st : InterpState) : InterpState :=
  match if_stack st with
  | top :: rest =>
      if if_else_address top =? next then set_ifs rest (set_pc (if_end_address top) st) else st
  | [] => st
  end.

Definition close_loop (next : Z) (is_break : bool) (st : InterpState) : R InterpState :=
  match loop_stack st with
  | [] => inr st
  | loop :: rest =>
      if (loop_end_address loop =? next) || is_break then
        old ← aL (shader_unit st);
        u ← set_aL (old + address_increment loop) (shader_unit st);
        if negb is_break && negb (loop_downcounter loop =? 0) then
          inr (set_pc (entry_address loop)
                (set_loops (mkLoop (entry_address loop) (loop_end_address loop)
                              (u8 (loop_downcounter loop - 1)) (address_increment loop)
                              (previous_aL loop) :: rest) (set_unit u st)))
        else
          u ← if bool_decide (1 < length (loop_stack st))%nat
              then set_aL (previous_aL loop) u else inr u;
          inr (set_pc (loop_end_address loop) (set_loops rest (set_unit u st)))
      else inr st
  end.

Definition fetch (s : ShaderSetup) (pc : Z) : R Z :=
  if pc <? MAX_PROGRAM_CODE_LENGTH - 1 then get (GetProgramCode s) pc
  else inr (assign_opcode 0 34).

(** One iteration of the loop of [RunInterpreter]; true when it stops. *)
Definition step (s : ShaderSetup) (st : InterpState) : R (InterpState * bool) :=
  let next := u32 (program_counter st + 1) in
  instr ← fetch s (program_counter st);
  _ ← get (GetSwizzleData s) (Common.operand_desc_id instr);
  '(st', sig) ← execute s instr st;
  let st' := set_pc (u32 (program_counter st' + 1)) st' in
  let st' := close_if next (close_calls 4 next st') in
  st' ← close_loop next (match sig with Break => true | _ => false end) st';
  inr (st', match sig with Stop => true | _ => false end).

Inductive outcome := OutOfFuel | Fault (e : fault) | Finished (u : ShaderUnit).

Fixpoint run (s : ShaderSetup) (fuel : nat) (st : InterpState) : outcome :=
  match fuel with
  | O => OutOfFuel
  | S fuel =>
      match step s st with
      | inl e => Fault e
      | inr (st', true) => Finished (shader_unit st')
      | inr (st', false) => run s fuel st'
      end
  end.

(** [InterpreterEngine::Run]: the stacks start empty. *)
Definition RunInterpreter (s : ShaderSetup) (fuel : nat) (state : ShaderUnit) : outcome :=
  run s fuel (mkInterp [] [] [] (entry_point s) state).

End Interpreter.
