(* ===== verification/ShaderUpload.v ===== *)
(** * ShaderUpload: uniforms and program code (video_core/pica/shader_setup.cpp, packed_attribute.h)

    What the guest's writes to the registers of a shader leave in its setup. *)
From Stdlib Require Import SpecFloat.
From stdpp Require Import list.
From S2P Require Import Prelude BitField PicaFloat ShaderBytecode Shader.

Local Open Scope Z_scope.

(** ** Float uniforms in the packed 24-bit format *)

(** Four 24-bit numbers in three words, the last component first. *)
Definition pack24 (v : Vec4 Z) : list Z :=
  [Z.lor (Z.shiftl (w v) 8) (Z.shiftr (z v) 16);
   Z.lor (Z.shiftl (Z.land (z v) 65535) 16) (Z.shiftr (y v) 8);
   Z.lor (Z.shiftl (Z.land (y v) 255) 24) (x v)].

(** The number with the given bits: sign, 7 bits of exponent, 16 of mantissa. *)
Definition f24_value (raw : Z) : spec_float :=
  float_value 16 7 (Z.testbit raw 23) ((raw / 2 ^ 16) mod 2 ^ 7) (raw mod 2 ^ 16).

Definition vec_value (v : Vec4 Z) : f24vec :=
  MakeVec (f24_value (x v)) (f24_value (y v)) (f24_value (z v)) (f24_value (w v)).

Definition is_u24 (n : Z) : Prop := 0 <= n < 16777216.
Definition raw_vec (v : Vec4 Z) : Prop := is_u24 (x v) /\ is_u24 (y v) /\ is_u24 (z v) /\ is_u24 (w v).

(** A run of writes to the data register. *)
Fixpoint upload (reg : Z) (words : list Z) (s : ShaderSetup) : R (Z * ShaderSetup) :=
  match words with
  | [] => inr (reg, s)
  | word :: words =>
      '(_, reg, s) ← WriteUniformFloatReg reg word s; upload reg words s
  end.

Lemma u24_bits n i : is_u24 n -> 24 <= i -> Z.testbit n i = false.
Proof.
  intros Hn Hi. rewrite <- (Z.mod_small n (2 ^ 24)) by exact Hn. by rewrite Z.mod_pow2_bits_high by lia.
Qed.

(** Equality of words, bit by bit in each byte. *)
Ltac bits_tac :=
  apply Z.bits_inj'; intros i Hi;
  change 16777215 with (Z.ones 24); change 65535 with (Z.ones 16); change 255 with (Z.ones 8);
  destruct (Z.lt_ge_cases i 8);
    [| destruct (Z.lt_ge_cases i 16); [| destruct (Z.lt_ge_cases i 24)]];
  repeat match goal with
  | |- context [Z.testbit (Z.lor ?a ?b) ?j] => rewrite (Z.lor_spec a b j)
  | |- context [Z.testbit (Z.land ?a ?b) ?j] => rewrite (Z.land_spec a b j)
  | |- context [Z.testbit (Z.shiftr ?a ?b) ?j] => rewrite (Z.shiftr_spec a b j) by lia
  | |- context [Z.testbit (Z.shiftl ?a ?b) ?j] => rewrite (Z.shiftl_spec a b j) by lia
  | |- context [Z.testbit (Z.ones ?n) ?j] =>
      first [rewrite (Z.ones_spec_low n j) by lia | rewrite (Z.ones_spec_high n j) by lia]
  | |- context [Z.testbit ?a ?j] => rewrite (Z.testbit_neg_r a j) by lia
  | H : is_u24 ?n |- context [Z.testbit ?n ?j] => rewrite (u24_bits n j H) by lia
  end;
  rewrite ?andb_true_r, ?andb_false_r, ?orb_false_r, ?orb_false_l;
  try reflexivity; try (f_equal; lia).

Lemma unpack_x y x : is_u24 x ->
  Z.land (Z.lor (Z.shiftl (Z.land y 255) 24) x) 16777215 = x.
Proof. intros Hx. bits_tac. Qed.

Lemma unpack_y z y x : is_u24 y -> is_u24 x ->
  Z.lor (Z.shiftl (Z.land (Z.lor (Z.shiftl (Z.land z 65535) 16) (Z.shiftr y 8)) 65535) 8)
        (Z.land (Z.shiftr (Z.lor (Z.shiftl (Z.land y 255) 24) x) 24) 255) = y.
Proof. intros Hy Hx. bits_tac. Qed.

Lemma unpack_z w z y : is_u24 z -> is_u24 y ->
  Z.lor (Z.shiftl (Z.land (Z.lor (Z.shiftl w 8) (Z.shiftr z 16)) 255) 16)
        (Z.land (Z.shiftr (Z.lor (Z.shiftl (Z.land z 65535) 16) (Z.shiftr y 8)) 16) 65535) = z.
Proof. intros Hz Hy. bits_tac. Qed.

Lemma unpack_w w z : is_u24 z -> Z.shiftr (Z.lor (Z.shiftl w 8) (Z.shiftr z 16)) 8 = w.
Proof.
  intros Hz. apply Z.bits_inj'. intros i Hi.
  rewrite Z.shiftr_spec, Z.lor_spec, Z.shiftl_spec, Z.shiftr_spec, (u24_bits z) by (lia || done).
  rewrite orb_false_r. f_equal. lia.
Qed.

Lemma unpack24 v b3 : raw_vec v ->
  PackedAttribute.AsFloat24 (PackedAttribute.mk (pack24 v ++ b3) 0) = vec_value v.
Proof.
  intros (Hx & Hy & Hz & Hw).
  assert (E : forall r, is_u24 r -> f24_FromRaw r = f24_value r).
  { intros r Hr. apply FromRaw_value; unfold is_u24 in Hr; lia. }
  unfold PackedAttribute.AsFloat24, vec_value, PackedAttribute.word, pack24.
  cbn [PackedAttribute.buffer app lookup list_lookup default from_option].
  unfold default, id. by rewrite unpack_x, unpack_y, unpack_z, unpack_w, !E.
Qed.

(** No vector is under way. *)
Definition queue_ready (s : ShaderSetup) : Prop :=
  length (PackedAttribute.buffer (uniform_queue s)) = 4%nat /\
  PackedAttribute.index (uniform_queue s) = 0.

Lemma uniform_index_range reg : 0 <= uniform_index reg < 128.
Proof.
  unfold uniform_index. rewrite extract_wide by (lia || (unfold field_ok; lia)).
  unfold field_value, conv. apply Z.mod_pos_bound. lia.
Qed.

Lemma uniform_index_assign reg v : 0 <= v < 128 ->
  uniform_index (BitField.assign 32 false 0 7 reg v) = v.
Proof.
  intros Hv. unfold uniform_index. rewrite extract_assign_same by (lia || (unfold field_ok; lia)).
  unfold conv. change (2 ^ 7) with 128. apply Z.mod_small. lia.
Qed.

Lemma IsFloat32_assign reg v : IsFloat32 (BitField.assign 32 false 0 7 reg v) = IsFloat32 reg.
Proof.
  unfold IsFloat32. rewrite extract_assign_other by (lia || (unfold field_ok; lia)). done.
Qed.

(** The first two words of a vector wait in the queue. *)
Lemma upload_queue reg word words s n :
  IsFloat32 reg = false -> PackedAttribute.index (uniform_queue s) = n -> 0 <= n < 2 ->
  upload reg (word :: words) s =
  upload reg words (set_uniform_queue
    (PackedAttribute.mk (<[Z.to_nat n := word]> (PackedAttribute.buffer (uniform_queue s))) (n + 1)) s).
Proof.
  intros Hf Hn Hr. cbn [upload]. unfold WriteUniformFloatReg, PackedAttribute.Push.
  rewrite Hf, Hn, bool_decide_eq_true_2 by lia. cbn match zeta.
  assert (E : (4 <=? n + 1) && false || (3 <=? n + 1) && negb false = false).
  { rewrite andb_false_r. cbn. zdecide. done. }
  rewrite E. reflexivity.
Qed.

(** The third word completes it. *)
Lemma upload_full reg word words s :
  IsFloat32 reg = false -> PackedAttribute.index (uniform_queue s) = 2 ->
  length (uniforms_f (uniforms s)) = 96%nat ->
  let q := PackedAttribute.mk (<[2%nat := word]> (PackedAttribute.buffer (uniform_queue s))) 0 in
  let v := PackedAttribute.AsFloat24 q in
  let u := uniforms s in
  exists reg' s', upload reg (word :: words) s = upload reg' words s' /\
    uniforms s' = mkUniforms (<[Z.to_nat (uniform_index reg) := v]> (uniforms_f u))
                    (uniforms_b u) (uniforms_i u) /\
    uniform_queue s' = q /\ IsFloat32 reg' = false /\
    uniform_index reg' =
      (if 96 <=? uniform_index reg then uniform_index reg else uniform_index reg + 1) /\
    GetProgramCode s' = GetProgramCode s /\
    (uniforms_dirty s' = false -> uniforms_dirty s = false /\ uniforms s' = uniforms s).
Proof.
  intros Hf Hn Hlen q v u. cbn [upload]. unfold WriteUniformFloatReg, PackedAttribute.Push.
  rewrite Hf, Hn. change (bool_decide (0 <= 2 < 4)) with true. cbn match zeta.
  change ((4 <=? 2 + 1) && false || (3 <=? 2 + 1) && negb false) with true. cbn match zeta.
  unfold PackedAttribute.Get, PackedAttribute.Reset. cbn [PackedAttribute.buffer].
  change (Z.to_nat 2) with 2%nat. fold q. fold v. cbn match zeta.
  change (uniforms (set_uniform_queue q s)) with u.
  change (length (uniforms_f u)) with (length (uniforms_f (uniforms s))). rewrite Hlen.
  change (Z.of_nat 96) with 96.
  pose proof (uniform_index_range reg) as Hi.
  destruct (Z.leb_spec 96 (uniform_index reg)) as [Hge|Hlt].
  - exists reg, (set_uniform_queue q s). split_and!; try done.
    rewrite list_insert_ge by (change (uniforms_f u) with (uniforms_f (uniforms s)); lia).
    by destruct s as [[]].
  - destruct (lookup_lt_is_Some_2 (uniforms_f (uniforms s)) (Z.to_nat (uniform_index reg))
      ltac:(lia)) as [prev Hprev].
    unfold put, get. zdecide. change (uniforms_f u) with (uniforms_f (uniforms s)). rewrite Hprev.
    cbn [mbind R_bind]. do 2 eexists. split; [reflexivity|].
    split_and!; [done | done | by rewrite IsFloat32_assign | by apply uniform_index_assign; lia |
      done |].
    cbn [uniforms_dirty set_uniforms uniforms set_uniform_queue].
    intros [H1 H2%bool_decide_eq_false]%orb_false_iff. split; [done|].
    apply dec_stable in H2. subst prev. rewrite list_insert_id by done. by destruct s as [[]].
Qed.

(** One vector. *)
Lemma upload_vector reg v words s :
  IsFloat32 reg = false -> queue_ready s -> length (uniforms_f (uniforms s)) = 96%nat ->
  raw_vec v ->
  exists reg' s', upload reg (pack24 v ++ words) s = upload reg' words s' /\
    uniforms s' = mkUniforms (<[Z.to_nat (uniform_index reg) := vec_value v]> (uniforms_f (uniforms s)))
                    (uniforms_b (uniforms s)) (uniforms_i (uniforms s)) /\
    queue_ready s' /\ IsFloat32 reg' = false /\
    uniform_index reg' =
      (if 96 <=? uniform_index reg then uniform_index reg else uniform_index reg + 1) /\
    GetProgramCode s' = GetProgramCode s /\
    (uniforms_dirty s' = false -> uniforms_dirty s = false /\ uniforms s' = uniforms s).
Proof.
  intros Hf [Hlen Hidx] Hl Hv. unfold pack24. cbn [app].
  rewrite (upload_queue _ _ _ _ 0), (upload_queue _ _ _ _ 1) by (done || lia).
  set (s2 := set_uniform_queue _ _).
  edestruct (upload_full reg) with (s := s2) as (reg' & s' & H1 & H2 & H3 & H4 & H5 & H6 & H7);
    [done | done | done |].
  exists reg', s'. split; [exact H1|]. unfold queue_ready. rewrite H2, H3.
  destruct (PackedAttribute.buffer (uniform_queue s)) as [|b0 [|b1 [|b2 [|b3 []]]]] eqn:Eb;
    try discriminate Hlen.
  assert (E : PackedAttribute.buffer (uniform_queue s2) =
    [Z.lor (Z.shiftl (w v) 8) (Z.shiftr (z v) 16);
     Z.lor (Z.shiftl (Z.land (z v) 65535) 16) (Z.shiftr (y v) 8); b2; b3]).
  { unfold s2. cbn [uniform_queue set_uniform_queue PackedAttribute.buffer]. rewrite ?Eb. done. }
  rewrite E in *. split_and!; try done.
  - f_equal. f_equal. exact (unpack24 v [b3] Hv).
  - rewrite <- H2. exact H7.
Qed.

Lemma list_inserts_ge {A} i (k l : list A) : (length l <= i)%nat -> list_inserts i k l = l.
Proof.
  revert i. induction k as [|a k IH]; intros i Hi; [done|]. cbn [list_inserts].
  rewrite IH by lia. by apply list_insert_ge.
Qed.

(** Uploading float uniforms in the packed format: a run of vectors written to the
    data register, three words each, is decoded to the numbers it encodes (sign, 7 bits
    of exponent, 16 of mantissa) and fills the uniforms from the current index on; what
    is past the 96th is dropped and the index stays there.  Nothing else of the setup
    changes, and the uniforms are marked dirty if any of them did. *)
Theorem upload_uniforms vs reg s :
  IsFloat32 reg = false -> queue_ready s -> length (uniforms_f (uniforms s)) = 96%nat ->
  Forall raw_vec vs ->
  exists reg' s', upload reg (concat (pack24 <$> vs)) s = inr (reg', s') /\
    uniforms s' =
      mkUniforms (list_inserts (Z.to_nat (uniform_index reg)) (vec_value <$> vs) (uniforms_f (uniforms s)))
        (uniforms_b (uniforms s)) (uniforms_i (uniforms s)) /\
    uniform_index reg' =
      Z.max (uniform_index reg) (Z.min 96 (uniform_index reg + Z.of_nat (length vs))) /\
    queue_ready s' /\ GetProgramCode s' = GetProgramCode s /\
    (uniforms_dirty s' = false -> uniforms_dirty s = false /\ uniforms s' = uniforms s).
Proof.
  intros Hf Hq Hl Hvs. revert reg s Hf Hq Hl.
  induction Hvs as [|v vs Hv Hvs IH]; intros reg s Hf Hq Hl.
  { exists reg, s. split_and!; try done; [by destruct s as [[]]|].
    pose proof (uniform_index_range reg). simpl. lia. }
  cbn [fmap list_fmap concat].
  destruct (upload_vector reg v (concat (pack24 <$> vs)) s Hf Hq Hl Hv)
    as (reg1 & s1 & H1 & H2 & H3 & H4 & H5 & H6 & H7).
  destruct (IH reg1 s1 H4 H3) as (reg' & s' & H1' & H2' & H3' & H4' & H5' & H6').
  { rewrite H2. simpl. by rewrite length_insert. }
  exists reg', s'. split; [by rewrite H1|]. rewrite H2', H2.
  cbn [uniforms_f uniforms_b uniforms_i].
  pose proof (uniform_index_range reg) as Hi.
  split_and!; try done.
  - f_equal. cbn [fmap list_fmap list_inserts]. rewrite H5. zcase.
    + by rewrite !list_inserts_ge by (rewrite ?length_insert; lia).
    + rewrite list_insert_inserts_lt by lia. f_equal. lia.
  - rewrite H3', H5. simpl length. zcase; lia.
  - congruence.
  - intros Hd. destruct (H6' Hd) as [Hd1 E1]. destruct (H7 Hd1) as [Hd2 E2].
    split; [done|]. rewrite E2 in E1. rewrite H2', H2 in E1. exact E1.
Qed.

(** ** Program code and its fix-ups *)

(** A run of writes of program words. *)
Fixpoint write_program (writes : list (Z * Z)) (s : ShaderSetup) : R ShaderSetup :=
  match writes with
  | [] => inr s
  | (offset, value) :: writes => s ← UpdateProgramCode offset value s; write_program writes s
  end.

(** A fix-up is in place and nothing is pending. *)
Record patched (s : ShaderSetup) : Prop := {
  pa_fixup : has_fixup s = true;
  pa_dirty : program_code_hash_dirty s = true;
  pa_pending : program_code_pending_fixup s = false;
  pa_length : length (program_code s) = 4096%nat }.

Lemma UpdateProgramCode_patched o v s : patched s -> 0 <= o < 4096 ->
  exists s', UpdateProgramCode o v s = inr s' /\ patched s' /\
    program_code s' = <[Z.to_nat o := v]> (program_code s) /\
    program_code_fixup s' = program_code_fixup s.
Proof.
  intros [H1 H2 H3 H4] Ho. unfold UpdateProgramCode, put, get. zdecide.
  destruct (lookup_lt_is_Some_2 (program_code s) (Z.to_nat o) ltac:(lia)) as [old Hold].
  rewrite Hold. cbn [mbind R_bind]. destruct (Z.eqb_spec old v) as [->|Hne].
  - exists s. split_and!; [done | by split | by rewrite list_insert_id | done].
  - cbn [program_code_hash_dirty set_program_code]. rewrite H2. cbn [negb].
    destruct (_ <? _); eexists; (split; [reflexivity|]); (split; [|split; reflexivity]);
      split; simpl; rewrite ?length_insert; done.
Qed.

Lemma write_program_patched writes s : patched s -> Forall (fun p => 0 <= fst p < 4096) writes ->
  exists s', write_program writes s = inr s' /\ patched s' /\
    program_code s' = foldl (fun c p => <[Z.to_nat (fst p) := snd p]> c) (program_code s) writes /\
    program_code_fixup s' = program_code_fixup s.
Proof.
  intros Hs Hw. revert s Hs. induction Hw as [|[o v] writes Ho Hw IH]; intros s Hs.
  { by exists s. }
  destruct (UpdateProgramCode_patched o v s Hs Ho) as (s1 & E1 & Hs1 & H1 & H2).
  destruct (IH s1 Hs1) as (s' & E' & Hs' & H1' & H2').
  exists s'. cbn [write_program]. rewrite E1. cbn [mbind R_bind foldl].
  split_and!; [done | done | by rewrite H1', H1 | by rewrite H2'].
Qed.

Lemma DoProgramCodeFixup_patched h s :
  requires_fixup s = true -> program_code_pending_fixup s = true ->
  program_code_hash_dirty s = true -> length (program_code s) = 4096%nat ->
  h (take (Z.to_nat (biggest_program_size s)) (GetProgramCode s)) ∈
    [THUNDER_BLADE; AFTER_BURNER; COLLECTION_TB; COLLECTION_PD] ->
  patched (DoProgramCodeFixup h s) /\ program_code (DoProgramCodeFixup h s) = program_code s.
Proof.
  intros H1 H2 H3 H4 Hh. unfold DoProgramCodeFixup. rewrite H1, H2. cbn [negb orb].
  unfold GetProgramCodeHash. cbn [program_code_hash_dirty set_program_flags]. rewrite H3.
  change (GetProgramCode (set_program_flags _ _ _ s)) with (GetProgramCode s).
  change (biggest_program_size (set_program_flags _ _ _ s)) with (biggest_program_size s).
  set (hash := h _) in *. cbn match.
  repeat (apply elem_of_cons in Hh as [Hh | Hh]); [.. | by apply elem_of_nil in Hh];
    rewrite Hh;
    repeat match goal with
    | |- context [?a =? ?b] =>
        let r := eval vm_compute in (a =? b) in change (a =? b) with r; cbn match
    end; (split; [by split | done]).
Qed.

(** Once a fix-up has been applied, program words that the guest writes are stored
    but not executed: the hash of the patched program is still marked dirty, so the
    writes neither drop the patched copy nor ask for a new fix-up, and the units go on
    running the patched copy of the old program. *)
Theorem fixup_hides_updates h s writes :
  requires_fixup s = true -> program_code_pending_fixup s = true ->
  program_code_hash_dirty s = true -> length (program_code s) = 4096%nat ->
  h (take (Z.to_nat (biggest_program_size s)) (GetProgramCode s)) ∈
    [THUNDER_BLADE; AFTER_BURNER; COLLECTION_TB; COLLECTION_PD] ->
  Forall (fun p => 0 <= fst p < 4096) writes ->
  exists s2, write_program writes (DoProgramCodeFixup h s) = inr s2 /\
    program_code s2 = foldl (fun c p => <[Z.to_nat (fst p) := snd p]> c) (program_code s) writes /\
    GetProgramCode s2 = program_code_fixup (DoProgramCodeFixup h s) /\
    DoProgramCodeFixup h s2 = s2.
Proof.
  intros H1 H2 H3 H4 Hh Hw.
  destruct (DoProgramCodeFixup_patched h s H1 H2 H3 H4 Hh) as [Hp Hc].
  destruct (write_program_patched writes _ Hp Hw) as (s2 & E & [P1 P2 P3 P4] & Hc2 & Hf2).
  exists s2. split_and!; [done | by rewrite Hc2, Hc | |].
  - unfold GetProgramCode. by rewrite P1.
  - unfold DoProgramCodeFixup. by rewrite P3, orb_true_r.
Qed.
