(* ===== verification/ShaderFlow.v ===== *)
(** * ShaderFlow: structured programs run as they read

    The interpreter of [Shader] keeps its scopes on three stacks and ends them by
    comparing addresses after every instruction.  Programs whose scopes are nested and
    do not end at the same instruction are given a direct, total semantics here; the
    interpreter computes it. *)
From Stdlib Require Import SpecFloat.
From stdpp Require Import list relations.
From S2P Require Import Prelude PicaFloat ShaderBytecode Shader.

Local Open Scope Z_scope.

(** ** Structured programs

    A node carries the instruction word it is decoded from.  The scopes of [If], [Loop]
    and [Call] end with a straight instruction, [last]. *)
Inductive code :=
  | Skip
  | Straight (instr : Z)
  | Seq (c1 c2 : code)
  | If (instr : Z) (c : code) (last : Z) (els : code)
  | Loop (instr : Z) (body : code) (last : Z)
  | Call (instr : Z) (body : code) (last : Z)
  | BreakIf (instr : Z).

Definition opcode_in (l : list OpCode.Id) (instr : Z) : bool :=
  match OpCode.Id_of (opcode instr) with
  | Some op => bool_decide (op ∈ l)
  | None => false
  end.

(** Arithmetic, multiply-add, EMIT, SETEMIT, NOP and the opcodes without a meaning. *)
Definition is_straight (instr : Z) : bool :=
  match fst (OpCode.GetInfo (opcode instr)) with
  | OpCode.Arithmetic | OpCode.MultiplyAdd => true
  | _ => negb (opcode_in [OpCode.END; OpCode.JMPC; OpCode.JMPU; OpCode.CALL; OpCode.CALLU;
                          OpCode.CALLC; OpCode.IFU; OpCode.IFC; OpCode.LOOP; OpCode.BREAK;
                          OpCode.BREAKC] instr)
  end.

Section Semantics.
Variables exp2f log2f : spec_float -> spec_float.
Variable s : ShaderSetup.

Abbreviation exec := (exec_straight exp2f log2f s).
Abbreviation step := (step exp2f log2f s).

(** The condition of a conditional instruction. *)
Definition test (instr : Z) (u : ShaderUnit) : R bool :=
  if opcode_in [OpCode.CALL; OpCode.BREAK] instr then inr true
  else if opcode_in [OpCode.IFU; OpCode.CALLU] instr then
    get (uniforms_b (uniforms s)) (FlowControl.bool_uniform_id instr)
  else evaluate_condition instr u.

Definition add_aL (v : Z) (u : ShaderUnit) : R ShaderUnit :=
  old ← aL u; set_aL (old + v) u.

(** A loop with [n] more rounds after this one, each ended by an increment of [aL]. *)
Fixpoint rounds (body : ShaderUnit -> R (ShaderUnit * bool)) (last increment : Z) (n : nat)
    (u : ShaderUnit) : R ShaderUnit :=
  '(u, broken) ← body u;
  if (broken : bool) then add_aL increment u else
  u ← exec last u;
  u ← add_aL increment u;
  match n with O => inr u | S n => rounds body last increment n u end.

(** The effect of a program and whether it left the enclosing loop by a break.
    [nested] tells that there is an enclosing loop: [aL] is then reset to the first
    value of the loop that ends. *)
Fixpoint sem (nested : bool) (c : code) (u : ShaderUnit) : R (ShaderUnit * bool) :=
  match c with
  | Skip => inr (u, false)
  | Straight instr => u ← exec instr u; inr (u, false)
  | Seq c1 c2 =>
      '(u, broken) ← sem nested c1 u;
      if (broken : bool) then inr (u, true) else sem nested c2 u
  | If instr c last els =>
      t ← test instr u;
      if (t : bool) then '(u, _) ← sem nested c u; u ← exec last u; inr (u, false)
      else sem nested els u
  | Loop instr body last =>
      p ← get (uniforms_i (uniforms s)) (FlowControl.int_uniform_id instr);
      u ← set_aL (y p) u;
      u ← rounds (sem true body) last (z p) (Z.to_nat (x p)) u;
      u ← if nested then set_aL (y p) u else inr u;
      inr (u, false)
  | Call instr body last =>
      t ← test instr u;
      if (t : bool) then '(u, _) ← sem nested body u; u ← exec last u; inr (u, false)
      else inr (u, false)
  | BreakIf instr => t ← test instr u; inr (u, t : bool)
  end.

(** ** Where a structured program is found in the program memory *)

Definition instr_at (pc instr : Z) : Prop :=
  0 <= pc < 4095 /\ GetProgramCode s !! Z.to_nat pc = Some instr.

(** The addresses at which the innermost scopes end, how many scopes there are, and
    whether a break is allowed. *)
Record scopes := mkScopes {
  if_top : option Z; call_top : option Z; loop_top : option Z;
  n_ifs : nat; n_calls : nat; n_loops : nat; breakable : bool }.

Definition no_scopes : scopes := mkScopes None None None 0 0 0 false.

(** No scope ends before address [a]. *)
Definition quiet (k : scopes) (a : Z) : Prop :=
  if_top k <> Some a /\ call_top k <> Some a /\ loop_top k <> Some a.

Definition in_if (a : Z) (k : scopes) : scopes :=
  mkScopes (Some a) (call_top k) (loop_top k) (S (n_ifs k)) (n_calls k) (n_loops k) false.
Definition in_call (a : Z) (k : scopes) : scopes :=
  mkScopes (if_top k) (Some a) (loop_top k) (n_ifs k) (S (n_calls k)) (n_loops k) false.
Definition in_loop (a : Z) (k : scopes) : scopes :=
  mkScopes (if_top k) (call_top k) (Some a) (n_ifs k) (n_calls k) (S (n_loops k)) true.

Inductive code_at (k : scopes) (pc : Z) : code -> Z -> Prop :=
  | at_skip : code_at k pc Skip pc
  | at_straight instr :
      instr_at pc instr -> is_straight instr = true -> quiet k (pc + 1) ->
      code_at k pc (Straight instr) (pc + 1)
  | at_seq c1 c2 pc1 pc2 :
      code_at k pc c1 pc1 -> code_at k pc1 c2 pc2 -> code_at k pc (Seq c1 c2) pc2
  | at_if instr c last els d :
      instr_at pc instr -> opcode_in [OpCode.IFU; OpCode.IFC] instr = true ->
      quiet k (pc + 1) -> (n_ifs k < IF_STACK_LIMIT)%nat ->
      d = FlowControl.dest_offset instr -> d <> pc + 1 ->
      code_at (in_if d k) (pc + 1) c (d - 1) ->
      instr_at (d - 1) last -> is_straight last = true ->
      call_top k <> Some d -> loop_top k <> Some d ->
      code_at k d els (d + FlowControl.num_instructions instr) ->
      code_at k pc (If instr c last els) (d + FlowControl.num_instructions instr)
  | at_loop instr body last d :
      instr_at pc instr -> opcode_in [OpCode.LOOP] instr = true ->
      quiet k (pc + 1) -> (n_loops k < LOOP_STACK_LIMIT)%nat ->
      d = FlowControl.dest_offset instr -> d <> pc ->
      code_at (in_loop (d + 1) k) (pc + 1) body d ->
      instr_at d last -> is_straight last = true ->
      if_top k <> Some (d + 1) -> call_top k <> Some (d + 1) ->
      code_at k pc (Loop instr body last) (d + 1)
  | at_call instr body last d e :
      instr_at pc instr -> opcode_in [OpCode.CALL; OpCode.CALLU; OpCode.CALLC] instr = true ->
      quiet k (pc + 1) -> (n_calls k < CALL_STACK_LIMIT)%nat ->
      d = FlowControl.dest_offset instr -> e = d + FlowControl.num_instructions instr ->
      e <> pc + 1 ->
      code_at (in_call e k) d body (e - 1) ->
      instr_at (e - 1) last -> is_straight last = true ->
      if_top k <> Some e -> loop_top k <> Some e ->
      code_at k pc (Call instr body last) (pc + 1)
  | at_break instr :
      instr_at pc instr -> opcode_in [OpCode.BREAK; OpCode.BREAKC] instr = true ->
      breakable k = true -> quiet k (pc + 1) ->
      code_at k pc (BreakIf instr) (pc + 1).

End Semantics.

(** ** One step of the interpreter *)

Definition control : list OpCode.Id :=
  [OpCode.END; OpCode.JMPC; OpCode.JMPU; OpCode.CALL; OpCode.CALLU; OpCode.CALLC; OpCode.IFU;
   OpCode.IFC; OpCode.LOOP; OpCode.BREAK; OpCode.BREAKC].

Definition arithmetic_type (t : OpCode.Type_) : bool :=
  match t with OpCode.Arithmetic | OpCode.MultiplyAdd => true | _ => false end.

(** The flow control opcodes are not of an arithmetic type. *)
Lemma control_type instr op : OpCode.Id_of (opcode instr) = Some op -> op ∈ control ->
  arithmetic_type (fst (OpCode.GetInfo (opcode instr))) = false.
Proof.
  pose proof (bits_field_range 26 6 instr ltac:(lia)) as Hr. fold (opcode instr) in Hr.
  revert Hr. generalize (opcode instr). intros v Hv Hid Hop.
  assert (Hall : forallb (fun v =>
      match OpCode.Id_of v with
      | Some op => negb (bool_decide (op ∈ control)) ||
                   negb (arithmetic_type (fst (OpCode.GetInfo v)))
      | None => true
      end) (seqZ 0 64) = true) by (vm_compute; reflexivity).
  rewrite forallb_forall in Hall. specialize (Hall v).
  rewrite Hid, bool_decide_eq_true_2 in Hall by done.
  apply negb_true_iff. rewrite orb_false_l in Hall. apply Hall.
  apply list_elem_of_In, elem_of_seqZ. change (2 ^ 6) with 64 in Hv. lia.
Qed.

Lemma opcode_in_spec l instr : opcode_in l instr = true ->
  exists op, OpCode.Id_of (opcode instr) = Some op /\ op ∈ l.
Proof.
  unfold opcode_in. destruct (OpCode.Id_of _) as [op|]; [|done].
  intros H%bool_decide_eq_true. eauto.
Qed.

Section Steps.
Variables exp2f log2f : spec_float -> spec_float.
Variable s : ShaderSetup.

Abbreviation exec := (exec_straight exp2f log2f s).
Abbreviation step := (step exp2f log2f s).
Abbreviation execute := (execute exp2f log2f s).

Lemma execute_straight instr st : is_straight instr = true ->
  execute instr st = (u ← exec instr (shader_unit st); inr (set_unit u st, Continue)).
Proof.
  unfold is_straight, Shader.execute. intros H.
  destruct (fst (OpCode.GetInfo (opcode instr))); try reflexivity;
    unfold opcode_in in H; destruct (OpCode.Id_of (opcode instr)) as [[]|];
    try reflexivity; vm_compute in H; discriminate H.
Qed.

Ltac by_opcode H :=
  let op := fresh "op" in let Hid := fresh "Hid" in let Hop := fresh "Hop" in
  let Ht := fresh "Ht" in
  apply opcode_in_spec in H as (op & Hid & Hop);
  pose proof (control_type _ op Hid) as Ht;
  unfold Shader.execute, test, opcode_in; rewrite Hid; clear Hid;
  repeat (apply elem_of_cons in Hop as [-> | Hop]);
  [.. | by apply elem_of_nil in Hop];
  match type of Ht with
  | ?P -> _ => specialize (Ht (bool_decide_unpack P (I : Is_true (bool_decide P))))
  end;
  repeat match goal with
  | |- context [@bool_decide ?P ?d] =>
      let v := eval vm_compute in (@bool_decide P d) in change (@bool_decide P d) with v
  end;
  cbn match;
  destruct (fst (OpCode.GetInfo _)); try discriminate Ht.

Lemma execute_if instr st : opcode_in [OpCode.IFU; OpCode.IFC] instr = true ->
  execute instr st =
  (t ← test s instr (shader_unit st); st ← do_if instr t st; inr (st, Continue)).
Proof. intros H. by_opcode H; reflexivity. Qed.

Lemma execute_call instr st :
  opcode_in [OpCode.CALL; OpCode.CALLU; OpCode.CALLC] instr = true ->
  execute instr st =
  (t ← test s instr (shader_unit st);
   st ← if (t : bool) then do_call instr st else inr st; inr (st, Continue)).
Proof. intros H. by_opcode H; reflexivity. Qed.

Lemma execute_break instr st : opcode_in [OpCode.BREAK; OpCode.BREAKC] instr = true ->
  execute instr st =
  (t ← test s instr (shader_unit st); inr (st, if (t : bool) then Break else Continue)).
Proof. intros H. by_opcode H; reflexivity. Qed.

Lemma execute_loop instr st : opcode_in [OpCode.LOOP] instr = true ->
  execute instr st =
  (p ← get (uniforms_i (uniforms s)) (FlowControl.int_uniform_id instr);
   u ← set_aL (y p) (shader_unit st);
   st ← do_loop instr p (set_unit u st); inr (st, Continue)).
Proof. intros H. by_opcode H; reflexivity. Qed.

(** *** The end of a step *)

(** The part of [step] that follows the instruction. *)
Definition after (next : Z) (sig : signal) (st : InterpState) : R (InterpState * bool) :=
  let st := set_pc (u32 (program_counter st + 1)) st in
  let st := close_if next (close_calls 4 next st) in
  st ← close_loop next (match sig with Break => true | _ => false end) st;
  inr (st, match sig with Stop => true | _ => false end).

Definition if_end (ifs : list IfStackElement) : option Z := if_else_address <$> head ifs.
Definition call_end (calls : list CallStackElement) : option Z := call_end_address <$> head calls.
Definition loop_end (loops : list LoopStackElement) : option Z := loop_end_address <$> head loops.

Lemma close_calls_quiet i next st : call_end (call_stack st) <> Some next ->
  close_calls i next st = st.
Proof.
  destruct i; [done|]. simpl. destruct (call_stack st) as [|c cs]; [done|].
  intros H. unfold if_end, call_end, loop_end in H. simpl in H. destruct (Z.eqb_spec (call_end_address c) next); [congruence | done].
Qed.

Lemma close_if_quiet next st : if_end (if_stack st) <> Some next -> close_if next st = st.
Proof.
  unfold close_if. destruct (if_stack st) as [|c cs]; [done|].
  intros H. unfold if_end, call_end, loop_end in H. simpl in H. destruct (Z.eqb_spec (if_else_address c) next); [congruence | done].
Qed.

Lemma close_loop_quiet next st : loop_end (loop_stack st) <> Some next ->
  close_loop next false st = inr st.
Proof.
  unfold close_loop. destruct (loop_stack st) as [|c cs]; [done|].
  intros H. unfold if_end, call_end, loop_end in H. simpl in H. destruct (Z.eqb_spec (loop_end_address c) next); [congruence | done].
Qed.

(** Nothing ends. *)
Lemma after_quiet next ifs calls loops pc u :
  if_end ifs <> Some next -> call_end calls <> Some next -> loop_end loops <> Some next ->
  after next Continue (mkInterp ifs calls loops pc u) =
  inr (mkInterp ifs calls loops (u32 (pc + 1)) u, false).
Proof.
  intros Hi Hc Hl. unfold after.
  rewrite close_calls_quiet by done. rewrite close_if_quiet by done.
  rewrite close_loop_quiet by done. done.
Qed.

(** The THEN part of an IF ends. *)
Lemma after_if next e ifs calls loops pc u :
  call_end calls <> Some next -> loop_end loops <> Some next ->
  after next Continue (mkInterp (mkIf next e :: ifs) calls loops pc u) =
  inr (mkInterp ifs calls loops e u, false).
Proof.
  intros Hc Hl. unfold after. rewrite close_calls_quiet by done.
  unfold close_if. simpl. rewrite Z.eqb_refl. simpl. unfold set_ifs, set_pc. simpl.
  rewrite close_loop_quiet by done. done.
Qed.

Lemma close_calls_top next ret ifs calls loops pc u :
  close_calls 4 next (mkInterp ifs (mkCall next ret :: calls) loops pc u) =
  close_calls 3 ret (mkInterp ifs calls loops ret u).
Proof. cbn -[Z.eqb]. rewrite Z.eqb_refl. reflexivity. Qed.

(** A subroutine ends. *)
Lemma after_call next ret ifs calls loops pc u :
  if_end ifs <> Some next -> loop_end loops <> Some next -> call_end calls <> Some ret ->
  after next Continue (mkInterp ifs (mkCall next ret :: calls) loops pc u) =
  inr (mkInterp ifs calls loops ret u, false).
Proof.
  intros Hi Hl Hc. unfold after. unfold set_pc at 1. cbn [if_stack call_stack loop_stack shader_unit].
  rewrite close_calls_top.
  rewrite close_calls_quiet by done. rewrite close_if_quiet by done.
  rewrite close_loop_quiet by done. done.
Qed.

(** There is a surrounding loop. *)
Lemma nested_decide {A} (a : A) (l : list A) :
  bool_decide (1 < length (a :: l))%nat = match l with [] => false | _ => true end.
Proof.
  destruct l as [|b l]; [rewrite bool_decide_eq_false_2 | rewrite bool_decide_eq_true_2];
    simpl; lia || done.
Qed.

(** A round of a loop ends. *)
Lemma after_loop next entry n inc prev ifs calls loops pc u :
  if_end ifs <> Some next -> call_end calls <> Some next -> 0 <= n < 256 ->
  after next Continue (mkInterp ifs calls (mkLoop entry next n inc prev :: loops) pc u) =
  (u ← add_aL inc u;
   if n =? 0 then
     u ← match loops with [] => inr u | _ => set_aL prev u end;
     inr (mkInterp ifs calls loops next u, false)
   else inr (mkInterp ifs calls (mkLoop entry next (n - 1) inc prev :: loops) entry u, false)).
Proof.
  intros Hi Hc Hn. unfold after. rewrite close_calls_quiet by done. rewrite close_if_quiet by done.
  unfold close_loop. cbn [loop_stack set_pc]. rewrite nested_decide.
  simpl. rewrite Z.eqb_refl. simpl. unfold add_aL.
  destruct (aL u) as [|v]; [done|]. simpl. destruct (set_aL _ u) as [|u']; [done|]. simpl.
  destruct (Z.eqb_spec n 0) as [->|H0]; simpl.
  - destruct loops; simpl; [done|]. destruct (set_aL prev u'); done.
  - rewrite u8_small by (unfold is_u8; lia). done.
Qed.

(** A loop is left by a break. *)
Lemma after_break next entry e n inc prev ifs calls loops pc u :
  if_end ifs <> Some next -> call_end calls <> Some next ->
  after next Break (mkInterp ifs calls (mkLoop entry e n inc prev :: loops) pc u) =
  (u ← add_aL inc u;
   u ← match loops with [] => inr u | _ => set_aL prev u end;
   inr (mkInterp ifs calls loops e u, false)).
Proof.
  intros Hi Hc. unfold after. rewrite close_calls_quiet by done. rewrite close_if_quiet by done.
  unfold close_loop. cbn [loop_stack set_pc]. rewrite nested_decide.
  simpl. rewrite orb_true_r. unfold add_aL.
  destruct (aL u) as [|v]; [done|]. simpl. destruct (set_aL _ u) as [|u']; [done|]. simpl.
  destruct loops; simpl; [done|]. destruct (set_aL prev u'); done.
Qed.

End Steps.

#[local] Arguments after : simpl never.
#[local] Arguments exec_straight : simpl never.
#[local] Arguments Shader.step : simpl never.
#[local] Arguments Shader.execute : simpl never.
#[local] Arguments close_calls : simpl never.
#[local] Arguments evaluate_condition : simpl never.
#[local] Arguments test : simpl never.
#[local] Arguments set_aL : simpl never.
#[local] Arguments u32 : simpl never.
#[local] Arguments u8 : simpl never.

(** ** The interpreter computes the direct semantics *)

Lemma get_at {A} (l : list A) i : 0 <= i < Z.of_nat (length l) -> exists a, get l i = inr a.
Proof.
  intros Hi. unfold get. zdecide.
  destruct (lookup_lt_is_Some_2 l (Z.to_nat i) ltac:(lia)) as [a ->]. eauto.
Qed.

Section Simulation.
Variables exp2f log2f : spec_float -> spec_float.
Variable s : ShaderSetup.

Abbreviation exec := (exec_straight exp2f log2f s).
Abbreviation step := (step exp2f log2f s).
Abbreviation sem := (sem exp2f log2f s).
Abbreviation at_ := (code_at s).

(** The swizzle memory covers the patterns that instructions can name, and the integer
    uniforms are bytes. *)
Hypothesis Hswizzle : (128 <= length (swizzle_data s))%nat.
Hypothesis Hbytes : Forall (fun v => is_u8 (x v) /\ is_u8 (y v)) (uniforms_i (uniforms s)).

Definition goes (st st' : InterpState) : Prop := step st = inr (st', false).

Definition is_nested (loops : list LoopStackElement) : bool :=
  match loops with [] => false | _ => true end.

(** The stacks are those that the program text predicts. *)
Record in_scopes (k : scopes) ifs calls loops : Prop := {
  sc_if : if_top k = if_end ifs;
  sc_call : call_top k = call_end calls;
  sc_loop : loop_top k = loop_end loops;
  sc_ifs : n_ifs k = length ifs;
  sc_calls : n_calls k = length calls;
  sc_loops : n_loops k = length loops }.

(** From [st] the interpreter does what the result [r] of the semantics says: it gets
    to [pc'] with the same stacks, or it comes to a break of the innermost loop, or it
    fails. *)
Definition reaches (r : R (ShaderUnit * bool)) ifs calls loops (st : InterpState) (pc' : Z) : Prop :=
  match r with
  | inr (u, false) => rtc goes st (mkInterp ifs calls loops pc' u)
  | inr (u, true) => exists st1 next pc1, rtc goes st st1 /\
      step st1 = after next Break (mkInterp ifs calls loops pc1 u) /\
      if_end ifs <> Some next /\ call_end calls <> Some next
  | inl e => exists st1, rtc goes st st1 /\ step st1 = inl e
  end.

Lemma reaches_after r ifs calls loops st st1 pc' :
  rtc goes st st1 -> reaches r ifs calls loops st1 pc' -> reaches r ifs calls loops st pc'.
Proof.
  intros H1. destruct r as [e|[u []]]; simpl.
  - intros (st2 & H2 & H3). exists st2. split; [by etrans | done].
  - intros (st2 & next & pc1 & H2 & H3). exists st2, next, pc1. split; [by etrans | done].
  - intros H2. by etrans.
Qed.

Lemma reaches_fails e ifs calls loops st pc' :
  step st = inl e -> reaches (inl e) ifs calls loops st pc'.
Proof. intros H. exists st. split; [apply rtc_refl | done]. Qed.

(** A step at a known instruction. *)
Lemma step_at pc instr ifs calls loops u : instr_at s pc instr ->
  step (mkInterp ifs calls loops pc u) =
  ('(st, sig) ← execute exp2f log2f s instr (mkInterp ifs calls loops pc u);
   after (pc + 1) sig st).
Proof.
  intros [Hpc Hi]. unfold Shader.step, fetch. simpl program_counter.
  change (MAX_PROGRAM_CODE_LENGTH - 1) with 4095. zdecide.
  assert (Hg : get (GetProgramCode s) pc = inr instr) by (unfold get; zdecide; rewrite Hi; done).
  rewrite Hg. cbn [mbind R_bind].
  destruct (get_at (GetSwizzleData s) (Common.operand_desc_id instr)) as [w0 Hw].
  { unfold GetSwizzleData, Common.operand_desc_id. field_bounds. lia. }
  rewrite Hw. cbn [mbind R_bind]. rewrite u32_small by (unfold is_u32; lia). done.
Qed.

Lemma step_straight pc instr ifs calls loops u : instr_at s pc instr -> is_straight instr = true ->
  step (mkInterp ifs calls loops pc u) =
  (u ← exec instr u; after (pc + 1) Continue (mkInterp ifs calls loops pc u)).
Proof.
  intros Hi Hs. rewrite (step_at _ instr), execute_straight by done.
  cbn [shader_unit]. destruct (exec instr u); reflexivity.
Qed.

Lemma quiet_stacks k ifs calls loops a : in_scopes k ifs calls loops -> quiet k a ->
  if_end ifs <> Some a /\ call_end calls <> Some a /\ loop_end loops <> Some a.
Proof. intros [H1 H2 H3 _ _ _]. unfold quiet. by rewrite H1, H2, H3. Qed.

Lemma pc_next pc instr : instr_at s pc instr -> u32 (pc + 1) = pc + 1.
Proof. intros [H _]. apply u32_small. unfold is_u32. lia. Qed.

Lemma in_scopes_if a e k ifs calls loops :
  in_scopes k ifs calls loops -> in_scopes (in_if a k) (mkIf a e :: ifs) calls loops.
Proof. intros []; split; simpl; first [reflexivity | congruence]. Qed.

Lemma in_scopes_call a e k ifs calls loops :
  in_scopes k ifs calls loops -> in_scopes (in_call a k) ifs (mkCall a e :: calls) loops.
Proof. intros []; split; simpl; first [reflexivity | congruence]. Qed.

Lemma in_scopes_loop a entry n inc prev k ifs calls loops :
  in_scopes k ifs calls loops ->
  in_scopes (in_loop a k) ifs calls (mkLoop entry a n inc prev :: loops).
Proof. intros []; split; simpl; first [reflexivity | congruence]. Qed.

(** Where a jump leads. *)
Lemma jump_dest instr : u32 (before_dest instr + 1) = FlowControl.dest_offset instr.
Proof.
  unfold before_dest, FlowControl.dest_offset. field_bounds. word_lia.
Qed.

Lemma dest_end_eq instr :
  dest_end instr = FlowControl.dest_offset instr + FlowControl.num_instructions instr.
Proof.
  unfold dest_end, FlowControl.dest_offset, FlowControl.num_instructions. field_bounds. word_lia.
Qed.

(** Reduces a bind whose first result is known. *)
Ltac rbind := cbn [mbind R_bind].

(** Programs that may not break do not. *)
Lemma sem_unbroken k pc c pc' : at_ k pc c pc' -> breakable k = false ->
  forall nested u u' broken, sem nested c u = inr (u', broken) -> broken = false.
Proof.
  induction 1; intros Hk nested u u' broken; cbn [ShaderFlow.sem].
  - by intros [= <- <-].
  - destruct (exec instr u); rbind; [done | by intros [= <- <-]].
  - destruct (sem nested c1 u) as [|[u1 []]] eqn:E; rbind; [done | |].
    + apply IHcode_at1 in E; [done | exact Hk].
    + apply IHcode_at2, Hk.
  - destruct (test s instr u) as [|[]]; rbind; [done | |].
    + destruct (sem nested c u) as [|[u1 b]]; rbind; [done|].
      destruct (exec_straight _ _ _ _ u1); rbind; [done | by intros [= <- <-]].
    + apply IHcode_at2, Hk.
  - destruct (get _ _) as [|p]; rbind; [done|].
    destruct (set_aL (y p) u) as [|u1]; rbind; [done|].
    destruct (rounds _ _ _ _ _ _ _ _) as [|u2]; rbind; [done|].
    destruct nested; [destruct (set_aL (y p) u2)|]; rbind; [done | |]; by intros [= <- <-].
  - destruct (test s instr u) as [|[]]; rbind; [done | |by intros [= <- <-]].
    destruct (sem nested body u) as [|[u1 b]]; rbind; [done|].
    destruct (exec_straight _ _ _ _ u1); rbind; [done | by intros [= <- <-]].
  - congruence.
Qed.

(** The last instructions of the three kinds of scope. *)
Lemma step_last_if last d e ifs calls loops u :
  instr_at s (d - 1) last -> is_straight last = true ->
  call_end calls <> Some d -> loop_end loops <> Some d ->
  step (mkInterp (mkIf d e :: ifs) calls loops (d - 1) u) =
  (u ← exec last u; inr (mkInterp ifs calls loops e u, false)).
Proof.
  intros Hi Hs Hc Hl. rewrite (step_straight _ last), Z.sub_add by done.
  destruct (exec last u) as [|u1]; rbind; [done | by apply after_if].
Qed.

Lemma step_last_call last e ret ifs calls loops u :
  instr_at s (e - 1) last -> is_straight last = true ->
  if_end ifs <> Some e -> loop_end loops <> Some e -> call_end calls <> Some ret ->
  step (mkInterp ifs (mkCall e ret :: calls) loops (e - 1) u) =
  (u ← exec last u; inr (mkInterp ifs calls loops ret u, false)).
Proof.
  intros Hi Hs Hc Hl Hr. rewrite (step_straight _ last), Z.sub_add by done.
  destruct (exec last u) as [|u1]; rbind; [done | by apply after_call].
Qed.

Lemma step_last_loop last d entry n inc prev ifs calls loops u :
  instr_at s d last -> is_straight last = true -> 0 <= n < 256 ->
  if_end ifs <> Some (d + 1) -> call_end calls <> Some (d + 1) ->
  step (mkInterp ifs calls (mkLoop entry (d + 1) n inc prev :: loops) d u) =
  (u ← exec last u;
   u ← add_aL inc u;
   if n =? 0 then
     u ← match loops with [] => inr u | _ => set_aL prev u end;
     inr (mkInterp ifs calls loops (d + 1) u, false)
   else inr (mkInterp ifs calls (mkLoop entry (d + 1) (n - 1) inc prev :: loops) entry u, false)).
Proof.
  intros Hi Hs Hn Hif Hc. rewrite (step_straight _ last) by done.
  destruct (exec last u) as [|u1]; rbind; [done | by apply after_loop].
Qed.

(** The effect of leaving a loop on [aL]. *)
Definition leave (loops : list LoopStackElement) (prev : Z) (u : ShaderUnit) : R ShaderUnit :=
  match loops with [] => inr u | _ => set_aL prev u end.

Definition leaving (loops : list LoopStackElement) (prev : Z) (r : R ShaderUnit) : R (ShaderUnit * bool) :=
  u ← r; u ← leave loops prev u; inr (u, false).

(** A step whose only fallible part is [m]. *)
Lemma reaches_step m ifs calls loops st pc' :
  step st = (u ← m; inr (mkInterp ifs calls loops pc' u, false)) ->
  reaches (u ← m; inr (u, false)) ifs calls loops st pc'.
Proof.
  destruct m as [e|u]; rbind; intros H; [by apply reaches_fails | by apply rtc_once].
Qed.

Lemma reaches_leave m prev ifs calls loops st pc' :
  step st = (u ← m; u ← leave loops prev u; inr (mkInterp ifs calls loops pc' u, false)) ->
  reaches (leaving loops prev m) ifs calls loops st pc'.
Proof.
  destruct m as [e|u]; unfold leaving; rbind; intros H; [by apply reaches_fails|].
  by apply reaches_step.
Qed.

(** A round that fails or breaks ends the loop; otherwise [K] says what is next. *)
Lemma reaches_round r K entry e n inc prev ifs calls loops st pc' :
  reaches r ifs calls (mkLoop entry e n inc prev :: loops) st pc' ->
  (forall u, rtc goes st (mkInterp ifs calls (mkLoop entry e n inc prev :: loops) pc' u) ->
     reaches (leaving loops prev (K u)) ifs calls loops st e) ->
  reaches (leaving loops prev ('(u, broken) ← r; if (broken : bool) then add_aL inc u else K u))
    ifs calls loops st e.
Proof.
  intros Hr HK. destruct r as [err|[u []]]; rbind.
  - destruct Hr as (st1 & H1 & H2). by exists st1.
  - destruct Hr as (st1 & next & pc1 & H1 & H2 & H3 & H4).
    rewrite after_break in H2 by done.
    apply (reaches_after _ _ _ _ _ _ _ H1), reaches_leave, H2.
  - apply HK, Hr.
Qed.

(** The rounds of a loop. *)
Lemma reaches_rounds body last inc prev ifs calls loops pc d :
  (forall n u, reaches (sem true body u) ifs calls
     (mkLoop (pc + 1) (d + 1) n inc prev :: loops)
     (mkInterp ifs calls (mkLoop (pc + 1) (d + 1) n inc prev :: loops) (pc + 1) u) d) ->
  instr_at s d last -> is_straight last = true ->
  if_end ifs <> Some (d + 1) -> call_end calls <> Some (d + 1) ->
  forall n u, (n < 256)%nat ->
  reaches (leaving loops prev (rounds exp2f log2f s (sem true body) last inc n u)) ifs calls loops
    (mkInterp ifs calls (mkLoop (pc + 1) (d + 1) (Z.of_nat n) inc prev :: loops) (pc + 1) u) (d + 1).
Proof.
  intros Hbody Hi Hs Hif Hc n.
  induction n as [|n IH]; intros u Hn; cbn [rounds];
    apply (reaches_round _ _ _ _ _ _ _ _ _ _ _ _ (Hbody _ u)); intros u1 H1;
    apply (reaches_after _ _ _ _ _ _ _ H1).
  - pose proof (step_last_loop last d (pc + 1) 0 inc prev ifs calls loops u1
                  Hi Hs ltac:(lia) Hif Hc) as Hstep.
    change (0 =? 0) with true in Hstep. apply reaches_leave.
    etrans; [exact Hstep|]. destruct (exec_straight _ _ _ _ u1) as [e|u2]; rbind; [done|].
    destruct (add_aL inc u2); done.
  - pose proof (step_last_loop last d (pc + 1) (Z.of_nat (S n)) inc prev ifs calls loops u1
                  Hi Hs ltac:(lia) Hif Hc) as Hstep.
    rewrite (proj2 (Z.eqb_neq (Z.of_nat (S n)) 0)) in Hstep by lia.
    replace (Z.of_nat (S n) - 1) with (Z.of_nat n) in Hstep by lia.
    destruct (exec_straight _ _ _ _ u1) as [e|u2]; rbind; cbn [mbind R_bind] in Hstep;
      [by apply reaches_fails|].
    destruct (add_aL inc u2) as [e|u3]; rbind; cbn [mbind R_bind] in Hstep;
      [by apply reaches_fails|].
    apply (reaches_after _ _ _ _ _ _ _ (rtc_once _ _ Hstep)), IH. lia.
Qed.

(** The next instruction follows. *)
Lemma after_next pc instr ifs calls loops u : instr_at s pc instr ->
  if_end ifs <> Some (pc + 1) -> call_end calls <> Some (pc + 1) -> loop_end loops <> Some (pc + 1) ->
  after (pc + 1) Continue (mkInterp ifs calls loops pc u) =
  inr (mkInterp ifs calls loops (pc + 1) u, false).
Proof. intros Hi H1 H2 H3. rewrite after_quiet by done. by rewrite (pc_next _ _ Hi). Qed.

(** The first instruction of each construct. *)
Lemma step_test pc instr ifs calls loops u (g : bool -> R (InterpState * signal)) :
  instr_at s pc instr ->
  execute exp2f log2f s instr (mkInterp ifs calls loops pc u) =
    (t ← test s instr u; g t) ->
  step (mkInterp ifs calls loops pc u) =
  (t ← test s instr u; '(st, sig) ← g t; after (pc + 1) sig st).
Proof.
  intros Hi He. rewrite (step_at _ instr) by done. rewrite He.
  destruct (test s instr u); reflexivity.
Qed.

Lemma step_if pc instr ifs calls loops u k :
  instr_at s pc instr -> opcode_in [OpCode.IFU; OpCode.IFC] instr = true ->
  in_scopes k ifs calls loops -> quiet k (pc + 1) -> (n_ifs k < IF_STACK_LIMIT)%nat ->
  FlowControl.dest_offset instr <> pc + 1 ->
  step (mkInterp ifs calls loops pc u) =
  (t ← test s instr u;
   inr (if (t : bool)
        then mkInterp (mkIf (FlowControl.dest_offset instr) (dest_end instr) :: ifs)
               calls loops (pc + 1) u
        else mkInterp ifs calls loops (FlowControl.dest_offset instr) u, false)).
Proof.
  intros Hi Hop Hk Hq Hn Hd.
  pose proof (quiet_stacks _ _ _ _ _ Hk Hq) as (Hq1 & Hq2 & Hq3).
  rewrite (step_test _ _ _ _ _ _ _ Hi (execute_if _ _ _ _ _ Hop)).
  destruct (test s instr u) as [|[]]; rbind; unfold do_if; [done | |].
  - rewrite (sc_ifs _ _ _ _ Hk) in Hn. cbn [if_stack].
    rewrite bool_decide_eq_true_2 by done. cbn [assert]. rbind.
    apply (after_next _ _ _ _ _ _ Hi); [|done..]. intros [= E]. done.
  - rewrite <- (jump_dest instr). by apply after_quiet.
Qed.

Lemma step_call pc instr ifs calls loops u k :
  instr_at s pc instr -> opcode_in [OpCode.CALL; OpCode.CALLU; OpCode.CALLC] instr = true ->
  in_scopes k ifs calls loops -> quiet k (pc + 1) -> (n_calls k < CALL_STACK_LIMIT)%nat ->
  dest_end instr <> pc + 1 ->
  step (mkInterp ifs calls loops pc u) =
  (t ← test s instr u;
   inr (if (t : bool)
        then mkInterp ifs (mkCall (dest_end instr) (pc + 1) :: calls) loops
               (FlowControl.dest_offset instr) u
        else mkInterp ifs calls loops (pc + 1) u, false)).
Proof.
  intros Hi Hop Hk Hq Hn Hd.
  pose proof (quiet_stacks _ _ _ _ _ Hk Hq) as (Hq1 & Hq2 & Hq3).
  rewrite (step_test _ _ _ _ _ _ (fun t => st ← if (t : bool) then do_call instr _ else inr _;
             inr (st, Continue)) Hi (execute_call _ _ _ _ _ Hop)).
  destruct (test s instr u) as [|[]]; rbind; unfold do_call; [done | |].
  - rewrite (sc_calls _ _ _ _ Hk) in Hn. cbn [call_stack program_counter].
    rewrite bool_decide_eq_true_2 by done. cbn [assert]. rbind.
    rewrite (pc_next _ _ Hi), <- (jump_dest instr). apply after_quiet; [done | | done].
    intros [= E]. done.
  - by apply (after_next _ _ _ _ _ _ Hi).
Qed.

Lemma set_aL_twice v u u1 : set_aL v u = inr u1 -> aL u1 = inr v /\ set_aL v u1 = inr u1.
Proof.
  unfold set_aL, aL, put, get. change (2 <? 0) with false. cbn match.
  change (Z.to_nat 2) with 2%nat.
  destruct (address_registers u !! 2%nat) as [o|] eqn:E; rbind; [|done].
  intros [= <-]. simpl address_registers.
  assert (Hlen : (2 < length (address_registers u))%nat) by by eapply lookup_lt_Some.
  rewrite list_lookup_insert_eq by done. rbind. rewrite list_insert_insert_eq. done.
Qed.

Lemma step_loop pc instr ifs calls loops u k :
  instr_at s pc instr -> opcode_in [OpCode.LOOP] instr = true ->
  in_scopes k ifs calls loops -> quiet k (pc + 1) -> (n_loops k < LOOP_STACK_LIMIT)%nat ->
  FlowControl.dest_offset instr <> pc ->
  step (mkInterp ifs calls loops pc u) =
  (p ← get (uniforms_i (uniforms s)) (FlowControl.int_uniform_id instr);
   u ← set_aL (y p) u;
   inr (mkInterp ifs calls
          (mkLoop (pc + 1) (FlowControl.dest_offset instr + 1) (x p) (z p) (y p) :: loops)
          (pc + 1) u, false)).
Proof.
  intros Hi Hop Hk Hq Hn Hd.
  pose proof (quiet_stacks _ _ _ _ _ Hk Hq) as (Hq1 & Hq2 & Hq3).
  rewrite (step_at _ instr), execute_loop by done. cbn [shader_unit].
  destruct (get _ (FlowControl.int_uniform_id instr)) as [|p] eqn:Ep; rbind; [done|].
  destruct (set_aL (y p) u) as [|u1] eqn:Eu; rbind; [done|].
  destruct (set_aL_twice _ _ _ Eu) as [H1 H2].
  assert (Hy : u8 (y p) = y p).
  { apply u8_small. unfold get in Ep. destruct (_ <? 0); [done|].
    destruct (_ !! _) as [p'|] eqn:Ep'; [|done]. injection Ep as ->.
    eapply Forall_lookup_1 in Hbytes; [|exact Ep']. apply Hbytes. }
  unfold do_loop. cbn [shader_unit set_unit loop_stack program_counter]. rewrite H1. rbind.
  rewrite (sc_loops _ _ _ _ Hk) in Hn. rewrite bool_decide_eq_true_2 by done. cbn [assert]. rbind.
  rewrite H2, Hy. rbind. rewrite (pc_next _ _ Hi).
  assert (Hde : u32 (FlowControl.dest_offset instr + 1) = FlowControl.dest_offset instr + 1).
  { unfold FlowControl.dest_offset. field_bounds. apply u32_small. unfold is_u32. lia. }
  rewrite Hde. apply (after_next _ _ _ _ _ _ Hi); [done..|]. intros [= E]. lia.
Qed.

(** A scope whose body does not break: the body, then the last instruction. *)
Lemma reaches_scope k pc c pc' last nested u ifs calls loops ifs' calls' loops' st pc'' :
  at_ k pc c pc' -> breakable k = false ->
  reaches (sem nested c u) ifs' calls' loops' st pc' ->
  (forall u1, step (mkInterp ifs' calls' loops' pc' u1) =
     (u2 ← exec last u1; inr (mkInterp ifs calls loops pc'' u2, false))) ->
  reaches ('(u1, _) ← sem nested c u; u2 ← exec last u1; inr (u2, false)) ifs calls loops st pc''.
Proof.
  intros Hat Hk Hr Hlast. destruct (sem nested c u) as [e|[u1 b]] eqn:E; rbind.
  - destruct Hr as (st1 & H1 & H2). by exists st1.
  - rewrite (sem_unbroken _ _ _ _ Hat Hk _ _ _ _ E) in Hr.
    apply (reaches_after _ _ _ _ _ _ _ Hr), reaches_step, Hlast.
Qed.

Lemma sem_reaches k pc c pc' : at_ k pc c pc' ->
  forall ifs calls loops u, in_scopes k ifs calls loops -> (breakable k = true -> loops <> []) ->
  reaches (sem (is_nested loops) c u) ifs calls loops (mkInterp ifs calls loops pc u) pc'.
Proof.
  induction 1 as
    [k pc | k pc instr Hi Hs Hq | k pc c1 c2 pc1 pc2 H1 IH1 H2 IH2
    | k pc instr c last els d Hi Hop Hq Hn Hd Hd' Hc IHc Hlast Hs Hcd Hld He IHe
    | k pc instr body last d Hi Hop Hq Hn Hd Hd' Hb IHb Hlast Hs Hif Hcall
    | k pc instr body last d e Hi Hop Hq Hn Hd He Hpc Hb IHb Hlast Hs Hif Hloop
    | k pc instr Hi Hop Hk Hq];
    intros ifs calls loops u Hsc Hbr; cbn [ShaderFlow.sem].
  - apply rtc_refl.
  - destruct (quiet_stacks _ _ _ _ _ Hsc Hq) as (Hq1 & Hq2 & Hq3).
    apply reaches_step. rewrite (step_straight _ instr) by done.
    destruct (exec instr u); rbind; [done|]. by apply (after_next _ _ _ _ _ _ Hi).
  - specialize (IH1 _ _ _ u Hsc Hbr).
    destruct (sem (is_nested loops) c1 u) as [|[u1 []]]; rbind; [exact IH1..|].
    apply (reaches_after _ _ _ _ _ _ _ IH1). by apply IH2.
  - subst d. pose proof (step_if _ _ _ _ _ u _ Hi Hop Hsc Hq Hn Hd') as Hstep.
    destruct (test s instr u) as [err|[]]; rbind; cbn [mbind R_bind] in Hstep;
      [by apply reaches_fails | |];
      apply (reaches_after _ _ _ _ _ _ _ (rtc_once _ _ Hstep)).
    + rewrite dest_end_eq. eapply reaches_scope; [exact Hc | done | |].
      * apply IHc; [by apply in_scopes_if | done].
      * intros u1. apply step_last_if; [done | done | |].
        -- by rewrite <- (sc_call _ _ _ _ Hsc).
        -- by rewrite <- (sc_loop _ _ _ _ Hsc).
    + by apply IHe.
  - subst d. pose proof (step_loop _ _ _ _ _ u _ Hi Hop Hsc Hq Hn Hd') as Hstep.
    destruct (get _ (FlowControl.int_uniform_id instr)) as [err|p] eqn:Ep; rbind;
      cbn [mbind R_bind] in Hstep; [by apply reaches_fails|].
    destruct (set_aL (y p) u) as [err|u1]; rbind; cbn [mbind R_bind] in Hstep;
      [by apply reaches_fails|].
    apply (reaches_after _ _ _ _ _ _ _ (rtc_once _ _ Hstep)).
    assert (Hx : is_u8 (x p)).
    { unfold get in Ep. destruct (_ <? 0); [done|].
      destruct (_ !! _) as [p'|] eqn:Ep'; [|done]. injection Ep as ->.
      eapply Forall_lookup_1 in Hbytes; [|exact Ep']. apply Hbytes. }
    unfold is_u8 in Hx. rewrite <- (Z2Nat.id (x p)) at 2 by lia.
    rewrite (sc_if _ _ _ _ Hsc) in Hif. rewrite (sc_call _ _ _ _ Hsc) in Hcall.
    assert (Hr := reaches_rounds body last (z p) (y p) ifs calls loops pc _
      (fun n u2 => IHb ifs calls (mkLoop (pc + 1) _ n (z p) (y p) :: loops) u2
         (in_scopes_loop _ _ _ _ _ _ _ _ _ Hsc) ltac:(done))
      Hlast Hs Hif Hcall (Z.to_nat (x p)) u1 ltac:(lia)).
    destruct loops; exact Hr.
  - subst d e. rewrite <- dest_end_eq in *.
    pose proof (step_call _ _ _ _ _ u _ Hi Hop Hsc Hq Hn Hpc) as Hstep.
    destruct (quiet_stacks _ _ _ _ _ Hsc Hq) as (Hq1 & Hq2 & Hq3).
    destruct (test s instr u) as [err|[]]; rbind; cbn [mbind R_bind] in Hstep;
      [by apply reaches_fails | | by apply rtc_once].
    apply (reaches_after _ _ _ _ _ _ _ (rtc_once _ _ Hstep)).
    eapply reaches_scope; [exact Hb | done | |].
    + apply IHb; [by apply in_scopes_call | done].
    + intros u1. apply step_last_call; [done | done | | | done].
      * by rewrite <- (sc_if _ _ _ _ Hsc).
      * by rewrite <- (sc_loop _ _ _ _ Hsc).
  - destruct (quiet_stacks _ _ _ _ _ Hsc Hq) as (Hq1 & Hq2 & Hq3).
    pose proof (step_test pc instr ifs calls loops u _ Hi (execute_break _ _ _ _ _ Hop)) as Hstep.
    destruct (test s instr u) as [err|[]]; rbind; cbn [mbind R_bind] in Hstep;
      [by apply reaches_fails | |].
    + exists (mkInterp ifs calls loops pc u), (pc + 1), pc.
      split; [apply rtc_refl|]. split; [exact Hstep | done].
    + apply rtc_once. unfold goes. rewrite Hstep. by apply (after_next _ _ _ _ _ _ Hi).
Qed.

End Simulation.

Lemma run_goes exp2f log2f s st st' : rtc (goes exp2f log2f s) st st' ->
  exists n, forall m, run exp2f log2f s (n + m) st = run exp2f log2f s m st'.
Proof.
  induction 1 as [st | st1 st2 st3 H1 H2 [n IH]]; [by exists O|].
  exists (S n). intros m. cbn [run Nat.add]. unfold goes in H1. rewrite H1. apply IH.
Qed.

(** Where a program ends: at an END instruction, or past the program memory. *)
Definition ends_at (s : ShaderSetup) (pc : Z) : Prop :=
  4095 <= pc < 65536 \/
  exists instr, instr_at s pc instr /\ OpCode.Id_of (opcode instr) = Some OpCode.END.

Lemma step_end exp2f log2f s pc u : (128 <= length (swizzle_data s))%nat -> ends_at s pc ->
  step exp2f log2f s (mkInterp [] [] [] pc u) = inr (mkInterp [] [] [] (u32 (pc + 1)) u, true).
Proof.
  intros Hsw Hend.
  assert (Hf : exists instr, fetch s pc = inr instr /\
                 OpCode.Id_of (opcode instr) = Some OpCode.END).
  { destruct Hend as [Hpc | (instr & [Hpc Hi] & Hid)]; unfold fetch;
      change (MAX_PROGRAM_CODE_LENGTH - 1) with 4095; zdecide.
    - eexists. split; reflexivity.
    - exists instr. split; [|done]. unfold get. zdecide. by rewrite Hi. }
  destruct Hf as (instr & Hf & Hid).
  destruct (get_at (GetSwizzleData s) (Common.operand_desc_id instr)) as [w0 Hw].
  { unfold GetSwizzleData, Common.operand_desc_id. field_bounds. lia. }
  unfold step. cbn [program_counter]. rewrite Hf. cbn [mbind R_bind]. rewrite Hw. cbn [mbind R_bind].
  pose proof (control_type _ _ Hid (bool_decide_unpack _ (I : Is_true (bool_decide (OpCode.END ∈ control))))) as Ht.
  unfold execute. rewrite Hid.
  destruct (fst (OpCode.GetInfo (opcode instr))); try discriminate Ht; reflexivity.
Qed.

(** C9: A structured program of the shader runs to its end, within some number of
    instructions that does not depend on the fuel, with the effect of its direct
    semantics [sem]: IF, nested LOOP with the count of its integer uniform, CALL,
    conditional or not, and BREAK; or it fails with the failure of [sem].  [code_at]
    asks that scopes are nested, within the limits of the three stacks, that no two of
    them end at the same instruction and that an IF or a subroutine is not left by a
    break. *)
Theorem RunInterpreter_structured exp2f log2f s c pc' u :
  (128 <= length (swizzle_data s))%nat ->
  Forall (fun v => is_u8 (x v) /\ is_u8 (y v)) (uniforms_i (uniforms s)) ->
  code_at s no_scopes (entry_point s) c pc' -> ends_at s pc' ->
  exists n, forall fuel, (n <= fuel)%nat ->
  RunInterpreter exp2f log2f s fuel u =
    match sem exp2f log2f s false c u with
    | inr (u', _) => Finished u'
    | inl e => Fault e
    end.
Proof.
  intros Hsw Hb Hat Hend.
  assert (Hr := sem_reaches exp2f log2f s Hsw Hb _ _ _ _ Hat [] [] [] u
    ltac:(by split) ltac:(done)).
  cbn [is_nested] in Hr. unfold RunInterpreter.
  destruct (sem exp2f log2f s false c u) as [e|[u' b]] eqn:E.
  - destruct Hr as (st1 & H1 & H2). destruct (run_goes _ _ _ _ _ H1) as [n Hn].
    exists (n + 1)%nat. intros fuel Hfuel.
    replace fuel with (n + S (fuel - n - 1))%nat by lia. rewrite Hn. cbn [run]. by rewrite H2.
  - rewrite (sem_unbroken _ _ _ _ _ _ _ Hat eq_refl _ _ _ _ E) in Hr.
    destruct (run_goes _ _ _ _ _ Hr) as [n Hn].
    exists (n + 1)%nat. intros fuel Hfuel.
    replace fuel with (n + S (fuel - n - 1))%nat by lia. rewrite Hn. cbn [run].
    by rewrite (step_end exp2f log2f s pc' u' Hsw Hend).
Qed.
