(* ===== verification/ShaderSafe.v ===== *)
(** * ShaderSafe: the interpreter stays inside its arrays

    For any program, jumps and unbalanced scopes included: every access of the
    interpreter is inside its array, the stacks keep their limits, the loop counter
    does not overflow, and the only failures are the assertions on the program and the
    conversion of a value that does not fit. *)
From Stdlib Require Import SpecFloat.
From stdpp Require Import list.
From S2P Require Import Prelude PicaFloat ShaderBytecode Shader.

Local Open Scope Z_scope.

(** ** Safe computations *)

(** The failures that a program can cause. *)
Definition program_fault (e : fault) : Prop :=
  match e with
  | IfStackOverflow | CallStackOverflow | LoopStackOverflow
  | EmitOnVertexShader | EmitVertexId | UnhandledArithmetic | CastOverflow => True
  | InvalidEntryPoint | InvalidUniformIndex | InvalidConfiguration | OutOfBounds => False
  end.

Definition safe {A} (P : A -> Prop) (m : R A) : Prop :=
  match m with inl e => program_fault e | inr a => P a end.

Lemma safe_ret {A} (P : A -> Prop) a : P a -> safe P (inr a).
Proof. done. Qed.

Lemma safe_bind {A B} (Q : A -> Prop) (P : B -> Prop) (m : R A) (f : A -> R B) :
  safe Q m -> (forall a, Q a -> safe P (f a)) -> safe P (m ≫= f).
Proof. destruct m; simpl; auto. Qed.

Lemma safe_weaken {A} (Q P : A -> Prop) (m : R A) :
  safe Q m -> (forall a, Q a -> P a) -> safe P m.
Proof. destruct m; simpl; auto. Qed.

Lemma safe_get {A} (l : list A) i : 0 <= i < Z.of_nat (length l) ->
  safe (fun a => l !! Z.to_nat i = Some a) (get l i).
Proof.
  intros Hi. unfold get. zdecide.
  destruct (lookup_lt_is_Some_2 l (Z.to_nat i) ltac:(lia)) as [a Ha]. rewrite Ha. done.
Qed.

Lemma safe_put {A} (l : list A) i v : 0 <= i < Z.of_nat (length l) ->
  safe (fun l' => l' = <[Z.to_nat i := v]> l) (put l i v).
Proof. intros Hi. eapply safe_bind; [by apply safe_get | done]. Qed.

Lemma safe_assert b e : program_fault e -> safe (fun _ => b = true) (assert b e).
Proof. by destruct b. Qed.

(** ** Well-formed setups and units *)

Record wf_setup (s : ShaderSetup) : Prop := {
  wf_code : length (program_code s) = 4096%nat;
  wf_fixup : length (program_code_fixup s) = 4096%nat;
  wf_swizzle : length (swizzle_data s) = 4096%nat;
  wf_f : length (uniforms_f (uniforms s)) = 96%nat;
  wf_b : length (uniforms_b (uniforms s)) = 16%nat;
  wf_i : length (uniforms_i (uniforms s)) = 4%nat;
  wf_bytes : Forall (fun v => is_u8 (x v) /\ is_u8 (y v) /\ is_u8 (z v)) (uniforms_i (uniforms s)) }.

Record wf_emitter (e : GeometryEmitter) : Prop := {
  wf_vertex_id : 0 <= vertex_id e;
  wf_mask : is_u16 (output_mask e);
  wf_buffers : length (buffer e) = 3%nat;
  wf_buffer : Forall (fun v => length v = 16%nat) (buffer e) }.

(** The loop counter is bounded by what its loop has left to add. *)
Record wf_unit (u : ShaderUnit) : Prop := {
  wf_address : length (address_registers u) = 3%nat;
  wf_cc : length (conditional_code u) = 2%nat;
  wf_input : length (input u) = 16%nat;
  wf_temporary : length (temporary u) = 16%nat;
  wf_output : length (output u) = 16%nat;
  wf_emit : forall e, emitter_ptr u = Some e -> wf_emitter e }.

Definition loop_counter (u : ShaderUnit) : Z := default 0 (address_registers u !! 2%nat).

(** ** Emitting *)

Lemma BitSet_bits_u16 mask : is_u16 mask ->
  (length (BitSet_bits mask) <= 16)%nat /\ Forall (fun i => 0 <= i < 16) (BitSet_bits mask).
Proof.
  intros Hm. unfold BitSet_bits.
  assert (Hhigh : forall i, 16 <= i -> Z.testbit mask i = false).
  { intros i Hi. destruct (decide (mask = 0)) as [->|H0]; [apply Z.testbit_0_l|].
    apply Z.bits_above_log2; [unfold is_u16 in Hm; lia|].
    enough (Z.log2 mask < 16) by lia. apply Z.log2_lt_pow2; unfold is_u16 in Hm; lia. }
  change 32 with (16 + 16). rewrite seqZ_app by lia. rewrite filter_app.
  assert (Hnil : filter (fun i => Z.testbit mask i = true) (seqZ (0 + 16) 16) = []).
  { apply elem_of_nil_inv. intros i [Hi Hin%elem_of_seqZ]%list_elem_of_filter.
    rewrite Hhigh in Hi by lia. done. }
  rewrite Hnil, app_nil_r. split.
  - etrans; [apply length_filter|]. done.
  - apply Forall_forall. intros i [_ Hi%elem_of_seqZ]%list_elem_of_filter. lia.
Qed.

Lemma safe_copy_outputs regs bits out buf : length regs = 16%nat -> length buf = 16%nat ->
  Forall (fun i => 0 <= i < 16) bits -> 0 <= out -> out + Z.of_nat (length bits) <= 16 ->
  safe (fun b => length b = 16%nat) (copy_outputs regs bits out buf).
Proof.
  intros Hregs Hbuf Hbits. revert out buf Hbuf.
  induction Hbits as [|reg bits Hreg Hbits IH]; intros out buf Hbuf Hout Hlen; [done|].
  cbn [copy_outputs length] in *.
  eapply safe_bind; [apply safe_get; lia|]. intros v _.
  eapply safe_bind; [apply safe_put; lia|]. intros buf' ->.
  apply IH; [by rewrite length_insert | lia | lia].
Qed.

Lemma safe_Emit e regs : wf_emitter e -> length regs = 16%nat -> safe wf_emitter (Emit e regs).
Proof.
  intros [Hv Hm Hl Hb] Hregs. unfold Emit.
  eapply safe_bind; [by apply safe_assert|]. intros _ Hlt%Z.ltb_lt.
  eapply safe_bind; [apply safe_get; lia|]. intros old Hold.
  destruct (BitSet_bits_u16 (output_mask e) Hm) as [Hlen Hbits].
  eapply safe_bind.
  { apply (safe_copy_outputs _ _ _ _ Hregs); [|done|lia|lia].
    eapply Forall_lookup_1 in Hb; [|exact Hold]. done. }
  intros new Hnew. eapply safe_bind; [apply safe_put; lia|]. intros bufs ->.
  split; simpl; [lia | done | by rewrite length_insert |].
  apply Forall_insert; [done | simpl; done].
Qed.

(** ** Instructions that go straight on *)

(** The unit stays well-formed and its loop counter stays as it is. *)
Definition keeps (u u' : ShaderUnit) : Prop := wf_unit u' /\ loop_counter u' = loop_counter u.

(** The assignments to the parts of a unit. *)
Ltac keeps_tac :=
  intros [H1 H2 H3 H4 H5 H6] **; split; [split; simpl; auto | done].

Lemma keeps_conditional_code u l : wf_unit u -> length l = 2%nat -> keeps u (set_conditional_code l u).
Proof. keeps_tac. Qed.

Lemma keeps_temporary u l : wf_unit u -> length l = 16%nat -> keeps u (set_temporary l u).
Proof. keeps_tac. Qed.

Lemma keeps_output u l : wf_unit u -> length l = 16%nat -> keeps u (set_output l u).
Proof. keeps_tac. Qed.

Lemma keeps_emitter u e : wf_unit u -> wf_emitter e -> keeps u (set_emitter e u).
Proof. intros [H1 H2 H3 H4 H5 H6] He. split; [split; simpl; auto; by intros ? [= <-] | done]. Qed.

Section Safe.
Variables exp2f log2f : spec_float -> spec_float.
Variable s : ShaderSetup.
Hypothesis Hs : wf_setup s.

Lemma safe_Lookup u r a : wf_unit u -> 0 <= r < 128 -> 0 <= a < 4 ->
  safe (fun _ => True) (LookupSourceRegister (uniforms s) u r a).
Proof.
  intros Hu Hr Ha. unfold LookupSourceRegister, SourceRegister.GetIndex, SourceRegister.GetRegisterType.
  pose proof (wf_input _ Hu). pose proof (wf_temporary _ Hu). pose proof (wf_f _ Hs).
  pose proof (wf_address _ Hu).
  destruct (Z.ltb_spec r 16).
  { eapply safe_weaken; [apply safe_get; lia | done]. }
  destruct (Z.ltb_spec r 32).
  { eapply safe_weaken; [apply safe_get; lia | done]. }
  destruct (Z.eqb_spec a 0) as [->|Ha0]; simpl negb; cbn match.
  { eapply safe_weaken; [apply safe_get; lia | done]. }
  eapply safe_bind; [apply safe_get; lia|]. intros off _. cbv zeta.
  set (i := Z.land _ 127).
  assert (Hi : 0 <= i < 128).
  { unfold i. change 127 with (Z.ones 7). rewrite Z.land_ones by lia. apply Z.mod_pos_bound. lia. }
  destruct (Z.leb_spec 96 i); [done|]. eapply safe_weaken; [apply safe_get; lia | done].
Qed.

Lemma safe_write_dest d swizzle val u : wf_unit u -> 0 <= d < 32 ->
  safe (keeps u) (write_dest d swizzle val u).
Proof.
  intros Hu Hd. unfold write_dest, DestRegister.GetIndex, DestRegister.GetRegisterType.
  pose proof Hu as [H1 H2 H3 H4 H5 H6].
  destruct (Z.ltb_spec d 16); cbn match.
  - eapply safe_bind; [apply safe_get; lia|]. intros old _.
    eapply safe_bind; [apply safe_put; lia|]. intros l ->.
    apply keeps_output; [done | by rewrite length_insert].
  - rewrite (proj2 (Z.ltb_lt d 32)) by lia.
    eapply safe_bind; [apply safe_get; lia|]. intros old _.
    eapply safe_bind; [apply safe_put; lia|]. intros l ->.
    apply keeps_temporary; [done | by rewrite length_insert].
Qed.

Lemma safe_mova i v u : wf_unit u -> 0 <= i < 2 -> safe (keeps u) (mova i v u).
Proof.
  intros Hu Hi. unfold mova. destruct (f32_to_s32 v) as [n|]; [|done].
  pose proof Hu as [H1 H2 H3 H4 H5 H6].
  eapply safe_bind; [apply safe_put; lia|]. intros l ->. split.
  - split; simpl; try done. by rewrite length_insert.
  - unfold loop_counter. simpl. rewrite list_lookup_insert_ne by lia. done.
Qed.

Lemma keeps_refl u : wf_unit u -> keeps u u.
Proof. by split. Qed.

Lemma keeps_trans u1 u2 u3 : keeps u1 u2 -> keeps u2 u3 -> keeps u1 u3.
Proof. intros [_ H2] [H3 H4]. split; [done | congruence]. Qed.

Lemma safe_swizzle i : 0 <= i < 4096 -> safe (fun _ => True) (get (GetSwizzleData s) i).
Proof.
  intros Hi. pose proof (wf_swizzle _ Hs). unfold GetSwizzleData.
  eapply safe_weaken; [apply safe_get; lia | done].
Qed.

(** The operand fields name registers that exist. *)
Lemma Common_src_range b instr :
  0 <= Common.GetSrc1 b instr < 128 /\ 0 <= Common.GetSrc2 b instr < 128.
Proof. unfold Common.GetSrc1, Common.GetSrc2. field_bounds. destruct b; simpl; lia. Qed.

Lemma Mad_src_range b instr : 0 <= Mad.GetSrc1 b instr < 128 /\
  0 <= Mad.GetSrc2 b instr < 128 /\ 0 <= Mad.GetSrc3 b instr < 128.
Proof. unfold Mad.GetSrc1, Mad.GetSrc2, Mad.GetSrc3. field_bounds. destruct b; simpl; lia. Qed.

Lemma safe_arithmetic instr u : wf_unit u -> safe (keeps u) (exec_arithmetic exp2f log2f s instr u).
Proof.
  intros Hu. unfold exec_arithmetic. pose proof Hu as [H1 H2 H3 H4 H5 H6].
  set (inv := snd (OpCode.GetInfo (opcode instr))).
  destruct (Common_src_range inv instr) as [Hr1 Hr2].
  assert (Ha : 0 <= Common.address_register_index instr < 4).
  { unfold Common.address_register_index. field_bounds. lia. }
  assert (Hd : 0 <= Common.dest instr < 32) by (unfold Common.dest; field_bounds; lia).
  eapply safe_bind; [apply safe_swizzle; unfold Common.operand_desc_id; field_bounds; lia|].
  intros swizzle _. cbv zeta.
  eapply safe_bind; [apply safe_Lookup; [done | done | destruct inv; lia]|]. intros src1_ _.
  eapply safe_bind; [apply safe_Lookup; [done | done | destruct inv; lia]|]. intros src2_ _.
  set (src1 := swizzle_source src1_ _ _). set (src2 := swizzle_source src2_ _ _).
  destruct (OpCode.EffectiveOpCode (opcode instr)) as [op|]; [|done].
  assert (Hres : forall r, safe (keeps u)
    (match r with Some val => write_dest (Common.dest instr) swizzle val u
                | None => inl UnhandledArithmetic end)).
  { intros [val|]; [by apply safe_write_dest | done]. }
  destruct op; try apply Hres.
  - apply safe_bind with (Q := keeps u).
    + destruct (SwizzlePattern.DestComponentEnabled 0 swizzle); [|by apply keeps_refl].
      by apply safe_mova.
    + intros u1 Hu1. destruct (SwizzlePattern.DestComponentEnabled 1 swizzle); [|exact Hu1].
      eapply safe_weaken; [by apply safe_mova; [apply Hu1|]|]. intros u2. by apply keeps_trans.
  - eapply safe_bind; [apply safe_get; lia|]. intros old0 _.
    eapply safe_bind; [apply safe_put; lia|]. intros l ->.
    eapply safe_bind; [apply safe_get; rewrite length_insert; lia|]. intros old1 _.
    eapply safe_bind; [apply safe_put; rewrite length_insert; lia|]. intros l ->.
    apply keeps_conditional_code; [done | by rewrite !length_insert].
Qed.

Lemma safe_mad instr u : wf_unit u -> safe (keeps u) (exec_mad s instr u).
Proof.
  intros Hu. unfold exec_mad. cbv zeta.
  destruct (_ || _); [|by apply keeps_refl].
  set (inv := bool_decide _).
  destruct (Mad_src_range inv instr) as (Hr1 & Hr2 & Hr3).
  assert (Ha : 0 <= Mad.address_register_index instr < 4).
  { unfold Mad.address_register_index. field_bounds. lia. }
  assert (Hd : 0 <= Mad.dest instr < 32) by (unfold Mad.dest; field_bounds; lia).
  eapply safe_bind; [apply safe_swizzle; unfold Mad.operand_desc_id; field_bounds; lia|].
  intros swizzle _.
  eapply safe_bind; [apply safe_Lookup; [done | done | lia]|]. intros src1_ _.
  eapply safe_bind; [apply safe_Lookup; [done | done | destruct inv; lia]|]. intros src2_ _.
  eapply safe_bind; [apply safe_Lookup; [done | done | destruct inv; lia]|]. intros src3_ _.
  by apply safe_write_dest.
Qed.

Lemma safe_straight instr u : wf_unit u -> safe (keeps u) (exec_straight exp2f log2f s instr u).
Proof.
  intros Hu. unfold exec_straight. pose proof Hu as [H1 H2 H3 H4 H5 H6].
  assert (Hother : safe (keeps u)
    match OpCode.Id_of (opcode instr) with
    | Some OpCode.EMIT => exec_emit u
    | Some OpCode.SETEMIT => exec_setemit instr u
    | _ => inr u
    end).
  { destruct (OpCode.Id_of (opcode instr)) as [[]|]; try (by apply keeps_refl).
    - unfold exec_emit. destruct (emitter_ptr u) as [e|] eqn:E; [|done].
      eapply safe_bind; [by apply safe_Emit; [apply H6|]|]. intros e' He'.
      by apply keeps_emitter.
    - unfold exec_setemit. destruct (emitter_ptr u) as [e|] eqn:E; [|done].
      apply keeps_emitter; [done|].
      assert (Hv : 0 <= Setemit.vertex_id instr) by (unfold Setemit.vertex_id; field_bounds; lia).
      by destruct (H6 e eq_refl). }
  destruct (fst (OpCode.GetInfo (opcode instr)));
    [exact Hother | by apply safe_arithmetic | exact Hother.. | by apply safe_mad | exact Hother].
Qed.

(** ** The state of the interpreter *)

Definition wf_loop (l : LoopStackElement) : Prop :=
  is_u32 (entry_address l) /\ is_u32 (loop_end_address l) /\
  is_u8 (loop_downcounter l) /\ is_u8 (address_increment l) /\ is_u8 (previous_aL l).

(** The loop counter and what the innermost loop has left to add stay in 16 bits. *)
Definition counter_ok (loops : list LoopStackElement) (c : Z) : Prop :=
  0 <= c <= 65535 /\
  match loops with
  | [] => True
  | l :: _ => c + (loop_downcounter l + 1) * address_increment l <= 65535
  end.

Record wf_state (st : InterpState) : Prop := {
  ws_unit : wf_unit (shader_unit st);
  ws_ifs : (length (if_stack st) <= IF_STACK_LIMIT)%nat;
  ws_calls : (length (call_stack st) <= CALL_STACK_LIMIT)%nat;
  ws_loops : (length (loop_stack st) <= LOOP_STACK_LIMIT)%nat;
  ws_pc : is_u32 (program_counter st);
  ws_if : Forall (fun e => is_u32 (if_end_address e)) (if_stack st);
  ws_call : Forall (fun e => is_u32 (return_address e)) (call_stack st);
  ws_loop : Forall wf_loop (loop_stack st);
  ws_counter : counter_ok (loop_stack st) (loop_counter (shader_unit st)) }.

Lemma safe_aL u : wf_unit u -> safe (fun v => v = loop_counter u) (aL u).
Proof.
  intros Hu. pose proof (wf_address _ Hu). unfold aL.
  eapply safe_weaken; [apply safe_get; lia|]. intros a Ha. unfold loop_counter.
  change (Z.to_nat 2) with 2%nat in Ha. by rewrite Ha.
Qed.

Lemma safe_set_aL v u : wf_unit u ->
  safe (fun u' => wf_unit u' /\ loop_counter u' = v) (set_aL v u).
Proof.
  intros Hu. pose proof (wf_address _ Hu). destruct Hu as [H1 H2 H3 H4 H5 H6].
  eapply safe_bind; [apply safe_put; lia|]. intros l ->. split.
  - split; simpl; auto. by rewrite length_insert.
  - unfold loop_counter. simpl. change (Z.to_nat 2) with 2%nat.
    rewrite list_lookup_insert_eq by lia. done.
Qed.

Lemma wf_set_pc pc st : wf_state st -> is_u32 pc -> wf_state (set_pc pc st).
Proof. intros [] Hpc. by split. Qed.

Lemma wf_set_unit u st : wf_state st -> wf_unit u -> loop_counter u = loop_counter (shader_unit st) ->
  wf_state (set_unit u st).
Proof. intros [] Hu Hc. split; simpl; rewrite ?Hc; done. Qed.

Lemma before_dest_u32 instr : is_u32 (before_dest instr).
Proof. apply u32_range. Qed.

Lemma safe_do_if instr c st : wf_state st -> safe wf_state (do_if instr c st).
Proof.
  intros Hst. unfold do_if. destruct c; [|by apply wf_set_pc; [|apply before_dest_u32]].
  eapply safe_bind; [by apply safe_assert|]. intros _ Hlt%bool_decide_eq_true.
  destruct Hst. split; simpl; try done. constructor; [apply u32_range | done].
Qed.

Lemma safe_do_call instr st : wf_state st -> safe wf_state (do_call instr st).
Proof.
  intros Hst. unfold do_call.
  eapply safe_bind; [by apply safe_assert|]. intros _ Hlt%bool_decide_eq_true.
  destruct Hst. split; simpl; try done; [apply u32_range|].
  constructor; [apply u32_range | done].
Qed.

Lemma safe_test instr u : wf_unit u -> safe (fun _ => True) (evaluate_condition instr u).
Proof.
  intros Hu. pose proof (wf_cc _ Hu). unfold evaluate_condition.
  eapply safe_bind; [apply safe_get; lia|]. intros cx _.
  eapply safe_bind; [apply safe_get; lia|]. done.
Qed.

Lemma safe_bool_uniform instr :
  safe (fun _ => True) (get (uniforms_b (uniforms s)) (FlowControl.bool_uniform_id instr)).
Proof.
  pose proof (wf_b _ Hs). eapply safe_weaken; [apply safe_get|done].
  unfold FlowControl.bool_uniform_id. field_bounds. lia.
Qed.

(** LOOP: the handler and [do_loop]. *)
Lemma safe_loop instr st : wf_state st ->
  safe wf_state
    (loop_param ← get (uniforms_i (uniforms s)) (FlowControl.int_uniform_id instr);
     u ← set_aL (y loop_param) (shader_unit st);
     do_loop instr loop_param (set_unit u st)).
Proof.
  intros Hst. pose proof (wf_i _ Hs) as Hi.
  eapply safe_bind.
  { apply safe_get. unfold FlowControl.int_uniform_id. field_bounds. lia. }
  intros p Hp. eapply Forall_lookup_1 in Hp; [|exact (wf_bytes _ Hs)].
  destruct Hp as (Hx & Hy & Hz). unfold is_u8 in *.
  eapply safe_bind; [apply safe_set_aL, Hst|]. intros u1 [Hu1 Hc1].
  eapply safe_bind; [by apply safe_aL|]. intros prev _.
  eapply safe_bind; [by apply safe_assert|]. intros _ Hlt%bool_decide_eq_true.
  eapply safe_bind; [by apply safe_set_aL|]. intros u2 [Hu2 Hc2].
  destruct Hst. split; simpl in *; try done.
  - constructor; [|done]. split_and!; simpl; [apply u32_range..| | |]; try done.
    apply u8_range.
  - rewrite Hc2. split; [lia|]. simpl. nia.
Qed.

Definition wf_result (r : InterpState * signal) : Prop := wf_state (fst r).

Lemma safe_continue (m : R InterpState) sig :
  safe wf_state m -> safe wf_result (st ← m; inr (st, sig)).
Proof. intros H. eapply safe_bind; [exact H | done]. Qed.

Lemma safe_jump c instr st : wf_state st -> wf_state (jump_if c instr st).
Proof. intros Hst. destruct c; [|done]. apply wf_set_pc; [done | apply before_dest_u32]. Qed.

Lemma safe_execute instr st : wf_state st -> safe wf_result (execute exp2f log2f s instr st).
Proof.
  intros Hst. unfold execute. cbv zeta.
  assert (Hstraight : safe wf_result
    (u ← exec_straight exp2f log2f s instr (shader_unit st); inr (set_unit u st, Continue))).
  { eapply safe_bind; [by apply safe_straight, Hst|]. intros u [Hu Hc].
    by apply wf_set_unit. }
  assert (Hother : safe wf_result
    match OpCode.Id_of (opcode instr) with
    | Some OpCode.END => inr (st, Stop)
    | Some OpCode.JMPC =>
        c ← evaluate_condition instr (shader_unit st); inr (jump_if c instr st, Continue)
    | Some OpCode.JMPU =>
        c ← get (uniforms_b (uniforms s)) (FlowControl.bool_uniform_id instr);
        inr (jump_if (Bool.eqb c (negb (Z.testbit (FlowControl.num_instructions instr) 0)))
               instr st, Continue)
    | Some OpCode.CALL => st ← do_call instr st; inr (st, Continue)
    | Some OpCode.CALLU =>
        c ← get (uniforms_b (uniforms s)) (FlowControl.bool_uniform_id instr);
        st ← if (c : bool) then do_call instr st else inr st; inr (st, Continue)
    | Some OpCode.CALLC =>
        c ← evaluate_condition instr (shader_unit st);
        st ← if (c : bool) then do_call instr st else inr st; inr (st, Continue)
    | Some OpCode.IFU =>
        c ← get (uniforms_b (uniforms s)) (FlowControl.bool_uniform_id instr);
        st ← do_if instr c st; inr (st, Continue)
    | Some OpCode.IFC =>
        c ← evaluate_condition instr (shader_unit st);
        st ← do_if instr c st; inr (st, Continue)
    | Some OpCode.LOOP =>
        loop_param ← get (uniforms_i (uniforms s)) (FlowControl.int_uniform_id instr);
        u ← set_aL (y loop_param) (shader_unit st);
        st ← do_loop instr loop_param (set_unit u st); inr (st, Continue)
    | Some OpCode.BREAK => inr (st, Break)
    | Some OpCode.BREAKC =>
        c ← evaluate_condition instr (shader_unit st);
        inr (st, if (c : bool) then Break else Continue)
    | _ => u ← exec_straight exp2f log2f s instr (shader_unit st); inr (set_unit u st, Continue)
    end).
  { destruct (OpCode.Id_of (opcode instr)) as [[]|];
      repeat lazymatch goal with
      | |- safe _ (exec_straight _ _ _ _ _ ≫= _) => exact Hstraight
      | |- safe _ (evaluate_condition _ _ ≫= _) =>
          eapply safe_bind; [by apply safe_test, Hst|]; intros c _
      | |- safe _ (get (uniforms_b _) _ ≫= _) =>
          eapply safe_bind; [apply safe_bool_uniform|]; intros c _
      | |- safe _ (inr (jump_if _ _ _, _)) => by apply safe_jump
      | |- safe _ (inr (st, _)) => exact Hst
      | |- safe _ (do_call _ _ ≫= _) => by apply safe_continue, safe_do_call
      | |- safe _ (do_if _ _ _ ≫= _) => by apply safe_continue, safe_do_if
      | |- safe _ ((if _ then _ else _) ≫= _) =>
          apply safe_continue; destruct c; [by apply safe_do_call | exact Hst]
      end.
    pose proof (safe_loop instr st Hst) as Hl. revert Hl.
    destruct (get _ (FlowControl.int_uniform_id instr)) as [e|p]; cbn [mbind R_bind];
      [exact id|].
    destruct (set_aL _ _) as [e|u]; cbn [mbind R_bind]; [exact id | apply safe_continue]. }
  destruct (fst (OpCode.GetInfo (opcode instr)));
    [exact Hother | exact Hstraight | exact Hother.. | exact Hstraight | exact Hother].
Qed.

(** ** Ending scopes *)

Lemma wf_set_calls c rest st : call_stack st = c :: rest -> wf_state st -> wf_state (set_calls rest st).
Proof.
  intros E Hst. pose proof (ws_call _ Hst) as Hc. pose proof (ws_calls _ Hst) as Hl.
  rewrite E in Hc, Hl. apply Forall_cons in Hc as [_ Hc]. destruct Hst.
  split; simpl in *; try done. lia.
Qed.

Lemma wf_close_calls i next st : wf_state st -> wf_state (close_calls i next st).
Proof.
  revert next st. induction i as [|i IH]; intros next st Hst; [done|]. cbn [close_calls].
  destruct (call_stack st) as [|c rest] eqn:E; [done|].
  destruct (negb _); [done|]. pose proof (ws_call _ Hst) as Hc. rewrite E in Hc.
  apply Forall_cons in Hc as [Hr _].
  destruct i; [by eapply wf_set_calls | apply IH].
  eapply wf_set_calls; [|by apply wf_set_pc]. done.
Qed.

Lemma wf_close_if next st : wf_state st -> wf_state (close_if next st).
Proof.
  intros Hst. unfold close_if. destruct (if_stack st) as [|e rest] eqn:E; [done|].
  destruct (_ =? _); [|done]. pose proof (ws_if _ Hst) as Hi. pose proof (ws_ifs _ Hst) as Hl.
  rewrite E in Hi, Hl. apply Forall_cons in Hi as [He Hrest]. destruct Hst.
  split; simpl in *; try done. lia.
Qed.

Lemma safe_close_loop next is_break st : wf_state st ->
  safe wf_state (close_loop next is_break st).
Proof.
  intros Hst. unfold close_loop. destruct (loop_stack st) as [|l rest] eqn:E; [done|].
  destruct (_ || _); [|done].
  pose proof (ws_loop _ Hst) as Hls. pose proof (ws_loops _ Hst) as Hlen.
  pose proof (ws_counter _ Hst) as [Hc Hcl]. rewrite E in Hls, Hlen, Hcl.
  apply Forall_cons in Hls as [(He & Hend & Hd & Hi & Hp) Hrest].
  unfold is_u8 in *. simpl length in Hlen.
  eapply safe_bind; [apply safe_aL, Hst|]. intros old ->.
  eapply safe_bind; [apply safe_set_aL, Hst|]. intros u1 [Hu1 Hc1].
  destruct (negb is_break && negb (loop_downcounter l =? 0)) eqn:Eb; [|].
  - apply andb_true_iff in Eb as [_ Hn]. zbool.
    destruct Hst. split; simpl in *; try done.
    + constructor; [|done]. split_and!; simpl; try done. apply u8_range.
    + rewrite Hc1, u8_small by (unfold is_u8; lia). split; [nia|]. simpl. nia.
  - apply safe_bind with (Q := fun u => wf_unit u /\ counter_ok rest (loop_counter u)).
    + destruct rest as [|l2 rest].
      * rewrite bool_decide_eq_false_2 by (simpl; lia). split; [done|].
        rewrite Hc1. split; [nia | done].
      * rewrite bool_decide_eq_true_2 by (simpl; lia).
        eapply safe_weaken; [by apply safe_set_aL|]. intros u2 [Hu2 Hc2]. split; [done|].
        rewrite Hc2. apply Forall_cons in Hrest as [(_ & _ & Hd2 & Hi2 & _) _].
        unfold is_u8 in *. split; [lia | simpl; nia].
    + intros u2 [Hu2 Hc2]. destruct Hst. split; simpl in *; try done. lia.
Qed.

Lemma wf_fetch pc : is_u32 pc -> safe (fun _ => True) (fetch s pc).
Proof.
  intros Hpc. unfold fetch. change (MAX_PROGRAM_CODE_LENGTH - 1) with 4095.
  destruct (Z.ltb_spec pc 4095); [|done]. unfold is_u32 in Hpc.
  pose proof (wf_code _ Hs). pose proof (wf_fixup _ Hs).
  eapply safe_weaken; [apply safe_get | done]. unfold GetProgramCode. destruct (has_fixup s); lia.
Qed.

Lemma safe_step st : wf_state st ->
  safe (fun r => wf_state (fst r)) (step exp2f log2f s st).
Proof.
  intros Hst. unfold step. cbv zeta.
  eapply safe_bind; [apply wf_fetch, Hst|]. intros instr _.
  eapply safe_bind.
  { apply safe_swizzle. unfold Common.operand_desc_id. field_bounds. lia. }
  intros _ _. eapply safe_bind; [by apply safe_execute|]. intros [st1 sig] H1.
  unfold wf_result in H1. cbn [fst] in H1.
  eapply safe_bind; [|intros st2 H2; exact H2].
  apply safe_close_loop, wf_close_if, wf_close_calls, wf_set_pc; [done | apply u32_range].
Qed.

Lemma run_safe fuel st : wf_state st ->
  match run exp2f log2f s fuel st with
  | OutOfFuel => True
  | Fault e => program_fault e
  | Finished u => wf_unit u /\ 0 <= loop_counter u <= 65535
  end.
Proof.
  revert st. induction fuel as [|fuel IH]; intros st Hst; [done|]. cbn [run].
  pose proof (safe_step st Hst) as H.
  destruct (step exp2f log2f s st) as [e|[st1 []]]; [exact H | | apply IH, H].
  split; [apply H | apply (ws_counter _ H)].
Qed.

End Safe.

(** C25: Whatever the program (jumps into and out of scopes, unbalanced scopes, missing
    END), running it on a well-formed setup and unit never reads or writes outside an
    array; it can only fail by the limits of the three stacks, EMIT without an emitter or
    with vertex 3, an arithmetic opcode that is not handled, and MOVA of a value that
    does not fit; when it finishes the unit is well-formed and the loop counter, an
    [s32] that is only added to, is at most 65535. *)
Theorem RunInterpreter_safe exp2f log2f s fuel u :
  wf_setup s -> is_u16 (entry_point s) -> wf_unit u -> 0 <= loop_counter u <= 65535 ->
  match RunInterpreter exp2f log2f s fuel u with
  | OutOfFuel => True
  | Fault e => program_fault e
  | Finished u' => wf_unit u' /\ 0 <= loop_counter u' <= 65535
  end.
Proof.
  intros Hs Hentry Hu Hc. apply run_safe; [done|].
  split; simpl; try done; try (by apply Nat.le_0_l). unfold is_u16, is_u32 in *. lia.
Qed.

