(* ===== verification/ShaderModel.v ===== *)
(** * ShaderModel: shaders run

    A small assembler and a shader with a loop in a loop, both branches of an IF and a
    subroutine: the theorems on the interpreter are applied to it. *)
From Stdlib Require Import SpecFloat.
From stdpp Require Import list.
From S2P Require Import Prelude BitField PicaFloat ShaderBytecode Shader ShaderUpload ShaderSafe ShaderFlow.

Local Open Scope Z_scope.

(** ** Encoding *)

Definition enc_flow (op uniform dest num : Z) : Z :=
  Z.lor (Z.lor (Z.shiftl op 26) (Z.shiftl uniform 22)) (Z.lor (Z.shiftl dest 10) num).
Definition enc_arith (op dest src1 src2 desc : Z) : Z :=
  Z.lor (Z.lor (Z.shiftl op 26) (Z.shiftl dest 21))
        (Z.lor (Z.lor (Z.shiftl src1 12) (Z.shiftl src2 7)) desc).

(** Every component, unchanged. *)
Definition plain_swizzle : Z :=
  Z.lor (Z.lor 15 (Z.lor (Z.shiftl 1 9) (Z.lor (Z.shiftl 2 7) (Z.shiftl 3 5))))
        (Z.lor (Z.shiftl 1 18) (Z.lor (Z.shiftl 2 16) (Z.shiftl 3 14))).

(** Registers: inputs from 0, temporaries from 16, float uniforms from 32. *)
Definition add (dest src1 src2 : Z) : Z := enc_arith 0 dest src1 src2 0.
Definition nop : Z := enc_flow 33 0 0 0.
Definition end_ : Z := enc_flow 34 0 0 0.
Definition loop_ (i dest : Z) : Z := enc_flow 41 i dest 0.
Definition ifu (b dest num : Z) : Z := enc_flow 39 b dest num.
Definition call (dest num : Z) : Z := enc_flow 36 0 dest num.
Definition break_ : Z := enc_flow 32 0 0 0.

(** ** A shader *)

Definition demo_words : list Z :=
  [ loop_ 0 7;            (* 0: twice *)
      ifu 0 3 1;          (* 1 *)
        add 16 32 16;     (* 2: r0 += c0 *)
        add 17 32 17;     (* 3: otherwise r1 += c0 *)
      call 9 1;           (* 4 *)
      loop_ 1 6;          (* 5: three times *)
        add 18 32 18;     (* 6: r2 += c0 *)
      nop;                (* 7 *)
    end_;                 (* 8 *)
    add 19 32 19 ].       (* 9: the subroutine, r3 += c0 *)

Definition demo_uniforms (b0 : bool) : Uniforms :=
  mkUniforms (replicate 96 (AssignToAll Float.One)) (b0 :: replicate 15 false)
    [MakeVec 1 0 1 0; MakeVec 2 5 1 0; MakeVec 0 0 0 0; MakeVec 0 0 0 0].

Definition setup_of (words : list Z) (u : Uniforms) : ShaderSetup :=
  let s := initial_setup u in
  set_swizzle_data (plain_swizzle :: replicate 4095 0) true 1
    (set_program_code (words ++ replicate (4096 - length words) 0) (Z.of_nat (length words)) s).

Definition demo (b0 : bool) : ShaderSetup := setup_of demo_words (demo_uniforms b0).

Definition unit0 : ShaderUnit :=
  mkShaderUnit [0; 0; 0] [false; false] (replicate 16 (AssignToAll Float.Zero))
    (replicate 16 (AssignToAll Float.Zero)) (replicate 16 (AssignToAll Float.Zero)) None.

(** The same shader, structured. *)
Definition demo_code : code :=
  Loop (loop_ 0 7)
    (Seq (If (ifu 0 3 1) Skip (add 16 32 16) (Straight (add 17 32 17)))
    (Seq (Call (call 9 1) Skip (add 19 32 19))
         (Loop (loop_ 1 6) Skip (add 18 32 18))))
    nop.

(** The value 2^k or a small sum of such. *)
Definition temporary_x (u : ShaderUnit) (i : nat) : option spec_float := x <$> temporary u !! i.

Example demo_runs : exists u, RunInterpreter (fun v => v) (fun v => v) (demo true) 100 unit0 = Finished u /\
  map (fun i => x <$> temporary u !! i) (seq 0 4) =
    [Some (S754_finite false 8388608 (-22)); Some (S754_zero false);
     Some (S754_finite false 12582912 (-21)); Some (S754_finite false 8388608 (-22))] /\
  address_registers u = [0; 0; 6].
Proof. eexists. split; [vm_compute; reflexivity | split; reflexivity]. Qed.

Lemma demo_length : (128 <= length (swizzle_data (demo true)))%nat.
Proof. apply Nat.leb_le. vm_compute. reflexivity. Qed.

Lemma demo_bytes b0 : Forall (fun v => is_u8 (x v) /\ is_u8 (y v)) (uniforms_i (uniforms (demo b0))).
Proof. repeat constructor; vm_compute; congruence. Qed.

(** The side conditions of [code_at], computed. *)
Ltac side :=
  lazymatch goal with
  | |- code_at _ _ _ _ _ => idtac
  | |- instr_at _ _ _ => split; [lia | vm_compute; reflexivity]
  | |- quiet _ _ => split_and!; vm_compute; congruence
  | |- (_ < _)%nat => apply Nat.ltb_lt; reflexivity
  | |- _ => first [reflexivity | vm_compute; congruence]
  end.

Lemma demo_code_at : code_at (demo true) no_scopes 0 demo_code 8.
Proof.
  apply (at_loop _ _ _ _ _ _ 7); side.
  apply at_seq with 4; [|apply at_seq with (4 + 1)].
  - apply (at_if _ _ _ (ifu 0 3 1) _ _ _ 3); side; [apply at_skip | apply (at_straight _ _ 3); side].
  - apply (at_call _ _ _ _ _ _ 9 10); side. apply at_skip.
  - apply (at_loop _ _ _ _ _ _ 6); side. apply at_skip.
Qed.

Lemma demo_ends : ends_at (demo true) 8.
Proof. right. exists end_. split; [side | reflexivity]. Qed.

(** The theorem applied to the shader: enough fuel gives three additions per outer round. *)
Lemma RunInterpreter_structured_witness :
  exists n, forall fuel, (n <= fuel)%nat -> exists u,
  RunInterpreter (fun v => v) (fun v => v) (demo true) fuel unit0 = Finished u /\
  address_registers u = [0; 0; 6] /\
  temporary_x u 2 = Some (S754_finite false 12582912 (-21)).
Proof.
  destruct (RunInterpreter_structured (fun v => v) (fun v => v) (demo true) demo_code 8 unit0
              demo_length (demo_bytes true) demo_code_at demo_ends) as [n Hn].
  exists n. intros fuel Hfuel. rewrite (Hn fuel Hfuel). eexists.
  split; [vm_compute; reflexivity | split; reflexivity].
Defined.

(** ** Safety *)

Lemma setup_of_wf words u : (length words <= 4096)%nat ->
  length (uniforms_f u) = 96%nat -> length (uniforms_b u) = 16%nat ->
  length (uniforms_i u) = 4%nat ->
  Forall (fun v => is_u8 (x v) /\ is_u8 (y v) /\ is_u8 (z v)) (uniforms_i u) ->
  wf_setup (setup_of words u).
Proof.
  intros Hw Hf Hb Hi Hbytes. split; [|exact (length_replicate 4096 0)| | done..].
  - change (length (words ++ replicate (4096 - length words) 0) = 4096%nat).
    rewrite length_app, length_replicate. lia.
  - change (S (length (replicate 4095 0)) = 4096%nat). by rewrite length_replicate.
Qed.

Lemma unit0_wf : wf_unit unit0.
Proof. by split. Qed.

(** A loop whose inner loop is left from the middle of an IF: each time an entry stays
    on the IF stack, and the ninth IF finds it full. *)
Definition leak_words : list Z :=
  [ loop_ 0 6;        (* 0: sixteen times *)
      loop_ 2 5;      (* 1: once *)
        ifu 0 5 0;    (* 2 *)
          break_;     (* 3 *)
          nop;        (* 4 *)
        nop;          (* 5 *)
      nop;            (* 6 *)
    end_ ].

Definition leak_uniforms : Uniforms :=
  mkUniforms (replicate 96 (AssignToAll Float.One)) (replicate 16 true)
    [MakeVec 15 0 1 0; MakeVec 0 0 0 0; MakeVec 0 0 1 0; MakeVec 0 0 0 0].

Example leak_aborts :
  RunInterpreter (fun v => v) (fun v => v) (setup_of leak_words leak_uniforms) 100 unit0 =
  Fault IfStackOverflow.
Proof. vm_compute. reflexivity. Qed.

Lemma leak_bytes :
  Forall (fun v => is_u8 (x v) /\ is_u8 (y v) /\ is_u8 (z v)) (uniforms_i leak_uniforms).
Proof. repeat constructor; vm_compute; congruence. Qed.

Lemma RunInterpreter_safe_witness :
  match RunInterpreter (fun v => v) (fun v => v) (setup_of leak_words leak_uniforms) 100 unit0 with
  | OutOfFuel => True
  | Fault e => program_fault e
  | Finished u' => wf_unit u' /\ 0 <= loop_counter u' <= 65535
  end.
Proof.
  apply RunInterpreter_safe.
  - apply setup_of_wf; [simpl; lia | reflexivity.. | exact leak_bytes].
  - vm_compute. split; congruence.
  - exact unit0_wf.
  - vm_compute. split; congruence.
Defined.

(** ** Uploads *)

(** The numbers 1.0 and -2.0, raw. *)
Definition raw_one : Z := 0x3F0000.
Definition raw_minus_two : Z := 0xC00000.

Lemma upload_uniforms_witness :
  exists reg' s', upload 94 (concat (pack24 <$> replicate 3 (MakeVec raw_one raw_minus_two 0 raw_one)))
                    (demo true) = inr (reg', s') /\
    uniform_index reg' = 96 /\
    uniforms_f (uniforms s') !! 95%nat =
      Some (MakeVec Float.One (S754_finite true 8388608 (-22)) Float.Zero Float.One).
Proof.
  destruct (upload_uniforms (replicate 3 (MakeVec raw_one raw_minus_two 0 raw_one)) 94 (demo true))
    as (reg' & s' & H1 & H2 & H3 & _).
  - reflexivity.
  - split; reflexivity.
  - reflexivity.
  - repeat constructor; vm_compute; congruence.
  - exists reg', s'. split; [exact H1|]. split; [rewrite H3; reflexivity|].
    rewrite H2. vm_compute. reflexivity.
Defined.

(** The program of a game that needs a fix-up: the hash is what it is. *)
Definition fixup_setup : ShaderSetup :=
  mkShaderSetup (demo_uniforms true) PackedAttribute.initial 0 true true false
    (replicate 4096 0) (replicate 4096 0) (replicate 4096 0) true true true 0 0 0 0.

Lemma fixup_hides_updates_witness :
  exists s2, write_program [(0, end_)] (DoProgramCodeFixup (fun _ => THUNDER_BLADE) fixup_setup) = inr s2 /\
    program_code s2 !! 0%nat = Some end_ /\ GetProgramCode s2 !! 0%nat = Some 0.
Proof.
  destruct (fixup_hides_updates (fun _ => THUNDER_BLADE) fixup_setup [(0, end_)])
    as (s2 & H1 & H2 & H3 & H4).
  - reflexivity.
  - reflexivity.
  - reflexivity.
  - apply (length_replicate 4096).
  - left.
  - by repeat constructor.
  - exists s2. split; [exact H1|]. rewrite H2, H3. split; vm_compute; reflexivity.
Defined.
