(* ===== verification/Geometry.v ===== *)
(** * Geometry: from vertices to triangles (video_core/pica: primitive_assembly.cpp, output_vertex.cpp, geometry_pipeline.cpp, pica_core.cpp)

    The stages between the vertex shader and the rasteriser.  Handlers are replaced by
    the list of the calls made to them.  A pointer into an array is an index; writing
    outside the array is a fault. *)
From Stdlib Require Import SpecFloat.
From stdpp Require Import list.
From S2P Require Import Prelude PicaFloat ShaderBytecode Shader ShaderSafe.

Local Open Scope Z_scope.

(** ** Primitive assembly *)

Inductive TriangleTopology := List | Strip | Fan | ShaderTopology.

#[export] Instance TriangleTopology_eq_dec : EqDecision TriangleTopology.
Proof. solve_decision. Defined.

Section Assembly.
(** [OutputVertex] *)
Variable V : Type.

Record PrimitiveAssembler := mkAssembler {
  topology : TriangleTopology;
  buffer_index : Z;
  vertex_buffer : list V;
  strip_ready : bool;
  pa_winding : bool }.

Definition SetWinding (a : PrimitiveAssembler) : PrimitiveAssembler :=
  mkAssembler (topology a) (buffer_index a) (vertex_buffer a) (strip_ready a) true.

Definition Reset (a : PrimitiveAssembler) : PrimitiveAssembler :=
  mkAssembler (topology a) 0 (vertex_buffer a) false false.

Definition Reconfigure (t : TriangleTopology) (a : PrimitiveAssembler) : PrimitiveAssembler :=
  mkAssembler t 0 (vertex_buffer a) false false.

Definition IsEmpty (a : PrimitiveAssembler) : bool :=
  (buffer_index a =? 0) && negb (strip_ready a).

(** The triangles given to the handler, and the new state. *)
Definition SubmitVertex (vtx : V) (a : PrimitiveAssembler)
    : R (list (V * V * V) * PrimitiveAssembler) :=
  match topology a with
  | List | ShaderTopology =>
      if buffer_index a <? 2 then
        buf ← put (vertex_buffer a) (buffer_index a) vtx;
        inr ([], mkAssembler (topology a) (buffer_index a + 1) buf (strip_ready a) (pa_winding a))
      else
        b0 ← get (vertex_buffer a) 0;
        b1 ← get (vertex_buffer a) 1;
        if bool_decide (topology a = ShaderTopology) && pa_winding a then
          inr ([(b1, b0, vtx)], mkAssembler (topology a) 0 (vertex_buffer a) (strip_ready a) false)
        else
          inr ([(b0, b1, vtx)],
               mkAssembler (topology a) 0 (vertex_buffer a) (strip_ready a) (pa_winding a))
  | Strip | Fan =>
      tri ← (if strip_ready a then
               b0 ← get (vertex_buffer a) 0; b1 ← get (vertex_buffer a) 1; inr [(b0, b1, vtx)]
             else inr []);
      buf ← put (vertex_buffer a) (buffer_index a) vtx;
      inr (tri, mkAssembler (topology a)
                  (if bool_decide (topology a = Strip)
                   then (if buffer_index a =? 0 then 1 else 0) else 1)
                  buf (strip_ready a || (buffer_index a =? 1)) (pa_winding a))
  end.

(** A run of vertices. *)
Fixpoint assemble (vs : list V) (a : PrimitiveAssembler)
    : R (list (V * V * V) * PrimitiveAssembler) :=
  match vs with
  | [] => inr ([], a)
  | v :: vs => '(t1, a) ← SubmitVertex v a; '(t2, a) ← assemble vs a; inr (t1 ++ t2, a)
  end.

End Assembly.

Arguments topology {V}.
Arguments buffer_index {V}.
Arguments vertex_buffer {V}.
Arguments strip_ready {V}.
Arguments pa_winding {V}.
Arguments mkAssembler {V}.
Arguments SetWinding {V}.
Arguments Reset {V}.
Arguments Reconfigure {V}.
Arguments IsEmpty {V}.
Arguments SubmitVertex {V}.
Arguments assemble {V}.

(** ** Output vertices *)

Definition Semantic_COLOR_R : nat := 8.

(** [output_register_map]: the fields [map_x] to [map_w] of a word. *)
Definition semantic_map (raw : Z) : list Z := [field 0 5 raw; field 8 5 raw; field 16 5 raw; field 24 5 raw].

Fixpoint fill_slots (maps : list Z) (out : AttributeBuffer) (attrib : Z) (slots : list spec_float)
    : R (list spec_float) :=
  match maps with
  | [] => inr slots
  | raw :: maps =>
      v ← get out attrib;
      slots ← put slots (field 0 5 raw) (x v);
      slots ← put slots (field 8 5 raw) (y v);
      slots ← put slots (field 16 5 raw) (z v);
      slots ← put slots (field 24 5 raw) (w v);
      fill_slots maps out (attrib + 1) slots
  end.

Definition saturate_color (c : spec_float) : spec_float :=
  let c := SFabs c in if SFltb c f32_one then c else f32_one.

(** The 24 numbers of an [OutputVertex], in memory order. *)
Definition OutputVertex (vs_output_total : Z) (vs_output_attributes : list Z) (out : AttributeBuffer)
    : R (list spec_float) :=
  let num_attributes := Z.to_nat (Z.land vs_output_total 7) in
  slots ← fill_slots (take num_attributes vs_output_attributes) out 0 (replicate 32 Float.One);
  let v := take 24 slots in
  inr (take 8 v ++ (saturate_color <$> take 4 (drop 8 v)) ++ drop 12 v).

(** ** The geometry pipeline *)

(** The registers it reads, decoded. *)
Record PipelineRegs := mkRegs {
  use_gs : Z;
  variable_primitive : Z;
  vs_outmap_total_minus_1_a : Z;
  vs_outmap_total_minus_1_b : Z;
  gs_mode : Z;
  fixed_vertex_num_minus_1 : Z;
  stride_minus_1 : Z;
  start_index : Z;
  variable_vertex_main_num_minus_1 : Z;
  max_input_attribute_index : Z;
  input_to_uniform : Z;
  shader_mode : Z;
  main_offset : Z;
  gs_output_mask : Z;
  map_low : Z;
  map_high : Z }.

(** The three backends; pointers into [attribute_buffer] and into the float uniforms
    are indices. *)
Inductive Backend :=
  | Point (attribute_buffer : list f24vec) (buffer_cur buffer_end vs_output_num : Z)
  | VariablePrimitive (need_index : bool) (main_vertex_num total_vertex_num buffer_cur vs_output_num : Z)
  | FixedPrimitive (buffer_begin buffer_cur buffer_end vs_output_num : Z).

Definition backend_IsEmpty (b : Backend) : bool :=
  match b with
  | Point _ cur _ _ => cur =? 0
  | VariablePrimitive need_index _ _ _ _ => need_index
  | FixedPrimitive begin cur _ _ => cur =? begin
  end.

Definition backend_NeedIndexInput (b : Backend) : bool :=
  match b with
  | VariablePrimitive need_index _ _ _ _ => need_index
  | _ => false
  end.

(** [std::copy] of a run of elements. *)
Fixpoint copy_to {A} (src : list A) (dst : list A) (i : Z) : R (list A) :=
  match src with
  | [] => inr dst
  | a :: src => dst ← put dst i a; copy_to src dst (i + 1)
  end.

(** [std::copy(input.data(), input.data() + n, dst + cur)] *)
Definition copy_n (n : Z) (input dst : list f24vec) (cur : Z) : R (list f24vec) :=
  _ ← assert (n <=? Z.of_nat (length input)) OutOfBounds;
  copy_to (take (Z.to_nat n) input) dst cur.

Record GeometryPipeline := mkPipeline {
  backend : option Backend;
  gs_unit : ShaderUnit;
  gs : ShaderSetup }.

Definition set_backend (b : option Backend) (p : GeometryPipeline) : GeometryPipeline :=
  mkPipeline b (gs_unit p) (gs p).
Definition set_gs (s : ShaderSetup) (p : GeometryPipeline) : GeometryPipeline :=
  mkPipeline (backend p) (gs_unit p) s.
Definition set_gs_unit (u : ShaderUnit) (p : GeometryPipeline) : GeometryPipeline :=
  mkPipeline (backend p) u (gs p).

(** A plain assignment to the uniforms: the dirty flag is not touched. *)
Definition with_f (l : list f24vec) (s : ShaderSetup) : ShaderSetup :=
  set_uniforms (mkUniforms l (uniforms_b (uniforms s)) (uniforms_i (uniforms s))) false s.

Definition attribute_buffer0 : list f24vec := replicate 16 (AssignToAll Float.Zero).

(** The assertions of this component. *)
Definition config (b : bool) : R unit := assert b InvalidConfiguration.

Definition GSMode_Point : Z := 0.
Definition GSMode_VariablePrimitive : Z := 1.
Definition GSMode_FixedPrimitive : Z := 2.
Definition ShaderMode_GS : Z := 8.
Definition UseGS_No : Z := 0.
Definition UseGS_Yes : Z := 2.

Definition new_Point (r : PipelineRegs) : R Backend :=
  _ ← config (variable_primitive r =? 0);
  _ ← config (input_to_uniform r =? 0);
  let vs_output_num := vs_outmap_total_minus_1_a r + 1 in
  let gs_input_num := max_input_attribute_index r + 1 in
  _ ← config (gs_input_num mod vs_output_num =? 0);
  inr (Point attribute_buffer0 0 gs_input_num vs_output_num).

Definition new_VariablePrimitive (r : PipelineRegs) : R Backend :=
  _ ← config (variable_primitive r =? 1);
  _ ← config (input_to_uniform r =? 1);
  inr (VariablePrimitive true 0 0 0 (vs_outmap_total_minus_1_a r + 1)).

Definition new_FixedPrimitive (r : PipelineRegs) : R Backend :=
  _ ← config (variable_primitive r =? 0);
  _ ← config (input_to_uniform r =? 1);
  let vs_output_num := vs_outmap_total_minus_1_a r + 1 in
  _ ← config (vs_output_num =? stride_minus_1 r + 1);
  let vertex_num := fixed_vertex_num_minus_1 r + 1 in
  inr (FixedPrimitive (start_index r) (start_index r)
         (start_index r + vs_output_num * vertex_num) vs_output_num).

(** [SubmitIndex], with [static_cast<float>] of the index. *)
Definition backend_SubmitIndex (r : PipelineRegs) (val : Z) (p : GeometryPipeline)
    (b : Backend) : R GeometryPipeline :=
  match b with
  | VariablePrimitive need_index _ _ _ n =>
      _ ← config need_index;
      f ← put (uniforms_f (uniforms (gs p))) 0 (AssignToAll (binary_normalize 24 128 val 0 false));
      inr (set_backend
             (Some (VariablePrimitive false (u32 (variable_vertex_main_num_minus_1 r + 1)) val 1 n))
             (set_gs (with_f f (gs p)) p))
  | _ => inl InvalidConfiguration
  end.

(** [SubmitVertex] of the backends: true when the geometry shader is to be run. *)
Definition Point_SubmitVertex (r : PipelineRegs) (inp : AttributeBuffer) (p : GeometryPipeline)
    (buf : list f24vec) (cur end_ n : Z) : R (bool * GeometryPipeline) :=
  buf ← copy_n n inp buf cur;
  if cur + n =? end_ then
    u ← LoadInput (max_input_attribute_index r) (map_low r) (map_high r) (gs_unit p) buf;
    inr (true, set_backend (Some (Point buf 0 end_ n)) (set_gs_unit u p))
  else inr (false, set_backend (Some (Point buf (cur + n) end_ n)) p).

Definition Variable_SubmitVertex (inp : AttributeBuffer) (p : GeometryPipeline)
    (need_index : bool) (main total cur n : Z) : R (bool * GeometryPipeline) :=
  _ ← config (negb need_index);
  '(f, main, cur) ←
    (if negb (main =? 0) then
       f ← copy_n n inp (uniforms_f (uniforms (gs p))) cur; inr (f, main - 1, cur + n)
     else
       v ← get inp 0; f ← put (uniforms_f (uniforms (gs p))) cur v; inr (f, main, cur + 1));
  let total := u32 (total - 1) in
  let p := set_gs (with_f f (gs p)) p in
  let fires := total =? 0 in
  inr (fires, set_backend (Some (VariablePrimitive fires main total cur n)) p).

Definition Fixed_SubmitVertex (inp : AttributeBuffer) (p : GeometryPipeline)
    (begin cur end_ n : Z) : R (bool * GeometryPipeline) :=
  f ← copy_n n inp (uniforms_f (uniforms (gs p))) cur;
  let p := set_gs (with_f f (gs p)) p in
  let fires := cur + n =? end_ in
  inr (fires, set_backend (Some (FixedPrimitive begin (if fires then begin else cur + n) end_ n)) p).

Definition backend_SubmitVertex (r : PipelineRegs) (inp : AttributeBuffer) (p : GeometryPipeline)
    (b : Backend) : R (bool * GeometryPipeline) :=
  match b with
  | Point buf cur end_ n => Point_SubmitVertex r inp p buf cur end_ n
  | VariablePrimitive need_index main total cur n =>
      Variable_SubmitVertex inp p need_index main total cur n
  | FixedPrimitive begin cur end_ n => Fixed_SubmitVertex inp p begin cur end_ n
  end.

Definition ConfigOutput (mask : Z) (u : ShaderUnit) : ShaderUnit :=
  match emitter_ptr u with
  | Some e => set_emitter (mkGeometryEmitter (winding e) (prim_emit e) (vertex_id e) mask
                             (buffer e) (calls e)) u
  | None => u
  end.

(** [GeometryPipeline::Reconfigure] *)
Definition Reconfigure_pipeline (r : PipelineRegs) (p : GeometryPipeline) : R GeometryPipeline :=
  _ ← config (match backend p with Some b => backend_IsEmpty b | None => true end);
  if use_gs r =? UseGS_No then inr (set_backend None p) else
  _ ← config (shader_mode r =? ShaderMode_GS);
  _ ← config (use_gs r =? UseGS_Yes);
  let p := set_gs_unit (ConfigOutput (gs_output_mask r) (gs_unit p)) p in
  _ ← config (vs_outmap_total_minus_1_a r =? vs_outmap_total_minus_1_b r);
  b ← (if gs_mode r =? GSMode_Point then new_Point r
       else if gs_mode r =? GSMode_VariablePrimitive then new_VariablePrimitive r
       else if gs_mode r =? GSMode_FixedPrimitive then new_FixedPrimitive r
       else inl InvalidConfiguration);
  inr (set_backend (Some b) p).

Definition NeedIndexInput (p : GeometryPipeline) : bool :=
  match backend p with Some b => backend_NeedIndexInput b | None => false end.

Definition SubmitIndex (r : PipelineRegs) (val : Z) (p : GeometryPipeline) : R GeometryPipeline :=
  match backend p with
  | Some b => backend_SubmitIndex r val p b
  | None => inl OutOfBounds
  end.

(** Computations that run shaders: [None] when the fuel ran out. *)
Definition G (A : Type) : Type := option (R A).

#[export] Instance G_ret : MRet G := fun A a => Some (inr a).
#[export] Instance G_bind : MBind G := fun A B f m =>
  match m with
  | None => None
  | Some (inl e) => Some (inl e)
  | Some (inr a) => f a
  end.

Definition lift {A} (m : R A) : G A := Some m.

Definition of_outcome (o : outcome) : G ShaderUnit :=
  match o with
  | OutOfFuel => None
  | Fault e => Some (inl e)
  | Finished u => Some (inr u)
  end.

(** The log of the calls to the handlers of a unit. *)
Definition clear_calls (u : ShaderUnit) : ShaderUnit :=
  match emitter_ptr u with
  | Some e => set_emitter (mkGeometryEmitter (winding e) (prim_emit e) (vertex_id e) (output_mask e)
                             (buffer e) []) u
  | None => u
  end.

Definition unit_calls (u : ShaderUnit) : list handler_call :=
  match emitter_ptr u with Some e => calls e | None => [] end.

Section Pipeline.
Variable ComputeHash64 : list Z -> Z.
Variables exp2f log2f : spec_float -> spec_float.

(** [GeometryPipeline::Setup] *)
Definition Setup (r : PipelineRegs) (p : GeometryPipeline) : R GeometryPipeline :=
  match backend p with
  | None => inr p
  | Some _ => s ← SetupBatch ComputeHash64 (main_offset r) (gs p); inr (set_gs s p)
  end.

(** One run of the geometry shader, and the calls it makes. *)
Definition invoke (fuel : nat) (p : GeometryPipeline) : G (list handler_call * GeometryPipeline) :=
  u ← of_outcome (RunInterpreter exp2f log2f (gs p) fuel (clear_calls (gs_unit p)));
  b ← lift (put (uniforms_b (uniforms (gs p))) 15 true);
  let un := mkUniforms (uniforms_f (uniforms (gs p))) b (uniforms_i (uniforms (gs p))) in
  mret (unit_calls u, set_gs (set_uniforms un false (gs p)) (set_gs_unit u p)).

(** [GeometryPipeline::SubmitVertex], and the calls to the vertex handlers. *)
Definition SubmitVertex_pipeline (fuel : nat) (r : PipelineRegs) (inp : AttributeBuffer)
    (p : GeometryPipeline) : G (list handler_call * GeometryPipeline) :=
  match backend p with
  | None => mret ([VertexHandler inp], p)
  | Some b =>
      '(fires, p) ← lift (backend_SubmitVertex r inp p b);
      if (fires : bool) then invoke fuel p else mret ([], p)
  end.

Fixpoint submit_all (fuel : nat) (r : PipelineRegs) (inps : list AttributeBuffer)
    (p : GeometryPipeline) : G (list handler_call * GeometryPipeline) :=
  match inps with
  | [] => mret ([], p)
  | inp :: inps =>
      '(c1, p) ← SubmitVertex_pipeline fuel r inp p;
      '(c2, p) ← submit_all fuel r inps p;
      mret (c1 ++ c2, p)
  end.

End Pipeline.

(** The handlers installed by [PicaCore]: the vertices made into triangles. *)
Section Handlers.
Variable vs_output_total : Z.
Variable vs_output_attributes : list Z.

Definition handle_call (c : handler_call) (a : PrimitiveAssembler (list spec_float))
    : R (list (list spec_float * list spec_float * list spec_float) *
         PrimitiveAssembler (list spec_float)) :=
  match c with
  | WindingSetter => inr ([], SetWinding a)
  | VertexHandler buf =>
      v ← OutputVertex vs_output_total vs_output_attributes buf; SubmitVertex v a
  end.

Fixpoint handle_calls (cs : list handler_call) (a : PrimitiveAssembler (list spec_float))
    : R (list (list spec_float * list spec_float * list spec_float) *
         PrimitiveAssembler (list spec_float)) :=
  match cs with
  | [] => inr ([], a)
  | c :: cs => '(t1, a) ← handle_call c a; '(t2, a) ← handle_calls cs a; inr (t1 ++ t2, a)
  end.

End Handlers.

(** ** The triangles of a run of vertices *)

Section Triangles.
Context {V : Type}.
Implicit Types (vs : list V) (a : PrimitiveAssembler V).

Fixpoint list_triangles vs : list (V * V * V) :=
  match vs with
  | a :: b :: c :: rest => (a, b, c) :: list_triangles rest
  | _ => []
  end.

(** Every other triangle of a strip has its first two vertices swapped. *)
Fixpoint strip_triangles (odd : bool) vs : list (V * V * V) :=
  match vs with
  | a :: ((b :: c :: _) as rest) =>
      (if odd then (b, a, c) else (a, b, c)) :: strip_triangles (negb odd) rest
  | _ => []
  end.

Definition fan_triangles vs : list (V * V * V) :=
  match vs with
  | a :: rest => zip_with (fun b c => (a, b, c)) rest (tail rest)
  | [] => []
  end.

Definition triangles (t : TriangleTopology) vs : list (V * V * V) :=
  match t with
  | List | ShaderTopology => list_triangles vs
  | Strip => strip_triangles false vs
  | Fan => fan_triangles vs
  end.

Definition list_like (t : TriangleTopology) : bool :=
  match t with List | ShaderTopology => true | _ => false end.

(** A reconfigured assembler. *)
Definition fresh a : Prop :=
  buffer_index a = 0 /\ strip_ready a = false /\ pa_winding a = false /\
  length (vertex_buffer a) = 2%nat.

Lemma assemble_app vs1 vs2 a :
  assemble (vs1 ++ vs2) a =
  ('(t1, a) ← assemble vs1 a; '(t2, a) ← assemble vs2 a; inr (t1 ++ t2, a)).
Proof.
  revert a. induction vs1 as [|v vs1 IH]; intros a; simpl.
  - destruct (assemble vs2 a) as [|[??]]; done.
  - destruct (SubmitVertex v a) as [|[t a1]]; [done|]. cbn [mbind R_bind]. rewrite IH.
    destruct (assemble vs1 a1) as [|[t1 a2]]; [done|]. cbn [mbind R_bind].
    destruct (assemble vs2 a2) as [|[t2 a3]]; [done|]. cbn [mbind R_bind]. by rewrite app_assoc.
Qed.

Lemma three_vertices t buf (x1 x2 x3 : V) :
  list_like t = true -> length buf = 2%nat ->
  assemble [x1; x2; x3] (mkAssembler t 0 buf false false) =
  inr ([(x1, x2, x3)], mkAssembler t 0 [x1; x2] false false).
Proof. destruct buf as [|b1 [|b2 [|]]]; try done. by destruct t. Qed.

Lemma list_run t n vs buf : list_like t = true -> length buf = 2%nat -> (length vs <= n)%nat ->
  exists a', assemble vs (mkAssembler t 0 buf false false) = inr (list_triangles vs, a') /\
    IsEmpty a' = bool_decide (length vs mod 3 = 0)%nat.
Proof.
  intros Ht. revert vs buf. induction n as [n IH] using lt_wf_ind; intros vs buf Hb Hn.
  destruct vs as [|x1 [|x2 [|x3 vs]]].
  - by eexists.
  - destruct buf as [|b1 [|b2 [|]]]; try done. destruct t; try done; by eexists.
  - destruct buf as [|b1 [|b2 [|]]]; try done. destruct t; try done; by eexists.
  - change (x1 :: x2 :: x3 :: vs) with ([x1; x2; x3] ++ vs).
    rewrite assemble_app, three_vertices by done. cbn [mbind R_bind].
    destruct (IH (length vs)) with (vs := vs) (buf := [x1; x2]) as (a' & -> & HE);
      [simpl in Hn; lia | done | lia |].
    exists a'. split; [done|]. rewrite HE. apply bool_decide_ext.
    rewrite length_app. simpl length.
    replace (3 + length vs)%nat with (length vs + 1 * 3)%nat by lia.
    by rewrite Nat.Div0.mod_add.
Qed.

Lemma strip_run vs (p q : V) (odd w : bool) :
  exists a', assemble vs (mkAssembler Strip (if odd then 1 else 0)
                            (if odd then [q; p] else [p; q]) true w) =
    inr (strip_triangles odd (p :: q :: vs), a') /\ strip_ready a' = true.
Proof.
  revert p q odd. induction vs as [|v vs IH]; intros p q odd; [by eexists|].
  destruct (IH q v (negb odd)) as (a' & Ha & HE). exists a'. split; [|done].
  cbn [assemble].
  assert (SubmitVertex v (mkAssembler Strip (if odd then 1 else 0)
                            (if odd then [q; p] else [p; q]) true w) =
          inr ([if odd then (q, p, v) else (p, q, v)],
               mkAssembler Strip (if negb odd then 1 else 0)
                 (if negb odd then [v; q] else [q; v]) true w)) as -> by by destruct odd.
  cbn [mbind R_bind]. rewrite Ha. by destruct odd.
Qed.

Lemma fan_run vs (p q : V) w :
  exists a', assemble vs (mkAssembler Fan 1 [p; q] true w) =
    inr (fan_triangles (p :: q :: vs), a') /\ strip_ready a' = true.
Proof.
  revert q. induction vs as [|v vs IH]; intros q; [by eexists|].
  destruct (IH v) as (a' & Ha & HE). exists a'. split; [|done].
  cbn [assemble].
  change (SubmitVertex v (mkAssembler Fan 1 [p; q] true w)) with
    (inr ([(p, q, v)], mkAssembler Fan 1 [p; v] true w) : R _).
  cbn [mbind R_bind]. by rewrite Ha.
Qed.

(** C38: From a reconfigured assembler, a run of vertices gives exactly the triangles of
    its topology (every three vertices of a list; three consecutive vertices of a strip,
    every other triangle with its first two vertices swapped; the first vertex with two
    consecutive ones of a fan), and what is left in the buffer is what [IsEmpty] tells. *)
Theorem assemble_triangles (t : TriangleTopology) vs a :
  topology a = t -> fresh a ->
  exists a', assemble vs a = inr (triangles t vs, a') /\
    IsEmpty a' = if list_like t then bool_decide (length vs mod 3 = 0)%nat
                 else bool_decide (vs = []).
Proof.
  destruct a as [t0 i buf ready wd]. intros Ht (Hi & Hr & Hw & Hb); simpl in *. subst.
  destruct (list_like t) eqn:Hl.
  { destruct (list_run t (length vs) vs buf Hl Hb) as (a' & Ha & HE); [done|].
    exists a'. split; [|done]. rewrite Ha. by destruct t. }
  destruct buf as [|b1 [|b2 [|]]]; try done.
  destruct vs as [|p [|q vs]]; [destruct t; try done; by eexists | destruct t; try done; by eexists |].
  destruct t; try done.
  - destruct (strip_run vs p q false false) as (a' & Ha & HE). exists a'. split.
    + change (p :: q :: vs) with ([p; q] ++ vs). rewrite assemble_app.
      change (assemble [p; q] _) with
        (inr ([], mkAssembler Strip 0 [p; q] true false) : R (list (V * V * V) * _)).
      cbn [mbind R_bind]. by rewrite Ha.
    + unfold IsEmpty. by rewrite HE, andb_false_r.
  - destruct (fan_run vs p q false) as (a' & Ha & HE). exists a'. split.
    + change (p :: q :: vs) with ([p; q] ++ vs). rewrite assemble_app.
      change (assemble [p; q] _) with
        (inr ([], mkAssembler Fan 1 [p; q] true false) : R (list (V * V * V) * _)).
      cbn [mbind R_bind]. by rewrite Ha.
    + unfold IsEmpty. by rewrite HE, andb_false_r.
Qed.

End Triangles.

(** ** Groups of vertices *)

(** Writing a run of elements: inside the array, or a fault. *)
Definition write_run {A} (src dst : list A) (i : Z) : R (list A) :=
  if i + Z.of_nat (length src) <=? Z.of_nat (length dst)
  then inr (take (Z.to_nat i) dst ++ src ++ drop (Z.to_nat i + length src) dst)
  else inl OutOfBounds.

Lemma put_spec {A} (l : list A) i v : 0 <= i ->
  put l i v = if i <? Z.of_nat (length l) then inr (<[Z.to_nat i := v]> l) else inl OutOfBounds.
Proof.
  intros Hi. unfold put, get. zdecide. zcase.
  - destruct (lookup_lt_is_Some_2 l (Z.to_nat i) ltac:(lia)) as [a ->]. done.
  - rewrite (lookup_ge_None_2 l) by lia. done.
Qed.

Lemma copy_to_app {A} (s1 s2 dst : list A) i :
  copy_to (s1 ++ s2) dst i =
  (dst ← copy_to s1 dst i; copy_to s2 dst (i + Z.of_nat (length s1))).
Proof.
  revert dst i. induction s1 as [|a s1 IH]; intros dst i.
  { cbn. by rewrite Z.add_0_r. }
  cbn [copy_to app length]. destruct (put dst i a) as [|dst']; [done|]. cbn [mbind R_bind].
  rewrite IH. replace (i + 1 + Z.of_nat (length s1)) with (i + Z.of_nat (S (length s1))) by lia. done.
Qed.

Lemma copy_to_write {A} (src dst : list A) i : src <> [] -> 0 <= i ->
  copy_to src dst i = write_run src dst i.
Proof.
  revert dst i. induction src as [|a src IH]; intros dst i Hne Hi; [done|].
  cbn [copy_to]. rewrite put_spec by done. unfold write_run. cbn [length].
  destruct (Z.ltb_spec i (Z.of_nat (length dst))); cbn [mbind R_bind]; [|by zdecide].
  destruct src as [|b src].
  { cbn [length copy_to]. zdecide. rewrite insert_take_drop by lia.
    by replace (Z.to_nat i + 1)%nat with (S (Z.to_nat i)) by lia. }
  rewrite IH by (done || lia). unfold write_run. rewrite length_insert. cbn [length].
  replace (i + 1 + Z.of_nat (S (length src))) with (i + Z.of_nat (S (S (length src)))) by lia.
  destruct (Z.leb_spec (i + Z.of_nat (S (S (length src)))) (Z.of_nat (length dst))); [|done].
  f_equal. replace (Z.to_nat (i + 1)) with (S (Z.to_nat i)) by lia.
  rewrite (take_S_r _ _ a) by (apply list_lookup_insert_eq; lia).
  rewrite take_insert_ge, drop_insert_lt, <- app_assoc by lia.
  cbn [app].
  by replace (Z.to_nat i + S (S (length src)))%nat with (S (Z.to_nat i) + S (length src))%nat by lia.
Qed.

Lemma copy_n_take n inp dst cur : n <= Z.of_nat (length inp) ->
  copy_n n inp dst cur = copy_to (take (Z.to_nat n) inp) dst cur.
Proof. intros. unfold copy_n, assert. by zdecide. Qed.

(** [takes b k]: the backend waits for [k] more vertices of the group. *)
Definition takes (b : Backend) (k : Z) : Prop :=
  match b with
  | Point _ cur end_ n | FixedPrimitive _ cur end_ n =>
      0 <= cur /\ 1 <= n <= 16 /\ end_ = cur + n * k
  | VariablePrimitive need_index main total cur n =>
      need_index = false /\ 0 <= cur /\ 0 <= main /\ 1 <= n <= 16 /\ total = k /\ is_u32 k
  end.

(** The attributes that a group keeps of its vertices: of the main ones all that the
    vertex shader writes, of the others the first one. *)
Definition payload (b : Backend) (vs : list AttributeBuffer) : list f24vec :=
  match b with
  | Point _ _ _ n | FixedPrimitive _ _ _ n => vs ≫= take (Z.to_nat n)
  | VariablePrimitive _ main _ _ n =>
      (take (Z.to_nat main) vs ≫= take (Z.to_nat n)) ++ (drop (Z.to_nat main) vs ≫= take 1)
  end.

(** The effect of a whole group: one write of what it keeps, and a backend that waits
    for the next group. *)
Definition deliver (r : PipelineRegs) (b : Backend) (vs : list AttributeBuffer)
    (p : GeometryPipeline) : R GeometryPipeline :=
  let f := uniforms_f (uniforms (gs p)) in
  match b with
  | Point buf cur end_ n =>
      buf ← write_run (payload b vs) buf cur;
      u ← LoadInput (max_input_attribute_index r) (map_low r) (map_high r) (gs_unit p) buf;
      inr (set_backend (Some (Point buf 0 end_ n)) (set_gs_unit u p))
  | VariablePrimitive _ main _ cur n =>
      f ← write_run (payload b vs) f cur;
      inr (set_backend
             (Some (VariablePrimitive true (Z.max 0 (main - Z.of_nat (length vs))) 0
                      (cur + Z.of_nat (length (payload b vs))) n))
             (set_gs (with_f f (gs p)) p))
  | FixedPrimitive begin cur end_ n =>
      f ← write_run (payload b vs) f cur;
      inr (set_backend (Some (FixedPrimitive begin begin end_ n)) (set_gs (with_f f (gs p)) p))
  end.

Lemma with_f_with_f l1 l2 s : with_f l2 (with_f l1 s) = with_f l2 s.
Proof. destruct s. unfold with_f, set_uniforms. cbn. by rewrite !orb_false_r. Qed.

Section Groups.
Variables exp2f log2f : spec_float -> spec_float.
Variable fuel : nat.
Variable r : PipelineRegs.

Lemma submit_last v (p : GeometryPipeline) :
  submit_all exp2f log2f fuel r [v] p = SubmitVertex_pipeline exp2f log2f fuel r v p.
Proof.
  cbn [submit_all].
  destruct (SubmitVertex_pipeline exp2f log2f fuel r v p) as [[|[c p']]|]; [done | | done].
  cbn. by rewrite app_nil_r.
Qed.

(** A vertex that is not the last one of its group. *)
Lemma submit_more v vs p b p' : backend p = Some b ->
  backend_SubmitVertex r v p b = inr (false, p') ->
  submit_all exp2f log2f fuel r (v :: vs) p = submit_all exp2f log2f fuel r vs p'.
Proof.
  intros Hb Hs. cbn [submit_all]. unfold SubmitVertex_pipeline. rewrite Hb, Hs.
  cbn [mbind G_bind lift mret G_ret].
  by destruct (submit_all exp2f log2f fuel r vs p') as [[|[c p2]]|].
Qed.

Lemma submit_fault v vs p b e : backend p = Some b ->
  backend_SubmitVertex r v p b = inl e ->
  submit_all exp2f log2f fuel r (v :: vs) p = Some (inl e).
Proof. intros Hb Hs. cbn [submit_all]. unfold SubmitVertex_pipeline. by rewrite Hb, Hs. Qed.

Definition full (v : AttributeBuffer) : Prop := length v = 16%nat.

Lemma length_payload_vertex n v : full v -> 1 <= n <= 16 ->
  Z.of_nat (length (take (Z.to_nat n) v)) = n.
Proof. unfold full. intros Hv Hn. rewrite length_take. lia. Qed.

Ltac enter_backend :=
  unfold backend_SubmitVertex, Point_SubmitVertex, Variable_SubmitVertex, Fixed_SubmitVertex.

Lemma fixed_group vs begin cur end_ n p : vs <> [] -> Forall full vs ->
  1 <= n <= 16 -> end_ = cur + n * Z.of_nat (length vs) ->
  backend p = Some (FixedPrimitive begin cur end_ n) ->
  submit_all exp2f log2f fuel r vs p =
  (p' ← lift (f ← copy_to (vs ≫= take (Z.to_nat n)) (uniforms_f (uniforms (gs p))) cur;
              inr (set_backend (Some (FixedPrimitive begin begin end_ n))
                     (set_gs (with_f f (gs p)) p)));
   invoke exp2f log2f fuel p').
Proof.
  intros Hne Hall Hn. revert cur p. induction Hall as [|v vs Hv Hall IH]; intros cur p; [done|].
  clear Hne. intros He Hb. pose proof (length_payload_vertex n v Hv Hn) as Hlen.
  cbn [mbind list_bind]. rewrite copy_to_app, Hlen. fold (mbind (M := list) (take (Z.to_nat n)) vs).
  destruct (copy_to (take (Z.to_nat n) v) (uniforms_f (uniforms (gs p))) cur) as [e|f] eqn:Hc.
  { rewrite (submit_fault v vs p _ e Hb); [done|].
    enter_backend. rewrite copy_n_take, Hc by (unfold full in Hv; lia). done. }
  cbn [mbind R_bind]. destruct vs as [|v2 vs].
  - rewrite submit_last. unfold SubmitVertex_pipeline. rewrite Hb. enter_backend.
    rewrite copy_n_take, Hc by (unfold full in Hv; lia). cbn [mbind R_bind].
    rewrite (proj2 (Z.eqb_eq _ _)) by (simpl in He; lia). done.
  - erewrite submit_more; [|exact Hb|].
    2:{ enter_backend. rewrite copy_n_take, Hc by (unfold full in Hv; lia).
        cbn [mbind R_bind]. rewrite (proj2 (Z.eqb_neq _ _)) by (simpl length in He; nia). done. }
    rewrite (IH ltac:(done) (cur + n)); [|simpl length in *; lia | done].
    cbn [gs set_gs set_backend with_f set_uniforms uniforms uniforms_f].
    destruct (copy_to _ f (cur + n)) as [e|f2]; [done|]. cbn [mbind R_bind lift G_bind].
    unfold set_gs, set_backend. cbn [gs gs_unit backend]. by rewrite with_f_with_f.
Qed.

Lemma point_group vs buf cur end_ n p : vs <> [] -> Forall full vs ->
  1 <= n <= 16 -> end_ = cur + n * Z.of_nat (length vs) ->
  backend p = Some (Point buf cur end_ n) ->
  submit_all exp2f log2f fuel r vs p =
  (p' ← lift (buf ← copy_to (vs ≫= take (Z.to_nat n)) buf cur;
              u ← LoadInput (max_input_attribute_index r) (map_low r) (map_high r) (gs_unit p) buf;
              inr (set_backend (Some (Point buf 0 end_ n)) (set_gs_unit u p)));
   invoke exp2f log2f fuel p').
Proof.
  intros Hne Hall Hn. revert buf cur p.
  induction Hall as [|v vs Hv Hall IH]; intros buf cur p; [done|].
  clear Hne. intros He Hb. pose proof (length_payload_vertex n v Hv Hn) as Hlen.
  cbn [mbind list_bind]. rewrite copy_to_app, Hlen. fold (mbind (M := list) (take (Z.to_nat n)) vs).
  destruct (copy_to (take (Z.to_nat n) v) buf cur) as [e|f] eqn:Hc.
  { rewrite (submit_fault v vs p _ e Hb); [done|].
    enter_backend. rewrite copy_n_take, Hc by (unfold full in Hv; lia). done. }
  cbn [mbind R_bind]. destruct vs as [|v2 vs].
  - rewrite submit_last. unfold SubmitVertex_pipeline. rewrite Hb. enter_backend.
    rewrite copy_n_take, Hc by (unfold full in Hv; lia). cbn [mbind R_bind list_bind copy_to].
    rewrite (proj2 (Z.eqb_eq _ _)) by (simpl in He; lia).
    by destruct (LoadInput _ _ _ _ _).
  - erewrite submit_more; [|exact Hb|].
    2:{ enter_backend. rewrite copy_n_take, Hc by (unfold full in Hv; lia).
        cbn [mbind R_bind]. rewrite (proj2 (Z.eqb_neq _ _)) by (simpl length in He; nia). done. }
    rewrite (IH ltac:(done) f (cur + n)); [|simpl length in *; lia | done]. done.
Qed.

#[local] Arguments put : simpl never.
#[local] Arguments copy_n : simpl never.
#[local] Arguments get : simpl never.

Lemma get_head {A} (a : A) l : get (a :: l) 0 = inr a.
Proof. done. Qed.

(** The vertices after the main ones. *)
Lemma other_group vs total cur n p : vs <> [] -> Forall full vs ->
  total = Z.of_nat (length vs) -> is_u32 total ->
  backend p = Some (VariablePrimitive false 0 total cur n) ->
  submit_all exp2f log2f fuel r vs p =
  (p' ← lift (f ← copy_to (vs ≫= take 1) (uniforms_f (uniforms (gs p))) cur;
              inr (set_backend (Some (VariablePrimitive true 0 0
                                        (cur + Z.of_nat (length (vs ≫= take 1))) n))
                     (set_gs (with_f f (gs p)) p)));
   invoke exp2f log2f fuel p').
Proof.
  intros Hne Hall. revert total cur p. induction Hall as [|v vs Hv Hall IH]; intros total cur p; [done|].
  clear Hne. intros Ht Hu Hb. destruct v as [|v0 v]; [done|].
  cbn [mbind list_bind]. rewrite copy_to_app. fold (mbind (M := list) (take (A := f24vec) 1) vs).
  change (take 1 (v0 :: v)) with [v0]. cbn [copy_to length app]. change (Z.of_nat 1) with 1.
  destruct (put (uniforms_f (uniforms (gs p))) cur v0) as [e|f] eqn:Hc.
  { rewrite (submit_fault (v0 :: v) vs p _ e Hb); [done|].
    cbn. rewrite get_head. cbn. by rewrite Hc. }
  cbn [mbind R_bind]. destruct vs as [|v2 vs].
  - rewrite submit_last. unfold SubmitVertex_pipeline. rewrite Hb. subst total. cbn.
    rewrite get_head. cbn. rewrite Hc. done.
  - assert (Htot : u32 (total - 1) = Z.of_nat (length (v2 :: vs)))
      by (simpl length in *; word_lia).
    erewrite submit_more; [|exact Hb|].
    2:{ cbn. rewrite get_head. cbn. rewrite Hc. cbn. rewrite Htot. done. }
    rewrite (IH ltac:(done) (Z.of_nat (length (v2 :: vs))) (cur + 1));
      [|done | rewrite <- Htot; apply u32_range | done].
    cbn [gs set_gs set_backend with_f set_uniforms uniforms uniforms_f].
    destruct (copy_to _ f (cur + 1)) as [e|f2]; [done|]. cbn [mbind R_bind lift G_bind].
    unfold set_gs, set_backend. cbn [gs gs_unit backend]. rewrite with_f_with_f.
    by rewrite Nat2Z.inj_succ, <- Z.add_1_l, Z.add_assoc.
Qed.

Lemma variable_group vs main total cur n p : vs <> [] -> Forall full vs -> 0 <= main ->
  1 <= n <= 16 -> total = Z.of_nat (length vs) -> is_u32 total ->
  backend p = Some (VariablePrimitive false main total cur n) ->
  let data := payload (VariablePrimitive false main total cur n) vs in
  submit_all exp2f log2f fuel r vs p =
  (p' ← lift (f ← copy_to data (uniforms_f (uniforms (gs p))) cur;
              inr (set_backend (Some (VariablePrimitive true
                                        (Z.max 0 (main - Z.of_nat (length vs))) 0
                                        (cur + Z.of_nat (length data)) n))
                     (set_gs (with_f f (gs p)) p)));
   invoke exp2f log2f fuel p').
Proof.
  intros Hne Hall Hm Hn. revert main Hm total cur p.
  induction Hall as [|v vs Hv Hall IH]; intros main Hm total cur p; [done|].
  clear Hne. intros Ht Hu Hb. cbn [payload].
  destruct (decide (main = 0)) as [->|Hm0].
  { rewrite (other_group (v :: vs) total cur n p) by (done || by constructor).
    change (Z.to_nat 0) with 0%nat. rewrite take_0, drop_0.
    replace (Z.max 0 (0 - Z.of_nat (length (v :: vs)))) with 0 by lia. done. }
  destruct (Z.to_nat main) as [|m] eqn:Em; [lia|]. cbn [take drop].
  pose proof (length_payload_vertex n v Hv Hn) as Hlen.
  cbn [mbind list_bind]. rewrite <- app_assoc, copy_to_app, Hlen.
  fold (mbind (M := list) (take (A := f24vec) (Z.to_nat n)) (take m vs)).
  fold (mbind (M := list) (take (A := f24vec) 1) (drop m vs)).
  assert (Hmain : (negb (main =? 0)) = true) by (rewrite (proj2 (Z.eqb_neq _ _)); done).
  destruct (copy_to (take (Z.to_nat n) v) (uniforms_f (uniforms (gs p))) cur) as [e|f] eqn:Hc.
  { rewrite (submit_fault v vs p _ e Hb); [done|].
    cbn. rewrite Hmain, copy_n_take, Hc by (unfold full in Hv; lia). done. }
  cbn [mbind R_bind]. destruct vs as [|v2 vs].
  - rewrite submit_last. unfold SubmitVertex_pipeline. rewrite Hb. subst total. cbn.
    rewrite Hmain, copy_n_take, Hc by (unfold full in Hv; lia). cbn.
    rewrite take_nil, drop_nil. cbn. rewrite app_nil_r, Hlen.
    replace (Z.max 0 (main - Z.of_nat 1)) with (main - 1) by lia. done.
  - assert (Htot : u32 (total - 1) = Z.of_nat (length (v2 :: vs)))
      by (simpl length in *; word_lia).
    erewrite submit_more; [|exact Hb|].
    2:{ cbn. rewrite Hmain, copy_n_take, Hc by (unfold full in Hv; lia). cbn. rewrite Htot. done. }
    rewrite (IH ltac:(done) (main - 1) ltac:(lia) (Z.of_nat (length (v2 :: vs))) (cur + n));
      [|done | rewrite <- Htot; apply u32_range | done].
    cbn [payload gs set_gs set_backend with_f set_uniforms uniforms uniforms_f].
    replace (Z.to_nat (main - 1)) with m by lia.
    destruct (copy_to _ f (cur + n)) as [e|f2]; [done|]. cbn [mbind R_bind lift G_bind].
    unfold set_gs, set_backend. cbn [gs gs_unit backend]. rewrite with_f_with_f.
    rewrite (length_app (take _ v)), Nat2Z.inj_add, Hlen, Z.add_assoc.
    replace (main - Z.of_nat (length (v :: v2 :: vs)))
      with (main - 1 - Z.of_nat (length (v2 :: vs))) by (simpl length; lia). done.
Qed.

Lemma payload_ne vs n : vs <> [] -> Forall full vs -> 1 <= n <= 16 ->
  vs ≫= take (Z.to_nat n) <> [].
Proof.
  intros Hne Hall Hn. destruct Hall as [|v vs Hv _]; [done|]. cbn [mbind list_bind].
  pose proof (length_payload_vertex n v Hv Hn). destruct (take _ v); simpl in *; [lia | done].
Qed.

Lemma variable_payload_ne b vs main total cur n : vs <> [] -> Forall full vs -> 1 <= n <= 16 ->
  b = VariablePrimitive false main total cur n -> payload b vs <> [].
Proof.
  intros Hne Hall Hn ->. cbn [payload]. destruct (Z.to_nat main) as [|m].
  - rewrite take_0, drop_0. apply (payload_ne vs 1); [done | done | lia].
  - destruct Hall as [|v vs Hv Hall]; [done|]. cbn [take drop].
    intros [H _]%app_eq_nil.
    revert H. apply (payload_ne (v :: take m vs) n); [done | | done].
    constructor; [done | by apply Forall_take].
Qed.

(** C36: In each mode of the geometry pipeline, submitting the vertices of a group one by
    one is the same as writing what the group keeps of them with one write and then
    running the geometry shader once.  No shader runs before the last vertex, and a
    group that does not fit in the 96 uniforms (or the input buffer) is written outside
    of them. *)
Theorem submit_group (vs : list AttributeBuffer) b p :
  backend p = Some b -> takes b (Z.of_nat (length vs)) -> vs <> [] -> Forall full vs ->
  submit_all exp2f log2f fuel r vs p =
  (p' ← lift (deliver r b vs p); invoke exp2f log2f fuel p').
Proof.
  intros Hb Ht Hne Hall. destruct b as [buf cur end_ n | ni main total cur n | begin cur end_ n];
    cbn [takes] in Ht.
  - destruct Ht as (Hc & Hn & He). rewrite (point_group vs buf cur end_ n p) by done.
    by rewrite copy_to_write by (by try apply payload_ne).
  - destruct Ht as (-> & Hc & Hm & Hn & He & Hu).
    rewrite (variable_group vs main total cur n p) by (done || by rewrite He). cbv zeta.
    by rewrite copy_to_write by (by try eapply variable_payload_ne).
  - destruct Ht as (Hc & Hn & He). rewrite (fixed_group vs begin cur end_ n p) by done.
    by rewrite copy_to_write by (by try apply payload_ne).
Qed.

End Groups.

(** ** Configuration *)

(** The widths of the fields. *)
Record regs_ok (r : PipelineRegs) : Prop := {
  ok_total : 0 <= vs_outmap_total_minus_1_a r < 16;
  ok_fixed : 0 <= fixed_vertex_num_minus_1 r < 16;
  ok_start : is_u8 (start_index r);
  ok_attributes : 0 <= max_input_attribute_index r < 16 }.

(** A configuration of the geometry pipeline that passes the assertions waits for a
    whole group.  In point mode the group never exceeds the 16 input registers; in the
    variable mode the index submitted next says how long the group is; in the fixed mode
    the length is the configured one, wherever the configured start puts it. *)
Theorem Reconfigure_ready r p p' :
  regs_ok r -> Reconfigure_pipeline r p = inr p' ->
  match backend p' with
  | None => use_gs r = UseGS_No
  | Some (Point buf cur end_ n as b) =>
      exists k, 0 < k /\ takes b k /\ cur + n * k <= 16
  | Some (VariablePrimitive _ _ _ _ _) =>
      NeedIndexInput p' = true /\
      forall val, is_u32 val -> uniforms_f (uniforms (gs p')) <> [] ->
        exists p'' b, SubmitIndex r val p' = inr p'' /\ backend p'' = Some b /\ takes b val
  | Some (FixedPrimitive begin cur _ _ as b) =>
      begin = start_index r /\ cur = begin /\ takes b (fixed_vertex_num_minus_1 r + 1)
  end.
Proof.
  intros [H1 H2 H3 H4]. unfold Reconfigure_pipeline.
  destruct (config (match backend p with Some b => _ | None => _ end)); [done|]. cbn [mbind R_bind].
  destruct (Z.eqb_spec (use_gs r) UseGS_No) as [|_]; [by intros [= <-]|].
  destruct (config (shader_mode r =? _)); [done|]. cbn [mbind R_bind].
  destruct (config (use_gs r =? _)); [done|]. cbn [mbind R_bind].
  destruct (config (vs_outmap_total_minus_1_a r =? _)); [done|]. cbn [mbind R_bind].
  destruct (gs_mode r =? GSMode_Point); [|destruct (gs_mode r =? GSMode_VariablePrimitive);
    [|destruct (gs_mode r =? GSMode_FixedPrimitive); [|done]]].
  - unfold new_Point, config, assert.
    destruct (variable_primitive r =? 0); [|done].
    destruct (input_to_uniform r =? 0); [|done]. cbn [mbind R_bind].
    destruct (Z.eqb_spec ((max_input_attribute_index r + 1) mod (vs_outmap_total_minus_1_a r + 1)) 0)
      as [Hmod|]; [|done].
    cbn [mbind R_bind]. intros [= <-]. cbn [backend set_backend takes].
    set (n := vs_outmap_total_minus_1_a r + 1) in *. set (g := max_input_attribute_index r + 1) in *.
    assert (g = n * (g / n)) by (apply Z.div_exact; lia).
    exists (g / n). split_and!; unfold n, g in *; nia || lia.
  - unfold new_VariablePrimitive, config, assert.
    destruct (variable_primitive r =? 1); [|done].
    destruct (input_to_uniform r =? 1); [|done]. cbn [mbind R_bind].
    intros [= <-]. cbn [backend set_backend]. split; [done|]. intros val Hval Hne.
    unfold SubmitIndex. cbn [backend set_backend backend_SubmitIndex config assert mbind R_bind].
    rewrite put_spec by done.
    destruct (uniforms_f _) as [|f0 fs] eqn:Hf; [done|].
    rewrite (proj2 (Z.ltb_lt _ _)) by (simpl; lia). cbn [mbind R_bind].
    eexists _, _. split; [done|]. split; [done|]. cbn [takes].
    pose proof (u32_range (variable_vertex_main_num_minus_1 r + 1)) as [Hm _].
    split_and!; done || lia.
  - unfold new_FixedPrimitive, config, assert.
    destruct (variable_primitive r =? 0); [|done].
    destruct (input_to_uniform r =? 1); [|done]. cbn [mbind R_bind].
    destruct (vs_outmap_total_minus_1_a r + 1 =? stride_minus_1 r + 1); [|done]. cbn [mbind R_bind].
    intros [= <-]. cbn [backend set_backend takes]. unfold is_u8 in H3. split_and!; done || lia.
Qed.

(** ** From emitted vertices to triangles *)

Lemma semantic_range shift raw : 0 <= shift -> 0 <= field shift 5 raw < 32.
Proof.
  intros. unfold field. rewrite Z.land_ones by lia. apply Z.mod_pos_bound. lia.
Qed.

Lemma put_slot {A} (l : list A) i v : 0 <= i < Z.of_nat (length l) ->
  put l i v = inr (<[Z.to_nat i := v]> l).
Proof. intros. rewrite put_spec by lia. by zdecide. Qed.

Lemma fill_slots_total maps out attrib slots :
  full out -> length slots = 32%nat -> 0 <= attrib -> attrib + Z.of_nat (length maps) <= 16 ->
  exists s, fill_slots maps out attrib slots = inr s /\ length s = 32%nat.
Proof.
  intros Hout. revert attrib slots. induction maps as [|raw maps IH]; intros attrib slots Hs Ha Hl;
    [by eexists|].
  cbn [fill_slots length] in *.
  destruct (lookup_lt_is_Some_2 out (Z.to_nat attrib)) as [v Hv]; [unfold full in Hout; lia|].
  unfold get at 1. rewrite Hv. zdecide. cbn [mbind R_bind].
  do 4 (rewrite put_slot by (pose proof (semantic_range 0 raw); pose proof (semantic_range 8 raw);
          pose proof (semantic_range 16 raw); pose proof (semantic_range 24 raw);
          rewrite ?length_insert, Hs; lia); cbn [mbind R_bind]).
  apply IH; rewrite ?length_insert; lia.
Qed.

(** A colour component is in [0, 1]. *)
Definition saturated (c : spec_float) : Prop :=
  c = f32_one \/ (SFabs c = c /\ SFltb c f32_one = true).

Lemma saturate_color_saturated c : saturated (saturate_color c).
Proof.
  unfold saturate_color, saturated. cbv zeta.
  destruct (SFltb (SFabs c) f32_one) eqn:H; [right; split; [by destruct c | done] | by left].
Qed.

(** For any output map, the conversion of an attribute buffer to a vertex stays
    inside its arrays: the vertex has its 24 numbers, whose colour is between 0 and 1. *)
Theorem OutputVertex_total total attributes out :
  full out -> length attributes = 7%nat ->
  exists v, OutputVertex total attributes out = inr v /\ length v = 24%nat /\
    Forall saturated (take 4 (drop Semantic_COLOR_R v)).
Proof.
  intros Hout Hattr. unfold OutputVertex.
  destruct (fill_slots_total (take (Z.to_nat (Z.land total 7)) attributes) out 0
              (replicate 32 Float.One)) as (s & -> & Hs); [done | done | done | |].
  { rewrite length_take. lia. }
  cbn [mbind R_bind]. do 32 (destruct s as [|? s]; [done|]). destruct s; [|done].
  eexists. split; [done|]. split; [done|].
  cbn [take drop app fmap list_fmap Semantic_COLOR_R].
  do 4 (apply Forall_cons; split; [apply saturate_color_saturated|]). done.
Qed.

Section Emission.
Variable vs_output_total : Z.
Variable vs_output_attributes : list Z.
Hypothesis attributes_len : length vs_output_attributes = 7%nat.

Lemma OutputVertex_ok buf : full buf ->
  exists v, OutputVertex vs_output_total vs_output_attributes buf = inr v.
Proof.
  intros Hb. unfold OutputVertex.
  destruct (fill_slots_total (take (Z.to_nat (Z.land vs_output_total 7)) vs_output_attributes)
              buf 0 (replicate 32 Float.One)) as (s & -> & Hs); [done | done | done | |].
  { rewrite length_take. lia. }
  by eexists.
Qed.

(** An emission of a primitive by the geometry shader makes one triangle: an
    assembler in the shader topology that is empty gets the three vertices of the
    emitter, the first two swapped when the winding is inverted, and is empty again. *)
Theorem Emit_one_triangle e regs e' a :
  wf_emitter e -> length regs = 16%nat -> prim_emit e = true -> calls e = [] ->
  Emit e regs = inr e' -> topology a = ShaderTopology -> fresh a ->
  exists v0 v1 v2 a',
    mapM (M := R) (OutputVertex vs_output_total vs_output_attributes) (buffer e') =
      inr [v0; v1; v2] /\
    handle_calls vs_output_total vs_output_attributes (calls e') a =
      inr ([if winding e then (v1, v0, v2) else (v0, v1, v2)], a') /\
    topology a' = ShaderTopology /\ fresh a'.
Proof.
  intros He Hr Hp Hc HE Ht (Hi & Hs & Hw & Hl).
  pose proof (safe_Emit e regs He Hr) as Hsafe. rewrite HE in Hsafe.
  destruct Hsafe as [_ _ Hlen Hfull].
  assert (Hcalls : calls e' = (if winding e then [WindingSetter] else []) ++ (VertexHandler <$> buffer e')).
  { revert HE. unfold Emit. destruct (assert _ _); [done|]. cbn [mbind R_bind].
    destruct (get _ _); [done|]. cbn [mbind R_bind].
    destruct (copy_outputs _ _ _ _); [done|]. cbn [mbind R_bind].
    destruct (put _ _ _); [done|]. cbn [mbind R_bind]. intros [= <-]. cbn. by rewrite Hc, Hp. }
  rewrite Hcalls. destruct (buffer e') as [|b0 [|b1 [|b2 [|]]]]; try done.
  apply Forall_cons in Hfull as [H0 [H1 [H2 _]%Forall_cons]%Forall_cons].
  destruct (OutputVertex_ok b0 H0) as [v0 E0].
  destruct (OutputVertex_ok b1 H1) as [v1 E1].
  destruct (OutputVertex_ok b2 H2) as [v2 E2].
  destruct a as [t i buf ready wd]. simpl in Ht, Hi, Hs, Hw, Hl. subst.
  destruct buf as [|a0 [|a1 [|]]]; try done.
  exists v0, v1, v2, (mkAssembler ShaderTopology 0 [v0; v1] false false).
  split; [cbn; by rewrite E0, E1, E2|].
  split; [|done].
  destruct (winding e); cbn; rewrite E0; cbn; rewrite E1; cbn; rewrite E2; done.
Qed.

End Emission.
