(* ===== verification/Draw.v ===== *)
(** * Draw: vertex loading and drawing (video_core/pica: vertex_loader.cpp, regs_pipeline.h, pica_core.cpp)

    [LoadVertices] reads vertices from memory, runs the vertex shader on them behind a
    cache of 64 entries and gives the results to the geometry pipeline;
    [SubmitImmediate] builds vertices from words written to a register.
    [GetPhysicalPointer] is a parameter: the bytes from an address to the end of its
    block, none for a null pointer. *)
From Stdlib Require Import SpecFloat.
From stdpp Require Import list.
From S2P Require Import Prelude PicaFloat ShaderBytecode Shader ShaderUpload ShaderSafe Geometry.

Local Open Scope Z_scope.

(** ** Vertex attributes *)

Inductive VertexAttributeFormat := BYTE | UBYTE | SHORT | FLOAT.

#[export] Instance VertexAttributeFormat_eq_dec : EqDecision VertexAttributeFormat.
Proof. solve_decision. Defined.

Definition format_of (v : Z) : VertexAttributeFormat :=
  if v =? 0 then BYTE else if v =? 1 then UBYTE else if v =? 2 then SHORT else FLOAT.

Record LoaderConfig := mkLoaderConfig { data_offset : Z; comps_low : Z; comps_high : Z }.

(** The words of [vertex_attributes], and the loaders. *)
Record VertexAttributes := mkVertexAttributes {
  base_address : Z; formats_low : Z; formats_high : Z; attribute_loaders : list LoaderConfig }.

Definition GetPhysicalBaseAddress (a : VertexAttributes) : Z := field 1 28 (base_address a) * 16.

(** The elements of an array of twelve fields; the others are outside it. *)
Definition twelve (n : Z) (v : Z) : R Z := if (0 <=? n) && (n <? 12) then inr v else inl OutOfBounds.

Definition GetFormat (a : VertexAttributes) (n : Z) : R VertexAttributeFormat :=
  v ← twelve n (if n <? 8 then field (4 * n) 2 (formats_low a) else field (4 * (n - 8)) 2 (formats_high a));
  inr (format_of v).

Definition GetNumElements (a : VertexAttributes) (n : Z) : R Z :=
  v ← twelve n (if n <? 8 then field (4 * n + 2) 2 (formats_low a)
                else field (4 * (n - 8) + 2) 2 (formats_high a));
  inr (v + 1).

Definition format_bytes (f : VertexAttributeFormat) : Z :=
  match f with FLOAT => 4 | SHORT => 2 | BYTE | UBYTE => 1 end.

Definition GetElementSizeInBytes (a : VertexAttributes) (n : Z) : R Z :=
  f ← GetFormat a n; inr (format_bytes f).

Definition GetStride (a : VertexAttributes) (n : Z) : R Z :=
  k ← GetNumElements a n; s ← GetElementSizeInBytes a n; inr (k * s).

Definition IsDefaultAttribute (a : VertexAttributes) (id : Z) : bool :=
  (12 <=? id) || Z.testbit (field 16 12 (formats_high a)) id.

Definition GetNumTotalAttributes (a : VertexAttributes) : Z := field 28 4 (formats_high a) + 1.

Definition GetComponent (l : LoaderConfig) (n : Z) : R Z :=
  twelve n (if n <? 8 then field (4 * n) 4 (comps_low l) else field (4 * (n - 8)) 4 (comps_high l)).
Definition byte_count (l : LoaderConfig) : Z := field 16 8 (comps_high l).
Definition component_count (l : LoaderConfig) : Z := field 28 4 (comps_high l).

Definition AlignUp (value size : Z) : Z :=
  let m := value mod size in
  let value := value - m in
  if m =? 0 then value else value + size.

(** ** The vertex loader *)

Record VertexLoader := mkVertexLoader {
  vertex_attribute_sources : list Z;
  vertex_attribute_strides : list Z;
  vertex_attribute_formats : list VertexAttributeFormat;
  vertex_attribute_elements : list Z;
  vertex_attribute_is_default : list bool;
  num_total_attributes : Z }.

(** One component of a loader: the new offset and arrays. *)
Definition load_component (a : VertexAttributes) (cfg : LoaderConfig) (component : Z)
    (st : Z * VertexLoader) : R (Z * VertexLoader) :=
  let (offset, ld) := st in
  if 12 <=? component then inr st else
  attribute_index ← GetComponent cfg component;
  if attribute_index <? 12 then
    esize ← GetElementSizeInBytes a attribute_index;
    let offset := AlignUp offset esize in
    sources ← put (vertex_attribute_sources ld) attribute_index (data_offset cfg + offset);
    strides ← put (vertex_attribute_strides ld) attribute_index (byte_count cfg);
    fmt ← GetFormat a attribute_index;
    formats ← put (vertex_attribute_formats ld) attribute_index fmt;
    k ← GetNumElements a attribute_index;
    elements ← put (vertex_attribute_elements ld) attribute_index k;
    stride ← GetStride a attribute_index;
    inr (offset + stride,
         mkVertexLoader sources strides formats elements (vertex_attribute_is_default ld)
           (num_total_attributes ld))
  else inr (AlignUp offset 4 + (attribute_index - 11) * 4, ld).

Fixpoint load_components (a : VertexAttributes) (cfg : LoaderConfig) (components : list Z)
    (st : Z * VertexLoader) : R (Z * VertexLoader) :=
  match components with
  | [] => inr st
  | c :: components => st ← load_component a cfg c st; load_components a cfg components st
  end.

Fixpoint load_loaders (a : VertexAttributes) (cfgs : list LoaderConfig) (ld : VertexLoader)
    : R VertexLoader :=
  match cfgs with
  | [] => inr ld
  | cfg :: cfgs =>
      '(_, ld) ← load_components a cfg (seqZ 0 (component_count cfg)) (0, ld);
      load_loaders a cfgs ld
  end.

(** The formats are not initialised by the code. *)
Definition initial_loader (a : VertexAttributes) (formats : list VertexAttributeFormat) : VertexLoader :=
  mkVertexLoader (replicate 16 0xdeadbeef) (replicate 16 0) formats (replicate 16 0)
    (IsDefaultAttribute a <$> seqZ 0 16) (GetNumTotalAttributes a).

(** [VertexLoader::VertexLoader] *)
Definition new_VertexLoader (a : VertexAttributes) (formats : list VertexAttributeFormat)
    : R VertexLoader :=
  load_loaders a (take 12 (attribute_loaders a)) (initial_loader a formats).

(** A little-endian number of [n] bytes. *)
Fixpoint read_le (bytes : list Z) (offset : Z) (n : nat) : R Z :=
  match n with
  | O => inr 0
  | S n => b ← get bytes offset; rest ← read_le bytes (offset + 1) n; inr (b + 256 * rest)
  end.

(** The conversion of an element to a [float]; integers of 8 and 16 bits are exact. *)
Definition element_value (f : VertexAttributeFormat) (raw : Z) : spec_float :=
  match f with
  | BYTE => binary_normalize 24 128 (s8 raw) 0 false
  | UBYTE => binary_normalize 24 128 raw 0 false
  | SHORT => binary_normalize 24 128 (s16 raw) 0 false
  | FLOAT => float_of_bits raw
  end.

(** [data[comp]] *)
Definition read_element (f : VertexAttributeFormat) (data : list Z) (comp : Z) : R spec_float :=
  raw ← read_le data (comp * format_bytes f) (Z.to_nat (format_bytes f));
  inr (element_value f raw).

(** [out[attrib][comp] = v] *)
Definition put_component (out : AttributeBuffer) (attrib comp : Z) (v : spec_float) : R AttributeBuffer :=
  old ← get out attrib; put out attrib (set_component old comp v).

Fixpoint LoadAttribute (f : VertexAttributeFormat) (data : list Z) (attrib : Z) (comps : list Z)
    (out : AttributeBuffer) : R AttributeBuffer :=
  match comps with
  | [] => inr out
  | comp :: comps =>
      v ← read_element f data comp;
      out ← put_component out attrib comp v;
      LoadAttribute f data attrib comps out
  end.

(** The components from [elements] to the last one. *)
Fixpoint fill_components (attrib : Z) (comps : list Z) (out : AttributeBuffer) : R AttributeBuffer :=
  match comps with
  | [] => inr out
  | comp :: comps =>
      out ← put_component out attrib comp (if comp =? 3 then Float.One else Float.Zero);
      fill_components attrib comps out
  end.

Section Memory.
Variable GetPhysicalPointer : Z -> list Z.

Definition load_attribute (ld : VertexLoader) (base_addr vertex : Z) (defaults : AttributeBuffer)
    (i : Z) (inp : AttributeBuffer) : R AttributeBuffer :=
  is_default ← get (vertex_attribute_is_default ld) i;
  if (is_default : bool) then v ← get defaults i; put inp i v else
  elements ← get (vertex_attribute_elements ld) i;
  if elements =? 0 then inr inp else
  source ← get (vertex_attribute_sources ld) i;
  stride ← get (vertex_attribute_strides ld) i;
  let source_addr := u32 (base_addr + source + stride * vertex) in
  f ← get (vertex_attribute_formats ld) i;
  inp ← LoadAttribute f (GetPhysicalPointer source_addr) i (seqZ 0 elements) inp;
  fill_components i (seqZ elements (4 - elements)) inp.

Fixpoint load_attributes (ld : VertexLoader) (base_addr vertex : Z) (defaults : AttributeBuffer)
    (attrs : list Z) (inp : AttributeBuffer) : R AttributeBuffer :=
  match attrs with
  | [] => inr inp
  | i :: attrs =>
      inp ← load_attribute ld base_addr vertex defaults i inp;
      load_attributes ld base_addr vertex defaults attrs inp
  end.

Definition LoadVertex (ld : VertexLoader) (base_addr vertex : Z) (inp defaults : AttributeBuffer)
    : R AttributeBuffer :=
  load_attributes ld base_addr vertex defaults (seqZ 0 (num_total_attributes ld)) inp.

End Memory.

(** ** The loop over the vertices

    The shader and the geometry pipeline behind it are given as operations. *)
Section Loop.
Context {Sink : Type}.
(** Load and shade a vertex: the unit and the output buffer are those of the last run. *)
Variable shade : Z -> ShaderUnit -> AttributeBuffer -> G (AttributeBuffer * ShaderUnit).
(** The vertex at a position of the batch. *)
Variable vertex_at : Z -> R Z.
Variable NeedIndex : Sink -> bool.
Variable SendIndex : Z -> Sink -> R Sink.
Variable SendVertex : AttributeBuffer -> Sink -> G Sink.

Definition VERTEX_CACHE_SIZE : nat := 64.

(** An entry of the cache, [None] when it is not valid. *)
Definition VertexCache : Type := list (option (Z * AttributeBuffer)).

Record LoopState := mkLoopState {
  vs_unit : ShaderUnit;
  vs_output : AttributeBuffer;
  vertex_cache : VertexCache;
  vertex_cache_pos : Z;
  sink : Sink }.

(** The first valid entry for a vertex. *)
Fixpoint cache_find (vertex : Z) (c : VertexCache) : option AttributeBuffer :=
  match c with
  | [] => None
  | Some (id, out) :: c => if vertex =? id then Some out else cache_find vertex c
  | None :: c => cache_find vertex c
  end.

Definition cache_store (vertex : Z) (out : AttributeBuffer) (c : VertexCache) (pos : Z)
    : R (VertexCache * Z) :=
  c ← put c pos (Some (u16 vertex, out)); inr (c, (pos + 1) mod Z.of_nat VERTEX_CACHE_SIZE).

(** One iteration of the loop of [LoadVertices], for the vertex at its index. *)
Definition load_one (is_indexed : bool) (vertex : Z) (st : LoopState) : G LoopState :=
  if is_indexed && NeedIndex (sink st) then
    s ← lift (SendIndex vertex (sink st));
    mret (mkLoopState (vs_unit st) (vs_output st) (vertex_cache st) (vertex_cache_pos st) s)
  else
    st ← match (if is_indexed then cache_find vertex (vertex_cache st) else None) with
         | Some out =>
             mret (mkLoopState (vs_unit st) out (vertex_cache st) (vertex_cache_pos st) (sink st))
         | None =>
             '(out, u) ← shade vertex (vs_unit st) (vs_output st);
             '(c, pos) ← lift (if is_indexed
                               then cache_store vertex out (vertex_cache st) (vertex_cache_pos st)
                               else inr (vertex_cache st, vertex_cache_pos st));
             mret (mkLoopState u out c pos (sink st))
         end;
    s ← SendVertex (vs_output st) (sink st);
    mret (mkLoopState (vs_unit st) (vs_output st) (vertex_cache st) (vertex_cache_pos st) s).

Fixpoint load_all (is_indexed : bool) (indices : list Z) (st : LoopState) : G LoopState :=
  match indices with
  | [] => mret st
  | index :: indices =>
      v ← lift (vertex_at index); st ← load_one is_indexed v st; load_all is_indexed indices st
  end.

End Loop.

(** ** Drawing *)

(** The registers that drawing reads, decoded. *)
Record DrawRegs := mkDrawRegs {
  pipeline : PipelineRegs;
  vertex_attributes : VertexAttributes;
  index_array : Z;
  num_vertices : Z;
  vertex_offset : Z;
  max_input_attrib_index : Z;
  vs_max_input_attribute_index : Z;
  vs_map_low : Z;
  vs_map_high : Z;
  vs_output_mask : Z;
  vs_main_offset : Z;
  vs_output_total : Z;
  vs_output_attributes : list Z }.

Definition Triangle : Type := list spec_float * list spec_float * list spec_float.

(** What is behind the vertex shader; [drawn] are the triangles given to the rasteriser. *)
Record Sink := mkSink {
  geometry_pipeline : GeometryPipeline;
  primitive_assembler : PrimitiveAssembler (list spec_float);
  drawn : list Triangle }.

Record PicaCore := mkPicaCore {
  vs_setup : ShaderSetup;
  core_sink : Sink;
  input_default_attributes : AttributeBuffer;
  input_vertex : AttributeBuffer;
  current_attribute : Z;
  reset_geometry_pipeline : bool;
  queue : PackedAttribute.PackedAttribute;
  (** [vs_default_attributes_setup.index] *)
  setup_index : Z }.

Definition set_core (s : ShaderSetup) (k : Sink) (current : Z) (reset : bool) (c : PicaCore) : PicaCore :=
  mkPicaCore s k (input_default_attributes c) (input_vertex c) current reset (queue c) (setup_index c).
Definition set_queue (q : PackedAttribute.PackedAttribute) (c : PicaCore) : PicaCore :=
  mkPicaCore (vs_setup c) (core_sink c) (input_default_attributes c) (input_vertex c)
    (current_attribute c) (reset_geometry_pipeline c) q (setup_index c).
Definition set_default (l : AttributeBuffer) (index : Z) (c : PicaCore) : PicaCore :=
  mkPicaCore (vs_setup c) (core_sink c) l (input_vertex c)
    (current_attribute c) (reset_geometry_pipeline c) (queue c) index.
Definition set_input_vertex (l : AttributeBuffer) (current : Z) (c : PicaCore) : PicaCore :=
  mkPicaCore (vs_setup c) (core_sink c) (input_default_attributes c) l
    current (reset_geometry_pipeline c) (queue c) (setup_index c).

(** [ShaderUnit]'s constructor, for a vertex shader. *)
Definition new_ShaderUnit : ShaderUnit :=
  mkShaderUnit [0; 0; 0] [false; false] attribute_buffer0 attribute_buffer0 attribute_buffer0 None.

(** A semantic of the output map is below 24 or invalid. *)
Definition valid_semantic (raw shift : Z) : bool :=
  let semantic := Z.land (Z.shiftr raw shift) 0x1F in (semantic <? 24) || (semantic =? 31).

Definition ValidateSemantics (total : Z) (attributes : list Z) : R unit :=
  config (forallb (fun raw => forallb (valid_semantic raw) [0; 8; 16; 24])
            (take (Z.to_nat total) attributes)).

Section Drawing.
Variable GetPhysicalPointer : Z -> list Z.
Variable ComputeHash64 : list Z -> Z.
Variables exp2f log2f : spec_float -> spec_float.
(** The contents of local arrays that are not initialised. *)
Variable uninitialised : AttributeBuffer.
Variable uninitialised_formats : list VertexAttributeFormat.
Variable fuel : nat.
Variable regs : DrawRegs.

Definition run_shader (s : ShaderSetup) (u : ShaderUnit) : G ShaderUnit :=
  of_outcome (RunInterpreter exp2f log2f s fuel u).

(** Load, shade and write out. *)
Definition shade_input (s : ShaderSetup) (inp : AttributeBuffer) (u : ShaderUnit)
    (out : AttributeBuffer) : G (AttributeBuffer * ShaderUnit) :=
  u ← lift (LoadInput (vs_max_input_attribute_index regs) (vs_map_low regs) (vs_map_high regs) u inp);
  u ← run_shader s u;
  out ← lift (WriteOutput (vs_output_mask regs) u out);
  mret (out, u).

Definition shade_vertex (s : ShaderSetup) (ld : VertexLoader) (defaults : AttributeBuffer)
    (vertex : Z) (u : ShaderUnit) (out : AttributeBuffer) : G (AttributeBuffer * ShaderUnit) :=
  inp ← lift (LoadVertex GetPhysicalPointer ld (GetPhysicalBaseAddress (vertex_attributes regs))
                vertex uninitialised defaults);
  shade_input s inp u out.

(** [geometry_pipeline.SubmitVertex], with the handlers of [PicaCore]. *)
Definition send_vertex (out : AttributeBuffer) (k : Sink) : G Sink :=
  '(cs, p) ← SubmitVertex_pipeline exp2f log2f fuel (pipeline regs) out (geometry_pipeline k);
  '(tris, a) ← lift (handle_calls (vs_output_total regs) (vs_output_attributes regs) cs
                       (primitive_assembler k));
  mret (mkSink p a (drawn k ++ tris)).

Definition send_index (index : Z) (k : Sink) : R Sink :=
  p ← SubmitIndex (pipeline regs) index (geometry_pipeline k);
  inr (mkSink p (primitive_assembler k) (drawn k)).

Definition set_pipeline (p : GeometryPipeline) (k : Sink) : Sink :=
  mkSink p (primitive_assembler k) (drawn k).

(** The vertex at a position of the batch. *)
Definition batch_vertex (is_indexed : bool) (index : Z) : R Z :=
  if is_indexed then
    let indices := GetPhysicalPointer
      (u32 (GetPhysicalBaseAddress (vertex_attributes regs) + field 0 28 (index_array regs))) in
    if field 31 1 (index_array regs) =? 0 then get indices index else read_le indices (2 * index) 2
  else inr (u32 (index + vertex_offset regs)).

Definition LoadVertices (is_indexed : bool) (c : PicaCore) : G PicaCore :=
  ld ← lift (new_VertexLoader (vertex_attributes regs) uninitialised_formats);
  _ ← lift (ValidateSemantics (vs_output_total regs) (vs_output_attributes regs));
  s ← lift (SetupBatch ComputeHash64 (vs_main_offset regs) (vs_setup c));
  p ← lift (Reconfigure_pipeline (pipeline regs) (geometry_pipeline (core_sink c)));
  p ← lift (Setup ComputeHash64 (pipeline regs) p);
  _ ← lift (config (negb (NeedIndexInput p) || is_indexed));
  st ← load_all (shade_vertex s ld (input_default_attributes c)) (batch_vertex is_indexed)
         (fun k => NeedIndexInput (geometry_pipeline k)) send_index send_vertex is_indexed
         (seqZ 0 (num_vertices regs))
         (mkLoopState new_ShaderUnit uninitialised (replicate VERTEX_CACHE_SIZE None) 0
            (set_pipeline p (core_sink c)));
  mret (set_core s (sink st) (current_attribute c) (reset_geometry_pipeline c) c).

(** [use_hw_shader] is a setting; [AccelerateDrawBatch] is the renderer. *)
Definition accelerate_draw (use_hw_shader : bool) (c : PicaCore) : bool :=
  let a := primitive_assembler (core_sink c) in
  if use_gs (pipeline regs) =? UseGS_Yes then false else
  use_hw_shader && IsEmpty a &&
  (if bool_decide (topology a = ShaderTopology \/ topology a = List)
   then num_vertices regs mod 3 =? 0 else true).

Definition DrawArrays (use_hw_shader : bool) (AccelerateDrawBatch : bool -> bool)
    (is_indexed : bool) (c : PicaCore) : G PicaCore :=
  if accelerate_draw use_hw_shader c && AccelerateDrawBatch is_indexed then mret c
  else LoadVertices is_indexed c.

(** ** Immediate mode *)

Definition DrawImmediate (c : PicaCore) : G PicaCore :=
  s ← lift (SetupBatch ComputeHash64 (vs_main_offset regs) (vs_setup c));
  '(out, _) ← shade_input s (input_vertex c) new_ShaderUnit attribute_buffer0;
  p ← lift (if reset_geometry_pipeline c
            then Reconfigure_pipeline (pipeline regs) (geometry_pipeline (core_sink c))
            else inr (geometry_pipeline (core_sink c)));
  _ ← lift (config (negb (NeedIndexInput p)));
  p ← lift (Setup ComputeHash64 (pipeline regs) p);
  k ← send_vertex out (set_pipeline p (core_sink c));
  mret (set_core s k 0 false c).

Definition IMMEDIATE_MODE_INDEX : Z := 15.

Definition SubmitImmediate (value : Z) (c : PicaCore) : G PicaCore :=
  match PackedAttribute.Push (queue c) value false with
  | None => Some (inl OutOfBounds)
  | Some (full, q) =>
      let c := set_queue q c in
      if negb full then mret c else
      if IMMEDIATE_MODE_INDEX <? setup_index c then mret c else
      let (attribute, q) := PackedAttribute.Get q false in
      let c := set_queue q c in
      if setup_index c <? IMMEDIATE_MODE_INDEX then
        l ← lift (put (input_default_attributes c) (setup_index c) attribute);
        mret (set_default l (u32 (setup_index c + 1)) c)
      else
        l ← lift (put (input_vertex c) (current_attribute c) attribute);
        if current_attribute c <? max_input_attrib_index regs
        then mret (set_input_vertex l (current_attribute c + 1) c)
        else DrawImmediate (set_input_vertex l (current_attribute c) c)
  end.

Fixpoint SubmitImmediate_all (values : list Z) (c : PicaCore) : G PicaCore :=
  match values with
  | [] => mret c
  | v :: values => c ← SubmitImmediate v c; SubmitImmediate_all values c
  end.

(** A write of the register [vs_default_attributes_setup.index]: [immediate.Reset]. *)
Definition write_setup_index (value : Z) (c : PicaCore) : PicaCore :=
  mkPicaCore (vs_setup c) (core_sink c) (input_default_attributes c) (input_vertex c)
    0 true (PackedAttribute.Reset (queue c)) value.

End Drawing.

(** ** The vertex cache *)

Section Cache.
Context {Sink : Type}.
Variable shade : Z -> ShaderUnit -> AttributeBuffer -> G (AttributeBuffer * ShaderUnit).
Variable vertex_at : Z -> R Z.
Variable NeedIndex : Sink -> bool.
Variable SendIndex : Z -> Sink -> R Sink.
Variable SendVertex : AttributeBuffer -> Sink -> G Sink.

(** What the shader computes for a vertex: it depends on the vertex only, whatever the
    unit has been used for, as long as [ok] holds of the unit and [same] of the part of
    the output buffer that is never written. *)
Variable output_of : Z -> AttributeBuffer.
Variable ok : ShaderUnit -> Prop.
Variable same : AttributeBuffer -> Prop.
Hypothesis shade_pure : forall v u out, is_u16 v -> ok u -> same out ->
  exists u', shade v u out = Some (inr (output_of v, u')) /\ ok u' /\ same (output_of v).

(** The loop without a cache: every vertex is shaded. *)
Fixpoint load_shaded (indices : list Z) (k : Sink) : G Sink :=
  match indices with
  | [] => mret k
  | index :: indices =>
      v ← lift (vertex_at index);
      k ← (if NeedIndex k then lift (SendIndex v k) else SendVertex (output_of v) k);
      load_shaded indices k
  end.

(** Every valid entry holds the output of its vertex. *)
Record cache_ok (c : VertexCache) (pos : Z) : Prop := {
  cache_len : length c = VERTEX_CACHE_SIZE;
  cache_pos : 0 <= pos < 64;
  cache_entries : Forall (fun e => match e with Some (v, out) => out = output_of v /\ same out
                                              | None => True end) c }.

Lemma cache_find_ok v c pos out : cache_ok c pos -> cache_find v c = Some out ->
  out = output_of v /\ same out.
Proof.
  intros [_ _ Hall]. induction Hall as [|[[id o]|] c He Hall IH]; simpl; [done | | done].
  destruct (Z.eqb_spec v id) as [->|]; [|done]. by intros [= <-].
Qed.

Lemma cache_store_ok v c pos : is_u16 v -> same (output_of v) -> cache_ok c pos ->
  exists c' pos', cache_store v (output_of v) c pos = inr (c', pos') /\ cache_ok c' pos'.
Proof.
  intros Hv Hs [Hl Hp Hall]. unfold cache_store.
  rewrite put_slot by (rewrite Hl; unfold VERTEX_CACHE_SIZE; lia).
  cbn [mbind R_bind]. eexists _, _. split; [done|]. split.
  - by rewrite length_insert.
  - unfold VERTEX_CACHE_SIZE. zlia.
  - apply Forall_insert; [done|]. rewrite u16_small by done. done.
Qed.

Definition state_ok (st : LoopState) : Prop :=
  ok (vs_unit st) /\ same (vs_output st) /\ cache_ok (vertex_cache st) (vertex_cache_pos (Sink := Sink) st).

(** The result of a computation without the loop's own state. *)
Definition sink_of (m : G (LoopState (Sink := Sink))) : G Sink := st ← m; mret (sink st).

Lemma load_one_sink v st : is_u16 v -> state_ok st ->
  match load_one shade NeedIndex SendIndex SendVertex true v st with
  | Some (inr st') => state_ok st'
  | _ => True
  end /\
  sink_of (load_one shade NeedIndex SendIndex SendVertex true v st) =
  (if NeedIndex (sink st) then lift (SendIndex v (sink st)) else SendVertex (output_of v) (sink st)).
Proof.
  intros Hv (Hu & Hs & Hc). unfold load_one. simpl andb.
  destruct (NeedIndex (sink st)).
  { destruct (SendIndex v (sink st)); [done|]. by split. }
  destruct (cache_find v (vertex_cache st)) as [out|] eqn:Hf.
  - destruct (cache_find_ok v _ _ out Hc Hf) as [-> Hs'].
    cbn [mbind G_bind mret G_ret vs_output sink vs_unit vertex_cache vertex_cache_pos].
    destruct (SendVertex (output_of v) (sink st)) as [[|k]|]; [done | by split | done].
  - destruct (shade_pure v (vs_unit st) (vs_output st) Hv Hu Hs) as (u' & -> & Hu' & Hs').
    destruct (cache_store_ok v _ _ Hv Hs' Hc) as (c' & pos' & Hst & Hc').
    cbn [mbind G_bind lift]. rewrite Hst.
    cbn [mbind G_bind mret G_ret lift vs_output sink vs_unit vertex_cache vertex_cache_pos].
    destruct (SendVertex (output_of v) (sink st)) as [[|k]|]; [done | by split | done].
Qed.

(** C37: The vertex cache is transparent: when what the shader computes for a vertex
    depends on the vertex only, an indexed draw sends to the geometry pipeline what it
    would send if it shaded every vertex anew, with the same result, faults included. *)
Theorem vertex_cache_transparent indices vs st :
  mapM (M := R) vertex_at indices = inr vs -> Forall is_u16 vs -> state_ok st ->
  sink_of (load_all shade vertex_at NeedIndex SendIndex SendVertex true indices st) =
  load_shaded indices (sink st).
Proof.
  revert vs st. induction indices as [|index indices IH]; intros vs st Hvs Hall Hst; [done|].
  cbn [mapM] in Hvs. cbn [load_all load_shaded].
  destruct (vertex_at index) as [|v]; [done|]. cbn [mbind R_bind lift G_bind] in *.
  destruct (mapM vertex_at indices) as [|vs'] eqn:Hrest; [done|].
  injection Hvs as <-. apply Forall_cons in Hall as [Hv Hall].
  destruct (load_one_sink v st Hv Hst) as [Hok Heq]. rewrite <- Heq.
  destruct (load_one _ _ _ _ true v st) as [[e|st']|]; [done | | done].
  apply (IH vs'); done.
Qed.

End Cache.

(** ** Immediate mode, attribute by attribute *)

Section Immediate.
Variable ComputeHash64 : list Z -> Z.
Variables exp2f log2f : spec_float -> spec_float.
Variable fuel : nat.
Variable regs : DrawRegs.

Abbreviation submit := (SubmitImmediate ComputeHash64 exp2f log2f fuel regs).
Abbreviation submit_words := (SubmitImmediate_all ComputeHash64 exp2f log2f fuel regs).
Abbreviation draw := (DrawImmediate ComputeHash64 exp2f log2f fuel regs).

(** The queue is empty. *)
Definition queue_empty (c : PicaCore) : Prop :=
  length (PackedAttribute.buffer (queue c)) = 4%nat /\ PackedAttribute.index (queue c) = 0.

(** The queue after the words of a vector. *)
Definition after_vector (v : Vec4 Z) (c : PicaCore) : PicaCore :=
  set_queue (PackedAttribute.mk (pack24 v ++ drop 3 (PackedAttribute.buffer (queue c))) 0) c.

(** An attribute arrives. *)
Definition place (attribute : f24vec) (c : PicaCore) : G PicaCore :=
  if setup_index c <? 15 then
    l ← lift (put (input_default_attributes c) (setup_index c) attribute);
    mret (set_default l (u32 (setup_index c + 1)) c)
  else
    l ← lift (put (input_vertex c) (current_attribute c) attribute);
    if current_attribute c <? max_input_attrib_index regs
    then mret (set_input_vertex l (current_attribute c + 1) c)
    else draw (set_input_vertex l (current_attribute c) c).

Lemma submit_push word buf i c : queue c = PackedAttribute.mk buf i -> 0 <= i < 2 ->
  submit word c = Some (inr (set_queue (PackedAttribute.mk (<[Z.to_nat i := word]> buf) (i + 1)) c)).
Proof.
  intros Hq Hi. unfold SubmitImmediate, PackedAttribute.Push. rewrite Hq.
  cbn [PackedAttribute.index PackedAttribute.buffer].
  rewrite bool_decide_eq_true_2 by lia. cbv zeta. by zdecide.
Qed.

Lemma submit_third word buf c : queue c = PackedAttribute.mk buf 2 -> setup_index c <= 15 ->
  submit word c =
  (let q := PackedAttribute.mk (<[2%nat := word]> buf) 0 in
   place (PackedAttribute.AsFloat24 q) (set_queue q c)).
Proof.
  intros Hq Hi. unfold SubmitImmediate, PackedAttribute.Push. rewrite Hq.
  cbn [PackedAttribute.index PackedAttribute.buffer].
  rewrite bool_decide_eq_true_2 by lia. cbv zeta.
  change (2 + 1) with 3. cbn [andb orb negb Z.leb Z.compare Pos.compare Pos.compare_cont].
  unfold IMMEDIATE_MODE_INDEX. cbn [setup_index set_queue]. zdecide. done.
Qed.

(** The words of one vector. *)
Lemma submit_vector v words c : queue_empty c -> setup_index c <= 15 -> raw_vec v ->
  submit_words (pack24 v ++ words) c =
  (c' ← place (vec_value v) (after_vector v c); submit_words words c').
Proof.
  intros [Hb Hi] Hidx Hv. destruct (queue c) as [buf i] eqn:Hq.
  cbn [PackedAttribute.buffer PackedAttribute.index] in Hb, Hi. subst i.
  destruct buf as [|b0 [|b1 [|b2 [|b3 [|]]]]]; try discriminate Hb.
  unfold pack24 at 1. cbn [app SubmitImmediate_all].
  rewrite (submit_push _ _ _ _ Hq) by lia. cbn [mbind G_bind].
  erewrite (submit_push _ _ 1) by (reflexivity || lia). cbn [mbind G_bind].
  erewrite (submit_third) by (reflexivity || done). cbv zeta.
  unfold after_vector. rewrite Hq. rewrite <- (unpack24 v [b3] Hv). done.
Qed.

(** Default attributes. *)
Lemma place_default a c : setup_index c < 15 ->
  0 <= setup_index c -> full (input_default_attributes c) ->
  place a c =
  Some (inr (set_default (<[Z.to_nat (setup_index c) := a]> (input_default_attributes c))
               (setup_index c + 1) c)).
Proof.
  intros Hi H0 Hl. unfold place, full in *. zdecide.
  rewrite put_slot by (rewrite Hl; lia). cbn [mbind G_bind lift mret G_ret].
  by rewrite u32_small by (unfold is_u32; lia).
Qed.

(** A run of packed vectors written after a write of the index register fills the
    default attributes from that index on, each with the numbers it encodes. *)
Theorem upload_default_attributes vs c :
  queue_empty c -> full (input_default_attributes c) -> Forall raw_vec vs ->
  0 <= setup_index c -> setup_index c + Z.of_nat (length vs) <= 15 ->
  exists c', submit_words (concat (pack24 <$> vs)) c = Some (inr c') /\
    input_default_attributes c' =
      list_inserts (Z.to_nat (setup_index c)) (vec_value <$> vs) (input_default_attributes c) /\
    setup_index c' = setup_index c + Z.of_nat (length vs) /\ queue_empty c' /\
    core_sink c' = core_sink c.
Proof.
  intros Hq Hf Hvs. revert c Hq Hf. induction Hvs as [|v vs Hv Hvs IH]; intros c Hq Hf H0 Hlen.
  { exists c. simpl. split_and!; try done. lia. }
  cbn [fmap list_fmap concat length] in *.
  rewrite submit_vector by (done || lia).
  rewrite place_default by (simpl; lia || done). cbn [mbind G_bind].
  edestruct (IH (set_default (<[Z.to_nat (setup_index c) := vec_value v]>
      (input_default_attributes c)) (setup_index c + 1) (after_vector v c)))
    as (c' & H1 & H2 & H3 & H4 & H5); cbn [input_default_attributes setup_index set_default
      queue_empty queue after_vector set_queue].
  - destruct Hq as [Hb _]. split; [|done]. cbn. rewrite length_drop. simpl. lia.
  - etrans; [apply length_insert | exact Hf].
  - lia.
  - lia.
  - exists c'. split_and!; [exact H1 | | | done | done].
    + rewrite H2. cbn [input_default_attributes setup_index set_default after_vector set_queue list_inserts].
      unfold AttributeBuffer. rewrite list_insert_inserts_lt by lia. f_equal. lia.
    + rewrite H3. cbn [setup_index set_default]. lia.
Qed.

Lemma inserts_cons {A} i (a : A) k l :
  list_inserts i (a :: k) l = list_inserts (S i) k (<[i := a]> l).
Proof. cbn [list_inserts]. by rewrite list_insert_inserts_lt by lia. Qed.

(** The vertex being built. *)
Lemma immediate_run vs c : queue_empty c -> full (input_vertex c) -> Forall raw_vec vs ->
  vs <> [] -> setup_index c = 15 -> 0 <= current_attribute c ->
  current_attribute c + Z.of_nat (length vs) = max_input_attrib_index regs + 1 ->
  max_input_attrib_index regs < 16 ->
  exists q, queue_empty (set_queue q c) /\
    submit_words (concat (pack24 <$> vs)) c =
    draw (set_input_vertex
            (list_inserts (Z.to_nat (current_attribute c)) (vec_value <$> vs) (input_vertex c))
            (max_input_attrib_index regs) (set_queue q c)).
Proof.
  intros Hq Hf Hvs. revert c Hq Hf. induction Hvs as [|v vs Hv Hvs IH];
    intros c Hq Hf Hne Hidx H0 Hlen Hmax; [done|]. clear Hne.
  cbn [fmap list_fmap concat length] in *.
  rewrite submit_vector by (done || lia).
  set (c1 := after_vector v c).
  assert (Hq1 : queue_empty c1).
  { destruct Hq as [Hb _]. split; [|done]. cbn. rewrite length_drop. simpl. lia. }
  unfold place. change (setup_index c1) with (setup_index c).
  change (input_vertex c1) with (input_vertex c).
  change (current_attribute c1) with (current_attribute c).
  rewrite Hidx. change (15 <? 15) with false. cbn match.
  rewrite put_slot by (unfold full in Hf; rewrite Hf; lia). cbn [mbind G_bind lift].
  destruct vs as [|v2 vs].
  - simpl length in Hlen. zdecide. exists (queue c1). split; [exact Hq1|].
    replace (current_attribute c) with (max_input_attrib_index regs) by lia.
    cbn [fmap list_fmap concat list_inserts SubmitImmediate_all].
    match goal with |- (?m ≫= _) = ?m' => change m' with m; by destruct m as [[|]|] end.
  - cbn [length] in Hlen. zdecide. cbn [mbind G_bind mret G_ret].
    edestruct (IH (set_input_vertex (<[Z.to_nat (current_attribute c) := vec_value v]> (input_vertex c))
                     (current_attribute c + 1) c1)) as (q & Hq2 & HE);
      [exact Hq1 | etrans; [apply length_insert | exact Hf] | done | exact Hidx |
       cbn; lia | cbn [current_attribute set_input_vertex length] in *; lia | done |].
    exists q. split; [exact Hq2|]. etrans; [exact HE|].
    pose proof (inserts_cons (Z.to_nat (current_attribute c)) (vec_value v)
                  (vec_value <$> v2 :: vs) (input_vertex c)) as E.
    cbn [current_attribute input_vertex set_input_vertex] in *.
    replace (Z.to_nat (current_attribute c + 1)) with (S (Z.to_nat (current_attribute c))) by lia.
    cbn [list_inserts fmap list_fmap] in E |- *. unfold AttributeBuffer in *. by rewrite E.
Qed.

(** Immediate mode: at index 15, the packed vectors of one vertex are decoded to its
    attributes and the vertex is drawn exactly once, when the last of them is complete. *)
Theorem immediate_vertex vs c :
  queue_empty c -> full (input_vertex c) -> Forall raw_vec vs ->
  setup_index c = 15 -> current_attribute c = 0 ->
  Z.of_nat (length vs) = max_input_attrib_index regs + 1 ->
  0 <= max_input_attrib_index regs < 16 ->
  exists q, queue_empty (set_queue q c) /\
    submit_words (concat (pack24 <$> vs)) c =
    draw (set_input_vertex ((vec_value <$> vs) ++ drop (length vs) (input_vertex c))
            (max_input_attrib_index regs) (set_queue q c)).
Proof.
  intros Hq Hf Hvs Hidx Hcur Hlen Hmax.
  destruct (immediate_run vs c) as (q & H1 & H2);
    [done | done | done | intros ->; simpl in Hlen; lia | done | lia | lia | lia |].
  exists q. split; [done|]. rewrite H2. do 2 f_equal. rewrite Hcur. change (Z.to_nat 0) with 0%nat.
  rewrite <- (take_drop (length vs) (input_vertex c)) at 1.
  apply list_inserts_0_r. unfold full in Hf. rewrite length_fmap, length_take. lia.
Qed.

Lemma submit_invalid word buf i c : queue c = PackedAttribute.mk buf i -> 2 <= i < 4 ->
  15 < setup_index c ->
  submit word c = Some (inr (set_queue (PackedAttribute.mk (<[Z.to_nat i := word]> buf) (i + 1)) c)).
Proof.
  intros Hq Hi Hidx. unfold SubmitImmediate, PackedAttribute.Push. rewrite Hq.
  cbn [PackedAttribute.index PackedAttribute.buffer].
  rewrite bool_decide_eq_true_2 by lia. cbv zeta. rewrite andb_false_r. cbn [orb negb andb].
  unfold IMMEDIATE_MODE_INDEX. cbn [setup_index set_queue]. by zdecide.
Qed.

Lemma submit_outside word buf c : queue c = PackedAttribute.mk buf 4 ->
  submit word c = Some (inl OutOfBounds).
Proof. intros Hq. unfold SubmitImmediate, PackedAttribute.Push. by rewrite Hq. Qed.

(** A default attribute index above 15 is not rejected with its data: the queue is
    left full, so that the fourth word goes to the place of a word of the 32-bit format
    and the fifth one is written outside of the queue. *)
Theorem immediate_index_overflow w1 w2 w3 w4 w5 c :
  queue_empty c -> 15 < setup_index c ->
  (exists c', submit_words [w1; w2; w3; w4] c = Some (inr c') /\
     input_default_attributes c' = input_default_attributes c /\ setup_index c' = setup_index c) /\
  submit_words [w1; w2; w3; w4; w5] c = Some (inl OutOfBounds).
Proof.
  intros [Hb Hi] Hidx. destruct (queue c) as [buf i] eqn:Hq.
  cbn [PackedAttribute.buffer PackedAttribute.index] in Hb, Hi. subst i.
  cbn [SubmitImmediate_all]. rewrite (submit_push _ _ _ _ Hq) by lia. cbn [mbind G_bind].
  erewrite (submit_push _ _ 1) by (reflexivity || lia). cbn [mbind G_bind].
  do 2 (erewrite submit_invalid by (reflexivity || exact Hidx || lia); cbn [mbind G_bind]).
  split; [by eexists|]. by erewrite submit_outside by reflexivity.
Qed.

End Immediate.

(** ** The vertex loader stays in its arrays *)

Lemma field_bound p n v : 0 <= n -> 0 <= field p n v < 2 ^ n.
Proof. intros. unfold field. rewrite Z.land_ones by lia. apply Z.mod_pos_bound. lia. Qed.

Record wf_loader (ld : VertexLoader) : Prop := {
  wf_sources : length (vertex_attribute_sources ld) = 16%nat;
  wf_strides : length (vertex_attribute_strides ld) = 16%nat;
  wf_formats : length (vertex_attribute_formats ld) = 16%nat;
  wf_elements : length (vertex_attribute_elements ld) = 16%nat;
  wf_elements_bound : Forall (fun k => 0 <= k <= 4) (vertex_attribute_elements ld);
  wf_default : length (vertex_attribute_is_default ld) = 16%nat;
  wf_total : 1 <= num_total_attributes ld <= 16 }.

Lemma twelve_in n v : 0 <= n < 12 -> twelve n v = inr v.
Proof. intros. unfold twelve. by zdecide. Qed.

Lemma AlignUp_spec v s : 0 <= v -> 0 < s -> v <= AlignUp v s /\ AlignUp v s mod s = 0.
Proof.
  intros Hv Hs. unfold AlignUp. cbv zeta. pose proof (Z.mod_pos_bound v s Hs).
  pose proof (Z.div_mod v s ltac:(lia)) as E.
  destruct (Z.eqb_spec (v mod s) 0) as [E0|E0].
  - split; [lia|]. by rewrite E0, Z.sub_0_r.
  - split; [lia|]. replace (v - v mod s + s) with ((v / s + 1) * s) by lia. by apply Z.mod_mul; lia.
Qed.

(** An attribute with elements was set by a loader, at an aligned offset of its data. *)
Definition loader_from (a : VertexAttributes) (ld : VertexLoader) : Prop :=
  forall i k, vertex_attribute_elements ld !! i = Some k ->
    k = 0 \/
    exists f cfg offset, cfg ∈ attribute_loaders a /\
      GetNumElements a (Z.of_nat i) = inr k /\ GetFormat a (Z.of_nat i) = inr f /\
      vertex_attribute_formats ld !! i = Some f /\
      vertex_attribute_strides ld !! i = Some (byte_count cfg) /\
      vertex_attribute_sources ld !! i = Some (data_offset cfg + offset) /\
      0 <= offset /\ offset mod format_bytes f = 0.

Definition loader_ok (a : VertexAttributes) (ld : VertexLoader) : Prop :=
  wf_loader ld /\ loader_from a ld /\
  vertex_attribute_is_default ld = (IsDefaultAttribute a <$> seqZ 0 16) /\
  num_total_attributes ld = GetNumTotalAttributes a.

Lemma load_component_ok a cfg component offset ld :
  cfg ∈ attribute_loaders a -> 0 <= component -> 0 <= offset -> loader_ok a ld ->
  exists offset' ld', load_component a cfg component (offset, ld) = inr (offset', ld') /\
    0 <= offset' /\ loader_ok a ld'.
Proof.
  intros Hcfg Hc H0 Hld. unfold load_component. destruct (Z.leb_spec 12 component); [by eexists _, _|].
  unfold GetComponent. rewrite twelve_in by lia. cbn [mbind R_bind].
  set (i := if component <? 8 then _ else _).
  assert (0 <= i < 16) by (unfold i; destruct (component <? 8); apply (field_bound _ 4); lia).
  destruct (Z.ltb_spec i 12).
  2:{ eexists _, _. split; [done|]. split; [|done].
      pose proof (AlignUp_spec offset 4 H0 ltac:(lia)). lia. }
  unfold GetElementSizeInBytes, GetStride, GetElementSizeInBytes.
  assert (exists k, GetNumElements a i = inr k /\ 1 <= k <= 4) as (k & Ek & Hk).
  { unfold GetNumElements. rewrite twelve_in by lia. eexists. split; [done|].
    destruct (i <? 8); [pose proof (field_bound (4 * i + 2) 2 (formats_low a)) |
      pose proof (field_bound (4 * (i - 8) + 2) 2 (formats_high a))]; lia. }
  assert (exists f, GetFormat a i = inr f) as (f & Ef)
    by (unfold GetFormat; rewrite twelve_in by lia; by eexists).
  rewrite Ef, Ek. cbn [mbind R_bind].
  assert (Hsize : 1 <= format_bytes f) by (destruct f; simpl; lia).
  destruct (AlignUp_spec offset (format_bytes f) H0 ltac:(lia)) as [Ha Hmod].
  destruct Hld as ([L1 L2 L3 L4 L5 L6 L7] & Hfrom & Hdef & Htot).
  rewrite !put_slot by (rewrite ?L1, ?L2, ?L3, ?L4; lia). cbn [mbind R_bind].
  eexists _, _. split; [done|]. split; [nia|]. split; [|split; [|done]].
  - split; cbn; rewrite ?length_insert; try done. apply Forall_insert; [done | lia].
  - intros j k' Hj. cbn in Hj |- *.
    apply list_lookup_insert_Some in Hj as [(<- & <- & Hlt)|(Hne & Hj)].
    + right. exists f, cfg, (AlignUp offset (format_bytes f)).
      rewrite Z2Nat.id, !list_lookup_insert_eq by lia. split_and!; done || lia.
    + rewrite !list_lookup_insert_ne by done. by apply Hfrom.
Qed.

Lemma load_components_ok a cfg components offset ld :
  cfg ∈ attribute_loaders a -> Forall (fun c => 0 <= c) components -> 0 <= offset -> loader_ok a ld ->
  exists offset' ld', load_components a cfg components (offset, ld) = inr (offset', ld') /\
    loader_ok a ld'.
Proof.
  intros Hcfg Hall. revert offset ld.
  induction Hall as [|c components Hc Hall IH]; intros offset ld H0 Hld; [by eexists _, _|].
  destruct (load_component_ok a cfg c offset ld Hcfg Hc H0 Hld) as (o1 & ld1 & E & Ho1 & Hld1).
  cbn [load_components]. rewrite E. cbn [mbind R_bind]. by apply IH.
Qed.

Lemma load_loaders_ok a cfgs ld : Forall (.∈ attribute_loaders a) cfgs -> loader_ok a ld ->
  exists ld', load_loaders a cfgs ld = inr ld' /\ loader_ok a ld'.
Proof.
  intros Hall. revert ld. induction Hall as [|cfg cfgs Hcfg Hall IH]; intros ld Hld; [by eexists|].
  destruct (load_components_ok a cfg (seqZ 0 (component_count cfg)) 0 ld) as (o & ld1 & E & Hld1);
    [done | | done | done |].
  { apply Forall_forall. intros c Hc%elem_of_seqZ. lia. }
  cbn [load_loaders]. rewrite E. cbn [mbind R_bind]. by apply IH.
Qed.

Lemma initial_loader_ok a formats : length formats = 16%nat -> loader_ok a (initial_loader a formats).
Proof.
  intros Hf. pose proof (field_bound 28 4 (formats_high a)). split; [|split; [|done]].
  - split; try done; [by apply Forall_replicate |
      unfold initial_loader, GetNumTotalAttributes; simpl; lia].
  - intros i k [-> _]%lookup_replicate. by left.
Qed.

Lemma new_VertexLoader_ok a formats : length formats = 16%nat ->
  exists ld, new_VertexLoader a formats = inr ld /\ loader_ok a ld.
Proof.
  intros. apply load_loaders_ok; [|by apply initial_loader_ok].
  apply Forall_forall. intros cfg (i & Hi & _)%elem_of_take.
  by eapply list_elem_of_lookup_2.
Qed.

(** ** What a vertex is *)

(** Element [k] of an array in memory. *)
Definition element (f : VertexAttributeFormat) (data : list Z) (k : Z) : spec_float :=
  element_value f (le_value (take (Z.to_nat (format_bytes f)) (drop (Z.to_nat (k * format_bytes f)) data))).

(** The components of an attribute: its elements, then (0, 0, 0, 1). *)
Definition attribute_value (f : VertexAttributeFormat) (data : list Z) (elements : Z) : f24vec :=
  let comp k := if k <? elements then element f data k
                else if k =? 3 then Float.One else Float.Zero in
  MakeVec (comp 0) (comp 1) (comp 2) (comp 3).

Lemma get_Some {A} (l : list A) i a : 0 <= i -> l !! Z.to_nat i = Some a -> get l i = inr a.
Proof. intros Hi Ha. unfold get. zdecide. by rewrite Ha. Qed.

Lemma read_le_value bytes n offset : 0 <= offset ->
  offset + Z.of_nat n <= Z.of_nat (length bytes) ->
  read_le bytes offset n = inr (le_value (take n (drop (Z.to_nat offset) bytes))).
Proof.
  revert offset. induction n as [|n IH]; intros offset H0 Hl; [done|].
  destruct (lookup_lt_is_Some_2 bytes (Z.to_nat offset)) as [b Hb]; [lia|].
  cbn [read_le]. rewrite (get_Some _ _ _ H0 Hb). cbn [mbind R_bind].
  rewrite IH by lia. cbn [mbind R_bind]. rewrite (drop_S _ _ _ Hb).
  replace (Z.to_nat (offset + 1)) with (S (Z.to_nat offset)) by lia. done.
Qed.

Lemma read_element_ok f data k : 0 <= k ->
  (k + 1) * format_bytes f <= Z.of_nat (length data) ->
  read_element f data k = inr (element f data k).
Proof.
  intros Hk Hl. unfold read_element. assert (1 <= format_bytes f) by (destruct f; simpl; lia).
  rewrite read_le_value by nia. done.
Qed.

Lemma put_component_ok (out : AttributeBuffer) attrib comp v (old : f24vec) : 0 <= attrib -> out !! Z.to_nat attrib = Some old ->
  put_component out attrib comp v = inr (<[Z.to_nat attrib := set_component old comp v]> out).
Proof.
  intros Ha Ho. unfold put_component. rewrite (get_Some _ _ _ Ha Ho). cbn [mbind R_bind].
  apply put_slot. apply lookup_lt_Some in Ho. lia.
Qed.

Lemma put_component_again (out : AttributeBuffer) attrib comp v (old : f24vec) :
  0 <= attrib -> (Z.to_nat attrib < length out)%nat ->
  put_component (<[Z.to_nat attrib := old]> out) attrib comp v =
  inr (<[Z.to_nat attrib := set_component old comp v]> out).
Proof.
  intros Ha Hl. erewrite put_component_ok by (done || by apply list_lookup_insert_eq).
  f_equal. apply list_insert_insert_eq.
Qed.

(** An attribute is loaded whole, whatever the entry held before. *)
Lemma load_one_attribute f data elements attrib out : 1 <= elements <= 4 ->
  elements * format_bytes f <= Z.of_nat (length data) -> 0 <= attrib < 16 -> full out ->
  (out' ← LoadAttribute f data attrib (seqZ 0 elements) out;
   fill_components attrib (seqZ elements (4 - elements)) out') =
  inr (<[Z.to_nat attrib := attribute_value f data elements]> out).
Proof.
  intros He Hd Ha Hf. unfold full in Hf.
  destruct (lookup_lt_is_Some_2 out (Z.to_nat attrib)) as [old Hold]; [lia|].
  assert (Hlt : (Z.to_nat attrib < length out)%nat) by lia.
  assert (1 <= format_bytes f) by (destruct f; simpl; lia).
  assert (HE : elements = 1 \/ elements = 2 \/ elements = 3 \/ elements = 4) by lia.
  destruct HE as [-> | [-> | [-> | ->]]];
    repeat match goal with |- context [seqZ ?a ?b] =>
      let l := eval vm_compute in (seqZ a b) in change (seqZ a b) with l
    end;
    cbn [LoadAttribute fill_components Z.eqb Pos.eqb];
    rewrite !read_element_ok by nia; cbn [mbind R_bind];
    rewrite (put_component_ok _ _ _ _ _ (proj1 Ha) Hold); cbn [mbind R_bind];
    repeat (rewrite ?read_element_ok by nia; cbn [mbind R_bind];
            rewrite ?put_component_again by lia; cbn [mbind R_bind]);
    by destruct old.
Qed.

Section Loading.
Variable GetPhysicalPointer : Z -> list Z.

(** What [LoadVertex] puts into attribute [i], if anything. *)
Definition expected (ld : VertexLoader) (base vertex : Z) (defaults : AttributeBuffer) (i : nat)
    : option f24vec :=
  if default true (vertex_attribute_is_default ld !! i) then defaults !! i else
  elements ← vertex_attribute_elements ld !! i;
  if elements =? 0 then None else
  source ← vertex_attribute_sources ld !! i;
  stride ← vertex_attribute_strides ld !! i;
  f ← vertex_attribute_formats ld !! i;
  Some (attribute_value f (GetPhysicalPointer (u32 (base + source + stride * vertex))) elements).

(** The memory that a vertex is read from is mapped. *)
Definition mapped (ld : VertexLoader) (base vertex : Z) : Prop :=
  forall i source stride f elements,
    vertex_attribute_is_default ld !! i = Some false ->
    vertex_attribute_sources ld !! i = Some source ->
    vertex_attribute_strides ld !! i = Some stride ->
    vertex_attribute_formats ld !! i = Some f ->
    vertex_attribute_elements ld !! i = Some elements ->
    elements * format_bytes f <=
      Z.of_nat (length (GetPhysicalPointer (u32 (base + source + stride * vertex)))).

Definition overwrite (i : nat) (v : option f24vec) (out : AttributeBuffer) : AttributeBuffer :=
  match v with Some v => <[i := v]> out | None => out end.

Lemma load_attribute_ok ld base vertex defaults i inp :
  wf_loader ld -> mapped ld base vertex -> full defaults -> full inp -> 0 <= i < 16 ->
  load_attribute GetPhysicalPointer ld base vertex defaults i inp =
  inr (overwrite (Z.to_nat i) (expected ld base vertex defaults (Z.to_nat i)) inp).
Proof.
  intros [L1 L2 L3 L4 L5 L6 L7] Hm Hd Hi Hr. unfold load_attribute, expected, AttributeBuffer in *.
  destruct (lookup_lt_is_Some_2 (vertex_attribute_is_default ld) (Z.to_nat i)) as [d Ed]; [lia|].
  rewrite (get_Some _ _ _ (proj1 Hr) Ed), Ed. cbn [mbind R_bind default from_option].
  destruct d.
  { destruct (lookup_lt_is_Some_2 defaults (Z.to_nat i)) as [v Ev]; [unfold full in Hd; lia|].
    rewrite (get_Some _ _ _ (proj1 Hr) Ev), Ev. cbn [mbind R_bind]. simpl overwrite.
    apply put_slot. unfold full in Hi. lia. }
  destruct (lookup_lt_is_Some_2 (vertex_attribute_elements ld) (Z.to_nat i)) as [k Ek]; [lia|].
  destruct (lookup_lt_is_Some_2 (vertex_attribute_sources ld) (Z.to_nat i)) as [src Es]; [lia|].
  destruct (lookup_lt_is_Some_2 (vertex_attribute_strides ld) (Z.to_nat i)) as [st Et]; [lia|].
  destruct (lookup_lt_is_Some_2 (vertex_attribute_formats ld) (Z.to_nat i)) as [f Ef]; [lia|].
  rewrite (get_Some _ _ _ (proj1 Hr) Ek), Ek. cbn [mbind R_bind option_bind].
  change (default true (Some false)) with false. cbn match.
  destruct (Z.eqb_spec k 0); [done|].
  rewrite (get_Some _ _ _ (proj1 Hr) Es), (get_Some _ _ _ (proj1 Hr) Et), Es, Et.
  cbn [mbind R_bind option_bind]. rewrite (get_Some _ _ _ (proj1 Hr) Ef), Ef.
  cbn [mbind R_bind option_bind overwrite].
  assert (0 <= k <= 4) by exact (Forall_lookup_1 _ _ _ _ L5 Ek).
  apply load_one_attribute; [lia | by eapply Hm | done | done].
Qed.

Lemma load_attributes_app ld base vertex defaults l1 l2 inp :
  load_attributes GetPhysicalPointer ld base vertex defaults (l1 ++ l2) inp =
  (inp ← load_attributes GetPhysicalPointer ld base vertex defaults l1 inp;
   load_attributes GetPhysicalPointer ld base vertex defaults l2 inp).
Proof.
  revert inp. induction l1 as [|i l1 IH]; intros inp; [done|]. cbn [load_attributes app].
  destruct (load_attribute _ _ _ _ _ i inp); [done|]. cbn [mbind R_bind]. apply IH.
Qed.

Lemma full_overwrite i v inp : full inp -> full (overwrite i v inp).
Proof. unfold full. destruct v; simpl; [|done]. intros H. etrans; [apply length_insert | exact H]. Qed.

Lemma load_attributes_ok ld base vertex defaults n inp :
  wf_loader ld -> mapped ld base vertex -> full defaults -> full inp -> (n <= 16)%nat ->
  exists out, load_attributes GetPhysicalPointer ld base vertex defaults (seqZ 0 (Z.of_nat n)) inp = inr out /\
    full out /\
    forall i, out !! i = if bool_decide (i < n)%nat
                         then match expected ld base vertex defaults i with
                              | Some v => Some v | None => inp !! i end
                         else inp !! i.
Proof.
  intros Hld Hm Hd Hi. induction n as [|n IH]; intros Hn; [by exists inp|].
  destruct IH as (out & E & Hout & Hlook); [lia|].
  rewrite seqZ_S, load_attributes_app, E. cbn [mbind R_bind load_attributes].
  rewrite load_attribute_ok by (done || lia). cbn [mbind R_bind].
  eexists. split; [done|]. split; [by apply full_overwrite|].
  rewrite Z.add_0_l, Nat2Z.id. intros i.
  destruct (decide (i = n)) as [->|Hne].
  - rewrite bool_decide_eq_true_2 by lia.
    destruct (expected ld base vertex defaults n) as [v|]; simpl overwrite.
    + apply list_lookup_insert_eq. unfold full in Hout. lia.
    + rewrite Hlook, bool_decide_eq_false_2 by lia. done.
  - assert (overwrite n (expected ld base vertex defaults n) out !! i = out !! i) as ->.
    { destruct (expected _ _ _ _ n); simpl; [by apply list_lookup_insert_ne | done]. }
    rewrite Hlook. by repeat case_bool_decide; try lia.
Qed.

(** For any configuration of the attributes the vertex loader is built inside its
    arrays: what it knows of an attribute comes from the format words and from a loader,
    at an offset aligned to its elements.  A vertex loaded from mapped memory has, for
    each of its attributes, the default value, or its elements completed by (0, 0, 0, 1),
    or, when no loader sets the attribute, what the buffer held before. *)
Theorem LoadVertex_spec a formats base vertex inp defaults :
  length formats = 16%nat -> full inp -> full defaults ->
  exists ld, new_VertexLoader a formats = inr ld /\ loader_ok a ld /\
    (mapped ld base vertex ->
     exists out, LoadVertex GetPhysicalPointer ld base vertex inp defaults = inr out /\ full out /\
       forall i, out !! i =
         if bool_decide (Z.of_nat i < GetNumTotalAttributes a)
         then match expected ld base vertex defaults i with Some v => Some v | None => inp !! i end
         else inp !! i).
Proof.
  intros Hf Hi Hd. destruct (new_VertexLoader_ok a formats Hf) as (ld & E & Hld).
  exists ld. split; [done|]. split; [done|]. intros Hm.
  destruct Hld as (Hwf & _ & _ & Htot). pose proof (wf_total _ Hwf) as Hn.
  destruct (load_attributes_ok ld base vertex defaults (Z.to_nat (num_total_attributes ld)) inp)
    as (out & Hout & Hfull & Hlook); [done | done | done | done | lia |].
  rewrite Z2Nat.id in Hout by lia. exists out. split; [exact Hout|]. split; [done|].
  intros i. rewrite Hlook, <- Htot.
  by rewrite (bool_decide_ext (i < Z.to_nat (num_total_attributes ld))%nat
                (Z.of_nat i < num_total_attributes ld)) by lia.
Qed.

End Loading.
