(* ===== verification/DrawModel.v ===== *)
(** * DrawModel: vertices drawn

    A small vertex shader, a geometry pipeline and memory: the theorems on drawing are
    applied to them. *)
From Stdlib Require Import SpecFloat.
From stdpp Require Import list.
From S2P Require Import Prelude PicaFloat ShaderBytecode Shader ShaderUpload ShaderSafe ShaderModel Geometry Draw.

Local Open Scope Z_scope.

(** ** Primitive assembly *)

Lemma assemble_triangles_witness :
  exists a', assemble [1; 2; 3; 4; 5]%nat (mkAssembler Strip 0 [0; 0]%nat false false) =
    inr ([(1, 2, 3); (3, 2, 4); (3, 4, 5)]%nat, a') /\ IsEmpty a' = false.
Proof.
  apply (assemble_triangles Strip [1; 2; 3; 4; 5]%nat (mkAssembler Strip 0 [0; 0]%nat false false));
    [reflexivity | done].
Defined.

(** ** The geometry pipeline *)

(** Uniforms of a geometry shader that ends at once. *)
Definition gs_setup0 : ShaderSetup :=
  setup_of [end_] (mkUniforms (replicate 96 (AssignToAll Float.Zero)) (replicate 16 false)
                     (replicate 4 (MakeVec 0 0 0 0))).

Definition emitter0 : GeometryEmitter :=
  mkGeometryEmitter false false 0 0 (replicate 3 attribute_buffer0) [].

Definition gs_unit0 : ShaderUnit :=
  mkShaderUnit [0; 0; 0] [false; false] attribute_buffer0 attribute_buffer0 attribute_buffer0
    (Some emitter0).

Definition pipeline0 : GeometryPipeline := mkPipeline None gs_unit0 gs_setup0.

(** Two attributes per vertex. *)
Definition gs_regs (mode start : Z) : PipelineRegs :=
  mkRegs UseGS_Yes (if mode =? 1 then 1 else 0) 1 1 mode 3 1 start 0
    3 (if mode =? 0 then 0 else 1) ShaderMode_GS 0 0 0x3210 0.

Lemma gs_regs_ok mode start : is_u8 start -> regs_ok (gs_regs mode start).
Proof. intros. split; cbn; done || lia. Qed.

Definition reconfigured (mode start : Z) : R GeometryPipeline :=
  Reconfigure_pipeline (gs_regs mode start) pipeline0.

Definition backend_of (m : R GeometryPipeline) : option Backend :=
  match m with inr p => backend p | inl _ => None end.

Lemma Reconfigure_ready_witness :
  exists p', reconfigured 0 0 = inr p' /\
    exists b k, backend p' = Some b /\ 0 < k /\ takes b k.
Proof.
  assert (B : backend_of (reconfigured 0 0) = Some (Point attribute_buffer0 0 4 2))
    by (vm_compute; reflexivity).
  destruct (reconfigured 0 0) as [|p'] eqn:E; [discriminate B|]. exists p'. split; [done|].
  pose proof (Reconfigure_ready (gs_regs 0 0) pipeline0 p'
                (gs_regs_ok 0 0 ltac:(unfold is_u8; lia)) E) as H.
  cbn [backend_of] in B. rewrite B in H. destruct H as (k & Hk & Ht & _).
  exists (Point attribute_buffer0 0 4 2), k. done.
Defined.

Definition vertex_of (n : Z) : AttributeBuffer :=
  replicate 16 (AssignToAll (binary_normalize 24 128 n 0 false)).

(** A fixed group that starts at uniform 90 and needs eight: the second pair of vertices
    is past the end. *)
Lemma submit_group_witness :
  exists p, reconfigured 2 90 = inr p /\
    submit_all (fun v => v) (fun v => v) 10 (gs_regs 2 90) (vertex_of <$> [1; 2; 3; 4]) p =
    Some (inl OutOfBounds).
Proof.
  assert (B : backend_of (reconfigured 2 90) = Some (FixedPrimitive 90 90 98 2))
    by (vm_compute; reflexivity).
  assert (F : match reconfigured 2 90 with inr p => length (uniforms_f (uniforms (gs p))) | _ => 0%nat end
              = 96%nat) by (vm_compute; reflexivity).
  destruct (reconfigured 2 90) as [|p] eqn:E; [discriminate B|]. exists p. split; [done|].
  cbn [backend_of] in B.
  rewrite (submit_group (fun v => v) (fun v => v) 10 (gs_regs 2 90) (vertex_of <$> [1; 2; 3; 4])
             (FixedPrimitive 90 90 98 2) p B).
  - unfold deliver, write_run. rewrite F. done.
  - split_and!; done || lia.
  - done.
  - by repeat constructor.
Defined.

Lemma Emit_one_triangle_witness :
  exists e' v0 v1 v2 a',
    Emit (mkGeometryEmitter true true 2 1 [vertex_of 1; vertex_of 2; vertex_of 3] []) (vertex_of 4) = inr e' /\
    handle_calls 1 (replicate 7 0x03020100) (calls e')
      (mkAssembler ShaderTopology 0 [[]; []] false false) = inr ([(v1, v0, v2)], a') /\
    v2 !! 0%nat = Some (binary_normalize 24 128 4 0 false).
Proof.
  edestruct (Emit_one_triangle 1 (replicate 7 0x03020100) eq_refl
    (mkGeometryEmitter true true 2 1 [vertex_of 1; vertex_of 2; vertex_of 3] []) (vertex_of 4))
    with (a := mkAssembler ShaderTopology 0 [([] : list spec_float); []] false false)
    as (v0 & v1 & v2 & a' & H1 & H2 & _).
  - split; [cbn; lia | unfold is_u16; cbn; lia | done | by repeat constructor].
  - done.
  - done.
  - done.
  - vm_compute. reflexivity.
  - done.
  - done.
  - eexists _, v0, v1, v2, a'. split; [vm_compute; reflexivity|]. split; [exact H2|].
    revert H1. vm_compute. intros [= <- <- <-]. reflexivity.
Defined.

(** ** Drawing *)

Definition mov (dest src : Z) : Z := enc_arith 19 dest src 0 0.

(** The vertex shader copies its first input. *)
Definition mov_setup : ShaderSetup :=
  setup_of [mov 0 0; end_] (mkUniforms (replicate 96 (AssignToAll Float.Zero)) (replicate 16 false)
                              (replicate 4 (MakeVec 0 0 0 0))).

(** Two attributes of two bytes each, and the indices behind them. *)
Definition attributes0 : VertexAttributes :=
  mkVertexAttributes (field 0 32 (Z.shiftl 16 1)) 0x51 0x1FFC0000
    [mkLoaderConfig 0 0x10 0x20040000].

Definition draw_regs : DrawRegs :=
  mkDrawRegs (mkRegs UseGS_No 0 0 0 0 0 0 0 0 0 0 0 0 0 0 0) attributes0 0x1000 4 0
    0 0 0 0 1 0 1 (replicate 7 0x03020100).

(** The input with one vector. *)
Definition shade_one (vec : f24vec) : ShaderUnit -> AttributeBuffer -> G (AttributeBuffer * ShaderUnit) :=
  shade_input (fun v => v) (fun v => v) 10 draw_regs mov_setup (vec :: tail attribute_buffer0).

Definition vertex_vec (v : Z) : f24vec := AssignToAll (binary_normalize 24 128 v 0 false).

(** A unit that has run this shader only. *)
Definition used_unit (u : ShaderUnit) : Prop :=
  exists i0 o0, u = mkShaderUnit [0; 0; 0] [false; false] (i0 :: tail attribute_buffer0)
                      attribute_buffer0 (o0 :: tail attribute_buffer0) None.

Definition same_tail (out : AttributeBuffer) : Prop :=
  exists o0, out = o0 :: tail attribute_buffer0.

Lemma shade_one_ok vec u out : used_unit u -> same_tail out ->
  exists u', shade_one vec u out = Some (inr (vec :: tail attribute_buffer0, u')) /\ used_unit u'.
Proof.
  intros (i0 & o0 & ->) (out0 & ->). destruct vec as [a b c d].
  eexists. split; [vm_compute; reflexivity|]. exists (MakeVec a b c d), (MakeVec a b c d). reflexivity.
Qed.

Lemma vertex_cache_transparent_witness :
  sink_of (load_all (fun v => shade_one (vertex_vec v)) (fun i => inr (7 + i mod 2))
             (fun _ => false) (fun _ k => inr k) (fun out k => mret (k ++ [hd (vertex_vec 0) out]))
             true [0; 1; 2]
             (mkLoopState new_ShaderUnit attribute_buffer0 (replicate VERTEX_CACHE_SIZE None) 0 [])) =
  Some (inr [vertex_vec 7; vertex_vec 8; vertex_vec 7]).
Proof.
  rewrite (vertex_cache_transparent (fun v => shade_one (vertex_vec v)) (fun i => inr (7 + i mod 2))
             (fun _ => false) (fun _ k => inr k) (fun out k => mret (k ++ [hd (vertex_vec 0) out]))
             (fun v => vertex_vec v :: tail attribute_buffer0) used_unit same_tail) with (vs := [7; 8; 7]).
  - vm_compute. reflexivity.
  - intros v u out _ Hu Ho. destruct (shade_one_ok (vertex_vec v) u out Hu Ho) as (u' & H1 & H2).
    exists u'. split; [exact H1|]. split; [exact H2|]. by eexists.
  - reflexivity.
  - repeat constructor; cbn; lia.
  - split; [|split].
    + exists (AssignToAll Float.Zero), (AssignToAll Float.Zero). reflexivity.
    + exists (AssignToAll Float.Zero). reflexivity.
    + split; [done | cbn; lia | by apply Forall_replicate].
Defined.

(** Vertex 1 has the bytes 9 and 10, 11. *)
Definition memory0 (addr : Z) : list Z :=
  if 256 <=? addr then drop (Z.to_nat (addr - 256)) [1; 2; 3; 0; 9; 10; 11; 0] else [].

Definition formats0 : list VertexAttributeFormat := replicate 16 BYTE.

Definition loader0 : VertexLoader :=
  match new_VertexLoader attributes0 formats0 with inr ld => ld | inl _ => initial_loader attributes0 formats0 end.

Lemma loader0_mapped : mapped memory0 loader0 256 1.
Proof.
  intros i source stride f elements H1 H2 H3 H4 H5.
  assert (Hi : (i < 16)%nat) by (apply lookup_lt_Some in H1; exact H1).
  do 2 (destruct i as [|i]; [vm_compute in H2, H3, H4, H5; injection H2 as <-; injection H3 as <-;
                             injection H4 as <-; injection H5 as <-; vm_compute; congruence|]).
  do 14 (destruct i as [|i]; [vm_compute in H1; discriminate H1|]). lia.
Qed.

Definition small_float (n : Z) : spec_float := binary_normalize 24 128 n 0 false.

Lemma LoadVertex_spec_witness :
  exists out, LoadVertex memory0 loader0 256 1 attribute_buffer0 attribute_buffer0 = inr out /\
    take 3 out = [MakeVec (small_float 9) Float.Zero Float.Zero Float.One;
                  MakeVec (small_float 10) (small_float 11) Float.Zero Float.One;
                  AssignToAll Float.Zero].
Proof.
  destruct (LoadVertex_spec memory0 attributes0 formats0 256 1 attribute_buffer0 attribute_buffer0)
    as (ld & E & _ & H); [done | done | done |].
  assert (ld = loader0) as -> by (unfold loader0; by rewrite E).
  destruct (H loader0_mapped) as (out & Hout & Hfull & Hlook). exists out. split; [exact Hout|].
  pose proof (Hlook 0%nat) as H0. pose proof (Hlook 1%nat) as H1. pose proof (Hlook 2%nat) as H2.
  destruct out as [|a [|b [|c out]]]; try discriminate Hfull.
  vm_compute in H0, H1, H2. injection H0 as ->. injection H1 as ->. injection H2 as ->. reflexivity.
Defined.

(** ** Immediate mode *)

Definition core0 (index : Z) : PicaCore :=
  mkPicaCore mov_setup
    (mkSink pipeline0 (mkAssembler List 0 [[]; []] false false) [])
    attribute_buffer0 attribute_buffer0 0 true PackedAttribute.initial index.

Abbreviation submit_words0 := (SubmitImmediate_all (fun _ => 0) (fun v => v) (fun v => v) 10 draw_regs).

Definition raw_vecs : list (Vec4 Z) :=
  [MakeVec raw_one raw_minus_two 0 raw_one; MakeVec 0 0 raw_one raw_one].

Lemma raw_vecs_ok : Forall raw_vec raw_vecs.
Proof. repeat constructor; vm_compute; congruence. Qed.

Lemma upload_default_attributes_witness :
  exists c', submit_words0 (concat (pack24 <$> raw_vecs)) (core0 13) = Some (inr c') /\
    setup_index c' = 15 /\
    input_default_attributes c' !! 14%nat = Some (MakeVec Float.Zero Float.Zero Float.One Float.One).
Proof.
  destruct (upload_default_attributes (fun _ => 0) (fun v => v) (fun v => v) 10 draw_regs raw_vecs (core0 13))
    as (c' & H1 & H2 & H3 & _).
  - done.
  - done.
  - exact raw_vecs_ok.
  - cbn. lia.
  - cbn. lia.
  - exists c'. split; [exact H1|]. split; [exact H3|]. rewrite H2. vm_compute. reflexivity.
Defined.

(** One attribute per vertex: three words draw. *)
Lemma immediate_vertex_witness :
  exists c', submit_words0 (pack24 (MakeVec raw_one raw_minus_two 0 raw_one)) (core0 15) = Some (inr c') /\
    current_attribute c' = 0 /\ buffer_index (primitive_assembler (core_sink c')) = 1.
Proof.
  destruct (immediate_vertex (fun _ => 0) (fun v => v) (fun v => v) 10 draw_regs
              [MakeVec raw_one raw_minus_two 0 raw_one] (core0 15)) as (q & Hq & H).
  - done.
  - done.
  - repeat constructor; vm_compute; congruence.
  - done.
  - done.
  - done.
  - cbn. lia.
  - change (concat (pack24 <$> [MakeVec raw_one raw_minus_two 0 raw_one]))
      with (pack24 (MakeVec raw_one raw_minus_two 0 raw_one)) in H.
    rewrite H. destruct q as [buf i]. destruct Hq as [_ Hi]. cbn in Hi. subst i.
    eexists. split; [vm_compute; reflexivity|]. split; reflexivity.
Defined.

Lemma immediate_index_overflow_witness :
  submit_words0 [0; 0; 0; 0; 0] (write_setup_index 16 (core0 0)) = Some (inl OutOfBounds).
Proof.
  apply (immediate_index_overflow (fun _ => 0) (fun v => v) (fun v => v) 10 draw_regs 0 0 0 0 0
           (write_setup_index 16 (core0 0))); done.
Defined.

(** ** A draw call, from memory to triangles *)

(** Four vertices of four bytes; the indices are 3, 1, 3, 0. *)
Definition memory1 (addr : Z) : list Z :=
  if 4352 <=? addr then drop (Z.to_nat (addr - 4352)) [3; 1; 3; 0]
  else if 256 <=? addr then
    drop (Z.to_nat (addr - 256)) [1; 2; 3; 0; 9; 10; 11; 0; 4; 5; 6; 0; 7; 8; 9; 0]
  else [].

Definition drawn_positions (m : G PicaCore) : list (list (option spec_float)) :=
  match m with
  | Some (inr c) => (fun '(a, b, c) => [a !! 0%nat; b !! 0%nat; c !! 0%nat]) <$> drawn (core_sink c)
  | _ => []
  end.

Example draw_indexed :
  drawn_positions (LoadVertices memory1 (fun _ => 0) (fun v => v) (fun v => v) attribute_buffer0 formats0
                     10 draw_regs true (core0 0)) =
  [[Some (small_float 7); Some (small_float 9); Some (small_float 7)]].
Proof. vm_compute. reflexivity. Qed.
