(* ===== verification/Command.v ===== *)
(** * Command: register writes and command lists of the GPU (video_core/pica/pica_core.cpp, regs_internal.h)

    The registers are an array of words; drawing reads them decoded ([draw_regs]).
    Register numbers are those asserted in regs_internal.h, with the fields in between
    counted from the structures. *)
From Stdlib Require Import SpecFloat.
From stdpp Require Import list.
From S2P Require Import Prelude BitField PicaFloat ShaderBytecode Shader ShaderUpload ShaderSafe Geometry Draw.

Local Open Scope Z_scope.

(** ** State *)

Definition NUM_REGS : Z := 0x300.

(** [head] are the bytes from the list to the end of its memory block. *)
Record CommandList := mkCommandList { head : list Z; current_index : Z; length_ : Z }.

Definition CommandList_Reset (bytes : list Z) (size : Z) : CommandList :=
  mkCommandList bytes 0 (size / 4).

(** The procedural texture tables: noise, color map, alpha map, color, color difference.
    [interrupts] counts the interrupts signalled. *)
Record Pica := mkPica {
  reg_array : list Z;
  core : PicaCore;
  luts : list (list Z);
  lut_dirty : Z;
  fog_lut : list Z;
  fog_lut_dirty : bool;
  proctex : list (list Z);
  table_dirty : Z;
  dirty_regs : list Z;
  interrupts : Z;
  cmd_list : CommandList }.

Definition set_regs (l : list Z) (p : Pica) : Pica :=
  mkPica l (core p) (luts p) (lut_dirty p) (fog_lut p) (fog_lut_dirty p) (proctex p) (table_dirty p)
    (dirty_regs p) (interrupts p) (cmd_list p).
Definition set_core_of (c : PicaCore) (p : Pica) : Pica :=
  mkPica (reg_array p) c (luts p) (lut_dirty p) (fog_lut p) (fog_lut_dirty p) (proctex p) (table_dirty p)
    (dirty_regs p) (interrupts p) (cmd_list p).
Definition set_luts (l : list (list Z)) (dirty : Z) (p : Pica) : Pica :=
  mkPica (reg_array p) (core p) l dirty (fog_lut p) (fog_lut_dirty p) (proctex p) (table_dirty p)
    (dirty_regs p) (interrupts p) (cmd_list p).
Definition set_fog (l : list Z) (dirty : bool) (p : Pica) : Pica :=
  mkPica (reg_array p) (core p) (luts p) (lut_dirty p) l dirty (proctex p) (table_dirty p)
    (dirty_regs p) (interrupts p) (cmd_list p).
Definition set_proctex (l : list (list Z)) (dirty : Z) (p : Pica) : Pica :=
  mkPica (reg_array p) (core p) (luts p) (lut_dirty p) (fog_lut p) (fog_lut_dirty p) l dirty
    (dirty_regs p) (interrupts p) (cmd_list p).
Definition set_dirty_regs (l : list Z) (p : Pica) : Pica :=
  mkPica (reg_array p) (core p) (luts p) (lut_dirty p) (fog_lut p) (fog_lut_dirty p) (proctex p)
    (table_dirty p) l (interrupts p) (cmd_list p).
Definition set_interrupts (n : Z) (p : Pica) : Pica :=
  mkPica (reg_array p) (core p) (luts p) (lut_dirty p) (fog_lut p) (fog_lut_dirty p) (proctex p)
    (table_dirty p) (dirty_regs p) n (cmd_list p).
Definition set_cmd_list (l : CommandList) (p : Pica) : Pica :=
  mkPica (reg_array p) (core p) (luts p) (lut_dirty p) (fog_lut p) (fog_lut_dirty p) (proctex p)
    (table_dirty p) (dirty_regs p) (interrupts p) l.

Definition reg (p : Pica) (id : Z) : Z := nth (Z.to_nat id) (reg_array p) 0.
Definition set_reg (id v : Z) (p : Pica) : Pica := set_regs (<[Z.to_nat id := v]> (reg_array p)) p.

Definition gs_setup (p : Pica) : ShaderSetup := gs (geometry_pipeline (core_sink (core p))).
Definition set_gs_setup (s : ShaderSetup) (p : Pica) : Pica :=
  let c := core p in
  set_core_of (set_core (vs_setup c) (set_pipeline (set_gs s (geometry_pipeline (core_sink c))) (core_sink c))
                 (current_attribute c) (reset_geometry_pipeline c) c) p.
Definition set_vs_setup (s : ShaderSetup) (p : Pica) : Pica :=
  let c := core p in
  set_core_of (set_core s (core_sink c) (current_attribute c) (reset_geometry_pipeline c) c) p.
Definition set_assembler (a : PrimitiveAssembler (list spec_float)) (p : Pica) : Pica :=
  let c := core p in let k := core_sink c in
  set_core_of (set_core (vs_setup c) (mkSink (geometry_pipeline k) a (drawn k))
                 (current_attribute c) (reset_geometry_pipeline c) c) p.

(** ** Registers, decoded *)

Definition gs_exclusive (p : Pica) : bool := negb (field 0 1 (reg p 0x244) =? 0).

(** What is uploaded to the vertex shader unit goes to the geometry shader unit too. *)
Definition gs_shares (p : Pica) : bool :=
  negb (gs_exclusive p) && (field 0 2 (reg p 0x229) =? UseGS_No).

Definition topology_of (v : Z) : TriangleTopology :=
  if v =? 0 then List else if v =? 1 then Strip else if v =? 2 then Fan else ShaderTopology.

Definition pipeline_regs (p : Pica) : PipelineRegs :=
  let r := reg p in
  mkRegs (field 0 2 (r 0x229)) (field 31 1 (r 0x229)) (field 0 4 (r 0x24a)) (field 0 4 (r 0x251))
    (field 0 8 (r 0x252)) (field 8 4 (r 0x252)) (field 12 4 (r 0x252)) (field 16 8 (r 0x252))
    (r 0x254) (field 0 4 (r 0x289)) (field 8 8 (r 0x289)) (field 24 8 (r 0x289))
    (field 0 16 (r 0x28a)) (field 0 16 (r 0x28d)) (r 0x28b) (r 0x28c).

Definition loader_config (p : Pica) (i : Z) : LoaderConfig :=
  mkLoaderConfig (field 0 28 (reg p (0x203 + 3 * i))) (reg p (0x204 + 3 * i)) (reg p (0x205 + 3 * i)).

Definition draw_regs (p : Pica) : DrawRegs :=
  let r := reg p in
  mkDrawRegs (pipeline_regs p)
    (mkVertexAttributes (r 0x200) (r 0x201) (r 0x202) (loader_config p <$> seqZ 0 12))
    (r 0x227) (r 0x228) (r 0x22a) (field 0 4 (r 0x242))
    (field 0 4 (r 0x2b9)) (r 0x2bb) (r 0x2bc) (field 0 16 (r 0x2bd)) (field 0 16 (r 0x2ba))
    (field 0 3 (r 0x4f)) (r <$> seqZ 0x50 7).

(** [GetIntUniform] *)
Definition int_uniform (w : Z) : Vec4 Z :=
  MakeVec (field 0 8 w) (field 8 8 w) (field 16 8 w) (field 24 8 w).

(** ** What a register write does *)

Definition any_byte_match (a b : Z) : bool :=
  (Z.land a 0xFF =? Z.land b 0xFF) ||
  (Z.land (Z.shiftr a 8) 0xFF =? Z.land (Z.shiftr b 8) 0xFF) ||
  (Z.land (Z.shiftr a 16) 0xFF =? Z.land (Z.shiftr b 16) 0xFF) ||
  (Z.land (Z.shiftr a 24) 0xFF =? Z.land (Z.shiftr b 24) 0xFF).

Definition ExpandBitsToBytes : list Z :=
  [0x00000000; 0x000000ff; 0x0000ff00; 0x0000ffff; 0x00ff0000; 0x00ff00ff;
   0x00ffff00; 0x00ffffff; 0xff000000; 0xff0000ff; 0xff00ff00; 0xff00ffff;
   0xffff0000; 0xffff00ff; 0xffffff00; 0xffffffff].

Definition masked_value (old value write_mask : Z) : Z :=
  Z.lor (Z.land old (Z.lxor write_mask 0xffffffff)) (Z.land value write_mask).

(** [id] is one of the [n] registers from [first]. *)
Definition among (id first n : Z) : bool := (first <=? id) && (id <? first + n).

Definition irq_request (p : Pica) : Pica * bool :=
  if any_byte_match (reg p 0x10) (reg p 0x20) then
    (set_interrupts (interrupts p + 1) p, negb (reg p 0x34 =? 0))
  else (p, false).

(** Lighting tables: the type has five bits and selects one of 24 tables. *)
Definition write_lut (value : Z) (p : Pica) : R Pica :=
  let config := reg p 0x1c5 in
  let index := field 0 8 config in
  let type := field 8 5 config in
  _ ← assert (index <? 256) InvalidConfiguration;
  table ← get (luts p) type;
  prev ← get table index;
  table ← put table index value;
  l ← put (luts p) type table;
  let dirty := Z.lor (lut_dirty p) (Z.shiftl (Z.b2z (negb (prev =? value))) type) in
  inr (set_reg 0x1c5 (BitField.assign 32 false 0 8 config (index + 1)) (set_luts l dirty p)).

Definition write_fog (value : Z) (p : Pica) : R Pica :=
  let offset := field 0 16 (reg p 0xe6) in
  prev ← get (fog_lut p) (offset mod 128);
  l ← put (fog_lut p) (offset mod 128) value;
  inr (set_reg 0xe6 (BitField.assign 32 false 0 16 (reg p 0xe6) (offset + 1))
         (set_fog l (fog_lut_dirty p || negb (prev =? value)) p)).

(** The table selected by [ref_table]. *)
Definition proctex_table (ref_table : Z) : option Z :=
  if ref_table =? 0 then Some 0 else if ref_table =? 2 then Some 1 else if ref_table =? 3 then Some 2
  else if ref_table =? 4 then Some 3 else if ref_table =? 5 then Some 4 else None.

Definition write_proctex (value : Z) (p : Pica) : R Pica :=
  let config := reg p 0xaf in
  let index := field 0 8 config in
  let ref_table := field 8 4 config in
  p ← match proctex_table ref_table with
      | None => inr p
      | Some n =>
          table ← get (proctex p) n;
          let i := index mod Z.of_nat (length table) in
          prev ← get table i;
          table ← put table i value;
          l ← put (proctex p) n table;
          inr (set_proctex l (u8 (Z.lor (table_dirty p) (Z.shiftl (Z.b2z (negb (prev =? value))) ref_table))) p)
      end;
  inr (set_reg 0xaf (BitField.assign 32 false 0 8 config (index + 1)) p).

(** Uploads to the shader units. *)
Definition write_gs_bool (p : Pica) : Pica :=
  set_gs_setup (WriteUniformBoolReg (field 0 16 (reg p 0x280)) (gs_setup p)) p.

Definition write_gs_int (index : Z) (p : Pica) : R Pica :=
  s ← WriteUniformIntReg index (int_uniform (reg p (0x281 + index))) (gs_setup p);
  inr (set_gs_setup s p).

Definition write_gs_float (value : Z) (p : Pica) : R Pica :=
  '(_, r, s) ← WriteUniformFloatReg (reg p 0x290) value (gs_setup p);
  inr (set_reg 0x290 r (set_gs_setup s p)).

Definition write_gs_program (value : Z) (p : Pica) : R Pica :=
  let offset := reg p 0x29b in
  if 4096 <=? offset then inr p else
  s ← UpdateProgramCode offset value (gs_setup p);
  inr (set_reg 0x29b (offset + 1) (set_gs_setup s p)).

Definition write_gs_swizzle (value : Z) (p : Pica) : R Pica :=
  let offset := reg p 0x2a5 in
  if Z.of_nat (length (GetSwizzleData (gs_setup p))) <=? offset then inr p else
  s ← UpdateSwizzleData offset value (gs_setup p);
  inr (set_reg 0x2a5 (offset + 1) (set_gs_setup s p)).

Definition write_vs_output_mask (value : Z) (p : Pica) : Pica :=
  if gs_shares p then set_reg 0x28d (BitField.assign 32 false 0 16 (reg p 0x28d) value) p else p.

Definition write_vs_bool (p : Pica) : Pica :=
  let v := field 0 16 (reg p 0x2b0) in
  let p := set_vs_setup (WriteUniformBoolReg v (vs_setup (core p))) p in
  if gs_shares p then set_gs_setup (WriteUniformBoolReg v (gs_setup p)) p else p.

Definition write_vs_int (index : Z) (p : Pica) : R Pica :=
  let v := int_uniform (reg p (0x2b1 + index)) in
  s ← WriteUniformIntReg index v (vs_setup (core p));
  let p := set_vs_setup s p in
  if gs_shares p then s ← WriteUniformIntReg index v (gs_setup p); inr (set_gs_setup s p) else inr p.

Definition write_vs_float (value : Z) (p : Pica) : R Pica :=
  '(index, r, s) ← WriteUniformFloatReg (reg p 0x2c0) value (vs_setup (core p));
  let p := set_reg 0x2c0 r (set_vs_setup s p) in
  match index with
  | Some i =>
      if gs_shares p then
        v ← get (uniforms_f (uniforms (vs_setup (core p)))) i;
        f ← put (uniforms_f (uniforms (gs_setup p))) i v;
        inr (set_gs_setup (with_f f (gs_setup p)) p)
      else inr p
  | None => inr p
  end.

Definition write_vs_program (value : Z) (p : Pica) : R Pica :=
  let offset := reg p 0x2cb in
  if 512 <=? offset then inr p else
  s ← UpdateProgramCode offset value (vs_setup (core p));
  let p := set_vs_setup s p in
  p ← (if gs_shares p then s ← UpdateProgramCode offset value (gs_setup p); inr (set_gs_setup s p)
       else inr p);
  inr (set_reg 0x2cb (offset + 1) p).

Definition write_vs_swizzle (value : Z) (p : Pica) : R Pica :=
  let offset := reg p 0x2d5 in
  if Z.of_nat (length (GetSwizzleData (vs_setup (core p)))) <=? offset then inr p else
  s ← UpdateSwizzleData offset value (vs_setup (core p));
  let p := set_vs_setup s p in
  p ← (if gs_shares p then s ← UpdateSwizzleData offset value (gs_setup p); inr (set_gs_setup s p)
       else inr p);
  inr (set_reg 0x2d5 (offset + 1) p).

Section Commands.
Variable GetPhysicalPointer : Z -> list Z.
Variable ComputeHash64 : list Z -> Z.
Variables exp2f log2f : spec_float -> spec_float.
Variable uninitialised : AttributeBuffer.
Variable uninitialised_formats : list VertexAttributeFormat.
(** The setting for hardware shaders, and the renderer. *)
Variable use_hw_shader : bool.
Variable AccelerateDrawBatch : bool -> bool.
Variable fuel : nat.

(** The index register lives with the other registers. *)
Definition write_immediate (value : Z) (p : Pica) : G Pica :=
  c ← SubmitImmediate ComputeHash64 exp2f log2f fuel (draw_regs p) value (core p);
  mret (set_reg 0x232 (setup_index c) (set_core_of c p)).

Definition write_draw (is_indexed : bool) (p : Pica) : G Pica :=
  c ← DrawArrays GetPhysicalPointer ComputeHash64 exp2f log2f uninitialised uninitialised_formats fuel
        (draw_regs p) use_hw_shader AccelerateDrawBatch is_indexed (core p);
  mret (set_core_of c p).

(** A jump to the command buffer of one of two channels. *)
Definition write_trigger (index : Z) (p : Pica) : Pica :=
  let addr := 8 * field 0 28 (reg p (0x23a + index)) in
  let size := 8 * field 0 20 (reg p (0x238 + index)) in
  set_cmd_list (CommandList_Reset (GetPhysicalPointer addr) size) p.

(** The switch on the register. *)
Definition dispatch (id value : Z) (p : Pica) : G (Pica * bool) :=
  let go (p : Pica) : G (Pica * bool) := mret (p, false) in
  let try (m : R Pica) : G (Pica * bool) := p ← lift m; mret (p, false) in
  if id =? 0x10 then mret (irq_request p)
  else if id =? 0x25e then go (set_assembler (Reconfigure (topology_of (field 8 2 (reg p 0x25e)))
                                                (primitive_assembler (core_sink (core p)))) p)
  else if id =? 0x25f then go (set_assembler (Reset (primitive_assembler (core_sink (core p)))) p)
  else if id =? 0x232 then go (set_core_of (write_setup_index (reg p 0x232) (core p)) p)
  else if among id 0x233 3 then p ← write_immediate value p; mret (p, false)
  else if among id 0x23c 2 then go (write_trigger (id - 0x23c) p)
  else if among id 0x22e 2 then p ← write_draw (id =? 0x22f) p; mret (p, false)
  else if id =? 0x280 then go (write_gs_bool p)
  else if among id 0x281 4 then try (write_gs_int (id - 0x281) p)
  else if among id 0x291 8 then try (write_gs_float value p)
  else if among id 0x29c 8 then try (write_gs_program value p)
  else if among id 0x2a6 8 then try (write_gs_swizzle value p)
  else if id =? 0x2bd then go (write_vs_output_mask value p)
  else if id =? 0x2b0 then go (write_vs_bool p)
  else if among id 0x2b1 4 then try (write_vs_int (id - 0x2b1) p)
  else if among id 0x2c1 8 then try (write_vs_float value p)
  else if among id 0x2cc 8 then try (write_vs_program value p)
  else if among id 0x2d6 8 then try (write_vs_swizzle value p)
  else if among id 0x1c8 8 then try (write_lut value p)
  else if among id 0xe8 8 then try (write_fog value p)
  else if among id 0xb0 8 then try (write_proctex value p)
  else go p.

(** [dirty_regs.Set] *)
Definition mark_dirty (id : Z) (p : Pica) : R Pica :=
  q ← get (dirty_regs p) (Z.shiftr id 6);
  l ← put (dirty_regs p) (Z.shiftr id 6) (Z.lor q (Z.shiftl 1 (Z.land id 0x3f)));
  inr (set_dirty_regs l p).

(** True when a stop is requested. *)
Definition WriteInternalReg (id value mask : Z) (p : Pica) : G (Pica * bool) :=
  if NUM_REGS <=? id then mret (p, false) else
  old ← lift (get (reg_array p) id);
  write_mask ← lift (get ExpandBitsToBytes mask);
  '(p, stop) ← dispatch id value (set_reg id (masked_value old value write_mask) p);
  p ← lift (mark_dirty id p);
  mret (p, stop).

(** ** Command lists *)

(** [cmd_list.head[cmd_list.current_index++]] *)
Definition next_word (p : Pica) : R (Z * Pica) :=
  let l := cmd_list p in
  v ← read_le (head l) (4 * current_index l) 4;
  inr (v, set_cmd_list (mkCommandList (head l) (current_index l + 1) (length_ l)) p).

Definition align_index (p : Pica) : Pica :=
  let l := cmd_list p in
  set_cmd_list (mkCommandList (head l) (current_index l + current_index l mod 2) (length_ l)) p.

(** The extra parameters of a command, from the [i]-th on. *)
Fixpoint extra_writes (n : nat) (i cmd_id mask : Z) (group : bool) (stop : bool) (p : Pica)
    : G (Pica * bool) :=
  match n with
  | O => mret (p, stop)
  | S n =>
      if stop then mret (p, stop) else
      '(extra_value, p) ← lift (next_word p);
      '(p, stop) ← WriteInternalReg (cmd_id + (if group then i + 1 else 0)) extra_value mask p;
      extra_writes n (i + 1) cmd_id mask group stop p
  end.

(** One command: its value, its header and its parameters. *)
Definition one_command (p : Pica) : G (Pica * bool) :=
  '(value, p) ← lift (next_word (align_index p));
  '(header, p) ← lift (next_word p);
  let cmd_id := field 0 16 header in
  let mask := field 16 4 header in
  let group := negb (field 31 1 header =? 0) in
  '(p, stop) ← WriteInternalReg cmd_id value mask p;
  extra_writes (Z.to_nat (field 20 8 header)) 0 cmd_id mask group stop p.

(** [commands] bounds the number of commands. *)
Fixpoint command_loop (commands : nat) (stop : bool) (p : Pica) : G Pica :=
  if negb (current_index (cmd_list p) <? length_ (cmd_list p)) || stop then mret p else
  match commands with
  | O => None
  | S n => '(p, stop) ← one_command p; command_loop n stop p
  end.

Definition ProcessCmdList (commands : nat) (list_addr size : Z) (ignore_list : bool) (p : Pica) : G Pica :=
  if ignore_list then mret (set_interrupts (interrupts p + 1) p)
  else command_loop commands false
         (set_cmd_list (CommandList_Reset (GetPhysicalPointer list_addr) size) p).

(** ** Writes do not depend on the command list *)

Definition with_list (l : CommandList) (m : G (Pica * bool)) : G (Pica * bool) :=
  '(p, stop) ← m; mret (set_cmd_list l p, stop).

(** An operation that neither reads nor changes the command list. *)
Definition list_free (f : Pica -> R Pica) : Prop :=
  forall l p, f (set_cmd_list l p) = (p' ← f p; inr (set_cmd_list l p')).

Ltac fields :=
  cbv [gs_setup set_gs_setup set_vs_setup set_assembler set_reg reg gs_shares gs_exclusive
       set_regs set_core_of set_luts set_fog set_proctex set_dirty_regs set_interrupts set_cmd_list];
  cbn [reg_array core luts lut_dirty fog_lut fog_lut_dirty proctex table_dirty dirty_regs interrupts
       cmd_list];
  cbv [mbind R_bind].

(** Case analysis on the innermost scrutinee, until both sides agree. *)
Ltac list_free_tac :=
  repeat (fields; try reflexivity;
          match goal with
          | |- context [match ?m with _ => _ end] =>
              lazymatch m with context [match _ with _ => _ end] => fail | _ => destruct m end
          end).

#[local] Arguments get : simpl never.
#[local] Arguments put : simpl never.

Lemma write_lut_free value : list_free (write_lut value).
Proof. intros l []. unfold write_lut. list_free_tac. Qed.

Lemma write_fog_free value : list_free (write_fog value).
Proof. intros l []. unfold write_fog. list_free_tac. Qed.

Lemma write_proctex_free value : list_free (write_proctex value).
Proof. intros l []. unfold write_proctex. list_free_tac. Qed.

Lemma write_gs_int_free i : list_free (write_gs_int i).
Proof. intros l []. unfold write_gs_int. list_free_tac. Qed.

Lemma write_gs_float_free value : list_free (write_gs_float value).
Proof. intros l []. unfold write_gs_float. list_free_tac. Qed.

Lemma write_gs_program_free value : list_free (write_gs_program value).
Proof. intros l []. unfold write_gs_program. list_free_tac. Qed.

Lemma write_gs_swizzle_free value : list_free (write_gs_swizzle value).
Proof. intros l []. unfold write_gs_swizzle. list_free_tac. Qed.

Lemma write_vs_int_free i : list_free (write_vs_int i).
Proof. intros l []. unfold write_vs_int. list_free_tac. Qed.

Lemma write_vs_float_free value : list_free (write_vs_float value).
Proof. intros l []. unfold write_vs_float. list_free_tac. Qed.

Lemma write_vs_program_free value : list_free (write_vs_program value).
Proof. intros l []. unfold write_vs_program. list_free_tac. Qed.

Lemma write_vs_swizzle_free value : list_free (write_vs_swizzle value).
Proof. intros l []. unfold write_vs_swizzle. list_free_tac. Qed.

Lemma mark_dirty_free id : list_free (mark_dirty id).
Proof. intros l []. unfold mark_dirty. list_free_tac. Qed.

Create HintDb list_free discriminated.
#[local] Hint Resolve write_lut_free write_fog_free write_proctex_free write_gs_int_free write_gs_float_free
  write_gs_program_free write_gs_swizzle_free write_vs_int_free write_vs_float_free
  write_vs_program_free write_vs_swizzle_free : list_free.

Lemma try_free (f : Pica -> R Pica) l p : list_free f ->
  (p ← lift (f (set_cmd_list l p)); mret (p, false)) =
  with_list l (p ← lift (f p); mret (p, false)).
Proof. intros H. rewrite H. by destruct (f p). Qed.

Lemma write_immediate_list l value p :
  (p ← write_immediate value (set_cmd_list l p); mret (p, false)) =
  with_list l (p ← write_immediate value p; mret (p, false)).
Proof.
  unfold write_immediate. change (draw_regs (set_cmd_list l p)) with (draw_regs p).
  change (core (set_cmd_list l p)) with (core p).
  by destruct (SubmitImmediate _ _ _ _ _ value (core p)) as [[|]|].
Qed.

Lemma write_draw_list l b p :
  (p ← write_draw b (set_cmd_list l p); mret (p, false)) =
  with_list l (p ← write_draw b p; mret (p, false)).
Proof.
  unfold write_draw. change (draw_regs (set_cmd_list l p)) with (draw_regs p).
  change (core (set_cmd_list l p)) with (core p).
  by destruct (DrawArrays _ _ _ _ _ _ _ _ _ _ b (core p)) as [[|]|].
Qed.

Lemma dispatch_list l id value p : among id 0x23c 2 = false ->
  dispatch id value (set_cmd_list l p) = with_list l (dispatch id value p).
Proof.
  intros Hid. unfold dispatch. rewrite Hid. cbv zeta.
  repeat match goal with
  | |- (if ?b then _ else _) = _ => destruct b
  end;
  first [ apply try_free; eauto with list_free
        | apply write_immediate_list | apply write_draw_list | idtac ].
  all: try (destruct p; reflexivity).
  all: destruct p; unfold irq_request, write_vs_output_mask, write_vs_bool, with_list;
    cbv [mbind G_bind mret G_ret]; list_free_tac.
Qed.

Lemma WriteInternalReg_list l id value mask p : among id 0x23c 2 = false ->
  WriteInternalReg id value mask (set_cmd_list l p) = with_list l (WriteInternalReg id value mask p).
Proof.
  intros Hid. unfold WriteInternalReg. destruct (NUM_REGS <=? id); [done|].
  change (reg_array (set_cmd_list l p)) with (reg_array p).
  destruct (get (reg_array p) id) as [|old]; [done|]. cbn [mbind G_bind lift].
  destruct (get ExpandBitsToBytes mask) as [|m]; [done|]. cbn [mbind G_bind lift].
  change (set_reg id ?v (set_cmd_list l p)) with (set_cmd_list l (set_reg id v p)).
  rewrite dispatch_list by done.
  destruct (dispatch id value _) as [[|[p' stop]]|]; [done | | done].
  cbn [with_list mbind G_bind mret G_ret]. rewrite mark_dirty_free.
  by destruct (mark_dirty id p').
Qed.

(** A jump replaces the list, whatever it was, and never stops. *)
Lemma WriteInternalReg_jump l id value mask p : among id 0x23c 2 = true ->
  WriteInternalReg id value mask (set_cmd_list l p) = WriteInternalReg id value mask p /\
  forall p', WriteInternalReg id value mask p <> Some (inr (p', true)).
Proof.
  intros Hid. assert (id = 0x23c \/ id = 0x23d) as Hc by (unfold among in Hid; zbool; lia).
  assert (Hd : forall q, dispatch id value q = mret (write_trigger (id - 0x23c) q, false)).
  { intros q. by destruct Hc as [-> | ->]. }
  unfold WriteInternalReg. destruct (NUM_REGS <=? id) eqn:En.
  { exfalso. unfold NUM_REGS in En. zbool. lia. }
  change (reg_array (set_cmd_list l p)) with (reg_array p).
  destruct (get (reg_array p) id) as [|old]; cbn [mbind G_bind lift]; [by split|].
  destruct (get ExpandBitsToBytes mask) as [|m]; cbn [mbind G_bind lift]; [by split|].
  rewrite !Hd. cbn [mbind G_bind mret G_ret]. split.
  - by destruct p.
  - intros p'. by destruct (mark_dirty id _).
Qed.

(** ** Commands, encoded *)

Record command := mkCommand {
  c_id : Z; c_mask : Z; c_value : Z; c_extra : list Z; c_group : bool }.

Definition command_ok (c : command) : Prop :=
  is_u16 (c_id c) /\ 0 <= c_mask c < 16 /\ is_u32 (c_value c) /\ Forall is_u32 (c_extra c) /\
  (length (c_extra c) < 256)%nat.

Definition header_word (c : command) : Z :=
  c_id c + c_mask c * 2 ^ 16 + Z.of_nat (length (c_extra c)) * 2 ^ 20 + Z.b2z (c_group c) * 2 ^ 31.

Definition words (c : command) : list Z := c_value c :: header_word c :: c_extra c.

(** The next command starts at an even word. *)
Definition padding (c : command) : list Z := if Nat.even (length (c_extra c)) then [] else [0].

Fixpoint encode_list (cs : list command) : list Z :=
  match cs with
  | [] => []
  | [c] => words c
  | c :: cs => words c ++ padding c ++ encode_list cs
  end.

(** The register writes that a command asks for. *)
Fixpoint extra_list (i id mask : Z) (group : bool) (vs : list Z) : list (Z * Z * Z) :=
  match vs with
  | [] => []
  | v :: vs => (id + (if group then i + 1 else 0), v, mask) :: extra_list (i + 1) id mask group vs
  end.

Definition writes (c : command) : list (Z * Z * Z) :=
  (c_id c, c_value c, c_mask c) :: extra_list 0 (c_id c) (c_mask c) (c_group c) (c_extra c).

(** A run of register writes, up to the one that asks for a stop. *)
Fixpoint do_writes (ws : list (Z * Z * Z)) (p : Pica) : G (Pica * bool) :=
  match ws with
  | [] => mret (p, false)
  | (id, v, mask) :: ws =>
      '(p, stop) ← WriteInternalReg id v mask p;
      if (stop : bool) then mret (p, true) else do_writes ws p
  end.

Lemma do_writes_app ws1 ws2 p :
  do_writes (ws1 ++ ws2) p =
  ('(p, stop) ← do_writes ws1 p; if (stop : bool) then mret (p, true) else do_writes ws2 p).
Proof.
  revert p. induction ws1 as [|[[id v] m] ws1 IH]; intros p; cbn [do_writes app]; [done|].
  destruct (WriteInternalReg id v m p) as [[|[p' [|]]]|]; try done.
  cbn [mbind G_bind]. apply IH.
Qed.

(** ** Reading words *)

Definition advance (n : Z) (l : CommandList) : CommandList :=
  mkCommandList (head l) (current_index l + n) (length_ l).

(** The words [ws] are next in the list. *)
Definition pending (l : CommandList) (ws : list Z) : Prop :=
  0 <= current_index l /\
  exists rest, drop (Z.to_nat (4 * current_index l)) (head l) = words_bytes ws ++ rest.

Lemma pending_app l ws1 ws2 : pending l (ws1 ++ ws2) ->
  pending (advance (Z.of_nat (length ws1)) l) ws2.
Proof.
  intros (H0 & rest & Hr). split; [cbn; lia|]. exists rest. cbn [advance current_index head].
  replace (Z.to_nat (4 * (current_index l + Z.of_nat (length ws1))))
    with (Z.to_nat (4 * current_index l) + length (words_bytes ws1))%nat
    by (rewrite length_words_bytes; lia).
  rewrite <- drop_drop, Hr. unfold words_bytes. rewrite bind_app, <- app_assoc.
  by rewrite drop_app_length.
Qed.

Lemma next_word_pending l v ws p : pending l (v :: ws) -> is_u32 v ->
  next_word (set_cmd_list l p) = inr (v, set_cmd_list (advance 1 l) p).
Proof.
  intros (H0 & rest & Hr) Hv. unfold next_word. cbn [cmd_list set_cmd_list].
  unfold words_bytes in Hr. cbn [mbind list_bind] in Hr.
  assert (Hlen : (4 <= length (drop (Z.to_nat (4 * current_index l)) (head l)))%nat)
    by (rewrite Hr; simpl; lia).
  rewrite length_drop in Hlen.
  rewrite read_le_value by lia. cbn [mbind R_bind]. rewrite Hr, <- app_assoc.
  change 4%nat with (length (le32 v)). rewrite take_app_length, le_value_le32 by done. done.
Qed.

Lemma field_div v p b : 0 <= p -> 0 <= b -> field p b v = (v / 2 ^ p) mod 2 ^ b.
Proof. intros. unfold field. by rewrite Z.land_ones, Z.shiftr_div_pow2 by lia. Qed.

Lemma header_fields c : command_ok c ->
  is_u32 (header_word c) /\
  field 0 16 (header_word c) = c_id c /\ field 16 4 (header_word c) = c_mask c /\
  field 20 8 (header_word c) = Z.of_nat (length (c_extra c)) /\
  negb (field 31 1 (header_word c) =? 0) = c_group c.
Proof.
  intros (Hid & Hm & _ & _ & Hn). rewrite !field_div by lia. unfold header_word, is_u32, is_u16 in *.
  change (2 ^ 16) with 65536. change (2 ^ 20) with 1048576. change (2 ^ 31) with 2147483648.
  change (2 ^ 0) with 1. change (2 ^ 4) with 16. change (2 ^ 8) with 256. change (2 ^ 1) with 2.
  destruct (c_group c); cbn [Z.b2z]; split_and!; try zlia; apply negb_true_iff || apply negb_false_iff;
    (apply Z.eqb_eq || apply Z.eqb_neq); zlia.
Qed.

(** [m] does what [spec] says, and leaves the list at [l] unless it stopped. *)
Definition follows (m spec : G (Pica * bool)) (l : CommandList) : Prop :=
  match spec with
  | Some (inr (p, false)) => m = Some (inr (set_cmd_list l p, false))
  | Some (inr (p, true)) => exists l', m = Some (inr (set_cmd_list l' p, true))
  | Some (inl e) => m = Some (inl e)
  | None => m = None
  end.

(** No write jumps to another command buffer. *)
Definition stays (ws : list (Z * Z * Z)) : Prop :=
  Forall (fun '(id, _, _) => among id 0x23c 2 = false) ws.

(** The last write, and no other one, jumps to another command buffer. *)
Fixpoint ends_in_jump (ws : list (Z * Z * Z)) : Prop :=
  match ws with
  | [] => False
  | [(id, _, _)] => among id 0x23c 2 = true
  | (id, _, _) :: ws => among id 0x23c 2 = false /\ ends_in_jump ws
  end.

Lemma ends_in_jump_app ws1 ws2 : ws2 <> [] ->
  ends_in_jump (ws1 ++ ws2) <-> stays ws1 /\ ends_in_jump ws2.
Proof.
  intros Hne. unfold stays. induction ws1 as [|[[id v] m] ws1 IH]; cbn [app].
  - split; [intros H; split; [constructor|done]|by intros [_ H]].
  - rewrite Forall_cons. cbn [ends_in_jump]. destruct (ws1 ++ ws2) as [|w ws] eqn:E.
    + by apply app_nil in E as [_ ?].
    + rewrite IH. tauto.
Qed.

Lemma extra_writes_follows vs i id mask group ws l p :
  pending l (vs ++ ws) -> Forall is_u32 vs -> stays (extra_list i id mask group vs) ->
  follows (extra_writes (length vs) i id mask group false (set_cmd_list l p))
          (do_writes (extra_list i id mask group vs) p) (advance (Z.of_nat (length vs)) l).
Proof.
  intros Hp Hvs. revert i l p Hp. induction Hvs as [|v vs Hv Hvs IH]; intros i l p Hp Hs.
  { destruct l. unfold follows, advance. simpl. by rewrite Z.add_0_r. }
  cbn [extra_list] in Hs. apply Forall_cons in Hs as [Hid Hs].
  cbn [extra_list do_writes extra_writes length app] in *. cbn match.
  rewrite (next_word_pending l v (vs ++ ws)) by done. cbn [mbind G_bind lift].
  rewrite WriteInternalReg_list by done.
  destruct (WriteInternalReg _ v mask p) as [[|[p' [|]]]|]; try done.
  - cbn [with_list mbind G_bind mret G_ret]. exists (advance 1 l). by destruct (length vs).
  - cbn [with_list mbind G_bind mret G_ret].
    replace (advance (Z.of_nat (S (length vs))) l) with (advance (Z.of_nat (length vs)) (advance 1 l))
      by (unfold advance; cbn; f_equal; lia).
    apply IH; [|done]. by apply (pending_app l [v]).
Qed.

(** The value and the header of a command are read; the reading goes on at its extra
    parameters. *)
Lemma one_command_read c pad ws l p :
  command_ok c -> pending l (pad ++ words c ++ ws) -> current_index l mod 2 = Z.of_nat (length pad) ->
  let l2 := advance (Z.of_nat (length pad) + 2) l in
  pending l2 (c_extra c ++ ws) /\
  one_command (set_cmd_list l p) =
    ('(p, stop) ← WriteInternalReg (c_id c) (c_value c) (c_mask c) (set_cmd_list l2 p);
     extra_writes (length (c_extra c)) 0 (c_id c) (c_mask c) (c_group c) stop p).
Proof.
  intros Hc Hp Hpar l2. destruct (header_fields c Hc) as (Hu & F1 & F2 & F3 & F4).
  destruct Hc as (_ & _ & Hv & _). apply pending_app in Hp. unfold one_command.
  assert (align_index (set_cmd_list l p) = set_cmd_list (advance (Z.of_nat (length pad)) l) p) as ->.
  { unfold align_index. cbn [cmd_list set_cmd_list]. rewrite Hpar. done. }
  set (l1 := advance (Z.of_nat (length pad)) l) in *. cbn [words app] in Hp.
  rewrite (next_word_pending l1 _ _ p Hp Hv). cbn [mbind G_bind lift].
  apply (pending_app l1 [c_value c]) in Hp. cbn [length] in Hp. change (Z.of_nat 1) with 1 in Hp.
  rewrite (next_word_pending (advance 1 l1) _ _ p Hp Hu). cbn [mbind G_bind lift].
  apply (pending_app (advance 1 l1) [header_word c]) in Hp. cbn [length] in Hp.
  change (Z.of_nat 1) with 1 in Hp.
  replace (advance 1 (advance 1 l1)) with l2 in * by (unfold l2, l1, advance; cbn; f_equal; lia).
  by rewrite F1, F2, F3, F4, Nat2Z.id.
Qed.

(** One command, after the padding of the one before. *)
Lemma one_command_follows c pad ws l p :
  command_ok c -> stays (writes c) ->
  pending l (pad ++ words c ++ ws) -> current_index l mod 2 = Z.of_nat (length pad) ->
  follows (one_command (set_cmd_list l p)) (do_writes (writes c) p)
    (advance (Z.of_nat (length pad + length (words c))) l).
Proof.
  intros Hc Hs Hp Hpar. destruct (one_command_read c pad ws l p Hc Hp Hpar) as [Hp2 ->].
  destruct Hc as (_ & _ & _ & Hvs & _). apply Forall_cons in Hs as [Hid Hs].
  set (l2 := advance (Z.of_nat (length pad) + 2) l) in *. unfold writes. cbn [do_writes].
  rewrite WriteInternalReg_list by done.
  replace (advance (Z.of_nat (length pad + length (words c))) l)
    with (advance (Z.of_nat (length (c_extra c))) l2)
    by (unfold l2, advance, words; cbn; f_equal; lia).
  destruct (WriteInternalReg (c_id c) (c_value c) (c_mask c) p) as [[|[p' [|]]]|]; try done.
  - cbn [with_list mbind G_bind mret G_ret]. exists l2. by destruct (length (c_extra c)).
  - cbn [with_list mbind G_bind mret G_ret]. by apply extra_writes_follows with ws.
Qed.

(** The state without the reading position. *)
Definition forget (p : Pica) : Pica := set_cmd_list (mkCommandList [] 0 0) p.

Definition loop_result (m : G Pica) : G Pica := p ← m; mret (forget p).
Definition writes_result (m : G (Pica * bool)) : G Pica := '(p, _) ← m; mret (forget p).

Lemma encode_list_cons c cs : cs <> [] ->
  encode_list (c :: cs) = words c ++ padding c ++ encode_list cs.
Proof. by destruct cs. Qed.

Lemma command_loop_stop n l p : command_loop n true (set_cmd_list l p) = mret (set_cmd_list l p).
Proof. destruct n; cbn [command_loop]; by rewrite orb_true_r. Qed.

Lemma command_loop_end n l p : length_ l <= current_index l ->
  command_loop n false (set_cmd_list l p) = mret (set_cmd_list l p).
Proof. intros H. destruct n; cbn [command_loop cmd_list set_cmd_list]; by zdecide. Qed.

Lemma length_padding c : Z.of_nat (length (padding c)) = Z.of_nat (length (c_extra c)) mod 2.
Proof.
  unfold padding. destruct (Nat.even (length (c_extra c))) eqn:E.
  - apply Nat.even_spec in E as [k ->]. simpl. zlia.
  - assert (Ho : Nat.odd (length (c_extra c)) = true) by (by rewrite <- Nat.negb_even, E).
    apply Nat.odd_spec in Ho as [k ->]. simpl. zlia.
Qed.

Lemma command_loop_follows n cs pad l p :
  Forall command_ok cs -> stays (cs ≫= writes) -> cs <> [] -> (length cs <= n)%nat ->
  pending l (pad ++ encode_list cs) -> current_index l mod 2 = Z.of_nat (length pad) ->
  length_ l = current_index l + Z.of_nat (length (pad ++ encode_list cs)) ->
  loop_result (command_loop n false (set_cmd_list l p)) =
  writes_result (do_writes (cs ≫= writes) p).
Proof.
  intros Hall. revert n pad l p. induction Hall as [|c cs Hc Hall IH];
    intros n pad l p Hs Hne Hn Hp Hpar Hlen; [done|]. clear Hne.
  destruct n as [|n]; [simpl in Hn; lia|].
  set (tl := if decide (cs = []) then [] else padding c ++ encode_list cs).
  assert (Htl : encode_list (c :: cs) = words c ++ tl).
  { unfold tl. case_decide as E; [subst cs; simpl; by rewrite app_nil_r | by apply encode_list_cons]. }
  rewrite Htl in *. cbn [mbind list_bind] in *. apply Forall_app in Hs as [Hs Hs'].
  assert (Hw : (2 <= length (words c))%nat) by (unfold words; simpl; lia).
  cbn [command_loop cmd_list set_cmd_list].
  rewrite (proj2 (Z.ltb_lt _ _)) by (rewrite Hlen, !length_app; lia). cbn [negb orb].
  pose proof (one_command_follows c pad tl l p Hc Hs Hp Hpar) as Hf.
  rewrite do_writes_app. change (set_cmd_list l p) with (set_cmd_list l p).
  set (l' := advance _ l) in Hf.
  assert (Hp' : pending l' tl).
  { unfold l'. rewrite <- length_app. apply (pending_app l (pad ++ words c)). by rewrite <- app_assoc. }
  destruct (do_writes (writes c) p) as [[e|[p' [|]]]|]; cbn [follows] in Hf.
  - by rewrite Hf.
  - destruct Hf as [l2 ->]. cbn [mbind G_bind]. by rewrite command_loop_stop.
  - rewrite Hf. cbn [mbind G_bind].
    assert (Hcur : length_ l' = current_index l' + Z.of_nat (length tl)).
    { unfold l', advance. cbn [length_ current_index]. rewrite Hlen, !length_app. lia. }
    unfold tl in *. case_decide as E.
    + subst cs. rewrite command_loop_end by (cbn [length] in Hcur; lia). done.
    + fold (mbind (M := list) writes cs). apply IH with (pad := padding c); try done.
      * simpl in Hn. lia.
      * unfold l', advance. cbn [current_index].
        rewrite length_padding. unfold words. cbn [length]. zlia.
  - by rewrite Hf.
Qed.

(** *** Jumps *)

(** [m] does what [spec] says, whose last write is a jump; the list is then the one
    that the jump has set. *)
Definition jumps (m spec : G (Pica * bool)) : Prop :=
  match spec with
  | Some (inr (p, true)) => exists l', m = Some (inr (set_cmd_list l' p, true))
  | _ => m = spec
  end.

Lemma extra_writes_jumps vs i id mask group ws l p :
  pending l (vs ++ ws) -> Forall is_u32 vs -> ends_in_jump (extra_list i id mask group vs) ->
  jumps (extra_writes (length vs) i id mask group false (set_cmd_list l p))
        (do_writes (extra_list i id mask group vs) p).
Proof.
  intros Hp Hvs. revert i l p Hp. induction Hvs as [|v vs Hv Hvs IH]; intros i l p Hp Hs; [done|].
  cbn [extra_list do_writes extra_writes length app] in *. cbn match.
  rewrite (next_word_pending l v (vs ++ ws)) by done. cbn [mbind G_bind lift].
  destruct vs as [|v2 vs].
  - cbn [extra_list ends_in_jump] in Hs. destruct (WriteInternalReg_jump (advance 1 l) _ v mask p Hs) as [E Hn].
    rewrite E. destruct (WriteInternalReg _ v mask p) as [[|[p' [|]]]|]; try done. by destruct (Hn p').
  - destruct Hs as [Hid Hs]. rewrite WriteInternalReg_list by done.
    destruct (WriteInternalReg _ v mask p) as [[|[p' [|]]]|]; try done.
    + cbn [with_list mbind G_bind mret G_ret]. by exists (advance 1 l).
    + cbn [with_list mbind G_bind mret G_ret]. apply IH; [|done]. by apply (pending_app l [v]).
Qed.

Lemma one_command_jumps c pad ws l p :
  command_ok c -> ends_in_jump (writes c) ->
  pending l (pad ++ words c ++ ws) -> current_index l mod 2 = Z.of_nat (length pad) ->
  jumps (one_command (set_cmd_list l p)) (do_writes (writes c) p).
Proof.
  intros Hc Hj Hp Hpar. destruct (one_command_read c pad ws l p Hc Hp Hpar) as [Hp2 ->].
  destruct Hc as (_ & _ & _ & Hvs & _). set (l2 := advance _ l) in *.
  unfold writes in *. cbn [do_writes]. destruct (c_extra c) as [|v vs].
  - cbn [extra_list ends_in_jump] in Hj. destruct (WriteInternalReg_jump l2 _ (c_value c) (c_mask c) p Hj) as [-> Hn].
    destruct (WriteInternalReg _ _ _ p) as [[|[p' [|]]]|]; try done. by destruct (Hn p').
  - destruct Hj as [Hid Hj]. rewrite WriteInternalReg_list by done.
    destruct (WriteInternalReg _ _ _ p) as [[|[p' [|]]]|]; try done.
    + cbn [with_list mbind G_bind mret G_ret]. by exists l2.
    + cbn [with_list mbind G_bind mret G_ret]. by apply extra_writes_jumps with ws.
Qed.

(** What follows the list [cs] when its last write has jumped. *)
Lemma command_loop_jumps n cs pad l p :
  Forall command_ok cs -> ends_in_jump (cs ≫= writes) -> (length cs <= n)%nat ->
  pending l (pad ++ encode_list cs) -> current_index l mod 2 = Z.of_nat (length pad) ->
  current_index l + Z.of_nat (length (pad ++ encode_list cs)) <= length_ l ->
  match do_writes (cs ≫= writes) p with
  | Some (inr (p', false)) =>
      command_loop n false (set_cmd_list l p) = command_loop (n - length cs) false p'
  | Some (inr (p', true)) => exists l', command_loop n false (set_cmd_list l p) = mret (set_cmd_list l' p')
  | Some (inl e) => command_loop n false (set_cmd_list l p) = Some (inl e)
  | None => command_loop n false (set_cmd_list l p) = None
  end.
Proof.
  intros Hall. revert n pad l p. induction Hall as [|c cs Hc Hall IH];
    intros n pad l p Hs Hn Hp Hpar Hlen; [done|].
  destruct n as [|n]; [simpl in Hn; lia|]. cbn [length Nat.sub].
  set (tl := if decide (cs = []) then [] else padding c ++ encode_list cs).
  assert (Htl : encode_list (c :: cs) = words c ++ tl).
  { unfold tl. case_decide as E; [subst cs; simpl; by rewrite app_nil_r | by apply encode_list_cons]. }
  rewrite Htl in *. cbn [mbind list_bind] in *.
  fold (mbind (M := list) writes cs) in *.
  assert (Hw : (2 <= length (words c))%nat) by (unfold words; simpl; lia).
  cbn [command_loop cmd_list set_cmd_list].
  rewrite (proj2 (Z.ltb_lt _ _)) by (rewrite !length_app in Hlen; lia). cbn [negb orb].
  destruct (decide (cs = [])) as [->|Hne].
  - cbn [mbind list_bind] in *. rewrite app_nil_r in *. rewrite Nat.sub_0_r.
    assert (Hp1 : pending l (pad ++ words c ++ [])) by (rewrite app_nil_r; exact Hp).
    pose proof (one_command_jumps c pad [] l p Hc Hs Hp1 Hpar) as Hf.
    destruct (do_writes (writes c) p) as [[e|[p' [|]]]|]; cbn [jumps] in Hf; try by rewrite Hf.
    destruct Hf as [l2 ->]. exists l2. cbn [mbind G_bind]. by rewrite command_loop_stop.
  - assert (Hws : cs ≫= writes <> []) by (by destruct cs).
    apply ends_in_jump_app in Hs as [Hs Hj]; [|done].
    pose proof (one_command_follows c pad tl l p Hc Hs Hp Hpar) as Hf.
    rewrite do_writes_app. set (l' := advance _ l) in Hf.
    assert (Hp' : pending l' tl).
    { unfold l'. rewrite <- length_app. apply (pending_app l (pad ++ words c)). by rewrite <- app_assoc. }
    destruct (do_writes (writes c) p) as [[e|[p' [|]]]|]; cbn [follows] in Hf; try by rewrite Hf.
    + destruct Hf as [l2 ->]. exists l2. cbn [mbind G_bind]. by rewrite command_loop_stop.
    + rewrite Hf. cbn [mbind G_bind]. unfold tl in *.
      apply (IH n (padding c) l'); [done|simpl in Hn; lia|done| |].
      * unfold l', advance. cbn [current_index].
        rewrite length_padding. unfold words. cbn [length]. zlia.
      * unfold l', advance. cbn [length_ current_index]. rewrite !length_app in *. lia.
Qed.

(** Where a jump leads: the address and the size are those of its channel. *)
Lemma jump_target id value mask p p' stop : among id 0x23c 2 = true ->
  WriteInternalReg id value mask p = Some (inr (p', stop)) ->
  cmd_list p' = CommandList_Reset (GetPhysicalPointer (8 * field 0 28 (reg p' (0x23a + (id - 0x23c)))))
                  (8 * field 0 20 (reg p' (0x238 + (id - 0x23c)))).
Proof.
  intros Hid. assert (id = 0x23c \/ id = 0x23d) as Hc by (unfold among in Hid; zbool; lia).
  unfold WriteInternalReg. destruct (NUM_REGS <=? id) eqn:En.
  { exfalso. unfold NUM_REGS in En. zbool. lia. }
  destruct (get (reg_array p) id) as [|old]; [done|]. cbn [mbind G_bind lift].
  destruct (get ExpandBitsToBytes mask) as [|m]; [done|]. cbn [mbind G_bind lift].
  assert (Hd : forall q, dispatch id value q = mret (write_trigger (id - 0x23c) q, false)).
  { intros q. by destruct Hc as [-> | ->]. }
  rewrite Hd. cbn [mbind G_bind mret G_ret]. unfold mark_dirty.
  destruct (get _ (Z.shiftr id 6)) as [|q]; [done|]. cbn [mbind R_bind].
  destruct (put _ _ _) as [|d]; [done|]. cbn [mbind R_bind lift]. by intros [= <- _].
Qed.

(** The lists [segments] one after the other, the first one in [l]: all but the last end in a
    jump, and the jump leads to the next one.  Words behind a jump are not read. *)
Fixpoint chained (l : CommandList) (segments : list (list command)) (p : Pica) : Prop :=
  match segments with
  | [] => False
  | cs :: rest =>
      current_index l = 0 /\ (exists behind, head l = words_bytes (encode_list cs) ++ behind) /\
      match rest with
      | [] => length_ l = Z.of_nat (length (encode_list cs)) /\ stays (cs ≫= writes)
      | _ =>
          Z.of_nat (length (encode_list cs)) <= length_ l /\ ends_in_jump (cs ≫= writes) /\
          forall p', do_writes (cs ≫= writes) p = Some (inr (p', false)) -> chained (cmd_list p') rest p'
      end
  end.

Lemma command_loop_chained segments : forall n l p,
  Forall (Forall command_ok) segments -> chained l segments p -> (length (concat segments) <= n)%nat ->
  loop_result (command_loop n false (set_cmd_list l p)) =
  writes_result (do_writes (concat segments ≫= writes) p).
Proof.
  induction segments as [|cs rest IH]; intros n l p Hall Hch Hn; [done|].
  apply Forall_cons in Hall as [Hcs Hall]. destruct Hch as (H0 & (behind & Hb) & Hch).
  assert (Hp : pending l ([] ++ encode_list cs)).
  { split; [lia|]. exists behind. by rewrite H0. }
  cbn [concat] in *. rewrite bind_app, do_writes_app. rewrite length_app in Hn. destruct rest as [|cs2 rest].
  - destruct Hch as [Hlen Hs]. cbn [concat mbind list_bind do_writes].
    assert (E : writes_result (do_writes (cs ≫= writes) p) =
      writes_result ('(p, stop) ← do_writes (cs ≫= writes) p;
                     if (stop : bool) then mret (p, true) else mret (p, false))).
    { by destruct (do_writes _ p) as [[|[? []]]|]. }
    rewrite <- E. destruct (decide (cs = [])) as [->|Hne].
    + rewrite command_loop_end by (rewrite Hlen, H0; simpl; lia). done.
    + apply command_loop_follows with (pad := []); try done; [lia|by rewrite H0|].
      rewrite H0, Hlen. done.
  - destruct Hch as (Hlen & Hj & Hnext).
    pose proof (command_loop_jumps n cs [] l p Hcs Hj ltac:(lia) Hp ltac:(by rewrite H0)
                  ltac:(rewrite H0; exact Hlen)) as Hrun.
    destruct (do_writes (cs ≫= writes) p) as [[e|[p' [|]]]|]; try by rewrite Hrun.
    + by destruct Hrun as [l' ->].
    + rewrite Hrun. cbn [mbind G_bind]. rewrite <- (IH (n - length cs)%nat (cmd_list p') p'); [|done|by apply Hnext|lia].
      by destruct p'.
Qed.

(** A round that leaves everything as it was is repeated forever. *)
Lemma command_loop_same p : one_command p = Some (inr (p, false)) ->
  current_index (cmd_list p) < length_ (cmd_list p) -> forall n, command_loop n false p = None.
Proof.
  intros E Hlt. induction n as [|n IH]; cbn [command_loop];
    rewrite (proj2 (Z.ltb_lt _ _) Hlt); cbn [negb orb]; [done|]. rewrite E. exact IH.
Qed.

(** C33: Command lists do the register writes they encode, in order and up to the one
    that requests a stop: single writes, runs to one register and runs to consecutive
    ones, whatever the parameters, the padding between commands included.  A list may end
    in a write to a command buffer trigger (0x23c, 0x23d), which jumps to the next list at the
    address its registers give then ([jump_target]); any number of lists may follow
    each other so, as long as the chain is finite and a jump is the last write
    of its list.  The loop ends after at most one round per command.  (A list
    that jumps to itself is processed forever: [CommandModel.self_jump_never_ends].) *)
Theorem ProcessCmdList_encoded n segments addr size p :
  Forall (Forall command_ok) segments ->
  chained (CommandList_Reset (GetPhysicalPointer addr) size) segments p ->
  (length (concat segments) <= n)%nat ->
  loop_result (ProcessCmdList n addr size false p) =
  writes_result (do_writes (concat segments ≫= writes) p).
Proof. intros Hall Hch Hn. by apply command_loop_chained. Qed.

(** ** Plain registers *)

(** The registers without an effect of their own. *)
Definition plain (id : Z) : bool :=
  negb (existsb (fun '(first, n) => among id first n)
    [(0x10, 1); (0x25e, 2); (0x232, 4); (0x23c, 2); (0x22e, 2); (0x280, 5); (0x291, 8); (0x29c, 8);
     (0x2a6, 8); (0x2bd, 1); (0x2b0, 5); (0x2c1, 8); (0x2cc, 8); (0x2d6, 8); (0x1c8, 8); (0xe8, 8);
     (0xb0, 8)]).

Lemma dispatch_plain id value p : plain id = true -> dispatch id value p = mret (p, false).
Proof.
  unfold plain, among. intros H%negb_true_iff. cbn [existsb] in H.
  repeat (apply orb_false_iff in H as [? H]). clear H.
  unfold dispatch, among. cbv zeta.
  repeat match goal with |- (if ?b then _ else _) = _ => replace b with false by (symmetry; lia) end.
  done.
Qed.

(** A byte of a word. *)
Definition byte_of (v j : Z) : Z := field (8 * j) 8 v.

Lemma masked_value_byte old value mask m j : 0 <= j < 4 -> 0 <= mask < 16 ->
  ExpandBitsToBytes !! Z.to_nat mask = Some m ->
  byte_of (masked_value old value m) j = byte_of (if Z.testbit mask j then value else old) j.
Proof.
  intros Hj Hm E.
  assert (Hbits : forall i, 0 <= i < 8 ->
    Z.testbit m (8 * j + i) = Z.testbit mask j /\ Z.testbit (Z.lxor m 0xffffffff) (8 * j + i) = negb (Z.testbit mask j)).
  { intros i Hi.
    assert (C : forallb (fun k => forallb (fun j => forallb (fun i =>
        eqb (Z.testbit (nth (Z.to_nat k) ExpandBitsToBytes 0) (8 * j + i)) (Z.testbit k j) &&
        eqb (Z.testbit (Z.lxor (nth (Z.to_nat k) ExpandBitsToBytes 0) 0xffffffff) (8 * j + i))
          (negb (Z.testbit k j))) (seqZ 0 8)) (seqZ 0 4)) (seqZ 0 16) = true) by reflexivity.
    rewrite forallb_forall in C. specialize (C mask). rewrite forallb_forall in C.
    pose proof (C ltac:(apply list_elem_of_In, elem_of_seqZ; lia) j
                  ltac:(apply list_elem_of_In, elem_of_seqZ; lia)) as C1.
    rewrite forallb_forall in C1.
    pose proof (C1 i ltac:(apply list_elem_of_In, elem_of_seqZ; lia)) as C2.
    rewrite (nth_lookup_Some _ _ 0 _ E) in C2.
    apply andb_true_iff in C2 as [H1%eqb_prop H2%eqb_prop]. done. }
  unfold byte_of, field, masked_value. apply Z.bits_inj'. intros i Hi.
  destruct (Z.lt_ge_cases i 8) as [Hlt|Hge].
  - rewrite !Z.land_spec, !Z.shiftr_spec, Z.lor_spec, !Z.land_spec by lia.
    destruct (Hbits i ltac:(lia)) as [H1 H2].
    rewrite (Z.add_comm i (8 * j)), H1, H2.
    by destruct (Z.testbit mask j); rewrite ?andb_true_r, ?andb_false_r, ?orb_false_r, ?orb_false_l.
  - rewrite !Z.land_spec, (Z.ones_spec_high 8 i), !andb_false_r by lia. done.
Qed.

(** A write to a register without an effect of its own changes the bytes that its
    mask selects, keeps the others and every other register, and marks the register
    dirty; nothing stops. *)
Theorem WriteInternalReg_plain id value mask p :
  plain id = true -> 0 <= id < NUM_REGS -> 0 <= mask < 16 ->
  length (reg_array p) = 768%nat -> length (dirty_regs p) = 12%nat ->
  exists p', WriteInternalReg id value mask p = Some (inr (p', false)) /\
    (forall j, 0 <= j < 4 ->
       byte_of (reg p' id) j = byte_of (if Z.testbit mask j then value else reg p id) j) /\
    (forall i, 0 <= i -> i <> id -> reg p' i = reg p i) /\
    (exists q, dirty_regs p' !! Z.to_nat (Z.shiftr id 6) = Some q /\ Z.testbit q (Z.land id 63) = true) /\
    core p' = core p.
Proof.
  intros Hpl Hid Hm Hr Hd. unfold NUM_REGS in Hid.
  destruct (lookup_lt_is_Some_2 (reg_array p) (Z.to_nat id)) as [old Eo]; [lia|].
  destruct (lookup_lt_is_Some_2 ExpandBitsToBytes (Z.to_nat mask)) as [m Em]; [cbn [length ExpandBitsToBytes]; lia|].
  assert (Hq : 0 <= Z.shiftr id 6 < 12) by (rewrite Z.shiftr_div_pow2 by lia; change (2 ^ 6) with 64; zlia).
  destruct (lookup_lt_is_Some_2 (dirty_regs p) (Z.to_nat (Z.shiftr id 6))) as [q Eq]; [lia|].
  unfold WriteInternalReg, NUM_REGS. rewrite (proj2 (Z.leb_gt _ _)) by lia.
  rewrite (get_Some _ _ _ (proj1 Hid) Eo). cbn [mbind G_bind lift].
  rewrite (get_Some _ _ _ (proj1 Hm) Em). cbn [mbind G_bind lift].
  rewrite dispatch_plain by done. cbn [mbind G_bind mret G_ret].
  unfold mark_dirty. change (dirty_regs (set_reg id ?v p)) with (dirty_regs p).
  rewrite (get_Some _ _ _ (proj1 Hq) Eq). cbn [mbind R_bind]. rewrite put_slot by lia.
  cbn [mbind R_bind lift G_bind].
  eexists. split; [done|]. unfold reg. cbn [reg_array set_dirty_regs set_reg set_regs dirty_regs core].
  split_and!; [| | |done].
  - intros j Hj. rewrite (nth_lookup_Some _ _ 0 (masked_value old value m)) by (apply list_lookup_insert_eq; lia).
    rewrite (nth_lookup_Some _ _ 0 _ Eo). by apply masked_value_byte.
  - intros i Hi Hne. rewrite !nth_lookup. by rewrite list_lookup_insert_ne by lia.
  - eexists. split; [apply list_lookup_insert_eq; lia|].
    rewrite Z.lor_spec, Z.shiftl_spec by (apply Z.land_nonneg; lia).
    rewrite Z.sub_diag. apply orb_true_r.
Qed.

(** The type of a lighting table has five bits but there are 24 tables: with a type
    of 24 or more, a write of table data is outside of the tables. *)
Theorem write_lut_overflow id value mask p :
  among id 0x1c8 8 = true -> 0 <= mask < 16 -> length (reg_array p) = 768%nat ->
  length (luts p) = 24%nat -> 24 <= field 8 5 (reg p 0x1c5) ->
  WriteInternalReg id value mask p = Some (inl OutOfBounds).
Proof.
  intros Hid Hm Hr Hl Ht. unfold among in Hid. zbool.
  destruct (lookup_lt_is_Some_2 (reg_array p) (Z.to_nat id)) as [old Eo]; [lia|].
  destruct (lookup_lt_is_Some_2 ExpandBitsToBytes (Z.to_nat mask)) as [m Em]; [cbn [length ExpandBitsToBytes]; lia|].
  unfold WriteInternalReg, NUM_REGS. rewrite (proj2 (Z.leb_gt _ _)) by lia.
  assert (Hid0 : 0 <= id) by lia.
  rewrite (get_Some _ _ _ Hid0 Eo). cbn [mbind G_bind lift].
  rewrite (get_Some _ _ _ (proj1 Hm) Em). cbn [mbind G_bind lift].
  set (p1 := set_reg id _ p).
  assert (Hp1 : reg p1 0x1c5 = reg p 0x1c5).
  { unfold p1, reg. cbn [reg_array set_reg set_regs]. rewrite !nth_lookup.
    by rewrite list_lookup_insert_ne by lia. }
  unfold dispatch, among. cbv zeta.
  repeat match goal with
  | |- context [if ?b then _ else _] => first [replace b with false by (symmetry; lia) | replace b with true by (symmetry; lia)]; cbn match
  end.
  unfold write_lut. rewrite Hp1. change (luts p1) with (luts p).
  pose proof (field_bound 0 8 (reg p 0x1c5) ltac:(lia)) as Hb. change (2 ^ 8) with 256 in Hb.
  unfold assert. rewrite (proj2 (Z.ltb_lt _ 256)) by lia.
  cbn [mbind R_bind].
  assert (get (luts p) (field 8 5 (reg p 0x1c5)) = inl OutOfBounds) as ->; [|done].
  unfold get. zdecide. by rewrite lookup_ge_None_2 by lia.
Qed.

End Commands.
