(* ===== verification/CommandModel.v ===== *)
(** * CommandModel: command lists processed

    A state of the GPU and short command lists: the theorems on register writes are
    applied to them. *)
From Stdlib Require Import SpecFloat.
From stdpp Require Import list.
From S2P Require Import Prelude BitField PicaFloat ShaderBytecode Shader ShaderUpload ShaderModel Geometry Draw DrawModel Command.

Local Open Scope Z_scope.

Definition pica0 : Pica :=
  mkPica (replicate 768 0) (core0 0) (replicate 24 (replicate 256 0)) 0 (replicate 128 0) false
    [replicate 128 0; replicate 128 0; replicate 128 0; replicate 256 0; replicate 256 0] 0
    (replicate 12 0) 0 (mkCommandList [] 0 0).

(** Two command lists in memory. *)
Definition list_memory (first second : list Z) (addr : Z) : list Z :=
  if addr =? 256 then first else if addr =? 1024 then second else [].

Definition process (first second : list Z) : Z -> Pica -> G Pica := fun size =>
  ProcessCmdList (list_memory first second) (fun _ => 0) (fun v => v) (fun v => v) attribute_buffer0 formats0
    false (fun _ => false) 10 16 256 size false.

(** A masked write of a register, three entries of the fog table, the address and the
    size of the other list, and a jump to it; the words behind are not read.  The
    other list: an interrupt that stops it, and a write that is not done. *)
Definition commands0 : list command :=
  [mkCommand 0x41 5 0x11223344 [] false; mkCommand 0xe8 15 7 [8; 9] false;
   mkCommand 0x238 15 (56 / 8) [] false; mkCommand 0x23a 15 (1024 / 8) [] false;
   mkCommand 0x23c 15 1 [] false].
Definition commands1 : list command :=
  [mkCommand 0x60 15 1 [2; 3] true; mkCommand 0x34 15 1 [] false; mkCommand 0x10 15 0x12 [] false;
   mkCommand 0x41 15 0xFFFFFFFF [] false; mkCommand 0x41 15 0 [0; 0] false].

Definition observe (m : G Pica) : option (list Z) :=
  match m with
  | Some (inr p) => Some ([reg p 0x41; reg p 0x60; reg p 0x61; reg p 0x62; reg p 0xe6; interrupts p] ++
                          take 4 (fog_lut p))
  | _ => None
  end.

Definition first_list : list Z := words_bytes (encode_list commands0) ++ words_bytes [1; 2; 3; 4].
Definition second_list : list Z := words_bytes (encode_list commands1) ++ [].

(** What the first list leaves, up to its jump. *)
Definition jumped : G (Pica * bool) :=
  do_writes (list_memory first_list second_list) (fun _ => 0) (fun v => v) (fun v => v) attribute_buffer0
    formats0 false (fun _ => false) 10 (commands0 ≫= writes) pica0.

Definition list_after (m : G (Pica * bool)) : option CommandList :=
  match m with Some (inr (p, _)) => Some (cmd_list p) | _ => None end.

Lemma list_after_run m l p' stop : list_after m = Some l -> m = Some (inr (p', stop)) -> cmd_list p' = l.
Proof. intros H ->. by injection H. Qed.

Lemma jumped_to : list_after jumped = Some (mkCommandList second_list 0 14).
Proof. vm_compute. reflexivity. Qed.

Lemma chained0 :
  chained (list_memory first_list second_list) (fun _ => 0) (fun v => v) (fun v => v) attribute_buffer0
    formats0 false (fun _ => false) 10 (CommandList_Reset (list_memory first_list second_list 256) (4 * 20))
    [commands0; commands1] pica0.
Proof.
  split; [done|]. split; [by exists (words_bytes [1; 2; 3; 4])|].
  split; [vm_compute; congruence|]. split; [repeat split|].
  intros p' E. rewrite (list_after_run jumped _ p' false jumped_to E). split; [done|]. split; [by exists []|].
  split; [done|]. repeat constructor.
Qed.

Lemma ProcessCmdList_encoded_witness :
  observe (loop_result (process first_list second_list (4 * 20) pica0)) =
  Some [0x00220044; 1; 2; 3; 3; 1; 7; 8; 9; 0].
Proof.
  unfold process.
  rewrite (ProcessCmdList_encoded (list_memory first_list second_list)
             (fun _ => 0) (fun v => v) (fun v => v) attribute_buffer0 formats0 false (fun _ => false) 10
             16 [commands0; commands1] 256 (4 * 20) pica0).
  - vm_compute. reflexivity.
  - repeat constructor; vm_compute; congruence.
  - exact chained0.
  - cbn. lia.
Defined.

Lemma WriteInternalReg_plain_witness :
  exists p', WriteInternalReg memory0 (fun _ => 0) (fun v => v) (fun v => v) attribute_buffer0 formats0
    false (fun _ => false) 10 0x41 0x11223344 5 pica0 = Some (inr (p', false)) /\
    byte_of (reg p' 0x41) 2 = 0x22 /\ byte_of (reg p' 0x41) 3 = 0.
Proof.
  destruct (WriteInternalReg_plain memory0 (fun _ => 0) (fun v => v) (fun v => v) attribute_buffer0
              formats0 false (fun _ => false) 10 0x41 0x11223344 5 pica0)
    as (p' & H & Hb & _); try reflexivity; try (unfold NUM_REGS; lia).
  exists p'. split; [exact H|]. rewrite !Hb by lia. split; reflexivity.
Defined.

Lemma write_lut_overflow_witness :
  WriteInternalReg memory0 (fun _ => 0) (fun v => v) (fun v => v) attribute_buffer0 formats0
    false (fun _ => false) 10 0x1c8 1 15 (set_reg 0x1c5 (24 * 256) pica0) = Some (inl OutOfBounds).
Proof.
  apply write_lut_overflow; try reflexivity; lia || (vm_compute; congruence).
Defined.

(** A last command with one parameter: the length counts the padding, the loop does not
    skip it and reads a command behind the list. *)
Example padding_read_past_end :
  process (words_bytes (encode_list [mkCommand 0x60 15 1 [2] true]) ++ le32 0) [] (4 * 4) pica0 =
  Some (inl OutOfBounds).
Proof. vm_compute. reflexivity. Qed.

(** A list at address 256 that jumps to itself: its registers, and the state after a
    first round, which the next round leaves as it is. *)
Definition self_list : list Z := words_bytes (encode_list [mkCommand 0x23c 15 1 [] false]).

Local Abbreviation self_round :=
  (one_command (list_memory self_list []) (fun _ => 0) (fun v => v) (fun v => v) attribute_buffer0 formats0
     false (fun _ => false) 10).

Definition self_jumping : Pica :=
  match self_round (set_cmd_list (mkCommandList self_list 0 2) (set_reg 0x23a 32 (set_reg 0x238 1 pica0))) with
  | Some (inr (p, _)) => p
  | _ => pica0
  end.

Lemma self_round_same : self_round self_jumping = Some (inr (self_jumping, false)).
Proof. vm_compute. reflexivity. Qed.

(** No number of rounds is enough. *)
Lemma self_jump_never_ends n :
  ProcessCmdList (list_memory self_list []) (fun _ => 0) (fun v => v) (fun v => v) attribute_buffer0
    formats0 false (fun _ => false) 10 n 256 8 false self_jumping = None.
Proof.
  unfold ProcessCmdList.
  assert (E : set_cmd_list (CommandList_Reset (list_memory self_list [] 256) 8) self_jumping = self_jumping)
    by (vm_compute; reflexivity).
  rewrite E. clear E. apply command_loop_same; [exact self_round_same|].
  vm_compute. reflexivity.
Qed.
