(* ===== verification/ArmState.v ===== *)
(** * ArmState: the state of the ARM interpreter (core/arm/skyeye_common/armstate.h, armstate.cpp)

    The processor state with its register banks, the memory accesses, the registers of
    the system coprocessor and the exclusive monitor.  Memory itself is not in the
    repository: it is an instance of [MemoryInterface]. *)
From S2P Require Import Prelude ArmSupp.
From stdpp Require Import list.

Local Open Scope Z_scope.

(** ** Memory *)

(** The memory system as the processor uses it: accesses of four widths, little endian. *)
Class MemoryInterface (mem : Type) := {
  Read8 : mem -> Z -> Z;
  Read16 : mem -> Z -> Z;
  Read32 : mem -> Z -> Z;
  Read64 : mem -> Z -> Z;
  Write8 : Z -> Z -> mem -> mem;
  Write16 : Z -> Z -> mem -> mem;
  Write32 : Z -> Z -> mem -> mem;
  Write64 : Z -> Z -> mem -> mem }.

(** What the processor relies on: reads give values of their width; an aligned word reads
    back as written and does not disturb the others. *)
Class MemoryLaws (mem : Type) `{MemoryInterface mem} := {
  Read8_range : forall m a, is_u8 (Read8 m a);
  Read16_range : forall m a, is_u16 (Read16 m a);
  Read32_range : forall m a, is_u32 (Read32 m a);
  Read64_range : forall m a, is_u64 (Read64 m a);
  Read32_Write32 : forall m a v, is_u32 v -> a mod 4 = 0 -> Read32 (Write32 a v m) a = v;
  Read32_Write32_ne : forall m a b v,
    a mod 4 = 0 -> b mod 4 = 0 -> a <> b -> Read32 (Write32 a v m) b = Read32 m b }.

(** ** Modes, flags *)

Definition USER32MODE := 16.
Definition FIQ32MODE := 17.
Definition IRQ32MODE := 18.
Definition SVC32MODE := 19.
Definition ABORT32MODE := 23.
Definition UNDEF32MODE := 27.
Definition SYSTEM32MODE := 31.

Definition USERBANK := 0.
Definition FIQBANK := 1.
Definition IRQBANK := 2.
Definition SVCBANK := 3.
Definition ABORTBANK := 4.
Definition UNDEFBANK := 5.
Definition SYSTEMBANK := 7.

(** ** The state *)

(** The banked registers: R13 and R14 of each mode, R8 to R14 of FIQ, the saved status. *)
Record Banks := mkBanks {
  Reg_usr : list Z;
  Reg_svc : list Z;
  Reg_abort : list Z;
  Reg_undef : list Z;
  Reg_irq : list Z;
  Reg_firq : list Z;
  Spsr : list Z }.

Definition with_Reg_usr x s := mkBanks x (Reg_svc s) (Reg_abort s) (Reg_undef s) (Reg_irq s) (Reg_firq s) (Spsr s).
Definition with_Reg_svc x s := mkBanks (Reg_usr s) x (Reg_abort s) (Reg_undef s) (Reg_irq s) (Reg_firq s) (Spsr s).
Definition with_Reg_abort x s := mkBanks (Reg_usr s) (Reg_svc s) x (Reg_undef s) (Reg_irq s) (Reg_firq s) (Spsr s).
Definition with_Reg_undef x s := mkBanks (Reg_usr s) (Reg_svc s) (Reg_abort s) x (Reg_irq s) (Reg_firq s) (Spsr s).
Definition with_Reg_irq x s := mkBanks (Reg_usr s) (Reg_svc s) (Reg_abort s) (Reg_undef s) x (Reg_firq s) (Spsr s).
Definition with_Reg_firq x s := mkBanks (Reg_usr s) (Reg_svc s) (Reg_abort s) (Reg_undef s) (Reg_irq s) x (Spsr s).
Definition with_Spsr x s := mkBanks (Reg_usr s) (Reg_svc s) (Reg_abort s) (Reg_undef s) (Reg_irq s) (Reg_firq s) x.

(** The status words and the flags kept apart from them. *)
Record Status := mkStatus {
  Cpsr : Z;
  Spsr_copy : Z;
  Mode : Z;
  Bank : Z;
  NFlag : Z;
  ZFlag : Z;
  CFlag : Z;
  VFlag : Z;
  TFlag : Z;
  shifter_carry_out : Z }.

Definition with_Cpsr x s := mkStatus x (Spsr_copy s) (Mode s) (Bank s) (NFlag s) (ZFlag s) (CFlag s) (VFlag s) (TFlag s) (shifter_carry_out s).
Definition with_Spsr_copy x s := mkStatus (Cpsr s) x (Mode s) (Bank s) (NFlag s) (ZFlag s) (CFlag s) (VFlag s) (TFlag s) (shifter_carry_out s).
Definition with_Mode x s := mkStatus (Cpsr s) (Spsr_copy s) x (Bank s) (NFlag s) (ZFlag s) (CFlag s) (VFlag s) (TFlag s) (shifter_carry_out s).
Definition with_Bank x s := mkStatus (Cpsr s) (Spsr_copy s) (Mode s) x (NFlag s) (ZFlag s) (CFlag s) (VFlag s) (TFlag s) (shifter_carry_out s).
Definition with_NFlag x s := mkStatus (Cpsr s) (Spsr_copy s) (Mode s) (Bank s) x (ZFlag s) (CFlag s) (VFlag s) (TFlag s) (shifter_carry_out s).
Definition with_ZFlag x s := mkStatus (Cpsr s) (Spsr_copy s) (Mode s) (Bank s) (NFlag s) x (CFlag s) (VFlag s) (TFlag s) (shifter_carry_out s).
Definition with_CFlag x s := mkStatus (Cpsr s) (Spsr_copy s) (Mode s) (Bank s) (NFlag s) (ZFlag s) x (VFlag s) (TFlag s) (shifter_carry_out s).
Definition with_VFlag x s := mkStatus (Cpsr s) (Spsr_copy s) (Mode s) (Bank s) (NFlag s) (ZFlag s) (CFlag s) x (TFlag s) (shifter_carry_out s).
Definition with_TFlag x s := mkStatus (Cpsr s) (Spsr_copy s) (Mode s) (Bank s) (NFlag s) (ZFlag s) (CFlag s) (VFlag s) x (shifter_carry_out s).
Definition with_shifter_carry_out x s := mkStatus (Cpsr s) (Spsr_copy s) (Mode s) (Bank s) (NFlag s) (ZFlag s) (CFlag s) (VFlag s) (TFlag s) x.

(** The local exclusive monitor. *)
Record Monitor := mkMonitor { exclusive_tag : Z; exclusive_state : bool }.

Record ARMul_State {mem : Type} := mkState {
  memory : mem;
  Reg : list Z;
  banks : Banks;
  status : Status;
  CP15 : list Z;
  VFP : list Z;
  ExtReg : list Z;
  monitor : Monitor;
  NumInstrsToExecute : Z;
  NirqSig : Z }.
Arguments ARMul_State : clear implicits.
Arguments mkState {mem} _ _ _ _ _ _ _ _ _ _.

Definition with_memory {mem} (x : mem) (s : ARMul_State mem) := mkState x (Reg s) (banks s) (status s) (CP15 s) (VFP s) (ExtReg s) (monitor s) (NumInstrsToExecute s) (NirqSig s).
Definition with_Reg {mem} x (s : ARMul_State mem) := mkState (memory s) x (banks s) (status s) (CP15 s) (VFP s) (ExtReg s) (monitor s) (NumInstrsToExecute s) (NirqSig s).
Definition with_banks {mem} x (s : ARMul_State mem) := mkState (memory s) (Reg s) x (status s) (CP15 s) (VFP s) (ExtReg s) (monitor s) (NumInstrsToExecute s) (NirqSig s).
Definition with_status {mem} x (s : ARMul_State mem) := mkState (memory s) (Reg s) (banks s) x (CP15 s) (VFP s) (ExtReg s) (monitor s) (NumInstrsToExecute s) (NirqSig s).
Definition with_CP15 {mem} x (s : ARMul_State mem) := mkState (memory s) (Reg s) (banks s) (status s) x (VFP s) (ExtReg s) (monitor s) (NumInstrsToExecute s) (NirqSig s).
Definition with_VFP {mem} x (s : ARMul_State mem) := mkState (memory s) (Reg s) (banks s) (status s) (CP15 s) x (ExtReg s) (monitor s) (NumInstrsToExecute s) (NirqSig s).
Definition with_ExtReg {mem} x (s : ARMul_State mem) := mkState (memory s) (Reg s) (banks s) (status s) (CP15 s) (VFP s) x (monitor s) (NumInstrsToExecute s) (NirqSig s).
Definition with_monitor {mem} x (s : ARMul_State mem) := mkState (memory s) (Reg s) (banks s) (status s) (CP15 s) (VFP s) (ExtReg s) x (NumInstrsToExecute s) (NirqSig s).
Definition with_NumInstrsToExecute {mem} x (s : ARMul_State mem) := mkState (memory s) (Reg s) (banks s) (status s) (CP15 s) (VFP s) (ExtReg s) (monitor s) x (NirqSig s).
Definition with_NirqSig {mem} x (s : ARMul_State mem) := mkState (memory s) (Reg s) (banks s) (status s) (CP15 s) (VFP s) (ExtReg s) (monitor s) (NumInstrsToExecute s) x.

(** ** The system coprocessor *)

(** [enum CP15Register] *)
Inductive CP15Register :=
  | CP15_MAIN_ID | CP15_CACHE_TYPE | CP15_TCM_STATUS
  | CP15_TLB_TYPE | CP15_CPU_ID | CP15_PROCESSOR_FEATURE_0
  | CP15_PROCESSOR_FEATURE_1 | CP15_DEBUG_FEATURE_0 | CP15_AUXILIARY_FEATURE_0
  | CP15_MEMORY_MODEL_FEATURE_0 | CP15_MEMORY_MODEL_FEATURE_1 | CP15_MEMORY_MODEL_FEATURE_2
  | CP15_MEMORY_MODEL_FEATURE_3 | CP15_ISA_FEATURE_0 | CP15_ISA_FEATURE_1
  | CP15_ISA_FEATURE_2 | CP15_ISA_FEATURE_3 | CP15_ISA_FEATURE_4
  | CP15_CONTROL | CP15_AUXILIARY_CONTROL | CP15_COPROCESSOR_ACCESS_CONTROL
  | CP15_TRANSLATION_BASE_TABLE_0 | CP15_TRANSLATION_BASE_TABLE_1 | CP15_TRANSLATION_BASE_CONTROL
  | CP15_DOMAIN_ACCESS_CONTROL | CP15_RESERVED | CP15_FAULT_STATUS
  | CP15_INSTR_FAULT_STATUS | CP15_COMBINED_DATA_FSR | CP15_INST_FSR
  | CP15_FAULT_ADDRESS | CP15_COMBINED_DATA_FAR | CP15_WFAR
  | CP15_IFAR | CP15_WAIT_FOR_INTERRUPT | CP15_PHYS_ADDRESS
  | CP15_INVALIDATE_INSTR_CACHE | CP15_INVALIDATE_INSTR_CACHE_USING_MVA | CP15_INVALIDATE_INSTR_CACHE_USING_INDEX
  | CP15_FLUSH_PREFETCH_BUFFER | CP15_FLUSH_BRANCH_TARGET_CACHE | CP15_FLUSH_BRANCH_TARGET_CACHE_ENTRY
  | CP15_INVALIDATE_DATA_CACHE | CP15_INVALIDATE_DATA_CACHE_LINE_USING_MVA | CP15_INVALIDATE_DATA_CACHE_LINE_USING_INDEX
  | CP15_INVALIDATE_DATA_AND_INSTR_CACHE | CP15_CLEAN_DATA_CACHE | CP15_CLEAN_DATA_CACHE_LINE_USING_MVA
  | CP15_CLEAN_DATA_CACHE_LINE_USING_INDEX | CP15_DATA_SYNC_BARRIER | CP15_DATA_MEMORY_BARRIER
  | CP15_CLEAN_AND_INVALIDATE_DATA_CACHE | CP15_CLEAN_AND_INVALIDATE_DATA_CACHE_LINE_USING_MVA | CP15_CLEAN_AND_INVALIDATE_DATA_CACHE_LINE_USING_INDEX
  | CP15_INVALIDATE_ITLB | CP15_INVALIDATE_ITLB_SINGLE_ENTRY | CP15_INVALIDATE_ITLB_ENTRY_ON_ASID_MATCH
  | CP15_INVALIDATE_ITLB_ENTRY_ON_MVA | CP15_INVALIDATE_DTLB | CP15_INVALIDATE_DTLB_SINGLE_ENTRY
  | CP15_INVALIDATE_DTLB_ENTRY_ON_ASID_MATCH | CP15_INVALIDATE_DTLB_ENTRY_ON_MVA | CP15_INVALIDATE_UTLB
  | CP15_INVALIDATE_UTLB_SINGLE_ENTRY | CP15_INVALIDATE_UTLB_ENTRY_ON_ASID_MATCH | CP15_INVALIDATE_UTLB_ENTRY_ON_MVA
  | CP15_DATA_CACHE_LOCKDOWN | CP15_TLB_LOCKDOWN | CP15_PRIMARY_REGION_REMAP
  | CP15_NORMAL_REGION_REMAP | CP15_PID | CP15_CONTEXT_ID
  | CP15_THREAD_UPRW | CP15_THREAD_URO | CP15_THREAD_PRW
  | CP15_PERFORMANCE_MONITOR_CONTROL | CP15_CYCLE_COUNTER | CP15_COUNT_0
  | CP15_COUNT_1 | CP15_READ_MAIN_TLB_LOCKDOWN_ENTRY | CP15_WRITE_MAIN_TLB_LOCKDOWN_ENTRY
  | CP15_MAIN_TLB_LOCKDOWN_VIRT_ADDRESS | CP15_MAIN_TLB_LOCKDOWN_PHYS_ADDRESS | CP15_MAIN_TLB_LOCKDOWN_ATTRIBUTE
  | CP15_TLB_DEBUG_CONTROL | CP15_TLB_FAULT_ADDR | CP15_TLB_FAULT_STATUS.

Definition cp15_index (r : CP15Register) : nat :=
  match r with
  | CP15_MAIN_ID => 0 | CP15_CACHE_TYPE => 1
  | CP15_TCM_STATUS => 2 | CP15_TLB_TYPE => 3
  | CP15_CPU_ID => 4 | CP15_PROCESSOR_FEATURE_0 => 5
  | CP15_PROCESSOR_FEATURE_1 => 6 | CP15_DEBUG_FEATURE_0 => 7
  | CP15_AUXILIARY_FEATURE_0 => 8 | CP15_MEMORY_MODEL_FEATURE_0 => 9
  | CP15_MEMORY_MODEL_FEATURE_1 => 10 | CP15_MEMORY_MODEL_FEATURE_2 => 11
  | CP15_MEMORY_MODEL_FEATURE_3 => 12 | CP15_ISA_FEATURE_0 => 13
  | CP15_ISA_FEATURE_1 => 14 | CP15_ISA_FEATURE_2 => 15
  | CP15_ISA_FEATURE_3 => 16 | CP15_ISA_FEATURE_4 => 17
  | CP15_CONTROL => 18 | CP15_AUXILIARY_CONTROL => 19
  | CP15_COPROCESSOR_ACCESS_CONTROL => 20 | CP15_TRANSLATION_BASE_TABLE_0 => 21
  | CP15_TRANSLATION_BASE_TABLE_1 => 22 | CP15_TRANSLATION_BASE_CONTROL => 23
  | CP15_DOMAIN_ACCESS_CONTROL => 24 | CP15_RESERVED => 25
  | CP15_FAULT_STATUS => 26 | CP15_INSTR_FAULT_STATUS => 27
  | CP15_COMBINED_DATA_FSR => 26 | CP15_INST_FSR => 27
  | CP15_FAULT_ADDRESS => 28 | CP15_COMBINED_DATA_FAR => 28
  | CP15_WFAR => 29 | CP15_IFAR => 30
  | CP15_WAIT_FOR_INTERRUPT => 31 | CP15_PHYS_ADDRESS => 32
  | CP15_INVALIDATE_INSTR_CACHE => 33 | CP15_INVALIDATE_INSTR_CACHE_USING_MVA => 34
  | CP15_INVALIDATE_INSTR_CACHE_USING_INDEX => 35 | CP15_FLUSH_PREFETCH_BUFFER => 36
  | CP15_FLUSH_BRANCH_TARGET_CACHE => 37 | CP15_FLUSH_BRANCH_TARGET_CACHE_ENTRY => 38
  | CP15_INVALIDATE_DATA_CACHE => 39 | CP15_INVALIDATE_DATA_CACHE_LINE_USING_MVA => 40
  | CP15_INVALIDATE_DATA_CACHE_LINE_USING_INDEX => 41 | CP15_INVALIDATE_DATA_AND_INSTR_CACHE => 42
  | CP15_CLEAN_DATA_CACHE => 43 | CP15_CLEAN_DATA_CACHE_LINE_USING_MVA => 44
  | CP15_CLEAN_DATA_CACHE_LINE_USING_INDEX => 45 | CP15_DATA_SYNC_BARRIER => 46
  | CP15_DATA_MEMORY_BARRIER => 47 | CP15_CLEAN_AND_INVALIDATE_DATA_CACHE => 48
  | CP15_CLEAN_AND_INVALIDATE_DATA_CACHE_LINE_USING_MVA => 49 | CP15_CLEAN_AND_INVALIDATE_DATA_CACHE_LINE_USING_INDEX => 50
  | CP15_INVALIDATE_ITLB => 51 | CP15_INVALIDATE_ITLB_SINGLE_ENTRY => 52
  | CP15_INVALIDATE_ITLB_ENTRY_ON_ASID_MATCH => 53 | CP15_INVALIDATE_ITLB_ENTRY_ON_MVA => 54
  | CP15_INVALIDATE_DTLB => 55 | CP15_INVALIDATE_DTLB_SINGLE_ENTRY => 56
  | CP15_INVALIDATE_DTLB_ENTRY_ON_ASID_MATCH => 57 | CP15_INVALIDATE_DTLB_ENTRY_ON_MVA => 58
  | CP15_INVALIDATE_UTLB => 59 | CP15_INVALIDATE_UTLB_SINGLE_ENTRY => 60
  | CP15_INVALIDATE_UTLB_ENTRY_ON_ASID_MATCH => 61 | CP15_INVALIDATE_UTLB_ENTRY_ON_MVA => 62
  | CP15_DATA_CACHE_LOCKDOWN => 63 | CP15_TLB_LOCKDOWN => 64
  | CP15_PRIMARY_REGION_REMAP => 65 | CP15_NORMAL_REGION_REMAP => 66
  | CP15_PID => 67 | CP15_CONTEXT_ID => 68
  | CP15_THREAD_UPRW => 69 | CP15_THREAD_URO => 70
  | CP15_THREAD_PRW => 71 | CP15_PERFORMANCE_MONITOR_CONTROL => 72
  | CP15_CYCLE_COUNTER => 73 | CP15_COUNT_0 => 74
  | CP15_COUNT_1 => 75 | CP15_READ_MAIN_TLB_LOCKDOWN_ENTRY => 76
  | CP15_WRITE_MAIN_TLB_LOCKDOWN_ENTRY => 77 | CP15_MAIN_TLB_LOCKDOWN_VIRT_ADDRESS => 78
  | CP15_MAIN_TLB_LOCKDOWN_PHYS_ADDRESS => 79 | CP15_MAIN_TLB_LOCKDOWN_ATTRIBUTE => 80
  | CP15_TLB_DEBUG_CONTROL => 81 | CP15_TLB_FAULT_ADDR => 82
  | CP15_TLB_FAULT_STATUS => 83
  end.

Definition CP15_REGISTER_COUNT : nat := 84.

Definition read_cp15 (l : list Z) (r : CP15Register) : Z := nth (cp15_index r) l 0.
Definition write_cp15 (r : CP15Register) (v : Z) (l : list Z) : list Z := <[cp15_index r := v]> l.

(** The reset values, in the order of the assignments. *)
Definition mpcore_reset : list (CP15Register * Z) :=
  [(CP15_MAIN_ID, 0x410FB024); (CP15_TLB_TYPE, 0x00000800);
   (CP15_PROCESSOR_FEATURE_0, 0x00000111); (CP15_PROCESSOR_FEATURE_1, 0x00000001);
   (CP15_DEBUG_FEATURE_0, 0x00000002); (CP15_MEMORY_MODEL_FEATURE_0, 0x01100103);
   (CP15_MEMORY_MODEL_FEATURE_1, 0x10020302); (CP15_MEMORY_MODEL_FEATURE_2, 0x01222000);
   (CP15_MEMORY_MODEL_FEATURE_3, 0x00000000); (CP15_ISA_FEATURE_0, 0x00100011);
   (CP15_ISA_FEATURE_1, 0x12002111); (CP15_ISA_FEATURE_2, 0x11221011);
   (CP15_ISA_FEATURE_3, 0x01102131); (CP15_ISA_FEATURE_4, 0x00000141);
   (CP15_CONTROL, 0x00054078); (CP15_AUXILIARY_CONTROL, 0x0000000F);
   (CP15_COPROCESSOR_ACCESS_CONTROL, 0x00000000); (CP15_TRANSLATION_BASE_TABLE_0, 0x00000000);
   (CP15_TRANSLATION_BASE_TABLE_1, 0x00000000); (CP15_TRANSLATION_BASE_CONTROL, 0x00000000);
   (CP15_DOMAIN_ACCESS_CONTROL, 0x00000000); (CP15_PHYS_ADDRESS, 0x00000000);
   (CP15_DATA_CACHE_LOCKDOWN, 0xFFFFFFF0); (CP15_TLB_LOCKDOWN, 0x00000000);
   (CP15_PRIMARY_REGION_REMAP, 0x00098AA4); (CP15_NORMAL_REGION_REMAP, 0x44E048E0);
   (CP15_PID, 0x00000000); (CP15_CONTEXT_ID, 0x00000000);
   (CP15_THREAD_UPRW, 0x00000000); (CP15_THREAD_URO, 0x00000000);
   (CP15_THREAD_PRW, 0x00000000); (CP15_PERFORMANCE_MONITOR_CONTROL, 0x00000000);
   (CP15_MAIN_TLB_LOCKDOWN_VIRT_ADDRESS, 0x00000000); (CP15_MAIN_TLB_LOCKDOWN_PHYS_ADDRESS, 0x00000000);
   (CP15_MAIN_TLB_LOCKDOWN_ATTRIBUTE, 0x00000000); (CP15_TLB_DEBUG_CONTROL, 0x00000000)].

Definition ResetMPCoreCP15Registers (l : list Z) : list Z :=
  foldl (fun l '(r, v) => write_cp15 r v l) l mpcore_reset.

(** The register that is read in any mode, then those of the privileged modes, by
    [crn], [opcode_1], [crm], [opcode_2]. *)
Definition user_readable (crn op1 crm op2 : Z) : option CP15Register :=
  if (crn =? 13) && (op1 =? 0) && (crm =? 0) then
    if op2 =? 2 then Some CP15_THREAD_UPRW else if op2 =? 3 then Some CP15_THREAD_URO else None
  else None.

(** The table entry of [key]. *)
Fixpoint select (key : Z) (l : list (Z * CP15Register)) : option CP15Register :=
  match l with
  | [] => None
  | (k, r) :: l => if key =? k then Some r else select key l
  end.

Definition privileged_readable (crn op1 crm op2 : Z) : option CP15Register :=
  if (crn =? 0) && (op1 =? 0) then
    if crm =? 0 then
      select op2 [(0, CP15_MAIN_ID); (1, CP15_CACHE_TYPE); (3, CP15_TLB_TYPE); (5, CP15_CPU_ID)]
    else if crm =? 1 then
      select op2 [(0, CP15_PROCESSOR_FEATURE_0); (1, CP15_PROCESSOR_FEATURE_1);
        (2, CP15_DEBUG_FEATURE_0); (4, CP15_MEMORY_MODEL_FEATURE_0); (5, CP15_MEMORY_MODEL_FEATURE_1);
        (6, CP15_MEMORY_MODEL_FEATURE_2); (7, CP15_MEMORY_MODEL_FEATURE_3)]
    else if crm =? 2 then
      select op2 [(0, CP15_ISA_FEATURE_0); (1, CP15_ISA_FEATURE_1); (2, CP15_ISA_FEATURE_2);
        (3, CP15_ISA_FEATURE_3); (4, CP15_ISA_FEATURE_4)]
    else None
  else if (crn =? 1) && (op1 =? 0) && (crm =? 0) then
    select op2 [(0, CP15_CONTROL); (1, CP15_AUXILIARY_CONTROL); (2, CP15_COPROCESSOR_ACCESS_CONTROL)]
  else if (crn =? 2) && (op1 =? 0) && (crm =? 0) then
    select op2 [(0, CP15_TRANSLATION_BASE_TABLE_0); (1, CP15_TRANSLATION_BASE_TABLE_1);
      (2, CP15_TRANSLATION_BASE_CONTROL)]
  else if (crn =? 3) && (op1 =? 0) && (crm =? 0) && (op2 =? 0) then Some CP15_DOMAIN_ACCESS_CONTROL
  else if (crn =? 5) && (op1 =? 0) && (crm =? 0) then
    select op2 [(0, CP15_FAULT_STATUS); (1, CP15_INSTR_FAULT_STATUS)]
  else if (crn =? 6) && (op1 =? 0) && (crm =? 0) then
    select op2 [(0, CP15_FAULT_ADDRESS); (1, CP15_WFAR)]
  else if (crn =? 7) && (op1 =? 0) && (crm =? 4) && (op2 =? 0) then Some CP15_PHYS_ADDRESS
  else if (crn =? 9) && (op1 =? 0) && (crm =? 0) && (op2 =? 0) then Some CP15_DATA_CACHE_LOCKDOWN
  else if (crn =? 10) && (op1 =? 0) then
    if (crm =? 0) && (op2 =? 0) then Some CP15_TLB_LOCKDOWN
    else if crm =? 2 then
      select op2 [(0, CP15_PRIMARY_REGION_REMAP); (1, CP15_NORMAL_REGION_REMAP)]
    else None
  else if (crn =? 13) && (crm =? 0) then
    select op2 [(0, CP15_PID); (1, CP15_CONTEXT_ID); (4, CP15_THREAD_PRW)]
  else if crn =? 15 then
    if (op1 =? 0) && (crm =? 12) then
      select op2 [(0, CP15_PERFORMANCE_MONITOR_CONTROL); (1, CP15_CYCLE_COUNTER); (2, CP15_COUNT_0);
        (3, CP15_COUNT_1)]
    else if (op1 =? 5) && (op2 =? 2) then
      select crm [(5, CP15_MAIN_TLB_LOCKDOWN_VIRT_ADDRESS); (6, CP15_MAIN_TLB_LOCKDOWN_PHYS_ADDRESS);
        (7, CP15_MAIN_TLB_LOCKDOWN_ATTRIBUTE)]
    else if (op1 =? 7) && (crm =? 1) && (op2 =? 0) then Some CP15_TLB_DEBUG_CONTROL
    else None
  else None.

(** The registers written in the privileged modes, and in any mode. *)
Definition privileged_writable (crn op1 crm op2 : Z) : option CP15Register :=
  if (crn =? 1) && (op1 =? 0) && (crm =? 0) then
    select op2 [(0, CP15_CONTROL); (1, CP15_AUXILIARY_CONTROL); (2, CP15_COPROCESSOR_ACCESS_CONTROL)]
  else if (crn =? 2) && (op1 =? 0) && (crm =? 0) then
    select op2 [(0, CP15_TRANSLATION_BASE_TABLE_0); (1, CP15_TRANSLATION_BASE_TABLE_1);
      (2, CP15_TRANSLATION_BASE_CONTROL)]
  else if (crn =? 3) && (op1 =? 0) && (crm =? 0) && (op2 =? 0) then Some CP15_DOMAIN_ACCESS_CONTROL
  else if (crn =? 5) && (op1 =? 0) && (crm =? 0) then
    select op2 [(0, CP15_FAULT_STATUS); (1, CP15_INSTR_FAULT_STATUS)]
  else if (crn =? 6) && (op1 =? 0) && (crm =? 0) then
    select op2 [(0, CP15_FAULT_ADDRESS); (1, CP15_WFAR)]
  else if (crn =? 7) && (op1 =? 0) then
    if (crm =? 0) && (op2 =? 4) then Some CP15_WAIT_FOR_INTERRUPT
    else if (crm =? 4) && (op2 =? 0) then None
    else if crm =? 5 then
      select op2 [(0, CP15_INVALIDATE_INSTR_CACHE); (1, CP15_INVALIDATE_INSTR_CACHE_USING_MVA);
        (2, CP15_INVALIDATE_INSTR_CACHE_USING_INDEX); (6, CP15_FLUSH_BRANCH_TARGET_CACHE);
        (7, CP15_FLUSH_BRANCH_TARGET_CACHE_ENTRY)]
    else if crm =? 6 then
      select op2 [(0, CP15_INVALIDATE_DATA_CACHE); (1, CP15_INVALIDATE_DATA_CACHE_LINE_USING_MVA);
        (2, CP15_INVALIDATE_DATA_CACHE_LINE_USING_INDEX)]
    else if (crm =? 7) && (op2 =? 0) then Some CP15_INVALIDATE_DATA_AND_INSTR_CACHE
    else if crm =? 10 then
      select op2 [(0, CP15_CLEAN_DATA_CACHE); (1, CP15_CLEAN_DATA_CACHE_LINE_USING_MVA);
        (2, CP15_CLEAN_DATA_CACHE_LINE_USING_INDEX)]
    else if crm =? 14 then
      select op2 [(0, CP15_CLEAN_AND_INVALIDATE_DATA_CACHE);
        (1, CP15_CLEAN_AND_INVALIDATE_DATA_CACHE_LINE_USING_MVA);
        (2, CP15_CLEAN_AND_INVALIDATE_DATA_CACHE_LINE_USING_INDEX)]
    else None
  else if (crn =? 8) && (op1 =? 0) then
    if crm =? 5 then
      select op2 [(0, CP15_INVALIDATE_ITLB); (1, CP15_INVALIDATE_ITLB_SINGLE_ENTRY);
        (2, CP15_INVALIDATE_ITLB_ENTRY_ON_ASID_MATCH); (3, CP15_INVALIDATE_ITLB_ENTRY_ON_MVA)]
    else if crm =? 6 then
      select op2 [(0, CP15_INVALIDATE_DTLB); (1, CP15_INVALIDATE_DTLB_SINGLE_ENTRY);
        (2, CP15_INVALIDATE_DTLB_ENTRY_ON_ASID_MATCH); (3, CP15_INVALIDATE_DTLB_ENTRY_ON_MVA)]
    else if crm =? 7 then
      select op2 [(0, CP15_INVALIDATE_UTLB); (1, CP15_INVALIDATE_UTLB_SINGLE_ENTRY);
        (2, CP15_INVALIDATE_UTLB_ENTRY_ON_ASID_MATCH); (3, CP15_INVALIDATE_UTLB_ENTRY_ON_MVA)]
    else None
  else if (crn =? 9) && (op1 =? 0) && (crm =? 0) && (op2 =? 0) then Some CP15_DATA_CACHE_LOCKDOWN
  else if (crn =? 10) && (op1 =? 0) then
    if (crm =? 0) && (op2 =? 0) then Some CP15_TLB_LOCKDOWN
    else if crm =? 2 then
      select op2 [(0, CP15_PRIMARY_REGION_REMAP); (1, CP15_NORMAL_REGION_REMAP)]
    else None
  else if (crn =? 13) && (op1 =? 0) && (crm =? 0) then
    select op2 [(0, CP15_PID); (1, CP15_CONTEXT_ID); (3, CP15_THREAD_URO); (4, CP15_THREAD_PRW)]
  else if crn =? 15 then
    if (op1 =? 0) && (crm =? 12) then
      select op2 [(0, CP15_PERFORMANCE_MONITOR_CONTROL); (1, CP15_CYCLE_COUNTER); (2, CP15_COUNT_0);
        (3, CP15_COUNT_1)]
    else if op1 =? 5 then
      if crm =? 4 then
        select op2 [(2, CP15_READ_MAIN_TLB_LOCKDOWN_ENTRY); (4, CP15_WRITE_MAIN_TLB_LOCKDOWN_ENTRY)]
      else if (crm =? 5) && (op2 =? 2) then Some CP15_MAIN_TLB_LOCKDOWN_VIRT_ADDRESS
      else if (crm =? 6) && (op2 =? 2) then Some CP15_MAIN_TLB_LOCKDOWN_PHYS_ADDRESS
      else if (crm =? 7) && (op2 =? 2) then Some CP15_MAIN_TLB_LOCKDOWN_ATTRIBUTE
      else None
    else if (op1 =? 7) && (crm =? 1) && (op2 =? 0) then Some CP15_TLB_DEBUG_CONTROL
    else None
  else None.

Definition user_writable (crn op1 crm op2 : Z) : option CP15Register :=
  if (crn =? 7) && (op1 =? 0) && (crm =? 5) && (op2 =? 4) then Some CP15_FLUSH_PREFETCH_BUFFER
  else if (crn =? 7) && (op1 =? 0) && (crm =? 10) then
    select op2 [(4, CP15_DATA_SYNC_BARRIER); (5, CP15_DATA_MEMORY_BARRIER)]
  else if (crn =? 13) && (op1 =? 0) && (crm =? 0) && (op2 =? 2) then Some CP15_THREAD_UPRW
  else None.

(** ** Computations on the processor *)

(** What the code would do outside of the language: a register index of 16, a call of a
    null function, a use of what was never set, a component read as another structure, the
    translation of a word that the decoder does not know.  Then the assertion of a full
    translation buffer, and whatever ends a run outside of the interpreter. *)
Inductive cpu_fault :=
  RegisterIndex | NullFunction | Uninitialised | WrongComponent | Undecoded | CacheFull | External.

Definition M (mem A : Type) : Type := ARMul_State mem -> cpu_fault + (A * ARMul_State mem).

#[export] Instance M_ret {mem} : MRet (M mem) := fun A a s => inr (a, s).
#[export] Instance M_bind {mem} : MBind (M mem) := fun A B f m s =>
  match m s with inl e => inl e | inr (a, s) => f a s end.

Section Operations.
Context {mem : Type} `{MI : MemoryInterface mem}.
Implicit Types s : ARMul_State mem.

Definition fault {A} (e : cpu_fault) : M mem A := fun _ => inl e.
Definition gets {A} (f : ARMul_State mem -> A) : M mem A := fun s => inr (f s, s).
Definition modify (f : ARMul_State mem -> ARMul_State mem) : M mem () := fun s => inr ((), f s).
Definition when (b : bool) (m : M mem ()) : M mem () := if b then m else mret ().

(** [cpu->Reg[i]] *)
Definition get_reg (i : Z) : M mem Z := fun s =>
  match Reg s !! Z.to_nat i with Some v => inr (v, s) | None => inl RegisterIndex end.
Definition set_reg (i v : Z) : M mem () := fun s =>
  if Z.of_nat (length (Reg s)) <=? i then inl RegisterIndex
  else inr ((), with_Reg (<[Z.to_nat i := v]> (Reg s)) s).

Definition reg s (i : Z) : Z := nth (Z.to_nat i) (Reg s) 0.

Definition on_status (f : Status -> Status) : M mem () := modify (fun s => with_status (f (status s)) s).
Definition get_status (f : Status -> Z) : M mem Z := gets (fun s => f (status s)).
Definition set_Cpsr (v : Z) : M mem () := on_status (with_Cpsr v).
Definition set_TFlag (v : Z) : M mem () := on_status (with_TFlag v).
Definition set_Q : M mem () := c ← get_status Cpsr; set_Cpsr (Z.lor c (Z.shiftl 1 27)).

Definition InBigEndianMode s : bool := negb (Z.land (Cpsr (status s)) (Z.shiftl 1 9) =? 0).
Definition InAPrivilegedMode s : bool := negb (Mode (status s) =? USER32MODE).
Definition CurrentModeHasSPSR s : bool :=
  negb (Mode (status s) =? SYSTEM32MODE) && InAPrivilegedMode s.
Definition GetInstructionSize s : Z := if truth (TFlag (status s)) then 2 else 4.

(** ** Memory accesses *)

Definition swap16 (x : Z) : Z := Z.lor (Z.shiftl (Z.land x 0xff) 8) (Z.land (Z.shiftr x 8) 0xff).
Definition swap32 (x : Z) : Z :=
  Z.lor (Z.lor (Z.shiftl (Z.land x 0xff) 24) (Z.shiftl (Z.land (Z.shiftr x 8) 0xff) 16))
        (Z.lor (Z.shiftl (Z.land (Z.shiftr x 16) 0xff) 8) (Z.land (Z.shiftr x 24) 0xff)).
Definition swap64 (x : Z) : Z :=
  Z.lor (Z.shiftl (swap32 (Z.land x 0xffffffff)) 32) (swap32 (Z.land (Z.shiftr x 32) 0xffffffff)).

Definition ReadMemory8 (address : Z) : M mem Z := gets (fun s => Read8 (memory s) address).
Definition ReadMemory16 (address : Z) : M mem Z := gets (fun s =>
  let data := Read16 (memory s) address in if InBigEndianMode s then swap16 data else data).
Definition ReadMemory32 (address : Z) : M mem Z := gets (fun s =>
  let data := Read32 (memory s) address in if InBigEndianMode s then swap32 data else data).
Definition ReadMemory64 (address : Z) : M mem Z := gets (fun s =>
  let data := Read64 (memory s) address in if InBigEndianMode s then swap64 data else data).

Definition WriteMemory8 (address data : Z) : M mem () := modify (fun s =>
  with_memory (Write8 address data (memory s)) s).
Definition WriteMemory16 (address data : Z) : M mem () := modify (fun s =>
  let data := if InBigEndianMode s then swap16 data else data in
  with_memory (Write16 address data (memory s)) s).
Definition WriteMemory32 (address data : Z) : M mem () := modify (fun s =>
  let data := if InBigEndianMode s then swap32 data else data in
  with_memory (Write32 address data (memory s)) s).
Definition WriteMemory64 (address data : Z) : M mem () := modify (fun s =>
  let data := if InBigEndianMode s then swap64 data else data in
  with_memory (Write64 address data (memory s)) s).

(** ** The exclusive monitor *)

Definition RESERVATION_GRANULE_MASK := 0xFFFFFFF8.

Definition IsExclusiveMemoryAccess (address : Z) s : bool :=
  exclusive_state (monitor s) && (exclusive_tag (monitor s) =? Z.land address RESERVATION_GRANULE_MASK).
Definition SetExclusiveMemoryAddress (address : Z) : M mem () := modify (fun s =>
  with_monitor (mkMonitor (Z.land address RESERVATION_GRANULE_MASK) true) s).
Definition UnsetExclusiveMemoryAddress : M mem () := modify (fun s =>
  with_monitor (mkMonitor 0xFFFFFFFF false) s).

(** ** The flags and the status word *)

Definition save_nzcvt (p : Status) : Status :=
  with_Cpsr (Z.lor (Z.lor (Z.lor (Z.lor (Z.lor (Z.land (Cpsr p) 0x0fffffdf) (u32 (Z.shiftl (NFlag p) 31)))
    (u32 (Z.shiftl (ZFlag p) 30))) (u32 (Z.shiftl (CFlag p) 29))) (u32 (Z.shiftl (VFlag p) 28)))
    (u32 (Z.shiftl (TFlag p) 5))) p.
Definition load_nzcvt (p : Status) : Status :=
  let c := Cpsr p in
  with_TFlag (Z.land (Z.shiftr c 5) 1) (with_VFlag (Z.land (Z.shiftr c 28) 1)
    (with_CFlag (Z.land (Z.shiftr c 29) 1) (with_ZFlag (Z.land (Z.shiftr c 30) 1)
    (with_NFlag (Z.shiftr c 31) p)))).

Definition SAVE_NZCVT : M mem () := on_status save_nzcvt.
Definition LOAD_NZCVT : M mem () := on_status load_nzcvt.

Definition UPDATE_NFLAG (dst : Z) : M mem () := on_status (with_NFlag (if truth (BIT dst 31) then 1 else 0)).
Definition UPDATE_ZFLAG (dst : Z) : M mem () := on_status (with_ZFlag (if truth dst then 0 else 1)).
Definition UPDATE_CFLAG_WITH_SC : M mem () := on_status (fun p => with_CFlag (shifter_carry_out p) p).
Definition set_CV (carry overflow : bool) : M mem () :=
  on_status (fun p => with_VFlag (Z.b2z overflow) (with_CFlag (Z.b2z carry) p)).

(** ** Changing the mode *)

(** R13 and R14, with which a mode enters and leaves. *)
Definition pair_of s : list Z := [reg s 13; reg s 14].
Definition load_pair (l : list Z) s : ARMul_State mem :=
  with_Reg (<[14%nat := nth 1 l 0]> (<[13%nat := nth 0 l 0]> (Reg s))) s.

Definition with_spsr (bank : Z) s : Banks -> Banks :=
  fun b => with_Spsr (<[Z.to_nat bank := Spsr_copy (status s)]> (Spsr b)) b.

(** What the mode that is left keeps. *)
Definition save_bank s : ARMul_State mem :=
  let mode := Mode (status s) in
  let b := banks s in
  with_banks
    (if (mode =? SYSTEM32MODE) || (mode =? USER32MODE) then with_Reg_usr (pair_of s) b
     else if mode =? IRQ32MODE then with_spsr IRQBANK s (with_Reg_irq (pair_of s) b)
     else if mode =? SVC32MODE then with_spsr SVCBANK s (with_Reg_svc (pair_of s) b)
     else if mode =? ABORT32MODE then with_spsr ABORTBANK s (with_Reg_abort (pair_of s) b)
     else if mode =? UNDEF32MODE then with_spsr UNDEFBANK s (with_Reg_undef (pair_of s) b)
     else if mode =? FIQ32MODE then with_spsr FIQBANK s (with_Reg_firq (take 7 (drop 8 (Reg s))) b)
     else b) s.

Definition enter (bank : Z) s : ARMul_State mem := with_status (with_Bank bank (status s)) s.
Definition enter_spsr (bank : Z) s : ARMul_State mem :=
  enter bank (with_status (with_Spsr_copy (nth (Z.to_nat bank) (Spsr (banks s)) 0) (status s)) s).

(** What the mode that is entered brings. *)
Definition load_bank (new_mode : Z) s : ARMul_State mem :=
  let b := banks s in
  if new_mode =? USER32MODE then enter USERBANK (load_pair (Reg_usr b) s)
  else if new_mode =? IRQ32MODE then enter_spsr IRQBANK (load_pair (Reg_irq b) s)
  else if new_mode =? SVC32MODE then enter_spsr SVCBANK (load_pair (Reg_svc b) s)
  else if new_mode =? ABORT32MODE then enter_spsr ABORTBANK (load_pair (Reg_abort b) s)
  else if new_mode =? UNDEF32MODE then enter_spsr UNDEFBANK (load_pair (Reg_undef b) s)
  else if new_mode =? FIQ32MODE then
    enter_spsr FIQBANK (with_Reg (take 8 (Reg s) ++ Reg_firq b ++ drop 15 (Reg s)) s)
  else if new_mode =? SYSTEM32MODE then enter SYSTEMBANK (load_pair (Reg_usr b) s)
  else s.

Definition mode_change (new_mode : Z) s : ARMul_State mem :=
  if Mode (status s) =? new_mode then s
  else if new_mode =? USERBANK then s
  else
    let s := load_bank new_mode (save_bank s) in
    let p := status s in
    with_status (with_Mode new_mode
      (with_Cpsr (Z.lor (Z.land (Cpsr p) (Z.lxor (Mode p) 0xFFFFFFFF)) new_mode) p)) s.

Definition ChangePrivilegeMode (new_mode : Z) : M mem () := modify (mode_change new_mode).

(** ** The system coprocessor *)

Definition ReadCP15Register (crn op1 crm op2 : Z) : M mem Z := gets (fun s =>
  match user_readable crn op1 crm op2 with
  | Some r => read_cp15 (CP15 s) r
  | None =>
      if InAPrivilegedMode s then
        match privileged_readable crn op1 crm op2 with Some r => read_cp15 (CP15 s) r | None => 0 end
      else 0
  end).

Definition write_some (r : option CP15Register) (v : Z) s : ARMul_State mem :=
  match r with Some r => with_CP15 (write_cp15 r v (CP15 s)) s | None => s end.

Definition WriteCP15Register (value crn op1 crm op2 : Z) : M mem () := modify (fun s =>
  write_some (user_writable crn op1 crm op2) value
    (if InAPrivilegedMode s then write_some (privileged_writable crn op1 crm op2) value s else s)).

(** ** Reset *)

(** The floating point system registers after [VFPInit]: FPSID, FPSCR, FPEXC, FPINST,
    FPINST2, MVFR0, MVFR1. *)
Definition vfp_reset : list Z :=
  [Z.lor (Z.lor (Z.lor (Z.lor (Z.lor (Z.shiftl 0x41 24) (Z.shiftl 0 23)) (Z.shiftl 1 16))
     (Z.shiftl 0x20 8)) (Z.shiftl 0xB 4)) 4; 0; 0; 0xEE000A00; 0; 0x11111111; 0].

(** [Reset] on the members that the interpreter reads; the other signals are not read. *)
Definition Reset s : ARMul_State mem :=
  let s := with_VFP vfp_reset s in
  let s := with_Reg (<[15%nat := 0]> (<[13%nat := 0x10000000]> (Reg s))) s in
  let s := with_status (with_Bank SVCBANK (with_Mode SVC32MODE
             (with_Cpsr (Z.lor 0x1C0 SVC32MODE) (status s)))) s in
  with_NirqSig 1 (with_CP15 (ResetMPCoreCP15Registers (CP15 s)) s).

End Operations.
