(* ===== verification/ArmOperands.v ===== *)
(** * ArmOperands: conditions, shifter operands and addresses (core/arm/dyncom/arm_dyncom_interpreter.cpp, arm_dyncom_run.h)

    The functions that instructions are given as pointers when they are translated are
    enumerated by [shtop] and [get_addr]. *)
From S2P Require Import Prelude ArmSupp ArmState.
From stdpp Require Import list.

Local Open Scope Z_scope.

(** ** Shifts of 32-bit words *)

(** A shift by the width of its operand is undefined; the hosts take the amount modulo 32. *)
Definition shl32 (n i : Z) : Z := u32 (Z.shiftl n (i mod 32)).
Definition shr32 (n i : Z) : Z := Z.shiftr n (i mod 32).
Definition asr32 (n i : Z) : Z := u32 (Z.shiftr (s32 n) i).

Definition ROTATE_RIGHT_32 (n i : Z) : Z := Z.lor (shl32 n (32 - i)) (shr32 n i).

(** ** Conditions *)

Definition CondPassed (p : Status) (cond : Z) : bool :=
  let n_flag := truth (NFlag p) in
  let z_flag := truth (ZFlag p) in
  let c_flag := truth (CFlag p) in
  let v_flag := truth (VFlag p) in
  if cond =? 0 then z_flag
  else if cond =? 1 then negb z_flag
  else if cond =? 2 then c_flag
  else if cond =? 3 then negb c_flag
  else if cond =? 4 then n_flag
  else if cond =? 5 then negb n_flag
  else if cond =? 6 then v_flag
  else if cond =? 7 then negb v_flag
  else if cond =? 8 then c_flag && negb z_flag
  else if cond =? 9 then negb c_flag || z_flag
  else if cond =? 10 then eqb n_flag v_flag
  else if cond =? 11 then negb (eqb n_flag v_flag)
  else if cond =? 12 then negb z_flag && eqb n_flag v_flag
  else if cond =? 13 then z_flag || negb (eqb n_flag v_flag)
  else (cond =? 14) || (cond =? 15).

(** ** Function pointers *)

Inductive shtop :=
  | DPO_Immediate | DPO_Register
  | DPO_LogicalShiftLeftByImmediate | DPO_LogicalShiftLeftByRegister
  | DPO_LogicalShiftRightByImmediate | DPO_LogicalShiftRightByRegister
  | DPO_ArithmeticShiftRightByImmediate | DPO_ArithmeticShiftRightByRegister
  | DPO_RotateRightByImmediate | DPO_RotateRightByRegister.

Inductive get_addr :=
  | LnSWoUB_ImmediateOffset | LnSWoUB_RegisterOffset | LnSWoUB_ScaledRegisterOffset
  | LnSWoUB_ImmediatePreIndexed | LnSWoUB_RegisterPreIndexed | LnSWoUB_ScaledRegisterPreIndexed
  | LnSWoUB_ImmediatePostIndexed | LnSWoUB_RegisterPostIndexed | LnSWoUB_ScaledRegisterPostIndexed
  | MLnS_ImmediateOffset | MLnS_RegisterOffset | MLnS_ImmediatePreIndexed
  | MLnS_RegisterPreIndexed | MLnS_ImmediatePostIndexed | MLnS_RegisterPostIndexed
  | LdnStM_IncrementAfter | LdnStM_IncrementBefore | LdnStM_DecrementAfter | LdnStM_DecrementBefore.

#[export] Instance shtop_eq_dec : EqDecision shtop.
Proof. solve_decision. Defined.
#[export] Instance get_addr_eq_dec : EqDecision get_addr.
Proof. solve_decision. Defined.

Definition GetShifterOp (inst : Z) : option shtop :=
  if truth (BIT inst 25) then Some DPO_Immediate
  else if BITS inst 4 11 =? 0 then Some DPO_Register
  else if BITS inst 4 6 =? 0 then Some DPO_LogicalShiftLeftByImmediate
  else if BITS inst 4 7 =? 1 then Some DPO_LogicalShiftLeftByRegister
  else if BITS inst 4 6 =? 2 then Some DPO_LogicalShiftRightByImmediate
  else if BITS inst 4 7 =? 3 then Some DPO_LogicalShiftRightByRegister
  else if BITS inst 4 6 =? 4 then Some DPO_ArithmeticShiftRightByImmediate
  else if BITS inst 4 7 =? 5 then Some DPO_ArithmeticShiftRightByRegister
  else if BITS inst 4 6 =? 6 then Some DPO_RotateRightByImmediate
  else if BITS inst 4 7 =? 7 then Some DPO_RotateRightByRegister
  else None.

(** Bits 7 and 4, of the half word and double word transfers. *)
Definition miscellaneous (inst : Z) : bool := (BIT inst 7 =? 1) && (BIT inst 4 =? 1).

Definition GetAddressingOp (inst : Z) : option get_addr :=
  let b24_27 := BITS inst 24 27 in
  let b21 := BIT inst 21 in
  let b21_22 := BITS inst 21 22 in
  let b4_11 := BITS inst 4 11 in
  let b4 := BIT inst 4 in
  if (b24_27 =? 5) && (b21 =? 0) then Some LnSWoUB_ImmediateOffset
  else if (b24_27 =? 7) && (b21 =? 0) && (b4_11 =? 0) then Some LnSWoUB_RegisterOffset
  else if (b24_27 =? 7) && (b21 =? 0) && (b4 =? 0) then Some LnSWoUB_ScaledRegisterOffset
  else if (b24_27 =? 5) && (b21 =? 1) then Some LnSWoUB_ImmediatePreIndexed
  else if (b24_27 =? 7) && (b21 =? 1) && (b4_11 =? 0) then Some LnSWoUB_RegisterPreIndexed
  else if (b24_27 =? 7) && (b21 =? 1) && (b4 =? 0) then Some LnSWoUB_ScaledRegisterPreIndexed
  else if (b24_27 =? 4) && (b21 =? 0) then Some LnSWoUB_ImmediatePostIndexed
  else if (b24_27 =? 6) && (b21 =? 0) && (b4_11 =? 0) then Some LnSWoUB_RegisterPostIndexed
  else if (b24_27 =? 6) && (b21 =? 0) && (b4 =? 0) then Some LnSWoUB_ScaledRegisterPostIndexed
  else if (b24_27 =? 1) && (b21_22 =? 2) && miscellaneous inst then Some MLnS_ImmediateOffset
  else if (b24_27 =? 1) && (b21_22 =? 0) && miscellaneous inst then Some MLnS_RegisterOffset
  else if (b24_27 =? 1) && (b21_22 =? 3) && miscellaneous inst then Some MLnS_ImmediatePreIndexed
  else if (b24_27 =? 1) && (b21_22 =? 1) && miscellaneous inst then Some MLnS_RegisterPreIndexed
  else if (b24_27 =? 0) && (b21_22 =? 2) && miscellaneous inst then Some MLnS_ImmediatePostIndexed
  else if (b24_27 =? 0) && (b21_22 =? 0) && miscellaneous inst then Some MLnS_RegisterPostIndexed
  else if BITS inst 23 27 =? 0x11 then Some LdnStM_IncrementAfter
  else if BITS inst 23 27 =? 0x13 then Some LdnStM_IncrementBefore
  else if BITS inst 23 27 =? 0x10 then Some LdnStM_DecrementAfter
  else if BITS inst 23 27 =? 0x12 then Some LdnStM_DecrementBefore
  else None.

Definition GetAddressingOpLoadStoreT (inst : Z) : option get_addr :=
  if BITS inst 25 27 =? 2 then Some LnSWoUB_ImmediatePostIndexed
  else if BITS inst 25 27 =? 3 then Some LnSWoUB_ScaledRegisterPostIndexed
  else None.

Section Operands.
Context {mem : Type} `{MI : MemoryInterface mem}.

(** The program counter as an operand, in full or aligned to a word. *)
Definition CHECK_READ_REG15 (Rn : Z) : M mem Z :=
  v ← get_reg Rn; size ← gets GetInstructionSize;
  mret (if Rn =? 15 then u32 (Z.land v 0xFFFFFFFE + size * 2) else v).
Definition CHECK_READ_REG15_WA (Rn : Z) : M mem Z :=
  v ← get_reg Rn; size ← gets GetInstructionSize;
  mret (if Rn =? 15 then u32 (Z.land v 0xFFFFFFFC + size * 2) else v).

(** ** Shifter operands *)

Definition set_carry_out (v : Z) : M mem () := on_status (with_shifter_carry_out v).

(** The operand, with its carry. *)
Definition operand (v carry : Z) : M mem Z := _ ← set_carry_out carry; mret v.
(** The operand, with the carry flag as it is. *)
Definition operand_c (v : Z) : M mem Z := c ← get_status CFlag; operand v c.

Definition Rm_of (sht_oper : Z) : M mem Z := CHECK_READ_REG15 (BITS sht_oper 0 3).
Definition Rs_of (sht_oper : Z) : M mem Z := CHECK_READ_REG15 (BITS sht_oper 8 11).

Definition Immediate (sht_oper : Z) : M mem Z :=
  let immed_8 := BITS sht_oper 0 7 in
  let rotate_imm := BITS sht_oper 8 11 in
  let shifter_operand := ROTATE_RIGHT_32 immed_8 (rotate_imm * 2) in
  if rotate_imm =? 0 then operand_c shifter_operand
  else operand shifter_operand (BIT shifter_operand 31).

Definition Register (sht_oper : Z) : M mem Z := rm ← Rm_of sht_oper; operand_c rm.

Definition LogicalShiftLeftByImmediate (sht_oper : Z) : M mem Z :=
  let shift_imm := BITS sht_oper 7 11 in
  rm ← Rm_of sht_oper;
  if shift_imm =? 0 then operand_c rm
  else operand (shl32 rm shift_imm) (BIT rm (32 - shift_imm)).

Definition LogicalShiftLeftByRegister (sht_oper : Z) : M mem Z :=
  rm ← Rm_of sht_oper;
  rs ← Rs_of sht_oper;
  let n := BITS rs 0 7 in
  if n =? 0 then operand_c rm
  else if n <? 32 then operand (shl32 rm n) (BIT rm (32 - n))
  else if n =? 32 then operand 0 (BIT rm 0)
  else operand 0 0.

Definition LogicalShiftRightByImmediate (sht_oper : Z) : M mem Z :=
  rm ← Rm_of sht_oper;
  let shift_imm := BITS sht_oper 7 11 in
  if shift_imm =? 0 then operand 0 (BIT rm 31)
  else operand (shr32 rm shift_imm) (BIT rm (shift_imm - 1)).

Definition LogicalShiftRightByRegister (sht_oper : Z) : M mem Z :=
  rs ← Rs_of sht_oper;
  rm ← Rm_of sht_oper;
  let n := BITS rs 0 7 in
  if n =? 0 then operand_c rm
  else if n <? 32 then operand (shr32 rm n) (BIT rm (n - 1))
  else if n =? 32 then operand 0 (BIT rm 31)
  else operand 0 0.

Definition ArithmeticShiftRightByImmediate (sht_oper : Z) : M mem Z :=
  rm ← Rm_of sht_oper;
  let shift_imm := BITS sht_oper 7 11 in
  if shift_imm =? 0 then operand (if BIT rm 31 =? 0 then 0 else 0xFFFFFFFF) (BIT rm 31)
  else operand (asr32 rm shift_imm) (BIT rm (shift_imm - 1)).

Definition ArithmeticShiftRightByRegister (sht_oper : Z) : M mem Z :=
  rs ← Rs_of sht_oper;
  rm ← Rm_of sht_oper;
  let n := BITS rs 0 7 in
  if n =? 0 then operand_c rm
  else if n <? 32 then operand (asr32 rm n) (BIT rm (n - 1))
  else operand (if BIT rm 31 =? 0 then 0 else 0xffffffff) (BIT rm 31).

Definition RotateRightByImmediate (sht_oper : Z) : M mem Z :=
  rm ← Rm_of sht_oper;
  let shift_imm := BITS sht_oper 7 11 in
  if shift_imm =? 0 then
    c ← get_status CFlag;
    operand (Z.lor (shl32 c 31) (shr32 rm 1)) (BIT rm 0)
  else operand (ROTATE_RIGHT_32 rm shift_imm) (BIT rm (shift_imm - 1)).

Definition RotateRightByRegister (sht_oper : Z) : M mem Z :=
  rm ← Rm_of sht_oper;
  rs ← Rs_of sht_oper;
  if BITS rs 0 7 =? 0 then operand_c rm
  else if BITS rs 0 4 =? 0 then operand rm (BIT rm 31)
  else operand (ROTATE_RIGHT_32 rm (BITS rs 0 4)) (BIT rm (BITS rs 0 4 - 1)).

(** A call through the pointer. *)
Definition call_shtop (f : option shtop) (sht_oper : Z) : M mem Z :=
  match f with
  | None => fault NullFunction
  | Some DPO_Immediate => Immediate sht_oper
  | Some DPO_Register => Register sht_oper
  | Some DPO_LogicalShiftLeftByImmediate => LogicalShiftLeftByImmediate sht_oper
  | Some DPO_LogicalShiftLeftByRegister => LogicalShiftLeftByRegister sht_oper
  | Some DPO_LogicalShiftRightByImmediate => LogicalShiftRightByImmediate sht_oper
  | Some DPO_LogicalShiftRightByRegister => LogicalShiftRightByRegister sht_oper
  | Some DPO_ArithmeticShiftRightByImmediate => ArithmeticShiftRightByImmediate sht_oper
  | Some DPO_ArithmeticShiftRightByRegister => ArithmeticShiftRightByRegister sht_oper
  | Some DPO_RotateRightByImmediate => RotateRightByImmediate sht_oper
  | Some DPO_RotateRightByRegister => RotateRightByRegister sht_oper
  end.

(** ** Addresses *)

Definition U_BIT (inst : Z) : bool := truth (BIT inst 23).
Definition OFFSET_12 (inst : Z) : Z := BITS inst 0 11.
Definition Rn_field (inst : Z) : Z := BITS inst 16 19.
Definition Rm_field (inst : Z) : Z := BITS inst 0 3.

(** An offset added or subtracted, as bit 23 says. *)
Definition plus_minus (inst base offset : Z) : Z :=
  if U_BIT inst then u32 (base + offset) else u32 (base - offset).

Definition passed (inst : Z) : M mem bool := gets (fun s => CondPassed (status s) (BITS inst 28 31)).
Definition when_passed (inst : Z) (m : M mem ()) : M mem () := b ← passed inst; when b m.

(** [cpu->Reg[Rn] += index] or [-=] *)
Definition update_reg (inst Rn index : Z) : M mem () := v ← get_reg Rn; set_reg Rn (plus_minus inst v index).

(** The address is the new value of the base register. *)
Definition pre_indexed (inst addr : Z) : M mem Z := _ ← when_passed inst (set_reg (Rn_field inst) addr); mret addr.

Definition offset_8 (inst : Z) : Z := Z.lor (u32 (Z.shiftl (BITS inst 8 11) 4)) (BITS inst 0 3).

(** The shifted index register. *)
Definition scaled_index (c rm shift shift_imm : Z) : Z :=
  if shift =? 0 then shl32 rm shift_imm
  else if shift =? 1 then if shift_imm =? 0 then 0 else shr32 rm shift_imm
  else if shift =? 2 then
    if shift_imm =? 0 then if BIT rm 31 =? 1 then 0xFFFFFFFF else 0 else asr32 rm shift_imm
  else if shift =? 3 then
    if shift_imm =? 0 then Z.lor (shl32 c 31) (shr32 rm 1) else ROTATE_RIGHT_32 rm shift_imm
  else 0.

Definition index_of (inst rm : Z) : M mem Z :=
  c ← get_status CFlag; mret (scaled_index c rm (BITS inst 5 6) (BITS inst 7 11)).

Definition ImmediateOffset (inst : Z) : M mem Z :=
  rn ← CHECK_READ_REG15_WA (Rn_field inst); mret (plus_minus inst rn (OFFSET_12 inst)).
Definition RegisterOffset (inst : Z) : M mem Z :=
  rn ← CHECK_READ_REG15_WA (Rn_field inst);
  rm ← CHECK_READ_REG15_WA (Rm_field inst);
  mret (plus_minus inst rn rm).
(** The write back does not look at the condition. *)
Definition ImmediatePostIndexed (inst : Z) : M mem Z :=
  addr ← CHECK_READ_REG15_WA (Rn_field inst);
  _ ← update_reg inst (Rn_field inst) (OFFSET_12 inst);
  mret addr.
Definition ImmediatePreIndexed (inst : Z) : M mem Z :=
  rn ← CHECK_READ_REG15_WA (Rn_field inst); pre_indexed inst (plus_minus inst rn (OFFSET_12 inst)).
Definition RegisterPreIndexed (inst : Z) : M mem Z :=
  rn ← CHECK_READ_REG15_WA (Rn_field inst);
  rm ← CHECK_READ_REG15_WA (Rm_field inst);
  pre_indexed inst (plus_minus inst rn rm).
Definition ScaledRegisterPreIndexed (inst : Z) : M mem Z :=
  rm ← CHECK_READ_REG15_WA (Rm_field inst);
  rn ← CHECK_READ_REG15_WA (Rn_field inst);
  index ← index_of inst rm;
  pre_indexed inst (plus_minus inst rn index).
Definition ScaledRegisterPostIndexed (inst : Z) : M mem Z :=
  addr ← CHECK_READ_REG15_WA (Rn_field inst);
  rm ← CHECK_READ_REG15_WA (Rm_field inst);
  index ← index_of inst rm;
  _ ← when_passed inst (update_reg inst (Rn_field inst) index);
  mret addr.
Definition RegisterPostIndexed (inst : Z) : M mem Z :=
  rm ← CHECK_READ_REG15_WA (Rm_field inst);
  addr ← CHECK_READ_REG15_WA (Rn_field inst);
  _ ← when_passed inst (update_reg inst (Rn_field inst) rm);
  mret addr.
Definition ScaledRegisterOffset (inst : Z) : M mem Z :=
  rm ← CHECK_READ_REG15_WA (Rm_field inst);
  rn ← CHECK_READ_REG15_WA (Rn_field inst);
  index ← index_of inst rm;
  mret (plus_minus inst rn index).

Definition MImmediateOffset (inst : Z) : M mem Z :=
  rn ← CHECK_READ_REG15_WA (Rn_field inst); mret (plus_minus inst rn (offset_8 inst)).
Definition MImmediatePreIndexed (inst : Z) : M mem Z :=
  rn ← CHECK_READ_REG15_WA (Rn_field inst); pre_indexed inst (plus_minus inst rn (offset_8 inst)).
Definition MImmediatePostIndexed (inst : Z) : M mem Z :=
  rn ← CHECK_READ_REG15_WA (Rn_field inst);
  _ ← when_passed inst (set_reg (Rn_field inst) (plus_minus inst rn (offset_8 inst)));
  mret rn.

(** The registers in a list: [i] is shifted right until it is zero. *)
Fixpoint count_bits (fuel : nat) (i : Z) : Z :=
  match fuel with
  | O => 0
  | S fuel => if i =? 0 then 0 else (if truth (Z.land i 1) then 1 else 0) + count_bits fuel (Z.shiftr i 1)
  end.
Definition list_count (inst : Z) : Z := count_bits 16 (BITS inst 0 15).

(** The base register moves by [n] when bit 21 asks for it. *)
Definition block_write_back (inst n : Z) : M mem () :=
  b ← passed inst;
  when (b && truth (BIT inst 21))
    (v ← get_reg (Rn_field inst); set_reg (Rn_field inst) (u32 (v + n))).

Definition DecrementBefore (inst : Z) : M mem Z :=
  let count := list_count inst in
  rn ← CHECK_READ_REG15_WA (Rn_field inst);
  _ ← block_write_back inst (- (count * 4));
  mret (u32 (rn - count * 4)).
Definition IncrementBefore (inst : Z) : M mem Z :=
  let count := list_count inst in
  rn ← CHECK_READ_REG15_WA (Rn_field inst);
  _ ← block_write_back inst (count * 4);
  mret (u32 (rn + 4)).
Definition IncrementAfter (inst : Z) : M mem Z :=
  let count := list_count inst in
  rn ← CHECK_READ_REG15_WA (Rn_field inst);
  _ ← block_write_back inst (count * 4);
  mret rn.
Definition DecrementAfter (inst : Z) : M mem Z :=
  let count := list_count inst in
  rn ← CHECK_READ_REG15_WA (Rn_field inst);
  _ ← block_write_back inst (- (count * 4));
  mret (u32 (rn - count * 4 + 4)).

Definition call_get_addr (f : option get_addr) (inst : Z) : M mem Z :=
  match f with
  | None => fault NullFunction
  | Some LnSWoUB_ImmediateOffset => ImmediateOffset inst
  | Some LnSWoUB_RegisterOffset | Some MLnS_RegisterOffset => RegisterOffset inst
  | Some LnSWoUB_ScaledRegisterOffset => ScaledRegisterOffset inst
  | Some LnSWoUB_ImmediatePreIndexed => ImmediatePreIndexed inst
  | Some LnSWoUB_RegisterPreIndexed | Some MLnS_RegisterPreIndexed => RegisterPreIndexed inst
  | Some LnSWoUB_ScaledRegisterPreIndexed => ScaledRegisterPreIndexed inst
  | Some LnSWoUB_ImmediatePostIndexed => ImmediatePostIndexed inst
  | Some LnSWoUB_RegisterPostIndexed | Some MLnS_RegisterPostIndexed => RegisterPostIndexed inst
  | Some LnSWoUB_ScaledRegisterPostIndexed => ScaledRegisterPostIndexed inst
  | Some MLnS_ImmediateOffset => MImmediateOffset inst
  | Some MLnS_ImmediatePreIndexed => MImmediatePreIndexed inst
  | Some MLnS_ImmediatePostIndexed => MImmediatePostIndexed inst
  | Some LdnStM_IncrementAfter => IncrementAfter inst
  | Some LdnStM_IncrementBefore => IncrementBefore inst
  | Some LdnStM_DecrementAfter => DecrementAfter inst
  | Some LdnStM_DecrementBefore => DecrementBefore inst
  end.

End Operands.
