(* ===== verification/ArmTrans.v ===== *)
(** * ArmTrans: translation of instructions (core/arm/dyncom/arm_dyncom_trans.cpp, arm_dyncom_trans.h)

    A decoded word is translated to an [arm_inst] once and executed many times.  The
    components are the structures of the header; those with the same fields are one
    constructor, and a field that a translator does not set is left out. *)
From S2P Require Import Prelude ArmSupp ArmState ArmOperands.

Local Open Scope Z_scope.

Inductive TransExtData :=
  | COND | NON_BRANCH | DIRECT_BRANCH | INDIRECT_BRANCH | CALL | RET | END_OF_PAGE | THUMB | SINGLE_STEP.

#[export] Instance TransExtData_eq_dec : EqDecision TransExtData.
Proof. solve_decision. Defined.

(** [vfp_inst] stands for the structures of the floating point instructions. *)
Inductive component :=
  | alu_inst (I S Rn Rd shifter_operand : Z) (shtop_func : option shtop)
  | cmp_inst (I Rn shifter_operand : Z) (shtop_func : option shtop)
  | mov_inst (I S Rd shifter_operand : Z) (shtop_func : option shtop)
  | bbl_inst (L signed_immed_24 : Z)
  | bkpt_inst (imm : Z)
  | blx_inst (val inst : Z)
  | bx_inst (Rm : Z)
  | cdp_inst (CRm CRd CRn cp_num opcode_2 opcode_1 inst : Z)
  | no_inst
  | clz_inst (Rm Rd : Z)
  | cps_inst (imod0 imod1 mmod A I F mode : Z)
  | ldst_inst (inst : Z) (get_addr : option ArmOperands.get_addr)
  | extend_inst (Rd Rm rotate : Z)
  | extend_add_inst (Rd Rn Rm rotate : Z)
  | ldrex_inst (Rn Rd : Z)
  | strex_inst (Rn Rd Rm : Z)
  | mcr_inst (crn crm opcode_1 opcode_2 Rd cp_num inst : Z)
  | mcrr_inst (crm opcode_1 cp_num rt rt2 : Z)
  | mla_inst (S Rn Rd Rs Rm : Z)
  | mrs_inst (Rd R : Z)
  | msr_inst (field_mask R inst : Z)
  | mul_inst (S Rm Rs Rd : Z)
  | pkh_inst (Rd Rn Rm imm : Z)
  | qadd_inst (op1 Rm Rn Rd : Z)
  | parallel_inst (Rm Rn Rd op1 op2 : Z)
  | rev_inst (Rm Rd op1 op2 : Z)
  | setend_inst (set_bigend : Z)
  | smla_inst (x y Rm Rs Rd Rn : Z)
  | smlad_inst (m Rn Rm Rd Ra op1 op2 : Z)
  | mull_inst (S Rm Rs RdHi RdLo : Z)
  | smlalxy_inst (x y RdLo RdHi Rn Rm : Z)
  | smlaw_inst (Ra Rm Rn Rd m : Z)
  | smlald_inst (Rm Rn RdLo RdHi swap op1 op2 : Z)
  | smul_inst (Rd Rs Rm x y : Z)
  | smulw_inst (m Rm Rn Rd : Z)
  | ssat_inst (Rn Rd imm5 sat_imm shift_type : Z)
  | ssat16_inst (Rn Rd sat_imm : Z)
  | swi_inst (num : Z)
  | swp_inst (Rn Rd Rm : Z)
  | umaal_inst (Rm Rn RdLo RdHi : Z)
  | usada8_inst (op1 op2 Rd Rm Rn Ra : Z)
  | thumb_inst (imm : Z)
  | b_cond_thumb (imm cond : Z)
  | blx_1_thumb (imm instr : Z)
  | vfp_inst (inst : Z).

(** The translators of Thumb branches do not set the condition. *)
Record arm_inst := mkInst { idx : Z; cond : option Z; br : TransExtData; comp : component }.

Definition set_br (b : TransExtData) (i : arm_inst) : arm_inst := mkInst (idx i) (cond i) b (comp i).

Definition AL := 14.

(** ** Translators, in the order of the file *)

Definition trans_adc (inst index : Z) : arm_inst :=
  mkInst index (Some (BITS inst 28 31)) (if BITS inst 12 15 =? 15 then INDIRECT_BRANCH else NON_BRANCH)
    (alu_inst (BIT inst 25) (BIT inst 20) (BITS inst 16 19) (BITS inst 12 15) (BITS inst 0 11)
      (GetShifterOp inst)).

Definition trans_add := trans_adc.
Definition trans_and := trans_adc.

Definition trans_bbl (inst index : Z) : arm_inst :=
  mkInst index (Some (BITS inst 28 31)) (if truth (BIT inst 24) then CALL else DIRECT_BRANCH)
    (bbl_inst (BIT inst 24) (if truth (BIT inst 23) then u32 (Z.shiftl (Z.lor 0xff000000 (Z.land inst
      0xffffff)) 2) else u32 (Z.shiftl (Z.land inst 0x7fffff) 2))).

Definition trans_bic := trans_adc.

Definition trans_bkpt (inst index : Z) : arm_inst :=
  mkInst index (Some (BITS inst 28 31)) NON_BRANCH
    (bkpt_inst (Z.lor (u32 (Z.shiftl (BITS inst 8 19) 4)) (BITS inst 0 3))).

Definition trans_blx (inst index : Z) : arm_inst :=
  mkInst index (Some (BITS inst 28 31)) INDIRECT_BRANCH
    (blx_inst (if (BITS inst 20 27 =? 0x12) && (BITS inst 4 7 =? 3) then BITS inst 0 3 else BITS inst 0
      23) inst).

Definition trans_bx (inst index : Z) : arm_inst :=
  mkInst index (Some (BITS inst 28 31)) INDIRECT_BRANCH
    (bx_inst (BITS inst 0 3)).

Definition trans_bxj := trans_bx.

Definition trans_cdp (inst index : Z) : arm_inst :=
  mkInst index (Some (BITS inst 28 31)) NON_BRANCH
    (cdp_inst (BITS inst 0 3) (BITS inst 12 15) (BITS inst 16 19) (BITS inst 8 11) (BITS inst 5 7) (BITS
      inst 20 23) inst).

Definition trans_clrex (inst index : Z) : arm_inst :=
  mkInst index (Some (BITS inst 28 31)) NON_BRANCH
    no_inst.

Definition trans_clz (inst index : Z) : arm_inst :=
  mkInst index (Some (BITS inst 28 31)) NON_BRANCH
    (clz_inst (BITS inst 0 3) (BITS inst 12 15)).

Definition trans_cmn (inst index : Z) : arm_inst :=
  mkInst index (Some (BITS inst 28 31)) NON_BRANCH
    (cmp_inst (BIT inst 25) (BITS inst 16 19) (BITS inst 0 11) (GetShifterOp inst)).

Definition trans_cmp := trans_cmn.

Definition trans_cps (inst index : Z) : arm_inst :=
  mkInst index (Some (BITS inst 28 31)) NON_BRANCH
    (cps_inst (BIT inst 18) (BIT inst 19) (BIT inst 17) (BIT inst 8) (BIT inst 7) (BIT inst 6) (BITS inst
      0 4)).

Definition trans_cpy (inst index : Z) : arm_inst :=
  mkInst index (Some (BITS inst 28 31)) (if BITS inst 12 15 =? 15 then INDIRECT_BRANCH else NON_BRANCH)
    (mov_inst (BIT inst 25) (BIT inst 20) (BITS inst 12 15) (BITS inst 0 11) (GetShifterOp inst)).

Definition trans_eor := trans_adc.
Definition trans_ldc := trans_clrex.

Definition trans_ldm (inst index : Z) : arm_inst :=
  mkInst index (Some (BITS inst 28 31)) (if truth (BIT inst 15) then INDIRECT_BRANCH else NON_BRANCH)
    (ldst_inst inst (GetAddressingOp inst)).

Definition trans_sxth (inst index : Z) : arm_inst :=
  mkInst index (Some (BITS inst 28 31)) NON_BRANCH
    (extend_inst (BITS inst 12 15) (BITS inst 0 3) (BITS inst 10 11)).

Definition trans_ldr (inst index : Z) : arm_inst :=
  mkInst index (Some (BITS inst 28 31)) (if BITS inst 12 15 =? 15 then INDIRECT_BRANCH else NON_BRANCH)
    (ldst_inst inst (GetAddressingOp inst)).

Definition trans_ldrcond := trans_ldr.
Definition trans_uxth := trans_sxth.

Definition trans_uxtah (inst index : Z) : arm_inst :=
  mkInst index (Some (BITS inst 28 31)) NON_BRANCH
    (extend_add_inst (BITS inst 12 15) (BITS inst 16 19) (BITS inst 0 3) (BITS inst 10 11)).

Definition trans_ldrb (inst index : Z) : arm_inst :=
  mkInst index (Some (BITS inst 28 31)) NON_BRANCH
    (ldst_inst inst (GetAddressingOp inst)).

Definition trans_ldrbt (inst index : Z) : arm_inst :=
  mkInst index (Some (BITS inst 28 31)) NON_BRANCH
    (ldst_inst inst (GetAddressingOpLoadStoreT inst)).

Definition trans_ldrd := trans_ldrb.

Definition trans_ldrex (inst index : Z) : arm_inst :=
  mkInst index (Some (BITS inst 28 31)) (if BITS inst 12 15 =? 15 then INDIRECT_BRANCH else NON_BRANCH)
    (ldrex_inst (BITS inst 16 19) (BITS inst 12 15)).

Definition trans_ldrexb := trans_ldrex.
Definition trans_ldrexh := trans_ldrex.
Definition trans_ldrexd := trans_ldrex.
Definition trans_ldrh := trans_ldrb.
Definition trans_ldrsb := trans_ldrb.
Definition trans_ldrsh := trans_ldrb.

Definition trans_ldrt (inst index : Z) : arm_inst :=
  mkInst index (Some (BITS inst 28 31)) (if BITS inst 12 15 =? 15 then INDIRECT_BRANCH else NON_BRANCH)
    (ldst_inst inst (GetAddressingOpLoadStoreT inst)).

Definition trans_mcr (inst index : Z) : arm_inst :=
  mkInst index (Some (BITS inst 28 31)) NON_BRANCH
    (mcr_inst (BITS inst 16 19) (BITS inst 0 3) (BITS inst 21 23) (BITS inst 5 7) (BITS inst 12 15) (BITS
      inst 8 11) inst).

Definition trans_mcrr (inst index : Z) : arm_inst :=
  mkInst index (Some (BITS inst 28 31)) NON_BRANCH
    (mcrr_inst (BITS inst 0 3) (BITS inst 4 7) (BITS inst 8 11) (BITS inst 12 15) (BITS inst 16 19)).

Definition trans_mla (inst index : Z) : arm_inst :=
  mkInst index (Some (BITS inst 28 31)) NON_BRANCH
    (mla_inst (BIT inst 20) (BITS inst 12 15) (BITS inst 16 19) (BITS inst 8 11) (BITS inst 0 3)).

Definition trans_mov := trans_cpy.
Definition trans_mrc := trans_mcr.
Definition trans_mrrc := trans_mcrr.

Definition trans_mrs (inst index : Z) : arm_inst :=
  mkInst index (Some (BITS inst 28 31)) NON_BRANCH
    (mrs_inst (BITS inst 12 15) (BIT inst 22)).

Definition trans_msr (inst index : Z) : arm_inst :=
  mkInst index (Some (BITS inst 28 31)) NON_BRANCH
    (msr_inst (BITS inst 16 19) (BIT inst 22) inst).

Definition trans_mul (inst index : Z) : arm_inst :=
  mkInst index (Some (BITS inst 28 31)) NON_BRANCH
    (mul_inst (BIT inst 20) (BITS inst 0 3) (BITS inst 8 11) (BITS inst 16 19)).

Definition trans_mvn := trans_cpy.
Definition trans_orr := trans_adc.
Definition trans_nop := trans_clrex.

Definition trans_pkhbt (inst index : Z) : arm_inst :=
  mkInst index (Some (BITS inst 28 31)) NON_BRANCH
    (pkh_inst (BITS inst 12 15) (BITS inst 16 19) (BITS inst 0 3) (BITS inst 7 11)).

Definition trans_pkhtb := trans_pkhbt.
Definition trans_pld := trans_clrex.

Definition trans_qadd (inst index : Z) : arm_inst :=
  mkInst index (Some (BITS inst 28 31)) NON_BRANCH
    (qadd_inst (BITS inst 21 22) (BITS inst 0 3) (BITS inst 16 19) (BITS inst 12 15)).

Definition trans_qdadd := trans_qadd.
Definition trans_qdsub := trans_qadd.
Definition trans_qsub := trans_qadd.

Definition trans_qadd8 (inst index : Z) : arm_inst :=
  mkInst index (Some (BITS inst 28 31)) NON_BRANCH
    (parallel_inst (BITS inst 0 3) (BITS inst 16 19) (BITS inst 12 15) (BITS inst 20 21) (BITS inst 5 7)).

Definition trans_qadd16 := trans_qadd8.
Definition trans_qaddsubx := trans_qadd8.
Definition trans_qsub8 := trans_qadd8.
Definition trans_qsub16 := trans_qadd8.
Definition trans_qsubaddx := trans_qadd8.

Definition trans_rev (inst index : Z) : arm_inst :=
  mkInst index (Some (BITS inst 28 31)) NON_BRANCH
    (rev_inst (BITS inst 0 3) (BITS inst 12 15) (BITS inst 20 22) (BITS inst 5 7)).

Definition trans_rev16 := trans_rev.
Definition trans_revsh := trans_rev.

Definition trans_rfe (inst index : Z) : arm_inst :=
  mkInst index (Some AL) INDIRECT_BRANCH
    (ldst_inst inst (GetAddressingOp inst)).

Definition trans_rsb := trans_adc.
Definition trans_rsc := trans_adc.
Definition trans_sadd8 := trans_qadd8.
Definition trans_sadd16 := trans_sadd8.
Definition trans_saddsubx := trans_sadd8.
Definition trans_ssub8 := trans_sadd8.
Definition trans_ssub16 := trans_sadd8.
Definition trans_ssubaddx := trans_sadd8.
Definition trans_sbc := trans_adc.

Definition trans_sel (inst index : Z) : arm_inst :=
  mkInst index (Some (BITS inst 28 31)) NON_BRANCH
    (parallel_inst (BITS inst 0 3) (BITS inst 16 19) (BITS inst 12 15) (BITS inst 20 22) (BITS inst 5 7)).

Definition trans_setend (inst index : Z) : arm_inst :=
  mkInst index (Some AL) NON_BRANCH
    (setend_inst (BIT inst 9)).

Definition trans_sev := trans_clrex.
Definition trans_shadd8 := trans_qadd8.
Definition trans_shadd16 := trans_shadd8.
Definition trans_shaddsubx := trans_shadd8.
Definition trans_shsub8 := trans_shadd8.
Definition trans_shsub16 := trans_shadd8.
Definition trans_shsubaddx := trans_shadd8.

Definition trans_smla (inst index : Z) : arm_inst :=
  mkInst index (Some (BITS inst 28 31)) NON_BRANCH
    (smla_inst (BIT inst 5) (BIT inst 6) (BITS inst 0 3) (BITS inst 8 11) (BITS inst 16 19) (BITS inst 12
      15)).

Definition trans_smlad (inst index : Z) : arm_inst :=
  mkInst index (Some (BITS inst 28 31)) NON_BRANCH
    (smlad_inst (BIT inst 5) (BITS inst 0 3) (BITS inst 8 11) (BITS inst 16 19) (BITS inst 12 15) (BITS
      inst 20 22) (BITS inst 5 7)).

Definition trans_smuad := trans_smlad.
Definition trans_smusd := trans_smlad.
Definition trans_smlsd := trans_smlad.

Definition trans_smlal (inst index : Z) : arm_inst :=
  mkInst index (Some (BITS inst 28 31)) NON_BRANCH
    (mull_inst (BIT inst 20) (BITS inst 0 3) (BITS inst 8 11) (BITS inst 16 19) (BITS inst 12 15)).

Definition trans_smlalxy (inst index : Z) : arm_inst :=
  mkInst index (Some (BITS inst 28 31)) NON_BRANCH
    (smlalxy_inst (BIT inst 5) (BIT inst 6) (BITS inst 12 15) (BITS inst 16 19) (BITS inst 0 4) (BITS
      inst 8 11)).

Definition trans_smlaw (inst index : Z) : arm_inst :=
  mkInst index (Some (BITS inst 28 31)) NON_BRANCH
    (smlaw_inst (BITS inst 12 15) (BITS inst 8 11) (BITS inst 0 3) (BITS inst 16 19) (BIT inst 6)).

Definition trans_smlald (inst index : Z) : arm_inst :=
  mkInst index (Some (BITS inst 28 31)) NON_BRANCH
    (smlald_inst (BITS inst 8 11) (BITS inst 0 3) (BITS inst 12 15) (BITS inst 16 19) (BIT inst 5) (BITS
      inst 20 22) (BITS inst 5 7)).

Definition trans_smlsld := trans_smlald.
Definition trans_smmla := trans_smlad.
Definition trans_smmls := trans_smmla.
Definition trans_smmul := trans_smmla.

Definition trans_smul (inst index : Z) : arm_inst :=
  mkInst index (Some (BITS inst 28 31)) NON_BRANCH
    (smul_inst (BITS inst 16 19) (BITS inst 8 11) (BITS inst 0 3) (BIT inst 5) (BIT inst 6)).

Definition trans_smull := trans_smlal.

Definition trans_smulw (inst index : Z) : arm_inst :=
  mkInst index (Some (BITS inst 28 31)) NON_BRANCH
    (smulw_inst (BIT inst 6) (BITS inst 8 11) (BITS inst 0 3) (BITS inst 16 19)).

Definition trans_srs (inst index : Z) : arm_inst :=
  mkInst index (Some AL) NON_BRANCH
    (ldst_inst inst (GetAddressingOp inst)).

Definition trans_ssat (inst index : Z) : arm_inst :=
  mkInst index (Some (BITS inst 28 31)) NON_BRANCH
    (ssat_inst (BITS inst 0 3) (BITS inst 12 15) (BITS inst 7 11) (BITS inst 16 20) (BIT inst 6)).

Definition trans_ssat16 (inst index : Z) : arm_inst :=
  mkInst index (Some (BITS inst 28 31)) NON_BRANCH
    (ssat16_inst (BITS inst 0 3) (BITS inst 12 15) (BITS inst 16 19)).

Definition trans_stc := trans_clrex.
Definition trans_stm := trans_ldrb.
Definition trans_sxtb := trans_sxth.
Definition trans_str := trans_ldrb.
Definition trans_uxtb := trans_sxth.
Definition trans_uxtab := trans_uxtah.
Definition trans_strb := trans_ldrb.
Definition trans_strbt := trans_ldrbt.
Definition trans_strd := trans_ldrb.

Definition trans_strex (inst index : Z) : arm_inst :=
  mkInst index (Some (BITS inst 28 31)) NON_BRANCH
    (strex_inst (BITS inst 16 19) (BITS inst 12 15) (BITS inst 0 3)).

Definition trans_strexb := trans_strex.
Definition trans_strexh := trans_strex.
Definition trans_strexd := trans_strex.
Definition trans_strh := trans_ldrb.
Definition trans_strt := trans_ldrbt.
Definition trans_sub := trans_adc.

Definition trans_swi (inst index : Z) : arm_inst :=
  mkInst index (Some (BITS inst 28 31)) NON_BRANCH
    (swi_inst (BITS inst 0 23)).

Definition trans_swp (inst index : Z) : arm_inst :=
  mkInst index (Some (BITS inst 28 31)) NON_BRANCH
    (swp_inst (BITS inst 16 19) (BITS inst 12 15) (BITS inst 0 3)).

Definition trans_swpb := trans_swp.
Definition trans_sxtab := trans_uxtah.
Definition trans_sxtab16 := trans_uxtah.
Definition trans_sxtb16 := trans_sxtab16.
Definition trans_sxtah := trans_uxtah.
Definition trans_teq := trans_cmn.

Definition trans_tst (inst index : Z) : arm_inst :=
  mkInst index (Some (BITS inst 28 31)) NON_BRANCH
    (alu_inst (BIT inst 25) (BIT inst 20) (BITS inst 16 19) (BITS inst 12 15) (BITS inst 0 11)
      (GetShifterOp inst)).

Definition trans_uadd8 := trans_qadd8.
Definition trans_uadd16 := trans_uadd8.
Definition trans_uaddsubx := trans_uadd8.
Definition trans_usub8 := trans_uadd8.
Definition trans_usub16 := trans_uadd8.
Definition trans_usubaddx := trans_uadd8.
Definition trans_uhadd8 := trans_qadd8.
Definition trans_uhadd16 := trans_uhadd8.
Definition trans_uhaddsubx := trans_uhadd8.
Definition trans_uhsub8 := trans_uhadd8.
Definition trans_uhsub16 := trans_uhadd8.
Definition trans_uhsubaddx := trans_uhadd8.

Definition trans_umaal (inst index : Z) : arm_inst :=
  mkInst index (Some (BITS inst 28 31)) NON_BRANCH
    (umaal_inst (BITS inst 8 11) (BITS inst 0 3) (BITS inst 12 15) (BITS inst 16 19)).

Definition trans_umlal := trans_smlal.
Definition trans_umull := trans_smlal.

Definition trans_b_2_thumb (tinst index : Z) : arm_inst :=
  mkInst index None DIRECT_BRANCH
    (thumb_inst (Z.lor (Z.shiftl (Z.land tinst 0x3FF) 1) (if truth (Z.land tinst (Z.shiftl 1 10)) then
      0xFFFFF800 else 0))).

Definition trans_b_cond_thumb (tinst index : Z) : arm_inst :=
  mkInst index None DIRECT_BRANCH
    (b_cond_thumb (Z.lor (Z.shiftl (Z.land tinst 0x7F) 1) (if truth (Z.land tinst (Z.shiftl 1 7)) then
      0xFFFFFF00 else 0)) (Z.land (Z.shiftr tinst 8) 0xf)).

Definition trans_bl_1_thumb (tinst index : Z) : arm_inst :=
  mkInst index None NON_BRANCH
    (thumb_inst (Z.lor (Z.shiftl (Z.land tinst 0x07FF) 12) (if truth (Z.land tinst (Z.shiftl 1 10)) then
      0xFF800000 else 0))).

Definition trans_bl_2_thumb (tinst index : Z) : arm_inst :=
  mkInst index None DIRECT_BRANCH
    (thumb_inst (Z.shiftl (Z.land tinst 0x07FF) 1)).

Definition trans_blx_1_thumb (tinst index : Z) : arm_inst :=
  mkInst index None DIRECT_BRANCH
    (blx_1_thumb (Z.shiftl (Z.land tinst 0x07FF) 1) tinst).

Definition trans_uqadd8 := trans_qadd8.
Definition trans_uqadd16 := trans_uqadd8.
Definition trans_uqaddsubx := trans_uqadd8.
Definition trans_uqsub8 := trans_uqadd8.
Definition trans_uqsub16 := trans_uqadd8.
Definition trans_uqsubaddx := trans_uqadd8.

Definition trans_usada8 (inst index : Z) : arm_inst :=
  mkInst index (Some (BITS inst 28 31)) NON_BRANCH
    (usada8_inst (BITS inst 20 24) (BITS inst 5 7) (BITS inst 16 19) (BITS inst 8 11) (BITS inst 0 3)
      (BITS inst 12 15)).

Definition trans_usad8 := trans_usada8.
Definition trans_usat := trans_ssat.
Definition trans_usat16 := trans_ssat16.
Definition trans_uxtab16 := trans_uxtah.
Definition trans_uxtb16 := trans_uxtab16.
Definition trans_wfe := trans_clrex.
Definition trans_wfi := trans_clrex.
Definition trans_yield := trans_clrex.

(** ** The table *)

(** The floating point translators set the three common fields like the others. *)
Definition trans_vfp (inst index : Z) : arm_inst :=
  mkInst index (Some (BITS inst 28 31)) NON_BRANCH (vfp_inst inst).

(** The rows are those of the decoder; the Thumb branches come last. *)
Definition arm_instruction_trans : list (Z -> Z -> arm_inst) :=
  replicate 32 trans_vfp ++
  [trans_srs; trans_rfe; trans_bkpt; trans_blx; trans_cps; trans_pld; trans_setend; trans_clrex; 
   trans_rev16; trans_usad8; trans_sxtb; trans_uxtb; trans_sxth; trans_sxtb16; trans_uxth; 
   trans_uxtb16; trans_cpy; trans_uxtab; trans_ssub8; trans_shsub8; trans_ssubaddx; trans_strex; 
   trans_strexb; trans_swp; trans_swpb; trans_ssub16; trans_ssat16; trans_shsubaddx; 
   trans_qsubaddx; trans_shaddsubx; trans_shadd8; trans_shadd16; trans_sel; trans_saddsubx; 
   trans_sadd8; trans_sadd16; trans_shsub16; trans_umaal; trans_uxtab16; trans_usubaddx; 
   trans_usub8; trans_usub16; trans_usat16; trans_usada8; trans_uqsubaddx; trans_uqsub8; 
   trans_uqsub16; trans_uqaddsubx; trans_uqadd8; trans_uqadd16; trans_sxtab; trans_uhsubaddx; 
   trans_uhsub8; trans_uhsub16; trans_uhaddsubx; trans_uhadd8; trans_uhadd16; trans_uaddsubx; 
   trans_uadd8; trans_uadd16; trans_sxtah; trans_sxtab16; trans_qadd8; trans_bxj; trans_clz; 
   trans_uxtah; trans_bx; trans_rev; trans_blx; trans_revsh; trans_qadd; trans_qadd16; 
   trans_qaddsubx; trans_ldrex; trans_qdadd; trans_qdsub; trans_qsub; trans_ldrexb; trans_qsub8; 
   trans_qsub16; trans_smuad; trans_smmul; trans_smusd; trans_smlsd; trans_smlsld; trans_smmla; 
   trans_smmls; trans_smlald; trans_smlad; trans_smlaw; trans_smulw; trans_pkhtb; trans_pkhbt; 
   trans_smul; trans_smlalxy; trans_smla; trans_mcrr; trans_mrrc; trans_cmp; trans_tst; 
   trans_teq; trans_cmn; trans_smull; trans_umull; trans_umlal; trans_smlal; trans_mul; 
   trans_mla; trans_ssat; trans_usat; trans_mrs; trans_msr; trans_and; trans_bic; trans_ldm; 
   trans_eor; trans_add; trans_rsb; trans_rsc; trans_sbc; trans_adc; trans_sub; trans_orr; 
   trans_mvn; trans_mov; trans_stm; trans_ldm; trans_ldrsh; trans_stm; trans_ldm; trans_ldrsb; 
   trans_strd; trans_ldrh; trans_strh; trans_ldrd; trans_strt; trans_strbt; trans_ldrbt; 
   trans_ldrt; trans_mrc; trans_mcr; trans_msr; trans_msr; trans_msr; trans_msr; trans_msr; 
   trans_ldrb; trans_strb; trans_ldr; trans_ldrcond; trans_str; trans_cdp; trans_stc; trans_ldc; 
   trans_ldrexd; trans_strexd; trans_ldrexh; trans_strexh; trans_nop; trans_yield; trans_wfe; 
   trans_wfi; trans_sev; trans_swi; trans_bbl; trans_b_2_thumb; trans_b_cond_thumb; 
   trans_bl_1_thumb; trans_bl_2_thumb; trans_blx_1_thumb].

Definition arm_instruction_trans_len : Z := Z.of_nat (length arm_instruction_trans).
