(* ===== verification/ArmExec.v ===== *)
(** * ArmExec: arithmetic, branches and status instructions (core/arm/dyncom/arm_dyncom_interpreter.cpp)

    One definition per label of the main loop.  An instruction ends with a jump to
    [DISPATCH], with the next instruction of its block, or by leaving the loop. *)
From S2P Require Import Prelude ArmSupp ArmState ArmOperands ArmTrans.
From stdpp Require Import list.

Local Open Scope Z_scope.

Inductive next := DISPATCH | NEXT | RETURN.

#[export] Instance next_eq_dec : EqDecision next.
Proof. solve_decision. Defined.

Section Exec.
Context {mem : Type} `{MI : MemoryInterface mem}.

(** [cpu->Reg[15] += cpu->GetInstructionSize()] *)
Definition step_pc : M mem () :=
  pc ← get_reg 15; size ← gets GetInstructionSize; set_reg 15 (u32 (pc + size)).

(** The condition of an instruction, with the test for [AL] in front. *)
Definition cond_holds (i : arm_inst) : M mem bool :=
  match cond i with
  | None => fault Uninitialised
  | Some c => gets (fun s => (c =? AL) || CondPassed (status s) c)
  end.

(** The frame of most instructions: [body] tells whether it goes to [DISPATCH]. *)
Definition conditionally (i : arm_inst) (body : M mem bool) : M mem next :=
  b ← cond_holds i;
  jump ← (if (b : bool) then body else mret false);
  if (jump : bool) then mret DISPATCH else _ ← step_pc; mret NEXT.

(** A body that falls through. *)
Definition plainly (i : arm_inst) (body : M mem ()) : M mem next :=
  conditionally i (_ ← body; mret false).

(** Instructions without a condition. *)
Definition always (body : M mem ()) : M mem next := _ ← body; _ ← step_pc; mret NEXT.

(** The frame of branches: the loop dispatches whether they are taken or not. *)
Definition branch (i : arm_inst) (body : M mem ()) : M mem next :=
  b ← cond_holds i;
  _ ← (if (b : bool) then body else step_pc);
  mret DISPATCH.

(** [RN], the first operand of data processing instructions. *)
Definition RN15 (Rn : Z) : M mem Z :=
  v ← get_reg Rn; size ← gets GetInstructionSize;
  mret (if Rn =? 15 then u32 (v + 2 * size) else v).

Definition not32 (x : Z) : Z := Z.lxor x 0xFFFFFFFF.

(** ** Data processing *)

(** N and Z from the destination register. *)
Definition update_NZ (Rd : Z) : M mem () :=
  rd ← get_reg Rd; _ ← UPDATE_NFLAG rd; UPDATE_ZFLAG rd.

(** The saved status becomes the current one. *)
Definition restore_spsr : M mem () :=
  has ← gets CurrentModeHasSPSR;
  when has
    (spsr ← get_status Spsr_copy;
     _ ← set_Cpsr spsr;
     _ ← ChangePrivilegeMode (Z.land spsr 0x1F);
     LOAD_NZCVT).

(** After the result is written: the flags or, for R15, the saved status. *)
Definition alu_end (sf Rd : Z) (flags : M mem ()) : M mem bool :=
  _ ← (if truth sf && (Rd =? 15) then restore_spsr else when (truth sf) (_ ← update_NZ Rd; flags));
  mret (Rd =? 15).

Definition arith (i : arm_inst) (rn : Z -> M mem Z) (op : Z -> Z -> Z -> Z * bool * bool) : M mem next :=
  conditionally i
    match comp i with
    | alu_inst _ sf Rn Rd so f =>
        rn_val ← rn Rn;
        operand2 ← call_shtop f so;
        c ← get_status CFlag;
        let '(result, carry, overflow) := op rn_val operand2 c in
        _ ← set_reg Rd result;
        alu_end sf Rd (set_CV carry overflow)
    | _ => fault WrongComponent
    end.

Definition logic (i : arm_inst) (op : Z -> Z -> Z) : M mem next :=
  conditionally i
    match comp i with
    | alu_inst _ sf Rn Rd so f =>
        lop ← RN15 Rn;
        rop ← call_shtop f so;
        _ ← set_reg Rd (op lop rop);
        alu_end sf Rd UPDATE_CFLAG_WITH_SC
    | _ => fault WrongComponent
    end.

Definition ADC_INST (i : arm_inst) : M mem next := arith i RN15 (fun a b c => AddWithCarry a b c).
Definition ADD_INST (i : arm_inst) : M mem next := arith i CHECK_READ_REG15_WA (fun a b _ => AddWithCarry a b 0).
Definition RSB_INST (i : arm_inst) : M mem next := arith i RN15 (fun a b _ => AddWithCarry (not32 a) b 1).
Definition RSC_INST (i : arm_inst) : M mem next := arith i RN15 (fun a b c => AddWithCarry (not32 a) b c).
Definition SBC_INST (i : arm_inst) : M mem next := arith i RN15 (fun a b c => AddWithCarry a (not32 b) c).
Definition SUB_INST (i : arm_inst) : M mem next :=
  arith i CHECK_READ_REG15_WA (fun a b _ => AddWithCarry a (not32 b) 1).
Definition AND_INST (i : arm_inst) : M mem next := logic i Z.land.
Definition BIC_INST (i : arm_inst) : M mem next := logic i (fun a b => Z.land a (not32 b)).
Definition EOR_INST (i : arm_inst) : M mem next := logic i Z.lxor.
Definition ORR_INST (i : arm_inst) : M mem next := logic i Z.lor.

Definition move (i : arm_inst) (op : Z -> Z) : M mem next :=
  conditionally i
    match comp i with
    | mov_inst _ sf Rd so f =>
        v ← call_shtop f so;
        _ ← set_reg Rd (op v);
        alu_end sf Rd UPDATE_CFLAG_WITH_SC
    | _ => fault WrongComponent
    end.

Definition MOV_INST (i : arm_inst) : M mem next := move i (fun v => v).
Definition MVN_INST (i : arm_inst) : M mem next := move i not32.
Definition CPY_INST (i : arm_inst) : M mem next :=
  conditionally i
    match comp i with
    | mov_inst _ _ Rd so f => v ← call_shtop f so; _ ← set_reg Rd v; mret (Rd =? 15)
    | _ => fault WrongComponent
    end.

(** Comparisons. *)
Definition flags_of (result : Z) (flags : M mem ()) : M mem () :=
  _ ← UPDATE_NFLAG result; _ ← UPDATE_ZFLAG result; flags.

Definition compare (i : arm_inst) (op : Z -> Z -> Z * bool * bool) : M mem next :=
  plainly i
    match comp i with
    | cmp_inst _ Rn so f =>
        rn_val ← RN15 Rn;
        operand2 ← call_shtop f so;
        let '(result, carry, overflow) := op rn_val operand2 in
        flags_of result (set_CV carry overflow)
    | _ => fault WrongComponent
    end.

Definition CMN_INST (i : arm_inst) : M mem next := compare i (fun a b => AddWithCarry a b 0).
Definition CMP_INST (i : arm_inst) : M mem next := compare i (fun a b => AddWithCarry a (not32 b) 1).

Definition TEQ_INST (i : arm_inst) : M mem next :=
  plainly i
    match comp i with
    | cmp_inst _ Rn so f =>
        lop ← RN15 Rn; rop ← call_shtop f so; flags_of (Z.lxor lop rop) UPDATE_CFLAG_WITH_SC
    | _ => fault WrongComponent
    end.
Definition TST_INST (i : arm_inst) : M mem next :=
  plainly i
    match comp i with
    | alu_inst _ _ Rn _ so f =>
        lop ← RN15 Rn; rop ← call_shtop f so; flags_of (Z.land lop rop) UPDATE_CFLAG_WITH_SC
    | _ => fault WrongComponent
    end.

(** ** Branches *)

Definition BBL_INST (i : arm_inst) : M mem next :=
  branch i
    match comp i with
    | bbl_inst L signed_immed_24 =>
        pc ← get_reg 15;
        _ ← when (truth L) (set_reg 14 (u32 (pc + 4)));
        set_reg 15 (u32 (pc + 8 + signed_immed_24))
    | _ => fault WrongComponent
    end.

Definition BLX_INST (i : arm_inst) : M mem next :=
  branch i
    match comp i with
    | blx_inst val inst =>
        if (BITS inst 20 27 =? 0x12) && (BITS inst 4 7 =? 0x3) then
          jump_address ← get_reg val;
          pc ← get_reg 15; size ← gets GetInstructionSize; t ← get_status TFlag;
          let link := u32 (pc + size) in
          _ ← set_reg 14 (if truth t then Z.lor link 1 else link);
          _ ← set_reg 15 (Z.land jump_address 0xfffffffe);
          set_TFlag (Z.land jump_address 1)
        else
          pc ← get_reg 15; size ← gets GetInstructionSize;
          _ ← set_reg 14 (u32 (pc + size));
          _ ← set_TFlag 1;
          let signed_int := if truth (Z.land val 0x800000) then Z.lor 0x3F000000 val else val in
          let signed_int := s32 (Z.shiftl signed_int 2) in
          set_reg 15 (u32 (pc + 8 + signed_int + Z.shiftl (BIT inst 24) 1))
    | _ => fault WrongComponent
    end.

(** [BX] and [BXJ] *)
Definition BX_INST (i : arm_inst) : M mem next :=
  branch i
    match comp i with
    | bx_inst Rm =>
        address ← RN15 Rm;
        _ ← set_TFlag (Z.land address 1);
        set_reg 15 (Z.land address 0xfffffffe)
    | _ => fault WrongComponent
    end.

Definition B_2_THUMB (i : arm_inst) : M mem next :=
  match comp i with
  | thumb_inst imm => pc ← get_reg 15; _ ← set_reg 15 (u32 (pc + 4 + imm)); mret DISPATCH
  | _ => fault WrongComponent
  end.
Definition B_COND_THUMB (i : arm_inst) : M mem next :=
  match comp i with
  | b_cond_thumb imm c =>
      pc ← get_reg 15;
      b ← gets (fun s => CondPassed (status s) c);
      _ ← set_reg 15 (u32 (if (b : bool) then pc + 4 + imm else pc + 2));
      mret DISPATCH
  | _ => fault WrongComponent
  end.
Definition BL_1_THUMB (i : arm_inst) : M mem next :=
  match comp i with
  | thumb_inst imm => always (pc ← get_reg 15; set_reg 14 (u32 (pc + 4 + imm)))
  | _ => fault WrongComponent
  end.
Definition BL_2_THUMB (i : arm_inst) : M mem next :=
  match comp i with
  | thumb_inst imm =>
      pc ← get_reg 15;
      lr ← get_reg 14;
      _ ← set_reg 15 (u32 (lr + imm));
      _ ← set_reg 14 (Z.lor (u32 (pc + 2)) 1);
      mret DISPATCH
  | _ => fault WrongComponent
  end.
Definition BLX_1_THUMB (i : arm_inst) : M mem next :=
  match comp i with
  | blx_1_thumb imm _ =>
      tmp ← get_reg 15;
      lr ← get_reg 14;
      _ ← set_reg 15 (Z.land (u32 (lr + imm)) 0xFFFFFFFC);
      _ ← set_reg 14 (Z.lor (u32 (tmp + 2)) 1);
      _ ← set_TFlag 0;
      mret DISPATCH
  | _ => fault WrongComponent
  end.

(** ** Hints and instructions without an effect *)

(** [BKPT], [MCRR], [MRRC], [SEV], [WFE], [WFI], [YIELD]: a message at most. *)
Definition HINT_INST (i : arm_inst) : M mem next := plainly i (mret ()).
(** [LDC], [STC], [PLD], [NOP] *)
Definition NOP_INST : M mem next := always (mret ()).

(** An undefined instruction leaves the loop. *)
Definition CDP_INST (i : arm_inst) : M mem next :=
  b ← cond_holds i;
  if (b : bool) then _ ← modify (with_NumInstrsToExecute 0); mret RETURN else _ ← step_pc; mret NEXT.

Definition CLREX_INST : M mem next := always UnsetExclusiveMemoryAddress.

Definition SETEND_INST (i : arm_inst) : M mem next :=
  always
    match comp i with
    | setend_inst set_bigend =>
        c ← get_status Cpsr;
        set_Cpsr (if set_bigend =? 1 then Z.lor c (Z.shiftl 1 9) else Z.land c (not32 (Z.shiftl 1 9)))
    | _ => fault WrongComponent
    end.

(** ** Status registers *)

Definition CPS_INST (i : arm_inst) : M mem next :=
  always
    match comp i with
    | cps_inst imod0 imod1 mmod a_ i_ f_ mode =>
        privileged ← gets InAPrivilegedMode;
        when privileged
          (_ ← when (truth imod1)
             (let bit (x k : Z) := if truth x then Z.shiftl imod0 k else 0 in
              let mask (x k : Z) := if truth x then Z.shiftl 1 k else 0 in
              let aif_val := Z.lor (Z.lor (bit a_ 8) (bit i_ 7)) (bit f_ 6) in
              let aif_mask := not32 (Z.lor (Z.lor (mask a_ 8) (mask i_ 7)) (mask f_ 6)) in
              c ← get_status Cpsr;
              set_Cpsr (Z.lor (Z.land c aif_mask) aif_val));
           when (truth mmod)
             (c ← get_status Cpsr;
              _ ← set_Cpsr (Z.lor (Z.land c 0xffffffe0) mode);
              ChangePrivilegeMode mode))
    | _ => fault WrongComponent
    end.

Definition MRS_INST (i : arm_inst) : M mem next :=
  plainly i
    match comp i with
    | mrs_inst Rd R =>
        if truth R then v ← get_status Spsr_copy; set_reg Rd v
        else _ ← SAVE_NZCVT; v ← get_status Cpsr; set_reg Rd v
    | _ => fault WrongComponent
    end.

Definition UserMask := 0xf80f0200.
Definition PrivMask := 0x000001df.
Definition StateMask := 0x01000020.

(** The bytes that bits 16 to 19 select. *)
Definition byte_mask (inst : Z) : Z :=
  Z.lor (Z.lor (Z.lor (if truth (BIT inst 16) then 0xff else 0) (if truth (BIT inst 17) then 0xff00 else 0))
    (if truth (BIT inst 18) then 0xff0000 else 0)) (if truth (BIT inst 19) then 0xff000000 else 0).

Definition merge (old new mask : Z) : Z := Z.lor (Z.land old (not32 mask)) (Z.land new mask).

Definition MSR_INST (i : arm_inst) : M mem next :=
  plainly i
    match comp i with
    | msr_inst _ R inst =>
        operand ← (if truth (BIT inst 25)
                   then mret (ROTATE_RIGHT_32 (BITS inst 0 7) (BITS inst 8 11 * 2))
                   else get_reg (BITS inst 0 3));
        if negb (truth R) then
          privileged ← gets InAPrivilegedMode;
          let mask :=
            if (privileged : bool) then
              if negb (Z.land operand StateMask =? 0) then 0
              else Z.land (byte_mask inst) (Z.lor UserMask PrivMask)
            else Z.land (byte_mask inst) UserMask in
          _ ← SAVE_NZCVT;
          c ← get_status Cpsr;
          _ ← set_Cpsr (merge c operand mask);
          _ ← ChangePrivilegeMode (Z.land (merge c operand mask) 0x1F);
          LOAD_NZCVT
        else
          has ← gets CurrentModeHasSPSR;
          when has
            (let mask := Z.land (byte_mask inst) (Z.lor (Z.lor UserMask PrivMask) StateMask) in
             on_status (fun p => with_Spsr_copy (merge (Spsr_copy p) operand mask) p))
    | _ => fault WrongComponent
    end.

Definition MRC_INST (i : arm_inst) : M mem next :=
  plainly i
    match comp i with
    | mcr_inst crn crm op1 op2 Rd cp_num _ =>
        when (cp_num =? 15)
          (value ← ReadCP15Register crn op1 crm op2;
           if Rd =? 15 then
             c ← get_status Cpsr;
             _ ← set_Cpsr (merge c value 0xF0000000);
             LOAD_NZCVT
           else set_reg Rd value)
    | _ => fault WrongComponent
    end.

Definition MCR_INST (i : arm_inst) : M mem next :=
  plainly i
    match comp i with
    | mcr_inst crn crm op1 op2 Rd cp_num _ =>
        when (negb (Rd =? 15) && (cp_num =? 15))
          (rd ← get_reg Rd; WriteCP15Register rd crn op1 crm op2)
    | _ => fault WrongComponent
    end.

(** ** Multiplication *)

(** N and Z of a 32-bit product. *)
Definition mul_flags (sf Rd : Z) : M mem () := when (truth sf) (update_NZ Rd).

Definition MUL_INST (i : arm_inst) : M mem next :=
  plainly i
    match comp i with
    | mul_inst sf Rm Rs Rd =>
        rm ← get_reg Rm; rs ← get_reg Rs;
        _ ← set_reg Rd (Z.land (u64 (rm * rs)) 0xffffffff);
        mul_flags sf Rd
    | _ => fault WrongComponent
    end.
Definition MLA_INST (i : arm_inst) : M mem next :=
  plainly i
    match comp i with
    | mla_inst sf Rn Rd Rs Rm =>
        rm ← get_reg Rm; rs ← get_reg Rs; rn ← get_reg Rn;
        _ ← set_reg Rd (Z.land (u64 (u64 (rm * rs) + rn)) 0xffffffff);
        mul_flags sf Rd
    | _ => fault WrongComponent
    end.

(** A half of a register, sign extended to a word. *)
Definition half (top v : Z) : Z :=
  if top =? 0 then if truth (BIT v 15) then Z.lor (BITS v 0 15) 0xffff0000 else BITS v 0 15
  else if truth (BIT v 31) then Z.lor (BITS v 16 31) 0xffff0000 else BITS v 16 31.

Definition SMLA_INST (i : arm_inst) : M mem next :=
  plainly i
    match comp i with
    | smla_inst x_ y_ Rm Rs Rd Rn =>
        rm ← get_reg Rm; rs ← get_reg Rs; rn ← get_reg Rn;
        let product := u32 (s32 (half x_ rm) * s32 (half y_ rs)) in
        let result := u32 (product + rn) in
        _ ← when (AddOverflow product rn result) set_Q;
        set_reg Rd result
    | _ => fault WrongComponent
    end.
Definition SMUL_INST (i : arm_inst) : M mem next :=
  plainly i
    match comp i with
    | smul_inst Rd Rs Rm x_ y_ =>
        rm ← get_reg Rm; rs ← get_reg Rs;
        set_reg Rd (u32 (half x_ rm * half y_ rs))
    | _ => fault WrongComponent
    end.

Definition lo16 (v : Z) : Z := Z.land v 0xFFFF.
Definition hi16 (v : Z) : Z := Z.land (Z.shiftr v 16) 0xFFFF.
Definition swap_halves (v : Z) : Z := Z.lor (u32 (Z.shiftl (Z.land v 0xFFFF) 16)) (Z.shiftr v 16).

(** [SMLAD], [SMLSD], [SMUAD], [SMUSD] *)
Definition SMLAD_INST (i : arm_inst) : M mem next :=
  plainly i
    match comp i with
    | smlad_inst m Rn Rm Rd Ra _ op2 =>
        rm ← get_reg Rm; rn ← get_reg Rn;
        let rm_val := if truth m then swap_halves rm else rm in
        let product1 := u32 (s16 (lo16 rn) * s16 (lo16 rm_val)) in
        let product2 := u32 (s16 (hi16 rn) * s16 (hi16 rm_val)) in
        let plus := BIT op2 1 =? 0 in
        let rd_val := if plus then u32 (product1 + product2) else u32 (product1 - product2) in
        rd ← (if negb (Ra =? 15) then
                ra ← get_reg Ra;
                _ ← when (ARMul_AddOverflowQ rd_val ra) set_Q;
                mret (u32 (rd_val + ra))
              else mret rd_val);
        _ ← set_reg Rd rd;
        when (plus && ARMul_AddOverflowQ product1 product2) set_Q
    | _ => fault WrongComponent
    end.

(** The two halves of a 64-bit result; [hi_first] as the code orders the writes. *)
Definition set_pair (hi_first : bool) (RdHi RdLo v : Z) : M mem () :=
  let hi := set_reg RdHi (u32 (Z.shiftr v 32)) in
  let lo := set_reg RdLo (u32 v) in
  if hi_first then _ ← hi; lo else _ ← lo; hi.
Definition get_pair (RdHi RdLo : Z) : M mem Z :=
  hi ← get_reg RdHi; lo ← get_reg RdLo; mret (u64 (Z.shiftl hi 32 + lo)).
Definition long_flags (sf RdHi RdLo : Z) : M mem () :=
  when (truth sf)
    (hi ← get_reg RdHi; lo ← get_reg RdLo;
     on_status (fun p => with_ZFlag (Z.b2z ((hi =? 0) && (lo =? 0))) (with_NFlag (BIT hi 31) p))).

Definition SMLAL_INST (i : arm_inst) : M mem next :=
  plainly i
    match comp i with
    | mull_inst sf Rm Rs RdHi RdLo =>
        rm ← get_reg Rm; rs ← get_reg Rs;
        acc ← get_pair RdHi RdLo;
        _ ← set_pair false RdHi RdLo (s64 (s32 rm * s32 rs + s64 acc));
        long_flags sf RdHi RdLo
    | _ => fault WrongComponent
    end.
Definition SMULL_INST (i : arm_inst) : M mem next :=
  plainly i
    match comp i with
    | mull_inst sf Rm Rs RdHi RdLo =>
        rm ← get_reg Rm; rs ← get_reg Rs;
        _ ← set_pair true RdHi RdLo (s64 (s32 rm * s32 rs));
        long_flags sf RdHi RdLo
    | _ => fault WrongComponent
    end.
Definition UMLAL_INST (i : arm_inst) : M mem next :=
  plainly i
    match comp i with
    | mull_inst sf Rm Rs RdHi RdLo =>
        rm ← get_reg Rm; rs ← get_reg Rs;
        acc ← get_pair RdHi RdLo;
        _ ← set_pair false RdHi RdLo (u64 (u64 (rm * rs) + acc));
        long_flags sf RdHi RdLo
    | _ => fault WrongComponent
    end.
Definition UMULL_INST (i : arm_inst) : M mem next :=
  plainly i
    match comp i with
    | mull_inst sf Rm Rs RdHi RdLo =>
        rm ← get_reg Rm; rs ← get_reg Rs;
        _ ← set_pair true RdHi RdLo (u64 (rm * rs));
        long_flags sf RdHi RdLo
    | _ => fault WrongComponent
    end.
Definition UMAAL_INST (i : arm_inst) : M mem next :=
  plainly i
    match comp i with
    | umaal_inst Rm Rn RdLo RdHi =>
        rm ← get_reg Rm; rn ← get_reg Rn; lo ← get_reg RdLo; hi ← get_reg RdHi;
        set_pair false RdHi RdLo (u64 (u64 (u64 (rm * rn) + lo) + hi))
    | _ => fault WrongComponent
    end.

(** A half as a 64-bit operand. *)
Definition half64 (top v : Z) : Z :=
  let o := Z.land (if truth top then Z.shiftr v 16 else v) 0xFFFF in
  if truth (Z.land o 0x8000) then u64 (o - 65536) else o.

Definition SMLALXY_INST (i : arm_inst) : M mem next :=
  plainly i
    match comp i with
    | smlalxy_inst x_ y_ RdLo RdHi Rn Rm =>
        rn ← get_reg Rn; rm ← get_reg Rm;
        acc ← get_pair RdHi RdLo;
        set_pair false RdHi RdLo (u64 (acc + u64 (half64 x_ rn * half64 y_ rm)))
    | _ => fault WrongComponent
    end.

Definition SMLAW_INST (i : arm_inst) : M mem next :=
  plainly i
    match comp i with
    | smlaw_inst Ra Rm Rn Rd m =>
        rm ← get_reg Rm; rn ← get_reg Rn; ra ← get_reg Ra;
        let operand2 := s16 (if m =? 1 then hi16 rm else lo16 rm) in
        let result := s64 (s32 rn * operand2 + Z.shiftl (s32 ra) 16) in
        let rd := u32 (Z.shiftr result 16) in
        _ ← set_reg Rd rd;
        when (negb (Z.shiftr result 16 =? s32 rd)) set_Q
    | _ => fault WrongComponent
    end.
Definition SMULW_INST (i : arm_inst) : M mem next :=
  plainly i
    match comp i with
    | smulw_inst m Rm Rn Rd =>
        rm ← get_reg Rm; rn ← get_reg Rn;
        set_reg Rd (u32 (Z.shiftr (s16 (if m =? 1 then hi16 rm else lo16 rm) * s32 rn) 16))
    | _ => fault WrongComponent
    end.

(** [SMLALD], [SMLSLD]: the sum of the products is computed in 32 bits. *)
Definition SMLALD_INST (i : arm_inst) : M mem next :=
  plainly i
    match comp i with
    | smlald_inst Rm Rn RdLo RdHi swap _ op2 =>
        acc ← get_pair RdHi RdLo;
        rn ← get_reg Rn; rm ← get_reg Rm;
        let rm_val := if swap =? 1 then swap_halves rm else rm in
        let product1 := s16 (lo16 rn) * s16 (lo16 rm_val) in
        let product2 := s16 (hi16 rn) * s16 (hi16 rm_val) in
        let sum := s32 (if BIT op2 1 =? 0 then product1 + product2 else product1 - product2) in
        set_pair false RdHi RdLo (s64 (sum + s64 acc))
    | _ => fault WrongComponent
    end.

(** [SMMLA], [SMMLS], [SMMUL] *)
Definition SMMLA_INST (i : arm_inst) : M mem next :=
  plainly i
    match comp i with
    | smlad_inst m Rn Rm Rd Ra _ op2 =>
        rm ← get_reg Rm; rn ← get_reg Rn;
        let product := s32 rn * s32 rm in
        result ← (if negb (Ra =? 15) then
                    ra ← get_reg Ra;
                    let acc := s64 (Z.shiftl ra 32) in
                    mret (s64 (if BIT op2 1 =? 0 then product + acc else acc - product))
                  else mret product);
        let result := if m =? 1 then s64 (result + 0x80000000) else result in
        set_reg Rd (u32 (Z.shiftr result 32))
    | _ => fault WrongComponent
    end.

End Exec.
