(* ===== verification/ArmMedia.v ===== *)
(** * ArmMedia: parallel arithmetic, saturation, extension and packing (core/arm/dyncom/arm_dyncom_interpreter.cpp) *)
From S2P Require Import Prelude ArmSupp ArmState ArmOperands ArmTrans ArmExec.
From stdpp Require Import list.

Local Open Scope Z_scope.

Section Media.
Context {mem : Type} `{MI : MemoryInterface mem}.

(** The bytes of a word. *)
Definition byte (v k : Z) : Z := Z.land (Z.shiftr v (8 * k)) 0xFF.
Definition halves (lo hi : Z) : Z := Z.lor (Z.land lo 0xFFFF) (u32 (Z.shiftl (Z.land hi 0xFFFF) 16)).
Definition bytes4 (b0 b1 b2 b3 : Z) : Z :=
  Z.lor (Z.lor (Z.lor (Z.land b0 0xFF) (u32 (Z.shiftl (Z.land b1 0xFF) 8))) (u32 (Z.shiftl (Z.land b2 0xFF) 16)))
    (u32 (Z.shiftl (Z.land b3 0xFF) 24)).

(** One bit of the status word: the GE flags are bits 16 to 19. *)
Definition put_bit (k : Z) (b : bool) (c : Z) : Z :=
  if b then Z.lor c (Z.shiftl 1 k) else Z.land c (not32 (Z.shiftl 1 k)).
Definition set_GE (g0 g1 g2 g3 : bool) : M mem () :=
  c ← get_status Cpsr; set_Cpsr (put_bit 19 g3 (put_bit 18 g2 (put_bit 17 g1 (put_bit 16 g0 c)))).

(** ** Saturating arithmetic *)

(** The sticky flag and the bound, when [overflow]. *)
Definition saturate (overflow : bool) (result : Z) : M mem Z :=
  _ ← when overflow set_Q;
  mret (if overflow then if truth (POS result) then 0x80000000 else 0x7FFFFFFF else result).

(** [QADD], [QSUB], [QDADD], [QDSUB] *)
Definition QADD_INST (i : arm_inst) : M mem next :=
  plainly i
    match comp i with
    | qadd_inst op1 Rm Rn Rd =>
        rm ← get_reg Rm; rn ← get_reg Rn;
        let double := u32 (rn * 2) in
        result ← (if op1 =? 0 then saturate (AddOverflow rm rn (u32 (rm + rn))) (u32 (rm + rn))
                  else if op1 =? 1 then saturate (SubOverflow rm rn (u32 (rm - rn))) (u32 (rm - rn))
                  else if op1 =? 2 then
                    mul ← saturate (AddOverflow rn rn double) double;
                    saturate (AddOverflow rm mul (u32 (mul + rm))) (u32 (mul + rm))
                  else if op1 =? 3 then
                    mul ← saturate (AddOverflow rn rn double) double;
                    saturate (SubOverflow rm mul (u32 (rm - mul))) (u32 (rm - mul))
                  else mret 0);
        set_reg Rd result
    | _ => fault WrongComponent
    end.

(** The four arrangements of the halves: add, add and subtract exchanged, subtract and
    add exchanged, subtract. *)
Definition on_halves {A} (add sub : Z -> Z -> A) (op2 n m : Z) : A * A :=
  if op2 =? 0 then (add (lo16 n) (lo16 m), add (hi16 n) (hi16 m))
  else if op2 =? 1 then (sub (lo16 n) (hi16 m), add (hi16 n) (lo16 m))
  else if op2 =? 2 then (add (lo16 n) (hi16 m), sub (hi16 n) (lo16 m))
  else (sub (lo16 n) (lo16 m), sub (hi16 n) (hi16 m)).

(** An operation on the four bytes, as two 16-bit results. *)
Definition on_bytes (op : Z -> Z -> Z) (n m : Z) : Z * Z :=
  (Z.lor (op (byte n 0) (byte m 0)) (Z.shiftl (op (byte n 1) (byte m 1)) 8),
   Z.lor (op (byte n 2) (byte m 2)) (Z.shiftl (op (byte n 3) (byte m 3)) 8)).

Definition parallel (i : arm_inst) (op : Z -> Z -> Z -> M mem (option Z)) : M mem next :=
  plainly i
    match comp i with
    | parallel_inst Rm Rn Rd _ op2 =>
        rm ← get_reg Rm; rn ← get_reg Rn;
        result ← op op2 rn rm;
        match result with Some v => set_reg Rd v | None => mret () end
    | _ => fault WrongComponent
    end.

(** [QADD8], [QADD16], [QADDSUBX], [QSUB8], [QSUB16], [QSUBADDX] *)
Definition QADD8_INST (i : arm_inst) : M mem next :=
  parallel i (fun op2 n m =>
    let '(lo, hi) :=
      if (op2 =? 0) || (op2 =? 1) || (op2 =? 2) || (op2 =? 3) then
        on_halves ARMul_SignedSaturatedAdd16 ARMul_SignedSaturatedSub16 op2 n m
      else if op2 =? 4 then on_bytes ARMul_SignedSaturatedAdd8 n m
      else if op2 =? 7 then on_bytes ARMul_SignedSaturatedSub8 n m
      else (0, 0) in
    mret (Some (halves lo hi))).

(** [UQADD8] and the others; every other code is the subtraction of bytes. *)
Definition UQADD8_INST (i : arm_inst) : M mem next :=
  parallel i (fun op2 n m =>
    let '(lo, hi) :=
      if (op2 =? 0) || (op2 =? 1) || (op2 =? 2) || (op2 =? 3) then
        on_halves ARMul_UnsignedSaturatedAdd16 ARMul_UnsignedSaturatedSub16 op2 n m
      else if op2 =? 4 then on_bytes ARMul_UnsignedSaturatedAdd8 n m
      else on_bytes ARMul_UnsignedSaturatedSub8 n m in
    mret (Some (halves lo hi))).

(** ** Parallel addition and subtraction *)

(** [SADD8], [SSUB8], [SADD16], [SADDSUBX], [SSUBADDX], [SSUB16] *)
Definition SADD8_INST (i : arm_inst) : M mem next :=
  parallel i (fun op2 n m =>
    if (op2 =? 0) || (op2 =? 1) || (op2 =? 2) || (op2 =? 3) then
      let '(lo, hi) := on_halves (fun a b => s16 a + s16 b) (fun a b => s16 a - s16 b) op2 n m in
      _ ← set_GE (0 <=? lo) (0 <=? lo) (0 <=? hi) (0 <=? hi);
      mret (Some (halves lo hi))
    else if (op2 =? 4) || (op2 =? 7) then
      let op a b := if op2 =? 4 then s8 a + s8 b else s8 a - s8 b in
      let v k := op (byte n k) (byte m k) in
      _ ← set_GE (0 <=? v 0) (0 <=? v 1) (0 <=? v 2) (0 <=? v 3);
      mret (Some (bytes4 (v 0) (v 1) (v 2) (v 3)))
    else mret None).

(** [UADD8], [UADD16], [UADDSUBX], [USUB8], [USUB16], [USUBADDX] *)
Definition UADD8_INST (i : arm_inst) : M mem next :=
  parallel i (fun op2 n m =>
    if (op2 =? 0) || (op2 =? 1) || (op2 =? 2) || (op2 =? 3) then
      let '((lo, g_lo), (hi, g_hi)) :=
        on_halves (fun a b => (a + b, 0x10000 <=? a + b)) (fun a b => (a - b, 0 <=? a - b)) op2 n m in
      _ ← set_GE g_lo g_lo g_hi g_hi;
      mret (Some (halves lo hi))
    else if op2 =? 4 then
      let sum k := byte n k + byte m k in
      _ ← set_GE (0x100 <=? sum 0) (0x100 <=? sum 1) (0x100 <=? sum 2) (0x100 <=? sum 3);
      mret (Some (bytes4 (sum 0) (sum 1) (sum 2) (sum 3)))
    else if op2 =? 7 then
      let diff k := byte n k - byte m k in
      _ ← set_GE (0 <=? diff 0) (0 <=? diff 1) (0 <=? diff 2) (0 <=? diff 3);
      mret (Some (bytes4 (diff 0) (diff 1) (diff 2) (diff 3)))
    else mret (Some 0)).

(** [SHADD8] and the others: halved signed results. *)
Definition SHADD8_INST (i : arm_inst) : M mem next :=
  parallel i (fun op2 n m =>
    if (op2 =? 0) || (op2 =? 1) || (op2 =? 2) || (op2 =? 3) then
      let '(lo, hi) := on_halves (fun a b => Z.shiftr (s16 a + s16 b) 1)
                                 (fun a b => Z.shiftr (s16 a - s16 b) 1) op2 n m in
      mret (Some (halves lo hi))
    else if (op2 =? 4) || (op2 =? 7) then
      let v k := Z.shiftr (if op2 =? 4 then s8 (byte n k) + s8 (byte m k)
                           else s8 (byte n k) - s8 (byte m k)) 1 in
      mret (Some (bytes4 (v 0) (v 1) (v 2) (v 3)))
    else mret None).

(** [UHADD8] and the others: halved unsigned results, of 32-bit sums and differences. *)
Definition UHADD8_INST (i : arm_inst) : M mem next :=
  parallel i (fun op2 n m =>
    if (op2 =? 0) || (op2 =? 1) || (op2 =? 2) || (op2 =? 3) then
      let '(lo, hi) := on_halves (fun a b => Z.shiftr (u32 (a + b)) 1)
                                 (fun a b => Z.shiftr (u32 (a - b)) 1) op2 n m in
      mret (Some (halves lo hi))
    else if (op2 =? 4) || (op2 =? 7) then
      let v k := Z.shiftr (u32 (if op2 =? 4 then byte n k + byte m k else byte n k - byte m k)) 1 in
      mret (Some (bytes4 (v 0) (v 1) (v 2) (v 3)))
    else mret None).

Definition SEL_INST (i : arm_inst) : M mem next :=
  parallel i (fun _ from to =>
    c ← get_status Cpsr;
    let pick k mask := Z.land (if truth (Z.land c (Z.shiftl 1 k)) then from else to) mask in
    mret (Some (Z.lor (Z.lor (Z.lor (pick 16 0xff) (pick 17 0x0000ff00)) (pick 18 0x00ff0000))
                  (pick 19 0xff000000)))).

(** [USAD8], [USADA8] *)
Definition USAD8_INST (i : arm_inst) : M mem next :=
  plainly i
    match comp i with
    | usada8_inst _ _ Rd Rm Rn Ra =>
        rm ← get_reg Rm; rn ← get_reg Rn;
        let diff k := ARMul_UnsignedAbsoluteDifference (byte rn k) (byte rm k) in
        let finalDif := diff 0 + diff 1 + diff 2 + diff 3 in
        v ← (if negb (Ra =? 15) then ra ← get_reg Ra; mret (u32 (finalDif + ra)) else mret finalDif);
        set_reg Rd v
    | _ => fault WrongComponent
    end.

(** ** Saturation to a width *)

(** The shifted operand: an arithmetic shift by 0 stands for 32. *)
Definition sat_operand (shift_type imm5 rn : Z) : Z :=
  let shift_amount := if (shift_type =? 1) && (imm5 =? 0) then 31 else imm5 in
  if shift_type =? 0 then u32 (Z.shiftl rn shift_amount)
  else if shift_type =? 1 then asr32 rn shift_amount else rn.

Definition sat (i : arm_inst) (satq : Z -> Z -> Z * bool) : M mem next :=
  plainly i
    match comp i with
    | ssat_inst Rn Rd imm5 sat_imm shift_type =>
        rn ← get_reg Rn;
        let '(v, saturated) := satq (s32 (sat_operand shift_type imm5 rn)) sat_imm in
        _ ← when saturated set_Q;
        set_reg Rd v
    | _ => fault WrongComponent
    end.

Definition sat_halves (i : arm_inst) (satq : Z -> Z -> Z * bool) : M mem next :=
  plainly i
    match comp i with
    | ssat16_inst Rn Rd sat_imm =>
        rn ← get_reg Rn;
        let '(lo, sat1) := satq (s16 (lo16 rn)) sat_imm in
        let '(hi, sat2) := satq (Z.shiftr (s32 rn) 16) sat_imm in
        _ ← set_reg Rd (Z.lor (Z.land lo 0xFFFF) (u32 (Z.shiftl hi 16)));
        when (sat1 || sat2) set_Q
    | _ => fault WrongComponent
    end.

Definition SSAT_INST (i : arm_inst) : M mem next := sat i ARMul_SignedSatQ.
Definition USAT_INST (i : arm_inst) : M mem next := sat i ARMul_UnsignedSatQ.
Definition SSAT16_INST (i : arm_inst) : M mem next := sat_halves i ARMul_SignedSatQ.
Definition USAT16_INST (i : arm_inst) : M mem next := sat_halves i ARMul_UnsignedSatQ.

(** ** Extension *)

Definition extend (i : arm_inst) (f : Z -> Z) : M mem next :=
  plainly i
    match comp i with
    | extend_inst Rd Rm rotate => rm ← get_reg Rm; set_reg Rd (f (ROTATE_RIGHT_32 rm (8 * rotate)))
    | _ => fault WrongComponent
    end.

Definition SXTH_INST (i : arm_inst) : M mem next :=
  extend i (fun v => if truth (BIT v 15) then Z.lor v 0xffff0000 else Z.land v 0xffff).
Definition SXTB_INST (i : arm_inst) : M mem next :=
  extend i (fun v => if truth (BIT v 7) then Z.lor v 0xffffff00 else Z.land v 0xff).
Definition UXTH_INST (i : arm_inst) : M mem next := extend i (fun v => Z.land v 0xffff).
Definition UXTB_INST (i : arm_inst) : M mem next := extend i (fun v => Z.land v 0xff).

Definition extend_add (i : arm_inst) (f : Z -> Z) : M mem next :=
  plainly i
    match comp i with
    | extend_add_inst Rd Rn Rm rotate =>
        rm ← get_reg Rm; rn ← get_reg Rn;
        set_reg Rd (u32 (rn + f (ROTATE_RIGHT_32 rm (8 * rotate))))
    | _ => fault WrongComponent
    end.

Definition UXTAH_INST (i : arm_inst) : M mem next := extend_add i (fun v => Z.land v 0xffff).
Definition UXTAB_INST (i : arm_inst) : M mem next := extend_add i (fun v => Z.land v 0xff).
Definition SXTAH_INST (i : arm_inst) : M mem next :=
  extend_add i (fun v => let o := Z.land v 0xffff in
                         if truth (Z.land 0x8000 o) then Z.lor 0xFFFF0000 o else o).
Definition SXTAB_INST (i : arm_inst) : M mem next :=
  extend_add i (fun v => let o := Z.land v 0xff in
                         if truth (Z.land 0x80 o) then Z.lor 0xFFFFFF00 o else o).

(** [SXTAB16], [SXTB16]: a first operand of R15 stands for none. *)
Definition SXTAB16_INST (i : arm_inst) : M mem next :=
  plainly i
    match comp i with
    | extend_add_inst Rd Rn Rm rotate =>
        rm ← get_reg Rm; rn ← get_reg Rn;
        let rotation := u8 (rotate * 8) in
        let rm_val := if truth rotation then Z.lor (shl32 rm (32 - rotation)) (shr32 rm rotation) else rm in
        let lo_m := u32 (s8 (Z.land rm_val 0xFF)) in
        let hi_m := u32 (s8 (Z.land (Z.shiftr rm_val 16) 0xFF)) in
        let lo := if Rn =? 15 then lo_m else u32 (rn + lo_m) in
        let hi := if Rn =? 15 then hi_m else u32 (Z.shiftr rn 16 + hi_m) in
        set_reg Rd (Z.lor (Z.land lo 0xFFFF) (u32 (Z.shiftl hi 16)))
    | _ => fault WrongComponent
    end.

(** [UXTAB16], [UXTB16] *)
Definition UXTAB16_INST (i : arm_inst) : M mem next :=
  plainly i
    match comp i with
    | extend_add_inst Rd Rn Rm rotate =>
        rm ← get_reg Rm; rn ← get_reg Rn;
        let rotated_rm := ROTATE_RIGHT_32 rm (rotate * 8) in
        set_reg Rd
          (if Rn =? 15 then Z.land rotated_rm 0x00FF00FF
           else
             let lo_result := u16 (Z.land rn 0xFFFF + Z.land rotated_rm 0xFF) in
             let hi_result := u16 (Z.shiftr rn 16 + Z.land (Z.shiftr rotated_rm 16) 0xFF) in
             Z.lor (u32 (Z.shiftl hi_result 16)) (Z.land lo_result 0xFFFF))
    | _ => fault WrongComponent
    end.

(** ** Packing, reversal, leading zeros *)

Definition PKHBT_INST (i : arm_inst) : M mem next :=
  plainly i
    match comp i with
    | pkh_inst Rd Rn Rm imm =>
        rn ← get_reg Rn; rm ← get_reg Rm;
        set_reg Rd (Z.lor (Z.land rn 0xFFFF) (Z.land (shl32 rm imm) 0xFFFF0000))
    | _ => fault WrongComponent
    end.
Definition PKHTB_INST (i : arm_inst) : M mem next :=
  plainly i
    match comp i with
    | pkh_inst Rd Rn Rm imm =>
        rn ← get_reg Rn; rm ← get_reg Rm;
        let shift_imm := if truth imm then imm else 31 in
        set_reg Rd (Z.lor (Z.land (Z.shiftr (s32 rm) shift_imm) 0xFFFF) (Z.land rn 0xFFFF0000))
    | _ => fault WrongComponent
    end.

Definition rev (v : Z) : Z :=
  Z.lor (Z.lor (Z.lor (u32 (Z.shiftl (Z.land v 0xFF) 24)) (u32 (Z.shiftl (Z.land (Z.shiftr v 8) 0xFF) 16)))
    (u32 (Z.shiftl (Z.land (Z.shiftr v 16) 0xFF) 8))) (Z.land (Z.shiftr v 24) 0xFF).
Definition rev16 (v : Z) : Z :=
  Z.lor (Z.lor (Z.lor (u32 (Z.shiftl (Z.land v 0xFF) 8)) (Z.shiftr (Z.land v 0xFF00) 8))
    (u32 (Z.shiftl (Z.land v 0xFF0000) 8))) (Z.shiftr (Z.land v 0xFF000000) 8).
Definition revsh (v : Z) : Z :=
  let r := Z.lor (u32 (Z.shiftl (Z.land v 0xFF) 8)) (Z.shiftr (Z.land v 0xFF00) 8) in
  if truth (Z.land r 0x8000) then Z.lor r 0xffff0000 else r.

(** [REV], [REV16], [REVSH] *)
Definition REV_INST (i : arm_inst) : M mem next :=
  plainly i
    match comp i with
    | rev_inst Rm Rd op1 op2 =>
        rm ← get_reg Rm;
        if (op1 =? 3) && (op2 =? 1) then set_reg Rd (rev rm)
        else if (op1 =? 3) && (op2 =? 5) then set_reg Rd (rev16 rm)
        else if (op1 =? 7) && (op2 =? 5) then set_reg Rd (revsh rm)
        else mret ()
    | _ => fault WrongComponent
    end.

(** One step of the search: [k] more zeros when the top [k] bits are clear. *)
Definition clz_step (k : Z) (nx : Z * Z) : Z * Z :=
  let '(n, x) := nx in
  if Z.shiftr x (32 - k) =? 0 then (n + k, u32 (Z.shiftl x k)) else (n, x).
Definition clz (v : Z) : Z :=
  if v =? 0 then 32
  else let '(n, v) := clz_step 2 (clz_step 4 (clz_step 8 (clz_step 16 (1, v)))) in n - Z.shiftr v 31.

Definition CLZ_INST (i : arm_inst) : M mem next :=
  plainly i
    match comp i with
    | clz_inst Rm Rd => rm ← get_reg Rm; set_reg Rd (u32 (clz rm))
    | _ => fault WrongComponent
    end.

End Media.
