(* ===== verification/ArmLdSt.v ===== *)
(** * ArmLdSt: loads and stores (core/arm/dyncom/arm_dyncom_interpreter.cpp) *)
From S2P Require Import Prelude ArmSupp ArmState ArmOperands ArmTrans ArmExec.
From stdpp Require Import list.

Local Open Scope Z_scope.

Section LoadStore.
Context {mem : Type} `{MI : MemoryInterface mem}.

(** [BITS(inst, 12, 15)] *)
Definition Rd_field (inst : Z) : Z := BITS inst 12 15.

(** The frame of the single transfers: the body is given the word and its address. *)
Definition transfer (i : arm_inst) (body : Z -> Z -> M mem ()) : M mem () :=
  match comp i with
  | ldst_inst inst f => addr ← call_get_addr f inst; body inst addr
  | _ => fault WrongComponent
  end.

(** ** Single loads *)

(** A loaded R15 selects the instruction set; [true] goes to [DISPATCH]. *)
Definition load_word (i : arm_inst) : M mem bool :=
  match comp i with
  | ldst_inst inst f =>
      addr ← call_get_addr f inst;
      value ← ReadMemory32 addr;
      _ ← set_reg (Rd_field inst) value;
      if Rd_field inst =? 15 then
        _ ← set_TFlag (Z.land value 1);
        pc ← get_reg 15;
        _ ← set_reg 15 (Z.land pc 0xFFFFFFFE);
        mret true
      else mret false
  | _ => fault WrongComponent
  end.

(** No test of the condition: the decoder gives [LDR] the words with condition [AL]. *)
Definition LDR_INST (i : arm_inst) : M mem next :=
  jump ← load_word i; if (jump : bool) then mret DISPATCH else _ ← step_pc; mret NEXT.
Definition LDRCOND_INST (i : arm_inst) : M mem next := conditionally i (load_word i).

Definition LDRB_INST (i : arm_inst) : M mem next :=
  plainly i (transfer i (fun inst addr => v ← ReadMemory8 addr; set_reg (Rd_field inst) v)).
Definition LDRH_INST (i : arm_inst) : M mem next :=
  plainly i (transfer i (fun inst addr => v ← ReadMemory16 addr; set_reg (Rd_field inst) v)).
Definition LDRSB_INST (i : arm_inst) : M mem next :=
  plainly i (transfer i (fun inst addr =>
    v ← ReadMemory8 addr; set_reg (Rd_field inst) (if truth (BIT v 7) then Z.lor v 0xffffff00 else v))).
Definition LDRSH_INST (i : arm_inst) : M mem next :=
  plainly i (transfer i (fun inst addr =>
    v ← ReadMemory16 addr; set_reg (Rd_field inst) (if truth (BIT v 15) then Z.lor v 0xffff0000 else v))).

(** The next instruction is four bytes further even in Thumb state. *)
Definition LDRD_INST (i : arm_inst) : M mem next :=
  b ← cond_holds i;
  _ ← when b (transfer i (fun inst addr =>
        v ← ReadMemory32 addr;
        _ ← set_reg (Rd_field inst) v;
        v ← ReadMemory32 (u32 (addr + 4));
        set_reg (Rd_field inst + 1) v));
  pc ← get_reg 15; _ ← set_reg 15 (u32 (pc + 4)); mret NEXT.

(** An access with the rights of user mode. *)
Definition as_user {A} (m : M mem A) : M mem A :=
  previous_mode ← get_status Mode;
  _ ← ChangePrivilegeMode USER32MODE;
  v ← m;
  _ ← ChangePrivilegeMode previous_mode;
  mret v.

Definition LDRT_INST (i : arm_inst) : M mem next :=
  plainly i (transfer i (fun inst addr => v ← as_user (ReadMemory32 addr); set_reg (Rd_field inst) v)).
Definition LDRBT_INST (i : arm_inst) : M mem next :=
  plainly i (transfer i (fun inst addr => v ← as_user (ReadMemory8 addr); set_reg (Rd_field inst) v)).

(** ** Single stores *)

(** The stored register; R15 reads two instructions ahead. *)
Definition STR_INST (i : arm_inst) : M mem next :=
  plainly i (transfer i (fun inst addr => v ← RN15 (Rd_field inst); WriteMemory32 addr v)).
Definition STRB_INST (i : arm_inst) : M mem next :=
  plainly i (transfer i (fun inst addr => v ← get_reg (Rd_field inst); WriteMemory8 addr (Z.land v 0xff))).
Definition STRH_INST (i : arm_inst) : M mem next :=
  plainly i (transfer i (fun inst addr => v ← get_reg (Rd_field inst); WriteMemory16 addr (Z.land v 0xffff))).
Definition STRD_INST (i : arm_inst) : M mem next :=
  plainly i (transfer i (fun inst addr =>
    v ← get_reg (Rd_field inst);
    _ ← WriteMemory32 addr v;
    v ← get_reg (Rd_field inst + 1);
    WriteMemory32 (u32 (addr + 4)) v)).
Definition STRT_INST (i : arm_inst) : M mem next :=
  plainly i (transfer i (fun inst addr => v ← RN15 (Rd_field inst); as_user (WriteMemory32 addr v))).
Definition STRBT_INST (i : arm_inst) : M mem next :=
  plainly i (transfer i (fun inst addr =>
    v ← get_reg (Rd_field inst); as_user (WriteMemory8 addr (Z.land v 0xff)))).

Definition SWP_INST (i : arm_inst) : M mem next :=
  plainly i
    match comp i with
    | swp_inst Rn Rd Rm =>
        addr ← get_reg Rn;
        value ← ReadMemory32 addr;
        rm ← get_reg Rm;
        _ ← WriteMemory32 addr rm;
        set_reg Rd value
    | _ => fault WrongComponent
    end.
Definition SWPB_INST (i : arm_inst) : M mem next :=
  plainly i
    match comp i with
    | swp_inst Rn Rd Rm =>
        addr ← get_reg Rn;
        value ← ReadMemory8 addr;
        rm ← get_reg Rm;
        _ ← WriteMemory8 addr (Z.land rm 0xFF);
        set_reg Rd value
    | _ => fault WrongComponent
    end.

(** ** Exclusive accesses *)

Definition load_exclusive (i : arm_inst) (body : Z -> Z -> M mem ()) : M mem next :=
  plainly i
    match comp i with
    | ldrex_inst Rn Rd => read_addr ← get_reg Rn; _ ← SetExclusiveMemoryAddress read_addr; body Rd read_addr
    | _ => fault WrongComponent
    end.

Definition LDREX_INST (i : arm_inst) : M mem next :=
  load_exclusive i (fun Rd a => v ← ReadMemory32 a; set_reg Rd v).
Definition LDREXB_INST (i : arm_inst) : M mem next :=
  load_exclusive i (fun Rd a => v ← ReadMemory8 a; set_reg Rd v).
Definition LDREXH_INST (i : arm_inst) : M mem next :=
  load_exclusive i (fun Rd a => v ← ReadMemory16 a; set_reg Rd v).
Definition LDREXD_INST (i : arm_inst) : M mem next :=
  load_exclusive i (fun Rd a =>
    v ← ReadMemory32 a; _ ← set_reg Rd v; v ← ReadMemory32 (u32 (a + 4)); set_reg (Rd + 1) v).

(** The store happens, and the result is 0, when the access is exclusive. *)
Definition store_exclusive (i : arm_inst) (body : Z -> Z -> M mem ()) : M mem next :=
  plainly i
    match comp i with
    | strex_inst Rn Rd Rm =>
        write_addr ← get_reg Rn;
        exclusive ← gets (IsExclusiveMemoryAccess write_addr);
        if (exclusive : bool) then
          _ ← UnsetExclusiveMemoryAddress; _ ← body Rm write_addr; set_reg Rd 0
        else set_reg Rd 1
    | _ => fault WrongComponent
    end.

Definition STREX_INST (i : arm_inst) : M mem next :=
  store_exclusive i (fun Rm a => v ← get_reg Rm; WriteMemory32 a v).
Definition STREXB_INST (i : arm_inst) : M mem next :=
  store_exclusive i (fun Rm a => v ← get_reg Rm; WriteMemory8 a (u8 v)).
Definition STREXH_INST (i : arm_inst) : M mem next :=
  store_exclusive i (fun Rm a => v ← get_reg Rm; WriteMemory16 a (u16 v)).
Definition STREXD_INST (i : arm_inst) : M mem next :=
  store_exclusive i (fun Rm a =>
    rt ← get_reg Rm; rt2 ← get_reg (Rm + 1);
    big ← gets InBigEndianMode;
    WriteMemory64 a (if (big : bool) then Z.lor (Z.shiftl rt 32) rt2 else Z.lor (Z.shiftl rt2 32) rt)).

(** ** Multiple loads and stores *)

(** The body for every register of [l] that is in the list of [inst], at successive words. *)
Fixpoint for_list (inst : Z) (l : list Z) (body : Z -> Z -> M mem ()) (addr : Z) : M mem Z :=
  match l with
  | [] => mret addr
  | i :: l =>
      if truth (BIT inst i) then _ ← body i addr; for_list inst l body (u32 (addr + 4))
      else for_list inst l body addr
  end.

(** [for (int i = 0; i < n; i++)] *)
Definition below (n : nat) : list Z := seqZ 0 (Z.of_nat n).

Definition get_usr (k : nat) : M mem Z := gets (fun s => nth k (Reg_usr (banks s)) 0).
Definition set_usr (k : nat) (v : Z) : M mem () :=
  modify (fun s => with_banks (with_Reg_usr (<[k := v]> (Reg_usr (banks s))) (banks s)) s).

(** R13 and R14 of user mode from any mode. *)
Definition load_user (i addr : Z) : M mem () :=
  v ← ReadMemory32 addr;
  mode ← get_status Mode;
  if mode =? USER32MODE then set_reg i v else set_usr (Z.to_nat (i - 13)) v.
Definition store_user (i addr : Z) : M mem () :=
  mode ← get_status Mode;
  v ← (if mode =? USER32MODE then get_reg i else get_usr (Z.to_nat (i - 13)));
  WriteMemory32 addr v.

Definition load_reg (i addr : Z) : M mem () := v ← ReadMemory32 addr; set_reg i v.
Definition store_reg (i addr : Z) : M mem () := v ← get_reg i; WriteMemory32 addr v.

(** A loaded R15 selects the instruction set. *)
Definition load_reg_interworking (i addr : Z) : M mem () :=
  ret ← ReadMemory32 addr;
  if i =? 15 then _ ← set_TFlag (Z.land ret 0x1); set_reg i (Z.land ret 0xFFFFFFFE)
  else set_reg i ret.

Definition LDM_INST (i : arm_inst) : M mem next :=
  conditionally i
    match comp i with
    | ldst_inst inst f =>
        addr ← call_get_addr f inst;
        _ ← (if truth (BIT inst 22) && negb (truth (BIT inst 15)) then
               addr ← for_list inst (below 13) load_reg addr;
               _ ← for_list inst [13; 14] load_user addr;
               mret ()
             else if negb (truth (BIT inst 22)) then
               _ ← for_list inst (below 16) load_reg_interworking addr; mret ()
             else
               addr ← for_list inst (below 15) load_reg addr;
               _ ← restore_spsr;
               load_reg 15 addr);
        mret (truth (BIT inst 15))
    | _ => fault WrongComponent
    end.

(** R15 is stored two ARM instructions ahead. *)
Definition store_pc (inst addr : Z) : M mem () :=
  when (truth (BIT inst 15)) (pc ← get_reg 15; WriteMemory32 addr (u32 (pc + 8))).

(** A base register of the list is stored as it was before the write back. *)
Definition STM_INST (i : arm_inst) : M mem next :=
  plainly i
    match comp i with
    | ldst_inst inst f =>
        old_RN ← get_reg (Rn_field inst);
        addr ← call_get_addr f inst;
        if BIT inst 22 =? 1 then
          addr ← for_list inst (below 13) store_reg addr;
          addr ← for_list inst [13; 14] store_user addr;
          store_pc inst addr
        else
          addr ← for_list inst (below 15) (fun i addr =>
                   if i =? Rn_field inst then WriteMemory32 addr old_RN else store_reg i addr) addr;
          store_pc inst addr
    | _ => fault WrongComponent
    end.

(** ** Returning from and entering an exception *)

Definition RFE_INST (i : arm_inst) : M mem next :=
  match comp i with
  | ldst_inst inst f =>
      address ← call_get_addr f inst;
      v ← ReadMemory32 address;
      _ ← set_Cpsr v;
      v ← ReadMemory32 (u32 (address + 4));
      _ ← set_reg 15 v;
      mret DISPATCH
  | _ => fault WrongComponent
  end.

Definition SRS_INST (i : arm_inst) : M mem next :=
  always (transfer i (fun _ address =>
    v ← get_reg 14;
    _ ← WriteMemory32 address v;
    v ← get_status Spsr_copy;
    WriteMemory32 (u32 (address + 4)) v)).

End LoadStore.
