(* ===== verification/ArmLoop.v ===== *)
(** * ArmLoop: translation of blocks and the main loop (core/arm/dyncom/arm_dyncom_interpreter.cpp, arm_dyncom.cpp)

    The loop runs translated instructions from a buffer that the blocks share.  A position
    in the buffer counts instructions, where the code counts their bytes.  No debugger is
    attached.  The system calls and the floating point instructions are interfaces. *)
From stdpp Require Import gmap list.
From S2P Require Thumb ArmDecode.
From S2P Require Import Prelude ArmSupp ArmState ArmOperands ArmTrans ArmExec ArmMedia ArmLdSt.

Local Open Scope Z_scope.

(** ** The core *)

(** The processor with its translated code, and the downcount of its timer. *)
Record Core {mem : Type} := mkCore {
  cpu : ARMul_State mem;
  instruction_cache : gmap Z nat;
  trans_cache_buf : list arm_inst;
  trans_cache_buf_top : nat;
  downcount : Z }.
Arguments Core : clear implicits.
Arguments mkCore {mem} _ _ _ _ _.

Definition with_cpu {mem} (x : ARMul_State mem) (c : Core mem) : Core mem := mkCore x (instruction_cache c) (trans_cache_buf c) (trans_cache_buf_top c) (downcount c).
Definition with_cache {mem} x (c : Core mem) := mkCore (cpu c) x (trans_cache_buf c) (trans_cache_buf_top c) (downcount c).
Definition with_buf {mem} x top (c : Core mem) := mkCore (cpu c) (instruction_cache c) x top (downcount c).
Definition with_downcount {mem} x (c : Core mem) := mkCore (cpu c) (instruction_cache c) (trans_cache_buf c) (trans_cache_buf_top c) x.

(** The kernel: what a system call does to the core.  It may end the run, as a failed
    assertion does. *)
Class SVCInterface (mem : Type) := { CallSVC : Z -> Core mem -> cpu_fault + Core mem }.

(** The floating point instructions of [skyeye_common/vfp]. *)
Class VFPInterface (mem : Type) := { vfp_label : Z -> Z -> M mem next }.

(** [sizeof] of a translated instruction and its component, which the compiler fixes. *)
Class Layout := { size_bytes : arm_inst -> Z }.

(** [AddTicks] of the timer, and [ClearInstructionCache]. *)
Definition AddTicks {mem} (ticks : Z) (c : Core mem) : Core mem := with_downcount (downcount c - ticks) c.
Definition ClearInstructionCache {mem} (c : Core mem) : Core mem :=
  with_buf (trans_cache_buf c) 0 (with_cache ∅ c).

(** ** Labels *)

(** [Ignore] is a label that does not read its component. *)
Inductive label (mem : Type) :=
  | Label (f : arm_inst -> M mem next)
  | Ignore (f : M mem next)
  | Swi.
Arguments Label {mem} f.
Arguments Ignore {mem} f.
Arguments Swi {mem}.

Section Loop.
Context {mem : Type} `{MI : MemoryInterface mem} `{SVC : !SVCInterface mem} `{VI : !VFPInterface mem}.
Context `{LO : !Layout}.

(** [InstLabel] after the floating point instructions. *)
Definition InstLabel : list (label mem) :=
  [Label SRS_INST; Label RFE_INST; Label HINT_INST; Label BLX_INST; Label CPS_INST; Ignore
   NOP_INST; Label SETEND_INST; Ignore CLREX_INST; Label REV_INST; Label USAD8_INST; Label
   SXTB_INST; Label UXTB_INST; Label SXTH_INST; Label SXTAB16_INST; Label UXTH_INST; Label
   UXTAB16_INST; Label CPY_INST; Label UXTAB_INST; Label SADD8_INST; Label SHADD8_INST; Label
   SADD8_INST; Label STREX_INST; Label STREXB_INST; Label SWP_INST; Label SWPB_INST; Label
   SADD8_INST; Label SSAT16_INST; Label SHADD8_INST; Label QADD8_INST; Label SHADD8_INST; Label
   SHADD8_INST; Label SHADD8_INST; Label SEL_INST; Label SADD8_INST; Label SADD8_INST; Label
   SADD8_INST; Label SHADD8_INST; Label UMAAL_INST; Label UXTAB16_INST; Label UADD8_INST; Label
   UADD8_INST; Label UADD8_INST; Label USAT16_INST; Label USAD8_INST; Label UQADD8_INST; Label
   UQADD8_INST; Label UQADD8_INST; Label UQADD8_INST; Label UQADD8_INST; Label UQADD8_INST;
   Label SXTAB_INST; Label UHADD8_INST; Label UHADD8_INST; Label UHADD8_INST; Label UHADD8_INST;
   Label UHADD8_INST; Label UHADD8_INST; Label UADD8_INST; Label UADD8_INST; Label UADD8_INST;
   Label SXTAH_INST; Label SXTAB16_INST; Label QADD8_INST; Label BX_INST; Label CLZ_INST; Label
   UXTAH_INST; Label BX_INST; Label REV_INST; Label BLX_INST; Label REV_INST; Label QADD_INST;
   Label QADD8_INST; Label QADD8_INST; Label LDREX_INST; Label QADD_INST; Label QADD_INST; Label
   QADD_INST; Label LDREXB_INST; Label QADD8_INST; Label QADD8_INST; Label SMLAD_INST; Label
   SMMLA_INST; Label SMLAD_INST; Label SMLAD_INST; Label SMLALD_INST; Label SMMLA_INST; Label
   SMMLA_INST; Label SMLALD_INST; Label SMLAD_INST; Label SMLAW_INST; Label SMULW_INST; Label
   PKHTB_INST; Label PKHBT_INST; Label SMUL_INST; Label SMLALXY_INST; Label SMLA_INST; Label
   HINT_INST; Label HINT_INST; Label CMP_INST; Label TST_INST; Label TEQ_INST; Label CMN_INST;
   Label SMULL_INST; Label UMULL_INST; Label UMLAL_INST; Label SMLAL_INST; Label MUL_INST; Label
   MLA_INST; Label SSAT_INST; Label USAT_INST; Label MRS_INST; Label MSR_INST; Label AND_INST;
   Label BIC_INST; Label LDM_INST; Label EOR_INST; Label ADD_INST; Label RSB_INST; Label
   RSC_INST; Label SBC_INST; Label ADC_INST; Label SUB_INST; Label ORR_INST; Label MVN_INST;
   Label MOV_INST; Label STM_INST; Label LDM_INST; Label LDRSH_INST; Label STM_INST; Label
   LDM_INST; Label LDRSB_INST; Label STRD_INST; Label LDRH_INST; Label STRH_INST; Label
   LDRD_INST; Label STRT_INST; Label STRBT_INST; Label LDRBT_INST; Label LDRT_INST; Label
   MRC_INST; Label MCR_INST; Label MSR_INST; Label MSR_INST; Label MSR_INST; Label MSR_INST;
   Label MSR_INST; Label LDRB_INST; Label STRB_INST; Label LDR_INST; Label LDRCOND_INST; Label
   STR_INST; Label CDP_INST; Ignore NOP_INST; Ignore NOP_INST; Label LDREXD_INST; Label
   STREXD_INST; Label LDREXH_INST; Label STREXH_INST; Ignore NOP_INST; Label HINT_INST; Label
   HINT_INST; Label HINT_INST; Label HINT_INST; Swi; Label BBL_INST; Label B_2_THUMB; Label
   B_COND_THUMB; Label BL_1_THUMB; Label BL_2_THUMB; Label BLX_1_THUMB].

Definition VFP_LABELS : Z := 32.

(** A core with the processor that an instruction leaves. *)
Definition on_cpu {A} (m : M mem A) (c : Core mem) : cpu_fault + (A * Core mem) :=
  match m (cpu c) with inl e => inl e | inr (a, s) => inr (a, with_cpu s c) end.

(** [SWI]: the instructions so far are accounted for before the kernel runs. *)
Definition SWI_INST (i : arm_inst) (num_instrs : Z) (c : Core mem) : cpu_fault + (next * Z * Core mem) :=
  match on_cpu (cond_holds i) c, comp i with
  | inl e, _ => inl e
  | inr (true, _), swi_inst num =>
      let c := AddTicks num_instrs c in
      let limit := NumInstrsToExecute (cpu c) in
      let c := with_cpu (with_NumInstrsToExecute
                 (if limit <=? num_instrs then 0 else limit - num_instrs) (cpu c)) c in
      match CallSVC (Z.land num 0xFFFF) c with
      | inl e => inl e
      | inr c =>
          match on_cpu (_ ← UnsetExclusiveMemoryAddress; step_pc) c with
          | inl e => inl e
          | inr (_, c) => inr (NEXT, 0, c)
          end
      end
  | inr (true, _), _ => inl WrongComponent
  | inr (false, _), _ =>
      match on_cpu step_pc c with inl e => inl e | inr (_, c) => inr (NEXT, num_instrs, c) end
  end.

(** [goto *InstLabel[inst_base->idx]]; the count of instructions is the second result. *)
Definition run_label (i : arm_inst) (num_instrs : Z) (c : Core mem) : cpu_fault + (next * Z * Core mem) :=
  let run m := match on_cpu m c with inl e => inl e | inr (n, c) => inr (n, num_instrs, c) end in
  if idx i <? VFP_LABELS then
    match comp i with vfp_inst inst => run (vfp_label (idx i) inst) | _ => inl WrongComponent end
  else
    match InstLabel !! Z.to_nat (idx i - VFP_LABELS) with
    | Some (Label f) => run (f i)
    | Some (Ignore f) => run f
    | Some Swi => SWI_INST i num_instrs c
    | None => inl Uninitialised
    end.

(** ** Translation *)

(** [arm_instruction_trans[idx](inst, idx)] *)
Definition translator (index inst : Z) : option arm_inst :=
  match arm_instruction_trans !! Z.to_nat index with Some t => Some (t inst index) | None => None end.

(** The status, the ARM word, its size and the instruction of a branch. *)
Definition DecodeThumbInstruction (inst addr : Z) : Thumb.ThumbDecodeStatus * Z * Z * option arm_inst :=
  let '(ret, arm_word, inst_size) := Thumb.TranslateThumbInstruction addr inst in
  match ret with
  | Thumb.BRANCH =>
    let tinstr := Thumb.GetThumbInstruction inst addr in
    let op := Z.shiftr (Z.land tinstr 0xF800) 11 in
    let table k := translator (arm_instruction_trans_len - k) tinstr in
    if (op =? 26) || (op =? 27) then
      if negb (Z.land tinstr 0x0F00 =? 0x0E00) && negb (Z.land tinstr 0x0F00 =? 0x0F00)
      then (ret, arm_word, inst_size, table 4)
      else (ret, arm_word, inst_size, None)
    else if op =? 28 then (ret, arm_word, inst_size, table 5)
    else if (op =? 8) || (op =? 29) then (ret, arm_word, inst_size, table 1)
    else if op =? 30 then (ret, arm_word, inst_size, table 3)
    else if op =? 31 then (ret, arm_word, inst_size, table 2)
    else (Thumb.UNDEFINED, arm_word, inst_size, None)
  | _ => (ret, arm_word, inst_size, None)
  end.

(** The instruction at an address and its size.  A word that the decoder does not know
    leaves the index unset. *)
Definition InterpreterTranslateInstruction (s : ARMul_State mem) (phys_addr : Z) : cpu_fault + (arm_inst * Z) :=
  let word := Read32 (memory s) (Z.land phys_addr 0xFFFFFFFC) in
  let decode inst inst_size :=
    match ArmDecode.DecodeARMInstruction inst with
    | (ArmDecode.SUCCESS, Some idx) =>
        match translator (Z.of_nat idx) inst with Some i => inr (i, inst_size) | None => inl Uninitialised end
    | _ => inl Undecoded
    end in
  if truth (TFlag (status s)) then
    match DecodeThumbInstruction word phys_addr with
    | (Thumb.BRANCH, _, inst_size, Some i) => inr (i, inst_size)
    | (Thumb.BRANCH, _, _, None) => inl Uninitialised
    | (_, inst, inst_size, _) => decode inst inst_size
    end
  else decode word 4.

(** The instructions of a block: up to the first branch or the end of the page. *)
Fixpoint block (fuel : nat) (s : ARMul_State mem) (phys_addr : Z) : option (cpu_fault + list arm_inst) :=
  match fuel with
  | O => None
  | S fuel =>
      match InterpreterTranslateInstruction s phys_addr with
      | inl e => Some (inl e)
      | inr (i, inst_size) =>
          let phys_addr := u32 (phys_addr + inst_size) in
          let i := if Z.land phys_addr 0xfff =? 0 then set_br END_OF_PAGE i else i in
          if decide (br i = NON_BRANCH) then
            match block fuel s phys_addr with
            | Some (inr l) => Some (inr (i :: l))
            | r => r
            end
          else Some (inr [i])
      end
  end.

(** A page holds 2048 Thumb instructions. *)
Definition page_fuel : nat := 2048.

(** ** The buffer *)

Definition TRANS_CACHE_SIZE : Z := 64 * 1024 * 2000.

Definition bytes (l : list arm_inst) : Z := foldr (fun i n => size_bytes i + n) 0 l.

(** The assertion of [AllocBuffer], for the instructions of a block together: the top only
    grows, so that it fails for one of them when it fails for the last.  A block with a word
    that has no meaning is reported as such, whether or not the buffer was full before it. *)
Definition AllocBuffer (l : list arm_inst) (c : Core mem) : bool :=
  bytes (take (trans_cache_buf_top c) (trans_cache_buf c)) + bytes l <=? TRANS_CACHE_SIZE.

(** The translated instructions behind the others, and their entry in the cache. *)
Definition add_block (pc_start : Z) (l : list arm_inst) (c : Core mem) : Core mem :=
  let top := trans_cache_buf_top c in
  let buf := trans_cache_buf c in
  with_cache (<[pc_start := top]> (instruction_cache c))
    (with_buf (take top buf ++ l ++ drop (top + length l) buf) (top + length l) c).

Definition InterpreterTranslateBlock (addr : Z) (c : Core mem) : option (cpu_fault + (nat * Core mem)) :=
  match block page_fuel (cpu c) addr with
  | None => None
  | Some (inl e) => Some (inl e)
  | Some (inr l) =>
      if AllocBuffer l c then Some (inr (trans_cache_buf_top c, add_block (reg (cpu c) 15) l c))
      else Some (inl CacheFull)
  end.

Definition InterpreterTranslateSingle (addr : Z) (c : Core mem) : option (cpu_fault + (nat * Core mem)) :=
  match InterpreterTranslateInstruction (cpu c) addr with
  | inl e => Some (inl e)
  | inr (i, _) =>
      let i := if decide (br i = NON_BRANCH) then set_br SINGLE_STEP i else i in
      if AllocBuffer [i] c then Some (inr (trans_cache_buf_top c, add_block (reg (cpu c) 15) [i] c))
      else Some (inl CacheFull)
  end.

(** ** The main loop *)

(** Where the loop is: at [DISPATCH], about to run the instruction at a position with
    [GOTO_NEXT_INST], at [END], or returning without it. *)
Inductive place := At_DISPATCH | At_INST (ptr : nat) | At_END | At_RETURN.

(** The program counter is aligned, its block is found or translated. *)
Definition dispatch (c : Core mem) : option (cpu_fault + (place * Core mem)) :=
  let s := cpu c in
  if (NirqSig s =? 0) && (Z.land (Cpsr (status s)) 0x80 =? 0) then Some (inr (At_END, c))
  else
    let mask := if truth (TFlag (status s)) then 0xfffffffe else 0xfffffffc in
    match on_cpu (pc ← get_reg 15; _ ← set_reg 15 (Z.land pc mask); mret (Z.land pc mask)) c with
    | inl e => Some (inl e)
    | inr (pc, c) =>
        match instruction_cache c !! pc with
        | Some ptr => Some (inr (At_INST ptr, c))
        | None =>
            match (if negb (NumInstrsToExecute (cpu c) =? 1) then InterpreterTranslateBlock pc c
                   else InterpreterTranslateSingle pc c) with
            | None => None
            | Some (inl e) => Some (inl e)
            | Some (inr (ptr, c)) => Some (inr (At_INST ptr, c))
            end
        end
    end.

(** The Thumb bit of the status word follows its flag. *)
Definition sync_thumb (p : Status) : Status :=
  with_Cpsr (Z.lor (Z.land (Cpsr p) (not32 (Z.shiftl 1 5))) (u32 (Z.shiftl (TFlag p) 5))) p.

(** [GOTO_NEXT_INST], the instruction, and [FETCH_INST] after it. *)
Definition goto_next_inst (ptr : nat) (num_instrs : Z) (c : Core mem) : cpu_fault + (place * Z * Core mem) :=
  let c := with_cpu (with_status (sync_thumb (status (cpu c))) (cpu c)) c in
  if NumInstrsToExecute (cpu c) <=? num_instrs then inr (At_END, num_instrs, c)
  else
    match trans_cache_buf c !! ptr with
    | None => inl Uninitialised
    | Some i =>
        match run_label i (u32 (num_instrs + 1)) c with
        | inl e => inl e
        | inr (DISPATCH, n, c) => inr (At_DISPATCH, n, c)
        | inr (NEXT, n, c) => inr (if decide (br i = NON_BRANCH) then At_INST (S ptr) else At_DISPATCH, n, c)
        | inr (RETURN, n, c) => inr (At_RETURN, n, c)
        end
    end.

(** [END] *)
Definition finish (c : Core mem) : Core mem :=
  let s := cpu c in
  with_cpu (with_NumInstrsToExecute 0 (with_status (save_nzcvt (status s)) s)) c.

Fixpoint main_loop (fuel : nat) (p : place) (num_instrs : Z) (c : Core mem) : option (cpu_fault + (Z * Core mem)) :=
  match fuel with
  | O => None
  | S fuel =>
      match p with
      | At_DISPATCH =>
          match dispatch c with
          | None => None
          | Some (inl e) => Some (inl e)
          | Some (inr (p, c)) => main_loop fuel p num_instrs c
          end
      | At_INST ptr =>
          match goto_next_inst ptr num_instrs c with
          | inl e => Some (inl e)
          | inr (p, n, c) => main_loop fuel p n c
          end
      | At_END => Some (inr (num_instrs, finish c))
      | At_RETURN => Some (inr (num_instrs, c))
      end
  end.

(** Every instruction costs a step and at most one dispatch. *)
Definition loop_fuel (limit : Z) : nat := Z.to_nat (2 * limit + 3).

Definition InterpreterMainLoop (c : Core mem) : option (cpu_fault + (Z * Core mem)) :=
  let s := cpu c in
  main_loop (loop_fuel (NumInstrsToExecute s)) At_DISPATCH 0
    (with_cpu (with_status (load_nzcvt (status s)) s) c).

(** ** The core's interface *)

Definition ExecuteInstructions (num_instructions : Z) (c : Core mem) : option (cpu_fault + Core mem) :=
  match InterpreterMainLoop (with_cpu (with_NumInstrsToExecute num_instructions (cpu c)) c) with
  | None => None
  | Some (inl e) => Some (inl e)
  | Some (inr (ticks_executed, c)) => Some (inr (AddTicks ticks_executed c))
  end.
Definition Run (c : Core mem) : option (cpu_fault + Core mem) := ExecuteInstructions (Z.max (downcount c) 0) c.
Definition Step (c : Core mem) : option (cpu_fault + Core mem) := ExecuteInstructions 1 c.
Definition PrepareReschedule (c : Core mem) : Core mem := with_cpu (with_NumInstrsToExecute 0 (cpu c)) c.

(** [ThreadContext]: VFP registers 1 and 2 are FPSCR and FPEXC. *)
Record ThreadContext := mkContext {
  cpu_registers : list Z; cpsr : Z; fpu_registers : list Z; fpscr : Z; fpexc : Z }.

Definition SaveContext (c : Core mem) : ThreadContext :=
  let s := cpu c in
  mkContext (Reg s) (Cpsr (status s)) (ExtReg s) (nth 1 (VFP s) 0) (nth 2 (VFP s) 0).
Definition LoadContext (ctx : ThreadContext) (c : Core mem) : Core mem :=
  let s := with_Reg (cpu_registers ctx) (cpu c) in
  let s := with_status (with_Cpsr (cpsr ctx) (status s)) s in
  let s := with_ExtReg (fpu_registers ctx) s in
  with_cpu (with_VFP (<[2%nat := fpexc ctx]> (<[1%nat := fpscr ctx]> (VFP s))) s) c.

End Loop.

(** ** Runs without the kernel and the floating point unit *)

(** With these interfaces a run ends at its first system call or floating point instruction. *)
Definition absent_kernel {mem} : SVCInterface mem := {| CallSVC := fun _ _ => inl External |}.
Definition absent_vfp {mem} : VFPInterface mem := {| vfp_label := fun _ _ => fault External |}.

(** Some instruction of the run is a system call or a floating point instruction. *)
Definition calls_out {mem} `{MemoryInterface mem} `{Layout} (k : Z) (c : Core mem) : Prop :=
  ExecuteInstructions (SVC := absent_kernel) (VI := absent_vfp) k c = Some (inl External).
