(* ===== verification/ArmTyped.v ===== *)
(** * ArmTyped: what every instruction of the ARM interpreter preserves

    A small program logic over the interpreter's computations.  [typed] says that a
    computation keeps the processor well formed and its budget, gives a result with a property, and fails
    at most by an access past the register file or a call of a null function; with
    [u = true] it also says that user mode is not left. *)
From stdpp Require Import list.
From S2P Require Import Prelude ArmSupp ArmState ArmOperands ArmTrans ArmExec ArmMedia ArmLdSt.

Local Open Scope Z_scope.

(** ** Words *)

Definition is_bit (x : Z) : Prop := 0 <= x < 2.

Lemma bits_u32 x : 0 <= x -> (forall k, 32 <= k -> Z.testbit x k = false) -> is_u32 x.
Proof.
  intros H0 Hk. change (0 <= x < 2 ^ 32). split; [done|]. destruct (Z.eq_dec x 0) as [->|]; [lia|].
  apply Z.log2_lt_pow2; [lia|]. destruct (Z.lt_ge_cases (Z.log2 x) 32) as [|Hl]; [done|].
  pose proof (Hk _ Hl) as Hb. rewrite Z.bit_log2 in Hb by lia. done.
Qed.

Lemma u32_bits x k : is_u32 x -> 32 <= k -> Z.testbit x k = false.
Proof.
  intros Hx Hk. destruct (Z.eq_dec x 0) as [->|]; [apply Z.testbit_0_l|].
  apply Z.bits_above_log2; [unfold_words; lia|].
  apply Z.lt_le_trans with 32; [|done]. change (0 <= x < 2 ^ 32) in Hx. apply Z.log2_lt_pow2; lia.
Qed.

Lemma u32_land_l x y : is_u32 x -> is_u32 (Z.land x y).
Proof.
  intros Hx. apply bits_u32; [apply Z.land_nonneg; left; unfold_words; lia|].
  intros k Hk. by rewrite Z.land_spec, (u32_bits x k Hx Hk).
Qed.
Lemma u32_land_r x y : is_u32 y -> is_u32 (Z.land x y).
Proof. intros. rewrite Z.land_comm. by apply u32_land_l. Qed.
Lemma u32_lor x y : is_u32 x -> is_u32 y -> is_u32 (Z.lor x y).
Proof.
  intros Hx Hy. apply bits_u32; [apply Z.lor_nonneg; unfold_words; lia|].
  intros k Hk. by rewrite Z.lor_spec, (u32_bits x k Hx Hk), (u32_bits y k Hy Hk).
Qed.
Lemma u32_lxor x y : is_u32 x -> is_u32 y -> is_u32 (Z.lxor x y).
Proof.
  intros Hx Hy. apply bits_u32; [apply Z.lxor_nonneg; unfold_words; lia|].
  intros k Hk. by rewrite Z.lxor_spec, (u32_bits x k Hx Hk), (u32_bits y k Hy Hk).
Qed.
Lemma u32_shiftr x k : is_u32 x -> 0 <= k -> is_u32 (Z.shiftr x k).
Proof.
  intros Hx Hk. rewrite Z.shiftr_div_pow2 by done. pose proof (Z.pow_pos_nonneg 2 k). unfold_words.
  split; [apply Z.div_pos; lia|]. apply Z.le_lt_trans with x; [|lia]. apply Z.div_le_upper_bound; nia.
Qed.
Lemma u32_const x : (0 <=? x) && (x <? 2 ^ 32) = true -> is_u32 x.
Proof. intros. zbool. unfold_words. lia. Qed.

Lemma bit_land x : is_bit (Z.land x 1).
Proof. change 1 with (Z.ones 1). rewrite Z.land_ones by lia. apply Z.mod_pos_bound. lia. Qed.
Lemma bit_u32 x : is_bit x -> is_u32 x.
Proof. unfold is_bit. unfold_words. lia. Qed.
Lemma bit_BIT x k : is_bit (BIT x k).
Proof. apply bit_land. Qed.
Lemma bit_b2z b : is_bit (Z.b2z b).
Proof. destruct b; unfold is_bit; cbn [Z.b2z]; lia. Qed.
Lemma bit_top x : is_u32 x -> is_bit (Z.shiftr x 31).
Proof. intros. rewrite Z.shiftr_div_pow2 by lia. unfold is_bit. unfold_words. zlia. Qed.
Lemma bit_if (b : bool) : is_bit (if b then 1 else 0).
Proof. destruct b; unfold is_bit; lia. Qed.
Lemma bit_if' (b : bool) : is_bit (if b then 0 else 1).
Proof. destruct b; unfold is_bit; lia. Qed.

Lemma shl32_u32 x k : is_u32 (shl32 x k).
Proof. apply u32_range. Qed.
Lemma shr32_u32 x k : is_u32 x -> is_u32 (shr32 x k).
Proof. intros. apply u32_shiftr; [done|]. apply Z.mod_pos_bound. lia. Qed.
Lemma asr32_u32 x k : is_u32 (asr32 x k).
Proof. apply u32_range. Qed.
Lemma ROTATE_RIGHT_32_u32 x k : is_u32 x -> is_u32 (ROTATE_RIGHT_32 x k).
Proof. intros. apply u32_lor; [apply shl32_u32 | by apply shr32_u32]. Qed.
Lemma BITS_u32 x a b : 0 <= 31 - b + a -> is_u32 (BITS x a b).
Proof. intros. apply u32_shiftr; [apply u32_range | lia]. Qed.
Lemma swap32_u32 x : is_u32 (swap32 x).
Proof.
  assert (B : forall y k, 0 <= k <= 24 -> is_u32 (Z.shiftl (Z.land y 0xff) k)).
  { intros y k Hk. rewrite Z.shiftl_mul_pow2 by lia. change 0xff with (Z.ones 8). rewrite Z.land_ones by lia.
    assert (2 ^ k <= 2 ^ 24) by (apply Z.pow_le_mono_r; lia). pose proof (Z.pow_pos_nonneg 2 k).
    pose proof (Z.mod_pos_bound y (2 ^ 8)). unfold_words. nia. }
  unfold swap32. repeat apply u32_lor; try (apply B; lia). apply u32_land_r. by apply u32_const.
Qed.
Lemma swap16_u32 x : is_u32 (swap16 x).
Proof.
  apply u32_lor; [|apply u32_land_r; by apply u32_const].
  rewrite Z.shiftl_mul_pow2 by lia. change 0xff with (Z.ones 8). rewrite Z.land_ones by lia. word_lia.
Qed.
Lemma not32_u32 x : is_u32 x -> is_u32 (not32 x).
Proof. intros. apply u32_lxor; [done | by apply u32_const]. Qed.

(** Membership in the words, by the shape of the term. *)
Ltac u32_tac :=
  match goal with
  | H : is_u32 ?x |- is_u32 ?x => exact H
  | |- is_u32 (u32 _) => apply u32_range
  | |- is_u32 (shl32 _ _) => apply shl32_u32
  | |- is_u32 (asr32 _ _) => apply asr32_u32
  | |- is_u32 (shr32 _ _) => apply shr32_u32; u32_tac
  | |- is_u32 (ROTATE_RIGHT_32 _ _) => apply ROTATE_RIGHT_32_u32; u32_tac
  | |- is_u32 (BITS _ _ _) => apply BITS_u32; lia
  | |- is_u32 (BIT _ _) => apply bit_u32, bit_BIT
  | |- is_u32 (not32 _) => apply not32_u32; u32_tac
  | |- is_u32 (swap32 _) => apply swap32_u32
  | |- is_u32 (swap16 _) => apply swap16_u32
  | |- is_u32 (Z.lor _ _) => apply u32_lor; u32_tac
  | |- is_u32 (Z.lxor _ _) => apply u32_lxor; u32_tac
  | |- is_u32 (Z.land _ _) => first [apply u32_land_r; u32_tac | apply u32_land_l; u32_tac]
  | |- is_u32 (Z.shiftr _ _) => apply u32_shiftr; [u32_tac | lia]
  | |- is_u32 (if ?b then _ else _) => destruct b; u32_tac
  | H : is_bit ?x |- is_u32 ?x => apply bit_u32, H
  | |- is_u32 _ => apply u32_const; reflexivity
  end.

(** ** Well-formed processors *)

Definition words_ok (n : nat) (l : list Z) : Prop := length l = n /\ Forall is_u32 l.

Record banks_ok (b : Banks) : Prop := {
  ok_usr : words_ok 2 (Reg_usr b);
  ok_svc : words_ok 2 (Reg_svc b);
  ok_abort : words_ok 2 (Reg_abort b);
  ok_undef : words_ok 2 (Reg_undef b);
  ok_irq : words_ok 2 (Reg_irq b);
  ok_firq : words_ok 7 (Reg_firq b);
  ok_Spsr : words_ok 7 (Spsr b) }.

(** The mode bits of a status word, in user mode. *)
Definition low_ok (u : bool) (c : Z) : Prop := u = true -> Z.land c 31 = USER32MODE.

Record status_ok (u : bool) (p : Status) : Prop := {
  ok_Cpsr : is_u32 (Cpsr p);
  ok_Spsr_copy : is_u32 (Spsr_copy p);
  ok_Mode : 0 <= Mode p < 32;
  ok_N : is_bit (NFlag p);
  ok_Z : is_bit (ZFlag p);
  ok_C : is_bit (CFlag p);
  ok_V : is_bit (VFlag p);
  ok_T : is_bit (TFlag p);
  ok_carry : is_bit (shifter_carry_out p);
  ok_low : low_ok u (Cpsr p);
  ok_user : u = true -> Mode p = USER32MODE }.

(** [state_ok false] is well-formedness; [state_ok true] adds that the mode is user mode,
    in the status word too. *)
Record state_ok {mem} (u : bool) (s : ARMul_State mem) : Prop := {
  ok_Reg : words_ok 16 (Reg s);
  ok_banks : banks_ok (banks s);
  ok_status : status_ok u (status s);
  ok_CP15 : words_ok CP15_REGISTER_COUNT (CP15 s) }.

(** The failures that remain. *)
Definition allowed (e : cpu_fault) : Prop := e = RegisterIndex \/ e = NullFunction.

Lemma words_insert n l k v : words_ok n l -> is_u32 v -> words_ok n (<[k := v]> l).
Proof. intros [Hl HF] Hv. split; [by rewrite length_insert | by apply Forall_insert]. Qed.
Lemma words_nth n l k : words_ok n l -> is_u32 (nth k l 0).
Proof.
  intros [_ HF]. destruct (Nat.lt_ge_cases k (length l)).
  - rewrite Forall_forall in HF. apply HF, list_elem_of_In, nth_In. done.
  - rewrite nth_overflow by done. by apply u32_const.
Qed.
Lemma words_pair a b : is_u32 a -> is_u32 b -> words_ok 2 [a; b].
Proof. intros. split; [done|]. repeat constructor; apply H || apply H0. Qed.

Lemma low_ok_lor u c x : low_ok u c -> Z.land x 31 = 0 -> low_ok u (Z.lor c x).
Proof. intros H Hx Hu. by rewrite Z.land_lor_distr_l, Hx, Z.lor_0_r, (H Hu). Qed.
Lemma low_ok_land u c x : low_ok u c -> Z.land x 31 = 31 -> low_ok u (Z.land c x).
Proof. intros H Hx Hu. by rewrite <- Z.land_assoc, Hx, (H Hu). Qed.
Lemma low_shift x k : 5 <= k -> Z.land (u32 (Z.shiftl x k)) 31 = 0.
Proof.
  intros Hk. apply Z.bits_inj'. intros i Hi. rewrite Z.land_spec, Z.bits_0.
  change 31 with (Z.ones 5). rewrite Z.testbit_ones_nonneg by lia.
  destruct (Z.ltb_spec i 5); [|by rewrite andb_false_r].
  unfold u32. change 4294967296 with (2 ^ 32).
  rewrite Z.mod_pow2_bits_low, Z.shiftl_spec, Z.testbit_neg_r by lia. done.
Qed.

(** ** Typed computations *)

Section Typed.
Context {mem : Type} `{MI : MemoryInterface mem} `{ML : !MemoryLaws mem} (u : bool).
Implicit Types s : ARMul_State mem.

(** The budget of instructions stays, or the core is stopped. *)
Definition same_budget s s' : Prop :=
  NumInstrsToExecute s' = NumInstrsToExecute s \/ NumInstrsToExecute s' = 0.

Definition typed {A} (Q : A -> Prop) (m : M mem A) : Prop :=
  forall s, state_ok u s ->
    match m s with inl e => allowed e | inr (a, s') => Q a /\ state_ok u s' /\ same_budget s s' end.

Definition any {A} : A -> Prop := fun _ => True.

Lemma typed_ret {A} (Q : A -> Prop) a : Q a -> typed Q (mret a).
Proof. intros H s Hs. split_and!; [done | done | by left]. Qed.
Lemma typed_bind {A B} (R : A -> Prop) (Q : B -> Prop) (m : M mem A) (f : A -> M mem B) :
  typed R m -> (forall a, R a -> typed Q (f a)) -> typed Q (m ≫= f).
Proof.
  intros Hm Hf s Hs. unfold mbind, M_bind. specialize (Hm s Hs).
  destruct (m s) as [e|[a s']]; [done|]. destruct Hm as (Ra & Hs' & Hb). specialize (Hf a Ra s' Hs').
  destruct (f a s') as [e|[b s2]]; [done|]. destruct Hf as (Qb & Hs2 & Hb2). split_and!; [done | done |].
  unfold same_budget in *. destruct Hb2 as [-> | ->]; auto.
Qed.
Lemma typed_weaken {A} (R Q : A -> Prop) (m : M mem A) : typed R m -> (forall a, R a -> Q a) -> typed Q m.
Proof.
  intros Hm HQ s Hs. specialize (Hm s Hs). destruct (m s) as [e|[a s']]; [done|].
  destruct Hm as (? & ? & ?). split_and!; [by apply HQ | done | done].
Qed.
Lemma typed_any {A} (R : A -> Prop) (m : M mem A) : typed R m -> typed any m.
Proof. intros H. by apply (typed_weaken R). Qed.
Lemma typed_fault {A} (Q : A -> Prop) e : allowed e -> typed Q (fault e : M mem A).
Proof. intros H s Hs. done. Qed.
Lemma typed_gets {A} (Q : A -> Prop) (f : ARMul_State mem -> A) :
  (forall s, state_ok u s -> Q (f s)) -> typed Q (gets f).
Proof. intros H s Hs. split_and!; [by apply H | done | by left]. Qed.
Lemma typed_modify (f : ARMul_State mem -> ARMul_State mem) :
  (forall s, state_ok u s -> state_ok u (f s)) -> (forall s, same_budget s (f s)) -> typed any (modify f).
Proof. intros H Hb s Hs. split_and!; [done | by apply H | apply Hb]. Qed.
Lemma typed_when b (m : M mem ()) : (b = true -> typed any m) -> typed any (when b m).
Proof. destruct b; intros H; [by apply H | by apply typed_ret]. Qed.

Lemma typed_get_reg i : typed is_u32 (get_reg i).
Proof.
  intros s Hs. unfold get_reg. destruct (Reg s !! Z.to_nat i) eqn:E; [|by left].
  split_and!; [| done | by left]. destruct (ok_Reg _ _ Hs) as [_ HF]. eapply Forall_lookup_1; eauto.
Qed.
Lemma typed_set_reg i v : is_u32 v -> typed any (set_reg i v).
Proof.
  intros Hv s Hs. unfold set_reg. destruct (_ <=? i); [by left|].
  split_and!; [done | | by left]. destruct Hs. split; try done. by apply words_insert.
Qed.

Lemma typed_on_status f : (forall p, status_ok u p -> status_ok u (f p)) -> typed any (on_status f).
Proof. intros H. apply typed_modify; [|by left]. intros s []. split; try done. by apply H. Qed.
Lemma typed_get_status (f : Status -> Z) (Q : Z -> Prop) :
  (forall p, status_ok u p -> Q (f p)) -> typed Q (get_status f).
Proof. intros H. apply typed_gets. intros s []. by apply H. Qed.

Lemma typed_get_Cpsr : typed (fun c => is_u32 c /\ low_ok u c) (get_status Cpsr).
Proof. apply typed_get_status. intros p []. by split. Qed.
Lemma typed_get_Spsr_copy : typed is_u32 (get_status Spsr_copy).
Proof. apply typed_get_status. intros p []. done. Qed.
Lemma typed_get_Mode : typed (fun m => 0 <= m < 32 /\ (u = true -> m = USER32MODE)) (get_status Mode).
Proof. apply typed_get_status. intros p []. by split. Qed.
Lemma typed_get_CFlag : typed is_bit (get_status CFlag).
Proof. apply typed_get_status. intros p []. done. Qed.
Lemma typed_get_TFlag : typed is_bit (get_status TFlag).
Proof. apply typed_get_status. intros p []. done. Qed.

Lemma typed_set_Cpsr v : is_u32 v -> low_ok u v -> typed any (set_Cpsr v).
Proof. intros Hv Hl. apply typed_on_status. intros p []. by split. Qed.
Lemma typed_set_TFlag v : is_bit v -> typed any (set_TFlag v).
Proof. intros Hv. apply typed_on_status. intros p []. by split. Qed.
Lemma typed_set_Q : typed any set_Q.
Proof.
  eapply typed_bind; [apply typed_get_Cpsr|]. intros c [Hc Hl].
  apply typed_set_Cpsr; [u32_tac | by apply low_ok_lor].
Qed.
Lemma typed_set_CV c v : typed any (set_CV c v).
Proof. apply typed_on_status. intros p []. split; try done; apply bit_b2z. Qed.
Lemma typed_UPDATE_NFLAG d : typed any (UPDATE_NFLAG d).
Proof. apply typed_on_status. intros p []. split; try done. apply bit_if. Qed.
Lemma typed_UPDATE_ZFLAG d : typed any (UPDATE_ZFLAG d).
Proof. apply typed_on_status. intros p []. split; try done. apply bit_if'. Qed.
Lemma typed_UPDATE_CFLAG_WITH_SC : typed any UPDATE_CFLAG_WITH_SC.
Proof. apply typed_on_status. intros p []. by split. Qed.
Lemma typed_set_carry_out c : is_bit c -> typed any (set_carry_out c).
Proof. intros Hc. apply typed_on_status. intros p []. by split. Qed.

Lemma save_nzcvt_ok p : status_ok u p -> status_ok u (save_nzcvt p).
Proof.
  intros []. split; try done; cbn [save_nzcvt Cpsr with_Cpsr].
  - u32_tac.
  - repeat apply low_ok_lor; try (apply low_shift; lia). by apply low_ok_land.
Qed.
Lemma load_nzcvt_ok p : status_ok u p -> status_ok u (load_nzcvt p).
Proof. intros []. split; try done; first [apply bit_land | by apply bit_top]. Qed.
Lemma typed_SAVE_NZCVT : typed any SAVE_NZCVT.
Proof. apply typed_on_status, save_nzcvt_ok. Qed.
Lemma typed_LOAD_NZCVT : typed any LOAD_NZCVT.
Proof. apply typed_on_status, load_nzcvt_ok. Qed.

(** ** Modes *)

Lemma save_bank_ok s : state_ok u s -> state_ok u (save_bank s).
Proof.
  intros Hs. pose proof (ok_Reg _ _ Hs) as HR. pose proof (ok_status _ _ Hs) as HS.
  destruct (ok_banks _ _ Hs) as [B1 B2 B3 B4 B5 B6 B7].
  assert (P : words_ok 2 (pair_of s)) by (apply words_pair; eapply words_nth, HR).
  assert (F : words_ok 7 (take 7 (drop 8 (Reg s)))).
  { destruct HR as [HL HF]. split; [by rewrite length_take, length_drop, HL |].
    by apply Forall_take, Forall_drop. }
  assert (Sp : forall k, words_ok 7 (<[Z.to_nat k := Spsr_copy (status s)]> (Spsr (banks s)))).
  { intros. apply words_insert; [done | apply HS]. }
  destruct Hs. split; try done. cbn [save_bank banks with_banks].
  repeat match goal with |- context [if ?b then _ else _] => destruct b end; split;
    cbn [Reg_usr Reg_svc Reg_abort Reg_undef Reg_irq Reg_firq Spsr with_Reg_usr with_Reg_svc with_Reg_abort
         with_Reg_undef with_Reg_irq with_Reg_firq with_Spsr with_spsr]; first [done | apply P | apply F | apply Sp].
Qed.

Lemma enter_ok bank s : state_ok u s -> state_ok u (enter bank s).
Proof. intros []. split; try done. destruct ok_status0. by split. Qed.
Lemma enter_spsr_ok bank s : state_ok u s -> state_ok u (enter_spsr bank s).
Proof.
  intros Hs. pose proof (ok_banks _ _ Hs) as HB. apply enter_ok. destruct Hs as [R B S' C]. split; try done.
  destruct S'. split; try done. eapply words_nth, HB.
Qed.
Lemma load_pair_ok l s : words_ok 2 l -> state_ok u s -> state_ok u (load_pair l s).
Proof.
  intros Hl []. split; try done. by apply words_insert, (words_nth 2); [apply words_insert, (words_nth 2)|].
Qed.
Lemma load_bank_ok m s : state_ok u s -> state_ok u (load_bank m s).
Proof.
  intros Hs. destruct (ok_banks _ _ Hs) as [B1 B2 B3 B4 B5 B6 B7]. unfold load_bank.
  repeat match goal with |- context [if ?b then _ else _] => destruct b end;
    try first [apply enter_spsr_ok; by apply load_pair_ok | apply enter_ok; by apply load_pair_ok | done].
  apply enter_spsr_ok. destruct Hs as [[RL RF] B S' C]. split; try done. cbn [Reg with_Reg].
  destruct B6 as [FL FF]. split.
  - rewrite !length_app, length_take, length_drop, RL, FL. done.
  - apply Forall_app; split; [by apply Forall_take|]. apply Forall_app; split; [done | by apply Forall_drop].
Qed.

Lemma mode_change_ok m s : 0 <= m < 32 -> (u = true -> m = USER32MODE) ->
  state_ok u s -> state_ok u (mode_change m s).
Proof.
  intros Hm Hu Hs. unfold mode_change.
  destruct (Z.eqb_spec (Mode (status s)) m) as [|Hne]; [done|]. destruct (m =? USERBANK); [done|].
  assert (u = false) as Eu.
  { apply not_true_is_false. intros E. apply Hne. rewrite (Hu E). by apply (ok_user _ _ (ok_status _ _ Hs)). }
  apply save_bank_ok, (load_bank_ok m) in Hs. revert Hs. generalize (load_bank m (save_bank s)) as t.
  intros t [R B S' C]. split; try done. destruct S'. split; try done; try congruence.
  apply u32_lor; [by apply u32_land_l | unfold_words; lia].
Qed.
Lemma mode_change_budget m s : NumInstrsToExecute (mode_change m s) = NumInstrsToExecute s.
Proof.
  unfold mode_change, load_bank. do 2 (destruct (_ =? _); [done|]).
  repeat match goal with |- context [if ?b then _ else _] => destruct b end; reflexivity.
Qed.
Lemma typed_ChangePrivilegeMode m : 0 <= m < 32 -> (u = true -> m = USER32MODE) ->
  typed any (ChangePrivilegeMode m).
Proof. intros. apply typed_modify; [intros; by apply mode_change_ok | intros; left; apply mode_change_budget]. Qed.

Lemma typed_InAPrivilegedMode : typed (fun b => u = true -> b = false) (gets InAPrivilegedMode).
Proof.
  apply typed_gets. intros s Hs Hu. unfold InAPrivilegedMode. by rewrite (ok_user _ _ (ok_status _ _ Hs) Hu).
Qed.
Lemma typed_CurrentModeHasSPSR : typed (fun b => u = true -> b = false) (gets CurrentModeHasSPSR).
Proof.
  apply typed_gets. intros s Hs Hu. unfold CurrentModeHasSPSR, InAPrivilegedMode.
  by rewrite (ok_user _ _ (ok_status _ _ Hs) Hu).
Qed.

(** ** Memory, the monitor and the coprocessor *)

Lemma typed_ReadMemory8 a : typed is_u32 (ReadMemory8 a).
Proof. apply typed_gets. intros s _. pose proof (Read8_range (memory s) a). unfold_words. lia. Qed.
Lemma typed_ReadMemory16 a : typed is_u32 (ReadMemory16 a).
Proof.
  apply typed_gets. intros s _. pose proof (Read16_range (memory s) a).
  destruct (InBigEndianMode s); [apply swap16_u32 | unfold_words; lia].
Qed.
Lemma typed_ReadMemory32 a : typed is_u32 (ReadMemory32 a).
Proof.
  apply typed_gets. intros s _. pose proof (Read32_range (memory s) a).
  destruct (InBigEndianMode s); [apply swap32_u32 | done].
Qed.
Lemma typed_WriteMemory8 a v : typed any (WriteMemory8 a v).
Proof. apply typed_modify; [by intros s [] | by left]. Qed.
Lemma typed_WriteMemory16 a v : typed any (WriteMemory16 a v).
Proof. apply typed_modify; [by intros s [] | by left]. Qed.
Lemma typed_WriteMemory32 a v : typed any (WriteMemory32 a v).
Proof. apply typed_modify; [by intros s [] | by left]. Qed.
Lemma typed_WriteMemory64 a v : typed any (WriteMemory64 a v).
Proof. apply typed_modify; [by intros s [] | by left]. Qed.
Lemma typed_SetExclusive a : typed any (SetExclusiveMemoryAddress a).
Proof. apply typed_modify; [by intros s [] | by left]. Qed.
Lemma typed_UnsetExclusive : typed any UnsetExclusiveMemoryAddress.
Proof. apply typed_modify; [by intros s [] | by left]. Qed.
Lemma typed_stop : typed any (modify (with_NumInstrsToExecute 0)).
Proof. apply typed_modify; [by intros s [] | by right]. Qed.

Lemma typed_ReadCP15 a b c d : typed is_u32 (ReadCP15Register a b c d).
Proof.
  apply typed_gets. intros s Hs. pose proof (ok_CP15 _ _ Hs) as HC.
  repeat match goal with
  | |- context [match ?x with Some _ => _ | None => _ end] => destruct x
  | |- context [if ?x then _ else _] => destruct x
  end; first [by apply u32_const | eapply words_nth, HC].
Qed.
Lemma write_some_ok r v s : is_u32 v -> state_ok u s -> state_ok u (write_some r v s).
Proof. intros Hv Hs. destruct r; [|done]. destruct Hs. split; try done. by apply words_insert. Qed.
Lemma typed_WriteCP15 v a b c d : is_u32 v -> typed any (WriteCP15Register v a b c d).
Proof.
  intros Hv. apply typed_modify.
  - intros s Hs. apply write_some_ok; [done|]. destruct (InAPrivilegedMode s); [by apply write_some_ok | done].
  - intros s. left. destruct (user_writable a b c d), (InAPrivilegedMode s), (privileged_writable a b c d); done.
Qed.

Lemma typed_get_usr k : typed is_u32 (get_usr k).
Proof. apply typed_gets. intros s Hs. eapply words_nth, (ok_usr _ (ok_banks _ _ Hs)). Qed.
Lemma typed_set_usr k v : is_u32 v -> typed any (set_usr k v).
Proof.
  intros Hv. apply typed_modify; [|by left]. intros s [R B S' C]. split; try done. destruct B. split; try done.
  by apply words_insert.
Qed.

Lemma typed_passed inst : typed any (passed inst).
Proof. by apply typed_gets. Qed.

End Typed.

(** ** Automation *)

Create HintDb typed discriminated.
Create HintDb u32 discriminated.
#[export] Hint Extern 0 (is_u32 _) => u32_tac : u32.
#[export] Hint Resolve low_ok_lor low_ok_land bit_BIT bit_land bit_b2z bit_if : u32.
#[export] Hint Extern 0 (Z.land _ 31 = _) => first [reflexivity | apply low_shift; lia] : u32.
#[export] Hint Extern 0 (any _) => exact I : u32.
#[export] Hint Extern 0 (allowed _) => first [left; reflexivity | right; reflexivity] : u32.

#[export] Hint Resolve typed_get_reg typed_set_reg typed_get_Cpsr typed_get_Spsr_copy typed_get_Mode
  typed_get_CFlag typed_get_TFlag typed_set_Cpsr typed_set_TFlag typed_set_Q typed_set_CV typed_UPDATE_NFLAG
  typed_UPDATE_ZFLAG typed_UPDATE_CFLAG_WITH_SC typed_set_carry_out typed_SAVE_NZCVT typed_LOAD_NZCVT
  typed_ChangePrivilegeMode typed_InAPrivilegedMode typed_CurrentModeHasSPSR typed_ReadMemory8
  typed_ReadMemory16 typed_ReadMemory32 typed_WriteMemory8 typed_WriteMemory16 typed_WriteMemory32
  typed_WriteMemory64 typed_SetExclusive typed_UnsetExclusive typed_stop typed_ReadCP15
  typed_WriteCP15 typed_get_usr typed_set_usr typed_passed typed_ret typed_fault : typed.

(** A primitive computation, by its lemma; its side conditions are about words. *)
Ltac prim := solve [auto 3 with typed u32 | eapply typed_any; auto 3 with typed u32].

(** The property of an intermediate result: by its lemma, or by its type. *)
Ltac ty :=
  cbv zeta;
  match goal with
  | |- typed _ _ (mret _) => apply typed_ret; solve [auto 5 with u32]
  | |- typed _ _ (fault _) => apply typed_fault; solve [auto with u32]
  | |- typed _ _ (mbind _ (gets GetInstructionSize)) =>
      eapply (typed_bind _ any); [by apply typed_gets | intros ? _; ty]
  | |- typed _ _ (mbind _ (gets InBigEndianMode)) =>
      eapply (typed_bind _ any); [by apply typed_gets | intros ? _; ty]
  | |- typed _ _ (mbind _ _) =>
      first [ eapply typed_bind; [solve [eauto 3 with typed u32] | ty_intro; ty]
            | eapply (typed_bind _ any (A := ())); [ty | intros ? _; ty]
            | eapply (typed_bind _ is_u32); [ty | intros ? ?; ty]
            | eapply (typed_bind _ any (A := bool)); [ty | intros ? _; ty] ]
  | |- typed _ _ (when _ _) => apply typed_when; intros ?; ty
  | |- typed _ _ (if ?b then _ else _) => destruct b eqn:?; ty
  | |- typed _ _ (let '(_, _) := ?p in _) => destruct p eqn:?; ty
  | |- _ => prim
  end
with ty_intro :=
  intros ?; cbv beta;
  lazymatch goal with
  | |- (_ /\ _) -> _ => intros [? ?]
  | |- _ -> _ => intros ?
  end.

(** ** Shifter operands and addresses *)

Section Operands.
Context {mem : Type} `{MI : MemoryInterface mem} `{ML : !MemoryLaws mem} (u : bool).

Lemma typed_CHECK_READ_REG15 r : typed u is_u32 (CHECK_READ_REG15 (mem := mem) r).
Proof. unfold CHECK_READ_REG15. ty. Qed.
Lemma typed_CHECK_READ_REG15_WA r : typed u is_u32 (CHECK_READ_REG15_WA (mem := mem) r).
Proof. unfold CHECK_READ_REG15_WA. ty. Qed.
Lemma typed_RN15 r : typed u is_u32 (RN15 (mem := mem) r).
Proof. unfold RN15. ty. Qed.
Lemma typed_operand v c : is_u32 v -> is_bit c -> typed u is_u32 (operand (mem := mem) v c).
Proof. intros. unfold operand. ty. Qed.
Lemma typed_operand_c v : is_u32 v -> typed u is_u32 (operand_c (mem := mem) v).
Proof. intros. unfold operand_c. eapply typed_bind; [auto with typed|]. intros c Hc. by apply typed_operand. Qed.

#[local] Hint Resolve typed_CHECK_READ_REG15 typed_CHECK_READ_REG15_WA typed_operand typed_operand_c : typed.

Lemma bit_0 : is_bit 0.
Proof. by split. Qed.
#[local] Hint Resolve bit_0 : u32.

Lemma typed_call_shtop f so : typed u is_u32 (call_shtop (mem := mem) f so).
Proof.
  destruct f as [[]|]; cbn [call_shtop];
    unfold Immediate, Register, LogicalShiftLeftByImmediate, LogicalShiftLeftByRegister,
      LogicalShiftRightByImmediate, LogicalShiftRightByRegister, ArithmeticShiftRightByImmediate,
      ArithmeticShiftRightByRegister, RotateRightByImmediate, RotateRightByRegister, Rm_of, Rs_of; ty.
Qed.

Lemma typed_update_reg inst r k : typed u any (update_reg (mem := mem) inst r k).
Proof. unfold update_reg, plus_minus. ty. Qed.
Lemma typed_when_passed inst (m : M mem ()) : typed u any m -> typed u any (when_passed inst m).
Proof. intros. unfold when_passed. ty. Qed.
Lemma typed_pre_indexed inst a : is_u32 a -> typed u is_u32 (pre_indexed (mem := mem) inst a).
Proof.
  intros. unfold pre_indexed. eapply (typed_bind _ any); [|intros ? _; ty].
  apply typed_when_passed. ty.
Qed.
Lemma typed_block_write_back inst n : typed u any (block_write_back (mem := mem) inst n).
Proof. unfold block_write_back. ty. Qed.
Lemma typed_index_of inst rm : is_u32 rm -> typed u is_u32 (index_of (mem := mem) inst rm).
Proof.
  intros. unfold index_of, scaled_index. eapply typed_bind; [auto with typed|]. intros c Hc.
  apply typed_ret. u32_tac.
Qed.
Lemma plus_minus_u32 inst a b : is_u32 (plus_minus inst a b).
Proof. unfold plus_minus. u32_tac. Qed.

#[local] Hint Resolve typed_update_reg typed_when_passed typed_pre_indexed typed_block_write_back
  typed_index_of : typed.
#[local] Hint Resolve plus_minus_u32 : u32.

Lemma typed_call_get_addr f inst : typed u is_u32 (call_get_addr (mem := mem) f inst).
Proof.
  destruct f as [[]|]; cbn [call_get_addr];
    unfold ImmediateOffset, RegisterOffset, ScaledRegisterOffset, ImmediatePreIndexed, RegisterPreIndexed,
      ScaledRegisterPreIndexed, ImmediatePostIndexed, RegisterPostIndexed, ScaledRegisterPostIndexed,
      MImmediateOffset, MImmediatePreIndexed, MImmediatePostIndexed, IncrementAfter, IncrementBefore,
      DecrementAfter, DecrementBefore; ty.
Qed.

End Operands.

#[export] Hint Resolve typed_CHECK_READ_REG15_WA typed_RN15 typed_call_shtop typed_call_get_addr : typed.
Lemma bit_1 : is_bit 1.
Proof. by split. Qed.
#[export] Hint Resolve bit_0 bit_1 : u32.
