(* ===== verification/ArmSafe.v ===== *)
(** * ArmSafe: every label of the main loop is typed

    Each translator builds the structure that its label reads, and each label keeps the
    processor well formed; every label but [RFE] keeps user mode. *)
From stdpp Require Import list.
From S2P Require Import Prelude ArmSupp ArmState ArmOperands ArmTrans ArmExec ArmMedia ArmLdSt ArmTyped.

Local Open Scope Z_scope.

Section Labels.
Context {mem : Type} `{MI : MemoryInterface mem} `{ML : !MemoryLaws mem} (u : bool).

(** ** Frames *)

Abbreviation typed_label := (typed (mem := mem) u any).

Lemma typed_step_pc : typed_label step_pc.
Proof. unfold step_pc. ty. Qed.
#[local] Hint Resolve typed_step_pc : typed.

Lemma typed_cond_holds k c b x_ : typed (mem := mem) u any (cond_holds (mkInst k (Some c) b x_)).
Proof. by apply typed_gets. Qed.
#[local] Hint Resolve typed_cond_holds : typed.

Lemma typed_conditionally k c b x_ body :
  typed_label body -> typed_label (conditionally (mkInst k (Some c) b x_) body).
Proof.
  intros Hb. eapply typed_bind; [apply typed_cond_holds|]. intros h _.
  eapply (typed_bind _ any); [destruct h; [done | by apply typed_ret] |]. intros j _. ty.
Qed.
Lemma typed_plainly k c b x_ body : typed_label body -> typed_label (plainly (mkInst k (Some c) b x_) body).
Proof. intros Hb. apply typed_conditionally. eapply typed_bind; [done|]. intros. ty. Qed.
Lemma typed_always body : typed_label body -> typed_label (always body).
Proof. intros Hb. unfold always. eapply typed_bind; [done|]. intros ? _. ty. Qed.
Lemma typed_branch k c b x_ body : typed_label body -> typed_label (branch (mkInst k (Some c) b x_) body).
Proof.
  intros Hb. eapply typed_bind; [apply typed_cond_holds|]. intros h _.
  eapply (typed_bind _ any); [destruct h; [done | apply typed_step_pc] |]. intros ? _. ty.
Qed.

(** ** Shared steps *)

Lemma typed_update_NZ r : typed_label (update_NZ r).
Proof. unfold update_NZ. ty. Qed.
Lemma typed_restore_spsr : typed_label restore_spsr.
Proof.
  eapply typed_bind; [apply typed_CurrentModeHasSPSR|]. intros has Hu. apply typed_when. intros ->.
  assert (forall v, low_ok u v) as Hl by (intros v E; by specialize (Hu E)).
  assert (u = true -> forall P : Prop, P) as Hf by (intros E; by specialize (Hu E)).
  eapply typed_bind; [apply typed_get_Spsr_copy|]. intros v Hv.
  eapply (typed_bind _ any); [by apply typed_set_Cpsr|]. intros ? _.
  eapply (typed_bind _ any); [|intros ? _; ty]. apply typed_ChangePrivilegeMode; [|by intros E; apply Hf].
  change 0x1F with (Z.ones 5). rewrite Z.land_ones by lia. by apply Z.mod_pos_bound.
Qed.
#[local] Hint Resolve typed_update_NZ typed_restore_spsr : typed.

Lemma typed_alu_end sf Rd m : typed_label m -> typed_label (alu_end sf Rd m).
Proof.
  intros Hm. unfold alu_end. eapply (typed_bind _ any); [|intros ? _; ty].
  destruct (_ && _); [ty|]. apply typed_when. intros _.
  eapply (typed_bind _ any); [ty | by intros ? _].
Qed.
Lemma typed_flags_of r m : typed_label m -> typed_label (flags_of r m).
Proof.
  intros Hm. eapply (typed_bind _ any); [ty|]. intros ? _. eapply (typed_bind _ any); [ty | by intros ? _].
Qed.
Lemma typed_set_pair b hi lo v : typed_label (set_pair b hi lo v).
Proof. unfold set_pair. ty. Qed.
Lemma typed_long_flags sf hi lo : typed_label (long_flags sf hi lo).
Proof.
  unfold long_flags. apply typed_when. intros _.
  eapply typed_bind; [apply typed_get_reg|]. intros h _.
  eapply typed_bind; [apply typed_get_reg|]. intros l _.
  apply typed_on_status. intros p []. split; try done; [apply bit_BIT | apply bit_b2z].
Qed.
Lemma typed_mul_flags sf r : typed_label (mul_flags sf r).
Proof. unfold mul_flags. ty. Qed.
Lemma typed_set_GE a b c d : typed_label (set_GE a b c d).
Proof.
  eapply typed_bind; [apply typed_get_Cpsr|]. intros v [Hv Hl]. unfold put_bit.
  apply typed_set_Cpsr; [destruct a, b, c, d; u32_tac|].
  destruct a, b, c, d; auto 10 with u32.
Qed.
Lemma typed_saturate b r : is_u32 r -> typed (mem := mem) u is_u32 (saturate b r).
Proof. intros. unfold saturate. ty. Qed.

Lemma half_u32 t v : is_u32 (half t v).
Proof. unfold half. u32_tac. Qed.
Lemma halves_u32 a b : is_u32 (halves a b).
Proof. unfold halves. u32_tac. Qed.
Lemma bytes4_u32 a b c d : is_u32 (bytes4 a b c d).
Proof. unfold bytes4. u32_tac. Qed.
Lemma AddWithCarry_u32 a b c r x_ y_ : AddWithCarry a b c = (r, x_, y_) -> is_u32 r.
Proof. intros [= <- _ _]. u32_tac. Qed.
Lemma SignedSatQ_u32 v k r b : ARMul_SignedSatQ v k = (r, b) -> is_u32 r.
Proof.
  unfold ARMul_SignedSatQ. cbv zeta.
  destruct (0 <? _); [|destruct (_ <? -1)]; intros E; apply (f_equal fst) in E; cbn [fst] in E; subst r; u32_tac.
Qed.
Lemma UnsignedSatQ_u32 v k r b : ARMul_UnsignedSatQ v k = (r, b) -> is_u32 r.
Proof.
  unfold ARMul_UnsignedSatQ. cbv zeta.
  destruct (_ <? 0); [|destruct (_ <? u32 _)]; intros E; apply (f_equal fst) in E; cbn [fst] in E; subst r; u32_tac.
Qed.

End Labels.

#[export] Hint Resolve typed_step_pc typed_update_NZ typed_restore_spsr typed_alu_end typed_flags_of
  typed_set_pair typed_long_flags typed_mul_flags typed_set_GE typed_saturate : typed.
#[export] Hint Resolve half_u32 halves_u32 bytes4_u32 AddWithCarry_u32 SignedSatQ_u32 UnsignedSatQ_u32 : u32.

(** ** The structures *)

(** The names of the structures of instructions. *)
Inductive shape :=
  | sh_alu | sh_cmp | sh_mov | sh_bbl | sh_bkpt | sh_blx | sh_bx | sh_cdp | sh_no | sh_clz |
  sh_cps | sh_ldst | sh_extend | sh_extend_add | sh_ldrex | sh_strex | sh_mcr | sh_mcrr | sh_mla
  | sh_mrs | sh_msr | sh_mul | sh_pkh | sh_qadd | sh_parallel | sh_rev | sh_setend | sh_smla |
  sh_smlad | sh_mull | sh_smlalxy | sh_smlaw | sh_smlald | sh_smul | sh_smulw | sh_ssat |
  sh_ssat16 | sh_swi | sh_swp | sh_umaal | sh_usada8 | sh_thumb | sh_b_cond_thumb |
  sh_blx_1_thumb | sh_vfp.

Definition shape_of (c : component) : shape :=
  match c with
  | alu_inst _ _ _ _ _ _ => sh_alu
  | cmp_inst _ _ _ _ => sh_cmp
  | mov_inst _ _ _ _ _ => sh_mov
  | bbl_inst _ _ => sh_bbl
  | bkpt_inst _ => sh_bkpt
  | blx_inst _ _ => sh_blx
  | bx_inst _ => sh_bx
  | cdp_inst _ _ _ _ _ _ _ => sh_cdp
  | no_inst => sh_no
  | clz_inst _ _ => sh_clz
  | cps_inst _ _ _ _ _ _ _ => sh_cps
  | ldst_inst _ _ => sh_ldst
  | extend_inst _ _ _ => sh_extend
  | extend_add_inst _ _ _ _ => sh_extend_add
  | ldrex_inst _ _ => sh_ldrex
  | strex_inst _ _ _ => sh_strex
  | mcr_inst _ _ _ _ _ _ _ => sh_mcr
  | mcrr_inst _ _ _ _ _ => sh_mcrr
  | mla_inst _ _ _ _ _ => sh_mla
  | mrs_inst _ _ => sh_mrs
  | msr_inst _ _ _ => sh_msr
  | mul_inst _ _ _ _ => sh_mul
  | pkh_inst _ _ _ _ => sh_pkh
  | qadd_inst _ _ _ _ => sh_qadd
  | parallel_inst _ _ _ _ _ => sh_parallel
  | rev_inst _ _ _ _ => sh_rev
  | setend_inst _ => sh_setend
  | smla_inst _ _ _ _ _ _ => sh_smla
  | smlad_inst _ _ _ _ _ _ _ => sh_smlad
  | mull_inst _ _ _ _ _ => sh_mull
  | smlalxy_inst _ _ _ _ _ _ => sh_smlalxy
  | smlaw_inst _ _ _ _ _ => sh_smlaw
  | smlald_inst _ _ _ _ _ _ _ => sh_smlald
  | smul_inst _ _ _ _ _ => sh_smul
  | smulw_inst _ _ _ _ => sh_smulw
  | ssat_inst _ _ _ _ _ => sh_ssat
  | ssat16_inst _ _ _ => sh_ssat16
  | swi_inst _ => sh_swi
  | swp_inst _ _ _ => sh_swp
  | umaal_inst _ _ _ _ => sh_umaal
  | usada8_inst _ _ _ _ _ _ => sh_usada8
  | thumb_inst _ => sh_thumb
  | b_cond_thumb _ _ => sh_b_cond_thumb
  | blx_1_thumb _ _ => sh_blx_1_thumb
  | vfp_inst _ => sh_vfp
  end.


(** Only the Thumb branches have no condition. *)
Definition thumb_shape (sh : shape) : bool :=
  match sh with sh_thumb | sh_b_cond_thumb | sh_blx_1_thumb => true | _ => false end.

(** An instruction that a translator of the table can give for a label of this shape. *)
Definition fits (sh : shape) (i : arm_inst) : Prop :=
  shape_of (comp i) = sh /\ (cond i = None -> thumb_shape sh = true) /\
  match comp i with cps_inst imod0 _ _ _ _ _ mode => is_bit imod0 /\ 0 <= mode < 32 | _ => True end.

(** A label reads the structure it fits. *)
Ltac open_label :=
  intros [k [c|] b x_] (Hs & Hc & Hx); cbn [shape_of comp cond] in *; destruct x_; try discriminate Hs;
  try (by specialize (Hc eq_refl)); clear Hs Hc.
Ltac frame :=
  match goal with
  | |- typed _ _ (plainly _ _) => apply typed_plainly
  | |- typed _ _ (conditionally _ _) => apply typed_conditionally
  | |- typed _ _ (branch _ _) => apply typed_branch
  | |- typed _ _ (always _) => apply typed_always
  end; cbn [comp].

Section Typed_labels.
Context {mem : Type} `{MI : MemoryInterface mem} `{ML : !MemoryLaws mem} (u : bool).

Definition label_ok (sh : shape) (f : arm_inst -> M mem next) : Prop :=
  forall i, fits sh i -> typed u any (f i).

(** ** Data processing *)

Lemma typed_arith rn op : (forall r, typed u is_u32 (rn r)) ->
  (forall a b c, is_u32 (fst (fst (op a b c)))) -> label_ok sh_alu (fun i => arith i rn op).
Proof.
  intros Hrn Hop. open_label. unfold arith. frame.
  eapply typed_bind; [apply Hrn|]. intros a Ha. eapply typed_bind; [apply typed_call_shtop|]. intros o Ho.
  eapply typed_bind; [apply typed_get_CFlag|]. intros cf Hcf.
  specialize (Hop a o cf). destruct (op a o cf) as [[r ca] ov]. cbn [fst] in Hop. ty.
Qed.
Lemma typed_logic op : (forall a b, is_u32 a -> is_u32 b -> is_u32 (op a b)) ->
  label_ok sh_alu (fun i => logic i op).
Proof.
  intros Hop. open_label. unfold logic. frame.
  eapply typed_bind; [apply typed_RN15|]. intros a Ha. eapply typed_bind; [apply typed_call_shtop|]. intros o Ho.
  eapply (typed_bind _ any); [apply typed_set_reg; auto | intros ? _; ty].
Qed.
Lemma typed_move op : (forall a, is_u32 a -> is_u32 (op a)) -> label_ok sh_mov (fun i => move i op).
Proof.
  intros Hop. open_label. unfold move. frame.
  eapply typed_bind; [apply typed_call_shtop|]. intros o Ho.
  eapply (typed_bind _ any); [apply typed_set_reg; auto | intros ? _; ty].
Qed.
Lemma typed_compare op : label_ok sh_cmp (fun i => compare i op).
Proof.
  open_label. unfold compare. frame.
  eapply typed_bind; [apply typed_RN15|]. intros a Ha. eapply typed_bind; [apply typed_call_shtop|]. intros o Ho.
  destruct (op a o) as [[r ca] ov]. ty.
Qed.

Lemma AddWithCarry_fst a b c : is_u32 (fst (fst (AddWithCarry a b c))).
Proof. cbn. u32_tac. Qed.
#[local] Hint Resolve AddWithCarry_fst u32_land_l u32_lor u32_lxor not32_u32 : u32.

Lemma typed_ADC : label_ok sh_alu ADC_INST.
Proof. apply typed_arith; auto with typed u32. Qed.
Lemma typed_ADD : label_ok sh_alu ADD_INST.
Proof. apply typed_arith; auto with typed u32. Qed.
Lemma typed_RSB : label_ok sh_alu RSB_INST.
Proof. apply typed_arith; auto with typed u32. Qed.
Lemma typed_RSC : label_ok sh_alu RSC_INST.
Proof. apply typed_arith; auto with typed u32. Qed.
Lemma typed_SBC : label_ok sh_alu SBC_INST.
Proof. apply typed_arith; auto with typed u32. Qed.
Lemma typed_SUB : label_ok sh_alu SUB_INST.
Proof. apply typed_arith; auto with typed u32. Qed.
Lemma typed_AND : label_ok sh_alu AND_INST.
Proof. apply typed_logic; auto with u32. Qed.
Lemma typed_BIC : label_ok sh_alu BIC_INST.
Proof. apply typed_logic; auto with u32. Qed.
Lemma typed_EOR : label_ok sh_alu EOR_INST.
Proof. apply typed_logic; auto with u32. Qed.
Lemma typed_ORR : label_ok sh_alu ORR_INST.
Proof. apply typed_logic; auto with u32. Qed.
Lemma typed_MOV : label_ok sh_mov MOV_INST.
Proof. by apply typed_move. Qed.
Lemma typed_MVN : label_ok sh_mov MVN_INST.
Proof. apply typed_move; auto with u32. Qed.
Lemma typed_CPY : label_ok sh_mov CPY_INST.
Proof. open_label. unfold CPY_INST. frame. ty. Qed.
Lemma typed_CMN : label_ok sh_cmp CMN_INST.
Proof. apply typed_compare. Qed.
Lemma typed_CMP : label_ok sh_cmp CMP_INST.
Proof. apply typed_compare. Qed.
Lemma typed_TEQ : label_ok sh_cmp TEQ_INST.
Proof. open_label. unfold TEQ_INST. frame. ty. Qed.
Lemma typed_TST : label_ok sh_alu TST_INST.
Proof. open_label. unfold TST_INST. frame. ty. Qed.

(** ** Branches and hints *)

Lemma typed_BBL : label_ok sh_bbl BBL_INST.
Proof. open_label. unfold BBL_INST. frame. ty. Qed.
Lemma typed_BLX : label_ok sh_blx BLX_INST.
Proof. open_label. unfold BLX_INST. frame. ty. Qed.
Lemma typed_BX : label_ok sh_bx BX_INST.
Proof. open_label. unfold BX_INST. frame. ty. Qed.
Lemma typed_B_2_THUMB : label_ok sh_thumb B_2_THUMB.
Proof. intros [k c b x_] (Hs & _ & _). destruct x_; try discriminate Hs. unfold B_2_THUMB. cbn [comp]. ty. Qed.
Lemma typed_B_COND_THUMB : label_ok sh_b_cond_thumb B_COND_THUMB.
Proof.
  intros [k c b x_] (Hs & _ & _). destruct x_; try discriminate Hs. unfold B_COND_THUMB. cbn [comp].
  eapply typed_bind; [apply typed_get_reg|]. intros pc Hpc.
  eapply (typed_bind _ any); [by apply typed_gets|]. intros h _. ty.
Qed.
Lemma typed_BL_1_THUMB : label_ok sh_thumb BL_1_THUMB.
Proof.
  intros [k c b x_] (Hs & _ & _). destruct x_; try discriminate Hs. unfold BL_1_THUMB. cbn [comp]. frame. ty.
Qed.
Lemma typed_BL_2_THUMB : label_ok sh_thumb BL_2_THUMB.
Proof. intros [k c b x_] (Hs & _ & _). destruct x_; try discriminate Hs. unfold BL_2_THUMB. cbn [comp]. ty. Qed.
Lemma typed_BLX_1_THUMB : label_ok sh_blx_1_thumb BLX_1_THUMB.
Proof. intros [k c b x_] (Hs & _ & _). destruct x_; try discriminate Hs. unfold BLX_1_THUMB. cbn [comp]. ty. Qed.

Lemma typed_HINT sh : thumb_shape sh = false -> label_ok sh HINT_INST.
Proof.
  intros Hsh [k [c|] b x_] (_ & Hc & _); [|by rewrite Hc in Hsh]. unfold HINT_INST. frame. ty.
Qed.
Lemma typed_NOP : typed (mem := mem) u any NOP_INST.
Proof. unfold NOP_INST. frame. ty. Qed.
Lemma typed_CLREX : typed (mem := mem) u any CLREX_INST.
Proof. unfold CLREX_INST. frame. ty. Qed.
Lemma typed_CDP : label_ok sh_cdp CDP_INST.
Proof.
  open_label. unfold CDP_INST. eapply typed_bind; [apply typed_cond_holds|]. intros h _. ty.
Qed.

(** ** Status registers *)

Lemma typed_SETEND : label_ok sh_setend SETEND_INST.
Proof.
  open_label. unfold SETEND_INST. frame. eapply typed_bind; [apply typed_get_Cpsr|]. intros v [Hv Hl].
  apply typed_set_Cpsr; [u32_tac | case_match; auto with u32].
Qed.

(** Outside of user mode nothing is asked of the mode. *)
Lemma typed_privileged (m : M mem ()) : (u = false -> typed u any m) ->
  typed u any (privileged ← gets InAPrivilegedMode; when privileged m).
Proof.
  intros H. eapply typed_bind; [apply typed_InAPrivilegedMode|]. intros p Hp. apply typed_when. intros ->.
  apply H. apply not_true_is_false. intros E. by specialize (Hp E).
Qed.
Lemma low_ok_any v : u = false -> low_ok u v.
Proof. intros E E'. congruence. Qed.

Lemma bit_shift_u32 (b : bool) i k : is_bit i -> 0 <= k <= 8 -> is_u32 (if b then Z.shiftl i k else 0).
Proof.
  intros Hi Hk. destruct b; [|by apply u32_const]. rewrite Z.shiftl_mul_pow2 by lia.
  assert (2 ^ k <= 2 ^ 8) by (apply Z.pow_le_mono_r; lia). pose proof (Z.pow_pos_nonneg 2 k).
  unfold is_bit in Hi. unfold_words. nia.
Qed.
Lemma typed_CPS : label_ok sh_cps CPS_INST.
Proof.
  open_label. destruct Hx as [Hi Hm]. unfold CPS_INST. frame. apply typed_privileged. intros Eu.
  eapply (typed_bind _ any).
  - apply typed_when. intros _. cbv zeta. eapply typed_bind; [apply typed_get_Cpsr|]. intros v [Hv _].
    apply typed_set_Cpsr; [|by apply low_ok_any].
    apply u32_lor; [by apply u32_land_l | repeat apply u32_lor; apply bit_shift_u32; done || lia].
  - intros ? _. apply typed_when. intros _. eapply typed_bind; [apply typed_get_Cpsr|]. intros v [Hv _].
    eapply (typed_bind _ any); [|intros ? _; apply typed_ChangePrivilegeMode; [done | congruence]].
    apply typed_set_Cpsr; [|by apply low_ok_any].
    apply u32_lor; [by apply u32_land_l | unfold_words; lia].
Qed.

Lemma typed_MRS : label_ok sh_mrs MRS_INST.
Proof. open_label. unfold MRS_INST. frame. ty. Qed.

Lemma merge_u32 old new mask : is_u32 old -> is_u32 new -> is_u32 (merge old new mask).
Proof. intros. unfold merge. u32_tac. Qed.
Lemma low_merge old new mask : Z.land mask 31 = 0 -> Z.land (merge old new mask) 31 = Z.land old 31.
Proof.
  intros Hm. unfold merge. rewrite Z.land_lor_distr_l, <- (Z.land_assoc new), Hm, Z.land_0_r, Z.lor_0_r.
  apply Z.bits_inj'. intros i Hi. apply (f_equal (fun z => Z.testbit z i)) in Hm.
  rewrite !Z.land_spec in *. unfold not32. rewrite Z.lxor_spec.
  change 31 with (Z.ones 5) in *. change 0xFFFFFFFF with (Z.ones 32).
  rewrite !Z.testbit_ones_nonneg in * by lia. rewrite Z.bits_0 in Hm.
  destruct (Z.ltb_spec i 5); [|by rewrite !andb_false_r].
  rewrite andb_true_r in Hm. rewrite Hm. destruct (Z.ltb_spec i 32); [|lia].
  by rewrite !andb_true_r.
Qed.
Lemma low_user_mask inst : Z.land (Z.land (byte_mask inst) UserMask) 31 = 0.
Proof. by rewrite <- Z.land_assoc, Z.land_0_r. Qed.

Lemma mode_bits v : 0 <= Z.land v 0x1F < 32.
Proof. change 0x1F with (Z.ones 5). rewrite Z.land_ones by lia. by apply Z.mod_pos_bound. Qed.

Lemma typed_MSR : label_ok sh_msr MSR_INST.
Proof.
  open_label. unfold MSR_INST. frame.
  eapply (typed_bind _ is_u32); [ty|]. intros v Hv. destruct (negb _).
  - eapply typed_bind; [apply typed_InAPrivilegedMode|]. intros p Hp. cbv zeta.
    match goal with |- context [merge _ v ?m] => set (mask := m) end.
    eapply (typed_bind _ any); [apply typed_SAVE_NZCVT|]. intros ? _.
    eapply typed_bind; [apply typed_get_Cpsr|]. intros c0 [Hc0 Hl].
    assert (u = true -> Z.land (merge c0 v mask) 31 = USER32MODE) as Hu.
    { intros E. rewrite low_merge; [by apply Hl|]. subst mask. rewrite (Hp E). apply low_user_mask. }
    eapply (typed_bind _ any); [apply typed_set_Cpsr; [by apply merge_u32 | done]|]. intros ? _.
    eapply (typed_bind _ any); [apply typed_ChangePrivilegeMode; [apply mode_bits | done]|]. intros ? _.
    apply typed_LOAD_NZCVT.
  - eapply typed_bind; [apply typed_CurrentModeHasSPSR|]. intros h _. apply typed_when. intros _. cbv zeta.
    apply typed_on_status. intros q []. split; try done. by apply merge_u32.
Qed.

Lemma typed_MRC : label_ok sh_mcr MRC_INST.
Proof.
  open_label. unfold MRC_INST. frame. apply typed_when. intros _.
  eapply typed_bind; [apply typed_ReadCP15|]. intros v Hv. destruct (Rd =? 15); [|ty].
  eapply typed_bind; [apply typed_get_Cpsr|]. intros c0 [Hc0 Hl].
  eapply (typed_bind _ any); [|intros ? _; ty].
  apply typed_set_Cpsr; [by apply merge_u32 | intros E; rewrite low_merge; [by apply Hl | done]].
Qed.
Lemma typed_MCR : label_ok sh_mcr MCR_INST.
Proof. open_label. unfold MCR_INST. frame. ty. Qed.

End Typed_labels.
