(* ===== verification/ArmLabels.v ===== *)
(** * ArmLabels: the remaining labels are typed, and so is the table of labels *)
From stdpp Require Import list.
From S2P Require Import Prelude ArmSupp ArmState ArmOperands ArmTrans ArmExec ArmMedia ArmLdSt ArmLoop.
From S2P Require Import ArmTyped ArmSafe.

Local Open Scope Z_scope.

Create HintDb labels discriminated.

Section More_labels.
Context {mem : Type} `{MI : MemoryInterface mem} `{ML : !MemoryLaws mem} (u : bool).

Abbreviation label_ok := (label_ok (mem := mem) u).

(** ** Multiplication *)

Lemma typed_get_pair hi lo : typed (mem := mem) u any (get_pair hi lo).
Proof. unfold get_pair. ty. Qed.
#[local] Hint Resolve typed_get_pair : typed.

Lemma typed_MUL : label_ok sh_mul MUL_INST.
Proof. open_label. unfold MUL_INST. frame. ty. Qed.
Lemma typed_MLA : label_ok sh_mla MLA_INST.
Proof. open_label. unfold MLA_INST. frame. ty. Qed.
Lemma typed_SMLA : label_ok sh_smla SMLA_INST.
Proof. open_label. unfold SMLA_INST. frame. ty. Qed.
Lemma typed_SMUL : label_ok sh_smul SMUL_INST.
Proof. open_label. unfold SMUL_INST. frame. ty. Qed.
Lemma typed_SMLAD : label_ok sh_smlad SMLAD_INST.
Proof. open_label. unfold SMLAD_INST. frame. ty. Qed.
Lemma typed_SMLAL : label_ok sh_mull SMLAL_INST.
Proof. open_label. unfold SMLAL_INST. frame. ty. Qed.
Lemma typed_SMULL : label_ok sh_mull SMULL_INST.
Proof. open_label. unfold SMULL_INST. frame. ty. Qed.
Lemma typed_UMLAL : label_ok sh_mull UMLAL_INST.
Proof. open_label. unfold UMLAL_INST. frame. ty. Qed.
Lemma typed_UMULL : label_ok sh_mull UMULL_INST.
Proof. open_label. unfold UMULL_INST. frame. ty. Qed.
Lemma typed_UMAAL : label_ok sh_umaal UMAAL_INST.
Proof. open_label. unfold UMAAL_INST. frame. ty. Qed.
Lemma typed_SMLALXY : label_ok sh_smlalxy SMLALXY_INST.
Proof. open_label. unfold SMLALXY_INST. frame. ty. Qed.
Lemma typed_SMLAW : label_ok sh_smlaw SMLAW_INST.
Proof. open_label. unfold SMLAW_INST. frame. ty. Qed.
Lemma typed_SMULW : label_ok sh_smulw SMULW_INST.
Proof. open_label. unfold SMULW_INST. frame. ty. Qed.
Lemma typed_SMLALD : label_ok sh_smlald SMLALD_INST.
Proof. open_label. unfold SMLALD_INST. frame. ty. Qed.
Lemma typed_SMMLA : label_ok sh_smlad SMMLA_INST.
Proof.
  open_label. unfold SMMLA_INST. frame.
  eapply typed_bind; [apply typed_get_reg|]. intros rm _. eapply typed_bind; [apply typed_get_reg|]. intros rn _.
  cbv zeta. eapply (typed_bind _ any); [|intros r _; ty].
  destruct (negb _); [|by apply typed_ret].
  eapply typed_bind; [apply typed_get_reg|]. intros ra _. by apply typed_ret.
Qed.

(** ** Parallel arithmetic, saturation, extension and packing *)

Lemma typed_QADD : label_ok sh_qadd QADD_INST.
Proof. open_label. unfold QADD_INST. frame. ty. Qed.

Lemma typed_parallel op :
  (forall op2 n m, is_u32 n -> is_u32 m -> typed (mem := mem) u (fun r => is_u32 (default 0 r)) (op op2 n m)) ->
  label_ok sh_parallel (fun i => parallel i op).
Proof.
  intros Hop. open_label. unfold parallel. frame.
  eapply typed_bind; [apply typed_get_reg|]. intros rm Hm. eapply typed_bind; [apply typed_get_reg|]. intros rn Hn.
  eapply typed_bind; [by apply Hop|]. intros [v|] Hv; [|ty].
  by apply typed_set_reg.
Qed.

Ltac pack := repeat case_match; first [ apply typed_ret; cbn; first [u32_tac | solve [auto with u32]]
  | eapply (typed_bind _ any); [apply typed_set_GE | intros ? _; apply typed_ret; cbn; auto with u32] ].

Lemma typed_QADD8 : label_ok sh_parallel QADD8_INST.
Proof. apply typed_parallel. intros op2 n m _ _. pack. Qed.
Lemma typed_UQADD8 : label_ok sh_parallel UQADD8_INST.
Proof. apply typed_parallel. intros op2 n m _ _. pack. Qed.
Lemma typed_SADD8 : label_ok sh_parallel SADD8_INST.
Proof. apply typed_parallel. intros op2 n m _ _. cbv zeta. pack. Qed.
Lemma typed_UADD8 : label_ok sh_parallel UADD8_INST.
Proof. apply typed_parallel. intros op2 n m _ _. cbv zeta. pack. Qed.
Lemma typed_SHADD8 : label_ok sh_parallel SHADD8_INST.
Proof. apply typed_parallel. intros op2 n m _ _. cbv zeta. pack. Qed.
Lemma typed_UHADD8 : label_ok sh_parallel UHADD8_INST.
Proof. apply typed_parallel. intros op2 n m _ _. cbv zeta. pack. Qed.
Lemma typed_SEL : label_ok sh_parallel SEL_INST.
Proof.
  apply typed_parallel. intros op2 n m Hn Hm. eapply typed_bind; [apply typed_get_Cpsr|]. intros c0 _.
  apply typed_ret. cbn [default option_map from_option id]. cbv zeta. u32_tac.
Qed.

Lemma AbsoluteDifference_u8 a b : is_u8 (ARMul_UnsignedAbsoluteDifference a b).
Proof. unfold ARMul_UnsignedAbsoluteDifference. destruct (_ <? _); apply u8_range. Qed.
Lemma typed_USAD8 : label_ok sh_usada8 USAD8_INST.
Proof.
  open_label. unfold USAD8_INST. frame.
  eapply typed_bind; [apply typed_get_reg|]. intros rm _. eapply typed_bind; [apply typed_get_reg|]. intros rn _.
  cbv zeta. eapply (typed_bind _ is_u32); [|intros v Hv; ty]. destruct (negb _); [ty|]. apply typed_ret.
  pose proof (AbsoluteDifference_u8 (byte rn 0) (byte rm 0)). pose proof (AbsoluteDifference_u8 (byte rn 1) (byte rm 1)).
  pose proof (AbsoluteDifference_u8 (byte rn 2) (byte rm 2)). pose proof (AbsoluteDifference_u8 (byte rn 3) (byte rm 3)).
  unfold is_u8 in *. unfold is_u32. lia.
Qed.

Lemma typed_sat satq : (forall v k r b, satq v k = (r, b) -> is_u32 r) -> label_ok sh_ssat (fun i => sat i satq).
Proof.
  intros H. open_label. unfold sat. frame. eapply typed_bind; [apply typed_get_reg|]. intros rn _. cbv zeta.
  destruct (satq _ _) as [v b0] eqn:E. apply H in E. ty.
Qed.
Lemma typed_sat_halves satq : label_ok sh_ssat16 (fun i => sat_halves i satq).
Proof.
  open_label. unfold sat_halves. frame. eapply typed_bind; [apply typed_get_reg|]. intros rn _.
  destruct (satq _ _) as [v1 b1], (satq (Z.shiftr _ _) _) as [v2 b2]. ty.
Qed.
Lemma typed_extend f : (forall v, is_u32 v -> is_u32 (f v)) -> label_ok sh_extend (fun i => extend i f).
Proof.
  intros H. open_label. unfold extend. frame. eapply typed_bind; [apply typed_get_reg|]. intros rm Hm.
  apply typed_set_reg, H. u32_tac.
Qed.
Lemma typed_extend_add f : label_ok sh_extend_add (fun i => extend_add i f).
Proof. open_label. unfold extend_add. frame. ty. Qed.

Lemma typed_SSAT : label_ok sh_ssat SSAT_INST.
Proof. apply typed_sat, SignedSatQ_u32. Qed.
Lemma typed_USAT : label_ok sh_ssat USAT_INST.
Proof. apply typed_sat, UnsignedSatQ_u32. Qed.
Lemma typed_SSAT16 : label_ok sh_ssat16 SSAT16_INST.
Proof. apply typed_sat_halves. Qed.
Lemma typed_USAT16 : label_ok sh_ssat16 USAT16_INST.
Proof. apply typed_sat_halves. Qed.
Lemma typed_SXTH : label_ok sh_extend SXTH_INST.
Proof. apply typed_extend. intros. u32_tac. Qed.
Lemma typed_SXTB : label_ok sh_extend SXTB_INST.
Proof. apply typed_extend. intros. u32_tac. Qed.
Lemma typed_UXTH : label_ok sh_extend UXTH_INST.
Proof. apply typed_extend. intros. u32_tac. Qed.
Lemma typed_UXTB : label_ok sh_extend UXTB_INST.
Proof. apply typed_extend. intros. u32_tac. Qed.
Lemma typed_UXTAH : label_ok sh_extend_add UXTAH_INST.
Proof. apply typed_extend_add. Qed.
Lemma typed_UXTAB : label_ok sh_extend_add UXTAB_INST.
Proof. apply typed_extend_add. Qed.
Lemma typed_SXTAH : label_ok sh_extend_add SXTAH_INST.
Proof. apply typed_extend_add. Qed.
Lemma typed_SXTAB : label_ok sh_extend_add SXTAB_INST.
Proof. apply typed_extend_add. Qed.
Lemma typed_SXTAB16 : label_ok sh_extend_add SXTAB16_INST.
Proof. open_label. unfold SXTAB16_INST. frame. ty. Qed.
Lemma typed_UXTAB16 : label_ok sh_extend_add UXTAB16_INST.
Proof. open_label. unfold UXTAB16_INST. frame. ty. Qed.
Lemma typed_PKHBT : label_ok sh_pkh PKHBT_INST.
Proof. open_label. unfold PKHBT_INST. frame. ty. Qed.
Lemma typed_PKHTB : label_ok sh_pkh PKHTB_INST.
Proof. open_label. unfold PKHTB_INST. frame. ty. Qed.
Lemma typed_REV : label_ok sh_rev REV_INST.
Proof. open_label. unfold REV_INST, rev, rev16, revsh. frame. ty. Qed.
Lemma typed_CLZ : label_ok sh_clz CLZ_INST.
Proof. open_label. unfold CLZ_INST. frame. ty. Qed.

(** ** Loads and stores *)

Lemma typed_transfer k c b inst f body : (forall inst a, is_u32 a -> typed (mem := mem) u any (body inst a)) ->
  typed u any (transfer (mkInst k c b (ldst_inst inst f)) body).
Proof.
  intros H. unfold transfer. cbn [comp]. eapply typed_bind; [apply typed_call_get_addr|]. intros a Ha. by apply H.
Qed.
Lemma typed_as_user {B} (Q : B -> Prop) m : typed (mem := mem) u Q m -> typed u Q (as_user m).
Proof.
  intros Hm. unfold as_user. eapply typed_bind; [apply typed_get_Mode|]. intros p [Hp Hu].
  eapply (typed_bind _ any); [apply typed_ChangePrivilegeMode; done|]. intros ? _.
  eapply typed_bind; [done|]. intros r Hr.
  eapply (typed_bind _ any); [by apply typed_ChangePrivilegeMode|]. intros ? _. by apply typed_ret.
Qed.
#[local] Hint Resolve typed_as_user : typed.

Lemma typed_load_word k c b inst f : typed (mem := mem) u any (load_word (mkInst k c b (ldst_inst inst f))).
Proof. unfold load_word. cbn [comp]. ty. Qed.

Ltac single := frame; apply typed_transfer; intros; ty.

Lemma typed_LDR : label_ok sh_ldst LDR_INST.
Proof.
  open_label. unfold LDR_INST. eapply (typed_bind _ any); [apply typed_load_word|]. intros j _. ty.
Qed.
Lemma typed_LDRCOND : label_ok sh_ldst LDRCOND_INST.
Proof. open_label. unfold LDRCOND_INST. frame. apply typed_load_word. Qed.
Lemma typed_LDRB : label_ok sh_ldst LDRB_INST.
Proof. open_label. unfold LDRB_INST. single. Qed.
Lemma typed_LDRH : label_ok sh_ldst LDRH_INST.
Proof. open_label. unfold LDRH_INST. single. Qed.
Lemma typed_LDRSB : label_ok sh_ldst LDRSB_INST.
Proof. open_label. unfold LDRSB_INST. single. Qed.
Lemma typed_LDRSH : label_ok sh_ldst LDRSH_INST.
Proof. open_label. unfold LDRSH_INST. single. Qed.
Lemma typed_LDRD : label_ok sh_ldst LDRD_INST.
Proof.
  open_label. unfold LDRD_INST. eapply typed_bind; [apply typed_cond_holds|]. intros h _.
  eapply (typed_bind _ any); [apply typed_when; intros _; apply typed_transfer; intros; ty|].
  intros ? _. ty.
Qed.
Lemma typed_LDRT : label_ok sh_ldst LDRT_INST.
Proof. open_label. unfold LDRT_INST. single. Qed.
Lemma typed_LDRBT : label_ok sh_ldst LDRBT_INST.
Proof. open_label. unfold LDRBT_INST. single. Qed.
Lemma typed_STR : label_ok sh_ldst STR_INST.
Proof. open_label. unfold STR_INST. single. Qed.
Lemma typed_STRB : label_ok sh_ldst STRB_INST.
Proof. open_label. unfold STRB_INST. single. Qed.
Lemma typed_STRH : label_ok sh_ldst STRH_INST.
Proof. open_label. unfold STRH_INST. single. Qed.
Lemma typed_STRD : label_ok sh_ldst STRD_INST.
Proof. open_label. unfold STRD_INST. single. Qed.
Lemma typed_STRT : label_ok sh_ldst STRT_INST.
Proof. open_label. unfold STRT_INST. single. Qed.
Lemma typed_STRBT : label_ok sh_ldst STRBT_INST.
Proof. open_label. unfold STRBT_INST. single. Qed.
Lemma typed_SWP : label_ok sh_swp SWP_INST.
Proof. open_label. unfold SWP_INST. frame. ty. Qed.
Lemma typed_SWPB : label_ok sh_swp SWPB_INST.
Proof. open_label. unfold SWPB_INST. frame. ty. Qed.

Lemma typed_load_exclusive body : (forall r a, typed (mem := mem) u any (body r a)) ->
  label_ok sh_ldrex (fun i => load_exclusive i body).
Proof.
  intros H. open_label. unfold load_exclusive. frame. eapply typed_bind; [apply typed_get_reg|]. intros a Ha.
  eapply (typed_bind _ any); [apply typed_SetExclusive|]. intros ? _. apply H.
Qed.
Lemma typed_store_exclusive body : (forall r a, typed (mem := mem) u any (body r a)) ->
  label_ok sh_strex (fun i => store_exclusive i body).
Proof.
  intros H. open_label. unfold store_exclusive. frame. eapply typed_bind; [apply typed_get_reg|]. intros a Ha.
  eapply (typed_bind _ any); [by apply typed_gets|]. intros h _. destruct h; [|ty].
  eapply (typed_bind _ any); [apply typed_UnsetExclusive|]. intros ? _.
  eapply (typed_bind _ any); [apply H|]. intros ? _. ty.
Qed.
Lemma typed_LDREX : label_ok sh_ldrex LDREX_INST.
Proof. apply typed_load_exclusive. intros. ty. Qed.
Lemma typed_LDREXB : label_ok sh_ldrex LDREXB_INST.
Proof. apply typed_load_exclusive. intros. ty. Qed.
Lemma typed_LDREXH : label_ok sh_ldrex LDREXH_INST.
Proof. apply typed_load_exclusive. intros. ty. Qed.
Lemma typed_LDREXD : label_ok sh_ldrex LDREXD_INST.
Proof. apply typed_load_exclusive. intros. ty. Qed.
Lemma typed_STREX : label_ok sh_strex STREX_INST.
Proof. apply typed_store_exclusive. intros. ty. Qed.
Lemma typed_STREXB : label_ok sh_strex STREXB_INST.
Proof. apply typed_store_exclusive. intros. ty. Qed.
Lemma typed_STREXH : label_ok sh_strex STREXH_INST.
Proof. apply typed_store_exclusive. intros. ty. Qed.
Lemma typed_STREXD : label_ok sh_strex STREXD_INST.
Proof. apply typed_store_exclusive. intros. ty. Qed.

Lemma typed_for_list inst l body : (forall i a, typed (mem := mem) u any (body i a)) ->
  forall a, is_u32 a -> typed u is_u32 (for_list inst l body a).
Proof.
  intros H. induction l as [|i l IH]; intros a Ha; cbn [for_list]; [by apply typed_ret|].
  destruct (truth _); [|by apply IH]. eapply (typed_bind _ any); [apply H|]. intros ? _. apply IH. u32_tac.
Qed.
Lemma typed_load_reg i a : typed (mem := mem) u any (load_reg i a).
Proof. unfold load_reg. ty. Qed.
Lemma typed_store_reg i a : typed (mem := mem) u any (store_reg i a).
Proof. unfold store_reg. ty. Qed.
Lemma typed_load_user i a : typed (mem := mem) u any (load_user i a).
Proof. unfold load_user. ty. Qed.
Lemma typed_store_user i a : typed (mem := mem) u any (store_user i a).
Proof.
  unfold store_user. eapply typed_bind; [apply typed_get_Mode|]. intros m _.
  eapply (typed_bind _ is_u32); [destruct (_ =? _); ty|]. intros. ty.
Qed.
Lemma typed_load_interworking i a : typed (mem := mem) u any (load_reg_interworking i a).
Proof. unfold load_reg_interworking. ty. Qed.
Lemma typed_store_pc inst a : typed (mem := mem) u any (store_pc inst a).
Proof. unfold store_pc. ty. Qed.
#[local] Hint Resolve typed_for_list typed_load_reg typed_store_reg typed_load_user typed_store_user
  typed_load_interworking typed_store_pc : typed.

Lemma typed_LDM : label_ok sh_ldst LDM_INST.
Proof. open_label. unfold LDM_INST. frame. ty. Qed.
Lemma typed_STM : label_ok sh_ldst STM_INST.
Proof.
  open_label. unfold STM_INST. frame.
  eapply typed_bind; [apply typed_get_reg|]. intros old Hold. eapply typed_bind; [apply typed_call_get_addr|]. intros a Ha.
  destruct (_ =? 1); [ty|]. eapply typed_bind; [apply typed_for_list; [|done] | intros; ty].
  intros i a0. destruct (_ =? _); ty.
Qed.
Lemma typed_SRS : label_ok sh_ldst SRS_INST.
Proof. open_label. unfold SRS_INST. single. Qed.
Lemma typed_RFE : u = false -> label_ok sh_ldst RFE_INST.
Proof.
  intros Hu. open_label. unfold RFE_INST. cbn [comp]. eapply typed_bind; [apply typed_call_get_addr|]. intros a Ha.
  eapply typed_bind; [apply typed_ReadMemory32|]. intros v Hv.
  eapply (typed_bind _ any); [apply typed_set_Cpsr; [done | by apply low_ok_any]|]. intros ? _. ty.
Qed.

End More_labels.

(** ** The tables *)

#[export] Hint Resolve typed_ADC typed_ADD typed_RSB typed_RSC typed_SBC typed_SUB typed_AND typed_BIC typed_EOR
  typed_ORR typed_MOV typed_MVN typed_CPY typed_CMN typed_CMP typed_TEQ typed_TST typed_BBL typed_BLX typed_BX
  typed_B_2_THUMB typed_B_COND_THUMB typed_BL_1_THUMB typed_BL_2_THUMB typed_BLX_1_THUMB typed_HINT typed_NOP
  typed_CLREX typed_CDP typed_SETEND typed_CPS typed_MRS typed_MSR typed_MRC typed_MCR typed_MUL typed_MLA
  typed_SMLA typed_SMUL typed_SMLAD typed_SMLAL typed_SMULL typed_UMLAL typed_UMULL typed_UMAAL typed_SMLALXY
  typed_SMLAW typed_SMULW typed_SMLALD typed_SMMLA typed_QADD typed_QADD8 typed_UQADD8 typed_SADD8 typed_UADD8
  typed_SHADD8 typed_UHADD8 typed_SEL typed_USAD8 typed_SSAT typed_USAT typed_SSAT16 typed_USAT16 typed_SXTH
  typed_SXTB typed_UXTH typed_UXTB typed_UXTAH typed_UXTAB typed_SXTAH typed_SXTAB typed_SXTAB16 typed_UXTAB16
  typed_PKHBT typed_PKHTB typed_REV typed_CLZ typed_LDR typed_LDRCOND typed_LDRB typed_LDRH typed_LDRSB
  typed_LDRSH typed_LDRD typed_LDRT typed_LDRBT typed_STR typed_STRB typed_STRH typed_STRD typed_STRT typed_STRBT
  typed_SWP typed_SWPB typed_LDREX typed_LDREXB typed_LDREXH typed_LDREXD typed_STREX typed_STREXB typed_STREXH
  typed_STREXD typed_LDM typed_STM typed_SRS typed_RFE : labels.

(** The shape that a translator builds, whatever the word. *)
Definition trans_shape (t : Z -> Z -> arm_inst) : shape := shape_of (comp (t 0 0)).

(** The translators of the labels after the floating point ones. *)
Definition integer_trans : list (Z -> Z -> arm_inst) := drop 32 arm_instruction_trans.

Lemma BITS_mode inst : 0 <= BITS inst 0 4 < 32.
Proof.
  unfold BITS. change (32 - 4 + 0 - 1) with 27. rewrite Z.shiftr_div_pow2 by lia. change (2 ^ 27) with 134217728.
  pose proof (u32_range (Z.shiftl inst (31 - 4))) as H. revert H. generalize (u32 (Z.shiftl inst (31 - 4))).
  intros x_ H. word_lia.
Qed.

Lemma trans_fits : Forall (fun t => forall inst index, fits (trans_shape t) (t inst index)) integer_trans.
Proof.
  unfold integer_trans, arm_instruction_trans. cbn [drop app replicate].
  repeat (apply List.Forall_cons; [intros inst index; split; [reflexivity | split; [by intros | try exact I]]|]).
  - split; [apply bit_BIT | apply BITS_mode].
  - constructor.
Qed.

Section Tables.
Context {mem : Type} `{MI : MemoryInterface mem} `{ML : !MemoryLaws mem} (u : bool).

Definition label_typed (t : Z -> Z -> arm_inst) (l : label mem) : Prop :=
  match l with
  | Label f => label_ok u (trans_shape t) f
  | Ignore m => typed u any m
  | Swi => trans_shape t = sh_swi
  end.

(** All but the second label, [RFE]. *)
Lemma labels_typed : Forall2 label_typed (drop 2 integer_trans) (drop 2 InstLabel).
Proof.
  unfold integer_trans, arm_instruction_trans, InstLabel. cbn [drop app replicate].
  repeat (apply List.Forall2_cons; [unfold label_typed; first [reflexivity | auto with labels]|]). constructor.
Qed.

End Tables.
