(* ===== verification/ArmRun.v ===== *)
(** * ArmRun: blocks and the main loop of the ARM interpreter

    The translation of a block ends, and holds the instructions of successive addresses;
    the main loop ends within its budget, keeps the processor well formed, and fails only
    in the ways that [permitted] lists. *)
From stdpp Require Import gmap list.
From S2P Require Thumb ArmDecode.
From S2P Require Import Prelude ArmSupp ArmState ArmOperands ArmTrans ArmExec ArmMedia ArmLdSt ArmLoop.
From S2P Require Import ArmTyped ArmSafe ArmLabels.

Local Open Scope Z_scope.

(** A failure of a run: also a word without a meaning, or a full translation buffer. *)
Definition permitted (e : cpu_fault) : Prop := allowed e \/ e = Undecoded \/ e = CacheFull.

(** What a translator of the table gives, with the branch kind that the block sets. *)
Definition translated (i : arm_inst) : Prop :=
  0 <= idx i /\ exists t inst b, arm_instruction_trans !! Z.to_nat (idx i) = Some t /\ i = set_br b (t inst (idx i)).

Lemma table_index : Forall (fun t => forall inst index, idx (t inst index) = index) arm_instruction_trans.
Proof.
  unfold arm_instruction_trans. cbn [app replicate].
  repeat (apply List.Forall_cons; [intros; reflexivity|]). constructor.
Qed.

Lemma translator_translated k inst i : 0 <= k -> translator k inst = Some i -> translated i /\ idx i = k.
Proof.
  intros Hk. unfold translator. destruct (_ !! _) as [t|] eqn:E; [|done]. intros [= <-].
  pose proof (Forall_lookup_1 _ _ _ _ table_index E inst k) as Hi. split; [|done].
  split; [by rewrite Hi|]. exists t, inst, (br (t inst k)). rewrite Hi. split; [done|]. by destruct (t inst k).
Qed.
Lemma translated_set_br b i : translated i -> translated (set_br b i).
Proof.
  intros [Hi (t & inst & b' & E & Ei)]. split; [done|]. exists t, inst, b. split; [done|].
  exact (f_equal (set_br b) Ei).
Qed.

Section Blocks.
Context {mem : Type} `{MI : MemoryInterface mem}.
Implicit Types s : ARMul_State mem.

(** ** Translation *)

Lemma DecodeThumb_size inst addr : snd (fst (DecodeThumbInstruction inst addr)) = 2.
Proof.
  unfold DecodeThumbInstruction, Thumb.TranslateThumbInstruction.
  destruct (Thumb.translate _) as [|[]]; repeat case_match; reflexivity.
Qed.
Lemma arm_trans_len : arm_instruction_trans_len = 202.
Proof. reflexivity. Qed.

Lemma DecodeThumb_translated inst addr ret w n i :
  DecodeThumbInstruction inst addr = (ret, w, n, Some i) -> translated i.
Proof.
  unfold DecodeThumbInstruction. rewrite arm_trans_len. destruct (Thumb.TranslateThumbInstruction _ _) as [[st w'] n'].
  assert (T : forall k t j, 0 <= k -> translator k t = Some j -> translated j)
    by (intros k t j Hk Hj; by apply (translator_translated k t)).
  revert T. generalize translator. intros tr T. cbv zeta. destruct st; try (intros [=]; done).
  repeat match goal with |- context [if ?b then _ else _] => destruct b end; intros [=];
    match goal with H : tr ?k _ = Some _ |- _ => apply (T k _ _) in H; [apply H | lia] end.
Qed.

Definition size_of s : Z := if truth (TFlag (status s)) then 2 else 4.

Lemma Translate_ok s a i n : InterpreterTranslateInstruction s a = inr (i, n) -> translated i /\ n = size_of s.
Proof.
  assert (D : forall inst k, match ArmDecode.DecodeARMInstruction inst with
     | (ArmDecode.SUCCESS, Some idx) =>
         match translator (Z.of_nat idx) inst with Some i => inr (i, k) | None => inl Uninitialised end
     | _ => inl Undecoded end = inr (i, n) -> translated i /\ n = k).
  { intros inst k. destruct (ArmDecode.DecodeARMInstruction inst) as [[] [d|]]; try done.
    destruct (translator _ _) eqn:E; [|done]. intros [= <- <-].
    split; [eapply translator_translated; [|done]; lia | done]. }
  unfold InterpreterTranslateInstruction, size_of. destruct (truth _); [|apply D].
  destruct (DecodeThumbInstruction _ _) as [[[st w] k] o] eqn:E.
  pose proof (DecodeThumb_size (Read32 (memory s) (Z.land a 0xFFFFFFFC)) a) as Hk. rewrite E in Hk. cbn in Hk. subst k.
  destruct st; try apply D. destruct o as [j|]; [|done]. intros [= <- <-].
  split; [by eapply DecodeThumb_translated | done].
Qed.

(** ** Failures of the translation *)

Lemma decode_loop_index inst k items excls i :
  ArmDecode.decode_loop inst k items excls = (ArmDecode.SUCCESS, Some i) -> (i < k + length items)%nat.
Proof.
  revert k excls. induction items as [|it items IH]; intros k [|ex excls]; cbn [ArmDecode.decode_loop]; try done.
  cbn [length]. destruct (ArmDecode.version it =? _); [intros H%IH; lia|].
  destruct (ArmDecode.entry_status _ _ _); [intros [= <-]; lia | intros H%IH; lia].
Qed.
Lemma decode_index inst i : ArmDecode.DecodeARMInstruction inst = (ArmDecode.SUCCESS, Some i) -> (i < 202)%nat.
Proof.
  assert (L : (length ArmDecode.arm_instruction <=? 202)%nat = true) by (vm_compute; reflexivity).
  apply Nat.leb_le in L. unfold ArmDecode.DecodeARMInstruction. intros H%decode_loop_index. lia.
Qed.
Lemma translator_some k inst : (k < 202)%nat -> exists i, translator (Z.of_nat k) inst = Some i.
Proof.
  intros Hk. unfold translator. rewrite Nat2Z.id.
  destruct (arm_instruction_trans !! k) as [t|] eqn:E; [by eexists|].
  apply lookup_ge_None in E. change (length arm_instruction_trans) with 202%nat in E. lia.
Qed.

Lemma op_range t : 0 <= Z.shiftr (Z.land t 0xF800) 11 <= 31.
Proof.
  rewrite Z.shiftr_land. change (Z.shiftr 0xF800 11) with (Z.ones 5). rewrite Z.land_ones by lia.
  pose proof (Z.mod_pos_bound (Z.shiftr t 11) (2 ^ 5)). lia.
Qed.

(** The words with status [BRANCH] have an instruction. *)
Lemma DecodeThumb_branch inst addr w n o : DecodeThumbInstruction inst addr = (Thumb.BRANCH, w, n, o) -> o <> None.
Proof.
  unfold DecodeThumbInstruction, Thumb.TranslateThumbInstruction. rewrite arm_trans_len. cbv zeta.
  set (t := Thumb.GetThumbInstruction inst addr). pose proof (op_range t) as Hop.
  assert (T : forall k, 0 <= k < 202 -> translator k t <> None).
  { intros k Hk. destruct (translator_some (Z.to_nat k) t ltac:(lia)) as [i Hi].
    rewrite Z2Nat.id in Hi by lia. by rewrite Hi. }
  revert T. generalize translator. intros tr T.
  assert (B : Thumb.translate t = Thumb.Status Thumb.BRANCH ->
    let op := Z.shiftr (Z.land t 0xF800) 11 in
    28 <= op \/ (op = 26 \/ op = 27) /\ Z.land t 0x0F00 <> 0x0E00 /\ Z.land t 0x0F00 <> 0x0F00).
  { unfold Thumb.translate. cbv zeta. intros H.
    repeat (match type of H with (if ?b then _ else _) = _ => destruct b eqn:? end; try discriminate H); zbool; try lia.
    - unfold Thumb.thumb_misc in H. cbv zeta in H.
      repeat (match type of H with (if ?b then _ else _) = _ => destruct b eqn:? end; try discriminate H).
    - right. split; [lia|]. unfold Thumb.thumb_swi in H.
      destruct (_ =? _) eqn:E1 in H; [done|]. destruct (negb _) eqn:E2 in H; [|done]. by zbool. }
  destruct (Thumb.translate t) as [|[]] eqn:E; try (intros [=]; done). specialize (B eq_refl). cbv zeta in B.
  repeat match goal with |- context [if ?b then _ else _] => destruct b eqn:? end; intros [=]; subst; try (apply T; lia);
    exfalso; zbool; rewrite ?orb_true_iff, ?andb_false_iff in *; zbool; lia.
Qed.

Lemma Translate_fail s a e : InterpreterTranslateInstruction s a = inl e -> e = Undecoded.
Proof.
  assert (D : forall inst (k : Z), match ArmDecode.DecodeARMInstruction inst with
     | (ArmDecode.SUCCESS, Some idx) =>
         match translator (Z.of_nat idx) inst with Some i => inr (i, k) | None => inl Uninitialised end
     | _ => inl Undecoded end = inl e -> e = Undecoded).
  { intros inst k. destruct (ArmDecode.DecodeARMInstruction inst) as [[] [d|]] eqn:E; try (by intros [=]).
    apply decode_index in E. destruct (translator_some d inst E) as [i ->]. done. }
  unfold InterpreterTranslateInstruction. destruct (truth _); [|apply D].
  destruct (DecodeThumbInstruction _ _) as [[[st w] k] o] eqn:E.
  destruct st; try apply D. apply DecodeThumb_branch in E. by destruct o.
Qed.

(** ** Blocks *)

(** The instruction at an address of a block: the last one of a page ends the block. *)
Definition block_inst (a : Z) (size : Z) (i : arm_inst) : arm_inst :=
  if Z.land (u32 (a + size)) 0xfff =? 0 then set_br END_OF_PAGE i else i.

(** Instructions up to the first one that is not a [NON_BRANCH]. *)
Fixpoint ends (l : list arm_inst) : Prop :=
  match l with
  | [] => False
  | i :: l => br i <> NON_BRANCH \/ ends l
  end.

Lemma block_step fuel s a r : block (S fuel) s a = Some r ->
  (exists e, InterpreterTranslateInstruction s a = inl e /\ r = inl e) \/
  (exists i, InterpreterTranslateInstruction s a = inr (i, size_of s) /\
     let j := block_inst a (size_of s) i in
     (br j <> NON_BRANCH /\ r = inr [j]) \/
     (br j = NON_BRANCH /\ exists r', block fuel s (u32 (a + size_of s)) = Some r' /\
        r = match r' with inr l => inr (j :: l) | inl e => inl e end)).
Proof.
  cbn [block]. destruct (InterpreterTranslateInstruction s a) as [e|[i n]] eqn:E; [intros [= <-]; left; eauto|].
  destruct (Translate_ok _ _ _ _ E) as [_ ->]. intros H. right. exists i. split; [done|].
  unfold block_inst. cbv zeta in *. set (j := if _ =? 0 then _ else i) in *.
  destruct (decide (br j = NON_BRANCH)) as [Hj|Hj]; [right | left; split; congruence].
  split; [done|]. destruct (block fuel s _) as [[e|l]|]; [exists (inl e)|exists (inr l)|done]; split; congruence.
Qed.

Lemma block_inst_translated a n i : translated i -> translated (block_inst a n i).
Proof. intros. unfold block_inst. destruct (_ =? _); [by apply translated_set_br | done]. Qed.

Lemma block_ok fuel s : forall a l, block fuel s a = Some (inr l) -> Forall translated l /\ ends l.
Proof.
  induction fuel as [|fuel IH]; intros a l H; [done|].
  apply block_step in H as [(e & _ & ?) | (i & Hi & H)]; [done|]. destruct (Translate_ok _ _ _ _ Hi) as [Ht _].
  apply (block_inst_translated a (size_of s)) in Ht. destruct H as [[Hb [= ->]] | (Hb & r & Hr & E)].
  - split; [by constructor | by left].
  - destruct r as [|l']; [done|]. injection E as ->. apply IH in Hr as [Hl He]. split; [by constructor | by right].
Qed.
Lemma block_fail fuel s : forall a e, block fuel s a = Some (inl e) -> e = Undecoded.
Proof.
  induction fuel as [|fuel IH]; intros a e H; [done|].
  apply block_step in H as [(e' & He & [= ->]) | (i & Hi & [[_ ?] | (_ & r & Hr & E)])]; [by eapply Translate_fail | done |].
  destruct r; [|done]. injection E as ->. by apply IH in Hr.
Qed.

Lemma u32_add_l a b : u32 (u32 a + b) = u32 (a + b).
Proof. unfold u32. by rewrite Z.add_mod_idemp_l by lia. Qed.

(** The instructions are those of successive addresses. *)
Lemma block_at fuel s : forall a l j i, is_u32 a -> block fuel s a = Some (inr l) -> l !! j = Some i ->
  exists i0, let b := u32 (a + Z.of_nat j * size_of s) in
    InterpreterTranslateInstruction s b = inr (i0, size_of s) /\ i = block_inst b (size_of s) i0.
Proof.
  induction fuel as [|fuel IH]; intros a l j i Ha H Hj; [done|].
  apply block_step in H as [(e & _ & ?) | (i0 & Hi & H)]; [done|].
  assert (H0 : j = 0%nat -> i = block_inst a (size_of s) i0 -> exists i0, let b := u32 (a + Z.of_nat j * size_of s) in
    InterpreterTranslateInstruction s b = inr (i0, size_of s) /\ i = block_inst b (size_of s) i0).
  { intros -> ->. exists i0. cbv zeta. replace (a + Z.of_nat 0 * size_of s) with a by lia. by rewrite u32_small. }
  destruct H as [[_ [= ->]] | (_ & r & Hr & E)].
  - destruct j; [|done]. injection Hj as <-. by apply H0.
  - destruct r as [|l']; [done|]. injection E as ->. destruct j as [|j]; [injection Hj as <-; by apply H0|].
    destruct (IH _ _ j i (u32_range _) Hr Hj) as (i1 & Hi1). exists i1. cbv zeta in *. rewrite u32_add_l in Hi1.
    by replace (a + Z.of_nat (S j) * size_of s) with (a + size_of s + Z.of_nat j * size_of s) by lia.
Qed.

(** Enough fuel for the rest of the page. *)
Lemma block_total fuel s : forall a, is_u32 a -> a mod size_of s = 0 ->
  4096 - a mod 4096 <= size_of s * Z.of_nat fuel -> block fuel s a <> None.
Proof.
  assert (Hs : size_of s = 2 \/ size_of s = 4) by (unfold size_of; destruct (truth _); auto).
  induction fuel as [|fuel IH]; intros a Ha Hm Hf H.
  { pose proof (Z.mod_pos_bound a 4096). lia. }
  cbn [block] in H. destruct (InterpreterTranslateInstruction s a) as [|[i n]] eqn:E; [done|].
  destruct (Translate_ok _ _ _ _ E) as [_ ->].
  change 0xfff with (Z.ones 12) in H. rewrite Z.land_ones in H by lia. change (2 ^ 12) with 4096 in H.
  assert (u32 (a + size_of s) mod size_of s = 0) by (destruct Hs as [E1|E1]; rewrite E1 in *; word_lia).
  destruct (Z.eqb_spec (u32 (a + size_of s) mod 4096) 0) as [|Hp]; [by cbn in H|].
  destruct (decide _); [|done].
  assert (block fuel s (u32 (a + size_of s)) <> None) as Hn.
  { apply IH; [apply u32_range | done |]. destruct Hs as [E1|E1]; rewrite E1 in *; word_lia. }
  by destruct (block fuel s _) as [[]|].
Qed.

(** C31: The translation of a block from an aligned address ends within a page, fails only
    at a word without a meaning, and holds the instructions of the successive words (or
    halfwords, in Thumb state) up to the first branch, the last one of a page being marked. *)
Theorem block_translates s a : is_u32 a -> a mod size_of s = 0 ->
  exists r, block page_fuel s a = Some r /\
    match r with
    | inl e => e = Undecoded
    | inr l => ends l /\
        forall j i, l !! j = Some i ->
          exists i0, let b := u32 (a + Z.of_nat j * size_of s) in
            InterpreterTranslateInstruction s b = inr (i0, size_of s) /\ i = block_inst b (size_of s) i0
    end.
Proof.
  intros Ha Hm. destruct (block page_fuel s a) as [[e|l]|] eqn:E.
  - exists (inl e). split; [done|]. by eapply block_fail.
  - exists (inr l). split; [done|]. split; [by eapply block_ok|]. intros. by eapply block_at.
  - exfalso. revert E. apply block_total; [done | done |].
    assert (size_of s = 2 \/ size_of s = 4) by (unfold size_of; destruct (truth _); auto).
    unfold page_fuel. pose proof (Z.mod_pos_bound a 4096). lia.
Qed.

End Blocks.
