(* ===== verification/ArmCore.v ===== *)
(** * ArmCore: the main loop of the ARM interpreter keeps its state well formed and ends

    Nothing is assumed of the kernel and the floating point unit: single instructions are
    the integer ones, and a run is followed up to its first system call or floating point
    instruction. *)
From stdpp Require Import gmap list.
From S2P Require Import Prelude ArmSupp ArmState ArmOperands ArmTrans ArmExec ArmMedia ArmLdSt ArmLoop.
From S2P Require Import ArmTyped ArmSafe ArmLabels ArmRun.

Local Open Scope Z_scope.

Section Core.
Context {mem : Type} `{MI : MemoryInterface mem} `{ML : !MemoryLaws mem} `{LO : !Layout}.
Implicit Types c : Core mem.

(** ** Labels *)

Lemma fits_set_br sh b i : fits sh i -> fits sh (set_br b i).
Proof. by intros (? & ? & ?). Qed.


(** The label of a translated integer instruction, with what it preserves. *)
Lemma translated_label u i : translated i -> 32 <= idx i -> (idx i = 33 -> u = false) ->
  exists l sh, InstLabel (mem := mem) !! Z.to_nat (idx i - 32) = Some l /\ fits sh i /\
    match l with Label f => label_ok u sh f | Ignore m => typed u any m | Swi => sh = sh_swi end.
Proof.
  intros [_ (t & inst & b & Ht & Ei)] Hi Hrfe. remember (Z.to_nat (idx i - 32)) as k eqn:Ek.
  assert (Hk : integer_trans !! k = Some t).
  { unfold integer_trans. rewrite lookup_drop. by replace (32 + k)%nat with (Z.to_nat (idx i)) by lia. }
  assert (Hf : fits (trans_shape t) i).
  { rewrite Ei. apply fits_set_br. by apply (Forall_lookup_1 _ _ _ _ trans_fits Hk). }
  destruct k as [|[|k]].
  - exists (Label SRS_INST), sh_ldst. split; [done|]. split; [|apply typed_SRS].
    by injection Hk as <-.
  - exists (Label RFE_INST), sh_ldst. split; [done|]. split; [by injection Hk as <- | apply typed_RFE, Hrfe; lia].
  - pose proof (labels_typed (mem := mem) u) as HF.
    assert (Hk' : drop 2 integer_trans !! k = Some t) by (by rewrite lookup_drop).
    destruct (Forall2_lookup_l _ _ _ _ _ HF Hk') as (l & Hl & HR). rewrite lookup_drop in Hl.
    exists l, (trans_shape t). by split.
Qed.

(** What an integer label keeps, other than that of [SWI]. *)
Lemma integer_label_typed `{SI : !SVCInterface mem} `{VI : !VFPInterface mem} u i n c :
  translated i -> 32 <= idx i -> (forall num, comp i <> swi_inst num) -> (idx i = 33 -> u = false) ->
  state_ok u (cpu c) ->
  match run_label i n c with
  | inl e => allowed e
  | inr (_, n', c') => n' = n /\ state_ok u (cpu c')
  end.
Proof.
  intros Hi Hv Hswi Hrfe Hc.
  assert (R : forall m : M mem next, typed u any m ->
    match (match on_cpu m c with inl e => inl e | inr (r, c) => inr (r, n, c) end) with
    | inl e => allowed e | inr (_, n', c') => n' = n /\ state_ok u (cpu c') end).
  { intros m Hm. unfold on_cpu. specialize (Hm _ Hc). destruct (m (cpu c)) as [e|[r s]]; [done|].
    split; [done | apply Hm]. }
  unfold run_label, VFP_LABELS. destruct (Z.ltb_spec (idx i) 32); [lia|].
  destruct (translated_label u i Hi Hv Hrfe) as (l & sh & -> & Hf & Hl).
  destruct l as [f|m|]; [apply R, Hl, Hf | apply R, Hl |]. subst sh. exfalso.
  destruct Hf as [Hs _]. destruct (comp i) eqn:Ec; try discriminate Hs. by apply (Hswi num).
Qed.

(** ** States of the loop *)






#[local] Existing Instance absent_kernel.
#[local] Existing Instance absent_vfp.



(** ** Dispatch *)






(** ** The loop *)








(** ** With a kernel and a floating point unit

    A run that ends without them is that of any kernel and floating point unit. *)

Section Present.
Context (SI : SVCInterface mem) (VI : VFPInterface mem).
Abbreviation run_label0 := (run_label (SVC := absent_kernel) (VI := absent_vfp)).
Abbreviation goto_next_inst0 := (goto_next_inst (SVC := absent_kernel) (VI := absent_vfp)).
Abbreviation main_loop0 := (main_loop (SVC := absent_kernel) (VI := absent_vfp)).







End Present.

(** ** The properties *)

(** C7: The table of translators and the table of labels agree on the integer instructions
    (the labels from 32 on; those before are the floating point ones) other than [SWI]: what
    such a translator builds from any word keeps the processor well formed when its label runs (sixteen words as
    registers, banks, flags of one bit, a mode of five bits), and fails at most by an access
    past the register file or a call of a null function; it never reads another structure
    than the one its translator built, nor a field that was not set. *)
Theorem instruction_typed `{SI : !SVCInterface mem} `{VI : !VFPInterface mem} k inst i n c :
  translator k inst = Some i -> 32 <= k ->
  (forall num, comp i <> swi_inst num) -> state_ok false (cpu c) ->
  match run_label i n c with
  | inl e => e = RegisterIndex \/ e = NullFunction
  | inr (_, n', c') => n' = n /\ state_ok false (cpu c')
  end.
Proof.
  intros Hi Hk Hswi Hc. apply translator_translated in Hi as [Hi Ek]; [|lia].
  apply (integer_label_typed false); done || lia.
Qed.

(** C28: In user mode no integer instruction (a label from 32 on) but [RFE] and [SWI]
    changes the mode, in the processor or in the mode bits of its status word. *)
Theorem user_mode_confined `{SI : !SVCInterface mem} `{VI : !VFPInterface mem} k inst i n c :
  translator k inst = Some i -> 32 <= k -> k <> 33 ->
  (forall num, comp i <> swi_inst num) -> state_ok false (cpu c) ->
  Mode (status (cpu c)) = USER32MODE -> Z.land (Cpsr (status (cpu c))) 31 = USER32MODE ->
  match run_label i n c with
  | inl e => e = RegisterIndex \/ e = NullFunction
  | inr (_, _, c') => Mode (status (cpu c')) = USER32MODE /\ Z.land (Cpsr (status (cpu c'))) 31 = USER32MODE
  end.
Proof.
  intros Hi Hk Hne Hswi Hc Hm Hl. apply translator_translated in Hi as [Hi Ek]; [|lia].
  assert (Hu : state_ok true (cpu c)).
  { destruct Hc as [R B P C]. split; try done. destruct P. split; try done; by intros _. }
  pose proof (integer_label_typed true i n c Hi ltac:(lia) Hswi ltac:(lia) Hu) as H.
  destruct (run_label i n c) as [e|[[r n'] c']]; [done|]. destruct H as (_ & [_ _ P _]).
  split; [by apply (ok_user _ _ P) | by apply (ok_low _ _ P)].
Qed.


End Core.
