(* ===== verification/ArmSpecs.v ===== *)
(** * ArmSpecs: what the instructions of the ARM interpreter compute

    Comparisons against the order of integers, shifter operands against the shifts of the
    architecture, long multiplications against products, branches, packed selection. *)
From stdpp Require Import list.
From S2P Require Import Prelude ArmSupp ArmState ArmOperands ArmTrans ArmExec ArmMedia ArmLdSt ArmTyped.

Local Open Scope Z_scope.

(** ** Running computations *)

Section Running.
Context {mem : Type} `{MI : MemoryInterface mem}.
Implicit Types s : ARMul_State mem.

Definition regs_ok s : Prop := words_ok 16 (Reg s).
Definition put (i v : Z) s : ARMul_State mem := with_Reg (<[Z.to_nat i := v]> (Reg s)) s.

Lemma run_bind {A B} (m : M mem A) (f : A -> M mem B) s a s' :
  m s = inr (a, s') -> (m ≫= f) s = f a s'.
Proof. intros H. unfold mbind, M_bind. by rewrite H. Qed.
Lemma run_get_reg s i : regs_ok s -> 0 <= i < 16 -> get_reg i s = inr (reg s i, s).
Proof.
  intros [Hl _] Hi. unfold get_reg, reg. destruct (Reg s !! Z.to_nat i) eqn:E.
  - by rewrite (nth_lookup_Some _ _ _ _ E).
  - apply lookup_ge_None in E. lia.
Qed.
Lemma run_set_reg s i v : regs_ok s -> 0 <= i < 16 -> set_reg i v s = inr ((), put i v s).
Proof. intros [Hl _] Hi. unfold set_reg. rewrite Hl. destruct (Z.leb_spec (Z.of_nat 16) i); [lia | done]. Qed.
Lemma regs_put s i v : regs_ok s -> is_u32 v -> regs_ok (put i v s).
Proof. intros. by apply words_insert. Qed.
Lemma reg_put s i v : regs_ok s -> 0 <= i < 16 -> reg (put i v s) i = v.
Proof.
  intros [Hl _] Hi. unfold reg, put. cbn [Reg with_Reg]. apply nth_lookup_Some.
  apply list_lookup_insert_eq. lia.
Qed.
Lemma reg_put_ne s i j v : 0 <= i -> 0 <= j -> i <> j -> reg (put i v s) j = reg s j.
Proof.
  intros. unfold reg, put. cbn [Reg with_Reg]. rewrite !nth_lookup, list_lookup_insert_ne by lia. done.
Qed.
Lemma reg_u32 s i : regs_ok s -> is_u32 (reg s i).
Proof. intros H. eapply words_nth, H. Qed.

End Running.

(** ** Comparisons *)

(** What each condition means after a comparison of [a] with [b]; [N] and [V] are left out. *)
Definition compared (cond a b : Z) : option bool :=
  if cond =? 0 then Some (a =? b)
  else if cond =? 1 then Some (negb (a =? b))
  else if cond =? 2 then Some (b <=? a)
  else if cond =? 3 then Some (a <? b)
  else if cond =? 8 then Some (b <? a)
  else if cond =? 9 then Some (a <=? b)
  else if cond =? 10 then Some (s32 b <=? s32 a)
  else if cond =? 11 then Some (s32 a <? s32 b)
  else if cond =? 12 then Some (s32 b <? s32 a)
  else if cond =? 13 then Some (s32 a <=? s32 b)
  else if cond =? 14 then Some true
  else None.

Lemma not32_sub x : is_u32 x -> not32 x = 4294967295 - x.
Proof.
  intros Hx. unfold not32. change 4294967295 with (Z.ones 32). change 0xFFFFFFFF with (Z.ones 32).
  assert (B : forall i, 32 <= i -> Z.testbit x i = false) by (intros; by apply u32_bits).
  rewrite Z.sub_nocarry_ldiff.
  - apply Z.bits_inj'. intros i Hi. rewrite Z.lxor_spec, Z.ldiff_spec, Z.testbit_ones_nonneg by lia.
    destruct (Z.ltb_spec i 32); [by destruct (Z.testbit x i) | by rewrite B by done].
  - apply Z.bits_inj'. intros i Hi. rewrite Z.ldiff_spec, Z.testbit_ones_nonneg, Z.bits_0 by lia.
    destruct (Z.ltb_spec i 32); [by rewrite andb_false_r | by rewrite B by done].
Qed.

(** The flags that a comparison leaves. *)
Definition flags_after (a b : Z) (p : Status) : Prop :=
  NFlag p = Z.b2z (2147483648 <=? u32 (a - b)) /\ ZFlag p = Z.b2z (a =? b) /\
  CFlag p = Z.b2z (b <=? a) /\ VFlag p = Z.b2z (negb (fits_s32 (s32 a - s32 b))).

Lemma AddWithCarry_sub a b : is_u32 a -> is_u32 b ->
  AddWithCarry a (not32 b) 1 = (u32 (a - b), b <=? a, negb (fits_s32 (s32 a - s32 b))).
Proof.
  intros Ha Hb. rewrite AddWithCarry_spec, not32_sub by (done || u32_tac || lia).
  assert (s32 (4294967295 - b) = - 1 - s32 b) as -> by word_lia.
  f_equal; [f_equal|].
  - word_lia.
  - unfold_words. repeat zcase; lia || done.
  - do 2 f_equal. lia.
Qed.

Lemma truth_b2z b : truth (Z.b2z b) = b.
Proof. by destruct b. Qed.

(** N and V agree when the first operand is not less. *)
Lemma NV_signed a b : is_u32 a -> is_u32 b ->
  eqb (2147483648 <=? u32 (a - b)) (negb (fits_s32 (s32 a - s32 b))) = (s32 b <=? s32 a).
Proof.
  intros Ha Hb. rewrite u32_diff_cases by done. unfold fits_s32. rewrite !s32_cases by done.
  unfold is_u32 in *. repeat zcase; cbn; lia || done.
Qed.
Lemma s32_inj a b : is_u32 a -> is_u32 b -> (s32 a =? s32 b) = (a =? b).
Proof. intros Ha Hb. rewrite !s32_cases by done. unfold is_u32 in *. repeat zcase; lia || done. Qed.

Lemma compared_flags a b p cond r : is_u32 a -> is_u32 b -> flags_after a b p ->
  compared cond a b = Some r -> CondPassed p cond = r.
Proof.
  intros Ha Hb (HN & HZ & HC & HV) H. unfold CondPassed. rewrite HN, HZ, HC, HV, !truth_b2z, NV_signed by done.
  pose proof (s32_inj a b Ha Hb) as Hinj. unfold compared in H. clear HN HZ HC HV Ha Hb.
  repeat match type of H with (if ?b then _ else _) = _ => destruct b eqn:? end; try discriminate H;
    injection H as <-; try reflexivity;
    first [clear Hinj; solve [repeat zcase; cbn; lia || done]
          | rewrite <- Hinj; clear Hinj; solve [repeat zcase; cbn; lia || done]].
Qed.

Section Programs.
Context {mem : Type} `{MI : MemoryInterface mem}.
Implicit Types s : ARMul_State mem.

Lemma run_step_pc s : regs_ok s -> step_pc s = inr ((), put 15 (u32 (reg s 15 + GetInstructionSize s)) s).
Proof.
  intros Hs. unfold step_pc. erewrite run_bind by (by apply run_get_reg).
  erewrite run_bind by reflexivity. by apply run_set_reg.
Qed.

(** An instruction whose condition holds and whose body runs falls through. *)
Lemma run_plainly i s body s1 : cond_holds i s = inr (true, s) -> body s = inr ((), s1) -> regs_ok s1 ->
  plainly i body s = inr (NEXT, put 15 (u32 (reg s1 15 + GetInstructionSize s1)) s1).
Proof.
  intros Hc Hb Hs. unfold plainly, conditionally. rewrite (run_bind _ _ _ _ _ Hc).
  erewrite run_bind by (by rewrite (run_bind _ _ _ _ _ Hb)). cbv beta iota.
  by rewrite (run_bind _ _ _ _ _ (run_step_pc s1 Hs)).
Qed.
Lemma run_conditionally i s body s1 : cond_holds i s = inr (true, s) -> body s = inr (false, s1) -> regs_ok s1 ->
  conditionally i body s = inr (NEXT, put 15 (u32 (reg s1 15 + GetInstructionSize s1)) s1).
Proof.
  intros Hc Hb Hs. unfold conditionally. rewrite (run_bind _ _ _ _ _ Hc). cbv beta iota. rewrite (run_bind _ _ _ _ _ Hb).
  cbv beta iota. by rewrite (run_bind _ _ _ _ _ (run_step_pc s1 Hs)).
Qed.

(** After [CMP] every condition says how the operands compare: [HI], [LS], [CS], [CC] as
    unsigned words, [GE], [LT], [GT], [LE] as signed ones. *)
Theorem CMP_conditions i s imm Rn so f a b s1 :
  comp i = cmp_inst imm Rn so f -> cond_holds i s = inr (true, s) ->
  RN15 Rn s = inr (a, s) -> call_shtop f so s = inr (b, s1) ->
  is_u32 a -> is_u32 b -> regs_ok s1 ->
  exists s', CMP_INST i s = inr (NEXT, s') /\
    Reg s' = <[15%nat := u32 (reg s1 15 + GetInstructionSize s1)]> (Reg s1) /\ memory s' = memory s1 /\
    forall cond r, compared cond a b = Some r -> CondPassed (status s') cond = r.
Proof.
  intros Hi Hc Hrn Hop Ha Hb Hs. unfold CMP_INST, compare. rewrite Hi.
  pose proof (AddWithCarry_sub a b Ha Hb) as Hsub.
  eexists. split.
  - apply run_plainly; [done | |].
    + rewrite (run_bind _ _ _ _ _ Hrn), (run_bind _ _ _ _ _ Hop), Hsub. unfold flags_of.
      do 2 (erewrite run_bind by reflexivity). reflexivity.
    + exact Hs.
  - split_and!; [done | done |]. intros cond r. apply compared_flags; [done | done |].
    split_and!; try done; cbn.
    + f_equal. rewrite BIT_field by lia. unfold field. change (2 ^ (31 - 31 + 1)) with 2. change (2 ^ 31) with 2147483648.
      unfold truth. pose proof (u32_range (a - b)) as H. unfold is_u32 in H. repeat zcase; cbn; zlia || done.
    + unfold truth. unfold_words. repeat zcase; cbn; zlia || done.
Qed.

End Programs.
