(* ===== verification/ArmShift.v ===== *)
(** * ArmShift: the shifter operands against the shifts of the architecture *)
From stdpp Require Import list.
From S2P Require Thumb.
From S2P Require Import Prelude ArmSupp ArmState ArmOperands ArmTrans ArmExec ArmTyped ArmSpecs.

Local Open Scope Z_scope.

(** ** The reference *)

Inductive SRType := SR_LSL | SR_LSR | SR_ASR | SR_ROR | SR_RRX.

(** The value and the carry of a shift of the word [x] by [n], on integers. *)
Definition Shift_C (x : Z) (t : SRType) (n c : Z) : Z * Z :=
  match t with
  | SR_RRX => (c * 2 ^ 31 + x / 2, x mod 2)
  | _ =>
      if n =? 0 then (x, c)
      else
        match t with
        | SR_LSL => ((x * 2 ^ n) mod 2 ^ 32, (x * 2 ^ n / 2 ^ 32) mod 2)
        | SR_LSR => (x / 2 ^ n, (x / 2 ^ (n - 1)) mod 2)
        | SR_ASR => ((s32 x / 2 ^ n) mod 2 ^ 32, (s32 x / 2 ^ (n - 1)) mod 2)
        | _ => let m := n mod 32 in
               let r := x / 2 ^ m + (x * 2 ^ (32 - m)) mod 2 ^ 32 in (r, r / 2 ^ 31)
        end
  end.

(** The shifts of the two bits of a word, by an immediate and by a register. *)
Definition DecodeImmShift (t imm5 : Z) : SRType * Z :=
  if t =? 0 then (SR_LSL, imm5)
  else if t =? 1 then (SR_LSR, if imm5 =? 0 then 32 else imm5)
  else if t =? 2 then (SR_ASR, if imm5 =? 0 then 32 else imm5)
  else if imm5 =? 0 then (SR_RRX, 1) else (SR_ROR, imm5).
Definition DecodeRegShift (t : Z) : SRType :=
  if t =? 0 then SR_LSL else if t =? 1 then SR_LSR else if t =? 2 then SR_ASR else SR_ROR.

Definition shifter_reference (inst c rm rs : Z) : Z * Z :=
  if field inst 25 25 =? 1 then Shift_C (field inst 0 7) SR_ROR (2 * field inst 8 11) c
  else if field inst 4 4 =? 0 then
    let '(t, n) := DecodeImmShift (field inst 5 6) (field inst 7 11) in Shift_C rm t n c
  else Shift_C rm (DecodeRegShift (field inst 5 6)) (rs mod 256) c.

(** ** Shifts of the machine *)

Lemma shl32_mul x n : 0 <= n < 32 -> shl32 x n = (x * 2 ^ n) mod 2 ^ 32.
Proof. intros Hn. unfold shl32. rewrite Z.mod_small, Z.shiftl_mul_pow2 by lia. reflexivity. Qed.
Lemma shr32_div x n : 0 <= n < 32 -> shr32 x n = x / 2 ^ n.
Proof. intros Hn. unfold shr32. by rewrite Z.mod_small, Z.shiftr_div_pow2 by lia. Qed.
Lemma asr32_div x n : 0 <= n -> asr32 x n = (s32 x / 2 ^ n) mod 2 ^ 32.
Proof. intros Hn. unfold asr32. by rewrite Z.shiftr_div_pow2 by done. Qed.
Lemma BIT_div x n : 0 <= n -> BIT x n = (x / 2 ^ n) mod 2.
Proof.
  intros Hn. unfold BIT. rewrite Z.shiftr_div_pow2 by done. change 1 with (Z.ones 1). by rewrite Z.land_ones.
Qed.

Lemma pow_split a b : 0 <= a -> 0 <= b -> 2 ^ (a + b) = 2 ^ a * 2 ^ b.
Proof. intros. by apply Z.pow_add_r. Qed.

(** The last bit that a left shift moves out. *)
Lemma carry_left x n : 0 <= n <= 32 -> (x * 2 ^ n / 2 ^ 32) mod 2 = (x / 2 ^ (32 - n)) mod 2.
Proof.
  intros Hn. f_equal. replace 32 with ((32 - n) + n) at 1 by lia. rewrite pow_split by lia.
  rewrite Z.div_mul_cancel_r; [done | |]; pose proof (Z.pow_pos_nonneg 2 n); pose proof (Z.pow_pos_nonneg 2 (32 - n)); lia.
Qed.
Lemma carry_left_0 x n : 32 < n -> (x * 2 ^ n / 2 ^ 32) mod 2 = 0.
Proof.
  intros Hn. replace n with ((n - 33) + 33) by lia. rewrite pow_split by lia. change (2 ^ 33) with (2 * 2 ^ 32).
  replace (x * (2 ^ (n - 33) * (2 * 2 ^ 32))) with (x * 2 ^ (n - 33) * 2 * 2 ^ 32) by ring.
  rewrite Z.div_mul, Z.mod_mul by lia. done.
Qed.
Lemma left_0 x n : 32 <= n -> (x * 2 ^ n) mod 2 ^ 32 = 0.
Proof.
  intros Hn. replace n with ((n - 32) + 32) by lia. rewrite pow_split, Z.mul_assoc by lia. by apply Z.mod_mul.
Qed.
Lemma right_0 x n : is_u32 x -> 32 <= n -> x / 2 ^ n = 0.
Proof.
  intros Hx Hn. apply Z.div_small. assert (2 ^ 32 <= 2 ^ n) by (apply Z.pow_le_mono_r; lia). unfold is_u32 in Hx. lia.
Qed.
(** Far right shifts of a signed word give its sign. *)
Lemma right_sign x n : is_u32 x -> 31 <= n -> s32 x / 2 ^ n = if BIT x 31 =? 0 then 0 else -1.
Proof.
  intros Hx Hn. rewrite BIT_div, s32_cases by (done || lia). unfold is_u32 in Hx.
  assert (2 ^ 31 <= 2 ^ n) by (apply Z.pow_le_mono_r; lia). change (2 ^ 31) with 2147483648 in *.
  destruct (Z.ltb_spec x 2147483648).
  - rewrite Z.div_small by lia. rewrite (Z.div_small x) by lia. done.
  - destruct (Z.eqb_spec (x / 2147483648 mod 2) 0); [zlia|].
    symmetry. apply (Z.div_unique _ _ _ (x - 4294967296 + 2 ^ n)); lia.
Qed.
Lemma carry_asr x n : is_u32 x -> 1 <= n < 32 -> (s32 x / 2 ^ (n - 1)) mod 2 = (x / 2 ^ (n - 1)) mod 2.
Proof.
  intros Hx Hn. rewrite s32_cases by done. destruct (x <? _); [done|].
  replace 4294967296 with (2 ^ (32 - n) * 2 * 2 ^ (n - 1)).
  2:{ change 4294967296 with (2 ^ 32). change 2 with (2 ^ 1) at 2. rewrite <- !Z.pow_add_r by lia. f_equal. lia. }
  replace (x - 2 ^ (32 - n) * 2 * 2 ^ (n - 1)) with (x + - (2 ^ (32 - n) * 2) * 2 ^ (n - 1)) by ring.
  rewrite Z.div_add by (pose proof (Z.pow_pos_nonneg 2 (n - 1)); lia).
  replace (x / 2 ^ (n - 1) + - (2 ^ (32 - n) * 2)) with (x / 2 ^ (n - 1) + - (2 ^ (32 - n)) * 2) by ring.
  by rewrite Z.mod_add.
Qed.

(** A rotation: the two parts do not meet. *)
Lemma rotate_sum x m : is_u32 x -> 0 <= m < 32 ->
  ROTATE_RIGHT_32 x m = x / 2 ^ m + (x * 2 ^ (32 - m)) mod 2 ^ 32.
Proof.
  intros Hx Hm. unfold ROTATE_RIGHT_32. destruct (Z.eq_dec m 0) as [->|Hne].
  { change ((32 - 0)) with 32. unfold shl32, shr32. change (32 mod 32) with 0. change (0 mod 32) with 0.
    rewrite Z.shiftl_0_r, Z.shiftr_0_r, u32_small, Z.lor_diag, left_0, Z.pow_0_r, Z.div_1_r by done. lia. }
  rewrite shl32_mul, shr32_div by lia. rewrite (lor_add _ _ (32 - m)); [lia | lia | |].
  - split; [apply Z.div_pos; [unfold is_u32 in Hx; lia | apply Z.pow_pos_nonneg; lia]|].
    apply Z.div_lt_upper_bound; [apply Z.pow_pos_nonneg; lia|]. rewrite <- Z.pow_add_r by lia.
    replace (m + (32 - m)) with 32 by lia. unfold is_u32 in Hx. lia.
  - replace 32 with ((32 - m) + m) at 2 by lia. rewrite pow_split by lia.
    rewrite (Z.mul_comm x), Z.mul_mod_distr_l.
    + rewrite Z.mul_comm. apply Z.mod_mul. apply Z.pow_nonzero; lia.
    + apply Z.pow_nonzero; lia.
    + apply Z.pow_nonzero; lia.
Qed.
Lemma rotate_top x m : is_u32 x -> 1 <= m < 32 -> ROTATE_RIGHT_32 x m / 2 ^ 31 = (x / 2 ^ (m - 1)) mod 2.
Proof.
  intros Hx Hm. pose proof (ROTATE_RIGHT_32_u32 x m Hx) as Hr.
  rewrite <- !BIT_div by lia.
  assert (ROTATE_RIGHT_32 x m / 2 ^ 31 = BIT (ROTATE_RIGHT_32 x m) 31) as ->.
  { rewrite BIT_div by lia. symmetry. apply Z.mod_small. unfold is_u32 in Hr. change (2 ^ 31) with 2147483648. zlia. }
  unfold BIT. apply Z.bits_inj'. intros i Hi. rewrite !Z.land_spec, !Z.shiftr_spec by done.
  change 1 with (Z.ones 1). rewrite Z.testbit_ones_nonneg by lia.
  destruct (Z.ltb_spec i 1); [|by rewrite !andb_false_r]. rewrite !andb_true_r. replace i with 0 by lia. rewrite !Z.add_0_l.
  unfold ROTATE_RIGHT_32, shl32, shr32, u32. change 4294967296 with (2 ^ 32).
  rewrite (Z.mod_small (32 - m)), (Z.mod_small m) by lia.
  rewrite Z.lor_spec, Z.mod_pow2_bits_low, Z.shiftl_spec, Z.shiftr_spec by lia.
  rewrite (u32_bits x (31 + m)) by (done || lia). rewrite orb_false_r. change (Z.ones 1) with 1. f_equal. lia.
Qed.

(** ** The functions *)

Section Shifter.
Context {mem : Type} `{MI : MemoryInterface mem}.
Implicit Types s : ARMul_State mem.

(** A register as a shifter operand. *)
Definition operand_reg s (r : Z) : Z :=
  if r =? 15 then u32 (Z.land (reg s 15) 0xFFFFFFFE + GetInstructionSize s * 2) else reg s r.

Definition with_carry (r : Z * Z) s : cpu_fault + (Z * ARMul_State mem) :=
  inr (fst r, with_status (with_shifter_carry_out (snd r) (status s)) s).

Lemma run_read15 s r : regs_ok s -> 0 <= r < 16 -> CHECK_READ_REG15 r s = inr (operand_reg s r, s).
Proof.
  intros Hs Hr. unfold CHECK_READ_REG15. erewrite run_bind by (by apply run_get_reg).
  erewrite run_bind by reflexivity. unfold operand_reg. destruct (Z.eqb_spec r 15) as [->|]; done.
Qed.
Lemma run_operand v c s : operand v c s = with_carry (v, c) s.
Proof. done. Qed.
Lemma run_operand_c v s : operand_c v s = with_carry (v, CFlag (status s)) s.
Proof. done. Qed.

Lemma operand_reg_u32 s r : regs_ok s -> is_u32 (operand_reg s r).
Proof. intros. unfold operand_reg. destruct (r =? 15); [apply u32_range | by apply reg_u32]. Qed.

Lemma with_carry_eq a b c d s : a = c -> b = d -> with_carry (a, b) s = with_carry (c, d) s.
Proof. by intros -> ->. Qed.

(** Shifts by an amount from 1 to 31, and beyond. *)
Lemma shift_lsl x n c s : is_u32 x -> 1 <= n < 32 ->
  with_carry (shl32 x n, BIT x (32 - n)) s = with_carry (Shift_C x SR_LSL n c) s.
Proof.
  intros Hx Hn. unfold Shift_C. zdecide. apply with_carry_eq; [by apply shl32_mul; lia|].
  by rewrite BIT_div, carry_left by lia.
Qed.
Lemma shift_lsr x n c s : is_u32 x -> 1 <= n < 32 ->
  with_carry (shr32 x n, BIT x (n - 1)) s = with_carry (Shift_C x SR_LSR n c) s.
Proof.
  intros Hx Hn. unfold Shift_C. zdecide. apply with_carry_eq; [by apply shr32_div; lia | by apply BIT_div; lia].
Qed.
Lemma shift_asr x n c s : is_u32 x -> 1 <= n < 32 ->
  with_carry (asr32 x n, BIT x (n - 1)) s = with_carry (Shift_C x SR_ASR n c) s.
Proof.
  intros Hx Hn. unfold Shift_C. zdecide. apply with_carry_eq; [by apply asr32_div; lia|].
  by rewrite carry_asr, BIT_div by (done || lia).
Qed.
Lemma shift_asr_far x n c s : is_u32 x -> 32 <= n ->
  with_carry (if BIT x 31 =? 0 then 0 else 0xffffffff, BIT x 31) s = with_carry (Shift_C x SR_ASR n c) s.
Proof.
  intros Hx Hn. unfold Shift_C. zdecide. rewrite !right_sign by (done || lia).
  pose proof (bit_BIT x 31) as Hb. unfold is_bit in Hb.
  apply with_carry_eq; [by destruct (_ =? 0)|].
  assert (BIT x 31 = 0 \/ BIT x 31 = 1) as [-> | ->] by lia; done.
Qed.
Lemma shift_ror x n m c s : is_u32 x -> 1 <= n -> n mod 32 = m -> 1 <= m ->
  with_carry (ROTATE_RIGHT_32 x m, BIT x (m - 1)) s = with_carry (Shift_C x SR_ROR n c) s.
Proof.
  intros Hx Hn Hm Hm1. unfold Shift_C. zdecide. pose proof (Z.mod_pos_bound n 32 ltac:(lia)). rewrite Hm.
  rewrite <- rotate_sum by (done || lia). cbv zeta.
  apply with_carry_eq; [done|]. by rewrite rotate_top, BIT_div by (done || lia).
Qed.
Lemma shift_zero x t s : t <> SR_RRX -> with_carry (x, CFlag (status s)) s = with_carry (Shift_C x t 0 (CFlag (status s))) s.
Proof. by destruct t. Qed.

Lemma lsl_by n x s : is_u32 x -> 0 <= n -> (if n =? 0 then with_carry (x, CFlag (status s)) s
  else if n <? 32 then with_carry (shl32 x n, BIT x (32 - n)) s
  else if n =? 32 then with_carry (0, BIT x 0) s else with_carry (0, 0) s) =
  with_carry (Shift_C x SR_LSL n (CFlag (status s))) s.
Proof.
  intros Hx Hn. destruct (Z.eqb_spec n 0) as [->|]; [by apply shift_zero|].
  destruct (Z.ltb_spec n 32); [apply shift_lsl; lia || done|]. unfold Shift_C. zdecide.
  destruct (Z.eqb_spec n 32) as [->|]; apply with_carry_eq; rewrite ?left_0, ?carry_left_0, ?BIT_div by lia; try done.
  rewrite Z.div_mul by done. by rewrite Z.pow_0_r, Z.div_1_r.
Qed.
Lemma lsr_by n x s : is_u32 x -> 0 <= n -> (if n =? 0 then with_carry (x, CFlag (status s)) s
  else if n <? 32 then with_carry (shr32 x n, BIT x (n - 1)) s
  else if n =? 32 then with_carry (0, BIT x 31) s else with_carry (0, 0) s) =
  with_carry (Shift_C x SR_LSR n (CFlag (status s))) s.
Proof.
  intros Hx Hn. destruct (Z.eqb_spec n 0) as [->|]; [by apply shift_zero|].
  destruct (Z.ltb_spec n 32); [apply shift_lsr; lia || done|]. unfold Shift_C. zdecide.
  destruct (Z.eqb_spec n 32) as [->|]; apply with_carry_eq; rewrite ?right_0, ?BIT_div by (done || lia); try done.
Qed.
Lemma asr_by n x s : is_u32 x -> 0 <= n -> (if n =? 0 then with_carry (x, CFlag (status s)) s
  else if n <? 32 then with_carry (asr32 x n, BIT x (n - 1)) s
  else with_carry (if BIT x 31 =? 0 then 0 else 0xffffffff, BIT x 31) s) =
  with_carry (Shift_C x SR_ASR n (CFlag (status s))) s.
Proof.
  intros Hx Hn. destruct (Z.eqb_spec n 0) as [->|]; [by apply shift_zero|].
  destruct (Z.ltb_spec n 32); [apply shift_asr; lia || done | by apply shift_asr_far].
Qed.
Lemma ror_by n x s : is_u32 x -> 0 <= n -> (if n =? 0 then with_carry (x, CFlag (status s)) s
  else if n mod 32 =? 0 then with_carry (x, BIT x 31) s
  else with_carry (ROTATE_RIGHT_32 x (n mod 32), BIT x (n mod 32 - 1)) s) =
  with_carry (Shift_C x SR_ROR n (CFlag (status s))) s.
Proof.
  intros Hx Hn. destruct (Z.eqb_spec n 0) as [->|]; [by apply shift_zero|].
  pose proof (Z.mod_pos_bound n 32). destruct (Z.eqb_spec (n mod 32) 0) as [E|]; [|apply shift_ror; lia || done].
  unfold Shift_C. zdecide. rewrite E. rewrite left_0, Z.pow_0_r, Z.div_1_r, Z.add_0_r by lia.
  apply with_carry_eq; [done|]. rewrite BIT_div by lia. apply Z.mod_small. unfold is_u32 in Hx.
  change (2 ^ 31) with 2147483648. zlia.
Qed.

(** ** Decoding *)

Lemma sub_BITS inst a b : is_u32 inst -> 0 <= a <= b -> b <= 11 -> BITS (BITS inst 0 11) a b = field inst a b.
Proof.
  intros Hi Ha Hb. rewrite (BITS_field inst) by (done || lia).
  rewrite BITS_field by (pose proof (field_range inst 0 11); unfold_words; lia).
  rewrite (Thumb.field_sub inst a b 0 11) by lia. by rewrite !Z.sub_0_r.
Qed.

(** The bits 4 to 11, by their parts. *)
Record operand_bits (inst b4 t imm5 : Z) : Prop := {
  bits_b4 : is_bit b4;
  bits_t : 0 <= t < 4;
  bits_imm5 : 0 <= imm5 < 32;
  bits_4_4 : field inst 4 4 = b4;
  bits_5_6 : field inst 5 6 = t;
  bits_7_11 : field inst 7 11 = imm5;
  bits_4_6 : field inst 4 6 = b4 + 2 * t;
  bits_4_7 : field inst 4 7 = b4 + 2 * t + 8 * (imm5 mod 2);
  bits_4_11 : field inst 4 11 = b4 + 2 * t + 8 * imm5 }.

Lemma operand_bits_of inst : operand_bits inst (field inst 4 4) (field inst 5 6) (field inst 7 11).
Proof.
  unfold is_bit, field; split; try done; try (by apply Z.mod_pos_bound); unfold field;
    change (2 ^ 4) with 16; change (2 ^ 5) with 32; change (2 ^ 7) with 128;
    change (2 ^ (4 - 4 + 1)) with 2; change (2 ^ (6 - 5 + 1)) with 4; change (2 ^ (11 - 7 + 1)) with 32;
    change (2 ^ (6 - 4 + 1)) with 8; change (2 ^ (7 - 4 + 1)) with 16; change (2 ^ (11 - 4 + 1)) with 256; zlia.
Qed.

Lemma run_Immediate s inst : is_u32 inst -> Immediate (BITS inst 0 11) s =
  with_carry (Shift_C (field inst 0 7) SR_ROR (2 * field inst 8 11) (CFlag (status s))) s.
Proof.
  intros Hi. unfold Immediate. cbv zeta.
  rewrite (sub_BITS inst 0 7), (sub_BITS inst 8 11) by (done || lia).
  pose proof (field_range inst 8 11 ltac:(lia)) as Hr. change (2 ^ (11 - 8 + 1)) with 16 in Hr.
  assert (H8 : is_u32 (field inst 0 7)) by (pose proof (field_range inst 0 7); unfold_words; lia).
  rewrite <- ror_by by (done || lia). rewrite (Z.mul_comm _ 2). rewrite (Z.mod_small (2 * _)) by lia.
  destruct (Z.eqb_spec (field inst 8 11) 0) as [E|]; rewrite ?run_operand_c, ?run_operand.
  - rewrite E. cbn [Z.mul Z.eqb]. apply with_carry_eq; [|done]. rewrite rotate_sum by (done || lia).
    rewrite left_0, Z.pow_0_r, Z.div_1_r by lia. lia.
  - zdecide. apply with_carry_eq; [done|]. set (m := 2 * field inst 8 11) in *.
    pose proof (ROTATE_RIGHT_32_u32 _ m H8) as Hu. transitivity (ROTATE_RIGHT_32 (field inst 0 7) m / 2 ^ 31).
    + rewrite BIT_div by lia. apply Z.mod_small. unfold is_u32 in Hu. change (2 ^ 31) with 2147483648. zlia.
    + rewrite rotate_top by (done || lia). symmetry. apply BIT_div. lia.
Qed.

Lemma rrx_lor c x : is_bit c -> is_u32 x -> Z.lor (shl32 c 31) (shr32 x 1) = c * 2 ^ 31 + x / 2.
Proof.
  intros Hc Hx. unfold is_bit in Hc. rewrite shl32_mul, shr32_div by lia. change (2 ^ 1) with 2.
  rewrite (Z.mod_small (c * 2 ^ 31)) by (change (2 ^ 31) with 2147483648; change (2 ^ 32) with 4294967296; lia).
  apply (lor_add _ _ 31); [lia | unfold is_u32 in Hx; change (2 ^ 31) with 2147483648; zlia | by apply Z.mod_mul].
Qed.

(** The shifts by an immediate and by a register, on decoded fields. *)
Definition shift_operand (b4 t imm5 c rm rs : Z) : Z * Z :=
  if b4 =? 0 then let '(t, n) := DecodeImmShift t imm5 in Shift_C rm t n c
  else Shift_C rm (DecodeRegShift t) (rs mod 256) c.

Lemma BITS_byte x : is_u32 x -> BITS x 0 7 = x mod 256.
Proof. intros. rewrite BITS_field by (done || lia). unfold field. by rewrite Z.pow_0_r, Z.div_1_r. Qed.
Lemma BITS_low5 x : is_u32 x -> BITS x 0 4 = x mod 256 mod 32.
Proof.
  intros. rewrite BITS_field by (done || lia). unfold field. rewrite Z.pow_0_r, Z.div_1_r.
  change (2 ^ (4 - 0 + 1)) with 32. zlia.
Qed.

(** The pointer that the bits select. *)
Definition shift_pointer (b4 t imm5 : Z) : option shtop :=
  if b4 =? 0 then
    Some (if t =? 0 then if imm5 =? 0 then DPO_Register else DPO_LogicalShiftLeftByImmediate
          else if t =? 1 then DPO_LogicalShiftRightByImmediate
          else if t =? 2 then DPO_ArithmeticShiftRightByImmediate else DPO_RotateRightByImmediate)
  else if imm5 mod 2 =? 0 then
    Some (if t =? 0 then DPO_LogicalShiftLeftByRegister
          else if t =? 1 then DPO_LogicalShiftRightByRegister
          else if t =? 2 then DPO_ArithmeticShiftRightByRegister else DPO_RotateRightByRegister)
  else None.

Lemma GetShifterOp_pointer inst : is_u32 inst ->
  GetShifterOp inst = if field inst 25 25 =? 1 then Some DPO_Immediate
                      else shift_pointer (field inst 4 4) (field inst 5 6) (field inst 7 11).
Proof.
  intros Hi. unfold GetShifterOp. rewrite !BITS_field, BIT_field by (done || lia).
  destruct (operand_bits_of inst) as [Hb Ht Hm _ _ _ E1 E2 E3]. rewrite E1, E2, E3. clear E1 E2 E3.
  pose proof (field_range inst 25 25 ltac:(lia)) as H25. change (2 ^ (25 - 25 + 1)) with 2 in H25.
  revert H25 Hb Ht Hm. generalize (field inst 25 25), (field inst 4 4), (field inst 5 6), (field inst 7 11).
  intros b25 b4 t imm5 H25 Hb Ht Hm. unfold is_bit in Hb. unfold truth, shift_pointer.
  pose proof (Z.mod_pos_bound imm5 2 ltac:(lia)).
  assert (b25 = 0 \/ b25 = 1) as [-> | ->] by lia; [|done]. cbn [Z.eqb negb].
  assert (b4 = 0 \/ b4 = 1) as [-> | ->] by lia;
    assert (t = 0 \/ t = 1 \/ t = 2 \/ t = 3) as [-> | [-> | [-> | ->]]] by lia;
    assert (imm5 mod 2 = 0 \/ imm5 mod 2 = 1) as [E|E] by lia; rewrite ?E; clear E;
    repeat (zcase; try lia; try done); done.
Qed.

(** C29: Every shifter operand that the translator selects for a data processing word, an
    immediate, a shift by an immediate or by a register of any amount, has the value and
    the carry of the architecture's shift on integers; nothing else of the processor changes. *)
Theorem shifter_operand_reference s inst f : is_u32 inst -> regs_ok s -> is_bit (CFlag (status s)) ->
  GetShifterOp inst = Some f ->
  call_shtop (Some f) (BITS inst 0 11) s =
    with_carry (shifter_reference inst (CFlag (status s)) (operand_reg s (field inst 0 3))
      (operand_reg s (field inst 8 11))) s.
Proof.
  intros Hi Hs Hc Hf. rewrite GetShifterOp_pointer in Hf by done. unfold shifter_reference.
  destruct (field inst 25 25 =? 1); [injection Hf as <-; by apply run_Immediate|].
  destruct (operand_bits_of inst) as [Hb Ht Hm _ _ _ _ _ _].
  pose proof (sub_BITS inst 7 11 Hi ltac:(lia) ltac:(lia)) as E7.
  assert (ERm : Rm_of (BITS inst 0 11) s = inr (operand_reg s (field inst 0 3), s)).
  { unfold Rm_of. rewrite sub_BITS by (done || lia). apply run_read15; [done|].
    pose proof (field_range inst 0 3). lia. }
  assert (ERs : Rs_of (BITS inst 0 11) s = inr (operand_reg s (field inst 8 11), s)).
  { unfold Rs_of. rewrite sub_BITS by (done || lia). apply run_read15; [done|].
    pose proof (field_range inst 8 11). lia. }
  pose proof (operand_reg_u32 s (field inst 0 3) Hs) as Hrm. pose proof (operand_reg_u32 s (field inst 8 11) Hs) as Hrs.
  revert E7 ERm ERs Hrm Hrs Hb Ht Hm Hf.
  generalize (operand_reg s (field inst 0 3)), (operand_reg s (field inst 8 11)), (BITS inst 0 11),
    (field inst 4 4), (field inst 5 6), (field inst 7 11).
  intros rm rs so b4 t imm5 E7 ERm ERs Hrm Hrs Hb Ht Hm Hf. unfold is_bit in Hb.
  pose proof (Z.mod_pos_bound rs 256 ltac:(lia)) as Hn.
  unfold shift_pointer in Hf. unfold DecodeImmShift, DecodeRegShift.
  destruct (b4 =? 0); [|destruct (imm5 mod 2 =? 0); [|done]];
    repeat match type of Hf with context [if ?b then _ else _] => destruct b eqn:? end; injection Hf as <-;
    cbn [call_shtop];
    unfold Register, LogicalShiftLeftByImmediate, LogicalShiftLeftByRegister, LogicalShiftRightByImmediate,
      LogicalShiftRightByRegister, ArithmeticShiftRightByImmediate, ArithmeticShiftRightByRegister,
      RotateRightByImmediate, RotateRightByRegister; rewrite ?E7; cbv zeta;
    repeat first [rewrite (run_bind _ _ _ _ _ ERm) | rewrite (run_bind _ _ _ _ _ ERs)];
    rewrite ?BITS_byte, ?BITS_low5 by done; zbool; subst.
  - rewrite run_operand_c, Heqb0. by apply shift_zero.
  - revert Hm. generalize (BITS so 7 11). intros n Hm. rewrite <- lsl_by by (done || lia).
    rewrite (proj2 (Z.ltb_lt n 32)) by lia. by destruct (n =? 0).
  - destruct (Z.eqb_spec (BITS so 7 11) 0) as [E|]; [by apply (lsr_by 32) | apply shift_lsr; done || lia].
  - destruct (Z.eqb_spec (BITS so 7 11) 0) as [E|]; [by apply (asr_by 32) | apply shift_asr; done || lia].
  - destruct (Z.eqb_spec (BITS so 7 11) 0) as [E|].
    + cbn [Shift_C]. rewrite <- rrx_lor by done. erewrite run_bind by reflexivity. rewrite run_operand.
      by rewrite BIT_div, Z.pow_0_r, Z.div_1_r by lia.
    + apply shift_ror; try done; try lia. apply Z.mod_small. lia.
  - rewrite <- lsl_by by (done || lia). repeat case_match; reflexivity.
  - rewrite <- lsr_by by (done || lia). repeat case_match; reflexivity.
  - rewrite <- asr_by by (done || lia). repeat case_match; reflexivity.
  - rewrite <- ror_by by (done || lia). repeat case_match; reflexivity.
Qed.

End Shifter.
