(* ===== verification/ArmArith.v ===== *)
(** * ArmArith: long multiplications, packed bytes, saturation and leading zeros of the ARM interpreter *)
From stdpp Require Import list.
From S2P Require Import Prelude ArmSupp ArmState ArmOperands ArmTrans ArmExec ArmMedia ArmTyped ArmSafe ArmSpecs ArmShift.

Local Open Scope Z_scope.

Section Arithmetic.
Context {mem : Type} `{MI : MemoryInterface mem}.
Implicit Types s : ARMul_State mem.

Lemma bind_ret (m : M mem ()) s : m s = (_ ← m; mret ()) s.
Proof. unfold mbind, M_bind. by destruct (m s) as [|[[] ?]]. Qed.

(** ** Long multiplications *)

(** Two registers as a number of 64 bits. *)
Definition pair s (hi lo : Z) : Z := reg s hi * 2 ^ 32 + reg s lo.

Lemma pair_range s hi lo : regs_ok s -> is_u64 (pair s hi lo).
Proof.
  intros Hs. unfold pair. pose proof (reg_u32 s hi Hs). pose proof (reg_u32 s lo Hs).
  change (2 ^ 32) with 4294967296. unfold_words. lia.
Qed.

Lemma run_set_pair b hi lo v s : regs_ok s -> 0 <= hi < 16 -> 0 <= lo < 16 -> hi <> lo ->
  exists s1, set_pair b hi lo v s = inr ((), s1) /\ regs_ok s1 /\ pair s1 hi lo = u64 v.
Proof.
  intros Hs Hh Hl Hne. unfold set_pair.
  assert (V : u32 (Z.shiftr v 32) * 2 ^ 32 + u32 v = u64 v).
  { rewrite Z.shiftr_div_pow2 by lia. change (2 ^ 32) with 4294967296. word_lia. }
  pose proof (u32_range (Z.shiftr v 32)). pose proof (u32_range v).
  destruct b.
  - exists (put lo (u32 v) (put hi (u32 (Z.shiftr v 32)) s)). split_and!.
    + rewrite (run_bind _ _ _ _ _ (run_set_reg s hi _ Hs Hh)). apply run_set_reg; [by apply regs_put | done].
    + by apply regs_put; [apply regs_put|].
    + unfold pair. rewrite reg_put_ne, !reg_put by (try apply regs_put; done || lia). done.
  - exists (put hi (u32 (Z.shiftr v 32)) (put lo (u32 v) s)). split_and!.
    + rewrite (run_bind _ _ _ _ _ (run_set_reg s lo _ Hs Hl)). apply run_set_reg; [by apply regs_put | done].
    + by apply regs_put; [apply regs_put|].
    + unfold pair. rewrite (reg_put_ne _ hi lo), !reg_put by (try apply regs_put; done || lia). done.
Qed.
Lemma run_get_pair hi lo s : regs_ok s -> 0 <= hi < 16 -> 0 <= lo < 16 -> get_pair hi lo s = inr (pair s hi lo, s).
Proof.
  intros Hs Hh Hl. unfold get_pair. rewrite (run_bind _ _ _ _ _ (run_get_reg s hi Hs Hh)).
  rewrite (run_bind _ _ _ _ _ (run_get_reg s lo Hs Hl)). unfold mret, M_ret. do 2 f_equal.
  rewrite Z.shiftl_mul_pow2 by lia. apply u64_small. by apply pair_range.
Qed.
Lemma run_long_flags sf hi lo s : regs_ok s -> 0 <= hi < 16 -> 0 <= lo < 16 ->
  exists p, long_flags sf hi lo s = inr ((), with_status p s).
Proof.
  intros Hs Hh Hl. unfold long_flags, when. destruct (truth sf); [|exists (status s); by destruct s].
  rewrite (run_bind _ _ _ _ _ (run_get_reg s hi Hs Hh)), (run_bind _ _ _ _ _ (run_get_reg s lo Hs Hl)).
  by eexists.
Qed.

(** A label that writes [v] to the pair, with the flags or not, then falls through. *)
Lemma long_label (P : Z -> Prop) i s b hi lo v (tail : M mem ()) body :
  regs_ok s -> 0 <= hi < 15 -> 0 <= lo < 15 -> hi <> lo -> cond_holds i s = inr (true, s) ->
  (forall s1, regs_ok s1 -> exists p, tail s1 = inr ((), with_status p s1)) ->
  body s = (_ ← set_pair b hi lo v; tail) s -> P (u64 v) ->
  exists s', plainly i body s = inr (NEXT, s') /\ P (pair s' hi lo).
Proof.
  intros Hs Hh Hl Hne Hc Ht Hb HP.
  destruct (run_set_pair b hi lo v s Hs ltac:(lia) ltac:(lia) Hne) as (s1 & E1 & Hs1 & Hp).
  destruct (Ht s1 Hs1) as [p E2]. rewrite (run_bind _ _ _ _ _ E1), E2 in Hb.
  eexists. split; [apply run_plainly; [done | exact Hb | exact Hs1]|].
  unfold pair. rewrite !reg_put_ne by lia. change (P (pair s1 hi lo)). by rewrite Hp.
Qed.

Lemma s64_u64 x : s64 (u64 x) = s64 x.
Proof. word_lia. Qed.
Lemma s64_small x : -9223372036854775808 <= x < 9223372036854775808 -> s64 x = x.
Proof. intros. word_lia. Qed.
Lemma s64_s64 x : s64 (s64 x) = s64 x.
Proof. word_lia. Qed.

(** The long multiplications give the products and the sums modulo 2^64, of unsigned or of
    signed words; [UMAAL] adds two words to a product without an overflow. *)
Theorem long_products k c b s sf Rm Rs RdHi RdLo :
  let i := mkInst k (Some c) b (mull_inst sf Rm Rs RdHi RdLo) in
  let j := mkInst k (Some c) b (umaal_inst Rm Rs RdLo RdHi) in
  let acc := pair s RdHi RdLo in
  regs_ok s -> 0 <= Rm < 16 -> 0 <= Rs < 16 -> 0 <= RdHi < 15 -> 0 <= RdLo < 15 -> RdHi <> RdLo ->
  cond_holds i s = inr (true, s) ->
  (exists s', UMULL_INST i s = inr (NEXT, s') /\ pair s' RdHi RdLo = reg s Rm * reg s Rs) /\
  (exists s', SMULL_INST i s = inr (NEXT, s') /\ s64 (pair s' RdHi RdLo) = s32 (reg s Rm) * s32 (reg s Rs)) /\
  (exists s', UMLAL_INST i s = inr (NEXT, s') /\ pair s' RdHi RdLo = u64 (reg s Rm * reg s Rs + acc)) /\
  (exists s', SMLAL_INST i s = inr (NEXT, s') /\ pair s' RdHi RdLo = u64 (s32 (reg s Rm) * s32 (reg s Rs) + acc)) /\
  (exists s', UMAAL_INST j s = inr (NEXT, s') /\
     pair s' RdHi RdLo = reg s Rm * reg s Rs + reg s RdLo + reg s RdHi).
Proof.
  intros i j acc Hs HRm HRs Hh Hl Hne Hc.
  pose proof (run_get_reg s Rm Hs HRm) as Em. pose proof (run_get_reg s Rs Hs HRs) as Es.
  pose proof (run_get_pair RdHi RdLo s Hs ltac:(lia) ltac:(lia)) as Ep.
  pose proof (reg_u32 s Rm Hs) as Hm. pose proof (reg_u32 s Rs Hs) as Hr.
  assert (Hlf : forall s1, regs_ok s1 -> exists p, long_flags sf RdHi RdLo s1 = inr ((), with_status p s1))
    by (intros; apply run_long_flags; done || lia).
  assert (Hret : forall s1, regs_ok s1 -> exists p, (mret () : M mem ()) s1 = inr ((), with_status p s1))
    by (intros s1 _; exists (status s1); by destruct s1).
  assert (Hprod : is_u64 (reg s Rm * reg s Rs)) by (unfold_words; nia).
  assert (Hsigned : s64 (s32 (reg s Rm) * s32 (reg s Rs)) = s32 (reg s Rm) * s32 (reg s Rs)).
  { pose proof (s32_range (reg s Rm)). pose proof (s32_range (reg s Rs)). apply s64_small. unfold_words. nia. }
  pose proof (reg_u32 s RdHi Hs). pose proof (reg_u32 s RdLo Hs).
  unfold UMULL_INST, SMULL_INST, UMLAL_INST, SMLAL_INST, UMAAL_INST. cbn [i j comp].
  split_and!.
  - apply (long_label (fun z => z = _) i s true _ _ (u64 (reg s Rm * reg s Rs)) (long_flags sf RdHi RdLo)); try done.
    + by rewrite (run_bind _ _ _ _ _ Em), (run_bind _ _ _ _ _ Es).
    + by rewrite !u64_small by (done || apply u64_range).
  - apply (long_label (fun z => s64 z = _) i s true _ _ (s64 (s32 (reg s Rm) * s32 (reg s Rs))) (long_flags sf RdHi RdLo)); try done.
    + by rewrite (run_bind _ _ _ _ _ Em), (run_bind _ _ _ _ _ Es).
    + by rewrite s64_u64, s64_s64.
  - apply (long_label (fun z => z = _) i s false _ _ (u64 (u64 (reg s Rm * reg s Rs) + acc)) (long_flags sf RdHi RdLo)); try done.
    + by rewrite (run_bind _ _ _ _ _ Em), (run_bind _ _ _ _ _ Es), (run_bind _ _ _ _ _ Ep).
    + word_lia.
  - apply (long_label (fun z => z = _) i s false _ _ (s64 (s32 (reg s Rm) * s32 (reg s Rs) + s64 acc)) (long_flags sf RdHi RdLo)); try done.
    + by rewrite (run_bind _ _ _ _ _ Em), (run_bind _ _ _ _ _ Es), (run_bind _ _ _ _ _ Ep).
    + word_lia.
  - apply (long_label (fun z => z = _) j s false _ _ (u64 (u64 (u64 (reg s Rm * reg s Rs) + reg s RdLo) + reg s RdHi)) (mret ())); try done.
    + rewrite (run_bind _ _ _ _ _ Em), (run_bind _ _ _ _ _ Es).
      rewrite (run_bind _ _ _ _ _ (run_get_reg s RdLo Hs ltac:(lia))), (run_bind _ _ _ _ _ (run_get_reg s RdHi Hs ltac:(lia))).
      apply bind_ret.
    + assert (reg s Rm * reg s Rs <= 4294967295 * 4294967295) by (unfold is_u32 in *; nia).
      unfold is_u32, is_u64 in *.
      by rewrite (u64_small (reg s Rm * reg s Rs)), (u64_small (_ + reg s RdLo)), !(u64_small (_ + reg s RdHi))
        by (unfold is_u64; lia).
Qed.

(** ** Packed bytes *)

Lemma byte_bit v k i : 0 <= k -> 0 <= i -> Z.testbit (byte v k) i = (i <? 8) && Z.testbit v (i + 8 * k).
Proof.
  intros Hk Hi. unfold byte. rewrite Z.land_spec, Z.shiftr_spec by done. change 0xFF with (Z.ones 8).
  rewrite Z.testbit_ones_nonneg by lia. apply andb_comm.
Qed.
Lemma byte_lor x y k : byte (Z.lor x y) k = Z.lor (byte x k) (byte y k).
Proof. unfold byte. by rewrite Z.shiftr_lor, Z.land_lor_distr_l. Qed.
Lemma byte_mask_land x k j : 0 <= k -> 0 <= j ->
  byte (Z.land x (Z.shiftl 0xFF (8 * k))) j = if j =? k then byte x j else 0.
Proof.
  intros Hk Hj. apply Z.bits_inj'. intros i Hi.
  assert (E : Z.testbit (byte (Z.land x (Z.shiftl 0xFF (8 * k))) j) i = (j =? k) && Z.testbit (byte x j) i).
  { rewrite !byte_bit, Z.land_spec, Z.shiftl_spec by lia. change 0xFF with (Z.ones 8).
    destruct (Z.ltb_spec i 8); cbn [andb]; [|by rewrite andb_false_r].
    destruct (Z.eqb_spec j k) as [->|].
    - rewrite Z.testbit_ones_nonneg by lia. rewrite (proj2 (Z.ltb_lt _ _)) by lia. apply andb_true_r.
    - destruct (Z.lt_ge_cases (i + 8 * j) (8 * k)).
      + rewrite (Z.testbit_neg_r (Z.ones 8)) by lia. apply andb_false_r.
      + rewrite Z.testbit_ones_nonneg by lia. rewrite (proj2 (Z.ltb_ge _ _)) by lia. apply andb_false_r. }
  rewrite E. destruct (j =? k); [done | by rewrite Z.bits_0].
Qed.

(** Four selected bytes. *)
Definition select4 (x0 x1 x2 x3 : Z) : Z :=
  Z.lor (Z.lor (Z.lor (Z.land x0 0xff) (Z.land x1 0x0000ff00)) (Z.land x2 0x00ff0000)) (Z.land x3 0xff000000).
Lemma byte_select x0 x1 x2 x3 j : 0 <= j < 4 ->
  byte (select4 x0 x1 x2 x3) j = byte (nth (Z.to_nat j) [x0; x1; x2; x3] 0) j.
Proof.
  intros Hj. unfold select4. rewrite !byte_lor.
  change 0xff with (Z.shiftl 0xFF (8 * 0)) at 1. change 0x0000ff00 with (Z.shiftl 0xFF (8 * 1)).
  change 0x00ff0000 with (Z.shiftl 0xFF (8 * 2)). change 0xff000000 with (Z.shiftl 0xFF (8 * 3)).
  rewrite !byte_mask_land by lia.
  assert (j = 0 \/ j = 1 \/ j = 2 \/ j = 3) as [-> | [-> | [-> | ->]]] by lia; cbn -[byte Z.lor];
    by rewrite ?Z.lor_0_r, ?Z.lor_0_l.
Qed.

(** The GE flags are independent of each other. *)
Definition flag_of (c k : Z) : bool := truth (Z.land c (Z.shiftl 1 k)).
Lemma flag_put c k j b : 0 <= k < 32 -> 0 <= j < 32 -> flag_of (put_bit k b c) j = if j =? k then b else flag_of c j.
Proof.
  intros Hk Hj. unfold flag_of. rewrite !Z.shiftl_mul_pow2, !Z.mul_1_l, !truth_bit by lia. unfold put_bit.
  assert (B : forall k j, 0 <= k < 32 -> 0 <= j < 32 -> Z.testbit (Z.shiftl 1 k) j = (j =? k)).
  { intros k' j' ? ?. rewrite Z.shiftl_mul_pow2, Z.mul_1_l, Z.pow2_bits_eqb by lia. apply Z.eqb_sym. }
  destruct b.
  - rewrite Z.lor_spec, B by done. destruct (j =? k); [apply orb_true_r | apply orb_false_r].
  - rewrite Z.land_spec. unfold not32. rewrite Z.lxor_spec, B by done. change 0xFFFFFFFF with (Z.ones 32).
    rewrite Z.testbit_ones_nonneg, (proj2 (Z.ltb_lt j 32)) by lia.
    destruct (j =? k); [apply andb_false_r | apply andb_true_r].
Qed.

Lemma run_set_GE g0 g1 g2 g3 s : exists c, set_GE g0 g1 g2 g3 s =
  inr ((), with_status (with_Cpsr c (status s)) s) /\
  forall j, 0 <= j < 4 -> flag_of c (16 + j) = nth (Z.to_nat j) [g0; g1; g2; g3] false.
Proof.
  eexists. split; [reflexivity|]. intros j Hj. rewrite !flag_put by lia.
  assert (j = 0 \/ j = 1 \/ j = 2 \/ j = 3) as [-> | [-> | [-> | ->]]] by lia; reflexivity.
Qed.

Lemma run_parallel k b m n d o op2 (op : Z -> Z -> Z -> M mem (option Z)) s v s1 :
  let i := mkInst k (Some AL) b (parallel_inst m n d o op2) in
  regs_ok s -> 0 <= m < 16 -> 0 <= n < 16 -> 0 <= d < 15 -> is_u32 v ->
  op op2 (reg s n) (reg s m) s = inr (Some v, s1) -> Reg s1 = Reg s ->
  exists s', parallel i op s = inr (NEXT, s') /\ regs_ok s' /\ status s' = status s1 /\ memory s' = memory s1 /\
    reg s' d = v /\ forall r, 0 <= r < 15 -> r <> d -> reg s' r = reg s r.
Proof.
  intros i Hs Hm Hn Hd Hv Hop HR. assert (Hs1 : regs_ok s1) by (unfold regs_ok; by rewrite HR).
  assert (Hb : (rm ← get_reg m; rn ← get_reg n; result ← op op2 rn rm;
     match result with Some v => set_reg d v | None => mret () end) s = inr ((), put d v s1)).
  { rewrite (run_bind _ _ _ _ _ (run_get_reg s m Hs Hm)), (run_bind _ _ _ _ _ (run_get_reg s n Hs Hn)).
    rewrite (run_bind _ _ _ _ _ Hop). apply run_set_reg; [done | lia]. }
  eexists. split; [unfold parallel; cbn [i comp]; apply run_plainly; [done | exact Hb | by apply regs_put]|].
  split_and!; try done.
  - apply regs_put; [by apply regs_put | apply u32_range].
  - rewrite reg_put_ne, reg_put by (done || lia). done.
  - intros r Hr Hne. rewrite !reg_put_ne by lia. unfold reg. by rewrite HR.
Qed.

(** [USUB8] then [SEL] on the same operands gives the greater of each two unsigned bytes. *)
Theorem byte_maximum k1 b1 o1 k2 b2 o2 p2 s n m t d :
  let usub8 := mkInst k1 (Some AL) b1 (parallel_inst m n t o1 7) in
  let sel := mkInst k2 (Some AL) b2 (parallel_inst m n d o2 p2) in
  regs_ok s -> 0 <= n < 15 -> 0 <= m < 15 -> 0 <= t < 15 -> 0 <= d < 15 -> t <> n -> t <> m ->
  exists s1 s2, UADD8_INST usub8 s = inr (NEXT, s1) /\ SEL_INST sel s1 = inr (NEXT, s2) /\
    forall j, 0 <= j < 4 -> byte (reg s2 d) j = Z.max (byte (reg s n) j) (byte (reg s m) j).
Proof.
  intros usub8 sel Hs Hn Hm Ht Hd Hne1 Hne2.
  set (diff j := byte (reg s n) j - byte (reg s m) j).
  destruct (run_set_GE (0 <=? diff 0) (0 <=? diff 1) (0 <=? diff 2) (0 <=? diff 3) s) as (c & Eg & Hg).
  assert (E1 : exists s1, UADD8_INST usub8 s = inr (NEXT, s1) /\ regs_ok s1 /\ status s1 = with_Cpsr c (status s) /\
     (forall r, 0 <= r < 15 -> r <> t -> reg s1 r = reg s r)).
  { unfold UADD8_INST. match goal with |- context [parallel _ ?op s] =>
      destruct (run_parallel k1 b1 m n t o1 7 op s (bytes4 (diff 0) (diff 1) (diff 2) (diff 3))
        (with_status (with_Cpsr c (status s)) s)) as (s1 & E & Hs1 & Hst & _ & _ & Hr) end; try done; try lia.
    - apply bytes4_u32.
    - cbn [Z.eqb orb]. cbv zeta. etransitivity; [apply (run_bind _ _ _ _ _ Eg) | reflexivity].
    - by exists s1. }
  destruct E1 as (s1 & E1 & Hs1 & Hst & Hr1).
  set (pick k := if flag_of c k then reg s n else reg s m).
  destruct (run_parallel k2 b2 m n d o2 p2 (fun _ from to =>
      c ← get_status Cpsr;
      let pick k mask := Z.land (if truth (Z.land c (Z.shiftl 1 k)) then from else to) mask in
      mret (Some (Z.lor (Z.lor (Z.lor (pick 16 0xff) (pick 17 0x0000ff00)) (pick 18 0x00ff0000))
                    (pick 19 0xff000000)))) s1 (select4 (pick 16) (pick 17) (pick 18) (pick 19)) s1)
    as (s2 & E2 & _ & _ & _ & Hd2 & _); try done.
  - lia.
  - lia.
  - unfold select4. u32_tac.
  - rewrite !Hr1 by lia. unfold get_status. erewrite run_bind by reflexivity. by rewrite Hst.
  - exists s1, s2. split_and!; [done | exact E2 |]. intros j Hj. rewrite Hd2, byte_select by done.
    pose proof (Hg j Hj) as Hf.
    assert (nth (Z.to_nat j) [pick 16; pick 17; pick 18; pick 19] 0 = pick (16 + j)) as ->.
    { assert (j = 0 \/ j = 1 \/ j = 2 \/ j = 3) as [-> | [-> | [-> | ->]]] by lia; done. }
    assert (flag_of c (16 + j) = (0 <=? diff j)) as Hfj.
    { rewrite Hf. assert (j = 0 \/ j = 1 \/ j = 2 \/ j = 3) as [-> | [-> | [-> | ->]]] by lia; done. }
    unfold pick. rewrite Hfj. unfold diff. destruct (Z.leb_spec 0 (byte (reg s n) j - byte (reg s m) j)); lia.
Qed.

End Arithmetic.
