(* ===== verification/ArmStack.v ===== *)
(** * ArmStack: block transfers, exclusive accesses, mode changes and Thumb calls of the ARM interpreter *)
From stdpp Require Import list.
From S2P Require Import Prelude ArmSupp ArmState ArmOperands ArmTrans ArmExec ArmLdSt ArmTyped ArmSpecs ArmShift.

Local Open Scope Z_scope.

Section Stack.
Context {mem : Type} `{MI : MemoryInterface mem} `{ML : !MemoryLaws mem}.
Implicit Types s : ARMul_State mem.

(** ** Words in memory *)


(** What a word is as bytes in memory, and back. *)
Lemma swap32_twice x : is_u32 x -> swap32 (swap32 x) = x.
Proof.
  intros Hx. apply Z.bits_inj'. intros i Hi.
  assert (B : forall y i, 0 <= i -> Z.testbit (swap32 y) i =
    if i <? 8 then Z.testbit y (i + 24) else if i <? 16 then Z.testbit y (i + 8)
    else if i <? 24 then Z.testbit y (i - 8) else if i <? 32 then Z.testbit y (i - 24) else false).
  { clear. intros y i Hi. unfold swap32. change 0xff with (Z.ones 8).
    rewrite !Z.lor_spec, !Z.shiftl_spec by done. rewrite !Z.land_spec.
    assert (T : forall n, Z.testbit (Z.ones 8) n = (0 <=? n) && (n <? 8)).
    { intros n. destruct (Z.leb_spec 0 n); [apply Z.testbit_ones_nonneg; lia | by apply Z.testbit_neg_r]. }
    rewrite !T.
    destruct (Z.ltb_spec i 8); [|destruct (Z.ltb_spec i 16); [|destruct (Z.ltb_spec i 24); [|destruct (Z.ltb_spec i 32)]]];
      zdecide; cbn [andb orb]; rewrite ?andb_false_r, ?andb_true_r, ?orb_false_r, ?orb_false_l;
      rewrite ?Z.land_spec, ?Z.shiftr_spec, ?T by lia; zdecide; rewrite ?andb_true_r, ?andb_false_r; try done; f_equal; lia. }
  rewrite B by done.
  destruct (Z.ltb_spec i 8); [|destruct (Z.ltb_spec i 16); [|destruct (Z.ltb_spec i 24); [|destruct (Z.ltb_spec i 32)]]];
    rewrite ?B by lia; zdecide; try (f_equal; lia).
  symmetry. by apply u32_bits.
Qed.

(** A word as it is stored. *)
Definition word_of (big : bool) (v : Z) : Z := if big then swap32 v else v.
Lemma word_of_twice big v : is_u32 v -> word_of big (word_of big v) = v.
Proof. intros. destruct big; [by apply swap32_twice | done]. Qed.
Lemma word_of_u32 big v : is_u32 v -> is_u32 (word_of big v).
Proof. intros. destruct big; [apply swap32_u32 | done]. Qed.

(** Words written at successive addresses. *)
Fixpoint stores (big : bool) (a : Z) (vs : list Z) (m : mem) : mem :=
  match vs with
  | [] => m
  | v :: vs => stores big (a + 4) vs (Write32 a (word_of big v) m)
  end.

Lemma stores_below big vs : forall a b m, Forall is_u32 vs -> a mod 4 = 0 -> b mod 4 = 0 -> b < a ->
  Read32 (stores big a vs m) b = Read32 m b.
Proof.
  induction vs as [|v vs IH]; intros a b m Hv Ha Hb Hlt; [done|]. inversion Hv; subst. cbn [stores].
  rewrite IH by (done || zlia). by rewrite Read32_Write32_ne by (done || lia).
Qed.
Lemma stores_read big vs : forall a m j v, Forall is_u32 vs -> a mod 4 = 0 -> vs !! j = Some v ->
  word_of big (Read32 (stores big a vs m) (a + 4 * Z.of_nat j)) = v.
Proof.
  induction vs as [|w_ vs IH]; intros a m j v Hv Ha Hj; [done|]. inversion Hv as [|? ? Hw Hvs]; subst. cbn [stores].
  destruct j as [|j].
  - injection Hj as ->. replace (a + 4 * Z.of_nat 0) with a by lia.
    rewrite stores_below, Read32_Write32 by (done || zlia || by apply word_of_u32). by apply word_of_twice.
  - replace (a + 4 * Z.of_nat (S j)) with (a + 4 + 4 * Z.of_nat j) by lia. apply IH; [done | zlia | done].
Qed.

(** ** The loops over a register list *)

Definition listed (inst : Z) (l : list Z) : list Z := List.filter (fun i => truth (BIT inst i)) l.

Fixpoint for_each (l : list Z) (body : Z -> Z -> M mem ()) (addr : Z) : M mem Z :=
  match l with
  | [] => mret addr
  | i :: l => _ ← body i addr; for_each l body (u32 (addr + 4))
  end.
Lemma for_list_listed inst body l : forall a s, for_list inst l body a s = for_each (listed inst l) body a s.
Proof.
  induction l as [|i l IH]; intros a s; [done|]. cbn [for_list listed List.filter].
  destruct (truth (BIT inst i)); [|apply IH]. cbn [for_each]. unfold mbind, M_bind.
  destruct (body i a s) as [|[[] s']]; [done | apply IH].
Qed.

Lemma run_stores body val s : (forall i a m, 0 <= i < 15 -> body i a (with_memory m s) =
    inr ((), with_memory (Write32 a (word_of (InBigEndianMode s) (val i)) m) s)) ->
  forall l a m, Forall (fun i => 0 <= i < 15) l -> 0 <= a -> a + 4 * Z.of_nat (length l) < 4294967296 ->
  for_each l body a (with_memory m s) =
    inr (a + 4 * Z.of_nat (length l), with_memory (stores (InBigEndianMode s) a (map val l) m) s).
Proof.
  intros Hb l. induction l as [|i l IH]; intros a m HF Ha Hl.
  - cbn. by rewrite Z.add_0_r.
  - inversion HF; subst. cbn [for_each length] in *.
    rewrite (run_bind _ _ _ _ _ (Hb i a m ltac:(done))). rewrite u32_small by (unfold is_u32; lia).
    rewrite IH by (done || lia). by replace (a + 4 + 4 * Z.of_nat (length l)) with (a + 4 * Z.of_nat (S (length l))) by lia.
Qed.

Lemma run_loads val l : forall a s, regs_ok s -> Forall (fun i => 0 <= i < 15) l ->
  (forall j i, l !! j = Some i -> word_of (InBigEndianMode s) (Read32 (memory s) (a + 4 * Z.of_nat j)) = val i) ->
  (forall i, is_u32 (val i)) -> 0 <= a -> a + 4 * Z.of_nat (length l) < 4294967296 ->
  exists s', for_each l load_reg_interworking a s = inr (a + 4 * Z.of_nat (length l), s') /\
    regs_ok s' /\ memory s' = memory s /\ status s' = status s /\
    forall r, 0 <= r -> reg s' r = if decide (r ∈ l) then val r else reg s r.
Proof.
  induction l as [|i l IH]; intros a s Hs Hl Hv Hu Ha Hlen.
  - exists s. split_and!; try done. cbn. by rewrite Z.add_0_r.
  - inversion Hl as [|? ? Hi Hl']; subst. cbn [for_each length] in *.
    assert (E : load_reg_interworking i a s = inr ((), put i (val i) s)).
    { unfold load_reg_interworking. erewrite run_bind by reflexivity.
      pose proof (Hv 0%nat i eq_refl) as H0. replace (a + 4 * Z.of_nat 0) with a in H0 by lia.
      cbv zeta. change (if InBigEndianMode s then swap32 (Read32 (memory s) a) else Read32 (memory s) a)
        with (word_of (InBigEndianMode s) (Read32 (memory s) a)).
      rewrite H0. zdecide. apply run_set_reg; [done | lia]. }
    rewrite (run_bind _ _ _ _ _ E). rewrite u32_small by (unfold is_u32; lia).
    destruct (IH (a + 4) (put i (val i) s)) as (s' & E' & Hs' & Hm & Hst & Hr); try done; try lia.
    + by apply regs_put.
    + intros j i' Hj. replace (a + 4 + 4 * Z.of_nat j) with (a + 4 * Z.of_nat (S j)) by lia. by apply (Hv (S j)).
    + exists s'. split_and!; try done.
      { by replace (a + 4 * Z.of_nat (S (length l))) with (a + 4 + 4 * Z.of_nat (length l)) by lia. }
      intros r Hr0. rewrite Hr by done. destruct (decide (r ∈ l)) as [H|H].
      * rewrite decide_True by (by right). done.
      * destruct (decide (r = i)) as [->|Hne].
        -- rewrite decide_True by (by left). apply reg_put; [done | lia].
        -- rewrite decide_False by (by rewrite elem_of_cons; intros [|]). by apply reg_put_ne; lia.
Qed.

(** ** Register lists *)

Lemma truth_BIT x k : 0 <= k -> truth (BIT x k) = Z.testbit x k.
Proof.
  intros Hk. rewrite BIT_div by done. rewrite <- Z.testbit_spec' by done. by destruct (Z.testbit x k).
Qed.

(** The count of the bits from [j] on. *)
Lemma count_bits_listed n x : forall j, 0 <= x -> 0 <= j ->
  count_bits n (Z.shiftr x j) = Z.of_nat (length (listed x (seqZ j (Z.of_nat n)))).
Proof.
  induction n as [|n IH]; intros j Hx Hj; [done|].
  rewrite seqZ_cons by lia. replace (Z.pred (Z.of_nat (S n))) with (Z.of_nat n) by lia.
  cbn [count_bits listed List.filter]. rewrite truth_BIT by done.
  assert (E0 : truth (Z.land (Z.shiftr x j) 1) = Z.testbit x j) by (fold (BIT x j); by apply truth_BIT).
  rewrite E0. rewrite Z.shiftr_shiftr by lia. change (j + 1) with (Z.succ j).
  destruct (Z.eqb_spec (Z.shiftr x j) 0) as [E|E].
  - specialize (IH (Z.succ j) Hx ltac:(lia)).
    assert (E1 : Z.shiftr x (Z.succ j) = 0) by (by rewrite <- Z.add_1_r, <- Z.shiftr_shiftr, E by lia).
    rewrite E1 in IH. assert (count_bits n 0 = 0) as E2 by (by destruct n). rewrite E2 in IH.
    assert (Z.testbit x j = false) as ->.
    { replace j with (0 + j) by lia. by rewrite <- Z.shiftr_spec, E by lia. }
    fold (listed x (seqZ (Z.succ j) (Z.of_nat n))). done.
  - rewrite IH by lia. fold (listed x (seqZ (Z.succ j) (Z.of_nat n))).
    destruct (Z.testbit x j); cbn [length]; lia.
Qed.

Lemma listed_in x l r : 0 <= r -> r ∈ listed x l <-> r ∈ l /\ Z.testbit x r = true.
Proof.
  intros Hr. unfold listed. rewrite !list_elem_of_In, List.filter_In, truth_BIT by done. done.
Qed.

(** An instruction word with a register list in its low half. *)
Definition with_list (op list : Z) : Z := op * 2 ^ 16 + list.

Lemma with_list_u32 op l : 0 <= op < 65536 -> 0 <= l < 65536 -> is_u32 (with_list op l).
Proof. unfold with_list, is_u32. lia. Qed.
Lemma with_list_high op l a b : 0 <= l < 65536 -> 16 <= a -> a <= b ->
  field (with_list op l) a b = field op (a - 16) (b - 16).
Proof.
  intros Hl Ha Hb. unfold field, with_list. replace (b - 16 - (a - 16) + 1) with (b - a + 1) by lia. f_equal.
  replace (2 ^ a) with (2 ^ 16 * 2 ^ (a - 16)) by (rewrite <- Z.pow_add_r by lia; f_equal; lia).
  rewrite <- Z.div_div by (try apply Z.pow_pos_nonneg; lia). f_equal. change (2 ^ 16) with 65536. zlia.
Qed.
Lemma with_list_bit op l k : 0 <= l < 65536 -> 0 <= k < 16 -> Z.testbit (with_list op l) k = Z.testbit l k.
Proof.
  intros Hl Hk. rewrite <- (Z.mod_pow2_bits_low _ 16), <- (Z.mod_pow2_bits_low l 16) by lia. f_equal.
  unfold with_list. rewrite Z.add_comm. by apply Z.mod_add.
Qed.

Lemma listed_ext x y l : (forall k, k ∈ l -> BIT x k = BIT y k) -> listed x l = listed y l.
Proof. intros H. apply List.filter_ext_in. intros k Hk. rewrite H; [done | by apply list_elem_of_In]. Qed.

(** The registers of a list without R15. *)
Definition registers (rl : Z) : list Z := listed rl (below 15).

Lemma registers_range l : Forall (fun i => 0 <= i < 15) (registers l).
Proof.
  apply Forall_forall. intros i Hi. unfold registers, listed in Hi. apply list_elem_of_In, List.filter_In in Hi as [Hi _].
  apply list_elem_of_In in Hi. unfold below in Hi. apply elem_of_seqZ in Hi. lia.
Qed.

Section Register_list.
Context (op rl : Z) (Hop : 0 <= op < 65536) (Hlist : 0 <= rl < 32768).
Let inst := with_list op rl.

Lemma list_bit k : 0 <= k < 16 -> BIT inst k = BIT rl k.
Proof.
  intros Hk. unfold inst. rewrite !BIT_div by lia. rewrite <- !Z.testbit_spec' by lia. by rewrite with_list_bit by lia.
Qed.
Lemma list_bit_15 : BIT inst 15 = 0.
Proof.
  rewrite list_bit, BIT_div by lia. rewrite Z.div_small; [done|]. change (2 ^ 15) with 32768. lia.
Qed.
Lemma list_registers : listed inst (below 15) = registers rl.
Proof. apply listed_ext. intros k Hk. unfold below in Hk. apply elem_of_seqZ in Hk. apply list_bit. lia. Qed.
Lemma list_registers_16 : listed inst (below 16) = registers rl.
Proof.
  rewrite <- list_registers. unfold below. change (Z.of_nat 16) with (15 + 1).
  rewrite (seqZ_app 0 15 1) by lia. unfold listed. rewrite List.filter_app. cbn [seqZ seq app].
  assert (E : truth (BIT inst 15) = false) by (by rewrite list_bit_15).
  change (seqZ (0 + 15) 1) with [15]. cbn [List.filter]. rewrite E. apply app_nil_r.
Qed.
Lemma list_count_registers : list_count inst = Z.of_nat (length (registers rl)).
Proof.
  pose proof (with_list_u32 op rl Hop ltac:(lia)). unfold list_count, inst.
  rewrite BITS_field by (done || lia).
  assert (field (with_list op rl) 0 15 = rl) as ->.
  { unfold field, with_list. change (2 ^ 0) with 1. change (2 ^ (15 - 0 + 1)) with 65536. change (2 ^ 16) with 65536. zlia. }
  pose proof (count_bits_listed 16 rl 0 ltac:(lia) ltac:(lia)) as Hc. rewrite Z.shiftr_0_r in Hc. rewrite Hc.
  do 2 f_equal. transitivity (listed inst (below 16)); [|apply list_registers_16].
  apply listed_ext. intros k Hk. apply elem_of_seqZ in Hk. symmetry. apply list_bit. lia.
Qed.
Lemma list_BITS a b : 16 <= a <= b -> b <= 31 -> BITS inst a b = field op (a - 16) (b - 16).
Proof.
  intros Ha Hb. pose proof (with_list_u32 op rl Hop ltac:(lia)). unfold inst.
  rewrite BITS_field by (done || lia). apply with_list_high; lia.
Qed.
Lemma list_BIT a : 16 <= a <= 31 -> BIT inst a = field op (a - 16) (a - 16).
Proof. intros Ha. unfold inst. rewrite BIT_field by lia. apply with_list_high; lia. Qed.

End Register_list.

(** ** Push and pop *)

Lemma run_write_back inst n s : regs_ok s -> BITS inst 28 31 = 14 -> Rn_field inst = 13 -> BIT inst 21 = 1 ->
  block_write_back inst n s = inr ((), put 13 (u32 (reg s 13 + n)) s).
Proof.
  intros Hs Hc Hn Hb. unfold block_write_back, passed. rewrite Hc, Hn, Hb.
  erewrite run_bind by reflexivity.
  match goal with |- when ?c ?m s = _ => change (when c m s) with (m s) end.
  rewrite (run_bind _ _ _ _ _ (run_get_reg s 13 Hs ltac:(lia))). apply run_set_reg; [done | lia].
Qed.
Lemma run_read_sp s : regs_ok s -> CHECK_READ_REG15_WA 13 s = inr (reg s 13, s).
Proof.
  intros Hs. unfold CHECK_READ_REG15_WA. rewrite (run_bind _ _ _ _ _ (run_get_reg s 13 Hs ltac:(lia))).
  by erewrite run_bind by reflexivity.
Qed.

(** [STMDB SP!, {list}] and [LDMIA SP!, {list}]. *)
Definition PUSH (rl : Z) : Z := with_list 0xE92D rl.
Definition POP (rl : Z) : Z := with_list 0xE8BD rl.

Lemma run_push rl k s : regs_ok s -> 0 <= rl < 32768 -> 4 * Z.of_nat (length (registers rl)) <= reg s 13 ->
  ~ 13 ∈ registers rl -> exists s1,
  STM_INST (trans_stm (PUSH rl) k) s = inr (NEXT, s1) /\ regs_ok s1 /\ status s1 = status s /\
  (forall r, 0 <= r < 15 -> reg s1 r = if r =? 13 then reg s 13 - 4 * Z.of_nat (length (registers rl)) else reg s r) /\
  memory s1 = stores (InBigEndianMode s) (reg s 13 - 4 * Z.of_nat (length (registers rl))) (map (reg s) (registers rl)) (memory s).
Proof.
  intros Hs Hrl Hsp H13. pose proof (reg_u32 s 13 Hs) as Hu. unfold is_u32 in Hu.
  set (n := Z.of_nat (length (registers rl))) in *. set (inst := PUSH rl).
  assert (E28 : BITS inst 28 31 = 14) by (unfold inst, PUSH; by rewrite list_BITS by lia).
  assert (E16 : BITS inst 16 19 = 13) by (unfold inst, PUSH; by rewrite list_BITS by lia).
  assert (E21 : BIT inst 21 = 1) by (unfold inst, PUSH; by rewrite list_BIT by lia).
  assert (E22 : BIT inst 22 = 0) by (unfold inst, PUSH; by rewrite list_BIT by lia).
  assert (E15 : BIT inst 15 = 0) by (unfold inst, PUSH; by rewrite list_bit_15 by lia).
  assert (Ec : list_count inst = n) by (unfold inst, PUSH; by rewrite list_count_registers by lia).
  assert (El : listed inst (below 15) = registers rl) by (unfold inst, PUSH; by rewrite list_registers by lia).
  assert (Ea : GetAddressingOp inst = Some LdnStM_DecrementBefore).
  { unfold GetAddressingOp, inst, PUSH. rewrite !(list_BITS 0xE92D rl ltac:(lia) ltac:(lia) 24 27) by lia.
    rewrite !(list_BITS 0xE92D rl ltac:(lia) ltac:(lia) 23 27) by lia. reflexivity. }
  set (s0 := put 13 (u32 (reg s 13 + - (n * 4))) s).
  assert (Esp : u32 (reg s 13 - n * 4) = reg s 13 - 4 * n) by (rewrite u32_small; unfold is_u32; lia).
  assert (Hs0 : regs_ok s0) by (apply regs_put; [done | apply u32_range]).
  assert (Eaddr : call_get_addr (Some LdnStM_DecrementBefore) inst s = inr (reg s 13 - 4 * n, s0)).
  { cbn [call_get_addr]. unfold DecrementBefore, Rn_field. rewrite Ec, E16. cbv zeta.
    rewrite (run_bind _ _ _ _ _ (run_read_sp s Hs)).
    rewrite (run_bind _ _ _ _ _ (run_write_back inst (- (n * 4)) s Hs E28 E16 E21)). by rewrite Esp. }
  set (body := fun i addr => if i =? 13 then WriteMemory32 addr (reg s 13) else store_reg i addr).
  assert (Hbody : forall i a m, 0 <= i < 15 -> body i a (with_memory m s0) =
    inr ((), with_memory (Write32 a (word_of (InBigEndianMode s0) (reg s i)) m) s0)).
  { intros i a m Hi. unfold body. destruct (Z.eqb_spec i 13) as [->|Hne]; [reflexivity|].
    unfold store_reg. rewrite (run_bind _ _ _ _ _ (run_get_reg (with_memory m s0) i Hs0 ltac:(lia))).
    change (reg (with_memory m s0) i) with (reg s0 i). unfold s0. rewrite reg_put_ne by lia. reflexivity. }
  pose proof (run_stores body (reg s) s0 Hbody (registers rl) (reg s 13 - 4 * n) (memory s) (registers_range rl)
    ltac:(lia) ltac:(fold n; lia)) as Est.
  assert (Em : with_memory (memory s) s0 = s0) by done. rewrite Em in Est.
  set (s1 := with_memory _ s0) in Est.
  exists (put 15 (u32 (reg s1 15 + GetInstructionSize s1)) s1). split.
  { unfold STM_INST, trans_stm, trans_ldrb. cbn [comp]. rewrite Ea. apply run_plainly.
    - unfold cond_holds. cbn [cond]. by rewrite E28.
    - unfold Rn_field. rewrite E16. rewrite (run_bind _ _ _ _ _ (run_get_reg s 13 Hs ltac:(lia))).
      rewrite (run_bind _ _ _ _ _ Eaddr), E22. cbn [Z.eqb].
      erewrite run_bind by (rewrite for_list_listed, El; exact Est).
      unfold store_pc. by rewrite E15.
    - exact Hs0. }
  split_and!.
  - apply regs_put; [exact Hs0 | apply u32_range].
  - done.
  - intros r Hr. rewrite reg_put_ne by lia. change (reg s1 r) with (reg s0 r). unfold s0.
    destruct (Z.eqb_spec r 13) as [->|]; [rewrite reg_put by (done || lia); rewrite <- Esp; f_equal; lia|].
    apply reg_put_ne; lia.
  - done.
Qed.

Lemma run_pop rl val k s : regs_ok s -> 0 <= rl < 32768 ->
  reg s 13 + 4 * Z.of_nat (length (registers rl)) < 4294967296 -> ~ 13 ∈ registers rl -> (forall i, is_u32 (val i)) ->
  (forall j i, registers rl !! j = Some i ->
     word_of (InBigEndianMode s) (Read32 (memory s) (reg s 13 + 4 * Z.of_nat j)) = val i) -> exists s1,
  LDM_INST (trans_ldm (POP rl) k) s = inr (NEXT, s1) /\ regs_ok s1 /\ memory s1 = memory s /\ status s1 = status s /\
  forall r, 0 <= r < 15 -> reg s1 r =
    if r =? 13 then reg s 13 + 4 * Z.of_nat (length (registers rl))
    else if Z.testbit rl r then val r else reg s r.
Proof.
  intros Hs Hrl Hsp H13 Hu Hv. pose proof (reg_u32 s 13 Hs) as H32. unfold is_u32 in H32.
  set (n := Z.of_nat (length (registers rl))) in *. set (inst := POP rl).
  assert (E28 : BITS inst 28 31 = 14) by (unfold inst, POP; by rewrite list_BITS by lia).
  assert (E16 : BITS inst 16 19 = 13) by (unfold inst, POP; by rewrite list_BITS by lia).
  assert (E21 : BIT inst 21 = 1) by (unfold inst, POP; by rewrite list_BIT by lia).
  assert (E22 : BIT inst 22 = 0) by (unfold inst, POP; by rewrite list_BIT by lia).
  assert (E15 : BIT inst 15 = 0) by (unfold inst, POP; by rewrite list_bit_15 by lia).
  assert (Ec : list_count inst = n) by (unfold inst, POP; by rewrite list_count_registers by lia).
  assert (El : listed inst (below 16) = registers rl) by (unfold inst, POP; by rewrite list_registers_16 by lia).
  assert (Ea : GetAddressingOp inst = Some LdnStM_IncrementAfter).
  { unfold GetAddressingOp, inst, POP. rewrite !(list_BITS 0xE8BD rl ltac:(lia) ltac:(lia) 24 27) by lia.
    rewrite !(list_BITS 0xE8BD rl ltac:(lia) ltac:(lia) 23 27) by lia. reflexivity. }
  set (s0 := put 13 (u32 (reg s 13 + n * 4)) s).
  assert (Hs0 : regs_ok s0) by (apply regs_put; [done | apply u32_range]).
  assert (Eaddr : call_get_addr (Some LdnStM_IncrementAfter) inst s = inr (reg s 13, s0)).
  { cbn [call_get_addr]. unfold IncrementAfter, Rn_field. rewrite Ec, E16. cbv zeta.
    rewrite (run_bind _ _ _ _ _ (run_read_sp s Hs)).
    by rewrite (run_bind _ _ _ _ _ (run_write_back inst (n * 4) s Hs E28 E16 E21)). }
  destruct (run_loads val (registers rl) (reg s 13) s0 Hs0 (registers_range rl) Hv Hu ltac:(lia) ltac:(fold n; lia))
    as (s1 & Eld & Hs1 & Hm1 & Hst1 & Hr1).
  exists (put 15 (u32 (reg s1 15 + GetInstructionSize s1)) s1). split.
  { unfold LDM_INST, trans_ldm. cbn [comp]. rewrite Ea. apply run_conditionally.
    - unfold cond_holds. cbn [cond]. by rewrite E28.
    - rewrite (run_bind _ _ _ _ _ Eaddr), E22, E15. cbn [truth Z.eqb negb andb].
      erewrite run_bind; [reflexivity|]. erewrite run_bind by (rewrite for_list_listed, El; exact Eld). reflexivity.
    - done. }
  split_and!; [apply regs_put; [done | apply u32_range] | done | done |].
  intros r Hr. rewrite reg_put_ne by lia. rewrite Hr1 by lia. unfold registers at 1.
  destruct (Z.eqb_spec r 13) as [->|Hne].
  - rewrite decide_False by done. unfold s0. rewrite reg_put by (done || lia). rewrite u32_small; unfold is_u32; lia.
  - unfold s0. rewrite reg_put_ne by lia. destruct (Z.testbit rl r) eqn:E.
    + rewrite decide_True; [done|]. apply listed_in; [lia|]. split; [|done]. apply elem_of_seqZ. lia.
    + rewrite decide_False; [done|]. intros H. apply listed_in in H as [_ H]; [congruence | lia].
Qed.

(** C30: [push] of any list of registers without SP and PC moves SP down by four bytes for
    each and keeps the others; whatever happens to the registers then, as long as the
    stack is not written, [pop] of the same list restores them, and SP, in either byte order. *)
Theorem push_pop rl k k' s : regs_ok s -> 0 <= rl < 32768 -> Z.testbit rl 13 = false -> reg s 13 mod 4 = 0 ->
  4 * Z.of_nat (length (registers rl)) <= reg s 13 ->
  exists s1, STM_INST (trans_stm (PUSH rl) k) s = inr (NEXT, s1) /\
    reg s1 13 = reg s 13 - 4 * Z.of_nat (length (registers rl)) /\
    (forall r, 0 <= r < 15 -> r <> 13 -> reg s1 r = reg s r) /\
    forall s2, regs_ok s2 -> memory s2 = memory s1 -> reg s2 13 = reg s1 13 ->
      InBigEndianMode s2 = InBigEndianMode s ->
      exists s3, LDM_INST (trans_ldm (POP rl) k') s2 = inr (NEXT, s3) /\
        reg s3 13 = reg s 13 /\ memory s3 = memory s2 /\ status s3 = status s2 /\
        forall r, 0 <= r < 15 -> r <> 13 -> reg s3 r = if Z.testbit rl r then reg s r else reg s2 r.
Proof.
  intros Hs Hrl Hb Hal Hsp.
  assert (H13 : ~ 13 ∈ registers rl) by (intros H; apply listed_in in H as [_ H]; [congruence | lia]).
  pose proof (reg_u32 s 13 Hs) as Hu. unfold is_u32 in Hu.
  destruct (run_push rl k s Hs Hrl Hsp H13) as (s1 & E1 & Hs1 & Hst1 & Hr1 & Hm1).
  pose proof (Hr1 13 ltac:(lia)) as Hsp1. cbn [Z.eqb Pos.eqb] in Hsp1.
  exists s1. split_and!; [done | done | |].
  { intros r Hr Hne. rewrite Hr1 by done. zdecide. done. }
  intros s2 Hs2 Hm2 Hsp2 Hbe.
  destruct (run_pop rl (reg s) k' s2 Hs2 Hrl) as (s3 & E3 & Hs3 & Hm3 & Hst3 & Hr3); try done.
  - rewrite Hsp2, Hsp1. lia.
  - intros i. by apply reg_u32.
  - intros j i Hj. rewrite Hbe, Hm2, Hm1, Hsp2, Hsp1. apply stores_read.
    + apply Forall_forall. intros v Hv. apply list_elem_of_In, List.in_map_iff in Hv as (r & <- & _). by apply reg_u32.
    + zlia.
    + rewrite list_lookup_fmap. by rewrite Hj.
  - exists s3. split_and!; try done.
    + rewrite Hr3 by lia. cbn [Z.eqb Pos.eqb]. rewrite Hsp2, Hsp1. lia.
    + intros r Hr Hne. rewrite Hr3 by lia. by zdecide.
Qed.

(** ** Exclusive accesses *)

(** [LDREX] and [STREX] by their structures. *)
Definition strex (k : Z) (b : TransExtData) (Rn Rd Rm : Z) : arm_inst := mkInst k (Some AL) b (strex_inst Rn Rd Rm).
Definition ldrex (k : Z) (b : TransExtData) (Rn Rd : Z) : arm_inst := mkInst k (Some AL) b (ldrex_inst Rn Rd).

(** An access is exclusive when a load reserved its granule of eight bytes. *)
Definition reserved s (a : Z) : Prop :=
  exclusive_state (monitor s) = true /\ exclusive_tag (monitor s) = Z.land a 0xFFFFFFF8.

Lemma exclusive_decides a s : IsExclusiveMemoryAccess a s = true <-> reserved s a.
Proof.
  unfold IsExclusiveMemoryAccess, reserved. rewrite andb_true_iff, Z.eqb_eq. done.
Qed.

(** [LDREX] loads the word and reserves its granule of eight bytes.  [STREX] stores and
    gives 0 exactly when its granule is the reserved one, and else gives 1 without a store;
    either way no reservation that it used is left, so a second [STREX] fails. *)
Theorem exclusive_access k b k' b' s s1 Rn Rd Rn' Rd' Rm' :
  regs_ok s -> regs_ok s1 -> 0 <= Rn < 15 -> 0 <= Rd < 15 -> 0 <= Rn' < 15 -> 0 <= Rd' < 15 -> 0 <= Rm' < 15 ->
  (exists s', LDREX_INST (ldrex k b Rn Rd) s = inr (NEXT, s') /\ memory s' = memory s /\
     reg s' Rd = word_of (InBigEndianMode s) (Read32 (memory s) (reg s Rn)) /\
     forall a, reserved s' a <-> Z.land a 0xFFFFFFF8 = Z.land (reg s Rn) 0xFFFFFFF8) /\
  (exists s2, STREX_INST (strex k' b' Rn' Rd' Rm') s1 = inr (NEXT, s2) /\
     (reserved s1 (reg s1 Rn') -> reg s2 Rd' = 0 /\ (forall a, ~ reserved s2 a) /\
        memory s2 = Write32 (reg s1 Rn') (word_of (InBigEndianMode s1) (reg s1 Rm')) (memory s1)) /\
     (~ reserved s1 (reg s1 Rn') -> reg s2 Rd' = 1 /\ memory s2 = memory s1 /\ monitor s2 = monitor s1)).
Proof.
  intros Hs Hs1 HRn HRd HRn' HRd' HRm'. split.
  - set (v := word_of (InBigEndianMode s) (Read32 (memory s) (reg s Rn))).
    assert (Hv : is_u32 v) by (apply word_of_u32, Read32_range).
    set (s0 := with_monitor (mkMonitor (Z.land (reg s Rn) RESERVATION_GRANULE_MASK) true) s).
    eexists. split; [|split_and!].
    + unfold LDREX_INST, load_exclusive, ldrex. cbn [comp]. eapply run_plainly; [done | |].
      * rewrite (run_bind _ _ _ _ _ (run_get_reg s Rn Hs ltac:(lia))).
        erewrite run_bind by reflexivity. erewrite run_bind by reflexivity.
        apply (run_set_reg s0 Rd v); [exact Hs | lia].
      * by apply (regs_put s0).
    + done.
    + rewrite reg_put_ne by lia. apply reg_put; [done | lia].
    + intros a. unfold reserved. cbn [monitor put with_Reg s0 with_monitor exclusive_state exclusive_tag].
      unfold RESERVATION_GRANULE_MASK. split; [by intros [_ ->] | by intros ->].
  - unfold STREX_INST, store_exclusive, strex. cbn [comp].
    destruct (IsExclusiveMemoryAccess (reg s1 Rn') s1) eqn:E.
    + set (s0 := with_monitor (mkMonitor 0xFFFFFFFF false) s1).
      set (s0' := with_memory (Write32 (reg s1 Rn') (word_of (InBigEndianMode s1) (reg s1 Rm')) (memory s1)) s0).
      eexists. split; [|split].
      * eapply run_plainly; [done | |].
        -- rewrite (run_bind _ _ _ _ _ (run_get_reg s1 Rn' Hs1 ltac:(lia))).
           erewrite run_bind by reflexivity. rewrite E. erewrite run_bind by reflexivity.
           erewrite run_bind by (rewrite (run_bind _ _ _ _ _ (run_get_reg s0 Rm' Hs1 ltac:(lia))); reflexivity).
           apply (run_set_reg s0' Rd' 0); [exact Hs1 | lia].
        -- apply (regs_put s0'); [exact Hs1 | by apply u32_const].
      * intros _. split_and!; [rewrite reg_put_ne by lia; apply reg_put; [exact Hs1 | lia] | by intros a [? _] | done].
      * intros H. by apply exclusive_decides in E.
    + eexists. split; [|split].
      * eapply run_plainly; [done | |].
        -- rewrite (run_bind _ _ _ _ _ (run_get_reg s1 Rn' Hs1 ltac:(lia))).
           erewrite run_bind by reflexivity. rewrite E. apply (run_set_reg s1 Rd' 1); [exact Hs1 | lia].
        -- apply (regs_put s1); [exact Hs1 | by apply u32_const].
      * intros H. apply exclusive_decides in H. congruence.
      * intros _. split_and!; [rewrite reg_put_ne by lia; apply reg_put; [exact Hs1 | lia] | done | done].
Qed.

End Stack.
