(* ===== verification/ArmModes.v ===== *)
(** * ArmModes: mode changes, exception returns and Thumb calls of the ARM interpreter *)
From stdpp Require Import list.
From S2P Require Import Prelude ArmSupp ArmState ArmOperands ArmTrans ArmExec ArmLdSt ArmTyped ArmSpecs.

Local Open Scope Z_scope.

Section Modes.
Context {mem : Type} `{MI : MemoryInterface mem}.
Implicit Types s : ARMul_State mem.

(** ** Mode changes *)

(** The modes with their own R13 and R14; user and system mode share them. *)
Definition pair_modes : list Z :=
  [USER32MODE; IRQ32MODE; SVC32MODE; ABORT32MODE; UNDEF32MODE; SYSTEM32MODE].
Definition has_spsr (m : Z) : bool := negb (m =? USER32MODE) && negb (m =? SYSTEM32MODE).

Lemma sixteen (P : list Z -> Prop) (l : list Z) : length l = 16%nat ->
  (forall r0 r1 r2 r3 r4 r5 r6 r7 r8 r9 r10 r11 r12 r13 r14 r15,
     P [r0; r1; r2; r3; r4; r5; r6; r7; r8; r9; r10; r11; r12; r13; r14; r15]) -> P l.
Proof. intros Hl H. do 16 (destruct l as [|? l]; [discriminate Hl|]). destruct l; [apply H | discriminate Hl]. Qed.

(** A change from a mode to another and back, FIQ left out, restores every register, the
    mode, and the saved status of a mode that has one. *)
Theorem mode_round_trip m s : let m0 := Mode (status s) in
  length (Reg s) = 16%nat -> length (Spsr (banks s)) = 7%nat -> m0 ∈ pair_modes -> m ∈ pair_modes -> m <> m0 ->
  let s' := mode_change m0 (mode_change m s) in
  Reg s' = Reg s /\ Mode (status s') = m0 /\ memory s' = memory s /\
  (has_spsr m0 = true -> Spsr_copy (status s') = Spsr_copy (status s)).
Proof.
  destruct s as [mm R B P C V E Mo N Q]. intros m0 HR HS H0 Hm Hne. cbn [status Reg banks] in *.
  destruct B as [usr svc ab und irq fiq sp]. cbn [Spsr] in HS.
  do 7 (destruct sp as [|? sp]; [discriminate HS|]). destruct sp; [clear HS | discriminate HS].
  pattern R. apply sixteen; [done|]. clear R HR. intros.
  destruct P as [cp sc mo ba nf zf cf vf tf co]. cbn [Mode] in m0. subst m0. cbn [status Mode] in *.
  unfold pair_modes in H0, Hm. rewrite !elem_of_cons, elem_of_nil in H0, Hm.
  destruct H0 as [-> | [-> | [-> | [-> | [-> | [-> | []]]]]]];
    destruct Hm as [-> | [-> | [-> | [-> | [-> | [-> | []]]]]]]; try done; split_and!; try reflexivity;
    intros Hh; first [discriminate Hh | reflexivity].
Qed.

(** FIQ has its own R8 to R12 too, but only the registers R13 and R14 of the other modes
    are saved: after a change to FIQ and back R8 to R12 are those of FIQ. *)
Lemma fiq_round_trip s : let m0 := Mode (status s) in
  length (Reg s) = 16%nat -> length (Reg_firq (banks s)) = 7%nat -> m0 ∈ pair_modes ->
  let s' := mode_change m0 (mode_change FIQ32MODE s) in
  Mode (status s') = m0 /\
  forall r, 8 <= r <= 12 -> reg s' r = nth (Z.to_nat (r - 8)) (Reg_firq (banks s)) 0.
Proof.
  destruct s as [mm R B P C V E Mo N Q]. intros m0 HR HS H0. cbn [status Reg banks] in *.
  destruct B as [usr svc ab und irq fiq sp]. cbn [Reg_firq] in HS.
  do 7 (destruct fiq as [|? fiq]; [discriminate HS|]). destruct fiq; [clear HS | discriminate HS].
  pattern R. apply sixteen; [done|]. clear R HR. intros.
  destruct P as [cp sc mo ba nf zf cf vf tf co]. cbn [Mode] in m0. subst m0. cbn [status Mode banks Reg_firq] in *.
  unfold pair_modes in H0. rewrite !elem_of_cons, elem_of_nil in H0.
  destruct H0 as [-> | [-> | [-> | [-> | [-> | [-> | []]]]]]]; (split; [reflexivity|]); intros r Hr;
    (assert (r = 8 \/ r = 9 \/ r = 10 \/ r = 11 \/ r = 12) as [-> | [-> | [-> | [-> | ->]]]] by lia); reflexivity.
Qed.

(** ** Thumb calls *)

(** The offset of the two halves of [BL], eleven bits each. *)
Definition bl_offset (hi lo : Z) : Z :=
  let o := hi * 4096 + lo * 2 in if hi <? 1024 then o else o - 8388608.

Lemma bl_high hi : 0 <= hi < 2048 ->
  Z.lor (Z.shiftl (Z.land (0xF000 + hi) 0x07FF) 12) (if truth (Z.land (0xF000 + hi) (Z.shiftl 1 10)) then 0xFF800000 else 0) =
  hi * 4096 + (if hi <? 1024 then 0 else 0xFF800000).
Proof.
  intros Hhi. change 0x07FF with (Z.ones 11). rewrite Z.land_ones by lia.
  assert ((0xF000 + hi) mod 2 ^ 11 = hi) as -> by (change (2 ^ 11) with 2048; zlia).
  rewrite !Z.shiftl_mul_pow2 by lia. change (1 * 2 ^ 10) with (2 ^ 10). rewrite truth_bit by lia.
  assert (Z.testbit (0xF000 + hi) 10 = negb (hi <? 1024)) as ->.
  { apply Z.b2z_inj. rewrite Z.testbit_spec' by lia. change (2 ^ 10) with 1024.
    destruct (Z.ltb_spec hi 1024); cbn [negb Z.b2z]; zlia. }
  change (2 ^ 12) with 4096. destruct (hi <? 1024); cbn [negb]; [by rewrite Z.lor_0_r, Z.add_0_r|].
  rewrite Z.lor_comm, (lor_add _ _ 23); [lia | lia | change (2 ^ 23) with 8388608; lia | done].
Qed.

(** The two halves of a Thumb [BL] together call: PC is the address of the first half
    plus 4 plus the signed offset of 23 bits, and LR is the address after the second half
    with the Thumb bit, whatever is between the registers' words. *)
Theorem thumb_call hi lo k k' s : regs_ok s -> 0 <= hi < 2048 -> 0 <= lo < 2048 -> TFlag (status s) = 1 ->
  exists s1 s2, BL_1_THUMB (trans_bl_1_thumb (0xF000 + hi) k) s = inr (NEXT, s1) /\
    BL_2_THUMB (trans_bl_2_thumb (0xF800 + lo) k') s1 = inr (DISPATCH, s2) /\
    reg s2 15 = u32 (reg s 15 + 4 + bl_offset hi lo) /\ reg s2 14 = Z.lor (u32 (reg s 15 + 4)) 1 /\
    TFlag (status s2) = 1 /\ forall r, 0 <= r < 14 -> reg s2 r = reg s r.
Proof.
  intros Hs Hhi Hlo HT. unfold trans_bl_1_thumb, trans_bl_2_thumb. rewrite bl_high by done.
  change 0x07FF with (Z.ones 11). rewrite Z.land_ones by lia.
  assert ((0xF800 + lo) mod 2 ^ 11 = lo) as -> by (change (2 ^ 11) with 2048; zlia).
  rewrite Z.shiftl_mul_pow2 by lia. change (2 ^ 1) with 2.
  set (imm := hi * 4096 + _). set (lr := u32 (reg s 15 + 4 + imm)). set (s0 := put 14 lr s).
  assert (Hs0 : regs_ok s0) by (apply regs_put; [done | apply u32_range]).
  assert (E1 : GetInstructionSize s0 = 2) by (unfold GetInstructionSize; change (status s0) with (status s); by rewrite HT).
  set (s1 := put 15 (u32 (reg s0 15 + GetInstructionSize s0)) s0).
  assert (Hs1 : regs_ok s1) by (apply regs_put; [done | apply u32_range]).
  assert (H15 : reg s1 15 = u32 (reg s 15 + 2)).
  { unfold s1. rewrite reg_put, E1 by (done || lia). unfold s0. by rewrite reg_put_ne by lia. }
  assert (H14 : reg s1 14 = lr).
  { unfold s1. rewrite reg_put_ne by lia. unfold s0. by rewrite reg_put by (done || lia). }
  set (s2 := put 15 (u32 (reg s1 14 + lo * 2)) s1).
  assert (Hs2 : regs_ok s2) by (apply regs_put; [done | apply u32_range]).
  exists s1, (put 14 (Z.lor (u32 (reg s1 15 + 2)) 1) s2). split_and!.
  - unfold BL_1_THUMB, always. cbn [comp].
    erewrite run_bind by (rewrite (run_bind _ _ _ _ _ (run_get_reg s 15 Hs ltac:(lia))); apply run_set_reg; [done | lia]).
    fold lr s0. by rewrite (run_bind _ _ _ _ _ (run_step_pc s0 Hs0)).
  - unfold BL_2_THUMB. cbn [comp]. rewrite (run_bind _ _ _ _ _ (run_get_reg s1 15 Hs1 ltac:(lia))).
    rewrite (run_bind _ _ _ _ _ (run_get_reg s1 14 Hs1 ltac:(lia))).
    rewrite (run_bind _ _ _ _ _ (run_set_reg s1 15 _ Hs1 ltac:(lia))).
    by rewrite (run_bind _ _ _ _ _ (run_set_reg s2 14 _ Hs2 ltac:(lia))).
  - rewrite reg_put_ne by lia. unfold s2. rewrite reg_put, H14 by (done || lia). unfold lr, imm, bl_offset.
    destruct (hi <? 1024); word_lia.
  - rewrite reg_put by (done || lia). rewrite H15. f_equal. word_lia.
  - done.
  - intros r Hr. rewrite reg_put_ne by lia. unfold s2, s1, s0. by rewrite !reg_put_ne by lia.
Qed.

End Modes.
