(* ===== verification/ArmDecoded.v ===== *)
(** * ArmDecoded: the function pointers of decoded ARM instructions

    The decoder's exclusions keep the words without a shifter operand away from the data
    processing instructions; nothing does the same for loads and stores. *)
From stdpp Require Import list.
From S2P Require Import ArmDecode.
From S2P Require Import Prelude ArmSupp ArmState ArmOperands ArmTrans ArmExec ArmLdSt ArmLoop.
From S2P Require Import ArmTyped ArmSafe ArmLabels ArmRun ArmSpecs ArmShift.

Local Open Scope Z_scope.

(** The shifter function of a structure that has one. *)
Definition shifter_of (c : component) : option (option shtop) :=
  match c with
  | alu_inst _ _ _ _ _ f | cmp_inst _ _ _ f | mov_inst _ _ _ _ f => Some f
  | _ => None
  end.

Definition shifted (sh : shape) : bool := match sh with sh_alu | sh_cmp | sh_mov => true | _ => false end.

Lemma trans_shifter : Forall (fun t => forall inst index,
  match shifter_of (comp (t inst index)) with
  | Some f => f = GetShifterOp inst /\ shifted (trans_shape t) = true
  | None => True
  end) arm_instruction_trans.
Proof.
  unfold arm_instruction_trans. cbn [app replicate].
  repeat (apply List.Forall_cons; [intros; first [exact I | split; reflexivity]|]). constructor.
Qed.

(** The fields by which an entry keeps the words without an operand away. *)
Definition guarded (i : nat) : bool :=
  match arm_instruction_trans !! i with
  | Some t =>
      negb (shifted (trans_shape t)) ||
      match arm_instruction !! i, arm_exclusion_code !! i with
      | Some it, Some ex =>
          bool_decide (item_fields ex = [(4, 4, 1); (7, 7, 1); (25, 25, 0)] /\ attribute_value ex <> 0%nat) ||
          bool_decide ((4, 11, 0) ∈ item_fields it)
      | _, _ => false
      end
  | None => true
  end.
Lemma all_guarded : forallb guarded (seq 0 202) = true.
Proof. vm_compute. reflexivity. Qed.

Lemma pointer_none inst : is_u32 inst -> GetShifterOp inst = None ->
  has_fields inst [(4, 4, 1); (7, 7, 1); (25, 25, 0)] /\ field inst 4 11 <> 0.
Proof.
  intros Hi H. rewrite GetShifterOp_pointer in H by done.
  destruct (operand_bits_of inst) as [Hb _ Hm _ _ E7 _ _ E411]. unfold is_bit in Hb.
  pose proof (field_range inst 25 25 ltac:(lia)) as H25. change (2 ^ (25 - 25 + 1)) with 2 in H25.
  destruct (Z.eqb_spec (field inst 25 25) 1); [done|]. unfold shift_pointer in H.
  destruct (Z.eqb_spec (field inst 4 4) 0) as [|H4]; [done|]. destruct (Z.eqb_spec (field inst 7 11 mod 2) 0) as [|H7]; [done|].
  pose proof (Z.mod_pos_bound (field inst 7 11) 2 ltac:(lia)) as Hm2.
  assert (field inst 7 7 = field inst 7 11 mod 2) as E.
  { unfold field. change (2 ^ (7 - 7 + 1)) with 2. change (2 ^ (11 - 7 + 1)) with 32. change (2 ^ 7) with 128. zlia. }
  pose proof (field_range inst 5 6 ltac:(lia)). split; [|lia].
  repeat constructor; lia.
Qed.

(** Every data processing word that the decoder accepts has a shifter function: the
    call through the pointer that its translation keeps is never one of a null function. *)
Theorem data_processing_pointer inst i t f : is_u32 inst ->
  DecodeARMInstruction inst = (SUCCESS, Some i) -> translator (Z.of_nat i) inst = Some t ->
  shifter_of (comp t) = Some f -> f <> None.
Proof.
  intros Hi Hd Ht Hf Hn. subst f. unfold translator in Ht. rewrite Nat2Z.id in Ht.
  destruct (arm_instruction_trans !! i) as [tr|] eqn:Etr; [|done]. injection Ht as <-.
  pose proof (Forall_lookup_1 _ _ _ _ trans_shifter Etr inst (Z.of_nat i)) as Hs. rewrite Hf in Hs.
  destruct Hs as [Hop Hsh]. symmetry in Hop. destruct (pointer_none inst Hi Hop) as [Hex H411].
  assert (Hg : guarded i = true).
  { pose proof all_guarded as H. rewrite forallb_forall in H. apply H, List.in_seq. pose proof (decode_index _ _ Hd). lia. }
  unfold guarded in Hg. rewrite Etr, Hsh in Hg. cbn [negb orb] in Hg.
  destruct (decode_spec inst Hi) as [(i' & E & Ha & _) | [E _]]; [|congruence].
  rewrite Hd in E. injection E as <-. destruct Ha as (it & ex & E1 & E2 & _ & Hit & Hno). rewrite E1, E2 in Hg.
  apply orb_true_iff in Hg as [Hg|Hg]; apply bool_decide_eq_true in Hg.
  - destruct Hg as [Hg Hn0]. apply Hno. rewrite Hg. by split.
  - unfold has_fields in Hit. rewrite Forall_forall in Hit. apply H411. by apply (Hit _ Hg).
Qed.
