(* ===== verification/ArmModel.v ===== *)
(** * ArmModel: an instance of the interfaces of the ARM interpreter

    A memory of words, a kernel with one system call and no floating point unit: the
    interfaces can be implemented, and programs can be run. *)
From stdpp Require Import gmap list.
From S2P Require ArmDecode.
From S2P Require Import Prelude ArmSupp ArmState ArmOperands ArmTrans ArmExec ArmMedia ArmLdSt ArmLoop.
From S2P Require Import ArmTyped ArmSafe ArmLabels ArmRun ArmCore ArmSpecs ArmShift ArmArith ArmStack ArmModes ArmDecoded.

Local Open Scope Z_scope.

(** ** A memory *)

(** Aligned words; what is not written reads as 0. *)
Abbreviation words := (gmap Z Z).

Definition word_at (m : words) (a : Z) : Z := u32 (default 0 (m !! (a / 4))).
Definition read_bytes (n : Z) (m : words) (a : Z) : Z :=
  Z.shiftr (word_at m a) (8 * (a mod 4)) mod 2 ^ (8 * n).
Definition write_bytes (n a v : Z) (m : words) : words :=
  let old := word_at m a in
  let k := 8 * (a mod 4) in
  let mask := Z.shiftl (Z.ones (8 * n)) k in
  <[a / 4 := Z.lor (Z.ldiff old mask) (Z.land (Z.shiftl v k) mask)]> m.

#[export] Instance words_memory : MemoryInterface words := {
  Read8 := read_bytes 1;
  Read16 := read_bytes 2;
  Read32 m a := word_at m a;
  Read64 m a := word_at m a + 2 ^ 32 * word_at m (a + 4);
  Write8 := write_bytes 1;
  Write16 := write_bytes 2;
  Write32 a v m := <[a / 4 := v]> m;
  Write64 a v m := <[a / 4 := u32 v]> (<[(a + 4) / 4 := u32 (v / 2 ^ 32)]> m) }.

Lemma word_at_u32 m a : is_u32 (word_at m a).
Proof. apply u32_range. Qed.

#[export] Instance words_laws : MemoryLaws words.
Proof.
  split; intros; cbn [Read8 Read16 Read32 Read64 Write32 words_memory].
  - apply Z.mod_pos_bound. lia.
  - apply Z.mod_pos_bound. lia.
  - apply word_at_u32.
  - pose proof (word_at_u32 m a). pose proof (word_at_u32 m (a + 4)). unfold_words. lia.
  - unfold word_at. rewrite lookup_insert_eq. by apply u32_small.
  - unfold word_at. rewrite lookup_insert_ne; [done|].
    zlia.
Qed.

(** ** A kernel and a coprocessor *)

(** System call 0 stops the core; the others do nothing. *)
#[export] Instance stop_kernel : SVCInterface words := {
  CallSVC num c := inr (if num =? 0 then PrepareReschedule c else c) }.

#[export] Instance no_vfp : VFPInterface words := { vfp_label := fun _ _ => always (mret ()) }.

(** A layout: 16 bytes for the instruction and 48 for its component. *)
#[export] Instance flat_layout : Layout := { size_bytes _ := 64 }.

(** ** A processor after reset *)

Definition blank (m : words) : ARMul_State words :=
  mkState m (replicate 16 0)
    (mkBanks [0; 0] [0; 0] [0; 0] [0; 0] [0; 0] [0; 0; 0; 0; 0; 0; 0] [0; 0; 0; 0; 0; 0; 0])
    (mkStatus 0 0 0 0 0 0 0 0 0 0) (replicate 84 0) [0; 0; 0; 0; 0; 0; 0] (replicate 64 0)
    (mkMonitor 0 false) 0 0.

(** The constructor: a reset, then the mode. *)
Definition boot (mode : Z) (m : words) : ARMul_State words := mode_change mode (Reset (blank m)).

Definition program (l : list Z) : words := list_to_map (zip (seqZ 0 (Z.of_nat (length l))) l).

Definition core_of (l : list Z) (mode : Z) : Core words := mkCore (boot mode (program l)) ∅ [] 0 0.

(** ** The laws of the instance *)

Definition wordsb (n : nat) (l : list Z) : bool :=
  (length l =? n)%nat && forallb (fun x => (0 <=? x) && (x <? 2 ^ 32)) l.

Lemma words_okb n l : wordsb n l = true -> words_ok n l.
Proof.
  intros [H1 H2]%andb_true_iff. split; [by apply Nat.eqb_eq|].
  apply Forall_forall. intros x Hx%list_elem_of_In. rewrite forallb_forall in H2. by apply u32_const, H2.
Qed.

Lemma boot_ok m : state_ok false (boot USER32MODE m).
Proof.
  split; [| split | split |]; try (apply words_okb; vm_compute; reflexivity); try done;
    try (apply u32_const; vm_compute; reflexivity); try (vm_compute; split; (reflexivity || discriminate)).
Qed.


(** ** Runs that the processor allows

    What the theorems about the main loop leave open does happen. *)

(** How a run ends: the failure, or the mode, the status word and the registers. *)
Definition outcome (r : option (cpu_fault + Core words)) : option (cpu_fault + (Z * Z * list Z)) :=
  match r with
  | Some (inr c) => Some (inr (Mode (status (cpu c)), Cpsr (status (cpu c)), Reg (cpu c)))
  | Some (inl e) => Some (inl e)
  | None => None
  end.

(** Instructions on registers and memory, then the system call that stops the core. *)
Example sample_run :
  outcome (ExecuteInstructions 20
    (core_of [0xE3A00005; 0xE2900003; 0xE3A01A01; 0xE92D0003; 0xE8BD000C; 0xEF000000] USER32MODE)) =
  Some (inr (USER32MODE, 464, [8; 4096; 8; 4096; 0; 0; 0; 0; 0; 0; 0; 0; 0; 0; 0; 24])).
Proof. vm_compute. reflexivity. Qed.

Example sample_calls_out : calls_out 20 (core_of [0xE3A00005; 0xEF000000] USER32MODE).
Proof. vm_compute. reflexivity. Qed.

(** A program of user mode that stores 31 as a status word on its stack, loads it with
    [RFE] and writes a part of it with [MSR] is in system mode afterwards. *)
Definition escalation : list Z :=
  [0xE3A01A01; 0xE3A0201F; 0xE5812000; 0xE3A03020; 0xE5813004; 0xE1A0D001; 0xF89D0A00; 0xE1A00000;
   0xE121F002; 0xEF000000].
Lemma user_mode_escalates :
  outcome (ExecuteInstructions 20 (core_of escalation USER32MODE)) =
    Some (inr (SYSTEM32MODE, 31, [0; 4096; 31; 32; 0; 0; 0; 0; 0; 0; 0; 0; 0; 4096; 0; 40])).
Proof. vm_compute. reflexivity. Qed.

(** The permanently undefined word 0xE7F000F0 is translated as a load without an address
    function, and 0xE1600090 is no instruction at all. *)
Lemma undefined_words :
  outcome (ExecuteInstructions 20 (core_of [0xE7F000F0] USER32MODE)) = Some (inl NullFunction) /\
  outcome (ExecuteInstructions 20 (core_of [0xE1600090] USER32MODE)) = Some (inl Undecoded).
Proof. split; vm_compute; reflexivity. Qed.

(** [LDRD] to R15, by its second register, is an access past the register file. *)
Lemma doubleword_past_registers :
  outcome (ExecuteInstructions 20 (core_of [0xE3A01A01; 0xE1C1F0D0] USER32MODE)) = Some (inl RegisterIndex).
Proof. vm_compute. reflexivity. Qed.

(** ** The theorems at concrete inputs *)

(** A processor after reset, with some registers set. *)
Definition booted (l : list (Z * Z)) : ARMul_State words := foldr (fun '(r, v) s => put r v s) (boot USER32MODE ∅) l.

Lemma booted_ok l : Forall (fun '(_, v) => is_u32 v) l -> regs_ok (booted l).
Proof.
  induction 1 as [|[r v] l Hv _ IH]; [apply ok_Reg with false, boot_ok|]. by apply regs_put.
Qed.

Lemma with_status_ok p (s : ARMul_State words) : regs_ok s -> regs_ok (with_status p s).
Proof. exact id. Qed.

Lemma instruction_typed_witness : exists i, translator 148 0xE0922003 = Some i /\
  match run_label i 1 (core_of [] USER32MODE) with
  | inl e => e = RegisterIndex \/ e = NullFunction
  | inr (_, n', c') => n' = 1 /\ state_ok false (cpu c')
  end.
Proof.
  eexists. split; [reflexivity|].
  apply (instruction_typed 148 0xE0922003); [reflexivity | done | discriminate | apply boot_ok].
Defined.

Lemma user_mode_confined_witness : exists i, translator 143 0xE121F002 = Some i /\
  match run_label i 1 (core_of [] USER32MODE) with
  | inl e => e = RegisterIndex \/ e = NullFunction
  | inr (_, _, c') => Mode (status (cpu c')) = USER32MODE /\ Z.land (Cpsr (status (cpu c'))) 31 = USER32MODE
  end.
Proof.
  eexists. split; [reflexivity|].
  apply (user_mode_confined 143 0xE121F002); try done; try apply boot_ok.
Defined.


Lemma block_translates_witness :
  let s := boot USER32MODE (program [0xE2900003; 0xEF000000]) in
  exists r, block page_fuel s 0 = Some r /\
    match r with
    | inl e => e = Undecoded
    | inr l => ends l /\
        forall j i, l !! j = Some i ->
          exists i0, let b := u32 (0 + Z.of_nat j * size_of s) in
            InterpreterTranslateInstruction s b = inr (i0, size_of s) /\ i = block_inst b (size_of s) i0
    end.
Proof. cbv zeta. apply block_translates; done. Defined.

Definition compared_state : ARMul_State words := booted [(0, 5); (1, 0xFFFFFFFF)].
Definition after_operand : ARMul_State words :=
  with_status (with_shifter_carry_out 0 (status compared_state)) compared_state.

Lemma CMP_conditions_witness :
  exists i, translator 130 0xE1500001 = Some i /\ exists s', CMP_INST i compared_state = inr (NEXT, s') /\
    Reg s' = <[15%nat := u32 (reg after_operand 15 + GetInstructionSize after_operand)]> (Reg after_operand) /\
    memory s' = memory after_operand /\
    forall cond r, compared cond 5 0xFFFFFFFF = Some r -> CondPassed (status s') cond = r.
Proof.
  eexists. split; [reflexivity|].
  eapply (CMP_conditions _ compared_state 0 0 1 (Some DPO_Register) 5 0xFFFFFFFF after_operand);
    [reflexivity | vm_compute; reflexivity | vm_compute; reflexivity | vm_compute; reflexivity | done | done |].
  apply with_status_ok, (booted_ok [(0, 5); (1, 0xFFFFFFFF)]). by repeat constructor.
Defined.

Lemma shifter_operand_reference_witness : let s := booted [(1, 0x80000001); (2, 33)] in
  call_shtop (Some DPO_LogicalShiftRightByRegister) (BITS 0xE1A00231 0 11) s = with_carry (0, 0) s.
Proof.
  cbv zeta. etransitivity; [apply shifter_operand_reference | reflexivity]; try done.
  apply booted_ok. by repeat constructor.
Defined.

Lemma long_products_witness : let s := booted [(0, 0xFFFFFFFF); (1, 0xFFFFFFFE); (2, 7); (3, 9)] in
  exists s', SMULL_INST (mkInst 139 (Some AL) NON_BRANCH (mull_inst 0 0 1 3 2)) s = inr (NEXT, s') /\
    s64 (pair s' 3 2) = s32 0xFFFFFFFF * s32 0xFFFFFFFE.
Proof.
  cbv zeta. set (s := booted _).
  assert (Hs : regs_ok s) by (by apply booted_ok; repeat constructor).
  refine (proj1 (proj2 (long_products 139 AL NON_BRANCH s 0 0 1 3 2 Hs _ _ _ _ _ _))); [lia.. | reflexivity].
Defined.

Lemma byte_maximum_witness : let s := booted [(0, 0x01FF8000); (1, 0x02017FFF)] in
  exists s1 s2,
    UADD8_INST (mkInst 42 (Some AL) NON_BRANCH (parallel_inst 1 0 2 3 7)) s = inr (NEXT, s1) /\
    SEL_INST (mkInst 50 (Some AL) NON_BRANCH (parallel_inst 1 0 4 0 5)) s1 = inr (NEXT, s2) /\
    forall j, 0 <= j < 4 -> byte (reg s2 4) j = Z.max (byte (reg s 0) j) (byte (reg s 1) j).
Proof.
  cbv zeta. set (s := booted _).
  assert (Hs : regs_ok s) by (by apply booted_ok; repeat constructor).
  apply (byte_maximum 42 NON_BRANCH 3 50 NON_BRANCH 0 5 s 0 1 2 4 Hs); lia.
Defined.

Lemma push_pop_witness : let s := booted [(13, 4096); (4, 44); (5, 55)] in
  exists s1, STM_INST (trans_stm (PUSH 0x4030) 10) s = inr (NEXT, s1) /\ reg s1 13 = 4084 /\
    exists s3, LDM_INST (trans_ldm (POP 0x4030) 11) (put 4 1 s1) = inr (NEXT, s3) /\ reg s3 13 = 4096 /\ reg s3 4 = 44.
Proof.
  cbv zeta. set (s := booted _).
  assert (Hs : regs_ok s) by (by apply booted_ok; repeat constructor).
  destruct (push_pop 0x4030 10 11 s Hs) as (s1 & E1 & Hsp & Hr & Hpop);
    [lia | reflexivity | reflexivity | by vm_compute|].
  exists s1. split_and!; [done | rewrite Hsp; reflexivity|].
  assert (Hs1 : regs_ok s1).
  { vm_compute in E1. injection E1 as <-. apply words_okb. vm_compute. reflexivity. }
  assert (E : InBigEndianMode (put 4 1 s1) = InBigEndianMode s).
  { vm_compute in E1. injection E1 as <-. vm_compute. reflexivity. }
  destruct (Hpop (put 4 1 s1)) as (s3 & E3 & Hsp3 & _ & _ & Hr3);
    [by apply regs_put | done | by apply reg_put_ne | done |].
  exists s3. split_and!; [done | rewrite Hsp3; reflexivity|].
  rewrite Hr3 by lia. reflexivity.
Defined.

Lemma exclusive_access_witness : let s := booted [(0, 4096); (1, 7)] in
  exists s', LDREX_INST (ldrex 20 NON_BRANCH 0 2) s = inr (NEXT, s') /\
    (forall a, reserved s' a <-> Z.land a 0xFFFFFFF8 = Z.land (reg s 0) 0xFFFFFFF8).
Proof.
  cbv zeta. set (s := booted _).
  assert (Hs : regs_ok s) by (by apply booted_ok; repeat constructor).
  destruct (exclusive_access 20 NON_BRANCH 21 NON_BRANCH s s 0 2 0 3 1 Hs Hs) as [(s' & E & _ & _ & Hr) _]; try lia.
  by exists s'.
Defined.

Lemma mode_round_trip_witness : let s := booted [(13, 4096); (14, 8)] in
  Reg (mode_change USER32MODE (mode_change IRQ32MODE s)) = Reg s.
Proof.
  cbv zeta. apply (mode_round_trip IRQ32MODE (booted [(13, 4096); (14, 8)]));
    [reflexivity | reflexivity | | | discriminate]; apply elem_of_list_In || apply list_elem_of_In; cbn; tauto.
Defined.

Definition thumb_state : ARMul_State words :=
  let s := booted [(15, 0x1000)] in with_status (with_TFlag 1 (status s)) s.
Lemma thumb_call_witness :
  exists s1 s2, BL_1_THUMB (trans_bl_1_thumb (0xF000 + 1) 199) thumb_state = inr (NEXT, s1) /\
    BL_2_THUMB (trans_bl_2_thumb (0xF800 + 4) 200) s1 = inr (DISPATCH, s2) /\
    reg s2 15 = u32 (reg thumb_state 15 + 4 + bl_offset 1 4) /\
    reg s2 14 = Z.lor (u32 (reg thumb_state 15 + 4)) 1 /\
    TFlag (status s2) = 1 /\ forall r, 0 <= r < 14 -> reg s2 r = reg thumb_state r.
Proof.
  apply thumb_call; [|lia|lia|reflexivity]. apply with_status_ok, (booted_ok [(15, 0x1000)]). by repeat constructor.
Defined.

Lemma data_processing_pointer_witness : exists t f,
  translator 148 0xE0922003 = Some t /\ shifter_of (comp t) = Some f /\ f <> None.
Proof.
  eexists _, _. split; [reflexivity|]. split; [reflexivity|].
  apply (data_processing_pointer 0xE0922003 148 _ (Some DPO_Register) ltac:(done) ltac:(vm_compute; reflexivity) eq_refl eq_refl).
Defined.
